(* ===== verification/_CoqProject ===== *)
-Q . S2P
Prelude.v
Ring.v
Ipc.v
Pmm.v
Spinlock.v
Frames.v
Mem.v
CString.v
Heap.v
Klog.v
Input.v
Bootargs.v
Pipe.v
ProcTable.v
Signal.v
Sched.v
Block.v
Vmm.v
VmmProofs.v
VmmSpec.v
Fault.v
Futex.v
VmmWalk.v
VmmDestroy.v
VmmClone.v
SysMem.v
Elf.v
ElfSpec.v
ExecStack.v
Exec.v
HeapOwn.v
Xstate.v
Proc.v
ProcSpec.v
ForkSpec.v
Xfs.v
XfsProofs.v
XfsDir.v
XfsSpec.v
Path.v
Sysfs.v
SysfsSpec.v
SysFile.v
SysSignal.v
Poll.v
Nvme.v
NvmeSpec.v
Virtio.v
VirtioSpec.v
Pci.v
PciSpec.v
Platform.v
Mkfs.v
MkfsSpec.v
SysCall.v
