(* ===== verification/Prelude.v ===== *)
(** * X OS microkernel: verification library

    X OS is a small x86-64 microkernel written in C ([src/kernel]).  This library
    models the kernel's own logic as executable definitions, one file or group of
    files per component, and proves the properties that make each component
    correct.  Definitions keep the names of the C functions; a comment says which
    source file they come from.

    ** How the parts fit together

    At the bottom, the physical memory manager hands out reference-counted page
    frames; the kernel heap and the page tables are built from them.  The virtual
    memory manager builds address spaces, clones them copy-on-write for [fork] and
    tears them down; the page-fault handler completes copy-on-write and grows
    stacks.  The scheduler keeps the process table and the priority queues under a
    ticket spinlock and is called by pipes, IPC ports, signals, futexes and timers
    to block and wake processes.  The ELF loader and the stack builder turn a file
    into an address space; process creation composes all of these.  The file system
    sits on block devices; paths are resolved in front of it, and the system file
    system shows kernel state as files.  The system calls of these parts unpack
    their arguments and call them.  Drivers reach hardware through PCI; their
    devices are given by classes of laws, which state documented behaviour.

    ** The files

    - [Prelude]: machine words with explicit wrap-around, arrays as lists indexed
      by [Z], bounded loops ([find_up], [iter_up], [count_up]), tactics ([zlia],
      [bools], [case_if]) and the hint database [xos].
    - [Mem]: byte memory with little-endian loads and stores.  [Ring]: ring
      buffers, shared by IPC and pipes.  [Poll]: bounded polling loops.
    - [CString]: [kernel/lib/string.c], its word-wise [memcpy], [memmove],
      [memset] and string functions, against their byte-wise meaning.
    - [Spinlock]: [kernel/hal/apic/spinlock.h] as a step relation of any number of
      CPUs; refinement to a first-in-first-out lock, bounded waiting, interrupt
      flag.
    - [Pmm]: [kernel/memory/pmm.c] over its bitmap and 8-bit reference counts.
      [Frames]: the class [FrameAlloc] with its laws, what the components above
      rely on, and the instance for [Pmm].
    - [Heap]: [kernel/memory/heap.c], the free list inside the heap's own memory;
      [HeapOwn]: the same as seen by clients, as a list of held blocks.
    - [Klog]: [kernel/lib/kprintf.c] and the message buffer.  [Input]: keyboard,
      mouse and event queue ([kernel/hal/input]).  [Bootargs]: the boot arguments.
    - [Ipc]: [kernel/ipc/ipc.c], ports and the name server, refined to mailboxes
      of messages.  [Pipe]: [kernel/ipc/pipe.c].  [Futex]: the futex calls.
    - [ProcTable]: the process table and its intrusive ready queues.  [Signal]:
      [kernel/proc/signal.c].  [Sched]: [kernel/sched/sched.c], whose critical
      sections are the steps of a transition system with any number of CPUs.
    - [Vmm], [VmmProofs], [VmmSpec], [VmmWalk], [VmmDestroy], [VmmClone]:
      [kernel/memory/vmm.c] over page tables in byte memory.  [Fault]:
      [kernel/memory/fault.c].  [SysMem]: the memory system calls.
    - [Elf], [ElfSpec]: [kernel/elf/elf.c].  [ExecStack], [Exec]: the image and
      the initial stack that [proc_exec] builds.
    - [Xstate]: FPU save areas ([kernel/arch/x86_64/cpu.c]).  [Proc], [ProcSpec],
      [ForkSpec]: [kernel/proc/proc.c], spawn, fork, clone, the end of exec,
      waitpid.
    - [Block]: the block-device interface as a class, and the RAM disk.  [Xfs],
      [XfsProofs], [XfsDir], [XfsSpec]: [kernel/fs/xfs.c] over any device that
      satisfies the class.  [Path]: [path_abs] of
      [kernel/arch/x86_64/syscall.c].  [Sysfs], [SysfsSpec]:
      [kernel/fs/sysfs.c].  [Mkfs], [MkfsSpec]: [tools/xfs_mkfs.c], the program
      that builds the disk image.
    - [SysFile], [SysSignal]: the file and signal system calls of
      [kernel/arch/x86_64/syscall.c].  [SysCall]: its table and dispatch, the port
      calls over user memory, and the calls that report on the system.
    - [Nvme], [NvmeSpec]: [kernel/hal/block/nvme.c] against the class [Controller]
      and its laws.  [Virtio], [VirtioSpec]: virtqueues, packets and display
      commands ([kernel/hal/virtio], [hal/net], [hal/gpu]) against the class
      [VirtioDevice] and its laws.  [Pci], [PciSpec]: [kernel/hal/pci].
    - [Platform]: interrupt tables, interrupt controllers and clocks.

    ** What the theorems show

    Memory: frames are never handed out twice and are in the pool exactly while
    their count of references is zero; a frame lives as long as its references if
    there are at most 255 (a count that saturates is dropped too early,
    [saturated_frame_freed]).  The heap's live blocks never overlap and keep their
    contents.  Mapping, cloning and destroying an address space change exactly the
    entries, frames and reference counts they should and no other space; a write
    after a fork is private; no page fault, whatever its address and error code,
    touches another space.  The memory calls keep page tables and references
    consistent as long as their callers respect [call_ok] (canonical addresses,
    references to spare, counts that are not saturated), which the calls do not
    check.

    Scheduling: in every history from boot that follows the four rules of [orderly],
    no two CPUs run one process and no ready process is stranded.  The steps
    themselves ([sstep]) have only the tests of the code, and four theorems exhibit
    histories of them that break the rules, with a slot run by two CPUs, stranded
    processes, and a slot handed out twice.  The most urgent
    process is picked and a wake-up reaches exactly the waiters of its channel.  The
    lock is a queue and waiting is bounded, unless a CPU stalls inside
    [spinlock_try] while 2^32 tickets are drawn ([prompt], [stalled_try_breaks]).

    Communication: IPC implements mailboxes without lost wake-ups, pipes are
    first-in-first-out and a writer with a reader finishes; a signal handler returns
    to where it interrupted.  Programs: the program headers of an accepted ELF file
    lie inside it exactly if the end of their table does not wrap around 2^64
    ([elf.c] does not check that); the loaded image of a well-formed file is its
    segments, and the initial stack is the one the ABI prescribes; a forked child
    resumes where its parent called; [waitpid] collects each child once.  Files:
    what is written is read back, and a write that starts inside the file's blocks
    or just after them stops early only when the disk is full or the file has 900
    blocks; a created file is found, a formatted device mounts,
    the files of a built image read back byte for byte, paths are normalised,
    descriptors are routed to the file system that issued them, and writes to the
    system file system cannot break the scheduler.  System calls: every number
    reaches its own function, and a message arrives in the receiver's memory byte
    for byte.

    Devices: the NVMe driver is indistinguishable from a RAM disk if the namespace
    has the geometry the driver assumes; packets are sent once and in order; screen
    updates whose corner is on the screen are clipped; vectors reach their handlers;
    [msix_enable] leaves MSI-X as it was and turns the interrupt line off.  Theorems
    of kind [error], some of kind [bounds], and the findings listed with them, record
    where the code departs from its intention.

    ** Fuel and bounds

    Loops with a bound of the source ([SCHED_MAX_PROCS], table sizes, page counts,
    poll budgets) recurse on it; poll budgets are binary numbers.  Walks over lists
    take fuel: queue walks take one unit per process slot, free-list walks one per
    32 bytes of arena, which the invariants prove sufficient (lists have no
    duplicates, blocks have at least 32 bytes).  The file loops of XFS, the ELF
    loader and the capability walk of PCI take fuel as an argument; their theorems
    say how much is enough.  Waiting loops ([waitpid], a blocking pipe write, a
    spinning CPU) are given the behaviour of the rest of the system as a parameter
    and shown to return once it makes the awaited event happen.

    ** What is not modelled

    The start-up of the machine: entry code, probing and mapping of devices and
    their reset, start-up of the other processors; the APIC's own registers and
    timer; the display's 3D and cursor commands.  Interrupt entry, context-switch and
    start-up assembly, beyond the stores they make to modelled state; TLB flushes
    and shoot-downs, and memory ordering weaker than interleaving.  The system
    calls that only pass their arguments to a driver, the scheduler or the BSD
    sockets; the vendored BSD network stack and all of userspace. *)

From stdpp Require Export base tactics option list list_numbers numbers relations.
From Stdlib Require Export ZArith Lia.

#[global] Open Scope Z_scope.
#[global] Set Default Goal Selector "!".

(** ** Hint databases *)

Create HintDb xos.

(** ** Machine words

    A [w]-bit unsigned C integer is a [Z] kept in [0 .. 2^w - 1]; every
    operation of the source that can wrap is followed by one of these
    truncations. *)

Definition u8 (x : Z) : Z := x mod 256.
Definition u16 (x : Z) : Z := x mod 65536.
Definition u32 (x : Z) : Z := x mod 4294967296.
Definition u64 (x : Z) : Z := x mod 18446744073709551616.

(** Two's complement reading of the low 8, 32 and 64 bits. *)
Definition s8 (x : Z) : Z := if u8 x <? 128 then u8 x else u8 x - 256.
Definition s32 (x : Z) : Z :=
  if u32 x <? 2147483648 then u32 x else u32 x - 4294967296.
Definition s64 (x : Z) : Z :=
  if u64 x <? 9223372036854775808 then u64 x else u64 x - 18446744073709551616.

(** [zlia] decides linear goals with constant divisions and remainders. *)
Ltac zlia := unfold u8, u16, u32, u64 in *; Z.div_mod_to_equations; lia.

Lemma s32_small x : -2147483648 ≤ x < 2147483648 → s32 x = x.
Proof.
  intros Hx. unfold s32, u32. destruct (Z.ltb_spec (x mod 4294967296) 2147483648); zlia.
Qed.
Lemma s64_small x : -9223372036854775808 ≤ x < 9223372036854775808 → s64 x = x.
Proof.
  intros Hx. unfold s64, u64.
  destruct (Z.ltb_spec (x mod 18446744073709551616) 9223372036854775808); zlia.
Qed.

Lemma u8_small x : 0 ≤ x < 256 → u8 x = x.
Proof. intros. unfold u8. by rewrite Z.mod_small. Qed.
Lemma u16_small x : 0 ≤ x < 65536 → u16 x = x.
Proof. intros. unfold u16. by rewrite Z.mod_small. Qed.
Lemma u32_small x : 0 ≤ x < 4294967296 → u32 x = x.
Proof. intros. unfold u32. by rewrite Z.mod_small. Qed.
Lemma u64_small x : 0 ≤ x < 18446744073709551616 → u64 x = x.
Proof. intros. unfold u64. by rewrite Z.mod_small. Qed.

Lemma u8_range x : 0 ≤ u8 x < 256.
Proof. zlia. Qed.
Lemma u16_range x : 0 ≤ u16 x < 65536.
Proof. zlia. Qed.
Lemma u32_range x : 0 ≤ u32 x < 4294967296.
Proof. zlia. Qed.
Lemma u64_range x : 0 ≤ u64 x < 18446744073709551616.
Proof. zlia. Qed.
#[export] Hint Resolve u8_range u16_range u32_range u64_range : xos.

(** ** C arrays

    A C array is a list; [a.[i]] and [a.[i <- x]] index it with a [Z].  The
    components prove that their indices are in range (or, where the source
    does not check, make the out-of-range access an explicit outcome). *)

Definition zlen {A} (l : list A) : Z := Z.of_nat (length l).
Definition aget {A} `{Inhabited A} (l : list A) (i : Z) : A := l !!! Z.to_nat i.
Definition aset {A} (l : list A) (i : Z) (x : A) : list A := <[Z.to_nat i := x]> l.

#[global] Arguments aget : simpl never.
#[global] Arguments aset : simpl never.
#[global] Arguments zlen : simpl never.
#[global] Arguments u8 : simpl never.
#[global] Arguments u16 : simpl never.
#[global] Arguments u32 : simpl never.
#[global] Arguments u64 : simpl never.

Declare Scope arr_scope.
Delimit Scope arr_scope with arr.
Notation "a .[ i ]" := (aget a i)
  (at level 1, left associativity, format "a .[ i ]") : arr_scope.
Notation "a .[ i <- x ]" := (aset a i x)
  (at level 1, left associativity, format "a .[ i <- x ]") : arr_scope.
#[global] Open Scope arr_scope.

#[global] Instance Z_inhabited : Inhabited Z := populate 0.

Section arrays.
Context {A : Type} `{!Inhabited A}.
Implicit Types (l : list A) (x : A) (i j : Z).

Lemma zlen_nonneg l : 0 ≤ zlen l.
Proof. unfold zlen. lia. Qed.

Lemma zlen_aset l i x : zlen (l.[i <- x]) = zlen l.
Proof. unfold zlen, aset. by rewrite length_insert. Qed.

Lemma aget_aset_eq l i x : 0 ≤ i < zlen l → l.[i <- x].[i] = x.
Proof.
  unfold aget, aset, zlen. intros Hi.
  apply list_lookup_total_insert_eq. lia.
Qed.

Lemma aget_aset_ne l i j x : 0 ≤ i → 0 ≤ j → i ≠ j → l.[i <- x].[j] = l.[j].
Proof.
  unfold aget, aset. intros Hi Hj Hne.
  apply list_lookup_total_insert_ne. lia.
Qed.

Lemma aget_aset l i j x :
  0 ≤ i < zlen l → 0 ≤ j →
  l.[i <- x].[j] = if i =? j then x else l.[j].
Proof.
  intros Hi Hj. destruct (Z.eqb_spec i j) as [->|Hne].
  - by apply aget_aset_eq.
  - apply aget_aset_ne; lia.
Qed.

Lemma aset_aset l i x y : l.[i <- x].[i <- y] = l.[i <- y].
Proof. unfold aset. by rewrite list_insert_insert_eq. Qed.

Lemma aset_id l i : 0 ≤ i < zlen l → l.[i <- l.[i]] = l.
Proof.
  intros Hi. unfold aset, aget. apply list_insert_id.
  apply list_lookup_lookup_total_lt. unfold zlen in Hi. lia.
Qed.

Lemma aset_comm l i j x y :
  0 ≤ i → 0 ≤ j → i ≠ j → l.[i <- x].[j <- y] = l.[j <- y].[i <- x].
Proof.
  intros. unfold aset. rewrite list_insert_insert_ne; [done|lia].
Qed.

Lemma aget_ext l1 l2 :
  zlen l1 = zlen l2 → (∀ i, 0 ≤ i < zlen l1 → l1.[i] = l2.[i]) → l1 = l2.
Proof.
  unfold zlen, aget. intros Hlen Heq. apply list_eq_same_length with (length l1); [lia|done|].
  intros i x y Hi Hx Hy.
  specialize (Heq (Z.of_nat i) ltac:(lia)). rewrite Nat2Z.id in Heq.
  rewrite (list_lookup_total_correct _ _ _ Hx), (list_lookup_total_correct _ _ _ Hy) in Heq.
  done.
Qed.

Lemma aget_replicate n x i : 0 ≤ i < n → (replicate (Z.to_nat n) x).[i] = x.
Proof. intros. unfold aget. apply lookup_total_replicate_2. lia. Qed.

Lemma zlen_replicate n x : 0 ≤ n → zlen (replicate (Z.to_nat n) x) = n.
Proof. intros. unfold zlen. rewrite length_replicate. lia. Qed.

Lemma aget_Forall (P : A → Prop) l i : Forall P l → 0 ≤ i < zlen l → P (l.[i]).
Proof.
  unfold zlen, aget. intros HF Hi.
  eapply Forall_lookup_1; [done|].
  apply list_lookup_lookup_total_lt. lia.
Qed.

Lemma zlen_fmap {B} (f : A → B) l : zlen (f <$> l) = zlen l.
Proof. unfold zlen. by rewrite length_fmap. Qed.

Lemma aget_fmap {B} `{!Inhabited B} (f : A → B) l i :
  0 ≤ i < zlen l → (f <$> l).[i] = f (l.[i]).
Proof.
  unfold zlen, aget. intros Hi. apply list_lookup_total_fmap. lia.
Qed.

Lemma aset_Forall (P : A → Prop) l i x : Forall P l → P x → Forall P (l.[i <- x]).
Proof. intros. by apply Forall_insert. Qed.
End arrays.

#[export] Hint Resolve @zlen_nonneg : xos.

(** ** Bounded search and bounded iteration

    [find_up p lo n] is the shape of the kernel's slot searches
    [for (i = lo; i < lo + n; i++) if (p(i)) ...]: the first index that
    satisfies [p], if any.  [iter_up f lo n s] is the shape of
    [for (i = lo; i < lo + n; i++) s = f(i, s)]. *)

Fixpoint find_up (p : Z → bool) (lo : Z) (n : nat) : option Z :=
  match n with
  | O => None
  | S n => if p lo then Some lo else find_up p (lo + 1) n
  end.

Fixpoint iter_up {S} (f : Z → S → S) (lo : Z) (n : nat) (s : S) : S :=
  match n with
  | O => s
  | Datatypes.S n => iter_up f (lo + 1) n (f lo s)
  end.

Lemma find_up_Some p lo n i :
  find_up p lo n = Some i →
  lo ≤ i < lo + Z.of_nat n ∧ p i = true ∧ ∀ j, lo ≤ j < i → p j = false.
Proof.
  revert lo. induction n as [|n IH]; intros lo; simpl; [done|].
  destruct (p lo) eqn:Hp.
  - intros [= <-]. repeat split; [lia..|done|]. lia.
  - intros Hf. destruct (IH _ Hf) as (Hr & Hpi & Hmin).
    repeat split; [lia..|done|].
    intros j Hj. destruct (decide (j = lo)) as [->|]; [done|]. apply Hmin. lia.
Qed.

Lemma find_up_None p lo n :
  find_up p lo n = None ↔ ∀ i, lo ≤ i < lo + Z.of_nat n → p i = false.
Proof.
  revert lo. induction n as [|n IH]; intros lo; simpl.
  - split; [lia|done].
  - destruct (p lo) eqn:Hp.
    + split; [done|]. intros H. specialize (H lo). rewrite H in Hp; [done|lia].
    + rewrite IH. split; intros H i Hi.
      * destruct (decide (i = lo)) as [->|]; [done|]. apply H. lia.
      * apply H. lia.
Qed.

Lemma find_up_first p lo n i :
  lo ≤ i < lo + Z.of_nat n → p i = true → (∀ j, lo ≤ j < i → p j = false) →
  find_up p lo n = Some i.
Proof.
  intros Hi Hp Hmin. destruct (find_up p lo n) as [k|] eqn:Hf.
  - apply find_up_Some in Hf as (Hr & Hpk & Hmk). f_equal.
    destruct (Z.lt_trichotomy i k) as [?|[?|?]]; [|done|].
    + rewrite Hmk in Hp; [done|lia].
    + rewrite Hmin in Hpk; [done|lia].
  - rewrite find_up_None in Hf. rewrite Hf in Hp; [done|lia].
Qed.

Lemma find_up_ext p q lo n :
  (∀ i, lo ≤ i < lo + Z.of_nat n → p i = q i) → find_up p lo n = find_up q lo n.
Proof.
  revert lo. induction n as [|n IH]; intros lo H; simpl; [done|].
  rewrite (H lo) by lia. destruct (q lo); [done|]. apply IH. intros. apply H. lia.
Qed.

Lemma iter_up_ind {S} (P : Z → S → Prop) f lo n s :
  P lo s →
  (∀ i s, lo ≤ i < lo + Z.of_nat n → P i s → P (i + 1) (f i s)) →
  P (lo + Z.of_nat n) (iter_up f lo n s).
Proof.
  revert lo s. induction n as [|n IH]; intros lo s H0 Hs; simpl.
  - by rewrite Z.add_0_r.
  - replace (lo + Z.of_nat (Datatypes.S n)) with (lo + 1 + Z.of_nat n) by lia.
    apply IH; [apply Hs; [lia|done]|].
    intros i s' Hi. apply Hs. lia.
Qed.

(** ** Counting

    [count_up p lo n] counts the indices of [lo .. lo + n - 1] satisfying [p]. *)

Fixpoint count_up (p : Z → bool) (lo : Z) (n : nat) : Z :=
  match n with
  | O => 0
  | S n => (if p lo then 1 else 0) + count_up p (lo + 1) n
  end.

Lemma count_up_ext p q lo n :
  (∀ i, lo ≤ i < lo + Z.of_nat n → p i = q i) → count_up p lo n = count_up q lo n.
Proof.
  revert lo. induction n as [|n IH]; intros lo H; simpl; [done|].
  rewrite (H lo) by lia. rewrite (IH (lo + 1)); [done|]. intros. apply H. lia.
Qed.

Lemma count_up_bounds p lo n : 0 ≤ count_up p lo n ≤ Z.of_nat n.
Proof.
  revert lo. induction n as [|n IH]; intros lo; simpl; [lia|].
  specialize (IH (lo + 1)). destruct (p lo); lia.
Qed.

Lemma count_up_pos p lo n k :
  lo ≤ k < lo + Z.of_nat n → p k = true → 0 < count_up p lo n.
Proof.
  revert lo. induction n as [|n IH]; intros lo Hk Hp; simpl; [lia|].
  destruct (decide (k = lo)) as [->|].
  - rewrite Hp. pose proof (count_up_bounds p (lo + 1) n). lia.
  - specialize (IH (lo + 1) ltac:(lia) Hp). destruct (p lo); lia.
Qed.

Lemma count_up_false p lo n :
  (∀ i, lo ≤ i < lo + Z.of_nat n → p i = false) → count_up p lo n = 0.
Proof.
  revert lo. induction n as [|n IH]; intros lo H; simpl; [done|].
  rewrite H by lia. rewrite IH; [done|]. intros. apply H. lia.
Qed.

Lemma count_up_upd p q lo n k :
  lo ≤ k < lo + Z.of_nat n →
  (∀ i, lo ≤ i < lo + Z.of_nat n → i ≠ k → p i = q i) →
  count_up q lo n =
    count_up p lo n + (if q k then 1 else 0) - (if p k then 1 else 0).
Proof.
  revert lo. induction n as [|n IH]; intros lo Hk H; simpl; [lia|].
  destruct (decide (k = lo)) as [->|Hne].
  - rewrite (count_up_ext q p (lo + 1)).
    + destruct (p lo), (q lo); lia.
    + intros i Hi. symmetry. apply H; lia.
  - rewrite (IH (lo + 1)); [|lia|].
    + rewrite (H lo) by lia. lia.
    + intros i Hi ?. apply H; [lia|done].
Qed.

Lemma count_up_snoc p lo n :
  count_up p lo (S n) = count_up p lo n + (if p (lo + Z.of_nat n) then 1 else 0).
Proof.
  revert lo. induction n as [|n IH]; intros lo.
  - cbn [count_up]. change (Z.of_nat 0) with 0. rewrite !Z.add_0_r. ring.
  - change (count_up p lo (S (S n))) with
      ((if p lo then 1 else 0) + count_up p (lo + 1) (S n)).
    rewrite IH.
    change (count_up p lo (S n)) with ((if p lo then 1 else 0) + count_up p (lo + 1) n).
    replace (lo + 1 + Z.of_nat n) with (lo + Z.of_nat (S n)) by lia. ring.
Qed.

Lemma iter_up_S {S} (f : Z → S → S) lo n s :
  iter_up f lo (Datatypes.S n) s = iter_up f (lo + 1) n (f lo s).
Proof. done. Qed.

Lemma count_up_S p lo n :
  count_up p lo (S n) = (if p lo then 1 else 0) + count_up p (lo + 1) n.
Proof. done. Qed.

Lemma find_up_S p lo n :
  find_up p lo (S n) = if p lo then Some lo else find_up p (lo + 1) n.
Proof. done. Qed.

#[global] Arguments count_up : simpl never.
#[global] Arguments find_up : simpl never.
(** ** Bit fields *)

Lemma lor_low a b n : 0 ≤ n → 0 ≤ b < 2 ^ n → Z.lor (Z.shiftl a n) b = a * 2 ^ n + b.
Proof.
  intros Hn Hb. rewrite Z.shiftl_mul_pow2 by lia. apply Z.bits_inj'. intros k Hk. rewrite Z.lor_spec.
  destruct (Z.ltb_spec k n).
  - rewrite Z.mul_pow2_bits_low by lia. cbn [orb].
    rewrite <- (Z.mod_pow2_bits_low (a * 2 ^ n + b) n k) by lia.
    by rewrite Z.add_comm, Z.mod_add, Z.mod_small by lia.
  - rewrite Z.mul_pow2_bits by lia.
    assert (E : Z.testbit b k = false).
    { destruct (Z.eq_dec b 0) as [->|]; [apply Z.bits_0|]. apply Z.bits_above_log2; [lia|].
      apply Z.log2_lt_pow2; [lia|]. eapply Z.lt_le_trans; [apply Hb|]. apply Z.pow_le_mono_r; lia. }
    rewrite E, orb_false_r. replace k with (k - n + n) at 2 by lia. rewrite <- Z.div_pow2_bits by lia.
    by rewrite Z.div_add_l, Z.div_small, Z.add_0_r by lia.
Qed.

Lemma lor_range a b n : 0 ≤ n → 0 ≤ a < 2 ^ n → 0 ≤ b < 2 ^ n → 0 ≤ Z.lor a b < 2 ^ n.
Proof.
  intros Hn Ha Hb. assert (0 ≤ Z.lor a b) by (apply Z.lor_nonneg; lia). split; [done|].
  destruct (Z.eq_dec (Z.lor a b) 0) as [->|]; [lia|]. apply Z.log2_lt_pow2; [lia|].
  rewrite Z.log2_lor by lia. apply Z.max_lub_lt.
  - destruct (Z.eq_dec a 0) as [->|]; [|apply Z.log2_lt_pow2; lia].
    change (Z.log2 0) with 0. destruct (Z.eq_dec n 0) as [->|]; [|lia]. simpl in *.
    assert (b = 0) by lia. subst. done.
  - destruct (Z.eq_dec b 0) as [->|]; [|apply Z.log2_lt_pow2; lia].
    change (Z.log2 0) with 0. destruct (Z.eq_dec n 0) as [->|]; [|lia]. simpl in *.
    assert (a = 0) by lia. subst. done.
Qed.

Lemma lor_fields a b n : 0 ≤ n → a mod 2 ^ n = 0 → 0 ≤ b < 2 ^ n → Z.lor a b = a + b.
Proof.
  intros Hn Ha Hb. replace a with (Z.shiftl (a / 2 ^ n) n) at 1 by (rewrite Z.shiftl_mul_pow2 by lia; pose proof (Z.pow_pos_nonneg 2 n); zlia).
  rewrite lor_low by done. pose proof (Z.pow_pos_nonneg 2 n). pose proof (Z.div_mod a (2 ^ n)). lia.
Qed.

Lemma zlen_cons {A} (x : A) l : zlen (x :: l) = 1 + zlen l.
Proof. unfold zlen. cbn [length]. lia. Qed.

#[global] Arguments iter_up : simpl never.
#[global] Arguments Z.to_nat : simpl never.

(** ** Invariants of step relations *)

Lemma rtc_invariant {A} (R : A → A → Prop) (P : A → Prop) x y :
  (∀ a b, P a → R a b → P b) → rtc R x y → P x → P y.
Proof. intros Hs. induction 1; eauto. Qed.

(** ** Single-bit masks *)

Lemma testbit_shiftl_1 n m : 0 ≤ n → 0 ≤ m → Z.testbit (Z.shiftl 1 n) m = (n =? m).
Proof.
  intros. rewrite Z.shiftl_1_l. rewrite Z.pow2_bits_eqb by lia. done.
Qed.

Lemma land_1_testbit x n : 0 ≤ n → Z.land (Z.shiftr x n) 1 = Z.b2z (Z.testbit x n).
Proof.
  intros. change 1 with (Z.ones 1). rewrite Z.land_ones by lia.
  change (2 ^ 1) with 2. rewrite <- Z.bit0_mod, Z.shiftr_spec by lia. done.
Qed.

Lemma u8_testbit x m : 0 ≤ m → Z.testbit (u8 x) m = Z.testbit x m && (m <? 8).
Proof.
  intros. unfold u8. change 256 with (2 ^ 8).
  destruct (Z.ltb_spec m 8).
  - rewrite Z.mod_pow2_bits_low by lia. by rewrite andb_true_r.
  - rewrite Z.mod_pow2_bits_high by lia. by rewrite andb_false_r.
Qed.

(** Setting and clearing bit [k] of a byte, as the bitmaps do. *)
Lemma byte_bit_set b k j :
  0 ≤ k < 8 → 0 ≤ j < 8 →
  Z.testbit (u8 (Z.lor b (u8 (Z.shiftl 1 k)))) j = (k =? j) || Z.testbit b j.
Proof.
  intros. rewrite u8_testbit, Z.lor_spec, u8_testbit, testbit_shiftl_1 by lia.
  destruct (Z.ltb_spec j 8); [|lia]. rewrite !andb_true_r. apply orb_comm.
Qed.

Lemma byte_bit_clr b k j :
  0 ≤ k < 8 → 0 ≤ j < 8 →
  Z.testbit (u8 (Z.land b (u8 (Z.lnot (Z.shiftl 1 k))))) j =
    negb (k =? j) && Z.testbit b j.
Proof.
  intros. rewrite u8_testbit, Z.land_spec, u8_testbit, Z.lnot_spec, testbit_shiftl_1 by lia.
  destruct (Z.ltb_spec j 8); [|lia]. rewrite !andb_true_r. apply andb_comm.
Qed.

Lemma land_7_mod x : Z.land x 7 = x mod 8.
Proof. change 7 with (Z.ones 3). by rewrite Z.land_ones by lia. Qed.

Lemma shiftr_3_div x : Z.shiftr x 3 = x / 8.
Proof. by rewrite Z.shiftr_div_pow2 by lia. Qed.

(** Clearing the low [k] bits of a 64-bit value with the mask [~(2^k - 1)]. *)
Lemma land_align v k :
  0 ≤ k ≤ 64 → 0 ≤ v < 2 ^ 64 → Z.land v (2 ^ 64 - 2 ^ k) = v / 2 ^ k * 2 ^ k.
Proof.
  intros Hk Hv. rewrite <- Z.shiftr_div_pow2, <- Z.shiftl_mul_pow2 by lia.
  replace (2 ^ 64 - 2 ^ k) with (Z.shiftl (Z.ones (64 - k)) k).
  2:{ rewrite Z.shiftl_mul_pow2, Z.ones_equiv by lia.
      replace (2 ^ 64) with (2 ^ (64 - k) * 2 ^ k) by (rewrite <- Z.pow_add_r by lia; f_equal; lia).
      lia. }
  apply Z.bits_inj'. intros i Hi. rewrite Z.land_spec, !Z.shiftl_spec by lia.
  destruct (Z.lt_ge_cases i k).
  - rewrite !(Z.testbit_neg_r _ (i - k)) by lia. apply andb_false_r.
  - rewrite Z.shiftr_spec, Z.testbit_ones_nonneg by lia. replace (i - k + k) with i by lia.
    destruct (Z.ltb_spec (i - k) (64 - k)); [apply andb_true_r|]. rewrite andb_false_r.
    rewrite <- (Z.mod_small v (2 ^ 64)) by lia. by rewrite Z.mod_pow2_bits_high by lia.
Qed.

(** ** Proof automation *)

(** Turns the boolean comparisons the models branch on into propositions. *)
Ltac bools :=
  repeat match goal with
  | H : (_ && _) = true |- _ => apply andb_prop in H as [??]
  | H : (_ || _) = false |- _ => apply orb_false_elim in H as [??]
  | H : negb _ = true |- _ => apply negb_true_iff in H
  | H : negb _ = false |- _ => apply negb_false_iff in H
  | H : (_ =? _) = true |- _ => apply Z.eqb_eq in H
  | H : (_ =? _) = false |- _ => apply Z.eqb_neq in H
  | H : (_ <? _) = true |- _ => apply Z.ltb_lt in H
  | H : (_ <? _) = false |- _ => apply Z.ltb_ge in H
  | H : (_ <=? _) = true |- _ => apply Z.leb_le in H
  | H : (_ <=? _) = false |- _ => apply Z.leb_gt in H
  end.

(** Splits on the first boolean test of the goal, as the code does. *)
Ltac case_if :=
  match goal with
  | |- context [if ?b then _ else _] => destruct b eqn:?
  end.

(** Array goals: reads over writes, with [lia] for the index conditions. *)
Ltac arr :=
  repeat first
    [ rewrite zlen_aset
    | rewrite aget_aset_eq by (rewrite ?zlen_aset; lia)
    | rewrite aget_aset_ne by lia ].
