(* ===== verification/Ring.v ===== *)
(** * Ring buffers

    The kernel has several ring buffers over a fixed array ([port_t.buf],
    [pipe_t.buf], the kernel message buffer, the input event queue).  This file
    gives them one abstraction: the queue a ring of capacity [N] holds, oldest
    element first, and what one push and one pop do to it. *)

From S2P Require Import Prelude.

Section ring.
Context {A : Type} `{!Inhabited A} (N : Z).
Implicit Types (buf : list A) (h n : Z) (x : A).

(** The [n] elements stored from index [h] on, wrapping at [N]. *)
Definition ring_contents buf h n : list A :=
  (λ i, buf.[(h + i) mod N]) <$> seqZ 0 n.

Lemma ring_contents_length buf h n : 0 ≤ n → zlen (ring_contents buf h n) = n.
Proof. intros. unfold zlen, ring_contents. rewrite length_fmap, length_seqZ. lia. Qed.

Lemma ring_contents_0 buf h n : n ≤ 0 → ring_contents buf h n = [].
Proof. intros. unfold ring_contents. by rewrite seqZ_nil by lia. Qed.

Lemma ring_contents_lookup buf h n (i : nat) :
  Z.of_nat i < n → ring_contents buf h n !! i = Some (buf.[(h + Z.of_nat i) mod N]).
Proof.
  intros. unfold ring_contents. rewrite list_lookup_fmap, lookup_seqZ_lt by lia. done.
Qed.

Lemma ring_contents_ext buf buf' h n :
  (∀ i, 0 ≤ i < n → buf.[(h + i) mod N] = buf'.[(h + i) mod N]) →
  ring_contents buf h n = ring_contents buf' h n.
Proof.
  intros Heq. unfold ring_contents. apply list_fmap_ext. intros i x Hi.
  apply lookup_seqZ in Hi as [-> ?]. apply Heq. lia.
Qed.

(** Storing at the tail slot appends. *)
Lemma ring_push buf h n x :
  0 < N → zlen buf = N → 0 ≤ h → 0 ≤ n < N →
  ring_contents (buf.[(h + n) mod N <- x]) h (n + 1) = ring_contents buf h n ++ [x].
Proof.
  intros HN Hlen Hh Hn. unfold ring_contents.
  rewrite seqZ_app, fmap_app by lia. f_equal.
  - apply list_fmap_ext. intros i y Hi. apply lookup_seqZ in Hi as [-> ?].
    apply aget_aset_ne; [apply Z.mod_pos_bound; lia..|].
    intros Heq. rewrite (Z.mod_eq (h + n)), (Z.mod_eq (h + (0 + Z.of_nat i))) in Heq by lia.
    assert (n - Z.of_nat i = N * ((h + n) / N - (h + (0 + Z.of_nat i)) / N)) by lia.
    generalize dependent ((h + n) / N - (h + (0 + Z.of_nat i)) / N). intros q Hq.
    destruct (Z.le_gt_cases q 0); nia.
  - simpl. f_equal. rewrite aget_aset_eq; [done|].
    rewrite Hlen. apply Z.mod_pos_bound. lia.
Qed.

(** The head slot holds the oldest element; advancing the head drops it. *)
Lemma ring_pop buf h n :
  0 < N → 0 ≤ h → 0 < n →
  ring_contents buf h n = buf.[h mod N] :: ring_contents buf ((h + 1) mod N) (n - 1).
Proof.
  intros HN Hh Hn. unfold ring_contents.
  rewrite seqZ_cons by lia. simpl. f_equal; [by rewrite Z.add_0_r|].
  replace (Z.succ 0) with (1 + 0) by lia. rewrite <- fmap_add_seqZ, <- list_fmap_compose.
  apply list_fmap_ext. intros i y Hi. simpl. f_equal.
  rewrite Zplus_mod_idemp_l. f_equal. lia.
Qed.

(** The head may be taken modulo the capacity. *)
Lemma ring_head_mod buf h n : ring_contents buf (h mod N) n = ring_contents buf h n.
Proof.
  unfold ring_contents. apply list_fmap_ext. intros i y Hi.
  by rewrite Zplus_mod_idemp_l.
Qed.
End ring.
