(* ===== verification/Ipc.v ===== *)
(** * IPC ports and the nameserver

    Models [kernel/ipc/ipc.c], [kernel/ipc/ipc.h] and the message type of
    [kernel/include/ipc.h]: the port table, the per-port ring buffers, the wait
    channels and the well-known-service table.

    The operations are the critical sections of the source (everything done
    while [ipc_lock] is held).  [sched_wake_chan], called after the lock is
    dropped, is an output of the operation: the channel to wake.  The blocking
    loop of [port_recv] is [port_recv_try] (one turn of the loop up to
    [sched_block_on]) and [port_recv_resume] (from the return of
    [sched_block_on] to the end of the turn); the step relation at the end
    interleaves them with senders. *)

From S2P Require Import Prelude Ring.

Definition IPC_MSG_MAX_PAYLOAD : Z := 256.
Definition IPC_CAP_MAX_PER_MSG : Z := 4.
Definition IPC_MAX_PORTS : Z := 64.
Definition IPC_PORT_DEPTH : Z := 64.
Definition PORT_NULL : Z := 0.
Definition NS_MAX_IDS : Z := 16.

(** [ipc_msg_t] *)
Record ipc_msg_t := mkMsg {
  msg_type : Z;
  sender_pid : Z;
  caps : list Z;
  cap_count : Z;
  payload_len : Z;
  payload : list Z;
}.

Definition msg_zero : ipc_msg_t :=
  mkMsg 0 0 (replicate (Z.to_nat IPC_CAP_MAX_PER_MSG) 0) 0 0
        (replicate (Z.to_nat IPC_MSG_MAX_PAYLOAD) 0).
#[export] Instance ipc_msg_inhabited : Inhabited ipc_msg_t := populate msg_zero.

(** [port_t].  The two wait-channel bytes [recvq] and [sendq] are only ever
    used as addresses; see [chan]. *)
Record port_t := mkPort {
  used : bool;
  owner_pid : Z;
  buf : list ipc_msg_t;
  head : Z;
  tail : Z;
  count : Z;
  recv_waiters : Z;
  send_waiters : Z;
}.

(** A port after [memset(p, 0, sizeof *p)]. *)
Definition port_zero : port_t :=
  mkPort false 0 (replicate (Z.to_nat IPC_PORT_DEPTH) msg_zero) 0 0 0 0 0.
#[export] Instance port_inhabited : Inhabited port_t := populate port_zero.

(** The addresses [&ports[h].recvq] and [&ports[h].sendq]. *)
Inductive chan := Recvq (h : Z) | Sendq (h : Z).
#[export] Instance chan_eq_dec : EqDecision chan.
Proof. solve_decision. Defined.

Record ipc := mkIpc { ports : list port_t; ns_table : list Z }.

Definition set_port (s : ipc) (h : Z) (p : port_t) : ipc :=
  mkIpc ((ports s).[h <- p]) (ns_table s).

(** The statics before [ipc_init]: zero-initialised memory. *)
Definition ipc_bss : ipc :=
  mkIpc (replicate (Z.to_nat IPC_MAX_PORTS) port_zero)
        (replicate (Z.to_nat NS_MAX_IDS) 0).

Definition ipc_init (s : ipc) : ipc :=
  mkIpc (replicate (Z.to_nat IPC_MAX_PORTS) port_zero) (ns_table s).

(** [port_info_t], one row of [SYS_PORT_LIST]. *)
Record port_info_t := mkPortInfo {
  pi_handle : Z; pi_used : Z; pi_owner_pid : Z; pi_count : Z; pi_depth : Z }.

(** The loop of [ipc_port_list], from slot [i] with [n] rows filled. *)
Fixpoint port_list_from (s : ipc) (i : Z) (k : nat) (n max : Z) : list port_info_t :=
  match k with
  | O => []
  | S k =>
      if n <? max then
        let p := (ports s).[i] in
        if used p then
          mkPortInfo (u32 i) 1 (owner_pid p) (count p) IPC_PORT_DEPTH
            :: port_list_from s (i + 1) k (n + 1) max
        else port_list_from s (i + 1) k n max
      else []
  end.

(** [ipc_port_list]: the rows stored in [out]; its C result is their number. *)
Definition ipc_port_list (s : ipc) (out_nonnull : bool) (max : Z) : list port_info_t :=
  if negb out_nonnull || (max <=? 0) then []
  else port_list_from s 1 (Z.to_nat (IPC_MAX_PORTS - 1)) 0 max.

(** [port_get]: the port behind a valid, open handle. *)
Definition port_get (s : ipc) (h : Z) : option port_t :=
  if (h <? 1) || (IPC_MAX_PORTS <=? h) then None
  else if used ((ports s).[h]) then Some ((ports s).[h]) else None.

Definition port_create (s : ipc) (owner : Z) : Z * ipc :=
  match find_up (λ i, negb (used ((ports s).[i]))) 1 (Z.to_nat (IPC_MAX_PORTS - 1)) with
  | Some i =>
      let p := (ports s).[i] in
      (i, set_port s i
            (mkPort true owner (buf p) 0 0 0 (recv_waiters p) (send_waiters p)))
  | None => (PORT_NULL, s)
  end.

(** [port_send]: the result, the new state and the channel woken, if any. *)
Definition port_send (s : ipc) (h : Z) (msg : option ipc_msg_t) :
    bool * ipc * option chan :=
  match port_get s h, msg with
  | Some p, Some m =>
      if IPC_PORT_DEPTH <=? count p then (false, s, None)
      else
        let idx := tail p in
        let p' := mkPort (used p) (owner_pid p) ((buf p).[idx <- m]) (head p)
                    (u32 (idx + 1) mod IPC_PORT_DEPTH) (u32 (count p + 1))
                    (recv_waiters p) (send_waiters p) in
        (true, set_port s h p',
         if 0 <? recv_waiters p then Some (Recvq h) else None)
  | _, _ => (false, s, None)
  end.

(** What one turn of the [port_recv] loop ends in. *)
Inductive recv_outcome :=
  | RecvFail                                   (* break, [ok] still false *)
  | RecvOk (m : ipc_msg_t) (wake : option chan) (* message stored in [*out] *)
  | RecvSleep (c : chan).                       (* [sched_block_on(c, ...)] *)

Definition port_recv_try (s : ipc) (h : Z) (out_nonnull block : bool) :
    recv_outcome * ipc :=
  match port_get s h with
  | None => (RecvFail, s)
  | Some p =>
      if negb out_nonnull then (RecvFail, s)
      else if 0 <? count p then
        let idx := head p in
        let p' := mkPort (used p) (owner_pid p) (buf p)
                    (u32 (idx + 1) mod IPC_PORT_DEPTH) (tail p)
                    (u32 (count p - 1)) (recv_waiters p) (send_waiters p) in
        (RecvOk ((buf p).[idx]) (if 0 <? send_waiters p then Some (Sendq h) else None),
         set_port s h p')
      else if negb block then (RecvFail, s)
      else
        (RecvSleep (Recvq h),
         set_port s h (mkPort (used p) (owner_pid p) (buf p) (head p) (tail p) (count p)
                         (u32 (recv_waiters p + 1)) (send_waiters p)))
  end.

(** After [sched_block_on] returns: the waiter count goes back down. *)
Definition port_recv_resume (s : ipc) (h : Z) : ipc :=
  match port_get s h with
  | Some p =>
      if recv_waiters p =? 0 then s
      else set_port s h (mkPort (used p) (owner_pid p) (buf p) (head p) (tail p) (count p)
                           (recv_waiters p - 1) (send_waiters p))
  | None => s
  end.

(** [port_close]: the new state and the channels woken, receivers first. *)
Definition port_close (s : ipc) (h : Z) : ipc * list chan :=
  match port_get s h with
  | Some p =>
      (set_port s h port_zero,
       (if recv_waiters p =? 0 then [] else [Recvq h]) ++
       (if send_waiters p =? 0 then [] else [Sendq h]))
  | None => (s, [])
  end.

Definition ns_register (s : ipc) (id port : Z) : ipc :=
  if id <? NS_MAX_IDS then mkIpc (ports s) ((ns_table s).[id <- port]) else s.

Definition ns_lookup (s : ipc) (id : Z) : Z :=
  if id <? NS_MAX_IDS then (ns_table s).[id] else PORT_NULL.

(** ** The queue a port holds *)

Definition port_queue (p : port_t) : list ipc_msg_t :=
  ring_contents IPC_PORT_DEPTH (buf p) (head p) (count p).

(** Every port's ring is consistent: indices inside the buffer, the tail
    [count] slots after the head. *)
Definition port_wf (p : port_t) : Prop :=
  zlen (buf p) = IPC_PORT_DEPTH ∧
  0 ≤ head p < IPC_PORT_DEPTH ∧
  0 ≤ count p ≤ IPC_PORT_DEPTH ∧
  tail p = (head p + count p) mod IPC_PORT_DEPTH ∧
  0 ≤ recv_waiters p < 4294967296 ∧
  0 ≤ send_waiters p < 4294967296.

Definition ipc_wf (s : ipc) : Prop :=
  zlen (ports s) = IPC_MAX_PORTS ∧
  zlen (ns_table s) = NS_MAX_IDS ∧
  ∀ h, 0 ≤ h < IPC_MAX_PORTS → port_wf ((ports s).[h]).

(** ** Lemmas *)

Ltac ipc_consts := unfold IPC_PORT_DEPTH, IPC_MAX_PORTS, NS_MAX_IDS, PORT_NULL in *.

Lemma port_zero_wf : port_wf port_zero.
Proof. vm_compute. intuition congruence. Qed.

Lemma port_get_Some s h p :
  port_get s h = Some p →
  1 ≤ h < IPC_MAX_PORTS ∧ (ports s).[h] = p ∧ used p = true.
Proof.
  unfold port_get. destruct ((h <? 1) || (IPC_MAX_PORTS <=? h)) eqn:Hr; [done|].
  destruct (used _) eqn:Hu; [|done]. intros [= <-]. bools. auto.
Qed.

Lemma port_get_used s h p :
  1 ≤ h < IPC_MAX_PORTS → (ports s).[h] = p → used p = true → port_get s h = Some p.
Proof.
  intros Hh Hp Hu. unfold port_get.
  destruct (Z.ltb_spec h 1), (Z.leb_spec IPC_MAX_PORTS h); try lia. simpl.
  by rewrite Hp, Hu.
Qed.

Lemma ports_set_port_eq s h p :
  ipc_wf s → 0 ≤ h < IPC_MAX_PORTS → (ports (set_port s h p)).[h] = p.
Proof. intros (Hl & _) Hh. simpl. apply aget_aset_eq. by rewrite Hl. Qed.

Lemma ports_set_port_ne s h h' p :
  0 ≤ h → 0 ≤ h' → h ≠ h' → (ports (set_port s h p)).[h'] = (ports s).[h'].
Proof. intros. simpl. by apply aget_aset_ne. Qed.

Lemma set_port_wf s h p :
  ipc_wf s → 0 ≤ h < IPC_MAX_PORTS → port_wf p → ipc_wf (set_port s h p).
Proof.
  intros Hwf Hh Hp. pose proof Hwf as (Hl & Hn & Hall). repeat split; simpl.
  1: by rewrite zlen_aset.
  1: done.
  all: destruct (decide (h = h0)) as [->|Hne];
    [rewrite aget_aset_eq by lia; apply Hp
    |rewrite aget_aset_ne by lia; by apply Hall].
Qed.

Lemma u32_succ_mod idx : 0 ≤ idx < IPC_PORT_DEPTH →
  u32 (idx + 1) mod IPC_PORT_DEPTH = (idx + 1) mod IPC_PORT_DEPTH.
Proof. ipc_consts. intros. rewrite u32_small by lia. done. Qed.

(** One send on a port with room. *)
Lemma port_push_wf p m idx rw :
  port_wf p → count p < IPC_PORT_DEPTH → idx = tail p → 0 ≤ rw < 4294967296 →
  let p' := mkPort (used p) (owner_pid p) ((buf p).[idx <- m]) (head p)
              (u32 (idx + 1) mod IPC_PORT_DEPTH) (u32 (count p + 1)) rw (send_waiters p) in
  port_wf p' ∧ port_queue p' = port_queue p ++ [m].
Proof.
  intros (Hl & Hh & Hc & Ht & Hr & Hs) Hroom -> Hrw p'.
  assert (Htb : 0 ≤ tail p < IPC_PORT_DEPTH) by (rewrite Ht; ipc_consts; zlia).
  split.
  - unfold port_wf, p'; simpl. rewrite zlen_aset, u32_succ_mod, u32_small by (ipc_consts; lia).
    rewrite Ht, Zplus_mod_idemp_l. ipc_consts. repeat split; try lia. f_equal; lia.
  - unfold port_queue, p'; simpl. rewrite u32_small by (ipc_consts; lia).
    rewrite Ht. apply ring_push; ipc_consts; lia.
Qed.

(** One receive on a port with a message. *)
Lemma port_pop_wf p :
  port_wf p → 0 < count p →
  let p' := mkPort (used p) (owner_pid p) (buf p) (u32 (head p + 1) mod IPC_PORT_DEPTH)
              (tail p) (u32 (count p - 1)) (recv_waiters p) (send_waiters p) in
  port_wf p' ∧ port_queue p = (buf p).[head p] :: port_queue p'.
Proof.
  intros (Hl & Hh & Hc & Ht & Hr & Hs) Hpos p'. split.
  - unfold port_wf, p'; simpl. rewrite u32_succ_mod, u32_small by (ipc_consts; lia).
    rewrite Zplus_mod_idemp_l. ipc_consts. repeat split; zlia.
  - unfold port_queue, p'; simpl. rewrite u32_succ_mod, u32_small by (ipc_consts; lia).
    rewrite ring_pop by (ipc_consts; lia). rewrite (Z.mod_small (head p)) by (ipc_consts; lia).
    done.
Qed.

(** ** Abstract specification: a finite family of bounded FIFO mailboxes

    A handle is either closed or open with an owner and a queue of at most
    [IPC_PORT_DEPTH] messages. *)

Definition mailboxes : Type := Z → option (Z * list ipc_msg_t).

Inductive ipc_op :=
  | OpCreate (owner : Z)
  | OpSend (h : Z) (m : ipc_msg_t)
  | OpRecv (h : Z)
  | OpClose (h : Z).

Inductive ipc_res :=
  | ResHandle (h : Z)
  | ResBool (ok : bool)
  | ResMsg (m : option ipc_msg_t)
  | ResUnit.

Definition mb_set (a : mailboxes) (h : Z) (v : option (Z * list ipc_msg_t)) : mailboxes :=
  λ h', if h =? h' then v else a h'.

(** What each operation does to the mailboxes. *)
Definition spec_op (a : mailboxes) (op : ipc_op) : ipc_res * mailboxes :=
  match op with
  | OpCreate owner =>
      match find_up (λ i, bool_decide (a i = None)) 1 (Z.to_nat (IPC_MAX_PORTS - 1)) with
      | Some i => (ResHandle i, mb_set a i (Some (owner, [])))
      | None => (ResHandle PORT_NULL, a)
      end
  | OpSend h m =>
      match a h with
      | Some (o, q) =>
          if zlen q <? IPC_PORT_DEPTH then (ResBool true, mb_set a h (Some (o, q ++ [m])))
          else (ResBool false, a)
      | None => (ResBool false, a)
      end
  | OpRecv h =>
      match a h with
      | Some (o, m :: q) => (ResMsg (Some m), mb_set a h (Some (o, q)))
      | _ => (ResMsg None, a)
      end
  | OpClose h => (ResUnit, mb_set a h None)
  end.

(** The same operation on the port table ([OpRecv] is the non-blocking receive). *)
Definition impl_op (s : ipc) (op : ipc_op) : ipc_res * ipc :=
  match op with
  | OpCreate owner => let '(h, s') := port_create s owner in (ResHandle h, s')
  | OpSend h m => let '(b, s', _) := port_send s h (Some m) in (ResBool b, s')
  | OpRecv h =>
      match port_recv_try s h true false with
      | (RecvOk m _, s') => (ResMsg (Some m), s')
      | (_, s') => (ResMsg None, s')
      end
  | OpClose h => (ResUnit, (port_close s h).1)
  end.

(** The mailboxes a port table represents. *)
Definition mailboxes_of (s : ipc) : mailboxes :=
  λ h, (λ p, (owner_pid p, port_queue p)) <$> port_get s h.

Lemma port_get_set_port s h p h' :
  ipc_wf s → 1 ≤ h < IPC_MAX_PORTS →
  port_get (set_port s h p) h' =
    if h =? h' then (if used p then Some p else None) else port_get s h'.
Proof.
  intros Hwf Hh. unfold port_get.
  destruct (Z.eqb_spec h h') as [<-|Hne].
  - rewrite ports_set_port_eq by (done || lia).
    destruct (Z.ltb_spec h 1), (Z.leb_spec IPC_MAX_PORTS h); (lia || done).
  - destruct (Z.ltb_spec h' 1), (Z.leb_spec IPC_MAX_PORTS h'); simpl; try done.
    by rewrite aget_aset_ne by lia.
Qed.

Lemma mailboxes_set_port s h p h' :
  ipc_wf s → 1 ≤ h < IPC_MAX_PORTS → used p = true →
  mailboxes_of (set_port s h p) h' =
    mb_set (mailboxes_of s) h (Some (owner_pid p, port_queue p)) h'.
Proof.
  intros Hwf Hh Hu. unfold mailboxes_of, mb_set.
  rewrite port_get_set_port by done. destruct (h =? h'); [by rewrite Hu|done].
Qed.

Lemma ipc_wf_port s h p : ipc_wf s → port_get s h = Some p → port_wf p.
Proof.
  intros (_ & _ & Hall) (Hh & <- & _)%port_get_Some. apply Hall. lia.
Qed.

Lemma mailboxes_free s i :
  1 ≤ i < IPC_MAX_PORTS →
  bool_decide (mailboxes_of s i = None) = negb (used ((ports s).[i])).
Proof.
  intros Hi. unfold mailboxes_of, port_get.
  destruct (Z.ltb_spec i 1), (Z.leb_spec IPC_MAX_PORTS i); try lia. simpl.
  by destruct (used _).
Qed.

Lemma create_refines s owner :
  ipc_wf s →
  let '(r, s') := impl_op s (OpCreate owner) in
  let '(r', a') := spec_op (mailboxes_of s) (OpCreate owner) in
  r = r' ∧ ipc_wf s' ∧ ∀ h, mailboxes_of s' h = a' h.
Proof.
  intros Hwf. cbn [impl_op spec_op]. unfold port_create.
  rewrite (find_up_ext (λ i, bool_decide (mailboxes_of s i = None))
             (λ i, negb (used ((ports s).[i])))).
  2: { intros i Hi. apply mailboxes_free. ipc_consts. lia. }
  destruct (find_up _ _ _) as [i|] eqn:Hf; [|done].
  apply find_up_Some in Hf as (Hi & _ & _).
  assert (1 ≤ i < IPC_MAX_PORTS) by (ipc_consts; lia).
  split; [done|]. pose proof (proj2 (proj2 Hwf) i ltac:(lia)) as (Hl & Hh & Hc & Ht & Hr & Hs).
  split.
  - apply set_port_wf; [done|lia|]. unfold port_wf; simpl. ipc_consts. repeat split; lia.
  - intros h. rewrite mailboxes_set_port by done. done.
Qed.

Lemma send_refines s h m :
  ipc_wf s →
  let '(r, s') := impl_op s (OpSend h m) in
  let '(r', a') := spec_op (mailboxes_of s) (OpSend h m) in
  r = r' ∧ ipc_wf s' ∧ ∀ h', mailboxes_of s' h' = a' h'.
Proof.
  intros Hwf. cbn [impl_op spec_op]. unfold port_send. unfold mailboxes_of at 1.
  destruct (port_get s h) as [p|] eqn:Hp; simpl; [|done].
  pose proof (ipc_wf_port _ _ _ Hwf Hp) as Hpw. pose proof Hpw as (Hl & Hh & Hc & Ht & Hr & Hs).
  apply port_get_Some in Hp as (Hhr & Hps & Hu).
  unfold port_queue at 1. rewrite ring_contents_length by lia.
  destruct (Z.leb_spec IPC_PORT_DEPTH (count p)), (Z.ltb_spec (count p) IPC_PORT_DEPTH); try lia; [done|].
  destruct (port_push_wf p m (tail p) (recv_waiters p) Hpw ltac:(done) eq_refl Hr) as [Hw' Hq'].
  split; [done|]. split; [by apply set_port_wf; [|lia|]|].
  intros h'. rewrite mailboxes_set_port by done. by rewrite Hq'.
Qed.

Lemma recv_refines s h :
  ipc_wf s →
  let '(r, s') := impl_op s (OpRecv h) in
  let '(r', a') := spec_op (mailboxes_of s) (OpRecv h) in
  r = r' ∧ ipc_wf s' ∧ ∀ h', mailboxes_of s' h' = a' h'.
Proof.
  intros Hwf. cbn [impl_op spec_op]. unfold port_recv_try. unfold mailboxes_of at 1.
  destruct (port_get s h) as [p|] eqn:Hp; simpl; [|done].
  pose proof (ipc_wf_port _ _ _ Hwf Hp) as Hpw. pose proof Hpw as (_ & _ & Hc & _).
  apply port_get_Some in Hp as (Hhr & Hps & Hu).
  destruct (Z.ltb_spec 0 (count p)).
  - destruct (port_pop_wf p Hpw ltac:(done)) as [Hw' Hq']. rewrite Hq'.
    split; [done|]. split; [by apply set_port_wf; [|lia|]|].
    intros h'. by rewrite mailboxes_set_port.
  - unfold port_queue. rewrite ring_contents_0 by lia. done.
Qed.

Lemma close_refines s h :
  ipc_wf s →
  let '(r, s') := impl_op s (OpClose h) in
  let '(r', a') := spec_op (mailboxes_of s) (OpClose h) in
  r = r' ∧ ipc_wf s' ∧ ∀ h', mailboxes_of s' h' = a' h'.
Proof.
  intros Hwf. cbn [impl_op spec_op]. unfold port_close.
  destruct (port_get s h) as [p|] eqn:Hp; simpl.
  - apply port_get_Some in Hp as (Hhr & _ & _). split; [done|].
    split; [apply set_port_wf; [done|lia|apply port_zero_wf]|].
    intros h'. unfold mailboxes_of, mb_set. rewrite port_get_set_port by done.
    by destruct (h =? h').
  - split; [done|]. split; [done|]. intros h'. unfold mb_set.
    destruct (Z.eqb_spec h h') as [<-|]; [|done]. unfold mailboxes_of. by rewrite Hp.
Qed.

(** C1: the port table refines the family of bounded FIFO mailboxes: every
    operation returns what the specification returns and leaves a table that
    represents the specification's next state; the ring invariants are
    preserved. *)
Theorem ipc_refines_mailboxes s op :
  ipc_wf s →
  let '(r, s') := impl_op s op in
  let '(r', a') := spec_op (mailboxes_of s) op in
  r = r' ∧ ipc_wf s' ∧ ∀ h, mailboxes_of s' h = a' h.
Proof.
  intros Hwf. destruct op;
    [by apply create_refines|by apply send_refines|by apply recv_refines|by apply close_refines].
Qed.

Lemma ipc_bss_wf : ipc_wf ipc_bss.
Proof.
  split; [|split]; [done..|]. intros h Hh. unfold ipc_bss; cbn [ports].
  rewrite aget_replicate by (ipc_consts; lia). apply port_zero_wf.
Qed.

Lemma ipc_refines_mailboxes_witness :
  let m := mkMsg 2 7 [] 0 0 [] in
  let s1 := (impl_op ipc_bss (OpCreate 7)).2 in
  ipc_wf s1 ∧
  let '(r, s') := impl_op s1 (OpSend 1 m) in
  r = ResBool true ∧ mailboxes_of s' 1 = Some (7, [m]).
Proof.
  intros m s1.
  assert (Hw : ipc_wf s1).
  { pose proof (ipc_refines_mailboxes ipc_bss (OpCreate 7) ipc_bss_wf) as H. unfold s1.
    destruct (impl_op ipc_bss (OpCreate 7)), (spec_op (mailboxes_of ipc_bss) (OpCreate 7)).
    apply H. }
  split; [exact Hw|].
  assert (E1 : (spec_op (mailboxes_of s1) (OpSend 1 m)).1 = ResBool true)
    by (vm_compute; reflexivity).
  assert (E2 : (spec_op (mailboxes_of s1) (OpSend 1 m)).2 1 = Some (7, [m]))
    by (vm_compute; reflexivity).
  pose proof (ipc_refines_mailboxes s1 (OpSend 1 m) Hw) as H. clearbody s1.
  destruct (impl_op s1 (OpSend 1 m)), (spec_op (mailboxes_of s1) (OpSend 1 m)).
  destruct H as (-> & _ & Hm). split; [exact E1|]. rewrite Hm. exact E2.
Defined.

(** ** Blocking receivers: no wakeup is lost *)

Definition SCHED_MAX_PROCS : Z := 256.

(** Where each process is in [port_recv]: not in it, asleep inside
    [sched_block_on], woken but not yet past it, or about to retry. *)
Inductive rstate := RIdle | RAsleep (h : Z) | RAwake (h : Z) | RRetry (h : Z).
#[export] Instance rstate_inhabited : Inhabited rstate := populate RIdle.

Record sys := mkSys { sipc : ipc; rcv : list rstate; pend : list chan }.

(** The process counts as a waiter from the increment to the decrement. *)
Definition waiting (h : Z) (r : rstate) : bool :=
  match r with RAsleep h' | RAwake h' => h =? h' | _ => false end.

(** [sched_wake_chan]: every process asleep on the channel becomes runnable. *)
Definition wake_rstate (c : chan) (r : rstate) : rstate :=
  match r, c with
  | RAsleep h, Recvq h' => if h =? h' then RAwake h else r
  | _, _ => r
  end.

Definition recv_next (h : Z) (o : recv_outcome) : rstate :=
  match o with RecvSleep _ => RAsleep h | _ => RIdle end.

Definition recv_wake (o : recv_outcome) : list chan :=
  match o with RecvOk _ (Some c) => [c] | _ => [] end.

(** Interleavings of senders, receivers, wakeups still to be delivered and
    backstop timeouts; [closing] says whether ports may be closed. *)
Inductive sys_step (closing : bool) : sys → sys → Prop :=
  | StepCreate σ owner :
      sys_step closing σ (mkSys (port_create (sipc σ) owner).2 (rcv σ) (pend σ))
  | StepSend σ h m ok s' w :
      port_send (sipc σ) h (Some m) = (ok, s', w) →
      sys_step closing σ (mkSys s' (rcv σ) (option_list w ++ pend σ))
  | StepRecv σ pid h o s' :
      0 ≤ pid < SCHED_MAX_PROCS →
      (rcv σ).[pid] = RIdle ∨ (rcv σ).[pid] = RRetry h →
      port_recv_try (sipc σ) h true true = (o, s') →
      sys_step closing σ
        (mkSys s' ((rcv σ).[pid <- recv_next h o]) (recv_wake o ++ pend σ))
  | StepWake σ c l1 l2 :
      pend σ = l1 ++ c :: l2 →
      sys_step closing σ (mkSys (sipc σ) (wake_rstate c <$> rcv σ) (l1 ++ l2))
  | StepTimeout σ pid h :
      0 ≤ pid < SCHED_MAX_PROCS → (rcv σ).[pid] = RAsleep h →
      sys_step closing σ (mkSys (sipc σ) ((rcv σ).[pid <- RAwake h]) (pend σ))
  | StepResume σ pid h :
      0 ≤ pid < SCHED_MAX_PROCS → (rcv σ).[pid] = RAwake h →
      sys_step closing σ
        (mkSys (port_recv_resume (sipc σ) h) ((rcv σ).[pid <- RRetry h]) (pend σ))
  | StepClose σ h :
      closing = true →
      sys_step closing σ
        (mkSys (port_close (sipc σ) h).1 (rcv σ) ((port_close (sipc σ) h).2 ++ pend σ)).

Definition sys_init : sys :=
  mkSys ipc_bss (replicate (Z.to_nat SCHED_MAX_PROCS) RIdle) [].

(** The system invariant: the waiter count of a port is the number of
    processes between the increment and the decrement, and a port with both a
    sleeper and a message has a wakeup under way. *)
Record sys_inv (σ : sys) : Prop := {
  si_wf : ipc_wf (sipc σ);
  si_len : zlen (rcv σ) = SCHED_MAX_PROCS;
  si_open : ∀ pid h, 0 ≤ pid < SCHED_MAX_PROCS → waiting h ((rcv σ).[pid]) = true →
    is_Some (port_get (sipc σ) h);
  si_count : ∀ h, 1 ≤ h < IPC_MAX_PORTS →
    recv_waiters ((ports (sipc σ)).[h]) =
      count_up (λ pid, waiting h ((rcv σ).[pid])) 0 (Z.to_nat SCHED_MAX_PROCS);
  si_wake : ∀ pid h, 0 ≤ pid < SCHED_MAX_PROCS → (rcv σ).[pid] = RAsleep h →
    0 < count ((ports (sipc σ)).[h]) → Recvq h ∈ pend σ;
}.

Lemma port_upd_inv σ h p' rcv' pend' :
  sys_inv σ → 1 ≤ h < IPC_MAX_PORTS →
  used ((ports (sipc σ)).[h]) = true → used p' = true → port_wf p' →
  zlen rcv' = SCHED_MAX_PROCS →
  (∀ pid h', 0 ≤ pid < SCHED_MAX_PROCS → waiting h' (rcv'.[pid]) = true →
     h' = h ∨ waiting h' ((rcv σ).[pid]) = true) →
  recv_waiters p' = count_up (λ pid, waiting h (rcv'.[pid])) 0 (Z.to_nat SCHED_MAX_PROCS) →
  (∀ h', 1 ≤ h' < IPC_MAX_PORTS → h' ≠ h →
     count_up (λ pid, waiting h' (rcv'.[pid])) 0 (Z.to_nat SCHED_MAX_PROCS) =
     count_up (λ pid, waiting h' ((rcv σ).[pid])) 0 (Z.to_nat SCHED_MAX_PROCS)) →
  (∀ pid, 0 ≤ pid < SCHED_MAX_PROCS → rcv'.[pid] = RAsleep h → 0 < count p' →
     Recvq h ∈ pend') →
  (∀ pid h', 0 ≤ pid < SCHED_MAX_PROCS → h' ≠ h → rcv'.[pid] = RAsleep h' →
     (rcv σ).[pid] = RAsleep h') →
  (∀ c, c ∈ pend σ → c ∈ pend') →
  sys_inv (mkSys (set_port (sipc σ) h p') rcv' pend').
Proof.
  intros [Hwf Hlen Hopen Hcnt Hwake] Hh Hu Hu' Hpw Hlen' Hw Hc Hc' Hs Hs' Hp.
  assert (Hget : ∀ h', h' ≠ h → port_get (set_port (sipc σ) h p') h' = port_get (sipc σ) h').
  { intros h' Hne. rewrite port_get_set_port by done.
    destruct (Z.eqb_spec h h'); [lia|done]. }
  constructor; cbn [sipc rcv pend].
  - apply set_port_wf; [done|lia|done].
  - done.
  - intros pid h' Hpid Hwt. destruct (decide (h' = h)) as [->|Hne].
    + rewrite port_get_set_port, Z.eqb_refl, Hu' by done. done.
    + rewrite Hget by done. destruct (Hw pid h' Hpid Hwt) as [|Hold]; [done|by eapply Hopen].
  - intros h' Hh'. destruct (decide (h' = h)) as [->|Hne].
    + rewrite ports_set_port_eq by (done || lia). done.
    + rewrite ports_set_port_ne by lia. rewrite Hc' by done. by apply Hcnt.
  - intros pid h' Hpid Ha. destruct (decide (h' = h)) as [->|Hne].
    + rewrite ports_set_port_eq by (done || lia). by eapply Hs.
    + assert (Hold := Hs' pid h' Hpid Hne Ha).
      destruct (Hopen pid h' Hpid) as [q Hq].
      { rewrite Hold. simpl. by rewrite Z.eqb_refl. }
      apply port_get_Some in Hq as (Hr & _ & _).
      rewrite ports_set_port_ne by lia. intros. by eapply Hp, Hwake.
Qed.

Lemma inv_waiters_range σ h :
  sys_inv σ → 1 ≤ h < IPC_MAX_PORTS →
  0 ≤ recv_waiters ((ports (sipc σ)).[h]) ≤ SCHED_MAX_PROCS.
Proof.
  intros Hi Hh. rewrite (si_count _ Hi h Hh).
  pose proof (count_up_bounds (λ pid, waiting h ((rcv σ).[pid])) 0 (Z.to_nat SCHED_MAX_PROCS)).
  unfold SCHED_MAX_PROCS in *. lia.
Qed.

Lemma inv_send σ h m ok s' w :
  sys_inv σ → port_send (sipc σ) h (Some m) = (ok, s', w) →
  sys_inv (mkSys s' (rcv σ) (option_list w ++ pend σ)).
Proof.
  intros Hi. unfold port_send. destruct (port_get (sipc σ) h) as [p|] eqn:Hp; last first.
  { intros [= <- <- <-]. by destruct σ. }
  pose proof (ipc_wf_port _ _ _ (si_wf _ Hi) Hp) as Hpw.
  apply port_get_Some in Hp as (Hh & Hps & Hu).
  destruct (Z.leb_spec IPC_PORT_DEPTH (count p)).
  { intros [= <- <- <-]. by destruct σ. }
  intros [= <- <- <-].
  destruct (port_push_wf p m (tail p) (recv_waiters p) Hpw ltac:(lia) eq_refl
              (proj1 (proj2 (proj2 (proj2 (proj2 Hpw)))))) as [Hw' _].
  apply port_upd_inv; try done.
  - by rewrite Hps.
  - apply Hi.
  - auto.
  - simpl. rewrite <- Hps. by apply si_count.
  - intros pid Hpid Ha _.
    assert (Hpos : 0 < recv_waiters p).
    { rewrite <- Hps, (si_count _ Hi h Hh). apply count_up_pos with pid.
      - unfold SCHED_MAX_PROCS in *. lia.
      - rewrite Ha. simpl. by rewrite Z.eqb_refl. }
    destruct (Z.ltb_spec 0 (recv_waiters p)); [|lia]. simpl. by left.
  - intros c Hc. apply elem_of_app. by right.
Qed.

(** Moving one process changes the waiter counts by that process alone. *)
Lemma waiting_count_upd l pid r h :
  zlen l = SCHED_MAX_PROCS → 0 ≤ pid < SCHED_MAX_PROCS →
  count_up (λ i, waiting h (l.[pid <- r].[i])) 0 (Z.to_nat SCHED_MAX_PROCS) =
  count_up (λ i, waiting h (l.[i])) 0 (Z.to_nat SCHED_MAX_PROCS)
  + (if waiting h r then 1 else 0) - (if waiting h (l.[pid]) then 1 else 0).
Proof.
  intros Hl Hp. rewrite (count_up_upd (λ i, waiting h (l.[i])) _ 0 _ pid).
  - by rewrite aget_aset_eq by lia.
  - unfold SCHED_MAX_PROCS in *. lia.
  - intros i Hi Hne. by rewrite aget_aset_ne by lia.
Qed.

Lemma rcv_upd_cases (l : list rstate) pid r i :
  zlen l = SCHED_MAX_PROCS → 0 ≤ pid < SCHED_MAX_PROCS → 0 ≤ i →
  (i = pid ∧ l.[pid <- r].[i] = r) ∨ (i ≠ pid ∧ l.[pid <- r].[i] = l.[i]).
Proof.
  intros Hl Hp Hi. destruct (decide (i = pid)) as [->|Hne].
  - left. by rewrite aget_aset_eq by lia.
  - right. by rewrite aget_aset_ne by lia.
Qed.

(** A process outside [sched_block_on] that stays outside it. *)
Lemma inv_rcv_quiet σ pid r pend' :
  sys_inv σ → 0 ≤ pid < SCHED_MAX_PROCS →
  (∀ h, waiting h ((rcv σ).[pid]) = false) → (∀ h, waiting h r = false) →
  (∀ c, c ∈ pend σ → c ∈ pend') →
  sys_inv (mkSys (sipc σ) ((rcv σ).[pid <- r]) pend').
Proof.
  intros [Hwf Hlen Hopen Hcnt Hwake] Hpid Hq Hr Hp.
  constructor; cbn [sipc rcv pend]; [done|by rewrite zlen_aset|..].
  - intros i h Hi Hw. destruct (rcv_upd_cases (rcv σ) pid r i) as [[-> E]|[? E]]; [done..|lia| |].
    + rewrite E, Hr in Hw. done.
    + rewrite E in Hw. by eapply Hopen.
  - intros h Hh. rewrite waiting_count_upd by done. rewrite Hq, Hr, Hcnt by done. lia.
  - intros i h Hi Ha Hc. destruct (rcv_upd_cases (rcv σ) pid r i) as [[-> E]|[? E]]; [done..|lia| |].
    + specialize (Hr h). rewrite E in Ha. rewrite Ha in Hr. simpl in Hr.
      rewrite Z.eqb_refl in Hr. done.
    + rewrite E in Ha. by eapply Hp, Hwake.
Qed.

Lemma waiting_quiet r h' : r = RIdle ∨ r = RRetry h' → ∀ h, waiting h r = false.
Proof. by intros [-> | ->]. Qed.

Lemma inv_recv σ pid h o s' :
  sys_inv σ → 0 ≤ pid < SCHED_MAX_PROCS →
  (rcv σ).[pid] = RIdle ∨ (rcv σ).[pid] = RRetry h →
  port_recv_try (sipc σ) h true true = (o, s') →
  sys_inv (mkSys s' ((rcv σ).[pid <- recv_next h o]) (recv_wake o ++ pend σ)).
Proof.
  intros Hi Hpid Hq'. pose proof (waiting_quiet _ _ Hq') as Hq. clear Hq'.
  pose proof (si_len _ Hi) as Hlen.
  unfold port_recv_try. cbn [negb].
  destruct (port_get (sipc σ) h) as [p|] eqn:Hp; last first.
  { intros [= <- <-]. by apply inv_rcv_quiet. }
  pose proof (ipc_wf_port _ _ _ (si_wf _ Hi) Hp) as Hpw.
  apply port_get_Some in Hp as (Hh & Hps & Hu).
  destruct (Z.ltb_spec 0 (count p)); intros [= <- <-].
  - destruct (port_pop_wf p Hpw ltac:(done)) as [Hw' _].
    apply (port_upd_inv (mkSys (sipc σ) ((rcv σ).[pid <- RIdle]) (pend σ)));
      try done; cbn [sipc rcv pend].
    + by apply inv_rcv_quiet.
    + by rewrite Hps.
    + by rewrite zlen_aset.
    + auto.
    + rewrite waiting_count_upd, Hq by done. cbn [recv_waiters recv_next waiting].
      rewrite <- Hps, (si_count _ Hi h Hh). lia.
    + intros i Hir Ha Hc. cbn [recv_next] in Ha.
      destruct (rcv_upd_cases (rcv σ) pid RIdle i) as [[-> E]|[? E]]; [done..|lia| |];
        rewrite E in Ha; [done|].
      apply elem_of_app. right. eapply si_wake; [done..|]. by rewrite Hps.
    + intros c Hc. apply elem_of_app. by right.
  - pose proof (inv_waiters_range _ h Hi Hh) as Hr. rewrite Hps in Hr.
    assert (Hu32 : u32 (recv_waiters p + 1) = recv_waiters p + 1)
      by (apply u32_small; unfold SCHED_MAX_PROCS in *; lia).
    apply port_upd_inv; try done.
    + by rewrite Hps.
    + destruct Hpw as (?&?&?&?&?&?). unfold port_wf; simpl. rewrite Hu32.
      unfold SCHED_MAX_PROCS in *. repeat split; try done; lia.
    + by rewrite zlen_aset.
    + intros i h' Hir Hw. destruct (rcv_upd_cases (rcv σ) pid (RAsleep h) i)
        as [[-> E]|[? E]]; [done..|lia| |]; cbn [recv_next] in Hw; rewrite E in Hw; [|by right].
      left. simpl in Hw. bools. done.
    + cbn [recv_next recv_waiters]. rewrite waiting_count_upd, Hq by done. simpl.
      rewrite Z.eqb_refl, Hu32, <- Hps, (si_count _ Hi h Hh). lia.
    + intros h' Hh' Hne. cbn [recv_next]. rewrite waiting_count_upd, Hq by done. simpl.
      destruct (Z.eqb_spec h' h); lia.
    + simpl. lia.
    + intros i h' Hir Hne Ha. cbn [recv_next] in Ha.
      destruct (rcv_upd_cases (rcv σ) pid (RAsleep h) i) as [[-> E]|[? E]]; [done..|lia| |];
        rewrite E in Ha; [congruence|done].
Qed.

Lemma wake_waiting c h r : waiting h (wake_rstate c r) = waiting h r.
Proof. destruct r, c; simpl; try done. by destruct (h0 =? h1). Qed.

Lemma inv_wake σ c l1 l2 :
  sys_inv σ → pend σ = l1 ++ c :: l2 →
  sys_inv (mkSys (sipc σ) (wake_rstate c <$> rcv σ) (l1 ++ l2)).
Proof.
  intros [Hwf Hlen Hopen Hcnt Hwake] Hp.
  assert (Hf : ∀ i, 0 ≤ i < SCHED_MAX_PROCS →
                 (wake_rstate c <$> rcv σ).[i] = wake_rstate c ((rcv σ).[i]))
    by (intros; apply aget_fmap; lia).
  constructor; cbn [sipc rcv pend]; [done|by rewrite zlen_fmap|..].
  - intros i h Hi. rewrite Hf, wake_waiting by done. by apply Hopen.
  - intros h Hh. rewrite Hcnt by done. apply count_up_ext. intros i Hi.
    rewrite Hf, wake_waiting; [done|]. unfold SCHED_MAX_PROCS in *. lia.
  - intros i h Hi. rewrite Hf by done. intros Ha Hc.
    assert (Hold : (rcv σ).[i] = RAsleep h ∧ c ≠ Recvq h).
    { destruct ((rcv σ).[i]), c; simpl in Ha; try done.
      destruct (Z.eqb_spec h0 h1); [done|]. split; [done|]. congruence. }
    destruct Hold as [Ho Hne]. specialize (Hwake i h Hi Ho Hc).
    rewrite Hp in Hwake. apply elem_of_app in Hwake as [|Hin]; [apply elem_of_app; by left|].
    apply elem_of_cons in Hin as [|]; [congruence|]. apply elem_of_app. by right.
Qed.

Lemma inv_timeout σ pid h :
  sys_inv σ → 0 ≤ pid < SCHED_MAX_PROCS → (rcv σ).[pid] = RAsleep h →
  sys_inv (mkSys (sipc σ) ((rcv σ).[pid <- RAwake h]) (pend σ)).
Proof.
  intros [Hwf Hlen Hopen Hcnt Hwake] Hpid Ho.
  constructor; cbn [sipc rcv pend]; [done|by rewrite zlen_aset|..].
  - intros i h' Hi Hw. destruct (rcv_upd_cases (rcv σ) pid (RAwake h) i) as [[-> E]|[? E]];
      [done..|lia| |]; rewrite E in Hw; [|by eapply Hopen].
    apply (Hopen pid h' Hpid). by rewrite Ho.
  - intros h' Hh. rewrite waiting_count_upd by done. rewrite Ho, Hcnt by done. simpl. lia.
  - intros i h' Hi Ha. destruct (rcv_upd_cases (rcv σ) pid (RAwake h) i) as [[-> E]|[? E]];
      [done..|lia| |]; rewrite E in Ha; [done|by eapply Hwake].
Qed.

Lemma inv_resume σ pid h :
  sys_inv σ → 0 ≤ pid < SCHED_MAX_PROCS → (rcv σ).[pid] = RAwake h →
  sys_inv (mkSys (port_recv_resume (sipc σ) h) ((rcv σ).[pid <- RRetry h]) (pend σ)).
Proof.
  intros Hi Hpid Ho. pose proof (si_len _ Hi) as Hlen.
  assert (Hw : waiting h ((rcv σ).[pid]) = true) by (rewrite Ho; simpl; apply Z.eqb_refl).
  destruct (si_open _ Hi pid h Hpid Hw) as [p Hp].
  pose proof (ipc_wf_port _ _ _ (si_wf _ Hi) Hp) as Hpw.
  unfold port_recv_resume. rewrite Hp. apply port_get_Some in Hp as (Hh & Hps & Hu).
  assert (Hpos : 0 < recv_waiters p).
  { rewrite <- Hps, (si_count _ Hi h Hh). apply count_up_pos with pid; [|done].
    unfold SCHED_MAX_PROCS in *. lia. }
  destruct (Z.eqb_spec (recv_waiters p) 0); [lia|].
  apply port_upd_inv; try done.
  - by rewrite Hps.
  - destruct Hpw as (?&?&?&?&?&?). unfold port_wf; simpl. repeat split; try done; lia.
  - by rewrite zlen_aset.
  - intros i h' Hir Hwi. destruct (rcv_upd_cases (rcv σ) pid (RRetry h) i) as [[-> E]|[? E]];
      [done..|lia| |]; rewrite E in Hwi; [done|by right].
  - rewrite waiting_count_upd, Hw by done. cbn [recv_waiters waiting].
    rewrite <- Hps, (si_count _ Hi h Hh). lia.
  - intros h' Hh' Hne. rewrite waiting_count_upd by done. rewrite Ho. simpl.
    destruct (Z.eqb_spec h' h); lia.
  - intros i Hir Ha Hc. destruct (rcv_upd_cases (rcv σ) pid (RRetry h) i) as [[-> E]|[? E]];
      [done..|lia| |]; rewrite E in Ha; [done|]. eapply si_wake; [done..|]. by rewrite Hps.
  - intros i h' Hir Hne Ha. destruct (rcv_upd_cases (rcv σ) pid (RRetry h) i) as [[-> E]|[? E]];
      [done..|lia| |]; rewrite E in Ha; [done|done].
Qed.

Lemma inv_create σ owner :
  sys_inv σ → sys_inv (mkSys (port_create (sipc σ) owner).2 (rcv σ) (pend σ)).
Proof.
  intros Hi. unfold port_create.
  destruct (find_up _ _ _) as [h|] eqn:Hf; [|by destruct σ]. cbn [snd].
  apply find_up_Some in Hf as (Hr & Hfree & _). bools.
  assert (Hh : 1 ≤ h < IPC_MAX_PORTS) by (ipc_consts; lia).
  pose proof (proj2 (proj2 (si_wf _ Hi)) h ltac:(lia)) as (Hl & Hhd & Hc & Ht & Hrw & Hsw).
  assert (Hnone : ∀ pid h', 0 ≤ pid < SCHED_MAX_PROCS →
                    waiting h' ((rcv σ).[pid]) = true → h' ≠ h).
  { intros pid h' Hpid Hw ->. destruct (si_open _ Hi pid h Hpid Hw) as [p Hp].
    apply port_get_Some in Hp as (_ & <- & Hu). congruence. }
  destruct Hi as [Hwf Hlen Hopen Hcnt Hwake].
  constructor; cbn [sipc rcv pend].
  - apply set_port_wf; [done|lia|]. unfold port_wf; simpl. ipc_consts. repeat split; try lia.
  - done.
  - intros pid h' Hpid Hw. rewrite port_get_set_port by done.
    destruct (Z.eqb_spec h h'); [by eexists|by eapply Hopen].
  - intros h' Hh'. rewrite <- Hcnt by done.
    destruct (decide (h = h')) as [<-|Hne].
    + by rewrite ports_set_port_eq by (done || lia).
    + by rewrite ports_set_port_ne by lia.
  - intros pid h' Hpid Ha.
    assert (Hw : waiting h' ((rcv σ).[pid]) = true) by (rewrite Ha; simpl; apply Z.eqb_refl).
    destruct (Hopen pid h' Hpid Hw) as [p (Hr' & _ & _)%port_get_Some].
    rewrite ports_set_port_ne by (specialize (Hnone pid h' Hpid Hw); lia).
    by eapply Hwake.
Qed.

#[export] Hint Resolve inv_create inv_send inv_recv inv_wake inv_timeout inv_resume : xos.

Lemma sys_step_inv σ σ' : sys_inv σ → sys_step false σ σ' → sys_inv σ'.
Proof. intros Hi Hstep. destruct Hstep; eauto with xos. done. Qed.

Lemma sys_init_inv : sys_inv sys_init.
Proof.
  assert (Hr : ∀ i, 0 ≤ i < SCHED_MAX_PROCS → (rcv sys_init).[i] = RIdle)
    by (intros; apply aget_replicate; lia).
  constructor.
  - apply ipc_bss_wf.
  - done.
  - intros pid h Hp. by rewrite Hr.
  - intros h Hh. unfold sys_init, ipc_bss; cbn [sipc ports].
    rewrite aget_replicate by lia. symmetry. apply count_up_false.
    intros i Hi. rewrite Hr; [done|]. unfold SCHED_MAX_PROCS in *. lia.
  - intros pid h Hp. by rewrite Hr.
Qed.

Lemma sys_reach_inv σ : rtc (sys_step false) sys_init σ → sys_inv σ.
Proof.
  intros H. eapply rtc_invariant; [apply sys_step_inv|done|apply sys_init_inv].
Qed.

(** C3: while no port is closed, no wakeup is lost: in every interleaving of
    creators, senders, receivers, wakeup deliveries and backstop timeouts, a
    process asleep on a port that holds a message has a wakeup of that port's
    receive channel still to be delivered. *)
Theorem no_lost_wakeup σ pid h :
  rtc (sys_step false) sys_init σ →
  0 ≤ pid < SCHED_MAX_PROCS → (rcv σ).[pid] = RAsleep h →
  0 < count ((ports (sipc σ)).[h]) →
  Recvq h ∈ pend σ.
Proof. intros Hr Hp Ha Hc. by eapply si_wake; [apply sys_reach_inv|..]. Qed.

(** Executable forms of the steps, for concrete runs. *)
Definition do_send (σ : sys) (h : Z) (m : ipc_msg_t) : sys :=
  let '(_, s', w) := port_send (sipc σ) h (Some m) in
  mkSys s' (rcv σ) (option_list w ++ pend σ).
Definition do_recv (σ : sys) (pid h : Z) : sys :=
  let '(o, s') := port_recv_try (sipc σ) h true true in
  mkSys s' ((rcv σ).[pid <- recv_next h o]) (recv_wake o ++ pend σ).

Lemma do_send_step b σ h m : sys_step b σ (do_send σ h m).
Proof.
  unfold do_send. destruct (port_send _ _ _) as [[ok s'] w] eqn:E. by eapply StepSend.
Qed.

Lemma do_recv_step b σ pid h :
  0 ≤ pid < SCHED_MAX_PROCS → (rcv σ).[pid] = RIdle ∨ (rcv σ).[pid] = RRetry h →
  sys_step b σ (do_recv σ pid h).
Proof.
  intros. unfold do_recv. destruct (port_recv_try _ _ _ _) as [o s'] eqn:E. by eapply StepRecv.
Qed.

Definition demo_msg : ipc_msg_t := mkMsg 2 7 [] 0 0 [].

(** A created port, process 3 asleep on it, then one message. *)
Definition demo_run : sys :=
  do_send (do_recv (mkSys (port_create (sipc sys_init) 7).2 (rcv sys_init) []) 3 1) 1 demo_msg.

Lemma no_lost_wakeup_witness :
  (rcv demo_run).[3] = RAsleep 1 ∧ Recvq 1 ∈ pend demo_run.
Proof.
  split; [vm_compute; reflexivity|].
  apply (no_lost_wakeup demo_run 3 1); [|vm_compute; split; congruence|vm_compute; reflexivity..].
  unfold demo_run.
  eapply rtc_l; [apply (StepCreate false sys_init 7)|].
  eapply rtc_l; [apply (do_recv_step false _ 3 1)|].
  - vm_compute. split; congruence.
  - left. vm_compute. reflexivity.
  - eapply rtc_l; [apply do_send_step|]. apply rtc_refl.
Defined.

(** The run behind [closed_port_loses_wakeup]: process 3 sleeps on port 1; the
    port is closed and recreated under the same handle; process 4 sleeps on
    the new port; process 3, woken by the close, decrements the {e new}
    port's waiter count; the next message wakes nobody. *)
Definition close_run_1 : sys := do_recv (mkSys (port_create (sipc sys_init) 7).2 (rcv sys_init) []) 3 1.
Definition close_run_2 : sys :=
  mkSys (port_close (sipc close_run_1) 1).1 (rcv close_run_1)
        ((port_close (sipc close_run_1) 1).2 ++ pend close_run_1).
Definition close_run_3 : sys := mkSys (sipc close_run_2) (wake_rstate (Recvq 1) <$> rcv close_run_2) [].
Definition close_run_4 : sys := mkSys (port_create (sipc close_run_3) 8).2 (rcv close_run_3) [].
Definition close_run_5 : sys := do_recv close_run_4 4 1.
Definition close_run_6 : sys :=
  mkSys (port_recv_resume (sipc close_run_5) 1) ((rcv close_run_5).[3 <- RRetry 1]) (pend close_run_5).
Definition close_run_7 : sys := do_send close_run_6 1 demo_msg.

Ltac run_step := vm_compute; first [reflexivity | split; congruence | auto].

(** Closing a port breaks this: there is a run, with a port closed and its
    handle reused, after which process 4 sleeps on the new port, the port
    holds a message, and no wakeup is under way (only the 100 ms backstop of
    [sched_block_on] ends the wait). *)
Theorem closed_port_loses_wakeup :
  ∃ σ, rtc (sys_step true) sys_init σ ∧ (rcv σ).[4] = RAsleep 1 ∧
       0 < count ((ports (sipc σ)).[1]) ∧ pend σ = [].
Proof.
  exists close_run_7. split; [|split; [|split]]; [|run_step..].
  eapply rtc_l; [apply (StepCreate true sys_init 7)|].
  eapply rtc_l; [apply (do_recv_step true _ 3 1); [run_step|left; run_step]|].
  change (rtc (sys_step true) close_run_1 close_run_7).
  eapply rtc_l; [apply (StepClose true close_run_1 1 eq_refl)|].
  change (rtc (sys_step true) close_run_2 close_run_7).
  eapply rtc_l; [apply (StepWake true close_run_2 (Recvq 1) [] []); run_step|].
  change (rtc (sys_step true) close_run_3 close_run_7).
  eapply rtc_l; [apply (StepCreate true close_run_3 8)|].
  change (rtc (sys_step true) close_run_4 close_run_7).
  eapply rtc_l; [apply (do_recv_step true _ 4 1); [run_step|left; run_step]|].
  change (rtc (sys_step true) close_run_5 close_run_7).
  eapply rtc_l; [apply (StepResume true close_run_5 3 1); run_step|].
  apply rtc_once. apply do_send_step.
Qed.
