(* ===== verification/Pmm.v ===== *)
(** * Physical memory manager

    Models [kernel/memory/pmm.c] with the boot memory map of
    [boot/handoff/handoff.h]: the frame bitmap, the reference-count table, the
    next-fit single-frame allocator, the contiguous allocator and the
    reference operations.  Each operation is its critical section under
    [pmm_lock]. *)

From S2P Require Import Prelude.

Definition PAGE_SIZE : Z := 4096.
Definition MAX_FRAMES : Z := 2097152.          (* 8 GiB / PAGE_SIZE *)
Definition REF_MAX : Z := 255.
Definition HAND_MEM_USABLE : Z := 0.

(** [hand_memmap_entry_t] *)
Record hand_memmap_entry_t := mkMemmap { mm_base : Z; mm_length : Z; mm_type : Z }.

(** The statics of [pmm.c].  [refcnt] is [None] while the pointer is NULL. *)
Record pmm := mkPmm {
  bitmap : list Z;
  total_frames : Z;
  used_frames : Z;
  alloc_hint : Z;
  refcnt : option (list Z);
  hhdm : Z;
}.

Definition bit_set (bm : list Z) (i : Z) : list Z :=
  bm.[Z.shiftr i 3 <-
      u8 (Z.lor (bm.[Z.shiftr i 3]) (u8 (Z.shiftl 1 (Z.land i 7))))].
Definition bit_clr (bm : list Z) (i : Z) : list Z :=
  bm.[Z.shiftr i 3 <-
      u8 (Z.land (bm.[Z.shiftr i 3]) (u8 (Z.lnot (Z.shiftl 1 (Z.land i 7)))))].
Definition bit_get (bm : list Z) (i : Z) : bool :=
  Z.land (Z.shiftr (bm.[Z.shiftr i 3]) (Z.land i 7)) 1 =? 1.

Definition phys_to_virt (s : pmm) (phys : Z) : Z := u64 (phys + hhdm s).
Definition virt_to_phys (s : pmm) (virt : Z) : Z := u64 (virt - hhdm s).

(** [pmm_alloc_frame]: the physical address, 0 on failure. *)
Definition pmm_alloc_frame (s : pmm) : Z * pmm :=
  match find_up (λ scan, negb (bit_get (bitmap s) ((alloc_hint s + scan) mod total_frames s)))
                0 (Z.to_nat (total_frames s)) with
  | Some scan =>
      let f := (alloc_hint s + scan) mod total_frames s in
      (f * PAGE_SIZE,
       mkPmm (bit_set (bitmap s) f) (total_frames s) (u64 (used_frames s + 1)) (f + 1)
             ((λ rc, rc.[f <- 1]) <$> refcnt s) (hhdm s))
  | None => (0, s)
  end.

(** The scan of [pmm_alloc_contig] from frame [f] with a run of [run] free
    frames that began at [start]; the start of the first long enough run. *)
Fixpoint contig_scan (bm : list Z) (frames : Z) (n : nat) (f run start : Z) : option Z :=
  match n with
  | O => None
  | S n =>
      if negb (bit_get bm f) then
        let start := if run =? 0 then f else start in
        let run := run + 1 in
        if run =? frames then Some start else contig_scan bm frames n (f + 1) run start
      else contig_scan bm frames n (f + 1) 0 start
  end.

(** The marking loop: frame [k] becomes used with one reference. *)
Definition contig_mark (k : Z) (s : pmm) : pmm :=
  mkPmm (bit_set (bitmap s) k) (total_frames s) (used_frames s) (alloc_hint s)
        ((λ rc, rc.[k <- 1]) <$> refcnt s) (hhdm s).

Definition pmm_alloc_contig (s : pmm) (frames : Z) : Z * pmm :=
  if frames =? 0 then (0, s)
  else
    match contig_scan (bitmap s) frames (Z.to_nat (total_frames s)) 0 0 0 with
    | Some start =>
        let s1 := iter_up contig_mark start (Z.to_nat frames) s in
        (start * PAGE_SIZE,
         mkPmm (bitmap s1) (total_frames s1) (u64 (used_frames s1 + frames)) (alloc_hint s1)
               (refcnt s1) (hhdm s1))
    | None => (0, s)
    end.

Definition set_refcnt (s : pmm) (f v : Z) : pmm :=
  mkPmm (bitmap s) (total_frames s) (used_frames s) (alloc_hint s)
        ((λ rc, rc.[f <- v]) <$> refcnt s) (hhdm s).

Definition pmm_ref_frame (s : pmm) (phys : Z) : pmm :=
  let f := phys / PAGE_SIZE in
  if MAX_FRAMES <=? f then s
  else
    match refcnt s with
    | Some rc =>
        if (f <? total_frames s) && negb (rc.[f] =? 0) && (rc.[f] <? REF_MAX)
        then set_refcnt s f (u8 (rc.[f] + 1)) else s
    | None => s
    end.

(** The tail of [pmm_unref_frame]: the frame goes back to the pool. *)
Definition unref_release (s : pmm) (f : Z) : pmm :=
  let '(bm, used) :=
    if bit_get (bitmap s) f then (bit_clr (bitmap s) f, u64 (used_frames s - 1))
    else (bitmap s, used_frames s) in
  mkPmm bm (total_frames s) used (if f <? alloc_hint s then f else alloc_hint s)
        (refcnt s) (hhdm s).

Definition pmm_unref_frame (s : pmm) (phys : Z) : pmm :=
  let f := phys / PAGE_SIZE in
  if MAX_FRAMES <=? f then s
  else
    match refcnt s with
    | Some rc =>
        if f <? total_frames s then
          if 1 <? rc.[f] then set_refcnt s f (u8 (rc.[f] - 1))
          else if rc.[f] =? REF_MAX then s
          else unref_release (set_refcnt s f 0) f
        else unref_release s f
    | None => unref_release s f
    end.

Definition pmm_refcount (s : pmm) (phys : Z) : Z :=
  let f := phys / PAGE_SIZE in
  match refcnt s with
  | Some rc => if total_frames s <=? f then 0 else rc.[f]
  | None => 0
  end.

Definition pmm_total_bytes (s : pmm) : Z := u64 (total_frames s * PAGE_SIZE).
Definition pmm_used_bytes (s : pmm) : Z := u64 (used_frames s * PAGE_SIZE).

(** [pmm_init], phase by phase.  The state is (bitmap, total_frames). *)
Definition init_free_frame (f : Z) (st : list Z * Z) : list Z * Z :=
  let '(bm, total) := st in
  (bit_clr bm f, if total <? f + 1 then f + 1 else total).

Definition init_region (e : hand_memmap_entry_t) (st : list Z * Z) : list Z * Z :=
  if negb (mm_type e =? HAND_MEM_USABLE) then st
  else
    let start := u64 (mm_base e + PAGE_SIZE - 1) / PAGE_SIZE in
    let end_ := u64 (mm_base e + mm_length e) / PAGE_SIZE in
    iter_up init_free_frame start (Z.to_nat (Z.min end_ MAX_FRAMES - start)) st.

(** The bitmap with every frame marked used ([memset(bitmap, 0xFF, ...)]). *)
Definition bitmap_all_used : list Z := replicate (Z.to_nat (MAX_FRAMES / 8)) 255.

(** Free the usable regions. *)
Definition init_regions (memmap : list hand_memmap_entry_t) : list Z * Z :=
  fold_left (λ st e, init_region e st) memmap (bitmap_all_used, 0).

(** Take the low 1 MiB back. *)
Definition init_low (bm : list Z) : list Z :=
  iter_up (λ f bm, bit_set bm f) 0 (Z.to_nat (1048576 / PAGE_SIZE)) bm.

(** Count what is used within the managed range. *)
Definition init_count (bm : list Z) (total : Z) : Z :=
  iter_up (λ f n, if bit_get bm f then n + 1 else n) 0 (Z.to_nat total) 0.

(** [pmm_init]; [None] is the panic on a memory map too small for the table. *)
Definition pmm_init (hhdm_offset : Z) (memmap : list hand_memmap_entry_t) : option pmm :=
  let '(bm1, total) := init_regions memmap in
  let bm2 := init_low bm1 in
  let used := init_count bm2 total in
  let rc_pages := (total + PAGE_SIZE - 1) / PAGE_SIZE in
  let '(rc_phys, s) := pmm_alloc_contig (mkPmm bm2 total used 0 None hhdm_offset) rc_pages in
  if rc_phys =? 0 then None
  else
    Some (mkPmm (bitmap s) (total_frames s) (used_frames s) (alloc_hint s)
            (Some ((λ f, if bit_get (bitmap s) f then 1 else 0) <$> seqZ 0 (total_frames s)))
            (hhdm s)).

(** ** Bitmap lemmas *)

Definition LOW_FRAMES : Z := 256.               (* the low 1 MiB *)

Ltac pmm_consts := unfold PAGE_SIZE, MAX_FRAMES, REF_MAX, LOW_FRAMES in *.

Lemma bit_get_testbit bm i :
  bit_get bm i = Z.testbit (bm.[i / 8]) (i mod 8).
Proof.
  unfold bit_get. rewrite shiftr_3_div, land_7_mod.
  rewrite land_1_testbit by (apply Z.mod_pos_bound; lia).
  by destruct (Z.testbit _ _).
Qed.

Lemma bitmap_idx i : 0 ≤ i < MAX_FRAMES → 0 ≤ i / 8 < MAX_FRAMES / 8 ∧ 0 ≤ i mod 8 < 8.
Proof. pmm_consts. intros. change (2097152 / 8) with 262144. split; zlia. Qed.

Lemma bit_get_set bm i j :
  zlen bm = MAX_FRAMES / 8 → 0 ≤ i < MAX_FRAMES → 0 ≤ j < MAX_FRAMES →
  bit_get (bit_set bm i) j = (i =? j) || bit_get bm j.
Proof.
  intros Hl Hi%bitmap_idx Hj%bitmap_idx. rewrite !bit_get_testbit. unfold bit_set.
  rewrite shiftr_3_div, land_7_mod.
  destruct (decide (i / 8 = j / 8)) as [E|E].
  - rewrite E, aget_aset_eq, byte_bit_set by lia. rewrite <- E. f_equal.
    destruct (Z.eqb_spec (i mod 8) (j mod 8)), (Z.eqb_spec i j); zlia.
  - rewrite aget_aset_ne by lia.
    destruct (Z.eqb_spec i j) as [->|]; [lia|done].
Qed.

Lemma bit_get_clr bm i j :
  zlen bm = MAX_FRAMES / 8 → 0 ≤ i < MAX_FRAMES → 0 ≤ j < MAX_FRAMES →
  bit_get (bit_clr bm i) j = negb (i =? j) && bit_get bm j.
Proof.
  intros Hl Hi%bitmap_idx Hj%bitmap_idx. rewrite !bit_get_testbit. unfold bit_clr.
  rewrite shiftr_3_div, land_7_mod.
  destruct (decide (i / 8 = j / 8)) as [E|E].
  - rewrite E, aget_aset_eq, byte_bit_clr by lia. rewrite <- E. f_equal. f_equal.
    destruct (Z.eqb_spec (i mod 8) (j mod 8)), (Z.eqb_spec i j); zlia.
  - rewrite aget_aset_ne by lia.
    destruct (Z.eqb_spec i j) as [->|]; [lia|done].
Qed.

Lemma zlen_bit_set bm i : zlen (bit_set bm i) = zlen bm.
Proof. apply zlen_aset. Qed.
Lemma zlen_bit_clr bm i : zlen (bit_clr bm i) = zlen bm.
Proof. apply zlen_aset. Qed.

(** ** The invariant

    The used count is the number of set bits below [total_frames]; the low
    1 MiB is never free; a frame has a nonzero reference count exactly when
    its bit is set. *)
Record pmm_wf (s : pmm) : Prop := {
  wf_bm : zlen (bitmap s) = MAX_FRAMES / 8;
  wf_total : 0 ≤ total_frames s ≤ MAX_FRAMES;
  wf_hint : 0 ≤ alloc_hint s ≤ total_frames s;
  wf_used : used_frames s = count_up (bit_get (bitmap s)) 0 (Z.to_nat (total_frames s));
  wf_low : ∀ f, 0 ≤ f < LOW_FRAMES → bit_get (bitmap s) f = true;
  wf_rc : ∀ rc, refcnt s = Some rc →
    zlen rc = total_frames s ∧
    ∀ f, 0 ≤ f < total_frames s →
      0 ≤ rc.[f] ≤ REF_MAX ∧ (rc.[f] = 0 ↔ bit_get (bitmap s) f = false);
}.

(** Frame [f] is handed out / available. *)
Definition frame_used (s : pmm) (f : Z) : bool := bit_get (bitmap s) f.
Definition frame_free (s : pmm) (f : Z) : Prop :=
  0 ≤ f < total_frames s ∧ bit_get (bitmap s) f = false.

Lemma used_frames_range s : pmm_wf s → 0 ≤ used_frames s ≤ total_frames s.
Proof.
  intros Hw. rewrite (wf_used _ Hw).
  pose proof (count_up_bounds (bit_get (bitmap s)) 0 (Z.to_nat (total_frames s))).
  pose proof (wf_total _ Hw). lia.
Qed.

Lemma free_not_low s f : pmm_wf s → frame_free s f → LOW_FRAMES ≤ f.
Proof.
  intros Hw [Hf Hb]. destruct (decide (f < LOW_FRAMES)); [|lia].
  rewrite (wf_low _ Hw f) in Hb; [done|lia].
Qed.

(** Marking a frame with count [v > 0]; freeing one. *)
Definition take_frame (s : pmm) (f : Z) (hint : Z) : pmm :=
  mkPmm (bit_set (bitmap s) f) (total_frames s) (u64 (used_frames s + 1)) hint
        ((λ rc, rc.[f <- 1]) <$> refcnt s) (hhdm s).

Lemma take_frame_used s f hint g :
  pmm_wf s → 0 ≤ f < total_frames s → 0 ≤ g < MAX_FRAMES →
  frame_used (take_frame s f hint) g = (f =? g) || frame_used s g.
Proof.
  intros Hw Hf Hg. pose proof (wf_total _ Hw). unfold frame_used, take_frame; simpl.
  apply bit_get_set; [apply Hw|lia..].
Qed.

Lemma count_used_upd bm bm' t k :
  0 ≤ k < t → (∀ i, 0 ≤ i < t → i ≠ k → bit_get bm i = bit_get bm' i) →
  count_up (bit_get bm') 0 (Z.to_nat t) =
  count_up (bit_get bm) 0 (Z.to_nat t) + (if bit_get bm' k then 1 else 0)
    - (if bit_get bm k then 1 else 0).
Proof. intros. apply count_up_upd; [lia|]. intros. apply H0; lia. Qed.

Lemma take_frame_wf s f hint :
  pmm_wf s → frame_free s f → 0 ≤ hint ≤ total_frames s → pmm_wf (take_frame s f hint).
Proof.
  intros Hw [Hf Hb] Hh. pose proof (wf_total _ Hw) as Ht. pose proof (wf_bm _ Hw) as Hl.
  pose proof (used_frames_range _ Hw) as Hu.
  assert (Hget : ∀ g, 0 ≤ g < MAX_FRAMES →
            bit_get (bit_set (bitmap s) f) g = (f =? g) || bit_get (bitmap s) g)
    by (intros; apply bit_get_set; lia).
  constructor; unfold take_frame; cbn [bitmap total_frames used_frames alloc_hint refcnt].
  - by rewrite zlen_bit_set.
  - done.
  - done.
  - rewrite (count_used_upd (bitmap s) _ _ f); [|done|].
    + rewrite <- (wf_used _ Hw). rewrite Hget, Z.eqb_refl, Hb by lia. simpl.
      rewrite u64_small; [lia|]. pmm_consts. lia.
    + intros i Hi Hne. rewrite Hget by lia. destruct (Z.eqb_spec f i); [lia|done].
  - intros g Hg. rewrite Hget by (pmm_consts; lia). by rewrite (wf_low _ Hw g), orb_true_r.
  - intros rc'. destruct (refcnt s) as [rc|] eqn:Hrc; simpl; [|done]. intros [= <-].
    destruct (wf_rc _ Hw rc Hrc) as [Hlrc Hall]. split; [by rewrite zlen_aset|].
    intros g Hg. rewrite aget_aset by lia. rewrite Hget by lia.
    destruct (Z.eqb_spec f g); simpl; [|by apply Hall].
    pmm_consts. split; [lia|]. split; [lia|done].
Qed.

Lemma take_frame_refcount s f hint rc :
  pmm_wf s → 0 ≤ f < total_frames s → refcnt s = Some rc →
  ∀ g, 0 ≤ g → pmm_refcount (take_frame s f hint) (g * PAGE_SIZE) =
    if f =? g then 1 else pmm_refcount s (g * PAGE_SIZE).
Proof.
  intros Hw Hf Hrc g Hg. unfold pmm_refcount, take_frame; simpl. rewrite Hrc; simpl.
  rewrite Z.div_mul by (pmm_consts; lia). destruct (wf_rc _ Hw rc Hrc) as [Hl _].
  destruct (Z.leb_spec (total_frames s) g).
  - destruct (Z.eqb_spec f g); [lia|done].
  - by rewrite aget_aset by lia.
Qed.

Lemma alloc_frame_Some s :
  pmm_wf s → (∃ f, frame_free s f) →
  ∃ f, frame_free s f ∧ pmm_alloc_frame s = (f * PAGE_SIZE, take_frame s f (f + 1)).
Proof.
  intros Hw [f [Hf Hb]]. unfold pmm_alloc_frame.
  destruct (find_up _ _ _) as [scan|] eqn:Hfind.
  - apply find_up_Some in Hfind as (Hr & Hp & _). bools.
    exists ((alloc_hint s + scan) mod total_frames s). split; [|done].
    split; [apply Z.mod_pos_bound; lia|done].
  - exfalso. rewrite find_up_None in Hfind. pose proof (wf_hint _ Hw).
    specialize (Hfind ((f - alloc_hint s) mod total_frames s)).
    rewrite Zplus_mod_idemp_r in Hfind.
    replace (alloc_hint s + (f - alloc_hint s)) with f in Hfind by lia.
    rewrite (Z.mod_small f) in Hfind by lia. rewrite Hb in Hfind.
    pose proof (Z.mod_pos_bound (f - alloc_hint s) (total_frames s)).
    discriminate Hfind. lia.
Qed.

Lemma alloc_frame_None s :
  (∀ f, ¬ frame_free s f) → pmm_alloc_frame s = (0, s).
Proof.
  intros Hn. unfold pmm_alloc_frame. destruct (find_up _ _ _) as [scan|] eqn:Hf; [|done].
  apply find_up_Some in Hf as (Hr & Hp & _). bools. exfalso.
  apply (Hn ((alloc_hint s + scan) mod total_frames s)).
  split; [apply Z.mod_pos_bound; lia|done].
Qed.

#[export] Instance frame_free_dec s f : Decision (frame_free s f).
Proof. unfold frame_free. apply _. Defined.

(** Whether any frame is free is decidable: scan for one. *)
Lemma some_frame_free s : (∃ f, frame_free s f) ∨ (∀ f, ¬ frame_free s f).
Proof.
  destruct (find_up (λ f, negb (bit_get (bitmap s) f)) 0 (Z.to_nat (total_frames s)))
    as [f|] eqn:Hf.
  - apply find_up_Some in Hf as (Hr & Hp & _). bools. left. exists f. split; [lia|done].
  - right. intros f [Hr Hb]. rewrite find_up_None in Hf.
    specialize (Hf f ltac:(lia)). bools. congruence.
Qed.

Lemma alloc_frame_wf s : pmm_wf s → pmm_wf (pmm_alloc_frame s).2.
Proof.
  intros Hw. destruct (some_frame_free s) as [Hex|Hno].
  - destruct (alloc_frame_Some s Hw Hex) as (f & Hf & ->). simpl.
    apply take_frame_wf; [done..|]. destruct Hf. lia.
  - by rewrite alloc_frame_None.
Qed.

(** C16: [pmm_alloc_frame] hands out a frame exactly when one is free.  Then
    the frame returned was free, lies above the first MiB (so its address is
    never the failure value 0), is the only frame whose state changes, starts
    with reference count 1, and the used count grows by one; otherwise the
    result is 0 and nothing changes. *)
Theorem pmm_alloc_frame_spec s rc :
  pmm_wf s → refcnt s = Some rc →
  ( ∃ f s', pmm_alloc_frame s = (f * PAGE_SIZE, s') ∧
      frame_free s f ∧ LOW_FRAMES ≤ f ∧
      (∀ g, 0 ≤ g < MAX_FRAMES → frame_used s' g = (f =? g) || frame_used s g) ∧
      (∀ g, 0 ≤ g → pmm_refcount s' (g * PAGE_SIZE) =
         if f =? g then 1 else pmm_refcount s (g * PAGE_SIZE)) ∧
      used_frames s' = used_frames s + 1 ∧ pmm_wf s' ) ∨
  ( pmm_alloc_frame s = (0, s) ∧ ∀ f, ¬ frame_free s f ).
Proof.
  intros Hw Hrc. destruct (some_frame_free s) as [Hex|Hno].
  - left. destruct (alloc_frame_Some s Hw Hex) as (f & Hf & Heq).
    pose proof Hf as [Hr _].
    exists f, (take_frame s f (f + 1)). split; [done|]. split; [done|].
    split; [by eapply free_not_low|]. split; [intros; by apply take_frame_used|].
    split; [by eapply take_frame_refcount|].
    split; [|by apply take_frame_wf; [..|lia]].
    simpl. apply u64_small. pose proof (used_frames_range _ Hw).
    pose proof (wf_total _ Hw). pmm_consts. lia.
  - right. split; [by apply alloc_frame_None|done].
Qed.

(** *** Contiguous allocation *)

Lemma contig_scan_Some bm frames n f run start st :
  0 ≤ run < frames → (0 < run → start = f - run) →
  (∀ k, f - run ≤ k < f → bit_get bm k = false) →
  contig_scan bm frames n f run start = Some st →
  f - run ≤ st ∧ st + frames ≤ f + Z.of_nat n ∧
  ∀ k, st ≤ k < st + frames → bit_get bm k = false.
Proof.
  revert f run start. induction n as [|n IH]; intros f run start Hrun Hst Hfree; simpl; [done|].
  destruct (bit_get bm f) eqn:Hb; simpl.
  - intros Hs. apply IH in Hs as (?&?&?); [|lia..]. repeat split; [lia..|done].
  - assert (Hfree' : ∀ k, f - run ≤ k < f + 1 → bit_get bm k = false).
    { intros k Hk. destruct (decide (k = f)) as [->|]; [done|]. apply Hfree. lia. }
    assert (Hs' : (if run =? 0 then f else start) = f - run)
      by (destruct (Z.eqb_spec run 0); lia).
    rewrite Hs'. destruct (Z.eqb_spec (run + 1) frames).
    + intros [= <-]. repeat split; [lia..|]. intros k Hk. apply Hfree'. lia.
    + intros Hs. apply IH in Hs as (?&?&?); [repeat split; [lia..|done]|lia..|].
      intros k Hk. apply Hfree'. lia.
Qed.

Lemma contig_scan_None bm frames n f run start :
  0 ≤ run < frames → contig_scan bm frames n f run start = None →
  ∀ g, f - run ≤ g → g + frames ≤ f + Z.of_nat n →
    ∃ k, g ≤ k < g + frames ∧ bit_get bm k = true.
Proof.
  revert f run start. induction n as [|n IH]; intros f run start Hrun; simpl.
  - intros _ g. lia.
  - destruct (bit_get bm f) eqn:Hb; simpl.
    + intros Hs g Hg1 Hg2. destruct (decide (g ≤ f)).
      * exists f. split; [lia|done].
      * apply (IH (f + 1) 0 start); [lia|done|lia..].
    + destruct (Z.eqb_spec (run + 1) frames); [done|].
      intros Hs g Hg1 Hg2. eapply (IH (f + 1) (run + 1)); [lia|done|lia..].
Qed.

Definition with_used (s : pmm) (u : Z) : pmm :=
  mkPmm (bitmap s) (total_frames s) u (alloc_hint s) (refcnt s) (hhdm s).

(** What the marking loop guarantees after the frames [start .. i-1]. *)
Definition marked (s : pmm) (start fin i : Z) (s' : pmm) : Prop :=
  pmm_wf (with_used s' (used_frames s' + (i - start))) ∧
  used_frames s' = used_frames s ∧ total_frames s' = total_frames s ∧
  (refcnt s = None ↔ refcnt s' = None) ∧
  (∀ k, i ≤ k < fin → bit_get (bitmap s') k = false) ∧
  (∀ g, 0 ≤ g < MAX_FRAMES →
     frame_used s' g = ((start <=? g) && (g <? i)) || frame_used s g) ∧
  (∀ g, 0 ≤ g → refcnt s ≠ None → pmm_refcount s' (g * PAGE_SIZE) =
     if (start <=? g) && (g <? i) then 1 else pmm_refcount s (g * PAGE_SIZE)).

Lemma contig_mark_step s start fin i s' :
  0 ≤ start ≤ i → i < fin → fin ≤ total_frames s →
  marked s start fin i s' → marked s start fin (i + 1) (contig_mark i s').
Proof.
  intros Hi Hfin Ht (Hw & Hu & Htot & Hnone & Hfree & Hget & Href).
  pose proof (wf_total _ Hw) as Htm. pose proof (used_frames_range _ Hw) as Hur.
  cbn [with_used total_frames used_frames] in *.
  assert (Hf : frame_free (with_used s' (used_frames s' + (i - start))) i).
  { split; simpl; [lia|]. apply Hfree. lia. }
  assert (Hlast : ∀ g b, ((start <=? g) && (g <? i + 1)) || b =
                    (i =? g) || (((start <=? g) && (g <? i)) || b)).
  { intros g b. destruct (Z.leb_spec start g), (Z.ltb_spec g (i + 1)), (Z.ltb_spec g i),
      (Z.eqb_spec i g); simpl; try lia; done. }
  split_and!; try done.
  - replace (used_frames (contig_mark i s') + (i + 1 - start))
      with (u64 (used_frames s' + (i - start) + 1)).
    + apply (take_frame_wf _ i (alloc_hint s') Hw Hf). apply Hw.
    + simpl. rewrite u64_small; [lia|]. pose proof (used_frames_range _ Hw) as Hr2. simpl in Hr2.
      pmm_consts. lia.
  - rewrite Hnone. simpl. by rewrite fmap_None.
  - intros k Hk. unfold contig_mark; simpl. rewrite bit_get_set by (apply Hw || lia).
    destruct (Z.eqb_spec i k); [lia|]. apply Hfree. lia.
  - intros g Hg. rewrite Hlast, <- Hget by done.
    unfold frame_used, contig_mark; simpl. apply bit_get_set; [apply Hw|lia..].
  - intros g Hg Hsome. destruct (refcnt s') as [rc|] eqn:Hrc; last by (destruct Hsome; apply Hnone).
    change (pmm_refcount (contig_mark i s') (g * PAGE_SIZE)) with
      (pmm_refcount (take_frame (with_used s' (used_frames s' + (i - start))) i 0) (g * PAGE_SIZE)).
    rewrite (take_frame_refcount _ i 0 rc Hw); [|simpl; lia|done|lia].
    change (pmm_refcount (with_used s' (used_frames s' + (i - start))) (g * PAGE_SIZE))
      with (pmm_refcount s' (g * PAGE_SIZE)).
    rewrite Href by done.
    specialize (Hlast g false). rewrite !orb_false_r in Hlast. rewrite Hlast.
    by destruct (i =? g), ((start <=? g) && (g <? i)).
Qed.

Lemma contig_mark_loop s start frames :
  pmm_wf s → 0 ≤ start → 0 ≤ frames → start + frames ≤ total_frames s →
  (∀ k, start ≤ k < start + frames → bit_get (bitmap s) k = false) →
  marked s start (start + frames) (start + frames)
         (iter_up contig_mark start (Z.to_nat frames) s).
Proof.
  intros Hw Hs Hn Ht Hfree.
  rewrite <- (Z2Nat.id frames Hn) at 2.
  apply (iter_up_ind (λ i s', marked s start (start + frames) i s')).
  - split_and!; try done.
    + replace (used_frames s + (start - start)) with (used_frames s) by lia.
      destruct s; simpl in *. apply Hw.
    + intros g Hg. destruct (Z.leb_spec start g), (Z.ltb_spec g start); simpl; (lia || done).
    + intros g Hg _. destruct (Z.leb_spec start g), (Z.ltb_spec g start); simpl; (lia || done).
  - intros i s' Hi. apply contig_mark_step; lia.
Qed.

Lemma alloc_contig_Some s n st :
  pmm_wf s → 0 < n →
  contig_scan (bitmap s) n (Z.to_nat (total_frames s)) 0 0 0 = Some st →
  ∃ s1, marked s st (st + n) (st + n) s1 ∧ 0 ≤ st ∧ st + n ≤ total_frames s ∧
    (∀ k, st ≤ k < st + n → frame_free s k) ∧
    pmm_alloc_contig s n = (st * PAGE_SIZE, with_used s1 (used_frames s1 + n)) ∧
    pmm_wf (with_used s1 (used_frames s1 + n)).
Proof.
  intros Hw Hn Hs. pose proof (wf_total _ Hw) as Ht.
  pose proof (contig_scan_Some (bitmap s) n _ 0 0 0 st ltac:(lia) ltac:(lia)
                ltac:(intros; lia) Hs) as (Hst & Hfin & Hfree).
  assert (Hm := contig_mark_loop s st n Hw ltac:(lia) ltac:(lia) ltac:(lia) Hfree).
  exists (iter_up contig_mark st (Z.to_nat n) s).
  assert (Hw1 := proj1 Hm). replace (st + n - st) with n in Hw1 by lia.
  split_and!; [done|lia|lia| | |done].
  - intros k Hk. split; [lia|]. by apply Hfree.
  - unfold pmm_alloc_contig. destruct (Z.eqb_spec n 0); [lia|]. rewrite Hs. f_equal.
    unfold with_used. f_equal. apply u64_small.
    pose proof (used_frames_range _ Hw1). pose proof (wf_total _ Hw1). simpl in *.
    pmm_consts. lia.
Qed.

Lemma alloc_contig_wf s n : pmm_wf s → 0 ≤ n → pmm_wf (pmm_alloc_contig s n).2.
Proof.
  intros Hw Hn. destruct (decide (n = 0)) as [->|]; [done|].
  destruct (contig_scan (bitmap s) n (Z.to_nat (total_frames s)) 0 0 0) as [st|] eqn:Hs.
  - edestruct (alloc_contig_Some s n st) as (s1 & _ & _ & _ & _ & -> & H); [done|lia|done|done].
  - unfold pmm_alloc_contig. rewrite Hs. by destruct (n =? 0).
Qed.

(** [pmm_alloc_contig n] succeeds exactly when [n] consecutive frames are
    free.  Then it returns the start of such a run, above the first MiB, marks
    exactly these [n] frames used with reference count 1 and adds [n] to the
    used count; otherwise every window of [n] frames contains a used frame, the
    result is 0 and nothing changes. *)
Theorem pmm_alloc_contig_spec s rc n :
  pmm_wf s → refcnt s = Some rc → 0 < n →
  ( ∃ st s', pmm_alloc_contig s n = (st * PAGE_SIZE, s') ∧
      LOW_FRAMES ≤ st ∧ (∀ k, st ≤ k < st + n → frame_free s k) ∧
      (∀ g, 0 ≤ g < MAX_FRAMES →
         frame_used s' g = ((st <=? g) && (g <? st + n)) || frame_used s g) ∧
      (∀ g, 0 ≤ g → pmm_refcount s' (g * PAGE_SIZE) =
         if (st <=? g) && (g <? st + n) then 1 else pmm_refcount s (g * PAGE_SIZE)) ∧
      used_frames s' = used_frames s + n ∧ pmm_wf s' ) ∨
  ( pmm_alloc_contig s n = (0, s) ∧
    ∀ g, 0 ≤ g → g + n ≤ total_frames s → ∃ k, g ≤ k < g + n ∧ frame_used s k = true ).
Proof.
  intros Hw Hrc Hn.
  destruct (contig_scan (bitmap s) n (Z.to_nat (total_frames s)) 0 0 0) as [st|] eqn:Hs.
  - left. destruct (alloc_contig_Some s n st) as (s1 & Hm & H0 & Hfin & Hfree & Heq & Hw1);
      [done..|].
    destruct Hm as (_ & Hu & _ & _ & _ & Hget & Href).
    exists st, (with_used s1 (used_frames s1 + n)). split_and!; try done.
    + apply (free_not_low s); [done|]. apply Hfree. lia.
    + intros g Hg. apply Href; [done|congruence].
    + simpl. by rewrite Hu.
  - right. split.
    + unfold pmm_alloc_contig. rewrite Hs. by destruct (n =? 0).
    + intros g Hg1 Hg2. pose proof (wf_total _ Hw).
      apply (contig_scan_None _ n (Z.to_nat (total_frames s)) 0 0 0); [lia|done|lia..].
Qed.

(** *** References *)

Lemma set_refcnt_wf s f v rc :
  pmm_wf s → refcnt s = Some rc → 0 ≤ f < total_frames s →
  0 < v ≤ REF_MAX → bit_get (bitmap s) f = true → pmm_wf (set_refcnt s f v).
Proof.
  intros Hw Hrc Hf Hv Hb. destruct (wf_rc _ Hw rc Hrc) as [Hl Hall].
  constructor; try apply Hw. intros rc'. simpl. rewrite Hrc. intros [= <-].
  split; [by rewrite zlen_aset|]. intros g Hg. cbn [bitmap].
  rewrite aget_aset by lia. destruct (Z.eqb_spec f g) as [<-|]; [|by apply Hall].
  split; [lia|]. rewrite Hb. split; [lia|done].
Qed.

Lemma ref_frame_wf s phys : pmm_wf s → 0 ≤ phys → pmm_wf (pmm_ref_frame s phys).
Proof.
  intros Hw Hp. unfold pmm_ref_frame. destruct (Z.leb_spec MAX_FRAMES (phys / PAGE_SIZE)); [done|].
  assert (0 ≤ phys / PAGE_SIZE) by (pmm_consts; zlia).
  destruct (refcnt s) as [rc|] eqn:Hrc; [|done].
  case_if; [|done]. bools. destruct (wf_rc _ Hw rc Hrc) as [Hl Hall].
  destruct (Hall (phys / PAGE_SIZE)) as [Hr Hz]; [lia|].
  apply (set_refcnt_wf _ _ _ rc); [done..|lia| |].
  - rewrite u8_small by (pmm_consts; lia). pmm_consts. lia.
  - destruct (bit_get (bitmap s) _); [done|]. tauto.
Qed.

(** A frame whose count is at most one goes back to the pool. *)
Lemma release_wf s f rc :
  pmm_wf s → refcnt s = Some rc → LOW_FRAMES ≤ f < total_frames s →
  pmm_wf (unref_release (set_refcnt s f 0) f).
Proof.
  intros Hw Hrc Hf. pose proof (wf_total _ Hw) as Ht. pose proof (used_frames_range _ Hw) as Hu.
  pose proof (wf_bm _ Hw) as Hl. pose proof (wf_hint _ Hw) as Hh.
  assert (0 ≤ f) by (pmm_consts; lia). destruct (wf_rc _ Hw rc Hrc) as [Hlr Hall].
  assert (Hget : ∀ g, 0 ≤ g < MAX_FRAMES → bit_get (bit_clr (bitmap s) f) g =
            negb (f =? g) && bit_get (bitmap s) g) by (intros; apply bit_get_clr; lia).
  assert (Hbits : ∀ bm, zlen bm = MAX_FRAMES / 8 →
            (∀ g, 0 ≤ g < MAX_FRAMES → bit_get bm g = negb (f =? g) && bit_get (bitmap s) g) →
            ∀ u, u = count_up (bit_get bm) 0 (Z.to_nat (total_frames s)) →
            pmm_wf (mkPmm bm (total_frames s) u (if f <? alloc_hint s then f else alloc_hint s)
                      (refcnt (set_refcnt s f 0)) (hhdm s))).
  { intros bm Hlb Hb u ->. constructor; simpl; try done.
    - case_if; bools; lia.
    - intros g Hg. rewrite Hb by (pmm_consts; lia). rewrite (wf_low _ Hw g Hg).
      destruct (Z.eqb_spec f g); [lia|done].
    - rewrite Hrc. intros rc' [= <-]. split; [by rewrite zlen_aset|].
      intros g Hg. rewrite aget_aset, Hb by lia.
      destruct (Z.eqb_spec f g); simpl; [|by apply Hall]. pmm_consts. split; [lia|done]. }
  unfold unref_release. cbn [set_refcnt bitmap used_frames alloc_hint total_frames hhdm].
  destruct (bit_get (bitmap s) f) eqn:Hb.
  - apply Hbits; [by rewrite zlen_bit_clr|done|].
    rewrite (count_used_upd (bitmap s) _ _ f); [|lia|].
    + rewrite <- (wf_used _ Hw), Hget, Z.eqb_refl, Hb by lia. simpl.
      assert (0 < used_frames s).
      { rewrite (wf_used _ Hw). apply count_up_pos with f; [lia|done]. }
      rewrite u64_small; [lia|]. pmm_consts. lia.
    + intros i Hi Hne. rewrite Hget by lia. destruct (Z.eqb_spec f i); [lia|done].
  - apply Hbits; [done| |apply Hw]. intros g Hg.
    destruct (Z.eqb_spec f g) as [<-|]; [by rewrite Hb|done].
Qed.

Lemma unref_frame_wf s phys :
  pmm_wf s → refcnt s ≠ None → LOW_FRAMES ≤ phys / PAGE_SIZE < total_frames s →
  pmm_wf (pmm_unref_frame s phys).
Proof.
  intros Hw Hs Hf. pose proof (wf_total _ Hw) as Ht. unfold pmm_unref_frame.
  destruct (Z.leb_spec MAX_FRAMES (phys / PAGE_SIZE)); [lia|].
  destruct (refcnt s) as [rc|] eqn:Hrc; [|done].
  destruct (Z.ltb_spec (phys / PAGE_SIZE) (total_frames s)); [|lia].
  destruct (wf_rc _ Hw rc Hrc) as [Hl Hall].
  destruct (Hall (phys / PAGE_SIZE)) as [Hr Hz]; [pmm_consts; lia|].
  destruct (Z.ltb_spec 1 (rc.[phys / PAGE_SIZE])).
  - apply (set_refcnt_wf _ _ _ rc); [done..|pmm_consts; lia| |].
    + rewrite u8_small by (pmm_consts; lia). lia.
    + destruct (bit_get (bitmap s) _); [done|]. lia.
  - destruct (Z.eqb_spec (rc.[phys / PAGE_SIZE]) REF_MAX); [done|].
    by apply (release_wf _ _ rc).
Qed.

Lemma refcnt_ref_Some s phys : refcnt s ≠ None → refcnt (pmm_ref_frame s phys) ≠ None.
Proof.
  unfold pmm_ref_frame. intros H. destruct (MAX_FRAMES <=? _); [done|].
  destruct (refcnt s) as [rc|] eqn:E; [|done]. case_if; simpl; by rewrite ?E.
Qed.

Lemma refcnt_unref_Some s phys : refcnt s ≠ None → refcnt (pmm_unref_frame s phys) ≠ None.
Proof.
  unfold pmm_unref_frame, unref_release. intros H. destruct (MAX_FRAMES <=? _); [done|].
  destruct (refcnt s) as [rc|] eqn:E; [|done].
  destruct (_ <? total_frames s); [destruct (1 <? _); [|destruct (_ =? REF_MAX)]|];
    simpl; rewrite ?E; simpl; try done; by destruct (bit_get _ _).
Qed.

Lemma refcnt_contig_mark_Some n start s :
  refcnt s ≠ None → refcnt (iter_up contig_mark start n s) ≠ None.
Proof.
  revert start s. induction n as [|n IH]; intros start s H; [done|].
  rewrite iter_up_S. apply IH. simpl. by rewrite fmap_None.
Qed.

(** ** Histories *)

Inductive pmm_op := OpAlloc | OpContig (frames : Z) | OpRef (phys : Z) | OpUnref (phys : Z).

Definition pmm_do (s : pmm) (o : pmm_op) : pmm :=
  match o with
  | OpAlloc => (pmm_alloc_frame s).2
  | OpContig n => (pmm_alloc_contig s n).2
  | OpRef phys => pmm_ref_frame s phys
  | OpUnref phys => pmm_unref_frame s phys
  end.

(** The arguments are unsigned. *)
Definition op_args (o : pmm_op) : Prop :=
  match o with OpAlloc => True | OpContig n => 0 ≤ n | OpRef phys | OpUnref phys => 0 ≤ phys end.

(** The caller drops references only of frames the allocator manages ([total]
    frames) above the first MiB; [pmm_unref_frame] itself does not check. *)
Definition drops_managed (total : Z) (o : pmm_op) : Prop :=
  match o with OpUnref phys => LOW_FRAMES ≤ phys / PAGE_SIZE < total | _ => True end.

(** What holds whatever the callers do: a frame is free exactly when it has no
    references. *)
Record pmm_core (s : pmm) : Prop := {
  co_bm : zlen (bitmap s) = MAX_FRAMES / 8;
  co_total : 0 ≤ total_frames s ≤ MAX_FRAMES;
  co_hint : 0 ≤ alloc_hint s ≤ total_frames s;
  co_rc : ∃ rc, refcnt s = Some rc ∧ zlen rc = total_frames s ∧
    ∀ f, 0 ≤ f < total_frames s → 0 ≤ rc.[f] ≤ REF_MAX ∧ (rc.[f] = 0 ↔ bit_get (bitmap s) f = false);
}.

Lemma wf_core s : pmm_wf s → refcnt s ≠ None → pmm_core s.
Proof.
  intros [] Hr. split; try done. destruct (refcnt s) as [rc|] eqn:E; [|done]. exists rc. split; [done|]. by apply wf_rc0.
Qed.

(** A frame below [total_frames] changes: its bit and its count agree again. *)
Lemma core_frame s bm used hint rc f v b :
  pmm_core s → refcnt s = Some rc → 0 ≤ f < total_frames s → zlen bm = MAX_FRAMES / 8 →
  (∀ g, 0 ≤ g < MAX_FRAMES → bit_get bm g = if f =? g then b else bit_get (bitmap s) g) →
  0 ≤ v ≤ REF_MAX → (v = 0 ↔ b = false) → 0 ≤ hint ≤ total_frames s →
  pmm_core (mkPmm bm (total_frames s) used hint (Some (rc.[f <- v])) (hhdm s)).
Proof.
  intros Hc Hrc Hf Hbm Hb Hv Hvb Hh. destruct Hc as [_ Ht _ (rc0 & E & Hl & Hall)]. rewrite Hrc in E. injection E as <-. split; cbn; try done.
  eexists. split; [done|]. split; [by rewrite zlen_aset|]. intros g Hg. rewrite aget_aset, Hb by lia.
  destruct (Z.eqb_spec f g) as [<-|]; [done|by apply Hall].
Qed.

(** The side conditions of [core_frame] other than the bitmap's. *)
Ltac core_side := try first [done | by rewrite zlen_bit_set | pmm_consts; lia | split; [lia|done] | split; [pmm_consts; lia|done]].

Lemma contig_mark_core s k : pmm_core s → 0 ≤ k < total_frames s → pmm_core (contig_mark k s).
Proof.
  intros Hc Hk. pose proof Hc as [Hbm Ht Hh (rc & Hrc & _)]. unfold contig_mark. rewrite Hrc. cbn [fmap option_fmap option_map].
  apply (core_frame s _ _ _ rc k 1 true); core_side.
  intros g Hg. rewrite bit_get_set by (done || lia). by destruct (k =? g).
Qed.

Lemma contig_loop_core n start s :
  pmm_core s → 0 ≤ start → start + Z.of_nat n ≤ total_frames s →
  pmm_core (iter_up contig_mark start n s) ∧ total_frames (iter_up contig_mark start n s) = total_frames s.
Proof.
  revert start s. induction n as [|n IH]; intros start s Hc Hs Hn; [done|]. rewrite iter_up_S.
  apply (IH (start + 1) (contig_mark start s)); [apply contig_mark_core; [done|lia]|lia|cbn; lia].
Qed.

Lemma release_core s f rc : pmm_core s → refcnt s = Some rc → 0 ≤ f < MAX_FRAMES →
  pmm_core (unref_release (if f <? total_frames s then set_refcnt s f 0 else s) f).
Proof.
  intros Hc Hrc Hf. pose proof Hc as [Hbm Ht Hh (rc0 & E & Hl & Hall)]. rewrite Hrc in E. injection E as <-.
  assert (Hg : ∀ g, 0 ≤ g < MAX_FRAMES → bit_get (if bit_get (bitmap s) f then bit_clr (bitmap s) f else bitmap s) g =
    if f =? g then false else bit_get (bitmap s) g).
  { intros g Hg. destruct (bit_get (bitmap s) f) eqn:Eb.
    - rewrite bit_get_clr by (done || lia). by destruct (f =? g).
    - by destruct (Z.eqb_spec f g) as [<-|]. }
  assert (Hlen : zlen (if bit_get (bitmap s) f then bit_clr (bitmap s) f else bitmap s) = MAX_FRAMES / 8) by (case_if; [by rewrite zlen_bit_clr|done]).
  destruct (Z.ltb_spec f (total_frames s)) as [Hlt|Hge]; unfold unref_release; cbn [set_refcnt bitmap used_frames total_frames alloc_hint refcnt hhdm].
  - rewrite Hrc. cbn [fmap option_fmap option_map].
    assert (Hhint : 0 ≤ (if f <? alloc_hint s then f else alloc_hint s) ≤ total_frames s) by (destruct (Z.ltb_spec f (alloc_hint s)); lia).
    destruct (bit_get (bitmap s) f); apply (core_frame s _ _ _ rc f 0 false); core_side.
  - assert (Hhint : (if f <? alloc_hint s then f else alloc_hint s) = alloc_hint s) by (destruct (Z.ltb_spec f (alloc_hint s)); lia).
    rewrite Hhint.
    destruct (bit_get (bitmap s) f); (split; cbn [bitmap total_frames alloc_hint refcnt]; [assumption..|]; exists rc; split; [assumption|]; split; [assumption|]);
      intros g Hg'; rewrite Hg by lia; rewrite (proj2 (Z.eqb_neq f g)) by lia; by apply Hall.
Qed.

Lemma pmm_do_core s o : op_args o → pmm_core s → pmm_core (pmm_do s o) ∧ total_frames (pmm_do s o) = total_frames s.
Proof.
  intros Ha Hc. pose proof Hc as [Hbm Ht Hh (rc & Hrc & Hl & Hall)]. destruct o as [|n|phys|phys]; cbn [pmm_do op_args] in *.
  - unfold pmm_alloc_frame. destruct (find_up _ _ _) as [scan|] eqn:Hf; [|done]. apply find_up_Some in Hf as (Hr & _ & _). cbn [snd].
    pose proof (Z.mod_pos_bound (alloc_hint s + scan) (total_frames s) ltac:(lia)) as Hm. set (f := _ mod _) in *. split; [|done].
    rewrite Hrc. cbn [fmap option_fmap option_map]. apply (core_frame s _ _ _ rc f 1 true); core_side.
    intros g Hg. rewrite bit_get_set by (done || lia). by destruct (f =? g).
  - unfold pmm_alloc_contig. destruct (Z.eqb_spec n 0); [done|]. destruct (contig_scan _ _ _ _ _ _) as [st|] eqn:Hs; [|done]. cbn [snd].
    destruct (contig_scan_Some (bitmap s) n _ 0 0 0 st ltac:(lia) ltac:(lia) ltac:(lia) Hs) as (H1 & H2 & _).
    destruct (contig_loop_core (Z.to_nat n) st s Hc ltac:(lia) ltac:(lia)) as [[] Et]. split; [by split|done].
  - unfold pmm_ref_frame. destruct (Z.leb_spec MAX_FRAMES (phys / PAGE_SIZE)); [done|]. rewrite Hrc. case_if; [|done]. bools. split; [|done].
    assert (Hf : 0 ≤ phys / PAGE_SIZE) by (pmm_consts; zlia). destruct (Hall (phys / PAGE_SIZE)) as [Hr1 Hr2]; [lia|].
    unfold set_refcnt. rewrite Hrc. cbn [fmap option_fmap option_map]. rewrite u8_small by (pmm_consts; lia).
    apply (core_frame s _ _ _ rc (phys / PAGE_SIZE) _ true); core_side.
    intros g Hg. destruct (Z.eqb_spec (phys / PAGE_SIZE) g) as [<-|]; [|done]. by destruct (bit_get _ _); [|tauto].
  - unfold pmm_unref_frame. destruct (Z.leb_spec MAX_FRAMES (phys / PAGE_SIZE)); [done|]. rewrite Hrc.
    assert (Hf : 0 ≤ phys / PAGE_SIZE) by (pmm_consts; zlia). pose proof (release_core s (phys / PAGE_SIZE) rc Hc Hrc ltac:(lia)) as Hrel.
    destruct (Z.ltb_spec (phys / PAGE_SIZE) (total_frames s)) as [Hlt|]; [|split; [done|unfold unref_release; by destruct (bit_get _ _)]].
    destruct (Hall (phys / PAGE_SIZE)) as [Hr1 Hr2]; [lia|].
    destruct (Z.ltb_spec 1 (rc.[phys / PAGE_SIZE])).
    + split; [|done]. unfold set_refcnt. rewrite Hrc. cbn [fmap option_fmap option_map]. rewrite u8_small by (pmm_consts; lia).
      apply (core_frame s _ _ _ rc (phys / PAGE_SIZE) _ true); core_side.
      intros g Hg. destruct (Z.eqb_spec (phys / PAGE_SIZE) g) as [<-|]; [|done]. destruct (bit_get _ _); [done|]. lia.
    + destruct (Z.eqb_spec (rc.[phys / PAGE_SIZE]) REF_MAX); [done|]. split; [done|]. unfold unref_release. by destruct (bit_get _ _).
Qed.

#[export] Hint Resolve alloc_frame_wf alloc_contig_wf ref_frame_wf unref_frame_wf : xos.

Lemma pmm_do_wf s o :
  op_args o → drops_managed (total_frames s) o → pmm_wf s ∧ refcnt s ≠ None → pmm_wf (pmm_do s o) ∧ refcnt (pmm_do s o) ≠ None.
Proof.
  intros Ha Hd [Hw Hr]. destruct o as [|n|phys|phys]; cbn [pmm_do op_args drops_managed] in *; (split; [by eauto with xos|]).
  - unfold pmm_alloc_frame. destruct (find_up _ _ _); [|done]. simpl. by rewrite fmap_None.
  - unfold pmm_alloc_contig. destruct (n =? 0); [done|].
    destruct (contig_scan _ _ _ _ _ _); [|done]. simpl. by apply refcnt_contig_mark_Some.
  - by apply refcnt_ref_Some.
  - by apply refcnt_unref_Some.
Qed.

Lemma history_ok ops s :
  Forall op_args ops → pmm_core s →
  pmm_core (foldl pmm_do s ops) ∧
  (Forall (drops_managed (total_frames s)) ops → pmm_wf s → pmm_wf (foldl pmm_do s ops)).
Proof.
  revert s. induction ops as [|o ops IH]; intros s Ha Hc; [done|]. apply Forall_cons in Ha as [Ho Ha].
  destruct (pmm_do_core s o Ho Hc) as [Hc1 Et]. destruct (IH (pmm_do s o) Ha Hc1) as [H1 H2]. split; [done|].
  intros [Hd Hds]%Forall_cons Hw. apply H2; [by rewrite Et|]. apply pmm_do_wf; [done|done|]. split; [done|].
  destruct Hc as [_ _ _ (rc & E & _)]. by rewrite E.
Qed.

(** *** Reference counts of one frame *)

Section one_frame.
Context (f : Z).
#[local] Abbreviation phys := (f * PAGE_SIZE).
#[local] Abbreviation rcount s := (pmm_refcount s phys).

(** A managed frame of a consistent allocator. *)
Definition managed (s : pmm) : Prop :=
  pmm_wf s ∧ refcnt s ≠ None ∧ LOW_FRAMES ≤ f < total_frames s.

Lemma phys_frame : phys / PAGE_SIZE = f.
Proof. apply Z.div_mul. pmm_consts. lia. Qed.

Lemma managed_refcount s :
  managed s → 0 ≤ rcount s ≤ REF_MAX ∧ (frame_used s f = true ↔ 0 < rcount s).
Proof.
  intros (Hw & Hs & Hf). unfold pmm_refcount. rewrite phys_frame.
  destruct (refcnt s) as [rc|] eqn:Hrc; [|done].
  destruct (Z.leb_spec (total_frames s) f); [lia|].
  destruct (wf_rc _ Hw rc Hrc) as [_ Hall]. destruct (Hall f) as [Hr Hz]; [pmm_consts; lia|].
  split; [done|]. unfold frame_used. destruct (bit_get (bitmap s) f); split; intros; try lia; done.
Qed.

Lemma refcount_set s v : managed s → rcount (set_refcnt s f v) = v.
Proof.
  intros (Hw & Hs & Hf). unfold pmm_refcount. rewrite phys_frame. simpl.
  destruct (refcnt s) as [rc|] eqn:Hrc; [|done]. simpl.
  destruct (Z.leb_spec (total_frames s) f); [lia|].
  destruct (wf_rc _ Hw rc Hrc) as [Hl _]. rewrite aget_aset_eq; [done|]. pmm_consts. lia.
Qed.

(** Taking a reference adds one, up to saturation. *)
Lemma ref_frame_spec s :
  managed s → 0 < rcount s →
  managed (pmm_ref_frame s phys) ∧ rcount (pmm_ref_frame s phys) = Z.min REF_MAX (rcount s + 1).
Proof.
  intros Hm Hpos. destruct (managed_refcount _ Hm) as [Hr _]. pose proof Hm as (Hw & Hs & Hf).
  assert (Hm' : managed (pmm_ref_frame s phys)).
  { split_and!; [apply ref_frame_wf; [done|pmm_consts; lia]|by apply refcnt_ref_Some|lia|].
    unfold pmm_ref_frame. destruct (MAX_FRAMES <=? _); [lia|].
    destruct (refcnt s); [|lia]. case_if; simpl; lia. }
  split; [done|]. unfold pmm_ref_frame. rewrite phys_frame.
  pose proof (wf_total _ Hw). destruct (Z.leb_spec MAX_FRAMES f); [lia|].
  destruct (refcnt s) as [rc|] eqn:Hrc; [|done].
  assert (Hv : rcount s = rc.[f]).
  { unfold pmm_refcount. rewrite phys_frame, Hrc. destruct (Z.leb_spec (total_frames s) f); [lia|done]. }
  destruct (Z.ltb_spec f (total_frames s)); [|lia].
  destruct (Z.eqb_spec (rc.[f]) 0); [lia|].
  destruct (Z.ltb_spec (rc.[f]) REF_MAX); simpl; [|lia].
  rewrite refcount_set by done. rewrite u8_small by (pmm_consts; lia). lia.
Qed.

(** Dropping a reference takes one away and frees the frame at zero. *)
Lemma unref_frame_spec s :
  managed s → 0 < rcount s →
  managed (pmm_unref_frame s phys) ∧ rcount (pmm_unref_frame s phys) = rcount s - 1.
Proof.
  intros Hm Hpos. destruct (managed_refcount _ Hm) as [Hr _]. pose proof Hm as (Hw & Hs & Hf).
  assert (Hm' : managed (pmm_unref_frame s phys)).
  { split_and!; [apply unref_frame_wf; rewrite ?phys_frame; done|by apply refcnt_unref_Some|lia|].
    unfold pmm_unref_frame, unref_release. destruct (MAX_FRAMES <=? _); [lia|].
    destruct (refcnt s); [|simpl; repeat case_if; simpl; lia].
    repeat (case_if; simpl; try lia). }
  split; [done|]. unfold pmm_unref_frame. rewrite phys_frame.
  pose proof (wf_total _ Hw). destruct (Z.leb_spec MAX_FRAMES f); [lia|].
  destruct (refcnt s) as [rc|] eqn:Hrc; [|done].
  assert (Hv : rcount s = rc.[f]).
  { unfold pmm_refcount. rewrite phys_frame, Hrc. destruct (Z.leb_spec (total_frames s) f); [lia|done]. }
  destruct (Z.ltb_spec f (total_frames s)); [|lia].
  destruct (Z.ltb_spec 1 (rc.[f])).
  - rewrite refcount_set by done. rewrite u8_small by (pmm_consts; lia). lia.
  - destruct (Z.eqb_spec (rc.[f]) REF_MAX); [pmm_consts; lia|].
    assert (E : rcount (unref_release (set_refcnt s f 0) f) = rcount (set_refcnt s f 0)).
    { unfold pmm_refcount, unref_release. simpl. by destruct (bit_get _ _). }
    rewrite E, refcount_set by done. lia.
Qed.

Lemma iter_ref_spec k s :
  managed s → 0 < rcount s →
  managed (Nat.iter k (λ s, pmm_ref_frame s phys) s) ∧
  rcount (Nat.iter k (λ s, pmm_ref_frame s phys) s) = Z.min REF_MAX (rcount s + Z.of_nat k).
Proof.
  intros Hm Hp. destruct (managed_refcount _ Hm) as [Hr _].
  induction k as [|k [IHm IHr]]; simpl; [split; [done|lia]|].
  destruct (ref_frame_spec (Nat.iter k (λ s, pmm_ref_frame s phys) s)) as [H1 H2];
    [done|pmm_consts; lia|].
  split; [done|]. rewrite H2, IHr. pmm_consts. lia.
Qed.

Lemma iter_unref_spec j s :
  managed s → Z.of_nat j ≤ rcount s →
  managed (Nat.iter j (λ s, pmm_unref_frame s phys) s) ∧
  rcount (Nat.iter j (λ s, pmm_unref_frame s phys) s) = rcount s - Z.of_nat j.
Proof.
  intros Hm. induction j as [|j IH]; simpl; intros Hj; [split; [done|lia]|].
  destruct IH as [IHm IHr]; [lia|].
  destruct (unref_frame_spec (Nat.iter j (λ s, pmm_unref_frame s phys) s)) as [H1 H2];
    [done|lia|].
  split; [done|]. lia.
Qed.
End one_frame.

(** A frame with one owner that is shared [k <= 254] more times survives
    the first [k] drops and is returned to the pool by the drop after that:
    after [j <= k + 1] drops its count is [k + 1 - j], and it is still
    allocated exactly when references remain. *)
Theorem shared_frame_lifetime s f (k j : nat) :
  managed f s → pmm_refcount s (f * PAGE_SIZE) = 1 →
  (k ≤ 254)%nat → (j ≤ k + 1)%nat →
  let s' := Nat.iter j (λ s, pmm_unref_frame s (f * PAGE_SIZE))
              (Nat.iter k (λ s, pmm_ref_frame s (f * PAGE_SIZE)) s) in
  pmm_refcount s' (f * PAGE_SIZE) = Z.of_nat (k + 1 - j) ∧
  (frame_used s' f = true ↔ (j ≤ k)%nat) ∧ pmm_wf s'.
Proof.
  intros Hm Hone Hk Hj s'.
  destruct (iter_ref_spec f k s Hm ltac:(lia)) as [Hmk Hrk].
  destruct (iter_unref_spec f j _ Hmk) as [Hmj Hrj]; [rewrite Hrk, Hone; pmm_consts; lia|].
  fold s' in Hmj, Hrj. rewrite Hrk, Hone in Hrj.
  destruct (managed_refcount f s' Hmj) as [_ Hu].
  split; [rewrite Hrj; pmm_consts; lia|]. split; [|apply Hmj].
  rewrite Hu, Hrj. pmm_consts. lia.
Qed.

(** Saturation is not sticky.  The comment in [pmm_unref_frame] says a
    saturated count is never dropped; the [> 1] test before it drops it all
    the same: a frame with one owner that is shared 300 more times is back in
    the free pool after 255 drops, with 46 references still held. *)
Theorem saturated_frame_freed s f :
  managed f s → pmm_refcount s (f * PAGE_SIZE) = 1 →
  frame_used (Nat.iter 255 (λ s, pmm_unref_frame s (f * PAGE_SIZE))
                (Nat.iter 300 (λ s, pmm_ref_frame s (f * PAGE_SIZE)) s)) f = false.
Proof.
  intros Hm Hone.
  destruct (iter_ref_spec f 300 s Hm ltac:(lia)) as [Hmk Hrk]. rewrite Hone in Hrk.
  change (Z.min REF_MAX (1 + Z.of_nat 300)) with 255 in Hrk.
  destruct (iter_unref_spec f 255 _ Hmk) as [Hmj Hrj]; [rewrite Hrk; lia|].
  destruct (managed_refcount f _ Hmj) as [_ Hu].
  destruct (frame_used _ f); [|done]. rewrite Hrj, Hrk in Hu.
  assert (0 < 255 - Z.of_nat 255) by by apply Hu. lia.
Qed.

(** *** Initialisation *)

Definition region_start (e : hand_memmap_entry_t) : Z := u64 (mm_base e + PAGE_SIZE - 1) / PAGE_SIZE.
Definition region_end (e : hand_memmap_entry_t) : Z := u64 (mm_base e + mm_length e) / PAGE_SIZE.

(** Frame [f] lies wholly inside a usable region of the map. *)
Definition usable_frame (mm : list hand_memmap_entry_t) (f : Z) : Prop :=
  ∃ e, e ∈ mm ∧ mm_type e = HAND_MEM_USABLE ∧ region_start e ≤ f < region_end e.

(** After some regions: free bits are exactly the usable frames, all below the total. *)
Definition init_inv (mm : list hand_memmap_entry_t) (st : list Z * Z) : Prop :=
  zlen st.1 = MAX_FRAMES / 8 ∧ 0 ≤ st.2 ≤ MAX_FRAMES ∧
  ∀ f, 0 ≤ f < MAX_FRAMES →
    (bit_get st.1 f = false ↔ usable_frame mm f) ∧ (bit_get st.1 f = false → f < st.2).

Lemma init_region_inv mm e st : init_inv mm st → init_inv (mm ++ [e]) (init_region e st).
Proof.
  intros (Hl & Ht & Hall). unfold init_region.
  assert (Hext : ∀ f, usable_frame (mm ++ [e]) f ↔
            usable_frame mm f ∨ (mm_type e = HAND_MEM_USABLE ∧ region_start e ≤ f < region_end e)).
  { intros f. split.
    - intros (e' & [Hin| ->%list_elem_of_singleton]%elem_of_app & Hty & Hr); [left; by exists e'|by right].
    - intros [(e' & Hin & Hty & Hr)|[Hty Hr]].
      + exists e'. split; [apply elem_of_app; by left|done].
      + exists e. split; [apply elem_of_app; right; by apply list_elem_of_singleton|done]. }
  destruct (Z.eqb_spec (mm_type e) HAND_MEM_USABLE) as [Hu|Hu]; simpl; last first.
  { split_and!; [done|lia|lia|]. intros f Hf. rewrite Hext. destruct (Hall f Hf). tauto. }
  fold (region_start e) (region_end e).
  set (start := region_start e). set (n := Z.to_nat (Z.min (region_end e) MAX_FRAMES - start)).
  assert (Hstart : 0 ≤ start)
    by (unfold start, region_start; pose proof (u64_range (mm_base e + PAGE_SIZE - 1));
        pmm_consts; zlia).
  assert (H : let st' := iter_up init_free_frame start n st in
            zlen st'.1 = MAX_FRAMES / 8 ∧ 0 ≤ st'.2 ≤ MAX_FRAMES ∧
            ∀ f, 0 ≤ f < MAX_FRAMES →
              (bit_get st'.1 f = false ↔
                 usable_frame mm f ∨ start ≤ f < start + Z.of_nat n) ∧
              (bit_get st'.1 f = false → f < st'.2)).
  { apply (iter_up_ind (λ i st', zlen st'.1 = MAX_FRAMES / 8 ∧ 0 ≤ st'.2 ≤ MAX_FRAMES ∧
            ∀ f, 0 ≤ f < MAX_FRAMES →
              (bit_get st'.1 f = false ↔ usable_frame mm f ∨ start ≤ f < i) ∧
              (bit_get st'.1 f = false → f < st'.2))).
    - split_and!; [done|lia|lia|]. intros f Hf. destruct (Hall f Hf) as [H1 H2].
      split; [|done]. rewrite H1. split; [tauto|]. intros [?|?]; [done|lia].
    - intros i [bm total] Hi (Hl' & Ht' & Hall'). simpl in *.
      assert (0 ≤ i < MAX_FRAMES) by (subst n; lia).
      split_and!; [by rewrite zlen_bit_clr|case_if; lia|case_if; bools; lia|].
      intros f Hf. rewrite bit_get_clr by done. destruct (Hall' f Hf) as [H1 H2].
      destruct (Z.eqb_spec i f) as [->|Hne]; simpl.
      + split; [split; [intros; right; lia|done]|]. intros _. case_if; bools; lia.
      + rewrite H1. split; [split; intros [?|?]; (by left) || (right; lia)|].
        rewrite <- H1. intros Hb%H2. case_if; bools; lia. }
  destruct H as (H1 & H2 & H3). split_and!; [done|lia|lia|].
  intros f Hf. destruct (H3 f Hf) as [Ha Hb]. split; [|done]. rewrite Ha, Hext.
  subst n. split; (intros [?|?]; [by left|right]); [split; [done|]|]; lia.
Qed.

Lemma init_fold_inv mm0 mm st :
  init_inv mm0 st → init_inv (mm0 ++ mm) (fold_left (λ st e, init_region e st) mm st).
Proof.
  revert mm0 st. induction mm as [|e mm IH]; intros mm0 st H; simpl.
  - by rewrite app_nil_r.
  - rewrite (cons_middle e mm0 mm), app_assoc. by apply IH, init_region_inv.
Qed.

Lemma bitmap_all_used_get i : 0 ≤ i < MAX_FRAMES → bit_get bitmap_all_used i = true.
Proof.
  intros Hi%bitmap_idx. unfold bitmap_all_used. rewrite bit_get_testbit, aget_replicate by lia.
  assert (Hk : ∀ k, 0 ≤ k < 8 → Z.testbit 255 k = true).
  { intros k Hk. assert (k = 0 ∨ k = 1 ∨ k = 2 ∨ k = 3 ∨ k = 4 ∨ k = 5 ∨ k = 6 ∨ k = 7)
      as Hc by lia. by repeat destruct Hc as [->|Hc]; [..|subst]. }
  apply Hk. lia.
Qed.

Lemma bitmap_all_used_len : zlen bitmap_all_used = MAX_FRAMES / 8.
Proof. unfold bitmap_all_used. apply zlen_replicate. pmm_consts. zlia. Qed.

Lemma init_regions_inv mm : init_inv mm (init_regions mm).
Proof.
  apply (init_fold_inv [] mm).
  split_and!; cbn [fst snd]; [apply bitmap_all_used_len|lia|pmm_consts; lia|].
  intros f Hf. rewrite bitmap_all_used_get by done. split; [|done].
  split; [done|]. intros (e & He & _). by apply elem_of_nil in He.
Qed.

Lemma init_low_spec bm :
  zlen bm = MAX_FRAMES / 8 →
  zlen (init_low bm) = MAX_FRAMES / 8 ∧
  ∀ f, 0 ≤ f < MAX_FRAMES → bit_get (init_low bm) f = (f <? LOW_FRAMES) || bit_get bm f.
Proof.
  intros Hl.
  assert (H := iter_up_ind (λ i bm', zlen bm' = MAX_FRAMES / 8 ∧
     ∀ f, 0 ≤ f < MAX_FRAMES → bit_get bm' f = (f <? i) || bit_get bm f)
     (λ f bm, bit_set bm f) 0 (Z.to_nat LOW_FRAMES) bm).
  replace (0 + Z.of_nat (Z.to_nat LOW_FRAMES)) with LOW_FRAMES in H by done. apply H.
  - split; [done|]. intros f Hf. destruct (Z.ltb_spec f 0); [lia|done].
  - intros i bm' Hi [Hl' Hall]. split; [by rewrite zlen_bit_set|].
    intros f Hf. rewrite bit_get_set, Hall by (pmm_consts; lia).
    destruct (Z.eqb_spec i f), (Z.ltb_spec f i), (Z.ltb_spec f (i + 1)); simpl; (lia || done).
Qed.

Lemma count_loop (p : Z → bool) lo n k :
  iter_up (λ f c, if p f then c + 1 else c) lo n k = k + count_up p lo n.
Proof.
  revert lo k. induction n as [|n IH]; intros lo k; [symmetry; apply Z.add_0_r|].
  rewrite iter_up_S, count_up_S, IH. destruct (p lo); lia.
Qed.

Lemma init_count_eq bm total : init_count bm total = count_up (bit_get bm) 0 (Z.to_nat total).
Proof. apply (count_loop (bit_get bm)). Qed.

Lemma seqZ_map_get (p : Z → Z) n f : 0 ≤ f < n → (p <$> seqZ 0 n).[f] = p f.
Proof.
  intros Hf. unfold aget. apply list_lookup_total_correct.
  rewrite list_lookup_fmap, lookup_seqZ_lt by lia. simpl. f_equal. f_equal. lia.
Qed.

Lemma pmm_init_wf h mm s :
  pmm_init h mm = Some s →
  pmm_wf s ∧ refcnt s ≠ None ∧
  ∀ f, frame_free s f → LOW_FRAMES ≤ f ∧ usable_frame mm f.
Proof.
  unfold pmm_init. pose proof (init_regions_inv mm) as Hi.
  destruct (init_regions mm) as [bm1 total]. destruct Hi as (Hl1 & Ht1 & Hall1).
  cbn [fst snd] in *. destruct (init_low_spec bm1 Hl1) as [Hl2 Hall2].
  rewrite init_count_eq. generalize dependent (init_low bm1). intros bm2 Hl2 Hall2.
  set (s0 := mkPmm bm2 total (count_up (bit_get bm2) 0 (Z.to_nat total)) 0 None h).
  assert (Hw0 : pmm_wf s0).
  { constructor; simpl; try (done || lia).
    intros f Hf. rewrite Hall2 by (pmm_consts; lia). destruct (Z.ltb_spec f LOW_FRAMES); [done|lia]. }
  set (rcp := (total + PAGE_SIZE - 1) / PAGE_SIZE).
  assert (Hrcp : 0 ≤ rcp) by (subst rcp; pmm_consts; zlia).
  clearbody rcp.
  pose proof (alloc_contig_wf s0 rcp Hw0 Hrcp) as Hw1.
  assert (Hsub : ∀ f, 0 ≤ f < MAX_FRAMES → bit_get (bitmap (pmm_alloc_contig s0 rcp).2) f = false →
             bit_get bm2 f = false).
  { intros f Hf. destruct (decide (rcp = 0)) as [->|Hne]; [done|].
    destruct (contig_scan bm2 rcp (Z.to_nat total) 0 0 0) as [st|] eqn:Hs.
    - destruct (alloc_contig_Some s0 rcp st) as (s1 & Hm & _ & _ & _ & -> & _); [done|lia|done|].
      destruct Hm as (_ & _ & _ & _ & _ & Hget & _). specialize (Hget f Hf).
      unfold frame_used in Hget. simpl in *. rewrite Hget. by intros [_ ?]%orb_false_elim.
    - unfold pmm_alloc_contig. subst s0; simpl. rewrite Hs. by destruct (rcp =? 0). }
  destruct (pmm_alloc_contig s0 rcp) as [rc_phys s1]. cbn [snd] in *.
  destruct (rc_phys =? 0); [done|]. intros [= <-]. split_and!.
  - constructor; try apply Hw1. cbn [refcnt]. intros rc [= <-].
    split; [unfold zlen; rewrite length_fmap, length_seqZ; pose proof (wf_total _ Hw1); simpl; lia|].
    intros f Hf. simpl in *. rewrite (seqZ_map_get (λ f, if bit_get (bitmap s1) f then 1 else 0)) by done.
    pmm_consts. destruct (bit_get (bitmap s1) f); split; [lia|done|lia|done].
  - done.
  - intros f [Hf Hb]. simpl in *. pose proof (wf_total _ Hw1).
    apply Hsub in Hb; [|lia]. rewrite Hall2 in Hb by lia. bools.
    split; [done|]. by apply Hall1; [lia|].
Qed.

(** C17: whatever memory map the boot loader hands over and whatever sequence of
    allocations, references and drops follows a successful [pmm_init], with any
    arguments: the counts stay within 8 bits and a frame has references exactly when
    it is not free, so a frame that is still referenced is never in the pool.  If
    moreover the callers drop only references of frames the allocator manages above
    the first MiB (a check [pmm_unref_frame] does not make), the used count is the
    number of allocated frames and the low MiB is never free. *)
Theorem pmm_reachable_wf h mm s0 ops :
  pmm_init h mm = Some s0 → Forall op_args ops →
  let s := foldl pmm_do s0 ops in
  pmm_core s ∧
  (Forall (drops_managed (total_frames s0)) ops → pmm_wf s ∧ 0 ≤ used_frames s ≤ total_frames s).
Proof.
  intros Hi Ha s. destruct (pmm_init_wf _ _ _ Hi) as (Hw & Hn & _). destruct (history_ok ops s0 Ha (wf_core _ Hw Hn)) as [H1 H2].
  split; [done|]. intros Hd. specialize (H2 Hd Hw). split; [done|by apply used_frames_range].
Qed.

(** After [pmm_init] a frame is available only if it lies wholly inside a
    region the firmware reports usable, and above the first MiB. *)
Theorem pmm_init_only_usable h mm s f :
  pmm_init h mm = Some s → frame_free s f →
  1048576 ≤ f * PAGE_SIZE ∧
  ∃ e, e ∈ mm ∧ mm_type e = HAND_MEM_USABLE ∧
       u64 (mm_base e + PAGE_SIZE - 1) / PAGE_SIZE ≤ f < u64 (mm_base e + mm_length e) / PAGE_SIZE.
Proof.
  intros Hi Hf. destruct (pmm_init_wf _ _ _ Hi) as (_ & _ & H).
  destruct (H f Hf) as [Hl Hu]. split; [pmm_consts; lia|exact Hu].
Qed.

(** ** Concrete runs *)

(** A 2 MiB machine: one usable region from 1 MiB to 2 MiB. *)
Definition demo_map : list hand_memmap_entry_t :=
  [mkMemmap 0 1048576 1; mkMemmap 1048576 1048576 HAND_MEM_USABLE].

(** The state [pmm_init] leaves on it: the refcount table takes frame 256. *)
Definition demo_pmm : pmm :=
  default (mkPmm [] 0 0 0 None 0) (pmm_init 18446603336221196288 demo_map).

Lemma demo_pmm_init : pmm_init 18446603336221196288 demo_map = Some demo_pmm.
Proof.
  unfold demo_pmm.
  assert (H : match pmm_init 18446603336221196288 demo_map with Some _ => true | None => false end = true)
    by (vm_compute; reflexivity).
  by destruct (pmm_init 18446603336221196288 demo_map).
Qed.

Lemma demo_pmm_wf : pmm_wf demo_pmm ∧ refcnt demo_pmm ≠ None.
Proof. destruct (pmm_init_wf _ _ _ demo_pmm_init) as (? & ? & _). auto. Qed.

Lemma demo_pmm_refcnt : ∃ rc, refcnt demo_pmm = Some rc.
Proof. destruct demo_pmm_wf as [_ H]. destruct (refcnt demo_pmm) as [rc|]; [by exists rc|done]. Qed.

Lemma demo_total : total_frames demo_pmm = 512.
Proof. vm_compute. reflexivity. Qed.

(** Frame 257 is the first free frame. *)
Lemma demo_free : frame_free demo_pmm 257.
Proof. split; [rewrite demo_total; lia|vm_compute; reflexivity]. Qed.

Lemma pmm_alloc_frame_spec_witness :
  (pmm_alloc_frame demo_pmm).1 = 257 * PAGE_SIZE ∧ pmm_wf (pmm_alloc_frame demo_pmm).2.
Proof.
  split; [vm_compute; reflexivity|].
  destruct demo_pmm_refcnt as [rc Hrc].
  destruct (pmm_alloc_frame_spec demo_pmm rc (proj1 demo_pmm_wf) Hrc)
    as [(f & s' & -> & _ & _ & _ & _ & _ & H)|[_ Hno]]; [exact H|].
  exfalso. exact (Hno 257 demo_free).
Defined.

Lemma pmm_alloc_contig_spec_witness :
  (pmm_alloc_contig demo_pmm 4).1 = 257 * PAGE_SIZE ∧ pmm_wf (pmm_alloc_contig demo_pmm 4).2.
Proof.
  split; [vm_compute; reflexivity|].
  destruct demo_pmm_refcnt as [rc Hrc].
  destruct (pmm_alloc_contig_spec demo_pmm rc 4 (proj1 demo_pmm_wf) Hrc ltac:(lia))
    as [(st & s' & -> & _ & _ & _ & _ & _ & H)|[-> _]]; [exact H|exact (proj1 demo_pmm_wf)].
Defined.

Definition demo_ops : list pmm_op := [OpAlloc; OpRef (257 * PAGE_SIZE); OpUnref (257 * PAGE_SIZE)].

Lemma pmm_reachable_wf_witness :
  pmm_core (foldl pmm_do demo_pmm [OpUnref 0; OpAlloc]) ∧ pmm_wf (foldl pmm_do demo_pmm demo_ops).
Proof.
  split.
  - refine (proj1 (pmm_reachable_wf 18446603336221196288 demo_map demo_pmm [OpUnref 0; OpAlloc] demo_pmm_init _)).
    apply Forall_cons; split; [cbn; lia|]. apply Forall_cons; split; [exact I|by apply Forall_nil].
  - refine (proj1 (proj2 (pmm_reachable_wf 18446603336221196288 demo_map demo_pmm demo_ops demo_pmm_init _) _)).
    + unfold demo_ops. rewrite !Forall_cons. split_and!; [exact I|cbn; pmm_consts; lia..|by apply Forall_nil].
    + rewrite demo_total. unfold demo_ops. rewrite !Forall_cons. split_and!; [exact I|exact I|vm_compute; split; congruence|by apply Forall_nil].
Defined.

(** Dropping a reference of frame 0 puts the first page of memory into the pool. *)
Lemma low_frame_freed : frame_free (pmm_unref_frame demo_pmm 0) 0.
Proof. split; [vm_compute; split; congruence|vm_compute; reflexivity]. Qed.

Lemma pmm_init_only_usable_witness :
  frame_free demo_pmm 257 ∧ 1048576 ≤ 257 * PAGE_SIZE.
Proof.
  split; [exact demo_free|].
  apply (pmm_init_only_usable _ _ _ _ demo_pmm_init demo_free).
Defined.

Lemma demo_managed : managed 256 demo_pmm.
Proof.
  destruct demo_pmm_wf. split_and!; [done|done|vm_compute; congruence|rewrite demo_total; lia].
Qed.

Lemma demo_owner : pmm_refcount demo_pmm (256 * PAGE_SIZE) = 1.
Proof. vm_compute. reflexivity. Qed.

Lemma shared_frame_lifetime_witness :
  let s' := Nat.iter 3 (λ s, pmm_unref_frame s (256 * PAGE_SIZE))
              (Nat.iter 2 (λ s, pmm_ref_frame s (256 * PAGE_SIZE)) demo_pmm) in
  pmm_refcount s' (256 * PAGE_SIZE) = Z.of_nat (2 + 1 - 3) ∧
  (frame_used s' 256 = true ↔ (3 ≤ 2)%nat) ∧ pmm_wf s'.
Proof.
  exact (shared_frame_lifetime demo_pmm 256 2 3 demo_managed demo_owner ltac:(lia) ltac:(lia)).
Defined.

Lemma saturated_frame_freed_witness :
  pmm_refcount (Nat.iter 300 (λ s, pmm_ref_frame s (256 * PAGE_SIZE)) demo_pmm) (256 * PAGE_SIZE) = 255 ∧
  frame_used (Nat.iter 255 (λ s, pmm_unref_frame s (256 * PAGE_SIZE))
                (Nat.iter 300 (λ s, pmm_ref_frame s (256 * PAGE_SIZE)) demo_pmm)) 256 = false.
Proof.
  split; [vm_compute; reflexivity|].
  exact (saturated_frame_freed demo_pmm 256 demo_managed demo_owner).
Defined.
