(* ===== verification/Spinlock.v ===== *)
(** * The ticket spinlock

    [kernel/hal/apic/spinlock.h], run by any number of CPUs.  One step is one
    atomic access to the lock word (or one flag instruction) by one CPU, so a
    behaviour is an arbitrary interleaving, a schedule.  The two 32-bit counters
    are kept as unbounded counts; every comparison the code makes is made on their
    low 32 bits, as the hardware does.

    The lock refines a FIFO queue of CPUs: drawing a ticket appends the CPU,
    releasing removes the head, and only the head is inside.  This holds of the runs
    that are [prompt]; [stalled_try_breaks] is one that is not. *)

From S2P Require Import Prelude.

Definition SPIN_LIMIT : Z := 10000000.

(** Where a CPU is in the lock code.  [irq] is the RFLAGS value saved by the
    [_irqsave] variants.  Tickets are kept as counts; the code sees [u32] of them. *)
Inductive pc :=
  | Idle
  | AcqIrq (rflags : Z)                              (* cli done, ticket not drawn *)
  | Spin (irq : option Z) (ticket spin : Z)          (* waiting for its ticket *)
  | Halted (ticket : Z)                              (* DEADLOCK! for (;;) hlt *)
  | Held (irq : option Z) (ticket : Z)               (* in the critical section *)
  | RelIrq (rflags : Z)                              (* released, flags not restored *)
  | TryPeek (next : Z)                               (* try_irqsave: next_ticket read *)
  | TryIrq                                           (* try_irqsave: lock looked free *)
  | TryNext (irq : option Z) (retry : Z)             (* spinlock_try: loop head *)
  | TryServing (irq : option Z) (retry next : Z)     (* next_ticket read *)
  | TryCas (irq : option Z) (retry next : Z)         (* counters were equal *)
  | TryFail (irq : option Z).                        (* return false *)

Record cpu := mkCpu { c_pc : pc; c_rflags : Z }.

(** [spinlock_t], with the CPUs that use it. *)
Record lock := mkLock { next_ticket : Z; serving_ticket : Z; cpus : list cpu }.

(** RFLAGS.IF is bit 9. *)
Definition IF_BIT : Z := 9.
Definition cli (rflags : Z) : Z := Z.clearbit rflags IF_BIT.
Definition sti (rflags : Z) : Z := Z.setbit rflags IF_BIT.

(** [if (rflags & (1 << 9)) sti();] *)
Definition restore (saved rflags : Z) : Z := if Z.testbit saved IF_BIT then sti rflags else rflags.

(** The calls a CPU can make when it is not in the lock code, and the choice to
    release when it holds the lock. *)
Inductive op := Acquire | AcquireIrqsave | Try | TryIrqsave | Release.

Definition set_cpu (s : lock) (i : nat) (c : cpu) : lock :=
  mkLock (next_ticket s) (serving_ticket s) (<[i := c]> (cpus s)).
Definition bump_next (s : lock) : lock := mkLock (next_ticket s + 1) (serving_ticket s) (cpus s).
Definition bump_serving (s : lock) : lock := mkLock (next_ticket s) (serving_ticket s + 1) (cpus s).

(** One atomic step of CPU [i]. *)
Definition spin_step (o : op) (i : nat) (s : lock) : lock :=
  match cpus s !! i with
  | None => s
  | Some c =>
      let go (p : pc) := set_cpu s i (mkCpu p (c_rflags c)) in
      match c_pc c with
      | Idle =>
          match o with
          | Acquire => set_cpu (bump_next s) i (mkCpu (Spin None (next_ticket s) 0) (c_rflags c))
          | AcquireIrqsave => set_cpu s i (mkCpu (AcqIrq (c_rflags c)) (cli (c_rflags c)))
          | Try => go (TryNext None 0)
          | TryIrqsave => go (TryPeek (next_ticket s))
          | Release => s
          end
      | AcqIrq rflags =>
          set_cpu (bump_next s) i (mkCpu (Spin (Some rflags) (next_ticket s) 0) (c_rflags c))
      | Spin irq t spin =>
          if u32 (serving_ticket s) =? u32 t then go (Held irq t)
          else if SPIN_LIMIT <? spin + 1 then go (Halted t)
          else go (Spin irq t (spin + 1))
      | Halted _ => s
      | Held irq t =>
          match o with
          | Release =>
              set_cpu (bump_serving s) i
                (mkCpu (match irq with Some rflags => RelIrq rflags | None => Idle end) (c_rflags c))
          | _ => s
          end
      | RelIrq rflags => set_cpu s i (mkCpu Idle (restore rflags (c_rflags c)))
      | TryPeek n => if u32 n =? u32 (serving_ticket s) then go TryIrq else go Idle
      | TryIrq => set_cpu s i (mkCpu (TryNext (Some (c_rflags c)) 0) (cli (c_rflags c)))
      | TryNext irq r => go (TryServing irq r (next_ticket s))
      | TryServing irq r n => if u32 n =? u32 (serving_ticket s) then go (TryCas irq r n) else go (TryFail irq)
      | TryCas irq r n =>
          if u32 (next_ticket s) =? u32 n
          then set_cpu (bump_next s) i (mkCpu (Held irq (next_ticket s)) (c_rflags c))
          else if r + 1 <? 2 then go (TryNext irq (r + 1))
          else go (TryFail irq)
      | TryFail irq =>
          set_cpu s i (mkCpu Idle (match irq with Some rflags => restore rflags (c_rflags c) | None => c_rflags c end))
      end
  end.

(** A schedule says which CPU moves next, and the call it makes where it has a
    choice; every list is one. *)
Definition lock_run (s : lock) (sched : list (op * nat)) : lock := foldl (λ s '(o, i), spin_step o i s) s sched.

(** The count a CPU loaded and will still compare with. *)
Definition loaded (p : pc) : option Z :=
  match p with TryServing _ _ n | TryCas _ _ n => Some n | _ => None end.

Definition in_window (s : lock) : Prop :=
  ∀ i c n, cpus s !! i = Some c → loaded (c_pc c) = Some n → next_ticket s < n + 4294967296.

(** The counters have 32 bits, and [spinlock_try] compares a count it loaded
    earlier: a run is prompt if no CPU is ever suspended between the load of
    [next_ticket] in [spinlock_try] and its [cmpxchg] while 2^32 tickets are drawn. *)
Definition prompt (s : lock) (sched : list (op * nat)) : Prop := ∀ k, in_window (lock_run s (take k sched)).

(** [SPINLOCK_INIT] with [n] CPUs elsewhere. *)
Definition SPINLOCK_INIT (flags : list Z) : lock := mkLock 0 0 (mkCpu Idle <$> flags).

(** ** The queue *)

(** The ticket a CPU owns. *)
Definition owned (p : pc) : option Z :=
  match p with Spin _ t _ | Halted t | Held _ t => Some t | _ => None end.
Definition inside (p : pc) : bool := match p with Held _ _ => true | _ => false end.

(** [q] lists the CPUs that own tickets, in ticket order. *)
Record queue_inv (s : lock) (q : list nat) : Prop := {
  qi_next : next_ticket s = serving_ticket s + zlen q;
  qi_owner : ∀ k i, q !! k = Some i →
    ∃ c, cpus s !! i = Some c ∧ owned (c_pc c) = Some (serving_ticket s + Z.of_nat k);
  qi_queued : ∀ i c t, cpus s !! i = Some c → owned (c_pc c) = Some t →
    ∃ k, q !! k = Some i ∧ t = serving_ticket s + Z.of_nat k;
  qi_inside : ∀ i c, cpus s !! i = Some c → inside (c_pc c) = true → q !! 0%nat = Some i;
  qi_few : zlen (cpus s) < 4294967296;
  qi_serving : ∀ i c irq r n, cpus s !! i = Some c → c_pc c = TryServing irq r n →
    n ≤ next_ticket s ∧ n < serving_ticket s + 4294967296;
  qi_cas : ∀ i c irq r n, cpus s !! i = Some c → c_pc c = TryCas irq r n → n ≤ next_ticket s ∧ n ≤ serving_ticket s;
}.

(** The abstract lock: a queue of CPUs and whether the head is inside. *)
Record fifo := mkFifo { f_queue : list nat; f_inside : bool }.
Inductive fifo_step : fifo → fifo → Prop :=
  | fifo_draw q b i : i ∉ q → fifo_step (mkFifo q b) (mkFifo (q ++ [i]) b)
  | fifo_enter q i : fifo_step (mkFifo (i :: q) false) (mkFifo (i :: q) true)
  | fifo_leave q i : fifo_step (mkFifo (i :: q) true) (mkFifo q false)
  | fifo_try i : fifo_step (mkFifo [] false) (mkFifo [i] true).

(** A lock state and the queue it stands for. *)
Definition head_inside (s : lock) (q : list nat) : bool :=
  match q with
  | [] => false
  | i :: _ => match cpus s !! i with Some c => inside (c_pc c) | None => false end
  end.
Definition abs_lock (s : lock) (q : list nat) (f : fifo) : Prop :=
  queue_inv s q ∧ f = mkFifo q (head_inside s q).

(** ** The simulation *)

Lemma lookup_set_cpu s i c0 c j d :
  cpus s !! i = Some c0 →
  cpus (set_cpu s i c) !! j = Some d ↔ (i = j ∧ d = c) ∨ (i ≠ j ∧ cpus s !! j = Some d).
Proof.
  intros Hi. cbn [set_cpu cpus]. rewrite list_lookup_insert_Some.
  apply lookup_lt_Some in Hi. naive_solver.
Qed.

Lemma queue_NoDup s q : queue_inv s q → NoDup q.
Proof.
  intros Hq. apply NoDup_alt. intros k k' i Hk Hk'.
  destruct (qi_owner _ _ Hq _ _ Hk) as (c & Hc & Ho), (qi_owner _ _ Hq _ _ Hk') as (c' & Hc' & Ho').
  rewrite Hc in Hc'. injection Hc' as <-. rewrite Ho in Ho'. injection Ho'. lia.
Qed.

(** No more CPUs wait than there are. *)
Lemma queue_card s q : queue_inv s q → zlen q ≤ zlen (cpus s).
Proof.
  intros Hq. unfold zlen. rewrite <- (length_seq (length (cpus s)) 0). apply Nat2Z.inj_le, submseteq_length.
  apply NoDup_submseteq; [by eapply queue_NoDup|]. intros i [k Hk]%list_elem_of_lookup.
  destruct (qi_owner _ _ Hq _ _ Hk) as (c & Hc & _). apply lookup_lt_Some in Hc. apply elem_of_seq. lia.
Qed.

Lemma queue_length s q : queue_inv s q → 0 ≤ zlen q < 4294967296.
Proof.
  intros Hq. split; [apply zlen_nonneg|].
  eapply Z.le_lt_trans; [by apply queue_card|apply (qi_few _ _ Hq)].
Qed.

(** A CPU moves without changing the ticket it owns. *)
Lemma queue_move s q i c p fl :
  queue_inv s q → cpus s !! i = Some c → owned p = owned (c_pc c) →
  (inside p = true → q !! 0%nat = Some i) →
  (∀ irq r n, p = TryServing irq r n → n ≤ next_ticket s ∧ n < serving_ticket s + 4294967296) →
  (∀ irq r n, p = TryCas irq r n → n ≤ next_ticket s ∧ n ≤ serving_ticket s) →
  queue_inv (set_cpu s i (mkCpu p fl)) q.
Proof.
  intros Hq Hi Ho Hin Hts Htc. constructor.
  - apply Hq.
  - intros k j Hk. destruct (qi_owner _ _ Hq _ _ Hk) as (d & Hd & Hod).
    destruct (decide (i = j)) as [<-|Hne].
    + exists (mkCpu p fl). split; [by rewrite (lookup_set_cpu s i c); auto|]. simpl. simplify_eq. by rewrite Ho.
    + exists d. split; [by rewrite (lookup_set_cpu s i c); auto|done].
  - intros j d t Hj. rewrite (lookup_set_cpu s i c) in Hj by done. destruct Hj as [[<- ->]|[Hne Hj]]; intros Hod.
    + apply (qi_queued _ _ Hq i c); [done|]. rewrite <- Ho. done.
    + by apply (qi_queued _ _ Hq j d).
  - intros j d Hj. rewrite (lookup_set_cpu s i c) in Hj by done. destruct Hj as [[<- ->]|[Hne Hj]]; intros Hod.
    + by apply Hin.
    + by apply (qi_inside _ _ Hq j d).
  - cbn [set_cpu cpus]. unfold zlen. rewrite length_insert. apply Hq.
  - intros j d irq r n Hj. rewrite (lookup_set_cpu s i c) in Hj by done. destruct Hj as [[<- ->]|[Hne Hj]]; intros Hp.
    + by apply (Hts irq r).
    + by apply (qi_serving _ _ Hq j d irq r).
  - intros j d irq r n Hj. rewrite (lookup_set_cpu s i c) in Hj by done. destruct Hj as [[<- ->]|[Hne Hj]]; intros Hp.
    + by apply (Htc irq r).
    + by apply (qi_cas _ _ Hq j d irq r).
Qed.

(** A CPU draws the next ticket. *)
Lemma queue_draw s q i c p fl :
  queue_inv s q → cpus s !! i = Some c → owned (c_pc c) = None → owned p = Some (next_ticket s) →
  (inside p = true → q = []) →
  queue_inv (set_cpu (bump_next s) i (mkCpu p fl)) (q ++ [i]) ∧ i ∉ q.
Proof.
  intros Hq Hi Hno Ho Hin. pose proof (qi_next _ _ Hq) as Hn. unfold zlen in Hn.
  assert (Hni : i ∉ q).
  { intros [k Hk]%list_elem_of_lookup. destruct (qi_owner _ _ Hq _ _ Hk) as (d & Hd & Hod). simplify_eq. }
  assert (Hlk : ∀ j d, cpus (set_cpu (bump_next s) i (mkCpu p fl)) !! j = Some d ↔
                  (i = j ∧ d = mkCpu p fl) ∨ (i ≠ j ∧ cpus s !! j = Some d)).
  { intros j d. by apply (lookup_set_cpu (bump_next s) i c). }
  split; [|done]. constructor; cbn [bump_next set_cpu next_ticket serving_ticket].
  - unfold zlen. rewrite length_app. simpl. lia.
  - intros k j Hk. apply lookup_app_Some in Hk as [Hk|[Hk1 Hk]].
    + destruct (qi_owner _ _ Hq _ _ Hk) as (d & Hd & Hod). exists d. split; [|done]. apply Hlk. right. split; [|done].
      intros <-. apply Hni, list_elem_of_lookup. by exists k.
    + apply list_lookup_singleton_Some in Hk as [Hk0 <-]. exists (mkCpu p fl). split; [apply Hlk; by left|].
      simpl. rewrite Ho. f_equal. lia.
  - intros j d t Hj Hod. apply Hlk in Hj as [[<- ->]|[Hne Hj]].
    + exists (length q). rewrite lookup_app_r by lia. rewrite Nat.sub_diag. split; [done|]. simpl in Hod. simplify_eq. congruence.
    + destruct (qi_queued _ _ Hq j d t Hj Hod) as (k & Hk & ->). exists k. split; [by apply lookup_app_l_Some|done].
  - intros j d Hj Hod. apply Hlk in Hj as [[<- ->]|[Hne Hj]].
    + by rewrite (Hin Hod).
    + apply lookup_app_l_Some. by apply (qi_inside _ _ Hq j d).
  - cbn [bump_next bump_serving set_cpu cpus]. unfold zlen. rewrite length_insert. apply Hq.
  - intros j d irq r n Hj Hp. apply Hlk in Hj as [[<- ->]|[Hne Hj]]; [simpl in Hp; by rewrite Hp in Ho|].
    pose proof (qi_serving _ _ Hq j d irq r n Hj Hp). lia.
  - intros j d irq r n Hj Hp. apply Hlk in Hj as [[<- ->]|[Hne Hj]]; [simpl in Hp; by rewrite Hp in Ho|].
    pose proof (qi_cas _ _ Hq j d irq r n Hj Hp). lia.
Qed.

(** The holder releases. *)
Lemma queue_release s q i c p fl :
  queue_inv s q → cpus s !! i = Some c → inside (c_pc c) = true → owned p = None → loaded p = None →
  ∃ q', q = i :: q' ∧ queue_inv (set_cpu (bump_serving s) i (mkCpu p fl)) q'.
Proof.
  intros Hq Hi Hin Ho Hl. pose proof (qi_inside _ _ Hq i c Hi Hin) as H0.
  destruct q as [|i0 q']; [done|]. simpl in H0. simplify_eq. exists q'. split; [done|].
  pose proof (queue_NoDup _ _ Hq) as Hnd. apply NoDup_cons in Hnd as [Hni Hnd].
  assert (Hlk : ∀ j d, cpus (set_cpu (bump_serving s) i (mkCpu p fl)) !! j = Some d ↔
                  (i = j ∧ d = mkCpu p fl) ∨ (i ≠ j ∧ cpus s !! j = Some d)).
  { intros j d. by apply (lookup_set_cpu (bump_serving s) i c). }
  assert (Hins : ∀ j d, cpus s !! j = Some d → inside (c_pc d) = true → i = j).
  { intros j d Hj Hd. pose proof (qi_inside _ _ Hq j d Hj Hd) as E. by simplify_eq/=. }
  constructor; cbn [bump_serving set_cpu next_ticket serving_ticket].
  - rewrite (qi_next _ _ Hq). unfold zlen. simpl length. lia.
  - intros k j Hk. destruct (qi_owner _ _ Hq (S k) j Hk) as (d & Hd & Hod). exists d. split.
    + apply Hlk. right. split; [|done]. intros <-. apply Hni, list_elem_of_lookup. by exists k.
    + rewrite Hod. f_equal. lia.
  - intros j d t Hj Hod. apply Hlk in Hj as [[<- ->]|[Hne Hj]]; [simpl in Hod; congruence|].
    destruct (qi_queued _ _ Hq j d t Hj Hod) as ([|k] & Hk & ->); [simpl in Hk; congruence|].
    exists k. split; [done|lia].
  - intros j d Hj Hod. apply Hlk in Hj as [[<- ->]|[Hne Hj]].
    + simpl in Hod. destruct p; done.
    + by destruct (Hne (Hins j d Hj Hod)).
  - cbn [bump_next bump_serving set_cpu cpus]. unfold zlen. rewrite length_insert. apply Hq.
  - intros j d irq r n Hj Hp. apply Hlk in Hj as [[<- ->]|[Hne Hj]]; [simpl in Hp; by rewrite Hp in Hl|].
    pose proof (qi_serving _ _ Hq j d irq r n Hj Hp). lia.
  - intros j d irq r n Hj Hp. apply Hlk in Hj as [[<- ->]|[Hne Hj]]; [simpl in Hp; by rewrite Hp in Hl|].
    pose proof (qi_cas _ _ Hq j d irq r n Hj Hp). lia.
Qed.

(** A spinning CPU sees its ticket exactly when it is the head of the queue. *)
Lemma spin_turn s q i c irq t spin :
  queue_inv s q → cpus s !! i = Some c → c_pc c = Spin irq t spin →
  u32 (serving_ticket s) = u32 t ↔ q !! 0%nat = Some i.
Proof.
  intros Hq Hi Hp. destruct (qi_queued _ _ Hq i c t Hi) as (k & Hk & ->); [by rewrite Hp|].
  pose proof (queue_length _ _ Hq) as Hl. pose proof (lookup_lt_Some _ _ _ Hk). unfold zlen in Hl. split.
  - intros E. assert (k = 0)%nat as -> by zlia. done.
  - intros H0. pose proof (queue_NoDup _ _ Hq) as Hnd.
    assert (k = 0)%nat as -> by (eapply NoDup_lookup; done). by rewrite Z.add_0_r.
Qed.

Lemma head_inside_move s q i c p fl :
  cpus s !! i = Some c → inside p = inside (c_pc c) → head_inside (set_cpu s i (mkCpu p fl)) q = head_inside s q.
Proof.
  intros Hi Hp. destruct q as [|j q]; [done|]. unfold head_inside. cbn [set_cpu cpus].
  destruct (decide (i = j)) as [<-|].
  - rewrite list_lookup_insert_eq by by eapply lookup_lt_Some. by rewrite Hi.
  - by rewrite list_lookup_insert_ne.
Qed.

Lemma head_inside_draw s q i c p fl :
  cpus s !! i = Some c → i ∉ q → inside p = false →
  head_inside (set_cpu (bump_next s) i (mkCpu p fl)) (q ++ [i]) = head_inside s q.
Proof.
  intros Hi Hni Hp. assert (Hl : (i < length (cpus s))%nat) by by eapply lookup_lt_Some.
  destruct q as [|j q]; unfold head_inside; cbn [app set_cpu cpus bump_next].
  - by rewrite list_lookup_insert_eq.
  - rewrite list_lookup_insert_ne by (intros ->; apply Hni; by left). done.
Qed.

Lemma head_inside_one s i c p fl :
  cpus s !! i = Some c → head_inside (set_cpu s i (mkCpu p fl)) [i] = inside p.
Proof.
  intros Hi. unfold head_inside. cbn [set_cpu cpus].
  by rewrite list_lookup_insert_eq by by eapply lookup_lt_Some.
Qed.

(** The successor states of one step, abstractly: nothing, or a queue step. *)
Definition simulates (s s' : lock) (q : list nat) : Prop :=
  ∃ q', queue_inv s' q' ∧
    (mkFifo q (head_inside s q) = mkFifo q' (head_inside s' q') ∨
     fifo_step (mkFifo q (head_inside s q)) (mkFifo q' (head_inside s' q'))).

(** A CPU moves inside the lock code without touching the counters. *)
Lemma sim_move s q i c p fl :
  queue_inv s q → cpus s !! i = Some c → owned p = owned (c_pc c) → inside p = false → inside (c_pc c) = false →
  (∀ irq r n, p = TryServing irq r n → n ≤ next_ticket s ∧ n < serving_ticket s + 4294967296) →
  (∀ irq r n, p = TryCas irq r n → n ≤ next_ticket s ∧ n ≤ serving_ticket s) →
  simulates s (set_cpu s i (mkCpu p fl)) q.
Proof.
  intros Hq Hi Ho Hp Hc Hts Htc. exists q. split.
  - apply (queue_move s q i c); [done..| |done|done]. by rewrite Hp.
  - left. by rewrite (head_inside_move s q i c) by (done || by rewrite Hp, Hc).
Qed.

Lemma sim_draw s q i c p fl :
  queue_inv s q → cpus s !! i = Some c → owned (c_pc c) = None → owned p = Some (next_ticket s) → inside p = false →
  simulates s (set_cpu (bump_next s) i (mkCpu p fl)) q.
Proof.
  intros Hq Hi Hno Ho Hp. destruct (queue_draw s q i c p fl) as [Hq' Hni]; [done..|by rewrite Hp|].
  exists (q ++ [i]). split; [done|]. right. rewrite (head_inside_draw s q i c) by done. by constructor.
Qed.

Lemma sim_try s q i c irq fl :
  queue_inv s q → cpus s !! i = Some c → owned (c_pc c) = None → q = [] →
  simulates s (set_cpu (bump_next s) i (mkCpu (Held irq (next_ticket s)) fl)) q.
Proof.
  intros Hq Hi Hno ->. destruct (queue_draw s [] i c (Held irq (next_ticket s)) fl) as [Hq' _]; [done..|].
  exists [i]. split; [done|]. right. rewrite (head_inside_one (bump_next s) i c) by done. constructor.
Qed.

Lemma sim_enter s q i c irq t spin fl :
  queue_inv s q → cpus s !! i = Some c → c_pc c = Spin irq t spin → u32 (serving_ticket s) = u32 t →
  simulates s (set_cpu s i (mkCpu (Held irq t) fl)) q.
Proof.
  intros Hq Hi Hp Hs. apply (spin_turn s q i c irq t spin) in Hs; [|done..].
  exists q. split; [by apply (queue_move s q i c); rewrite ?Hp|]. right.
  destruct q as [|j q]; [done|]. simpl in Hs. injection Hs as ->.
  assert (E1 : head_inside s (i :: q) = false) by (unfold head_inside; by rewrite Hi, Hp).
  assert (E2 : head_inside (set_cpu s i (mkCpu (Held irq t) fl)) (i :: q) = true) by by apply (head_inside_one s i c).
  rewrite E1, E2. constructor.
Qed.

Lemma sim_release s q i c p fl :
  queue_inv s q → cpus s !! i = Some c → inside (c_pc c) = true → owned p = None → loaded p = None →
  simulates s (set_cpu (bump_serving s) i (mkCpu p fl)) q.
Proof.
  intros Hq Hi Hin Ho Hl. destruct (queue_release s q i c p fl) as (q' & -> & Hq'); [done..|].
  exists q'. split; [done|]. right.
  assert (E1 : head_inside s (i :: q') = true) by (unfold head_inside; by rewrite Hi).
  assert (E2 : head_inside (set_cpu (bump_serving s) i (mkCpu p fl)) q' = false).
  { destruct q' as [|j q']; [done|]. unfold head_inside. cbn [set_cpu bump_serving cpus].
    pose proof (queue_NoDup _ _ Hq) as [Hni _]%NoDup_cons.
    rewrite list_lookup_insert_ne by (intros ->; apply Hni; by left).
    destruct (cpus s !! j) as [d|] eqn:Hj; [|done]. destruct (inside (c_pc d)) eqn:Hd; [|done].
    pose proof (qi_inside _ _ Hq j d Hj Hd) as E. simpl in E. injection E as ->. exfalso. apply Hni. by left. }
  rewrite E1, E2. constructor.
Qed.

(** Every step of the lock is a step of the queue, or invisible. *)
Lemma lock_sim s q o i : queue_inv s q → in_window s → simulates s (spin_step o i s) q.
Proof.
  intros Hq Hw. unfold spin_step. assert (Hid : simulates s s q) by (exists q; auto).
  destruct (cpus s !! i) as [c|] eqn:Hi; [|done].
  pose proof (queue_length _ _ Hq) as Hlen. pose proof (qi_next _ _ Hq) as Hnext.
  destruct (c_pc c) as [|fl|irq t spin|t|irq t|fl|n| |irq r|irq r n|irq r n|irq] eqn:Hp.
  - destruct o; try done; [by apply (sim_draw s q i c); rewrite ?Hp|by apply (sim_move s q i c); rewrite ?Hp..].
  - by apply (sim_draw s q i c); rewrite ?Hp.
  - destruct (Z.eqb_spec (u32 (serving_ticket s)) (u32 t)); [by apply (sim_enter s q i c irq t spin)|].
    case_if; by apply (sim_move s q i c); rewrite ?Hp.
  - done.
  - destruct o; try done. destruct irq; by apply (sim_release s q i c); rewrite ?Hp.
  - by apply (sim_move s q i c); rewrite ?Hp.
  - case_if; by apply (sim_move s q i c); rewrite ?Hp.
  - by apply (sim_move s q i c); rewrite ?Hp.
  - apply (sim_move s q i c); rewrite ?Hp; try done. intros ? ? ? [= _ _ <-]. lia.
  - destruct (qi_serving _ _ Hq i c irq r n Hi Hp) as [H1 H2].
    destruct (Z.eqb_spec (u32 n) (u32 (serving_ticket s))); apply (sim_move s q i c); rewrite ?Hp; try done.
    intros ? ? ? [= _ _ <-]. zlia.
  - destruct (qi_cas _ _ Hq i c irq r n Hi Hp) as [H1 H2].
    assert (H3 : next_ticket s < n + 4294967296) by (apply (Hw i c n); [done|by rewrite Hp]).
    destruct (Z.eqb_spec (u32 (next_ticket s)) (u32 n)).
    + apply (sim_try s q i c); rewrite ?Hp; try done. destruct q; [done|]. unfold zlen in *. simpl length in *. zlia.
    + case_if; by apply (sim_move s q i c); rewrite ?Hp.
  - by apply (sim_move s q i c); rewrite ?Hp.
Qed.

Lemma init_queue flags : zlen flags < 4294967296 → queue_inv (SPINLOCK_INIT flags) [].
Proof.
  intros Hf. assert (Hc : ∀ i c, cpus (SPINLOCK_INIT flags) !! i = Some c → c_pc c = Idle).
  { intros i c. cbn [SPINLOCK_INIT cpus]. rewrite list_lookup_fmap, fmap_Some. by intros (fl & _ & ->). }
  constructor; try done.
  - intros i c t Hi. by rewrite (Hc i c Hi).
  - intros i c Hi. by rewrite (Hc i c Hi).
  - cbn [SPINLOCK_INIT cpus]. unfold zlen in *. by rewrite length_fmap.
  - intros i c irq r n Hi. by rewrite (Hc i c Hi).
  - intros i c irq r n Hi. by rewrite (Hc i c Hi).
Qed.

Lemma lock_run_snoc s l o i : lock_run s (l ++ [(o, i)]) = spin_step o i (lock_run s l).
Proof. unfold lock_run. by rewrite foldl_app. Qed.

Lemma prompt_prefix s l l' : prompt s (l ++ l') → prompt s l.
Proof.
  intros Hp k. destruct (decide (k ≤ length l)%nat); [specialize (Hp k); by rewrite take_app_le in Hp|].
  specialize (Hp (length l)). rewrite take_app_length in Hp. by rewrite take_ge by lia.
Qed.
Lemma prompt_end s l : prompt s l → in_window (lock_run s l).
Proof. intros Hp. specialize (Hp (length l)). by rewrite take_ge in Hp. Qed.

Lemma reachable_abs flags sched :
  zlen flags < 4294967296 → prompt (SPINLOCK_INIT flags) sched →
  let s := lock_run (SPINLOCK_INIT flags) sched in
  ∃ q, queue_inv s q ∧ rtc fifo_step (mkFifo [] false) (mkFifo q (head_inside s q)).
Proof.
  intros Hf. induction sched as [|[o i] l IH] using rev_ind; intros Hp; cbv zeta.
  - exists []. split; [by apply init_queue|done].
  - pose proof (prompt_prefix _ _ _ Hp) as Hp'. destruct (IH Hp') as (q & Hq & Hs). rewrite lock_run_snoc.
    destruct (lock_sim _ q o i Hq (prompt_end _ _ Hp')) as (q' & Hq' & [E|E]); exists q'; (split; [done|]).
    + by rewrite <- E.
    + by eapply rtc_r.
Qed.

(** Counts only grow, by at most one per step. *)
Lemma step_counts s o i :
  0 ≤ next_ticket s → (∀ j c n, cpus s !! j = Some c → loaded (c_pc c) = Some n → 0 ≤ n) →
  let s' := spin_step o i s in
  0 ≤ next_ticket s' ≤ next_ticket s + 1 ∧ ∀ j c n, cpus s' !! j = Some c → loaded (c_pc c) = Some n → 0 ≤ n.
Proof.
  intros H0 Hl. cbv zeta. destruct (cpus s !! i) as [c|] eqn:Hi; [|unfold spin_step; rewrite Hi; split; [lia|done]].
  assert (Hset : ∀ s0 c0, cpus s0 = cpus s → 0 ≤ next_ticket s0 ≤ next_ticket s + 1 → (∀ n, loaded (c_pc c0) = Some n → 0 ≤ n) →
    0 ≤ next_ticket (set_cpu s0 i c0) ≤ next_ticket s + 1 ∧
    ∀ j d n, cpus (set_cpu s0 i c0) !! j = Some d → loaded (c_pc d) = Some n → 0 ≤ n).
  { intros s0 c0 E Hn Hc. split; [done|]. intros j d n. rewrite (lookup_set_cpu s0 i c) by by rewrite E. rewrite E.
    intros [[<- ->]|[_ Hj]]; eauto. }
  assert (Hown : ∀ n, loaded (c_pc c) = Some n → 0 ≤ n) by (intros n; by apply (Hl i c n)).
  unfold spin_step. rewrite Hi. destruct (c_pc c) as [|fl|irq t spin|t|irq t|fl|n| |irq r|irq r n|irq r n|irq] eqn:Hp; cbn [loaded] in Hown;
    try destruct irq; repeat case_if; try destruct o; try (split; [lia|done]); (apply Hset; [done|cbn; lia|]); cbn; intros m; try done;
    (intros [= <-] || intros _); (lia || by apply Hown).
Qed.

(** Every run of fewer than 2^32 steps is prompt. *)
Lemma short_prompt flags sched : zlen sched < 4294967296 → prompt (SPINLOCK_INIT flags) sched.
Proof.
  intros Hlen k. assert (H : let s := lock_run (SPINLOCK_INIT flags) (take k sched) in
    0 ≤ next_ticket s ≤ zlen (take k sched) ∧ ∀ j c n, cpus s !! j = Some c → loaded (c_pc c) = Some n → 0 ≤ n).
  { generalize (take k sched) as l. intros l. induction l as [|[o i] l [IH1 IH2]] using rev_ind; cbv zeta.
    - split; [done|]. intros j c n. cbn [lock_run foldl SPINLOCK_INIT cpus]. rewrite list_lookup_fmap, fmap_Some. by intros (fl & _ & ->).
    - rewrite lock_run_snoc. destruct (step_counts (lock_run (SPINLOCK_INIT flags) l) o i) as [H1 H2]; [lia|done|]. split; [|done].
      unfold zlen in *. rewrite length_app. cbn [length]. lia. }
  destruct H as [H1 H2]. intros i c n Hi Hn. specialize (H2 i c n Hi Hn). unfold zlen in *. rewrite length_take in H1. lia.
Qed.


(** C30: bounded waiting.  A CPU that has drawn ticket [t] waits for exactly
    [t - serving] releases, fewer than there are CPUs: its next check of the
    lock enters the critical section if that number is 0, and otherwise keeps it
    out: the check is counted, and the CPU halts at the first failed check after ten
    million counted ones.  (In runs that are [prompt], as for the queue.) *)
Theorem spinlock_bounded_wait flags sched o i c irq t spin :
  zlen flags < 4294967296 → prompt (SPINLOCK_INIT flags) sched →
  let s := lock_run (SPINLOCK_INIT flags) sched in
  cpus s !! i = Some c → c_pc c = Spin irq t spin →
  0 ≤ t - serving_ticket s < zlen (cpus s) ∧
  (c_pc <$> cpus (spin_step o i s) !! i) =
    Some (if t - serving_ticket s =? 0 then Held irq t
          else if SPIN_LIMIT <? spin + 1 then Halted t else Spin irq t (spin + 1)).
Proof.
  intros Hf Hr s Hi Hp. destruct (reachable_abs flags sched Hf Hr) as (q & Hq & _). fold s in Hq.
  destruct (qi_queued _ _ Hq i c t Hi) as (k & Hk & ->); [by rewrite Hp|].
  pose proof (queue_length _ _ Hq) as Hl. pose proof (lookup_lt_Some _ _ _ Hk) as Hkl. unfold zlen in Hl.
  pose proof (queue_card _ _ Hq) as Hcard.
  unfold zlen in Hcard. split; [unfold zlen; lia|].
  unfold spin_step. rewrite Hi, Hp. replace (serving_ticket s + Z.of_nat k - serving_ticket s) with (Z.of_nat k) by lia.
  destruct (Z.eqb_spec (u32 (serving_ticket s)) (u32 (serving_ticket s + Z.of_nat k))), (Z.eqb_spec (Z.of_nat k) 0);
    try zlia; cbn [set_cpu cpus]; repeat case_if; cbn [set_cpu cpus];
    by rewrite list_lookup_insert_eq by by eapply lookup_lt_Some.
Qed.

(** ** Interrupt flags *)

Lemma restore_cli rflags : restore rflags (cli rflags) = rflags.
Proof.
  unfold restore, cli, sti, IF_BIT. apply Z.bits_inj'. intros n Hn. destruct (Z.testbit rflags 9) eqn:E.
  - destruct (decide (n = 9)) as [->|]; [by rewrite Z.setbit_eq by lia|].
    rewrite Z.setbit_neq, Z.clearbit_neq by lia. done.
  - destruct (decide (n = 9)) as [->|]; [by rewrite Z.clearbit_eq by lia|]. by rewrite Z.clearbit_neq by lia.
Qed.

(** The RFLAGS value saved by a CPU that has disabled interrupts. *)
Definition saved (p : pc) : option Z :=
  match p with
  | AcqIrq fl | RelIrq fl => Some fl
  | Spin irq _ _ | Held irq _ | TryNext irq _ | TryServing irq _ _ | TryCas irq _ _ | TryFail irq => irq
  | _ => None
  end.

(** The flags of a CPU whose own value is [home]; a halted one is lost. *)
Definition flags_ok (home : Z) (c : cpu) : Prop :=
  match c_pc c with
  | Halted _ => True
  | p => match saved p with Some fl => fl = home ∧ c_rflags c = cli home | None => c_rflags c = home end
  end.

Lemma flags_step (home : list Z) s o i :
  (∀ j c, cpus s !! j = Some c → ∃ h, home !! j = Some h ∧ flags_ok h c) →
  ∀ j c, cpus (spin_step o i s) !! j = Some c → ∃ h, home !! j = Some h ∧ flags_ok h c.
Proof.
  intros Hall j c. destruct (cpus s !! i) as [c0|] eqn:Hi; [|unfold spin_step; rewrite Hi; apply Hall].
  destruct (Hall i c0 Hi) as (h & Hh & Hok).
  assert (Hset : ∀ s0 c1, cpus s0 = cpus s → flags_ok h c1 → cpus (set_cpu s0 i c1) !! j = Some c →
                   ∃ h, home !! j = Some h ∧ flags_ok h c).
  { intros s0 c1 E Hc1. rewrite (lookup_set_cpu s0 i c0) by by rewrite E. rewrite E.
    intros [[<- ->]|[_ Hj]]; eauto. }
  unfold spin_step. rewrite Hi. unfold flags_ok in Hok.
  destruct (c_pc c0) as [|fl|irq t spin|t|irq t|fl|n| |irq r|irq r n|irq r n|irq] eqn:Hp; cbn [saved] in Hok;
    try (destruct irq; cbn [saved] in Hok); repeat case_if; try (destruct o); try apply Hall;
    (apply Hset; [done|]); unfold flags_ok; simpl; destruct_and?; subst;
    try done; (by match goal with H : c_rflags _ = cli _ |- _ => rewrite H, restore_cli end).
Qed.

(** Interrupts are disabled while an interrupt-safe lock is held and the
    flags come back exactly.  Whatever the interleaving, a CPU outside the lock
    code has the RFLAGS it started with, and one inside a critical section
    entered with [spinlock_acquire_irqsave] or [spinlock_try_irqsave] has them
    saved, with interrupts off. *)
Theorem irqsave_restores flags sched i c :
  let s := lock_run (SPINLOCK_INIT flags) sched in
  cpus s !! i = Some c →
  (c_pc c = Idle → flags !! i = Some (c_rflags c)) ∧
  (∀ fl t, c_pc c = Held (Some fl) t → flags !! i = Some fl ∧ Z.testbit (c_rflags c) IF_BIT = false).
Proof.
  intros s Hi.
  assert (H : ∀ j c, cpus s !! j = Some c → ∃ h, flags !! j = Some h ∧ flags_ok h c).
  { unfold s. clear. induction sched as [|[o k] l IH] using rev_ind; [|rewrite lock_run_snoc; by apply flags_step].
    intros j d. cbn [lock_run foldl SPINLOCK_INIT cpus]. rewrite list_lookup_fmap, fmap_Some. intros (fl & Hfl & ->). by exists fl. }
  destruct (H i c Hi) as (h & Hh & Hok). unfold flags_ok in Hok. split.
  - intros E. rewrite E in Hok. simpl in Hok. congruence.
  - intros fl t E. rewrite E in Hok. simpl in Hok. destruct Hok as [-> ->]. split; [done|].
    unfold cli. by rewrite Z.clearbit_eq by (unfold IF_BIT; lia).
Qed.

(** ** A stalled [spinlock_try]

    CPU 0 loads the counters in [spinlock_try] and stalls; CPU 1 takes and releases
    the lock 2^32 - 1 times and takes it once more, which brings the counter back
    to the value CPU 0 compares with. *)

Definition round : list (op * nat) := [(Acquire, 1%nat); (Acquire, 1%nat); (Release, 1%nat)].

Lemma rounds_run c0 fl n k :
  lock_run (mkLock k k [c0; mkCpu Idle fl]) (concat (replicate n round)) = mkLock (k + Z.of_nat n) (k + Z.of_nat n) [c0; mkCpu Idle fl].
Proof.
  revert k. induction n as [|n IH]; intros k; [cbn; f_equal; lia|]. cbn [replicate concat]. unfold lock_run in *. rewrite foldl_app.
  replace (foldl _ _ round) with (mkLock (k + 1) (k + 1) [c0; mkCpu Idle fl]).
  - rewrite IH. f_equal; lia.
  - cbn. by rewrite Z.eqb_refl.
Qed.

(** Both CPUs are then in the critical section: without [prompt] mutual exclusion
    does not hold. *)
Theorem stalled_try_breaks :
  ∃ sched, let s := lock_run (SPINLOCK_INIT [0; 0]) sched in
  ∀ i, (i < 2)%nat → ∃ c, cpus s !! i = Some c ∧ inside (c_pc c) = true.
Proof.
  assert (Hn : ∃ n, Z.of_nat n = 4294967295) by (exists (Z.to_nat 4294967295); apply Z2Nat.id; lia). destruct Hn as [n Hn].
  exists ([(Try, 0%nat); (Try, 0%nat); (Try, 0%nat)] ++ concat (replicate n round) ++ [(Acquire, 1%nat); (Acquire, 1%nat); (Try, 0%nat)]).
  cbv zeta. unfold lock_run. rewrite !foldl_app. change (foldl _ (SPINLOCK_INIT [0; 0]) _) with (mkLock 0 0 [mkCpu (TryCas None 0 0) 0; mkCpu Idle 0]).
  fold (lock_run (mkLock 0 0 [mkCpu (TryCas None 0 0) 0; mkCpu Idle 0]) (concat (replicate n round))).
  rewrite rounds_run, Hn. intros [|[|i]] Hi; [vm_compute; by eexists..|lia].
Qed.

(** ** Two CPUs contend *)

Module SpinDemo.
Definition boot : lock := SPINLOCK_INIT [582; 518].     (* interrupts on, interrupts off *)
Definition contention : list (op * nat) :=
  [(AcquireIrqsave, 0%nat); (Acquire, 0%nat); (Acquire, 0%nat); (Acquire, 1%nat); (Acquire, 1%nat)].
Definition contended : lock := lock_run boot contention.
Lemma contention_prompt : prompt boot contention.
Proof. apply (short_prompt [582; 518]). done. Qed.


Lemma spinlock_bounded_wait_witness :
  0 ≤ 1 - serving_ticket contended < 2 ∧
  (c_pc <$> cpus (spin_step Acquire 1 contended) !! 1%nat) = Some (Spin None 1 2).
Proof.
  destruct (spinlock_bounded_wait [582; 518] contention Acquire 1 (mkCpu (Spin None 1 1) 518) None 1 1
    ltac:(reflexivity) contention_prompt ltac:(vm_compute; reflexivity) eq_refl) as [H1 H2].
  split; [exact H1|]. exact H2.
Defined.

Lemma irqsave_restores_witness :
  [582; 518] !! 0%nat = Some 582 ∧ Z.testbit (cli 582) IF_BIT = false.
Proof.
  destruct (irqsave_restores [582; 518] contention 0 (mkCpu (Held (Some 582) 0) (cli 582))
    ltac:(vm_compute; reflexivity)) as [_ H]. apply (H 582 0 eq_refl).
Defined.
End SpinDemo.
