(* ===== verification/Frames.v ===== *)
(** * The frame allocator as the rest of the memory system sees it

    [kernel/memory/pmm.h] as an interface: the operations the paging code calls
    and the laws it relies on.  [Vmm.v] and [Fault.v] are written against the
    class; the allocator of [Pmm.v] is an instance. *)

From S2P Require Import Prelude Pmm.

(** Page-aligned addresses. *)
Definition page_aligned (a : Z) : Prop := a mod PAGE_SIZE = 0.

(** The operations of [pmm.h]; [fa_hhdm] is the offset [phys_to_virt] adds. *)
Class FrameAlloc (F : Type) := {
  fa_hhdm : F → Z;
  fa_alloc : F → Z * F;
  fa_ref : F → Z → F;
  fa_unref : F → Z → F;
  fa_refcount : F → Z → Z;
}.

(** [fa_free s t]: the frame at physical address [t] is in the pool. *)
Class FrameAllocLaws (F : Type) `{FrameAlloc F} := {
  fa_ok : F → Prop;
  fa_free : F → Z → Prop;
  fa_hhdm_range s : fa_ok s →
    2 ^ 64 - 2 ^ 47 ≤ fa_hhdm s ≤ 2 ^ 64 - 2 ^ 33 ∧ page_aligned (fa_hhdm s);
  fa_free_frame s t : fa_ok s → fa_free s t →
    LOW_FRAMES * PAGE_SIZE ≤ t ∧ t + PAGE_SIZE ≤ 2 ^ 33 ∧ page_aligned t ∧ fa_refcount s t = 0;
  fa_alloc_spec s : fa_ok s →
    (fa_alloc s = (0, s) ∧ ∀ u, ¬ fa_free s u) ∨
    ∃ t s', fa_alloc s = (t, s') ∧ fa_free s t ∧ fa_ok s' ∧ fa_hhdm s' = fa_hhdm s ∧
      (∀ u, fa_free s' u ↔ fa_free s u ∧ u ≠ t) ∧
      (∀ u, page_aligned u → 0 ≤ u → fa_refcount s' u = if u =? t then 1 else fa_refcount s u);
  fa_ref_spec s t : fa_ok s → page_aligned t → LOW_FRAMES * PAGE_SIZE ≤ t → 0 < fa_refcount s t < REF_MAX →
    fa_ok (fa_ref s t) ∧ fa_hhdm (fa_ref s t) = fa_hhdm s ∧
    (∀ u, fa_free (fa_ref s t) u ↔ fa_free s u) ∧
    ∀ u, page_aligned u → 0 ≤ u →
      fa_refcount (fa_ref s t) u = if u =? t then fa_refcount s t + 1 else fa_refcount s u;
  fa_unref_spec s t : fa_ok s → page_aligned t → LOW_FRAMES * PAGE_SIZE ≤ t → 0 < fa_refcount s t →
    fa_ok (fa_unref s t) ∧ fa_hhdm (fa_unref s t) = fa_hhdm s ∧
    (∀ u, fa_free (fa_unref s t) u ↔ fa_free s u ∨ (u = t ∧ fa_refcount s t = 1)) ∧
    ∀ u, page_aligned u → 0 ≤ u →
      fa_refcount (fa_unref s t) u = if u =? t then fa_refcount s t - 1 else fa_refcount s u;
  fa_unref_page s t o : page_aligned t → 0 ≤ o < PAGE_SIZE → fa_unref s (t + o) = fa_unref s t;
}.

(** ** The frame bitmap allocator as an instance *)

#[export] Instance pmm_frames : FrameAlloc pmm := {|
  fa_hhdm := hhdm;
  fa_alloc := pmm_alloc_frame;
  fa_ref := pmm_ref_frame;
  fa_unref := pmm_unref_frame;
  fa_refcount := pmm_refcount;
|}.

Definition pmm_ok (s : pmm) : Prop :=
  pmm_wf s ∧ refcnt s ≠ None ∧
  2 ^ 64 - 2 ^ 47 ≤ hhdm s ≤ 2 ^ 64 - 2 ^ 33 ∧ page_aligned (hhdm s).

Definition pmm_free (s : pmm) (t : Z) : Prop := page_aligned t ∧ frame_free s (t / PAGE_SIZE).

Lemma aligned_div t : page_aligned t → t = t / PAGE_SIZE * PAGE_SIZE.
Proof. unfold page_aligned, PAGE_SIZE. zlia. Qed.

(** The reference count of an aligned address, by frame number. *)
Lemma refcount_Some s rc t :
  refcnt s = Some rc → page_aligned t → 0 ≤ t →
  pmm_refcount s t = if total_frames s <=? t / PAGE_SIZE then 0 else rc.[t / PAGE_SIZE].
Proof. intros E _ _. unfold pmm_refcount. by rewrite E. Qed.

Lemma refcount_set_refcnt s f v u :
  pmm_wf s → refcnt s ≠ None → 0 ≤ f < total_frames s → page_aligned u → 0 ≤ u →
  pmm_refcount (set_refcnt s f v) u = if u =? f * PAGE_SIZE then v else pmm_refcount s u.
Proof.
  intros Hw Hs Hf Hu Hu0. destruct (refcnt s) as [rc|] eqn:E; [|done].
  assert (E' : refcnt (set_refcnt s f v) = Some (rc.[f <- v])) by (simpl; by rewrite E).
  rewrite (refcount_Some _ _ _ E'), (refcount_Some _ _ _ E) by done. simpl.
  destruct (wf_rc _ Hw rc E) as [Hl _]. apply aligned_div in Hu.
  rewrite aget_aset by (unfold PAGE_SIZE in *; zlia).
  destruct (Z.leb_spec (total_frames s) (u / PAGE_SIZE)), (Z.eqb_spec u (f * PAGE_SIZE)),
    (Z.eqb_spec f (u / PAGE_SIZE)); unfold PAGE_SIZE in *; (done || zlia).
Qed.

Lemma refcount_release s f u : pmm_refcount (unref_release s f) u = pmm_refcount s u.
Proof. unfold pmm_refcount, unref_release. by destruct (bit_get _ _). Qed.

Lemma hhdm_ref s t : hhdm (pmm_ref_frame s t) = hhdm s.
Proof. unfold pmm_ref_frame. by repeat (case_match; try done). Qed.

Lemma hhdm_unref s t : hhdm (pmm_unref_frame s t) = hhdm s.
Proof. unfold pmm_unref_frame, unref_release. by repeat (case_match; simplify_eq/=; try done). Qed.

Lemma total_release s f : total_frames (unref_release s f) = total_frames s.
Proof. unfold unref_release. by destruct (bit_get _ _). Qed.

Lemma free_release s f u :
  pmm_wf s → 0 ≤ f < total_frames s → 0 ≤ u →
  frame_free (unref_release s f) u ↔ frame_free s u ∨ u = f.
Proof.
  intros Hw Hf Hu. unfold frame_free. rewrite total_release. unfold unref_release.
  destruct (bit_get (bitmap s) f) eqn:Hb; simpl.
  - destruct (decide (u < total_frames s)); [|split; [lia|intros [?|?]; lia]].
    pose proof (wf_total _ Hw). rewrite bit_get_clr by (apply Hw || lia).
    destruct (Z.eqb_spec f u); simpl; split; try naive_solver lia.
  - split; [tauto|]. intros [?| ->]; [done|]. split; [lia|done].
Qed.

Lemma pmm_alloc_laws s :
  pmm_ok s →
  (pmm_alloc_frame s = (0, s) ∧ ∀ u, ¬ pmm_free s u) ∨
  ∃ t s', pmm_alloc_frame s = (t, s') ∧ pmm_free s t ∧ pmm_ok s' ∧ hhdm s' = hhdm s ∧
    (∀ u, pmm_free s' u ↔ pmm_free s u ∧ u ≠ t) ∧
    (∀ u, page_aligned u → 0 ≤ u → pmm_refcount s' u = if u =? t then 1 else pmm_refcount s u).
Proof.
  intros (Hw & Hs & Hh). destruct (some_frame_free s) as [Hex|Hno].
  2:{ left. split; [by apply alloc_frame_None|]. intros u [_ Hu]. by apply (Hno _ Hu). }
  right. destruct (alloc_frame_Some s Hw Hex) as (f & Hf & E).
  destruct (refcnt s) as [rc|] eqn:Hrc; [|done]. pose proof Hf as [Hr Hb].
  exists (f * PAGE_SIZE), (take_frame s f (f + 1)).
  assert (Hdiv : f * PAGE_SIZE / PAGE_SIZE = f) by (apply Z.div_mul; pmm_consts; lia).
  assert (Hal : page_aligned (f * PAGE_SIZE)) by (unfold page_aligned; pmm_consts; zlia).
  split; [done|]. split; [split; [done|by rewrite Hdiv]|].
  split; [split_and!; [by apply take_frame_wf; [..|lia]|simpl; by rewrite Hrc|apply Hh|apply Hh|apply Hh]|].
  split; [done|]. split.
  - intros u. unfold pmm_free, frame_free. simpl. pose proof (wf_total _ Hw).
    split.
    + intros (Ha & Hu & Hbu). rewrite bit_get_set in Hbu by (apply Hw || lia).
      destruct (Z.eqb_spec f (u / PAGE_SIZE)); [done|]. simpl in Hbu.
      split; [done|]. intros ->. apply n. by rewrite Hdiv.
    + intros ((Ha & Hu & Hbu) & Hne). split; [done|]. split; [done|].
      rewrite bit_get_set by (apply Hw || lia). rewrite Hbu. apply aligned_div in Ha.
      destruct (Z.eqb_spec f (u / PAGE_SIZE)); [|done]. subst. done.
  - intros u Hu Hu0. apply aligned_div in Hu. rewrite Hu.
    rewrite (take_frame_refcount s f (f + 1) rc) by (done || pmm_consts; zlia).
    destruct (Z.eqb_spec f (u / PAGE_SIZE)), (Z.eqb_spec (u / PAGE_SIZE * PAGE_SIZE) (f * PAGE_SIZE));
      pmm_consts; (done || lia).
Qed.

(** What a referenced frame above the first MiB is to the allocator. *)
Lemma refcount_managed s t :
  pmm_ok s → page_aligned t → LOW_FRAMES * PAGE_SIZE ≤ t → 0 < pmm_refcount s t →
  managed (t / PAGE_SIZE) s ∧ t = t / PAGE_SIZE * PAGE_SIZE ∧ bit_get (bitmap s) (t / PAGE_SIZE) = true.
Proof.
  intros (Hw & Hs & Hh) Ha Hlo Hp. pose proof (aligned_div _ Ha) as Ht.
  destruct (refcnt s) as [rc|] eqn:E; [|done].
  rewrite (refcount_Some _ rc) in Hp by (done || pmm_consts; lia).
  destruct (Z.leb_spec (total_frames s) (t / PAGE_SIZE)) as [|Hlt]; [lia|].
  assert (Hm : managed (t / PAGE_SIZE) s).
  { split_and!; [done|by rewrite E|pmm_consts; zlia|done]. }
  split_and!; [done..|]. destruct (wf_rc _ Hw rc E) as [_ Hall].
  destruct (Hall (t / PAGE_SIZE)) as [_ Hz]; [split; [pmm_consts; zlia|done]|].
  destruct (bit_get _ _); [done|]. lia.
Qed.

Lemma pmm_ref_laws s t :
  pmm_ok s → page_aligned t → LOW_FRAMES * PAGE_SIZE ≤ t → 0 < pmm_refcount s t < REF_MAX →
  pmm_ok (pmm_ref_frame s t) ∧ hhdm (pmm_ref_frame s t) = hhdm s ∧
  (∀ u, pmm_free (pmm_ref_frame s t) u ↔ pmm_free s u) ∧
  ∀ u, page_aligned u → 0 ≤ u →
    pmm_refcount (pmm_ref_frame s t) u = if u =? t then pmm_refcount s t + 1 else pmm_refcount s u.
Proof.
  intros Hok Ha Hlo Hp. destruct (refcount_managed s t) as (Hm & Ht & Hb); [done..|lia|].
  destruct Hok as (Hw & Hs & Hh). pose proof Hm as (_ & _ & Hf). pose proof (wf_total _ Hw).
  assert (E : pmm_ref_frame s t = set_refcnt s (t / PAGE_SIZE) (pmm_refcount s t + 1)).
  { unfold pmm_ref_frame, pmm_refcount in *. destruct (refcnt s) as [rc|]; [|done].
    destruct (Z.leb_spec MAX_FRAMES (t / PAGE_SIZE)); [lia|].
    destruct (Z.leb_spec (total_frames s) (t / PAGE_SIZE)); [lia|].
    destruct (Z.ltb_spec (t / PAGE_SIZE) (total_frames s)); [|lia].
    destruct (Z.eqb_spec (rc.[t / PAGE_SIZE]) 0); [lia|].
    destruct (Z.ltb_spec (rc.[t / PAGE_SIZE]) REF_MAX); [|lia]. simpl.
    by rewrite u8_small by (pmm_consts; lia). }
  split_and!.
  - unfold pmm_ok. rewrite hhdm_ref. split; [|split; [by apply refcnt_ref_Some|done]].
    apply ref_frame_wf; [done|pmm_consts; lia].
  - apply hhdm_ref.
  - intros u. by rewrite E.
  - intros u Hu Hu0. rewrite E, refcount_set_refcnt by (done || pmm_consts; lia). by rewrite <- Ht.
Qed.

Lemma pmm_unref_laws s t :
  pmm_ok s → page_aligned t → LOW_FRAMES * PAGE_SIZE ≤ t → 0 < pmm_refcount s t →
  pmm_ok (pmm_unref_frame s t) ∧ hhdm (pmm_unref_frame s t) = hhdm s ∧
  (∀ u, pmm_free (pmm_unref_frame s t) u ↔ pmm_free s u ∨ (u = t ∧ pmm_refcount s t = 1)) ∧
  ∀ u, page_aligned u → 0 ≤ u →
    pmm_refcount (pmm_unref_frame s t) u = if u =? t then pmm_refcount s t - 1 else pmm_refcount s u.
Proof.
  intros Hok Ha Hlo Hp. destruct (refcount_managed s t) as (Hm & Ht & Hb); [done..|].
  destruct Hok as (Hw & Hs & Hh). pose proof Hm as (_ & _ & Hf). pose proof (wf_total _ Hw).
  destruct (managed_refcount _ s Hm) as [Hmax _]. rewrite <- Ht in Hmax.
  assert (E : pmm_unref_frame s t =
    if 1 <? pmm_refcount s t then set_refcnt s (t / PAGE_SIZE) (pmm_refcount s t - 1)
    else unref_release (set_refcnt s (t / PAGE_SIZE) 0) (t / PAGE_SIZE)).
  { unfold pmm_unref_frame, pmm_refcount in *. destruct (refcnt s) as [rc|]; [|done].
    destruct (Z.leb_spec MAX_FRAMES (t / PAGE_SIZE)); [lia|].
    destruct (Z.leb_spec (total_frames s) (t / PAGE_SIZE)); [lia|].
    destruct (Z.ltb_spec (t / PAGE_SIZE) (total_frames s)); [|lia].
    destruct (Z.ltb_spec 1 (rc.[t / PAGE_SIZE])).
    - by rewrite u8_small by (pmm_consts; lia).
    - destruct (Z.eqb_spec (rc.[t / PAGE_SIZE]) REF_MAX); [pmm_consts; lia|done]. }
  split_and!.
  - unfold pmm_ok. rewrite hhdm_unref. split; [|split; [by apply refcnt_unref_Some|done]].
    by apply unref_frame_wf.
  - apply hhdm_unref.
  - intros u. rewrite E. destruct (Z.ltb_spec 1 (pmm_refcount s t)).
    + unfold pmm_free. change (frame_free (set_refcnt s (t / PAGE_SIZE) (pmm_refcount s t - 1)) (u / PAGE_SIZE))
        with (frame_free s (u / PAGE_SIZE)). split; [tauto|]. intros [?|[_ ?]]; [done|lia].
    + unfold pmm_free. pose proof (aligned_div u) as Hu.
      destruct (decide (0 ≤ u / PAGE_SIZE)).
      * assert (HW : pmm_wf (unref_release (set_refcnt s (t / PAGE_SIZE) 0) (t / PAGE_SIZE))).
        { destruct (refcnt s) as [rc|] eqn:Er; [|done]. by apply (release_wf _ _ rc). }
        assert (Hfr : frame_free (unref_release (set_refcnt s (t / PAGE_SIZE) 0) (t / PAGE_SIZE)) (u / PAGE_SIZE)
                  ↔ frame_free s (u / PAGE_SIZE) ∨ u / PAGE_SIZE = t / PAGE_SIZE).
        { rewrite <- (free_release s (t / PAGE_SIZE) (u / PAGE_SIZE)) by (done || pmm_consts; lia).
          unfold frame_free. rewrite !total_release. unfold unref_release.
          cbn [set_refcnt bitmap]. by destruct (bit_get (bitmap s) (t / PAGE_SIZE)). }
        rewrite Hfr. split.
        -- intros [Hau [?|?]]; [left; done|right]. split; [|lia]. apply Hu in Hau. congruence.
        -- intros [[? ?]|[-> _]]; [split; [done|by left]|]. split; [done|by right].
      * split; [intros [_ [Hb' _]]; lia|]. intros [[_ [Hb' _]]|[-> _]]; [lia|]. pmm_consts; lia.
  - intros u Hu Hu0. rewrite E. destruct (Z.ltb_spec 1 (pmm_refcount s t)).
    + rewrite refcount_set_refcnt by (done || pmm_consts; lia). by rewrite <- Ht.
    + rewrite refcount_release, refcount_set_refcnt by (done || pmm_consts; lia). rewrite <- Ht.
      case_if; [lia|done].
Qed.

#[export] Instance pmm_frame_laws : FrameAllocLaws pmm.
Proof.
  refine (Build_FrameAllocLaws _ _ pmm_ok pmm_free _ _ pmm_alloc_laws pmm_ref_laws pmm_unref_laws _).
  - intros s (_ & _ & H). exact H.
  - intros s t (Hw & Hs & Hh) [Ha Hf]. pose proof (aligned_div _ Ha).
    pose proof (free_not_low s _ Hw Hf). pose proof (wf_total _ Hw). destruct Hf as [Hr Hb].
    split_and!; [pmm_consts; zlia|pmm_consts; zlia|done|].
    cbn [fa_refcount pmm_frames]. destruct (refcnt s) as [rc|] eqn:E; [|done].
    rewrite (refcount_Some _ rc) by (done || pmm_consts; zlia).
    destruct (Z.leb_spec (total_frames s) (t / PAGE_SIZE)); [done|].
    destruct (wf_rc _ Hw rc E) as [_ Hall]. by apply Hall.
  - intros s t o Ht Ho. cbn [fa_unref pmm_frames]. unfold pmm_unref_frame.
    replace ((t + o) / PAGE_SIZE) with (t / PAGE_SIZE); [done|]. unfold page_aligned, PAGE_SIZE in *. zlia.
Defined.
