(* ===== verification/Mem.v ===== *)
(** * Byte-addressed memory

    The memory the kernel's pointer code works on: one byte per address, with
    the little-endian loads and stores of the word sizes the sources use. *)

From S2P Require Import Prelude.

(** Memory: one byte per address. *)
Definition mem : Type := Z → Z.

Definition mem_bytes (m : mem) : Prop := ∀ a, 0 ≤ m a < 256.

(** [*p = v] for a byte. *)
Definition st8 (m : mem) (p v : Z) : mem := λ a, if a =? p then v else m a.

(** Little-endian load and store of [n] bytes; [n = 8] is a [uint64_t] access. *)
Fixpoint load_le (m : mem) (a : Z) (n : nat) : Z :=
  match n with O => 0 | S n => m a + 256 * load_le m (a + 1) n end.
Fixpoint store_le (m : mem) (a : Z) (n : nat) (v : Z) : mem :=
  match n with O => m | S n => store_le (st8 m a (v mod 256)) (a + 1) n (v / 256) end.
Definition ld64 (m : mem) (p : Z) : Z := load_le m p 8.
Definition st64 (m : mem) (p v : Z) : mem := store_le m p 8 v.

Lemma st8_spec m p v a : st8 m p v a = if (p <=? a) && (a <? p + 1) then v else m a.
Proof.
  unfold st8. destruct (Z.eqb_spec a p), (Z.leb_spec p a), (Z.ltb_spec a (p + 1)); (lia || done).
Qed.

Lemma load_le_byte m a n i :
  mem_bytes m → 0 ≤ i < Z.of_nat n → (load_le m a n / 256 ^ i) mod 256 = m (a + i).
Proof.
  intros Hm. revert a i. induction n as [|n IH]; intros a i Hi; [lia|]. cbn [load_le].
  specialize (Hm a) as Ha. destruct (decide (i = 0)) as [->|].
  - rewrite Z.pow_0_r, Z.div_1_r, Z.add_0_r.
    rewrite Z.mul_comm, Z_mod_plus_full. by apply Z.mod_small.
  - replace (256 ^ i) with (256 * 256 ^ (i - 1)) by (rewrite <- Z.pow_succ_r by lia; f_equal; lia).
    rewrite <- Z.div_div by lia.
    replace ((m a + 256 * load_le m (a + 1) n) / 256) with (load_le m (a + 1) n).
    + rewrite IH by lia. f_equal. lia.
    + rewrite Z.mul_comm, Z.div_add by lia. rewrite (Z.div_small (m a)) by lia. lia.
Qed.

Lemma store_le_spec m a n v x :
  store_le m a n v x =
    if (a <=? x) && (x <? a + Z.of_nat n) then (v / 256 ^ (x - a)) mod 256 else m x.
Proof.
  revert m a v. induction n as [|n IH]; intros m a v; cbn [store_le].
  - destruct (Z.leb_spec a x), (Z.ltb_spec x (a + Z.of_nat 0)); simpl; (lia || done).
  - rewrite IH, st8_spec.
    destruct (Z.leb_spec (a + 1) x), (Z.ltb_spec x (a + 1 + Z.of_nat n)),
      (Z.leb_spec a x), (Z.ltb_spec x (a + Z.of_nat (S n))), (Z.ltb_spec x (a + 1));
      simpl; try lia; try done.
    + rewrite Z.div_div by lia. do 2 f_equal.
      rewrite <- Z.pow_succ_r by lia. f_equal. lia.
    + replace (x - a) with 0 by lia. by rewrite Z.pow_0_r, Z.div_1_r.
Qed.

(** ** Loads after stores *)

Lemma load_le_ext m m' a n :
  (∀ i, 0 ≤ i < Z.of_nat n → m' (a + i) = m (a + i)) → load_le m' a n = load_le m a n.
Proof.
  revert a. induction n as [|n IH]; intros a H; simpl; [done|].
  specialize (H 0 ltac:(lia)) as H0. rewrite Z.add_0_r in H0. rewrite H0, IH; [done|].
  intros i Hi. specialize (H (1 + i) ltac:(lia)). by rewrite Z.add_assoc in H.
Qed.

Lemma load_le_range m a n : mem_bytes m → 0 ≤ load_le m a n < 256 ^ Z.of_nat n.
Proof.
  intros Hm. revert a. induction n as [|n IH]; intros a; [simpl; lia|].
  rewrite Nat2Z.inj_succ, Z.pow_succ_r by lia. cbn [load_le].
  specialize (Hm a). specialize (IH (a + 1)). lia.
Qed.

Lemma store_le_bytes m a n v : mem_bytes m → mem_bytes (store_le m a n v).
Proof.
  intros Hm x. rewrite store_le_spec. case_if; [|done]. apply Z.mod_pos_bound. lia.
Qed.

Lemma store_le_outside m a n v x :
  x < a ∨ a + Z.of_nat n ≤ x → store_le m a n v x = m x.
Proof.
  intros Hx. rewrite store_le_spec.
  destruct (Z.leb_spec a x), (Z.ltb_spec x (a + Z.of_nat n)); simpl; (lia || done).
Qed.

Lemma load_store_eq m a n v : load_le (store_le m a n v) a n = v mod 256 ^ Z.of_nat n.
Proof.
  revert m a v. induction n as [|n IH]; intros m a v; [simpl; by rewrite Z.mod_1_r|].
  cbn [load_le store_le]. rewrite IH, store_le_outside by lia.
  unfold st8. rewrite Z.eqb_refl. rewrite Nat2Z.inj_succ, Z.pow_succ_r by lia.
  rewrite Z.rem_mul_r by lia. done.
Qed.

Lemma load_store_ne m a b n k v :
  a + Z.of_nat n ≤ b ∨ b + Z.of_nat k ≤ a → load_le (store_le m a n v) b k = load_le m b k.
Proof. intros H. apply load_le_ext. intros i Hi. apply store_le_outside. lia. Qed.

Lemma st64_bytes m p v : mem_bytes m → mem_bytes (st64 m p v).
Proof. apply store_le_bytes. Qed.

Lemma ld64_range m p : mem_bytes m → 0 ≤ ld64 m p < 2 ^ 64.
Proof. intros Hm. apply (load_le_range m p 8 Hm). Qed.

Lemma ld64_st64_eq m p v : 0 ≤ v < 2 ^ 64 → ld64 (st64 m p v) p = v.
Proof.
  intros Hv. unfold ld64, st64. rewrite load_store_eq. by apply Z.mod_small.
Qed.

Lemma ld64_st64_ne m p q v : p + 8 ≤ q ∨ q + 8 ≤ p → ld64 (st64 m p v) q = ld64 m q.
Proof. apply (load_store_ne m p q 8 8). Qed.

Lemma st64_outside m p v x : x < p ∨ p + 8 ≤ x → st64 m p v x = m x.
Proof. apply (store_le_outside m p 8). Qed.

#[global] Arguments ld64 : simpl never.
#[global] Arguments st64 : simpl never.
