(* ===== verification/CString.v ===== *)
(** * The kernel's C string and memory routines

    Models [kernel/lib/string.c] over the byte memory of [Mem.v]; [memcpy], [memset], [memmove] and [memcmp] keep the word-at-a-time
    structure of the source (an alignment prologue, 64-byte and 8-byte loops, a
    byte epilogue), and are proved equal to their byte-wise specifications.
    The string functions read a NUL-terminated string through an accessor
    [i ↦ s[i]]. *)

From S2P Require Import Prelude Mem.

(** The loop state of the copy routines: memory, destination, source, bytes left. *)
Record cpy := mkCpy { c_mem : mem; c_d : Z; c_s : Z; c_n : Z }.

(** One byte, one word, or eight words forward. *)
Definition fwd1 (c : cpy) : cpy :=
  mkCpy (st8 (c_mem c) (c_d c) (c_mem c (c_s c))) (c_d c + 1) (c_s c + 1) (c_n c - 1).
Definition fwd8 (c : cpy) : cpy :=
  mkCpy (st64 (c_mem c) (c_d c) (ld64 (c_mem c) (c_s c))) (c_d c + 8) (c_s c + 8) (c_n c - 8).
Definition fwd64 (c : cpy) : cpy := Nat.iter 8 fwd8 c.

(** [while (cond(c)) c = body(c)], with a bound on the number of turns. *)
Fixpoint while {A} (fuel : nat) (cond : A → bool) (body : A → A) (c : A) : A :=
  match fuel with
  | O => c
  | S fuel => if cond c then while fuel cond body (body c) else c
  end.

(** The four loops of a forward copy; every turn takes at least one of the [n]
    bytes, so [n] turns are enough for each. *)
Definition copy_fwd (c : cpy) : cpy :=
  let k := Z.to_nat (c_n c) in
  let c := while k (λ c, negb (c_n c =? 0) && negb (Z.land (c_d c) 7 =? 0)) fwd1 c in
  let c := while k (λ c, 64 <=? c_n c) fwd64 c in
  let c := while k (λ c, 8 <=? c_n c) fwd8 c in
  while k (λ c, negb (c_n c =? 0)) fwd1 c.

Definition memcpy (m : mem) (dst src n : Z) : mem := c_mem (copy_fwd (mkCpy m dst src n)).

(** Backwards: the pointers are decremented first. *)
Definition bwd1 (c : cpy) : cpy :=
  mkCpy (st8 (c_mem c) (c_d c - 1) (c_mem c (c_s c - 1))) (c_d c - 1) (c_s c - 1) (c_n c - 1).
Definition bwd8 (c : cpy) : cpy :=
  mkCpy (st64 (c_mem c) (c_d c - 8) (ld64 (c_mem c) (c_s c - 8)))
        (c_d c - 8) (c_s c - 8) (c_n c - 8).
Definition bwd64 (c : cpy) : cpy := Nat.iter 8 bwd8 c.

Definition copy_bwd (c : cpy) : cpy :=
  let k := Z.to_nat (c_n c) in
  let c := while k (λ c, negb (c_n c =? 0) && negb (Z.land (c_d c) 7 =? 0)) bwd1 c in
  let c := while k (λ c, 64 <=? c_n c) bwd64 c in
  let c := while k (λ c, 8 <=? c_n c) bwd8 c in
  while k (λ c, negb (c_n c =? 0)) bwd1 c.

Definition memmove (m : mem) (dst src n : Z) : mem :=
  if (dst =? src) || (n =? 0) then m
  else if dst <? src then c_mem (copy_fwd (mkCpy m dst src n))
  else c_mem (copy_bwd (mkCpy m (dst + n) (src + n) n)).

(** [memset]: the byte replicated over a word. *)
Definition val64_of (val : Z) : Z :=
  let v := Z.lor val (u64 (Z.shiftl val 8)) in
  let v := Z.lor v (u64 (Z.shiftl v 16)) in
  Z.lor v (u64 (Z.shiftl v 32)).

Record fill := mkFill { f_mem : mem; f_d : Z; f_n : Z }.
Definition fill1 (val : Z) (c : fill) : fill :=
  mkFill (st8 (f_mem c) (f_d c) val) (f_d c + 1) (f_n c - 1).
Definition fill8 (val64 : Z) (c : fill) : fill :=
  mkFill (st64 (f_mem c) (f_d c) val64) (f_d c + 8) (f_n c - 8).
Definition fill64 (val64 : Z) (c : fill) : fill := Nat.iter 8 (fill8 val64) c.

Definition memset (m : mem) (dst ch n : Z) : mem :=
  let val := u8 ch in
  let k := Z.to_nat n in
  let c := while k (λ c, negb (f_n c =? 0) && negb (Z.land (f_d c) 7 =? 0)) (fill1 val)
             (mkFill m dst n) in
  let val64 := val64_of val in
  let c := while k (λ c, 64 <=? f_n c) (fill64 val64) c in
  let c := while k (λ c, 8 <=? f_n c) (fill8 val64) c in
  f_mem (while k (λ c, negb (f_n c =? 0)) (fill1 val) c).

(** [memcmp].  A loop ends early with [inl result] or runs out with the
    pointers and the count left. *)
Fixpoint cmp_bytes (fuel : nat) (stop : Z → Z → bool) (m : mem) (x y n : Z) :
    Z + (Z * Z * Z) :=
  match fuel with
  | O => inr (x, y, n)
  | S fuel =>
      if negb (n =? 0) && negb (stop x y) then
        if negb (m x =? m y) then inl (m x - m y)
        else cmp_bytes fuel stop m (x + 1) (y + 1) (n - 1)
      else inr (x, y, n)
  end.

(** The inner [for (i = 0; i < 8; i++)] of the word loop. *)
Definition cmp_word (m : mem) (x y : Z) : option Z :=
  (λ i, m (x + i) - m (y + i)) <$> find_up (λ i, negb (m (x + i) =? m (y + i))) 0 8.

Fixpoint cmp_words (fuel : nat) (m : mem) (x y n : Z) : Z + (Z * Z * Z) :=
  match fuel with
  | O => inr (x, y, n)
  | S fuel =>
      if 8 <=? n then
        match (if negb (ld64 m x =? ld64 m y) then cmp_word m x y else None) with
        | Some r => inl r
        | None => cmp_words fuel m (x + 8) (y + 8) (n - 8)
        end
      else inr (x, y, n)
  end.

Definition memcmp (m : mem) (a b n : Z) : Z :=
  let k := Z.to_nat n in
  match cmp_bytes k (λ x y, (Z.land x 7 =? 0) && (Z.land y 7 =? 0)) m a b n with
  | inl r => r
  | inr (x, y, n) =>
      match cmp_words k m x y n with
      | inl r => r
      | inr (x, y, n) =>
          match cmp_bytes k (λ _ _, false) m x y n with inl r => r | inr _ => 0 end
      end
  end.

(** ** Strings

    [str] is the accessor [i ↦ s[i]] of a [char] array (bytes as unsigned
    values).  The loops stop at a NUL; [fuel] bounds the scan. *)

Definition str : Type := Z → Z.

Fixpoint strlen_from (fuel : nat) (s : str) (n : Z) : Z :=
  match fuel with
  | O => n
  | S fuel => if s n =? 0 then n else strlen_from fuel s (n + 1)
  end.
Definition strlen (fuel : nat) (s : str) : Z := strlen_from fuel s 0.

Fixpoint strcmp_from (fuel : nat) (a b : str) (i : Z) : Z :=
  match fuel with
  | O => a i - b i
  | S fuel =>
      if negb (a i =? 0) && (a i =? b i) then strcmp_from fuel a b (i + 1) else a i - b i
  end.
Definition strcmp (fuel : nat) (a b : str) : Z := strcmp_from fuel a b 0.

Fixpoint strncmp_from (a b : str) (n : nat) (i : Z) : Z :=
  match n with
  | O => 0
  | S n => if negb (a i =? b i) || (a i =? 0) then a i - b i else strncmp_from a b n (i + 1)
  end.
Definition strncmp (a b : str) (n : Z) : Z := strncmp_from a b (Z.to_nat n) 0.

(** [strncpy] into an array: copy up to the NUL, then pad with zeros. *)
Fixpoint strncpy_from (dst : list Z) (src : str) (n : nat) (i : Z) (ended : bool) : list Z :=
  match n with
  | O => dst
  | S n =>
      if ended || (src i =? 0) then strncpy_from (dst.[i <- 0]) src n (i + 1) true
      else strncpy_from (dst.[i <- src i]) src n (i + 1) false
  end.
Definition strncpy (dst : list Z) (src : str) (n : Z) : list Z :=
  strncpy_from dst src (Z.to_nat n) 0 false.

(** [strcpy] into an array: up to and including the NUL. *)
Fixpoint strcpy_from (fuel : nat) (dst : list Z) (src : str) (i : Z) : list Z :=
  match fuel with
  | O => dst
  | S fuel =>
      let dst := dst.[i <- src i] in
      if src i =? 0 then dst else strcpy_from fuel dst src (i + 1)
  end.
Definition strcpy (fuel : nat) (dst : list Z) (src : str) : list Z := strcpy_from fuel dst src 0.

(** ** Words in memory *)

(** The byte-wise meaning of copying [n] bytes from [src] to [dst]. *)
Definition moved (m : mem) (dst src n : Z) : mem :=
  λ a, if (dst <=? a) && (a <? dst + n) then m (src + (a - dst)) else m a.

Lemma word_move m d s x :
  mem_bytes m → st64 m d (ld64 m s) x = moved m d s 8 x.
Proof.
  intros Hm. unfold st64, ld64, moved. rewrite store_le_spec. change (Z.of_nat 8) with 8.
  destruct (Z.leb_spec d x), (Z.ltb_spec x (d + 8)); cbn [andb]; try done.
  apply load_le_byte; [done|lia].
Qed.

(** ** Loops *)

(** A loop whose body keeps [P] and decreases the measure [μ] ends within
    [μ c] turns, with [P] and the exit condition. *)
Lemma while_spec {A} (P : A → Prop) (μ : A → Z) fuel cond body (c : A) :
  (∀ c, P c → cond c = true → P (body c) ∧ μ (body c) < μ c) →
  (∀ c, P c → 0 ≤ μ c) →
  P c → μ c ≤ Z.of_nat fuel →
  P (while fuel cond body c) ∧ cond (while fuel cond body c) = false ∧
  μ (while fuel cond body c) ≤ μ c
  ∨ P (while fuel cond body c) ∧ μ (while fuel cond body c) = 0.
Proof.
  intros Hb Hpos. revert c. induction fuel as [|fuel IH]; intros c HP Hf; simpl.
  - right. specialize (Hpos c HP). split; [done|lia].
  - destruct (cond c) eqn:Hc; [|left; split_and!; [done|done|lia]].
    destruct (Hb c HP Hc) as [HP' Hlt].
    destruct (IH (body c) HP' ltac:(lia)) as [(?&?&?)|?]; [left|by right].
    split_and!; [done|done|lia].
Qed.

Section forward.
Context (m0 : mem) (d0 s0 n0 : Z).
Hypothesis Hm0 : mem_bytes m0.
Hypothesis Hn0 : 0 ≤ n0.
(** The source is not overwritten before it is read. *)
Hypothesis Hsafe : d0 ≤ s0 ∨ s0 + n0 ≤ d0.

(** After [k] bytes: memory is [moved m0 d0 s0 k]. *)
Definition fwd_inv (c : cpy) : Prop :=
  ∃ k, 0 ≤ k ≤ n0 ∧ c_d c = d0 + k ∧ c_s c = s0 + k ∧ c_n c = n0 - k ∧
       ∀ a, c_mem c a = moved m0 d0 s0 k a.

Lemma fwd_inv_bytes c : fwd_inv c → mem_bytes (c_mem c).
Proof. intros (k & _ & _ & _ & _ & H) a. rewrite H. unfold moved. case_if; apply Hm0. Qed.

Lemma fwd_inv_step c m' w :
  fwd_inv c → 0 ≤ w ≤ c_n c → (∀ a, m' a = moved (c_mem c) (c_d c) (c_s c) w a) →
  fwd_inv (mkCpy m' (c_d c + w) (c_s c + w) (c_n c - w)).
Proof.
  intros (k & Hk & Hd & Hs & Hn & Hm) Hw Hm'. exists (k + w). simpl.
  split_and!; [lia..|]. intros a. rewrite Hm', Hd, Hs. unfold moved. rewrite !Hm. unfold moved.
  destruct (Z.leb_spec (d0 + k) a), (Z.ltb_spec a (d0 + k + w)), (Z.leb_spec d0 a),
    (Z.ltb_spec a (d0 + k)), (Z.ltb_spec a (d0 + (k + w))); simpl; try lia; try done.
  destruct (Z.leb_spec d0 (s0 + k + (a - (d0 + k)))),
    (Z.ltb_spec (s0 + k + (a - (d0 + k))) (d0 + k)); simpl; try lia; f_equal; lia.
Qed.

Lemma fwd1_inv c : fwd_inv c → 1 ≤ c_n c → fwd_inv (fwd1 c).
Proof.
  intros Hi Hn. apply fwd_inv_step; [done|lia|]. intros a. rewrite st8_spec. unfold moved.
  destruct (Z.leb_spec (c_d c) a), (Z.ltb_spec a (c_d c + 1)); simpl; try done. f_equal. lia.
Qed.

Lemma fwd8_inv c : fwd_inv c → 8 ≤ c_n c → fwd_inv (fwd8 c).
Proof.
  intros Hi Hn. apply fwd_inv_step; [done|lia|]. intros a. apply word_move. by apply fwd_inv_bytes.
Qed.

Lemma fwd64_inv c j :
  fwd_inv c → 8 * Z.of_nat j ≤ c_n c →
  fwd_inv (Nat.iter j fwd8 c) ∧ c_n (Nat.iter j fwd8 c) = c_n c - 8 * Z.of_nat j.
Proof.
  intros Hi. induction j as [|j IH]; intros Hn; [split; [done|simpl; lia]|].
  destruct IH as [IHi IHn]; [lia|]. simpl. split; [|lia]. apply fwd8_inv; [done|lia].
Qed.

Lemma fwd_inv_n c : fwd_inv c → 0 ≤ c_n c ≤ n0.
Proof. intros (k & Hk & _ & _ & Hn & _). lia. Qed.

Lemma copy_fwd_spec a : c_mem (copy_fwd (mkCpy m0 d0 s0 n0)) a = moved m0 d0 s0 n0 a.
Proof.
  unfold copy_fwd. cbn [c_n].
  assert (H0 : fwd_inv (mkCpy m0 d0 s0 n0)).
  { exists 0. simpl. split_and!; [lia..|]. intros x. unfold moved.
    destruct (Z.leb_spec d0 x), (Z.ltb_spec x (d0 + 0)); simpl; (lia || done). }
  assert (Hloop : ∀ cond body c, fwd_inv c →
    (∀ c, fwd_inv c → cond c = true → fwd_inv (body c) ∧ c_n (body c) < c_n c) →
    fwd_inv (while (Z.to_nat n0) cond body c) ∧
    (cond (while (Z.to_nat n0) cond body c) = false ∨ c_n (while (Z.to_nat n0) cond body c) = 0)).
  { intros cond body c Hc Hb. pose proof (fwd_inv_n c Hc).
    destruct (while_spec fwd_inv c_n (Z.to_nat n0) cond body c) as [(?&?&?)|[??]];
      [done|intros; by apply fwd_inv_n|done|lia|by auto..]. }
  match goal with |- context [while _ _ fwd1 (mkCpy m0 d0 s0 n0)] =>
    destruct (Hloop (λ c, negb (c_n c =? 0) && negb (Z.land (c_d c) 7 =? 0)) fwd1 _ H0) as [H1 _] end.
  { intros c Hc Ht. bools. pose proof (fwd_inv_n c Hc). simpl. split; [apply fwd1_inv; [done|]|]; lia. }
  destruct (Hloop (λ c, 64 <=? c_n c) fwd64 _ H1) as [H2 _].
  { intros c Hc Ht. bools. destruct (fwd64_inv c 8 Hc ltac:(lia)) as [? E].
    split; [done|]. unfold fwd64. lia. }
  destruct (Hloop (λ c, 8 <=? c_n c) fwd8 _ H2) as [H3 _].
  { intros c Hc Ht. bools. split; [by apply fwd8_inv|]. simpl. lia. }
  destruct (Hloop (λ c, negb (c_n c =? 0)) fwd1 _ H3) as [H4 Hend].
  { intros c Hc Ht. bools. pose proof (fwd_inv_n c Hc). simpl. split; [apply fwd1_inv; [done|]|]; lia. }
  destruct H4 as (k & Hk & _ & _ & Hn & ->).
  assert (k = n0) as ->; [|done]. destruct Hend; bools; lia.
Qed.
End forward.

Section backward.
Context (m0 : mem) (d0 s0 n0 : Z).
Hypothesis Hm0 : mem_bytes m0.
Hypothesis Hn0 : 0 ≤ n0.
Hypothesis Hsafe : s0 ≤ d0.

(** After the last [k] bytes: memory is [moved] on the tail of the ranges. *)
Definition bwd_inv (c : cpy) : Prop :=
  ∃ k, 0 ≤ k ≤ n0 ∧ c_d c = d0 + (n0 - k) ∧ c_s c = s0 + (n0 - k) ∧ c_n c = n0 - k ∧
       ∀ a, c_mem c a = moved m0 (d0 + (n0 - k)) (s0 + (n0 - k)) k a.

Lemma bwd_inv_bytes c : bwd_inv c → mem_bytes (c_mem c).
Proof. intros (k & _ & _ & _ & _ & H) a. rewrite H. unfold moved. case_if; apply Hm0. Qed.

Lemma bwd_inv_step c m' w :
  bwd_inv c → 0 ≤ w ≤ c_n c → (∀ a, m' a = moved (c_mem c) (c_d c - w) (c_s c - w) w a) →
  bwd_inv (mkCpy m' (c_d c - w) (c_s c - w) (c_n c - w)).
Proof.
  intros (k & Hk & Hd & Hs & Hn & Hm) Hw Hm'. exists (k + w). simpl.
  split_and!; [lia..|]. intros a. rewrite Hm', Hd, Hs. unfold moved. rewrite !Hm. unfold moved.
  repeat match goal with
  | |- context [?x <=? ?y] => destruct (Z.leb_spec x y)
  | |- context [?x <? ?y] => destruct (Z.ltb_spec x y)
  end; simpl; try lia; try done; f_equal; lia.
Qed.

Lemma bwd1_inv c : bwd_inv c → 1 ≤ c_n c → bwd_inv (bwd1 c).
Proof.
  intros Hi Hn. apply bwd_inv_step; [done|lia|]. intros a. rewrite st8_spec. unfold moved.
  destruct (Z.leb_spec (c_d c - 1) a), (Z.ltb_spec a (c_d c - 1 + 1)); simpl; try done. f_equal. lia.
Qed.

Lemma bwd8_inv c : bwd_inv c → 8 ≤ c_n c → bwd_inv (bwd8 c).
Proof.
  intros Hi Hn. apply bwd_inv_step; [done|lia|]. intros a. apply word_move. by apply bwd_inv_bytes.
Qed.

Lemma bwd64_inv c j :
  bwd_inv c → 8 * Z.of_nat j ≤ c_n c →
  bwd_inv (Nat.iter j bwd8 c) ∧ c_n (Nat.iter j bwd8 c) = c_n c - 8 * Z.of_nat j.
Proof.
  intros Hi. induction j as [|j IH]; intros Hn; [split; [done|simpl; lia]|].
  destruct IH as [IHi IHn]; [lia|]. simpl. split; [|lia]. apply bwd8_inv; [done|lia].
Qed.

Lemma bwd_inv_n c : bwd_inv c → 0 ≤ c_n c ≤ n0.
Proof. intros (k & Hk & _ & _ & Hn & _). lia. Qed.

Lemma copy_bwd_spec a :
  c_mem (copy_bwd (mkCpy m0 (d0 + n0) (s0 + n0) n0)) a = moved m0 d0 s0 n0 a.
Proof.
  unfold copy_bwd. cbn [c_n].
  assert (H0 : bwd_inv (mkCpy m0 (d0 + n0) (s0 + n0) n0)).
  { exists 0. simpl. split_and!; [lia..|]. intros x. unfold moved.
    destruct (Z.leb_spec (d0 + (n0 - 0)) x), (Z.ltb_spec x (d0 + (n0 - 0) + 0)); simpl; (lia || done). }
  assert (Hloop : ∀ cond body c, bwd_inv c →
    (∀ c, bwd_inv c → cond c = true → bwd_inv (body c) ∧ c_n (body c) < c_n c) →
    bwd_inv (while (Z.to_nat n0) cond body c) ∧
    (cond (while (Z.to_nat n0) cond body c) = false ∨ c_n (while (Z.to_nat n0) cond body c) = 0)).
  { intros cond body c Hc Hb. pose proof (bwd_inv_n c Hc).
    destruct (while_spec bwd_inv c_n (Z.to_nat n0) cond body c) as [(?&?&?)|[??]];
      [done|intros; by apply bwd_inv_n|done|lia|by auto..]. }
  destruct (Hloop (λ c, negb (c_n c =? 0) && negb (Z.land (c_d c) 7 =? 0)) bwd1 _ H0) as [H1 _].
  { intros c Hc Ht. bools. pose proof (bwd_inv_n c Hc). simpl. split; [apply bwd1_inv; [done|]|]; lia. }
  destruct (Hloop (λ c, 64 <=? c_n c) bwd64 _ H1) as [H2 _].
  { intros c Hc Ht. bools. destruct (bwd64_inv c 8 Hc ltac:(lia)) as [? E].
    split; [done|]. unfold bwd64. lia. }
  destruct (Hloop (λ c, 8 <=? c_n c) bwd8 _ H2) as [H3 _].
  { intros c Hc Ht. bools. split; [by apply bwd8_inv|]. simpl. lia. }
  destruct (Hloop (λ c, negb (c_n c =? 0)) bwd1 _ H3) as [H4 Hend].
  { intros c Hc Ht. bools. pose proof (bwd_inv_n c Hc). simpl. split; [apply bwd1_inv; [done|]|]; lia. }
  destruct H4 as (k & Hk & _ & _ & Hn & ->).
  assert (k = n0) as ->; [destruct Hend; bools; lia|].
  unfold moved. rewrite Z.sub_diag, !Z.add_0_r. done.
Qed.
End backward.

(** ** memset *)

(** The byte-wise meaning of filling [n] bytes at [dst]. *)
Definition filled (m : mem) (dst v n : Z) : mem :=
  λ a, if (dst <=? a) && (a <? dst + n) then v else m a.

Lemma val64_of_byte v i : 0 ≤ v < 256 → 0 ≤ i < 8 → (val64_of v / 256 ^ i) mod 256 = v.
Proof.
  intros Hv Hi.
  assert (H : forallb (λ v, forallb (λ i,
      (val64_of (Z.of_nat v) / 256 ^ Z.of_nat i) mod 256 =? Z.of_nat v) (seq 0 8)) (seq 0 256) = true)
    by (vm_compute; reflexivity).
  rewrite forallb_forall in H. specialize (H (Z.to_nat v)).
  rewrite forallb_forall in H. specialize (H ltac:(apply in_seq; lia) (Z.to_nat i)).
  rewrite !Z2Nat.id in H by lia. apply Z.eqb_eq, H, in_seq. lia.
Qed.

Section filling.
Context (m0 : mem) (d0 v n0 : Z).
Hypothesis Hv : 0 ≤ v < 256.
Hypothesis Hn0 : 0 ≤ n0.

Definition fill_inv (c : fill) : Prop :=
  ∃ k, 0 ≤ k ≤ n0 ∧ f_d c = d0 + k ∧ f_n c = n0 - k ∧ ∀ a, f_mem c a = filled m0 d0 v k a.

Lemma fill_inv_step c m' w :
  fill_inv c → 0 ≤ w ≤ f_n c → (∀ a, m' a = filled (f_mem c) (f_d c) v w a) →
  fill_inv (mkFill m' (f_d c + w) (f_n c - w)).
Proof.
  intros (k & Hk & Hd & Hn & Hm) Hw Hm'. exists (k + w). simpl.
  split_and!; [lia..|]. intros a. rewrite Hm', Hd. unfold filled. rewrite !Hm. unfold filled.
  destruct (Z.leb_spec (d0 + k) a), (Z.ltb_spec a (d0 + k + w)), (Z.leb_spec d0 a),
    (Z.ltb_spec a (d0 + k)), (Z.ltb_spec a (d0 + (k + w))); simpl; (lia || done).
Qed.

Lemma fill1_inv c : fill_inv c → 1 ≤ f_n c → fill_inv (fill1 v c).
Proof. intros Hi Hn. apply fill_inv_step; [done|lia|]. intros a. apply st8_spec. Qed.

Lemma fill8_inv c : fill_inv c → 8 ≤ f_n c → fill_inv (fill8 (val64_of v) c).
Proof.
  intros Hi Hn. apply fill_inv_step; [done|lia|]. intros a. unfold st64, filled.
  rewrite store_le_spec. change (Z.of_nat 8) with 8.
  destruct (Z.leb_spec (f_d c) a), (Z.ltb_spec a (f_d c + 8)); cbn [andb]; try done.
  apply val64_of_byte; lia.
Qed.

Lemma fill64_inv c j :
  fill_inv c → 8 * Z.of_nat j ≤ f_n c →
  fill_inv (Nat.iter j (fill8 (val64_of v)) c) ∧
  f_n (Nat.iter j (fill8 (val64_of v)) c) = f_n c - 8 * Z.of_nat j.
Proof.
  intros Hi. induction j as [|j IH]; intros Hn; [split; [done|simpl; lia]|].
  destruct IH as [IHi IHn]; [lia|]. simpl. split; [|lia]. apply fill8_inv; [done|lia].
Qed.

Lemma fill_inv_n c : fill_inv c → 0 ≤ f_n c ≤ n0.
Proof. intros (k & Hk & _ & Hn & _). lia. Qed.

Lemma fill_loop cond body c :
  fill_inv c →
  (∀ c, fill_inv c → cond c = true → fill_inv (body c) ∧ f_n (body c) < f_n c) →
  fill_inv (while (Z.to_nat n0) cond body c) ∧
  (cond (while (Z.to_nat n0) cond body c) = false ∨ f_n (while (Z.to_nat n0) cond body c) = 0).
Proof.
  intros Hc Hb. pose proof (fill_inv_n c Hc).
  destruct (while_spec fill_inv f_n (Z.to_nat n0) cond body c) as [(?&?&?)|[??]];
    [done|intros; by apply fill_inv_n|done|lia|by auto..].
Qed.
End filling.

Lemma memset_filled m dst c n a : 0 ≤ n → memset m dst c n a = filled m dst (u8 c) n a.
Proof.
  intros Hn. unfold memset. set (v := u8 c). assert (Hv : 0 ≤ v < 256) by apply u8_range.
  clearbody v.
  assert (H0 : fill_inv m dst v n (mkFill m dst n)).
  { exists 0. simpl. split_and!; [lia..|]. intros x. unfold filled.
    destruct (Z.leb_spec dst x), (Z.ltb_spec x (dst + 0)); simpl; (lia || done). }
  destruct (fill_loop m dst v n (λ c, negb (f_n c =? 0) && negb (Z.land (f_d c) 7 =? 0))
    (fill1 v) _ H0) as [H1 _].
  { intros x Hc Ht. bools. pose proof (fill_inv_n m dst v n x Hc). simpl.
    split; [apply fill1_inv; [done|]|]; lia. }
  destruct (fill_loop m dst v n (λ c, 64 <=? f_n c) (fill64 (val64_of v)) _ H1) as [H2 _].
  { intros x Hc Ht. bools. destruct (fill64_inv m dst v n Hv x 8 Hc ltac:(lia)) as [? E].
    split; [done|]. unfold fill64. lia. }
  destruct (fill_loop m dst v n (λ c, 8 <=? f_n c) (fill8 (val64_of v)) _ H2) as [H3 _].
  { intros x Hc Ht. bools. split; [by apply fill8_inv|]. simpl. lia. }
  destruct (fill_loop m dst v n (λ c, negb (f_n c =? 0)) (fill1 v) _ H3) as [H4 Hend].
  { intros x Hc Ht. bools. pose proof (fill_inv_n m dst v n x Hc). simpl.
    split; [apply fill1_inv; [done|]|]; lia. }
  destruct H4 as (k & Hk & _ & Hk2 & ->).
  assert (k = n) as ->; [|done]. destruct Hend; bools; lia.
Qed.

(** ** memcmp *)

(** The byte-by-byte comparison. *)
Fixpoint bytediff (m : mem) (x y : Z) (n : nat) : Z :=
  match n with
  | O => 0
  | S n => if m x =? m y then bytediff m (x + 1) (y + 1) n else m x - m y
  end.

Lemma bytediff_skip m x y k n :
  (∀ i, 0 ≤ i < Z.of_nat k → m (x + i) = m (y + i)) →
  bytediff m x y (k + n) = bytediff m (x + Z.of_nat k) (y + Z.of_nat k) n.
Proof.
  revert x y. induction k as [|k IH]; intros x y H; [by rewrite !Z.add_0_r|]. simpl.
  specialize (H 0 ltac:(lia)) as H0. rewrite !Z.add_0_r in H0. rewrite H0, Z.eqb_refl, IH.
  - f_equal; lia.
  - intros i Hi. specialize (H (1 + i) ltac:(lia)). by rewrite !Z.add_assoc in H.
Qed.

Lemma bytediff_first m x y n i :
  0 ≤ i < Z.of_nat n → m (x + i) ≠ m (y + i) → (∀ j, 0 ≤ j < i → m (x + j) = m (y + j)) →
  bytediff m x y n = m (x + i) - m (y + i).
Proof.
  intros Hi Hd He. replace n with (Z.to_nat i + S (n - Z.to_nat i - 1))%nat by lia.
  rewrite bytediff_skip by (intros; apply He; lia). rewrite Z2Nat.id by lia. simpl.
  by rewrite (proj2 (Z.eqb_neq _ _) Hd).
Qed.

Lemma cmp_bytes_spec stop m fuel x y n :
  0 ≤ n ≤ Z.of_nat fuel →
  match cmp_bytes fuel stop m x y n with
  | inl r => r = bytediff m x y (Z.to_nat n)
  | inr (x', y', n') => 0 ≤ n' ≤ n ∧ bytediff m x y (Z.to_nat n) = bytediff m x' y' (Z.to_nat n') ∧
                        (n' = 0 ∨ stop x' y' = true)
  end.
Proof.
  revert x y n. induction fuel as [|fuel IH]; intros x y n Hn; simpl.
  { split_and!; [lia..|done|lia]. }
  destruct (Z.eqb_spec n 0) as [->|]; simpl; [split_and!; [lia..|done|by left]|].
  destruct (stop x y) eqn:Hs; simpl; [split_and!; [lia..|done|by right]|].
  replace (Z.to_nat n) with (S (Z.to_nat (n - 1))) by lia. simpl.
  destruct (Z.eqb_spec (m x) (m y)); simpl; [|done].
  specialize (IH (x + 1) (y + 1) (n - 1) ltac:(lia)).
  destruct (cmp_bytes _ _ _ _ _ _) as [|[[??]?]]; [done|]. destruct IH as (?&?&?).
  split_and!; [lia..|done|done].
Qed.

Lemma cmp_word_spec m x y n :
  mem_bytes m → 8 ≤ n →
  match (if negb (ld64 m x =? ld64 m y) then cmp_word m x y else None) with
  | Some r => bytediff m x y (Z.to_nat n) = r
  | None => bytediff m x y (Z.to_nat n) = bytediff m (x + 8) (y + 8) (Z.to_nat (n - 8))
  end.
Proof.
  intros Hm Hn.
  assert (Hskip : (∀ i, 0 ≤ i < 8 → m (x + i) = m (y + i)) →
    bytediff m x y (Z.to_nat n) = bytediff m (x + 8) (y + 8) (Z.to_nat (n - 8))).
  { intros H. replace (Z.to_nat n) with (8 + Z.to_nat (n - 8))%nat by lia. by apply bytediff_skip. }
  destruct (Z.eqb_spec (ld64 m x) (ld64 m y)) as [E|_]; cbn [negb].
  - apply Hskip. intros i Hi. unfold ld64 in E.
    rewrite <- (load_le_byte m x 8 i Hm), <- (load_le_byte m y 8 i Hm) by lia. by rewrite E.
  - unfold cmp_word. destruct (find_up _ 0 8) as [i|] eqn:Hf; simpl.
    + apply find_up_Some in Hf as (Hi & Hd & Hmin). bools. apply bytediff_first; [lia|done|].
      intros j Hj. specialize (Hmin j Hj). by bools.
    + rewrite find_up_None in Hf. apply Hskip. intros i Hi. specialize (Hf i Hi). by bools.
Qed.

Lemma cmp_words_spec m fuel x y n :
  mem_bytes m → 0 ≤ n ≤ Z.of_nat fuel →
  match cmp_words fuel m x y n with
  | inl r => r = bytediff m x y (Z.to_nat n)
  | inr (x', y', n') => 0 ≤ n' ≤ n ∧ bytediff m x y (Z.to_nat n) = bytediff m x' y' (Z.to_nat n')
  end.
Proof.
  intros Hm. revert x y n. induction fuel as [|fuel IH]; intros x y n Hn; simpl.
  { split_and!; [lia..|done]. }
  destruct (Z.leb_spec 8 n); [|split_and!; [lia..|done]].
  pose proof (cmp_word_spec m x y n Hm ltac:(lia)) as Hw.
  destruct (if negb _ then _ else _); [done|].
  specialize (IH (x + 8) (y + 8) (n - 8) ltac:(lia)).
  destruct (cmp_words _ _ _ _ _) as [|[[??]?]]; [congruence|].
  destruct IH as [??]. split_and!; [lia..|congruence].
Qed.

Lemma memcmp_bytediff m a b n :
  mem_bytes m → 0 ≤ n → memcmp m a b n = bytediff m a b (Z.to_nat n).
Proof.
  intros Hm Hn. unfold memcmp.
  set (stop := λ x y, _ && _). clearbody stop.
  pose proof (cmp_bytes_spec stop m (Z.to_nat n) a b n ltac:(lia)) as H1.
  destruct (cmp_bytes _ _ _ _ _ _) as [|[[x1 y1] n1]]; [done|]. destruct H1 as (Hn1 & -> & _).
  pose proof (cmp_words_spec m (Z.to_nat n) x1 y1 n1 Hm ltac:(lia)) as H2.
  destruct (cmp_words _ _ _ _ _) as [|[[x2 y2] n2]]; [done|]. destruct H2 as (Hn2 & ->).
  pose proof (cmp_bytes_spec (λ _ _, false) m (Z.to_nat n) x2 y2 n2 ltac:(lia)) as H3.
  destruct (cmp_bytes _ _ _ _ _ _) as [|[[x3 y3] n3]]; [done|]. destruct H3 as (Hn3 & -> & [->|?]); [done|done].
Qed.

(** ** Strings *)

(** [s] is the NUL-terminated string with the non-zero bytes [l]. *)
Definition is_cstr (s : str) (l : list Z) : Prop :=
  (∀ i, 0 ≤ i < zlen l → s i = l.[i] ∧ s i ≠ 0) ∧ s (zlen l) = 0.

Lemma strlen_from_spec s l fuel n :
  is_cstr s l → 0 ≤ n ≤ zlen l → zlen l - n < Z.of_nat fuel → strlen_from fuel s n = zlen l.
Proof.
  intros [Hs H0]. revert n. induction fuel as [|fuel IH]; intros n Hn Hf; simpl; [lia|].
  destruct (Z.eqb_spec (s n) 0) as [Hz|Hz].
  - destruct (decide (n = zlen l)); [done|]. by destruct (Hs n ltac:(lia)).
  - apply IH; [|lia]. destruct (decide (n = zlen l)) as [->|]; [done|lia].
Qed.

(** Two strings read alike up to the first index where they differ or end. *)
Lemma cstr_prefix a b la lb i :
  is_cstr a la → is_cstr b lb → 0 ≤ i ≤ zlen la →
  (∀ j, 0 ≤ j < i → a j = b j) → i ≤ zlen lb.
Proof.
  intros [Ha _] [_ Hb0] Hi He. destruct (Z.le_gt_cases i (zlen lb)); [done|].
  destruct (Ha (zlen lb) ltac:(pose proof (zlen_nonneg lb); lia)) as [_ Hne].
  rewrite (He (zlen lb)) in Hne; [done|pose proof (zlen_nonneg lb); lia].
Qed.

Lemma cstr_eq a b la lb :
  is_cstr a la → is_cstr b lb → (∀ j, 0 ≤ j ≤ zlen la → a j = b j) → la = lb.
Proof.
  intros Ha Hb He. pose proof (zlen_nonneg la). pose proof (zlen_nonneg lb).
  assert (zlen la ≤ zlen lb) by (apply (cstr_prefix a b la lb); [done|done|lia|intros; apply He; lia]).
  assert (zlen lb = zlen la) as Hl.
  { destruct (Z.eq_dec (zlen lb) (zlen la)); [done|].
    destruct Ha as [_ Ha0], Hb as [Hb _]. destruct (Hb (zlen la) ltac:(lia)) as [_ []].
    rewrite <- He by lia. done. }
  apply aget_ext; [done|]. intros i Hi. destruct Ha as [Ha _], Hb as [Hb _].
  destruct (Ha i Hi) as [<- _], (Hb i ltac:(lia)) as [<- _]. apply He. lia.
Qed.

(** The result of [strncmp]: zero when nothing differs in the first [n]
    characters, otherwise the difference at the first place that decides. *)
Lemma strncmp_from_spec a b n i :
  (strncmp_from a b n i = 0 ∧
     (∀ j, i ≤ j < i + Z.of_nat n → a j = b j ∨ ∃ k, i ≤ k < j ∧ a k = 0)) ∨
  (∃ k, i ≤ k < i + Z.of_nat n ∧ a k ≠ b k ∧ strncmp_from a b n i = a k - b k ∧
        ∀ j, i ≤ j < k → a j = b j ∧ a j ≠ 0).
Proof.
  revert i. induction n as [|n IH]; intros i; simpl; [left; split; [done|lia]|].
  destruct (Z.eqb_spec (a i) (b i)) as [E|E]; simpl.
  - destruct (Z.eqb_spec (a i) 0) as [E0|E0]; simpl.
    + left. split; [lia|]. intros j Hj. destruct (decide (j = i)) as [->|]; [by left|].
      right. exists i. split; [lia|done].
    + destruct (IH (i + 1)) as [[-> H]|(k & Hk & Hne & -> & Hlt)].
      * left. split; [done|]. intros j Hj. destruct (decide (j = i)) as [->|]; [by left|].
        destruct (H j ltac:(lia)) as [?|(k & ? & ?)]; [by left|]. right. exists k. split; [lia|done].
      * right. exists k. split_and!; [lia..|done|done|]. intros j Hj.
        destruct (decide (j = i)) as [->|]; [done|]. apply Hlt. lia.
  - right. exists i. split_and!; [lia..|done|done|lia].
Qed.

Lemma cstr_lookup s l i : is_cstr s l → 0 ≤ i < zlen l → l !! Z.to_nat i = Some (s i).
Proof.
  intros [Hs _] Hi. destruct (Hs i Hi) as [-> _]. unfold aget.
  apply list_lookup_lookup_total_lt. unfold zlen in Hi. lia.
Qed.

Lemma cstr_nul s l i :
  is_cstr s l → 0 ≤ i → (∀ j, 0 ≤ j < i → s j ≠ 0) → i ≤ zlen l.
Proof.
  intros [_ H0] Hi Hj. destruct (Z.le_gt_cases i (zlen l)); [done|].
  destruct (Hj (zlen l)); [pose proof (zlen_nonneg l); lia|done].
Qed.

Lemma strncmp_zero a b la lb n :
  is_cstr a la → is_cstr b lb →
  strncmp_from a b n 0 = 0 ↔ take n la = take n lb.
Proof.
  intros Ha Hb. pose proof (zlen_nonneg la). pose proof (zlen_nonneg lb).
  destruct (strncmp_from_spec a b n 0) as [[-> HH]|(k & Hk & Hne & -> & Hlt)]; (split; [intros E|intros E]); try done.
  - assert (Heq : ∀ j, 0 ≤ j ≤ zlen la → j < Z.of_nat n → a j = b j).
    { intros j Hj Hjn. destruct (HH j) as [?|(k & Hk & Hz)]; [lia|done|].
      destruct Ha as [Ha _]. by destruct (Ha k ltac:(lia)). }
    apply list_eq. intros i. rewrite !lookup_take. case_match; [|done].
    rewrite <- (Nat2Z.id i). destruct (Z.lt_ge_cases (Z.of_nat i) (zlen la)).
    + assert (Z.of_nat i + 1 ≤ zlen lb).
      { apply (cstr_prefix a b la lb); [done|done|lia|]. intros. apply Heq; lia. }
      rewrite (cstr_lookup a la), (cstr_lookup b lb) by (done || lia). f_equal. apply Heq; lia.
    + assert (zlen lb ≤ zlen la).
      { destruct (Z.le_gt_cases (zlen lb) (zlen la)); [done|].
        destruct Hb as [Hb _]. destruct (Hb (zlen la) ltac:(lia)) as [_ []].
        rewrite <- Heq by lia. apply Ha. }
      unfold zlen in *. rewrite !lookup_ge_None_2; [done|lia..].
  - lia.
  - destruct Hne. assert (k ≤ zlen la) by (apply (cstr_nul a); [done|lia|intros; apply Hlt; lia]).
    assert (k ≤ zlen lb).
    { apply (cstr_nul b); [done|lia|]. intros j Hj. destruct (Hlt j ltac:(lia)) as [<- ?]. done. }
    assert (El : la !! Z.to_nat k = lb !! Z.to_nat k).
    { rewrite <- (lookup_take_lt la n), <- (lookup_take_lt lb n) by lia. by rewrite E. }
    destruct (decide (k = zlen la)) as [Hka|], (decide (k = zlen lb)) as [Hkb|].
    + destruct Ha as [_ Ha], Hb as [_ Hb]. congruence.
    + rewrite (cstr_lookup b lb) in El by (done || lia). apply lookup_lt_Some in El. unfold zlen in *. lia.
    + rewrite (cstr_lookup a la) in El by (done || lia). symmetry in El. apply lookup_lt_Some in El.
      unfold zlen in *. lia.
    + rewrite (cstr_lookup a la), (cstr_lookup b lb) in El by (done || lia). congruence.
Qed.

Lemma strcmp_from_spec fuel a b la i :
  is_cstr a la → 0 ≤ i ≤ zlen la → zlen la - i ≤ Z.of_nat fuel →
  ∃ k, i ≤ k ≤ zlen la ∧ (∀ j, i ≤ j < k → a j = b j) ∧ (a k = 0 ∨ a k ≠ b k) ∧
       strcmp_from fuel a b i = a k - b k.
Proof.
  intros [Ha Ha0]. revert i. induction fuel as [|fuel IH]; intros i Hi Hf; simpl.
  { exists i. assert (i = zlen la) as -> by lia. split_and!; [lia..|by left|done]. }
  destruct (Z.eqb_spec (a i) 0) as [E0|E0]; simpl.
  { exists i. split_and!; [lia..|by left|done]. }
  destruct (Z.eqb_spec (a i) (b i)) as [E|E]; simpl.
  - assert (i ≠ zlen la) by (intros ->; done).
    destruct (IH (i + 1)) as (k & Hk & He & Hd & Hr); [lia..|].
    exists k. split_and!; [lia..| |done|done]. intros j Hj.
    destruct (decide (j = i)) as [->|]; [done|]. apply He. lia.
  - exists i. split_and!; [lia..|by right|done].
Qed.

Lemma strncpy_from_zero dst src n i :
  0 ≤ i → i + Z.of_nat n ≤ zlen dst →
  zlen (strncpy_from dst src n i true) = zlen dst ∧
  ∀ j, 0 ≤ j → (strncpy_from dst src n i true).[j] =
       if (i <=? j) && (j <? i + Z.of_nat n) then 0 else dst.[j].
Proof.
  revert dst i. induction n as [|n IH]; intros dst i Hi Hl; simpl.
  { split; [done|]. intros j Hj. destruct (Z.leb_spec i j), (Z.ltb_spec j (i + Z.of_nat 0)); simpl; (lia || done). }
  destruct (IH (dst.[i <- 0]) (i + 1)) as [L H]; [lia|rewrite zlen_aset; lia|].
  rewrite zlen_aset in L. split; [done|]. intros j Hj. rewrite H by lia.
  destruct (Z.leb_spec (i + 1) j), (Z.leb_spec i j), (Z.ltb_spec j (i + 1 + Z.of_nat n)),
    (Z.ltb_spec j (i + Z.of_nat (S n))); simpl; try lia; try done.
  - rewrite aget_aset_ne by lia. done.
  - assert (j = i) as -> by lia. apply aget_aset_eq. lia.
  - rewrite aget_aset_ne by lia. done.
Qed.

Lemma strncpy_from_spec dst src l n i :
  is_cstr src l → 0 ≤ i ≤ zlen l → i + Z.of_nat n ≤ zlen dst →
  zlen (strncpy_from dst src n i false) = zlen dst ∧
  ∀ j, 0 ≤ j → (strncpy_from dst src n i false).[j] =
       if (i <=? j) && (j <? i + Z.of_nat n) then l.[j] else dst.[j].
Proof.
  intros [Hs H0]. revert dst i. induction n as [|n IH]; intros dst i Hi Hl; simpl.
  { split; [done|]. intros j Hj. destruct (Z.leb_spec i j), (Z.ltb_spec j (i + Z.of_nat 0)); simpl; (lia || done). }
  destruct (Z.eqb_spec (src i) 0) as [E|E].
  - assert (i = zlen l) as ->.
    { destruct (decide (i = zlen l)); [done|]. by destruct (Hs i ltac:(lia)). }
    destruct (strncpy_from_zero dst src (S n) (zlen l)) as [L HH]; [lia..|].
    simpl in L, HH. split; [done|]. intros j Hj. rewrite HH by lia. case_if; [|done].
    bools. symmetry. unfold aget. rewrite list_lookup_total_alt, lookup_ge_None_2; [done|unfold zlen in *; lia].
  - assert (i ≠ zlen l) by (intros ->; done).
    destruct (IH (dst.[i <- src i]) (i + 1)) as [L HH]; [lia|rewrite zlen_aset; lia|].
    rewrite zlen_aset in L. split; [done|]. intros j Hj. rewrite HH by lia.
    destruct (Z.leb_spec (i + 1) j), (Z.leb_spec i j), (Z.ltb_spec j (i + 1 + Z.of_nat n)),
      (Z.ltb_spec j (i + Z.of_nat (S n))); simpl; try lia; try done.
    + rewrite aget_aset_ne by lia. done.
    + assert (j = i) as -> by lia. rewrite aget_aset_eq by lia. apply Hs. lia.
    + rewrite aget_aset_ne by lia. done.
Qed.

Lemma memcpy_moved m dst src n a :
  mem_bytes m → 0 ≤ n → dst + n ≤ src ∨ src + n ≤ dst → memcpy m dst src n a = moved m dst src n a.
Proof. intros Hm Hn Hd. unfold memcpy. apply copy_fwd_spec; [done|done|lia]. Qed.

(** ** The contracts *)

(** C40: [memmove] copies exactly [n] bytes whatever the overlap and alignment of
    the two ranges, and [memcpy] agrees with it on disjoint ranges; the words
    the loops move never change a byte outside [dst .. dst+n). *)
Theorem memmove_memcpy_spec m dst src n :
  mem_bytes m → 0 ≤ n →
  (∀ a, memmove m dst src n a = moved m dst src n a) ∧
  (dst + n ≤ src ∨ src + n ≤ dst → ∀ a, memcpy m dst src n a = moved m dst src n a).
Proof.
  intros Hm Hn. split.
  - intros a. unfold memmove. destruct (Z.eqb_spec dst src) as [->|Hne]; simpl.
    { unfold moved. case_if; [|done]. f_equal. lia. }
    destruct (Z.eqb_spec n 0) as [->|Hn0]; simpl.
    { unfold moved. destruct (Z.leb_spec dst a), (Z.ltb_spec a (dst + 0)); simpl; (lia || done). }
    destruct (Z.ltb_spec dst src); [apply copy_fwd_spec|apply copy_bwd_spec]; (done || lia).
  - intros Hd a. by apply memcpy_moved.
Qed.

(** Memory holding the low byte of each address. *)
Definition demo_mem : mem := λ a, a mod 256.
Lemma demo_mem_bytes : mem_bytes demo_mem.
Proof. intros a. unfold demo_mem. apply Z.mod_pos_bound. lia. Qed.

Lemma memmove_memcpy_spec_witness :
  (∀ a, memmove demo_mem 5 2 100 a = moved demo_mem 5 2 100 a) ∧
  (5 + 100 ≤ 2 ∨ 2 + 100 ≤ 5 → ∀ a, memcpy demo_mem 5 2 100 a = moved demo_mem 5 2 100 a).
Proof. exact (memmove_memcpy_spec demo_mem 5 2 100 demo_mem_bytes ltac:(lia)). Defined.

(** [memset] writes the low byte of [c] to every byte of the range and to
    nothing else, for every alignment and length. *)
Theorem memset_spec m dst c n a :
  0 ≤ n → memset m dst c n a = if (dst <=? a) && (a <? dst + n) then c mod 256 else m a.
Proof. intros Hn. rewrite memset_filled by done. reflexivity. Qed.

Lemma memset_spec_witness :
  memset demo_mem 3 0x1ff 77 41 = if (3 <=? 41) && (41 <? 3 + 77) then 0x1ff mod 256 else demo_mem 41.
Proof. exact (memset_spec demo_mem 3 0x1ff 77 41 ltac:(lia)). Defined.

(** [memcmp] returns the difference of the first pair of bytes that differ,
    and zero exactly when the two ranges are equal, although it compares whole
    words once both pointers are aligned. *)
Theorem memcmp_spec m a b n :
  mem_bytes m → 0 ≤ n →
  (memcmp m a b n = 0 ↔ ∀ i, 0 ≤ i < n → m (a + i) = m (b + i)) ∧
  (∀ i, 0 ≤ i < n → m (a + i) ≠ m (b + i) → (∀ j, 0 ≤ j < i → m (a + j) = m (b + j)) →
        memcmp m a b n = m (a + i) - m (b + i)).
Proof.
  intros Hm Hn. rewrite memcmp_bytediff by done. split; [split|].
  - intros H0. destruct (find_up (λ i, negb (m (a + i) =? m (b + i))) 0 (Z.to_nat n)) as [i|] eqn:Hf.
    + apply find_up_Some in Hf as (Hi & Hd & Hmin). bools.
      rewrite (bytediff_first m a b _ i) in H0; [lia|lia|done|].
      intros j Hj. specialize (Hmin j Hj). by bools.
    + rewrite find_up_None in Hf. intros i Hi. specialize (Hf i ltac:(lia)). by bools.
  - intros H. replace (Z.to_nat n) with (Z.to_nat n + 0)%nat by lia.
    rewrite bytediff_skip; [done|]. intros i Hi. apply H. lia.
  - intros i Hi Hd He. apply bytediff_first; [lia|done|done].
Qed.

Lemma memcmp_spec_witness :
  (memcmp demo_mem 1 257 300 = 0 ↔ ∀ i, 0 ≤ i < 300 → demo_mem (1 + i) = demo_mem (257 + i)) ∧
  (∀ i, 0 ≤ i < 300 → demo_mem (1 + i) ≠ demo_mem (257 + i) →
        (∀ j, 0 ≤ j < i → demo_mem (1 + j) = demo_mem (257 + j)) →
        memcmp demo_mem 1 257 300 = demo_mem (1 + i) - demo_mem (257 + i)).
Proof. exact (memcmp_spec demo_mem 1 257 300 demo_mem_bytes ltac:(lia)). Defined.

(** On NUL-terminated strings [strlen] finds the length, [strcmp] is zero
    exactly on equal strings, [strncmp] exactly on strings with the same first
    [n] characters, and [strncpy] writes the first [n] characters padded with
    zeros and nothing else (so it leaves no terminator when the source has [n]
    characters or more). *)
Theorem string_functions_spec a b la lb n dst fuel :
  is_cstr a la → is_cstr b lb → 0 ≤ n ≤ zlen dst → zlen la < Z.of_nat fuel →
  strlen fuel a = zlen la ∧
  (strcmp fuel a b = 0 ↔ la = lb) ∧
  (strncmp a b n = 0 ↔ take (Z.to_nat n) la = take (Z.to_nat n) lb) ∧
  (∀ j, 0 ≤ j → (strncpy dst a n).[j] = if j <? n then la.[j] else dst.[j]).
Proof.
  intros Ha Hb Hn Hf. pose proof (zlen_nonneg la). split_and!.
  - apply strlen_from_spec; [done|lia|lia].
  - unfold strcmp. destruct (strcmp_from_spec fuel a b la 0 Ha) as (k & Hk & He & Hd & ->); [lia..|].
    split.
    + intros E. apply (cstr_eq a b); [done|done|]. intros j Hj.
      assert (k = zlen la) as ->.
      { destruct (decide (k = zlen la)); [done|]. destruct Ha as [Ha _].
        destruct (Ha k ltac:(lia)), Hd; [done|lia]. }
      destruct (decide (j = zlen la)) as [->|]; [lia|]. apply He. lia.
    + intros ->. assert (a k = b k); [|lia].
      destruct Ha as [Ha Ha0], Hb as [Hb Hb0]. destruct (decide (k = zlen lb)) as [->|]; [congruence|].
      destruct (Ha k ltac:(lia)), (Hb k ltac:(lia)). congruence.
  - by apply strncmp_zero.
  - intros j Hj. unfold strncpy.
    destruct (strncpy_from_spec dst a la (Z.to_nat n) 0 Ha) as [_ H0]; [lia..|].
    rewrite H0 by done. rewrite (proj2 (Z.leb_le 0 j)) by done.
    rewrite Z2Nat.id by lia. done.
Qed.

Definition demo_str (l : list Z) : str := λ i, l.[i].

Lemma string_functions_spec_witness :
  let a := demo_str [65; 66; 67] in let b := demo_str [65; 66; 68] in
  strlen 4 a = zlen [65; 66; 67] ∧
  (strcmp 4 a b = 0 ↔ [65; 66; 67] = [65; 66; 68]) ∧
  (strncmp a b 2 = 0 ↔ take (Z.to_nat 2) [65; 66; 67] = take (Z.to_nat 2) [65; 66; 68]) ∧
  (∀ j, 0 ≤ j → (strncpy [9; 9; 9; 9] a 2).[j] =
                if j <? 2 then [65; 66; 67].[j] else [9; 9; 9; 9].[j]).
Proof.
  apply (string_functions_spec (demo_str [65; 66; 67]) (demo_str [65; 66; 68])).
  - split; [|done]. intros i Hi. split; [done|]. change (zlen _) with 3 in Hi.
    assert (i = 0 ∨ i = 1 ∨ i = 2) as [->|[->| ->]] by lia; done.
  - split; [|done]. intros i Hi. split; [done|]. change (zlen _) with 3 in Hi.
    assert (i = 0 ∨ i = 1 ∨ i = 2) as [->|[->| ->]] by lia; done.
  - change (zlen [9; 9; 9; 9]) with 4. lia.
  - change (zlen [65; 66; 67]) with 3. lia.
Defined.
