(* ===== verification/Heap.v ===== *)
(** * The kernel heap

    Models [kernel/memory/heap.c]: a first-fit allocator over one contiguous
    arena, with an address-ordered, coalescing free list threaded through the
    block headers.  The headers live in the byte memory of [Mem.v], at the
    addresses the source uses, so a stray write of the allocator into a live
    allocation would be visible in the model.  [heap_lock] makes each operation
    atomic; [kprintf] output is left out. *)

From stdpp Require Import gmap.
From S2P Require Import Prelude Mem CString Pmm.

Definition HEAP_FRAMES : Z := 64 * 1024 * 1024 / PAGE_SIZE.
Definition HDR_SIZE : Z := 16.
(** [ALIGN16(x)] on [size_t]. *)
Definition ALIGN16 (x : Z) : Z := Z.land (u64 (x + 15)) (u64 (Z.lnot 15)).
Definition MIN_SPLIT : Z := HDR_SIZE + 16.

Record heap := mkHeap {
  hmem : mem;
  free_head : Z;   (* [block_t *], 0 is NULL *)
  arena : Z;
  arena_sz : Z;
  used_sz : Z;
}.

Definition set_hmem (s : heap) (m : mem) : heap :=
  mkHeap m (free_head s) (arena s) (arena_sz s) (used_sz s).
Definition set_free_head (s : heap) (p : Z) : heap :=
  mkHeap (hmem s) p (arena s) (arena_sz s) (used_sz s).
Definition set_used_sz (s : heap) (n : Z) : heap :=
  mkHeap (hmem s) (free_head s) (arena s) (arena_sz s) n.

(** [b->size] and [b->next] of the [block_t] at address [b]. *)
Definition size_of (s : heap) (b : Z) : Z := ld64 (hmem s) b.
Definition next_of (s : heap) (b : Z) : Z := ld64 (hmem s) (b + 8).
Definition set_size (s : heap) (b v : Z) : heap := set_hmem s (st64 (hmem s) b v).
Definition set_next (s : heap) (b v : Z) : heap := set_hmem s (st64 (hmem s) (b + 8) v).

(** A [block_t **]: the address of [free_head] or of some [b->next]. *)
Inductive link := LHead | LNext (b : Z).
Definition rd (s : heap) (pp : link) : Z :=
  match pp with LHead => free_head s | LNext b => next_of s b end.
Definition wr (s : heap) (pp : link) (v : Z) : heap :=
  match pp with LHead => set_free_head s v | LNext b => set_next s b v end.

(** A bound on the length of the free list: every block has 32 bytes or more. *)
Definition list_fuel (s : heap) : nat := Z.to_nat (arena_sz s / 32).

(** [heap_init]; [None] is the [kpanic]. *)
Definition heap_init (p : pmm) (m : mem) : option (heap * pmm) :=
  let '(phys, p') := pmm_alloc_contig p HEAP_FRAMES in
  if phys =? 0 then None
  else
    let a := Pmm.phys_to_virt p' phys in
    let s := mkHeap m a a (HEAP_FRAMES * PAGE_SIZE) 0 in
    let s := set_size s a (HEAP_FRAMES * PAGE_SIZE) in
    Some (set_next s a 0, p').

(** [while ( *pp && *pp < blk) pp = &( *pp)->next] *)
Fixpoint find_pos (fuel : nat) (s : heap) (blk : Z) (pp : link) : link :=
  match fuel with
  | O => pp
  | S fuel =>
      if negb (rd s pp =? 0) && (rd s pp <? blk) then find_pos fuel s blk (LNext (rd s pp))
      else pp
  end.

Definition coalesce_next (s : heap) (blk : Z) : heap :=
  let nx := next_of s blk in
  if negb (nx =? 0) && (u64 (blk + size_of s blk) =? nx) then
    let s := set_size s blk (u64 (size_of s blk + size_of s nx)) in
    set_next s blk (next_of s nx)
  else s.

Definition coalesce_prev (s : heap) (pp : link) (blk : Z) : heap :=
  match pp with
  | LHead => s
  | LNext prev =>
      if u64 (prev + size_of s prev) =? blk then
        let s := set_size s prev (u64 (size_of s prev + size_of s blk)) in
        set_next s prev (next_of s blk)
      else s
  end.

Definition insert_free (s : heap) (blk : Z) : heap :=
  let pp := find_pos (list_fuel s) s blk LHead in
  let s := set_next s blk (rd s pp) in
  let s := wr s pp blk in
  let s := coalesce_next s blk in
  coalesce_prev s pp blk.

(** The search of [kmalloc]: the first block large enough and the link to it. *)
Fixpoint find_fit (fuel : nat) (s : heap) (need : Z) (pp : link) (b : Z) : option (link * Z) :=
  match fuel with
  | O => None
  | S fuel =>
      if b =? 0 then None
      else if size_of s b <? need then find_fit fuel s need (LNext b) (next_of s b)
      else Some (pp, b)
  end.

(** What [kmalloc] does to the block it found. *)
Definition take_block (s : heap) (need : Z) (pp : link) (b : Z) : heap :=
  let s :=
    if MIN_SPLIT <=? size_of s b - need then
      let rest := b + need in
      let s' := set_size s rest (size_of s b - need) in
      let s' := set_next s' rest (next_of s' b) in
      let s' := set_size s' b need in
      wr s' pp rest
    else wr s pp (next_of s b) in
  set_used_sz s (u64 (used_sz s + size_of s b)).

Definition kmalloc (s : heap) (size : Z) : Z * heap :=
  if size =? 0 then (0, s)
  else
    let need := u64 (ALIGN16 size + HDR_SIZE) in
    match find_fit (S (list_fuel s)) s need LHead (free_head s) with
    | Some (pp, b) => (b + HDR_SIZE, take_block s need pp b)
    | None => (0, s)
    end.

Definition kfree (s : heap) (ptr : Z) : heap :=
  if ptr =? 0 then s
  else
    let blk := ptr - HDR_SIZE in
    insert_free (set_used_sz s (u64 (used_sz s - size_of s blk))) blk.

Definition kcalloc (s : heap) (n size : Z) : Z * heap :=
  let total := u64 (n * size) in
  let '(p, s) := kmalloc s total in
  if p =? 0 then (p, s) else (p, set_hmem s (memset (hmem s) p 0 total)).

Definition krealloc (s : heap) (ptr size : Z) : Z * heap :=
  if ptr =? 0 then kmalloc s size
  else if size =? 0 then (0, kfree s ptr)
  else
    let blk := ptr - HDR_SIZE in
    let old_payload := u64 (size_of s blk - HDR_SIZE) in
    if size <=? old_payload then (ptr, s)
    else
      let '(np, s) := kmalloc s size in
      if np =? 0 then (np, s)
      else
        let s := set_hmem s (memcpy (hmem s) np ptr old_payload) in
        (np, kfree s ptr).

Definition heap_used (s : heap) : Z := used_sz s.
Definition heap_size (s : heap) : Z := arena_sz s.

(** ** The block structure

    The arena is a sequence of blocks, [(size, free?)], laid out from the arena
    base without gaps. *)
Definition blocks : Type := list (Z * bool).

Definition span (bl : blocks) : Z := foldr (λ (b : Z * bool) (n : Z), b.1 + n) 0 bl.
(** Addresses of the free blocks, in address order, for blocks laid out from [a]. *)
Fixpoint frees (a : Z) (bl : blocks) : list Z :=
  match bl with
  | [] => []
  | (sz, f) :: bl => if f : bool then a :: frees (a + sz) bl else frees (a + sz) bl
  end.
(** Live allocations: payload address and capacity. *)
Fixpoint live (a : Z) (bl : blocks) : list (Z * Z) :=
  match bl with
  | [] => []
  | (sz, f) :: bl =>
      if f : bool then live (a + sz) bl else (a + HDR_SIZE, sz - HDR_SIZE) :: live (a + sz) bl
  end.
(** Bytes in allocated blocks, headers included. *)
Definition used_bytes (bl : blocks) : Z := foldr (λ (b : Z * bool) (n : Z), (if b.2 then 0 else b.1) + n) 0 bl.

Definition size_ok (b : Z * bool) : Prop := 32 ≤ b.1 ∧ b.1 mod 16 = 0.

(** No two neighbouring free blocks. *)
Definition hd_free (bl : blocks) : bool := match bl with (_, f) :: _ => f | [] => false end.
Fixpoint coalesced (bl : blocks) : Prop :=
  match bl with
  | [] => True
  | b :: bl => coalesced bl ∧ (b.2 = true → hd_free bl = false)
  end.
Definition last_free (bl : blocks) : bool := match last bl with Some (_, f) => f | None => false end.

(** Every header carries the size of its block. *)
Fixpoint hdrs (m : mem) (a : Z) (bl : blocks) : Prop :=
  match bl with
  | [] => True
  | (sz, _) :: bl => ld64 m a = sz ∧ hdrs m (a + sz) bl
  end.

(** From [p], the [next] words of [m] run through the addresses [l] and end in [q]. *)
Fixpoint fseg (m : mem) (p : Z) (l : list Z) (q : Z) : Prop :=
  match l with
  | [] => p = q
  | a :: l => p = a ∧ fseg m (ld64 m (a + 8)) l q
  end.

(** The state [s] lays out the blocks [bl]: they tile the arena, every header
    carries its size, and the free list holds the free blocks in order. *)
Record heap_lay (s : heap) (bl : blocks) : Prop := {
  hl_bytes : mem_bytes (hmem s);
  hl_arena : 0 < arena s ∧ arena s mod 16 = 0;
  hl_top : arena s + arena_sz s < 2 ^ 64;
  hl_big : 32 ≤ arena_sz s;
  hl_span : span bl = arena_sz s;
  hl_sizes : Forall size_ok bl;
  hl_hdrs : hdrs (hmem s) (arena s) bl;
  hl_free : fseg (hmem s) (free_head s) (frees (arena s) bl) 0;
}.

(** Between operations the layout is coalesced and [used_sz] is exact. *)
Definition heap_wf (s : heap) (bl : blocks) : Prop :=
  heap_lay s bl ∧ coalesced bl ∧ used_sz s = used_bytes bl.

(** ** Lemmas on the layout *)

#[global] Arguments span : simpl never.
#[global] Arguments used_bytes : simpl never.

Lemma span_cons b l : span (b :: l) = b.1 + span l.
Proof. done. Qed.
Lemma used_bytes_cons b l : used_bytes (b :: l) = (if b.2 then 0 else b.1) + used_bytes l.
Proof. done. Qed.
Lemma span_app l1 l2 : span (l1 ++ l2) = span l1 + span l2.
Proof. induction l1 as [|b l1 IH]; simpl; [done|]. rewrite !span_cons, IH. lia. Qed.
Lemma used_bytes_app l1 l2 : used_bytes (l1 ++ l2) = used_bytes l1 + used_bytes l2.
Proof. induction l1 as [|b l1 IH]; simpl; [done|]. rewrite !used_bytes_cons, IH. ring. Qed.

Lemma frees_app a l1 l2 : frees a (l1 ++ l2) = frees a l1 ++ frees (a + span l1) l2.
Proof.
  revert a. induction l1 as [|[sz f] l1 IH]; intros a; simpl; [by rewrite Z.add_0_r|].
  rewrite span_cons, IH, Z.add_assoc. by destruct f.
Qed.
Lemma live_app a l1 l2 : live a (l1 ++ l2) = live a l1 ++ live (a + span l1) l2.
Proof.
  revert a. induction l1 as [|[sz f] l1 IH]; intros a; simpl; [by rewrite Z.add_0_r|].
  rewrite span_cons, IH, Z.add_assoc. by destruct f.
Qed.
Lemma hdrs_app m a l1 l2 : hdrs m a (l1 ++ l2) ↔ hdrs m a l1 ∧ hdrs m (a + span l1) l2.
Proof.
  revert a. induction l1 as [|[sz f] l1 IH]; intros a; simpl; [rewrite Z.add_0_r; tauto|].
  rewrite span_cons, IH, Z.add_assoc. tauto.
Qed.

Lemma span_pos l : Forall size_ok l → 0 ≤ span l.
Proof. induction 1 as [|[sz f] l [Hs _] _ IH]; [done|]. rewrite span_cons. simpl in *. lia. Qed.

Lemma span_count l : Forall size_ok l → 32 * zlen l ≤ span l.
Proof.
  induction 1 as [|[sz f] l [Hs _] _ IH]; [done|]. rewrite span_cons.
  unfold zlen in *. simpl in *. lia.
Qed.

Lemma used_bytes_bounds l : Forall size_ok l → 0 ≤ used_bytes l ≤ span l.
Proof.
  induction 1 as [|[sz f] l [Hs _] _ IH]; [done|]. rewrite used_bytes_cons, span_cons.
  simpl in *. destruct f; lia.
Qed.

Lemma frees_length a l : zlen (frees a l) ≤ zlen l.
Proof.
  revert a. induction l as [|[sz f] l IH]; intros a; simpl; [done|].
  specialize (IH (a + sz)). unfold zlen in *. destruct f; simpl; lia.
Qed.

Lemma span_mod16 l : Forall size_ok l → span l mod 16 = 0.
Proof.
  induction 1 as [|[sz f] l [_ Hm] _ IH]; [done|]. rewrite span_cons. simpl in *. zlia.
Qed.

(** [x] is a byte of an allocated block (header included). *)
Fixpoint owned (a : Z) (bl : blocks) (x : Z) : Prop :=
  match bl with
  | [] => False
  | (sz, f) :: bl => (f = false ∧ a ≤ x < a + sz) ∨ owned (a + sz) bl x
  end.

Lemma owned_app a l1 l2 x : owned a (l1 ++ l2) x ↔ owned a l1 x ∨ owned (a + span l1) l2 x.
Proof.
  revert a. induction l1 as [|[sz f] l1 IH]; intros a; simpl; [rewrite Z.add_0_r; tauto|].
  rewrite span_cons, IH, Z.add_assoc. tauto.
Qed.

Lemma owned_range a l x : Forall size_ok l → owned a l x → a ≤ x < a + span l.
Proof.
  intros Hs. revert a. induction Hs as [|[sz f] l [H1 _] Hs IH]; intros a; simpl; [done|].
  rewrite span_cons. simpl in *. pose proof (span_pos l Hs).
  intros [[_ ?]|Hx]; [lia|]. specialize (IH _ Hx). lia.
Qed.

(** ** Frames: the structure depends only on the words it names *)

(** Addresses of the headers. *)
Fixpoint starts (a : Z) (bl : blocks) : list Z :=
  match bl with [] => [] | (sz, _) :: bl => a :: starts (a + sz) bl end.

Lemma frees_starts a l x : x ∈ frees a l → x ∈ starts a l.
Proof.
  revert a. induction l as [|[sz f] l IH]; intros a; simpl; [done|].
  destruct f; rewrite !elem_of_cons; [intros [->|?]|]; auto.
Qed.

Lemma starts_range a l x : Forall size_ok l → x ∈ starts a l → a ≤ x ∧ x + 32 ≤ a + span l.
Proof.
  intros Hs. revert a. induction Hs as [|[sz f] l [H1 _] Hs IH]; intros a; simpl; [by rewrite elem_of_nil|].
  rewrite span_cons. simpl in *. pose proof (span_pos l Hs).
  rewrite elem_of_cons. intros [->|Hx]; [lia|]. destruct (IH _ Hx). lia.
Qed.

Lemma starts_sep a l x y :
  Forall size_ok l → x ∈ starts a l → y ∈ starts a l → x = y ∨ x + 32 ≤ y ∨ y + 32 ≤ x.
Proof.
  intros Hs. revert a. induction Hs as [|[sz f] l [H1 _] Hs IH]; intros a; simpl; [by rewrite elem_of_nil|].
  simpl in *. rewrite !elem_of_cons. intros [->|Hx] [->|Hy]; [by left| | |by eapply IH].
  - pose proof (starts_range _ _ _ Hs Hy). lia.
  - pose proof (starts_range _ _ _ Hs Hx). lia.
Qed.

Lemma frees_range a l x : Forall size_ok l → x ∈ frees a l → a ≤ x ∧ x + 32 ≤ a + span l.
Proof. intros Hs Hx. by apply starts_range, frees_starts. Qed.

Lemma hdrs_frame m m' a l :
  (∀ x, x ∈ starts a l → ld64 m' x = ld64 m x) → hdrs m a l → hdrs m' a l.
Proof.
  revert a. induction l as [|[sz f] l IH]; intros a He; simpl in *; [done|].
  intros [Hh Hr]. split; [rewrite He; [done|by left]|]. apply IH; [|done]. intros. apply He. by right.
Qed.

Lemma ld64_frame m m' x : (∀ i, x ≤ i < x + 8 → m' i = m i) → ld64 m' x = ld64 m x.
Proof. intros H. apply load_le_ext. intros i Hi. apply H. lia. Qed.

(** A byte of an allocated block is not a byte of a free block's header. *)
Lemma owned_not_free a l x y :
  Forall size_ok l → owned a l x → y ∈ frees a l → x < y ∨ y + 32 ≤ x.
Proof.
  intros Hs. revert a. induction Hs as [|[sz f] l [H1 _] Hs IH]; intros a; simpl; [done|].
  simpl in *. destruct f; rewrite ?elem_of_cons.
  - intros [[? _]|Ho]; [done|]. intros [->|Hy]; [|by eapply IH].
    pose proof (owned_range _ _ _ Hs Ho). lia.
  - intros [[_ Hx]|Ho] Hy; [|by eapply IH]. pose proof (frees_range _ _ _ Hs Hy). lia.
Qed.

Lemma fseg_frame m m' p l q :
  (∀ x, x ∈ l → ld64 m' (x + 8) = ld64 m (x + 8)) → fseg m p l q → fseg m' p l q.
Proof.
  revert p. induction l as [|a l IH]; intros p He; simpl; [done|].
  intros [-> H]. split; [done|]. rewrite He by (left). apply IH; [|done]. intros. apply He. by right.
Qed.

Lemma fseg_app m p l1 l2 q : fseg m p (l1 ++ l2) q ↔ ∃ r, fseg m p l1 r ∧ fseg m r l2 q.
Proof.
  revert p. induction l1 as [|a l1 IH]; intros p; simpl.
  - split; [by eauto|]. by intros (r & -> & H).
  - rewrite IH. split; [intros (-> & r & ? & ?); by eauto|intros (r & [-> ?] & ?); by eauto].
Qed.

(** The link that ends the list segment [l]. *)
Fixpoint lastlink (pp : link) (l : list Z) : link :=
  match l with [] => pp | a :: l => lastlink (LNext a) l end.

Lemma lastlink_snoc pp l a : lastlink pp (l ++ [a]) = LNext a.
Proof. revert pp. induction l; intros; simpl; auto. Qed.

Lemma fseg_rd s pp l r : fseg (hmem s) (rd s pp) l r → rd s (lastlink pp l) = r.
Proof.
  revert pp. induction l as [|a l IH]; intros pp; simpl; [done|].
  intros [_ H]. by apply IH.
Qed.

(** Redirecting the link at the end of a segment of free blocks. *)
Lemma wr_seg s pre a v r :
  Forall size_ok pre → 0 ≤ v < 2 ^ 64 →
  fseg (hmem s) (free_head s) (frees a pre) r →
  let s' := wr s (lastlink LHead (frees a pre)) v in
  fseg (hmem s') (free_head s') (frees a pre) v ∧
  (∀ x, (∀ y, y ∈ frees a pre → x < y + 8 ∨ y + 16 ≤ x) → hmem s' x = hmem s x) ∧
  arena s' = arena s ∧ arena_sz s' = arena_sz s ∧ used_sz s' = used_sz s.
Proof.
  intros Hs Hv Hf. revert a r Hf. induction pre as [|[sz f] pre IH] using rev_ind; intros a r Hf.
  { done. }
  apply Forall_app in Hs as [Hs Hb]. rewrite frees_app in *. simpl in *.
  destruct f; simpl in *; [|rewrite app_nil_r in *; by eapply IH].
  rewrite lastlink_snoc. apply fseg_app in Hf as (r' & Hf & -> & _). simpl.
  split_and!; [|intros x Hx; apply st64_outside; destruct (Hx (a + span pre)); [set_solver|lia..]|done..].
  apply fseg_app. eexists. split.
  - eapply fseg_frame; [|exact Hf]. intros y Hy. apply ld64_st64_ne.
    pose proof (frees_range _ _ _ Hs Hy). lia.
  - simpl. split; [done|]. by apply ld64_st64_eq.
Qed.

(** ** Replacing a run of blocks *)

Section replace.
Context (s s' : heap) (pre mid mid' post : blocks).
Let a := arena s.
Let b := a + span pre.
Hypothesis Hlay : heap_lay s (pre ++ mid ++ post).
(** Only the bytes of the run and [next] words of free blocks before it change. *)
Hypothesis Hout : ∀ x,
  x < b ∨ b + span mid ≤ x →
  (∀ y, y ∈ frees a pre → x < y + 8 ∨ y + 16 ≤ x) → hmem s' x = hmem s x.

Lemma replace_sizes : Forall size_ok pre ∧ Forall size_ok mid ∧ Forall size_ok post.
Proof. pose proof (hl_sizes _ _ Hlay) as H. by rewrite !Forall_app in H. Qed.

Lemma replace_pre x : x ∈ starts a pre → ld64 (hmem s') x = ld64 (hmem s) x.
Proof.
  destruct replace_sizes as (H1 & H2 & H3). intros Hx. pose proof (starts_range _ _ _ H1 Hx).
  apply ld64_frame. intros i Hi. apply Hout; [lia|]. intros y Hy.
  destruct (starts_sep a pre x y H1 Hx) as [->|]; [by apply frees_starts|lia..].
Qed.

Lemma replace_post x : b + span mid ≤ x → ld64 (hmem s') x = ld64 (hmem s) x.
Proof.
  destruct replace_sizes as (H1 & H2 & H3). intros Hx. pose proof (span_pos mid H2).
  apply ld64_frame. intros i Hi. apply Hout; [lia|]. intros y Hy.
  pose proof (frees_range _ _ _ H1 Hy). lia.
Qed.

(** Allocated blocks around the run keep every byte. *)
Lemma replace_owned x :
  owned a pre x ∨ owned (b + span mid) post x → hmem s' x = hmem s x.
Proof.
  destruct replace_sizes as (H1 & H2 & H3). pose proof (span_pos mid H2). intros [Ho|Ho].
  - pose proof (owned_range _ _ _ H1 Ho). apply Hout; [lia|]. intros y Hy.
    destruct (owned_not_free _ _ _ _ H1 Ho Hy); lia.
  - pose proof (owned_range _ _ _ H3 Ho). apply Hout; [lia|]. intros y Hy.
    pose proof (frees_range _ _ _ H1 Hy). lia.
Qed.

Lemma lay_replace :
  mem_bytes (hmem s') → arena s' = arena s → arena_sz s' = arena_sz s →
  Forall size_ok mid' → span mid' = span mid → hdrs (hmem s') b mid' →
  (∀ r, 0 ≤ r < 2 ^ 64 → fseg (hmem s) (free_head s) (frees a pre ++ frees b mid) r →
        fseg (hmem s') (free_head s') (frees a pre ++ frees b mid') r) →
  heap_lay s' (pre ++ mid' ++ post).
Proof.
  destruct replace_sizes as (H1 & H2 & H3). destruct Hlay as [Hb Ha Ht Hbig Hsp Hsz Hh Hf].
  intros Hb' Ea Es Hm' Hspan Hh' Hseg. fold a in Hh, Hf.
  rewrite !hdrs_app in Hh. fold b in Hh. destruct Hh as (Hh1 & Hh2 & Hh3).
  rewrite !frees_app, app_assoc in Hf. fold b in Hf. apply fseg_app in Hf as (r & Hf1 & Hf2).
  split; rewrite ?Ea, ?Es; fold a; try done.
  - rewrite !span_app in *. lia.
  - rewrite !Forall_app. done.
  - rewrite !hdrs_app. fold b. rewrite Hspan. split_and!; [|done|].
    + eapply hdrs_frame; [|done]. apply replace_pre.
    + eapply hdrs_frame; [|done]. intros x Hx. apply replace_post.
      pose proof (starts_range _ _ _ H3 Hx). lia.
  - rewrite !frees_app, app_assoc. fold b. rewrite Hspan. apply fseg_app. exists r. split.
    + apply Hseg; [|done]. destruct (frees (b + span mid) post) as [|x l] eqn:E; simpl in Hf2.
      { subst r. lia. }
      destruct Hf2 as [-> _]. assert (Hx : x ∈ frees (b + span mid) post) by (rewrite E; left).
      pose proof (frees_range _ _ _ H3 Hx). pose proof (span_pos pre H1). pose proof (span_pos mid H2).
      rewrite !span_app in Hsp. lia.
    + eapply fseg_frame; [|done]. intros x Hx. apply replace_post.
      pose proof (frees_range _ _ _ H3 Hx). lia.
Qed.
End replace.

(** ** kmalloc *)

Lemma wr_bytes s pp v : mem_bytes (hmem s) → mem_bytes (hmem (wr s pp v)).
Proof. intros H. destruct pp; [done|]. by apply st64_bytes. Qed.

Lemma find_fit_found s need pp b l1 x l2 fuel :
  fseg (hmem s) b (l1 ++ x :: l2) 0 → Forall (λ y, 0 < y) (l1 ++ [x]) →
  (∀ y, y ∈ l1 → size_of s y < need) → need ≤ size_of s x → (length l1 < fuel)%nat →
  find_fit fuel s need pp b = Some (lastlink pp l1, x).
Proof.
  revert pp b fuel. induction l1 as [|y l1 IH]; intros pp b fuel Hs Hp Hsm Hx Hf;
    (destruct fuel as [|fuel]; [simpl in Hf; lia|]); simpl in *.
  - destruct Hs as [-> _]. inversion Hp; subst. rewrite (proj2 (Z.eqb_neq x 0)) by lia.
    by rewrite (proj2 (Z.ltb_ge _ _)) by lia.
  - destruct Hs as [-> Hs]. inversion Hp; subst. rewrite (proj2 (Z.eqb_neq y 0)) by lia.
    rewrite (proj2 (Z.ltb_lt _ _)) by (apply Hsm; left).
    apply IH; [done|done| |done|lia]. intros. apply Hsm. by right.
Qed.

Lemma find_fit_none s need pp b l fuel :
  fseg (hmem s) b l 0 → Forall (λ y, 0 < y) l →
  (∀ y, y ∈ l → size_of s y < need) → find_fit fuel s need pp b = None.
Proof.
  revert pp b fuel. induction l as [|y l IH]; intros pp b fuel Hs Hp Hsm;
    (destruct fuel as [|fuel]; [done|]); simpl in *; [by subst|].
  destruct Hs as [-> Hs]. inversion Hp; subst. rewrite (proj2 (Z.eqb_neq y 0)) by lia.
  rewrite (proj2 (Z.ltb_lt _ _)) by (apply Hsm; left).
  apply IH; [done|done|]. intros. apply Hsm. by right.
Qed.

(** First fit on the block list. *)
Lemma blocks_fit need (bl : blocks) :
  (∀ sz, (sz, true) ∈ bl → sz < need) ∨
  ∃ pre sz post, bl = pre ++ (sz, true) :: post ∧ need ≤ sz ∧ ∀ sz, (sz, true) ∈ pre → sz < need.
Proof.
  induction bl as [|[sz f] bl IH]; [left; intros ?; by rewrite elem_of_nil|].
  destruct (decide (f = true ∧ need ≤ sz)) as [[-> Hsz]|Hno].
  { right. exists [], sz, bl. split_and!; [done|done|]. intros ?; by rewrite elem_of_nil. }
  assert (Hhd : ∀ z, (z, true) = (sz, f) → z < need).
  { intros z [= -> <-]. apply Z.nle_gt. intros ?. by apply Hno. }
  destruct IH as [IH|(pre & sz' & post & -> & Hn & Hpre)]; [left|right].
  - intros z. rewrite elem_of_cons. intros [?|?]; auto.
  - exists ((sz, f) :: pre), sz', post. split_and!; [done|done|].
    intros z. rewrite elem_of_cons. intros [?|?]; auto.
Qed.

(** The address of a free block has a header with its size. *)
Lemma frees_size m a bl x :
  Forall size_ok bl → hdrs m a bl → x ∈ frees a bl →
  (ld64 m x, true) ∈ bl ∧ x + ld64 m x ≤ a + span bl.
Proof.
  intros Hok. revert a. induction Hok as [|[sz f] bl _ Hok IH]; intros a; simpl; [by rewrite elem_of_nil|].
  intros [Hh Hr] Hx. pose proof (span_pos bl Hok). rewrite span_cons. simpl.
  destruct f; [apply elem_of_cons in Hx as [->|Hx]; [rewrite Hh; split; [left|lia]|]|];
    (destruct (IH _ Hr Hx) as [??]; split; [by right|lia]).
Qed.

(** Bytes of the header words written inside the run are the only other change. *)
Lemma wr_outside s a pre v r x :
  Forall size_ok pre → 0 ≤ v < 2 ^ 64 → fseg (hmem s) (free_head s) (frees a pre) r →
  (∀ y, y ∈ frees a pre → x < y + 8 ∨ y + 16 ≤ x) →
  hmem (wr s (lastlink LHead (frees a pre)) v) x = hmem s x.
Proof. intros Hs Hv Hf Hx. by destruct (wr_seg s pre a v r Hs Hv Hf) as (_ & H & _); apply H. Qed.

Lemma wr_word s a pre v r w :
  Forall size_ok pre → 0 ≤ v < 2 ^ 64 → fseg (hmem s) (free_head s) (frees a pre) r →
  a + span pre ≤ w → ld64 (hmem (wr s (lastlink LHead (frees a pre)) v)) w = ld64 (hmem s) w.
Proof.
  intros Hs Hv Hf Hw. apply ld64_frame. intros i Hi. eapply wr_outside; [done..|].
  intros y Hy. pose proof (frees_range _ _ _ Hs Hy). lia.
Qed.

(** Writes at or above the end of [pre] keep the list through [pre]. *)
Lemma fseg_above m m' p a pre r :
  Forall size_ok pre → (∀ x, x < a + span pre → m' x = m x) →
  fseg m p (frees a pre) r → fseg m' p (frees a pre) r.
Proof.
  intros Hs Hx. apply fseg_frame. intros y Hy. pose proof (frees_range _ _ _ Hs Hy).
  apply ld64_frame. intros i Hi. apply Hx. lia.
Qed.

Section take.
Context (s : heap) (pre post : blocks) (sz need : Z).
Let a := arena s.
Let b := a + span pre.
Let pp := lastlink LHead (frees a pre).
Hypothesis Hlay : heap_lay s (pre ++ [(sz, true)] ++ post).
Hypothesis Hneed : 32 ≤ need ≤ sz ∧ need mod 16 = 0.

(** The part of the found block that becomes the allocation. *)
Definition taken_size : Z := if 32 <=? sz - need then need else sz.
Definition taken_blocks : blocks :=
  if 32 <=? sz - need then [(need, false); (sz - need, true)] else [(sz, false)].

Lemma take_facts :
  Forall size_ok pre ∧ 32 ≤ sz ∧ sz mod 16 = 0 ∧ 0 < a ≤ b ∧ b + sz < 2 ^ 64 ∧ ld64 (hmem s) b = sz ∧
  (∃ r, fseg (hmem s) (free_head s) (frees a pre) b ∧ ld64 (hmem s) (b + 8) = r ∧ 0 ≤ r < 2 ^ 64).
Proof.
  destruct (replace_sizes _ _ _ _ Hlay) as (H1 & H2 & H3). apply Forall_singleton in H2 as [? ?].
  destruct Hlay as [Hb [Ha _] Ht Hbig Hsp _ Hh Hf]. rewrite !span_app in Hsp.
  pose proof (span_pos _ H1). pose proof (span_pos _ H3). change (span [(sz, true)]) with (sz + 0) in Hsp.
  apply hdrs_app in Hh as [_ [Hh _]]. rewrite frees_app in Hf. apply fseg_app in Hf as (r & Hf & Er & _).
  fold a b in Hh, Hf, Er. simpl in *. subst r.
  split_and!; [done|lia|done|lia|lia|subst a b; lia|done|]. eexists. split_and!; [done|done|..]; by apply ld64_range.
Qed.

(** The block is split: the tail stays in the free list in its place. *)
Lemma take_split :
  32 ≤ sz - need →
  let s1 := set_size s (b + need) (sz - need) in
  let s2 := set_next s1 (b + need) (next_of s1 b) in
  let s' := wr (set_size s2 b need) pp (b + need) in
  heap_lay s' (pre ++ [(need, false); (sz - need, true)] ++ post) ∧ size_of s' b = need ∧
  used_sz s' = used_sz s ∧
  (∀ x, owned a (pre ++ [(sz, true)] ++ post) x → hmem s' x = hmem s x).
Proof.
  destruct take_facts as (Hpre & Hsz & Hm & Ha & Hb & Hh & r & Hf & Hr & Hrr).
  pose proof (hl_bytes _ _ Hlay) as Hby. intros Hsp. cbv zeta.
  set (s3 := set_size (set_next _ _ _) b need).
  assert (E3 : hmem s3 = st64 (st64 (st64 (hmem s) (b + need) (sz - need)) (b + need + 8) r) b need).
  { unfold s3, next_of. simpl. rewrite ld64_st64_ne, Hr by lia. done. }
  assert (Hf3 : fseg (hmem s3) (free_head s3) (frees a pre) b).
  { eapply fseg_above; [done| |exact Hf]. intros x Hx. rewrite E3. by rewrite !st64_outside by lia. }
  assert (Hwd : ∀ w, b ≤ w → ld64 (hmem (wr s3 pp (b + need))) w = ld64 (hmem s3) w).
  { intros w Hw. eapply wr_word; [done|lia|done|done]. }
  destruct (wr_seg s3 pre a (b + need) b Hpre ltac:(lia) Hf3) as (Hf' & Hfr & Ea & Es & Eu).
  assert (Hout : ∀ x, x < b ∨ b + span [(sz, true)] ≤ x →
    (∀ y, y ∈ frees a pre → x < y + 8 ∨ y + 16 ≤ x) → hmem (wr s3 pp (b + need)) x = hmem s x).
  { intros x Hx Hy. change (span [(sz, true)]) with (sz + 0) in Hx. 
    transitivity (hmem s3 x); [exact (Hfr x Hy)|]. rewrite E3.
    by rewrite !st64_outside by lia. }
  split_and!.
  - eapply (lay_replace s _ pre [(sz, true)]); [done|exact Hout| |exact Ea|exact Es|..].
    + apply wr_bytes. rewrite E3. by repeat apply st64_bytes.
    + repeat constructor; simpl; try lia. zlia.
    + rewrite !span_cons. simpl. change (span []) with 0. lia.
    + simpl. fold a b. rewrite !Hwd, E3 by lia.
      rewrite ld64_st64_eq, !(ld64_st64_ne _ b), (ld64_st64_ne _ (b + need + 8)), ld64_st64_eq by lia. done.
    + intros q _ Hq. fold a b in Hq |- *. apply fseg_app in Hq as (q' & _ & _ & Hq). simpl in Hq.
      apply fseg_app. exists (b + need). split; [exact Hf'|]. simpl. split; [done|].
      rewrite Hwd, E3 by lia. rewrite ld64_st64_ne, ld64_st64_eq by lia. congruence.
  - unfold size_of. rewrite Hwd, E3, ld64_st64_eq by lia. done.
  - exact Eu.
  - intros x Hx. eapply (replace_owned s _ pre [(sz, true)] post Hlay Hout).
    rewrite !owned_app in Hx. fold a b in Hx |- *. simpl in Hx. destruct Hx as [|[[[??]|[]]|]]; auto; done.
Qed.

(** The whole block is taken. *)
Lemma take_whole :
  let s' := wr s pp (next_of s b) in
  heap_lay s' (pre ++ [(sz, false)] ++ post) ∧ size_of s' b = sz ∧ used_sz s' = used_sz s ∧
  (∀ x, owned a (pre ++ [(sz, true)] ++ post) x → hmem s' x = hmem s x).
Proof.
  destruct take_facts as (Hpre & Hsz & Hm & Ha & Hb & Hh & r & Hf & Hr & Hrr).
  pose proof (hl_bytes _ _ Hlay) as Hby. cbv zeta. unfold next_of. rewrite Hr.
  assert (Hwd : ∀ w, b ≤ w → ld64 (hmem (wr s pp r)) w = ld64 (hmem s) w).
  { intros w Hw. eapply wr_word; [done|lia|done|done]. }
  destruct (wr_seg s pre a r b Hpre Hrr Hf) as (Hf' & Hfr & Ea & Es & Eu).
  split_and!.
  - eapply (lay_replace s _ pre [(sz, true)]);
      [done|intros x _ Hy; by apply Hfr|by apply wr_bytes|exact Ea|exact Es|..].
    + repeat constructor; simpl; lia.
    + done.
    + simpl. fold a b. by rewrite Hwd by lia.
    + intros q _ Hq. fold a b in Hq |- *. apply fseg_app in Hq as (q' & _ & _ & Hq). simpl in Hq.
      simpl. rewrite app_nil_r. subst q. rewrite Hr. exact Hf'.
  - unfold size_of. by rewrite Hwd by lia.
  - exact Eu.
  - intros x Hx. eapply (replace_owned s _ pre [(sz, true)] post Hlay).
    + intros z _ Hy. by apply Hfr.
    + rewrite !owned_app in Hx. fold a b in Hx |- *. simpl in Hx. destruct Hx as [|[[[??]|[]]|]]; auto; done.
Qed.

Lemma take_block_spec :
  let s' := take_block s need pp b in
  heap_lay s' (pre ++ taken_blocks ++ post) ∧
  used_sz s' = u64 (used_sz s + taken_size) ∧
  (∀ x, owned a (pre ++ [(sz, true)] ++ post) x → hmem s' x = hmem s x).
Proof.
  destruct take_facts as (_ & _ & _ & _ & _ & Hh & _).
  unfold take_block, taken_size, taken_blocks. change (size_of s b) with (ld64 (hmem s) b). rewrite Hh.
  change MIN_SPLIT with 32. destruct (Z.leb_spec 32 (sz - need)) as [Hsp|Hsp].
  - destruct (take_split Hsp) as (Hl & Hz & Hu & Ho). split_and!; [|by simpl in *; rewrite Hz, Hu|done].
    by destruct Hl.
  - destruct take_whole as (Hl & Hz & Hu & Ho). split_and!; [|by simpl in *; rewrite Hz, Hu|done].
    by destruct Hl.
Qed.
End take.

Lemma coalesced_app l1 l2 :
  coalesced (l1 ++ l2) ↔
  coalesced l1 ∧ coalesced l2 ∧ (last_free l1 = true → hd_free l2 = false).
Proof.
  induction l1 as [|[z f] l1 IH]; simpl; [unfold last_free; simpl; naive_solver|].
  rewrite IH. destruct l1 as [|[z' f'] l1]; simpl.
  - unfold last_free. simpl. destruct f; naive_solver.
  - change (last_free ((z, f) :: (z', f') :: l1)) with (last_free ((z', f') :: l1)). naive_solver.
Qed.

Lemma need_of size :
  0 < size ≤ 2 ^ 64 - 32 → u64 (ALIGN16 size + HDR_SIZE) = (size + 15) / 16 * 16 + 16.
Proof.
  intros Hs. unfold ALIGN16, HDR_SIZE. rewrite (u64_small (size + 15)) by lia.
  change (u64 (Z.lnot 15)) with (2 ^ 64 - 2 ^ 4). rewrite land_align by lia.
  change (2 ^ 4) with 16. apply u64_small. zlia.
Qed.

Lemma live_elem a bl p c :
  (p, c) ∈ live a bl →
  ∃ pre post, bl = pre ++ [(c + 16, false)] ++ post ∧ p = a + span pre + 16.
Proof.
  revert a. induction bl as [|[sz f] bl IH]; intros a; simpl; [by rewrite elem_of_nil|].
  destruct f; rewrite ?elem_of_cons.
  - intros Hl. destruct (IH _ Hl) as (pre & post & -> & ->). exists ((sz, true) :: pre), post.
    rewrite span_cons. simpl. split; [done|lia].
  - intros [[= -> ->]|Hl].
    + exists [], bl. change (span []) with 0. unfold HDR_SIZE. split; [|lia]. simpl. do 2 f_equal. lia.
    + destruct (IH _ Hl) as (pre & post & -> & ->). exists ((sz, false) :: pre), post.
      rewrite span_cons. simpl. split; [done|lia].
Qed.

(** A payload byte of a live allocation is a byte of an allocated block. *)
Lemma live_owned a bl p c x : (p, c) ∈ live a bl → p - 16 ≤ x < p + c → owned a bl x.
Proof.
  intros Hl Hx. apply live_elem in Hl as (pre & post & -> & ->).
  rewrite !owned_app. right. left. simpl. left. split; [done|lia].
Qed.

Lemma live_range a bl p c :
  Forall size_ok bl → (p, c) ∈ live a bl → a + 16 ≤ p ∧ 16 ≤ c ∧ p + c ≤ a + span bl.
Proof.
  intros Hs Hl. apply live_elem in Hl as (pre & post & -> & ->).
  rewrite !Forall_app in Hs. destruct Hs as (H1 & H2 & H3). apply Forall_singleton in H2 as [? _].
  pose proof (span_pos _ H1). pose proof (span_pos _ H3). rewrite !span_app, span_cons.
  change (span []) with 0. simpl in *. lia.
Qed.

Lemma live_aligned a bl p c :
  Forall size_ok bl → a mod 16 = 0 → (p, c) ∈ live a bl → p mod 16 = 0.
Proof.
  intros Hs Ha Hl. apply live_elem in Hl as (pre & post & -> & ->).
  apply Forall_app in Hs as (H1 & _). pose proof (span_mod16 _ H1). zlia.
Qed.

Lemma take_block_arena s need pp b :
  arena (take_block s need pp b) = arena s ∧ arena_sz (take_block s need pp b) = arena_sz s.
Proof. unfold take_block. destruct pp, (_ <=? _); done. Qed.

(** Everything [kmalloc] does, in terms of the block list. *)
Lemma kmalloc_blocks s bl size :
  heap_wf s bl → 0 < size ≤ 2 ^ 64 - 32 →
  let need := (size + 15) / 16 * 16 + 16 in
  (kmalloc s size = (0, s) ∧ ∀ sz, (sz, true) ∈ bl → sz < need) ∨
  ∃ pre sz post s',
    bl = pre ++ [(sz, true)] ++ post ∧ need ≤ sz ∧ (∀ sz, (sz, true) ∈ pre → sz < need) ∧
    kmalloc s size = (arena s + span pre + 16, s') ∧
    heap_wf s' (pre ++ taken_blocks sz need ++ post) ∧
    arena s' = arena s ∧ arena_sz s' = arena_sz s ∧
    ∀ x, owned (arena s) bl x → hmem s' x = hmem s x.
Proof.
  intros (Hlay & Hco & Hu) Hs need. assert (Hneed : 32 ≤ need ∧ need mod 16 = 0) by (unfold need; zlia).
  unfold kmalloc. rewrite (proj2 (Z.eqb_neq size 0)), need_of by lia. fold need. clearbody need.
  pose proof (hl_sizes _ _ Hlay) as Hok. pose proof (hl_free _ _ Hlay) as Hf.
  pose proof (hl_hdrs _ _ Hlay) as Hh. pose proof (hl_arena _ _ Hlay) as [Ha _].
  assert (Hpos : Forall (λ y, 0 < y) (frees (arena s) bl)).
  { apply Forall_forall. intros y Hy. pose proof (frees_range _ _ _ Hok Hy). lia. }
  destruct (blocks_fit need bl) as [Hno|(pre & sz & post & -> & Hn & Hpre)].
  - left. split; [|done]. rewrite (find_fit_none s need LHead _ (frees (arena s) bl)); [done..|].
    intros y Hy. apply Hno. by eapply frees_size.
  - right. exists pre, sz, post. change ((sz, true) :: post) with ([(sz, true)] ++ post) in *.
    rewrite frees_app in Hf, Hpos. simpl in Hf, Hpos. apply hdrs_app in Hh as (Hh1 & Hh2 & _).
    pose proof (span_count _ Hok) as Hcnt. rewrite (hl_span _ _ Hlay) in Hcnt.
    apply Forall_app in Hok as [Hok1 Hok2].
    rewrite (find_fit_found s need LHead _ (frees (arena s) pre) (arena s + span pre)
               (frees (arena s + span pre + sz) post)).
    + destruct (take_block_spec s pre post sz need Hlay) as (Hl & Hus & Ho); [lia|].
      eexists. split_and!; [done|done|done|done|..].
      * split; [done|split].
        -- apply coalesced_app in Hco as (Hc1 & Hc2 & Hc3). simpl in Hc2, Hc3.
           apply coalesced_app. unfold taken_blocks. destruct (32 <=? sz - need); simpl; naive_solver.
        -- pose proof (used_bytes_bounds _ (hl_sizes _ _ Hl)) as Hub. rewrite (hl_span _ _ Hl) in Hub.
           pose proof (hl_top _ _ Hl). pose proof (hl_arena _ _ Hl).
           rewrite Hus, Hu. rewrite !used_bytes_app in *. unfold taken_blocks, taken_size in *.
           destruct (32 <=? sz - need); rewrite !used_bytes_cons in *; simpl in *;
             change (used_bytes []) with 0 in *; (rewrite u64_small; lia).
      * apply take_block_arena.
      * apply take_block_arena.
      * done.
    + done.
    + apply Forall_app in Hpos as [? Hp2]. inversion Hp2; subst. apply Forall_app. by repeat constructor.
    + intros y Hy. apply Hpre. by eapply frees_size.
    + unfold size_of. simpl in Hh2. lia.
    + pose proof (frees_length (arena s) pre). unfold list_fuel, zlen in *.
      rewrite !length_app in Hcnt. simpl in Hcnt. zlia.
Qed.

(** ** kfree *)

Lemma find_pos_spec s blk pp l1 l2 fuel :
  fseg (hmem s) (rd s pp) (l1 ++ l2) 0 → (∀ y, y ∈ l1 → 0 < y < blk) → (∀ y, y ∈ l2 → blk ≤ y) →
  (length l1 ≤ fuel)%nat → find_pos fuel s blk pp = lastlink pp l1.
Proof.
  revert pp fuel. induction l1 as [|y l1 IH]; intros pp fuel Hf H1 H2 Hl; simpl in *.
  - destruct fuel as [|fuel]; [done|]. simpl. destruct l2 as [|z l2]; simpl in Hf; [by rewrite Hf|].
    destruct Hf as [-> _]. rewrite (proj2 (Z.ltb_ge z blk)) by (apply H2; left). by rewrite andb_false_r.
  - destruct fuel as [|fuel]; [lia|]. destruct Hf as [E Hf]. simpl. rewrite E.
    pose proof (H1 y ltac:(left)). rewrite (proj2 (Z.eqb_neq y 0)), (proj2 (Z.ltb_lt y blk)) by lia. simpl.
    apply (IH (LNext y)); [done| |done|lia]. intros. apply H1. by right.
Qed.

(** Linking an allocated block into the free list at its place. *)
Section give.
Context (s : heap) (pre post : blocks) (sz : Z).
Let a := arena s.
Let b := a + span pre.
Let pp := lastlink LHead (frees a pre).
Hypothesis Hlay : heap_lay s (pre ++ [(sz, false)] ++ post).

Lemma give_facts :
  Forall size_ok pre ∧ Forall size_ok post ∧ 32 ≤ sz ∧ sz mod 16 = 0 ∧ 0 < a ≤ b ∧ b + sz < 2 ^ 64 ∧
  ld64 (hmem s) b = sz ∧
  ∃ r, fseg (hmem s) (free_head s) (frees a pre) r ∧ fseg (hmem s) r (frees (b + sz) post) 0 ∧
       0 ≤ r < 2 ^ 64.
Proof.
  destruct (replace_sizes _ _ _ _ Hlay) as (H1 & H2 & H3). apply Forall_singleton in H2 as [? ?].
  destruct Hlay as [Hb [Ha _] Ht Hbig Hsp _ Hh Hf]. rewrite !span_app in Hsp.
  pose proof (span_pos _ H1). pose proof (span_pos _ H3). change (span [(sz, false)]) with (sz + 0) in Hsp.
  apply hdrs_app in Hh as [_ [Hh _]]. rewrite frees_app in Hf. apply fseg_app in Hf as (r & Hf & Hr).
  fold a b in Hh, Hf, Hr. simpl in *.
  split_and!; [done|done|lia|done|lia|subst a b; lia|subst a b; lia|done|].
  exists r. split; [done|]. split; [done|]. destruct (frees (b + sz) post) as [|x l] eqn:E; simpl in Hr; [lia|].
  destruct Hr as [-> _]. assert (Hx : x ∈ frees (b + sz) post) by (rewrite E; left).
  pose proof (frees_range _ _ _ H3 Hx). subst a b. lia.
Qed.

Lemma give_pos : find_pos (list_fuel s) s b LHead = pp.
Proof.
  destruct give_facts as (H1 & H3 & Hsz & Hm & Ha & Hb & Hh & r & Hf & Hr & _).
  eapply find_pos_spec with (l2 := frees (b + sz) post).
  - simpl. apply fseg_app. eauto.
  - intros y Hy. pose proof (frees_range _ _ _ H1 Hy). lia.
  - intros y Hy. pose proof (frees_range _ _ _ H3 Hy). lia.
  - pose proof (span_count _ (hl_sizes _ _ Hlay)) as Hc. rewrite (hl_span _ _ Hlay) in Hc.
    pose proof (frees_length a pre). unfold list_fuel, zlen in *. rewrite !length_app in Hc. simpl in Hc. zlia.
Qed.

Lemma give_link :
  let s' := wr (set_next s b (rd s pp)) pp b in
  heap_lay s' (pre ++ [(sz, true)] ++ post) ∧ used_sz s' = used_sz s ∧ arena s' = arena s ∧
  ∀ x, owned a pre x ∨ owned (b + sz) post x → hmem s' x = hmem s x.
Proof.
  destruct give_facts as (H1 & H3 & Hsz & Hm & Ha & Hb & Hh & r & Hf & Hr & Hrr).
  pose proof (hl_bytes _ _ Hlay) as Hby. cbv zeta.
  assert (Er : rd s pp = r) by (apply fseg_rd; exact Hf). rewrite Er.
  set (s1 := set_next s b r).
  assert (Hf1 : fseg (hmem s1) (free_head s1) (frees a pre) r).
  { eapply fseg_above; [done| |exact Hf]. intros x Hx. simpl. by rewrite st64_outside by lia. }
  assert (Hwd : ∀ w, b ≤ w → ld64 (hmem (wr s1 pp b)) w = ld64 (hmem s1) w).
  { intros w Hw. eapply wr_word; [done|lia|done|done]. }
  destruct (wr_seg s1 pre a b r H1 ltac:(lia) Hf1) as (Hf' & Hfr & Ea & Es & Eu).
  assert (Hout : ∀ x, x < b ∨ b + span [(sz, false)] ≤ x →
    (∀ y, y ∈ frees a pre → x < y + 8 ∨ y + 16 ≤ x) → hmem (wr s1 pp b) x = hmem s x).
  { intros x Hx Hy. change (span [(sz, false)]) with (sz + 0) in Hx.
    transitivity (hmem s1 x); [exact (Hfr x Hy)|]. simpl. by rewrite st64_outside by lia. }
  split_and!; [|exact Eu|exact Ea|].
  - eapply (lay_replace s _ pre [(sz, false)]); [done|exact Hout| |exact Ea|exact Es|..].
    + apply wr_bytes. by apply st64_bytes.
    + repeat constructor; simpl; lia.
    + done.
    + simpl. fold a b. rewrite Hwd by lia. simpl. by rewrite ld64_st64_ne by lia.
    + intros q Hq0 Hq. fold a b in Hq |- *. simpl in Hq. rewrite app_nil_r in Hq.
      assert (q = r) as ->.
      { apply (fseg_rd s LHead) in Hq. fold pp in Hq. congruence. }
      apply fseg_app. exists b. split; [exact Hf'|]. simpl. split; [done|].
      rewrite Hwd by lia. simpl. by apply ld64_st64_eq.
  - intros x Hx. apply (replace_owned s _ pre [(sz, false)] post Hlay Hout). fold a b.
    change (span [(sz, false)]) with (sz + 0). by rewrite Z.add_0_r.
Qed.
End give.

(** Merging two neighbouring free blocks into the lower one. *)
Section merge.
Context (s : heap) (pre post : blocks) (n1 n2 : Z).
Let a := arena s.
Let b := a + span pre.
Let c := b + n1.
Hypothesis Hlay : heap_lay s (pre ++ [(n1, true); (n2, true)] ++ post).

Lemma merge_facts :
  32 ≤ n1 ∧ 32 ≤ n2 ∧ n1 mod 16 = 0 ∧ n2 mod 16 = 0 ∧ 0 < a ≤ b ∧ c + n2 < 2 ^ 64 ∧
  Forall size_ok pre ∧ size_of s b = n1 ∧ size_of s c = n2 ∧ next_of s b = c ∧ 0 ≤ next_of s c < 2 ^ 64 ∧
  fseg (hmem s) (free_head s) (frees a pre) b.
Proof.
  destruct (replace_sizes _ _ _ _ Hlay) as (H1 & H2 & H3).
  inversion H2 as [|?? [? ?] H2']; subst. apply Forall_singleton in H2' as [? ?].
  destruct Hlay as [Hb [Ha _] Ht Hbig Hsp _ Hh Hf]. rewrite !span_app, !span_cons in Hsp.
  pose proof (span_pos _ H1). pose proof (span_pos _ H3). change (span []) with 0 in Hsp.
  apply hdrs_app in Hh as [_ (Hh1 & Hh2 & _)]. rewrite frees_app in Hf.
  apply fseg_app in Hf as (r & Hf & -> & Hn & _). simpl in *.
  pose proof (ld64_range (hmem s) (c + 8) Hb) as Hcr.
  split_and!; try done; subst a b c; simpl in *; try lia; apply Hcr.
Qed.

Lemma merge_spec :
  let s1 := set_size s b (n1 + n2) in
  let s' := set_next s1 b (next_of s c) in
  heap_lay s' (pre ++ [(n1 + n2, true)] ++ post) ∧ used_sz s' = used_sz s ∧ arena s' = arena s ∧
  ∀ x, owned a pre x ∨ owned (c + n2) post x → hmem s' x = hmem s x.
Proof.
  destruct merge_facts as (? & ? & ? & ? & Ha & Hc & H1 & Hb1 & Hc1 & Hbn & Hcn & Hf).
  pose proof (hl_bytes _ _ Hlay) as Hby. cbv zeta.
  set (s' := set_next _ _ _).
  assert (E : hmem s' = st64 (st64 (hmem s) b (n1 + n2)) (b + 8) (next_of s c)) by done.
  assert (Hspan : span [(n1, true); (n2, true)] = n1 + n2)
    by (rewrite !span_cons; change (span []) with 0; simpl; lia).
  assert (Hout : ∀ x, x < b ∨ b + span [(n1, true); (n2, true)] ≤ x →
    (∀ y, y ∈ frees a pre → x < y + 8 ∨ y + 16 ≤ x) → hmem s' x = hmem s x).
  { intros x Hx _. rewrite E. by rewrite !st64_outside by lia. }
  split_and!; [|done|done|].
  - eapply (lay_replace s _ pre [(n1, true); (n2, true)]); [done|exact Hout| |done|done|..].
    + rewrite E. by repeat apply st64_bytes.
    + repeat constructor; simpl; [lia|zlia].
    + rewrite Hspan, span_cons. change (span []) with 0. simpl. lia.
    + cbn [hdrs]. fold a b. split; [|done]. rewrite E, ld64_st64_ne, ld64_st64_eq by lia. done.
    + intros q _ Hq. fold a b in Hq |- *. apply fseg_app in Hq as (q' & _ & _ & _ & Hq). simpl in Hq.
      apply fseg_app. exists b. split.
      * eapply fseg_above; [done| |exact Hf]. intros x Hx. rewrite E. by rewrite !st64_outside by lia.
      * cbn [frees fseg]. split; [done|]. rewrite E, ld64_st64_eq by lia. exact Hq.
  - intros x Hx. apply (replace_owned s _ pre _ post Hlay Hout). fold a b. rewrite Hspan, Z.add_assoc. done.
Qed.
End merge.

(** The block list after a free: the freed block merged with free neighbours. *)
Definition join_next (sz : Z) (post : blocks) : Z * blocks :=
  match post with (n, true) :: post' => (sz + n, post') | _ => (sz, post) end.
Definition join_prev (pre : blocks) (sz : Z) (post : blocks) : blocks :=
  match last pre with
  | Some (n, true) => removelast pre ++ [(n + sz, true)] ++ post
  | _ => pre ++ [(sz, true)] ++ post
  end.

Lemma coalesce_next_spec s pre sz post :
  heap_lay s (pre ++ [(sz, true)] ++ post) →
  let b := arena s + span pre in
  let s' := coalesce_next s b in
  let '(sz', post') := join_next sz post in
  heap_lay s' (pre ++ [(sz', true)] ++ post') ∧ used_sz s' = used_sz s ∧ arena s' = arena s ∧
  ∀ x, owned (arena s) pre x ∨ owned (b + sz) post x → hmem s' x = hmem s x.
Proof.
  intros Hlay b. destruct (take_facts s pre post sz Hlay) as (H1 & Hsz & Hm & Ha & Hb & Hh & r & Hf & Hr & Hrr).
  fold b in Ha, Hb, Hh, Hf, Hr. destruct (replace_sizes _ _ _ _ Hlay) as (_ & _ & H3).
  pose proof (hl_free _ _ Hlay) as Hfl. rewrite !frees_app in Hfl. simpl in Hfl. fold b in Hfl.
  apply fseg_app in Hfl as (r' & _ & _ & Hfl).
  rewrite span_cons in Hfl. change (span []) with 0 in Hfl. simpl in Hfl. rewrite Z.add_0_r in Hfl.
  unfold coalesce_next. change (next_of s b) with (ld64 (hmem s) (b + 8)).
  change (size_of s b) with (ld64 (hmem s) b). rewrite Hh.
  destruct post as [|[n [|]] post]; simpl.
  - simpl in Hfl. rewrite Hfl. simpl. done.
  - simpl in Hfl. destruct Hfl as [Hnx _]. rewrite Hnx.
    destruct (merge_facts s pre post sz n Hlay) as (_ & ? & _ & _ & Hab & Htop & _ & _ & Hc1 & _).
    fold b in Hab, Htop, Hc1. rewrite u64_small by lia. rewrite Z.eqb_refl, (proj2 (Z.eqb_neq (b + sz) 0)) by lia. simpl.
    destruct (merge_spec s pre post sz n Hlay) as (Hl & Hu & Har & Ho). fold b in Hl, Hu, Har, Ho.
    rewrite Hc1, u64_small by lia.
    assert (En : next_of (set_size s b (sz + n)) (b + sz) = next_of s (b + sz)).
    { unfold next_of. simpl. by rewrite ld64_st64_ne by lia. }
    rewrite En. split_and!; [exact Hl|exact Hu|exact Har|]. intros x Hx. apply Ho.
    destruct Hx as [|[[? _]|]]; [by left|done|by right].
  - assert (Hne : ld64 (hmem s) (b + 8) = 0 ∨ b + sz < ld64 (hmem s) (b + 8)).
    { apply Forall_cons in H3 as [[Hn _] H3']. simpl in Hn, Hfl. destruct (frees (b + sz + n) post) as [|y l] eqn:El.
      - by left.
      - destruct Hfl as [-> _]. right. assert (Hy : y ∈ frees (b + sz + n) post) by (rewrite El; left).
        pose proof (frees_range _ _ _ H3' Hy). lia. }
    rewrite u64_small by lia. destruct Hne as [->|Hne]; [done|].
    rewrite (proj2 (Z.eqb_neq (b + sz) _)) by lia. rewrite andb_false_r. done.
Qed.

Lemma coalesce_prev_spec s pre sz post :
  heap_lay s (pre ++ [(sz, true)] ++ post) →
  let b := arena s + span pre in
  let s' := coalesce_prev s (lastlink LHead (frees (arena s) pre)) b in
  heap_lay s' (join_prev pre sz post) ∧ used_sz s' = used_sz s ∧ arena s' = arena s ∧
  ∀ x, owned (arena s) pre x ∨ owned (b + sz) post x → hmem s' x = hmem s x.
Proof.
  intros Hlay b. destruct (take_facts s pre post sz Hlay) as (H1 & Hsz & Hm & Ha & Hb & Hh & r & Hf & Hr & Hrr).
  fold b in Ha, Hb, Hh, Hf, Hr. destruct pre as [|[n f] pre] using rev_ind; [done|]. clear IHpre.
  unfold join_prev. rewrite last_snoc. rewrite frees_app. destruct f; simpl.
  - rewrite lastlink_snoc. cbn [coalesce_prev].
    rewrite <- app_assoc in Hlay. simpl in Hlay.
    destruct (merge_facts s pre post n sz Hlay) as (? & _ & _ & _ & Hab & Htop & _ & Hb1 & Hc1 & _).
    destruct (merge_spec s pre post n sz Hlay) as (Hl & Hu & Har & Ho).
    subst b. rewrite span_app, span_cons in *. change (span []) with 0 in *. simpl in *.
    rewrite Z.add_0_r, Z.add_assoc in *. rewrite Hb1, u64_small by lia. rewrite Z.eqb_refl.
    rewrite Hc1, u64_small by lia. rewrite removelast_last.
    assert (En : next_of (set_size s (arena s + span pre) (n + sz)) (arena s + span pre + n) =
                 next_of s (arena s + span pre + n)).
    { unfold next_of. simpl. by rewrite ld64_st64_ne by lia. }
    rewrite En. split_and!; [exact Hl|exact Hu|exact Har|]. intros x Hx. apply Ho.
    rewrite owned_app in Hx. simpl in Hx. destruct Hx as [[|[[??]|[]]]|]; [by left|done|by right].
  - rewrite app_nil_r.
    assert (Hno : coalesce_prev s (lastlink LHead (frees (arena s) pre)) b = s).
    { apply Forall_app in H1 as [H1 Hn]. apply Forall_singleton in Hn as [Hn _].
      pose proof (hl_hdrs _ _ Hlay) as Hhd. rewrite <- app_assoc in Hhd. apply hdrs_app in Hhd as [Hhd _].
      assert (Hx : ∀ x, x ∈ frees (arena s) pre → 0 < x ∧ x + ld64 (hmem s) x < b ∧ 0 ≤ ld64 (hmem s) x).
      { intros x Hx. pose proof (frees_range _ _ _ H1 Hx). destruct (frees_size _ _ _ _ H1 Hhd Hx) as [_ ?].
        pose proof (ld64_range (hmem s) x (hl_bytes _ _ Hlay)). pose proof (hl_arena _ _ Hlay).
        subst b. rewrite span_app, span_cons. change (span []) with 0. simpl in *. lia. }
      destruct (frees (arena s) pre) as [|x l _] using rev_ind; [done|]. rewrite lastlink_snoc.
      destruct (Hx x) as (? & ? & ?); [set_solver|]. cbn [coalesce_prev].
      change (size_of s x) with (ld64 (hmem s) x). rewrite u64_small by lia.
      by rewrite (proj2 (Z.eqb_neq _ _)) by lia. }
    rewrite Hno. done.
Qed.

Lemma join_prev_facts pre sz post sz0 :
  coalesced (pre ++ [(sz0, false)]) → coalesced post → hd_free post = false →
  coalesced (join_prev pre sz post) ∧
  used_bytes (join_prev pre sz post) = used_bytes pre + used_bytes post ∧
  ∀ a, live a (join_prev pre sz post) = live a pre ++ live (a + span pre + sz) post.
Proof.
  intros Hc1 Hc2 Hh. apply coalesced_app in Hc1 as (Hc1 & _ & _). unfold join_prev.
  destruct pre as [|[n f] pre _] using rev_ind; simpl.
  - split_and!; [done|done|done|]. intros a. by rewrite Z.add_0_r.
  - rewrite last_snoc. apply coalesced_app in Hc1 as (Hc1 & _ & Hl). simpl in Hl. destruct f.
    + rewrite removelast_last. split_and!.
      * apply coalesced_app. simpl. naive_solver.
      * rewrite !used_bytes_app, !used_bytes_cons. change (used_bytes []) with 0. simpl. lia.
      * intros a. rewrite !live_app, span_app, span_cons. simpl. change (span []) with 0.
        rewrite app_nil_r. do 2 f_equal. lia.
    + split_and!.
      * rewrite <- app_assoc. apply coalesced_app. simpl. naive_solver.
      * rewrite !used_bytes_app, !used_bytes_cons. change (used_bytes []) with 0. simpl. lia.
      * intros a. rewrite !live_app, !span_app, !span_cons. simpl. change (span []) with 0.
        do 2 f_equal; lia.
Qed.

(** Freeing an allocated block in terms of the block list. *)
Lemma kfree_blocks s pre sz post :
  heap_wf s (pre ++ [(sz, false)] ++ post) →
  let p := arena s + span pre + 16 in
  ∃ bl', heap_wf (kfree s p) bl' ∧
    arena (kfree s p) = arena s ∧
    live (arena s) bl' = live (arena s) pre ++ live (arena s + span pre + sz) post ∧
    ∀ x, owned (arena s) pre x ∨ owned (arena s + span pre + sz) post x → hmem (kfree s p) x = hmem s x.
Proof.
  intros (Hlay & Hco & Hu) p.
  destruct (give_facts s pre post sz Hlay) as (H1 & H3 & Hsz & Hm & Ha & Hb & Hh & _).
  set (b := arena s + span pre) in *. set (u := u64 (used_sz s - sz)).
  assert (Hlay0 : heap_lay (set_used_sz s u) (pre ++ [(sz, false)] ++ post)) by (by destruct Hlay).
  unfold kfree. rewrite (proj2 (Z.eqb_neq p 0)) by lia.
  replace (p - HDR_SIZE) with b by (unfold p, HDR_SIZE; lia).
  change (size_of s b) with (ld64 (hmem s) b). rewrite Hh. fold u. unfold insert_free.
  rewrite (give_pos (set_used_sz s u) pre post sz Hlay0 : find_pos _ _ b LHead = _). simpl arena.
  destruct (give_link (set_used_sz s u) pre post sz Hlay0) as (Hl1 & Hu1 & Ha1 & Ho1).
  simpl arena in Hl1, Hu1, Ha1, Ho1. fold b in Hl1, Hu1, Ha1, Ho1. cbv zeta.
  set (s1 := wr _ _ b) in *.
  pose proof (coalesce_next_spec s1 pre sz post Hl1) as Hn. cbv zeta in Hn.
  rewrite Ha1 in Hn. fold b in Hn. destruct (join_next sz post) as [sz' post'] eqn:Ej.
  destruct Hn as (Hl2 & Hu2 & Ha2 & Ho2). set (s2 := coalesce_next s1 b) in *.
  pose proof (coalesce_prev_spec s2 pre sz' post' Hl2) as Hp. cbv zeta in Hp. rewrite Ha2 in Hp. fold b in Hp.
  destruct Hp as (Hl3 & Hu3 & Ha3 & Ho3). set (s3 := coalesce_prev s2 _ b) in *.
  apply coalesced_app in Hco as (Hc1 & [Hc2 _] & _).
  assert (Hj : coalesced post' ∧ hd_free post' = false ∧ used_bytes post' = used_bytes post ∧
               (∀ q, live (q + sz') post' = live (q + sz) post) ∧
               (∀ x, owned (b + sz) post x → owned (b + sz') post' x)).
  { unfold join_next in Ej. destruct post as [|[n [|]] post]; simplify_eq; simpl in *;
      [done| |by destruct Hc2].
    destruct Hc2 as [Hc2 Hc3]. split_and!; [done|by apply Hc3|done|intros; by rewrite Z.add_assoc|].
    intros x [[? _]|Hx]; [done|]. by rewrite Z.add_assoc. }
  destruct Hj as (Hjc & Hjh & Hju & Hjl & Hjo).
  destruct (join_prev_facts pre sz' post' sz) as (Hk1 & Hk2 & Hk3); [|done|done|].
  { apply coalesced_app. simpl. done. }
  exists (join_prev pre sz' post'). split_and!.
  - split; [done|]. split; [done|]. rewrite Hu3, Hu2, Hu1. simpl. unfold u. rewrite Hu, Hk2, Hju.
    pose proof (used_bytes_bounds _ H1). pose proof (used_bytes_bounds _ H3).
    rewrite !used_bytes_app, used_bytes_cons. change (used_bytes []) with 0. simpl.
    pose proof (hl_span _ _ Hlay) as Hsp. pose proof (hl_top _ _ Hlay).
    rewrite !span_app, span_cons in Hsp. change (span []) with 0 in Hsp. simpl in Hsp.
    rewrite u64_small; lia.
  - congruence.
  - rewrite Hk3, Hjl. done.
  - intros x Hx. rewrite Ho3, Ho2, Ho1; [done|..]; destruct Hx; auto.
Qed.


(** ** The allocator's contract *)

Lemma live_split_disjoint a pre c post q d :
  Forall size_ok (pre ++ [(c + 16, false)] ++ post) →
  (q, d) ∈ live a pre ++ live (a + span pre + (c + 16)) post →
  a + span pre + 16 + c ≤ q ∨ q + d ≤ a + span pre + 16.
Proof.
  rewrite !Forall_app, elem_of_app. intros (H1 & _ & H3) [Hl|Hl].
  - pose proof (live_range _ _ _ _ H1 Hl). lia.
  - pose proof (live_range _ _ _ _ H3 Hl). lia.
Qed.

(** [kmalloc] succeeded: a new allocation [p] of capacity [cap] appears among
    the live ones, inside the arena, aligned, apart from every other; the
    payloads of the others are untouched. *)
Definition alloc_post (s : heap) (bl : blocks) (s' : heap) (p size : Z) : Prop :=
  ∃ bl' l1 l2 cap,
    heap_wf s' bl' ∧ arena s' = arena s ∧ arena_sz s' = arena_sz s ∧
    live (arena s) bl = l1 ++ l2 ∧ live (arena s) bl' = l1 ++ (p, cap) :: l2 ∧
    size ≤ cap ∧ p mod 16 = 0 ∧ arena s < p ∧ p + cap ≤ arena s + arena_sz s ∧
    ∀ q d, (q, d) ∈ live (arena s) bl →
      (p + cap ≤ q ∨ q + d ≤ p) ∧ ∀ x, q ≤ x < q + d → hmem s' x = hmem s x.

Lemma kmalloc_alloc s bl size :
  heap_wf s bl → 0 < size ≤ 2 ^ 64 - 32 →
  let '(p, s') := kmalloc s size in
  (p = 0 ∧ s' = s ∧ ∀ sz, (sz, true) ∈ bl → sz < (size + 15) / 16 * 16 + 16) ∨
  (0 < p ∧ alloc_post s bl s' p size).
Proof.
  intros Hwf Hs.
  destruct (kmalloc_blocks s bl size Hwf Hs) as [[-> H]|(pre & sz & post & s' & -> & Hn & _ & -> & Hwf' & Ea & Es & Ho)];
    [left; done|right].
  set (need := (size + 15) / 16 * 16 + 16) in *.
  assert (size + 16 ≤ need) by (unfold need; zlia).
  destruct (hl_arena _ _ (proj1 Hwf)) as [Hapos Ha16].
  destruct (replace_sizes _ _ _ _ (proj1 Hwf)) as (H1 & H2 & H3).
  pose proof (span_pos _ H1). split; [lia|].
  pose proof (hl_sizes _ _ (proj1 Hwf')) as Hok. pose proof (hl_span _ _ (proj1 Hwf')) as Hsp.
  set (cap := taken_size sz need - 16).
  assert (Htk : live (arena s) (pre ++ taken_blocks sz need ++ post) =
                live (arena s) pre ++ (arena s + span pre + 16, cap) :: live (arena s + span pre + sz) post).
  { unfold cap, taken_blocks, taken_size. rewrite !live_app. f_equal.
    destruct (32 <=? sz - need); simpl; unfold HDR_SIZE; do 2 f_equal; rewrite ?span_cons;
      change (span []) with 0; simpl; lia. }
  assert (Hin : (arena s + span pre + 16, cap) ∈ live (arena s) (pre ++ taken_blocks sz need ++ post)).
  { rewrite Htk. set_solver. }
  pose proof (live_range _ _ _ _ Hok Hin). pose proof (live_aligned _ _ _ _ Hok Ha16 Hin).
  exists (pre ++ taken_blocks sz need ++ post), (live (arena s) pre), (live (arena s + span pre + sz) post), cap.
  assert (Hlv : live (arena s) (pre ++ [(sz, true)] ++ post) =
                live (arena s) pre ++ live (arena s + span pre + sz) post).
  { rewrite !live_app. simpl. rewrite span_cons. change (span []) with 0. simpl.
    do 2 f_equal; lia. }
  rewrite Es in Hsp. split_and!; try done; [|lia|lia|].
  - unfold cap, taken_size. destruct (32 <=? sz - need); lia.
  - intros q d Hq. split.
    + rewrite Hlv in Hq. assert (taken_size sz need ≤ sz).
      { unfold taken_size. destruct (Z.leb_spec 32 (sz - need)); lia. }
      apply elem_of_app in Hq as [Hq|Hq]; [pose proof (live_range _ _ _ _ H1 Hq)|pose proof (live_range _ _ _ _ H3 Hq)];
        unfold cap; lia.
    + intros x Hx. apply Ho. eapply live_owned; [done|lia].
Qed.

(** [kfree] of a live allocation removes exactly it. *)
Lemma kfree_live s bl p c :
  heap_wf s bl → (p, c) ∈ live (arena s) bl →
  ∃ bl' l1 l2,
    heap_wf (kfree s p) bl' ∧ arena (kfree s p) = arena s ∧
    live (arena s) bl = l1 ++ (p, c) :: l2 ∧ live (arena s) bl' = l1 ++ l2 ∧
    ∀ q d, (q, d) ∈ l1 ++ l2 → ∀ x, q ≤ x < q + d → hmem (kfree s p) x = hmem s x.
Proof.
  intros Hwf Hl. apply live_elem in Hl as (pre & post & -> & ->).
  destruct (kfree_blocks s pre (c + 16) post Hwf) as (bl' & Hwf' & Ea & Hlv & Ho).
  exists bl', (live (arena s) pre), (live (arena s + span pre + (c + 16)) post).
  split_and!; [done|done| |done|].
  - rewrite live_app. simpl. unfold HDR_SIZE. do 3 f_equal; lia.
  - intros q d Hq x Hx. apply Ho. apply elem_of_app in Hq as [Hq|Hq]; [left|right];
      (eapply live_owned; [done|lia]).
Qed.

(** C9: [kmalloc] on a well-formed heap either returns NULL, with the heap
    unchanged and no free block large enough, or returns a 16-byte aligned
    address of a block of at least [size] bytes inside the arena, disjoint from
    every live allocation; no byte of a live allocation changes and the heap
    stays well formed. *)
Theorem kmalloc_spec s bl size :
  heap_wf s bl → 0 < size ≤ 2 ^ 64 - 32 →
  let '(p, s') := kmalloc s size in
  (p = 0 ∧ s' = s ∧ ∀ sz, (sz, true) ∈ bl → sz < (size + 15) / 16 * 16 + 16) ∨
  (0 < p ∧ alloc_post s bl s' p size).
Proof. apply kmalloc_alloc. Qed.

(** C12: [kfree] of a live allocation removes exactly that allocation, leaves
    every byte of the others alone, and re-establishes the invariant: the free
    list is address-ordered and fully coalesced and [used_sz] is exact. *)
Theorem kfree_spec s bl p c :
  heap_wf s bl → (p, c) ∈ live (arena s) bl →
  ∃ bl' l1 l2,
    heap_wf (kfree s p) bl' ∧ arena (kfree s p) = arena s ∧
    live (arena s) bl = l1 ++ (p, c) :: l2 ∧ live (arena s) bl' = l1 ++ l2 ∧
    ∀ q d, (q, d) ∈ l1 ++ l2 → ∀ x, q ≤ x < q + d → hmem (kfree s p) x = hmem s x.
Proof. apply kfree_live. Qed.

(** A client may write anywhere in its allocation. *)
Lemma client_write s bl p c m' :
  heap_wf s bl → (p, c) ∈ live (arena s) bl → mem_bytes m' →
  (∀ x, x < p ∨ p + c ≤ x → m' x = hmem s x) → heap_wf (set_hmem s m') bl.
Proof.
  intros (Hlay & Hco & Hu) Hl Hm' Hx. split; [|done].
  apply live_elem in Hl as (pre & post & -> & ->).
  destruct (give_facts s pre post (c + 16) Hlay) as (H1 & H3 & Hsz & _ & _ & _ & Hh & _).
  assert (Hspan : span [(c + 16, false)] = c + 16) by (rewrite span_cons; change (span []) with 0; simpl; lia).
  eapply (lay_replace s (set_hmem s m') pre [(c + 16, false)]); [done| |done|done|done|..].
  - intros x Hx' _. apply Hx. lia.
  - by apply (replace_sizes _ _ _ _ Hlay).
  - done.
  - cbn [hdrs]. split; [|done]. rewrite <- Hh. apply ld64_frame. intros i Hi. apply Hx. lia.
  - intros r _ Hr. simpl in *. rewrite app_nil_r in *. eapply fseg_above; [done| |exact Hr].
    intros x ?. apply Hx. lia.
Qed.

Lemma size_of_live s bl p c :
  heap_wf s bl → (p, c) ∈ live (arena s) bl → size_of s (p - HDR_SIZE) = c + 16 ∧ 0 < p ∧ p + c < 2 ^ 64.
Proof.
  intros (Hlay & _) Hl. pose proof (live_range _ _ _ _ (hl_sizes _ _ Hlay) Hl) as Hr.
  rewrite (hl_span _ _ Hlay) in Hr. pose proof (hl_top _ _ Hlay). pose proof (hl_arena _ _ Hlay).
  apply live_elem in Hl as (pre & post & -> & ->). split; [|lia].
  destruct (give_facts s pre post (c + 16) Hlay) as (_ & _ & _ & _ & _ & _ & Hh & _).
  unfold size_of, HDR_SIZE. rewrite <- Hh. f_equal. lia.
Qed.

(** The move of [krealloc]: [np] is a fresh allocation of at least [c] bytes. *)
Lemma realloc_move s bl s1 p c np size :
  heap_wf s bl → (p, c) ∈ live (arena s) bl → c < size → alloc_post s bl s1 np size →
  let s' := kfree (set_hmem s1 (memcpy (hmem s1) np p c)) p in
  ∃ bl' cap,
    heap_wf s' bl' ∧ size ≤ cap ∧ (p, c) :: live (arena s) bl' ≡ₚ (np, cap) :: live (arena s) bl ∧
    (∀ i, 0 ≤ i < c → hmem s' (np + i) = hmem s (p + i)) ∧
    (∀ q d, (q, d) ∈ live (arena s) bl → (q, d) ≠ (p, c) → ∀ x, q ≤ x < q + d → hmem s' x = hmem s x).
Proof.
  intros Hwf Hp Hc (bl1 & l1 & l2 & cap & Hwf1 & Ea & Es & El & El1 & Hcap & _ & _ & _ & Hfr).
  destruct (size_of_live s bl p c Hwf Hp) as (_ & Hp0 & _). pose proof (live_range _ _ _ _ (hl_sizes _ _ (proj1 Hwf)) Hp) as Hpr.
  destruct (Hfr p c Hp) as [Hdis Hpk]. set (m2 := memcpy (hmem s1) np p c).
  assert (Hm1 : mem_bytes (hmem s1)) by apply Hwf1.
  assert (Hmv : ∀ x, m2 x = moved (hmem s1) np p c x) by (intros x; apply memcpy_moved; [done|lia|lia]).
  assert (Hnp : (np, cap) ∈ live (arena s1) bl1) by (rewrite Ea, El1; set_solver).
  assert (Hwf2 : heap_wf (set_hmem s1 m2) bl1).
  { eapply (client_write s1 bl1 np cap); [done|done| |].
    - intros x. rewrite Hmv. unfold moved. case_if; apply Hm1.
    - intros x Hx. rewrite Hmv. unfold moved.
      destruct (Z.leb_spec np x), (Z.ltb_spec x (np + c)); simpl; (lia || done). }
  assert (Hp1 : (p, c) ∈ live (arena s1) bl1) by (rewrite Ea, El1; rewrite El in Hp; set_solver).
  destruct (kfree_live (set_hmem s1 m2) bl1 p c Hwf2 Hp1) as (bl' & k1 & k2 & Hwf' & Ea' & Ek & Ek' & Hkf).
  simpl in Ek, Ek', Hkf. rewrite Ea in *.
  assert (Hperm : (p, c) :: live (arena s) bl' ≡ₚ (np, cap) :: live (arena s) bl).
  { rewrite Ek', El, (Permutation_middle k1 k2), <- Ek, El1. by rewrite <- Permutation_middle. }
  assert (Hrest : ∀ q d, (q, d) ∈ live (arena s) bl1 → (q, d) ≠ (p, c) → (q, d) ∈ k1 ++ k2).
  { intros q d Hq Hne. rewrite Ek in Hq. set_solver. }
  exists bl', cap. split_and!; [done|done|done|..].
  - intros i Hi. rewrite (Hkf np cap); [|apply Hrest; [done|]|lia].
    + simpl. rewrite Hmv. unfold moved.
      rewrite (proj2 (Z.leb_le _ _)), (proj2 (Z.ltb_lt _ _)) by lia. simpl.
      replace (p + (np + i - np)) with (p + i) by lia. apply Hpk. lia.
    + intros [= -> ->]. lia.
  - intros q d Hq Hne x Hx. destruct (Hfr q d Hq) as [Hd Hqk].
    rewrite (Hkf q d); [|apply Hrest; [rewrite El1; rewrite El in Hq; set_solver|done]|done].
    simpl. rewrite Hmv. unfold moved.
    destruct (Z.leb_spec np x), (Z.ltb_spec x (np + c)); simpl; [lia|by apply Hqk..].
Qed.

(** [krealloc] of a live allocation keeps it when it is large enough,
    leaves it untouched when memory is exhausted, and otherwise replaces it by a
    larger one with the same contents; every other allocation keeps its place
    and its bytes. *)
Theorem krealloc_spec s bl p c size :
  heap_wf s bl → (p, c) ∈ live (arena s) bl → 0 < size ≤ 2 ^ 64 - 32 →
  let '(q, s') := krealloc s p size in
  (size ≤ c ∧ q = p ∧ s' = s) ∨ (c < size ∧ q = 0 ∧ s' = s) ∨
  (c < size ∧ 0 < q ∧ ∃ bl' cap,
     heap_wf s' bl' ∧ size ≤ cap ∧ (p, c) :: live (arena s) bl' ≡ₚ (q, cap) :: live (arena s) bl ∧
     (∀ i, 0 ≤ i < c → hmem s' (q + i) = hmem s (p + i)) ∧
     (∀ r d, (r, d) ∈ live (arena s) bl → (r, d) ≠ (p, c) →
        ∀ x, r ≤ x < r + d → hmem s' x = hmem s x)).
Proof.
  intros Hwf Hp Hs. destruct (size_of_live s bl p c Hwf Hp) as (Hsz & Hp0 & Htop).
  pose proof (live_range _ _ _ _ (hl_sizes _ _ (proj1 Hwf)) Hp) as Hpr.
  unfold krealloc. rewrite (proj2 (Z.eqb_neq p 0)), (proj2 (Z.eqb_neq size 0)) by lia.
  rewrite Hsz. unfold HDR_SIZE. rewrite u64_small by lia. replace (c + 16 - 16) with c by lia.
  destruct (Z.leb_spec size c); [by left|].
  pose proof (kmalloc_alloc s bl size Hwf Hs) as Hk. destruct (kmalloc s size) as [np s1].
  destruct Hk as [(-> & -> & _)|[Hnp Hal]]; [rewrite Z.eqb_refl; right; by left|].
  rewrite (proj2 (Z.eqb_neq np 0)) by lia. right. right. split_and!; [done|done|]. by eapply realloc_move.
Qed.

(** [kcalloc] returns a zeroed allocation whenever [n * size] does not
    overflow and memory is available. *)
Theorem kcalloc_spec s bl n size :
  heap_wf s bl → 0 < n * size ≤ 2 ^ 64 - 32 →
  let '(p, s') := kcalloc s n size in
  (p = 0 ∧ s' = s) ∨
  (0 < p ∧ (∃ bl' cap, heap_wf s' bl' ∧ n * size ≤ cap ∧ (p, cap) ∈ live (arena s) bl') ∧
   (∀ x, p ≤ x < p + n * size → hmem s' x = 0) ∧
   ∀ q d, (q, d) ∈ live (arena s) bl → ∀ x, q ≤ x < q + d → hmem s' x = hmem s x).
Proof.
  intros Hwf Hn. unfold kcalloc. rewrite u64_small by lia.
  pose proof (kmalloc_alloc s bl (n * size) Hwf Hn) as Hk.
  destruct (kmalloc s (n * size)) as [p s1].
  destruct Hk as [(-> & -> & _)|[Hp Hal]]; [rewrite Z.eqb_refl; by left|].
  rewrite (proj2 (Z.eqb_neq p 0)) by lia. right.
  destruct Hal as (bl1 & l1 & l2 & cap & Hwf1 & Ea & Es & El & El1 & Hcap & _ & _ & _ & Hfr).
  assert (Hin : (p, cap) ∈ live (arena s1) bl1) by (rewrite Ea, El1; set_solver).
  assert (Hm1 : mem_bytes (hmem s1)) by apply Hwf1.
  assert (Hms : ∀ x, memset (hmem s1) p 0 (n * size) x = filled (hmem s1) p 0 (n * size) x).
  { intros x. rewrite memset_filled by lia. done. }
  split_and!; [done| | |].
  - exists bl1, cap. split_and!; [|done|by rewrite <- Ea].
    eapply client_write; [done|done| |].
    + intros x. rewrite Hms. unfold filled. case_if; [lia|apply Hm1].
    + intros x Hx. rewrite Hms. unfold filled.
      destruct (Z.leb_spec p x), (Z.ltb_spec x (p + n * size)); simpl; (lia || done).
  - intros x Hx. simpl. rewrite Hms. unfold filled.
    by rewrite (proj2 (Z.leb_le _ _)), (proj2 (Z.ltb_lt _ _)) by lia.
  - intros q d Hq x Hx. simpl. rewrite Hms. unfold filled. destruct (Hfr q d Hq) as [Hd Hk].
    destruct (Z.leb_spec p x), (Z.ltb_spec x (p + n * size)); simpl; [lia|by apply Hk..].
Qed.

(** ** Histories

    The kernel's use of the heap, with the requested size of each live
    allocation as ghost state: allocations, failed allocations, releases of live
    allocations, and writes by owners inside what they asked for. *)
Inductive heap_step : heap * gmap Z Z → heap * gmap Z Z → Prop :=
  | hs_alloc s lv size p s' :
      0 < size ≤ 2 ^ 64 - 32 → kmalloc s size = (p, s') → p ≠ 0 →
      heap_step (s, lv) (s', <[p := size]> lv)
  | hs_fail s lv size s' :
      0 < size ≤ 2 ^ 64 - 32 → kmalloc s size = (0, s') → heap_step (s, lv) (s', lv)
  | hs_free s lv p n :
      lv !! p = Some n → heap_step (s, lv) (kfree s p, delete p lv)
  | hs_write s lv p n m' :
      lv !! p = Some n → mem_bytes m' → (∀ x, x < p ∨ p + n ≤ x → m' x = hmem s x) →
      heap_step (s, lv) (set_hmem s m', lv).

(** The ghost map and the blocks agree. *)
Definition heap_inv (st : heap * gmap Z Z) : Prop :=
  ∃ bl, heap_wf st.1 bl ∧
    (∀ p n, st.2 !! p = Some n → ∃ c, 0 < n ≤ c ∧ (p, c) ∈ live (arena st.1) bl) ∧
    (∀ p c, (p, c) ∈ live (arena st.1) bl → is_Some (st.2 !! p)).

(** Two live entries at the same address are the same entry. *)
Lemma live_unique a bl p c d l1 l2 :
  Forall size_ok bl → live a bl = l1 ++ (p, c) :: l2 → (p, d) ∉ l1 ++ l2.
Proof.
  intros Hs. revert a l1. induction Hs as [|[sz f] bl [Hsz _] Hs IH]; intros a l1 E; simpl in E.
  { by destruct l1. }
  destruct f; [by eapply IH|]. simpl in Hsz. destruct l1 as [|x l1].
  - injection E as E1 _ E2. intros Hin. simpl in Hin. rewrite <- E2 in Hin.
    pose proof (live_range _ _ _ _ Hs Hin). unfold HDR_SIZE in *. lia.
  - injection E as E1 E2. simpl. rewrite elem_of_cons. intros [E3|Hin]; [|by eapply IH].
    assert (Hp : (p, c) ∈ live (a + sz) bl) by (rewrite E2; set_solver).
    pose proof (live_range _ _ _ _ Hs Hp). subst x. injection E3 as E3 _. unfold HDR_SIZE in *. lia.
Qed.

Lemma heap_step_inv st st' : heap_inv st → heap_step st st' → heap_inv st'.
Proof.
  intros (bl & Hwf & H1 & H2) Hst. inversion Hst as
    [s lv size p s' Hs Hk Hp|s lv size s' Hs Hk|s lv p n Hl|s lv p n m' Hl Hm Hx]; subst; simpl in *.
  - pose proof (kmalloc_alloc s bl size Hwf Hs) as H. rewrite Hk in H.
    destruct H as [(-> & _)|(Hp0 & bl' & l1 & l2 & cap & Hwf' & Ea & _ & El & El' & Hc & _)]; [done|].
    exists bl'. simpl. rewrite Ea. split_and!; [done|..].
    + intros q n. rewrite El'. destruct (decide (q = p)) as [->|].
      * rewrite lookup_insert_eq. intros [= <-]. exists cap. split; [lia|set_solver].
      * rewrite lookup_insert_ne by done. intros Hq. destruct (H1 q n Hq) as (c & ? & Hin).
        exists c. split; [done|]. rewrite El in Hin. set_solver.
    + intros q c. rewrite El'. intros Hq. destruct (decide (q = p)) as [->|].
      * rewrite lookup_insert_eq. by eauto.
      * rewrite lookup_insert_ne by done. apply (H2 q c). rewrite El. set_solver.
  - pose proof (kmalloc_alloc s bl size Hwf Hs) as H. rewrite Hk in H.
    destruct H as [(_ & -> & _)|(? & _)]; [|lia]. by exists bl.
  - destruct (H1 p n Hl) as (c & Hc & Hin).
    destruct (kfree_live s bl p c Hwf Hin) as (bl' & l1 & l2 & Hwf' & Ea & El & El' & _).
    exists bl'. simpl. rewrite Ea. split_and!; [done|..].
    + intros q k. rewrite lookup_delete_Some. intros [Hne Hq]. destruct (H1 q k Hq) as (d & ? & Hd).
      exists d. split; [done|]. rewrite El', El in *. set_solver.
    + intros q d Hq. rewrite El' in Hq. assert (q ≠ p).
      { intros ->. by eapply (live_unique (arena s) bl p c d); [apply Hwf|..]. }
      rewrite lookup_delete_ne by done. apply (H2 q d). rewrite El. set_solver.
  - destruct (H1 p n Hl) as (c & Hc & Hin). exists bl. simpl. split_and!; [|done|done].
    eapply client_write; [done|done|done|]. intros x Hx'. apply Hx. lia.
Qed.

(** The heap [heap_init] builds is one free block. *)
Lemma one_block_wf m a n :
  mem_bytes m → 0 < a → a mod 16 = 0 → 32 ≤ n → n mod 16 = 0 → a + n < 2 ^ 64 →
  ld64 m a = n → ld64 m (a + 8) = 0 → heap_wf (mkHeap m a a n 0) [(n, true)].
Proof.
  intros Hm Ha Ha16 Hn Hn16 Ht Hh Hx. split; [|done].
  split; simpl; rewrite ?span_cons; change (span []) with 0; simpl; try done; try lia.
  by repeat constructor.
Qed.

Lemma contig_hhdm s start n : hhdm (iter_up contig_mark start n s) = hhdm s.
Proof.
  apply (iter_up_ind (λ _ s', hhdm s' = hhdm s) contig_mark start n s); [done|].
  intros i s' _ <-. done.
Qed.

Lemma alloc_contig_range p n phys q :
  pmm_wf p → 0 < n → pmm_alloc_contig p n = (phys, q) → phys ≠ 0 →
  ∃ st, phys = st * PAGE_SIZE ∧ 0 ≤ st ∧ st + n ≤ total_frames p ∧ hhdm q = hhdm p ∧ pmm_wf q.
Proof.
  intros Hw Hn E Hne. pose proof (alloc_contig_wf p n Hw ltac:(lia)) as Hw'. rewrite E in Hw'.
  destruct (contig_scan (bitmap p) n (Z.to_nat (total_frames p)) 0 0 0) as [st|] eqn:Hs.
  - destruct (alloc_contig_Some p n st Hw Hn Hs) as (s1 & _ & Hst & Hfin & _ & Heq & _).
    exists st. split_and!; [congruence|done|done| |done].
    unfold pmm_alloc_contig in E. rewrite Hs in E. destruct (n =? 0); [by simplify_eq|].
    injection E as _ <-. cbn [hhdm]. apply contig_hhdm.
  - unfold pmm_alloc_contig in E. rewrite Hs in E. destruct (n =? 0); by simplify_eq.
Qed.

Lemma fresh_block_wf m a n :
  mem_bytes m → 0 < a → a mod 16 = 0 → 32 ≤ n → n mod 16 = 0 → a + n < 2 ^ 64 →
  heap_wf (set_next (set_size (mkHeap m a a n 0) a n) a 0) [(n, true)].
Proof.
  intros. unfold set_next, set_size, set_hmem. cbn [hmem free_head arena arena_sz used_sz].
  apply one_block_wf; try done; [by repeat apply st64_bytes|..].
  - rewrite ld64_st64_ne, ld64_st64_eq by lia. done.
  - rewrite ld64_st64_eq by lia. done.
Qed.

Lemma heap_bytes : HEAP_FRAMES * PAGE_SIZE = 67108864.
Proof. vm_compute. done. Qed.

Lemma heap_init_wf p m s p' :
  pmm_wf p → mem_bytes m → 0 ≤ hhdm p → hhdm p mod PAGE_SIZE = 0 →
  hhdm p + MAX_FRAMES * PAGE_SIZE < 2 ^ 64 →
  heap_init p m = Some (s, p') → heap_wf s [(HEAP_FRAMES * PAGE_SIZE, true)] ∧ pmm_wf p'.
Proof.
  intros Hw Hm H0 Hal Ht. unfold heap_init.
  destruct (pmm_alloc_contig p HEAP_FRAMES) as [phys q] eqn:E.
  destruct (Z.eqb_spec phys 0) as [|Hnz]; [done|]. intros [= <- <-].
  destruct (alloc_contig_range p HEAP_FRAMES phys q Hw ltac:(done) E Hnz) as (st & -> & Hst & Hfin & Hh & Hq).
  split; [|done]. pose proof (wf_total _ Hw) as Htot. clear E.
  assert (Hb : st * PAGE_SIZE + 67108864 ≤ MAX_FRAMES * PAGE_SIZE).
  { rewrite <- heap_bytes. rewrite <- Z.mul_add_distr_r. apply Z.mul_le_mono_nonneg_r; [done|lia]. }
  rewrite heap_bytes. unfold Pmm.phys_to_virt. rewrite Hh.
  change PAGE_SIZE with 4096 in *. generalize dependent (MAX_FRAMES * 4096). intros top Htop Hb.
  rewrite u64_small by lia. apply fresh_block_wf; [done|lia| |lia|done|lia].
  clear -Hal. zlia.
Qed.

Lemma no_live_one_block a bl :
  Forall size_ok bl → bl ≠ [] → coalesced bl → live a bl = [] → bl = [(span bl, true)].
Proof.
  intros Hs Hne Hc Hl. destruct bl as [|[n f] bl]; [done|]. simpl in Hl. destruct f; [|done].
  destruct bl as [|[n' f'] bl].
  - rewrite span_cons. change (span []) with 0. simpl. by rewrite Z.add_0_r.
  - simpl in Hl. destruct f'; [|done]. destruct Hc as [_ Hc]. by specialize (Hc eq_refl).
Qed.

(** C13: in every history of allocations, releases and owner writes from a fresh
    heap, live allocations are pairwise disjoint and inside the arena; and once
    everything is released the heap is again one free block with no byte
    accounted as used, so the largest allocation succeeds: the allocator never
    leaks or fragments permanently. *)
Theorem heap_histories s0 n s lv :
  heap_wf s0 [(n, true)] → rtc heap_step (s0, ∅) (s, lv) →
  (∀ p k q j, lv !! p = Some k → lv !! q = Some j →
     arena s < p ∧ p + k ≤ arena s + arena_sz s ∧ (p = q ∨ p + k ≤ q ∨ q + j ≤ p)) ∧
  (lv = ∅ → used_sz s = 0 ∧ ∃ s', kmalloc s (arena_sz s - 16) = (arena s + 16, s')).
Proof.
  intros H0 Hrtc.
  assert (Hinv : heap_inv (s, lv)).
  { eapply (rtc_invariant heap_step heap_inv); [apply heap_step_inv|exact Hrtc|].
    exists [(n, true)]. split_and!; [done|done|]. simpl. intros ??. by rewrite elem_of_nil. }
  destruct Hinv as (bl & Hwf & H1 & H2). simpl in *. destruct Hwf as (Hlay & Hco & Hu).
  pose proof (hl_sizes _ _ Hlay) as Hok. pose proof (hl_span _ _ Hlay) as Hsp.
  split.
  - intros p k q j Hp Hq. destruct (H1 p k Hp) as (c & Hc & Hpc), (H1 q j Hq) as (d & Hd & Hqd).
    pose proof (live_range _ _ _ _ Hok Hpc). split_and!; [lia|lia|].
    destruct (decide (p = q)) as [|Hne]; [by left|right].
    apply live_elem in Hpc as (pre & post & -> & ->).
    assert (Hq' : (q, d) ∈ live (arena s) pre ++ live (arena s + span pre + (c + 16)) post).
    { rewrite live_app in Hqd. simpl in Hqd. unfold HDR_SIZE in Hqd. set_solver by lia. }
    pose proof (live_split_disjoint _ _ _ _ _ _ Hok Hq'). lia.
  - intros ->. assert (Hnil : live (arena s) bl = []).
    { destruct (live (arena s) bl) as [|[p c] l] eqn:E; [done|].
      destruct (H2 p c) as [? Hx]; [set_solver|]. by rewrite lookup_empty in Hx. }
    pose proof (hl_arena _ _ Hlay) as [Ha Ha16]. pose proof (hl_top _ _ Hlay). pose proof (hl_big _ _ Hlay).
    assert (Hbl : bl = [(arena_sz s, true)]).
    { rewrite <- Hsp. apply (no_live_one_block (arena s)); [done| |done|done].
      intros ->. change (span []) with 0 in Hsp. lia. }
    clear H1 H2. subst bl. split; [done|].
    assert (16 ≤ arena s) by zlia.
    assert (Hn : (arena_sz s - 16 + 15) / 16 * 16 + 16 = arena_sz s).
    { apply Forall_singleton in Hok as [_ Hm]. simpl in Hm. clear -Hm. zlia. }
    destruct (kmalloc_blocks s [(arena_sz s, true)] (arena_sz s - 16)) as
      [[_ Hno]|(pre & sz & post & s' & E & _ & _ & Hk & _)]; [done|lia| |].
    + rewrite Hn in Hno. specialize (Hno (arena_sz s) ltac:(left)). lia.
    + destruct pre as [|? pre]; [|by destruct pre].
      change (span []) with 0 in Hk. rewrite Z.add_0_r in Hk. by eexists.
Qed.

(** The size computation wraps: a request within 31 bytes of [2^64] rounds
    to at most 16 bytes, so [kmalloc] "succeeds" on the first free block for a
    request larger than any arena. *)
Theorem kmalloc_huge_request_succeeds s bl size :
  heap_wf s bl → free_head s ≠ 0 → 2 ^ 64 - 31 ≤ size < 2 ^ 64 →
  (kmalloc s size).1 = free_head s + 16 ∧ arena_sz s < size.
Proof.
  intros (Hlay & _) Hfh Hs. pose proof (hl_arena _ _ Hlay). pose proof (hl_top _ _ Hlay).
  split.
  2:{ pose proof (hl_arena _ _ Hlay) as [? Hm]. pose proof (span_mod16 _ (hl_sizes _ _ Hlay)) as Hm2.
      rewrite (hl_span _ _ Hlay) in Hm2. zlia. }
  assert (Hneed : u64 (ALIGN16 size + HDR_SIZE) ≤ 16).
  { unfold ALIGN16, HDR_SIZE. change (u64 (Z.lnot 15)) with (2 ^ 64 - 2 ^ 4).
    rewrite land_align by (lia || apply u64_range). change (2 ^ 4) with 16. zlia. }
  assert (Hsz : 32 ≤ size_of s (free_head s)).
  { pose proof (hl_free _ _ Hlay) as Hf. destruct (frees (arena s) bl) as [|a l] eqn:E; simpl in Hf; [done|].
    destruct Hf as [-> _]. destruct (frees_size (hmem s) (arena s) bl a) as [Hin _];
      [apply Hlay|apply Hlay|rewrite E; left|].
    pose proof (hl_sizes _ _ Hlay) as Hok. rewrite Forall_forall in Hok. by destruct (Hok _ Hin). }
  unfold kmalloc. rewrite (proj2 (Z.eqb_neq size 0)) by lia. cbn [find_fit].
  rewrite (proj2 (Z.eqb_neq _ _) Hfh), (proj2 (Z.ltb_ge _ _)) by lia. done.
Qed.

(** ** A small heap *)

Definition demo_heap : heap :=
  set_next (set_size (mkHeap (λ _, 0) 4096 4096 1024 0) 4096 1024) 4096 0.
Lemma demo_heap_wf : heap_wf demo_heap [(1024, true)].
Proof. apply fresh_block_wf; done. Qed.

(** The same arena with its first 64 bytes allocated. *)
Definition demo_heap2 : heap :=
  mkHeap (st64 (st64 (st64 (λ _, 0) 4096 64) 4160 960) 4168 0) 4160 4096 1024 64.
Lemma demo_heap2_wf : heap_wf demo_heap2 [(64, false); (960, true)].
Proof.
  split; [|split; [by simpl|done]].
  split; [|done..| | |].
  - by repeat apply st64_bytes.
  - by repeat constructor.
  - by vm_compute.
  - by vm_compute.
Qed.
Lemma demo_heap2_live : (4112, 48) ∈ live (arena demo_heap2) [(64, false); (960, true)].
Proof. vm_compute. left. Qed.

Lemma kmalloc_spec_witness :
  let '(p, s') := kmalloc demo_heap 100 in
  (p = 0 ∧ s' = demo_heap ∧ ∀ sz, (sz, true) ∈ [(1024, true)] → sz < (100 + 15) / 16 * 16 + 16) ∨
  (0 < p ∧ alloc_post demo_heap [(1024, true)] s' p 100).
Proof. exact (kmalloc_spec demo_heap [(1024, true)] 100 demo_heap_wf ltac:(lia)). Defined.

Lemma kfree_spec_witness :
  ∃ bl' l1 l2,
    heap_wf (kfree demo_heap2 4112) bl' ∧ arena (kfree demo_heap2 4112) = arena demo_heap2 ∧
    live (arena demo_heap2) [(64, false); (960, true)] = l1 ++ (4112, 48) :: l2 ∧
    live (arena demo_heap2) bl' = l1 ++ l2 ∧
    ∀ q d, (q, d) ∈ l1 ++ l2 → ∀ x, q ≤ x < q + d → hmem (kfree demo_heap2 4112) x = hmem demo_heap2 x.
Proof. exact (kfree_spec demo_heap2 [(64, false); (960, true)] 4112 48 demo_heap2_wf demo_heap2_live). Defined.

Lemma krealloc_spec_witness :
  let '(q, s') := krealloc demo_heap2 4112 100 in
  (100 ≤ 48 ∧ q = 4112 ∧ s' = demo_heap2) ∨ (48 < 100 ∧ q = 0 ∧ s' = demo_heap2) ∨
  (48 < 100 ∧ 0 < q ∧ ∃ bl' cap,
     heap_wf s' bl' ∧ 100 ≤ cap ∧
     (4112, 48) :: live (arena demo_heap2) bl' ≡ₚ
       (q, cap) :: live (arena demo_heap2) [(64, false); (960, true)] ∧
     (∀ i, 0 ≤ i < 48 → hmem s' (q + i) = hmem demo_heap2 (4112 + i)) ∧
     (∀ r d, (r, d) ∈ live (arena demo_heap2) [(64, false); (960, true)] → (r, d) ≠ (4112, 48) →
        ∀ x, r ≤ x < r + d → hmem s' x = hmem demo_heap2 x)).
Proof.
  exact (krealloc_spec demo_heap2 [(64, false); (960, true)] 4112 48 100 demo_heap2_wf
           demo_heap2_live ltac:(lia)).
Defined.

Lemma kcalloc_spec_witness :
  let '(p, s') := kcalloc demo_heap 3 8 in
  (p = 0 ∧ s' = demo_heap) ∨
  (0 < p ∧ (∃ bl' cap, heap_wf s' bl' ∧ 3 * 8 ≤ cap ∧ (p, cap) ∈ live (arena demo_heap) bl') ∧
   (∀ x, p ≤ x < p + 3 * 8 → hmem s' x = 0) ∧
   ∀ q d, (q, d) ∈ live (arena demo_heap) [(1024, true)] →
     ∀ x, q ≤ x < q + d → hmem s' x = hmem demo_heap x).
Proof. exact (kcalloc_spec demo_heap [(1024, true)] 3 8 demo_heap_wf ltac:(lia)). Defined.

(** One allocation of 100 bytes, at 4112, released again. *)
Lemma heap_histories_witness :
  let s := kfree (kmalloc demo_heap 100).2 4112 in
  used_sz s = 0 ∧ ∃ s', kmalloc s (arena_sz s - 16) = (arena s + 16, s').
Proof.
  apply (heap_histories demo_heap 1024 (kfree (kmalloc demo_heap 100).2 4112)
           (delete 4112 (<[4112 := 100]> ∅)) demo_heap_wf).
  - eapply rtc_l; [|apply rtc_once].
    + apply (hs_alloc demo_heap ∅ 100 4112 (kmalloc demo_heap 100).2); [lia|vm_compute; reflexivity|done].
    + apply (hs_free _ _ 4112 100). apply lookup_insert_eq.
  - reflexivity.
Defined.

Lemma kmalloc_huge_request_succeeds_witness :
  (kmalloc demo_heap (2 ^ 64 - 1)).1 = free_head demo_heap + 16 ∧ arena_sz demo_heap < 2 ^ 64 - 1.
Proof.
  exact (kmalloc_huge_request_succeeds demo_heap [(1024, true)] (2 ^ 64 - 1) demo_heap_wf
           ltac:(done) ltac:(lia)).
Defined.
