(* ===== verification/Klog.v ===== *)
(** * The kernel log

    The message buffer ([kernel/lib/msgbuf.c]), the formatted output of
    [kernel/lib/kprintf.c] and the byte stream of the serial port
    ([kernel/arch/x86_64/serial.c], without the wait for the transmitter).  The
    console lock makes each call one step. *)

From S2P Require Import Prelude Ring Mem CString.

(** ** The message buffer *)

Definition MSGBUF_SIZE : Z := 16384.

Record msgbuf := mkMsgbuf { g_buf : list Z; g_head : Z; g_count : Z; g_ready : bool }.

Definition msgbuf_init (b : msgbuf) : msgbuf := mkMsgbuf (g_buf b) 0 0 true.

Definition msgbuf_putc (b : msgbuf) (c : Z) : msgbuf :=
  let b := if negb (g_ready b) then msgbuf_init b else b in
  mkMsgbuf ((g_buf b).[g_head b <- c]) ((g_head b + 1) mod MSGBUF_SIZE)
           (if g_count b <? MSGBUF_SIZE then g_count b + 1 else g_count b) (g_ready b).

Definition msgbuf_write (b : msgbuf) (s : list Z) : msgbuf := foldl msgbuf_putc b s.

Definition msgbuf_len (b : msgbuf) : Z := g_count b.

(** The bytes stored at [dst]. *)
Definition msgbuf_copy (b : msgbuf) (max : Z) : list Z :=
  if (max =? 0) || (g_count b =? 0) then []
  else
    let n := if max <? g_count b then max else g_count b in
    let start := if g_count b =? MSGBUF_SIZE then g_head b else 0 in
    (λ i, (g_buf b).[(start + i) mod MSGBUF_SIZE]) <$> seqZ 0 n.

(** ** The console *)

Record console := mkConsole { serial : list Z; msgs : msgbuf }.

(** [serial_putc]: a line feed is sent as carriage return and line feed. *)
Definition serial_putc (out : list Z) (c : Z) : list Z := if c =? 10 then out ++ [13; c] else out ++ [c].

Definition cons_putc (k : console) (c : Z) : console := mkConsole (serial_putc (serial k) c) (msgbuf_putc (msgs k) c).

Definition put_bytes (k : console) (s : list Z) : console := foldl cons_putc k s.

Definition NULL_TEXT : list Z := [40; 110; 117; 108; 108; 41].   (* "(null)" *)

(** The C string at [a]; fuel bounds its length. *)
Fixpoint cstring (fuel : nat) (m : mem) (a : Z) : list Z :=
  match fuel with
  | O => []
  | S fuel => if m a =? 0 then [] else m a :: cstring fuel m (a + 1)
  end.

Definition cons_write (fuel : nat) (m : mem) (k : console) (s : Z) : console :=
  put_bytes k (if s =? 0 then NULL_TEXT else cstring fuel m s).

Definition kputs (fuel : nat) (m : mem) (k : console) (s : Z) : console := cons_write fuel m k s.

(** [kwrite]: at most [n] bytes, up to the first NUL. *)
Definition kwrite (m : mem) (k : console) (s n : Z) : console :=
  if (s =? 0) || (n =? 0) then k else put_bytes k (cstring (Z.to_nat n) m s).

(** ** Numbers *)

(** [digits[d]]. *)
Definition digit_char (upper : bool) (d : Z) : Z :=
  if d <? 10 then 48 + d else if upper then 55 + d else 87 + d.

(** The loop that fills [buf]: the characters stored, in the order of the
    indices. *)
Fixpoint put_digits (fuel : nat) (v base : Z) (upper : bool) : list Z :=
  match fuel with
  | O => []
  | S fuel => if v =? 0 then [] else digit_char upper (v mod base) :: put_digits fuel (v / base) base upper
  end.

Definition UINT_BUF : Z := 32.
Definition uint_buf (v base : Z) (upper : bool) : list Z :=
  if v =? 0 then [48] else put_digits 64 v base upper.

Definition put_uint (k : console) (v base : Z) (upper : bool) : console :=
  put_bytes k (reverse (uint_buf v base upper)).

(** [-v] of the smallest integer is itself. *)
Definition put_int (k : console) (v : Z) : console :=
  if v <? 0 then put_uint (cons_putc k 45) (u64 (- v)) 10 false else put_uint k v 10 false.

(** ** Formats *)

Fixpoint skip_while (fuel : nat) (p : Z → bool) (m : mem) (a : Z) : Z :=
  match fuel with
  | O => a
  | S fuel => if p (m a) then skip_while fuel p m (a + 1) else a
  end.

Definition is_flag (c : Z) : bool := (c =? 43) || (c =? 45) || (c =? 48) || (c =? 32) || (c =? 35).
Definition is_digit (c : Z) : bool := (48 <=? c) && (c <=? 57).
Definition is_ell (c : Z) : bool := c =? 108.

(** One conversion; [ap] are the 64-bit slots of the argument list, [None] when
    an argument is missing. *)
Definition convert (fuel : nat) (m : mem) (k : console) (c : Z) (islong : bool) (ap : list Z) :
    option (console * list Z) :=
  let uarg v := if islong : bool then u64 v else u32 v in
  let sarg v := if islong : bool then s64 v else s32 v in
  if c =? 99 then match ap with v :: ap => Some (cons_putc k (u8 v), ap) | [] => None end
  else if c =? 115 then match ap with v :: ap => Some (cons_write fuel m k v, ap) | [] => None end
  else if (c =? 100) || (c =? 105) then match ap with v :: ap => Some (put_int k (sarg v), ap) | [] => None end
  else if c =? 117 then match ap with v :: ap => Some (put_uint k (uarg v) 10 false, ap) | [] => None end
  else if c =? 120 then match ap with v :: ap => Some (put_uint k (uarg v) 16 false, ap) | [] => None end
  else if c =? 88 then match ap with v :: ap => Some (put_uint k (uarg v) 16 true, ap) | [] => None end
  else if c =? 112 then
    match ap with v :: ap => Some (put_uint (put_bytes k [48; 120]) (u64 v) 16 false, ap) | [] => None end
  else if c =? 37 then Some (cons_putc k 37, ap)
  else Some (cons_putc (cons_putc k 37) c, ap).

(** The loop over the format; [None] is lack of fuel or of arguments. *)
Fixpoint kvprintf (fuel : nat) (m : mem) (k : console) (fmt : Z) (ap : list Z) : option console :=
  match fuel with
  | O => None
  | S n =>
      if m fmt =? 0 then Some k
      else if negb (m fmt =? 37) then kvprintf n m (cons_putc k (m fmt)) (fmt + 1) ap
      else
        let f := skip_while fuel is_flag m (fmt + 1) in
        let f := skip_while fuel is_digit m f in
        let f' := skip_while fuel is_ell m f in
        match convert fuel m k (m f') (negb (f' =? f)) ap with
        | None => None
        | Some (k, ap) => kvprintf n m k (f' + 1) ap
        end
  end.

(** ** The buffer holds the end of the log *)

Definition mb_start (b : msgbuf) : Z := if g_count b =? MSGBUF_SIZE then g_head b else 0.
Definition mb_contents (b : msgbuf) : list Z := ring_contents MSGBUF_SIZE (g_buf b) (mb_start b) (g_count b).

Record msgbuf_ok (b : msgbuf) : Prop := {
  mb_len : zlen (g_buf b) = MSGBUF_SIZE;
  mb_head : 0 ≤ g_head b < MSGBUF_SIZE;
  mb_count : 0 ≤ g_count b ≤ MSGBUF_SIZE;
  mb_room : g_count b < MSGBUF_SIZE → g_head b = g_count b;
  mb_ready : g_ready b = true;
}.

Lemma putc_step b c :
  msgbuf_ok b →
  msgbuf_ok (msgbuf_putc b c) ∧
  mb_contents (msgbuf_putc b c) =
    (if g_count b <? MSGBUF_SIZE then mb_contents b else tail (mb_contents b)) ++ [c].
Proof.
  intros [H1 H2 H3 H4 H5]. unfold msgbuf_putc. rewrite H5. cbn [negb]. destruct (Z.ltb_spec (g_count b) MSGBUF_SIZE) as [Hlt|Hge].
  - specialize (H4 Hlt). rewrite H4. split.
    + constructor; cbn; [by rewrite zlen_aset|apply Z.mod_pos_bound; unfold MSGBUF_SIZE; lia|lia| |done].
      intros ?. rewrite Z.mod_small by lia. done.
    + unfold mb_contents, mb_start. cbn [g_buf g_head g_count]. destruct (Z.eqb_spec (g_count b) MSGBUF_SIZE); [lia|].
      pose proof (ring_push MSGBUF_SIZE (g_buf b) 0 (g_count b) c ltac:(unfold MSGBUF_SIZE; lia) H1 ltac:(lia) ltac:(lia)) as Hp.
      rewrite Z.add_0_l, Z.mod_small in Hp by lia. rewrite <- Hp.
      destruct (Z.eqb_spec (g_count b + 1) MSGBUF_SIZE) as [E|]; [|done]. by rewrite E, Z_mod_same_full.
  - assert (E : g_count b = MSGBUF_SIZE) by lia. split.
    + constructor; cbn; [by rewrite zlen_aset|apply Z.mod_pos_bound; unfold MSGBUF_SIZE; lia|lia|lia|done].
    + unfold mb_contents, mb_start. cbn [g_buf g_head g_count]. rewrite E, Z.eqb_refl.
      rewrite (ring_pop MSGBUF_SIZE (g_buf b) (g_head b) MSGBUF_SIZE) by (unfold MSGBUF_SIZE in *; lia). cbn [tail].
      pose proof (ring_push MSGBUF_SIZE (g_buf b) ((g_head b + 1) mod MSGBUF_SIZE) (MSGBUF_SIZE - 1) c ltac:(unfold MSGBUF_SIZE; lia) H1
                    ltac:(apply Z.mod_pos_bound; unfold MSGBUF_SIZE; lia) ltac:(unfold MSGBUF_SIZE; lia)) as Hp.
      rewrite Z.sub_add in Hp. rewrite <- Hp. f_equal. rewrite Zplus_mod_idemp_l.
      replace (g_head b + 1 + (MSGBUF_SIZE - 1)) with (g_head b + 1 * MSGBUF_SIZE) by lia.
      by rewrite Z_mod_plus_full, Z.mod_small by lia.
Qed.

(** The last [MSGBUF_SIZE] bytes. *)
Definition last_bytes (s : list Z) : list Z := drop (length s - Z.to_nat MSGBUF_SIZE) s.

Lemma write_log b s :
  msgbuf_ok b → g_count b = 0 → msgbuf_ok (msgbuf_write b s) ∧ mb_contents (msgbuf_write b s) = last_bytes s.
Proof.
  intros Hok H0. unfold msgbuf_write. induction s as [|c s IH] using rev_ind; [cbn [foldl]; split; [done|]; unfold mb_contents; by rewrite H0, ring_contents_0 by lia|].
  rewrite foldl_snoc. destruct IH as [Hok' IH]. destruct (putc_step _ c Hok') as [Hok2 ->]. split; [done|]. rewrite IH.
  assert (Hl : zlen (mb_contents (foldl msgbuf_putc b s)) = g_count (foldl msgbuf_putc b s)) by (apply ring_contents_length, Hok').
  rewrite IH in Hl. unfold last_bytes, zlen in *. rewrite length_drop in Hl. pose proof (mb_count _ Hok'). assert (Hpos : 0 < MSGBUF_SIZE) by done.
  rewrite length_app. cbn [length]. destruct (Z.ltb_spec (g_count (foldl msgbuf_putc b s)) MSGBUF_SIZE).
  - rewrite drop_app_le by lia. f_equal. f_equal. lia.
  - rewrite drop_app_le by lia. f_equal. replace (length s + 1 - Z.to_nat MSGBUF_SIZE)%nat with ((length s - Z.to_nat MSGBUF_SIZE) + 1)%nat by lia. rewrite <- drop_drop. by destruct (drop _ s).
Qed.

Lemma copy_contents b max : msgbuf_ok b → 0 ≤ max → msgbuf_copy b max = take (Z.to_nat max) (mb_contents b).
Proof.
  intros Hok Hm. pose proof (mb_count _ Hok). unfold msgbuf_copy, mb_contents, ring_contents. fold (mb_start b).
  destruct (Z.eqb_spec max 0) as [->|]; [done|]. destruct (Z.eqb_spec (g_count b) 0) as [->|]; [rewrite (seqZ_nil 0 0) by done; cbn; by rewrite take_nil|]. cbn [orb].
  rewrite <- fmap_take. f_equal. destruct (Z.ltb_spec max (g_count b)) as [Hlt|Hge].
  - replace (g_count b) with (max + (g_count b - max)) by lia. rewrite seqZ_app by lia.
    rewrite take_app_le by (rewrite length_seqZ; lia). rewrite take_ge by (rewrite length_seqZ; lia). done.
  - rewrite take_ge by (rewrite length_seqZ; lia). done.
Qed.

(** The message buffer keeps the end of the log.  Whatever is written to an
    empty buffer, its invariant holds, and reading it returns the oldest [max]
    of the last [MSGBUF_SIZE] bytes, in the order they were written. *)
Theorem msgbuf_keeps_last b s max :
  msgbuf_ok b → g_count b = 0 → 0 ≤ max →
  msgbuf_ok (msgbuf_write b s) ∧ msgbuf_copy (msgbuf_write b s) max = take (Z.to_nat max) (last_bytes s).
Proof. intros Hok H0 Hm. destruct (write_log b s Hok H0) as [Hok' E]. split; [done|]. by rewrite copy_contents, E. Qed.

Lemma bss_ok : msgbuf_ok (msgbuf_init (mkMsgbuf (replicate (Z.to_nat MSGBUF_SIZE) 0) 0 0 false)).
Proof. constructor; cbn; [unfold zlen; by rewrite length_replicate|unfold MSGBUF_SIZE; lia..|done|done]. Qed.

Lemma msgbuf_keeps_last_witness :
  msgbuf_copy (msgbuf_write (msgbuf_init (mkMsgbuf (replicate (Z.to_nat MSGBUF_SIZE) 0) 0 0 false)) [104; 105]) 10 = [104; 105].
Proof. destruct (msgbuf_keeps_last _ [104; 105] 10 bss_ok eq_refl ltac:(lia)) as [_ ->]. vm_compute. reflexivity. Defined.

(** ** Numbers read back *)

Definition digit_value (c : Z) : Z := if c <? 58 then c - 48 else if c <? 71 then c - 55 else c - 87.
Definition read_uint (base : Z) (s : list Z) : Z := foldl (λ v c, v * base + digit_value c) 0 s.

Lemma digit_value_char u d : 0 ≤ d < 16 → digit_value (digit_char u d) = d.
Proof.
  intros Hd. unfold digit_value, digit_char. destruct (Z.ltb_spec d 10); [destruct (Z.ltb_spec (48 + d) 58); lia|].
  destruct u; [destruct (Z.ltb_spec (55 + d) 58), (Z.ltb_spec (55 + d) 71)|destruct (Z.ltb_spec (87 + d) 58), (Z.ltb_spec (87 + d) 71)]; lia.
Qed.

Section digits.
Context (base : Z) (u : bool).
Hypothesis Hbase : 2 ≤ base ≤ 16.

Lemma read_snoc s c : read_uint base (s ++ [c]) = read_uint base s * base + digit_value c.
Proof. unfold read_uint. by rewrite foldl_snoc. Qed.

(** The loop writes the digits of [v], least significant first. *)
Lemma put_digits_spec fuel v :
  0 ≤ v < base ^ Z.of_nat fuel →
  read_uint base (reverse (put_digits fuel v base u)) = v ∧
  (v ≠ 0 → ∃ c s, reverse (put_digits fuel v base u) = c :: s ∧ digit_value c ≠ 0).
Proof.
  revert v. induction fuel as [|fuel IH]; intros v Hv; [simpl in Hv; assert (v = 0) as -> by lia; by split|]. cbn [put_digits].
  rewrite Nat2Z.inj_succ, Z.pow_succ_r in Hv by lia.
  destruct (Z.eqb_spec v 0) as [->|Hne]; [by split|].
  destruct (IH (v / base)) as [IH1 IH2]; [split; [apply Z.div_pos; lia|apply Z.div_lt_upper_bound; lia]|].
  pose proof (Z.mod_pos_bound v base ltac:(lia)). pose proof (Z.div_mod v base ltac:(lia)).
  rewrite reverse_cons. split.
  - rewrite read_snoc, IH1, digit_value_char by lia. lia.
  - intros _. destruct (decide (v / base = 0)) as [E|E].
    + rewrite E. destruct fuel; cbn [put_digits]; [|rewrite Z.eqb_refl]; cbn;
        (eexists _, _; split; [reflexivity|rewrite digit_value_char by lia; lia]).
    + destruct (IH2 E) as (c & s & -> & Hc). by exists c, (s ++ [digit_char u (v mod base)]).
Qed.

Lemma put_digits_length fuel v n : 0 ≤ v < base ^ Z.of_nat n → (length (put_digits fuel v base u) ≤ n)%nat.
Proof.
  revert v n. induction fuel as [|fuel IH]; intros v n Hv; [simpl; lia|]. cbn [put_digits].
  destruct (Z.eqb_spec v 0); [simpl; lia|]. destruct n as [|n]; [simpl in Hv; lia|]. cbn [length]. apply le_n_S, IH.
  rewrite Nat2Z.inj_succ, Z.pow_succ_r in Hv by lia. split; [apply Z.div_pos; lia|apply Z.div_lt_upper_bound; lia].
Qed.
End digits.

(** Printing numbers.  For every 64-bit value in base ten or sixteen the
    characters printed read back as the value, without leading zeros, and the
    conversion buffer of 32 characters is never exceeded. *)
Theorem put_uint_roundtrip v base upper :
  0 ≤ v < 2 ^ 64 → base = 10 ∨ base = 16 →
  let s := reverse (uint_buf v base upper) in
  read_uint base s = v ∧ zlen s ≤ UINT_BUF ∧ s ≠ [] ∧ (v ≠ 0 → ∃ c s', s = c :: s' ∧ digit_value c ≠ 0).
Proof.
  intros Hv Hb s. unfold s, uint_buf. destruct (Z.eqb_spec v 0) as [->|Hne]; [split_and!; done|].
  assert (Hb2 : 2 ≤ base ≤ 16) by (destruct Hb as [-> | ->]; lia).
  assert (Hf : 0 ≤ v < base ^ Z.of_nat 64) by (destruct Hb as [-> | ->]; (split; [lia|]); eapply Z.lt_trans; [apply Hv|reflexivity|apply Hv|reflexivity]).
  assert (Hl : 0 ≤ v < base ^ Z.of_nat 20) by (destruct Hb as [-> | ->]; (split; [lia|]); eapply Z.lt_trans; [apply Hv|reflexivity|apply Hv|reflexivity]).
  destruct (put_digits_spec base upper Hb2 64 v Hf) as [H1 H2]. destruct (H2 Hne) as (c & s' & E & Hc).
  split_and!; [done| | |by exists c, s'].
  - unfold zlen, UINT_BUF. rewrite length_reverse. pose proof (put_digits_length base upper Hb2 64 v 20 Hl) as Hn. clear -Hn. lia.
  - by rewrite E.
Qed.

Lemma put_uint_roundtrip_witness : read_uint 16 (reverse (uint_buf 0xdeadbeef 16 false)) = 0xdeadbeef.
Proof. exact (proj1 (put_uint_roundtrip 0xdeadbeef 16 false ltac:(lia) (or_intror eq_refl))). Defined.

(** ** Formats as a list of pieces *)

(** A literal character, or a conversion with its flags, width, number of [l]
    and argument. *)
Inductive piece := Lit (c : Z) | Conv (fl w : list Z) (nl : nat) (c arg : Z).

Definition piece_text (p : piece) : list Z :=
  match p with Lit c => [c] | Conv fl w nl c _ => 37 :: fl ++ w ++ replicate nl 108 ++ [c] end.

Definition takes_arg (c : Z) : bool :=
  (c =? 99) || (c =? 115) || (c =? 100) || (c =? 105) || (c =? 117) || (c =? 120) || (c =? 88) || (c =? 112).
Definition piece_args (p : piece) : list Z :=
  match p with Lit _ => [] | Conv _ _ _ c v => if takes_arg c then [v] else [] end.

Definition uint_text (v base : Z) (upper : bool) : list Z := reverse (uint_buf v base upper).
Definition int_text (v : Z) : list Z := if v <? 0 then 45 :: uint_text (- v) 10 false else uint_text v 10 false.

(** What the piece prints; strings are read from memory, at most [N] bytes. *)
Definition piece_out (N : nat) (m : mem) (p : piece) : list Z :=
  match p with
  | Lit c => [c]
  | Conv _ _ nl c v =>
      let long := bool_decide (nl ≠ 0)%nat in
      if c =? 99 then [u8 v]
      else if c =? 115 then if v =? 0 then NULL_TEXT else cstring N m v
      else if (c =? 100) || (c =? 105) then int_text (if long then s64 v else s32 v)
      else if c =? 117 then uint_text (if long then u64 v else u32 v) 10 false
      else if c =? 120 then uint_text (if long then u64 v else u32 v) 16 false
      else if c =? 88 then uint_text (if long then u64 v else u32 v) 16 true
      else if c =? 112 then [48; 120] ++ uint_text (u64 v) 16 false
      else if c =? 37 then [37] else [37; c]
  end.

(** A NUL within the first [N] bytes. *)
Definition terminated (N : nat) (m : mem) (a : Z) : Prop := ∃ j, (j < N)%nat ∧ m (a + Z.of_nat j) = 0.

Definition piece_ok (N : nat) (m : mem) (p : piece) : Prop :=
  match p with
  | Lit c => c ≠ 0 ∧ c ≠ 37
  | Conv fl w nl c v =>
      Forall (λ x, is_flag x = true) fl ∧ Forall (λ x, is_digit x = true) w ∧ head w ≠ Some 48 ∧
      c ≠ 0 ∧ is_flag c = false ∧ is_digit c = false ∧ is_ell c = false ∧
      (c = 115 → v ≠ 0 → terminated N m v)
  end.

(** The bytes [l] are at [a]. *)
Definition bytes_at (m : mem) (a : Z) (l : list Z) : Prop := ∀ i x, l !! i = Some x → m (a + Z.of_nat i) = x.

Lemma bytes_at_app m a l1 l2 : bytes_at m a (l1 ++ l2) → bytes_at m a l1 ∧ bytes_at m (a + zlen l1) l2.
Proof.
  intros H. split; intros i x Hi; [by apply H, lookup_app_l_Some|].
  unfold zlen. replace (a + Z.of_nat (length l1) + Z.of_nat i) with (a + Z.of_nat (length l1 + i)) by lia. apply H.
  rewrite lookup_app_r by lia. by replace (length l1 + i - length l1)%nat with i by lia.
Qed.
Lemma bytes_at_cons m a c l : bytes_at m a (c :: l) → m a = c ∧ bytes_at m (a + 1) l.
Proof. intros H. destruct (bytes_at_app m a [c] l H) as [H1 H2]. split; [|done]. specialize (H1 0%nat c eq_refl). by rewrite Z.add_0_r in H1. Qed.

Lemma skip_while_spec p fuel m a l c :
  bytes_at m a (l ++ [c]) → Forall (λ x, p x = true) l → p c = false → (length l < fuel)%nat →
  skip_while fuel p m a = a + zlen l.
Proof.
  revert a fuel. induction l as [|x l IH]; intros a [|fuel] Hm Hl Hc Hf; cbn [length] in Hf; try lia; cbn [skip_while app] in *.
  - apply bytes_at_cons in Hm as [-> _]. rewrite Hc. unfold zlen. cbn. lia.
  - apply bytes_at_cons in Hm as [-> Hm]. apply Forall_cons in Hl as [-> Hl]. rewrite (IH (a + 1)) by (done || lia).
    unfold zlen. cbn [length]. lia.
Qed.

Lemma cstring_enough N fuel m a : terminated N m a → (N ≤ fuel)%nat → cstring fuel m a = cstring N m a.
Proof.
  revert fuel a. induction N as [|N IH]; intros [|fuel] a (j & Hj & H0) Hf; try lia. cbn [cstring].
  destruct (Z.eqb_spec (m a) 0); [done|]. f_equal. apply IH; [|lia]. destruct j as [|j]; [by rewrite Z.add_0_r in H0|].
  exists j. split; [lia|]. by replace (a + 1 + Z.of_nat j) with (a + Z.of_nat (S j)) by lia.
Qed.

Lemma put_bytes_app k s1 s2 : put_bytes k (s1 ++ s2) = put_bytes (put_bytes k s1) s2.
Proof. apply foldl_app. Qed.

Lemma put_int_text k v : - 2 ^ 63 ≤ v < 2 ^ 63 → put_int k v = put_bytes k (int_text v).
Proof.
  intros Hv. unfold put_int, put_uint, int_text, uint_text. destruct (Z.ltb_spec v 0); [|done].
  by rewrite u64_small by lia.
Qed.

Lemma s64_range v : - 2 ^ 63 ≤ s64 v < 2 ^ 63.
Proof. unfold s64. pose proof (u64_range v). destruct (Z.ltb_spec (u64 v) 9223372036854775808); lia. Qed.
Lemma s32_range v : - 2 ^ 63 ≤ s32 v < 2 ^ 63.
Proof. unfold s32. pose proof (u32_range v). destruct (Z.ltb_spec (u32 v) 2147483648); lia. Qed.

Lemma convert_spec N fuel m k fl w nl c v ap :
  piece_ok N m (Conv fl w nl c v) → (N ≤ fuel)%nat →
  convert fuel m k c (bool_decide (nl ≠ 0)%nat) (piece_args (Conv fl w nl c v) ++ ap) =
    Some (put_bytes k (piece_out N m (Conv fl w nl c v)), ap).
Proof.
  intros (_ & _ & _ & _ & _ & _ & _ & Hs) Hf. unfold convert, piece_args, piece_out, takes_arg.
  destruct (Z.eqb_spec c 99); [done|]. destruct (Z.eqb_spec c 115) as [->|].
  { cbn. unfold cons_write. destruct (Z.eqb_spec v 0); [done|]. by rewrite (cstring_enough N fuel) by auto. }
  destruct (Z.eqb_spec c 100) as [->|]; [cbn; by rewrite put_int_text by (case_match; [apply s64_range|apply s32_range])|].
  destruct (Z.eqb_spec c 105) as [->|]; [cbn; by rewrite put_int_text by (case_match; [apply s64_range|apply s32_range])|].
  destruct (Z.eqb_spec c 117); [done|]. destruct (Z.eqb_spec c 120); [done|]. destruct (Z.eqb_spec c 88); [done|].
  destruct (Z.eqb_spec c 112) as [->|]; [cbn -[put_bytes uint_buf]; unfold put_uint, uint_text; by rewrite <- (put_bytes_app k [48; 120])|]. cbn [orb app].
  destruct (Z.eqb_spec c 37); done.
Qed.

(** The format specification of one conversion is skipped exactly. *)
Lemma conv_skip N m a fl w nl c v rest fuel :
  piece_ok N m (Conv fl w nl c v) → bytes_at m a (piece_text (Conv fl w nl c v) ++ rest) →
  (length (piece_text (Conv fl w nl c v)) ≤ fuel)%nat →
  let f := skip_while fuel is_digit m (skip_while fuel is_flag m (a + 1)) in
  let f' := skip_while fuel is_ell m f in
  m a = 37 ∧ m f' = c ∧ f' + 1 = a + zlen (piece_text (Conv fl w nl c v)) ∧ negb (f' =? f) = bool_decide (nl ≠ 0)%nat.
Proof.
  intros (H1 & H2 & H3 & _ & H5 & H6 & H7 & _) Hm Hl. cbn [piece_text app] in *. apply bytes_at_cons in Hm as [Hm0 Hm].
  cbn [length] in Hl. rewrite !length_app, length_replicate in Hl. cbn [length] in Hl.
  rewrite <- !app_assoc in Hm. cbn [app] in Hm.
  set (d := match w ++ replicate nl 108 ++ [c] with x :: _ => x | [] => 0 end).
  assert (Hd : is_flag d = false).
  { unfold d. destruct w as [|x w]; [destruct nl; done|]. cbn. apply Forall_cons in H2 as [Hx _]. cbn in H3.
    assert (x ≠ 48) by (intros ->; done). unfold is_flag, is_digit in *. bools.
    destruct (Z.eqb_spec x 43), (Z.eqb_spec x 45), (Z.eqb_spec x 48), (Z.eqb_spec x 32), (Z.eqb_spec x 35); (done || lia). }
  assert (E1 : skip_while fuel is_flag m (a + 1) = a + 1 + zlen fl).
  { apply (skip_while_spec is_flag fuel m (a + 1) fl d); [|done|done|lia]. intros i x Hi. apply Hm.
    destruct (decide (i < length fl)%nat); [by rewrite lookup_app_l in Hi |- *|].
    rewrite lookup_app_r in Hi |- * by lia. unfold d in Hi. destruct w as [|y w]; [destruct nl|]; cbn in *;
      destruct (i - length fl)%nat as [|[]] eqn:?; done. }
  cbv zeta. rewrite E1. apply bytes_at_app in Hm as [_ Hm].
  set (e := match replicate nl 108 ++ [c] with x :: _ => x | [] => 0 end).
  assert (He : is_digit e = false) by (unfold e; by destruct nl).
  assert (E2 : skip_while fuel is_digit m (a + 1 + zlen fl) = a + 1 + zlen fl + zlen w).
  { apply (skip_while_spec is_digit fuel m _ w e); [|done|done|lia]. intros i x Hi. apply Hm.
    destruct (decide (i < length w)%nat); [by rewrite lookup_app_l in Hi |- *|].
    rewrite lookup_app_r in Hi |- * by lia. unfold e in Hi. destruct nl; cbn in *;
      destruct (i - length w)%nat as [|[]] eqn:?; done. }
  rewrite E2. apply bytes_at_app in Hm as [_ Hm].
  assert (E3 : skip_while fuel is_ell m (a + 1 + zlen fl + zlen w) = a + 1 + zlen fl + zlen w + Z.of_nat nl).
  { rewrite (skip_while_spec is_ell fuel m _ (replicate nl 108) c).
    - unfold zlen. rewrite length_replicate. done.
    - rewrite cons_middle, app_assoc in Hm. by apply bytes_at_app in Hm as [Hm _].
    - by apply Forall_replicate.
    - done.
    - rewrite length_replicate. lia. }
  rewrite E3. apply bytes_at_app in Hm as [_ Hm]. unfold zlen at 3 in Hm. rewrite length_replicate in Hm.
  apply bytes_at_cons in Hm as [Hm _]. split_and!; [done|done| |].
  - unfold zlen. cbn [length]. rewrite !length_app, length_replicate. cbn [length]. lia.
  - destruct (Z.eqb_spec (a + 1 + zlen fl + zlen w + Z.of_nat nl) (a + 1 + zlen fl + zlen w)); case_bool_decide; (done || lia).
Qed.

Definition format_text (ps : list piece) : list Z := concat (piece_text <$> ps).
Definition format_args (ps : list piece) : list Z := concat (piece_args <$> ps).
Definition format_out (N : nat) (m : mem) (ps : list piece) : list Z := concat (piece_out N m <$> ps).

Lemma piece_text_pos p : (1 ≤ length (piece_text p))%nat.
Proof. destruct p; cbn; lia. Qed.

Lemma kvprintf_lemma N m ps fuel k a ap :
  Forall (piece_ok N m) ps → bytes_at m a (format_text ps ++ [0]) → (N + length (format_text ps) < fuel)%nat →
  kvprintf fuel m k a (format_args ps ++ ap) = Some (put_bytes k (format_out N m ps)).
Proof.
  revert fuel k a. induction ps as [|p ps IH]; intros [|fuel] k a Hps Hm Hf; try lia; cbn [kvprintf].
  { apply bytes_at_cons in Hm as [-> _]. done. }
  apply Forall_cons in Hps as [Hp Hps]. unfold format_text, format_args, format_out in *. cbn [fmap list_fmap concat] in *.
  rewrite length_app in Hf. pose proof (piece_text_pos p). rewrite <- app_assoc in Hm.
  destruct p as [c|fl w nl c v].
  - cbn [piece_text app] in Hm. apply bytes_at_cons in Hm as [Hc Hm]. destruct Hp as [H0 H37]. rewrite Hc.
    destruct (Z.eqb_spec c 0); [done|]. destruct (Z.eqb_spec c 37); [done|]. cbn [negb]. cbn [piece_args app] in *.
    rewrite IH by (done || (cbn in *; lia)). done.
  - destruct (conv_skip N m a fl w nl c v _ (S fuel) Hp Hm ltac:(lia)) as (E1 & E2 & E3 & E4). rewrite E1. cbn [Z.eqb Pos.eqb negb].
    rewrite E2, E4, E3, <- app_assoc, (convert_spec N) by (done || lia). apply bytes_at_app in Hm as [_ Hm].
    rewrite IH by (done || lia). by rewrite put_bytes_app.
Qed.

(** Formatted output.  A format is a sequence of literal characters and
    conversions with flags, width and [l]; with an argument for every conversion
    that takes one, [kvprintf] returns and has written, to the serial port and
    to the message buffer, the text of each piece in order: characters and
    NUL-terminated strings (or "(null)"), signed and unsigned numbers of 32 or
    64 bits in base ten or sixteen, pointers, percent signs, and unknown
    conversions as they stand.  Flags and widths have no effect. *)
Theorem kvprintf_spec N m ps fuel k a :
  Forall (piece_ok N m) ps → bytes_at m a (format_text ps ++ [0]) → (N + length (format_text ps) < fuel)%nat →
  kvprintf fuel m k a (format_args ps) = Some (put_bytes k (format_out N m ps)).
Proof. intros H1 H2 H3. rewrite <- (app_nil_r (format_args ps)). by apply kvprintf_lemma. Qed.

(** "pid=%lu %s" *)
Definition demo_pieces : list piece :=
  [Lit 112; Lit 61; Conv [] [] 1 117 7; Lit 32; Conv [] [] 0 115 200].
Definition demo_fmt_mem : mem :=
  λ x, if (100 <=? x) && (x <? 110) then (format_text demo_pieces ++ [0; 0; 0]).[x - 100]
       else if x =? 200 then 104 else if x =? 201 then 105 else 0.

Lemma demo_fmt_at : bytes_at demo_fmt_mem 100 (format_text demo_pieces ++ [0]).
Proof.
  intros i x Hi. do 9 (destruct i as [|i]; [cbn in Hi; injection Hi as <-; reflexivity|]). by destruct i.
Qed.

Lemma kvprintf_spec_witness :
  kvprintf 40 demo_fmt_mem (mkConsole [] (mkMsgbuf [] 0 0 true)) 100 [7; 200] =
    Some (put_bytes (mkConsole [] (mkMsgbuf [] 0 0 true)) [112; 61; 55; 32; 104; 105]).
Proof.
  refine (kvprintf_spec 10 demo_fmt_mem demo_pieces 40 (mkConsole [] (mkMsgbuf [] 0 0 true)) 100 _ demo_fmt_at _).
  - repeat constructor; try (intros H; discriminate H); try (intros _ _; exists 2%nat; split; [lia|reflexivity]).
  - cbn. lia.
Defined.

(** A format that ends in a percent sign.  The conversion character is then
    the terminator itself, which is printed, and the loop goes on behind it: a
    format that ends in "%" prints whatever follows it in memory. *)
Theorem trailing_percent_overruns m k a c fuel :
  m a = 37 → m (a + 1) = 0 → m (a + 2) = c → c ≠ 0 → c ≠ 37 → m (a + 3) = 0 → (3 ≤ fuel)%nat →
  kvprintf fuel m k a [] = Some (put_bytes k [37; 0; c]).
Proof.
  intros H0 H1 H2 Hc Hc' H3 Hf. destruct fuel as [|[|[|fuel]]]; try lia. cbn [kvprintf]. rewrite H0. cbn [Z.eqb Pos.eqb negb].
  assert (E : ∀ p n, p 0 = false → skip_while (S n) p m (a + 1) = a + 1) by (intros p n Hp; cbn; by rewrite H1, Hp).
  rewrite !E by done. rewrite H1. cbn [convert Z.eqb orb]. replace (a + 1 + 1) with (a + 2) by lia. rewrite H2.
  destruct (Z.eqb_spec c 0); [done|]. destruct (Z.eqb_spec c 37); [done|]. cbn [negb].
  replace (a + 2 + 1) with (a + 3) by lia. rewrite H3. done.
Qed.

Lemma trailing_percent_overruns_witness :
  kvprintf 3 (λ x, if x =? 5 then 37 else if x =? 7 then 83 else 0) (mkConsole [] (mkMsgbuf [] 0 0 true)) 5 [] =
    Some (put_bytes (mkConsole [] (mkMsgbuf [] 0 0 true)) [37; 0; 83]).
Proof. apply (trailing_percent_overruns _ _ 5 83 3); (reflexivity || discriminate || lia). Defined.
