(* ===== verification/Input.v ===== *)
(** * Input events

    The event queue and pointer state ([kernel/hal/input/input.c]) and the byte
    decoders of the PS/2 keyboard and mouse ([keyboard.c], [mouse.c]).  Port
    accesses are left out: the decoders are given the bytes.  The input lock makes
    a push and a poll one step each; a mouse update, which takes the lock once for
    the pointer and once per event, is modelled without another CPU in between. *)

From S2P Require Import Prelude Ring.

Inductive event_type :=
  | EV_MOUSE_MOVE | EV_MOUSE_DOWN | EV_MOUSE_UP | EV_KEY_DOWN | EV_KEY_UP | EV_MOUSE_WHEEL.
#[export] Instance event_type_eq_dec : EqDecision event_type.
Proof. solve_decision. Defined.

Record input_event := mkEvent {
  ev_type : event_type;
  ev_x : Z; ev_y : Z; ev_dx : Z; ev_dy : Z;
  ev_button : Z; ev_buttons : Z; ev_scancode : Z; ev_ch : Z; ev_key : Z;
}.
#[export] Instance input_event_inhabited : Inhabited input_event := populate (mkEvent EV_MOUSE_MOVE 0 0 0 0 0 0 0 0 0).

Definition QSIZE : Z := 256.

Record input := mkInput {
  queue : list input_event; qhead : Z; qtail : Z;
  mx : Z; my : Z; mbtn : Z; bw : Z; bh : Z;
}.
Definition with_queue (s : input) (q : list input_event) (h t : Z) : input :=
  mkInput q h t (mx s) (my s) (mbtn s) (bw s) (bh s).
Definition with_pointer (s : input) (x y b : Z) : input :=
  mkInput (queue s) (qhead s) (qtail s) x y b (bw s) (bh s).

Definition input_init (s : input) (w h : Z) : input :=
  mkInput (queue s) 0 0 (Z.quot w 2) (Z.quot h 2) 0 w h.

Definition is_move (e : input_event) : bool := bool_decide (ev_type e = EV_MOUSE_MOVE).
Definition is_pointer (e : input_event) : bool :=
  bool_decide (ev_type e = EV_MOUSE_MOVE) || bool_decide (ev_type e = EV_MOUSE_DOWN) ||
  bool_decide (ev_type e = EV_MOUSE_UP).

Definition input_push (s : input) (e : input_event) : input :=
  let last := u32 (qhead s + QSIZE - 1) mod QSIZE in
  if is_move e && negb (qhead s =? qtail s) && is_move ((queue s).[last])
  then with_queue s ((queue s).[last <- e]) (qhead s) (qtail s)
  else
    let n := u32 (qhead s + 1) mod QSIZE in
    if n =? qtail s then
      if is_pointer e then s
      else
        let t := u32 (qtail s + 1) mod QSIZE in
        let n := u32 (qhead s + 1) mod QSIZE in
        with_queue s ((queue s).[qhead s <- e]) n t
    else with_queue s ((queue s).[qhead s <- e]) n (qtail s).

Definition input_poll (s : input) : option input_event * input :=
  if negb (qtail s =? qhead s)
  then (Some ((queue s).[qtail s]), with_queue s (queue s) (qhead s) (u32 (qtail s + 1) mod QSIZE))
  else (None, s).

(** [if (v < 0) v = 0; if (v > b - 1) v = b - 1;] *)
Definition clamp (v b : Z) : Z :=
  let v := if v <? 0 then 0 else v in if b - 1 <? v then b - 1 else v.

Definition button_event (x y buttons old b : Z) : list input_event :=
  let mask := Z.shiftl 1 b in
  if negb (Z.land (Z.lxor buttons old) mask =? 0)
  then [mkEvent (if negb (Z.land buttons mask =? 0) then EV_MOUSE_DOWN else EV_MOUSE_UP) x y 0 0 mask buttons 0 0 0]
  else [].

Definition input_update_mouse (s : input) (dx dy buttons : Z) : input :=
  let sdx := dx * 2 in
  let sdy := dy * 2 in
  let nx := clamp (s32 (mx s + sdx)) (bw s) in
  let ny := clamp (s32 (my s + sdy)) (bh s) in
  let old := mbtn s in
  let s := with_pointer s nx ny buttons in
  let s := input_push s (mkEvent EV_MOUSE_MOVE nx ny sdx sdy 0 buttons 0 0 0) in
  foldl input_push s (concat (button_event nx ny buttons old <$> [0; 1; 2])).

Definition input_warp_mouse (s : input) (x y : Z) : input :=
  let x := clamp x (bw s) in
  let y := clamp y (bh s) in
  let e := mkEvent EV_MOUSE_MOVE x y (s32 (x - mx s)) (s32 (y - my s)) 0 (mbtn s) 0 0 0 in
  input_push (with_pointer s x y (mbtn s)) e.

Definition input_mouse_wheel (s : input) (dy : Z) : input :=
  if dy =? 0 then s else input_push s (mkEvent EV_MOUSE_WHEEL (mx s) (my s) 0 dy 0 (mbtn s) 0 0 0).

Definition input_mouse_x (s : input) : Z := mx s.
Definition input_mouse_y (s : input) : Z := my s.

(** ** The keyboard *)

(** [map_lower] and [map_upper], indexed by make code. *)
Definition map_lower : list Z :=
  [0; 27; 49; 50; 51; 52; 53; 54; 55; 56; 57; 48; 45; 61; 8;
   9; 113; 119; 101; 114; 116; 121; 117; 105; 111; 112; 91; 93; 10;
   0; 97; 115; 100; 102; 103; 104; 106; 107; 108; 59; 39; 96;
   0; 92; 122; 120; 99; 118; 98; 110; 109; 44; 46; 47; 0;
   42; 0; 32] ++ replicate 70 0.
Definition map_upper : list Z :=
  [0; 27; 33; 64; 35; 36; 37; 94; 38; 42; 40; 41; 95; 43; 8;
   9; 81; 87; 69; 82; 84; 89; 85; 73; 79; 80; 123; 125; 10;
   0; 65; 83; 68; 70; 71; 72; 74; 75; 76; 58; 34; 126;
   0; 124; 90; 88; 67; 86; 66; 78; 77; 60; 62; 63; 0;
   42; 0; 32] ++ replicate 70 0.

Record keyboard := mkKeyboard { shift : bool; e0 : bool; kbd_count : Z }.

Definition KEY_UP : Z := 0x101.
Definition KEY_DOWN : Z := 0x102.
Definition KEY_LEFT : Z := 0x103.
Definition KEY_RIGHT : Z := 0x104.

Definition arrow_key (code : Z) : Z :=
  if code =? 0x48 then KEY_UP else if code =? 0x50 then KEY_DOWN
  else if code =? 0x4B then KEY_LEFT else if code =? 0x4D then KEY_RIGHT else 0.

Definition key_event (release : bool) (code ch key : Z) : input_event :=
  mkEvent (if release then EV_KEY_UP else EV_KEY_DOWN) 0 0 0 0 0 0 code ch key.

Definition keyboard_handle_byte (ks : keyboard * input) (sc : Z) : keyboard * input :=
  let '(k, s) := ks in
  let k := mkKeyboard (shift k) (e0 k) (u32 (kbd_count k + 1)) in
  if sc =? 0xE0 then (mkKeyboard (shift k) true (kbd_count k), s)
  else
    let release := negb (Z.land sc 0x80 =? 0) in
    let code := Z.land sc 0x7F in
    if e0 k then
      let k := mkKeyboard (shift k) false (kbd_count k) in
      if arrow_key code =? 0 then (k, s) else (k, input_push s (key_event release code 0 (arrow_key code)))
    else if (code =? 0x2A) || (code =? 0x36) then (mkKeyboard (negb release) (e0 k) (kbd_count k), s)
    else
      let ch := if shift k then map_upper.[code] else map_lower.[code] in
      (k, input_push s (key_event release code ch 0)).

(** ** The mouse *)

Record mouse := mkMouse { cycle : Z; packet : list Z; packet_size : Z }.

Definition mouse_emit (k : mouse) (s : input) : input :=
  let flags := (packet k).[0] in
  if negb (Z.land flags 0xC0 =? 0) then s
  else
    let dx := if negb (Z.land flags 0x10 =? 0) then (packet k).[1] - 256 else (packet k).[1] in
    let dy := if negb (Z.land flags 0x20 =? 0) then (packet k).[2] - 256 else (packet k).[2] in
    let s := input_update_mouse s dx (- dy) (Z.land flags 0x07) in
    if packet_size k =? 4 then
      let wheel := if (packet k).[3] <? 128 then (packet k).[3] else (packet k).[3] - 256 in
      if negb (wheel =? 0) then input_mouse_wheel s wheel else s
    else s.

Definition mouse_process_byte (ks : mouse * input) (data : Z) : mouse * input :=
  let '(k, s) := ks in
  if cycle k =? 0 then
    if Z.land data 0x08 =? 0 then (k, s)
    else (mkMouse 1 ((packet k).[0 <- data]) (packet_size k), s)
  else if cycle k =? 1 then (mkMouse 2 ((packet k).[1 <- data]) (packet_size k), s)
  else if cycle k =? 2 then
    let p := (packet k).[2 <- data] in
    if packet_size k =? 3 then let k := mkMouse 0 p (packet_size k) in (k, mouse_emit k s)
    else (mkMouse 3 p (packet_size k), s)
  else let k := mkMouse 0 ((packet k).[3 <- data]) (packet_size k) in (k, mouse_emit k s).

(** ** The queue as a list of events, oldest first *)

Record input_ok (s : input) : Prop := {
  io_len : zlen (queue s) = QSIZE;
  io_head : 0 ≤ qhead s < QSIZE;
  io_tail : 0 ≤ qtail s < QSIZE;
}.

Definition pending (s : input) : Z := (qhead s - qtail s) mod QSIZE.
Definition events (s : input) : list input_event := ring_contents QSIZE (queue s) (qtail s) (pending s).

(** The abstract queue: a move replaces a move at the end; a full queue refuses
    pointer events and drops its oldest event for any other. *)
Definition spec_push (q : list input_event) (e : input_event) : list input_event :=
  match last q with
  | Some l => if is_move e && is_move l then removelast q ++ [e]
              else if zlen q =? QSIZE - 1 then if is_pointer e then q else tail q ++ [e]
              else q ++ [e]
  | None => q ++ [e]
  end.

Definition spec_poll (q : list input_event) : option input_event * list input_event :=
  match q with e :: q => (Some e, q) | [] => (None, []) end.

Lemma events_snoc s : 0 < pending s →
  events s = ring_contents QSIZE (queue s) (qtail s) (pending s - 1) ++ [(queue s).[(qtail s + (pending s - 1)) mod QSIZE]].
Proof.
  intros Hp. unfold events, ring_contents. replace (pending s) with ((pending s - 1) + 1) at 1 by lia.
  rewrite seqZ_app, fmap_app by lia. cbn. by rewrite Z.add_0_l.
Qed.

Lemma last_slot s :
  input_ok s → 0 < pending s → u32 (qhead s + QSIZE - 1) mod QSIZE = (qtail s + (pending s - 1)) mod QSIZE.
Proof. intros [_ H1 H2] Hp. unfold pending, QSIZE in *. rewrite u32_small by lia. zlia. Qed.

Lemma next_slot s : input_ok s → u32 (qhead s + 1) mod QSIZE = (qhead s + 1) mod QSIZE.
Proof. intros [_ H1 H2]. unfold QSIZE in *. by rewrite u32_small by lia. Qed.

Lemma pending_range s : 0 ≤ pending s < QSIZE.
Proof. apply Z.mod_pos_bound. unfold QSIZE. lia. Qed.

(** A store at the head slot, with or without dropping the oldest event. *)
Lemma store_event s e :
  input_ok s → pending s < QSIZE - 1 →
  let s' := with_queue s ((queue s).[qhead s <- e]) ((qhead s + 1) mod QSIZE) (qtail s) in
  input_ok s' ∧ events s' = events s ++ [e].
Proof.
  intros Hok Hp s'. pose proof Hok as [H0 H1 H2]. pose proof (pending_range s) as Hr. split.
  - constructor; cbn; [by rewrite zlen_aset|apply Z.mod_pos_bound; unfold QSIZE; lia|done].
  - unfold events. assert (E : pending s' = pending s + 1) by (unfold pending, s' in *; cbn; unfold QSIZE in *; zlia).
    rewrite E. cbn [s' with_queue queue qtail].
    replace (qhead s) with ((qtail s + pending s) mod QSIZE) at 1 by (unfold pending, QSIZE in *; zlia).
    apply ring_push; [done|done|lia|lia].
Qed.

Lemma drop_oldest s :
  input_ok s → 0 < pending s →
  let s' := with_queue s (queue s) (qhead s) ((qtail s + 1) mod QSIZE) in
  input_ok s' ∧ pending s' = pending s - 1 ∧ events s = (queue s).[qtail s] :: events s'.
Proof.
  intros Hok Hp s'. pose proof Hok as [H0 H1 H2]. split_and!.
  - constructor; cbn; [done|done|apply Z.mod_pos_bound; unfold QSIZE; lia].
  - unfold pending, s' in *. cbn. unfold QSIZE in *. zlia.
  - unfold events at 1. rewrite ring_pop by (unfold QSIZE in *; lia). rewrite Z.mod_small by lia. f_equal. unfold events. f_equal.
    unfold pending, s' in *. cbn. unfold QSIZE in *. zlia.
Qed.

Lemma push_refines s e : input_ok s → input_ok (input_push s e) ∧ events (input_push s e) = spec_push (events s) e.
Proof.
  intros Hok. pose proof Hok as [H0 H1 H2]. pose proof (pending_range s) as Hr. unfold input_push, spec_push.
  assert (Hfull : ((qhead s + 1) mod QSIZE =? qtail s) = (zlen (events s) =? QSIZE - 1)).
  { unfold events. rewrite ring_contents_length by lia. unfold pending, QSIZE in *.
    destruct (Z.eqb_spec ((qhead s + 1) mod 256) (qtail s)), (Z.eqb_spec ((qhead s - qtail s) mod 256) (256 - 1)); (done || zlia). }
  rewrite (next_slot s Hok). destruct (decide (pending s = 0)) as [Hz|Hz].
  { assert (E : events s = []) by (unfold events; rewrite Hz; by apply ring_contents_0). rewrite Hfull, E. cbn [last].
    assert (Eh : (qhead s =? qtail s) = true) by (apply Z.eqb_eq; unfold pending, QSIZE in *; zlia). rewrite Eh, andb_false_r. cbn [andb].
    change (zlen (@nil input_event) =? QSIZE - 1) with false. cbv iota.
    destruct (store_event s e Hok ltac:(unfold QSIZE in *; lia)) as [Hok' E']. split; [exact Hok'|by rewrite E', E]. }
  rewrite (last_slot s Hok) by lia. rewrite Hfull.
  assert (Hne : (qhead s =? qtail s) = false) by (apply Z.eqb_neq; unfold pending, QSIZE in *; zlia). rewrite Hne, andb_true_r.
  pose proof (events_snoc s ltac:(lia)) as Es. assert (El : last (events s) = Some ((queue s).[(qtail s + (pending s - 1)) mod QSIZE])) by (rewrite Es; apply last_snoc).
  rewrite El.
  destruct (is_move e && is_move _) eqn:Hmove.
  { split; [constructor; cbn; [by rewrite zlen_aset|done|done]|]. rewrite Es, removelast_last. unfold events at 1. cbn [queue qtail with_queue].
    change (pending (with_queue s _ (qhead s) (qtail s))) with (pending s). pose proof (ring_push QSIZE (queue s) (qtail s) (pending s - 1) e eq_refl H0 ltac:(lia) ltac:(lia)) as Hp.
    by rewrite Z.sub_add in Hp. }
  destruct (Z.eqb_spec (zlen (events s)) (QSIZE - 1)) as [Hl|Hl]; unfold events in Hl; rewrite ring_contents_length in Hl by lia.
  - destruct (is_pointer e); [done|]. rewrite u32_small by (unfold QSIZE in *; lia).
    destruct (drop_oldest s Hok ltac:(unfold QSIZE in *; lia)) as (Hok1 & Hp1 & Ev). set (s1 := with_queue s _ _ _) in *.
    destruct (store_event s1 e Hok1 ltac:(unfold QSIZE in *; lia)) as [Hok2 E2]. rewrite Ev. cbn [tail]. split; [exact Hok2|exact E2].
  - destruct (store_event s e Hok ltac:(lia)) as [Hok' E']. done.
Qed.

Lemma poll_refines s :
  input_ok s → input_ok (input_poll s).2 ∧ ((input_poll s).1, events (input_poll s).2) = spec_poll (events s).
Proof.
  intros Hok. pose proof Hok as [H0 H1 H2]. pose proof (pending_range s). unfold input_poll.
  destruct (Z.eqb_spec (qtail s) (qhead s)) as [E|Hn]; cbn [negb fst snd].
  - assert (Ev : events s = []) by (unfold events; apply ring_contents_0; unfold pending, QSIZE in *; zlia). by rewrite Ev.
  - rewrite u32_small by (unfold QSIZE in *; lia). destruct (drop_oldest s Hok) as (Hok1 & _ & ->); [|done].
    unfold pending, QSIZE in *. zlia.
Qed.

Inductive iop := IPush (e : input_event) | IPoll.

(** The answers to the polls of a history. *)
Fixpoint irun (s : input) (ops : list iop) : list (option input_event) :=
  match ops with
  | [] => []
  | IPush e :: ops => irun (input_push s e) ops
  | IPoll :: ops => (input_poll s).1 :: irun (input_poll s).2 ops
  end.
Fixpoint spec_run (q : list input_event) (ops : list iop) : list (option input_event) :=
  match ops with
  | [] => []
  | IPush e :: ops => spec_run (spec_push q e) ops
  | IPoll :: ops => (spec_poll q).1 :: spec_run (spec_poll q).2 ops
  end.

(** The event queue.  Over any history of events and polls from the
    initialised state, the ring answers every poll like the abstract queue: first
    in, first out, with consecutive moves merged into the newest; only when 255
    events are pending does it refuse pointer events, or drop the oldest event
    to make room for any other. *)
Theorem input_refines_queue s w h ops :
  zlen (queue s) = QSIZE → irun (input_init s w h) ops = spec_run [] ops.
Proof.
  intros Hl. assert (Hok : input_ok (input_init s w h)) by (constructor; cbn; [done|unfold QSIZE; lia..]).
  assert (Ev : events (input_init s w h) = []) by (by apply ring_contents_0).
  rewrite <- Ev. clear Ev. revert Hok. generalize (input_init s w h). clear s Hl.
  induction ops as [|[e|] ops IH]; intros s Hok; cbn [irun spec_run]; [done| |].
  - destruct (push_refines s e Hok) as [Hok' <-]. by apply IH.
  - destruct (poll_refines s Hok) as [Hok' E]. rewrite <- E. cbn [fst snd]. f_equal. by apply IH.
Qed.

Definition bss_input : input := mkInput (replicate 256 inhabitant) 0 0 0 0 0 1280 800.
Lemma input_refines_queue_witness :
  irun (input_init bss_input 1280 800) [IPush (key_event false 30 97 0); IPoll; IPoll] = [Some (key_event false 30 97 0); None].
Proof. rewrite input_refines_queue by reflexivity. reflexivity. Defined.

(** A key is queued even when the queue is full. *)
Lemma key_queued s e : input_ok s → is_pointer e = false → last (events (input_push s e)) = Some e.
Proof.
  intros Hok He. destruct (push_refines s e Hok) as [_ ->]. unfold spec_push.
  assert (Hm : is_move e = false) by (unfold is_pointer, is_move in *; by destruct (bool_decide (ev_type e = EV_MOUSE_MOVE))).
  rewrite Hm, He. cbn [andb]. destruct (last (events s)); [|apply last_snoc]. destruct (_ =? _); apply last_snoc.
Qed.

(** ** The pointer stays on the screen *)

Record pointer_ok (s : input) : Prop := {
  po_w : 0 < bw s ≤ 2 ^ 30;
  po_h : 0 < bh s ≤ 2 ^ 30;
  po_x : 0 ≤ mx s < bw s;
  po_y : 0 ≤ my s < bh s;
}.

Lemma clamp_range v b : 0 < b → 0 ≤ clamp v b < b.
Proof. intros Hb. unfold clamp. destruct (Z.ltb_spec v 0); [destruct (Z.ltb_spec (b - 1) 0)|destruct (Z.ltb_spec (b - 1) v)]; lia. Qed.
Lemma clamp_id v b : 0 ≤ v < b → clamp v b = v.
Proof. intros Hv. unfold clamp. destruct (Z.ltb_spec v 0); [lia|]. destruct (Z.ltb_spec (b - 1) v); lia. Qed.

(** A push changes the queue only. *)
Lemma push_pointer s e :
  mx (input_push s e) = mx s ∧ my (input_push s e) = my s ∧ mbtn (input_push s e) = mbtn s ∧
  bw (input_push s e) = bw s ∧ bh (input_push s e) = bh s.
Proof. unfold input_push. repeat case_match; done. Qed.
Lemma pushes_pointer s es :
  mx (foldl input_push s es) = mx s ∧ my (foldl input_push s es) = my s ∧ mbtn (foldl input_push s es) = mbtn s ∧
  bw (foldl input_push s es) = bw s ∧ bh (foldl input_push s es) = bh s.
Proof.
  revert s. induction es as [|e es IH]; intros s; [done|]. cbn. destruct (IH (input_push s e)) as (-> & -> & -> & -> & ->).
  apply push_pointer.
Qed.

(** The pointer after a movement. *)
Lemma update_pointer s dx dy b :
  let s' := input_update_mouse s dx dy b in
  mx s' = clamp (s32 (mx s + dx * 2)) (bw s) ∧ my s' = clamp (s32 (my s + dy * 2)) (bh s) ∧ mbtn s' = b ∧
  bw s' = bw s ∧ bh s' = bh s.
Proof.
  unfold input_update_mouse. cbv zeta. set (nx := clamp _ (bw s)). set (ny := clamp _ (bh s)).
  set (e := mkEvent _ _ _ _ _ _ _ _ _ _). set (es := concat _).
  destruct (pushes_pointer (input_push (with_pointer s nx ny b) e) es) as (-> & -> & -> & -> & ->).
  by destruct (push_pointer (with_pointer s nx ny b) e) as (-> & -> & -> & -> & ->).
Qed.

Lemma update_ok s dx dy b : pointer_ok s → pointer_ok (input_update_mouse s dx dy b).
Proof.
  intros [H1 H2 H3 H4]. destruct (update_pointer s dx dy b) as (E1 & E2 & _ & E3 & E4).
  constructor; rewrite ?E1, ?E2, ?E3, ?E4; [done|done|apply clamp_range; lia..].
Qed.

Lemma wheel_ok s dy : pointer_ok s → pointer_ok (input_mouse_wheel s dy).
Proof.
  intros [H1 H2 H3 H4]. unfold input_mouse_wheel. case_if; [done|].
  destruct (push_pointer s (mkEvent EV_MOUSE_WHEEL (mx s) (my s) 0 dy 0 (mbtn s) 0 0 0)) as (E1 & E2 & _ & E3 & E4).
  constructor; by rewrite ?E1, ?E2, ?E3, ?E4.
Qed.

Lemma byte_ok k s data : pointer_ok s → pointer_ok (mouse_process_byte (k, s) data).2.
Proof.
  intros Hp. assert (He : ∀ k, pointer_ok (mouse_emit k s)).
  { intros k'. unfold mouse_emit. repeat case_match; auto using update_ok, wheel_ok. }
  unfold mouse_process_byte. repeat case_match; cbn; auto.
Qed.

(** Whatever bytes the mouse sends, and wherever software warps the pointer,
    the pointer stays on the screen. *)
Theorem mouse_stays_on_screen k s bytes x y :
  pointer_ok s →
  pointer_ok (foldl mouse_process_byte (k, s) bytes).2 ∧ pointer_ok (input_warp_mouse s x y).
Proof.
  intros Hp. split.
  - revert k s Hp. induction bytes as [|b bytes IH]; intros k s Hp; [done|]. cbn [foldl].
    pose proof (byte_ok k s b Hp) as Hb. destruct (mouse_process_byte (k, s) b) as [k' s']. by apply IH.
  - destruct Hp as [H1 H2 H3 H4]. unfold input_warp_mouse. cbv zeta. set (e := mkEvent _ _ _ _ _ _ _ _ _ _).
    destruct (push_pointer (with_pointer s (clamp x (bw s)) (clamp y (bh s)) (mbtn s)) e) as (E1 & E2 & _ & E3 & E4).
    constructor; rewrite ?E1, ?E2, ?E3, ?E4; cbn; [done|done|apply clamp_range; lia..].
Qed.

Lemma mouse_stays_on_screen_witness :
  pointer_ok (foldl mouse_process_byte (mkMouse 0 [0; 0; 0; 0] 3, input_init bss_input 1280 800) [255; 8; 100; 200]).2.
Proof.
  apply (mouse_stays_on_screen (mkMouse 0 [0; 0; 0; 0] 3) (input_init bss_input 1280 800) [255; 8; 100; 200] 0 0).
  constructor; vm_compute; split; congruence.
Defined.

(** ** Mouse packets *)

(** The packet for a movement, the buttons held and, with a wheel, its notches. *)
Definition packet_bytes (size dx dy buttons wheel : Z) : list Z :=
  [8 + buttons + (if dx <? 0 then 0x10 else 0) + (if dy <? 0 then 0x20 else 0); dx mod 256; dy mod 256] ++
  (if size =? 4 then [wheel mod 256] else []).

Lemma flag_byte b (neg_x neg_y : bool) :
  0 ≤ b < 8 →
  let f := 8 + b + (if neg_x then 0x10 else 0) + (if neg_y then 0x20 else 0) in
  Z.land f 8 = 8 ∧ Z.land f 0xC0 = 0 ∧ Z.land f 7 = b ∧ (Z.land f 0x10 =? 0) = negb neg_x ∧ (Z.land f 0x20 =? 0) = negb neg_y.
Proof.
  intros Hb. assert (b = 0 ∨ b = 1 ∨ b = 2 ∨ b = 3 ∨ b = 4 ∨ b = 5 ∨ b = 6 ∨ b = 7) as H by lia.
  destruct H as [->|[->|[->|[->|[->|[->|[->| ->]]]]]]]; destruct neg_x, neg_y; vm_compute; split_and!; reflexivity.
Qed.

Lemma skip_garbage k s bytes :
  cycle k = 0 → Forall (λ b, Z.land b 8 = 0) bytes → foldl mouse_process_byte (k, s) bytes = (k, s).
Proof.
  intros Hk. induction bytes as [|b bytes IH]; intros Hb; [done|]. apply Forall_cons in Hb as [Hb Hbs]. cbn [foldl].
  unfold mouse_process_byte at 2. rewrite Hk, Hb. cbn [Z.eqb]. by apply IH.
Qed.

Lemma decode_delta d : -256 ≤ d < 256 → (if d <? 0 then d mod 256 - 256 else d mod 256) = d.
Proof. intros Hd. destruct (Z.ltb_spec d 0); zlia. Qed.

(** The bytes of a packet fill the buffer and are emitted together. *)
Lemma packet_3 p0 p1 p2 p3 s f a b :
  Z.land f 8 = 8 →
  foldl mouse_process_byte (mkMouse 0 [p0; p1; p2; p3] 3, s) [f; a; b] =
    (mkMouse 0 [f; a; b; p3] 3, mouse_emit (mkMouse 0 [f; a; b; p3] 3) s).
Proof. intros Hf. cbn [foldl]. unfold mouse_process_byte. cbn [cycle]. by rewrite Hf. Qed.
Lemma packet_4 p0 p1 p2 p3 s f a b c :
  Z.land f 8 = 8 →
  foldl mouse_process_byte (mkMouse 0 [p0; p1; p2; p3] 4, s) [f; a; b; c] =
    (mkMouse 0 [f; a; b; c] 4, mouse_emit (mkMouse 0 [f; a; b; c] 4) s).
Proof. intros Hf. cbn [foldl]. unfold mouse_process_byte. cbn [cycle]. by rewrite Hf. Qed.

(** A mouse packet is decoded to the movement it encodes.  From the start of
    a packet, after any bytes that cannot start one, the three or four bytes of a
    packet move the pointer by its signed 9-bit displacements (downwards for a
    negative one), set its buttons, report its wheel notches and leave the
    decoder at the start of the next packet. *)
Theorem mouse_packet_roundtrip k s garbage dx dy buttons wheel :
  cycle k = 0 → zlen (packet k) = 4 → packet_size k = 3 ∨ packet_size k = 4 →
  Forall (λ b, Z.land b 8 = 0) garbage →
  -256 ≤ dx < 256 → -256 ≤ dy < 256 → 0 ≤ buttons < 8 → -128 ≤ wheel < 128 →
  let '(k', s') := foldl mouse_process_byte (k, s) (garbage ++ packet_bytes (packet_size k) dx dy buttons wheel) in
  s' = (let s := input_update_mouse s dx (- dy) buttons in if packet_size k =? 4 then input_mouse_wheel s wheel else s) ∧
  cycle k' = 0 ∧ packet_size k' = packet_size k.
Proof.
  intros Hc Hl Hsz Hg Hdx Hdy Hb Hw. rewrite foldl_app, skip_garbage by done.
  destruct (flag_byte buttons (dx <? 0) (dy <? 0) Hb) as (F1 & F2 & F3 & F4 & F5). unfold packet_bytes.
  set (f := 8 + buttons + _ + _) in *. destruct k as [c p size]. cbn [cycle packet packet_size] in *. subst c.
  destruct p as [|p0 [|p1 [|p2 [|p3 [|]]]]]; try (unfold zlen in Hl; cbn in Hl; lia).
  assert (He : ∀ w, mouse_emit (mkMouse 0 [f; dx mod 256; dy mod 256; w] size) s =
    (let s := input_update_mouse s dx (- dy) buttons in
     if size =? 4 then let wh := if w <? 128 then w else w - 256 in if negb (wh =? 0) then input_mouse_wheel s wh else s else s)).
  { intros w. unfold mouse_emit. cbn [packet packet_size]. change ([f; dx mod 256; dy mod 256; w].[0]) with f.
    change ([f; dx mod 256; dy mod 256; w].[1]) with (dx mod 256). change ([f; dx mod 256; dy mod 256; w].[2]) with (dy mod 256).
    change ([f; dx mod 256; dy mod 256; w].[3]) with w.
    rewrite F2, F3, F4, F5, !negb_involutive. cbn [Z.eqb negb]. by rewrite !decode_delta by lia. }
  destruct Hsz as [->| ->]; cbn [Z.eqb Pos.eqb app]; [rewrite packet_3 by done|rewrite packet_4 by done];
    rewrite He; cbn [Z.eqb Pos.eqb cycle packet_size]; (split; [|done]); [done|].
  assert (Hwh : (if wheel mod 256 <? 128 then wheel mod 256 else wheel mod 256 - 256) = wheel)
    by (destruct (Z.ltb_spec (wheel mod 256) 128); zlia).
  rewrite Hwh. destruct (Z.eqb_spec wheel 0) as [->|]; done.
Qed.

Lemma mouse_packet_roundtrip_witness :
  (foldl mouse_process_byte (mkMouse 0 [0; 0; 0; 0] 3, input_init bss_input 1280 800) [0x81; 0x29; 5; 0xFD]).2 =
    input_update_mouse (input_init bss_input 1280 800) 5 3 1.
Proof.
  pose proof (mouse_packet_roundtrip (mkMouse 0 [0; 0; 0; 0] 3) (input_init bss_input 1280 800) [0x81] 5 (-3) 1 0
    eq_refl eq_refl (or_introl eq_refl) ltac:(repeat constructor) ltac:(lia) ltac:(lia) ltac:(lia) ltac:(lia)) as H.
  cbv zeta in H. change ([129] ++ packet_bytes (packet_size (mkMouse 0 [0; 0; 0; 0] 3)) 5 (-3) 1 0) with [129; 41; 5; 253] in H.
  destruct (foldl mouse_process_byte _ _) as [k' s']. exact (proj1 H).
Defined.

(** ** Typing *)

(** A key pressed and released, alone or under the left shift key, or an arrow. *)
Inductive stroke := Key (code : Z) | Shifted (code : Z) | Arrow (code : Z).

Definition plain_code (c : Z) : Prop := 0 ≤ c < 128 ∧ c ≠ 0x2A ∧ c ≠ 0x36 ∧ c ≠ 0x60.
Definition stroke_ok (t : stroke) : Prop :=
  match t with Key c | Shifted c => plain_code c | Arrow c => 0 ≤ c < 128 ∧ arrow_key c ≠ 0 end.

Definition stroke_bytes (t : stroke) : list Z :=
  match t with
  | Key c => [c; c + 128]
  | Shifted c => [0x2A; c; c + 128; 0xAA]
  | Arrow c => [0xE0; c; 0xE0; c + 128]
  end.
Definition stroke_events (t : stroke) : list input_event :=
  match t with
  | Key c => [key_event false c (map_lower.[c]) 0; key_event true c (map_lower.[c]) 0]
  | Shifted c => [key_event false c (map_upper.[c]) 0; key_event true c (map_upper.[c]) 0]
  | Arrow c => [key_event false c 0 (arrow_key c); key_event true c 0 (arrow_key c)]
  end.

Lemma scan_code c :
  0 ≤ c < 128 →
  (Z.land c 0x80 =? 0) = true ∧ Z.land c 0x7F = c ∧ (Z.land (c + 128) 0x80 =? 0) = false ∧ Z.land (c + 128) 0x7F = c.
Proof.
  intros Hc. assert (H : forallb (λ n, let c := Z.of_nat n in
    (Z.land c 0x80 =? 0) && (Z.land c 0x7F =? c) && negb (Z.land (c + 128) 0x80 =? 0) && (Z.land (c + 128) 0x7F =? c)) (seq 0 128) = true)
    by (vm_compute; reflexivity).
  rewrite forallb_forall in H. specialize (H (Z.to_nat c)). rewrite Z2Nat.id in H by lia.
  specialize (H ltac:(apply in_seq; lia)). cbv zeta in H. bools.
  split_and!; [by apply Z.eqb_eq|done|by apply Z.eqb_neq|done].
Qed.

Lemma plain_byte k s c :
  plain_code c → e0 k = false →
  keyboard_handle_byte (k, s) c = (mkKeyboard (shift k) false (u32 (kbd_count k + 1)),
    input_push s (key_event false c (if shift k then map_upper.[c] else map_lower.[c]) 0)) ∧
  keyboard_handle_byte (k, s) (c + 128) = (mkKeyboard (shift k) false (u32 (kbd_count k + 1)),
    input_push s (key_event true c (if shift k then map_upper.[c] else map_lower.[c]) 0)).
Proof.
  intros (Hc & H1 & H2 & H3) He. destruct (scan_code c Hc) as (E1 & E2 & E3 & E4). unfold keyboard_handle_byte. cbn [e0 shift kbd_count].
  destruct (Z.eqb_spec c 0xE0); [lia|]. destruct (Z.eqb_spec (c + 128) 0xE0); [lia|]. rewrite E1, E2, E3, E4, He.
  destruct (Z.eqb_spec c 0x2A); [done|]. by destruct (Z.eqb_spec c 0x36).
Qed.

Lemma shift_byte k s (rel : bool) :
  e0 k = false →
  keyboard_handle_byte (k, s) (if rel then 0xAA else 0x2A) = (mkKeyboard (negb rel) false (u32 (kbd_count k + 1)), s).
Proof. intros He. unfold keyboard_handle_byte. cbn [e0 shift kbd_count]. rewrite He. by destruct rel. Qed.

Lemma arrow_byte k s c (rel : bool) :
  0 ≤ c < 128 → arrow_key c ≠ 0 →
  foldl keyboard_handle_byte (k, s) [0xE0; if rel then c + 128 else c] =
    (mkKeyboard (shift k) false (u32 (u32 (kbd_count k + 1) + 1)), input_push s (key_event rel c 0 (arrow_key c))).
Proof.
  intros Hc Ha. destruct (scan_code c Hc) as (E1 & E2 & E3 & E4). cbn [foldl].
  assert (Hn : (if rel then c + 128 else c) ≠ 0xE0).
  { destruct rel; [|lia]. intros E. assert (c = 96) by lia. subst c. by apply Ha. }
  unfold keyboard_handle_byte. cbn [Z.eqb Pos.eqb e0 shift kbd_count].
  destruct (Z.eqb_spec (if rel then c + 128 else c) 0xE0); [done|]. destruct rel; rewrite ?E1, ?E2, ?E3, ?E4;
    by destruct (Z.eqb_spec (arrow_key c) 0).
Qed.

(** Typing.  For any sequence of key strokes, plain, shifted or arrows, the
    keyboard driver pushes a press and a release event per stroke, in order, with
    the character of the key on the layout in use (or the arrow's key code), and
    is left with no shift and no prefix pending. *)
Theorem keyboard_types k s ts :
  shift k = false → e0 k = false → Forall stroke_ok ts →
  let '(k', s') := foldl keyboard_handle_byte (k, s) (concat (stroke_bytes <$> ts)) in
  s' = foldl input_push s (concat (stroke_events <$> ts)) ∧ shift k' = false ∧ e0 k' = false.
Proof.
  intros Hs He Hts. revert k s Hs He. induction Hts as [|t ts Ht _ IH]; intros k s Hs He; [done|].
  cbn [fmap list_fmap concat]. rewrite !foldl_app.
  assert (Hone : ∃ n, foldl keyboard_handle_byte (k, s) (stroke_bytes t) = (mkKeyboard false false n, foldl input_push s (stroke_events t))).
  { destruct t as [c|c|c]; cbn [stroke_bytes stroke_events stroke_ok] in *.
    - cbn [foldl]. destruct (plain_byte k s c Ht He) as [-> _]. rewrite Hs.
      destruct (plain_byte (mkKeyboard false false (u32 (kbd_count k + 1))) (input_push s (key_event false c (map_lower.[c]) 0)) c Ht eq_refl) as [_ ->].
      by eexists.
    - cbn [foldl]. rewrite (shift_byte k s false He). cbn [negb].
      destruct (plain_byte (mkKeyboard true false (u32 (kbd_count k + 1))) s c Ht eq_refl) as [-> _]. cbn [shift kbd_count].
      set (s1 := input_push s _). set (n := u32 _).
      destruct (plain_byte (mkKeyboard true false n) s1 c Ht eq_refl) as [_ ->]. cbn [shift kbd_count].
      rewrite (shift_byte (mkKeyboard _ _ _) _ true eq_refl). by eexists.
    - destruct Ht as [Hc Ha]. change [0xE0; c; 0xE0; c + 128] with ([0xE0; if false then c + 128 else c] ++ [0xE0; if true then c + 128 else c]).
      rewrite foldl_app, (arrow_byte k s c false Hc Ha). cbn [negb].
      rewrite (arrow_byte (mkKeyboard _ _ _) _ c true Hc Ha). cbn [shift]. rewrite Hs. by eexists. }
  destruct Hone as [n ->]. by apply IH.
Qed.

(** "aA" and the up arrow. *)
Lemma keyboard_types_witness :
  (foldl keyboard_handle_byte (mkKeyboard false false 0, input_init bss_input 1280 800) (concat (stroke_bytes <$> [Key 30; Shifted 30; Arrow 72]))).2 =
    foldl input_push (input_init bss_input 1280 800)
      [key_event false 30 97 0; key_event true 30 97 0; key_event false 30 65 0; key_event true 30 65 0;
       key_event false 72 0 KEY_UP; key_event true 72 0 KEY_UP].
Proof.
  pose proof (keyboard_types (mkKeyboard false false 0) (input_init bss_input 1280 800) [Key 30; Shifted 30; Arrow 72] eq_refl eq_refl) as H.
  specialize (H ltac:(repeat constructor; discriminate)). destruct (foldl keyboard_handle_byte _ _) as [k' s']. exact (proj1 H).
Defined.
