(* ===== verification/Bootargs.v ===== *)
(** * Boot arguments

    [kernel/boot/bootargs.c]: the kernel command line, searched for flags and for
    [name=value] words.  A C string is the list of its bytes before the
    terminator, and a pointer into it what follows; [out] is the caller's buffer
    from offset 0 on, [None] for a null pointer. *)

From S2P Require Import Prelude Mem CString Klog.

Definition BOOT_ARGS_MAX : Z := 512.

Definition is_sep (c : Z) : bool := (c =? 32) || (c =? 9) || (c =? 10) || (c =? 0).

(** [while (c && !stop(c)) p++]: the bytes passed and the pointer reached. *)
Fixpoint scan (stop : Z → bool) (p : list Z) : list Z * list Z :=
  match p with
  | [] => ([], [])
  | c :: p' => if stop c then ([], p) else let '(a, b) := scan stop p' in (c :: a, b)
  end.

Definition num_width (max_len : Z) : nat :=
  if 8 <=? max_len then 8 else if 4 <=? max_len then 4 else if 2 <=? max_len then 2 else 1.
Definition copy_num (val : Z) (to : mem) (max_len : Z) : mem :=
  if max_len =? 0 then to else store_le to 0 (num_width max_len) val.

Fixpoint copy_str_from (from : list Z) (to : mem) (i max_len : Z) : mem :=
  match from with
  | c :: from' => if negb (is_sep c) && (i + 1 <? max_len) then copy_str_from from' (st8 to i c) (i + 1) max_len else st8 to i 0
  | [] => st8 to i 0
  end.
Definition copy_str (from : list Z) (to : mem) (max_len : Z) : mem :=
  if max_len =? 0 then to else copy_str_from from to 0 max_len.

(** The test "all digits": an [x] is let through at offset [xpos]. *)
Fixpoint digits_from (p : list Z) (off xpos : Z) : bool :=
  match p with
  | [] => true
  | c :: p => if is_sep c then true
              else if is_digit c || ((c =? 120) && (off =? xpos)) then digits_from p (off + 1) xpos else false
  end.
Definition digits (cp : list Z) : bool :=
  let neg := cp.[0] =? 45 in
  (neg || is_digit (cp.[0])) &&
  digits_from (if neg then drop 1 cp else cp) (if neg then 1 else 0) (if cp.[0] =? 48 then 1 else 0).

Definition hex_step (v c : Z) : Z :=
  let v := s64 (Z.shiftl v 4) in
  if is_digit c then Z.lor v (c - 48)
  else if (97 <=? c) && (c <=? 102) then Z.lor v (c - 97 + 10)
  else if (65 <=? c) && (c <=? 70) then Z.lor v (c - 65 + 10) else v.
Definition dec_step (v c : Z) : Z := s64 (v * 10 + (c - 48)).

Definition number (cp : list Z) : Z :=
  let neg := cp.[0] =? 45 in
  let cp := if neg then drop 1 cp else cp in
  let v :=
    if (cp.[0] =? 48) && ((cp.[1] =? 120) || (cp.[1] =? 88))
    then foldl hex_step 0 (scan is_sep (drop 2 cp)).1
    else foldl dec_step 0 (scan (λ c, negb (is_digit c)) cp).1 in
  if neg then s64 (- v) else v.

Definition put_out (out : option mem) (out_len : Z) (f : mem → mem) : option mem :=
  if out_len =? 0 then out else f <$> out.

(** [name=value]: a number if it looks like one and the buffer is that small. *)
Definition put_value (cp : list Z) (out_len : Z) (to : mem) : mem :=
  if digits cp && (out_len <=? 8) then copy_num (number cp) to out_len else copy_str cp to out_len.

Fixpoint parse_from (fuel : nat) (args want : list Z) (out : option mem) (out_len : Z) : bool * option mem :=
  match fuel, args with
  | _, [] => (false, out)
  | O, _ => (false, out)
  | S fuel, _ =>
      let is_flag := args.[0] =? 45 in
      let '(key, cp) := scan (λ c, is_sep c || (c =? 61)) args in
      if (zlen key =? zlen want) && (strncmp (λ i, args.[i]) (λ i, want.[i]) (zlen key) =? 0) then
        if is_flag then (true, put_out out out_len (λ to, copy_num 1 to out_len))
        else if cp.[0] =? 61 then (true, put_out out out_len (put_value (drop 1 cp) out_len))
        else (true, put_out out out_len (λ to, copy_num 1 to out_len))
      else
        let args := (scan is_sep args).2 in
        let args := (scan (λ c, negb (is_sep c)) args).2 in
        parse_from fuel args want out out_len
  end.
Definition parse_one (args want : list Z) (out : option mem) (out_len : Z) : bool * option mem :=
  parse_from (length args) (scan (λ c, negb (is_sep c)) args).2 want out out_len.

Record bootargs := mkBootargs { g_boot_args : list Z; g_verbose : bool }.

Definition bootargs_has (b : bootargs) (name : list Z) : bool := (parse_one (g_boot_args b) name None 0).1.
Definition bootargs_parse (b : bootargs) (name : list Z) (out : mem) (out_len : Z) : bool * option mem :=
  parse_one (g_boot_args b) name (Some out) out_len.
Definition bootargs_raw (b : bootargs) : list Z := g_boot_args b.
Definition bootargs_verbose (b : bootargs) : bool := g_verbose b.

(** [cmdline]: [None] for a null pointer. *)
Definition bootargs_init (cmdline : option (list Z)) : bootargs :=
  let b := mkBootargs (match cmdline with Some l => take (Z.to_nat (BOOT_ARGS_MAX - 1)) l | None => [] end) false in
  mkBootargs (g_boot_args b) (bootargs_has b [45; 118] || bootargs_has b [118]).

(** ** The command line as words *)

Fixpoint words_from (fuel : nat) (l : list Z) : list (list Z) :=
  match fuel with
  | O => []
  | S fuel =>
      match (scan (λ c, negb (is_sep c)) l).2 with
      | [] => []
      | l => (scan is_sep l).1 :: words_from fuel (scan is_sep l).2
      end
  end.
Definition words (l : list Z) : list (list Z) := words_from (S (length l)) l.

Definition word_key (w : list Z) : list Z := (scan (λ c, c =? 61) w).1.
Definition word_value (w : list Z) : option (list Z) :=
  match (scan (λ c, c =? 61) w).2 with [] => None | _ :: v => Some v end.

(** What a word assigns: a flag and a bare name the number 1, otherwise its
    value. *)
Definition assign (w : list Z) (out_len : Z) (to : mem) : mem :=
  if w.[0] =? 45 then copy_num 1 to out_len
  else match word_value w with Some v => put_value v out_len to | None => copy_num 1 to out_len end.

(** The first word with the key decides. *)
Definition lookup_word (args want : list Z) : option (list Z) :=
  snd <$> list_find (λ w, word_key w = want) (words args).

Definition c_string (l : list Z) : Prop := Forall (λ c, c ≠ 0) l.

(** ** Scanning *)

Definition stops (stop : Z → bool) (r : list Z) : Prop := r = [] ∨ ∃ c r', r = c :: r' ∧ stop c = true.
Abbreviation ends := (stops is_sep).
Abbreviation sep_free := (Forall (λ c, is_sep c = false)).

Lemma scan_splits stop p :
  p = (scan stop p).1 ++ (scan stop p).2 ∧ Forall (λ c, stop c = false) (scan stop p).1 ∧ stops stop (scan stop p).2.
Proof.
  induction p as [|c p IH]; cbn [scan]; [by split_and!; [..|left]|]. destruct (stop c) eqn:Hc.
  { split_and!; [done..|]. right. by exists c, p. }
  destruct (scan stop p) as [a b]. destruct IH as (-> & Ha & Hb). by split_and!; [|constructor|].
Qed.

Lemma scan_cut stop a b : Forall (λ c, stop c = false) a → stops stop b → scan stop (a ++ b) = (a, b).
Proof.
  intros Ha Hb. induction Ha as [|c a Hc Ha IH]; cbn [app scan].
  - destruct Hb as [->|(c & b' & -> & Hc)]; [done|]. cbn. by rewrite Hc.
  - by rewrite Hc, IH.
Qed.

Lemma scan_stops stop v r : stops stop r → (scan stop (v ++ r)).1 = (scan stop v).1.
Proof.
  intros Hr. induction v as [|c v IH]; cbn [app scan].
  - destruct Hr as [->|(c & r' & -> & Hc)]; [done|]. cbn. by rewrite Hc.
  - case_if; [done|]. destruct (scan stop (v ++ r)), (scan stop v). cbn in *. by rewrite IH.
Qed.

Lemma stops_weaken (p q : Z → bool) r : (∀ c, p c = true → q c = true) → stops p r → stops q r.
Proof. intros Hpq [->|(c & r' & -> & Hc)]; [by left|]. right. exists c, r'. auto. Qed.

(** Reading at a word, or just behind it, sees no character of another word. *)
Lemma at_word v r i c : ends r → is_sep c = false → 0 ≤ i ≤ zlen v → ((v ++ r).[i] =? c) = (v.[i] =? c).
Proof.
  intros Hr Hc Hi. unfold aget, zlen in *. destruct (decide (Z.to_nat i < length v)%nat) as [Hlt|Hge].
  { by rewrite lookup_total_app_l. }
  replace (Z.to_nat i) with (length v) by lia. rewrite lookup_total_app_r, Nat.sub_diag by lia.
  assert (E : v !!! length v = 0) by (rewrite list_lookup_total_alt, lookup_ge_None_2 by lia; done). rewrite E.
  destruct Hr as [->|(x & r' & -> & Hx)]; [done|]. cbn.
  assert (c ≠ 0) by (intros ->; done). destruct (Z.eqb_spec x c) as [->|]; [congruence|]. symmetry. change ((0 =? c) = false). apply Z.eqb_neq. lia.
Qed.

Lemma digit_not_sep c : is_sep c = true → is_digit c = false.
Proof. unfold is_sep, is_digit. intros H. apply not_true_iff_false. intros [? ?]%andb_prop. bools. repeat (apply orb_prop in H as [H|H]); bools; lia. Qed.

Lemma at_digit v r : ends r → is_digit ((v ++ r).[0]) = is_digit (v.[0]).
Proof.
  intros Hr. destruct v as [|c v]; [|done]. destruct Hr as [->|(x & r' & -> & Hx)]; [done|]. cbn.
  change ((x :: r').[0]) with x. by rewrite digit_not_sep.
Qed.

Lemma digits_from_word v r off xpos : ends r → digits_from (v ++ r) off xpos = digits_from v off xpos.
Proof.
  intros Hr. revert off. induction v as [|c v IH]; intros off; cbn [app digits_from].
  - destruct Hr as [->|(x & r' & -> & Hx)]; [done|]. cbn. by rewrite Hx.
  - by rewrite IH.
Qed.

(** A word without a leading minus sign. *)
Definition unsigned (cp : list Z) : list Z := if cp.[0] =? 45 then drop 1 cp else cp.
Lemma unsigned_word v r : ends r → unsigned (v ++ r) = unsigned v ++ r.
Proof. intros Hr. unfold unsigned. rewrite at_word by (first [done|pose proof (zlen_nonneg v); lia]). case_if; [|done]. by destruct v. Qed.

Lemma digits_word v r : ends r → digits (v ++ r) = digits v.
Proof.
  intros Hr. pose proof (zlen_nonneg v) as Hz. pose proof (unsigned_word v r Hr) as Hu. unfold digits, unsigned in *.
  rewrite Hu, at_digit, digits_from_word, !at_word by (first [done|lia]). done.
Qed.

Lemma number_word v r : ends r → number (v ++ r) = number v.
Proof.
  intros Hr. pose proof (zlen_nonneg v) as Hz. pose proof (unsigned_word v r Hr) as Hu. unfold number, unsigned in *.
  rewrite Hu, (at_word v) by (first [done|lia]). set (u := if v.[0] =? 45 then drop 1 v else v). clearbody u. clear Hu.
  rewrite (at_word u r 0) by (first [done|pose proof (zlen_nonneg u); lia]).
  assert (Hd : (scan (λ c, negb (is_digit c)) (u ++ r)).1 = (scan (λ c, negb (is_digit c)) u).1).
  { apply scan_stops. eapply stops_weaken; [|exact Hr]. intros c Hc. by rewrite digit_not_sep. }
  destruct u as [|c0 [|c1 u]].
  - by rewrite Hd.
  - rewrite !(at_word [c0] r 1), Hd by (first [done|change (zlen [c0]) with 1; lia]). change ([c0].[1]) with 0. by rewrite andb_false_r.
  - rewrite Hd. change (drop 2 ((c0 :: c1 :: u) ++ r)) with (u ++ r). rewrite (scan_stops is_sep u r) by done. done.
Qed.

Lemma copy_str_word v r to n : ends r → copy_str (v ++ r) to n = copy_str v to n.
Proof.
  intros Hr. unfold copy_str. case_if; [done|]. generalize 0 as i. revert to. induction v as [|c v IH]; intros to i; cbn [app copy_str_from].
  - destruct Hr as [->|(x & r' & -> & Hx)]; [done|]. cbn. by rewrite Hx.
  - by rewrite IH.
Qed.

Lemma put_value_word v r n to : ends r → put_value (v ++ r) n to = put_value v n to.
Proof. intros Hr. unfold put_value. by rewrite digits_word, number_word, copy_str_word. Qed.

(** ** The search *)

Lemma is_cstr_list l : c_string l → is_cstr (λ i, l.[i]) l.
Proof.
  intros Hl. split.
  - intros i Hi. split; [done|]. by apply (aget_Forall (λ c, c ≠ 0)).
  - unfold aget, zlen. rewrite Nat2Z.id, list_lookup_total_alt, lookup_ge_None_2 by lia. done.
Qed.

Lemma key_matches key r want :
  c_string (key ++ r) → c_string want →
  (zlen key =? zlen want) && (strncmp (λ i, (key ++ r).[i]) (λ i, want.[i]) (zlen key) =? 0) = bool_decide (key = want).
Proof.
  intros Ha Hw. destruct (Z.eqb_spec (zlen key) (zlen want)) as [Hl|Hl]; cbn [andb].
  2:{ rewrite bool_decide_eq_false_2; [done|]. by intros ->. }
  pose proof (strncmp_zero _ _ _ _ (Z.to_nat (zlen key)) (is_cstr_list _ Ha) (is_cstr_list _ Hw)) as H.
  assert (E : Z.to_nat (zlen key) = length key ∧ length key = length want) by (unfold zlen in *; lia). destruct E as [E1 E2].
  unfold strncmp. rewrite E1 in *. rewrite take_app_length, E2, firstn_all in H.
  destruct (Z.eqb_spec (strncmp_from (λ i, (key ++ r).[i]) (λ i, want.[i]) (length key) 0) 0) as [Hz|Hz]; symmetry.
  - apply bool_decide_eq_true. apply H. by rewrite <- E2.
  - apply bool_decide_eq_false. intros Hk. apply Hz. rewrite E2. by apply H.
Qed.

Lemma word_split w r :
  sep_free w → ends r →
  scan (λ c, is_sep c || (c =? 61)) (w ++ r) = (word_key w, (scan (λ c, c =? 61) w).2 ++ r).
Proof.
  intros Hw Hr. destruct (scan_splits (λ c, c =? 61) w) as (E & Hk & Ht). unfold word_key.
  rewrite E in Hw at 1. apply Forall_app in Hw as [Hw1 _]. rewrite E at 1. rewrite <- app_assoc. apply scan_cut.
  - clear E Ht. induction Hk as [|c l Hc _ IH]; constructor; apply Forall_cons in Hw1 as [H1 H2]; [by rewrite H1, Hc|by apply IH].
  - destruct Ht as [->|(c & t & -> & Hc)].
    + eapply stops_weaken; [|exact Hr]. intros c Hc. by rewrite Hc.
    + right. exists c, (t ++ r). split; [done|]. by rewrite Hc, orb_true_r.
Qed.

(** The branches of a match are the assignment of the word. *)
Lemma match_word w r out n :
  w ≠ [] → ends r →
  (if (w ++ r).[0] =? 45 then (true, put_out out n (λ to, copy_num 1 to n))
   else if ((scan (λ c, c =? 61) w).2 ++ r).[0] =? 61
   then (true, put_out out n (put_value (drop 1 ((scan (λ c, c =? 61) w).2 ++ r)) n))
   else (true, put_out out n (λ to, copy_num 1 to n))) = (true, put_out out n (assign w n)).
Proof.
  intros Hw Hr. unfold assign, word_value. change ((w ++ r).[0] =? 45) with ((w ++ r).[0] =? 45).
  rewrite at_word by (first [done|pose proof (zlen_nonneg w); lia]). unfold put_out. destruct (w.[0] =? 45); [done|].
  destruct (scan_splits (λ c, c =? 61) w) as (_ & _ & Ht). destruct Ht as [->|(c & t & -> & Hc)].
  - rewrite (at_word [] r 0 61) by (first [done|change (zlen (@nil Z)) with 0; lia]). done.
  - apply Z.eqb_eq in Hc as ->. change (((61 :: t) ++ r).[0] =? 61) with true. cbv iota. change (drop 1 ((61 :: t) ++ r)) with (t ++ r).
    case_if; [done|]. destruct out; cbn; [|done]. by rewrite put_value_word.
Qed.

Lemma words_skip fuel l : words_from fuel (scan (λ c, negb (is_sep c)) l).2 = words_from fuel l.
Proof.
  assert (E : scan (λ c, negb (is_sep c)) (scan (λ c, negb (is_sep c)) l).2 = ([], (scan (λ c, negb (is_sep c)) l).2)).
  { destruct (scan_splits (λ c, negb (is_sep c)) l) as (_ & _ & Hs). by apply (scan_cut _ []). }
  destruct fuel; cbn [words_from]; [done|]. by rewrite E.
Qed.

Lemma c_string_app a b : c_string (a ++ b) → c_string a ∧ c_string b.
Proof. apply Forall_app. Qed.

(** One turn of the loop, at the start of a word. *)
Lemma parse_turn fuel w r want out n :
  w ≠ [] → sep_free w → ends r → c_string (w ++ r) → c_string want →
  parse_from (S fuel) (w ++ r) want out n =
    if decide (word_key w = want) then (true, put_out out n (assign w n))
    else parse_from fuel (scan (λ c, negb (is_sep c)) r).2 want out n.
Proof.
  intros Hne Hw Hr Hl Hwant.
  assert (Hb : parse_from (S fuel) (w ++ r) want out n =
    (let '(key, cp) := scan (λ c, is_sep c || (c =? 61)) (w ++ r) in
     if (zlen key =? zlen want) && (strncmp (λ i, (w ++ r).[i]) (λ i, want.[i]) (zlen key) =? 0) then
       if (w ++ r).[0] =? 45 then (true, put_out out n (λ to, copy_num 1 to n))
       else if cp.[0] =? 61 then (true, put_out out n (put_value (drop 1 cp) n))
       else (true, put_out out n (λ to, copy_num 1 to n))
     else parse_from fuel (scan (λ c, negb (is_sep c)) (scan is_sep (w ++ r)).2).2 want out n)) by (by destruct w).
  rewrite Hb, word_split, (scan_cut is_sep w r) by done. clear Hb.
  pose proof (key_matches (word_key w) ((scan (λ c, c =? 61) w).2 ++ r) want) as Hk.
  destruct (scan_splits (λ c, c =? 61) w) as (Ew & _ & _). fold (word_key w) in Ew. rewrite app_assoc, <- Ew in Hk.
  rewrite Hk by done. destruct (decide (word_key w = want)) as [Hm|Hm].
  - rewrite bool_decide_eq_true_2 by done. by apply match_word.
  - by rewrite bool_decide_eq_false_2.
Qed.

Lemma parse_from_spec fuel fuel' l want out n :
  (length l ≤ fuel)%nat → (length l < fuel')%nat → c_string l → c_string want → stops (λ c, negb (is_sep c)) l →
  parse_from fuel l want out n =
    match snd <$> list_find (λ w, word_key w = want) (words_from fuel' l) with
    | Some w => (true, put_out out n (assign w n))
    | None => (false, out)
    end.
Proof.
  revert fuel' l. induction fuel as [|fuel IH]; intros fuel' l Hf Hf' Hl Hw Hs.
  { destruct l; [|cbn in Hf; lia]. destruct fuel'; done. }
  destruct (decide (l = [])) as [->|Hne]; [by destruct fuel'|]. destruct fuel' as [|fuel']; [lia|].
  assert (E0 : words_from (S fuel') l = (scan is_sep l).1 :: words_from fuel' (scan is_sep l).2).
  { pose proof (scan_cut (λ c, negb (is_sep c)) [] l ltac:(done) Hs) as E0. cbn [app words_from] in *. rewrite E0. by destruct l. }
  rewrite E0. clear E0.
  destruct (scan_splits is_sep l) as (El & Hws & Hr). set (w := (scan is_sep l).1) in *. set (r := (scan is_sep l).2) in *.
  assert (Hwne : w ≠ []).
  { intros E. rewrite E in El. destruct Hs as [->|(c & l' & -> & Hc)]; [done|].
    destruct Hr as [Hr|(x & r' & Hr & Hx)]; rewrite Hr in El; cbn in El; simplify_eq. by rewrite Hx in Hc. }
  assert (Hlen : (length r < length l)%nat) by (rewrite El, length_app; destruct w; [done|cbn; lia]).
  clearbody w r. subst l. rewrite parse_turn by done. cbn [list_find]. case_decide as Hm; [done|].
  apply c_string_app in Hl as [_ Hl].
  destruct (scan_splits (λ c, negb (is_sep c)) r) as (Er & _ & Hs'). set (r' := (scan (λ c, negb (is_sep c)) r).2) in *.
  assert (Hlr : (length r' ≤ length r)%nat) by (rewrite Er, length_app; lia).
  rewrite (IH fuel' r') by (first [done|lia|by rewrite Er in Hl; apply c_string_app in Hl as [_ Hl]]).
  unfold r'. rewrite words_skip. by destruct (list_find _ (words_from fuel' r)) as [[? ?]|].
Qed.

Lemma parse_one_words args want out n :
  c_string args → c_string want →
  parse_one args want out n =
    match lookup_word args want with
    | Some w => (true, put_out out n (assign w n))
    | None => (false, out)
    end.
Proof.
  intros Ha Hw. unfold parse_one, lookup_word, words.
  destruct (scan_splits (λ c, negb (is_sep c)) args) as (E & _ & Hs). rewrite <- (words_skip (S (length args)) args).
  set (l := (scan (λ c, negb (is_sep c)) args).2) in *.
  assert (Hlen : (length l ≤ length args)%nat) by (apply (f_equal length) in E; rewrite length_app in E; lia).
  apply parse_from_spec; [lia|lia| |done|done]. rewrite E in Ha. by apply c_string_app in Ha as [_ Ha].
Qed.

(** Looking up a boot argument.  The search over the characters of the
    command line is the search over its words: the first word whose name is the
    one asked for decides, and it assigns 1 (a flag or a bare name) or its value;
    without one the answer is no and the buffer is untouched. *)
Theorem parse_one_spec args want out n :
  c_string args → c_string want →
  parse_one args want out n =
    match lookup_word args want with
    | Some w => (true, put_out out n (assign w n))
    | None => (false, out)
    end.
Proof. apply parse_one_words. Qed.

Lemma parse_one_spec_witness :
  parse_one [45; 118; 32; 115; 61; 51] [115] (Some (λ _, 0)) 1 = (true, Some (store_le (λ _, 0) 0 1 3)).
Proof. rewrite parse_one_spec by (repeat constructor; lia). reflexivity. Defined.

(** ** Numbers *)

Lemma uint_text_digits v : 0 ≤ v < 2 ^ 64 → Forall (λ c, is_digit c = true) (uint_text v 10 false).
Proof.
  intros Hv. unfold uint_text, uint_buf. case_if; [by repeat constructor|]. apply Forall_reverse.
  assert (H : ∀ fuel v, 0 ≤ v → Forall (λ c, is_digit c = true) (put_digits fuel v 10 false)); [|apply H; lia].
  clear. intros fuel. induction fuel as [|fuel IH]; intros v Hv; cbn [put_digits]; [done|]. case_if; [done|]. constructor.
  - pose proof (Z.mod_pos_bound v 10 ltac:(lia)). unfold digit_char. rewrite (proj2 (Z.ltb_lt _ _)) by lia. unfold is_digit.
    rewrite (proj2 (Z.leb_le _ _)) by lia. by rewrite (proj2 (Z.leb_le _ _)) by lia.
  - apply IH. apply Z.div_pos; lia.
Qed.

Lemma uint_text_value v : 0 ≤ v < 2 ^ 64 → read_uint 10 (uint_text v 10 false) = v ∧ uint_text v 10 false ≠ [] ∧
  (v ≠ 0 → ∃ c s, uint_text v 10 false = c :: s ∧ c ≠ 48).
Proof.
  intros Hv. unfold uint_text, uint_buf. destruct (Z.eqb_spec v 0) as [->|Hne]; [done|].
  assert (Hf : 0 ≤ v < 10 ^ Z.of_nat 64) by (split; [lia|]; eapply Z.lt_trans; [apply Hv|reflexivity]).
  destruct (put_digits_spec 10 false ltac:(lia) 64 v Hf) as [H1 H2]. destruct (H2 Hne) as (c & s & E & Hc).
  rewrite E in *. split_and!; [done|done|]. intros _. exists c, s. split; [done|]. intros ->. by apply Hc.
Qed.

(** Accumulating decimal digits below 2^63 never wraps. *)
Lemma dec_value s v :
  Forall (λ c, is_digit c = true) s → 0 ≤ v → foldl (λ v c, v * 10 + digit_value c) v s < 2 ^ 63 →
  v ≤ foldl (λ v c, v * 10 + digit_value c) v s ∧ foldl dec_step v s = foldl (λ v c, v * 10 + digit_value c) v s.
Proof.
  intros Hs. revert v. induction Hs as [|c s Hc Hs' IH]; intros v Hv Hb; cbn [foldl] in *; [by split; [lia|]|].
  unfold is_digit in Hc. bools. assert (Hd : digit_value c = c - 48) by (unfold digit_value; by rewrite (proj2 (Z.ltb_lt c 58)) by lia).
  rewrite Hd in *.
  assert (Hmono : ∀ s a, Forall (λ c, is_digit c = true) s → 0 ≤ a → a ≤ foldl (λ v c, v * 10 + digit_value c) a s).
  { clear. intros s. induction s as [|c s IH]; intros a Hs Ha; cbn [foldl]; [lia|]. apply Forall_cons in Hs as [Hc Hs].
    unfold is_digit in Hc. bools. assert (digit_value c = c - 48) as -> by (unfold digit_value; by rewrite (proj2 (Z.ltb_lt c 58)) by lia).
    specialize (IH (a * 10 + (c - 48)) Hs ltac:(lia)). lia. }
  assert (Hstep : dec_step v c = v * 10 + (c - 48)) by (unfold dec_step; rewrite s64_small; [done|];
    pose proof (Hmono s (v * 10 + (c - 48)) ltac:(assumption) ltac:(lia)); lia).
  rewrite Hstep. destruct (IH (v * 10 + (c - 48)) ltac:(lia) Hb) as [H1 H2]. split; [lia|done].
Qed.

Lemma digits_from_all s off xpos : Forall (λ c, is_digit c = true) s → digits_from s off xpos = true.
Proof.
  intros Hs. revert off. induction Hs as [|c s Hc _ IH]; intros off; cbn [digits_from]; [done|]. case_if; [done|]. by rewrite Hc, IH.
Qed.

Lemma scan_digits s : Forall (λ c, is_digit c = true) s → scan (λ c, negb (is_digit c)) s = (s, []).
Proof.
  intros Hs. rewrite <- (app_nil_r s) at 1. apply scan_cut; [|by left]. eapply Forall_impl; [exact Hs|]. by intros c ->.
Qed.

(** The value of a numeral, with or without its sign. *)
Lemma number_int_text v :
  - 2 ^ 63 < v < 2 ^ 63 → digits (int_text v) = true ∧ number (int_text v) = v.
Proof.
  intros Hv.
  assert (Hpos : ∀ n, 0 ≤ n < 2 ^ 63 →
    let s := uint_text n 10 false in
    (s.[0] =? 45) = false ∧ is_digit (s.[0]) = true ∧ Forall (λ c, is_digit c = true) s ∧
    (if (s.[0] =? 48) && ((s.[1] =? 120) || (s.[1] =? 88)) then foldl hex_step 0 (scan is_sep (drop 2 s)).1
     else foldl dec_step 0 (scan (λ c, negb (is_digit c)) s).1) = n).
  { intros n Hn. cbv zeta. pose proof (uint_text_digits n ltac:(lia)) as Hd. destruct (uint_text_value n ltac:(lia)) as (Hr & Hne & Hlead).
    set (s := uint_text n 10 false) in *. assert (H0 : is_digit (s.[0]) = true) by (destruct s; [done|by apply Forall_cons in Hd as [Hd _]]).
    assert (Hx : (s.[0] =? 48) && ((s.[1] =? 120) || (s.[1] =? 88)) = false).
    { destruct (decide (n = 0)) as [->|Hn0]; [done|]. destruct (Hlead Hn0) as (c & s' & E & Hc). rewrite E.
      change ((c :: s').[0]) with c. by rewrite (proj2 (Z.eqb_neq c 48) Hc). }
    rewrite Hx, scan_digits by done. cbn [fst].
    destruct (dec_value s 0 Hd ltac:(lia)) as [_ Hv0]; [unfold read_uint in Hr; rewrite Hr; lia|].
    split_and!; [|done|done|by rewrite Hv0]. apply Z.eqb_neq. intros E. rewrite E in H0. done. }
  unfold int_text. destruct (Z.ltb_spec v 0) as [Hneg|Hneg].
  - destruct (Hpos (- v) ltac:(lia)) as (_ & _ & Hd & Hval). set (s := uint_text (- v) 10 false) in *. split.
    + unfold digits. change ((45 :: s).[0]) with 45. cbn [Z.eqb Pos.eqb orb andb]. change (drop 1 (45 :: s)) with s. by apply digits_from_all.
    + unfold number. change ((45 :: s).[0]) with 45. cbn [Z.eqb Pos.eqb]. change (drop 1 (45 :: s)) with s. rewrite Hval, s64_small; lia.
  - destruct (Hpos v ltac:(lia)) as (Hm & H0 & Hd & Hval). set (s := uint_text v 10 false) in *. split.
    + unfold digits. rewrite Hm, H0. cbn [orb andb]. by apply digits_from_all.
    + unfold number. by rewrite Hm, Hval.
Qed.

(** A number on the command line reaches its reader.  If the first word named
    [name] is [name=v] in decimal, then reading it into an integer of one, two,
    four or eight bytes stores [v], reduced to that width. *)
Theorem bootargs_number_roundtrip args name v width m :
  c_string args → c_string name → name.[0] ≠ 45 → ¬ (61 ∈ name) → - 2 ^ 63 < v < 2 ^ 63 →
  width = 1 ∨ width = 2 ∨ width = 4 ∨ width = 8 →
  lookup_word args name = Some (name ++ 61 :: int_text v) →
  ∃ m', parse_one args name (Some m) width = (true, Some m') ∧ load_le m' 0 (Z.to_nat width) = v mod 256 ^ width.
Proof.
  intros Ha Hn Hflag Heq Hv Hw Hl.
  assert (Hps : parse_one args name (Some m) width = (true, put_out (Some m) width (assign (name ++ 61 :: int_text v) width))).
  { rewrite parse_one_words by done. by rewrite Hl. }
  assert (Hsc : scan (λ c, c =? 61) (name ++ 61 :: int_text v) = (name, 61 :: int_text v)).
  { apply scan_cut; [|right; by exists 61, (int_text v)]. apply Forall_forall. intros c Hc. apply Z.eqb_neq. by intros ->. }
  assert (Has : assign (name ++ 61 :: int_text v) width m = store_le m 0 (num_width width) v).
  { unfold assign, word_value. rewrite Hsc. cbn [snd]. rewrite (proj2 (Z.eqb_neq _ 45)).
    - unfold put_value. destruct (number_int_text v Hv) as [-> ->]. rewrite (proj2 (Z.leb_le width 8)) by lia. cbn [andb].
      unfold copy_num. by rewrite (proj2 (Z.eqb_neq width 0)) by lia.
    - destruct name; [done|exact Hflag]. }
  eexists. split.
  - rewrite Hps. unfold put_out. rewrite (proj2 (Z.eqb_neq width 0)) by lia. cbn. by rewrite Has.
  - destruct Hw as [->|[->|[->| ->]]]; apply load_store_eq.
Qed.

(** [x=-7 debug=12], read into four bytes. *)
Lemma bootargs_number_roundtrip_witness :
  ∃ m', parse_one [120; 61; 45; 55; 32; 100; 61; 49; 50] [120] (Some (λ _, 0)) 4 = (true, Some m') ∧ load_le m' 0 4 = 2 ^ 32 - 7.
Proof.
  apply (bootargs_number_roundtrip [120; 61; 45; 55; 32; 100; 61; 49; 50] [120] (-7) 4 (λ _, 0));
    [repeat constructor; lia|repeat constructor; lia|discriminate| |lia|lia|reflexivity].
  apply (bool_decide_unpack _). reflexivity.
Defined.

(** A hexadecimal value with a letter digit is not read as a number: whatever
    the (four-byte) integer the caller passes, it gets the first three characters
    of the text, as for [debug=0x1f]. *)
Theorem hex_letters_copied_as_text m :
  (parse_one [100; 61; 48; 120; 49; 102] [100] (Some m) 4).2 = Some (st8 (st8 (st8 (st8 m 0 48) 1 120) 2 49) 3 0) ∧
  number [48; 120; 49; 102] = 31 ∧ digits [48; 120; 49; 102] = false.
Proof. split_and!; reflexivity. Qed.

(** Verbose boot.  After start-up the kernel is verbose exactly when one of
    the words of the first 511 bytes of the command line is named [-v] or [v]. *)
Theorem bootargs_verbose_spec cmdline :
  c_string cmdline →
  bootargs_verbose (bootargs_init (Some cmdline)) = true ↔
  ∃ w, w ∈ words (take 511 cmdline) ∧ (word_key w = [45; 118] ∨ word_key w = [118]).
Proof.
  intros Hc. unfold bootargs_verbose, bootargs_init, bootargs_has. cbn [g_verbose g_boot_args].
  change (Z.to_nat (BOOT_ARGS_MAX - 1)) with 511%nat.
  assert (Hs : c_string (take 511 cmdline)) by (by apply Forall_take).
  assert (Hfind : ∀ k, c_string k → (parse_one (take 511 cmdline) k None 0).1 = true ↔ ∃ w, w ∈ words (take 511 cmdline) ∧ word_key w = k).
  { intros k Hk. rewrite parse_one_words by done. unfold lookup_word.
    destruct (list_find _ _) as [[i w]|] eqn:Hf; cbn.
    - apply list_find_Some in Hf as (Hi & Hw & _). split; [|done]. intros _. exists w. split; [by eapply list_elem_of_lookup_2|done].
    - apply list_find_None in Hf. split; [done|]. intros (w & Hw & Hkey). rewrite Forall_forall in Hf. by destruct (Hf w Hw). }
  rewrite orb_true_iff, !Hfind by (repeat constructor; lia). split.
  - intros [(w & Hw & Hk)|(w & Hw & Hk)]; eauto.
  - intros (w & Hw & [Hk|Hk]); eauto.
Qed.

(** [quiet -v]. *)
Lemma bootargs_verbose_spec_witness : bootargs_verbose (bootargs_init (Some [113; 117; 32; 45; 118])) = true.
Proof.
  apply bootargs_verbose_spec; [repeat constructor; lia|]. exists [45; 118]. split; [|by left].
  apply (bool_decide_unpack _). reflexivity.
Defined.
