(* ===== verification/Pipe.v ===== *)
(** * Pipes

    Models [kernel/ipc/pipe.c]: a table of byte rings with reference-counted
    ends.  [pipe_read] and [pipe_write] loop, dropping [pipe_lock] and yielding
    between turns: [pipe_read_turn] and [pipe_write_turn] are one turn under the
    lock, and [pipe_read] and [pipe_write] compose them with [yield], what the
    other processes do to the table while the caller is descheduled. *)

From S2P Require Import Prelude Ring.

Definition PIPE_MAX : Z := 16.
Definition PIPE_BUF_SIZE : Z := 4096.
Definition PIPE_FD_BASE : Z := 64.

Record pipe_t := mkPipe {
  p_used : bool;
  creator_pid : Z;
  read_refs : Z;
  write_refs : Z;
  p_buf : list Z;
  read_pos : Z;
  write_pos : Z;
  data_bytes : Z;
}.

Definition pipe_zero : pipe_t :=
  mkPipe false 0 0 0 (replicate (Z.to_nat PIPE_BUF_SIZE) 0) 0 0 0.
#[export] Instance pipe_inhabited : Inhabited pipe_t := populate pipe_zero.

(** [g_pipes] *)
Definition pipes : Type := list pipe_t.
Definition pipes_bss : pipes := replicate (Z.to_nat PIPE_MAX) pipe_zero.

Definition is_write_end (fd : Z) : bool := negb (Z.land (fd - PIPE_FD_BASE) 1 =? 0).

(** [pipe_lookup]: the index of the open pipe behind [fd]. *)
Definition pipe_lookup (g : pipes) (fd : Z) : option Z :=
  if (fd <? PIPE_FD_BASE) || (PIPE_FD_BASE + PIPE_MAX * 2 <=? fd) then None
  else
    let idx := (fd - PIPE_FD_BASE) / 2 in
    if (idx <? 0) || (PIPE_MAX <=? idx) then None
    else if negb (p_used (g.[idx])) then None
    else Some idx.

Definition pipe_alloc (g : pipes) (pid : Z) : Z * pipes :=
  match find_up (λ i, negb (p_used (g.[i]))) 0 (Z.to_nat PIPE_MAX) with
  | Some i =>
      (i, g.[i <- mkPipe true (u32 pid) 1 1 (p_buf pipe_zero) 0 0 0])
  | None => (-1, g)
  end.

(** [pipe_create]: the result and the two descriptors stored in [pipefd]. *)
Definition pipe_create (g : pipes) (pid : Z) (pipefd_nonnull : bool) : Z * option (Z * Z) * pipes :=
  if negb pipefd_nonnull then (-1, None, g)
  else
    let '(idx, g) := pipe_alloc g pid in
    if idx <? 0 then (-1, None, g)
    else (0, Some (PIPE_FD_BASE + idx * 2, PIPE_FD_BASE + idx * 2 + 1), g).

Definition with_refs (p : pipe_t) (r w : Z) : pipe_t :=
  mkPipe (p_used p) (creator_pid p) r w (p_buf p) (read_pos p) (write_pos p) (data_bytes p).

Definition fork_inherit_one (parent_pid : Z) (i : Z) (g : pipes) : pipes :=
  let p := g.[i] in
  if negb (p_used p) then g
  else if negb (creator_pid p =? parent_pid) then g
  else
    let r := if negb (read_refs p =? 0) then u32 (read_refs p + 1) else read_refs p in
    let w := if negb (write_refs p =? 0) then u32 (write_refs p + 1) else write_refs p in
    g.[i <- with_refs p r w].
Definition pipe_fork_inherit (g : pipes) (parent_pid : Z) : pipes :=
  iter_up (fork_inherit_one parent_pid) 0 (Z.to_nat PIPE_MAX) g.

(** ** Reading *)

(** The copy loop of [pipe_read]: the bytes stored in [dst] and the new [read_pos]. *)
Fixpoint read_bytes (buf : list Z) (n : nat) (pos : Z) : list Z * Z :=
  match n with
  | O => ([], pos)
  | S n =>
      let '(l, pos') := read_bytes buf n (u32 (pos + 1) mod PIPE_BUF_SIZE) in
      (buf.[pos] :: l, pos')
  end.

Inductive read_turn := RdRet (ret : Z) (dst : list Z) | RdYield.

(** One turn of the loop of [pipe_read] on the pipe [idx]. *)
Definition pipe_read_turn (g : pipes) (idx count : Z) : read_turn * pipes :=
  let p := g.[idx] in
  if negb (p_used p) then (RdRet 0 [], g)
  else if 0 <? data_bytes p then
    let to_read := if count <? data_bytes p then count else data_bytes p in
    let '(dst, pos) := read_bytes (p_buf p) (Z.to_nat to_read) (read_pos p) in
    (RdRet to_read dst,
     g.[idx <- mkPipe true (creator_pid p) (read_refs p) (write_refs p) (p_buf p) pos (write_pos p)
                 (u32 (data_bytes p - u32 to_read))])
  else if write_refs p =? 0 then (RdRet 0 [], g)
  else (RdYield, g).

Fixpoint pipe_read_loop (fuel : nat) (yield : pipes → pipes) (g : pipes) (idx count : Z) :
    option (Z * list Z) * pipes :=
  match fuel with
  | O => (None, g)
  | S fuel =>
      match pipe_read_turn g idx count with
      | (RdRet r dst, g) => (Some (r, dst), g)
      | (RdYield, g) => pipe_read_loop fuel yield (yield g) idx count
      end
  end.

(** [pipe_read]; [None] is a call still waiting after [fuel] turns. *)
Definition pipe_read (fuel : nat) (yield : pipes → pipes) (g : pipes) (fd : Z)
    (buf_nonnull : bool) (count : Z) : option (Z * list Z) * pipes :=
  match pipe_lookup g fd with
  | None => (Some (-1, []), g)
  | Some idx =>
      if is_write_end fd then (Some (-1, []), g)
      else if negb buf_nonnull || (count =? 0) then (Some (0, []), g)
      else pipe_read_loop fuel yield g idx count
  end.

(** ** Writing *)

Fixpoint write_bytes (buf : list Z) (src : list Z) (pos : Z) : list Z * Z :=
  match src with
  | [] => (buf, pos)
  | b :: src => write_bytes (buf.[pos <- b]) src (u32 (pos + 1) mod PIPE_BUF_SIZE)
  end.

Inductive write_turn := WrRet (ret : Z) | WrMore (written : Z).

(** One turn of the loop of [pipe_write]: [written] bytes of [src] are in already. *)
Definition pipe_write_turn (g : pipes) (idx : Z) (src : list Z) (written : Z) : write_turn * pipes :=
  let p := g.[idx] in
  let count := zlen src in
  if negb (p_used p) || (read_refs p =? 0) then
    (WrRet (if negb (written =? 0) then s32 written else -1), g)
  else if data_bytes p <? PIPE_BUF_SIZE then
    let space := PIPE_BUF_SIZE - data_bytes p in
    let chunk := count - written in
    let chunk := if space <? chunk then space else chunk in
    let '(buf, pos) :=
      write_bytes (p_buf p) (take (Z.to_nat chunk) (drop (Z.to_nat written) src)) (write_pos p) in
    (WrMore (written + chunk),
     g.[idx <- mkPipe true (creator_pid p) (read_refs p) (write_refs p) buf (read_pos p) pos
                 (u32 (data_bytes p + u32 chunk))])
  else (WrMore written, g).

Fixpoint pipe_write_loop (fuel : nat) (yield : pipes → pipes) (g : pipes) (idx : Z) (src : list Z)
    (written : Z) : option Z * pipes :=
  if written <? zlen src then
    match fuel with
    | O => (None, g)
    | S fuel =>
        match pipe_write_turn g idx src written with
        | (WrRet r, g) => (Some r, g)
        | (WrMore w, g) =>
            (* [sched_yield] only when nothing fitted *)
            pipe_write_loop fuel yield (if w =? written then yield g else g) idx src w
        end
    end
  else (Some (s32 written), g).

Definition pipe_write (fuel : nat) (yield : pipes → pipes) (g : pipes) (fd : Z)
    (buf_nonnull : bool) (src : list Z) : option Z * pipes :=
  match pipe_lookup g fd with
  | None => (Some (-1), g)
  | Some idx =>
      if negb (is_write_end fd) then (Some (-1), g)
      else if negb buf_nonnull || (zlen src =? 0) then (Some 0, g)
      else pipe_write_loop fuel yield g idx src 0
  end.

(** ** Ends *)

Definition pipe_close (g : pipes) (fd : Z) : pipes :=
  match pipe_lookup g fd with
  | None => g
  | Some idx =>
      let p := g.[idx] in
      let p :=
        if negb (is_write_end fd) then
          if 0 <? read_refs p then with_refs p (read_refs p - 1) (write_refs p) else p
        else
          if 0 <? write_refs p then with_refs p (read_refs p) (write_refs p - 1) else p in
      let p :=
        if (read_refs p =? 0) && (write_refs p =? 0) then
          mkPipe false (creator_pid p) (read_refs p) (write_refs p) (p_buf p) (read_pos p)
                 (write_pos p) (data_bytes p)
        else p in
      g.[idx <- p]
  end.

Definition pipe_dup (g : pipes) (oldfd : Z) : Z * pipes :=
  match pipe_lookup g oldfd with
  | None => (-1, g)
  | Some idx =>
      let p := g.[idx] in
      (oldfd,
       g.[idx <- if negb (is_write_end oldfd) then with_refs p (u32 (read_refs p + 1)) (write_refs p)
                 else with_refs p (read_refs p) (u32 (write_refs p + 1))])
  end.

Definition pipe_readable (g : pipes) (fd : Z) : bool :=
  match pipe_lookup g fd with
  | None => false
  | Some idx =>
      if is_write_end fd then false
      else (0 <? data_bytes (g.[idx])) || negb (p_used (g.[idx]))
  end.

Definition pipe_writable (g : pipes) (fd : Z) : bool :=
  match pipe_lookup g fd with
  | None => false
  | Some idx =>
      if negb (is_write_end fd) then false else data_bytes (g.[idx]) <? PIPE_BUF_SIZE
  end.

(** ** The stream a pipe holds *)

Abbreviation N := PIPE_BUF_SIZE.

(** The bytes in transit, oldest first. *)
Definition queue (p : pipe_t) : list Z := ring_contents N (p_buf p) (read_pos p) (data_bytes p).

Record pipe_wf (p : pipe_t) : Prop := {
  pw_len : zlen (p_buf p) = N;
  pw_rpos : 0 ≤ read_pos p < N;
  pw_bytes : 0 ≤ data_bytes p ≤ N;
  pw_wpos : write_pos p = (read_pos p + data_bytes p) mod N;
  pw_refs : 0 ≤ read_refs p < 2 ^ 32 ∧ 0 ≤ write_refs p < 2 ^ 32;
}.

Definition pipes_wf (g : pipes) : Prop := zlen g = PIPE_MAX ∧ ∀ i, 0 ≤ i < PIPE_MAX → pipe_wf (g.[i]).

Lemma N_val : N = 4096.
Proof. done. Qed.

Lemma next_pos pos : 0 ≤ pos < N → u32 (pos + 1) mod N = (pos + 1) mod N.
Proof. rewrite N_val. intros. by rewrite u32_small by lia. Qed.

Lemma next_pos_range pos : 0 ≤ pos mod N < N.
Proof. apply Z.mod_pos_bound. done. Qed.

Lemma read_bytes_spec buf n pos d :
  0 ≤ pos < N → Z.of_nat n ≤ d →
  read_bytes buf n pos = (take n (ring_contents N buf pos d), (pos + Z.of_nat n) mod N) ∧
  drop n (ring_contents N buf pos d) = ring_contents N buf ((pos + Z.of_nat n) mod N) (d - Z.of_nat n).
Proof.
  revert pos d. induction n as [|n IH]; intros pos d Hp Hn.
  - rewrite Z.add_0_r, Z.sub_0_r, Z.mod_small by done. done.
  - cbn [read_bytes]. rewrite next_pos by done.
    destruct (IH ((pos + 1) mod N) (d - 1) (next_pos_range _)) as [-> Hd]; [lia|].
    rewrite (ring_pop N buf pos d) by (done || lia). rewrite (Z.mod_small pos) by done. simpl.
    rewrite Hd. rewrite Zplus_mod_idemp_l.
    replace (pos + 1 + Z.of_nat n) with (pos + Z.of_nat (S n)) by lia.
    replace (d - 1 - Z.of_nat n) with (d - Z.of_nat (S n)) by lia. done.
Qed.

Lemma write_bytes_spec buf src pos d :
  zlen buf = N → 0 ≤ pos < N → 0 ≤ d → d + zlen src ≤ N →
  let '(buf', w) := write_bytes buf src ((pos + d) mod N) in
  zlen buf' = N ∧ w = (pos + d + zlen src) mod N ∧
  ring_contents N buf' pos (d + zlen src) = ring_contents N buf pos d ++ src.
Proof.
  revert buf d. induction src as [|b src IH]; intros buf d Hl Hp Hd Hs; cbn [write_bytes].
  - change (zlen []) with 0. rewrite !Z.add_0_r, app_nil_r. done.
  - assert (Hc : zlen (b :: src) = 1 + zlen src) by (unfold zlen; simpl; lia). rewrite Hc in *.
    pose proof (zlen_nonneg src).
    rewrite next_pos, Zplus_mod_idemp_l by apply next_pos_range.
    replace (pos + d + 1) with (pos + (d + 1)) by lia.
    specialize (IH (buf.[(pos + d) mod N <- b]) (d + 1)). rewrite zlen_aset in IH.
    specialize (IH Hl Hp ltac:(lia) ltac:(lia)).
    destruct (write_bytes _ _ _) as [buf' w]. destruct IH as (? & -> & Hr). split_and!; [done|f_equal; lia|].
    replace (d + (1 + zlen src)) with (d + 1 + zlen src) by lia. rewrite Hr.
    rewrite ring_push by (done || lia). by rewrite <- app_assoc.
Qed.

Lemma pipe_lookup_Some g fd idx :
  pipe_lookup g fd = Some idx → 0 ≤ idx < PIPE_MAX ∧ p_used (g.[idx]) = true ∧
    fd = PIPE_FD_BASE + idx * 2 + Z.b2z (is_write_end fd).
Proof.
  unfold pipe_lookup. repeat case_if; try done. intros [= <-]. bools.
  split_and!; [lia|lia|done|]. unfold is_write_end. change 1 with (Z.ones 1). rewrite Z.land_ones by lia.
  change (2 ^ 1) with 2. destruct (Z.eqb_spec ((fd - PIPE_FD_BASE) mod 2) 0); simpl; zlia.
Qed.

Lemma pipes_wf_set g i p : 0 ≤ i < PIPE_MAX → pipes_wf g → pipe_wf p → pipes_wf (g.[i <- p]).
Proof.
  intros Hi [Hl Hg] Hp. split; [by rewrite zlen_aset|]. intros j Hj.
  rewrite aget_aset by lia. destruct (i =? j); auto.
Qed.

(** One turn of a read delivers a non-empty prefix of the stream. *)
Lemma read_turn_spec g idx count :
  pipes_wf g → 0 ≤ idx < PIPE_MAX → 0 < count →
  let '(r, g') := pipe_read_turn g idx count in
  pipes_wf g' ∧ (∀ j, 0 ≤ j → j ≠ idx → g'.[j] = g.[j]) ∧
  p_used (g'.[idx]) = p_used (g.[idx]) ∧ write_refs (g'.[idx]) = write_refs (g.[idx]) ∧
  read_refs (g'.[idx]) = read_refs (g.[idx]) ∧
  match r with
  | RdRet n dst =>
      n = zlen dst ∧ queue (g.[idx]) = dst ++ queue (g'.[idx]) ∧ n ≤ count ∧
      (n = 0 → p_used (g.[idx]) = false ∨ queue (g.[idx]) = [] ∧ write_refs (g.[idx]) = 0)
  | RdYield => g' = g ∧ p_used (g.[idx]) = true ∧ queue (g.[idx]) = [] ∧ write_refs (g.[idx]) ≠ 0
  end.
Proof.
  intros Hg Hi Hc. pose proof (proj2 Hg idx Hi) as Hw. unfold pipe_read_turn.
  set (p := g.[idx]) in *. destruct (p_used p) eqn:Hu; cbn [negb].
  2:{ split_and!; try done; [lia|by left]. }
  destruct (Z.ltb_spec 0 (data_bytes p)) as [Hd|Hd].
  - set (n := if count <? data_bytes p then count else data_bytes p).
    assert (Hn : 0 < n ≤ data_bytes p ∧ n ≤ count) by (unfold n; destruct (Z.ltb_spec count (data_bytes p)); lia).
    clearbody n. pose proof (pw_bytes _ Hw) as Hb. pose proof (pw_rpos _ Hw) as Hr. rewrite N_val in Hb.
    destruct (read_bytes_spec (p_buf p) (Z.to_nat n) (read_pos p) (data_bytes p) Hr ltac:(lia)) as [-> Hdrop].
    rewrite Z2Nat.id in * by lia. rewrite !u32_small by (rewrite ?u32_small; lia).
    rewrite aget_aset_eq by (rewrite (proj1 Hg); lia). simpl.
    split_and!; try done.
    + apply pipes_wf_set; [done|done|]. split; simpl; rewrite ?N_val; try apply Hw; try lia.
      * apply next_pos_range.
      * rewrite Zplus_mod_idemp_l. rewrite (pw_wpos _ Hw). f_equal. lia.
    + intros j Hj Hne. apply aget_aset_ne; lia.
    + unfold zlen. rewrite length_take. pose proof (ring_contents_length N (p_buf p) (read_pos p) (data_bytes p)).
      unfold zlen in *. lia.
    + unfold queue at 2. simpl. rewrite <- Hdrop. by rewrite take_drop.
    + lia.
    + lia.
  - assert (Hq : queue p = []) by (apply ring_contents_0; lia).
    destruct (Z.eqb_spec (write_refs p) 0); split_and!; try done; [lia|]. intros _. by right.
Qed.

(** One turn of a write appends the next bytes that fit. *)
Lemma write_turn_spec g idx src written :
  pipes_wf g → 0 ≤ idx < PIPE_MAX → 0 ≤ written < zlen src →
  let '(r, g') := pipe_write_turn g idx src written in
  pipes_wf g' ∧ (∀ j, 0 ≤ j → j ≠ idx → g'.[j] = g.[j]) ∧
  p_used (g'.[idx]) = p_used (g.[idx]) ∧ read_refs (g'.[idx]) = read_refs (g.[idx]) ∧
  match r with
  | WrRet n => g' = g ∧ (p_used (g.[idx]) = false ∨ read_refs (g.[idx]) = 0) ∧
               n = if written =? 0 then -1 else s32 written
  | WrMore w =>
      p_used (g.[idx]) = true ∧ read_refs (g.[idx]) ≠ 0 ∧
      w = written + (zlen src - written) `min` (N - data_bytes (g.[idx])) ∧
      queue (g'.[idx]) = queue (g.[idx]) ++ take (Z.to_nat (w - written)) (drop (Z.to_nat written) src)
  end.
Proof.
  intros Hg Hi Hwr. pose proof (proj2 Hg idx Hi) as Hw. unfold pipe_write_turn.
  set (p := g.[idx]) in *. destruct (p_used p) eqn:Hu; cbn [negb orb].
  2:{ split_and!; try done; [by left|]. by destruct (written =? 0). }
  destruct (Z.eqb_spec (read_refs p) 0) as [Hr0|Hr0].
  { split_and!; try done; [by right|]. by destruct (written =? 0). }
  pose proof (pw_bytes _ Hw) as Hb. pose proof (pw_rpos _ Hw) as Hr. 
  destruct (Z.ltb_spec (data_bytes p) N) as [Hd|Hd].
  - set (chunk := if _ <? _ then _ else _).
    assert (Hch : chunk = (zlen src - written) `min` (N - data_bytes p)).
    { unfold chunk. destruct (Z.ltb_spec (N - data_bytes p) (zlen src - written)); lia. }
    clearbody chunk. rewrite <- Hch. set (d := take _ _).
    assert (Hld : zlen d = chunk).
    { unfold d, zlen in *. rewrite length_take, length_drop. lia. }
    pose proof (write_bytes_spec (p_buf p) d (read_pos p) (data_bytes p) (pw_len _ Hw) Hr ltac:(lia) ltac:(lia)) as Hs.
    rewrite <- (pw_wpos _ Hw) in Hs. destruct (write_bytes _ _ _) as [buf pos].
    destruct Hs as (Hlb & Hpos & Hq). rewrite N_val in Hb, Hd, Hch.
    rewrite !u32_small by (rewrite ?u32_small; lia).
    rewrite aget_aset_eq by (rewrite (proj1 Hg); lia). simpl.
    split_and!; try done.
    + apply pipes_wf_set; [done|done|]. split; simpl; try apply Hw; try done; rewrite ?N_val; try lia.
      rewrite Hpos, Hld. f_equal. lia.
    + intros j Hj Hne. apply aget_aset_ne; lia.
    + unfold queue at 1. simpl. rewrite Hld in Hq. rewrite Hq. unfold d.
      by replace (written + chunk - written) with chunk by lia.
  - split_and!; try done; [lia|]. replace (written - written) with 0 by lia. by rewrite app_nil_r.
Qed.

(** ** Streams

    A history of the pipe table: turns of readers and writers, and changes of
    the references.  [ev_in idx] and [ev_out idx] are the bytes an event puts
    into and takes out of the pipe [idx]. *)
Inductive pipe_ev :=
  | EvRead (idx count : Z)
  | EvWrite (idx : Z) (src : list Z) (written : Z)
  | EvClose (fd : Z)
  | EvDup (fd : Z)
  | EvFork (pid : Z).

Definition pipe_step (g : pipes) (e : pipe_ev) : pipes :=
  match e with
  | EvRead idx count => (pipe_read_turn g idx count).2
  | EvWrite idx src written => (pipe_write_turn g idx src written).2
  | EvClose fd => pipe_close g fd
  | EvDup fd => (pipe_dup g fd).2
  | EvFork pid => pipe_fork_inherit g pid
  end.

Definition ev_ok (e : pipe_ev) : Prop :=
  match e with
  | EvRead idx count => 0 ≤ idx < PIPE_MAX ∧ 0 < count
  | EvWrite idx src written => 0 ≤ idx < PIPE_MAX ∧ 0 ≤ written < zlen src
  | _ => True
  end.

Definition ev_out (g : pipes) (idx : Z) (e : pipe_ev) : list Z :=
  match e with
  | EvRead i count =>
      if i =? idx then match (pipe_read_turn g i count).1 with RdRet _ dst => dst | RdYield => [] end
      else []
  | _ => []
  end.

Definition ev_in (g : pipes) (idx : Z) (e : pipe_ev) : list Z :=
  match e with
  | EvWrite i src written =>
      if i =? idx then
        match (pipe_write_turn g i src written).1 with
        | WrRet _ => []
        | WrMore w => take (Z.to_nat (w - written)) (drop (Z.to_nat written) src)
        end
      else []
  | _ => []
  end.

Fixpoint run (g : pipes) (es : list pipe_ev) {struct es} : pipes :=
  match es with [] => g | e :: es => run (pipe_step g e) es end.
Fixpoint outs (g : pipes) (idx : Z) (es : list pipe_ev) {struct es} : list Z :=
  match es with [] => [] | e :: es => ev_out g idx e ++ outs (pipe_step g e) idx es end.
Fixpoint ins (g : pipes) (idx : Z) (es : list pipe_ev) {struct es} : list Z :=
  match es with [] => [] | e :: es => ev_in g idx e ++ ins (pipe_step g e) idx es end.

(** Changing the references of one pipe. *)
Lemma refs_wf p r w : pipe_wf p → 0 ≤ r < 2 ^ 32 → 0 ≤ w < 2 ^ 32 → pipe_wf (with_refs p r w).
Proof. intros Hp Hr Hw. by destruct Hp. Qed.

(** A pipe is replaced by one with the same stream. *)
Definition same_stream (g g' : pipes) : Prop :=
  pipes_wf g' ∧ ∀ i, 0 ≤ i < PIPE_MAX → queue (g'.[i]) = queue (g.[i]).

Lemma set_same_stream g i p :
  pipes_wf g → 0 ≤ i < PIPE_MAX → pipe_wf p → queue p = queue (g.[i]) → same_stream g (g.[i <- p]).
Proof.
  intros Hg Hi Hp Hq. split; [by apply pipes_wf_set|]. intros j Hj.
  rewrite aget_aset by (rewrite ?(proj1 Hg); lia). by destruct (Z.eqb_spec i j) as [<-|].
Qed.

Lemma close_same_stream g fd : pipes_wf g → same_stream g (pipe_close g fd).
Proof.
  intros Hg. unfold pipe_close. destruct (pipe_lookup g fd) as [idx|] eqn:E; [|done].
  apply pipe_lookup_Some in E as (Hi & _ & _). pose proof (proj2 Hg idx Hi) as Hw.
  set (p1 := if negb _ then _ else _).
  assert (H1 : pipe_wf p1 ∧ queue p1 = queue (g.[idx])).
  { unfold p1. pose proof (pw_refs _ Hw). repeat case_if; bools; split; try done; apply refs_wf; (done || lia). }
  apply set_same_stream; [done|done|..]; case_if; try apply H1. destruct H1 as [[] _]. by split.
Qed.

Lemma dup_same_stream g fd : pipes_wf g → same_stream g (pipe_dup g fd).2.
Proof.
  intros Hg. unfold pipe_dup. destruct (pipe_lookup g fd) as [idx|] eqn:E; [|done].
  apply pipe_lookup_Some in E as (Hi & _ & _). pose proof (proj2 Hg idx Hi) as Hw. pose proof (pw_refs _ Hw).
  cbn [snd]. apply set_same_stream; [done|done|..]; case_if; try done; apply refs_wf;
    (done || lia || apply u32_range).
Qed.

Lemma fork_same_stream g pid : pipes_wf g → same_stream g (pipe_fork_inherit g pid).
Proof.
  intros Hg. unfold pipe_fork_inherit.
  apply (iter_up_ind (λ _ g', same_stream g g')); [done|].
  intros i g' Hi [Hg' Hq]. assert (Hi' : 0 ≤ i < PIPE_MAX) by (unfold PIPE_MAX in *; lia).
  pose proof (proj2 Hg' i Hi') as Hw. pose proof (pw_refs _ Hw). unfold fork_inherit_one.
  repeat (case_if; [done|]).
  match goal with |- same_stream _ (_.[_ <- with_refs _ ?r ?w]) =>
    assert (Hr : 0 ≤ r < 2 ^ 32) by (case_if; (lia || apply u32_range));
    assert (Hww : 0 ≤ w < 2 ^ 32) by (case_if; (lia || apply u32_range));
    destruct (set_same_stream g' i (with_refs (g'.[i]) r w)) as [? Hq2];
      [done|done|by apply refs_wf|done|] end.
  split; [done|]. intros j Hj. by rewrite Hq2, Hq.
Qed.

Lemma step_stream g e idx :
  pipes_wf g → ev_ok e → 0 ≤ idx < PIPE_MAX →
  pipes_wf (pipe_step g e) ∧
  ev_out g idx e ++ queue ((pipe_step g e).[idx]) = queue (g.[idx]) ++ ev_in g idx e.
Proof.
  intros Hg He Hidx. destruct e as [i count|i src written|fd|fd|pid]; cbn [pipe_step ev_in ev_out ev_ok] in *.
  - pose proof (read_turn_spec g i count Hg (proj1 He) (proj2 He)) as H.
    destruct (pipe_read_turn g i count) as [r g']. destruct H as (Hg' & Ho & _ & _ & _ & Hr). simpl. split; [done|].
    rewrite app_nil_r. destruct (Z.eqb_spec i idx) as [->|]; [|simpl; by rewrite Ho by lia].
    destruct r; [by destruct Hr as (_ & -> & _)|by destruct Hr as [-> _]].
  - pose proof (write_turn_spec g i src written Hg (proj1 He) (proj2 He)) as H.
    destruct (pipe_write_turn g i src written) as [r g']. destruct H as (Hg' & Ho & _ & _ & Hr). simpl. split; [done|].
    destruct (Z.eqb_spec i idx) as [->|]; [|by rewrite Ho, app_nil_r by lia].
    destruct r; [destruct Hr as [-> _]; by rewrite app_nil_r|by destruct Hr as (_ & _ & _ & ->)].
  - destruct (close_same_stream g fd Hg) as [? Hq]. simpl. by rewrite app_nil_r, Hq.
  - destruct (dup_same_stream g fd Hg) as [? Hq]. simpl. by rewrite app_nil_r, Hq.
  - destruct (fork_same_stream g pid Hg) as [? Hq]. simpl. by rewrite app_nil_r, Hq.
Qed.

(** C14: bytes leave a pipe in the order they entered it and none is lost,
    duplicated or moved between pipes: for every interleaving of reader and
    writer turns with closes, dups and forks, what the readers of a pipe got,
    followed by what it still holds, is what it held followed by what its
    writers put in; and it never holds more than its capacity. *)
Theorem pipe_fifo g es idx :
  pipes_wf g → Forall ev_ok es → 0 ≤ idx < PIPE_MAX →
  outs g idx es ++ queue ((run g es).[idx]) = queue (g.[idx]) ++ ins g idx es ∧
  zlen (queue ((run g es).[idx])) ≤ PIPE_BUF_SIZE.
Proof.
  intros Hg Hes Hi. revert g Hg. induction Hes as [|e es He Hes IH]; intros g Hg; simpl.
  - rewrite app_nil_r. split; [done|]. pose proof (pw_bytes _ (proj2 Hg idx Hi)).
    unfold queue. rewrite ring_contents_length; lia.
  - destruct (step_stream g e idx Hg He Hi) as [Hg' Hs]. destruct (IH _ Hg') as [IH1 IH2].
    split; [|done]. by rewrite <- app_assoc, IH1, app_assoc, Hs, <- app_assoc.
Qed.

(** [pipe_read] on an open read end: with data in the pipe it returns at
    once the oldest [min count available] bytes; on an empty pipe without
    writers it returns 0 (end of file) and changes nothing; on an empty pipe
    with writers it yields and tries again. *)
Theorem pipe_read_spec fuel yield g fd idx count :
  pipes_wf g → pipe_lookup g fd = Some idx → is_write_end fd = false → 0 < count →
  let q := queue (g.[idx]) in
  (q ≠ [] → ∃ dst g', pipe_read (S fuel) yield g fd true count = (Some (zlen dst, dst), g') ∧
     zlen dst = count `min` zlen q ∧ q = dst ++ queue (g'.[idx])) ∧
  (q = [] → write_refs (g.[idx]) = 0 → pipe_read (S fuel) yield g fd true count = (Some (0, []), g)) ∧
  (q = [] → write_refs (g.[idx]) ≠ 0 →
     pipe_read (S fuel) yield g fd true count = pipe_read_loop fuel yield (yield g) idx count).
Proof.
  intros Hg Hl He Hc q. destruct (pipe_lookup_Some _ _ _ Hl) as (Hi & Hu & _).
  unfold pipe_read. rewrite Hl, He, (proj2 (Z.eqb_neq count 0)) by lia. cbn [negb orb pipe_read_loop].
  pose proof (proj2 Hg idx Hi) as Hw. pose proof (pw_bytes _ Hw) as Hb. rewrite N_val in Hb.
  assert (Hq : zlen q = data_bytes (g.[idx])) by (unfold q, queue; rewrite ring_contents_length; lia).
  split_and!.
  - intros Hne. assert (Hd : 0 < data_bytes (g.[idx])).
    { destruct (Z.lt_ge_cases 0 (data_bytes (g.[idx]))); [done|].
      destruct Hne. apply ring_contents_0. lia. }
    pose proof (read_turn_spec g idx count Hg Hi Hc) as Hr.
    assert (Ht : ∃ dst g', pipe_read_turn g idx count = (RdRet (count `min` data_bytes (g.[idx])) dst, g')).
    { unfold pipe_read_turn. rewrite Hu, (proj2 (Z.ltb_lt _ _) Hd). cbn [negb].
      destruct (read_bytes _ _ _). do 2 eexists. f_equal. f_equal.
      destruct (Z.ltb_spec count (data_bytes (g.[idx]))); lia. }
    destruct Ht as (dst & g' & E). rewrite E in Hr |- *. destruct Hr as (_ & _ & _ & _ & _ & Hn & Hs & _).
    exists dst, g'. rewrite <- Hn, Hq. done.
  - intros E Hwr. unfold pipe_read_turn. rewrite Hu. cbn [negb].
    rewrite (proj2 (Z.ltb_ge _ _)) by (rewrite <- Hq, E; done). by rewrite Hwr.
  - intros E Hwr. unfold pipe_read_turn. rewrite Hu. cbn [negb].
    rewrite (proj2 (Z.ltb_ge _ _)) by (rewrite <- Hq, E; done). by rewrite (proj2 (Z.eqb_neq _ _) Hwr).
Qed.

(** A scheduler that lets some reader of the pipe [idx] run. *)
Definition drains (idx : Z) (yield : pipes → pipes) : Prop :=
  ∀ g, pipes_wf g → p_used (g.[idx]) = true → read_refs (g.[idx]) ≠ 0 →
    pipes_wf (yield g) ∧ p_used ((yield g).[idx]) = true ∧ read_refs ((yield g).[idx]) ≠ 0 ∧
    data_bytes ((yield g).[idx]) < PIPE_BUF_SIZE.

Lemma write_loop_completes yield idx src fuel g written :
  drains idx yield → 0 ≤ idx < PIPE_MAX → 0 ≤ written ≤ zlen src →
  pipes_wf g → p_used (g.[idx]) = true → read_refs (g.[idx]) ≠ 0 →
  2 * (zlen src - written) - (if data_bytes (g.[idx]) <? PIPE_BUF_SIZE then 1 else 0) < Z.of_nat fuel →
  (pipe_write_loop fuel yield g idx src written).1 = Some (s32 (zlen src)).
Proof.
  intros Hdr Hi. revert g written. induction fuel as [|fuel IH]; intros g written Hw Hg Hu Hr Hf; cbn [pipe_write_loop].
  { destruct (Z.ltb_spec written (zlen src)); [|simpl; do 2 f_equal; lia].
    destruct (data_bytes _ <? _); lia. }
  destruct (Z.ltb_spec written (zlen src)) as [Hlt|]; [|simpl; do 2 f_equal; lia].
  pose proof (write_turn_spec g idx src written Hg Hi ltac:(lia)) as Ht.
  destruct (pipe_write_turn g idx src written) as [r g']. destruct Ht as (Hg' & _ & Hu' & Hr' & Ht).
  rewrite Hu in Hu'. destruct r as [n|w]; [destruct Ht as (_ & [?|?] & _); congruence|].
  destruct Ht as (_ & _ & Hwv & _). pose proof (pw_bytes _ (proj2 Hg idx Hi)) as Hb.
  destruct (Z.ltb_spec (data_bytes (g.[idx])) PIPE_BUF_SIZE) as [Hd|Hd].
  - rewrite (proj2 (Z.eqb_neq w written)) by lia. apply IH; [lia|done|done|congruence|].
    case_if; lia.
  - assert (w = written) as -> by lia. rewrite Z.eqb_refl.
    destruct (Hdr g' Hg' Hu' ltac:(congruence)) as (? & ? & ? & Hd').
    apply IH; [lia|done|done|done|]. rewrite (proj2 (Z.ltb_lt _ _) Hd'). lia.
Qed.

(** C15: [pipe_write] terminates and writes everything, whatever the size of the
    data, as long as each yield lets a reader take at least one byte: at most
    [2 * count + 1] turns are needed, and the result is [count]. *)
Theorem pipe_write_completes yield g fd idx src fuel :
  drains idx yield → pipes_wf g → pipe_lookup g fd = Some idx → is_write_end fd = true →
  read_refs (g.[idx]) ≠ 0 → zlen src < 2 ^ 31 → 2 * zlen src < Z.of_nat fuel →
  (pipe_write fuel yield g fd true src).1 = Some (zlen src).
Proof.
  intros Hd Hg Hl He Hr Hs Hf. destruct (pipe_lookup_Some _ _ _ Hl) as (Hi & Hu & _).
  pose proof (zlen_nonneg src). unfold pipe_write. rewrite Hl, He. cbn [negb orb].
  assert (Es : s32 (zlen src) = zlen src) by (apply s32_small; lia).
  destruct (Z.eqb_spec (zlen src) 0) as [->|]; [done|].
  rewrite (write_loop_completes yield idx src fuel g 0); [by rewrite Es|done|done|lia|done|done|done|].
  case_if; lia.
Qed.

(** At end of file [pipe_readable] reports "not ready" although
    [pipe_read] would return at once, so a poll loop never sees the EOF. *)
Theorem pipe_eof_not_readable fuel yield g fd idx count :
  pipes_wf g → pipe_lookup g fd = Some idx → is_write_end fd = false → 0 < count →
  queue (g.[idx]) = [] → write_refs (g.[idx]) = 0 →
  pipe_readable g fd = false ∧ pipe_read (S fuel) yield g fd true count = (Some (0, []), g).
Proof.
  intros Hg Hl He Hc Hq Hw. destruct (pipe_lookup_Some _ _ _ Hl) as (Hi & Hu & _).
  pose proof (pw_bytes _ (proj2 Hg idx Hi)) as Hb. rewrite N_val in Hb.
  assert (Hd : data_bytes (g.[idx]) = 0).
  { apply (f_equal zlen) in Hq. unfold queue in Hq. rewrite ring_contents_length in Hq by lia. exact Hq. }
  split.
  - unfold pipe_readable. by rewrite Hl, He, Hu, Hd.
  - unfold pipe_read. rewrite Hl, He, (proj2 (Z.eqb_neq count 0)) by lia. cbn [negb orb pipe_read_loop].
    unfold pipe_read_turn. by rewrite Hu, Hd, Hw.
Qed.

(** ** A table with one open pipe *)

Definition demo_pipes : pipes := (pipe_create pipes_bss 7 true).2.
Lemma pipe_zero_wf b c r w :
  0 ≤ r < 2 ^ 32 → 0 ≤ w < 2 ^ 32 → pipe_wf (mkPipe b c r w (p_buf pipe_zero) 0 0 0).
Proof. intros. split; simpl; try done. Qed.
Lemma demo_pipes_wf : pipes_wf demo_pipes.
Proof.
  unfold demo_pipes, pipe_create. cbn [negb].
  assert (E : pipe_alloc pipes_bss 7 = (0, pipes_bss.[0 <- mkPipe true 7 1 1 (p_buf pipe_zero) 0 0 0])) by reflexivity.
  rewrite E. cbn [Z.ltb Z.compare snd]. apply pipes_wf_set; [unfold PIPE_MAX; lia| |apply pipe_zero_wf; lia].
  split; [reflexivity|]. intros i Hi. unfold pipes_bss. rewrite aget_replicate by exact Hi.
  apply (pipe_zero_wf false 0 0 0); lia.
Qed.
Lemma demo_pipes_read : pipe_lookup demo_pipes 64 = Some 0.
Proof. reflexivity. Qed.
Lemma demo_pipes_write : pipe_lookup demo_pipes 65 = Some 0.
Proof. reflexivity. Qed.

Lemma pipe_fifo_witness :
  outs demo_pipes 0 [EvWrite 0 [1; 2; 3] 0; EvRead 0 2; EvClose 65] ++
    queue ((run demo_pipes [EvWrite 0 [1; 2; 3] 0; EvRead 0 2; EvClose 65]).[0]) =
    queue (demo_pipes.[0]) ++ ins demo_pipes 0 [EvWrite 0 [1; 2; 3] 0; EvRead 0 2; EvClose 65] ∧
  zlen (queue ((run demo_pipes [EvWrite 0 [1; 2; 3] 0; EvRead 0 2; EvClose 65]).[0])) ≤ PIPE_BUF_SIZE.
Proof.
  apply (pipe_fifo demo_pipes [EvWrite 0 [1; 2; 3] 0; EvRead 0 2; EvClose 65] 0 demo_pipes_wf).
  - by repeat constructor.
  - unfold PIPE_MAX. lia.
Defined.

Lemma pipe_read_spec_witness :
  let q := queue (demo_pipes.[0]) in
  (q ≠ [] → ∃ dst g', pipe_read 1 id demo_pipes 64 true 10 = (Some (zlen dst, dst), g') ∧
     zlen dst = 10 `min` zlen q ∧ q = dst ++ queue (g'.[0])) ∧
  (q = [] → write_refs (demo_pipes.[0]) = 0 → pipe_read 1 id demo_pipes 64 true 10 = (Some (0, []), demo_pipes)) ∧
  (q = [] → write_refs (demo_pipes.[0]) ≠ 0 →
     pipe_read 1 id demo_pipes 64 true 10 = pipe_read_loop 0 id (id demo_pipes) 0 10).
Proof. exact (pipe_read_spec 0 id demo_pipes 64 0 10 demo_pipes_wf demo_pipes_read eq_refl ltac:(lia)). Defined.

(** A reader that takes up to 4096 bytes whenever it runs. *)
Lemma reader_drains : drains 0 (λ g, (pipe_read_turn g 0 4096).2).
Proof.
  intros g Hg Hu Hr. pose proof (read_turn_spec g 0 4096 Hg ltac:(done) ltac:(lia)) as H.
  assert (Hd : data_bytes ((pipe_read_turn g 0 4096).2.[0]) < PIPE_BUF_SIZE).
  { pose proof (pw_bytes _ (proj2 Hg 0 ltac:(done))) as Hb. rewrite N_val in *.
    unfold pipe_read_turn. rewrite Hu. cbn [negb].
    destruct (Z.ltb_spec 0 (data_bytes (g.[0]))).
    - destruct (read_bytes _ _ _). cbn [snd]. rewrite aget_aset_eq by (rewrite (proj1 Hg); done).
      cbn [data_bytes]. destruct (Z.ltb_spec 4096 (data_bytes (g.[0]))); [lia|].
      rewrite !u32_small by (rewrite ?u32_small; lia). lia.
    - destruct (write_refs _ =? 0); simpl; lia. }
  destruct (pipe_read_turn g 0 4096) as [r g']. simpl in *. destruct H as (? & _ & -> & _ & -> & _). done.
Qed.

Lemma pipe_write_completes_witness :
  (pipe_write 20 (λ g, (pipe_read_turn g 0 4096).2) demo_pipes 65 true [10; 20; 30]).1 = Some 3.
Proof.
  exact (pipe_write_completes (λ g, (pipe_read_turn g 0 4096).2) demo_pipes 65 0 [10; 20; 30] 20
           reader_drains demo_pipes_wf demo_pipes_write eq_refl ltac:(done) ltac:(done) ltac:(done)).
Defined.

Lemma pipe_eof_not_readable_witness :
  pipe_readable (pipe_close demo_pipes 65) 64 = false ∧
  pipe_read 1 id (pipe_close demo_pipes 65) 64 true 10 = (Some (0, []), pipe_close demo_pipes 65).
Proof.
  exact (pipe_eof_not_readable 0 id (pipe_close demo_pipes 65) 64 0 10
           (proj1 (close_same_stream demo_pipes 65 demo_pipes_wf)) eq_refl eq_refl ltac:(lia) eq_refl eq_refl).
Defined.
