(* ===== verification/ProcTable.v ===== *)
(** * The process table and the ready queues

    Models the data of [kernel/sched/sched.h] and the parts of
    [kernel/sched/sched.c] that maintain the process table and the per-priority
    ready queues: intrusive singly linked lists through [proc_t.next].

    A [proc_t *] is the index of its slot in [procs]; [NULL] is [-1].  Other
    pointers and addresses are their values, with 0 for [NULL].  [sched_lock]
    makes each of these operations atomic. *)

From S2P Require Import Prelude.

Definition SCHED_MAX_PROCS : Z := 256.
Definition SCHED_STACK_SIZE : Z := 64 * 1024.
Definition SCHED_NPRIO : Z := 3.
Definition PRIO_HIGH : Z := 0.
Definition PRIO_NORMAL : Z := 1.
Definition PRIO_LOW : Z := 2.
Definition XOS_NSIG : Z := 32.
(** [NULL] as a [proc_t *]. *)
Definition NULLP : Z := -1.

Inductive proc_state_t := PROC_DEAD | PROC_READY | PROC_RUNNING | PROC_BLOCKED.
#[export] Instance proc_state_eq_dec : EqDecision proc_state_t.
Proof. solve_decision. Defined.
Definition is_state (a b : proc_state_t) : bool := bool_decide (a = b).

(** [proc_t].  [fork_regs] holds the saved general registers [fork_rbx] ..
    [fork_r10] in the order of the struct; the callee-saved [ctx_*] registers
    belong to the assembly of [context_switch]. *)
Record proc_t := mkProc {
  pid : Z;
  state : proc_state_t;
  rsp : Z;
  rip : Z;
  pml4_phys : Z;
  pml4_virt : Z;
  kstack : Z;
  sleep_until : Z;
  next : Z;
  ring3 : bool;
  parent_pid : Z;
  exit_code : Z;
  reaped : bool;
  fork_regs : list Z;
  fork_rflags : Z;
  name : list Z;
  sig_blocked : Z;
  sig_pending : Z;
  sig_handler : list Z;
  sig_mask : list Z;
  sig_flags : list Z;
  saved_rflags : Z;
  exiting : Z;
  saved_ret : Z;
  canary : Z;
  no_preempt : Z;
  switching : Z;
  xstate : Z;
  wait_chan : Z;
  priority : Z;
  tgid : Z;
  tid : Z;
  pml4_refcount : Z;
  clear_tid_addr : Z;
}.

Definition set_state (p : proc_t) (v : proc_state_t) : proc_t :=
  mkProc (pid p) v (rsp p) (rip p) (pml4_phys p) (pml4_virt p) (kstack p) (sleep_until p)
         (next p) (ring3 p) (parent_pid p) (exit_code p) (reaped p) (fork_regs p)
         (fork_rflags p) (name p) (sig_blocked p) (sig_pending p) (sig_handler p) (sig_mask p)
         (sig_flags p) (saved_rflags p) (exiting p) (saved_ret p) (canary p) (no_preempt p)
         (switching p) (xstate p) (wait_chan p) (priority p) (tgid p) (tid p)
         (pml4_refcount p) (clear_tid_addr p).
Definition set_sleep_until (p : proc_t) (v : Z) : proc_t :=
  mkProc (pid p) (state p) (rsp p) (rip p) (pml4_phys p) (pml4_virt p) (kstack p) v (next p)
         (ring3 p) (parent_pid p) (exit_code p) (reaped p) (fork_regs p) (fork_rflags p)
         (name p) (sig_blocked p) (sig_pending p) (sig_handler p) (sig_mask p) (sig_flags p)
         (saved_rflags p) (exiting p) (saved_ret p) (canary p) (no_preempt p) (switching p)
         (xstate p) (wait_chan p) (priority p) (tgid p) (tid p) (pml4_refcount p)
         (clear_tid_addr p).
Definition set_next (p : proc_t) (v : Z) : proc_t :=
  mkProc (pid p) (state p) (rsp p) (rip p) (pml4_phys p) (pml4_virt p) (kstack p)
         (sleep_until p) v (ring3 p) (parent_pid p) (exit_code p) (reaped p) (fork_regs p)
         (fork_rflags p) (name p) (sig_blocked p) (sig_pending p) (sig_handler p) (sig_mask p)
         (sig_flags p) (saved_rflags p) (exiting p) (saved_ret p) (canary p) (no_preempt p)
         (switching p) (xstate p) (wait_chan p) (priority p) (tgid p) (tid p)
         (pml4_refcount p) (clear_tid_addr p).
Definition set_reaped (p : proc_t) (v : bool) : proc_t :=
  mkProc (pid p) (state p) (rsp p) (rip p) (pml4_phys p) (pml4_virt p) (kstack p)
         (sleep_until p) (next p) (ring3 p) (parent_pid p) (exit_code p) v (fork_regs p)
         (fork_rflags p) (name p) (sig_blocked p) (sig_pending p) (sig_handler p) (sig_mask p)
         (sig_flags p) (saved_rflags p) (exiting p) (saved_ret p) (canary p) (no_preempt p)
         (switching p) (xstate p) (wait_chan p) (priority p) (tgid p) (tid p)
         (pml4_refcount p) (clear_tid_addr p).
Definition set_sig_blocked (p : proc_t) (v : Z) : proc_t :=
  mkProc (pid p) (state p) (rsp p) (rip p) (pml4_phys p) (pml4_virt p) (kstack p)
         (sleep_until p) (next p) (ring3 p) (parent_pid p) (exit_code p) (reaped p)
         (fork_regs p) (fork_rflags p) (name p) v (sig_pending p) (sig_handler p) (sig_mask p)
         (sig_flags p) (saved_rflags p) (exiting p) (saved_ret p) (canary p) (no_preempt p)
         (switching p) (xstate p) (wait_chan p) (priority p) (tgid p) (tid p)
         (pml4_refcount p) (clear_tid_addr p).
Definition set_sig_pending (p : proc_t) (v : Z) : proc_t :=
  mkProc (pid p) (state p) (rsp p) (rip p) (pml4_phys p) (pml4_virt p) (kstack p)
         (sleep_until p) (next p) (ring3 p) (parent_pid p) (exit_code p) (reaped p)
         (fork_regs p) (fork_rflags p) (name p) (sig_blocked p) v (sig_handler p) (sig_mask p)
         (sig_flags p) (saved_rflags p) (exiting p) (saved_ret p) (canary p) (no_preempt p)
         (switching p) (xstate p) (wait_chan p) (priority p) (tgid p) (tid p)
         (pml4_refcount p) (clear_tid_addr p).
Definition set_saved_rflags (p : proc_t) (v : Z) : proc_t :=
  mkProc (pid p) (state p) (rsp p) (rip p) (pml4_phys p) (pml4_virt p) (kstack p)
         (sleep_until p) (next p) (ring3 p) (parent_pid p) (exit_code p) (reaped p)
         (fork_regs p) (fork_rflags p) (name p) (sig_blocked p) (sig_pending p)
         (sig_handler p) (sig_mask p) (sig_flags p) v (exiting p) (saved_ret p) (canary p)
         (no_preempt p) (switching p) (xstate p) (wait_chan p) (priority p) (tgid p) (tid p)
         (pml4_refcount p) (clear_tid_addr p).
Definition set_exiting (p : proc_t) (v : Z) : proc_t :=
  mkProc (pid p) (state p) (rsp p) (rip p) (pml4_phys p) (pml4_virt p) (kstack p)
         (sleep_until p) (next p) (ring3 p) (parent_pid p) (exit_code p) (reaped p)
         (fork_regs p) (fork_rflags p) (name p) (sig_blocked p) (sig_pending p)
         (sig_handler p) (sig_mask p) (sig_flags p) (saved_rflags p) v (saved_ret p)
         (canary p) (no_preempt p) (switching p) (xstate p) (wait_chan p) (priority p)
         (tgid p) (tid p) (pml4_refcount p) (clear_tid_addr p).
Definition set_switching (p : proc_t) (v : Z) : proc_t :=
  mkProc (pid p) (state p) (rsp p) (rip p) (pml4_phys p) (pml4_virt p) (kstack p)
         (sleep_until p) (next p) (ring3 p) (parent_pid p) (exit_code p) (reaped p)
         (fork_regs p) (fork_rflags p) (name p) (sig_blocked p) (sig_pending p)
         (sig_handler p) (sig_mask p) (sig_flags p) (saved_rflags p) (exiting p) (saved_ret p)
         (canary p) (no_preempt p) v (xstate p) (wait_chan p) (priority p) (tgid p) (tid p)
         (pml4_refcount p) (clear_tid_addr p).
Definition set_wait_chan (p : proc_t) (v : Z) : proc_t :=
  mkProc (pid p) (state p) (rsp p) (rip p) (pml4_phys p) (pml4_virt p) (kstack p)
         (sleep_until p) (next p) (ring3 p) (parent_pid p) (exit_code p) (reaped p)
         (fork_regs p) (fork_rflags p) (name p) (sig_blocked p) (sig_pending p)
         (sig_handler p) (sig_mask p) (sig_flags p) (saved_rflags p) (exiting p) (saved_ret p)
         (canary p) (no_preempt p) (switching p) (xstate p) v (priority p) (tgid p) (tid p)
         (pml4_refcount p) (clear_tid_addr p).
Definition set_priority (p : proc_t) (v : Z) : proc_t :=
  mkProc (pid p) (state p) (rsp p) (rip p) (pml4_phys p) (pml4_virt p) (kstack p)
         (sleep_until p) (next p) (ring3 p) (parent_pid p) (exit_code p) (reaped p)
         (fork_regs p) (fork_rflags p) (name p) (sig_blocked p) (sig_pending p)
         (sig_handler p) (sig_mask p) (sig_flags p) (saved_rflags p) (exiting p) (saved_ret p)
         (canary p) (no_preempt p) (switching p) (xstate p) (wait_chan p) v (tgid p) (tid p)
         (pml4_refcount p) (clear_tid_addr p).

(** A zeroed slot. *)
Definition proc_zero : proc_t :=
  mkProc 0 PROC_DEAD 0 0 0 0 0 0 NULLP false 0 0 false (replicate 12 0) 0 (replicate 16 0) 0 0
         (replicate (Z.to_nat XOS_NSIG) 0) (replicate (Z.to_nat XOS_NSIG) 0)
         (replicate (Z.to_nat XOS_NSIG) 0) 0 0 0 0 0 0 0 0 0 0 0 0 0.
#[export] Instance proc_inhabited : Inhabited proc_t := populate proc_zero.

(** The fields of [cpu_data_t] the scheduler uses.  [saving] is the program
    point inside [context_switch]: the process whose registers this CPU is
    saving, [NULLP] elsewhere. *)
Record cpu_t := mkCpu {
  rsp0 : Z;
  current_proc : Z;
  idle_proc : Z;
  tss_rsp0 : Z;
  need_resched : Z;
  saving : Z;
}.
#[export] Instance cpu_inhabited : Inhabited cpu_t := populate (mkCpu 0 NULLP NULLP 0 0 NULLP).

Definition set_current (c : cpu_t) (p : Z) : cpu_t :=
  mkCpu (rsp0 c) p (idle_proc c) (tss_rsp0 c) (need_resched c) (saving c).
Definition set_need_resched (c : cpu_t) (v : Z) : cpu_t :=
  mkCpu (rsp0 c) (current_proc c) (idle_proc c) (tss_rsp0 c) v (saving c).
Definition set_rsp0 (c : cpu_t) (v : Z) : cpu_t :=
  mkCpu v (current_proc c) (idle_proc c) (tss_rsp0 c) (need_resched c) (saving c).
Definition set_saving (c : cpu_t) (p : Z) : cpu_t :=
  mkCpu (rsp0 c) (current_proc c) (idle_proc c) (tss_rsp0 c) (need_resched c) p.

(** The scheduler's state: [procs], [ready_head], the per-CPU data of
    [g_cpus] and the global tick counter. *)
Record sched := mkSched {
  procs : list proc_t;
  ready_head : list Z;
  cpus : list cpu_t;
  ticks : Z;
}.

Definition with_procs (s : sched) (l : list proc_t) : sched :=
  mkSched l (ready_head s) (cpus s) (ticks s).
Definition with_heads (s : sched) (l : list Z) : sched :=
  mkSched (procs s) l (cpus s) (ticks s).
Definition with_cpus (s : sched) (l : list cpu_t) : sched :=
  mkSched (procs s) (ready_head s) l (ticks s).

(** [procs[i]] and an update of one slot; [cpu c] and an update of one CPU. *)
Definition proc (s : sched) (i : Z) : proc_t := (procs s).[i].
Definition upd (s : sched) (i : Z) (f : proc_t → proc_t) : sched :=
  with_procs s ((procs s).[i <- f (proc s i)]).
Definition cpu (s : sched) (c : Z) : cpu_t := (cpus s).[c].
Definition upd_cpu (s : sched) (c : Z) (f : cpu_t → cpu_t) : sched :=
  with_cpus s ((cpus s).[c <- f (cpu s c)]).

Definition proc_current (s : sched) (c : Z) : Z := current_proc (cpu s c).

(** [sched_proc_slot] *)
Definition sched_proc_slot (idx : Z) : Z :=
  if (idx <? 0) || (SCHED_MAX_PROCS <=? idx) then NULLP else idx.

(** [proc_by_pid]: the first slot of the thread group that is not free. *)
Definition proc_by_pid (s : sched) (pid : Z) : Z :=
  default NULLP
    (find_up (λ i, (tgid (proc s i) =? pid) &&
                   (negb (is_state (state (proc s i)) PROC_DEAD) || negb (reaped (proc s i))))
             0 (Z.to_nat SCHED_MAX_PROCS)).

(** ** Links

    A [proc_t **]: the address of [ready_head[q]] or of [procs[p].next]. *)
Inductive qlink := QHead (q : Z) | QNext (p : Z).

Definition qrd (s : sched) (pp : qlink) : Z :=
  match pp with QHead q => (ready_head s).[q] | QNext p => next (proc s p) end.
Definition qwr (s : sched) (pp : qlink) (v : Z) : sched :=
  match pp with
  | QHead q => with_heads s ((ready_head s).[q <- v])
  | QNext p => upd s p (λ x, set_next x v)
  end.

(** No list is longer than the table. *)
Definition qfuel : nat := S (Z.to_nat SCHED_MAX_PROCS).

(** [while ( *pp) { if ( *pp == p) ...; pp = &( *pp)->next; }]: the link to [p]. *)
Fixpoint find_link (fuel : nat) (s : sched) (pp : qlink) (p : Z) : option qlink :=
  match fuel with
  | O => None
  | S fuel =>
      if qrd s pp =? NULLP then None
      else if qrd s pp =? p then Some pp
      else find_link fuel s (QNext (qrd s pp)) p
  end.

Definition unlink (s : sched) (pp : qlink) (p : Z) : sched :=
  upd (qwr s pp (next (proc s p))) p (λ x, set_next x NULLP).

(** [ready_dequeue]; the loop over the queues returns at the first hit. *)
Definition ready_dequeue (s : sched) (p : Z) : sched :=
  match find_link qfuel s (QHead 0) p with
  | Some pp => unlink s pp p
  | None =>
      match find_link qfuel s (QHead 1) p with
      | Some pp => unlink s pp p
      | None =>
          match find_link qfuel s (QHead 2) p with
          | Some pp => unlink s pp p
          | None => s
          end
      end
  end.

(** [while ( *tail) tail = &( *tail)->next] *)
Fixpoint find_tail (fuel : nat) (s : sched) (pp : qlink) : qlink :=
  match fuel with
  | O => pp
  | S fuel => if qrd s pp =? NULLP then pp else find_tail fuel s (QNext (qrd s pp))
  end.

(** The queue a process belongs to. *)
Definition queue_of (p : proc_t) : Z :=
  if (priority p <? 0) || (SCHED_NPRIO <=? priority p) then PRIO_NORMAL else priority p.

Definition ready_enqueue (s : sched) (p : Z) : sched :=
  let q := queue_of (proc s p) in
  match find_link qfuel s (QHead q) p with
  | Some _ => s
  | None =>
      let s := upd s p (λ x, set_next x NULLP) in
      qwr s (find_tail qfuel s (QHead q)) p
  end.

(** ** The queues as lists

    [rep s Q]: the ready queue of priority [q] is the list [Q q]; no process is
    linked twice. *)
Definition nx (s : sched) (a : Z) : Z := next (proc s a).

Fixpoint chain (f : Z → Z) (p : Z) (l : list Z) (e : Z) : Prop :=
  match l with [] => p = e | a :: l => p = a ∧ chain f (f a) l e end.

Record rep (s : sched) (Q : Z → list Z) : Prop := {
  r_len : zlen (procs s) = SCHED_MAX_PROCS;
  r_heads : zlen (ready_head s) = SCHED_NPRIO;
  r_chain : ∀ q, 0 ≤ q < SCHED_NPRIO → chain (nx s) ((ready_head s).[q]) (Q q) NULLP;
  r_nodup : ∀ q, 0 ≤ q < SCHED_NPRIO → NoDup (Q q);
  r_disj : ∀ q r x, 0 ≤ q < SCHED_NPRIO → 0 ≤ r < SCHED_NPRIO → x ∈ Q q → x ∈ Q r → q = r;
  r_range : ∀ q x, 0 ≤ q < SCHED_NPRIO → x ∈ Q q → 0 ≤ x < SCHED_MAX_PROCS;
}.

(** Linked in some queue. *)
Definition linked (Q : Z → list Z) (p : Z) : Prop := ∃ q, 0 ≤ q < SCHED_NPRIO ∧ p ∈ Q q.
#[export] Instance linked_dec Q p : Decision (linked Q p).
Proof.
  destruct (decide (p ∈ Q 0 ∨ p ∈ Q 1 ∨ p ∈ Q 2)) as [Hin|Hout]; [left|right].
  - unfold linked. destruct Hin as [H|[H|H]]; [exists 0|exists 1|exists 2]; done.
  - intros (q & Hq & H). apply Hout. unfold SCHED_NPRIO in Hq.
    assert (q = 0 ∨ q = 1 ∨ q = 2) as [->|[->| ->]] by lia; auto.
Defined.

(** Only the [next] words of the table (and the heads) may differ. *)
Definition same_but_next (s s' : sched) : Prop :=
  (∀ i, 0 ≤ i → set_next (proc s' i) 0 = set_next (proc s i) 0) ∧
  cpus s' = cpus s ∧ ticks s' = ticks s.

#[export] Instance same_but_next_refl : Reflexive same_but_next.
Proof. by split. Qed.
#[export] Instance same_but_next_trans : Transitive same_but_next.
Proof. intros s1 s2 s3 (H1 & H2 & H3) (H4 & H5 & H6). split_and!; [|congruence..]. intros. by rewrite H4, H1. Qed.

Lemma same_field {B} (f : proc_t → B) s s' i :
  same_but_next s s' → 0 ≤ i → (∀ x v, f (set_next x v) = f x) → f (proc s' i) = f (proc s i).
Proof. intros (H & _) Hi Hf. specialize (H i Hi). apply (f_equal f) in H. by rewrite !Hf in H. Qed.

Lemma proc_upd s i j f :
  0 ≤ i < zlen (procs s) → 0 ≤ j → proc (upd s i f) j = if i =? j then f (proc s i) else proc s j.
Proof. intros Hi Hj. unfold proc at 1, upd. simpl. by rewrite aget_aset. Qed.

Lemma upd_next_same s i v : 0 ≤ i < zlen (procs s) → same_but_next s (upd s i (λ x, set_next x v)).
Proof.
  intros Hi. split; [|done]. intros j Hj. rewrite proc_upd by done.
  destruct (Z.eqb_spec i j) as [->|]; done.
Qed.

Lemma chain_app f p l1 l2 e : chain f p (l1 ++ l2) e ↔ ∃ r, chain f p l1 r ∧ chain f r l2 e.
Proof.
  revert p. induction l1 as [|a l1 IH]; intros p; simpl.
  - split; [by eauto|]. by intros (r & -> & H).
  - rewrite IH. split; [intros (-> & r & ? & ?); by eauto|intros (r & [-> ?] & ?); by eauto].
Qed.

Lemma chain_ext f g p l e : (∀ x, x ∈ l → g x = f x) → chain f p l e → chain g p l e.
Proof.
  revert p. induction l as [|a l IH]; intros p He; simpl; [done|].
  intros [-> H]. split; [done|]. rewrite He by left. apply IH; [|done]. intros. apply He. by right.
Qed.

(** The link at the end of a list segment. *)
Fixpoint lastq (pp : qlink) (l : list Z) : qlink :=
  match l with [] => pp | a :: l => lastq (QNext a) l end.
Lemma lastq_snoc pp l a : lastq pp (l ++ [a]) = QNext a.
Proof. revert pp. induction l; intros; simpl; auto. Qed.

Lemma find_link_found s pp l1 p l2 e fuel :
  chain (nx s) (qrd s pp) (l1 ++ p :: l2) e → Forall (λ x, 0 ≤ x) (l1 ++ [p]) → p ∉ l1 →
  (length l1 < fuel)%nat → find_link fuel s pp p = Some (lastq pp l1).
Proof.
  revert pp fuel. induction l1 as [|a l1 IH]; intros pp fuel Hc Hp Hn Hf;
    (destruct fuel as [|fuel]; [simpl in Hf; lia|]); simpl in *; unfold NULLP.
  - destruct Hc as [-> _]. inversion Hp; subst. rewrite (proj2 (Z.eqb_neq p (-1))) by lia.
    by rewrite Z.eqb_refl.
  - destruct Hc as [-> Hc]. inversion Hp; subst. rewrite (proj2 (Z.eqb_neq a (-1))) by lia.
    rewrite (proj2 (Z.eqb_neq a p)) by (intros ->; apply Hn; left).
    apply (IH (QNext a)); [done|done| |lia]. intros ?. apply Hn. by right.
Qed.

Lemma find_link_none s pp l p fuel :
  chain (nx s) (qrd s pp) l NULLP → p ∉ l → find_link fuel s pp p = None.
Proof.
  revert pp fuel. induction l as [|a l IH]; intros pp fuel Hc Hn;
    (destruct fuel as [|fuel]; [done|]); simpl in *.
  - by rewrite Hc, Z.eqb_refl.
  - destruct Hc as [-> Hc]. destruct (a =? NULLP); [done|].
    rewrite (proj2 (Z.eqb_neq a p)) by (intros ->; apply Hn; left).
    apply (IH (QNext a)); [done|]. intros ?. apply Hn. by right.
Qed.

Lemma find_tail_spec s pp l fuel :
  chain (nx s) (qrd s pp) l NULLP → Forall (λ x, 0 ≤ x) l → (length l < fuel)%nat →
  find_tail fuel s pp = lastq pp l.
Proof.
  revert pp fuel. induction l as [|a l IH]; intros pp fuel Hc Hp Hf;
    (destruct fuel as [|fuel]; [simpl in Hf; lia|]); simpl in *; unfold NULLP in *.
  - by rewrite Hc.
  - destruct Hc as [-> Hc]. inversion Hp; subst. rewrite (proj2 (Z.eqb_neq a (-1))) by lia.
    apply (IH (QNext a)); [done|done|lia].
Qed.

Lemma nodup_range_length l :
  NoDup l → (∀ x, x ∈ l → 0 ≤ x < SCHED_MAX_PROCS) → (length l < qfuel)%nat.
Proof.
  intros Hn Hr. assert (Hs : l ⊆+ seqZ 0 SCHED_MAX_PROCS).
  { apply NoDup_submseteq; [done|]. intros x Hx. apply elem_of_seqZ. specialize (Hr x Hx). lia. }
  apply submseteq_length in Hs. rewrite length_seqZ in Hs. unfold qfuel. lia.
Qed.

Section queues.
Context (s : sched) (Q : Z → list Z).
Hypothesis Hrep : rep s Q.

Lemma rep_pos q l1 p l2 :
  0 ≤ q < SCHED_NPRIO → Q q = l1 ++ p :: l2 → Forall (λ x, 0 ≤ x) (l1 ++ [p]).
Proof.
  intros Hq E. apply Forall_forall. intros x Hx.
  assert (x ∈ Q q) by (rewrite E; set_solver). by apply (r_range _ _ Hrep q).
Qed.

Lemma rep_length q : 0 ≤ q < SCHED_NPRIO → (length (Q q) < qfuel)%nat.
Proof.
  intros Hq. apply nodup_range_length; [by apply (r_nodup _ _ Hrep)|].
  intros x. by apply (r_range _ _ Hrep).
Qed.

Lemma rep_find q l1 p l2 :
  0 ≤ q < SCHED_NPRIO → Q q = l1 ++ p :: l2 →
  find_link qfuel s (QHead q) p = Some (lastq (QHead q) l1).
Proof.
  intros Hq E. pose proof (rep_length q Hq) as Hl. pose proof (r_nodup _ _ Hrep q Hq) as Hn.
  rewrite E in Hl, Hn. eapply find_link_found.
  - simpl. rewrite <- E. by apply (r_chain _ _ Hrep).
  - by eapply rep_pos.
  - apply NoDup_app in Hn as (_ & Hn & _). intros ?. eapply Hn; [done|left].
  - rewrite length_app in Hl. simpl in Hl. lia.
Qed.

Lemma rep_find_none q p : 0 ≤ q < SCHED_NPRIO → p ∉ Q q → find_link qfuel s (QHead q) p = None.
Proof. intros Hq Hp. eapply find_link_none; [|done]. simpl. by apply (r_chain _ _ Hrep). Qed.
End queues.

(** Queue [q] replaced by [l]. *)
Definition setq (Q : Z → list Z) (q : Z) (l : list Z) : Z → list Z := λ r, if r =? q then l else Q r.

Lemma setq_eq Q q l : setq Q q l q = l.
Proof. unfold setq. by rewrite Z.eqb_refl. Qed.
Lemma setq_ne Q q l r : r ≠ q → setq Q q l r = Q r.
Proof. intros. unfold setq. by rewrite (proj2 (Z.eqb_neq r q)). Qed.

Lemma qwr_next s pp v x :
  (∀ p, pp = QNext p → 0 ≤ p < zlen (procs s)) → 0 ≤ x →
  nx (qwr s pp v) x = match pp with QNext p => if p =? x then v else nx s x | QHead _ => nx s x end.
Proof.
  intros Hp Hx. destruct pp as [q|p]; [done|]. unfold nx. cbn [qwr].
  rewrite proc_upd by (try done; by apply Hp). by destruct (p =? x).
Qed.

Lemma qwr_same s pp v :
  (∀ p, pp = QNext p → 0 ≤ p < zlen (procs s)) → same_but_next s (qwr s pp v).
Proof. intros Hp. destruct pp as [q|p]; [done|]. apply upd_next_same. by apply Hp. Qed.

Lemma qwr_len s pp v :
  zlen (procs (qwr s pp v)) = zlen (procs s) ∧ zlen (ready_head (qwr s pp v)) = zlen (ready_head s).
Proof. destruct pp; simpl; by rewrite zlen_aset. Qed.

Lemma qwr_heads s pp v q :
  0 ≤ q < zlen (ready_head s) → (∀ r, pp = QHead r → 0 ≤ r < zlen (ready_head s)) →
  (ready_head (qwr s pp v)).[q] =
    match pp with QHead r => if r =? q then v else (ready_head s).[q] | QNext _ => (ready_head s).[q] end.
Proof.
  intros Hq Hr. destruct pp as [r|p]; [|done]. simpl. specialize (Hr r eq_refl). rewrite aget_aset by lia. done.
Qed.

(** Redirecting the link at the end of a segment [l1] of queue [q] to [v], in a
    state whose other links are those of [s]: the segment now ends in [v], the
    other queues are as before. *)
Section relink.
Context (s : sched) (q v : Z) (l1 : list Z).
Hypothesis Hlen : zlen (procs s) = SCHED_MAX_PROCS ∧ zlen (ready_head s) = SCHED_NPRIO.
Hypothesis Hq : 0 ≤ q < SCHED_NPRIO.
Hypothesis Hl1 : NoDup l1 ∧ ∀ x, x ∈ l1 → 0 ≤ x < SCHED_MAX_PROCS.
Hypothesis Hseg : ∃ r, chain (nx s) ((ready_head s).[q]) l1 r.
Let pp := lastq (QHead q) l1.
Let s' := qwr s pp v.

Lemma pp_cases : (l1 = [] ∧ pp = QHead q) ∨ (∃ l a, l1 = l ++ [a] ∧ pp = QNext a).
Proof.
  unfold pp. destruct l1 as [|a l _] using rev_ind; [by left|right]. exists l, a. by rewrite lastq_snoc.
Qed.

Lemma pp_ok : (∀ p, pp = QNext p → 0 ≤ p < zlen (procs s)) ∧ (∀ r, pp = QHead r → 0 ≤ r < zlen (ready_head s)).
Proof.
  destruct Hlen as [L1 L2], Hl1 as [_ Hr].
  destruct pp_cases as [[_ ->]|(l & a & E & ->)]; split; intros ? [= <-]; [lia|].
  rewrite L1. apply Hr. rewrite E. set_solver.
Qed.

Lemma relink_seg : chain (nx s') ((ready_head s').[q]) l1 v.
Proof.
  destruct Hlen as [L1 L2], Hl1 as [Hn Hr], Hseg as [r Hc], pp_ok as [P1 P2]. unfold s'.
  rewrite qwr_heads by (done || lia). destruct pp_cases as [[E Epp]|(l & a & E & Epp)].
  - rewrite Epp, E. simpl. by rewrite Z.eqb_refl.
  - rewrite Epp. rewrite E in Hc, Hn, Hr |- *. apply chain_app in Hc as (r' & Hc & -> & _).
    apply NoDup_app in Hn as (_ & Hn & _).
    assert (Ha : 0 ≤ a) by (apply Hr; set_solver).
    apply chain_app. exists a. split.
    + eapply chain_ext; [|exact Hc]. intros x Hx.
      rewrite qwr_next by (try (rewrite <- Epp; done); apply Hr; set_solver).
      rewrite (proj2 (Z.eqb_neq a x)); [done|]. intros ->. eapply Hn; [done|left].
    + cbn [chain]. split; [done|]. rewrite qwr_next by (done || (rewrite <- Epp; done)). by rewrite Z.eqb_refl.
Qed.

Lemma relink_other p l e :
  (∀ x, x ∈ l → 0 ≤ x ∧ x ∉ l1) → chain (nx s) p l e → chain (nx s') p l e.
Proof.
  intros Hd. destruct pp_ok as [P1 P2]. apply chain_ext. intros x Hx. destruct (Hd x Hx) as [Hx0 Hx1].
  unfold s'. rewrite qwr_next by done. destruct pp_cases as [[E ->]|(l' & a & E & ->)]; [done|].
  rewrite (proj2 (Z.eqb_neq a x)); [done|]. intros ->. apply Hx1. rewrite E. set_solver.
Qed.

Lemma relink_heads r : 0 ≤ r < SCHED_NPRIO → r ≠ q → (ready_head s').[r] = (ready_head s).[r].
Proof.
  destruct Hlen as [L1 L2], pp_ok as [P1 P2]. intros Hr Hne. unfold s'. rewrite qwr_heads by (done || lia).
  destruct pp_cases as [[_ ->]|(? & ? & _ & ->)]; [|done]. by rewrite (proj2 (Z.eqb_neq q r)) by congruence.
Qed.

Lemma relink_same : same_but_next s s'.
Proof. apply qwr_same, pp_ok. Qed.
End relink.

(** *** Dequeue *)

Lemma unlink_rep s Q q l1 p l2 :
  rep s Q → 0 ≤ q < SCHED_NPRIO → Q q = l1 ++ p :: l2 →
  let s' := unlink s (lastq (QHead q) l1) p in
  rep s' (setq Q q (l1 ++ l2)) ∧ same_but_next s s' ∧ next (proc s' p) = NULLP.
Proof.
  intros Hrep Hq E. pose proof (r_range _ _ Hrep q p Hq ltac:(rewrite E; set_solver)) as Hp.
  assert (Hlen := conj (r_len _ _ Hrep) (r_heads _ _ Hrep)).
  pose proof (r_nodup _ _ Hrep q Hq) as Hn. rewrite E in Hn.
  pose proof (r_chain _ _ Hrep q Hq) as Hc. rewrite E in Hc. apply chain_app in Hc as (r & Hc1 & -> & Hc2).
  apply NoDup_app in Hn as (Hn1 & Hn12 & Hn2). apply NoDup_cons in Hn2 as [Hnp Hn2].
  assert (Hl1 : NoDup l1 ∧ ∀ x, x ∈ l1 → 0 ≤ x < SCHED_MAX_PROCS).
  { split; [done|]. intros x Hx. apply (r_range _ _ Hrep q); [done|]. rewrite E. set_solver. }
  assert (Hseg : ∃ r, chain (nx s) ((ready_head s).[q]) l1 r) by eauto.
  pose proof (relink_seg s q (next (proc s p)) l1 Hlen Hq Hl1 Hseg) as Hr1.
  pose proof (λ a l e, relink_other s q (next (proc s p)) l1 Hlen Hq Hl1 Hseg a l e) as Hr2.
  pose proof (relink_heads s q (next (proc s p)) l1 Hlen Hq Hl1 Hseg) as Hr3.
  pose proof (relink_same s q (next (proc s p)) l1 Hlen Hq Hl1 Hseg) as Hr4. cbv zeta in *.
  unfold unlink. destruct (qwr_len s (lastq (QHead q) l1) (next (proc s p))) as [L1 L2].
  set (s1 := qwr s _ _) in *. set (s' := upd s1 p _).
  assert (Hnx : ∀ x, 0 ≤ x → x ≠ p → nx s' x = nx s1 x).
  { intros x Hx Hne. unfold nx, s'. rewrite proc_upd by lia. by rewrite (proj2 (Z.eqb_neq p x)) by congruence. }
  split_and!.
  - split.
    + simpl. rewrite zlen_aset, L1. apply Hlen.
    + simpl. rewrite L2. apply Hlen.
    + intros q' Hq'. change (ready_head s') with (ready_head s1).
      destruct (decide (q' = q)) as [->|Hne].
      * rewrite setq_eq. apply chain_app. exists (next (proc s p)). split.
        -- eapply chain_ext; [|exact Hr1]. intros x Hx. apply Hnx; [apply Hl1; done|].
           intros ->. eapply Hn12; [done|left].
        -- eapply chain_ext; [|eapply Hr2; [|exact Hc2]].
           ++ intros x Hx. apply Hnx; [|intros ->; done].
              apply (r_range _ _ Hrep q); [done|]. rewrite E. set_solver.
           ++ intros x Hx. split; [apply (r_range _ _ Hrep q); [done|rewrite E; set_solver]|].
              intros Hx1. eapply Hn12; [done|by right].
      * rewrite setq_ne, Hr3 by done. eapply chain_ext; [|eapply Hr2; [|by apply (r_chain _ _ Hrep)]].
        -- intros x Hx. apply Hnx; [by apply (r_range _ _ Hrep q')|]. intros ->.
           apply Hne. apply (r_disj _ _ Hrep q' q p); [done|done|done|rewrite E; set_solver].
        -- intros x Hx. split; [by apply (r_range _ _ Hrep q')|]. intros Hx1. apply Hne.
           apply (r_disj _ _ Hrep q' q x); [done|done|done|rewrite E; set_solver].
    + intros q' Hq'. unfold setq. case_if; [|by apply Hrep].
      apply NoDup_app. split_and!; [done| |done]. intros x Hx Hx2. eapply Hn12; [done|by right].
    + intros q1 q2 x H1 H2. unfold setq. repeat case_if; bools; intros Hx1 Hx2; subst; try done;
        apply (r_disj _ _ Hrep _ _ x H1 H2); try done; rewrite E; set_solver.
    + intros q1 x H1. unfold setq. case_if; bools; intros Hx; apply (r_range _ _ Hrep q1); try done.
      subst. rewrite E. set_solver.
  - etransitivity; [exact Hr4|]. apply upd_next_same. lia.
  - unfold s'. rewrite proc_upd by lia. by rewrite Z.eqb_refl.
Qed.

Lemma rep_ext s Q Q' : (∀ q, 0 ≤ q < SCHED_NPRIO → Q' q = Q q) → rep s Q → rep s Q'.
Proof.
  intros He [H1 H2 H3 H4 H5 H6]. split; try done.
  - intros q Hq. rewrite He by done. auto.
  - intros q Hq. rewrite He by done. auto.
  - intros q r x Hq Hr. rewrite !He by done. eauto.
  - intros q x Hq. rewrite He by done. eauto.
Qed.

(** Every queue without [p]. *)
Definition without (Q : Z → list Z) (p : Z) : Z → list Z := λ q, filter (λ x, x ≠ p) (Q q).

Lemma filter_notin (l : list Z) p : p ∉ l → filter (λ x, x ≠ p) l = l.
Proof.
  intros Hp. induction l as [|a l IH]; [done|]. rewrite filter_cons_True by set_solver.
  f_equal. apply IH. set_solver.
Qed.

Lemma without_linked Q p x : linked (without Q p) x ↔ linked Q x ∧ x ≠ p.
Proof.
  unfold linked, without. setoid_rewrite list_elem_of_filter. naive_solver.
Qed.

Lemma unlink_without s Q q l1 p l2 :
  rep s Q → 0 ≤ q < SCHED_NPRIO → Q q = l1 ++ p :: l2 →
  let s' := unlink s (lastq (QHead q) l1) p in
  rep s' (without Q p) ∧ same_but_next s s'.
Proof.
  intros Hrep Hq E. destruct (unlink_rep s Q q l1 p l2 Hrep Hq E) as (Hr & Hs & _).
  split; [eapply rep_ext; [|exact Hr]|done].
  pose proof (r_nodup _ _ Hrep q Hq) as Hn. rewrite E in Hn.
  apply NoDup_app in Hn as (_ & Hn & Hn2). apply NoDup_cons in Hn2 as [Hn2 _].
  intros r Hr'. unfold without. destruct (decide (r = q)) as [->|Hne].
  - rewrite setq_eq, E, filter_app. rewrite filter_cons_False by (intros H; by apply H).
    rewrite !filter_notin; [done|done|]. intros ?. eapply Hn; [done|left].
  - rewrite setq_ne by done. apply filter_notin. intros Hx. apply Hne.
    apply (r_disj _ _ Hrep r q p); [done|done|done|]. rewrite E. apply elem_of_app. right. left.
Qed.

(** [ready_dequeue] removes a process from whatever queue it is in. *)
Lemma ready_dequeue_rep s Q p :
  rep s Q →
  let s' := ready_dequeue s p in
  rep s' (without Q p) ∧ same_but_next s s'.
Proof.
  intros Hrep.
  assert (Hhit : ∀ q, 0 ≤ q < SCHED_NPRIO → p ∈ Q q →
    ∃ pp, find_link qfuel s (QHead q) p = Some pp ∧ rep (unlink s pp p) (without Q p) ∧ same_but_next s (unlink s pp p)).
  { intros q Hq Hp. destruct (list_elem_of_split _ _ Hp) as (l1 & l2 & E).
    exists (lastq (QHead q) l1). split; [by eapply rep_find|]. by apply (unlink_without s Q q l1 p l2). }
  assert (Hmiss : ∀ q, 0 ≤ q < SCHED_NPRIO → p ∉ Q q → find_link qfuel s (QHead q) p = None).
  { intros. by eapply rep_find_none. }
  unfold ready_dequeue. cbv zeta.
  destruct (decide (p ∈ Q 0)) as [H0|H0]; [destruct (Hhit 0 ltac:(done) H0) as (pp & -> & H); done|].
  rewrite (Hmiss 0) by done.
  destruct (decide (p ∈ Q 1)) as [H1|H1]; [destruct (Hhit 1 ltac:(done) H1) as (pp & -> & H); done|].
  rewrite (Hmiss 1) by done.
  destruct (decide (p ∈ Q 2)) as [H2|H2]; [destruct (Hhit 2 ltac:(done) H2) as (pp & -> & H); done|].
  rewrite (Hmiss 2) by done. split; [|done]. eapply rep_ext; [|exact Hrep].
  intros q Hq. apply filter_notin. unfold SCHED_NPRIO in Hq.
  assert (q = 0 ∨ q = 1 ∨ q = 2) as [->|[->| ->]] by lia; done.
Qed.

Lemma queue_of_range p : 0 ≤ queue_of p < SCHED_NPRIO.
Proof. unfold queue_of, PRIO_NORMAL, SCHED_NPRIO. case_if; [lia|]. bools. lia. Qed.

(** The queues with [p] at the end of its own, unless it is there already. *)
Definition enqueued (Q : Z → list Z) (q p : Z) : Z → list Z :=
  setq Q q (if bool_decide (p ∈ Q q) then Q q else Q q ++ [p]).

Lemma enqueued_linked Q q p x :
  0 ≤ q < SCHED_NPRIO → linked (enqueued Q q p) x ↔ linked Q x ∨ x = p.
Proof.
  intros Hq. unfold linked, enqueued. split.
  - intros (r & Hr & Hx). destruct (decide (r = q)) as [->|].
    + rewrite setq_eq in Hx. case_bool_decide; [by eauto|]. set_solver.
    + rewrite setq_ne in Hx by done. by eauto.
  - intros [(r & Hr & Hx)| ->].
    + exists r. split; [done|]. destruct (decide (r = q)) as [->|]; [|by rewrite setq_ne].
      rewrite setq_eq. case_bool_decide; set_solver.
    + exists q. split; [done|]. rewrite setq_eq. case_bool_decide; set_solver.
Qed.

(** [ready_enqueue] appends a process that is in no other queue. *)
Lemma ready_enqueue_rep s Q p :
  rep s Q → 0 ≤ p < SCHED_MAX_PROCS →
  let q := queue_of (proc s p) in
  (∀ r, 0 ≤ r < SCHED_NPRIO → p ∈ Q r → r = q) →
  rep (ready_enqueue s p) (enqueued Q q p) ∧ same_but_next s (ready_enqueue s p).
Proof.
  intros Hrep Hp q Hd. pose proof (queue_of_range (proc s p)) as Hq. fold q in Hq.
  assert (Hlen := conj (r_len _ _ Hrep) (r_heads _ _ Hrep)).
  unfold ready_enqueue, enqueued. fold q. case_bool_decide as Hin.
  { destruct (list_elem_of_split _ _ Hin) as (l1 & l2 & E).
    rewrite (rep_find s Q Hrep q l1 p l2 Hq E). split; [|done]. eapply rep_ext; [|exact Hrep].
    intros r _. unfold setq. destruct (Z.eqb_spec r q) as [->|]; done. }
  rewrite (rep_find_none s Q Hrep q p Hq Hin). cbv zeta.
  set (s1 := upd s p (λ x, set_next x NULLP)).
  assert (Hnx1 : ∀ x, 0 ≤ x → x ≠ p → nx s1 x = nx s x).
  { intros x Hx Hne. unfold nx, s1. rewrite proc_upd by lia. by rewrite (proj2 (Z.eqb_neq p x)) by congruence. }
  assert (Hc1 : ∀ r, 0 ≤ r < SCHED_NPRIO → chain (nx s1) ((ready_head s1).[r]) (Q r) NULLP).
  { intros r Hr. eapply chain_ext; [|by apply (r_chain _ _ Hrep)]. intros x Hx.
    apply Hnx1; [by apply (r_range _ _ Hrep r)|]. intros ->. rewrite (Hd r Hr Hx) in Hx. done. }
  assert (Hlen1 : zlen (procs s1) = SCHED_MAX_PROCS ∧ zlen (ready_head s1) = SCHED_NPRIO).
  { simpl. by rewrite zlen_aset. }
  assert (Hl1 : NoDup (Q q) ∧ ∀ x, x ∈ Q q → 0 ≤ x < SCHED_MAX_PROCS).
  { split; [by apply Hrep|]. intros x Hx. by apply (r_range _ _ Hrep q). }
  assert (Hseg : ∃ r, chain (nx s1) ((ready_head s1).[q]) (Q q) r) by eauto.
  assert (Et : find_tail qfuel s1 (QHead q) = lastq (QHead q) (Q q)).
  { apply find_tail_spec; [by apply Hc1| |by eapply rep_length].
    apply Forall_forall. intros x Hx. by apply Hl1. }
  rewrite Et.
  pose proof (relink_seg s1 q p (Q q) Hlen1 Hq Hl1 Hseg) as Hr1.
  pose proof (λ a l e, relink_other s1 q p (Q q) Hlen1 Hq Hl1 Hseg a l e) as Hr2.
  pose proof (relink_heads s1 q p (Q q) Hlen1 Hq Hl1 Hseg) as Hr3.
  pose proof (relink_same s1 q p (Q q) Hlen1 Hq Hl1 Hseg) as Hr4. cbv zeta in *.
  destruct (qwr_len s1 (lastq (QHead q) (Q q)) p) as [L1 L2].
  assert (Hpx : nx (qwr s1 (lastq (QHead q) (Q q)) p) p = NULLP).
  { destruct (pp_ok s1 q p (Q q) Hlen1 Hq Hl1 Hseg) as [P1 _]. rewrite qwr_next by (done || lia).
    destruct (pp_cases s1 q p (Q q) Hl1 Hseg) as [[_ ->]|(l & a & E & ->)].
    - unfold nx, s1. rewrite proc_upd by lia. by rewrite Z.eqb_refl.
    - rewrite (proj2 (Z.eqb_neq a p)) by (intros ->; apply Hin; rewrite E; apply elem_of_app; right; left).
      unfold nx, s1. rewrite proc_upd by lia. by rewrite Z.eqb_refl. }
  set (s' := qwr s1 _ p) in *.
  split; [|transitivity s1; [apply upd_next_same; lia|exact Hr4]].
  split.
  - rewrite L1. apply Hlen1.
  - rewrite L2. apply Hlen1.
  - intros r Hr. destruct (decide (r = q)) as [->|Hne].
    + rewrite setq_eq. apply chain_app. exists p. split; [exact Hr1|]. simpl. by rewrite Hpx.
    + rewrite setq_ne, Hr3 by done. apply Hr2; [|by apply Hc1].
      intros x Hx. split; [by apply (r_range _ _ Hrep r)|]. intros Hx2. apply Hne.
      by eapply (r_disj _ _ Hrep r q x).
  - intros r Hr. unfold setq. case_if; [|by apply Hrep]. apply NoDup_app. split_and!; [apply Hl1| |apply NoDup_singleton].
    intros x Hx ->%list_elem_of_singleton. done.
  - intros q1 q2 x H1 H2. unfold setq. repeat case_if; bools; intros Hx1 Hx2; subst; try done.
    + apply elem_of_app in Hx1 as [Hx1| ->%list_elem_of_singleton]; [by eapply (r_disj _ _ Hrep _ _ x)|].
      symmetry. by apply Hd.
    + apply elem_of_app in Hx2 as [Hx2| ->%list_elem_of_singleton]; [by eapply (r_disj _ _ Hrep _ _ x)|].
      by apply Hd.
    + by eapply (r_disj _ _ Hrep _ _ x).
  - intros r x Hr. unfold setq. case_if; bools; intros Hx; [|by apply (r_range _ _ Hrep r)].
    apply elem_of_app in Hx as [Hx| ->%list_elem_of_singleton]; [by apply Hl1|done].
Qed.

(** The rest of a queue after one of its members. *)
Lemma rep_suffix s Q q l1 a l2 :
  rep s Q → 0 ≤ q < SCHED_NPRIO → Q q = l1 ++ a :: l2 → chain (nx s) (nx s a) l2 NULLP.
Proof.
  intros Hrep Hq E. pose proof (r_chain _ _ Hrep q Hq) as Hc. rewrite E in Hc.
  apply chain_app in Hc as (r & _ & _ & Hc). exact Hc.
Qed.

(** A process that is in no queue may be changed at will. *)
Lemma rep_upd_unlinked s Q p f :
  rep s Q → 0 ≤ p < SCHED_MAX_PROCS → ¬ linked Q p → rep (upd s p f) Q.
Proof.
  intros [H1 H2 H3 H4 H5 H6] Hp Hn. split; try done; [simpl; by rewrite zlen_aset|].
  intros q Hq. eapply chain_ext; [|by apply H3]. intros x Hx. unfold nx.
  rewrite proc_upd by (rewrite ?H1; try lia; by apply (H6 q)).
  rewrite (proj2 (Z.eqb_neq p x)); [done|]. intros ->. apply Hn. by exists q.
Qed.
