(* ===== verification/Signal.v ===== *)
(** * Signals

    Models [kernel/proc/signal.c]: posting a signal, choosing the next
    deliverable one, diverting a system-call return into a user handler through
    a frame on the user stack, and [SYS_SIGRETURN].  User memory is the byte
    memory of [Mem.v].  [proc_kill] belongs to the scheduler and is an argument
    of [proc_send_signal]; [kprintf] output is left out. *)

From S2P Require Import Prelude Mem CString ProcTable.

Definition XOS_SIG_DFL : Z := 0.
Definition XOS_SIG_IGN : Z := 1.
Definition XOS_SIGKILL : Z := 9.
Definition XOS_SIGTERM : Z := 15.
Definition XOS_SIGCHLD : Z := 20.
Definition XOS_SIGSTOP : Z := 17.
Definition USER_SIGRETURN_ADDR : Z := 0x00007FFFF0000000.

Definition XOS_SIGBIT (sig : Z) : Z := u64 (Z.shiftl 1 sig).

Definition sig_default_ignore (sig : Z) : bool :=
  (sig =? XOS_SIGCHLD) || (sig =? 16) || (sig =? 28).
Definition sig_uncatchable (sig : Z) : bool := (sig =? XOS_SIGKILL) || (sig =? XOS_SIGSTOP).

(** [p->sig_pending |= XOS_SIGBIT(sig)] *)
Definition post_signal (s : sched) (p sig : Z) : sched :=
  upd s p (λ x, set_sig_pending x (Z.lor (sig_pending x) (XOS_SIGBIT sig))).

Definition proc_send_signal (kill : sched → Z → sched) (s : sched) (pid sig : Z) : Z * sched :=
  if (sig <=? 0) || (XOS_NSIG <=? sig) then (-1, s)
  else
    let p := proc_by_pid s pid in
    if (p =? NULLP) || is_state (state (proc s p)) PROC_DEAD then (-1, s)
    else if sig =? XOS_SIGKILL then (0, kill s pid)
    else
      let handler := (sig_handler (proc s p)).[sig] in
      if (handler =? XOS_SIG_IGN) || ((handler =? XOS_SIG_DFL) && sig_default_ignore sig) then (0, s)
      else if handler =? XOS_SIG_DFL then
        if (sig =? XOS_SIGTERM) || (sig =? 2) || (sig =? 3) || (sig =? 6) || (sig =? 11)
        then (0, kill s pid) else (0, s)
      else if sig_uncatchable sig then (0, kill s pid)
      else (0, post_signal s p sig).

(** [pick_signal]: the lowest pending signal that is not blocked, or -1. *)
Definition pick_signal (p : proc_t) : Z :=
  let deliverable := Z.land (sig_pending p) (u64 (Z.lnot (sig_blocked p))) in
  if deliverable =? 0 then -1
  else default (-1)
         (find_up (λ sig, negb (Z.land deliverable (XOS_SIGBIT sig) =? 0)) 1 (Z.to_nat (XOS_NSIG - 1))).

(** [syscall_ret_frame_t] *)
Record syscall_ret_frame_t := mkFrame { f_rflags : Z; f_rip : Z; f_user_rsp : Z }.

(** [struct xos_sigframe]: byte offsets and size. *)
Definition SF_SAVED_R15 : Z := 0.
Definition SF_RET : Z := 8.
Definition SF_CTX : Z := 16.
Definition CTX_RIP : Z := 0.
Definition CTX_RFLAGS : Z := 8.
Definition CTX_RSP : Z := 16.
Definition CTX_RAX : Z := 24.
Definition CTX_R15 : Z := 32.
Definition CTX_MASK : Z := 40.
Definition CTX_SIGNO : Z := 48.
Definition SF_SIZE : Z := 72.

(** The stores that build the frame at [sf]. *)
Definition build_frame (m : mem) (sf rip rflags rsp rax r15 mask signo : Z) : mem :=
  let m := memset m sf 0 SF_SIZE in
  let m := st64 m (sf + SF_CTX + CTX_RIP) rip in
  let m := st64 m (sf + SF_CTX + CTX_RFLAGS) rflags in
  let m := st64 m (sf + SF_CTX + CTX_RSP) rsp in
  let m := st64 m (sf + SF_CTX + CTX_RAX) rax in
  let m := st64 m (sf + SF_CTX + CTX_R15) r15 in
  let m := st64 m (sf + SF_CTX + CTX_MASK) mask in
  let m := st64 m (sf + SF_CTX + CTX_SIGNO) signo in
  let m := st64 m (sf + SF_SAVED_R15) r15 in
  st64 m (sf + SF_RET) USER_SIGRETURN_ADDR.

(** What [signal_on_syscall_return] ends in: the value for RAX, [*out_signo],
    the process table, user memory and the return frame; [None] is the panic
    on a corrupted frame. *)
Definition signal_on_syscall_return (s : sched) (c : Z) (m : mem) (frame : syscall_ret_frame_t)
    (retval : Z) : option (Z * Z * sched * mem * syscall_ret_frame_t) :=
  let p := proc_current s c in
  let unchanged := Some (retval, 0, s, m, frame) in
  if (p =? NULLP) || negb (ring3 (proc s p)) || is_state (state (proc s p)) PROC_DEAD then unchanged
  else
    let sig := pick_signal (proc s p) in
    if sig <? 0 then unchanged
    else
      let handler := (sig_handler (proc s p)).[sig] in
      let clear x := set_sig_pending x (Z.land (sig_pending x) (u64 (Z.lnot (XOS_SIGBIT sig)))) in
      if (handler =? XOS_SIG_DFL) || (handler =? XOS_SIG_IGN) then
        Some (retval, 0, upd s p clear, m, frame)
      else
        let old_ursp := f_user_rsp frame in
        if (0xffff800000000000 <=? old_ursp) || (old_ursp <? 0x1000) then None
        else
          let saved_r15 := ld64 m old_ursp in
          let real_rsp := u64 (old_ursp + 8) in
          let sf_addr := Z.land (u64 (old_ursp - SF_SIZE)) (u64 (Z.lnot 15)) in
          if old_ursp <=? sf_addr then unchanged
          else
            let m := build_frame m sf_addr (f_rip frame) (f_rflags frame) real_rsp retval saved_r15
                       (sig_blocked (proc s p)) sig in
            let s := upd s p clear in
            let s := upd s p (λ x, set_sig_blocked x
                       (Z.lor (sig_blocked x) (Z.lor ((sig_mask x).[sig]) (XOS_SIGBIT sig)))) in
            Some (retval, sig, s, m, mkFrame (f_rflags frame) handler sf_addr).

(** [sys_sigreturn_impl]; [frame] is the system-call frame at [rsp0]. *)
Definition sys_sigreturn_impl (s : sched) (c : Z) (m : mem) (frame : syscall_ret_frame_t) :
    Z * sched * mem * syscall_ret_frame_t :=
  let p := proc_current s c in
  if (p =? NULLP) || (rsp0 (cpu s c) =? 0) then (u64 (-1), s, m, frame)
  else
    let ctx := f_user_rsp frame + 8 in
    let s := upd s p (λ x, set_sig_blocked x (ld64 m (ctx + CTX_MASK))) in
    let resume_rsp := ld64 m (ctx + CTX_RSP) in
    if resume_rsp <? 8 then (u64 (-1), s, m, frame)
    else
      let m' := st64 m (resume_rsp - 8) (ld64 m (ctx + CTX_R15)) in
      let frame := mkFrame (Z.lor (ld64 m' (ctx + CTX_RFLAGS)) 0x200) (ld64 m' (ctx + CTX_RIP))
                     (resume_rsp - 8) in
      (ld64 m' (ctx + CTX_RAX), s, m', frame).

(** ** Choosing a signal *)

Lemma sigbit_testbit sig n : 0 ≤ sig < 64 → 0 ≤ n → Z.testbit (XOS_SIGBIT sig) n = (sig =? n).
Proof.
  intros Hs Hn. unfold XOS_SIGBIT. rewrite u64_small.
  - apply testbit_shiftl_1; lia.
  - rewrite Z.shiftl_1_l. split; [apply Z.pow_nonneg; lia|]. apply (Z.pow_lt_mono_r 2 sig 64); lia.
Qed.

Lemma u64_lnot_testbit x n : 0 ≤ n < 64 → Z.testbit (u64 (Z.lnot x)) n = negb (Z.testbit x n).
Proof.
  intros Hn. unfold u64. change 18446744073709551616 with (2 ^ 64).
  rewrite Z.mod_pow2_bits_low by lia. apply Z.lnot_spec. lia.
Qed.

Lemma land_sigbit x sig : 0 ≤ sig < 64 → (Z.land x (XOS_SIGBIT sig) =? 0) = negb (Z.testbit x sig).
Proof.
  intros Hs. destruct (Z.testbit x sig) eqn:Hb; simpl.
  - apply Z.eqb_neq. intros H. apply (f_equal (λ v, Z.testbit v sig)) in H.
    rewrite Z.land_spec, sigbit_testbit, Hb, Z.eqb_refl, Z.bits_0 in H by lia. done.
  - apply Z.eqb_eq. apply Z.bits_inj'. intros n Hn. rewrite Z.land_spec, sigbit_testbit, Z.bits_0 by lia.
    destruct (Z.eqb_spec sig n) as [<-|]; [by rewrite Hb|apply andb_false_r].
Qed.

(** A signal that may be delivered: pending and not blocked. *)
Definition deliverable (p : proc_t) (sig : Z) : Prop :=
  1 ≤ sig < XOS_NSIG ∧ Z.testbit (sig_pending p) sig = true ∧ Z.testbit (sig_blocked p) sig = false.

Lemma deliverable_bit p sig :
  0 ≤ sig < 64 →
  negb (Z.land (Z.land (sig_pending p) (u64 (Z.lnot (sig_blocked p)))) (XOS_SIGBIT sig) =? 0) =
  Z.testbit (sig_pending p) sig && negb (Z.testbit (sig_blocked p) sig).
Proof.
  intros Hs. rewrite land_sigbit, negb_involutive, Z.land_spec, u64_lnot_testbit by lia. done.
Qed.

Lemma pick_signal_some p sig :
  pick_signal p = sig → 0 ≤ sig → deliverable p sig ∧ ∀ j, deliverable p j → sig ≤ j.
Proof.
  unfold pick_signal. intros <-. case_if; [lia|].
  destruct (find_up _ 1 _) as [i|] eqn:Hf; simpl; [|lia]. intros _.
  apply find_up_Some in Hf as (Hi & Hp & Hmin). unfold XOS_NSIG in *.
  rewrite deliverable_bit in Hp by lia. apply andb_prop in Hp as [Hp1 Hp2]. apply negb_true_iff in Hp2.
  split; [split_and!; unfold XOS_NSIG; try done; lia|].
  intros j (Hj & Hj1 & Hj2). destruct (Z.le_gt_cases i j); [done|].
  specialize (Hmin j ltac:(lia)). unfold XOS_NSIG in Hj. rewrite deliverable_bit, Hj1, Hj2 in Hmin by lia. done.
Qed.

Lemma pick_signal_none p : pick_signal p < 0 → ∀ j, ¬ deliverable p j.
Proof.
  unfold pick_signal. intros H j (Hj & Hj1 & Hj2). unfold XOS_NSIG in *.
  assert (Hb : negb (Z.land (Z.land (sig_pending p) (u64 (Z.lnot (sig_blocked p)))) (XOS_SIGBIT j) =? 0) = true).
  { rewrite deliverable_bit by lia. by rewrite Hj1, Hj2. }
  destruct (Z.eqb_spec (Z.land (sig_pending p) (u64 (Z.lnot (sig_blocked p)))) 0) as [E|].
  - rewrite E, Z.land_0_l in Hb. done.
  - destruct (find_up _ 1 _) as [i|] eqn:Hf; simpl in H.
    + apply find_up_Some in Hf as (Hi & _). lia.
    + rewrite find_up_None in Hf. rewrite Hf in Hb; [done|lia].
Qed.

(** ** The frame on the user stack *)

(** The delivery branch of [signal_on_syscall_return]. *)
Lemma deliver_inv s c m fr retval r sig s1 m1 f1 :
  signal_on_syscall_return s c m fr retval = Some (r, sig, s1, m1, f1) → sig ≠ 0 →
  let p := proc_current s c in
  let sf := (f_user_rsp fr - 72) / 16 * 16 in
  p ≠ NULLP ∧ pick_signal (proc s p) = sig ∧ 0 ≤ sig ∧ r = retval ∧
  0x1000 ≤ f_user_rsp fr < 0xffff800000000000 ∧
  m1 = build_frame m sf (f_rip fr) (f_rflags fr) (f_user_rsp fr + 8) retval (ld64 m (f_user_rsp fr))
         (sig_blocked (proc s p)) sig ∧
  f1 = mkFrame (f_rflags fr) ((sig_handler (proc s p)).[sig]) sf ∧
  s1 = upd (upd s p (λ x, set_sig_pending x (Z.land (sig_pending x) (u64 (Z.lnot (XOS_SIGBIT sig))))))
         p (λ x, set_sig_blocked x
              (Z.lor (sig_blocked x) (Z.lor ((sig_mask x).[sig]) (XOS_SIGBIT sig)))).
Proof.
  intros H Hsig p sf. unfold signal_on_syscall_return in H. fold p in H.
  destruct ((p =? NULLP) || negb (ring3 (proc s p)) || is_state (state (proc s p)) PROC_DEAD) eqn:E1;
    [by simplify_eq|].
  set (g := pick_signal (proc s p)) in *. destruct (Z.ltb_spec g 0); [by simplify_eq|].
  destruct (((sig_handler (proc s p)).[g] =? XOS_SIG_DFL) || ((sig_handler (proc s p)).[g] =? XOS_SIG_IGN)) eqn:E2;
    [by simplify_eq|].
  destruct ((18446603336221196288 <=? f_user_rsp fr) || (f_user_rsp fr <? 4096)) eqn:E3; [done|].
  assert (Hr : 0x1000 ≤ f_user_rsp fr < 0xffff800000000000) by (bools; lia).
  assert (Esf : Z.land (u64 (f_user_rsp fr - SF_SIZE)) (u64 (Z.lnot 15)) = sf).
  { unfold SF_SIZE. rewrite u64_small by lia. change (u64 (Z.lnot 15)) with (2 ^ 64 - 2 ^ 4).
    by rewrite land_align by lia. }
  rewrite Esf, (u64_small (f_user_rsp fr + 8)) in H by lia. assert (sf < f_user_rsp fr) by (unfold sf; zlia).
  destruct (Z.leb_spec (f_user_rsp fr) sf); [lia|]. simplify_eq.
  bools. split_and!; try done; lia.
Qed.

Lemma build_frame_words m sf rip rflags rsp rax r15 mask signo :
  0 ≤ rip < 2 ^ 64 → 0 ≤ rflags < 2 ^ 64 → 0 ≤ rsp < 2 ^ 64 → 0 ≤ rax < 2 ^ 64 →
  0 ≤ r15 < 2 ^ 64 → 0 ≤ mask < 2 ^ 64 →
  let m' := build_frame m sf rip rflags rsp rax r15 mask signo in
  let ctx := sf + SF_CTX in
  ld64 m' (ctx + CTX_RIP) = rip ∧ ld64 m' (ctx + CTX_RFLAGS) = rflags ∧ ld64 m' (ctx + CTX_RSP) = rsp ∧
  ld64 m' (ctx + CTX_RAX) = rax ∧ ld64 m' (ctx + CTX_R15) = r15 ∧ ld64 m' (ctx + CTX_MASK) = mask ∧
  ld64 m' (sf + SF_RET) = USER_SIGRETURN_ADDR.
Proof.
  intros H1 H2 H3 H4 H5 H6. cbv zeta. unfold build_frame. cbv zeta.
  unfold SF_CTX, SF_SAVED_R15, SF_RET, CTX_RIP, CTX_RFLAGS, CTX_RSP, CTX_RAX, CTX_R15, CTX_MASK, CTX_SIGNO.
  split_and!; repeat rewrite ld64_st64_ne by lia; by rewrite ld64_st64_eq by (unfold USER_SIGRETURN_ADDR; lia).
Qed.

(** A frame on the user stack and the words of it that survive the handler. *)
Lemma sigreturn_restores s2 c m2 fr2 ctx :
  let p := proc_current s2 c in
  p ≠ NULLP → 0 ≤ p < zlen (procs s2) → rsp0 (cpu s2 c) ≠ 0 → f_user_rsp fr2 + 8 = ctx →
  let rsp := ld64 m2 (ctx + CTX_RSP) in
  ctx + 56 ≤ rsp - 8 → 8 ≤ rsp → 0 ≤ ld64 m2 (ctx + CTX_R15) < 2 ^ 64 →
  let '(rax, s3, m3, f3) := sys_sigreturn_impl s2 c m2 fr2 in
  rax = ld64 m2 (ctx + CTX_RAX) ∧ f_rip f3 = ld64 m2 (ctx + CTX_RIP) ∧
  f_rflags f3 = Z.lor (ld64 m2 (ctx + CTX_RFLAGS)) 0x200 ∧ f_user_rsp f3 = rsp - 8 ∧
  sig_blocked (proc s3 p) = ld64 m2 (ctx + CTX_MASK) ∧ ld64 m3 (rsp - 8) = ld64 m2 (ctx + CTX_R15).
Proof.
  intros p Hp Hr H0 Hctx rsp Hdis Hrsp H15. unfold sys_sigreturn_impl. fold p. rewrite Hctx. fold rsp.
  rewrite (proj2 (Z.eqb_neq p NULLP)), (proj2 (Z.eqb_neq (rsp0 _) 0)) by done. cbn [orb].
  rewrite (proj2 (Z.ltb_ge rsp 8)) by lia. cbn [f_rip f_rflags f_user_rsp].
  unfold CTX_RAX, CTX_RFLAGS, CTX_RIP, CTX_R15, CTX_MASK, CTX_RSP in *.
  rewrite !ld64_st64_ne by lia. rewrite ld64_st64_eq by done.
  split_and!; try done. rewrite proc_upd by lia. by rewrite Z.eqb_refl.
Qed.

(** C32: delivering a signal and returning from its handler is transparent: if
    the handler leaves the saved context on its stack alone, [SYS_SIGRETURN]
    resumes the interrupted code at the same instruction and stack pointer, with
    the system call's result in RAX, the original flags (interrupts on), the
    saved r15 back in its slot and the original signal mask. *)
Theorem signal_roundtrip s c m fr retval r sig s1 m1 f1 s2 m2 fl ip :
  signal_on_syscall_return s c m fr retval = Some (r, sig, s1, m1, f1) → sig ≠ 0 →
  mem_bytes m → 0 ≤ f_rip fr < 2 ^ 64 → 0 ≤ f_rflags fr < 2 ^ 64 → 0 ≤ retval < 2 ^ 64 →
  let p := proc_current s c in
  0 ≤ sig_blocked (proc s p) < 2 ^ 64 →
  (∀ x, f_user_rsp f1 + SF_CTX ≤ x < f_user_rsp f1 + SF_SIZE → m2 x = m1 x) →
  proc_current s2 c = p → 0 ≤ p < zlen (procs s2) → rsp0 (cpu s2 c) ≠ 0 →
  let '(rax, s3, m3, f3) := sys_sigreturn_impl s2 c m2 (mkFrame fl ip (f_user_rsp f1 + 8)) in
  rax = retval ∧ f_rip f3 = f_rip fr ∧ f_rflags f3 = Z.lor (f_rflags fr) 0x200 ∧
  f_user_rsp f3 = f_user_rsp fr ∧ sig_blocked (proc s3 p) = sig_blocked (proc s p) ∧
  ld64 m3 (f_user_rsp fr) = ld64 m (f_user_rsp fr).
Proof.
  intros H Hsig Hm Hrip Hfl Hret p Hmask Hkeep Hcur Hp H0.
  destruct (deliver_inv _ _ _ _ _ _ _ _ _ _ H Hsig) as (Hpn & _ & _ & _ & Hrsp & Em & Ef & _).
  fold p in Hpn, Em, Ef. set (sf := (f_user_rsp fr - 72) / 16 * 16) in *.
  assert (Hsf : sf + 72 ≤ f_user_rsp fr) by (unfold sf; zlia). clearbody sf.
  rewrite Ef in Hkeep |- *. cbn [f_user_rsp] in *.
  pose proof (ld64_range m (f_user_rsp fr) Hm) as H15.
  destruct (build_frame_words m sf (f_rip fr) (f_rflags fr) (f_user_rsp fr + 8) retval
              (ld64 m (f_user_rsp fr)) (sig_blocked (proc s p)) sig) as (W1 & W2 & W3 & W4 & W5 & W6 & _);
    [done|done|lia|done|done|done|]. rewrite <- Em in W1, W2, W3, W4, W5, W6.
  unfold SF_CTX, SF_SIZE in *.
  assert (Hw : ∀ k, 0 ≤ k → k + 8 ≤ 56 → ld64 m2 (sf + 16 + k) = ld64 m1 (sf + 16 + k)).
  { intros k Hk Hk2. apply load_le_ext. intros i Hi. apply Hkeep. lia. }
  rewrite <- Hw in W1, W2, W3, W4, W5, W6
    by (unfold CTX_RIP, CTX_RFLAGS, CTX_RSP, CTX_RAX, CTX_R15, CTX_MASK; lia).
  pose proof (sigreturn_restores s2 c m2 (mkFrame fl ip (sf + 8)) (sf + 16)) as Hs. cbv zeta in Hs.
  rewrite Hcur, W3, W5 in Hs. cbn [f_user_rsp] in Hs.
  specialize (Hs Hpn Hp H0 ltac:(lia) ltac:(lia) ltac:(lia) H15).
  destruct (sys_sigreturn_impl _ _ _ _) as [[[rax s3] m3] f3].
  replace (f_user_rsp fr + 8 - 8) with (f_user_rsp fr) in Hs by lia.
  rewrite W1, W2, W4, W6 in Hs. exact Hs.
Qed.

(** A system-call return delivers the lowest signal that is pending and not
    blocked, clears it from the pending set and blocks it (with the handler's
    mask) while the handler runs; if no such signal exists nothing is
    delivered. *)
Theorem signal_delivery s c m fr retval r sig s1 m1 f1 :
  signal_on_syscall_return s c m fr retval = Some (r, sig, s1, m1, f1) →
  let p := proc_current s c in
  0 ≤ p < zlen (procs s) →
  r = retval ∧
  (sig ≠ 0 →
     deliverable (proc s p) sig ∧ (∀ j, deliverable (proc s p) j → sig ≤ j) ∧
     f_rip f1 = (sig_handler (proc s p)).[sig] ∧
     (∀ n, 0 ≤ n < 64 →
        Z.testbit (sig_pending (proc s1 p)) n = Z.testbit (sig_pending (proc s p)) n && negb (sig =? n)) ∧
     (∀ n, 0 ≤ n < 64 → Z.testbit (sig_blocked (proc s1 p)) n =
        Z.testbit (sig_blocked (proc s p)) n || Z.testbit ((sig_mask (proc s p)).[sig]) n || (sig =? n))) ∧
  ((∀ j, ¬ deliverable (proc s p) j) → sig = 0 ∧ s1 = s ∧ m1 = m ∧ f1 = fr).
Proof.
  intros H p Hp. split_and!.
  - unfold signal_on_syscall_return in H. cbv zeta in H.
    repeat match goal with
    | H : (if ?b then _ else _) = _ |- _ => destruct b
    end; by simplify_eq.
  - intros Hsig. destruct (deliver_inv _ _ _ _ _ _ _ _ _ _ H Hsig) as (_ & Hpick & H0 & _ & _ & _ & Ef & Es).
    fold p in Hpick, Ef, Es. destruct (pick_signal_some _ _ Hpick H0) as [Hd Hmin].
    assert (Hr : 0 ≤ sig < 64) by (destruct Hd as (? & _); unfold XOS_NSIG in *; lia).
    split_and!; [done|done|by rewrite Ef|..].
    + intros n Hn. rewrite Es. rewrite proc_upd by (simpl; rewrite ?zlen_aset; lia). rewrite Z.eqb_refl. simpl.
      rewrite proc_upd by lia. rewrite Z.eqb_refl. simpl.
      rewrite Z.land_spec, u64_lnot_testbit, sigbit_testbit by lia. done.
    + intros n Hn. rewrite Es. rewrite proc_upd by (simpl; rewrite ?zlen_aset; lia). rewrite Z.eqb_refl. simpl.
      rewrite proc_upd by lia. rewrite Z.eqb_refl. simpl.
      rewrite !Z.lor_spec, sigbit_testbit by lia. apply orb_assoc.
  - intros Hno. unfold signal_on_syscall_return in H. fold p in H.
    assert (Hpk : pick_signal (proc s p) < 0).
    { apply Z.nle_gt. intros Hge. destruct (pick_signal_some (proc s p) _ eq_refl Hge) as [Hd _].
      by eapply Hno. }
    cbv zeta in H. rewrite (proj2 (Z.ltb_lt _ _) Hpk) in H. destruct (_ || _) in H; by simplify_eq.
Qed.

(** ** An example: SIGINT (2) pending for the process in slot 1 *)

Definition demo_sig_proc : proc_t :=
  mkProc 1 PROC_RUNNING 0 0 0 0 0 0 NULLP true 0 0 false [] 0 [] 0 4
         ((replicate 32 0).[2 <- 0x400000]) (replicate 32 0) (replicate 32 0) 0 0 0 0 0 0 0 0 1 1 1 1 0.
Definition demo_sig_sched : sched :=
  mkSched ((replicate 256 proc_zero).[1 <- demo_sig_proc]) [NULLP; NULLP; NULLP]
          [mkCpu 0x8000 1 0 0 0 NULLP] 0.
Definition demo_frame : syscall_ret_frame_t := mkFrame 0x202 0x401234 0x7fff0000.

Lemma demo_sig_return :
  ∃ r s1 m1 f1, signal_on_syscall_return demo_sig_sched 0 (λ _, 0) demo_frame 7 = Some (r, 2, s1, m1, f1) ∧
    proc_current s1 0 = 1 ∧ zlen (procs s1) = 256 ∧ rsp0 (cpu s1 0) = 0x8000.
Proof. do 4 eexists. split_and!; [vm_compute; reflexivity|reflexivity|vm_compute; reflexivity|reflexivity]. Qed.

Lemma signal_roundtrip_witness :
  ∃ r s1 m1 f1, signal_on_syscall_return demo_sig_sched 0 (λ _, 0) demo_frame 7 = Some (r, 2, s1, m1, f1) ∧
    let '(rax, s3, m3, f3) := sys_sigreturn_impl s1 0 m1 (mkFrame 0 0 (f_user_rsp f1 + 8)) in
    rax = 7 ∧ f_rip f3 = f_rip demo_frame ∧ f_rflags f3 = Z.lor (f_rflags demo_frame) 0x200 ∧
    f_user_rsp f3 = f_user_rsp demo_frame ∧
    sig_blocked (proc s3 1) = sig_blocked (proc demo_sig_sched 1) ∧
    ld64 m3 (f_user_rsp demo_frame) = ld64 (λ _, 0) (f_user_rsp demo_frame).
Proof.
  destruct demo_sig_return as (r & s1 & m1 & f1 & E & Ec & El & E0). exists r, s1, m1, f1. split; [exact E|].
  apply (signal_roundtrip demo_sig_sched 0 (λ _, 0) demo_frame 7 r 2 s1 m1 f1 s1 m1 0 0 E).
  - lia.
  - intros a. lia.
  - vm_compute. split; congruence.
  - vm_compute. split; congruence.
  - lia.
  - vm_compute. split; congruence.
  - done.
  - exact Ec.
  - rewrite El. vm_compute. split; congruence.
  - rewrite E0. lia.
Defined.

Lemma signal_delivery_witness :
  ∃ r s1 m1 f1, signal_on_syscall_return demo_sig_sched 0 (λ _, 0) demo_frame 7 = Some (r, 2, s1, m1, f1) ∧
    r = 7 ∧ deliverable (proc demo_sig_sched 1) 2 ∧ f_rip f1 = 0x400000.
Proof.
  destruct demo_sig_return as (r & s1 & m1 & f1 & E & _). exists r, s1, m1, f1. split; [exact E|].
  destruct (signal_delivery demo_sig_sched 0 (λ _, 0) demo_frame 7 r 2 s1 m1 f1 E) as (H1 & H2 & _).
  - vm_compute. split; congruence.
  - destruct (H2 ltac:(lia)) as (H3 & _ & H4 & _). split; [exact H1|split; [exact H3|exact H4]].
Defined.
