(* ===== verification/Sched.v ===== *)
(** * The scheduler

    Models the dispatching half of [kernel/sched/sched.c] on top of the process
    table of [ProcTable.v]: sleeping and waking, choosing the next process,
    yielding, blocking on a channel, creating, ending and killing processes.

    Every operation takes the CPU [c] it runs on.  A critical section under
    [sched_lock] is one function; [sched_yield_locked] ends either by returning
    on the same process or inside [context_switch], whose effect on the table
    (clearing [from->switching] once the registers are saved) is
    [context_switch_saved].  The resources a dying process gives back (page
    tables, frames, kernel stack) are recorded as effects.  [kprintf] output,
    interrupts (IPIs) and the FPU state are left out. *)

From stdpp Require Import gmap.
From S2P Require Import Prelude ProcTable Signal.

(** ** Waking *)

(** [for (p = ready_head[q]; p; p = p->next) body(p)] *)
Fixpoint walk (fuel : nat) (body : Z → sched → sched) (p : Z) (s : sched) : sched :=
  match fuel with
  | O => s
  | S fuel =>
      if p =? NULLP then s
      else let s := body p s in walk fuel body (next (proc s p)) s
  end.
Definition walk_queues (body : Z → sched → sched) (s : sched) : sched :=
  iter_up (λ q s, walk qfuel body ((ready_head s).[q]) s) 0 (Z.to_nat SCHED_NPRIO) s.

Definition sleep_expired (now : Z) (p : proc_t) : bool :=
  is_state (state p) PROC_BLOCKED && negb (sleep_until p =? 0) && (sleep_until p <=? now).
Definition waiting_on (chan : Z) (p : proc_t) : bool :=
  is_state (state p) PROC_BLOCKED && (wait_chan p =? chan).

Definition wake_sleeper (now : Z) (p : Z) (s : sched) : sched :=
  if sleep_expired now (proc s p)
  then upd s p (λ x, set_sleep_until (set_state x PROC_READY) 0) else s.
Definition wake_waiter (chan : Z) (p : Z) (s : sched) : sched :=
  if waiting_on chan (proc s p)
  then upd s p (λ x, set_state (set_sleep_until (set_wait_chan x 0) 0) PROC_READY) else s.

(** Whether some queued process satisfies [f] (the [woke] flag of the loops). *)
Fixpoint walk_any (fuel : nat) (f : proc_t → bool) (p : Z) (s : sched) : bool :=
  match fuel with
  | O => false
  | S fuel => if p =? NULLP then false else f (proc s p) || walk_any fuel f (next (proc s p)) s
  end.
Definition any_queued (f : proc_t → bool) (s : sched) : bool :=
  existsb (λ q, walk_any qfuel f ((ready_head s).[q]) s) [0; 1; 2].

(** [sched_wake_sleepers] when the lock is free (otherwise it does nothing). *)
Definition sched_wake_sleepers (s : sched) (c : Z) : sched :=
  let woke := any_queued (sleep_expired (ticks s)) s in
  let s := walk_queues (wake_sleeper (ticks s)) s in
  if woke then upd_cpu s c (λ x, set_need_resched x 1) else s.

Definition sched_wake_chan (s : sched) (c chan : Z) : sched :=
  let woke := any_queued (waiting_on chan) s in
  let s := walk_queues (wake_waiter chan) s in
  if woke then upd_cpu s c (λ x, set_need_resched x 1) else s.

(** ** Choosing the next process *)

(** READY and its registers are saved. *)
Definition pickable (p : proc_t) : bool := is_state (state p) PROC_READY && (switching p =? 0).

Fixpoint pick_link (fuel : nat) (s : sched) (pp : qlink) : option qlink :=
  match fuel with
  | O => None
  | S fuel =>
      if qrd s pp =? NULLP then None
      else if pickable (proc s (qrd s pp)) then Some pp
      else pick_link fuel s (QNext (qrd s pp))
  end.

(** [live_cpu >= 0]: the process is current on some CPU. *)
Definition is_live (s : sched) (i : Z) : bool := existsb (λ c, current_proc c =? i) (cpus s).

(** [linked]: the process is on some ready queue. *)
Definition is_linked (s : sched) (i : Z) : bool :=
  existsb (λ q, bool_decide (is_Some (find_link qfuel s (QHead q) i))) [0; 1; 2].

Definition rescue (s : sched) : option Z :=
  find_up (λ i, pickable (proc s i) && negb (is_live s i) && negb (is_linked s i))
          1 (Z.to_nat (SCHED_MAX_PROCS - 1)).

Definition pick_queued (s : sched) : option qlink :=
  match pick_link qfuel s (QHead 0) with
  | Some pp => Some pp
  | None =>
      match pick_link qfuel s (QHead 1) with
      | Some pp => Some pp
      | None => pick_link qfuel s (QHead 2)
      end
  end.

Definition pick_next_ready (s : sched) (c : Z) : Z * sched :=
  let s := walk_queues (wake_sleeper (ticks s)) s in
  match pick_queued s with
  | Some npp => let nxt := qrd s npp in (nxt, unlink s npp nxt)
  | None =>
      match rescue s with
      | Some i => (i, s)
      | None => (current_proc (cpu s c), s)
      end
  end.

(** ** Ending a process *)

(** What [proc_exit] gives back. *)
Inductive effect :=
  | DestroyUser (pml4 : Z)   (* vmm_destroy_user *)
  | FreeFrame (phys : Z)     (* pmm_free_frame *)
  | KFree (ptr : Z)          (* kfree *)
  | ClearTid (addr : Z).     (* *clear_tid_addr = 0 in user memory *)

Definition set_pml4_phys (p : proc_t) (v : Z) : proc_t :=
  mkProc (pid p) (state p) (rsp p) (rip p) v (pml4_virt p) (kstack p) (sleep_until p) (next p)
         (ring3 p) (parent_pid p) (exit_code p) (reaped p) (fork_regs p) (fork_rflags p)
         (name p) (sig_blocked p) (sig_pending p) (sig_handler p) (sig_mask p) (sig_flags p)
         (saved_rflags p) (exiting p) (saved_ret p) (canary p) (no_preempt p) (switching p)
         (xstate p) (wait_chan p) (priority p) (tgid p) (tid p) (pml4_refcount p)
         (clear_tid_addr p).
Definition set_pml4_virt (p : proc_t) (v : Z) : proc_t :=
  mkProc (pid p) (state p) (rsp p) (rip p) (pml4_phys p) v (kstack p) (sleep_until p) (next p)
         (ring3 p) (parent_pid p) (exit_code p) (reaped p) (fork_regs p) (fork_rflags p)
         (name p) (sig_blocked p) (sig_pending p) (sig_handler p) (sig_mask p) (sig_flags p)
         (saved_rflags p) (exiting p) (saved_ret p) (canary p) (no_preempt p) (switching p)
         (xstate p) (wait_chan p) (priority p) (tgid p) (tid p) (pml4_refcount p)
         (clear_tid_addr p).
Definition set_kstack (p : proc_t) (v : Z) : proc_t :=
  mkProc (pid p) (state p) (rsp p) (rip p) (pml4_phys p) (pml4_virt p) v (sleep_until p)
         (next p) (ring3 p) (parent_pid p) (exit_code p) (reaped p) (fork_regs p)
         (fork_rflags p) (name p) (sig_blocked p) (sig_pending p) (sig_handler p) (sig_mask p)
         (sig_flags p) (saved_rflags p) (exiting p) (saved_ret p) (canary p) (no_preempt p)
         (switching p) (xstate p) (wait_chan p) (priority p) (tgid p) (tid p)
         (pml4_refcount p) (clear_tid_addr p).
Definition set_exit_code (p : proc_t) (v : Z) : proc_t :=
  mkProc (pid p) (state p) (rsp p) (rip p) (pml4_phys p) (pml4_virt p) (kstack p)
         (sleep_until p) (next p) (ring3 p) (parent_pid p) v (reaped p) (fork_regs p)
         (fork_rflags p) (name p) (sig_blocked p) (sig_pending p) (sig_handler p) (sig_mask p)
         (sig_flags p) (saved_rflags p) (exiting p) (saved_ret p) (canary p) (no_preempt p)
         (switching p) (xstate p) (wait_chan p) (priority p) (tgid p) (tid p)
         (pml4_refcount p) (clear_tid_addr p).
Definition set_pml4_refcount (p : proc_t) (v : Z) : proc_t :=
  mkProc (pid p) (state p) (rsp p) (rip p) (pml4_phys p) (pml4_virt p) (kstack p)
         (sleep_until p) (next p) (ring3 p) (parent_pid p) (exit_code p) (reaped p)
         (fork_regs p) (fork_rflags p) (name p) (sig_blocked p) (sig_pending p)
         (sig_handler p) (sig_mask p) (sig_flags p) (saved_rflags p) (exiting p) (saved_ret p)
         (canary p) (no_preempt p) (switching p) (xstate p) (wait_chan p) (priority p)
         (tgid p) (tid p) v (clear_tid_addr p).

(** The signal [proc_exit] sends never kills its target. *)
Lemma sigchld_never_kills k1 k2 s pid_ :
  proc_send_signal k1 s pid_ XOS_SIGCHLD = proc_send_signal k2 s pid_ XOS_SIGCHLD.
Proof.
  unfold proc_send_signal. simpl. repeat case_if; try done.
Qed.

(** The first critical section of [proc_exit]; [false] when the exit was
    already claimed. *)
Definition proc_exit_claim (s : sched) (p : Z) : bool * sched :=
  if negb (exiting (proc s p) =? 0) then (false, s)
  else (true, upd s p (λ x, set_reaped (set_state (set_exiting x 1) PROC_DEAD) false)).

(** The middle of [proc_exit], outside the lock.  [mapped] tells whether the
    [clear_tid_addr] page is mapped ([vmm_virt_to_phys] <> 0).  The signal to
    the parent is SIGCHLD, which never kills. *)
Definition proc_exit_release (s : sched) (c p : Z) (mapped : bool) : list effect * sched :=
  let x := proc s p in
  let '(e1, s) :=
    if negb (clear_tid_addr x =? 0) && negb (pml4_virt x =? 0) && mapped
    then ([ClearTid (clear_tid_addr x)], sched_wake_chan s c (clear_tid_addr x)) else ([], s) in
  let s := if negb (parent_pid x =? 0)
           then (proc_send_signal (λ s _, s) s (parent_pid x) XOS_SIGCHLD).2 else s in
  let x := proc s p in
  let '(e2, s) :=
    if negb (pml4_virt x =? 0) then
      let remaining := pml4_refcount x - 1 in
      (if remaining <=? 0 then [DestroyUser (pml4_virt x); FreeFrame (pml4_phys x)] else [],
       upd s p (λ x, set_pml4_phys (set_pml4_virt (set_pml4_refcount x remaining) 0) 0))
    else ([], s) in
  let '(e3, s) :=
    if negb (kstack x =? 0) && negb (p =? proc_current s c)
    then ([KFree (kstack x)], upd s p (λ x, set_kstack x 0)) else ([], s) in
  (e1 ++ e2 ++ e3, s).

(** The last critical section: off the ready queue. *)
Definition proc_exit_unlink (s : sched) (p : Z) : sched :=
  upd (ready_dequeue s p) p (λ x, set_next x NULLP).

Definition proc_exit (s : sched) (c p : Z) (mapped : bool) : list effect * sched :=
  if p =? NULLP then ([], s)
  else
    let '(claimed, s) := proc_exit_claim s p in
    if negb claimed then ([], s)
    else
      let '(eff, s) := proc_exit_release s c p mapped in
      (eff, proc_exit_unlink s p).

(** ** Yielding *)

Inductive yield_out :=
  | YReturn                  (* back in the caller, on the same process *)
  | YSwitch (from to : Z).   (* inside [context_switch(from, to)] *)

(** The common end of both switches: mark [cur], drop the lock, enter
    [context_switch]. *)
Definition switch_to (s : sched) (c cur nxt rflags : Z) (rsp : Z) : sched :=
  let s := upd s nxt (λ x, set_next (set_state x PROC_RUNNING) NULLP) in
  let s := upd_cpu s c (λ x, set_rsp0 (set_current x nxt) rsp) in
  let s := upd s cur (λ x, set_saved_rflags (set_switching x 1) rflags) in
  upd_cpu s c (λ x, set_saving x cur).

(** [__sched_yield_locked] after the lock has been (re)taken, that is with the
    exit of a killed current process already done. *)
Definition sched_yield_locked (s : sched) (c rflags : Z) : yield_out * sched :=
  let cur := current_proc (cpu s c) in
  if cur =? NULLP then (YReturn, s)
  else
    let '(nxt, s) := pick_next_ready s c in
    if (nxt =? cur) && is_state (state (proc s cur)) PROC_READY && negb (pid (proc s cur) =? 0) then
      (YReturn, upd (ready_dequeue s cur) cur (λ x, set_state x PROC_RUNNING))
    else if (nxt =? cur) && is_state (state (proc s cur)) PROC_RUNNING then (YReturn, s)
    else if (pid (proc s nxt) =? 0) || (nxt =? cur) then
      if negb (pid (proc s cur) =? 0) && negb (is_state (state (proc s cur)) PROC_RUNNING) &&
         negb (is_state (state (proc s cur)) PROC_READY) then
        let idle := idle_proc (cpu s c) in
        if negb (idle =? NULLP) && negb (idle =? cur) then
          let rsp := if negb (kstack (proc s idle) =? 0) then kstack (proc s idle) + SCHED_STACK_SIZE
                     else tss_rsp0 (cpu s c) in
          (YSwitch cur idle, switch_to s c cur idle rflags rsp)
        else (YReturn, s)
      else (YReturn, s)
    else
      let s :=
        if is_state (state (proc s cur)) PROC_RUNNING && negb (pid (proc s cur) =? 0)
        then ready_enqueue (upd s cur (λ x, set_state x PROC_READY)) cur else s in
      let rsp := if ring3 (proc s nxt) then kstack (proc s nxt) + SCHED_STACK_SIZE
                 else tss_rsp0 (cpu s c) in
      (YSwitch cur nxt, switch_to s c cur nxt rflags rsp).

(** [context_switch] has saved the registers of the process being left. *)
Definition context_switch_saved (s : sched) (c : Z) : sched :=
  let from := saving (cpu s c) in
  if from =? NULLP then s
  else upd_cpu (upd s from (λ x, set_switching x 0)) c (λ x, set_saving x NULLP).

(** [__sched_yield_locked] whole: a current process killed by another CPU first
    runs [proc_exit] for itself. *)
Definition sched_yield (s : sched) (c rflags : Z) (mapped : bool) : list effect * yield_out * sched :=
  let cur := current_proc (cpu s c) in
  let '(eff, s) :=
    if negb (cur =? NULLP) && is_state (state (proc s cur)) PROC_DEAD && negb (pid (proc s cur) =? 0)
    then proc_exit s c cur mapped else ([], s) in
  let '(out, s) := sched_yield_locked s c rflags in (eff, out, s).

Definition sched_check_resched (s : sched) (c rflags : Z) (mapped : bool) :
    list effect * yield_out * sched :=
  if need_resched (cpu s c) =? 0 then ([], YReturn, s)
  else
    let cur := current_proc (cpu s c) in
    if negb (cur =? NULLP) && negb (no_preempt (proc s cur) =? 0) then ([], YReturn, s)
    else sched_yield (upd_cpu s c (λ x, set_need_resched x 0)) c rflags mapped.

(** ** Blocking *)

Definition SCHED_WAIT_BACKSTOP_MS : Z := 100.
(** [timer_ticks_hz]: one 1000 Hz timer and one 250 Hz timer per other CPU. *)
Definition timer_ticks_hz (s : sched) : Z :=
  1000 + (if 1 <? zlen (cpus s) then (zlen (cpus s) - 1) * 250 else 0).
Definition ms_to_ticks (s : sched) (ms : Z) : Z :=
  let t := u64 (u64 (ms * timer_ticks_hz s) + 999) / 1000 in if t =? 0 then 1 else t.

(** [proc_sleep] of a real process; the idle task busy-waits on the timer. *)
Definition proc_sleep (s : sched) (c ms rflags : Z) : yield_out * sched :=
  let cur := current_proc (cpu s c) in
  if (cur =? NULLP) || (pid (proc s cur) =? 0) then (YReturn, s)
  else
    let t := u64 (ticks s + ms_to_ticks s ms) in
    let s := upd s cur (λ x, set_state (set_sleep_until x t) PROC_BLOCKED) in
    sched_yield_locked (ready_enqueue s cur) c rflags.

(** [sched_block_on] up to the switch; clearing [wait_chan] when the process
    runs again is [sched_unblock]. *)
Definition sched_block_on (s : sched) (c chan timeout_ms rflags : Z) : yield_out * sched :=
  let timeout_ms := if timeout_ms =? 0 then SCHED_WAIT_BACKSTOP_MS else timeout_ms in
  let cur := current_proc (cpu s c) in
  if (cur =? NULLP) || (pid (proc s cur) =? 0) then (YReturn, s)
  else
    let t := u64 (ticks s + ms_to_ticks s timeout_ms) in
    let s := upd s cur (λ x, set_state (set_sleep_until (set_wait_chan x chan) t) PROC_BLOCKED) in
    sched_yield_locked (ready_enqueue s cur) c rflags.
Definition sched_unblock (s : sched) (c : Z) : sched :=
  upd s (current_proc (cpu s c)) (λ x, set_wait_chan x 0).

(** ** Creating, adopting, killing *)

Definition STACK_CANARY : Z := 0x0BADF00DDEADBEEF.
Definition PROC_CANARY : Z := 0xDEADBEEFCAFEBABE.

(** The slot [i] as [proc_create] leaves it; [next] and [wait_chan] keep their
    old values, and the FPU area is allocated once per slot. *)
Definition fresh_proc (x : proc_t) (i entry pml4_phys pml4_virt kstack xs : Z) : proc_t :=
  mkProc i (state x) (u64 (kstack + SCHED_STACK_SIZE - 8)) entry pml4_phys pml4_virt kstack 0 (next x) false
         0 0 false ((fork_regs x).[0 <- 0].[1 <- 0].[2 <- 0].[3 <- 0].[4 <- 0].[5 <- 0]) 0
         ((name x).[0 <- 0]) 0 0 (replicate (Z.to_nat XOS_NSIG) 0) (replicate (Z.to_nat XOS_NSIG) 0)
         (replicate (Z.to_nat XOS_NSIG) 0) 0 0 (saved_ret x) PROC_CANARY 0 0
         (if xstate x =? 0 then xs else xstate x) (wait_chan x) PRIO_NORMAL i i 1 0.

Definition slot_free (p : proc_t) : bool := is_state (state p) PROC_DEAD && reaped p.

(** [proc_create]; [xs] is the result of [cpu_xstate_alloc]. *)
Definition proc_create (s : sched) (entry pml4_phys pml4_virt kstack xs : Z) : Z * sched :=
  match find_up (λ i, slot_free (proc s i)) 1 (Z.to_nat (SCHED_MAX_PROCS - 1)) with
  | Some i => (i, upd s i (λ x, fresh_proc x i entry pml4_phys pml4_virt kstack xs))
  | None => (NULLP, s)
  end.

Definition proc_make_ready (s : sched) (p : Z) : sched :=
  ready_enqueue (upd s p (λ x, set_state x PROC_READY)) p.

Definition proc_set_priority (s : sched) (p prio : Z) : sched :=
  if (p =? NULLP) || (SCHED_NPRIO <=? prio) then s
  else
    let on_queue := is_state (state (proc s p)) PROC_READY || is_state (state (proc s p)) PROC_BLOCKED in
    let s := if on_queue && negb (priority (proc s p) =? prio) then ready_dequeue s p else s in
    let s := upd s p (λ x, set_priority x prio) in
    if on_queue then ready_enqueue s p else s.

Definition sched_adopt_current (s : sched) (c p : Z) : sched :=
  let s := upd s p (λ x, set_state x PROC_RUNNING) in
  let s := upd_cpu s c (λ x, set_current x p) in
  ready_dequeue s p.

(** What the caller of [proc_kill] does next. *)
Inductive kill_out := KillDone | KillExit (p : Z) | KillSelf (p : Z).

(** The unlocked start of [proc_kill]: the slot found, or NULL. *)
Definition proc_kill_find (s : sched) (pid_ : Z) : Z :=
  let p := proc_by_pid s pid_ in
  if (p =? NULLP) || (pid (proc s p) =? 0) then NULLP else p.

(** The critical section of [proc_kill] on the slot [p] found before the lock was
    taken: [KillExit p] goes on to [proc_exit(p)], [KillSelf p] to [proc_exit(p)]
    and [sched_yield]. *)
Definition proc_kill_locked (s : sched) (c p : Z) : kill_out * sched :=
  if negb (exiting (proc s p) =? 0) then (KillDone, s)
  else if p =? proc_current s c then (KillSelf p, s)
  else if is_state (state (proc s p)) PROC_RUNNING then
    (KillDone, upd s p (λ x, set_reaped (set_exiting (set_state x PROC_DEAD) 0) false))
  else (KillExit p, ready_dequeue s p).

(** [proc_kill] when nothing happens between the lookup and the lock; other
    interleavings are steps of [sstep] below. *)
Definition proc_kill (s : sched) (c pid_ rflags : Z) (mapped : bool) :
    list effect * yield_out * sched :=
  let p := proc_kill_find s pid_ in
  if p =? NULLP then ([], YReturn, s)
  else
    match proc_kill_locked s c p with
    | (KillDone, s) => ([], YReturn, s)
    | (KillExit p, s) => let '(eff, s) := proc_exit s c p mapped in (eff, YReturn, s)
    | (KillSelf p, s) =>
        let '(eff, s) := proc_exit s c p mapped in
        let '(eff', out, s) := sched_yield s c rflags mapped in (eff ++ eff', out, s)
    end.

(** ** Start-up *)

(** [sched_early_init] *)
Definition sched_early_init (s : sched) : sched :=
  with_procs s (replicate (Z.to_nat SCHED_MAX_PROCS) (set_reaped proc_zero true)).

(** The idle process [sched_init] and [sched_init_ap] make of a slot; [ks] is the
    stack from [kmalloc], [entry] the address of [idle_loop]. *)
Definition idle_of (x : proc_t) (cr3 kpml4 ks entry xs : Z) (rpd : bool) : proc_t :=
  mkProc 0 PROC_RUNNING (u64 (ks + SCHED_STACK_SIZE - 8)) entry cr3 kpml4 ks (sleep_until x) (next x) false
         (parent_pid x) (exit_code x) rpd (fork_regs x) (fork_rflags x) (name x) (sig_blocked x) (sig_pending x)
         (sig_handler x) (sig_mask x) (sig_flags x) (saved_rflags x) (exiting x) entry PROC_CANARY
         (no_preempt x) (switching x) (if xstate x =? 0 then xs else xstate x) (wait_chan x) (priority x)
         (tgid x) (tid x) (pml4_refcount x) (clear_tid_addr x).

Definition set_idle (c : cpu_t) (p : Z) : cpu_t :=
  mkCpu (rsp0 c) p p (tss_rsp0 c) (need_resched c) (saving c).

Definition sched_init (s : sched) (cr3 kpml4 ks entry xs : Z) : sched :=
  let s := upd s 0 (λ x, idle_of x cr3 kpml4 ks entry xs (reaped x)) in
  let s := upd_cpu s 0 (λ x, set_idle x 0) in
  with_heads s (replicate (Z.to_nat SCHED_NPRIO) NULLP).

Definition sched_init_ap (s : sched) (c cr3 kpml4 ks entry xs : Z) : sched :=
  match find_up (λ i, slot_free (proc s i)) 1 (Z.to_nat (SCHED_MAX_PROCS - 1)) with
  | Some i =>
      let s := upd s i (λ x, idle_of x cr3 kpml4 ks entry xs true) in
      upd_cpu s c (λ x, set_rsp0 (set_idle x i) (ks + SCHED_STACK_SIZE))
  | None => s
  end.

(** ** The invariant *)

Definition valid_proc (p : Z) : Prop := 0 ≤ p < SCHED_MAX_PROCS.
Definition valid_cpu (s : sched) (c : Z) : Prop := 0 ≤ c < zlen (cpus s).
Definition cur (s : sched) (c : Z) : Z := current_proc (cpu s c).

(** On a CPU: running (or killed while running) and off the queues. *)
Definition on_cpu (s : sched) (Q : Z → list Z) (p : Z) : Prop :=
  (state (proc s p) = PROC_RUNNING ∨ state (proc s p) = PROC_DEAD) ∧ ¬ linked Q p.
(** About to leave its CPU: asleep or woken again, and linked. *)
Definition leaving (s : sched) (Q : Z → list Z) (p : Z) : Prop :=
  (state (proc s p) = PROC_READY ∨ state (proc s p) = PROC_BLOCKED) ∧ linked Q p.

(** A slot handed out by [proc_create] that has not been made ready. *)
Definition fresh (s : sched) (Q : Z → list Z) (p : Z) : Prop :=
  valid_proc p ∧ pid (proc s p) ≠ 0 ∧ state (proc s p) = PROC_DEAD ∧ ¬ linked Q p ∧ switching (proc s p) = 0 ∧ ∀ c, valid_cpu s c → cur s c ≠ p.

(** [sinv K F L s Q]: the scheduler's invariant; [K] are processes whose kill is
    under way, [F] fresh slots, [L] CPUs whose current process is about to yield. *)
Record sinv (K F L : Z → Prop) (s : sched) (Q : Z → list Z) : Prop := {
  i_rep : rep s Q;
  i_cur : ∀ c, valid_cpu s c → valid_proc (cur s c);
  i_inj : ∀ c d, valid_cpu s c → valid_cpu s d → cur s c = cur s d → c = d;
  i_oncpu : ∀ c, valid_cpu s c → on_cpu s Q (cur s c) ∨ L c ∧ leaving s Q (cur s c);
  i_idle : ∀ c, valid_cpu s c →
    valid_proc (idle_proc (cpu s c)) ∧ pid (proc s (idle_proc (cpu s c))) = 0 ∧
    state (proc s (idle_proc (cpu s c))) = PROC_RUNNING;
  i_idle_inj : ∀ c d, valid_cpu s c → valid_cpu s d →
    idle_proc (cpu s c) = idle_proc (cpu s d) ∨ cur s c = idle_proc (cpu s d) → c = d;
  i_real : ∀ p, valid_proc p → state (proc s p) = PROC_READY ∨ state (proc s p) = PROC_BLOCKED →
    pid (proc s p) ≠ 0;
  i_prio : ∀ p q, 0 ≤ q < SCHED_NPRIO → p ∈ Q q → state (proc s p) ≠ PROC_DEAD → q = queue_of (proc s p);
  i_queued : ∀ p, linked Q p → state (proc s p) ≠ PROC_RUNNING;
  i_strand : ∀ p, valid_proc p → state (proc s p) = PROC_READY ∨ state (proc s p) = PROC_BLOCKED →
    linked Q p ∨ K p;
  i_sw : ∀ p, valid_proc p → switching (proc s p) ≠ 0 → ∃ c, valid_cpu s c ∧ saving (cpu s c) = p;
  i_sav : ∀ c, valid_cpu s c → saving (cpu s c) ≠ NULLP →
    valid_proc (saving (cpu s c)) ∧ switching (proc s (saving (cpu s c))) ≠ 0 ∧
    (∀ d, valid_cpu s d → cur s d ≠ saving (cpu s c)) ∧
    (∀ d, valid_cpu s d → saving (cpu s d) = saving (cpu s c) ∨ idle_proc (cpu s d) = saving (cpu s c) → d = c);
  i_free : ∀ p, valid_proc p → slot_free (proc s p) = true →
    ¬ linked Q p ∧ switching (proc s p) = 0 ∧ ∀ c, valid_cpu s c → cur s c ≠ p;
  i_fresh : ∀ p, F p → fresh s Q p;
}.

(** What the invariant reads of a process. *)
Definition info (x : proc_t) : proc_state_t * Z * Z * Z * bool :=
  (state x, pid x, priority x, switching x, reaped x).

Lemma info_state x y : info x = info y → state x = state y.
Proof. unfold info. congruence. Qed.
Lemma info_pid x y : info x = info y → pid x = pid y.
Proof. unfold info. congruence. Qed.
Lemma info_sw x y : info x = info y → switching x = switching y.
Proof. unfold info. congruence. Qed.
Lemma info_reaped x y : info x = info y → reaped x = reaped y.
Proof. unfold info. congruence. Qed.
Lemma info_queue x y : info x = info y → queue_of x = queue_of y.
Proof. unfold info, queue_of. intros [= ??-> ??]. done. Qed.
Lemma info_free x y : info x = info y → slot_free x = slot_free y.
Proof. unfold info, slot_free. intros [= -> ??? ->]. done. Qed.

Lemma is_state_true a b : is_state a b = true ↔ a = b.
Proof. unfold is_state. apply bool_decide_eq_true. Qed.
Lemma is_state_false a b : is_state a b = false ↔ a ≠ b.
Proof. unfold is_state. apply bool_decide_eq_false. Qed.
Lemma slot_free_true x : slot_free x = true ↔ state x = PROC_DEAD ∧ reaped x = true.
Proof. unfold slot_free. by rewrite andb_true_iff, is_state_true. Qed.

(** The invariant survives a change to one process [p] and its place in the
    queues, given the clauses about [p] itself. *)
Lemma sinv_change K F L K' F' L' s Q s' Q' p :
  sinv K F L s Q → valid_proc p → rep s' Q' → cpus s' = cpus s →
  (∀ x, valid_proc x → x ≠ p → info (proc s' x) = info (proc s x)) →
  (∀ q x, 0 ≤ q < SCHED_NPRIO → x ≠ p → (x ∈ Q' q ↔ x ∈ Q q)) →
  (∀ x, K x → x ≠ p → K' x) → (∀ x, F' x → x ≠ p → F x) → (∀ c, L c → L' c) →
  (∀ c, valid_cpu s c → cur s c = p → on_cpu s' Q' p ∨ L' c ∧ leaving s' Q' p) →
  (∀ c, valid_cpu s c → idle_proc (cpu s c) = p → pid (proc s' p) = 0 ∧ state (proc s' p) = PROC_RUNNING) →
  (state (proc s' p) = PROC_READY ∨ state (proc s' p) = PROC_BLOCKED →
     pid (proc s' p) ≠ 0 ∧ (linked Q' p ∨ K' p)) →
  (∀ q, 0 ≤ q < SCHED_NPRIO → p ∈ Q' q → state (proc s' p) ≠ PROC_RUNNING ∧
     (state (proc s' p) ≠ PROC_DEAD → q = queue_of (proc s' p))) →
  switching (proc s' p) = switching (proc s p) →
  (slot_free (proc s' p) = true →
     ¬ linked Q' p ∧ switching (proc s p) = 0 ∧ ∀ c, valid_cpu s c → cur s c ≠ p) →
  (F' p → fresh s' Q' p) →
  sinv K' F' L' s' Q'.
Proof.
  intros I Hp Hrep Hcpu Hinfo Hq HK HF HL Hc1 Hidle Hreal Hqp Hsw Hfree Hfresh.
  assert (Hlk : ∀ x, x ≠ p → (linked Q' x ↔ linked Q x)).
  { intros x Hx. unfold linked. split; intros (q & Hq0 & Hin); exists q; (split; [done|]); by apply Hq. }
  assert (Hvc : ∀ c, valid_cpu s' c ↔ valid_cpu s c) by (intros; unfold valid_cpu; by rewrite Hcpu).
  assert (Hcc : ∀ c, cpu s' c = cpu s c) by (intros; unfold cpu; by rewrite Hcpu).
  assert (Hcur : ∀ c, cur s' c = cur s c) by (intros; unfold cur; by rewrite Hcc).
  split.
  - done.
  - intros c. rewrite Hvc, Hcur. apply I.
  - intros c d. rewrite !Hvc, !Hcur. apply I.
  - intros c. rewrite Hvc, Hcur. intros Hc. destruct (decide (cur s c = p)) as [E|Hne]; [rewrite E; by apply (Hc1 c)|].
    pose proof (info_state _ _ (Hinfo _ (i_cur _ _ _ _ _ I c Hc) Hne)) as Es.
    unfold on_cpu, leaving. rewrite Es, (Hlk _ Hne).
    destruct (i_oncpu _ _ _ _ _ I c Hc) as [?|[??]]; [by left|right; auto].
  - intros c. rewrite Hvc, Hcc. intros Hc. destruct (i_idle _ _ _ _ _ I c Hc) as (V & P0 & R).
    destruct (decide (idle_proc (cpu s c) = p)) as [E|Hne].
    + rewrite E in *. split; [done|by apply (Hidle c)].
    + pose proof (Hinfo _ V Hne) as Ei. rewrite (info_state _ _ Ei), (info_pid _ _ Ei). done.
  - intros c d. rewrite !Hvc, !Hcc, !Hcur. apply I.
  - intros x Hx. destruct (decide (x = p)) as [->|Hne]; [intros; by apply Hreal|].
    pose proof (Hinfo _ Hx Hne) as Ei. rewrite (info_state _ _ Ei), (info_pid _ _ Ei). by apply I.
  - intros x q Hq0 Hin. destruct (decide (x = p)) as [->|Hne]; [by apply Hqp|].
    pose proof (Hinfo _ (r_range _ _ Hrep q x Hq0 Hin) Hne) as Ei.
    rewrite (info_state _ _ Ei), (info_queue _ _ Ei). apply I; [done|]. by apply Hq.
  - intros x (q & Hq0 & Hin). destruct (decide (x = p)) as [->|Hne]; [by apply (Hqp q)|].
    pose proof (Hinfo _ (r_range _ _ Hrep q x Hq0 Hin) Hne) as Ei. rewrite (info_state _ _ Ei).
    apply (i_queued _ _ _ _ _ I). exists q. split; [done|]. by apply Hq.
  - intros x Hx. destruct (decide (x = p)) as [->|Hne]; [intros; by apply Hreal|].
    rewrite (info_state _ _ (Hinfo _ Hx Hne)), (Hlk _ Hne). intros Hst.
    destruct (i_strand _ _ _ _ _ I x Hx Hst); [by left|right; auto].
  - intros x Hx. setoid_rewrite Hvc. setoid_rewrite Hcc.
    destruct (decide (x = p)) as [->|Hne]; [rewrite Hsw|rewrite (info_sw _ _ (Hinfo _ Hx Hne))]; by apply I.
  - intros c. rewrite Hvc, Hcc. setoid_rewrite Hvc. setoid_rewrite Hcc. setoid_rewrite Hcur.
    intros Hc Hs. destruct (i_sav _ _ _ _ _ I c Hc Hs) as (V & W & X & Y). split_and!; try done.
    destruct (decide (saving (cpu s c) = p)) as [E|Hne]; [rewrite E in *; by rewrite Hsw|].
    by rewrite (info_sw _ _ (Hinfo _ V Hne)).
  - intros x Hx. setoid_rewrite Hvc. setoid_rewrite Hcur.
    destruct (decide (x = p)) as [->|Hne]; [rewrite Hsw; apply Hfree|].
    pose proof (Hinfo _ Hx Hne) as Ei. rewrite (info_free _ _ Ei), (info_sw _ _ Ei), (Hlk _ Hne). by apply I.
  - intros x Hx. destruct (decide (x = p)) as [->|Hne]; [by apply Hfresh|].
    pose proof (i_fresh _ _ _ _ _ I x (HF _ Hx Hne)) as (V & H1 & H2 & H4 & H5 & H6).
    pose proof (Hinfo _ V Hne) as Ei. unfold fresh. setoid_rewrite Hvc. setoid_rewrite Hcur.
    rewrite (info_state _ _ Ei), (info_pid _ _ Ei), (info_sw _ _ Ei), (Hlk _ Hne). done.
Qed.

Lemma rep_upd s Q p f : rep s Q → valid_proc p → (∀ x, next (f x) = next x) → rep (upd s p f) Q.
Proof.
  intros [H1 H2 H3 H4 H5 H6] Hp Hf. split; try done; [simpl; by rewrite zlen_aset|].
  intros q Hq. eapply chain_ext; [|by apply H3]. intros x Hx. unfold nx.
  unfold valid_proc in Hp. rewrite proc_upd by (rewrite ?H1; try lia; by apply (H6 q)).
  destruct (Z.eqb_spec p x) as [->|]; [apply Hf|done].
Qed.

Lemma rep_cpus s Q l : rep s Q → rep (with_cpus s l) Q.
Proof. intros [H1 H2 H3 H4 H5 H6]. by split. Qed.

Lemma proc_upd_eq s Q p f : rep s Q → valid_proc p → proc (upd s p f) p = f (proc s p).
Proof. intros Hr Hp. rewrite proc_upd by (rewrite ?(r_len _ _ Hr); unfold valid_proc in Hp; lia). by rewrite Z.eqb_refl. Qed.
Lemma proc_upd_ne s Q p f x :
  rep s Q → valid_proc p → valid_proc x → x ≠ p → proc (upd s p f) x = proc s x.
Proof.
  intros Hr Hp Hx Hne. rewrite proc_upd by (rewrite ?(r_len _ _ Hr); unfold valid_proc in *; lia).
  by rewrite (proj2 (Z.eqb_neq p x)) by congruence.
Qed.

Lemma same_info s s' x : same_but_next s s' → valid_proc x → info (proc s' x) = info (proc s x).
Proof. intros H Hx. apply (same_field info); [done|unfold valid_proc in Hx; lia|done]. Qed.
Lemma same_state s s' x : same_but_next s s' → valid_proc x → state (proc s' x) = state (proc s x).
Proof. intros H Hx. by apply info_state, same_info. Qed.

(** A change of one process that leaves the queues alone. *)
Lemma sinv_upd K F L L' s Q p f :
  sinv K F L s Q → valid_proc p →
  (∀ x, next (f x) = next x ∧ pid (f x) = pid x ∧ priority (f x) = priority x ∧ switching (f x) = switching x) →
  (∀ c, L c → L' c) →
  let st := state (f (proc s p)) in
  (∀ c, valid_cpu s c → cur s c = p →
     (st = PROC_RUNNING ∨ st = PROC_DEAD) ∧ ¬ linked Q p ∨
     L' c ∧ (st = PROC_READY ∨ st = PROC_BLOCKED) ∧ linked Q p) →
  (∀ c, valid_cpu s c → idle_proc (cpu s c) = p → st = PROC_RUNNING) →
  (st = PROC_READY ∨ st = PROC_BLOCKED → pid (proc s p) ≠ 0 ∧ (linked Q p ∨ K p)) →
  (linked Q p → st ≠ PROC_RUNNING ∧ (st = PROC_DEAD ∨ state (proc s p) ≠ PROC_DEAD)) →
  (st = PROC_DEAD → reaped (f (proc s p)) = true →
     ¬ linked Q p ∧ switching (proc s p) = 0 ∧ ∀ c, valid_cpu s c → cur s c ≠ p) →
  (F p → st = PROC_DEAD) →
  sinv K F L' (upd s p f) Q.
Proof.
  intros I Hp Hf HL st H1 H2 H3 H4 H5 H6. pose proof (i_rep _ _ _ _ _ I) as Hr.
  assert (E : proc (upd s p f) p = f (proc s p)) by (by eapply proc_upd_eq).
  destruct (Hf (proc s p)) as (E1 & E2 & E3 & E4).
  eapply (sinv_change K F L); try done; rewrite ?E.
  - apply rep_upd; [done|done|]. intros x. apply Hf.
  - intros x Hx Hne. by erewrite proc_upd_ne.
  - intros c Hc Ec. unfold on_cpu, leaving. rewrite E. fold st. destruct (H1 c Hc Ec); [by left|by right].
  - intros c Hc Ei. rewrite E2. split; [|by apply (H2 c)].
    destruct (i_idle _ _ _ _ _ I c Hc) as (_ & P0 & _). by rewrite Ei in P0.
  - fold st. rewrite E2. apply H3.
  - intros q Hq Hin. fold st. destruct H4 as [? Hd]; [by exists q|]. split; [done|].
    intros Hnd. destruct Hd as [?|Hd]; [done|].
    rewrite (i_prio _ _ _ _ _ I p q Hq Hin Hd). unfold queue_of. by rewrite E3.
  - done.
  - intros [Hd Hrp]%slot_free_true. by apply H5.
  - intros HF. destruct (i_fresh _ _ _ _ _ I p HF) as (V & P1 & P2 & P4 & P5 & P6).
    pose proof (H6 HF). unfold fresh. rewrite E, E2, E4. done.
Qed.

(** Taking a process off its queue. *)
Lemma sinv_without K F L (K' : Z → Prop) s s' Q p :
  sinv K F L s Q → valid_proc p → rep s' (without Q p) → same_but_next s s' →
  (∀ x, K x → x ≠ p → K' x) →
  (state (proc s p) = PROC_READY ∨ state (proc s p) = PROC_BLOCKED → K' p) →
  (∀ c, valid_cpu s c → cur s c = p → state (proc s p) = PROC_RUNNING ∨ state (proc s p) = PROC_DEAD) →
  sinv K' F L s' (without Q p).
Proof.
  intros I Hp Hr' Hs HK HKp Hc.
  pose proof (same_info _ _ _ Hs Hp) as E. pose proof (info_state _ _ E) as Es.
  assert (Hn : ¬ linked (without Q p) p) by (rewrite without_linked; tauto).
  eapply (sinv_change K F L); try done; rewrite ?Es, ?(info_pid _ _ E), ?(info_sw _ _ E), ?(info_free _ _ E).
  - apply Hs.
  - intros x Hx _. by apply same_info.
  - intros q x Hq Hne. unfold without. rewrite list_elem_of_filter. naive_solver.
  - intros c Hc0 Ec. left. unfold on_cpu. rewrite Es. split; [by eapply Hc|done].
  - intros c Hc0 Ei. destruct (i_idle _ _ _ _ _ I c Hc0) as (_ & ? & ?). by rewrite Ei in *.
  - intros Hst. split; [by apply I|right; auto].
  - intros q Hq Hin. destruct Hn. by exists q.
  - done.
  - intros Hfr. destruct (i_free _ _ _ _ _ I p Hp Hfr) as (_ & ? & ?). done.
  - intros HF. destruct (i_fresh _ _ _ _ _ I p HF) as (V & P1 & P2 & P4 & P5 & P6).
    unfold fresh. rewrite Es, (info_pid _ _ E), (info_sw _ _ E).
    split_and!; try done. intros c. unfold valid_cpu, cur, cpu. destruct Hs as (_ & -> & _). apply P6.
Qed.

Lemma sinv_dequeue K F L (K' : Z → Prop) s Q p :
  sinv K F L s Q → valid_proc p → (∀ x, K x → x ≠ p → K' x) →
  (state (proc s p) = PROC_READY ∨ state (proc s p) = PROC_BLOCKED → K' p) →
  (∀ c, valid_cpu s c → cur s c = p → state (proc s p) = PROC_RUNNING ∨ state (proc s p) = PROC_DEAD) →
  sinv K' F L (ready_dequeue s p) (without Q p) ∧ same_but_next s (ready_dequeue s p).
Proof.
  intros I Hp HK HKp Hc. destruct (ready_dequeue_rep s Q p (i_rep _ _ _ _ _ I)) as [Hr' Hs].
  split; [|done]. by eapply sinv_without.
Qed.

(** Making a process READY or BLOCKED and linking it, in one critical section. *)
Lemma sinv_enqueue K F L (F' L' : Z → Prop) s Q p f :
  sinv K F L s Q → valid_proc p →
  (∀ x, next (f x) = next x ∧ pid (f x) = pid x ∧ switching (f x) = switching x) →
  pid (proc s p) ≠ 0 →
  state (f (proc s p)) = PROC_READY ∨ state (f (proc s p)) = PROC_BLOCKED →
  (linked Q p → state (proc s p) ≠ PROC_DEAD ∧ priority (f (proc s p)) = priority (proc s p)) →
  (∀ c, valid_cpu s c → cur s c = p → L' c) → (∀ c, L c → L' c) →
  (∀ x, F' x → F x) → ¬ F' p →
  let s1 := upd s p f in
  sinv K F' L' (ready_enqueue s1 p) (enqueued Q (queue_of (proc s1 p)) p) ∧
  same_but_next s1 (ready_enqueue s1 p).
Proof.
  intros I Hp Hf Hpid Hst Hlk Hcp HL HF HFp s1. pose proof (i_rep _ _ _ _ _ I) as Hr.
  assert (E : proc s1 p = f (proc s p)) by (by eapply proc_upd_eq).
  destruct (Hf (proc s p)) as (E1 & E2 & E3).
  assert (Hr1 : rep s1 Q) by (apply rep_upd; [done|done|]; intros x; apply Hf).
  pose proof (queue_of_range (proc s1 p)) as Hq0.
  assert (Hd : ∀ r, 0 ≤ r < SCHED_NPRIO → p ∈ Q r → r = queue_of (proc s1 p)).
  { intros r Hr0 Hin. destruct Hlk as [Hnd Hpr]; [by exists r|].
    rewrite (i_prio _ _ _ _ _ I p r Hr0 Hin Hnd). unfold queue_of. by rewrite E, Hpr. }
  destruct (ready_enqueue_rep s1 Q p Hr1 Hp Hd) as [Hr' Hs]. split; [|done].
  set (q := queue_of (proc s1 p)) in *.
  assert (Hinfo : info (proc (ready_enqueue s1 p) p) = info (f (proc s p))) by (rewrite <- E; by apply same_info).
  pose proof (info_state _ _ Hinfo) as Es.
  assert (Hl : linked (enqueued Q q p) p) by (rewrite enqueued_linked by done; by right).
  eapply (sinv_change K F L); try done; rewrite ?Es, ?(info_pid _ _ Hinfo), ?(info_sw _ _ Hinfo).
  - rewrite (proj1 (proj2 Hs)). done.
  - intros x Hx Hne. rewrite (same_info s1 _ x Hs Hx). unfold s1. by erewrite proc_upd_ne.
  - intros r x Hr0 Hne. unfold enqueued. destruct (decide (r = q)) as [->|].
    + rewrite setq_eq. case_bool_decide; [done|]. rewrite elem_of_app, list_elem_of_singleton. naive_solver.
    + by rewrite setq_ne.
  - auto.
  - intros c Hc Ec. right. split; [by eapply Hcp|]. unfold leaving. rewrite Es. done.
  - intros c Hc Ei. destruct (i_idle _ _ _ _ _ I c Hc) as (_ & P0 & _). rewrite Ei in P0. congruence.
  - intros _. rewrite E2. split; [done|by left].
  - intros r Hr0 Hin. split; [intros H; rewrite H in Hst; by destruct Hst|]. intros _.
    rewrite (info_queue _ _ Hinfo), <- E. fold q. unfold enqueued in Hin. destruct (decide (r = q)); [done|].
    rewrite setq_ne in Hin by done. by apply Hd.
  - done.
  - intros [Hdd _]%slot_free_true. rewrite Es in Hdd. rewrite Hdd in Hst. by destruct Hst.
Qed.

(** *** Waking *)

Lemma walk_inv (P : sched → Prop) body Q q :
  (∀ s, P s → rep s Q) → 0 ≤ q < SCHED_NPRIO →
  (∀ x s, linked Q x → P s → P (body x s)) →
  ∀ fuel l1 l2 p s, Q q = l1 ++ l2 → chain (nx s) p l2 NULLP → P s → P (walk fuel body p s).
Proof.
  intros HP Hq Hb. induction fuel as [|fuel IH]; intros l1 l2 p s E Hc Hs; simpl; [done|].
  destruct l2 as [|a l2]; simpl in Hc; [by rewrite Hc, Z.eqb_refl|]. destruct Hc as [-> Hc].
  destruct (a =? NULLP); [done|].
  assert (Hl : linked Q a) by (exists q; split; [done|]; rewrite E; apply elem_of_app; right; left).
  pose proof (Hb a s Hl Hs) as Hs'. apply (IH (l1 ++ [a]) l2); [by rewrite <- app_assoc| |done].
  by eapply rep_suffix; [apply HP|..].
Qed.

Lemma walk_queues_inv (P : sched → Prop) body Q :
  (∀ s, P s → rep s Q) → (∀ x s, linked Q x → P s → P (body x s)) →
  ∀ s, P s → P (walk_queues body s).
Proof.
  intros HP Hb s Hs. unfold walk_queues. apply (iter_up_ind (λ _ s, P s)); [done|].
  intros q s' Hq Hs'. rewrite Z2Nat.id in Hq by done. change (0 + SCHED_NPRIO) with SCHED_NPRIO in Hq.
  apply (walk_inv P body Q q HP Hq Hb _ [] (Q q)); [done| |done]. by apply (r_chain _ _ (HP _ Hs')).
Qed.

Lemma linked_valid s Q p : rep s Q → linked Q p → valid_proc p.
Proof. intros Hr (q & Hq & Hin). by apply (r_range _ _ Hr q). Qed.

(** Waking a linked sleeper keeps the invariant. *)
Lemma sinv_wake K F L s Q p f :
  sinv K F L s Q → linked Q p → state (proc s p) = PROC_BLOCKED →
  (∀ x, next (f x) = next x ∧ pid (f x) = pid x ∧ priority (f x) = priority x ∧ switching (f x) = switching x) →
  state (f (proc s p)) = PROC_READY → sinv K F L (upd s p f) Q.
Proof.
  intros I Hl Hb Hf Hst. pose proof (linked_valid s Q p (i_rep _ _ _ _ _ I) Hl) as Hp.
  apply (sinv_upd K F L L s Q p f I Hp Hf); [done|..]; rewrite Hst.
  - intros c Hc Ec. right. destruct (i_oncpu _ _ _ _ _ I c Hc) as [[H _]|[HL _]].
    + rewrite Ec, Hb in H. by destruct H.
    + split; [done|]. split; [by left|done].
  - intros c Hc Ei. destruct (i_idle _ _ _ _ _ I c Hc) as (_ & _ & R). rewrite Ei, Hb in R. done.
  - intros _. split; [|by left]. apply (i_real _ _ _ _ _ I p Hp). by right.
  - intros _. split; [done|right; by rewrite Hb].
  - done.
  - intros HF. destruct (i_fresh _ _ _ _ _ I p HF) as (_ & _ & H & _). by rewrite Hb in H.
Qed.

Lemma wake_sleeper_inv K F L now Q p s : linked Q p → sinv K F L s Q → sinv K F L (wake_sleeper now p s) Q.
Proof.
  intros Hl I. unfold wake_sleeper, sleep_expired. case_if; [|done]. bools.
  apply (sinv_wake K F L s Q p); [done|done|by apply is_state_true|done|done].
Qed.
Lemma wake_waiter_inv K F L ch Q p s : linked Q p → sinv K F L s Q → sinv K F L (wake_waiter ch p s) Q.
Proof.
  intros Hl I. unfold wake_waiter, waiting_on. case_if; [|done]. bools.
  apply (sinv_wake K F L s Q p); [done|done|by apply is_state_true|done|done].
Qed.

Lemma wake_sleepers_inv K F L now Q s :
  sinv K F L s Q → sinv K F L (walk_queues (wake_sleeper now) s) Q.
Proof.
  apply (walk_queues_inv (λ s, sinv K F L s Q) _ Q); [by intros s' []|]. intros x s' Hl. by apply wake_sleeper_inv.
Qed.
Lemma wake_waiters_inv K F L ch Q s :
  sinv K F L s Q → sinv K F L (walk_queues (wake_waiter ch) s) Q.
Proof.
  apply (walk_queues_inv (λ s, sinv K F L s Q) _ Q); [by intros s' []|]. intros x s' Hl. by apply wake_waiter_inv.
Qed.

(** Raising or clearing a reschedule request does not concern the invariant. *)
Lemma cpu_upd s c d f :
  valid_cpu s c → 0 ≤ d → cpu (upd_cpu s c f) d = if c =? d then f (cpu s c) else cpu s d.
Proof. intros Hc Hd. unfold cpu, upd_cpu. simpl. by rewrite aget_aset. Qed.

Lemma valid_upd_cpu s c d f : valid_cpu (upd_cpu s c f) d ↔ valid_cpu s d.
Proof. unfold valid_cpu, upd_cpu. simpl. by rewrite zlen_aset. Qed.

Lemma sinv_cpu_flag K F L s Q c f :
  sinv K F L s Q → valid_cpu s c →
  (∀ x, current_proc (f x) = current_proc x ∧ idle_proc (f x) = idle_proc x ∧ saving (f x) = saving x) →
  sinv K F L (upd_cpu s c f) Q.
Proof.
  intros I Hc Hf.
  assert (E : ∀ d, valid_cpu s d → current_proc (cpu (upd_cpu s c f) d) = current_proc (cpu s d) ∧
    idle_proc (cpu (upd_cpu s c f) d) = idle_proc (cpu s d) ∧ saving (cpu (upd_cpu s c f) d) = saving (cpu s d)).
  { intros d Hd. rewrite cpu_upd by (done || apply Hd). destruct (Z.eqb_spec c d) as [<-|]; [apply Hf|done]. }
  destruct I as [H1 H2 H3 H4 H5 H6 H7 H8 H9 H10 H11 H12 H13 H14].
  assert (Ec : ∀ d, valid_cpu s d → cur (upd_cpu s c f) d = cur s d) by (intros; by apply E).
  split; try done; try setoid_rewrite valid_upd_cpu.
  - by apply rep_cpus.
  - intros d Hd. rewrite Ec by done. auto.
  - intros d e Hd He. rewrite !Ec by done. auto.
  - intros d Hd. rewrite Ec by done. apply (H4 d Hd).
  - intros d Hd. destruct (E d Hd) as (_ & -> & _). apply (H5 d Hd).
  - intros d e Hd He. destruct (E d Hd) as (_ & -> & _), (E e He) as (_ & -> & _). rewrite Ec by done. auto.
  - intros p Hp Hs. destruct (H11 p Hp Hs) as (d & Hd & Es). exists d. split; [done|].
    destruct (E d Hd) as (_ & _ & ->). done.
  - intros d Hd. destruct (E d Hd) as (_ & _ & ->). intros Hn. destruct (H12 d Hd Hn) as (V & W & X & Y).
    split_and!; try done; intros e He; destruct (E e He) as (_ & -> & ->) || rewrite Ec by done; auto.
  - intros p Hp Hs. destruct (H13 p Hp Hs) as (V & W & X). split_and!; try done. intros d Hd. rewrite Ec by done. auto.
  - intros p Hp. destruct (H14 p Hp) as (V & W & X & Z1 & Z2 & Z3). unfold fresh. setoid_rewrite valid_upd_cpu.
    split_and!; try done. intros d Hd. rewrite Ec by done. auto.
Qed.

(** *** Choosing *)

Lemma pick_link_spec s Q q fuel :
  rep s Q → 0 ≤ q < SCHED_NPRIO →
  ∀ l1 l2, Q q = l1 ++ l2 → qrd s (lastq (QHead q) l1) = (match l2 with [] => NULLP | a :: _ => a end) →
  (length l2 < fuel)%nat → (∀ x, x ∈ l1 → pickable (proc s x) = false) →
  match pick_link fuel s (lastq (QHead q) l1) with
  | Some pp => ∃ k1 a k2, Q q = k1 ++ a :: k2 ∧ pp = lastq (QHead q) k1 ∧ qrd s pp = a ∧ pickable (proc s a) = true ∧
      ∀ x, x ∈ k1 → pickable (proc s x) = false
  | None => ∀ x, x ∈ Q q → pickable (proc s x) = false
  end.
Proof.
  intros Hr Hq. induction fuel as [|fuel IH]; intros l1 l2 E Hrd Hl Hl1; [lia|]. cbn [pick_link].
  rewrite Hrd. destruct l2 as [|a l2]; [rewrite Z.eqb_refl; intros x; rewrite E, app_nil_r; auto|].
  assert (Ha : 0 ≤ a < SCHED_MAX_PROCS).
  { apply (r_range _ _ Hr q); [done|]. rewrite E. apply elem_of_app. right. left. }
  rewrite (proj2 (Z.eqb_neq a NULLP)) by (unfold NULLP; lia).
  destruct (pickable (proc s a)) eqn:Hp; [by exists l1, a, l2|].
  specialize (IH (l1 ++ [a]) l2). rewrite lastq_snoc in IH.
  rewrite <- app_assoc in IH. specialize (IH E).
  assert (Hn : qrd s (QNext a) = match l2 with [] => NULLP | b :: _ => b end).
  { pose proof (rep_suffix s Q q l1 a l2 Hr Hq E) as Hc. simpl in Hc |- *. unfold nx in Hc.
    destruct l2; simpl in Hc; [done|by destruct Hc]. }
  apply (IH Hn); [simpl in Hl; lia|]. intros x. rewrite elem_of_app, list_elem_of_singleton. intros [?| ->]; auto.
Qed.

Lemma pick_queue_spec s Q q :
  rep s Q → 0 ≤ q < SCHED_NPRIO →
  match pick_link qfuel s (QHead q) with
  | Some pp => ∃ k1 a k2, Q q = k1 ++ a :: k2 ∧ pp = lastq (QHead q) k1 ∧ qrd s pp = a ∧ pickable (proc s a) = true ∧
      ∀ x, x ∈ k1 → pickable (proc s x) = false
  | None => ∀ x, x ∈ Q q → pickable (proc s x) = false
  end.
Proof.
  intros Hr Hq. apply (pick_link_spec s Q q qfuel Hr Hq [] (Q q)); [done| |by eapply rep_length|intros x Hx; by apply elem_of_nil in Hx].
  pose proof (r_chain _ _ Hr q Hq) as Hc. simpl. destruct (Q q); simpl in Hc; [done|by destruct Hc].
Qed.

(** The first pickable process of the most urgent queue that has one. *)
Definition first_pickable (s : sched) (Q : Z → list Z) (q : Z) (k1 : list Z) (a : Z) (k2 : list Z) : Prop :=
  0 ≤ q < SCHED_NPRIO ∧ Q q = k1 ++ a :: k2 ∧ pickable (proc s a) = true ∧
  (∀ x, x ∈ k1 → pickable (proc s x) = false) ∧ (∀ r x, 0 ≤ r < q → x ∈ Q r → pickable (proc s x) = false).

Lemma pick_queued_spec s Q :
  rep s Q →
  match pick_queued s with
  | Some pp => ∃ q k1 a k2, first_pickable s Q q k1 a k2 ∧ pp = lastq (QHead q) k1 ∧ qrd s pp = a
  | None => ∀ x, linked Q x → pickable (proc s x) = false
  end.
Proof.
  intros Hr. unfold pick_queued, first_pickable.
  pose proof (pick_queue_spec s Q 0 Hr ltac:(done)) as H0.
  pose proof (pick_queue_spec s Q 1 Hr ltac:(done)) as H1.
  pose proof (pick_queue_spec s Q 2 Hr ltac:(done)) as H2.
  destruct (pick_link qfuel s (QHead 0)) as [pp|].
  { destruct H0 as (k1 & a & k2 & ? & ? & ? & ? & ?). exists 0, k1, a, k2. split_and!; try done. lia. }
  destruct (pick_link qfuel s (QHead 1)) as [pp|].
  { destruct H1 as (k1 & a & k2 & ? & ? & ? & ? & ?). exists 1, k1, a, k2. split_and!; try done.
    intros r x Hr0 Hx. assert (r = 0) as -> by lia. auto. }
  destruct (pick_link qfuel s (QHead 2)) as [pp|].
  { destruct H2 as (k1 & a & k2 & ? & ? & ? & ? & ?). exists 2, k1, a, k2. split_and!; try done.
    intros r x Hr0 Hx. assert (r = 0 ∨ r = 1) as [->| ->] by lia; auto. }
  intros x (q & Hq & Hx). unfold SCHED_NPRIO in Hq.
  assert (q = 0 ∨ q = 1 ∨ q = 2) as [->|[->| ->]] by lia; auto.
Qed.

Lemma pickable_true p : pickable p = true ↔ state p = PROC_READY ∧ switching p = 0.
Proof. unfold pickable. by rewrite andb_true_iff, is_state_true, Z.eqb_eq. Qed.

Lemma is_live_false s i : is_live s i = false → ∀ c, valid_cpu s c → cur s c ≠ i.
Proof.
  unfold is_live. intros H c Hc E. assert (Ht : existsb (λ c, current_proc c =? i) (cpus s) = true); [|congruence].
  apply existsb_exists. exists (cpu s c). split; [|by apply Z.eqb_eq].
  apply list_elem_of_In. unfold cpu, aget. apply list_elem_of_lookup_2 with (Z.to_nat c).
  apply list_lookup_lookup_total_lt. unfold valid_cpu, zlen in Hc. lia.
Qed.

Lemma is_linked_false s Q i : rep s Q → is_linked s i = false → ¬ linked Q i.
Proof.
  intros Hr H (q & Hq & Hin). destruct (list_elem_of_split _ _ Hin) as (l1 & l2 & E).
  assert (Ht : is_linked s i = true); [|congruence]. unfold is_linked. apply existsb_exists. exists q.
  split; [unfold SCHED_NPRIO in Hq; simpl; lia|]. apply bool_decide_eq_true. rewrite (rep_find s Q Hr q l1 i l2 Hq E). eauto.
Qed.

(** What [pick_next_ready] returns: a process that is READY with its registers
    saved, off the queues and not current on any CPU but possibly [c] itself;
    or the current process. *)
Lemma pick_next_ready_inv K F L s Q c :
  sinv K F L s Q → valid_cpu s c → (∀ d, L d → d = c) →
  let '(n, s') := pick_next_ready s c in
  ∃ Q', cpus s' = cpus s ∧
  ((n = cur s c ∧ sinv K F L s' Q' ∧ (∀ x, linked Q' x → pickable (proc s' x) = false)) ∨
   (valid_proc n ∧ pickable (proc s' n) = true ∧ ¬ linked Q' n ∧ ¬ F n ∧
    (∀ d, valid_cpu s d → cur s d = n → d = c) ∧
    (∀ d, valid_cpu s d → idle_proc (cpu s d) ≠ n) ∧
    (n = cur s c → ∃ s1 Q1, sinv K F L s1 Q1 ∧ rep s' Q' ∧ same_but_next s1 s' ∧
       ∀ q x, 0 ≤ q < SCHED_NPRIO → x ≠ n → (x ∈ Q' q ↔ x ∈ Q1 q)) ∧
    (n ≠ cur s c → sinv (λ x, K x ∨ x = n) F L s' Q'))).
Proof.
  intros I Hc HL. unfold pick_next_ready.
  pose proof (wake_sleepers_inv K F L (ticks s) Q s I) as I1.
  assert (Hcp : cpus (walk_queues (wake_sleeper (ticks s)) s) = cpus s).
  { apply (walk_queues_inv (λ s', sinv K F L s' Q ∧ cpus s' = cpus s) _ Q); [by intros ? [[] _]| |done].
    intros x s' Hl [I' E]. split; [by apply wake_sleeper_inv|]. unfold wake_sleeper. by case_if. }
  set (s1 := walk_queues _ s) in *.
  assert (Hcur : ∀ d, cur s1 d = cur s d) by (intros; unfold cur, cpu; by rewrite Hcp).
  assert (Hvc : ∀ d, valid_cpu s1 d ↔ valid_cpu s d) by (intros; unfold valid_cpu; by rewrite Hcp).
  assert (Hid : ∀ d, cpu s1 d = cpu s d) by (intros; unfold cpu; by rewrite Hcp).
  assert (Hready : ∀ n, valid_proc n → pickable (proc s1 n) = true →
    ¬ F n ∧ ∀ d, valid_cpu s d → idle_proc (cpu s d) ≠ n).
  { intros n Hn [Hst Hsw]%pickable_true. split.
    - intros HF. destruct (i_fresh _ _ _ _ _ I1 n HF) as (_ & _ & H & _). congruence.
    - intros d Hd E. apply Hvc in Hd. destruct (i_idle _ _ _ _ _ I1 d Hd) as (_ & _ & R). rewrite Hid, E in R. congruence. }
  pose proof (pick_queued_spec s1 Q (i_rep _ _ _ _ _ I1)) as Hpk. destruct (pick_queued s1) as [pp|].
  - destruct Hpk as (q & k1 & a & k2 & (Hq & E & Hpa & _) & -> & ->).
    assert (Hla : linked Q a) by (exists q; split; [done|]; rewrite E; apply elem_of_app; right; left).
    pose proof (linked_valid _ _ _ (i_rep _ _ _ _ _ I1) Hla) as Va. destruct (Hready a Va Hpa) as [HFa Hia].
    destruct (unlink_without s1 Q q k1 a k2 (i_rep _ _ _ _ _ I1) Hq E) as [Hr' Hs'].
    exists (without Q a). split; [by rewrite (proj1 (proj2 Hs'))|]. right.
    assert (Hcc : ∀ d, valid_cpu s d → cur s d = a → d = c).
    { intros d Hd Ed. apply HL. apply Hvc in Hd. rewrite <- Hcur in Ed.
      destruct (i_oncpu _ _ _ _ _ I1 d Hd) as [[_ Hnl]|[? _]]; [|done]. rewrite Ed in Hnl. done. }
    split_and!; try done.
    + unfold pickable in *. pose proof (same_info _ _ _ Hs' Va) as Ei. rewrite (info_state _ _ Ei), (info_sw _ _ Ei). done.
    + rewrite without_linked. tauto.
    + intros Ea. exists s1, Q. split_and!; try done.
      intros r x Hr Hx. unfold without. rewrite list_elem_of_filter. tauto.
    + intros Hne. eapply sinv_without; [exact I1|done|done|done|by left|by right|].
      intros d Hd Ed. apply Hvc in Hd. rewrite Hcur in Ed. rewrite (Hcc d Hd Ed) in Ed. by destruct Hne.
  - destruct (rescue s1) as [i|] eqn:Hres.
    + unfold rescue in Hres. apply find_up_Some in Hres as (Hi & Hp & _). bools.
      assert (Vi : valid_proc i) by (unfold valid_proc, SCHED_MAX_PROCS in *; lia).
      destruct (Hready i Vi) as [HFi Hii]; [done|].
      assert (Hnl : ¬ linked Q i) by (by eapply is_linked_false; [apply I1|]).
      assert (Hlive : ∀ d, valid_cpu s d → cur s d ≠ i).
      { intros d Hd. rewrite <- Hcur. apply is_live_false; [done|by apply Hvc]. }
      exists Q. split; [done|]. right. split_and!; try done.
      * intros d Hd Ed. by destruct (Hlive d Hd).
      * intros Ei. by destruct (Hlive c Hc).
      * intros _. destruct I1. split; try done. intros p Hp1 Hst. destruct (i_strand0 p Hp1 Hst); [by left|right; by left].
    + exists Q. split; [done|]. left. split_and!; [by rewrite Hid|done|done].
Qed.

(** *** Switching *)

(** What [switch_to] changes. *)
Lemma switch_to_fields s Q c nxt rf rsp :
  rep s Q → valid_cpu s c → valid_proc nxt → valid_proc (cur s c) → nxt ≠ cur s c →
  let s' := switch_to s c (cur s c) nxt rf rsp in
  proc s' nxt = set_next (set_state (proc s nxt) PROC_RUNNING) NULLP ∧
  proc s' (cur s c) = set_saved_rflags (set_switching (proc s (cur s c)) 1) rf ∧
  (∀ x, valid_proc x → x ≠ nxt → x ≠ cur s c → proc s' x = proc s x) ∧
  (∀ d, valid_cpu s' d ↔ valid_cpu s d) ∧
  (∀ d, valid_cpu s d → d ≠ c → cpu s' d = cpu s d) ∧
  cpu s' c = set_saving (set_rsp0 (set_current (cpu s c) nxt) rsp) (cur s c).
Proof.
  intros Hr Hc Hn Hp Hne s'. pose proof (r_len _ _ Hr) as L. unfold s', switch_to, valid_proc, valid_cpu in *.
  assert (Hpr : ∀ x, 0 ≤ x < SCHED_MAX_PROCS → proc s' x =
    if cur s c =? x then set_saved_rflags (set_switching (if nxt =? x then set_next (set_state (proc s nxt) PROC_RUNNING) NULLP else proc s x) 1) rf
    else if nxt =? x then set_next (set_state (proc s nxt) PROC_RUNNING) NULLP else proc s x).
  { intros x Hx. unfold s', switch_to, upd_cpu, upd, proc, with_cpus, with_procs. simpl.
    rewrite aget_aset by (rewrite ?zlen_aset; lia). destruct (Z.eqb_spec (cur s c) x) as [<-|]; rewrite !aget_aset by lia; done. }
  assert (Hcp : ∀ d, 0 ≤ d → cpu s' d = if c =? d then set_saving (set_rsp0 (set_current (cpu s c) nxt) rsp) (cur s c) else cpu s d).
  { intros d Hd. unfold s', switch_to, upd_cpu, upd, cpu, with_cpus, with_procs. simpl.
    rewrite aget_aset by (rewrite ?zlen_aset; lia). destruct (Z.eqb_spec c d) as [<-|Hcd]; rewrite !aget_aset by lia.
    - by rewrite Z.eqb_refl.
    - by rewrite (proj2 (Z.eqb_neq c d)). }
  fold (switch_to s c (cur s c) nxt rf rsp). fold s'. split_and!.
  - rewrite Hpr by done. rewrite (proj2 (Z.eqb_neq (cur s c) nxt)) by congruence. by rewrite Z.eqb_refl.
  - rewrite Hpr by done. by rewrite Z.eqb_refl, (proj2 (Z.eqb_neq nxt (cur s c))).
  - intros x Hx H1 H2. rewrite Hpr by done.
    by rewrite (proj2 (Z.eqb_neq (cur s c) x)), (proj2 (Z.eqb_neq nxt x)) by congruence.
  - intros d. unfold s', switch_to, upd_cpu, upd, with_cpus, with_procs. simpl. by rewrite !zlen_aset.
  - intros d Hd Hdc. rewrite Hcp by lia. by rewrite (proj2 (Z.eqb_neq c d)) by congruence.
  - rewrite Hcp by lia. by rewrite Z.eqb_refl.
Qed.

Definition none : Z → Prop := λ _, False.

(** A current process has its registers saved: no CPU is leaving it. *)
Lemma cur_saved K F L s Q c : sinv K F L s Q → valid_cpu s c → switching (proc s (cur s c)) = 0.
Proof.
  intros I Hc. destruct (decide (switching (proc s (cur s c)) = 0)) as [|Hs]; [done|].
  pose proof (i_cur _ _ _ _ _ I c Hc) as V. destruct (i_sw _ _ _ _ _ I _ V Hs) as (d & Hd & Es).
  assert (Hn : saving (cpu s d) ≠ NULLP) by (rewrite Es; unfold valid_proc, NULLP in *; lia).
  destruct (i_sav _ _ _ _ _ I d Hd Hn) as (_ & _ & X & _). by destruct (X c Hc).
Qed.

(** Making [nxt] the current process of CPU [c]: a process off the queues,
    current nowhere, with its registers saved.  With [b] the registers of the
    process it replaces are still to be saved. *)
Lemma sinv_dispatch (b : bool) K K' F F' L s s' Q c nxt :
  sinv K' F L s Q → valid_cpu s c → (∀ d, L d → d = c) → (∀ x, K' x → K x ∨ x = nxt) →
  (∀ x, F' x → F x) → ¬ F' nxt →
  valid_proc nxt → ¬ linked Q nxt → switching (proc s nxt) = 0 →
  (∀ d, valid_cpu s d → cur s d ≠ nxt) →
  (∀ d, valid_cpu s d → idle_proc (cpu s d) = nxt → d = c) →
  saving (cpu s c) = NULLP →
  rep s' Q →
  info (proc s' nxt) = info (set_state (proc s nxt) PROC_RUNNING) →
  info (proc s' (cur s c)) = info (set_switching (proc s (cur s c)) (if b then 1 else 0)) →
  (∀ x, valid_proc x → x ≠ nxt → x ≠ cur s c → info (proc s' x) = info (proc s x)) →
  (∀ d, valid_cpu s' d ↔ valid_cpu s d) →
  (∀ d, valid_cpu s d → d ≠ c → cpu s' d = cpu s d) →
  current_proc (cpu s' c) = nxt → idle_proc (cpu s' c) = idle_proc (cpu s c) →
  saving (cpu s' c) = (if b then cur s c else NULLP) →
  sinv K F' none s' Q.
Proof.
  intros I Hc HL HK HF' HnF Hn Hnl Hsw Hncur Hnidle Hsav Hr' En Ep Ex Hvc Hcd Ec1 Ec2 Ec3.
  pose proof (i_cur _ _ _ _ _ I c Hc) as Hp. assert (Hne : nxt ≠ cur s c) by (intros E; by apply (Hncur c Hc)).
  pose proof (cur_saved _ _ _ _ _ c I Hc) as Hcs.
  assert (Einfo : ∀ x, valid_proc x → x ≠ nxt → state (proc s' x) = state (proc s x) ∧ reaped (proc s' x) = reaped (proc s x) ∧
    queue_of (proc s' x) = queue_of (proc s x)).
  { intros x Hx H1. destruct (decide (x = cur s c)) as [->|].
    - by rewrite (info_state _ _ Ep), (info_reaped _ _ Ep), (info_queue _ _ Ep).
    - assert (Ei : info (proc s' x) = info (proc s x)) by (by apply Ex).
      by rewrite (info_state _ _ Ei), (info_reaped _ _ Ei), (info_queue _ _ Ei). }
  assert (Epid : ∀ x, valid_proc x → pid (proc s' x) = pid (proc s x)).
  { intros x Hx. destruct (decide (x = nxt)) as [->|]; [by rewrite (info_pid _ _ En)|].
    destruct (decide (x = cur s c)) as [->|]; [by rewrite (info_pid _ _ Ep)|]. by apply info_pid, Ex. }
  assert (Esw : ∀ x, valid_proc x → x ≠ cur s c → switching (proc s' x) = switching (proc s x)).
  { intros x Hx H1. destruct (decide (x = nxt)) as [->|]; [by rewrite (info_sw _ _ En)|by apply info_sw, Ex]. }
  assert (Eswc : switching (proc s' (cur s c)) = if b then 1 else 0) by (by rewrite (info_sw _ _ Ep)).
  assert (Ecur : ∀ d, valid_cpu s d → cur s' d = if c =? d then nxt else cur s d).
  { intros d Hd. unfold cur at 1. destruct (Z.eqb_spec c d) as [<-|]; [done|by rewrite Hcd]. }
  assert (Eidle : ∀ d, valid_cpu s d → idle_proc (cpu s' d) = idle_proc (cpu s d)).
  { intros d Hd. destruct (decide (d = c)) as [->|]; [done|by rewrite Hcd]. }
  assert (Esav : ∀ d, valid_cpu s d → saving (cpu s' d) = if c =? d then (if b then cur s c else NULLP) else saving (cpu s d)).
  { intros d Hd. destruct (Z.eqb_spec c d) as [<-|]; [done|by rewrite Hcd]. }
  assert (Hstate : state (proc s' nxt) = PROC_RUNNING) by (by rewrite (info_state _ _ En)).
  clear En Ep. split.
  - done.
  - intros d. rewrite Hvc. intros Hd. rewrite Ecur by done. case_if; [done|by apply I].
  - intros d e. rewrite !Hvc. intros Hd He. rewrite !Ecur by done.
    destruct (Z.eqb_spec c d) as [<-|], (Z.eqb_spec c e) as [<-|]; intros E; try done.
    + by destruct (Hncur e He).
    + by destruct (Hncur d Hd).
    + by apply (i_inj _ _ _ _ _ I).
  - intros d. rewrite Hvc. intros Hd. left. rewrite Ecur by done. destruct (Z.eqb_spec c d) as [<-|Hdc].
    + split; [by left|done].
    + destruct (i_oncpu _ _ _ _ _ I d Hd) as [[H1 H2]|[Hl _]]; [|apply HL in Hl; congruence].
      destruct (Einfo (cur s d)) as (E & _); [by apply I|by apply Hncur|]. unfold on_cpu. by rewrite E.
  - intros d. rewrite Hvc. intros Hd. rewrite Eidle by done. destruct (i_idle _ _ _ _ _ I d Hd) as (V & P0 & R).
    rewrite Epid by done. split_and!; try done. destruct (decide (idle_proc (cpu s d) = nxt)) as [->|H]; [done|].
    destruct (Einfo _ V H) as (-> & _). done.
  - intros d e. rewrite !Hvc. intros Hd He. rewrite Ecur, !Eidle by done.
    destruct (Z.eqb_spec c d) as [<-|]; [|by apply I]. intros [E|E]; [by apply (i_idle_inj _ _ _ _ _ I); [| |left]|].
    symmetry. by apply (Hnidle e).
  - intros x Hx. rewrite Epid by done. destruct (decide (x = nxt)) as [->|H]; [rewrite Hstate; by intros []|].
    destruct (Einfo _ Hx H) as (-> & _). by apply I.
  - intros x q Hq Hin. assert (H : x ≠ nxt) by (intros ->; apply Hnl; by exists q).
    destruct (Einfo x (r_range _ _ (i_rep _ _ _ _ _ I) q x Hq Hin) H) as (-> & _ & ->). by apply I.
  - intros x Hl. assert (H : x ≠ nxt) by (intros ->; done).
    destruct (Einfo x (linked_valid _ _ _ (i_rep _ _ _ _ _ I) Hl) H) as (-> & _). by apply I.
  - intros x Hx. destruct (decide (x = nxt)) as [->|H]; [rewrite Hstate; by intros []|].
    destruct (Einfo _ Hx H) as (-> & _). intros Hst. destruct (i_strand _ _ _ _ _ I x Hx Hst) as [|HKx]; [by left|].
    destruct (HK x HKx); [by right|done].
  - intros x Hx Hs. destruct (decide (x = cur s c)) as [->|H].
    + rewrite Eswc in Hs. destruct b; [|done]. exists c. rewrite Hvc, Esav by done. by rewrite Z.eqb_refl.
    + rewrite Esw in Hs by done. destruct (i_sw _ _ _ _ _ I x Hx Hs) as (d & Hd & Es). exists d. rewrite Hvc, Esav by done.
      split; [done|]. destruct (Z.eqb_spec c d) as [<-|]; [|done]. rewrite Es in Hsav. unfold valid_proc, NULLP in *. lia.
  - intros d. rewrite Hvc. intros Hd. rewrite Esav by done. destruct (Z.eqb_spec c d) as [<-|Hdc].
    + destruct b; [|done]. intros _. split_and!; [done|by rewrite Eswc|..]; intros e; rewrite Hvc; intros He.
      * rewrite Ecur by done. destruct (Z.eqb_spec c e) as [<-|]; [done|]. intros E. by apply (i_inj _ _ _ _ _ I) in E.
      * rewrite Esav, Eidle by done. destruct (Z.eqb_spec c e) as [<-|]; [done|]. intros [E|E].
        -- assert (Hs : saving (cpu s e) ≠ NULLP) by (rewrite E; unfold valid_proc, NULLP in *; lia).
           destruct (i_sav _ _ _ _ _ I e He Hs) as (_ & _ & X & _). by destruct (X c Hc).
        -- symmetry. apply (i_idle_inj _ _ _ _ _ I); [done|done|by right].
    + intros Hs. destruct (i_sav _ _ _ _ _ I d Hd Hs) as (V & W & X & Y).
      split_and!; [done| |intros e; rewrite Hvc; intros He..].
      * rewrite Esw; [done|done|]. intros E. by destruct (X c Hc).
      * rewrite Ecur by done. destruct (Z.eqb_spec c e) as [<-|]; [|by apply X]. intros E. by rewrite <- E in W.
      * rewrite Esav, Eidle by done. destruct (Z.eqb_spec c e) as [<-|]; [|by apply Y].
        intros [E|E]; [|by apply Y; [|right]]. destruct b; [by destruct (X c Hc)|congruence].
  - intros x Hx [Hd Hrp]%slot_free_true. destruct (decide (x = nxt)) as [->|H]; [by rewrite Hstate in Hd|].
    destruct (Einfo _ Hx H) as (E1 & E2 & _). rewrite E1 in Hd. rewrite E2 in Hrp.
    destruct (i_free _ _ _ _ _ I x Hx) as (P1 & P2 & P3); [by apply slot_free_true|]. split_and!.
    + done.
    + rewrite Esw; [done|done|]. intros ->. by apply (P3 c).
    + intros d. rewrite Hvc. intros Hdv. rewrite Ecur by done. case_if; [congruence|by apply P3].
  - intros x HF. destruct (i_fresh _ _ _ _ _ I x (HF' x HF)) as (V & P1 & P2 & P4 & P5 & P6).
    assert (Hxn : x ≠ nxt) by (by intros ->). assert (Hxc : x ≠ cur s c) by (intros E; by apply (P6 c)).
    destruct (Einfo x V Hxn) as (E1 & E2 & _). unfold fresh. rewrite E1, Epid, Esw by done.
    split_and!; try done. intros d. rewrite Hvc. intros Hd. rewrite Ecur by done. case_if; [congruence|by apply P6].
Qed.

Lemma sinv_switch K K' F L s Q c nxt rf rsp :
  sinv K' F L s Q → valid_cpu s c → (∀ d, L d → d = c) → (∀ x, K' x → K x ∨ x = nxt) →
  valid_proc nxt → ¬ linked Q nxt → switching (proc s nxt) = 0 → ¬ F nxt →
  (∀ d, valid_cpu s d → cur s d ≠ nxt) →
  (∀ d, valid_cpu s d → idle_proc (cpu s d) = nxt → d = c) →
  saving (cpu s c) = NULLP →
  sinv K F none (switch_to s c (cur s c) nxt rf rsp) Q.
Proof.
  intros I Hc HL HK Hn Hnl Hsw HnF Hncur Hnidle Hsav.
  pose proof (i_cur _ _ _ _ _ I c Hc) as Hp. assert (Hne : nxt ≠ cur s c) by (intros E; by apply (Hncur c Hc)).
  destruct (switch_to_fields s Q c nxt rf rsp (i_rep _ _ _ _ _ I) Hc Hn Hp Hne) as (En & Ep & Ex & Hvc & Hcd & Ecc).
  apply (sinv_dispatch true K K' F F L s _ Q c nxt); try done.
  - unfold switch_to, upd_cpu. apply rep_cpus, rep_upd; [|done|done]. apply rep_cpus, rep_upd_unlinked; [apply I|done|done].
  - by rewrite En.
  - by rewrite Ep.
  - intros x Hx H1 H2. by rewrite Ex.
  - by rewrite Ecc.
  - by rewrite Ecc.
  - by rewrite Ecc.
Qed.

(** The first process takes the boot CPU without a [context_switch]. *)
Lemma adopt_current_inv K F s Q c p :
  sinv K F none s Q → valid_cpu s c → saving (cpu s c) = NULLP → F p →
  ∃ Q', sinv K (λ x, F x ∧ x ≠ p) none (sched_adopt_current s c p) Q' ∧
    zlen (cpus (sched_adopt_current s c p)) = zlen (cpus s) ∧ cur (sched_adopt_current s c p) c = p.
Proof.
  intros I Hc Hsav HF. destruct (i_fresh _ _ _ _ _ I p HF) as (A & B & C & E & G & H).
  unfold sched_adopt_current. pose proof (i_rep _ _ _ _ _ I) as Hr.
  set (s1 := upd s p (λ x, set_state x PROC_RUNNING)). set (s2 := upd_cpu s1 c (λ x, set_current x p)).
  assert (Hc1 : valid_cpu s1 c) by done.
  assert (Hr2 : rep s2 Q) by (by apply rep_cpus, rep_upd).
  destruct (ready_dequeue_rep s2 Q p Hr2) as [Hr3 Hs3].
  assert (EQ : ∀ q, 0 ≤ q < SCHED_NPRIO → Q q = without Q p q).
  { intros q Hq. symmetry. apply filter_notin. intros Hin. apply E. by exists q. }
  apply (rep_ext _ _ Q) in Hr3; [|done].
  assert (Ecpu : ∀ d, valid_cpu s d → cpu (ready_dequeue s2 p) d = if c =? d then set_current (cpu s c) p else cpu s d).
  { intros d Hd. unfold cpu at 1. destruct Hs3 as (_ & -> & _). fold (cpu s2 d). unfold s2. rewrite cpu_upd by (done || apply Hd). done. }
  assert (Einf : ∀ x, valid_proc x → info (proc (ready_dequeue s2 p) x) = info (proc s1 x)) by (intros x Hx; exact (same_info s2 _ x Hs3 Hx)).
  pose proof (Ecpu c Hc) as Ecc. rewrite Z.eqb_refl in Ecc.
  exists Q. split_and!.
  - apply (sinv_dispatch false K K F (λ x, F x ∧ x ≠ p) none s _ Q c p); try done.
    + by left.
    + by intros x [].
    + by intros [].
    + intros d Hd Ei. destruct (i_idle _ _ _ _ _ I d Hd) as (_ & P0 & _). by rewrite Ei in P0.
    + rewrite Einf by done. unfold s1. by erewrite proc_upd_eq.
    + pose proof (cur_saved _ _ _ _ _ c I Hc) as Hcs. rewrite Einf by (by apply I). unfold s1.
      erewrite proc_upd_ne; [|done|done|by apply I|by apply H]. unfold info. simpl. by rewrite Hcs.
    + intros x Hx H1 H2. rewrite Einf by done. unfold s1. by erewrite proc_upd_ne.
    + intros d. unfold valid_cpu. destruct Hs3 as (_ & -> & _). unfold s2, upd_cpu. simpl. by rewrite zlen_aset.
    + intros d Hd Hdc. rewrite Ecpu by done. by rewrite (proj2 (Z.eqb_neq c d)) by congruence.
    + by rewrite Ecc.
    + by rewrite Ecc.
    + by rewrite Ecc.
  - destruct Hs3 as (_ & -> & _). unfold s2, upd_cpu. simpl. by rewrite zlen_aset.
  - unfold cur. by rewrite Ecc.
Qed.

(** Nobody is in the middle of leaving any more. *)
Lemma sinv_settle K F L s Q :
  sinv K F L s Q → (∀ d, valid_cpu s d → L d → on_cpu s Q (cur s d)) → sinv K F none s Q.
Proof.
  intros [] H. split; try done. intros d Hd. left. destruct (i_oncpu0 d Hd) as [?|[HL _]]; [done|by apply H].
Qed.

(** The current process, READY again, goes on running. *)
Lemma sinv_adopt K F L s1 Q1 s Q c :
  sinv K F L s1 Q1 → valid_cpu s1 c → (∀ d, L d → d = c) → rep s Q → same_but_next s1 s →
  (∀ q x, 0 ≤ q < SCHED_NPRIO → x ≠ cur s1 c → (x ∈ Q q ↔ x ∈ Q1 q)) →
  state (proc s (cur s1 c)) = PROC_READY →
  sinv K F none (upd (ready_dequeue s (cur s1 c)) (cur s1 c) (λ x, set_state x PROC_RUNNING)) (without Q (cur s1 c)).
Proof.
  intros I Hc HL Hr Hs HQ Hst. pose proof (i_cur _ _ _ _ _ I c Hc) as Hp. set (p := cur s1 c) in *.
  destruct (ready_dequeue_rep s Q p Hr) as [Hr' Hs'].
  assert (Hss : same_but_next s1 (ready_dequeue s p)) by (by transitivity s).
  set (s2 := ready_dequeue s p) in *. set (s3 := upd s2 p _).
  assert (E : proc s3 p = set_state (proc s2 p) PROC_RUNNING) by (by eapply proc_upd_eq).
  assert (Hn : ¬ linked (without Q p) p) by (rewrite without_linked; tauto).
  assert (Hst1 : state (proc s1 p) = PROC_READY) by (by rewrite <- (same_state _ _ _ Hs Hp)).
  assert (Hsw : switching (proc s2 p) = switching (proc s1 p)) by (by apply info_sw, same_info).
  assert (Hon : on_cpu s3 (without Q p) p) by (split; [left; by rewrite E|done]).
  eapply sinv_settle; [eapply (sinv_change K F L K F L s1 Q1 s3 (without Q p) p); try done|]; rewrite ?E; try done.
  - by apply rep_upd.
  - apply Hss.
  - intros x Hx Hne. unfold s3. erewrite proc_upd_ne by done. by apply same_info.
  - intros q x Hq Hne. unfold without. rewrite list_elem_of_filter, HQ by done. tauto.
  - intros d Hd Ed. by left.
  - intros d Hd Ei. destruct (i_idle _ _ _ _ _ I d Hd) as (_ & _ & R). rewrite Ei in R. congruence.
  - by intros [].
  - intros q Hq Hin. destruct Hn. by exists q.
  - intros HF. destruct (i_fresh _ _ _ _ _ I p HF) as (_ & _ & H & _). congruence.
  - intros d Hd HLd. rewrite (HL d HLd). unfold cur, cpu. simpl. destruct Hss as (_ & -> & _). fold (cpu s1 c) (cur s1 c) p. done.
Qed.

(** The idle process of a CPU can take over from a real process. *)
Lemma idle_takes_over K F L s Q c :
  sinv K F L s Q → valid_cpu s c → saving (cpu s c) = NULLP → pid (proc s (cur s c)) ≠ 0 →
  let i := idle_proc (cpu s c) in
  valid_proc i ∧ ¬ linked Q i ∧ switching (proc s i) = 0 ∧ ¬ F i ∧ (∀ d, valid_cpu s d → cur s d ≠ i) ∧
  (∀ d, valid_cpu s d → idle_proc (cpu s d) = i → d = c).
Proof.
  intros I Hc Hsav Hpid i. destruct (i_idle _ _ _ _ _ I c Hc) as (V & P0 & R). fold i in V, P0, R. split_and!.
  - done.
  - intros Hl. by apply (i_queued _ _ _ _ _ I i Hl).
  - destruct (decide (switching (proc s i) = 0)) as [|Hs]; [done|].
    destruct (i_sw _ _ _ _ _ I i V Hs) as (d & Hd & Es).
    assert (Hs0 : saving (cpu s d) ≠ NULLP) by (rewrite Es; unfold valid_proc, NULLP in *; lia).
    destruct (i_sav _ _ _ _ _ I d Hd Hs0) as (_ & _ & _ & Y).
    assert (c = d) as <- by (apply Y; [done|right; by rewrite Es]). done.
  - intros HF. by destruct (i_fresh _ _ _ _ _ I i HF) as (_ & ? & _).
  - intros d Hd E. assert (d = c) as -> by (apply (i_idle_inj _ _ _ _ _ I d c Hd Hc); by right). by rewrite E in Hpid.
  - intros d Hd E. apply (i_idle_inj _ _ _ _ _ I d c Hd Hc). by left.
Qed.

(** What a yield does to the CPU: nothing, or a switch away from the current
    process. *)
Definition yield_cpu (s s' : sched) (c : Z) (out : yield_out) : Prop :=
  zlen (cpus s') = zlen (cpus s) ∧
  match out with
  | YReturn => cpus s' = cpus s ∧ state (proc s' (cur s c)) ≠ PROC_READY ∧ state (proc s' (cur s c)) ≠ PROC_BLOCKED
  | YSwitch from to => from = cur s c ∧ to ≠ from ∧ cur s' c = to ∧ saving (cpu s' c) = from ∧
      state (proc s' to) = PROC_RUNNING ∧ switching (proc s' to) = 0
  end.

(** Reduces a yield that switches to [sinv_switch]. *)
Lemma sinv_switch_out K K' F L s0 s Q c nxt rf rsp :
  sinv K' F L s Q → cpus s = cpus s0 → valid_cpu s c → (∀ d, L d → d = c) → (∀ x, K' x → K x ∨ x = nxt) →
  valid_proc nxt → ¬ linked Q nxt → switching (proc s nxt) = 0 → ¬ F nxt →
  (∀ d, valid_cpu s d → cur s d ≠ nxt) → (∀ d, valid_cpu s d → idle_proc (cpu s d) = nxt → d = c) →
  saving (cpu s c) = NULLP →
  let s' := switch_to s c (cur s c) nxt rf rsp in
  sinv K F none s' Q ∧ yield_cpu s0 s' c (YSwitch (cur s c) nxt).
Proof.
  intros I Ecp Hc HL HK Hn Hnl Hsw HnF Hncur Hnidle Hsav s'. split; [by eapply sinv_switch|].
  assert (Hne : nxt ≠ cur s c) by (intros E; by apply (Hncur c Hc)).
  destruct (switch_to_fields s Q c nxt rf rsp (i_rep _ _ _ _ _ I) Hc Hn (i_cur _ _ _ _ _ I c Hc) Hne) as (En & Ep & _ & Hvc & _ & Ecc).
  fold s' in En, Ep, Hvc, Ecc. unfold yield_cpu. split_and!.
  - unfold s', switch_to, upd_cpu, upd, with_cpus, with_procs. simpl. by rewrite !zlen_aset, Ecp.
  - unfold cur, cpu. by rewrite Ecp.
  - done.
  - unfold cur. by rewrite Ecc.
  - by rewrite Ecc.
  - by rewrite En.
  - by rewrite En.
Qed.

Lemma on_cpu_settled s Q p : on_cpu s Q p → state (proc s p) ≠ PROC_READY ∧ state (proc s p) ≠ PROC_BLOCKED.
Proof. intros [[->| ->] _]; done. Qed.

(** Staying on the current process when it is on its CPU. *)
Lemma sinv_stay K F L s Q s0 c :
  sinv K F L s Q → cpus s = cpus s0 → valid_cpu s c → (∀ d, L d → d = c) →
  state (proc s (cur s c)) ≠ PROC_READY → state (proc s (cur s c)) ≠ PROC_BLOCKED →
  sinv K F none s Q ∧ yield_cpu s0 s c YReturn.
Proof.
  intros I E Hc HL H1 H2. split; [|by unfold yield_cpu, cur, cpu in *; rewrite <- E].
  eapply sinv_settle; [done|]. intros d Hd HLd. rewrite (HL d HLd).
  destruct (i_oncpu _ _ _ _ _ I c Hc) as [?|[_ [[?|?] _]]]; done.
Qed.

Lemma yield_locked_inv K F L s Q c rf :
  sinv K F L s Q → valid_cpu s c → (∀ d, L d → d = c) → saving (cpu s c) = NULLP →
  let '(out, s') := sched_yield_locked s c rf in
  ∃ Q', sinv K F none s' Q' ∧ yield_cpu s s' c out.
Proof.
  intros I Hc HL Hsav. unfold sched_yield_locked. fold (cur s c).
  pose proof (i_cur _ _ _ _ _ I c Hc) as Hp.
  rewrite (proj2 (Z.eqb_neq (cur s c) NULLP)) by (unfold valid_proc, NULLP in *; lia).
  pose proof (pick_next_ready_inv K F L s Q c I Hc HL) as Hpk.
  destruct (pick_next_ready s c) as [n s']. destruct Hpk as (Q' & Ecp & Hpk).
  assert (Ecpu : ∀ d, cpu s' d = cpu s d) by (intros; unfold cpu; by rewrite Ecp).
  assert (Ecur : ∀ d, cur s' d = cur s d) by (intros; unfold cur; by rewrite Ecpu).
  assert (Hv : ∀ d, valid_cpu s' d ↔ valid_cpu s d) by (intros; unfold valid_cpu; by rewrite Ecp).
  assert (Hc' : valid_cpu s' c) by (by apply Hv).
  assert (Hadopt : ∀ s1 Q1, sinv K F L s1 Q1 → rep s' Q' → same_but_next s1 s' → (∀ q x, 0 ≤ q < SCHED_NPRIO → x ≠ cur s c → (x ∈ Q' q ↔ x ∈ Q1 q)) →
    state (proc s' (cur s c)) = PROC_READY →
    ∃ Q', sinv K F none (upd (ready_dequeue s' (cur s c)) (cur s c) (λ x, set_state x PROC_RUNNING)) Q' ∧
      yield_cpu s (upd (ready_dequeue s' (cur s c)) (cur s c) (λ x, set_state x PROC_RUNNING)) c YReturn).
  { intros s1 Q1 I1 Hr Hs1 HQ1 Hst1.
    assert (Ec1 : cur s1 c = cur s c) by (rewrite <- Ecur; unfold cur, cpu; destruct Hs1 as (_ & -> & _); done).
    assert (Hc1 : valid_cpu s1 c) by (unfold valid_cpu; destruct Hs1 as (_ & <- & _); done).
    pose proof (sinv_adopt K F L s1 Q1 s' Q' c I1 Hc1 HL Hr Hs1) as HA. rewrite Ec1 in HA. specialize (HA HQ1 Hst1).
    eexists. split; [exact HA|]. destruct (ready_dequeue_rep s' Q' (cur s c) Hr) as [Hr2 (_ & E2 & _)].
    unfold yield_cpu. erewrite proc_upd_eq by done. simpl. rewrite E2, Ecp. done. }
  destruct Hpk as [(-> & I' & Hnone)|(Vn & Hpick & Hnl & HnF & Hnc & Hni & Hcase1 & Hcase2)].
  - rewrite Z.eqb_refl. cbn [andb orb]. rewrite orb_true_r.
    destruct (is_state (state (proc s' (cur s c))) PROC_READY && negb (pid (proc s' (cur s c)) =? 0)) eqn:E1.
    { bools. apply (Hadopt s' Q' I'); [apply I'|done|done|by apply is_state_true]. }
    destruct (is_state (state (proc s' (cur s c))) PROC_RUNNING) eqn:E2.
    { apply is_state_true in E2. exists Q'. apply (sinv_stay K F L s' Q' s c); rewrite ?Ecur, ?E2; done. }
    apply is_state_false in E2.
    case_if; bools.
    + rewrite <- Ecur in *. rewrite <- Ecpu in *.
      assert (Hpid : pid (proc s' (cur s' c)) ≠ 0) by done.
      destruct (idle_takes_over K F L s' Q' c I' Hc' Hsav Hpid) as (V & T1 & T2 & T3 & T4 & T5).
      rewrite (proj2 (Z.eqb_neq (idle_proc (cpu s' c)) NULLP)) by (unfold valid_proc, NULLP in *; lia).
      rewrite (proj2 (Z.eqb_neq (idle_proc (cpu s' c)) (cur s' c))) by (intros E; by apply (T4 c)). cbn [negb andb].
      exists Q'. apply (sinv_switch_out K K F L s s' Q' c); try done. by left.
    + exists Q'. assert (Hns : state (proc s' (cur s' c)) ≠ PROC_READY ∧ state (proc s' (cur s' c)) ≠ PROC_BLOCKED).
      { destruct (i_oncpu _ _ _ _ _ I' c Hc') as [H|[_ [Hst _]]]; [by eapply on_cpu_settled|].
        pose proof (i_real _ _ _ _ _ I' _ (i_cur _ _ _ _ _ I' c Hc') Hst) as Hreal. rewrite Ecur in *.
        rewrite (proj2 (Z.eqb_neq _ _) Hreal) in *. cbn [negb] in *. rewrite ?andb_true_r in *.
        destruct Hst as [Hst|Hst]; rewrite Hst in *; done. }
      apply (sinv_stay K F L s' Q' s c); [done|done|done|done|apply Hns|apply Hns].
  - apply pickable_true in Hpick as [Hst Hsw].
    destruct (decide (n = cur s c)) as [->|Hne].
    + destruct (Hcase1 eq_refl) as (s1 & Q1 & I1 & Hr & Hs1 & HQ1).
      assert (Hpid : pid (proc s' (cur s c)) ≠ 0).
      { rewrite (info_pid _ _ (same_info _ _ _ Hs1 Hp)) by done. apply (i_real _ _ _ _ _ I1); [done|].
        left. by rewrite <- (same_state _ _ _ Hs1 Hp). }
      rewrite Z.eqb_refl, Hst, (proj2 (Z.eqb_neq _ _) Hpid). cbn [andb negb]. change (is_state PROC_READY PROC_READY) with true. cbv iota.
      by apply (Hadopt s1 Q1).
    + specialize (Hcase2 Hne). rewrite (proj2 (Z.eqb_neq n (cur s c))) by done. cbn [andb orb]. rewrite orb_false_r.
      rewrite (proj2 (Z.eqb_neq (pid (proc s' n)) 0)) by (apply (i_real _ _ _ _ _ Hcase2); [done|by left]).
      assert (HK : ∀ x, K x ∨ x = n → K x ∨ x = n) by done.
      destruct (is_state (state (proc s' (cur s c))) PROC_RUNNING && negb (pid (proc s' (cur s c)) =? 0)) eqn:E1.
      * apply andb_true_iff in E1 as [E1%is_state_true E2%negb_true_iff%Z.eqb_neq].
        destruct (sinv_enqueue (λ x, K x ∨ x = n) F L F (λ d, d = c) s' Q' (cur s c) (λ x, set_state x PROC_READY) Hcase2) as [I2 Hs2];
          try done.
        { by left. } 
        { intros Hl. by apply (i_queued _ _ _ _ _ Hcase2) in Hl. }
        { intros d Hd Ed. apply (i_inj _ _ _ _ _ I d c); [by apply Hv|done|]. by rewrite <- Ecur. }
        { intros HF. destruct (i_fresh _ _ _ _ _ I _ HF) as (_ & _ & _ & _ & _ & H). by apply (H c). }
        set (s1 := upd s' (cur s c) _) in *. set (s2 := ready_enqueue s1 (cur s c)) in *.
        assert (Ecs : cpus s2 = cpus s) by (destruct Hs2 as (_ & -> & _); done).
        assert (Ec2 : cur s2 c = cur s c) by (unfold cur, cpu; by rewrite Ecs). rewrite <- Ec2.
        eexists. apply (sinv_switch_out K (λ x, K x ∨ x = n) F (λ d, d = c) s s2 _ c n); try done;
          unfold valid_cpu, cur, cpu in *; rewrite ?Ecs; try done.
        -- rewrite enqueued_linked by apply queue_of_range. intros [?| ->]; done.
        -- rewrite (info_sw _ _ (same_info _ _ _ Hs2 Vn)). unfold s1. erewrite proc_upd_ne by (done || apply Hcase2). done.
        -- intros d Hd E. rewrite (Hnc d Hd E) in E. congruence.
        -- intros d Hd E. by destruct (Hni d Hd).
      * rewrite <- Ecur. exists Q'. apply (sinv_switch_out K (λ x, K x ∨ x = n) F L s s' _ c n); try done.
        -- intros d Hd E. apply Hv in Hd. rewrite Ecur in E. rewrite (Hnc d Hd E) in E. congruence.
        -- intros d Hd E. apply Hv in Hd. rewrite Ecpu in E. by destruct (Hni d Hd).
        -- by rewrite Ecpu.
Qed.

(** *** The other operations *)

Lemma saved_inv K F s Q c :
  sinv K F none s Q → valid_cpu s c → sinv K F none (context_switch_saved s c) Q.
Proof.
  intros I Hc. unfold context_switch_saved. destruct (Z.eqb_spec (saving (cpu s c)) NULLP) as [|Hs]; [done|].
  destruct (i_sav _ _ _ _ _ I c Hc Hs) as (V & W & X & Y). set (p := saving (cpu s c)) in *.
  pose proof (i_rep _ _ _ _ _ I) as Hr. set (s1 := upd s p (λ x, set_switching x 0)).
  set (s' := upd_cpu s1 c (λ x, set_saving x NULLP)).
  assert (Hc1 : valid_cpu s1 c) by done.
  assert (Ep : ∀ x, valid_proc x → proc s' x = if p =? x then set_switching (proc s x) 0 else proc s x).
  { intros x Hx. change (proc s' x) with (proc s1 x). destruct (Z.eqb_spec p x) as [<-|].
    - by eapply proc_upd_eq.
    - by eapply proc_upd_ne. }
  assert (Ecpu : ∀ d, valid_cpu s d → cpu s' d = if c =? d then set_saving (cpu s c) NULLP else cpu s d).
  { intros d Hd. unfold s'. rewrite cpu_upd by (done || apply Hd). done. }
  assert (Hv : ∀ d, valid_cpu s' d ↔ valid_cpu s d) by (intros; apply (valid_upd_cpu s1)).
  assert (Ecur : ∀ d, valid_cpu s d → cur s' d = cur s d ∧ idle_proc (cpu s' d) = idle_proc (cpu s d)).
  { intros d Hd. unfold cur. rewrite Ecpu by done. by destruct (Z.eqb_spec c d) as [<-|]. }
  assert (Esav : ∀ d, valid_cpu s d → saving (cpu s' d) = if c =? d then NULLP else saving (cpu s d)).
  { intros d Hd. rewrite Ecpu by done. by destruct (Z.eqb_spec c d) as [<-|]. }
  assert (Hr' : rep s' Q) by (apply rep_cpus; by apply rep_upd).
  assert (Esame : ∀ x, valid_proc x → state (proc s' x) = state (proc s x) ∧ pid (proc s' x) = pid (proc s x) ∧
    priority (proc s' x) = priority (proc s x) ∧ reaped (proc s' x) = reaped (proc s x)).
  { intros x Hx. rewrite Ep by done. by case_if. }
  assert (Esw : ∀ x, valid_proc x → switching (proc s' x) ≠ 0 → x ≠ p ∧ switching (proc s x) ≠ 0).
  { intros x Hx. rewrite Ep by done. destruct (Z.eqb_spec p x) as [<-|]; [done|]. split; congruence. }
  assert (Esw0 : ∀ x, valid_proc x → switching (proc s x) = 0 → switching (proc s' x) = 0).
  { intros x Hx. rewrite Ep by done. by case_if. }
  assert (Hon : ∀ x, valid_proc x → on_cpu s Q x → on_cpu s' Q x).
  { intros x Hx. unfold on_cpu. destruct (Esame x Hx) as (-> & _). done. }
  clearbody s'. split.
  - done.
  - intros d. rewrite Hv. intros Hd. destruct (Ecur d Hd) as [-> _]. by apply I.
  - intros d e. rewrite !Hv. intros Hd He. destruct (Ecur d Hd) as [-> _], (Ecur e He) as [-> _]. by apply I.
  - intros d. rewrite Hv. intros Hd. destruct (Ecur d Hd) as [-> _]. left. apply Hon; [by apply I|].
    by destruct (i_oncpu _ _ _ _ _ I d Hd) as [|[[] _]].
  - intros d. rewrite Hv. intros Hd. destruct (Ecur d Hd) as [_ ->], (i_idle _ _ _ _ _ I d Hd) as (A & B & C).
    destruct (Esame _ A) as (-> & -> & _). done.
  - intros d e. rewrite !Hv. intros Hd He. destruct (Ecur d Hd) as [-> ->], (Ecur e He) as [_ ->]. by apply I.
  - intros x Hx. destruct (Esame x Hx) as (-> & -> & _). by apply I.
  - intros x q Hq Hin. destruct (Esame x) as (-> & _ & E & _); [by apply (r_range _ _ Hr' q)|].
    unfold queue_of. rewrite E. by apply I.
  - intros x Hl. destruct (Esame x) as (-> & _); [by eapply linked_valid|]. by apply I.
  - intros x Hx. destruct (Esame x Hx) as (-> & _). by apply I.
  - intros x Hx Hsx. destruct (Esw x Hx Hsx) as [Hne Hsx0]. destruct (i_sw _ _ _ _ _ I x Hx Hsx0) as (d & Hd & Es).
    exists d. rewrite Hv, Esav by done. split; [done|]. destruct (Z.eqb_spec c d) as [<-|]; [|done]. by destruct Hne.
  - intros d. rewrite Hv. intros Hd. rewrite Esav by done. destruct (Z.eqb_spec c d) as [<-|Hcd]; [done|].
    intros Hsd. destruct (i_sav _ _ _ _ _ I d Hd Hsd) as (V' & W' & X' & Y'). split_and!; [done| |intros e; rewrite Hv; intros He..].
    + rewrite Ep by done. destruct (Z.eqb_spec p (saving (cpu s d))) as [E|]; [|done]. destruct Hcd. symmetry. apply Y; [done|by left].
    + destruct (Ecur e He) as [-> _]. by apply X'.
    + destruct (Ecur e He) as [_ ->]. rewrite Esav by done. destruct (Z.eqb_spec c e) as [<-|]; [|by apply Y'].
      intros [E|E]; [congruence|]. by apply Y'; [|right].
  - intros x Hx Hf. unfold slot_free in Hf. destruct (Esame x Hx) as (E1 & _ & _ & E2). rewrite E1, E2 in Hf.
    destruct (i_free _ _ _ _ _ I x Hx Hf) as (A & B & C). split_and!; [done|by apply Esw0|].
    intros d. rewrite Hv. intros Hd. destruct (Ecur d Hd) as [-> _]. by apply C.
  - intros x HF. destruct (i_fresh _ _ _ _ _ I x HF) as (A & B & C & E & G & H). unfold fresh.
    destruct (Esame x A) as (-> & -> & _). split_and!; try done; [by apply Esw0|].
    intros d. rewrite Hv. intros Hd. destruct (Ecur d Hd) as [-> _]. by apply H.
Qed.

Lemma walk_queues_cpus K F L body Q s :
  sinv K F L s Q → (∀ x s', linked Q x → sinv K F L s' Q → sinv K F L (body x s') Q ∧ cpus (body x s') = cpus s') →
  sinv K F L (walk_queues body s) Q ∧ cpus (walk_queues body s) = cpus s.
Proof.
  intros I Hb. apply (walk_queues_inv (λ s', sinv K F L s' Q ∧ cpus s' = cpus s) _ Q); [by intros ? [[] _]| |done].
  intros x s' Hl [I' E]. destruct (Hb x s' Hl I') as [? E']. by rewrite E'.
Qed.

Lemma sched_wake_sleepers_inv K F L s Q c :
  sinv K F L s Q → valid_cpu s c → sinv K F L (sched_wake_sleepers s c) Q ∧ zlen (cpus (sched_wake_sleepers s c)) = zlen (cpus s).
Proof.
  intros I Hc. unfold sched_wake_sleepers.
  destruct (walk_queues_cpus K F L (wake_sleeper (ticks s)) Q s I) as [I' E].
  { intros x s' Hl I'. split; [by apply wake_sleeper_inv|]. unfold wake_sleeper. by case_if. }
  case_if; [|by rewrite E]. split; [apply sinv_cpu_flag; [done|unfold valid_cpu in *; by rewrite E|done]|].
  unfold upd_cpu. simpl. by rewrite zlen_aset, E.
Qed.

Lemma sched_wake_chan_inv K F L s Q c ch :
  sinv K F L s Q → valid_cpu s c → sinv K F L (sched_wake_chan s c ch) Q ∧ zlen (cpus (sched_wake_chan s c ch)) = zlen (cpus s).
Proof.
  intros I Hc. unfold sched_wake_chan.
  destruct (walk_queues_cpus K F L (wake_waiter ch) Q s I) as [I' E].
  { intros x s' Hl I'. split; [by apply wake_waiter_inv|]. unfold wake_waiter. by case_if. }
  case_if; [|by rewrite E]. split; [apply sinv_cpu_flag; [done|unfold valid_cpu in *; by rewrite E|done]|].
  unfold upd_cpu. simpl. by rewrite zlen_aset, E.
Qed.

(** Going to sleep: BLOCKED and linked, then the yield. *)
Lemma block_inv K F s Q c f rf :
  sinv K F none s Q → valid_cpu s c → saving (cpu s c) = NULLP → pid (proc s (cur s c)) ≠ 0 →
  (∀ x, next (f x) = next x ∧ pid (f x) = pid x ∧ switching (f x) = switching x ∧ state (f x) = PROC_BLOCKED) →
  let '(out, s') := sched_yield_locked (ready_enqueue (upd s (cur s c) f) (cur s c)) c rf in
  ∃ Q', sinv K F none s' Q' ∧ yield_cpu s s' c out.
Proof.
  intros I Hc Hsav Hpid Hf. pose proof (i_cur _ _ _ _ _ I c Hc) as Hp.
  assert (Hnl : ¬ linked Q (cur s c)) by (by destruct (i_oncpu _ _ _ _ _ I c Hc) as [[]|[[] _]]).
  destruct (sinv_enqueue K F none F (λ d, d = c) s Q (cur s c) f I Hp) as [I' Hs]; try done.
  - intros x. by destruct (Hf x) as (? & ? & ? & ?).
  - right. by apply Hf.
  - intros d Hd Ed. by apply (i_inj _ _ _ _ _ I).
  - intros HF. destruct (i_fresh _ _ _ _ _ I _ HF) as (_ & _ & _ & _ & _ & H). by apply (H c).
  - set (s1 := ready_enqueue _ _) in *. assert (E : cpus s1 = cpus s) by (destruct Hs as (_ & -> & _); done).
    assert (Ec : ∀ d, cur s1 d = cur s d) by (intros; unfold cur, cpu; by rewrite E).
    pose proof (yield_locked_inv K F (λ d, d = c) s1 _ c rf I') as HY. unfold valid_cpu, cpu in HY. rewrite E in HY.
    specialize (HY Hc ltac:(done) Hsav). destruct (sched_yield_locked s1 c rf) as [out s'].
    destruct HY as (Q' & HI & HY). exists Q'. split; [done|]. unfold yield_cpu in *. rewrite E, Ec in HY. done.
Qed.

Lemma sinv_same_info K F L s Q p f :
  sinv K F L s Q → valid_proc p → (∀ x, next (f x) = next x ∧ info (f x) = info x) → sinv K F L (upd s p f) Q.
Proof.
  intros I Hp Hf. pose proof (i_rep _ _ _ _ _ I) as Hr.
  assert (E : info (proc (upd s p f) p) = info (proc s p)) by (erewrite proc_upd_eq by done; apply Hf).
  pose proof (info_state _ _ E) as Es.
  eapply (sinv_change K F L K F L s Q _ Q p); try done;
    rewrite ?Es, ?(info_pid _ _ E), ?(info_sw _ _ E), ?(info_free _ _ E), ?(info_queue _ _ E).
  - apply rep_upd; [done|done|]. intros x. apply Hf.
  - intros x Hx Hne. by erewrite proc_upd_ne.
  - intros c Hc Ec. unfold on_cpu, leaving. rewrite Es. rewrite <- Ec. by apply (i_oncpu _ _ _ _ _ I).
  - intros c Hc Ei. destruct (i_idle _ _ _ _ _ I c Hc) as (_ & ? & ?). by rewrite Ei in *.
  - intros Hst. split; [by apply I|by apply I].
  - intros q Hq Hin. split; [apply (i_queued _ _ _ _ _ I); by exists q|]. by apply I.
  - done.
  - by apply I.
  - intros HF. destruct (i_fresh _ _ _ _ _ I p HF) as (A & B & C & G & H & J).
    unfold fresh. by rewrite Es, (info_pid _ _ E), (info_sw _ _ E).
Qed.

Lemma create_inv K F s Q entry pp pv ks xs :
  sinv K F none s Q →
  let '(i, s') := proc_create s entry pp pv ks xs in
  cpus s' = cpus s ∧
  (i = NULLP ∧ s' = s ∨ sinv K (λ x, F x ∨ x = i) none s' Q ∧ slot_free (proc s i) = true).
Proof.
  intros I. unfold proc_create. destruct (find_up _ _ _) as [i|] eqn:Hf; [|by auto].
  apply find_up_Some in Hf as (Hi & Hfr & _). split; [done|]. right.
  assert (Hv : valid_proc i) by (unfold valid_proc, SCHED_MAX_PROCS in *; lia). split; [|done].
  destruct (i_free _ _ _ _ _ I i Hv Hfr) as (A & B & C). pose proof (proj1 (slot_free_true _) Hfr) as [D _].
  pose proof (i_rep _ _ _ _ _ I) as Hr.
  assert (E : proc (upd s i (λ x, fresh_proc x i entry pp pv ks xs)) i = fresh_proc (proc s i) i entry pp pv ks xs) by (by eapply proc_upd_eq).
  assert (Es : state (proc (upd s i (λ x, fresh_proc x i entry pp pv ks xs)) i) = PROC_DEAD) by (rewrite E; done).
  eapply (sinv_change K F none); try done; rewrite ?Es.
  - by apply rep_upd_unlinked.
  - intros x Hx Hne. by erewrite proc_upd_ne.
  - intros x [?| ->] Hne; done.
  - intros c Hc Ec. by destruct (C c Hc).
  - intros c Hc Ei. destruct (i_idle _ _ _ _ _ I c Hc) as (_ & _ & R). rewrite Ei in R. congruence.
  - by intros [].
  - intros q Hq Hin. destruct A. by exists q.
  - by rewrite E, B.
  - intros _. unfold fresh. rewrite E. simpl. split_and!; try done. lia.
Qed.

Lemma make_ready_inv K F s Q p :
  sinv K F none s Q → F p →
  ∃ Q', sinv K (λ x, F x ∧ x ≠ p) none (proc_make_ready s p) Q' ∧ cpus (proc_make_ready s p) = cpus s.
Proof.
  intros I HF. destruct (i_fresh _ _ _ _ _ I p HF) as (A & B & C & E & G & H). unfold proc_make_ready.
  destruct (sinv_enqueue K F none (λ x, F x ∧ x ≠ p) none s Q p (λ x, set_state x PROC_READY) I A) as [I' Hs]; try done.
  - by left.
  - by intros x [].
  - by intros [].
  - eexists. split; [exact I'|]. destruct Hs as (_ & -> & _). done.
Qed.

Lemma set_priority_inv K F s Q p prio :
  sinv K F none s Q → p = NULLP ∨ valid_proc p → 0 ≤ prio →
  ∃ Q', sinv K F none (proc_set_priority s p prio) Q' ∧ cpus (proc_set_priority s p prio) = cpus s.
Proof.
  intros I Hp0 Hpr. unfold proc_set_priority.
  destruct ((p =? NULLP) || (SCHED_NPRIO <=? prio)) eqn:E0; [by exists Q|]. bools.
  destruct Hp0 as [?|Hp]; [done|]. set (f := λ x, set_priority x prio).
  destruct (is_state (state (proc s p)) PROC_READY || is_state (state (proc s p)) PROC_BLOCKED) eqn:E1; cbn [andb].
  - assert (Hst : state (proc s p) = PROC_READY ∨ state (proc s p) = PROC_BLOCKED) by (by rewrite orb_true_iff, !is_state_true in E1).
    assert (Hnc : ∀ c, valid_cpu s c → cur s c ≠ p).
    { intros c Hc Ec. destruct (i_oncpu _ _ _ _ _ I c Hc) as [[Hc1 _]|[[] _]]. rewrite Ec in Hc1. destruct Hc1, Hst; congruence. }
    assert (HnF : ¬ F p) by (intros HF; destruct (i_fresh _ _ _ _ _ I p HF) as (_ & _ & Hd & _); destruct Hst; congruence).
    pose proof (i_real _ _ _ _ _ I p Hp Hst) as Hpid.
    assert (Hend : ∀ s1 Q1 K1, sinv K1 F none s1 Q1 → same_but_next s s1 → (linked Q1 p → priority (proc s1 p) = prio) →
      (∀ x, K1 x → K x ∨ x = p) →
      ∃ Q', sinv K F none (ready_enqueue (upd s1 p f) p) Q' ∧ cpus (ready_enqueue (upd s1 p f) p) = cpus s).
    { intros s1 Q1 K1 I1 Hs1 Hl1 HK1. pose proof (same_info _ _ _ Hs1 Hp) as Ei. pose proof (info_state _ _ Ei) as Es.
      destruct (sinv_enqueue K1 F none F none s1 Q1 p f I1 Hp) as [I2 Hs2]; try done.
      - by rewrite (info_pid _ _ Ei).
      - simpl. by rewrite Es.
      - intros Hl. split; [rewrite Es; destruct Hst; congruence|]. simpl. symmetry. auto.
      - intros c Hc Ec. assert (Hcc : cpus s1 = cpus s) by apply Hs1. unfold valid_cpu, cur, cpu in *. rewrite Hcc in *. by destruct (Hnc c Hc).
      - eexists. split; [|destruct Hs2 as (_ & -> & _); apply Hs1].
        destruct I2 as [J1 J2 J3 J4 J5 J6 J7 J8 J9 J10 J11 J12 J13 J14]. split; try done. intros x Hx Hsx.
        destruct (J10 x Hx Hsx) as [|HK]; [by left|]. destruct (HK1 x HK) as [| ->]; [by right|].
        left. rewrite enqueued_linked by apply queue_of_range. by right. }
    case_if; bools.
    + destruct (sinv_dequeue K F none (λ x, K x ∨ x = p) s Q p I Hp) as [I1 Hs1]; [auto|by right| |].
      { intros c Hc Ec. by destruct (Hnc c Hc). }
      apply (Hend _ _ _ I1 Hs1); [|done]. rewrite without_linked. tauto.
    + apply (Hend s Q K I); [done|done|by left].
  - rewrite orb_false_iff, !is_state_false in E1. destruct E1 as [S1 S2]. exists Q. split; [|done].
    pose proof (i_rep _ _ _ _ _ I) as Hr. assert (E : proc (upd s p f) p = f (proc s p)) by (by eapply proc_upd_eq).
    assert (Es : state (proc (upd s p f) p) = state (proc s p)) by (by rewrite E).
    eapply (sinv_change K F none K F none s Q _ Q p); try done; rewrite ?Es.
    + by apply rep_upd.
    + intros x Hx Hne. by erewrite proc_upd_ne.
    + intros c Hc Ec. unfold on_cpu, leaving. rewrite Es. rewrite <- Ec. by apply (i_oncpu _ _ _ _ _ I).
    + intros c Hc Ei. destruct (i_idle _ _ _ _ _ I c Hc) as (_ & ? & ?). rewrite E. by rewrite Ei in *.
    + intros [?|?]; done.
    + intros q Hq Hin. assert (Hnr : state (proc s p) ≠ PROC_RUNNING) by (apply (i_queued _ _ _ _ _ I); by exists q).
      split; [done|]. intros Hnd. by destruct (state (proc s p)).
    + by rewrite E.
    + intros Hfr. apply (i_free _ _ _ _ _ I p Hp). apply slot_free_true in Hfr. rewrite E in Hfr. by apply slot_free_true.
    + intros HF. destruct (i_fresh _ _ _ _ _ I p HF) as (A & B & C & G & H5 & J). unfold fresh. by rewrite E.
Qed.

(** The process [proc_by_pid] finds. *)
Lemma proc_by_pid_spec s pid_ :
  let p := proc_by_pid s pid_ in
  p = NULLP ∨ valid_proc p ∧ tgid (proc s p) = pid_ ∧ (state (proc s p) ≠ PROC_DEAD ∨ reaped (proc s p) = false).
Proof.
  unfold proc_by_pid. destruct (find_up _ _ _) as [i|] eqn:Hf; [right|by left]. apply find_up_Some in Hf as (Hi & Hp & _).
  simpl. apply andb_true_iff in Hp as [H1%Z.eqb_eq H2]. unfold valid_proc, SCHED_MAX_PROCS in *. split_and!; [lia|lia|done|].
  apply orb_true_iff in H2 as [H2|H2]; apply negb_true_iff in H2; [left; by apply is_state_false|by right].
Qed.

(** Marking a real process dead and unreaped. *)
Lemma dead_inv K F s Q p f :
  sinv K F none s Q → valid_proc p → pid (proc s p) ≠ 0 →
  (∀ x, next (f x) = next x ∧ pid (f x) = pid x ∧ priority (f x) = priority x ∧ switching (f x) = switching x ∧
        state (f x) = PROC_DEAD ∧ reaped (f x) = false) →
  sinv K F none (upd s p f) Q.
Proof.
  intros I Hp Hpid Hf. destruct (Hf (proc s p)) as (_ & _ & _ & _ & Hd & Hrp).
  apply (sinv_upd K F none none s Q p f I Hp); rewrite ?Hd, ?Hrp; try done.
  - intros x. by destruct (Hf x) as (? & ? & ? & ? & ?).
  - intros c Hc Ec. left. split; [by right|]. rewrite <- Ec. by destruct (i_oncpu _ _ _ _ _ I c Hc) as [[]|[[] _]].
  - intros c Hc Ei. destruct (i_idle _ _ _ _ _ I c Hc) as (_ & P0 & _). by rewrite Ei in P0.
  - by intros [].
  - intros _. split; [done|by left].
Qed.

Lemma proc_kill_find_spec s pid_ :
  proc_kill_find s pid_ = NULLP ∨
  valid_proc (proc_kill_find s pid_) ∧ pid (proc s (proc_kill_find s pid_)) ≠ 0.
Proof.
  unfold proc_kill_find. pose proof (proc_by_pid_spec s pid_) as Hp. case_if; [by left|]. bools.
  destruct Hp as [?|(Hp & _ & _)]; [done|by right].
Qed.

Lemma kill_inv K F s Q c p :
  sinv K F none s Q → valid_cpu s c → valid_proc p → pid (proc s p) ≠ 0 →
  let '(out, s') := proc_kill_locked s c p in
  ∃ Q', cpus s' = cpus s ∧
    match out with
    | KillExit p' => p' = p ∧ sinv (λ x, K x ∨ x = p) F none s' Q'
    | KillSelf p' => p' = p ∧ s' = s ∧ p = cur s c ∧ Q' = Q
    | KillDone => sinv K F none s' Q'
    end.
Proof.
  intros I Hc Hp Hpid. unfold proc_kill_locked.
  case_if; [by exists Q|]. destruct (Z.eqb_spec p (proc_current s c)) as [E|]; [by exists Q|].
  destruct (is_state (state (proc s p)) PROC_RUNNING).
  - exists Q. split; [done|]. by apply dead_inv.
  - destruct (sinv_dequeue K F none (λ x, K x ∨ x = p) s Q p I Hp) as [I1 Hs1]; [auto|by right| |].
    { intros d Hd Ed. destruct (i_oncpu _ _ _ _ _ I d Hd) as [[H1 _]|[[] _]]. by rewrite Ed in H1. }
    eexists. split; [apply Hs1|]. done.
Qed.

Lemma exit_claim_inv K F s Q p :
  sinv K F none s Q → valid_proc p → pid (proc s p) ≠ 0 → sinv K F none (proc_exit_claim s p).2 Q.
Proof. intros I Hp Hpid. unfold proc_exit_claim. case_if; [done|]. cbn [snd]. by apply dead_inv. Qed.

Lemma send_signal_inv K F L s Q kill pid_ sig :
  sinv K F L s Q → (∀ s pid_, sinv K F L s Q → sinv K F L (kill s pid_) Q ∧ cpus (kill s pid_) = cpus s) →
  sinv K F L (proc_send_signal kill s pid_ sig).2 Q ∧ cpus (proc_send_signal kill s pid_ sig).2 = cpus s.
Proof.
  intros I Hk. unfold proc_send_signal. case_if; [done|]. pose proof (proc_by_pid_spec s pid_) as Hp.
  set (p := proc_by_pid s pid_) in *. destruct Hp as [->|(Hp & _ & _)]; [done|].
  case_if; [done|]. case_if; [by apply Hk|]. case_if; [done|]. case_if; [case_if; [by apply Hk|done]|].
  case_if; [by apply Hk|]. split; [|done]. cbn [snd]. by apply sinv_same_info.
Qed.

Lemma exit_release_inv K F s Q c p mapped :
  sinv K F none s Q → valid_proc p → valid_cpu s c →
  sinv K F none (proc_exit_release s c p mapped).2 Q ∧ zlen (cpus (proc_exit_release s c p mapped).2) = zlen (cpus s).
Proof.
  intros I Hp Hc. unfold proc_exit_release.
  set (b1 := negb (clear_tid_addr (proc s p) =? 0) && negb (pml4_virt (proc s p) =? 0) && mapped).
  destruct (if b1 then _ else _) as [e1 s1] eqn:E1.
  assert (H1 : sinv K F none s1 Q ∧ zlen (cpus s1) = zlen (cpus s)).
  { destruct b1; injection E1 as <- <-; [by apply sched_wake_chan_inv|done]. }
  set (s2 := if negb (parent_pid (proc s p) =? 0) then _ else s1).
  assert (H2 : sinv K F none s2 Q ∧ zlen (cpus s2) = zlen (cpus s)).
  { unfold s2. destruct H1 as [I1 Z1]. case_if; [|done].
    destruct (send_signal_inv K F none s1 Q (λ s _, s) (parent_pid (proc s p)) XOS_SIGCHLD I1) as [I2 ->]; done. }
  clearbody s2. clear E1 H1 s1. destruct H2 as [I2 Z2].
  destruct (if negb (pml4_virt (proc s2 p) =? 0) then _ else _) as [e2 s3] eqn:E2.
  assert (H3 : sinv K F none s3 Q ∧ cpus s3 = cpus s2).
  { destruct (negb (pml4_virt (proc s2 p) =? 0)); injection E2 as <- <-; [|done]. split; [|done]. by apply sinv_same_info. }
  destruct H3 as [I3 Z3].
  destruct (if negb (kstack (proc s2 p) =? 0) && negb (p =? proc_current s3 c) then _ else _) as [e3 s4] eqn:E3.
  assert (H4 : sinv K F none s4 Q ∧ cpus s4 = cpus s3).
  { destruct (negb (kstack (proc s2 p) =? 0) && negb (p =? proc_current s3 c)); injection E3 as <- <-; [|done].
    split; [|done]. by apply sinv_same_info. }
  destruct H4 as [I4 Z4]. cbn [snd]. by rewrite Z4, Z3.
Qed.

(** The end of an exit: whatever kill was under way is complete. *)
Lemma exit_unlink_inv K F s Q p :
  sinv K F none s Q → valid_proc p → state (proc s p) = PROC_DEAD →
  ∃ Q', sinv (λ x, K x ∧ x ≠ p) F none (proc_exit_unlink s p) Q' ∧ cpus (proc_exit_unlink s p) = cpus s ∧ ¬ linked Q' p.
Proof.
  intros I Hp Hd.
  destruct (sinv_dequeue K F none (λ x, K x ∧ x ≠ p) s Q p I Hp) as [I1 Hs1]; [done| | |].
  - intros [?|?]; congruence.
  - by right.
  - assert (Hn : ¬ linked (without Q p) p) by (rewrite without_linked; tauto).
    unfold proc_exit_unlink. exists (without Q p). split_and!; [|apply Hs1|done].
    set (s1 := ready_dequeue s p) in *. pose proof (i_rep _ _ _ _ _ I1) as Hr.
    assert (E : proc (upd s1 p (λ x, set_next x NULLP)) p = set_next (proc s1 p) NULLP) by (by eapply proc_upd_eq).
    assert (Es : state (proc s1 p) = PROC_DEAD) by (by rewrite (same_state _ _ _ Hs1 Hp)).
    eapply (sinv_change _ F none _ F none s1 (without Q p) _ (without Q p) p); try done; rewrite ?E; simpl; rewrite ?Es.
    + by apply rep_upd_unlinked.
    + intros x Hx Hne. by erewrite proc_upd_ne.
    + intros c Hc Ec. left. split; [right; by rewrite E|done].
    + intros c Hc Ei. destruct (i_idle _ _ _ _ _ I1 c Hc) as (_ & _ & R). rewrite Ei in R. congruence.
    + by intros [].
    + intros q Hq Hin. destruct Hn. by exists q.
    + done.
    + intros Hfr. destruct (i_free _ _ _ _ _ I1 p Hp) as (_ & ? & ?); [exact Hfr|]. done.
    + intros HF. destruct (i_fresh _ _ _ _ _ I1 p HF) as (A & B & C & G & H & J). unfold fresh. by rewrite E.
Qed.

(** Marking a dead process that no CPU is on as collected, or not. *)
Lemma reap_inv K F s Q p b :
  sinv K F none s Q → valid_proc p → state (proc s p) = PROC_DEAD → ¬ linked Q p → switching (proc s p) = 0 →
  (∀ c, valid_cpu s c → cur s c ≠ p) → sinv K F none (upd s p (λ x, set_reaped x b)) Q.
Proof.
  intros I Hp Hd Hnl Hsw Hnc. apply (sinv_upd K F none none s Q p _ I Hp); simpl; rewrite ?Hd; try done.
  - intros c Hc Ec. by destruct (Hnc c Hc).
  - intros c Hc Ei. destruct (i_idle _ _ _ _ _ I c Hc) as (_ & _ & R). rewrite Ei in R. congruence.
  - by intros [].
Qed.

Lemma sinv_ticks K F L s Q t :
  sinv K F L s Q → sinv K F L (mkSched (procs s) (ready_head s) (cpus s) t) Q.
Proof. intros [[] J2 J3 J4 J5 J6 J7 J8 J9 J10 J11 J12 J13 J14]. by split. Qed.

(** *** Start-up *)

Lemma boot_inv x cr3 kpml4 ks entry xs t :
  saving x = NULLP →
  sinv none none none (sched_init (sched_early_init (mkSched [] [] [x] t)) cr3 kpml4 ks entry xs) (λ _, []).
Proof.
  intros Hsav. set (s := sched_init _ _ _ _ _ _).
  assert (Hlen : zlen (procs s) = SCHED_MAX_PROCS) by reflexivity.
  assert (E0 : info (proc s 0) = (PROC_RUNNING, 0, 0, 0, true)) by reflexivity.
  assert (Ex : ∀ p, valid_proc p → p ≠ 0 → info (proc s p) = (PROC_DEAD, 0, 0, 0, true)).
  { intros p Hp Hne. unfold s, sched_init, with_heads, upd_cpu, with_cpus, upd, with_procs, proc at 1. cbn [procs].
    assert (L : zlen (procs (sched_early_init (mkSched [] [] [x] t))) = SCHED_MAX_PROCS) by reflexivity.
    rewrite aget_aset by (rewrite ?L; unfold valid_proc, SCHED_MAX_PROCS in *; lia). clear L.
    rewrite (proj2 (Z.eqb_neq 0 p)) by congruence. unfold sched_early_init. cbn [procs with_procs].
    unfold aget. rewrite lookup_total_replicate_2 by (unfold valid_proc, SCHED_MAX_PROCS in *; lia). reflexivity. }
  assert (Hc : ∀ c, valid_cpu s c → c = 0).
  { intros c Hc. change (0 ≤ c < 1) in Hc. lia. }
  assert (Ecur : cur s 0 = 0 ∧ idle_proc (cpu s 0) = 0 ∧ saving (cpu s 0) = saving x) by done.
  destruct Ecur as (Ecur & Eidle & Esav).
  assert (Hst : ∀ p, valid_proc p → state (proc s p) ≠ PROC_READY ∧ state (proc s p) ≠ PROC_BLOCKED).
  { intros p Hp. destruct (decide (p = 0)) as [->|Hne]; [done|]. specialize (Ex p Hp Hne). unfold info in Ex. injection Ex. intros _ _ _ _ ->. done. }
  assert (Hsw : ∀ p, valid_proc p → switching (proc s p) = 0).
  { intros p Hp. destruct (decide (p = 0)) as [->|Hne]; [done|]. specialize (Ex p Hp Hne). unfold info in Ex. by injection Ex. }
  assert (Hnl : ∀ p, ¬ linked (λ _, []) p) by (intros p (q & _ & Hin); by apply elem_of_nil in Hin).
  assert (HR : state (proc s 0) = PROC_RUNNING) by done. assert (HP : pid (proc s 0) = 0) by done.
  assert (Hrep : rep s (λ _, [])).
  { split; [done|done| |intros; constructor|intros q r y _ _ Hin; by apply elem_of_nil in Hin|intros q y _ Hin; by apply elem_of_nil in Hin].
    intros q Hq. simpl. unfold SCHED_NPRIO in Hq. assert (q = 0 ∨ q = 1 ∨ q = 2) as [->|[->| ->]] by lia; done. }
  clearbody s. split.
  - done.
  - intros c Hv. rewrite (Hc c Hv), Ecur. done.
  - intros c d H1 H2 _. by rewrite (Hc c H1), (Hc d H2).
  - intros c Hv. left. rewrite (Hc c Hv), Ecur. split; [by left|done].
  - intros c Hv. by rewrite (Hc c Hv), Eidle.
  - intros c d H1 H2 _. by rewrite (Hc c H1), (Hc d H2).
  - intros p Hp Hs. destruct (Hst p Hp), Hs; done.
  - intros p q _ Hin. by apply elem_of_nil in Hin.
  - intros p Hl. by destruct (Hnl p).
  - intros p Hp Hs. destruct (Hst p Hp), Hs; done.
  - intros p Hp Hs. by destruct (Hsw p Hp).
  - intros c Hv. by rewrite (Hc c Hv), Esav, Hsav.
  - intros p Hp Hf. split_and!; [done|by apply Hsw|]. intros c Hv E. rewrite (Hc c Hv), Ecur in E. subst p.
    apply slot_free_true in Hf as [Hf _]. congruence.
  - by intros p [].
Qed.

(** An application processor comes up: a new CPU, then [sched_init_ap] on it. *)
Definition cpu_online (s : sched) (rsp tss : Z) : sched :=
  with_cpus s (cpus s ++ [mkCpu rsp NULLP NULLP tss 0 NULLP]).

Lemma init_ap_inv K F s Q r tss cr3 kpml4 ks entry xs :
  sinv K F none s Q → (∀ x, ¬ F x) →
  is_Some (find_up (λ i, slot_free (proc s i)) 1 (Z.to_nat (SCHED_MAX_PROCS - 1))) →
  sinv K F none (sched_init_ap (cpu_online s r tss) (zlen (cpus s)) cr3 kpml4 ks entry xs) Q.
Proof.
  intros I HnF [i Hf]. unfold sched_init_ap. change (λ i, slot_free (proc (cpu_online s r tss) i)) with (λ i, slot_free (proc s i)). rewrite Hf.
  apply find_up_Some in Hf as (Hi & Hfr & _).
  assert (Vi : valid_proc i) by (unfold valid_proc, SCHED_MAX_PROCS in *; lia).
  destruct (i_free _ _ _ _ _ I i Vi Hfr) as (A & B & C). pose proof (proj1 (slot_free_true _) Hfr) as [D1 D2].
  pose proof (i_rep _ _ _ _ _ I) as Hr. set (n := zlen (cpus s)). set (s0 := cpu_online s r tss).
  assert (Hr0 : rep s0 Q) by (by apply rep_cpus).
  set (f := λ x, idle_of x cr3 kpml4 ks entry xs true). set (s' := upd_cpu _ _ _).
  assert (Ei : proc s' i = f (proc s i)) by exact (proc_upd_eq s0 Q i f Hr0 Vi).
  assert (Ex : ∀ x, valid_proc x → x ≠ i → proc s' x = proc s x) by (intros x Hx Hne; exact (proc_upd_ne s0 Q i f x Hr0 Vi Hx Hne)).
  assert (Hn0 : 0 ≤ n) by (unfold n, zlen; lia).
  assert (Hl0 : zlen (cpus s0) = n + 1) by (unfold s0, cpu_online, n, zlen; simpl; rewrite length_app; simpl; lia).
  assert (Hv : ∀ d, valid_cpu s' d ↔ valid_cpu s d ∨ d = n).
  { intros d. unfold s'. rewrite valid_upd_cpu. unfold valid_cpu. change (cpus (upd s0 i f)) with (cpus s0). rewrite Hl0. fold n. lia. }
  assert (Ecpu : ∀ d, valid_cpu s d → cpu s' d = cpu s d).
  { intros d Hd. unfold s'. rewrite cpu_upd by (unfold valid_cpu in *; change (cpus (upd s0 i f)) with (cpus s0); lia).
    rewrite (proj2 (Z.eqb_neq n d)) by (unfold valid_cpu, n in *; lia).
    change (cpu (upd s0 i f) d) with (cpu s0 d). unfold cpu, s0, cpu_online, aget. simpl.
    rewrite lookup_total_app_l; [done|]. unfold valid_cpu, zlen in Hd. lia. }
  assert (En : cur s' n = i ∧ idle_proc (cpu s' n) = i ∧ saving (cpu s' n) = NULLP).
  { unfold cur, s'. rewrite cpu_upd by (unfold valid_cpu; change (cpus (upd s0 i f)) with (cpus s0); lia). rewrite Z.eqb_refl.
    change (cpu (upd s0 i f) n) with (cpu s0 n). unfold cpu, s0, cpu_online, aget, n, zlen. simpl.
    rewrite Nat2Z.id, lookup_total_app_r, Nat.sub_diag by lia. done. }
  destruct En as (En1 & En2 & En3).
  assert (Ecur : ∀ d, valid_cpu s d → cur s' d = cur s d) by (intros; unfold cur; by rewrite Ecpu).
  assert (Hidle : ∀ d, valid_cpu s d → idle_proc (cpu s d) ≠ i).
  { intros d Hd E. destruct (i_idle _ _ _ _ _ I d Hd) as (_ & _ & R). rewrite E in R. congruence. }
  assert (Hr' : rep s' Q) by (apply rep_cpus; by apply rep_upd_unlinked).
  assert (Esi : state (proc s' i) = PROC_RUNNING) by (by rewrite Ei).
  clearbody s' n. split.
  - done.
  - intros d. rewrite Hv. intros [Hd| ->]; [rewrite Ecur by done; by apply I|by rewrite En1].
  - intros d e. rewrite !Hv. intros [Hd| ->] [He| ->]; rewrite ?En1, ?Ecur by done; intros E; try done.
    + by apply (i_inj _ _ _ _ _ I).
    + by destruct (C d Hd).
    + by destruct (C e He).
  - intros d. rewrite Hv. left. destruct H as [Hd| ->]; rewrite ?En1, ?Ecur by done; [|by split; [left|]].
    destruct (i_oncpu _ _ _ _ _ I d Hd) as [Ho|[[] _]]. unfold on_cpu. rewrite Ex; [done|by apply I|by apply C].
  - intros d. rewrite Hv. intros [Hd| ->]; [|by rewrite En2, Ei].
    rewrite Ecpu by done. destruct (i_idle _ _ _ _ _ I d Hd) as (V & ?). rewrite Ex; [done|done|by apply Hidle].
  - intros d e. rewrite !Hv. intros [Hd| ->] [He| ->]; rewrite ?En1, ?En2, ?Ecur, ?Ecpu by done; try done.
    + by apply I.
    + intros [E|E]; [by destruct (Hidle d Hd)|by destruct (C d Hd)].
    + intros [E|E]; by destruct (Hidle e He).
  - intros x Hx. destruct (decide (x = i)) as [->|]; [rewrite Esi; by intros []|]. rewrite Ex by done. by apply I.
  - intros x q Hq Hin. rewrite Ex; [by apply I|by apply (r_range _ _ Hr q)|]. intros ->. apply A. by exists q.
  - intros x Hl. rewrite Ex; [by apply I|by eapply linked_valid|]. by intros ->.
  - intros x Hx. destruct (decide (x = i)) as [->|]; [rewrite Esi; by intros []|]. rewrite Ex by done. by apply I.
  - intros x Hx. destruct (decide (x = i)) as [->|]; [by rewrite Ei|]. rewrite Ex by done. intros Hs.
    destruct (i_sw _ _ _ _ _ I x Hx Hs) as (d & Hd & E). exists d. rewrite Hv, Ecpu by done. auto.
  - intros d. rewrite Hv. intros [Hd| ->]; [|by rewrite En3]. rewrite Ecpu by done. intros Hs.
    destruct (i_sav _ _ _ _ _ I d Hd Hs) as (V & W & X & Y).
    assert (Hni : saving (cpu s d) ≠ i) by (intros E; rewrite E in W; done).
    split_and!; [done|by rewrite Ex| |]; intros e; rewrite Hv; intros [He| ->]; rewrite ?En1, ?En2, ?En3, ?Ecur, ?Ecpu by done; auto.
    + intros [E|E]; congruence.
  - intros x Hx Hfx. destruct (decide (x = i)) as [->|Hne]; [apply slot_free_true in Hfx as [? _]; congruence|].
    rewrite Ex in Hfx |- * by done. destruct (i_free _ _ _ _ _ I x Hx Hfx) as (P1 & P2 & P3). split_and!; try done.
    intros d. rewrite Hv. intros [Hd| ->]; rewrite ?En1, ?Ecur by done; [by apply P3|congruence].
  - intros x HF. by destruct (HnF x).
Qed.

(** ** Histories

    Between two critical sections a CPU is somewhere in the code.  [w_pend] are
    the processes on which some [proc_kill] has left the lock and is about to call
    [proc_exit]; [w_exits] those on which some [proc_exit] is between its first and
    its last critical section; [w_fresh] the slots returned by [proc_create] whose
    caller has not yet made them ready.  Two CPUs can be at the same place with the
    same slot, so these are lists. *)
Record world := mkWorld { w_sched : sched; w_pend : list Z; w_exits : list Z; w_fresh : list Z }.

Definition tick (s : sched) : sched :=
  mkSched (procs s) (ready_head s) (cpus s) (u64 (ticks s + 1)).

(** CPU [c] executes kernel code and is not inside [context_switch]. *)
Definition active (s : sched) (c : Z) : Prop := valid_cpu s c ∧ saving (cpu s c) = NULLP.

(** What a step does that the rules below speak of. *)
Inductive event :=
  | EvOther
  | EvBlock (c : Z)     (* the current process of [c] goes to sleep *)
  | EvCreate (i : Z)    (* [proc_create] returns the slot [i] *)
  | EvPublish (p : Z)   (* a slot from [proc_create] is made ready, or adopted *)
  | EvReap (p : Z).     (* [proc_waitpid] collects [p] *)

(** One critical section (or one unlocked stretch) of one CPU.  [StKill] acts on
    any slot with a pid: the one [proc_kill_find] returned, however long ago.
    [StReap] is the assignment in [proc_waitpid]: its only test is that the child
    is DEAD and not yet collected.  [StMark] are the assignments of [reaped] to a
    new slot in [proc_clone].  [StExitRelease] and [StExitUnlink] look at no state. *)
Inductive sstep : world → event → world → Prop :=
  | StTick s P E F : sstep (mkWorld s P E F) EvOther (mkWorld (tick s) P E F)
  | StWakeSleepers s P E F c : valid_cpu s c →
      sstep (mkWorld s P E F) EvOther (mkWorld (sched_wake_sleepers s c) P E F)
  | StWakeChan s P E F c ch : valid_cpu s c →
      sstep (mkWorld s P E F) EvOther (mkWorld (sched_wake_chan s c ch) P E F)
  | StYield s P E F c rf : active s c →
      sstep (mkWorld s P E F) EvOther (mkWorld (sched_yield_locked s c rf).2 P E F)
  | StSaved s P E F c : valid_cpu s c →
      sstep (mkWorld s P E F) EvOther (mkWorld (context_switch_saved s c) P E F)
  | StSleep s P E F c ms rf : active s c →
      sstep (mkWorld s P E F) (EvBlock c) (mkWorld (proc_sleep s c ms rf).2 P E F)
  | StBlock s P E F c ch ms rf : active s c →
      sstep (mkWorld s P E F) (EvBlock c) (mkWorld (sched_block_on s c ch ms rf).2 P E F)
  | StUnblock s P E F c : active s c →
      sstep (mkWorld s P E F) EvOther (mkWorld (sched_unblock s c) P E F)
  | StCreate s P E F entry pp pv ks xs i s' : proc_create s entry pp pv ks xs = (i, s') → i ≠ NULLP →
      sstep (mkWorld s P E F) (EvCreate i) (mkWorld s' P E (i :: F))
  | StMark s P E F p b : p ∈ F →
      sstep (mkWorld s P E F) EvOther (mkWorld (upd s p (λ x, set_reaped x b)) P E F)
  | StMakeReady s P E F1 p F2 :
      sstep (mkWorld s P E (F1 ++ p :: F2)) (EvPublish p) (mkWorld (proc_make_ready s p) P E (F1 ++ F2))
  | StAdopt s P E F1 c p F2 : active s c →
      sstep (mkWorld s P E (F1 ++ p :: F2)) (EvPublish p) (mkWorld (sched_adopt_current s c p) P E (F1 ++ F2))
  | StPriority s P E F p prio : p = NULLP ∨ valid_proc p → 0 ≤ prio →
      sstep (mkWorld s P E F) EvOther (mkWorld (proc_set_priority s p prio) P E F)
  | StKill s P E F c p out s' : valid_cpu s c → valid_proc p → pid (proc s p) ≠ 0 →
      proc_kill_locked s c p = (out, s') →
      sstep (mkWorld s P E F) EvOther (mkWorld s' (match out with KillExit p => p :: P | _ => P end) E F)
  | StSignal s P E F pid_ sig :
      sstep (mkWorld s P E F) EvOther (mkWorld (proc_send_signal (λ s _, s) s pid_ sig).2 P E F)
  | StExitSelf s P E F c ok s' : valid_cpu s c → pid (proc s (cur s c)) ≠ 0 →
      proc_exit_claim s (cur s c) = (ok, s') →
      sstep (mkWorld s P E F) EvOther (mkWorld s' P (if ok then cur s c :: E else E) F)
  | StExitKilled s P1 p P2 E F ok s' : proc_exit_claim s p = (ok, s') →
      sstep (mkWorld s (P1 ++ p :: P2) E F) EvOther (mkWorld s' (P1 ++ P2) (if ok then p :: E else E) F)
  | StExitRelease s P E F c p mapped : valid_cpu s c → p ∈ E →
      sstep (mkWorld s P E F) EvOther (mkWorld (proc_exit_release s c p mapped).2 P E F)
  | StExitUnlink s P E1 p E2 F :
      sstep (mkWorld s P (E1 ++ p :: E2) F) EvOther (mkWorld (proc_exit_unlink s p) P (E1 ++ E2) F)
  | StReap s P E F p : valid_proc p → state (proc s p) = PROC_DEAD → reaped (proc s p) = false →
      sstep (mkWorld s P E F) (EvReap p) (mkWorld (upd s p (λ x, set_reaped x true)) P E F).

(** Any step of the code. *)
Definition astep (w w' : world) : Prop := ∃ e, sstep w e w'.

(** A zombie that has left its CPU for good. *)
Definition gone (s : sched) (p : Z) : Prop :=
  is_linked s p = false ∧ switching (proc s p) = 0 ∧ ∀ c, valid_cpu s c → cur s c ≠ p.

(** Four rules the code relies on and does not check:
    - a child is collected only when its last CPU has left it;
    - a slot whose creator is still filling it in is not handed out again (its
      [reaped] is true for a moment in [proc_clone], or if it is collected);
    - a new process is not made ready while a kill of its slot is under way;
    - a process that was killed while running does not go to sleep before it sees
      that.
    [reap_while_running], [late_exit_strands], [killed_before_ready] and
    [slot_created_twice] below break them one by one. *)
Definition orderly (w : world) (e : event) : Prop :=
  let s := w_sched w in
  match e with
  | EvOther => True
  | EvReap p => gone s p
  | EvCreate i => i ∉ w_fresh w
  | EvPublish p => (p ∉ w_pend w) ∧ (p ∉ w_exits w)
  | EvBlock c => state (proc s (cur s c)) ≠ PROC_DEAD
  end.

Definition ostep (w w' : world) : Prop := ∃ e, sstep w e w' ∧ orderly w e.

(** Booting, in the order of [kernel_main]: [sched_early_init], the application
    processors one by one ([smp_init]; each finds a free slot for its idle
    process), then [sched_init] on the boot CPU. *)
Inductive booting : sched → Prop :=
  | BootEarly x t : saving x = NULLP → booting (sched_early_init (mkSched [] [] [x] t))
  | BootAp s r tss cr3 kpml4 ks entry xs : booting s →
      is_Some (find_up (λ i, slot_free (proc s i)) 1 (Z.to_nat (SCHED_MAX_PROCS - 1))) →
      booting (sched_init_ap (cpu_online s r tss) (zlen (cpus s)) cr3 kpml4 ks entry xs).

Definition booted (w : world) : Prop :=
  ∃ s cr3 kpml4 ks entry xs, booting s ∧ w = mkWorld (sched_init s cr3 kpml4 ks entry xs) [] [] [].

(** What is known of the processes some CPU is about to end, or ending. *)
Record ending (s : sched) (P E : list Z) : Prop := {
  e_pend : ∀ x, x ∈ P → valid_proc x ∧ pid (proc s x) ≠ 0 ∧ (exiting (proc s x) ≠ 0 → state (proc s x) = PROC_DEAD);
  e_exits : ∀ x, x ∈ E → valid_proc x ∧ state (proc s x) = PROC_DEAD;
}.

Definition winv (w : world) : Prop :=
  NoDup (w_fresh w) ∧ ending (w_sched w) (w_pend w) (w_exits w) ∧
  ∃ Q, sinv (λ x, x ∈ w_pend w) (λ x, x ∈ w_fresh w) none (w_sched w) Q.

(** *** What an ended process keeps *)

(** A step neither revives nor ends the process. *)
Definition keep (x y : proc_t) : Prop :=
  (state y = PROC_DEAD ↔ state x = PROC_DEAD) ∧ exiting y = exiting x ∧ pid y = pid x.
Definition keeps (s s' : sched) : Prop := ∀ x, keep (proc s x) (proc s' x).

#[local] Instance keep_refl : Reflexive keep.
Proof. intros x. by split_and!. Qed.
#[local] Instance keeps_refl : Reflexive keeps.
Proof. intros s x. done. Qed.
#[local] Instance keeps_trans : Transitive keeps.
Proof. intros s t u H1 H2 x. destruct (H1 x) as (A & B & C), (H2 x) as (D & E & G). unfold keep. rewrite D, E, G. done. Qed.

Lemma proc_upd_cases s p f x : proc (upd s p f) x = proc s x ∨ proc s x = proc s p ∧ proc (upd s p f) x = f (proc s p).
Proof.
  unfold upd, with_procs, proc. cbn [procs]. unfold aget, aset. destruct (decide (Z.to_nat p = Z.to_nat x)) as [E|E].
  - destruct (decide (Z.to_nat x < length (procs s))%nat) as [Hl|Hl].
    + right. by rewrite E, list_lookup_total_insert_eq.
    + left. by rewrite list_insert_ge by lia.
  - left. by rewrite list_lookup_total_insert_ne.
Qed.

Lemma keeps_upd s p f : keep (proc s p) (f (proc s p)) → keeps s (upd s p f).
Proof. intros H x. by destruct (proc_upd_cases s p f x) as [->|[-> ->]]. Qed.

Lemma keeps_next s p v : keeps s (upd s p (λ x, set_next x v)).
Proof. by apply keeps_upd. Qed.
Lemma keeps_cpu s c f : keeps s (upd_cpu s c f).
Proof. done. Qed.
Lemma keeps_qwr s pp v : keeps s (qwr s pp v).
Proof. destruct pp; [done|apply keeps_next]. Qed.
Lemma keeps_unlink s pp p : keeps s (unlink s pp p).
Proof. unfold unlink. by etransitivity; [apply keeps_qwr|apply keeps_next]. Qed.
Lemma keeps_dequeue s p : keeps s (ready_dequeue s p).
Proof. unfold ready_dequeue. repeat case_match; done || apply keeps_unlink. Qed.
Lemma keeps_enqueue s p : keeps s (ready_enqueue s p).
Proof. unfold ready_enqueue. case_match; [done|]. cbv zeta. by etransitivity; [apply keeps_next|apply keeps_qwr]. Qed.

Lemma walk_queues_rel (R : sched → sched → Prop) `{!Reflexive R, !Transitive R} body s :
  (∀ p s, R s (body p s)) → R s (walk_queues body s).
Proof.
  intros Hb. unfold walk_queues. apply (iter_up_ind (λ _ t, R s t)); [done|]. intros q t _ Ht. etransitivity; [exact Ht|].
  generalize qfuel ((ready_head t).[q]). clear Ht q. intros fuel. revert t. induction fuel as [|fuel IH]; intros t p; [done|].
  cbn [walk]. case_if; [done|]. cbv zeta. etransitivity; [apply Hb|apply IH].
Qed.
Lemma keeps_wake_sleeper now p s : keeps s (wake_sleeper now p s).
Proof.
  unfold wake_sleeper, sleep_expired. destruct (_ && _) eqn:H; [|done]. apply andb_prop in H as [[H%is_state_true _]%andb_prop _].
  apply keeps_upd. unfold keep. cbn. by rewrite H.
Qed.
Lemma keeps_wake_waiter ch p s : keeps s (wake_waiter ch p s).
Proof.
  unfold wake_waiter, waiting_on. destruct (_ && _) eqn:H; [|done]. apply andb_prop in H as [H%is_state_true _].
  apply keeps_upd. unfold keep. cbn. by rewrite H.
Qed.
Lemma keeps_wake_chan s c ch : keeps s (sched_wake_chan s c ch).
Proof.
  unfold sched_wake_chan. cbv zeta. etransitivity; [apply (walk_queues_rel keeps), keeps_wake_waiter|]. case_if; [apply keeps_cpu|reflexivity].
Qed.
Lemma keeps_wake_sleepers s c : keeps s (sched_wake_sleepers s c).
Proof.
  unfold sched_wake_sleepers. cbv zeta. etransitivity; [apply (walk_queues_rel keeps), keeps_wake_sleeper|]. case_if; [apply keeps_cpu|reflexivity].
Qed.

Lemma pick_link_pickable fuel s pp pp' : pick_link fuel s pp = Some pp' → pickable (proc s (qrd s pp')) = true.
Proof.
  revert pp. induction fuel as [|fuel IH]; intros pp; cbn [pick_link]; [done|]. case_if; [done|].
  destruct (pickable (proc s (qrd s pp))) eqn:E; [by intros [= <-]|apply IH].
Qed.

Lemma pick_keeps s c :
  let '(n, s') := pick_next_ready s c in
  keeps s s' ∧ cpus s' = cpus s ∧ (n = cur s c ∨ state (proc s' n) = PROC_READY).
Proof.
  unfold pick_next_ready. cbv zeta. pose proof (walk_queues_rel keeps (wake_sleeper (ticks s)) s (keeps_wake_sleeper _)) as Hk.
  assert (Hc : cpus (walk_queues (wake_sleeper (ticks s)) s) = cpus s).
  { symmetry. refine (@walk_queues_rel (λ t u, cpus t = cpus u) _ _ _ _ _).
    - by intros t.
    - by intros t u v -> ->.
    - intros p t. unfold wake_sleeper. by case_if. }
  set (s1 := walk_queues _ s) in *. clearbody s1.
  assert (Hpk : ∀ pp, pickable (proc s1 (qrd s1 pp)) = true →
    keeps s (unlink s1 pp (qrd s1 pp)) ∧ state (proc (unlink s1 pp (qrd s1 pp)) (qrd s1 pp)) = PROC_READY).
  { intros pp [H _]%pickable_true. split; [etransitivity; [exact Hk|apply keeps_unlink]|]. generalize (qrd s1 pp), H. clear. intros p H.
    assert (Hn : ∀ t x v, state (proc (upd t x (λ y, set_next y v)) p) = state (proc t p)).
    { intros t x v. by destruct (proc_upd_cases t x (λ y, set_next y v) p) as [->|[-> ->]]. }
    unfold unlink. rewrite Hn. destruct pp; [done|]. cbn [qwr]. by rewrite Hn. }
  destruct (pick_queued s1) as [pp|] eqn:E.
  - assert (Hp : pickable (proc s1 (qrd s1 pp)) = true).
    { revert E. unfold pick_queued. destruct (pick_link qfuel s1 (QHead 0)) eqn:E0; [intros [= ->]; by eapply pick_link_pickable|]. destruct (pick_link qfuel s1 (QHead 1)) eqn:E1; [intros [= ->]|intros ?]; by eapply pick_link_pickable. }
    destruct (Hpk pp Hp). split_and!; [done| |by right]. by destruct pp.
  - destruct (rescue s1) as [i|] eqn:Er; (split_and!; [done|done|]).
    + right. apply find_up_Some in Er as (_ & H & _). apply andb_prop in H as [[H _]%andb_prop _]. by apply pickable_true in H as [? _].
    + left. unfold cur, cpu. by rewrite Hc.
Qed.

Lemma keeps_state s p st : state (proc s p) ≠ PROC_DEAD → st ≠ PROC_DEAD → ∀ f,
  (state (f (proc s p)) = st ∧ exiting (f (proc s p)) = exiting (proc s p) ∧ pid (f (proc s p)) = pid (proc s p)) → keeps s (upd s p f).
Proof. intros H1 H2 f (H3 & H4 & H5). apply keeps_upd. split_and!; [|done|done]. rewrite H3. tauto. Qed.

Lemma keeps_switch s c cu nxt rf rsp : state (proc s nxt) ≠ PROC_DEAD → keeps s (switch_to s c cu nxt rf rsp).
Proof.
  intros H. unfold switch_to. cbv zeta. etransitivity; [by apply (keeps_state s nxt PROC_RUNNING) with (f := λ x, set_next (set_state x PROC_RUNNING) NULLP)|].
  match goal with |- keeps ?a _ => set (s1 := a) end. etransitivity; [apply (keeps_cpu s1)|].
  etransitivity; [|apply keeps_cpu]. by apply keeps_upd.
Qed.

Lemma keeps_yield s c rf :
  state (proc s (idle_proc (cpu s c))) ≠ PROC_DEAD → keeps s (sched_yield_locked s c rf).2.
Proof.
  intros Hi. unfold sched_yield_locked. cbv zeta. case_if; [done|]. fold (cur s c) in *. pose proof (pick_keeps s c) as Hp.
  destruct (pick_next_ready s c) as [nxt s1]. destruct Hp as (Hk & Hc & Hn).
  assert (Ec : cpu s1 c = cpu s c) by (unfold cpu; by rewrite Hc). rewrite Ec.
  assert (Hk0 : ∀ t, keeps s1 t → keeps s t) by (intros t Ht; by etransitivity).
  destruct ((nxt =? cur s c) && is_state _ _ && negb _) eqn:E1.
  { cbn [snd]. apply Hk0. etransitivity; [apply keeps_dequeue|]. apply andb_prop in E1 as [[_ E1%is_state_true]%andb_prop _].
    destruct (keeps_dequeue s1 (cur s c) (cur s c)) as (Hd & _). apply (keeps_state _ _ PROC_RUNNING); [|done|done].
    intros E. apply Hd in E. congruence. }
  destruct ((nxt =? cur s c) && is_state _ PROC_RUNNING); [exact Hk|].
  destruct ((_ =? 0) || (nxt =? cur s c)) eqn:E2.
  { case_if; [|exact Hk]. case_if; [|exact Hk]. cbn [snd]. apply Hk0, keeps_switch.
    destruct (Hk (idle_proc (cpu s c))) as (-> & _). done. }
  cbn [snd]. apply orb_false_elim in E2 as [_ E2%Z.eqb_neq]. destruct Hn as [?|Hn]; [done|]. apply Hk0.
  destruct (is_state _ PROC_RUNNING && _) eqn:H0; [|apply keeps_switch; congruence].
  apply andb_prop in H0 as [H0%is_state_true _].
  assert (H1 : keeps s1 (ready_enqueue (upd s1 (cur s c) (λ x, set_state x PROC_READY)) (cur s c))).
  { etransitivity; [|apply keeps_enqueue]. apply (keeps_state _ _ PROC_READY); [congruence|done|done]. }
  etransitivity; [exact H1|]. apply keeps_switch. destruct (H1 nxt) as (-> & _). congruence.
Qed.

Lemma keeps_saved s c : keeps s (context_switch_saved s c).
Proof. unfold context_switch_saved. cbv zeta. case_if; [done|]. etransitivity; [|apply keeps_cpu]. by apply keeps_upd. Qed.

Lemma keeps_block s c f rf :
  state (proc s (idle_proc (cpu s c))) ≠ PROC_DEAD → state (proc s (cur s c)) ≠ PROC_DEAD →
  (∀ x, state (f x) = PROC_BLOCKED ∧ exiting (f x) = exiting x ∧ pid (f x) = pid x) →
  keeps s (sched_yield_locked (ready_enqueue (upd s (cur s c) f) (cur s c)) c rf).2.
Proof.
  intros Hi Hd Hf. assert (H1 : keeps s (ready_enqueue (upd s (cur s c) f) (cur s c))).
  { etransitivity; [|apply keeps_enqueue]. by apply (keeps_state _ _ PROC_BLOCKED). }
  assert (Ec : cpus (ready_enqueue (upd s (cur s c) f) (cur s c)) = cpus s).
  { unfold ready_enqueue. case_match; [done|]. cbv zeta. by destruct (find_tail _ _ _). }
  etransitivity; [exact H1|]. apply keeps_yield. unfold cpu. rewrite Ec. fold (cpu s c). by destruct (H1 (idle_proc (cpu s c))) as (-> & _).
Qed.

Lemma keeps_priority s p prio : keeps s (proc_set_priority s p prio).
Proof.
  unfold proc_set_priority. destruct (_ || (SCHED_NPRIO <=? prio)); [done|]. cbv zeta.
  generalize (is_state (state (proc s p)) PROC_READY || is_state (state (proc s p)) PROC_BLOCKED). intros oq.
  assert (H : ∀ b : bool, keeps s (upd (if b then ready_dequeue s p else s) p (λ x, set_priority x prio))).
  { intros b. transitivity (if b then ready_dequeue s p else s); [destruct b; [apply keeps_dequeue|done]|by apply keeps_upd]. }
  destruct oq; [|apply (H false)]. etransitivity; [apply H|apply keeps_enqueue].
Qed.

Lemma keeps_signal s pid_ sig : keeps s (proc_send_signal (λ s _, s) s pid_ sig).2.
Proof. unfold proc_send_signal. repeat (case_if; [done|]). case_if; [by case_if|]. case_if; [done|]. by apply keeps_upd. Qed.

Lemma keeps_release s c p mapped : keeps s (proc_exit_release s c p mapped).2.
Proof.
  unfold proc_exit_release. cbv zeta. destruct (if _ && _ && mapped then _ else _) as [e1 s1] eqn:E1.
  assert (H1 : keeps s s1) by (destruct (_ && _ && mapped); injection E1 as <- <-; [apply keeps_wake_chan|done]).
  set (s2 := if negb (parent_pid (proc s p) =? 0) then _ else s1).
  assert (H2 : keeps s s2) by (unfold s2; case_if; [etransitivity; [exact H1|apply keeps_signal]|done]). clearbody s2.
  destruct (if negb (pml4_virt (proc s2 p) =? 0) then _ else _) as [e2 s3] eqn:E2.
  assert (H3 : keeps s s3) by (destruct (negb (pml4_virt (proc s2 p) =? 0)); injection E2 as <- <-; [etransitivity; [exact H2|by apply keeps_upd]|done]).
  destruct (if _ && negb (p =? proc_current s3 c) then _ else _) as [e3 s4] eqn:E3. cbn [snd].
  destruct (_ && negb (p =? proc_current s3 c)); injection E3 as <- <-; [etransitivity; [exact H3|by apply keeps_upd]|done].
Qed.

Lemma ending_step s s' P E :
  (∀ x, x ∈ P ∨ x ∈ E → valid_proc x →
     (state (proc s x) = PROC_DEAD → state (proc s' x) = PROC_DEAD) ∧
     (exiting (proc s' x) ≠ 0 → exiting (proc s x) ≠ 0 ∨ state (proc s' x) = PROC_DEAD) ∧
     (pid (proc s x) ≠ 0 → pid (proc s' x) ≠ 0)) →
  ending s P E → ending s' P E.
Proof.
  intros H [H1 H2]. split; intros x Hx.
  - destruct (H1 x Hx) as (V & A & B). destruct (H x (or_introl Hx) V) as (C & D & G). split_and!; auto. intros He. destruct (D He); auto.
  - destruct (H2 x Hx) as (V & A). destruct (H x (or_intror Hx) V) as (C & _). auto.
Qed.

Lemma ending_keeps s s' P E : keeps s s' → ending s P E → ending s' P E.
Proof. intros H. apply ending_step. intros x _ _. destruct (H x) as (-> & -> & ->). tauto. Qed.

Lemma ending_sub s P E P' E' : (∀ x, x ∈ P' → x ∈ P) → (∀ x, x ∈ E' → x ∈ E) → ending s P E → ending s P' E'.
Proof. intros HP HE [H1 H2]. split; auto. Qed.

Lemma keeps_winv s s' P E F Q : winv (mkWorld s P E F) → keeps s s' → sinv (λ x, x ∈ P) (λ x, x ∈ F) none s' Q → winv (mkWorld s' P E F).
Proof. intros (Hn & He & _) Hk I. split_and!; [done|by eapply ending_keeps|by exists Q]. Qed.

(** A process is linked, or dead, once no kill of it is pending. *)
Lemma sinv_unpend (K K' : Z → Prop) F L s Q :
  sinv K F L s Q → (∀ x, K x → K' x ∨ state (proc s x) = PROC_DEAD) → sinv K' F L s Q.
Proof.
  intros [] HK. split; try done. intros p Hp Hs. destruct (i_strand0 p Hp Hs) as [|Hk]; [by left|].
  destruct (HK p Hk) as [|Hd]; [by right|]. destruct Hs; congruence.
Qed.

(** The first critical section of [proc_exit]: whether it was claimed before or
    not, the process is dead afterwards. *)
Lemma exit_claim_step K F s Q p ok s' P E :
  sinv K F none s Q → ending s P E → valid_proc p → pid (proc s p) ≠ 0 →
  (exiting (proc s p) ≠ 0 → state (proc s p) = PROC_DEAD ∨ p ∉ P) → proc_exit_claim s p = (ok, s') →
  sinv K F none s' Q ∧ ending s' P (if ok then p :: E else E) ∧ (p ∈ P → state (proc s' p) = PROC_DEAD) ∧ cpus s' = cpus s.
Proof.
  intros I He Hp Hpid Hx Hcl. pose proof (i_rep _ _ _ _ _ I) as Hr. pose proof (exit_claim_inv K F s Q p I Hp Hpid) as I'. rewrite Hcl in I'. cbn [snd] in I'.
  unfold proc_exit_claim in Hcl. destruct (Z.eqb_spec (exiting (proc s p)) 0) as [E0|E0]; cbn [negb] in Hcl; injection Hcl as <- <-; cycle 1.
  { split_and!; [done|done| |done]. intros Hin. by destruct (Hx E0). }
  set (f := λ x, set_reaped (set_state (set_exiting x 1) PROC_DEAD) false) in *.
  assert (Ep : proc (upd s p f) p = f (proc s p)) by (by eapply proc_upd_eq).
  split_and!; [done| |by rewrite Ep|done].
  assert (He' : ending (upd s p f) P E).
  { apply (ending_step s); [|done]. intros x _ V. destruct (decide (x = p)) as [->|Hne]; [rewrite Ep; split_and!; [done|by right|done]|].
    rewrite (proc_upd_ne s Q) by done. tauto. }
  split; [apply He'|]. intros x [->|Hin]%elem_of_cons; [by rewrite Ep|by apply He'].
Qed.

Lemma create_ending s s' P E entry pp pv ks xs i :
  zlen (procs s) = SCHED_MAX_PROCS → proc_create s entry pp pv ks xs = (i, s') → ending s P E → ending s' P E.
Proof.
  intros Hl. unfold proc_create. destruct (find_up _ _ _) as [j|] eqn:Hf; intros [= <- <-]; [|done].
  apply find_up_Some in Hf as (Hi & [Hfr _]%slot_free_true & _). apply ending_step. intros x _ V.
  destruct (proc_upd_cases s j (λ x, fresh_proc x j entry pp pv ks xs) x) as [->|[-> ->]]; [tauto|]. cbn. split_and!; [done|done|lia].
Qed.

(** Publishing the slot [p] changes no other process. *)
Lemma publish_ending s s' P E p f :
  (p ∉ P) ∧ (p ∉ E) → valid_proc p → zlen (procs s) = SCHED_MAX_PROCS → keeps (upd s p f) s' → ending s P E → ending s' P E.
Proof.
  intros [H1 H2] Hp Hl Hk. apply ending_step. intros x Hx V. destruct (Hk x) as (-> & -> & ->).
  assert (E' : proc (upd s p f) x = proc s x); [|rewrite E'; tauto].
  rewrite proc_upd by (unfold valid_proc in *; lia). destruct (Z.eqb_spec p x) as [->|]; [|done]. by destruct Hx.
Qed.

Lemma kill_ending s s' Q P E c p out :
  rep s Q → valid_proc p → pid (proc s p) ≠ 0 → proc_kill_locked s c p = (out, s') → ending s P E →
  ending s' (match out with KillExit p => p :: P | _ => P end) E.
Proof.
  intros Hr Hp Hpid. unfold proc_kill_locked. destruct (Z.eqb_spec (exiting (proc s p)) 0) as [E0|]; cbn [negb]; [|by intros [= <- <-]].
  case_if; [by intros [= <- <-]|]. case_if; intros [= <- <-] He.
  - apply (ending_step s); [|done]. intros x _ V. set (f := λ x, set_reaped _ false).
    destruct (proc_upd_cases s p f x) as [->|[-> ->]]; [tauto|done].
  - apply (ending_keeps _ _ _ _ (keeps_dequeue s p)). split; [|apply He]. intros x [->|Hx]%elem_of_cons; [by split_and!|by apply He].
Qed.

Lemma nodup_rest (F1 F2 : list Z) p : NoDup (F1 ++ p :: F2) → NoDup (F1 ++ F2).
Proof.
  rewrite !NoDup_app, NoDup_cons. intros (H1 & H2 & _ & H3). split_and!; [done| |done]. intros x Hx Hx'. apply (H2 x Hx). by right.
Qed.
Lemma nodup_cut (F1 F2 : list Z) p x : NoDup (F1 ++ p :: F2) → x ∈ F1 ++ F2 → x ∈ F1 ++ p :: F2 ∧ x ≠ p.
Proof.
  intros Hn Hx. split; [set_solver|]. intros ->. apply NoDup_app in Hn as (_ & H1 & [H2 _]%NoDup_cons).
  apply elem_of_app in Hx as [Hx|Hx]; [|done]. apply (H1 p Hx). left.
Qed.

Lemma sinv_weaken (K K' F F' : Z → Prop) L s Q :
  sinv K F L s Q → (∀ x, K x → K' x) → (∀ x, F' x → F x) → sinv K' F' L s Q.
Proof.
  intros [] HK HF. split; try done; [|by auto]. intros p Hp Hs. destruct (i_strand0 p Hp Hs); [by left|right; auto].
Qed.

Lemma active_yield K F s c rf Q :
  sinv K F none s Q → active s c → ∃ Q', sinv K F none (sched_yield_locked s c rf).2 Q'.
Proof.
  intros I [Hc Hs]. pose proof (yield_locked_inv K F none s Q c rf I Hc ltac:(done) Hs) as HY.
  destruct (sched_yield_locked s c rf). destruct HY as (Q' & HI & _). by exists Q'.
Qed.

Lemma is_linked_iff s Q p : rep s Q → is_linked s p = false ↔ ¬ linked Q p.
Proof.
  intros Hr. split; [by apply is_linked_false|]. intros Hn. unfold is_linked.
  assert (H : ∀ q, 0 ≤ q < SCHED_NPRIO → bool_decide (is_Some (find_link qfuel s (QHead q) p)) = false).
  { intros q Hq. rewrite (rep_find_none s Q Hr q p Hq); [done|]. intros Hin. apply Hn. by exists q. }
  cbn [existsb]. by rewrite !H.
Qed.

Lemma other_step w w' : sstep w EvOther w' → ostep w w'.
Proof. intros H. by exists EvOther. Qed.

Lemma idle_alive K F L s Q c : sinv K F L s Q → valid_cpu s c → state (proc s (idle_proc (cpu s c))) ≠ PROC_DEAD.
Proof. intros I Hc. destruct (i_idle _ _ _ _ _ I c Hc) as (_ & _ & ->). done. Qed.

Lemma sleep_step s P E F c rf f :
  winv (mkWorld s P E F) → active s c → pid (proc s (cur s c)) ≠ 0 → state (proc s (cur s c)) ≠ PROC_DEAD →
  (∀ x, next (f x) = next x ∧ pid (f x) = pid x ∧ switching (f x) = switching x ∧ state (f x) = PROC_BLOCKED) →
  (∀ x, exiting (f x) = exiting x) →
  winv (mkWorld (sched_yield_locked (ready_enqueue (upd s (cur s c) f) (cur s c)) c rf).2 P E F).
Proof.
  intros Hw [Hc Hs] Hpid Hd Hf Hx. pose proof Hw as (_ & _ & Q & I). cbn [w_sched w_pend w_fresh] in I.
  pose proof (block_inv _ _ s Q c f rf I Hc Hs Hpid Hf) as HB.
  assert (Hk := keeps_block s c f rf (idle_alive _ _ _ _ _ _ I Hc) Hd ltac:(intros x; destruct (Hf x) as (_ & ? & _ & ?); auto)).
  destruct (sched_yield_locked _ c rf). destruct HB as (Q' & HI & _). by eapply keeps_winv.
Qed.

Lemma ostep_inv w w' : ostep w w' → winv w → winv w'.
Proof.
  intros (e & Hst & Ho) Hw. pose proof Hw as (Hn & He & Q & I).
  destruct Hst; cbn [w_sched w_pend w_exits w_fresh orderly] in *; pose proof (i_rep _ _ _ _ _ I) as Hr.
  - apply (keeps_winv s _ _ _ _ Q); [done|done|by apply sinv_ticks].
  - apply (keeps_winv s _ _ _ _ Q); [done|apply keeps_wake_sleepers|by apply sched_wake_sleepers_inv].
  - apply (keeps_winv s _ _ _ _ Q); [done|apply keeps_wake_chan|by apply sched_wake_chan_inv].
  - destruct (active_yield _ _ s c rf Q I H) as [Q' I']. apply (keeps_winv s _ _ _ _ Q'); [done| |done].
    apply keeps_yield. eapply idle_alive; [exact I|apply H].
  - apply (keeps_winv s _ _ _ _ Q); [done|apply keeps_saved|by apply saved_inv].
  - unfold proc_sleep. fold (cur s c). case_if; [done|]. bools. cbv zeta. by apply sleep_step.
  - unfold sched_block_on. fold (cur s c). cbv zeta. case_if; [done|]. bools. by apply sleep_step.
  - apply (keeps_winv s _ _ _ _ Q); [done|by apply keeps_upd|]. apply sinv_same_info; [done|by apply I, H|done].
  - pose proof (create_inv _ _ s Q entry pp pv ks xs I) as HC. rewrite H in HC. destruct HC as (_ & [[-> _]|[HC _]]); [done|].
    split_and!; [by apply NoDup_cons|eapply create_ending; [apply Hr|exact H|done]|]. exists Q. eapply sinv_weaken; [exact HC|done|].
    intros x [->|?]%elem_of_cons; auto.
  - destruct (i_fresh _ _ _ _ _ I p H) as (A & B & C & D & G & J). apply (keeps_winv s _ _ _ _ Q); [done|by apply keeps_upd|by apply reap_inv].
  - assert (HF : p ∈ F1 ++ p :: F2) by set_solver. pose proof (i_fresh _ _ _ _ _ I p HF) as (A & _).
    destruct (make_ready_inv _ _ s Q p I HF) as (Q' & HI & _). split_and!; [by eapply nodup_rest| |].
    + eapply publish_ending; [done|done|apply Hr| |exact He]. apply keeps_enqueue.
    + exists Q'. eapply sinv_weaken; [exact HI|done|]. intros x. by apply nodup_cut.
  - assert (HF : p ∈ F1 ++ p :: F2) by set_solver. pose proof (i_fresh _ _ _ _ _ I p HF) as (A & _). destruct H as [Hc Hs].
    destruct (adopt_current_inv _ _ s Q c p I Hc Hs HF) as (Q' & HI & _). split_and!; [by eapply nodup_rest| |].
    + eapply publish_ending; [done|done|apply Hr| |exact He]. unfold sched_adopt_current. cbv zeta.
      etransitivity; [|apply keeps_dequeue]. apply keeps_cpu.
    + exists Q'. eapply sinv_weaken; [exact HI|done|]. intros x. by apply nodup_cut.
  - destruct (set_priority_inv _ _ s Q p prio I H H0) as (Q' & HI & _). apply (keeps_winv s _ _ _ _ Q'); [done|apply keeps_priority|done].
  - pose proof (kill_inv _ _ s Q c p I H H0 H1) as HK. rewrite H2 in HK. destruct HK as (Q' & _ & HK).
    pose proof (kill_ending s s' Q P E c p out Hr H0 H1 H2 He) as He'.
    destruct out as [|p'|p']; [|destruct HK as [-> HK]|destruct HK as (-> & -> & _ & ->)]; (split_and!; [done| |]).
    + done.
    + by exists Q'.
    + done.
    + exists Q'. eapply sinv_weaken; [exact HK| |done]. intros x [?| ->]; [by right|left].
    + done.
    + by exists Q.
  - apply (keeps_winv s _ _ _ _ Q); [done|apply keeps_signal|by apply send_signal_inv].
  - destruct (exit_claim_step _ _ s Q (cur s c) ok s' P E I He) as (I' & He' & _); [by apply I|done| |done|by split_and!; [| |exists Q]].
    intros Hx. destruct (decide (cur s c ∈ P)) as [Hin|]; [left|by right]. by apply He.
  - assert (Hin : p ∈ P1 ++ p :: P2) by set_solver. destruct (e_pend _ _ _ He p Hin) as (V & B & C).
    destruct (exit_claim_step _ _ s Q p ok s' (P1 ++ p :: P2) E I He V B) as (I' & He' & Hd & _); [by left; auto|done|].
    split_and!; [done|eapply ending_sub; [|done|exact He']; set_solver|]. exists Q. eapply sinv_unpend; [exact I'|].
    cbn [w_sched w_pend]. intros x. rewrite !elem_of_app, elem_of_cons. intros [?|[->|?]]; auto.
  - destruct (e_exits _ _ _ He p H0) as [V _]. apply (keeps_winv s _ _ _ _ Q); [done|apply keeps_release|by apply exit_release_inv].
  - assert (Hin : p ∈ E1 ++ p :: E2) by set_solver. destruct (e_exits _ _ _ He p Hin) as [V Hd].
    destruct (exit_unlink_inv _ _ s Q p I V Hd) as (Q' & HI & _). split_and!; [done| |exists Q'; eapply sinv_weaken; [exact HI| |done]; by intros x []].
    apply (ending_keeps s); [unfold proc_exit_unlink; etransitivity; [apply keeps_dequeue|apply keeps_next]|].
    eapply ending_sub; [done| |exact He]. set_solver.
  - destruct Ho as (Hl & Hsw & Hc). apply (keeps_winv s _ _ _ _ Q); [done|by apply keeps_upd|].
    apply reap_inv; try done. by apply (is_linked_iff s Q p Hr).
Qed.

(** [sched_init] on the boot CPU commutes with a processor coming up. *)
Lemma sched_init_ap_comm s r tss cr3 kpml4 ks entry xs cr3' kpml4' ks' entry' xs' :
  zlen (procs s) = SCHED_MAX_PROCS → 0 < zlen (cpus s) →
  find_up (λ i, slot_free (proc (sched_init s cr3' kpml4' ks' entry' xs') i)) 1 (Z.to_nat (SCHED_MAX_PROCS - 1)) =
  find_up (λ i, slot_free (proc s i)) 1 (Z.to_nat (SCHED_MAX_PROCS - 1)) ∧
  sched_init (sched_init_ap (cpu_online s r tss) (zlen (cpus s)) cr3 kpml4 ks entry xs) cr3' kpml4' ks' entry' xs' =
  sched_init_ap (cpu_online (sched_init s cr3' kpml4' ks' entry' xs') r tss)
    (zlen (cpus (sched_init s cr3' kpml4' ks' entry' xs'))) cr3 kpml4 ks entry xs.
Proof.
  intros Hl Hc. set (s1 := sched_init s _ _ _ _ _).
  assert (Ep : ∀ i, 1 ≤ i → proc s1 i = proc s i).
  { intros i Hi. unfold s1, sched_init, with_heads, upd_cpu, with_cpus, upd, with_procs, proc at 1. simpl.
    apply aget_aset_ne; lia. }
  assert (Ef : find_up (λ i, slot_free (proc s1 i)) 1 (Z.to_nat (SCHED_MAX_PROCS - 1)) =
               find_up (λ i, slot_free (proc s i)) 1 (Z.to_nat (SCHED_MAX_PROCS - 1))).
  { apply find_up_ext. intros i Hi. by rewrite Ep by lia. }
  split; [done|].
  assert (El : zlen (cpus s1) = zlen (cpus s)) by (unfold s1, sched_init, with_heads, upd_cpu, with_cpus; simpl; by rewrite zlen_aset).
  rewrite El. unfold sched_init_ap.
  change (λ i, slot_free (proc (cpu_online s r tss) i)) with (λ i, slot_free (proc s i)).
  change (λ i, slot_free (proc (cpu_online s1 r tss) i)) with (λ i, slot_free (proc s1 i)). rewrite Ef.
  set (n := zlen (cpus s)). assert (Hn : n = Z.of_nat (length (cpus s))) by done.
  assert (Ea : ∀ (l : list cpu_t) y z, 0 < zlen l → l.[0 <- y] ++ [z] = (l ++ [z]).[0 <- y]).
  { intros l y z Hz. unfold aset. rewrite insert_app_l; [done|]. unfold zlen in Hz. lia. }
  assert (E0 : ∀ (l : list cpu_t) z, 0 < zlen l → (l ++ [z]).[0] = l.[0]).
  { intros l z Hz. unfold aget. rewrite lookup_total_app_l; [done|]. unfold zlen in Hz. lia. }
  destruct (find_up (λ i, slot_free (proc s i)) 1 (Z.to_nat (SCHED_MAX_PROCS - 1))) as [i|] eqn:Hf; rewrite ?Hf.
  - apply find_up_Some in Hf as (Hi & _).
    unfold s1, sched_init, cpu_online, with_heads, upd_cpu, with_cpus, upd, with_procs, proc, cpu. simpl.
    fold n. f_equal.
    + rewrite !aget_aset_ne by lia. by rewrite aset_comm by lia.
    + rewrite Ea by done. rewrite aset_comm by lia. f_equal.
      * rewrite aget_aset_ne by lia. by rewrite E0.
      * by rewrite aget_aset_ne by lia.
  - unfold s1, sched_init, cpu_online, with_heads, upd_cpu, with_cpus, upd, with_procs, proc, cpu. simpl.
    f_equal. rewrite Ea by done. by rewrite E0.
Qed.

Lemma booting_inv s cr3 kpml4 ks entry xs :
  booting s →
  sinv none none none (sched_init s cr3 kpml4 ks entry xs) (λ _, []) ∧ zlen (procs s) = SCHED_MAX_PROCS ∧ 0 < zlen (cpus s).
Proof.
  induction 1 as [x t Hs|s r tss cr3' kpml4' ks' entry' xs' Hb (I & L1 & L2) Hf].
  - split_and!; [by apply boot_inv|reflexivity|done].
  - destruct (sched_init_ap_comm s r tss cr3' kpml4' ks' entry' xs' cr3 kpml4 ks entry xs L1 L2) as [E1 ->]. split_and!.
    + apply init_ap_inv; [done|by intros ? []|]. by rewrite E1.
    + unfold sched_init_ap. destruct (find_up _ _ _); simpl; rewrite ?zlen_aset; done.
    + unfold sched_init_ap. destruct (find_up _ _ _); simpl; rewrite ?zlen_aset; unfold zlen in *; rewrite length_app; simpl; lia.
Qed.

Lemma booted_inv w : booted w → winv w.
Proof.
  intros (s & cr3 & kpml4 & ks & entry & xs & Hb & ->). split_and!; [constructor|by split; intros ? ?%elem_of_nil|].
  exists (λ _, []). cbn [w_sched w_pend w_fresh]. eapply sinv_weaken; [by apply booting_inv|by intros ? []|]. by intros y ?%elem_of_nil.
Qed.

Lemma reachable_winv w0 w : booted w0 → rtc ostep w0 w → winv w.
Proof. intros H0 H. apply booted_inv in H0. induction H as [|? ? ? Hs _ IH]; [done|]. apply IH. by eapply ostep_inv. Qed.

Lemma reachable_inv w0 w : booted w0 → rtc ostep w0 w →
  ∃ Q, sinv (λ x, x ∈ w_pend w) (λ x, x ∈ w_fresh w) none (w_sched w) Q.
Proof. intros H0 H. apply (reachable_winv w0 w H0 H). Qed.

(** *** What waking does *)

(** A walk that changes the processes satisfying [f] by [g]. *)
Section walk_map.
Context (f : proc_t → bool) (g : proc_t → proc_t).
Hypothesis Hg : ∀ x, next (g x) = next x.
Let body (p : Z) (s : sched) : sched := if f (proc s p) then upd s p g else s.
Definition mapped_proc (x : proc_t) : proc_t := if f x then g x else x.

Lemma walk_map_queue Q q :
  0 ≤ q < SCHED_NPRIO → ∀ fuel l1 l2 p s, rep s Q → Q q = l1 ++ l2 → chain (nx s) p l2 NULLP → (length l2 < fuel)%nat →
  let s' := walk fuel body p s in
  rep s' Q ∧ cpus s' = cpus s ∧ ticks s' = ticks s ∧
  ∀ x, valid_proc x → proc s' x = if bool_decide (x ∈ l2) then mapped_proc (proc s x) else proc s x.
Proof.
  intros Hq. induction fuel as [|fuel IH]; intros l1 l2 p s Hr E Hc Hl; [lia|]. cbn [walk].
  destruct l2 as [|a l2]; simpl in Hc; [rewrite Hc, Z.eqb_refl; by split_and!|]. destruct Hc as [-> Hc].
  assert (Ha : valid_proc a) by (apply (r_range _ _ Hr q); [done|]; rewrite E; apply elem_of_app; right; left).
  rewrite (proj2 (Z.eqb_neq a NULLP)) by (unfold valid_proc, NULLP in *; lia). cbv zeta.
  assert (Hna : a ∉ l2).
  { pose proof (r_nodup _ _ Hr q Hq) as Hn. rewrite E in Hn. apply NoDup_app in Hn as (_ & _ & Hn). by apply NoDup_cons in Hn as [? _]. }
  assert (Hr1 : rep (body a s) Q) by (unfold body; case_if; [by apply rep_upd|done]).
  assert (Hp1 : ∀ x, valid_proc x → proc (body a s) x = if decide (x = a) then mapped_proc (proc s x) else proc s x).
  { intros x Hx. unfold body, mapped_proc. destruct (decide (x = a)) as [->|Hne].
    - destruct (f (proc s a)); [by eapply proc_upd_eq|done].
    - case_if; [by eapply proc_upd_ne|done]. }
  assert (Hcp : cpus (body a s) = cpus s ∧ ticks (body a s) = ticks s) by (unfold body; by case_if).
  destruct (IH (l1 ++ [a]) l2 (next (proc (body a s) a)) (body a s) Hr1) as (R & C & T & P).
  - by rewrite <- app_assoc.
  - by eapply rep_suffix.
  - simpl in Hl. lia.
  - destruct Hcp as [-> ->] in C, T. split_and!; try done. intros x Hx. rewrite P, Hp1 by done.
    destruct (decide (x = a)) as [->|Hne].
    + rewrite bool_decide_eq_false_2 by done. rewrite bool_decide_eq_true_2 by left. done.
    + destruct (decide (x ∈ l2)).
      * rewrite !bool_decide_eq_true_2; [done|by right|done].
      * rewrite !bool_decide_eq_false_2; [done| |done]. rewrite elem_of_cons. tauto.
Qed.

Lemma walk_map s Q :
  rep s Q →
  let s' := walk_queues body s in
  rep s' Q ∧ cpus s' = cpus s ∧ ticks s' = ticks s ∧
  ∀ x, valid_proc x → (linked Q x → proc s' x = mapped_proc (proc s x)) ∧ (¬ linked Q x → proc s' x = proc s x).
Proof.
  intros Hr.
  pose (P := λ k s', rep s' Q ∧ cpus s' = cpus s ∧ ticks s' = ticks s ∧
    ∀ x, valid_proc x → ((∃ q, 0 ≤ q < k ∧ x ∈ Q q) → proc s' x = mapped_proc (proc s x)) ∧
                        (¬ (∃ q, 0 ≤ q < k ∧ x ∈ Q q) → proc s' x = proc s x)).
  assert (H : P (0 + Z.of_nat (Z.to_nat SCHED_NPRIO)) (walk_queues body s)); [|exact H].
  unfold walk_queues. apply (iter_up_ind P).
  - split_and!; try done. intros x Hx. split; [intros (q & ? & _); lia|done].
  - intros q s1 Hq (R & C & T & HP). change (0 + Z.of_nat (Z.to_nat SCHED_NPRIO)) with SCHED_NPRIO in Hq.
    destruct (walk_map_queue Q q Hq qfuel [] (Q q) ((ready_head s1).[q]) s1 R eq_refl) as (R' & C' & T' & P');
      [by apply R|by eapply rep_length|].
    unfold P. rewrite C', T'. split_and!; try done. intros x Hx. destruct (HP x Hx) as [H1 H2]. rewrite P' by done.
    destruct (decide (x ∈ Q q)) as [Hin|Hin].
    + rewrite bool_decide_eq_true_2 by done. split; [intros _|intros Hn; destruct Hn; exists q; split; [lia|done]].
      rewrite H2; [done|]. intros (r & Hr0 & Hin'). assert (r = q); [|lia]. apply (r_disj _ _ Hr r q x); [unfold SCHED_NPRIO in *; lia|done..].
    + rewrite bool_decide_eq_false_2 by done. split; intros Hx'.
      * apply H1. destruct Hx' as (r & Hr0 & Hin'). exists r. split; [|done]. destruct (decide (r = q)) as [->|]; [done|lia].
      * apply H2. intros (r & Hr0 & Hin'). apply Hx'. exists r. split; [lia|done].
Qed.
End walk_map.

Lemma walk_any_spec f Q q :
  0 ≤ q < SCHED_NPRIO → ∀ fuel l1 l2 p s, rep s Q → Q q = l1 ++ l2 → chain (nx s) p l2 NULLP → (length l2 < fuel)%nat →
  walk_any fuel f p s = true ↔ ∃ x, x ∈ l2 ∧ f (proc s x) = true.
Proof.
  intros Hq. induction fuel as [|fuel IH]; intros l1 l2 p s Hr E Hc Hl; [lia|]. cbn [walk_any].
  destruct l2 as [|a l2]; simpl in Hc.
  { rewrite Hc, Z.eqb_refl. split; [done|]. intros (x & Hx & _). by apply elem_of_nil in Hx. }
  destruct Hc as [-> Hc].
  assert (Ha : valid_proc a) by (apply (r_range _ _ Hr q); [done|]; rewrite E; apply elem_of_app; right; left).
  rewrite (proj2 (Z.eqb_neq a NULLP)) by (unfold valid_proc, NULLP in *; lia).
  rewrite orb_true_iff, (IH (l1 ++ [a]) l2); [|done|by rewrite <- app_assoc|done|simpl in Hl; lia].
  setoid_rewrite elem_of_cons. split.
  - intros [H|(x & Hx & H)]; [exists a|exists x]; auto.
  - intros (x & [->|Hx] & H); [by left|right; by exists x].
Qed.

Lemma any_queued_spec f s Q : rep s Q → any_queued f s = true ↔ ∃ x, linked Q x ∧ f (proc s x) = true.
Proof.
  intros Hr.
  assert (H : ∀ q, 0 ≤ q < SCHED_NPRIO → walk_any qfuel f ((ready_head s).[q]) s = true ↔ ∃ x, x ∈ Q q ∧ f (proc s x) = true).
  { intros q Hq. apply (walk_any_spec f Q q Hq qfuel [] (Q q)); [done|done|by apply Hr|by eapply rep_length]. }
  unfold any_queued. rewrite existsb_exists. split.
  - intros (q & Hin & Hw). assert (Hq : 0 ≤ q < SCHED_NPRIO) by (simpl in Hin; unfold SCHED_NPRIO; lia).
    apply H in Hw as (x & Hx & Hf); [|done]. exists x. split; [by exists q|done].
  - intros (x & (q & Hq & Hx) & Hf). exists q. split; [unfold SCHED_NPRIO in Hq; simpl; lia|]. apply H; [done|]. by exists x.
Qed.

(** ** Theorems *)

(** C5: From boot, on any number of CPUs and under any interleaving of the
    critical sections of the scheduler that follows the four rules of [orderly]
    (children are collected only after their last CPU has left them, slots still
    being filled in are not handed out again, a process is not made ready while a
    kill of its slot is under way, a process killed while running does not go to
    sleep): no process is current on two CPUs; the current process of a CPU is
    RUNNING, or DEAD if it was killed while running, is on no ready queue, and its
    registers are not being saved by any CPU.  The code checks none of the rules:
    [reap_while_running] shows that without the first the claim fails. *)
Theorem sched_mutual_exclusion w0 w :
  booted w0 → rtc ostep w0 w →
  let s := w_sched w in
  ∀ c, valid_cpu s c →
    (∀ d, valid_cpu s d → cur s d = cur s c → d = c) ∧
    (state (proc s (cur s c)) = PROC_RUNNING ∨ state (proc s (cur s c)) = PROC_DEAD) ∧
    is_linked s (cur s c) = false ∧ switching (proc s (cur s c)) = 0 ∧
    ∀ d, valid_cpu s d → saving (cpu s d) ≠ cur s c.
Proof.
  intros H0 H s c Hc. destruct (reachable_inv w0 w H0 H) as [Q I]. fold s in I.
  destruct (i_oncpu _ _ _ _ _ I c Hc) as [[Hst Hnl]|[[] _]]. split_and!.
  - intros d Hd. by apply I.
  - done.
  - by apply (is_linked_iff s Q _ (i_rep _ _ _ _ _ I)).
  - by eapply cur_saved.
  - intros d Hd E. pose proof (i_cur _ _ _ _ _ I c Hc) as V.
    destruct (i_sav _ _ _ _ _ I d Hd) as (_ & _ & X & _); [rewrite E; unfold valid_proc, NULLP in *; lia|].
    by apply (X c Hc).
Qed.

(** C6: In every state reached from boot by steps that follow the four rules of
    [orderly], a READY or BLOCKED process is linked in the ready queue of its
    priority, where the wake-up walks and the dispatcher find it, unless a
    [proc_kill] has just unlinked it and is about to end it: no process is
    stranded.  [late_exit_strands] and [killed_before_ready] show how breaking the
    rules strands one. *)
Theorem no_process_stranded w0 w p :
  booted w0 → rtc ostep w0 w →
  let s := w_sched w in
  valid_proc p → state (proc s p) = PROC_READY ∨ state (proc s p) = PROC_BLOCKED →
  p ∈ w_pend w ∨ is_Some (find_link qfuel s (QHead (queue_of (proc s p))) p).
Proof.
  intros H0 H s Hp Hst. destruct (reachable_inv w0 w H0 H) as [Q I]. fold s in I.
  destruct (i_strand _ _ _ _ _ I p Hp Hst) as [(q & Hq & Hin)|]; [right|by left].
  rewrite <- (i_prio _ _ _ _ _ I p q Hq Hin) by (destruct Hst; congruence).
  destruct (list_elem_of_split _ _ Hin) as (l1 & l2 & E). rewrite (rep_find s Q (i_rep _ _ _ _ _ I) q l1 p l2 Hq E). eauto.
Qed.

Definition woken_sleeper (x : proc_t) : proc_t := set_sleep_until (set_state x PROC_READY) 0.
Definition woken_waiter (x : proc_t) : proc_t := set_state (set_sleep_until (set_wait_chan x 0) 0) PROC_READY.

(** C33: The dispatcher's choice: if some queued process with saved registers is
    READY or has slept long enough, [pick_next_ready] returns the first process
    that can run of the most urgent queue that has one, at least as urgent as
    that process, and takes exactly it off the queues. *)
Theorem pick_most_urgent s Q c r x :
  rep s Q → 0 ≤ r < SCHED_NPRIO → x ∈ Q r → switching (proc s x) = 0 →
  state (proc s x) = PROC_READY ∨ sleep_expired (ticks s) (proc s x) = true →
  let '(n, s') := pick_next_ready s c in
  let s1 := walk_queues (wake_sleeper (ticks s)) s in
  ∃ q k1 k2, q ≤ r ∧ first_pickable s1 Q q k1 n k2 ∧ rep s' (without Q n) ∧ same_but_next s1 s'.
Proof.
  intros Hr Hr0 Hx Hsw Hst. unfold pick_next_ready.
  destruct (walk_map (sleep_expired (ticks s)) woken_sleeper ltac:(done) s Q Hr) as (Hr1 & _ & _ & Hp).
  fold (wake_sleeper (ticks s)) in Hr1, Hp. set (s1 := walk_queues _ s) in *.
  assert (Vx : valid_proc x) by (by apply (r_range _ _ Hr r)).
  assert (Hpx : pickable (proc s1 x) = true).
  { destruct (Hp x Vx) as [E _]. rewrite E by (by exists r). unfold mapped_proc. apply pickable_true.
    destruct (sleep_expired (ticks s) (proc s x)) eqn:Es; [done|]. by destruct Hst. }
  pose proof (pick_queued_spec s1 Q Hr1) as Hpk. destruct (pick_queued s1) as [pp|].
  - destruct Hpk as (q & k1 & a & k2 & Hfp & -> & ->). exists q, k1, k2.
    pose proof Hfp as (Hq & E & _ & _ & Hlow). destruct (unlink_without s1 Q q k1 a k2 Hr1 Hq E) as [Hr' Hs'].
    split_and!; try done. destruct (decide (q ≤ r)) as [|Hn]; [done|]. rewrite (Hlow r x) in Hpx; [done|lia|done].
  - rewrite (Hpk x) in Hpx; [done|by exists r].
Qed.

(** [sched_wake_chan] in a state reached by orderly steps wakes exactly the waiters:
    every BLOCKED process waiting on the channel (no kill under way) becomes READY with
    its channel and timeout cleared, no other process changes, and the CPU is
    asked to reschedule whenever somebody was woken. *)
Theorem wake_chan_exact w0 w c ch p :
  booted w0 → rtc ostep w0 w →
  let s := w_sched w in
  valid_cpu s c → valid_proc p → p ∉ w_pend w →
  let s' := sched_wake_chan s c ch in
  proc s' p = (if waiting_on ch (proc s p) then woken_waiter (proc s p) else proc s p) ∧
  (waiting_on ch (proc s p) = true → need_resched (cpu s' c) = 1).
Proof.
  intros H0 H s Hc Hp Hk. destruct (reachable_inv w0 w H0 H) as [Q I]. fold s in I. pose proof (i_rep _ _ _ _ _ I) as Hr.
  destruct (walk_map (waiting_on ch) woken_waiter ltac:(done) s Q Hr) as (_ & Hcp & _ & Hpr).
  fold (wake_waiter ch) in Hcp, Hpr. unfold sched_wake_chan. set (s1 := walk_queues _ s) in *.
  assert (Hl : waiting_on ch (proc s p) = true → linked Q p).
  { unfold waiting_on. intros [Hb%is_state_true _]%andb_true_iff.
    destruct (i_strand _ _ _ _ _ I p Hp) as [|?]; [by right|done|by destruct Hk]. }
  assert (E : proc s1 p = if waiting_on ch (proc s p) then woken_waiter (proc s p) else proc s p).
  { destruct (Hpr p Hp) as [P1 P2]. destruct (decide (linked Q p)) as [HL|HL]; [by rewrite P1|].
    rewrite P2 by done. destruct (waiting_on ch (proc s p)); [|done]. by destruct (HL (Hl eq_refl)). }
  split.
  - destruct (any_queued (waiting_on ch) s); [exact E|done].
  - intros Hw. rewrite (proj2 (any_queued_spec (waiting_on ch) s Q Hr)) by (exists p; auto).
    rewrite cpu_upd by (unfold valid_cpu in *; rewrite ?Hcp; lia). by rewrite Z.eqb_refl.
Qed.

(** ** A run on two CPUs

    Boot, a second CPU, one process in slot 2 (slot 1 is the second CPU's idle
    process), which that CPU dispatches. *)
Module Demo.

Definition s_early : sched := sched_early_init (mkSched [] [] [mkCpu 0 NULLP NULLP 0 0 NULLP] 0).
Definition s_aps : sched := sched_init_ap (cpu_online s_early 0 0) 1 0x1000 0x2000 0x5000 0x9000 0x4100.
Definition s_two : sched := sched_init s_aps 0x1000 0x2000 0x3000 0x9000 0x4000.
Definition s_new : sched := (proc_create s_two 0x400000 0x7000 0x8000 0x6000 0x4200).2.
Definition s_ready : sched := proc_make_ready s_new 2.
Definition s_run : sched := context_switch_saved (sched_yield_locked s_ready 1 0x200).2 1.

Strategy 100 [s_early s_aps s_two s_new s_ready s_run].

Lemma s_ready_active : active s_ready 1.
Proof. unfold active, valid_cpu. split_and!; vm_compute; congruence. Qed.
Lemma s_run_cpus : zlen (cpus (sched_yield_locked s_ready 1 0x200).2) = 2 ∧ zlen (cpus s_run) = 2.
Proof. split; vm_compute; reflexivity. Qed.

Definition w_boot : world := mkWorld s_two [] [] [].
Definition path (s : sched) : Prop := rtc ostep w_boot (mkWorld s [] [] []).

Lemma boot_booted : booted w_boot.
Proof.
  exists s_aps, 0x1000, 0x2000, 0x3000, 0x9000, 0x4000. split; [|reflexivity].
  apply (BootAp s_early 0 0 0x1000 0x2000 0x5000 0x9000 0x4100).
  - by apply (BootEarly (mkCpu 0 NULLP NULLP 0 0 NULLP) 0).
  - vm_compute. by eexists.
Qed.
Lemma new_step : sstep w_boot (EvCreate 2) (mkWorld s_new [] [] [2]).
Proof.
  apply (StCreate s_two [] [] [] 0x400000 0x7000 0x8000 0x6000 0x4200 2 s_new); [|done].
  unfold s_new. rewrite (surjective_pairing (proc_create _ _ _ _ _ _)) at 1. f_equal; vm_compute; reflexivity.
Qed.
Lemma ready_path : path s_ready.
Proof.
  eapply rtc_l; [exists (EvCreate 2); split; [exact new_step|]; apply not_elem_of_nil|].
  apply rtc_once. exists (EvPublish 2). split; [exact (StMakeReady s_new [] [] [] 2 [])|]. split; apply not_elem_of_nil.
Qed.
Lemma run_path : path s_run.
Proof.
  unfold path. transitivity (mkWorld s_ready [] [] []); [exact ready_path|].
  eapply rtc_l; [exact (other_step _ _ (StYield s_ready [] [] [] 1 0x200 s_ready_active))|]. apply rtc_once, other_step.
  apply (StSaved _ [] [] [] 1). unfold valid_cpu. rewrite (proj1 s_run_cpus). lia.
Qed.

(** The process blocks on channel 0x77; its CPU goes idle. *)
Definition s_block : sched := (sched_block_on s_run 1 0x77 0 0x200).2.
Strategy 100 [s_block].
Lemma s_run_active : active s_run 1.
Proof. unfold active, valid_cpu. split_and!; vm_compute; congruence. Qed.
Lemma block_path : path s_block.
Proof.
  unfold path. transitivity (mkWorld s_run [] [] []); [exact run_path|].
  apply rtc_once. exists (EvBlock 1). split; [exact (StBlock s_run [] [] [] 1 0x77 0 0x200 s_run_active)|vm_compute; congruence].
Qed.
Lemma s_block_cpus : zlen (cpus s_block) = 2.
Proof. vm_compute. reflexivity. Qed.

(** The ready queues of [s_ready]. *)
Definition q_ready (q : Z) : list Z := if q =? 1 then [2] else [].
Lemma s_ready_rep : rep s_ready q_ready.
Proof.
  assert (Hq : ∀ q x, x ∈ q_ready q → q = 1 ∧ x = 2).
  { intros q x. unfold q_ready. destruct (Z.eqb_spec q 1); [|intros H; by apply elem_of_nil in H].
    by intros ->%list_elem_of_singleton. }
  split; [vm_compute; reflexivity|vm_compute; reflexivity|..].
  - intros q Hq0. unfold SCHED_NPRIO in Hq0. assert (q = 0 ∨ q = 1 ∨ q = 2) as [->|[->| ->]] by lia; unfold q_ready; simpl Z.eqb; cbn [chain].
    + vm_compute. reflexivity.
    + split; vm_compute; reflexivity.
    + vm_compute. reflexivity.
  - intros q _. unfold q_ready. case_if; [apply NoDup_singleton|constructor].
  - intros q r x _ _ H1%Hq H2%Hq. lia.
  - intros q x _ H%Hq. unfold SCHED_MAX_PROCS. lia.
Qed.

End Demo.

Lemma sched_mutual_exclusion_witness : cur Demo.s_run 0 = 0 ∧ cur Demo.s_run 1 = 2 ∧ is_linked Demo.s_run 2 = false.
Proof.
  split_and!; [vm_compute; reflexivity|vm_compute; reflexivity|].
  destruct (sched_mutual_exclusion _ _ Demo.boot_booted Demo.run_path 1) as (_ & _ & H & _).
  - cbn [w_sched]. unfold valid_cpu. rewrite (proj2 Demo.s_run_cpus). lia.
  - cbn [w_sched] in H. replace (cur Demo.s_run 1) with 2 in H by (vm_compute; reflexivity). exact H.
Defined.

Lemma no_process_stranded_witness :
  state (proc Demo.s_ready 2) = PROC_READY ∧ is_Some (find_link qfuel Demo.s_ready (QHead 1) 2).
Proof.
  split; [vm_compute; reflexivity|].
  destruct (no_process_stranded _ _ 2 Demo.boot_booted Demo.ready_path) as [Hk|Hf].
  - unfold valid_proc, SCHED_MAX_PROCS. lia.
  - left. vm_compute. reflexivity.
  - by apply elem_of_nil in Hk.
  - cbn [w_sched] in Hf. replace (queue_of (proc Demo.s_ready 2)) with 1 in Hf by (vm_compute; reflexivity). exact Hf.
Defined.

Lemma pick_most_urgent_witness :
  let '(n, s') := pick_next_ready Demo.s_ready 1 in n = 2 ∧ rep s' (without Demo.q_ready n).
Proof.
  assert (E : (pick_next_ready Demo.s_ready 1).1 = 2) by (vm_compute; reflexivity).
  assert (H1 : 0 ≤ 1 < SCHED_NPRIO) by (unfold SCHED_NPRIO; lia).
  assert (H2 : 2 ∈ Demo.q_ready 1) by (simpl; left).
  assert (Hsw : switching (proc Demo.s_ready 2) = 0) by (vm_compute; reflexivity).
  assert (Hst : state (proc Demo.s_ready 2) = PROC_READY) by (vm_compute; reflexivity).
  pose proof (pick_most_urgent Demo.s_ready Demo.q_ready 1 1 2 Demo.s_ready_rep H1 H2 Hsw (or_introl Hst)) as H.
  destruct (pick_next_ready Demo.s_ready 1) as [n s']. destruct H as (q & k1 & k2 & _ & _ & Hr & _). exact (conj E Hr).
Defined.

Lemma wake_chan_exact_witness :
  state (proc (sched_wake_chan Demo.s_block 0 0x77) 2) = PROC_READY ∧ need_resched (cpu (sched_wake_chan Demo.s_block 0 0x77) 0) = 1.
Proof.
  assert (Hw : waiting_on 0x77 (proc Demo.s_block 2) = true) by (vm_compute; reflexivity).
  destruct (wake_chan_exact _ _ 0 0x77 2 Demo.boot_booted Demo.block_path) as [H1 H2].
  - cbn [w_sched]. unfold valid_cpu. rewrite Demo.s_block_cpus. lia.
  - unfold valid_proc, SCHED_MAX_PROCS. lia.
  - cbn [w_pend]. apply not_elem_of_nil.
  - cbn [w_sched] in H1, H2. rewrite Hw in H1. split; [rewrite H1; reflexivity|exact (H2 Hw)].
Defined.

(** Killing a process twice while it runs on another CPU: the first kill
    marks it DEAD but leaves [exiting] clear, so the second one takes the path
    for a process that is off its CPU and frees the address space and the kernel
    stack the other CPU is running on. *)
Theorem double_kill_frees_live_stack :
  let '(_, _, s1) := proc_kill Demo.s_run 0 2 0x200 true in
  let '(eff, _, s2) := proc_kill s1 0 2 0x200 true in
  state (proc s1 2) = PROC_DEAD ∧ cur s2 1 = 2 ∧ eff = [DestroyUser 0x8000; FreeFrame 0x7000; KFree 0x6000].
Proof. vm_compute. split_and!; reflexivity. Qed.

(** A kill aimed at a process that is on its way to sleep is lost: the
    process overwrites DEAD with BLOCKED and will run again. *)
Theorem sleep_loses_kill :
  let '(_, _, s1) := proc_kill Demo.s_run 0 2 0x200 true in
  let '(_, s2) := sched_block_on s1 1 0x77 0 0x200 in
  state (proc s1 2) = PROC_DEAD ∧ state (proc s2 2) = PROC_BLOCKED ∧ exiting (proc s2 2) = 0.
Proof. vm_compute. split_and!; reflexivity. Qed.

(** ** Outside the rules *)
Module Races.

(** CPU 0 kills the process that runs on CPU 1: it is DEAD, still current there. *)
Definition s_killed : sched := (proc_kill_locked Demo.s_run 0 2).2.
(** Its parent collects it, the slot is created again, made ready and dispatched. *)
Definition s_reaped : sched := upd s_killed 2 (λ x, set_reaped x true).
Definition s_again : sched := (proc_create s_reaped 0x500000 0xA000 0xB000 0xC000 0x4300).2.
Definition s_twice : sched := (sched_yield_locked (proc_make_ready s_again 2) 0 0x200).2.
(** Or it is killed again from CPU 0, which frees it, and goes to sleep meanwhile. *)
Definition s_rekilled : sched := (proc_kill_locked s_killed 0 2).2.
Definition s_claimed : sched := (proc_exit_claim s_rekilled 2).2.
Definition s_asleep : sched := (sched_block_on s_claimed 1 0x77 0 0x200).2.
Definition s_stranded : sched := proc_exit_unlink s_asleep 2.
(** A process killed between [proc_create] and [proc_make_ready]. *)
Definition s_early_kill : sched := (proc_kill_locked Demo.s_new 0 2).2.
Definition s_early_claim : sched := (proc_exit_claim s_early_kill 2).2.
Definition s_unlinked : sched := proc_exit_unlink (proc_make_ready s_early_claim 2) 2.
(** A slot marked by [proc_clone] and handed out a second time. *)
Definition s_marked : sched := upd Demo.s_new 2 (λ x, set_reaped x true).
Definition s_shared : sched := (proc_create s_marked 0x500000 0xA000 0xB000 0xC000 0x4300).2.

Strategy 100 [s_killed s_reaped s_again s_twice s_rekilled s_claimed s_asleep s_stranded s_early_kill s_early_claim s_unlinked s_marked s_shared].

Lemma ostep_astep w w' : rtc ostep w w' → rtc astep w w'.
Proof. apply rtc_subrel. intros x y (e & H & _). by exists e. Qed.

Lemma kill_step s P E F s' out c :
  (proc_kill_locked s c 2).1 = out → (proc_kill_locked s c 2).2 = s' → valid_cpu s c → pid (proc s 2) ≠ 0 →
  astep (mkWorld s P E F) (mkWorld s' (match out with KillExit p => p :: P | _ => P end) E F).
Proof.
  intros H1 H2 Hc Hp. exists EvOther. apply (StKill s P E F c 2); [done| |done|by rewrite <- H1, <- H2, <- surjective_pairing].
  unfold valid_proc, SCHED_MAX_PROCS. lia.
Qed.

Ltac run := unfold valid_cpu, active; vm_compute; (congruence || done).

Lemma killed_path : rtc astep Demo.w_boot (mkWorld s_killed [] [] []).
Proof.
  transitivity (mkWorld Demo.s_run [] [] []); [apply ostep_astep, Demo.run_path|]. apply rtc_once.
  apply (kill_step Demo.s_run [] [] [] s_killed KillDone 0); run.
Qed.

End Races.

(** [proc_waitpid] collects any DEAD child that was not collected, also one that
    was killed while it runs on another CPU: its slot is given to a new process,
    which a second CPU dispatches, and two CPUs run on one slot. *)
Theorem reap_while_running :
  ∃ w, rtc astep Demo.w_boot w ∧ cur (w_sched w) 0 = 2 ∧ cur (w_sched w) 1 = 2.
Proof.
  exists (mkWorld Races.s_twice [] [] []). split; [|split; vm_compute; reflexivity].
  transitivity (mkWorld Races.s_killed [] [] []); [exact Races.killed_path|].
  eapply rtc_l; [exists (EvReap 2); apply (StReap Races.s_killed [] [] [] 2); Races.run|].
  eapply rtc_l; [exists (EvCreate 2); apply (StCreate Races.s_reaped [] [] [] 0x500000 0xA000 0xB000 0xC000 0x4300 2 Races.s_again); [|done]|].
  { unfold Races.s_again. rewrite (surjective_pairing (proc_create _ _ _ _ _ _)) at 1. f_equal; vm_compute; reflexivity. }
  eapply rtc_l; [exists (EvPublish 2); exact (StMakeReady Races.s_again [] [] [] 2 [])|].
  apply rtc_once. exists EvOther. apply (StYield (proc_make_ready Races.s_again 2) [] [] [] 0 0x200). split; Races.run.
Qed.

(** A process killed twice while it runs goes to sleep before it has seen the
    kills; the [proc_exit] of the second one takes it off the queue where the
    wake-ups look for it. *)
Theorem late_exit_strands :
  ∃ w, rtc astep Demo.w_boot w ∧ state (proc (w_sched w) 2) = PROC_BLOCKED ∧ is_linked (w_sched w) 2 = false ∧
       w_pend w = [] ∧ w_exits w = [].
Proof.
  exists (mkWorld Races.s_stranded [] [] []). split; [|split_and!; vm_compute; reflexivity].
  transitivity (mkWorld Races.s_killed [] [] []); [exact Races.killed_path|].
  eapply rtc_l; [apply (Races.kill_step Races.s_killed [] [] [] Races.s_rekilled (KillExit 2) 0); Races.run|].
  eapply rtc_l; [exists EvOther; apply (StExitKilled Races.s_rekilled [] 2 [] [] [] true Races.s_claimed)|].
  { unfold Races.s_claimed. rewrite (surjective_pairing (proc_exit_claim _ _)) at 1. f_equal; vm_compute; reflexivity. }
  eapply rtc_l; [exists (EvBlock 1); apply (StBlock Races.s_claimed [] [2] [] 1 0x77 0 0x200); split; Races.run|].
  apply rtc_once. exists EvOther. unfold Races.s_stranded, Races.s_asleep. exact (StExitUnlink _ [] [] 2 [] []).
Qed.

(** A process killed before it was made ready is READY on no queue once the exit
    has run to its end. *)
Theorem killed_before_ready :
  ∃ w, rtc astep Demo.w_boot w ∧ state (proc (w_sched w) 2) = PROC_READY ∧ is_linked (w_sched w) 2 = false ∧
       w_pend w = [] ∧ w_exits w = [].
Proof.
  exists (mkWorld Races.s_unlinked [] [] []). split; [|split_and!; vm_compute; reflexivity].
  eapply rtc_l; [exists (EvCreate 2); exact Demo.new_step|].
  eapply rtc_l; [apply (Races.kill_step Demo.s_new [] [] [2] Races.s_early_kill (KillExit 2) 0); Races.run|].
  eapply rtc_l; [exists EvOther; apply (StExitKilled Races.s_early_kill [] 2 [] [] [2] true Races.s_early_claim)|].
  { unfold Races.s_early_claim. rewrite (surjective_pairing (proc_exit_claim _ _)) at 1. f_equal; vm_compute; reflexivity. }
  eapply rtc_l; [exists (EvPublish 2); exact (StMakeReady Races.s_early_claim [] [2] [] 2 [])|].
  apply rtc_once. exists EvOther. unfold Races.s_unlinked. exact (StExitUnlink _ [] [] 2 [] []).
Qed.

(** While [proc_clone] has a new slot marked as collected, [proc_create] on another
    CPU returns the same slot. *)
Theorem slot_created_twice : ∃ w, rtc astep Demo.w_boot w ∧ w_fresh w = [2; 2].
Proof.
  exists (mkWorld Races.s_shared [] [] [2; 2]). split; [|done]. eapply rtc_l; [exists (EvCreate 2); exact Demo.new_step|].
  eapply rtc_l; [exists EvOther; apply (StMark Demo.s_new [] [] [2] 2 true); left|].
  apply rtc_once. exists (EvCreate 2). apply (StCreate Races.s_marked [] [] [2] 0x500000 0xA000 0xB000 0xC000 0x4300 2 Races.s_shared); [|done].
  unfold Races.s_shared. rewrite (surjective_pairing (proc_create _ _ _ _ _ _)) at 1. f_equal; vm_compute; reflexivity.
Qed.
