(* ===== verification/Block.v ===== *)
(** * Block devices

    [kernel/hal/block/block_dev.h]: the interface every storage driver offers
    and the file system is written against, here a class with its laws; and the
    RAM disk of [kernel/hal/block/ramdisk.c] as an instance.

    A buffer is a byte memory of its own.  [memcpy] between two such objects is
    [blit]; the word-wise routine of [lib/string.c] that performs it is verified
    in [CString.v]. *)

From S2P Require Import Prelude Mem CString.

Definition blit (dst : mem) (d : Z) (src : mem) (s n : Z) : mem :=
  λ a, if (d <=? a) && (a <? d + n) then src (s + (a - d)) else dst a.

Lemma blit_in dst d src s n a : d ≤ a < d + n → blit dst d src s n a = src (s + (a - d)).
Proof. intros H. unfold blit. rewrite (proj2 (Z.leb_le d a)), (proj2 (Z.ltb_lt a (d + n))) by lia. done. Qed.
Lemma blit_out dst d src s n a : a < d ∨ d + n ≤ a → blit dst d src s n a = dst a.
Proof. intros H. unfold blit. destruct (Z.leb_spec d a), (Z.ltb_spec a (d + n)); simpl; (lia || done). Qed.

(** [memcpy] within one memory whose ranges do not overlap is a [blit]. *)
Lemma memcpy_blit m dst src n a :
  mem_bytes m → 0 ≤ n → dst + n ≤ src ∨ src + n ≤ dst → memcpy m dst src n a = blit m dst m src n a.
Proof.
  intros Hm Hn Hd. rewrite memcpy_moved by (done || lia). unfold moved, blit. by case_if.
Qed.

Definition BLOCK_SIZE : Z := 4096.

(** [block_dev_t]: [dev_read d lba count buf] and [dev_write d lba count buf]. *)
Class BlockDev (D : Type) := {
  block_count : D → Z;
  dev_read : D → Z → Z → mem → bool * mem;
  dev_write : D → Z → Z → mem → bool * D;
}.

(** [block_read] and [block_write] on a device that is present. *)
Definition block_read `{BlockDev D} (d : D) (lba count : Z) (buf : mem) : bool * mem := dev_read d lba count buf.
Definition block_write `{BlockDev D} (d : D) (lba count : Z) (buf : mem) : bool * D := dev_write d lba count buf.

(** What the file system relies on: a block of the device reads as what was last
    written to it, and a write changes no other block. *)
Class BlockDevLaws (D : Type) `{BlockDev D} := {
  dev_data : D → Z → Z → Z;
  dev_ok : D → Prop;
  dev_read_data d lba buf : dev_ok d → 0 ≤ lba < block_count d →
    (block_read d lba 1 buf).1 = true ∧
    ∀ a, 0 ≤ a < BLOCK_SIZE → (block_read d lba 1 buf).2 a = dev_data d lba a;
  dev_write_data d lba buf : dev_ok d → 0 ≤ lba < block_count d →
    (block_write d lba 1 buf).1 = true ∧ dev_ok (block_write d lba 1 buf).2 ∧
    block_count (block_write d lba 1 buf).2 = block_count d ∧
    ∀ b a, 0 ≤ b < block_count d → 0 ≤ a < BLOCK_SIZE →
      dev_data (block_write d lba 1 buf).2 b a = if b =? lba then buf a else dev_data d b a;
}.

(** ** The RAM disk *)

Definition RAMDISK_BLOCKS : Z := 1024.

(** [ramdisk_t], with the memory its frames live in. *)
Record ramdisk := mkRamdisk { rd_count : Z; rd_base : Z; rd_mem : mem }.

Definition ramdisk_read (d : ramdisk) (lba count : Z) (buf : mem) : bool * mem :=
  if rd_count d <? u64 (lba + count) then (false, buf)
  else (true, blit buf 0 (rd_mem d) (rd_base d + lba * BLOCK_SIZE) (count * BLOCK_SIZE)).

Definition ramdisk_write (d : ramdisk) (lba count : Z) (buf : mem) : bool * ramdisk :=
  if rd_count d <? u64 (lba + count) then (false, d)
  else (true, mkRamdisk (rd_count d) (rd_base d)
                (blit (rd_mem d) (rd_base d + lba * BLOCK_SIZE) buf 0 (count * BLOCK_SIZE))).

#[export] Instance ramdisk_dev : BlockDev ramdisk := {|
  block_count := rd_count;
  dev_read := ramdisk_read;
  dev_write := ramdisk_write;
|}.

(** [ramdisk_create] on the frames [pmm_alloc_contig] returned; [hhdm] is the
    offset of the direct map. *)
Definition ramdisk_create (phys hhdm : Z) (m : mem) : option ramdisk :=
  if phys =? 0 then None else Some (mkRamdisk RAMDISK_BLOCKS (phys + hhdm) m).

#[export] Instance ramdisk_laws : BlockDevLaws ramdisk.
Proof.
  refine (Build_BlockDevLaws _ _ (λ d b a, rd_mem d (rd_base d + b * BLOCK_SIZE + a))
            (λ d, rd_count d < 2 ^ 64) _ _).
  - intros d lba buf Hok Hl. unfold block_read, dev_read, ramdisk_dev, ramdisk_read.
    rewrite (u64_small (lba + 1)) by (cbn [block_count ramdisk_dev] in Hl; lia).
    rewrite (proj2 (Z.ltb_ge _ _)) by (cbn [block_count ramdisk_dev] in Hl; lia). split; [done|]. intros a Ha. cbn [snd].
    rewrite blit_in by (unfold BLOCK_SIZE in *; lia). f_equal. lia.
  - intros d lba buf Hok Hl. unfold block_write, dev_write, ramdisk_dev, ramdisk_write. cbn [block_count ramdisk_dev] in *.
    rewrite (u64_small (lba + 1)) by lia. rewrite (proj2 (Z.ltb_ge _ _)) by lia. cbn [fst snd rd_count rd_base rd_mem].
    split_and!; [done|done|done|]. intros b a Hb Ha. destruct (Z.eqb_spec b lba) as [->|Hne].
    + rewrite blit_in by (unfold BLOCK_SIZE in *; lia). f_equal. lia.
    + rewrite blit_out; [done|]. unfold BLOCK_SIZE in *. nia.
Defined.
