(* ===== verification/Vmm.v ===== *)
(** * Virtual memory: x86-64 four-level page tables

    [kernel/memory/vmm.c] and the constants of [vmm.h].  A page table is 512
    64-bit entries in the byte memory of [Mem.v], reached through the direct map
    (a frame at physical address [t] lies at [t + hhdm]); the frame allocator is
    the interface of [Frames.v].  [memset(page, 0, PAGE_SIZE)] is [filled] and
    [memcpy] of a page is [blit], the meanings [CString.v] and [Block.v] prove of
    the routines.  The TLB is not modelled: [invlpg] and CR3 reloads have no
    effect on the tables. *)

From S2P Require Import Prelude Mem CString Block Pmm Frames.

(** Entry flags. *)
Definition VMM_P : Z := 1.
Definition VMM_RW : Z := 2.
Definition VMM_U : Z := 4.
Definition VMM_WT : Z := 8.
Definition VMM_CD : Z := 16.
Definition VMM_PS : Z := 128.
Definition VMM_NX : Z := 9223372036854775808.
Definition VMM_PHYS_MASK : Z := 4503599627366400.      (* 0x000FFFFFFFFFF000 *)
Definition VMM_COW : Z := 512.
Definition VMM_SHARED : Z := 1024.

Definition PML4_IDX (v : Z) : Z := Z.land (Z.shiftr v 39) 511.
Definition PDPT_IDX (v : Z) : Z := Z.land (Z.shiftr v 30) 511.
Definition PD_IDX (v : Z) : Z := Z.land (Z.shiftr v 21) 511.
Definition PT_IDX (v : Z) : Z := Z.land (Z.shiftr v 12) 511.

Definition KERNEL_PML4_START : Z := 256.
Definition HIGHER_HALF : Z := 18446603336221196288.    (* 0xFFFF800000000000 *)

(** [e & flag] as a condition. *)
Definition has (e flag : Z) : bool := negb (Z.land e flag =? 0).

(** Loops that stop at the first failing step:
    [for (i = lo; i < lo + n; i++) if (!f(i)) return false;] *)
Fixpoint for_ok {S} (f : Z → S → bool * S) (lo : Z) (n : nat) (s : S) : bool * S :=
  match n with
  | O => (true, s)
  | Datatypes.S n => let '(ok, s') := f lo s in if ok then for_ok f (lo + 1) n s' else (false, s')
  end.
(** An invariant [P] of the completed turns, or [Q] once a turn has failed. *)
Lemma for_ok_ind {S} (P : Z → S → Prop) (Q : S → Prop) f lo n s :
  P lo s →
  (∀ i s, lo ≤ i < lo + Z.of_nat n → P i s → let '(ok, s') := f i s in if ok : bool then P (i + 1) s' else Q s') →
  let '(ok, s') := for_ok f lo n s in if ok : bool then P (lo + Z.of_nat n) s' else Q s'.
Proof.
  revert lo s. induction n as [|n IH]; intros lo s H0 Hs; simpl.
  - by rewrite Z.add_0_r.
  - pose proof (Hs lo s ltac:(lia) H0) as H1. destruct (f lo s) as [[] s']; [|done].
    replace (lo + Z.of_nat (Datatypes.S n)) with (lo + 1 + Z.of_nat n) by lia.
    apply IH; [done|]. intros i s'' Hi. apply Hs. lia.
Qed.
#[global] Arguments for_ok : simpl never.

(** Memory, the frame allocator and the cached [kernel_pml4_virt] (0 is NULL). *)
Record vm (F : Type) := mkVm { vmem : mem; fa : F; kernel_pml4_virt : Z }.
Arguments mkVm {F}.
Arguments vmem {F}.
Arguments fa {F}.
Arguments kernel_pml4_virt {F}.

Section vmm.
Context {F : Type} `{FrameAlloc F}.
Implicit Types s : vm F.

Definition with_mem s (m : mem) : vm F := mkVm m (fa s) (kernel_pml4_virt s).
Definition with_fa s (f : F) : vm F := mkVm (vmem s) f (kernel_pml4_virt s).

(** [phys_to_virt], and the table an entry points to. *)
Definition p2v s (phys : Z) : Z := u64 (phys + fa_hhdm (fa s)).
Definition entry_table s (e : Z) : Z := p2v s (Z.land e VMM_PHYS_MASK).

(** [tbl[i]] and [tbl[i] = v]. *)
Definition rd_entry s (tbl i : Z) : Z := ld64 (vmem s) (tbl + 8 * i).
Definition wr_entry s (tbl i v : Z) : vm F := with_mem s (st64 (vmem s) (tbl + 8 * i) v).
Definition zero_page s (p : Z) : vm F := with_mem s (filled (vmem s) p 0 PAGE_SIZE).

Definition vmm_kernel_pml4 (cr3 : Z) s : Z * vm F :=
  if kernel_pml4_virt s =? 0
  then (p2v s cr3, mkVm (vmem s) (fa s) (p2v s cr3))
  else (kernel_pml4_virt s, s).

Definition vmm_create_pml4 (cr3 : Z) s : Z * vm F :=
  let '(kpml4, s) := vmm_kernel_pml4 cr3 s in
  let '(phys, f) := fa_alloc (fa s) in
  let s := with_fa s f in
  if phys =? 0 then (0, s)
  else
    let vpml4 := p2v s phys in
    let s := zero_page s vpml4 in
    (phys, iter_up (λ i s, wr_entry s vpml4 i (rd_entry s kpml4 i)) KERNEL_PML4_START 256 s).

(** One level of [vmm_map_page]: the entry [tbl[i]] is given a fresh zeroed
    table when it is not present; the table it points to. *)
Definition next_table s (tbl i : Z) : option Z * vm F :=
  if negb (has (rd_entry s tbl i) VMM_P) then
    let '(pt, f) := fa_alloc (fa s) in
    let s := with_fa s f in
    if pt =? 0 then (None, s)
    else
      let s := zero_page s (p2v s pt) in
      let s := wr_entry s tbl i
                 (Z.lor (Z.lor (Z.lor (Z.land pt VMM_PHYS_MASK) VMM_P) VMM_RW) VMM_U) in
      (Some (entry_table s (rd_entry s tbl i)), s)
  else (Some (entry_table s (rd_entry s tbl i)), s).

Definition vmm_map_page s (pml4_virt vaddr paddr flags : Z) : bool * vm F :=
  if pml4_virt <? HIGHER_HALF then (false, s)
  else
    let f := Z.lor flags VMM_P in
    match next_table s pml4_virt (PML4_IDX vaddr) with
    | (None, s) => (false, s)
    | (Some pdpt, s) =>
        match next_table s pdpt (PDPT_IDX vaddr) with
        | (None, s) => (false, s)
        | (Some pd, s) =>
            match next_table s pd (PD_IDX vaddr) with
            | (None, s) => (false, s)
            | (Some pt, s) =>
                (true, wr_entry s pt (PT_IDX vaddr) (Z.lor (Z.land paddr VMM_PHYS_MASK) f))
            end
        end
    end.

Definition vmm_unmap_page s (pml4_virt vaddr : Z) : vm F :=
  let pml4e := rd_entry s pml4_virt (PML4_IDX vaddr) in
  if negb (has pml4e VMM_P) then s
  else
    let pdpte := rd_entry s (entry_table s pml4e) (PDPT_IDX vaddr) in
    if negb (has pdpte VMM_P) then s
    else
      let pde := rd_entry s (entry_table s pdpte) (PD_IDX vaddr) in
      if negb (has pde VMM_P) then s
      else wr_entry s (entry_table s pde) (PT_IDX vaddr) 0.

Definition vmm_virt_to_phys s (pml4_virt vaddr : Z) : Z :=
  let pml4e := rd_entry s pml4_virt (PML4_IDX vaddr) in
  if negb (has pml4e VMM_P) then 0
  else
    let pdpte := rd_entry s (entry_table s pml4e) (PDPT_IDX vaddr) in
    if negb (has pdpte VMM_P) then 0
    else if has pdpte VMM_PS
    then u64 (Z.land pdpte VMM_PHYS_MASK + Z.land vaddr 1073741823)
    else
      let pde := rd_entry s (entry_table s pdpte) (PD_IDX vaddr) in
      if negb (has pde VMM_P) then 0
      else if has pde VMM_PS
      then u64 (Z.land pde VMM_PHYS_MASK + Z.land vaddr 2097151)
      else
        u64 (Z.land (rd_entry s (entry_table s pde) (PT_IDX vaddr)) VMM_PHYS_MASK
             + Z.land vaddr 4095).

(** The address of the leaf entry; [None] is NULL. *)
Definition vmm_pte_lookup s (pml4_virt vaddr : Z) : option Z :=
  if pml4_virt =? 0 then None
  else
    let pml4e := rd_entry s pml4_virt (PML4_IDX vaddr) in
    if negb (has pml4e VMM_P) then None
    else
      let pdpte := rd_entry s (entry_table s pml4e) (PDPT_IDX vaddr) in
      if negb (has pdpte VMM_P) || has pdpte VMM_PS then None
      else
        let pde := rd_entry s (entry_table s pdpte) (PD_IDX vaddr) in
        if negb (has pde VMM_P) || has pde VMM_PS then None
        else Some (entry_table s pde + 8 * PT_IDX vaddr).

(** ** Tearing an address space down *)

Definition free_table s (phys : Z) : vm F := with_fa s (fa_unref (fa s) phys).

Definition destroy_pte (pt l : Z) s : vm F :=
  let pte := rd_entry s pt l in
  if has pte VMM_P
  then wr_entry (with_fa s (fa_unref (fa s) (Z.land pte VMM_PHYS_MASK))) pt l 0
  else s.

Definition destroy_pde (pd k : Z) s : vm F :=
  let pde := rd_entry s pd k in
  if negb (has pde VMM_P) then s
  else
    let pt_phys := Z.land pde VMM_PHYS_MASK in
    let s := iter_up (destroy_pte (p2v s pt_phys)) 0 512 s in
    wr_entry (free_table s pt_phys) pd k 0.

Definition destroy_pdpte (pdpt j : Z) s : vm F :=
  let pdpte := rd_entry s pdpt j in
  if negb (has pdpte VMM_P) then s
  else
    let s := iter_up (destroy_pde (entry_table s pdpte)) 0 512 s in
    wr_entry (free_table s (Z.land pdpte VMM_PHYS_MASK)) pdpt j 0.

Definition destroy_pml4e (pml4_virt i : Z) s : vm F :=
  let pml4e := rd_entry s pml4_virt i in
  if negb (has pml4e VMM_P) then s
  else
    let s := iter_up (destroy_pdpte (entry_table s pml4e)) 0 512 s in
    wr_entry (free_table s (Z.land pml4e VMM_PHYS_MASK)) pml4_virt i 0.

Definition vmm_destroy_user s (pml4_virt : Z) : vm F :=
  iter_up (destroy_pml4e pml4_virt) 0 (Z.to_nat KERNEL_PML4_START) s.

(** ** Copy-on-write clone *)

Definition CLONE_FLAGS : Z :=
  Z.lor (Z.lor (Z.lor (Z.lor (Z.lor (Z.lor VMM_RW VMM_U) VMM_WT) VMM_CD) VMM_NX) VMM_COW) VMM_SHARED.

(** The flags the copy gets, and whether the source entry is made
    copy-on-write too. *)
Definition clone_flags (pte : Z) : Z * bool :=
  let flags := Z.land pte CLONE_FLAGS in
  if negb (has flags VMM_SHARED) && has flags VMM_RW
  then (Z.lor (Z.land flags (Z.lnot VMM_RW)) VMM_COW, true)
  else (flags, false).

(** One present leaf entry: the source entry at index [l] of [src_pt] stands
    for the page [(i, j, k, l)].  On failure the half-built copy is destroyed. *)
Definition clone_pte (dst_phys dst_pml4 i j k src_pt l : Z) s : bool * vm F :=
  let pte := rd_entry s src_pt l in
  if negb (has pte VMM_P) then (true, s)
  else
    let vaddr := Z.lor (Z.lor (Z.lor (Z.shiftl i 39) (Z.shiftl j 30)) (Z.shiftl k 21)) (Z.shiftl l 12) in
    let phys := Z.land pte VMM_PHYS_MASK in
    let '(flags, cow) := clone_flags pte in
    let s := if cow
             then wr_entry s src_pt l (Z.lor (Z.land (rd_entry s src_pt l) (Z.lnot VMM_RW)) VMM_COW)
             else s in
    match vmm_map_page s dst_pml4 vaddr phys flags with
    | (false, s) =>
        let s := vmm_destroy_user s dst_pml4 in
        (false, with_fa s (fa_unref (fa s) dst_phys))
    | (true, s) => (true, with_fa s (fa_ref (fa s) phys))
    end.

Definition clone_pde (dst_phys dst_pml4 i j src_pd k : Z) s : bool * vm F :=
  let pde := rd_entry s src_pd k in
  if negb (has pde VMM_P) then (true, s)
  else for_ok (clone_pte dst_phys dst_pml4 i j k (entry_table s pde)) 0 512 s.

Definition clone_pdpte (dst_phys dst_pml4 i src_pdpt j : Z) s : bool * vm F :=
  let pdpte := rd_entry s src_pdpt j in
  if negb (has pdpte VMM_P) then (true, s)
  else for_ok (clone_pde dst_phys dst_pml4 i j (entry_table s pdpte)) 0 512 s.

Definition clone_pml4e (dst_phys dst_pml4 src_pml4 i : Z) s : bool * vm F :=
  let pml4e := rd_entry s src_pml4 i in
  if negb (has pml4e VMM_P) then (true, s)
  else for_ok (clone_pdpte dst_phys dst_pml4 i (entry_table s pml4e)) 0 512 s.

Definition vmm_clone_user (cr3 : Z) s (src_pml4_virt : Z) : Z * vm F :=
  let '(dst_phys, s) := vmm_create_pml4 cr3 s in
  if dst_phys =? 0 then (0, s)
  else
    let dst_pml4 := p2v s dst_phys in
    match for_ok (clone_pml4e dst_phys dst_pml4 src_pml4_virt) 0 (Z.to_nat KERNEL_PML4_START) s with
    | (true, s) => (dst_phys, s)
    | (false, s) => (0, s)
    end.
End vmm.
