(* ===== verification/VmmProofs.v ===== *)
(** * Page tables: the invariant and the frame lemmas

    The tables of a set of address spaces form trees that are disjoint in the
    user half and share the kernel half; mapping and unmapping change exactly
    one leaf entry of one tree.  [VmmSpec.v] states the results. *)

From S2P Require Import Prelude Mem CString Block Pmm Frames Vmm.

(** ** Bits of entries *)

Lemma has_testbit e n : 0 ≤ n → has e (2 ^ n) = Z.testbit e n.
Proof.
  intros Hn. unfold has. destruct (Z.testbit e n) eqn:E; destruct (Z.eqb_spec (Z.land e (2 ^ n)) 0) as [H|H]; try done.
  - assert (Z.testbit (Z.land e (2 ^ n)) n = false) as Hb by (rewrite H; apply Z.bits_0).
    rewrite Z.land_spec, E, Z.pow2_bits_true in Hb by lia. done.
  - exfalso. apply H. apply Z.bits_inj'. intros m Hm. rewrite Z.land_spec, Z.bits_0.
    rewrite Z.pow2_bits_eqb by lia. destruct (Z.eqb_spec n m) as [->|]; [by rewrite E|apply andb_false_r].
Qed.

Lemma has_P e : has e VMM_P = Z.testbit e 0.
Proof. apply (has_testbit e 0). lia. Qed.
Lemma has_RW e : has e VMM_RW = Z.testbit e 1.
Proof. apply (has_testbit e 1). lia. Qed.
Lemma has_PS e : has e VMM_PS = Z.testbit e 7.
Proof. apply (has_testbit e 7). lia. Qed.
Lemma has_COW e : has e VMM_COW = Z.testbit e 9.
Proof. apply (has_testbit e 9). lia. Qed.
Lemma has_SHARED e : has e VMM_SHARED = Z.testbit e 10.
Proof. apply (has_testbit e 10). lia. Qed.

(** Decides the truth of a flag of a composed entry. *)
Ltac flag_bits :=
  rewrite ?has_P, ?has_RW, ?has_PS, ?has_COW, ?has_SHARED in *;
  repeat (rewrite ?Z.lor_spec, ?Z.land_spec, ?Z.lnot_spec in * by lia).

Lemma mask_testbit n : 0 ≤ n → Z.testbit VMM_PHYS_MASK n = (12 <=? n) && (n <? 52).
Proof.
  intros Hn. replace VMM_PHYS_MASK with (Z.shiftl (Z.ones 40) 12) by reflexivity.
  rewrite Z.shiftl_spec by lia. destruct (Z.leb_spec 12 n).
  - rewrite Z.testbit_ones_nonneg by lia.
    destruct (Z.ltb_spec (n - 12) 40), (Z.ltb_spec n 52); simpl; lia || done.
  - rewrite Z.testbit_neg_r by lia. done.
Qed.

(** A frame address is not changed by the mask. *)
Lemma land_mask_frame t : page_aligned t → 0 ≤ t < 2 ^ 52 → Z.land t VMM_PHYS_MASK = t.
Proof.
  intros Ha Ht. apply Z.bits_inj'. intros n Hn. rewrite Z.land_spec, mask_testbit by lia.
  unfold page_aligned, PAGE_SIZE in Ha.
  destruct (Z.leb_spec 12 n); simpl.
  - destruct (Z.ltb_spec n 52); [apply andb_true_r|]. rewrite andb_false_r.
    rewrite <- (Z.mod_small t (2 ^ 52)) by lia. by rewrite Z.mod_pow2_bits_high by lia.
  - rewrite andb_false_r. change 4096 with (2 ^ 12) in Ha.
    rewrite <- (Z.mod_pow2_bits_low t 12 n) by lia. rewrite Ha. by rewrite Z.bits_0.
Qed.

(** Adding flags outside the mask keeps the address. *)
Lemma land_mask_lor a f : Z.land f VMM_PHYS_MASK = 0 → Z.land (Z.lor a f) VMM_PHYS_MASK = Z.land a VMM_PHYS_MASK.
Proof. intros Hf. by rewrite Z.land_lor_distr_l, Hf, Z.lor_0_r. Qed.

Lemma land_mask_range a : 0 ≤ a → 0 ≤ Z.land a VMM_PHYS_MASK < 2 ^ 52.
Proof.
  intros Ha. assert (0 ≤ Z.land a VMM_PHYS_MASK) by (apply Z.land_nonneg; lia). split; [done|].
  assert (E : Z.land a VMM_PHYS_MASK = Z.land a VMM_PHYS_MASK mod 2 ^ 52).
  { apply Z.bits_inj'. intros n Hn. destruct (Z.lt_ge_cases n 52).
    - by rewrite Z.mod_pow2_bits_low by lia.
    - rewrite Z.mod_pow2_bits_high by lia. rewrite Z.land_spec, mask_testbit by lia.
      destruct (Z.ltb_spec n 52); [lia|]. by rewrite !andb_false_r. }
  rewrite E. apply Z.mod_pos_bound. lia.
Qed.

Lemma land_range a b n : 0 ≤ n → 0 ≤ a < 2 ^ n → 0 ≤ Z.land a b < 2 ^ n.
Proof.
  intros Hn Ha. assert (H : Z.land a b = Z.land a b mod 2 ^ n).
  { apply Z.bits_inj'. intros m Hm. destruct (Z.lt_ge_cases m n).
    - by rewrite Z.mod_pow2_bits_low by lia.
    - rewrite Z.mod_pow2_bits_high by lia. rewrite Z.land_spec.
      rewrite <- (Z.mod_small a (2 ^ n)) by lia. by rewrite Z.mod_pow2_bits_high by lia. }
  rewrite H. apply Z.mod_pos_bound. lia.
Qed.

Lemma land_mask_aligned a : page_aligned (Z.land a VMM_PHYS_MASK).
Proof.
  unfold page_aligned. change PAGE_SIZE with (2 ^ 12). rewrite <- Z.land_ones by lia.
  rewrite <- Z.land_assoc. replace (Z.land VMM_PHYS_MASK (Z.ones 12)) with 0 by reflexivity.
  apply Z.land_0_r.
Qed.

(** ** Words in zeroed pages *)

Lemma ld64_filled_in m p n a : p ≤ a → a + 8 ≤ p + n → ld64 (filled m p 0 n) a = 0.
Proof.
  intros H1 H2. unfold ld64. rewrite (load_le_ext (λ _, 0)); [reflexivity|].
  change (Z.of_nat 8) with 8. intros i Hi. unfold filled.
  destruct (Z.leb_spec p (a + i)), (Z.ltb_spec (a + i) (p + n)); simpl; (lia || done).
Qed.

Lemma ld64_filled_out m p v n a : a + 8 ≤ p ∨ p + n ≤ a → ld64 (filled m p v n) a = ld64 m a.
Proof.
  intros Ha. unfold ld64. apply load_le_ext. change (Z.of_nat 8) with 8. intros i Hi. unfold filled.
  destruct (Z.leb_spec p (a + i)), (Z.ltb_spec (a + i) (p + n)); simpl; (lia || done).
Qed.

Lemma filled_bytes m p v n : mem_bytes m → 0 ≤ v < 256 → mem_bytes (filled m p v n).
Proof. intros Hm Hv a. unfold filled. case_if; [done|apply Hm]. Qed.

(** ** Table paths

    [idx d v]: the index of [v] in the table at depth [d] (0 is the PML4). *)

Definition idx (d : nat) (v : Z) : Z :=
  match d with O => PML4_IDX v | 1%nat => PDPT_IDX v | 2%nat => PD_IDX v | _ => PT_IDX v end.

Definition path_eq (d : nat) (v w : Z) : Prop := ∀ k, (k < d)%nat → idx k v = idx k w.

#[export] Instance path_eq_dec d v w : Decision (path_eq d v w).
Proof.
  induction d as [|d [IH|IH]].
  - left. intros k Hk. lia.
  - destruct (decide (idx d v = idx d w)) as [E|E].
    + left. intros k Hk. destruct (decide (k = d)) as [->|]; [done|]. apply IH. lia.
    + right. intros H. apply E, H. lia.
  - right. intros H. apply IH. intros k Hk. apply H. lia.
Defined.

Lemma path_eq_refl d v : path_eq d v v.
Proof. by intros k Hk. Qed.
Lemma path_eq_sym d v w : path_eq d v w → path_eq d w v.
Proof. intros H k Hk. symmetry. by apply H. Qed.
Lemma path_eq_trans d u v w : path_eq d u v → path_eq d v w → path_eq d u w.
Proof. intros H1 H2 k Hk. by rewrite H1, H2. Qed.
Lemma path_eq_S d v w : path_eq d v w → idx d v = idx d w → path_eq (S d) v w.
Proof. intros H E k Hk. destruct (decide (k = d)) as [->|]; [done|]. apply H. lia. Qed.
Lemma path_eq_le d d' v w : (d' ≤ d)%nat → path_eq d v w → path_eq d' v w.
Proof. intros Hd H k Hk. apply H. lia. Qed.
#[export] Hint Resolve path_eq_refl path_eq_sym path_eq_trans path_eq_S : xos.

Lemma idx_range d v : 0 ≤ idx d v < 512.
Proof.
  assert (H : ∀ x, 0 ≤ Z.land x 511 < 512).
  { intros x. change 511 with (Z.ones 9). rewrite Z.land_ones by lia. apply Z.mod_pos_bound. lia. }
  destruct d as [|[|[|d]]]; apply H.
Qed.

Definition is_user (v : Z) : Prop := PML4_IDX v < KERNEL_PML4_START.

Section paths.
Context {F : Type} `{FA : FrameAlloc F} `{FL : !FrameAllocLaws F}.
Implicit Types s : vm F.

(** The table at depth [d] on the path of [v]; a large page ends the path. *)
Definition follow s (t : Z) (d : nat) (v : Z) : option Z :=
  let e := rd_entry s t (idx d v) in
  if negb (has e VMM_P) || (match d with O => false | _ => has e VMM_PS end) then None
  else Some (entry_table s e).

Fixpoint tbl s (r : Z) (d : nat) (v : Z) : option Z :=
  match d with
  | O => Some r
  | S d => match tbl s r d v with Some t => follow s t d v | None => None end
  end.

(** The leaf entry of [v]; 0, which is not present, when a table is missing. *)
Definition pte s (r v : Z) : Z :=
  match tbl s r 3 v with Some t => rd_entry s t (PT_IDX v) | None => 0 end.

(** A table is a page of the direct map that the allocator has handed out. *)
Definition table_page s (t : Z) : Prop :=
  fa_hhdm (fa s) ≤ t ∧ t + PAGE_SIZE ≤ 2 ^ 64 ∧ page_aligned t ∧ ¬ fa_free (fa s) (t - fa_hhdm (fa s)).

Record vm_ok s (roots : list Z) : Prop := {
  ok_fa : fa_ok (fa s);
  ok_bytes : mem_bytes (vmem s);
  ok_tab : ∀ r d v t, r ∈ roots → (d ≤ 3)%nat → tbl s r d v = Some t → table_page s t;
  ok_inj : ∀ r r' d d' v w t, r ∈ roots → r' ∈ roots → (d ≤ 3)%nat → (d' ≤ 3)%nat → is_user v →
    tbl s r d v = Some t → tbl s r' d' w = Some t → r = r' ∧ d = d' ∧ path_eq d v w;
  ok_small : ∀ r d v t, r ∈ roots → (1 ≤ d ≤ 2)%nat → is_user v → tbl s r d v = Some t →
    has (rd_entry s t (idx d v)) VMM_P = true → has (rd_entry s t (idx d v)) VMM_PS = false;
}.

(** *** Reads over writes *)

Lemma rd_wr_eq s t i x : 0 ≤ x < 2 ^ 64 → rd_entry (wr_entry s t i x) t i = x.
Proof. intros Hx. apply ld64_st64_eq. done. Qed.

Lemma rd_wr_ne s t i x t' i' :
  page_aligned t → page_aligned t' → 0 ≤ i < 512 → 0 ≤ i' < 512 → t ≠ t' ∨ i ≠ i' →
  rd_entry (wr_entry s t i x) t' i' = rd_entry s t' i'.
Proof.
  unfold page_aligned, PAGE_SIZE. intros Ha Ha' Hi Hi' Hne. apply ld64_st64_ne. zlia.
Qed.

Lemma rd_zero_ne s p t i :
  page_aligned p → page_aligned t → 0 ≤ i < 512 → p ≠ t → rd_entry (zero_page s p) t i = rd_entry s t i.
Proof.
  unfold page_aligned. intros Ha Ha' Hi Hne. apply ld64_filled_out. unfold PAGE_SIZE in *. zlia.
Qed.

Lemma rd_zero_eq s p i : 0 ≤ i < 512 → rd_entry (zero_page s p) p i = 0.
Proof. intros Hi. apply ld64_filled_in; unfold PAGE_SIZE; lia. Qed.

Lemma entry_table_wr s t i x e : entry_table (wr_entry s t i x) e = entry_table s e.
Proof. done. Qed.

(** Tables whose entries on the path of [w] did not change are the same. *)
Lemma tbl_same s s' r w n :
  fa_hhdm (fa s') = fa_hhdm (fa s) →
  (∀ d t, (d < n)%nat → tbl s r d w = Some t → rd_entry s' t (idx d w) = rd_entry s t (idx d w)) →
  ∀ d, (d ≤ n)%nat → tbl s' r d w = tbl s r d w.
Proof.
  intros Hh He d. induction d as [|d IH]; intros Hd; [done|]. simpl. rewrite IH by lia.
  destruct (tbl s r d w) as [t|] eqn:Et; [|done]. unfold follow. rewrite (He d t) by (done || lia).
  unfold entry_table, p2v. by rewrite Hh.
Qed.

Lemma tbl_path_eq s r d v w : path_eq d v w → tbl s r d v = tbl s r d w.
Proof.
  induction d as [|d IH]; intros H; [done|]. simpl. rewrite IH by (eapply path_eq_le; [|done]; lia).
  destruct (tbl s r d w) as [t|]; [|done]. unfold follow. by rewrite (H d) by lia.
Qed.

Lemma is_user_path d v w : path_eq (S d) v w → is_user v → is_user w.
Proof. unfold is_user. intros H. specialize (H 0%nat ltac:(lia)). simpl in H. by rewrite H. Qed.

Lemma pte_path s r v w : path_eq 4 v w → pte s r v = pte s r w.
Proof.
  intros H. unfold pte. rewrite (tbl_path_eq s r 3 v w) by (eapply path_eq_le; [|done]; lia).
  specialize (H 3%nat ltac:(lia)). simpl in H. by rewrite H.
Qed.

Lemma tab_aligned s roots r d v t :
  vm_ok s roots → r ∈ roots → (d ≤ 3)%nat → tbl s r d v = Some t → page_aligned t.
Proof. intros Hok Hr Hd Ht. by destruct (ok_tab _ _ Hok _ _ _ _ Hr Hd Ht) as (_ & _ & ? & _). Qed.

(** *** Writing a leaf entry *)

Section leaf.
Context (s : vm F) (roots : list Z) (r v t x : Z).
Hypothesis Hok : vm_ok s roots.
Hypothesis Hr : r ∈ roots.
Hypothesis Hu : is_user v.
Hypothesis Ht : tbl s r 3 v = Some t.
Hypothesis Hx : 0 ≤ x < 2 ^ 64.
#[local] Abbreviation s' := (wr_entry s t (PT_IDX v) x).

Lemma leaf_rd r1 d w t1 :
  r1 ∈ roots → (d ≤ 3)%nat → tbl s r1 d w = Some t1 →
  ¬ (r1 = r ∧ d = 3%nat ∧ path_eq 4 v w) → rd_entry s' t1 (idx d w) = rd_entry s t1 (idx d w).
Proof.
  intros H1 Hd E Hne. apply rd_wr_ne; [by apply (tab_aligned s roots r 3 v)|by apply (tab_aligned s roots r1 d w)
    |apply (idx_range 3)|apply idx_range|].
  destruct (decide (t = t1)) as [<-|]; [right|by left]. intros Hi. apply Hne.
  destruct (ok_inj _ _ Hok r r1 3 d v w t Hr H1 ltac:(lia) Hd Hu Ht E) as (<- & <- & Hp).
  split; [done|]. split; [done|]. by apply path_eq_S.
Qed.

Lemma leaf_tbl r1 d w : r1 ∈ roots → (d ≤ 3)%nat → tbl s' r1 d w = tbl s r1 d w.
Proof.
  intros H1 Hd. apply (tbl_same s s' r1 w 3); [done| |done].
  intros d1 t1 Hd1 E. apply (leaf_rd r1 d1 w t1); [done|lia|done|]. intros (_ & ? & _). lia.
Qed.

Lemma leaf_ok : vm_ok s' roots.
Proof.
  constructor.
  - apply Hok.
  - apply st64_bytes, Hok.
  - intros r1 d w t1 H1 Hd. rewrite leaf_tbl by done. by apply (ok_tab _ _ Hok).
  - intros r1 r2 d d' v1 w t1 H1 H2 Hd Hd' Hu1. rewrite !leaf_tbl by done. by apply (ok_inj _ _ Hok).
  - intros r1 d w t1 H1 Hd Hu1. rewrite leaf_tbl by (done || lia). intros E.
    rewrite (leaf_rd r1 d w t1); [by eapply (ok_small _ _ Hok)|done|lia|done|].
    intros (_ & ? & _). lia.
Qed.

Lemma leaf_pte_eq w : path_eq 4 v w → pte s' r w = x.
Proof.
  intros Hp. rewrite <- (pte_path s' r v w Hp). unfold pte. rewrite leaf_tbl, Ht by (done || lia).
  by apply rd_wr_eq.
Qed.

Lemma leaf_pte_ne r1 w : r1 ∈ roots → ¬ (r1 = r ∧ path_eq 4 v w) → pte s' r1 w = pte s r1 w.
Proof.
  intros H1 Hne. unfold pte. rewrite leaf_tbl by (done || lia).
  destruct (tbl s r1 3 w) as [t1|] eqn:E; [|done]. apply (leaf_rd r1 3 w t1); [done|lia|done|]. tauto.
Qed.
End leaf.

(** *** Linking a fresh table into a missing entry *)

Section link.
Context (s : vm F) (roots : list Z) (r v t : Z) (d0 : nat) (nt : Z) (f' : F) (e : Z).
Hypothesis Hok : vm_ok s roots.
Hypothesis Hr : r ∈ roots.
Hypothesis Hu : is_user v.
Hypothesis Hd0 : (d0 < 3)%nat.
Hypothesis Ht : tbl s r d0 v = Some t.
Hypothesis Hmiss : has (rd_entry s t (idx d0 v)) VMM_P = false.
Hypothesis Hnt_page : fa_hhdm (fa s) ≤ nt ∧ nt + PAGE_SIZE ≤ 2 ^ 64 ∧ page_aligned nt.
Hypothesis Hfresh : fa_free (fa s) (nt - fa_hhdm (fa s)).
Hypothesis Hf'_ok : fa_ok f'.
Hypothesis Hf'_h : fa_hhdm f' = fa_hhdm (fa s).
Hypothesis Hf'_free : ∀ u, fa_free f' u ↔ fa_free (fa s) u ∧ u ≠ nt - fa_hhdm (fa s).
Hypothesis He : 0 ≤ e < 2 ^ 64.
Hypothesis HeP : has e VMM_P = true.
Hypothesis HePS : has e VMM_PS = false.
Hypothesis Het : entry_table s e = nt.
#[local] Abbreviation s' := (wr_entry (zero_page (with_fa s f') nt) t (idx d0 v) e).

Lemma table_not_fresh r1 d w t1 : r1 ∈ roots → (d ≤ 3)%nat → tbl s r1 d w = Some t1 → t1 ≠ nt.
Proof. intros H1 Hd E ->. by apply (ok_tab _ _ Hok _ _ _ _ H1 Hd E). Qed.

Lemma link_rd r1 d w t1 :
  r1 ∈ roots → (d ≤ 3)%nat → tbl s r1 d w = Some t1 →
  ¬ (r1 = r ∧ d = d0 ∧ path_eq (S d0) v w) → rd_entry s' t1 (idx d w) = rd_entry s t1 (idx d w).
Proof.
  intros H1 Hd E Hne. assert (page_aligned t) by (apply (tab_aligned s roots r d0 v); auto; lia).
  assert (page_aligned t1) by by apply (tab_aligned s roots r1 d w).
  pose proof (table_not_fresh _ _ _ _ H1 Hd E).
  rewrite rd_wr_ne; [|done|done|apply idx_range|apply idx_range|].
  - by rewrite rd_zero_ne by (apply Hnt_page || done || apply idx_range).
  - destruct (decide (t = t1)) as [<-|]; [right|by left]. intros Hi. apply Hne.
    destruct (ok_inj _ _ Hok r r1 d0 d v w t Hr H1 ltac:(lia) Hd Hu Ht E) as (<- & <- & Hp).
    split; [done|]. split; [done|]. by apply path_eq_S.
Qed.

Lemma link_tbl_ne r1 w d :
  r1 ∈ roots → (d ≤ 3)%nat → ¬ (r1 = r ∧ path_eq (S d0) v w) ∨ (d ≤ d0)%nat → tbl s' r1 d w = tbl s r1 d w.
Proof.
  intros H1 Hd Hor. apply (tbl_same s s' r1 w d); [done| |done].
  intros d1 t1 Hd1 E. apply (link_rd r1 d1 w t1); [done|lia|done|]. intros (? & ? & ?).
  destruct Hor; [tauto|lia].
Qed.

Lemma link_tbl_new w : path_eq (S d0) v w → tbl s' r (S d0) w = Some nt.
Proof.
  intros Hp. rewrite <- (tbl_path_eq s' r (S d0) v w Hp). simpl. rewrite link_tbl_ne by (done || lia || auto).
  rewrite Ht. unfold follow. rewrite rd_wr_eq by done. rewrite HeP, HePS.
  change (entry_table s' e) with (entry_table (with_fa s f') e). unfold entry_table, p2v in *.
  cbn [with_fa fa]. rewrite Hf'_h, Het. by destruct d0.
Qed.

Lemma link_rd_new i : 0 ≤ i < 512 → rd_entry s' nt i = 0.
Proof.
  intros Hi. assert (page_aligned t) by (apply (tab_aligned s roots r d0 v); auto; lia).
  rewrite rd_wr_ne; [by apply rd_zero_eq|done|apply Hnt_page|apply idx_range|done|].
  left. eapply (table_not_fresh r d0); [done|lia|done].
Qed.

Lemma link_tbl_below w d : (S d0 < d)%nat → path_eq (S d0) v w → tbl s' r d w = None.
Proof.
  intros Hd Hp. induction d as [|d IH]; [lia|]. simpl. destruct (decide (d = S d0)) as [->|].
  - rewrite link_tbl_new by done. unfold follow. rewrite link_rd_new by apply idx_range. done.
  - by rewrite IH by lia.
Qed.

Lemma link_tbl_old w d : (d0 < d)%nat → path_eq (S d0) v w → tbl s r d w = None.
Proof.
  intros Hd Hp. induction d as [|d IH]; [lia|]. simpl. destruct (decide (d = d0)) as [->|].
  - rewrite <- (tbl_path_eq s r d0 v w) by (eapply path_eq_le; [|done]; lia). rewrite Ht.
    unfold follow. rewrite <- (Hp d0) by lia. by rewrite Hmiss.
  - by rewrite IH by lia.
Qed.

(** Every table is an old one or the new one. *)
Lemma link_tbl_inv r1 d w t1 :
  r1 ∈ roots → (d ≤ 3)%nat → tbl s' r1 d w = Some t1 →
  tbl s r1 d w = Some t1 ∨ (t1 = nt ∧ r1 = r ∧ d = S d0 ∧ path_eq (S d0) v w).
Proof.
  intros H1 Hd E. destruct (decide (r1 = r ∧ path_eq (S d0) v w)) as [[-> Hp]|Hn].
  - destruct (decide (d ≤ d0)%nat); [left; by rewrite <- (link_tbl_ne r w d) by auto|].
    destruct (decide (d = S d0)) as [->|].
    + rewrite link_tbl_new in E by done. right. split_and!; [congruence|done..].
    + rewrite link_tbl_below in E by (done || lia). done.
  - left. by rewrite <- (link_tbl_ne r1 w d) by auto.
Qed.

Lemma link_ok : vm_ok s' roots.
Proof.
  constructor.
  - done.
  - apply st64_bytes, filled_bytes; [apply Hok|lia].
  - intros r1 d w t1 H1 Hd E. unfold table_page. cbn [fa wr_entry with_mem zero_page with_fa]. rewrite Hf'_h, Hf'_free.
    destruct (link_tbl_inv _ _ _ _ H1 Hd E) as [Ho|(-> & _)].
    + destruct (ok_tab _ _ Hok _ _ _ _ H1 Hd Ho) as (? & ? & ? & ?). tauto.
    + split_and!; try apply Hnt_page. tauto.
  - intros r1 r2 d d' v1 w t1 H1 H2 Hd Hd' Hu1 E1 E2.
    destruct (link_tbl_inv _ _ _ _ H1 Hd E1) as [O1|(-> & -> & -> & P1)],
             (link_tbl_inv _ _ _ _ H2 Hd' E2) as [O2|(? & -> & -> & P2)].
    + by eapply (ok_inj _ _ Hok).
    + exfalso. by apply (table_not_fresh _ _ _ _ H1 Hd O1).
    + by destruct (table_not_fresh _ _ _ _ H2 Hd' O2).
    + split_and!; [done..|]. eauto with xos.
  - intros r1 d w t1 H1 Hd Hu1 E. assert (Hd3 : (d ≤ 3)%nat) by lia.
    destruct (link_tbl_inv _ _ _ _ H1 Hd3 E) as [O1|(-> & -> & -> & P1)].
    + destruct (decide (r1 = r ∧ d = d0 ∧ path_eq (S d0) v w)) as [(-> & -> & P)|Hn].
      * rewrite <- (P d0) by lia. assert (t1 = t) as ->.
        { rewrite <- (tbl_path_eq s r d0 v w) in O1 by (eapply path_eq_le; [|done]; lia). congruence. }
        by rewrite rd_wr_eq.
      * rewrite (link_rd r1 d w t1) by (done || lia). by eapply (ok_small _ _ Hok).
    + rewrite link_rd_new by apply idx_range. done.
Qed.

Lemma link_pte r1 w : r1 ∈ roots → pte s' r1 w = pte s r1 w.
Proof.
  intros H1. unfold pte. destruct (decide (r1 = r ∧ path_eq (S d0) v w)) as [[-> Hp]|Hn].
  - rewrite (link_tbl_old w 3) by (done || lia). destruct (decide (d0 = 2%nat)) as [E|].
    + pose proof (link_tbl_new w Hp) as N. rewrite E in N at 2. rewrite N. apply link_rd_new, (idx_range 3).
    + by rewrite (link_tbl_below w 3) by (done || lia).
  - rewrite link_tbl_ne by auto. destruct (tbl s r1 3 w) as [t1|] eqn:E; [|done].
    apply (link_rd r1 3 w t1); [done|lia|done|]. intros (? & ? & ?). lia.
Qed.
End link.

(** *** Growing the trees *)

(** A page that holds data: allocated, and no table. *)
Definition data_page s (roots : list Z) (p : Z) : Prop :=
  fa_hhdm (fa s) ≤ p ∧ page_aligned p ∧ ¬ fa_free (fa s) (p - fa_hhdm (fa s)) ∧
  ∀ r d v, r ∈ roots → (d ≤ 3)%nat → tbl s r d v ≠ Some p.

(** Writing a leaf entry touches no data page. *)
Lemma leaf_data s roots r v t x p i :
  vm_ok s roots → r ∈ roots → tbl s r 3 v = Some t → data_page s roots p → 0 ≤ i < PAGE_SIZE →
  vmem (wr_entry s t (PT_IDX v) x) (p + i) = vmem s (p + i).
Proof.
  intros Hok Hr Ht (_ & Hpal & _ & Hnt) Hi. pose proof (idx_range 3 v) as Hi3. simpl in Hi3.
  pose proof (tab_aligned _ _ _ _ _ _ Hok Hr (le_n 3) Ht) as Htal.
  assert (p ≠ t) by (intros ->; by apply (Hnt r 3%nat v)).
  apply st64_outside. unfold page_aligned, PAGE_SIZE in *. zlia.
Qed.

(** What adding tables preserves: the leaf entries, the data, and the reference
    counts of everything that was allocated. *)
Record grows (roots : list Z) s s' : Prop := {
  gr_ok : vm_ok s' roots;
  gr_hhdm : fa_hhdm (fa s') = fa_hhdm (fa s);
  gr_kpml4 : kernel_pml4_virt s' = kernel_pml4_virt s;
  gr_pte : ∀ r w, r ∈ roots → pte s' r w = pte s r w;
  gr_free : ∀ u, fa_free (fa s') u → fa_free (fa s) u;
  gr_refs : ∀ u, page_aligned u → 0 ≤ u → ¬ fa_free (fa s) u →
    fa_refcount (fa s') u = fa_refcount (fa s) u;
  gr_page : ∀ p, data_page s roots p → data_page s' roots p;
  gr_data : ∀ p i, data_page s roots p → 0 ≤ i < PAGE_SIZE → vmem s' (p + i) = vmem s (p + i);
  gr_tbl : ∀ r d w t, r ∈ roots → (d ≤ 3)%nat → tbl s r d w = Some t → tbl s' r d w = Some t;
  gr_new : ∀ r d w t, r ∈ roots → (d ≤ 3)%nat → tbl s' r d w = Some t →
    tbl s r d w = Some t ∨
    (fa_free (fa s) (t - fa_hhdm (fa s)) ∧ fa_refcount (fa s') (t - fa_hhdm (fa s)) = 1);
}.

Lemma grows_refl roots s : vm_ok s roots → grows roots s s.
Proof. intros Hok. constructor; try done. by left. Qed.

Lemma grows_trans roots s1 s2 s3 :
  vm_ok s1 roots → grows roots s1 s2 → grows roots s2 s3 → grows roots s1 s3.
Proof.
  intros Hok1 H1 H2. constructor.
  - apply H2.
  - by rewrite (gr_hhdm _ _ _ H2), (gr_hhdm _ _ _ H1).
  - by rewrite (gr_kpml4 _ _ _ H2), (gr_kpml4 _ _ _ H1).
  - intros r w Hr. by rewrite (gr_pte _ _ _ H2), (gr_pte _ _ _ H1).
  - intros u Hu. by apply (gr_free _ _ _ H1), (gr_free _ _ _ H2).
  - intros u Ha Hu Hn. rewrite (gr_refs _ _ _ H2), (gr_refs _ _ _ H1); [done..|].
    intros Hf. by apply Hn, (gr_free _ _ _ H1).
  - intros p Hp. by apply (gr_page _ _ _ H2), (gr_page _ _ _ H1).
  - intros p i Hp Hi. rewrite (gr_data _ _ _ H2); [by apply (gr_data _ _ _ H1)| |done].
    by apply (gr_page _ _ _ H1).
  - intros r d w t Hr Hd E. by apply (gr_tbl _ _ _ H2), (gr_tbl _ _ _ H1).
  - intros r d w t Hr Hd E. destruct (gr_new _ _ _ H2 r d w t Hr Hd E) as [E1|[Hf Hrc]].
    + destruct (gr_new _ _ _ H1 r d w t Hr Hd E1) as [|[Hf Hrc]]; [by left|right]. split; [done|].
      destruct (ok_tab _ _ (gr_ok _ _ _ H1) r d w t Hr Hd E1) as (_ & _ & _ & Hn).
      rewrite (gr_hhdm _ _ _ H1) in Hn.
      destruct (fa_free_frame _ _ (ok_fa _ _ Hok1) Hf) as (? & _ & ? & _).
      rewrite (gr_refs _ _ _ H2); [done|done| |done]. unfold LOW_FRAMES, PAGE_SIZE in *. lia.
    + right. rewrite (gr_hhdm _ _ _ H1) in Hf, Hrc. split; [by apply (gr_free _ _ _ H1)|done].
Qed.

(** Growth by page tables of the user half of [r] only. *)
Record linked (roots : list Z) (r : Z) s s' : Prop := {
  li_grows :> grows roots s s';
  li_other : ∀ r' d w, r' ∈ roots → (d ≤ 3)%nat → r' ≠ r → tbl s' r' d w = tbl s r' d w;
  li_alloc : ∀ u, fa_free (fa s) u → fa_free (fa s') u ∨
    ∃ d w, (1 ≤ d ≤ 3)%nat ∧ is_user w ∧ tbl s' r d w = Some (u + fa_hhdm (fa s));
}.

Lemma linked_refl roots r s : vm_ok s roots → linked roots r s s.
Proof. intros Hok. constructor; [by apply grows_refl|done|by left]. Qed.

Lemma linked_trans roots r s1 s2 s3 :
  vm_ok s1 roots → r ∈ roots → linked roots r s1 s2 → linked roots r s2 s3 → linked roots r s1 s3.
Proof.
  intros Hok Hr L1 L2. constructor.
  - eapply grows_trans; [done|apply L1|apply L2].
  - intros r' d w Hr' Hd Hne. by rewrite (li_other _ _ _ _ L2), (li_other _ _ _ _ L1).
  - intros u Hu. destruct (li_alloc _ _ _ _ L1 u Hu) as [H2|(d & w & Hd & Hw & E)].
    + destruct (li_alloc _ _ _ _ L2 u H2) as [|(d & w & Hd & Hw & E)]; [by left|right].
      rewrite (gr_hhdm _ _ _ L1) in E. eauto.
    + right. exists d, w. split_and!; [lia|lia|done|]. apply (gr_tbl _ _ _ L2); [done|lia|done].
Qed.

(** A free frame in the direct map. *)
Lemma free_frame_virt s t :
  fa_ok (fa s) → fa_free (fa s) t →
  p2v s t = t + fa_hhdm (fa s) ∧ fa_hhdm (fa s) ≤ p2v s t ∧ p2v s t + PAGE_SIZE ≤ 2 ^ 64 ∧
  page_aligned (p2v s t) ∧ Z.land t VMM_PHYS_MASK = t ∧ 0 < t < 2 ^ 33.
Proof.
  intros Hok Hf. destruct (fa_hhdm_range _ Hok) as [Hh Hha].
  destruct (fa_free_frame _ _ Hok Hf) as (Hlo & Hhi & Ha & _).
  unfold LOW_FRAMES, PAGE_SIZE, page_aligned in *.
  assert (E : p2v s t = t + fa_hhdm (fa s)) by (apply u64_small; lia).
  rewrite E. split_and!; try lia; [by rewrite Zplus_mod, Ha, Hha|]. apply land_mask_frame; [done|lia].
Qed.

(** The entry [vmm_map_page] makes for a new table. *)
Lemma table_entry s t :
  fa_ok (fa s) → fa_free (fa s) t →
  let e := Z.lor (Z.lor (Z.lor (Z.land t VMM_PHYS_MASK) VMM_P) VMM_RW) VMM_U in
  0 ≤ e < 2 ^ 64 ∧ has e VMM_P = true ∧ has e VMM_PS = false ∧ entry_table s e = p2v s t.
Proof.
  intros Hok Hf. destruct (free_frame_virt s t Hok Hf) as (_ & _ & _ & Ha & Hm & Ht). cbv zeta.
  rewrite Hm. assert (Hal : page_aligned t) by (rewrite <- Hm; apply land_mask_aligned).
  split; [repeat (apply lor_range; [lia| |split; [done|reflexivity]]); lia|].
  split_and!.
  - flag_bits. by destruct (Z.testbit t 0).
  - flag_bits. unfold page_aligned, PAGE_SIZE in Hal. change 4096 with (2 ^ 12) in Hal.
    rewrite <- (Z.mod_pow2_bits_low t 12 7) by lia. by rewrite Hal.
  - unfold entry_table. f_equal. by rewrite !land_mask_lor by reflexivity.
Qed.

Lemma next_table_spec s roots r v t d :
  vm_ok s roots → r ∈ roots → is_user v → (d < 3)%nat → tbl s r d v = Some t →
  let '(res, s') := next_table s t (idx d v) in
  linked roots r s s' ∧
  match res with
  | Some t' => tbl s' r (S d) v = Some t'
  | None => ∀ u, ¬ fa_free (fa s) u
  end.
Proof.
  intros Hok Hr Hu Hd Ht. unfold next_table.
  destruct (has (rd_entry s t (idx d v)) VMM_P) eqn:HP; cbn [negb].
  { split; [by apply linked_refl|]. simpl. rewrite Ht. unfold follow. rewrite HP. cbn [negb orb].
    destruct d as [|d]; [done|]. by rewrite (ok_small _ _ Hok r (S d) v t) by (done || lia). }
  destruct (fa_alloc_spec (fa s) (ok_fa _ _ Hok)) as
    [[E Hno]|(pt & f' & E & Hf & Hok' & Hh & Hfree & Hrefs)]; rewrite E.
  { cbn. split; [|done]. unfold with_fa. destruct s. by apply linked_refl. }
  destruct (free_frame_virt s pt (ok_fa _ _ Hok) Hf) as (Ep & H1 & H2 & H3 & _ & Hpt).
  destruct (table_entry s pt (ok_fa _ _ Hok) Hf) as (He1 & He2 & He3 & He4).
  assert (Hp2v : p2v (with_fa s f') pt = p2v s pt) by (unfold p2v; cbn [with_fa fa]; by rewrite Hh).
  destruct (Z.eqb_spec pt 0) as [->|]; [lia|]. rewrite Hp2v.
  set (e := Z.lor _ _) in *. set (s' := wr_entry _ _ _ _).
  assert (Hfr : fa_free (fa s) (p2v s pt - fa_hhdm (fa s))).
  { rewrite Ep. by replace (pt + fa_hhdm (fa s) - fa_hhdm (fa s)) with pt by lia. }
  assert (Hfree' : ∀ u, fa_free f' u ↔ fa_free (fa s) u ∧ u ≠ p2v s pt - fa_hhdm (fa s)).
  { intros u. rewrite Hfree, Ep. by replace (pt + fa_hhdm (fa s) - fa_hhdm (fa s)) with pt by lia. }
  assert (Lok : vm_ok s' roots) by (eapply link_ok; eauto).
  assert (Linv : ∀ r1 d1 w t1, r1 ∈ roots → (d1 ≤ 3)%nat → tbl s' r1 d1 w = Some t1 →
            tbl s r1 d1 w = Some t1 ∨ (t1 = p2v s pt ∧ r1 = r ∧ d1 = S d ∧ path_eq (S d) v w))
    by (intros *; eapply link_tbl_inv; eauto).
  split.
  2:{ unfold s'. rewrite rd_wr_eq by done. rewrite entry_table_wr.
      change (entry_table (zero_page (with_fa s f') (p2v s pt)) e) with (entry_table (with_fa s f') e).
      unfold entry_table, p2v. cbn [with_fa fa]. rewrite Hh.
      fold (p2v s (Z.land e VMM_PHYS_MASK)). fold (entry_table s e). rewrite He4.
      eapply link_tbl_new; eauto with xos. }
  constructor.
  2:{ intros r1 d1 w Hr1 Hd1 Hne. eapply (link_tbl_ne s roots r v t d (p2v s pt) f' e); eauto. left. tauto. }
  2:{ intros u Hfu. unfold s' at 1. cbn [wr_entry zero_page with_mem with_fa fa]. rewrite Hfree.
      destruct (decide (u = pt)) as [->|]; [right|by left]. exists (S d), v. split; [lia|]. split; [done|].
      rewrite <- Ep. eapply link_tbl_new; eauto with xos. }
  constructor; [done|done|done| | | | | | |].
  - intros r1 w Hr1. eapply (link_pte s roots r); eauto.
  - intros u. unfold s'. cbn [wr_entry zero_page with_mem with_fa fa]. rewrite Hfree. tauto.
  - intros u Ha Hu0 Hn. unfold s'. cbn [wr_entry zero_page with_mem with_fa fa].
    rewrite Hrefs by done. destruct (Z.eqb_spec u pt) as [->|]; [by destruct Hn|done].
  - intros p (Hp1 & Hp2 & Hp3 & Hp4). unfold data_page. unfold s' at 1 2 3.
    cbn [wr_entry zero_page with_mem with_fa fa]. rewrite Hh, Hfree'. split_and!; [done|done|tauto|].
    intros r1 d1 w Hr1 Hd1 Et. destruct (Linv r1 d1 w p Hr1 Hd1 Et) as [Ho|(-> & _)].
    + by apply (Hp4 r1 d1 w).
    + by apply Hp3.
  - intros p i (Hp1 & Hp2 & Hp3 & Hp4) Hi. unfold s', wr_entry, zero_page. cbn [with_mem vmem].
    assert (p ≠ t) by (intros ->; apply (Hp4 r d v); [done|lia|done]).
    assert (p ≠ p2v s pt) by (intros ->; by apply Hp3).
    pose proof (tab_aligned _ _ _ _ _ _ Hok Hr (ltac:(lia) : (d ≤ 3)%nat) Ht) as Hta.
    pose proof (idx_range d v). unfold page_aligned, PAGE_SIZE in *.
    rewrite st64_outside by zlia. unfold filled.
    destruct (Z.leb_spec (p2v s pt) (p + i)), (Z.ltb_spec (p + i) (p2v s pt + 4096)); simpl; (done || zlia).
  - intros r1 d1 w t1 Hr1 Hd1 E1.
    destruct (decide (r1 = r ∧ path_eq (S d) v w)) as [[-> Hpath]|Hn].
    + destruct (decide (d1 ≤ d)%nat).
      * rewrite <- E1. unfold s'. eapply (link_tbl_ne s roots r v t d (p2v s pt) f' e); eauto.
      * rewrite (link_tbl_old s r v t d) in E1; [done|..]; eauto; lia.
    + rewrite <- E1. unfold s'. eapply (link_tbl_ne s roots r v t d (p2v s pt) f' e); eauto.
  - intros r1 d1 w t1 Hr1 Hd1 E1. destruct (Linv r1 d1 w t1 Hr1 Hd1 E1) as [|(-> & _)]; [by left|right].
    split; [done|]. unfold s'. cbn [wr_entry zero_page with_mem with_fa fa]. rewrite Ep.
    replace (pt + fa_hhdm (fa s) - fa_hhdm (fa s)) with pt by lia.
    destruct (fa_free_frame _ _ (ok_fa _ _ Hok) Hf) as (? & _ & ? & _).
    rewrite Hrefs by (done || lia). by rewrite Z.eqb_refl.
Qed.

(** *** Mapping one page *)

(** The tables of the four levels, as the walks of the source read them. *)
Lemma map_page_spec s roots r v paddr flags :
  vm_ok s roots → r ∈ roots → is_user v → HIGHER_HALF ≤ r →
  0 ≤ paddr → 0 ≤ flags < 2 ^ 64 →
  let x := Z.lor (Z.land paddr VMM_PHYS_MASK) (Z.lor flags VMM_P) in
  let '(ok, s') := vmm_map_page s r v paddr flags in
  if ok then
    ∃ s1 t, linked roots r s s1 ∧ tbl s1 r 3 v = Some t ∧ s' = wr_entry s1 t (PT_IDX v) x ∧ 0 ≤ x < 2 ^ 64
  else linked roots r s s' ∧ ∀ u, ¬ fa_free (fa s') u.
Proof.
  intros Hok Hr Hu Hhi Hpa Hfl. cbv zeta. unfold vmm_map_page.
  destruct (Z.ltb_spec r HIGHER_HALF); [lia|].
  pose proof (next_table_spec s roots r v r 0 Hok Hr Hu ltac:(lia) eq_refl) as N1.
  change (idx 0 v) with (PML4_IDX v) in N1.
  destruct (next_table s r (PML4_IDX v)) as [[t1|] s1]; destruct N1 as [G1 N1].
  2:{ split; [done|]. intros u Hf. by apply (N1 u), (gr_free _ _ _ G1). }
  pose proof (next_table_spec s1 roots r v t1 1 (gr_ok _ _ _ G1) Hr Hu ltac:(lia) N1) as N2.
  change (idx 1 v) with (PDPT_IDX v) in N2.
  destruct (next_table s1 t1 (PDPT_IDX v)) as [[t2|] s2]; destruct N2 as [G2 N2].
  2:{ split; [by eapply linked_trans|]. intros u Hf. by apply (N2 u), (gr_free _ _ _ G2). }
  pose proof (linked_trans _ _ _ _ _ Hok Hr G1 G2) as G12.
  pose proof (next_table_spec s2 roots r v t2 2 (gr_ok _ _ _ G2) Hr Hu ltac:(lia) N2) as N3.
  change (idx 2 v) with (PD_IDX v) in N3.
  destruct (next_table s2 t2 (PD_IDX v)) as [[t3|] s3]; destruct N3 as [G3 N3].
  2:{ split; [by eapply linked_trans|]. intros u Hf. by apply (N3 u), (gr_free _ _ _ G3). }
  exists s3, t3. split; [by eapply linked_trans|].
  split; [done|]. split; [done|].
  apply lor_range; [lia| |apply lor_range; [lia|done|split; [done|reflexivity]]].
  pose proof (land_mask_range paddr Hpa). lia.
Qed.

(** *** The walks of the source follow the path *)

Lemma pte_lookup_tbl s roots r v :
  vm_ok s roots → r ∈ roots →
  vmm_pte_lookup s r v = (λ t, t + 8 * PT_IDX v) <$> tbl s r 3 v.
Proof.
  intros Hok Hr. destruct (ok_tab _ _ Hok r 0 v r Hr ltac:(lia) eq_refl) as (Hlo & _).
  destruct (fa_hhdm_range _ (ok_fa _ _ Hok)) as [Hh _].
  unfold vmm_pte_lookup. destruct (Z.eqb_spec r 0); [lia|]. cbn [tbl]. unfold follow. cbn [idx].
  destruct (has (rd_entry s r (PML4_IDX v)) VMM_P); [|done]. cbn [negb orb].
  case_if; [done|]. by case_if.
Qed.

(** Follows a walk of the source down the tables of a user address [v], whose
    entries are never large pages. *)
Ltac user_walk Hok Hr Hu :=
  match type of Hok with vm_ok ?s ?roots =>
  match type of Hr with ?r ∈ _ =>
  match type of Hu with is_user ?v =>
  let S1 := fresh in let S2 := fresh in
  pose proof (λ t, ok_small _ _ Hok r 1 v t Hr ltac:(lia) Hu) as S1;
  pose proof (λ t, ok_small _ _ Hok r 2 v t Hr ltac:(lia) Hu) as S2;
  cbn [tbl] in *; unfold follow in *; cbn [idx] in *;
  destruct (has (rd_entry s r (PML4_IDX v)) VMM_P); cbn [negb orb] in *; [|done];
  specialize (S1 _ eq_refl);
  destruct (has (rd_entry s (entry_table s (rd_entry s r (PML4_IDX v))) (PDPT_IDX v)) VMM_P);
    cbn [negb orb] in *; [|done];
  rewrite S1 in * by done; specialize (S2 _ eq_refl);
  match type of S2 with ?b = true → _ => destruct b end; cbn [negb orb] in *; [|done];
  by rewrite S2 by done
  end end end.

Lemma unmap_tbl s roots r v :
  vm_ok s roots → r ∈ roots → is_user v →
  vmm_unmap_page s r v = match tbl s r 3 v with Some t => wr_entry s t (PT_IDX v) 0 | None => s end.
Proof.
  intros Hok Hr Hu. unfold vmm_unmap_page. user_walk Hok Hr Hu.
Qed.

Lemma virt_to_phys_user s roots r v :
  vm_ok s roots → r ∈ roots → is_user v →
  vmm_virt_to_phys s r v =
    match tbl s r 3 v with
    | Some t => u64 (Z.land (rd_entry s t (PT_IDX v)) VMM_PHYS_MASK + Z.land v 4095)
    | None => 0
    end.
Proof.
  intros Hok Hr Hu. unfold vmm_virt_to_phys. user_walk Hok Hr Hu.
Qed.
(** Changing only the allocator, without freeing a table. *)
Lemma tbl_fa s (f : F) r d v : fa_hhdm f = fa_hhdm (fa s) → tbl (with_fa s f) r d v = tbl s r d v.
Proof. intros Hh. by apply (tbl_same s (with_fa s f) r v d). Qed.

Lemma pte_fa s (f : F) r v : fa_hhdm f = fa_hhdm (fa s) → pte (with_fa s f) r v = pte s r v.
Proof. intros Hh. unfold pte. by rewrite tbl_fa. Qed.

Lemma fa_swap s roots (f : F) :
  vm_ok s roots → fa_ok f → fa_hhdm f = fa_hhdm (fa s) →
  (∀ r d v t, r ∈ roots → (d ≤ 3)%nat → tbl s r d v = Some t → ¬ fa_free f (t - fa_hhdm f)) →
  vm_ok (with_fa s f) roots.
Proof.
  intros Hok Hf Hh Hnf. constructor; [done|apply Hok|..].
  - intros r d v t Hr Hd. rewrite tbl_fa by done. intros E. unfold table_page. cbn [with_fa fa].
    split_and!; [..|by apply (Hnf r d v)]; rewrite ?Hh; by destruct (ok_tab _ _ Hok _ _ _ _ Hr Hd E) as (? & ? & ? & _).
  - intros r r' d d' v w t Hr Hr' Hd Hd' Hu. rewrite !tbl_fa by done. by apply (ok_inj _ _ Hok).
  - intros r d v t Hr Hd Hu. rewrite tbl_fa by done. intros E. by apply (ok_small _ _ Hok r d v t).
Qed.

(** Taking a fresh frame and writing it: nothing that exists changes, and the
    frame becomes a data page. *)
Lemma fresh_page s roots pt (f : F) (m : mem) :
  vm_ok s roots → fa_free (fa s) pt → fa_ok f → fa_hhdm f = fa_hhdm (fa s) →
  (∀ u, fa_free f u ↔ fa_free (fa s) u ∧ u ≠ pt) →
  (∀ u, page_aligned u → 0 ≤ u → fa_refcount f u = if u =? pt then 1 else fa_refcount (fa s) u) →
  mem_bytes m → (∀ a, a < p2v s pt ∨ p2v s pt + PAGE_SIZE ≤ a → m a = vmem s a) →
  let s' := mkVm m f (kernel_pml4_virt s) in
  grows roots s s' ∧ data_page s' roots (p2v s pt) ∧ (∀ r d v, r ∈ roots → (d ≤ 3)%nat → tbl s' r d v = tbl s r d v).
Proof.
  intros Hok Hfree Hf Hh Hfr Hrc Hm Hout s'.
  destruct (free_frame_virt s pt (ok_fa _ _ Hok) Hfree) as (Ep & H1 & H2 & H3 & _ & Hpt).
  assert (Hne : ∀ r d v t, r ∈ roots → (d ≤ 3)%nat → tbl s r d v = Some t → t ≠ p2v s pt).
  { intros r d v t Hr Hd E ->. destruct (ok_tab _ _ Hok _ _ _ _ Hr Hd E) as (_ & _ & _ & Hn). apply Hn.
    rewrite Ep. by replace (pt + fa_hhdm (fa s) - fa_hhdm (fa s)) with pt by lia. }
  assert (Hpg : ∀ p i, page_aligned p → p ≠ p2v s pt → 0 ≤ i < PAGE_SIZE → m (p + i) = vmem s (p + i)).
  { intros p i Hp Hnp Hi. apply Hout. unfold page_aligned, PAGE_SIZE in *. zlia. }
  assert (Hrd : ∀ r d v t i, r ∈ roots → (d ≤ 3)%nat → tbl s r d v = Some t → 0 ≤ i < 512 →
                  rd_entry s' t i = rd_entry s t i).
  { intros r d v t i Hr Hd E Hi. apply load_le_ext. change (Z.of_nat 8) with 8. intros b Hb.
    rewrite <- Z.add_assoc. apply Hpg; [by apply (tab_aligned _ _ _ _ _ _ Hok Hr Hd E)|by apply (Hne r d v)|].
    unfold PAGE_SIZE. lia. }
  assert (Ht : ∀ r d v, r ∈ roots → (d ≤ 3)%nat → tbl s' r d v = tbl s r d v).
  { intros r d v Hr Hd. apply (tbl_same s s' r v d); [done| |done].
    intros d1 t1 Hd1 E. apply (Hrd r d1 v); [done|lia|done|apply idx_range]. }
  assert (Hok' : vm_ok s' roots).
  { constructor; [done|done|..].
    - intros r d v t Hr Hd. rewrite Ht by done. intros E. unfold table_page. cbn [fa s']. rewrite Hh, Hfr.
      destruct (ok_tab _ _ Hok _ _ _ _ Hr Hd E) as (? & ? & ? & ?). tauto.
    - intros r r' d d' v w t Hr Hr' Hd Hd' Hu. rewrite !Ht by done. by apply (ok_inj _ _ Hok).
    - intros r d v t Hr Hd Hu. rewrite Ht by (done || lia). intros E.
      rewrite (Hrd r d v t) by (done || lia || apply idx_range). by apply (ok_small _ _ Hok r d v t). }
  split_and!; [|split_and!; cbn [fa s']; rewrite ?Hh|done].
  - constructor; [done|done|done|..].
    + intros r w Hr. unfold pte. rewrite Ht by (done || lia). destruct (tbl s r 3 w) as [t|] eqn:E; [|done].
      apply (Hrd r 3%nat w); [done|lia|done|apply (idx_range 3)].
    + intros u. cbn [fa s']. rewrite Hfr. tauto.
    + intros u Ha Hu Hn. cbn [fa s']. rewrite Hrc by done. destruct (Z.eqb_spec u pt) as [->|]; [by destruct Hn|done].
    + intros p (Hp1 & Hp2 & Hp3 & Hp4). unfold data_page. cbn [fa s']. rewrite Hh, Hfr.
      split_and!; [done|done|tauto|]. intros r d v Hr Hd. rewrite Ht by done. by apply Hp4.
    + intros p i (Hp1 & Hp2 & Hp3 & Hp4) Hi. apply Hpg; [done| |done]. intros ->. apply Hp3.
      rewrite Ep. by replace (pt + fa_hhdm (fa s) - fa_hhdm (fa s)) with pt by lia.
    + intros r d w t Hr Hd. by rewrite Ht.
    + intros r d w t Hr Hd. rewrite Ht by done. by left.
  - done.
  - done.
  - rewrite Hfr, Ep. intros [_ []]. lia.
  - intros r d v Hr Hd. rewrite Ht by done. intros E. by apply (Hne r d v _ Hr Hd E).
Qed.


(** Writing a data page leaves every table as it was. *)
Lemma data_write s roots p (m : mem) :
  vm_ok s roots → data_page s roots p → mem_bytes m →
  (∀ a, a < p ∨ p + PAGE_SIZE ≤ a → m a = vmem s a) →
  let s' := with_mem s m in
  vm_ok s' roots ∧ (∀ r d v, r ∈ roots → (d ≤ 3)%nat → tbl s' r d v = tbl s r d v) ∧
  (∀ r v, r ∈ roots → pte s' r v = pte s r v) ∧ (∀ q, data_page s roots q → data_page s' roots q).
Proof.
  intros Hok (Hp1 & Hp2 & Hp3 & Hp4) Hm Hout s'.
  assert (Hrd : ∀ r d v t i, r ∈ roots → (d ≤ 3)%nat → tbl s r d v = Some t → 0 ≤ i < 512 →
                  rd_entry s' t i = rd_entry s t i).
  { intros r d v t i Hr Hd E Hi. apply load_le_ext. change (Z.of_nat 8) with 8. intros b Hb. apply Hout.
    pose proof (tab_aligned _ _ _ _ _ _ Hok Hr Hd E). assert (t ≠ p) by (intros ->; by apply (Hp4 r d v)).
    unfold page_aligned, PAGE_SIZE in *. zlia. }
  assert (Ht : ∀ r d v, r ∈ roots → (d ≤ 3)%nat → tbl s' r d v = tbl s r d v).
  { intros r d v Hr Hd. apply (tbl_same s s' r v d); [done| |done].
    intros d1 t1 Hd1 E. apply (Hrd r d1 v); [done|lia|done|apply idx_range]. }
  split_and!; [|done|..].
  - constructor; [apply Hok|done|..].
    + intros r d v t Hr Hd. rewrite Ht by done. by apply (ok_tab _ _ Hok).
    + intros r r' d d' v w t Hr Hr' Hd Hd' Hu. rewrite !Ht by done. by apply (ok_inj _ _ Hok).
    + intros r d v t Hr Hd Hu. rewrite Ht by (done || lia). intros E.
      rewrite (Hrd r d v t) by (done || lia || apply idx_range). by apply (ok_small _ _ Hok r d v t).
  - intros r v Hr. unfold pte. rewrite Ht by (done || lia). destruct (tbl s r 3 v) as [t|] eqn:E; [|done].
    apply (Hrd r 3%nat v); [done|lia|done|apply (idx_range 3)].
  - intros q (H1 & H2 & H3 & H4). split_and!; [done..|]. intros r d v Hr Hd. rewrite Ht by done. by apply H4.
Qed.
End paths.
