(* ===== verification/VmmSpec.v ===== *)
(** * What the virtual memory manager promises

    Mapping a page makes exactly that page translate to its frame; unmapping
    removes exactly it; a new address space has the kernel half of the boot
    tables and an empty user half. *)

From S2P Require Import Prelude Mem CString Block Pmm Frames Vmm VmmProofs.

Lemma land_4095 v : Z.land v 4095 = v mod 4096.
Proof. change 4095 with (Z.ones 12). by rewrite Z.land_ones by lia. Qed.

(** The page number of a 48-bit address determines its path. *)
Lemma same_page_path v w :
  0 ≤ v < 2 ^ 48 → 0 ≤ w < 2 ^ 48 → path_eq 4 v w ↔ v / PAGE_SIZE = w / PAGE_SIZE.
Proof.
  assert (I : ∀ x, PML4_IDX x = x / 2 ^ 39 mod 512 ∧ PDPT_IDX x = x / 2 ^ 30 mod 512 ∧
                   PD_IDX x = x / 2 ^ 21 mod 512 ∧ PT_IDX x = x / 2 ^ 12 mod 512).
  { intros x. unfold PML4_IDX, PDPT_IDX, PD_IDX, PT_IDX. change 511 with (Z.ones 9).
    rewrite !Z.land_ones, !Z.shiftr_div_pow2 by lia. done. }
  destruct (I v) as (V0 & V1 & V2 & V3), (I w) as (W0 & W1 & W2 & W3).
  intros Hv Hw. unfold PAGE_SIZE. split.
  - intros H. pose proof (H 0%nat ltac:(lia)) as E0. pose proof (H 1%nat ltac:(lia)) as E1.
    pose proof (H 2%nat ltac:(lia)) as E2. pose proof (H 3%nat ltac:(lia)) as E3. simpl in *.
    rewrite V0, W0 in E0. rewrite V1, W1 in E1. rewrite V2, W2 in E2. rewrite V3, W3 in E3.
    change (2 ^ 39) with (4096 * (512 * (512 * 512))) in *. change (2 ^ 30) with (4096 * (512 * 512)) in *.
    change (2 ^ 21) with (4096 * 512) in *. change (2 ^ 12) with 4096 in *.
    rewrite <- !Z.div_div in * by lia. set (a := v / 4096) in *. set (b := w / 4096) in *.
    assert (0 ≤ a < 68719476736) by (subst a; zlia). assert (0 ≤ b < 68719476736) by (subst b; zlia).
    clearbody a b. zlia.
  - intros E k Hk.
    assert (Hs : ∀ n, 12 ≤ n → v / 2 ^ n = w / 2 ^ n).
    { intros n Hn. replace (2 ^ n) with (4096 * 2 ^ (n - 12)).
      - assert (0 < 2 ^ (n - 12)) by (apply Z.pow_pos_nonneg; lia). rewrite <- !Z.div_div by lia. by rewrite E.
      - change 4096 with (2 ^ 12). rewrite <- Z.pow_add_r by lia. f_equal. lia. }
    destruct k as [|[|[|[|k]]]]; simpl; [rewrite V0, W0|rewrite V1, W1|rewrite V2, W2|rewrite V3, W3|lia];
      by rewrite Hs by lia.
Qed.

(** The lower canonical half is the user half. *)
Lemma user_addr v : 0 ≤ v < 2 ^ 47 → is_user v.
Proof.
  intros Hv. unfold is_user, PML4_IDX, KERNEL_PML4_START. change 511 with (Z.ones 9).
  rewrite Z.land_ones, Z.shiftr_div_pow2 by lia. change (2 ^ 39) with 549755813888. change (2 ^ 9) with 512. zlia.
Qed.

Section spec.
Context {F : Type} `{FA : FrameAlloc F} `{FL : !FrameAllocLaws F}.
Implicit Types s : vm F.

(** Where the entry [e] sends the address [v]. *)
Definition translated (e v : Z) : Z := Z.land e VMM_PHYS_MASK + v mod PAGE_SIZE.

(** The leaf entry of a page is present: its translation goes through it. *)
Lemma present_translates s roots r v :
  vm_ok s roots → r ∈ roots → is_user v → has (pte s r v) VMM_P = true →
  vmm_virt_to_phys s r v = translated (pte s r v) v.
Proof.
  intros Hok Hr Hu HP. rewrite (virt_to_phys_user s roots) by done. unfold pte, translated in *.
  destruct (tbl s r 3 v) as [t|]; [|done]. rewrite land_4095. apply u64_small.
  assert (0 ≤ rd_entry s t (PT_IDX v)) by (apply ld64_range, Hok).
  pose proof (land_mask_range (rd_entry s t (PT_IDX v)) ltac:(lia)).
  pose proof (Z.mod_pos_bound v PAGE_SIZE ltac:(unfold PAGE_SIZE; lia)). unfold PAGE_SIZE in *. lia.
Qed.

(** C28: mapping a page.  In a machine whose address spaces are [roots], mapping
    user page [v] of one of them to a frame either succeeds or runs out of
    frames, and keeps the page-table invariant.  On success every address of the
    page translates to the frame and carries exactly the flags asked for, and
    no other entry of any address space changes; on failure no entry changes.
    Either way the data in allocated pages is untouched, references to
    allocated frames are unchanged, and every other translation stays. *)
Theorem vmm_map_page_spec s roots r v paddr flags :
  vm_ok s roots → r ∈ roots → HIGHER_HALF ≤ r → is_user v →
  page_aligned paddr → 0 ≤ paddr < 2 ^ 52 →
  0 ≤ flags < 2 ^ 64 → Z.land flags VMM_PHYS_MASK = 0 →
  let '(ok, s') := vmm_map_page s r v paddr flags in
  vm_ok s' roots ∧
  (∀ r' w, r' ∈ roots → ok = false ∨ r' ≠ r ∨ ¬ path_eq 4 v w →
     pte s' r' w = pte s r' w ∧
     (is_user w → has (pte s r' w) VMM_P = true → vmm_virt_to_phys s' r' w = vmm_virt_to_phys s r' w)) ∧
  (∀ p i, data_page s roots p → 0 ≤ i < PAGE_SIZE → vmem s' (p + i) = vmem s (p + i)) ∧
  (∀ u, page_aligned u → 0 ≤ u → ¬ fa_free (fa s) u → fa_refcount (fa s') u = fa_refcount (fa s) u) ∧
  if ok then
    ∀ w, path_eq 4 v w →
      pte s' r w = Z.lor paddr (Z.lor flags VMM_P) ∧ vmm_virt_to_phys s' r w = paddr + w mod PAGE_SIZE
  else ∀ u, ¬ fa_free (fa s') u.
Proof.
  intros Hok Hr Hhi Hu Hpa Hpr Hfl Hfm.
  pose proof (map_page_spec s roots r v paddr flags Hok Hr Hu Hhi ltac:(lia) Hfl) as H. cbv zeta in H.
  rewrite land_mask_frame in H by done. destruct (vmm_map_page s r v paddr flags) as [[] s'].
  - destruct H as (s1 & t & G & Ht & -> & Hx). set (x := Z.lor _ _) in *. pose proof (gr_ok _ _ _ G) as Hok1.
    pose proof (leaf_ok s1 roots r v t x Hok1 Hr Hu Ht) as Hok2.
    assert (HxP : has x VMM_P = true) by (unfold x; flag_bits; change (Z.testbit VMM_P 0) with true; by rewrite !orb_true_r).
    split; [done|]. split_and!.
    + intros r' w Hr' Hne. assert (E : pte (wr_entry s1 t (PT_IDX v) x) r' w = pte s r' w).
      { rewrite (leaf_pte_ne s1 roots r v) by (done || naive_solver). by apply (gr_pte _ _ _ G). }
      split; [done|]. intros Hw HP. rewrite (present_translates _ roots) by (rewrite ?E; done).
      by rewrite E, (present_translates s roots).
    + intros p i Hp Hi. rewrite <- (gr_data _ _ _ G p i Hp Hi).
      by apply (leaf_data s1 roots r); [..|apply G|].
    + apply G.
    + intros w Hw. assert (E : pte (wr_entry s1 t (PT_IDX v) x) r w = x) by by apply (leaf_pte_eq s1 roots).
      split; [done|]. rewrite (present_translates _ roots), E;
        [|done|done|by apply (is_user_path 3 v)|by rewrite E].
      unfold translated. f_equal. unfold x. rewrite !Z.land_lor_distr_l, Hfm.
      change (Z.land VMM_P VMM_PHYS_MASK) with 0. rewrite !Z.lor_0_r. by apply land_mask_frame.
  - destruct H as [G Hs]. split; [apply G|]. split_and!; [|apply G|apply G|done].
    intros r' w Hr' _. assert (E : pte s' r' w = pte s r' w) by by apply (gr_pte _ _ _ G).
    split; [done|]. intros Hw HP. rewrite (present_translates _ roots); [|apply G|done|done|by rewrite E].
    by rewrite E, (present_translates s roots).
Qed.

(** Unmapping a page clears its leaf entry and no other, keeps the
    invariant, frees no frame and touches no data page.  [vmm_virt_to_phys] does
    not test the present bit of a leaf entry, so an unmapped address whose leaf
    table exists translates to its offset in the page rather than to 0. *)
Theorem vmm_unmap_page_spec s roots r v :
  vm_ok s roots → r ∈ roots → is_user v →
  let s' := vmm_unmap_page s r v in
  vm_ok s' roots ∧ fa s' = fa s ∧
  (∀ w, path_eq 4 v w →
     pte s' r w = 0 ∧
     vmm_virt_to_phys s' r w = match tbl s r 3 v with Some _ => w mod PAGE_SIZE | None => 0 end) ∧
  (∀ r' w, r' ∈ roots → r' ≠ r ∨ ¬ path_eq 4 v w →
     pte s' r' w = pte s r' w ∧ (is_user w → vmm_virt_to_phys s' r' w = vmm_virt_to_phys s r' w)) ∧
  (∀ p i, data_page s roots p → 0 ≤ i < PAGE_SIZE → vmem s' (p + i) = vmem s (p + i)).
Proof.
  intros Hok Hr Hu. cbv zeta. rewrite (unmap_tbl s roots) by done.
  destruct (tbl s r 3 v) as [t|] eqn:Ht.
  - set (s' := wr_entry s t (PT_IDX v) 0).
    assert (Hok' : vm_ok s' roots) by by apply (leaf_ok s roots r v).
    assert (Ht' : ∀ r' w, r' ∈ roots → tbl s' r' 3 w = tbl s r' 3 w) by (intros; by apply (leaf_tbl s roots r v)).
    split_and!; [done|done| | |].
    + intros w Hw. assert (E : pte s' r w = 0) by by apply (leaf_pte_eq s roots).
      split; [done|]. rewrite (virt_to_phys_user s' roots); [|done|done|by apply (is_user_path 3 v)].
      unfold pte in E. assert (Htw : tbl s' r 3 w = Some t).
      { rewrite Ht', <- (tbl_path_eq s r 3 v w); [done| |done]. eapply path_eq_le; [|done]. lia. }
      rewrite Htw in *. rewrite E, land_4095, Z.land_0_l, Z.add_0_l. apply u64_small.
      pose proof (Z.mod_pos_bound w 4096 ltac:(lia)). unfold PAGE_SIZE. lia.
    + intros r' w Hr' Hne. assert (E : pte s' r' w = pte s r' w).
      { apply (leaf_pte_ne s roots r v); [done..|naive_solver]. }
      split; [done|]. intros Hw. rewrite !(virt_to_phys_user _ roots) by done.
      unfold pte in E. rewrite Ht' in * by done. destruct (tbl s r' 3 w); [by rewrite E|done].
    + intros p i Hp Hi. by apply (leaf_data s roots r).
  - split_and!; [done|done| |done|done]. intros w Hw. unfold pte.
    rewrite (virt_to_phys_user s roots); [|done|done|by apply (is_user_path 3 v)].
    rewrite <- (tbl_path_eq s r 3 v w), Ht by (eapply path_eq_le; [|done]; lia). done.
Qed.

(** A data page stays one when another page is mapped. *)
Lemma map_data_page s roots r v paddr flags p :
  vm_ok s roots → r ∈ roots → HIGHER_HALF ≤ r → is_user v → 0 ≤ paddr → 0 ≤ flags < 2 ^ 64 →
  data_page s roots p → data_page (vmm_map_page s r v paddr flags).2 roots p.
Proof.
  intros Hok Hr Hhi Hu Hpa Hfl Hp. pose proof (map_page_spec s roots r v paddr flags Hok Hr Hu Hhi Hpa Hfl) as H.
  cbv zeta in H. destruct (vmm_map_page s r v paddr flags) as [[] s']; [|by apply (proj1 H)].
  destruct H as (s1 & t & G & Ht & -> & Hx). destruct (gr_page _ _ _ G p Hp) as (H1 & H2 & H3 & H4).
  split_and!; [done..|]. intros r1 d w Hr1 Hd. cbn [snd].
  rewrite (leaf_tbl s1 roots r v); [by apply H4|apply G|done..].
Qed.

(** ** New address spaces *)

Lemma kernel_pml4_same cr3 s :
  let '(k, s1) := vmm_kernel_pml4 cr3 s in vmem s1 = vmem s ∧ fa s1 = fa s.
Proof. unfold vmm_kernel_pml4. by case_if. Qed.

(** The copy loop: entries [256 .. i-1] of the new table are the kernel's. *)
Lemma copy_kernel_half s n k :
  mem_bytes (vmem s) → page_aligned n → page_aligned k → n ≠ k →
  let s' := iter_up (λ i s, wr_entry s n i (rd_entry s k i)) KERNEL_PML4_START 256 (zero_page s n) in
  fa s' = fa s ∧ kernel_pml4_virt s' = kernel_pml4_virt s ∧ mem_bytes (vmem s') ∧
  (∀ a, a < n ∨ n + PAGE_SIZE ≤ a → vmem s' a = vmem s a) ∧
  ∀ j, 0 ≤ j < 512 → rd_entry s' n j = if KERNEL_PML4_START <=? j then rd_entry s k j else 0.
Proof.
  intros Hb Hn Hk Hne. cbv zeta.
  pose (P := λ i s', fa s' = fa s ∧ kernel_pml4_virt s' = kernel_pml4_virt s ∧ mem_bytes (vmem s') ∧
    (∀ a, a < n ∨ n + PAGE_SIZE ≤ a → vmem s' a = vmem s a) ∧
    ∀ j, 0 ≤ j < 512 → rd_entry s' n j = if (KERNEL_PML4_START <=? j) && (j <? i) then rd_entry s k j else 0).
  assert (H : P (KERNEL_PML4_START + Z.of_nat 256)
    (iter_up (λ i s, wr_entry s n i (rd_entry s k i)) KERNEL_PML4_START 256 (zero_page s n))).
  { apply iter_up_ind.
    - split_and!; [done|done|by apply filled_bytes|..].
      + intros a Ha. unfold zero_page. cbn [with_mem vmem]. unfold filled.
        destruct (Z.leb_spec n a), (Z.ltb_spec a (n + PAGE_SIZE)); simpl; (lia || done).
      + intros j Hj. rewrite rd_zero_eq by done.
        destruct (Z.leb_spec KERNEL_PML4_START j), (Z.ltb_spec j KERNEL_PML4_START); simpl; (lia || done).
    - intros i s1 Hi (H1 & H2 & H3 & H4 & H5). change KERNEL_PML4_START with 256 in *.
      assert (Hki : rd_entry s1 k i = rd_entry s k i).
      { apply load_le_ext. change (Z.of_nat 8) with 8. intros b Hb8. apply H4.
        unfold page_aligned, PAGE_SIZE in *. zlia. }
      split_and!; [done|done|by apply st64_bytes|..].
      + intros a Ha. unfold wr_entry. cbn [with_mem vmem].
        rewrite st64_outside by (unfold PAGE_SIZE in *; lia). by apply H4.
      + intros j Hj. destruct (decide (i = j)) as [<-|Hij].
        * rewrite rd_wr_eq by (apply ld64_range, H3). rewrite Hki.
          destruct (Z.leb_spec 256 i), (Z.ltb_spec i (i + 1)); simpl; (lia || done).
        * rewrite rd_wr_ne by (done || lia || by right). rewrite H5 by done.
          destruct (Z.leb_spec 256 j), (Z.ltb_spec j i), (Z.ltb_spec j (i + 1)); simpl; (lia || done). }
  destruct H as (H1 & H2 & H3 & H4 & H5). split_and!; [done..|]. intros j Hj. rewrite H5 by done.
  change KERNEL_PML4_START with 256. destruct (Z.leb_spec 256 j), (Z.ltb_spec j (256 + Z.of_nat 256)); simpl; (lia || done).
Qed.

Section create.
Context (s s' : vm F) (roots : list Z) (k n : Z).
Hypothesis Hok : vm_ok s roots.
Hypothesis Hk : k ∈ roots.
Hypothesis Hn : fa_hhdm (fa s) ≤ n ∧ n + PAGE_SIZE ≤ 2 ^ 64 ∧ page_aligned n.
Hypothesis Hfresh : fa_free (fa s) (n - fa_hhdm (fa s)).
Hypothesis Hok' : fa_ok (fa s').
Hypothesis Hh : fa_hhdm (fa s') = fa_hhdm (fa s).
Hypothesis Hfree : ∀ u, fa_free (fa s') u ↔ fa_free (fa s) u ∧ u ≠ n - fa_hhdm (fa s).
Hypothesis Hbytes : mem_bytes (vmem s').
Hypothesis Hout : ∀ a, a < n ∨ n + PAGE_SIZE ≤ a → vmem s' a = vmem s a.
Hypothesis Hnew : ∀ j, 0 ≤ j < 512 → rd_entry s' n j = if KERNEL_PML4_START <=? j then rd_entry s k j else 0.

Lemma create_not_fresh r1 d w t1 : r1 ∈ roots → (d ≤ 3)%nat → tbl s r1 d w = Some t1 → t1 ≠ n.
Proof. intros H1 Hd E ->. by apply (ok_tab _ _ Hok _ _ _ _ H1 Hd E). Qed.

Lemma create_rd r1 d w t1 i :
  r1 ∈ roots → (d ≤ 3)%nat → tbl s r1 d w = Some t1 → 0 ≤ i < 512 → rd_entry s' t1 i = rd_entry s t1 i.
Proof.
  intros H1 Hd E Hi. apply load_le_ext. change (Z.of_nat 8) with 8. intros b Hb. apply Hout.
  pose proof (create_not_fresh _ _ _ _ H1 Hd E). pose proof (tab_aligned _ _ _ _ _ _ Hok H1 Hd E).
  destruct Hn as (_ & _ & Hna). unfold page_aligned, PAGE_SIZE in *. zlia.
Qed.

Lemma create_tbl_old r1 d w : r1 ∈ roots → (d ≤ 3)%nat → tbl s' r1 d w = tbl s r1 d w.
Proof.
  intros H1 Hd. apply (tbl_same s s' r1 w d); [done| |done]. intros d1 t1 Hd1 E.
  apply (create_rd r1 d1 w); [done|lia|done|apply idx_range].
Qed.

(** The kernel half of the new space is the kernel's; its user half is empty. *)
Lemma create_tbl_new d w :
  (d < 3)%nat → tbl s' n (S d) w = if KERNEL_PML4_START <=? PML4_IDX w then tbl s k (S d) w else None.
Proof.
  induction d as [|d IH]; intros Hd.
  - cbn [tbl]. unfold follow. cbn [idx]. rewrite Hnew by apply (idx_range 0).
    destruct (KERNEL_PML4_START <=? PML4_IDX w); [|done]. unfold entry_table, p2v. by rewrite Hh.
  - change (tbl s' n (S (S d)) w) with (match tbl s' n (S d) w with Some t => follow s' t (S d) w | None => None end).
    rewrite IH by lia. destruct (KERNEL_PML4_START <=? PML4_IDX w); [|done].
    change (tbl s k (S (S d)) w) with (match tbl s k (S d) w with Some t => follow s t (S d) w | None => None end).
    destruct (tbl s k (S d) w) as [t|] eqn:E; [|done]. unfold follow.
    rewrite (create_rd k (S d) w t) by (done || lia || apply idx_range). unfold entry_table, p2v. by rewrite Hh.
Qed.

Lemma create_tbl_new_inv d w t :
  (d ≤ 3)%nat → tbl s' n d w = Some t → (d = 0%nat ∧ t = n) ∨ (¬ is_user w ∧ (1 ≤ d)%nat ∧ tbl s k d w = Some t).
Proof.
  destruct d as [|d]; intros Hd E; [left; simpl in E; split; [done|congruence]|].
  right. rewrite create_tbl_new in E by lia. unfold is_user.
  destruct (Z.leb_spec KERNEL_PML4_START (PML4_IDX w)); [|done]. split_and!; [lia|lia|done].
Qed.

Lemma create_ok : vm_ok s' (n :: roots).
Proof.
  constructor; [done|done|..].
  - intros r1 d w t Hr1 Hd E. unfold table_page. rewrite Hh, Hfree.
    assert (Ho : (∃ r0, r0 ∈ roots ∧ tbl s r0 d w = Some t) ∨ t = n).
    { apply elem_of_cons in Hr1 as [->|Hr1]; [|rewrite create_tbl_old in E by done; eauto].
      destruct (create_tbl_new_inv _ _ _ Hd E) as [[_ ->]|(_ & _ & Et)]; eauto. }
    destruct Ho as [(r0 & Hr0 & Et)| ->]; [|split_and!; try apply Hn; tauto].
    destruct (ok_tab _ _ Hok _ _ _ _ Hr0 Hd Et) as (? & ? & ? & ?). tauto.
  - intros r1 r2 d d' v w t Hr1 Hr2 Hd Hd' Hu E1 E2.
    apply elem_of_cons in Hr1 as [->|Hr1], Hr2 as [->|Hr2].
    + destruct (create_tbl_new_inv _ _ _ Hd E1) as [[-> ->]|(? & _)]; [|done].
      destruct (create_tbl_new_inv _ _ _ Hd' E2) as [[-> _]|(_ & _ & E3)].
      * split_and!; [done..|]. intros j Hj. lia.
      * exfalso. by apply (create_not_fresh _ _ _ _ Hk Hd' E3).
    + destruct (create_tbl_new_inv _ _ _ Hd E1) as [[-> ->]|(? & _)]; [|done].
      rewrite create_tbl_old in E2 by done. exfalso. by apply (create_not_fresh _ _ _ _ Hr2 Hd' E2).
    + rewrite create_tbl_old in E1 by done.
      destruct (create_tbl_new_inv _ _ _ Hd' E2) as [[-> ->]|(Hw & Hd1 & E3)].
      * exfalso. by apply (create_not_fresh _ _ _ _ Hr1 Hd E1).
      * exfalso. destruct (ok_inj _ _ Hok r1 k d d' v w t Hr1 Hk Hd Hd' Hu E1 E3) as (_ & -> & Hp).
        destruct d' as [|d']; [lia|]. by apply Hw, (is_user_path d' v w).
    + rewrite create_tbl_old in E1, E2 by done. by apply (ok_inj _ _ Hok _ _ _ _ _ _ t).
  - intros r1 d w t Hr1 Hd Hu E. assert (Hd3 : (d ≤ 3)%nat) by lia. apply elem_of_cons in Hr1 as [->|Hr1].
    + destruct (create_tbl_new_inv _ _ _ Hd3 E) as [[-> _]|(? & _)]; [lia|done].
    + rewrite create_tbl_old in E by done. rewrite (create_rd r1 d w t) by (done || apply idx_range).
      by apply (ok_small _ _ Hok r1).
Qed.

Lemma create_pte_old r1 w : r1 ∈ roots → pte s' r1 w = pte s r1 w.
Proof.
  intros H1. unfold pte. rewrite create_tbl_old by (done || lia).
  destruct (tbl s r1 3 w) as [t|] eqn:E; [|done]. by apply (create_rd r1 3 w); [| | |apply (idx_range 3)].
Qed.

Lemma create_pte_new w : pte s' n w = if KERNEL_PML4_START <=? PML4_IDX w then pte s k w else 0.
Proof.
  unfold pte. rewrite create_tbl_new by lia. destruct (KERNEL_PML4_START <=? _); [|done].
  destruct (tbl s k 3 w) as [t|] eqn:E; [|done]. by apply (create_rd k 3 w); [| | |apply (idx_range 3)].
Qed.
End create.

(** A new address space at [phys], with the kernel half of [k]. *)
Record created (roots : list Z) (k phys : Z) s s' : Prop := {
  cr_fresh : fa_free (fa s) phys;
  cr_one : fa_refcount (fa s') phys = 1;
  cr_notin : ¬ (p2v s' phys ∈ roots);
  cr_virt : p2v s' phys = phys + fa_hhdm (fa s);
  cr_hhdm : fa_hhdm (fa s') = fa_hhdm (fa s);
  cr_ok : vm_ok s' (p2v s' phys :: roots);
  cr_empty : ∀ d w, (1 ≤ d ≤ 3)%nat → is_user w → tbl s' (p2v s' phys) d w = None;
  cr_kern : ∀ w, ¬ is_user w → pte s' (p2v s' phys) w = pte s k w;
  cr_tbl : ∀ r d w, r ∈ roots → (d ≤ 3)%nat → tbl s' r d w = tbl s r d w;
  cr_pte : ∀ r w, r ∈ roots → pte s' r w = pte s r w;
  cr_page : ∀ p, data_page s roots p → data_page s' (p2v s' phys :: roots) p;
  cr_data : ∀ p i, data_page s roots p → 0 ≤ i < PAGE_SIZE → vmem s' (p + i) = vmem s (p + i);
  cr_refs : ∀ u, page_aligned u → 0 ≤ u → ¬ fa_free (fa s) u → fa_refcount (fa s') u = fa_refcount (fa s) u;
  cr_free : ∀ u, fa_free (fa s') u ↔ fa_free (fa s) u ∧ u ≠ phys;
}.

Lemma create_space cr3 s roots :
  vm_ok s roots → (vmm_kernel_pml4 cr3 s).1 ∈ roots →
  let '(phys, s') := vmm_create_pml4 cr3 s in
  (phys = 0 ∧ vmem s' = vmem s ∧ fa s' = fa s ∧ (∀ u, ¬ fa_free (fa s) u)) ∨
  created roots (vmm_kernel_pml4 cr3 s).1 phys s s'.
Proof.
  intros Hok Hk. cbv zeta. unfold vmm_create_pml4. pose proof (kernel_pml4_same cr3 s) as Hsame.
  destruct (vmm_kernel_pml4 cr3 s) as [k s1]. destruct Hsame as [Em Ef]. cbn [fst] in *. rewrite Ef.
  destruct (fa_alloc_spec (fa s) (ok_fa _ _ Hok)) as
    [[E Hno]|(pt & f' & E & Hf & Hok' & Hh & Hfree & Hrefs)]; rewrite E.
  { left. cbn. done. }
  destruct (free_frame_virt s pt (ok_fa _ _ Hok) Hf) as (Ep & H1 & H2 & H3 & _ & Hpt).
  destruct (Z.eqb_spec pt 0) as [->|Hnz]; [lia|]. right.
  assert (Hp2v : ∀ s2 : vm F, fa s2 = f' → p2v s2 pt = p2v s pt) by (intros s2 E2; unfold p2v; by rewrite E2, Hh).
  rewrite (Hp2v (with_fa s1 f')) by done. set (n := p2v s pt) in *.
  pose proof (tab_aligned _ _ _ 0 0 k Hok Hk ltac:(lia) eq_refl) as Hka.
  assert (Hfr : fa_free (fa s) (n - fa_hhdm (fa s))).
  { rewrite Ep. by replace (pt + fa_hhdm (fa s) - fa_hhdm (fa s)) with pt by lia. }
  assert (Hnk : n ≠ k).
  { intros ->. by apply (ok_tab _ _ Hok k 0 0 k Hk ltac:(lia) eq_refl). }
  pose proof (copy_kernel_half (with_fa s1 f') n k) as Hcopy. cbv zeta in Hcopy.
  set (s' := iter_up _ _ _ _) in *.
  destruct Hcopy as (C1 & C2 & C3 & C4 & C5); [cbn [with_fa vmem]; rewrite Em; apply Hok|done..|].
  cbn [with_fa vmem fa kernel_pml4_virt] in *. rewrite Em in C4.
  assert (C5' : ∀ j, 0 ≤ j < 512 → rd_entry s' n j = if KERNEL_PML4_START <=? j then rd_entry s k j else 0).
  { intros j Hj. rewrite C5 by done. unfold rd_entry. cbn [with_fa vmem]. by rewrite Em. }
  assert (Hfree' : ∀ u, fa_free (fa s') u ↔ fa_free (fa s) u ∧ u ≠ n - fa_hhdm (fa s)).
  { intros u. rewrite C1, Hfree, Ep. by replace (pt + fa_hhdm (fa s) - fa_hhdm (fa s)) with pt by lia. }
  assert (Hh' : fa_hhdm (fa s') = fa_hhdm (fa s)) by by rewrite C1.
  assert (HN : fa_hhdm (fa s) ≤ n ∧ n + PAGE_SIZE ≤ 2 ^ 64 ∧ page_aligned n) by done.
  assert (Hok2 : fa_ok (fa s')) by by rewrite C1.
  constructor; rewrite ?(Hp2v s' C1); fold n; [done| | |done|done|by apply (create_ok s s' roots k n)|..].
  - rewrite C1, Hrefs; [by rewrite Z.eqb_refl| |lia]. by destruct (fa_free_frame _ _ (ok_fa _ _ Hok) Hf) as (_ & _ & ? & _).
  - intros Hin. by apply (ok_tab _ _ Hok n 0 0 n Hin ltac:(lia) eq_refl).
  - intros [|d] w Hd Hw; [lia|]. rewrite (create_tbl_new s s' roots k n) by (done || lia). unfold is_user in Hw.
    destruct (Z.leb_spec KERNEL_PML4_START (PML4_IDX w)); [lia|done].
  - intros w Hw. rewrite (create_pte_new s s' roots k n) by done. unfold is_user in Hw.
    destruct (Z.leb_spec KERNEL_PML4_START (PML4_IDX w)); [done|lia].
  - intros r d w Hr Hd. by apply (create_tbl_old s s' roots n).
  - intros r w Hr. by apply (create_pte_old s s' roots n).
  - intros p (Hp1 & Hp2 & Hp3 & Hp4). unfold data_page. rewrite Hh', Hfree'. split_and!; [done|done|tauto|].
    assert (Hpn : p ≠ n) by (intros ->; done).
    intros r d v [->|Hr]%elem_of_cons Hd Et; [|rewrite (create_tbl_old s s' roots n) in Et by done; by apply (Hp4 r d v)].
    destruct (create_tbl_new_inv s s' roots k n Hok Hk HN Hfr Hh' C4 C5' d v p Hd Et) as [[_ ?]|(_ & _ & E3)]; [done|].
    by apply (Hp4 k d v).
  - intros p i (_ & Hpa & Hpf & _) Hi. apply C4. assert (p ≠ n) by (intros ->; done).
    unfold page_aligned, PAGE_SIZE in *. zlia.
  - intros u Ha Hu0 Hn. rewrite C1, Hrefs by done. destruct (Z.eqb_spec u pt) as [->|]; [by destruct Hn|done].
  - intros u. by rewrite C1, Hfree.
Qed.

Lemma create_pml4_lemma cr3 s roots :
  vm_ok s roots → (vmm_kernel_pml4 cr3 s).1 ∈ roots →
  let k := (vmm_kernel_pml4 cr3 s).1 in
  let '(phys, s') := vmm_create_pml4 cr3 s in
  (phys = 0 ∧ vmem s' = vmem s ∧ fa s' = fa s ∧ (∀ u, ¬ fa_free (fa s) u)) ∨
  (fa_free (fa s) phys ∧ fa_refcount (fa s') phys = 1 ∧
   ¬ (p2v s' phys ∈ roots) ∧ vm_ok s' (p2v s' phys :: roots) ∧
   (∀ w, is_user w → pte s' (p2v s' phys) w = 0) ∧
   (∀ w, ¬ is_user w → pte s' (p2v s' phys) w = pte s k w) ∧
   (∀ r w, r ∈ roots → pte s' r w = pte s r w) ∧
   (∀ p, data_page s roots p → data_page s' (p2v s' phys :: roots) p) ∧
   (∀ p i, data_page s roots p → 0 ≤ i < PAGE_SIZE → vmem s' (p + i) = vmem s (p + i)) ∧
   (∀ u, page_aligned u → 0 ≤ u → ¬ fa_free (fa s) u → fa_refcount (fa s') u = fa_refcount (fa s) u)).
Proof.
  intros Hok Hk. cbv zeta. pose proof (create_space cr3 s roots Hok Hk) as C.
  destruct (vmm_create_pml4 cr3 s) as [phys s']. destruct C as [?|C]; [by left|right].
  split; [apply C|]. split; [apply C|]. split; [apply C|]. split; [apply C|]. split; [|split_and!; apply C].
  intros w Hw. unfold pte. by rewrite (cr_empty _ _ _ _ _ C) by (done || lia).
Qed.

(** [vmm_create_pml4] either finds no free frame, returns 0 and changes no
    table, or returns a fresh frame: the new address space sees the kernel half
    of the kernel's tables entry for entry and has no user mapping, every other
    address space is unchanged, and the invariant holds of all of them. *)
Theorem vmm_create_pml4_spec cr3 s roots :
  vm_ok s roots → (vmm_kernel_pml4 cr3 s).1 ∈ roots →
  let k := (vmm_kernel_pml4 cr3 s).1 in
  let '(phys, s') := vmm_create_pml4 cr3 s in
  (phys = 0 ∧ vmem s' = vmem s ∧ fa s' = fa s ∧ (∀ u, ¬ fa_free (fa s) u)) ∨
  (fa_free (fa s) phys ∧ fa_refcount (fa s') phys = 1 ∧
   ¬ (p2v s' phys ∈ roots) ∧ vm_ok s' (p2v s' phys :: roots) ∧
   (∀ w, is_user w → pte s' (p2v s' phys) w = 0) ∧
   (∀ w, ¬ is_user w → pte s' (p2v s' phys) w = pte s k w) ∧
   (∀ r w, r ∈ roots → pte s' r w = pte s r w) ∧
   (∀ p, data_page s roots p → data_page s' (p2v s' phys :: roots) p) ∧
   (∀ p i, data_page s roots p → 0 ≤ i < PAGE_SIZE → vmem s' (p + i) = vmem s (p + i)) ∧
   (∀ u, page_aligned u → 0 ≤ u → ¬ fa_free (fa s) u → fa_refcount (fa s') u = fa_refcount (fa s) u)).
Proof. apply create_pml4_lemma. Qed.
End spec.

(** ** A small machine: 2 MiB of memory, the kernel's PML4 in low memory, empty *)

Module VmmDemo.
Definition root : Z := HIGHER_HALF + 4096.
Definition machine (f : pmm) : vm pmm := mkVm (λ _, 0) f 0.

Lemma zero_entry f t i : rd_entry (machine f) t i = 0.
Proof. reflexivity. Qed.

Lemma zero_tbl f d v t : tbl (machine f) root d v = Some t → d = 0%nat ∧ t = root.
Proof.
  induction d as [|d IH]; cbn [tbl]; [intros [= <-]; done|].
  destruct (tbl (machine f) root d v) as [u|]; [|done]. unfold follow. by rewrite zero_entry.
Qed.

Lemma machine_ok f : pmm_ok f → hhdm f = HIGHER_HALF → vm_ok (machine f) [root].
Proof.
  intros Hf Hh. constructor.
  - done.
  - intros a. simpl. lia.
  - intros r d v t ->%list_elem_of_singleton _ E. apply zero_tbl in E as [_ ->]. unfold table_page, page_aligned.
    cbn [machine fa fa_hhdm pmm_frames fa_free pmm_frame_laws]. rewrite Hh.
    split_and!; [unfold root; lia|done|done|]. change (root - HIGHER_HALF) with 4096.
    intros [_ Hfree]. change (4096 / PAGE_SIZE) with 1 in Hfree. pose proof (free_not_low f 1 (proj1 Hf) Hfree).
    unfold LOW_FRAMES in *. lia.
  - intros r r' d d' v w t ->%list_elem_of_singleton ->%list_elem_of_singleton _ _ _ E1 E2.
    apply zero_tbl in E1 as [-> _], E2 as [-> _]. split_and!; [done..|]. intros k Hk. lia.
  - intros r d v t ->%list_elem_of_singleton Hd _ E. apply zero_tbl in E as [-> _]. lia.
Qed.

Lemma demo_hhdm : hhdm demo_pmm = HIGHER_HALF.
Proof. vm_compute. reflexivity. Qed.

Lemma demo_pmm_ok : pmm_ok demo_pmm.
Proof.
  destruct demo_pmm_wf as [Hw Hr]. unfold pmm_ok. rewrite demo_hhdm.
  split; [exact Hw|]. split; [exact Hr|]. unfold HIGHER_HALF, page_aligned, PAGE_SIZE. split; [lia|reflexivity].
Qed.

Definition demo : vm pmm := machine demo_pmm.
Lemma demo_ok : vm_ok demo [root].
Proof. apply machine_ok; [apply demo_pmm_ok|apply demo_hhdm]. Qed.
#[global] Strategy 100 [demo_pmm pmm_alloc_frame].

Definition PAGE_VA : Z := 4194304.          (* 0x400000 *)
Definition PAGE_PA : Z := 257 * 4096.
Lemma page_user : is_user PAGE_VA.
Proof. reflexivity. Qed.
Lemma root_high : HIGHER_HALF ≤ root.
Proof. unfold root. lia. Qed.

Lemma root_in : root ∈ [root].
Proof. by apply list_elem_of_singleton. Qed.

Lemma demo_map_succeeds : (vmm_map_page demo root PAGE_VA PAGE_PA (Z.lor VMM_RW VMM_U)).1 = true.
Proof. vm_compute. reflexivity. Qed.

Lemma vmm_map_page_spec_witness :
  let '(ok, s') := vmm_map_page demo root PAGE_VA PAGE_PA (Z.lor VMM_RW VMM_U) in
  ok = true ∧ vm_ok s' [root] ∧ vmm_virt_to_phys s' root (PAGE_VA + 5) = PAGE_PA + 5.
Proof.
  pose proof (vmm_map_page_spec demo [root] root PAGE_VA PAGE_PA (Z.lor VMM_RW VMM_U) demo_ok root_in
    root_high page_user ltac:(reflexivity) ltac:(unfold PAGE_PA; lia) ltac:(split; [done|reflexivity]) eq_refl) as H.
  pose proof demo_map_succeeds as Hs.
  destruct (vmm_map_page demo root PAGE_VA PAGE_PA (Z.lor VMM_RW VMM_U)) as [ok s']. cbn [fst] in Hs. subst ok.
  destruct H as (H1 & _ & _ & _ & H2). split; [reflexivity|]. split; [exact H1|]. apply (H2 (PAGE_VA + 5)).
  intros [|[|[|[|k]]]] Hk; reflexivity.
Defined.

Lemma vmm_unmap_page_spec_witness :
  vm_ok (vmm_unmap_page demo root PAGE_VA) [root] ∧ pte (vmm_unmap_page demo root PAGE_VA) root PAGE_VA = 0.
Proof.
  destruct (vmm_unmap_page_spec demo [root] root PAGE_VA demo_ok root_in page_user) as (H1 & _ & H2 & _).
  split; [exact H1|]. apply (H2 PAGE_VA). intros k Hk. reflexivity.
Defined.

Lemma vmm_create_pml4_spec_witness :
  let '(phys, s') := vmm_create_pml4 4096 demo in
  phys = 0 ∨ vm_ok s' [p2v s' phys; root] ∧ pte s' (p2v s' phys) PAGE_VA = 0.
Proof.
  assert (E : (vmm_kernel_pml4 4096 demo).1 = root).
  { unfold vmm_kernel_pml4, demo, machine, p2v. cbn [kernel_pml4_virt fst fa fa_hhdm pmm_frames]. rewrite Z.eqb_refl.
    cbn [fst]. rewrite demo_hhdm. reflexivity. }
  assert (Hin : (vmm_kernel_pml4 4096 demo).1 ∈ [root]) by (rewrite E; exact root_in).
  pose proof (vmm_create_pml4_spec 4096 demo [root] demo_ok Hin) as H. cbv zeta in H.
  destruct (vmm_create_pml4 4096 demo) as [phys s'].
  destruct H as [(H & _)|(_ & _ & _ & H1 & H2 & _)]; [left; exact H|right]. split; [exact H1|]. apply (H2 PAGE_VA page_user).
Defined.
End VmmDemo.
