(* ===== verification/Fault.v ===== *)
(** * Page faults: copy-on-write and stack growth

    [kernel/memory/fault.c].  The handler is entered with the faulting address,
    the error code and the current process; of the process it uses the [ring3]
    flag and the page-table pointer. *)

From Stdlib Require Import Ascii String.
From S2P Require Import Prelude Mem CString Block Pmm Frames Vmm VmmProofs VmmSpec.

#[local] Open Scope Z_scope.

Definition PF_PRESENT : Z := 1.
Definition PF_WRITE : Z := 2.
Definition PF_USER : Z := 4.
Definition PF_RSVD : Z := 8.
Definition PF_INSTR : Z := 16.

Definition USER_STACK_TOP : Z := 140733193388032.        (* 0x00007FFF00000000 *)
Definition USER_STACK_MAX : Z := 8 * 1024 * 1024.
Definition USER_STACK_LOW : Z := USER_STACK_TOP - USER_STACK_MAX.

(** [a & PAGE_MASK] *)
Definition page_of (a : Z) : Z := Z.land a (Z.lnot (PAGE_SIZE - 1)).

(** ** Describing an error code *)

Definition bytes_of (s : string) : list Z :=
  (λ c, Z.of_N (N_of_ascii c)) <$> list_ascii_of_string s.

(** The loop that copies a part while there is room, on what [buf] holds. *)
Definition append_capped (room : Z) (buf : list Z) (s : list Z) : list Z :=
  buf ++ take (Z.to_nat (room - zlen buf)) s.

Definition pf_parts (err : Z) : list (list Z) :=
  [bytes_of (if has err PF_USER then "user" else "kernel")]
  ++ [bytes_of (if has err PF_INSTR then "exec" else if has err PF_WRITE then "write" else "read")]
  ++ [bytes_of (if has err PF_PRESENT then "protection" else "not-present")]
  ++ (if has err PF_RSVD then [bytes_of "reserved-bit"] else []).

Definition PF_BUF : Z := 64.

(** The bytes of [buf] before the terminating NUL at [buf[n]]. *)
Definition pf_describe (err : Z) : list Z :=
  (foldl (λ '(i, buf) part,
     let buf := if (negb (i =? 0)) && (zlen buf <? PF_BUF - 1) then buf ++ bytes_of " " else buf in
     (i + 1, append_capped (PF_BUF - 1) buf part)) (0, []) (pf_parts err)).2.

Section fault.
Context {F : Type} `{FA : FrameAlloc F}.
Implicit Types s : vm F.

Definition STACK_FLAGS : Z := Z.lor (Z.lor VMM_RW VMM_U) VMM_NX.

Definition grow_user_stack s (pml4_virt cr2 err : Z) : bool * vm F :=
  if has err PF_PRESENT then (false, s)
  else if USER_STACK_TOP <=? cr2 then (false, s)
  else if cr2 <? USER_STACK_LOW then (false, s)
  else
    let page := page_of cr2 in
    let '(phys, f) := fa_alloc (fa s) in
    let s := with_fa s f in
    if phys =? 0 then (false, s)
    else
      let s := zero_page s (p2v s phys) in
      match vmm_map_page s pml4_virt page phys STACK_FLAGS with
      | (false, s) => (false, with_fa s (fa_unref (fa s) phys))
      | (true, s) => (true, s)
      end.

(** [*pte = v] *)
Definition set_pte s (a v : Z) : vm F := with_mem s (st64 (vmem s) a v).

Definition handle_cow s (pml4_virt cr2 err : Z) : bool * vm F :=
  if negb (has err PF_PRESENT) || negb (has err PF_WRITE) then (false, s)
  else
    let page := page_of cr2 in
    match vmm_pte_lookup s pml4_virt page with
    | None => (false, s)
    | Some pte =>
        let e := ld64 (vmem s) pte in
        if negb (has e VMM_P) || negb (has e VMM_COW) then (false, s)
        else
          let old_phys := Z.land e VMM_PHYS_MASK in
          if fa_refcount (fa s) old_phys =? 1
          then (true, set_pte s pte (Z.lor (Z.land e (Z.lnot VMM_COW)) VMM_RW))
          else
            let '(new_phys, f) := fa_alloc (fa s) in
            let s := with_fa s f in
            if new_phys =? 0 then (false, s)
            else
              let s := with_mem s (blit (vmem s) (p2v s new_phys) (vmem s) (p2v s old_phys) PAGE_SIZE) in
              let e := ld64 (vmem s) pte in
              let flags := Z.lor (Z.land (Z.land e (Z.lnot VMM_PHYS_MASK)) (Z.lnot VMM_COW)) VMM_RW in
              let s := set_pte s pte (Z.lor (Z.land new_phys VMM_PHYS_MASK) flags) in
              (true, with_fa s (fa_unref (fa s) old_phys))
    end.

(** What the handler reads of the current process. *)
Record fault_proc := mkFaultProc { fp_ring3 : bool; fp_pml4_virt : Z }.

Definition vmm_handle_page_fault s (cur : option fault_proc) (cr2 err : Z) : bool * vm F :=
  if negb (has err PF_USER) then (false, s)
  else
    match cur with
    | None => (false, s)
    | Some p =>
        if negb (fp_ring3 p) || (fp_pml4_virt p =? 0) then (false, s)
        else if has err PF_RSVD then (false, s)
        else
          match handle_cow s (fp_pml4_virt p) cr2 err with
          | (true, s) => (true, s)
          | (false, s) =>
              match grow_user_stack s (fp_pml4_virt p) cr2 err with
              | (true, s) => (true, s)
              | (false, s) => (false, s)
              end
          end
    end.
End fault.

(** ** Proofs *)

Lemma path_eq_page_of n a : (n ≤ 4)%nat → path_eq n (page_of a) a.
Proof.
  intros Hn k Hk. unfold page_of. change (Z.lnot (PAGE_SIZE - 1)) with (-4096).
  destruct k as [|[|[|[|k]]]]; cbn [idx]; try lia;
    unfold PML4_IDX, PDPT_IDX, PD_IDX, PT_IDX; rewrite Z.shiftr_land.
  - change (Z.shiftr (-4096) 39) with (-1). by rewrite Z.land_m1_r.
  - change (Z.shiftr (-4096) 30) with (-1). by rewrite Z.land_m1_r.
  - change (Z.shiftr (-4096) 21) with (-1). by rewrite Z.land_m1_r.
  - change (Z.shiftr (-4096) 12) with (-1). by rewrite Z.land_m1_r.
Qed.

Section proofs.
Context {F : Type} `{FA : FrameAlloc F} `{FL : !FrameAllocLaws F}.
Implicit Types s : vm F.

(** The entries copy-on-write installs: same page attributes, writable, no
    longer copy-on-write. *)
Definition cow_resolved (e e' : Z) : Prop :=
  has e' VMM_RW = true ∧ has e' VMM_COW = false ∧
  ∀ n, 0 ≤ n → n ≠ 1 → n ≠ 9 → n < 12 ∨ 52 ≤ n → Z.testbit e' n = Z.testbit e n.

Lemma cow_rearm e :
  0 ≤ e < 2 ^ 64 →
  let e' := Z.lor (Z.land e (Z.lnot VMM_COW)) VMM_RW in
  0 ≤ e' < 2 ^ 64 ∧ cow_resolved e e' ∧ Z.land e' VMM_PHYS_MASK = Z.land e VMM_PHYS_MASK.
Proof.
  intros He e'. split; [apply lor_range; [lia|by apply land_range|split; [done|reflexivity]]|]. split.
  - unfold cow_resolved, e'. flag_bits. change VMM_RW with (2 ^ 1). change VMM_COW with (2 ^ 9).
    split; [by destruct (Z.testbit e 1)|]. split; [by destruct (Z.testbit e 9)|].
    intros n Hn H1 H9 _. rewrite Z.lor_spec, Z.land_spec, Z.lnot_spec, !Z.pow2_bits_eqb by lia.
    destruct (Z.eqb_spec 9 n), (Z.eqb_spec 1 n); try lia. by rewrite orb_false_r, andb_true_r.
  - unfold e'. rewrite Z.land_lor_distr_l, <- Z.land_assoc.
    change (Z.land (Z.lnot VMM_COW) VMM_PHYS_MASK) with VMM_PHYS_MASK. by rewrite Z.lor_0_r.
Qed.

Lemma cow_copy_entry e pt :
  0 ≤ e < 2 ^ 64 → page_aligned pt → 0 ≤ pt < 2 ^ 52 →
  let e' := Z.lor (Z.land pt VMM_PHYS_MASK)
              (Z.lor (Z.land (Z.land e (Z.lnot VMM_PHYS_MASK)) (Z.lnot VMM_COW)) VMM_RW) in
  0 ≤ e' < 2 ^ 64 ∧ cow_resolved e e' ∧ Z.land e' VMM_PHYS_MASK = pt.
Proof.
  intros He Ha Hpt e'.
  split; [apply lor_range; [lia|apply land_range; lia|apply lor_range; [lia|by apply land_range, land_range|split; [done|reflexivity]]]|].
  assert (Hlow : ∀ n, 0 ≤ n → n < 12 ∨ 52 ≤ n → Z.testbit (Z.land pt VMM_PHYS_MASK) n = false).
  { intros n Hn Ho. rewrite Z.land_spec, mask_testbit by done.
    destruct (Z.leb_spec 12 n), (Z.ltb_spec n 52); try lia; apply andb_false_r. }
  split.
  - unfold cow_resolved, e'. rewrite has_RW, has_COW. change VMM_RW with (2 ^ 1). change VMM_COW with (2 ^ 9).
    split; [|split].
    + rewrite !Z.lor_spec. change (Z.testbit (2 ^ 1) 1) with true. by rewrite !orb_true_r.
    + rewrite !Z.lor_spec, Hlow, !Z.land_spec, !Z.lnot_spec by lia. change (Z.testbit (2 ^ 9) 9) with true.
      by rewrite andb_false_r.
    + intros n Hn H1 H9 Ho. rewrite !Z.lor_spec, Hlow, !Z.land_spec, !Z.lnot_spec, mask_testbit, !Z.pow2_bits_eqb by lia.
      destruct (Z.eqb_spec 9 n), (Z.eqb_spec 1 n), (Z.leb_spec 12 n), (Z.ltb_spec n 52); try lia;
        by rewrite orb_false_r, !andb_true_r.
  - unfold e'. rewrite !Z.land_lor_distr_l, <- !Z.land_assoc.
    change (Z.land (Z.lnot VMM_PHYS_MASK) (Z.land (Z.lnot VMM_COW) VMM_PHYS_MASK)) with 0.
    change (Z.land VMM_RW VMM_PHYS_MASK) with 0. change (Z.land VMM_PHYS_MASK VMM_PHYS_MASK) with VMM_PHYS_MASK.
    rewrite Z.land_0_r, !Z.lor_0_r. by apply land_mask_frame.
Qed.

(** A frame that is mapped: a referenced frame of the allocator that is no
    table. *)
Definition mapped_frame s (roots : list Z) (old : Z) : Prop :=
  data_page s roots (p2v s old) ∧ LOW_FRAMES * PAGE_SIZE ≤ old ∧ 0 < fa_refcount (fa s) old ∧ ¬ fa_free (fa s) old.

(** What a fault may leave behind: only the entry of the faulting page of the
    faulting address space may change, and no data page does. *)
Record fault_frame (roots : list Z) s s' (ok : bool) (r v : Z) : Prop := {
  ff_ok : vm_ok s' roots;
  ff_pte : ∀ r' w, r' ∈ roots → ok = false ∨ r' ≠ r ∨ ¬ path_eq 4 v w → pte s' r' w = pte s r' w;
  ff_data : ∀ p i, data_page s roots p → 0 ≤ i < PAGE_SIZE → vmem s' (p + i) = vmem s (p + i);
}.

Lemma fault_frame_grows roots s s' r v : grows roots s s' → fault_frame roots s s' false r v.
Proof. intros G. constructor; [apply G|intros r' w Hr _; by apply G|apply G]. Qed.

(** A leaf write after growth. *)
Lemma fault_frame_leaf roots s s1 r v t x :
  grows roots s s1 → r ∈ roots → is_user v → tbl s1 r 3 v = Some t → 0 ≤ x < 2 ^ 64 →
  fault_frame roots s (wr_entry s1 t (PT_IDX v) x) true r v.
Proof.
  intros G Hr Hu Ht Hx. pose proof (gr_ok _ _ _ G) as Hok. constructor.
  - by apply (leaf_ok s1 roots r v).
  - intros r' w Hr' [|Hne]; [done|]. rewrite (leaf_pte_ne s1 roots r v) by (done || naive_solver). by apply G.
  - intros p i Hp Hi. rewrite <- (gr_data _ _ _ G p i Hp Hi).
    by apply (leaf_data s1 roots r); [..|apply G|].
Qed.

(** The walk to the leaf entry of the faulting address. *)
Lemma cow_lookup s roots r cr2 :
  vm_ok s roots → r ∈ roots →
  match vmm_pte_lookup s r (page_of cr2) with
  | None => pte s r cr2 = 0
  | Some a => ∃ t, tbl s r 3 cr2 = Some t ∧ a = t + 8 * PT_IDX cr2 ∧ ld64 (vmem s) a = pte s r cr2
  end.
Proof.
  intros Hok Hr. rewrite (pte_lookup_tbl s roots) by done.
  rewrite (tbl_path_eq s r 3 (page_of cr2) cr2) by (apply path_eq_page_of; lia).
  unfold pte. destruct (tbl s r 3 cr2) as [t|]; [|done]. cbn. exists t.
  pose proof (path_eq_page_of 4 cr2 ltac:(lia) 3%nat ltac:(lia)) as E. cbn [idx] in E. by rewrite E.
Qed.

Lemma handle_cow_lemma s roots r cr2 err :
  vm_ok s roots → r ∈ roots → is_user cr2 →
  (has (pte s r cr2) VMM_P = true → mapped_frame s roots (Z.land (pte s r cr2) VMM_PHYS_MASK)) →
  let e := pte s r cr2 in
  let old := Z.land e VMM_PHYS_MASK in
  let '(ok, s') := handle_cow s r cr2 err in
  let wanted := has err PF_PRESENT && has err PF_WRITE && has e VMM_P && has e VMM_COW in
  fault_frame roots s s' ok r cr2 ∧
  if ok then
    let e' := pte s' r cr2 in
    let new := Z.land e' VMM_PHYS_MASK in
    wanted = true ∧ cow_resolved e e' ∧ fa_refcount (fa s') new = 1 ∧
    (∀ i, 0 ≤ i < PAGE_SIZE → vmem s' (p2v s' new + i) = vmem s (p2v s old + i)) ∧
    ((new = old ∧ fa s' = fa s) ∨
     (fa_free (fa s) new ∧ fa_refcount (fa s') old = fa_refcount (fa s) old - 1))
  else s' = s ∧ (wanted = true → ∀ u, ¬ fa_free (fa s) u).
Proof.
  intros Hok Hr Hu Hmap e old. unfold handle_cow.
  assert (Hsame : fault_frame roots s s false r cr2) by by apply fault_frame_grows, grows_refl.
  destruct (has err PF_PRESENT); cbn [negb orb andb]; [|by split].
  destruct (has err PF_WRITE); cbn [negb orb andb]; [|by split].
  pose proof (cow_lookup s roots r cr2 Hok Hr) as Hl.
  destruct (vmm_pte_lookup s r (page_of cr2)) as [a|].
  2:{ unfold e. rewrite Hl. by split. }
  destruct Hl as (t & Ht & -> & Hld). rewrite Hld. fold e.
  destruct (has e VMM_P) eqn:HP; cbn [negb orb andb]; [|by split].
  destruct (has e VMM_COW) eqn:HC; cbn [negb orb andb]; [|by split].
  assert (He : 0 ≤ e < 2 ^ 64) by (unfold e; rewrite <- Hld; apply ld64_range, Hok).
  destruct (Hmap HP) as (Hdat & Hlow & Hrc & Hnf). fold e old in Hdat, Hlow, Hrc, Hnf. fold old.
  pose proof (land_mask_range e ltac:(lia)) as Hold. fold old in Hold.
  assert (Hoa : page_aligned old) by apply land_mask_aligned.
  destruct (Z.eqb_spec (fa_refcount (fa s) old) 1) as [H1|H1].
  - destruct (cow_rearm e He) as (Hx & Hres & Hmask). set (x := Z.lor _ _) in *.
    change (set_pte s (t + 8 * PT_IDX cr2) x) with (wr_entry s t (PT_IDX cr2) x).
    split; [by apply (fault_frame_leaf roots s s); [apply grows_refl|..]|]. cbv zeta.
    rewrite (leaf_pte_eq s roots r cr2 t x) by (done || apply path_eq_refl). rewrite Hmask. fold old.
    split_and!; [done|done|done| |by left].
    intros i Hi. by apply (leaf_data s roots r).
  - destruct (fa_alloc_spec (fa s) (ok_fa _ _ Hok)) as
      [[E Hno]|(pt & f' & E & Hf & Hok' & Hh & Hfree & Hrefs)]; rewrite E.
    { cbn. unfold with_fa. destruct s. by split. }
    destruct (free_frame_virt s pt (ok_fa _ _ Hok) Hf) as (Ep & P1 & P2 & P3 & Pm & Hpt).
    destruct (Z.eqb_spec pt 0) as [->|Hnz]; [lia|].
    assert (Hpa : page_aligned pt) by (rewrite <- Pm; apply land_mask_aligned).
    assert (Hpo : pt ≠ old) by (intros ->; done).
    assert (Hp2v : ∀ q, p2v (with_fa s f') q = p2v s q) by (intros q; unfold p2v; cbn [with_fa fa]; by rewrite Hh).
    rewrite !Hp2v. set (m := blit _ _ _ _ _).
    destruct (fresh_page s roots pt f' m Hok Hf Hok' Hh Hfree Hrefs) as (G & Hnew & Htbl).
    { intros b. unfold m, blit. case_if; apply Hok. }
    { intros b Hb. by apply blit_out. }
    set (s1 := mkVm m f' (kernel_pml4_virt s)) in *.
    change (with_mem (with_fa s f') m) with s1.
    assert (Ht1 : tbl s1 r 3 cr2 = Some t) by by rewrite Htbl by (done || lia).
    assert (Hld1 : ld64 (vmem s1) (t + 8 * PT_IDX cr2) = e).
    { pose proof (gr_pte _ _ _ G r cr2 Hr) as Eg. unfold pte in Eg at 1. by rewrite Ht1 in Eg. }
    rewrite Hld1. destruct (cow_copy_entry e pt He Hpa ltac:(lia)) as (Hx & Hres & Hmask).
    set (x := Z.lor _ _) in *. change (set_pte s1 (t + 8 * PT_IDX cr2) x) with (wr_entry s1 t (PT_IDX cr2) x).
    set (s2 := wr_entry s1 t (PT_IDX cr2) x).
    assert (Hrco : fa_refcount f' old = fa_refcount (fa s) old).
    { rewrite Hrefs by (done || lia). by destruct (Z.eqb_spec old pt). }
    destruct (fa_unref_spec f' old Hok' Hoa Hlow ltac:(lia)) as (U1 & U2 & U3 & U4).
    change (fa s2) with f'.
    assert (Hok2 : vm_ok s2 roots) by (apply (leaf_ok s1 roots r cr2); auto; apply G).
    assert (Hok3 : vm_ok (with_fa s2 (fa_unref f' old)) roots).
    { apply fa_swap; [done|done|done|]. intros r1 d v t1 H1' Hd E1. rewrite U2, U3.
      intros [Hfr|[_ ?]]; [|lia]. by apply (ok_tab _ _ Hok2 r1 d v t1). }
    destruct (fault_frame_leaf roots s s1 r cr2 t x G Hr Hu Ht1 Hx) as [F1 F2 F3]. fold s2 in F1, F2, F3.
    split.
    { constructor; [done| |done]. intros r' w Hr' Hne. rewrite pte_fa by done. by apply F2. }
    assert (Ex : pte s2 r cr2 = x) by (apply (leaf_pte_eq s1 roots); auto using path_eq_refl; apply G).
    cbv zeta. rewrite pte_fa by done. rewrite Ex, Hmask.
    assert (Hp2 : p2v (with_fa s2 (fa_unref f' old)) pt = p2v s pt).
    { unfold p2v. cbn [with_fa fa]. by rewrite U2, Hh. }
    split_and!; [done|done| | |].
    + cbn [with_fa fa]. rewrite U4 by (done || lia). destruct (Z.eqb_spec pt old); [done|].
      rewrite Hrefs by (done || lia). by rewrite Z.eqb_refl.
    + intros i Hi. rewrite Hp2. cbn [with_fa vmem]. unfold s2. rewrite (leaf_data s1 roots r) by (done || apply G).
      cbn [vmem s1]. unfold m. rewrite blit_in by lia. f_equal. lia.
    + right. split; [done|]. cbn [with_fa fa]. rewrite U4 by (done || lia). rewrite Z.eqb_refl. lia.
Qed.
(** Resolving a copy-on-write fault.  [handle_cow] succeeds only on a write
    to a present copy-on-write page.  Then the faulting page is writable, no
    longer copy-on-write and otherwise has its old attributes; it maps a frame
    with exactly one reference that holds the bytes the old frame held: the old
    frame itself if this was its last reference, and otherwise a fresh frame,
    with one reference to the old frame dropped.  In every case no other entry
    of any address space changes, no byte of an existing data page changes (so
    the other sharers keep reading the old contents), and the page-table
    invariant is kept.  It fails on such a page only for lack of a free frame. *)
Theorem handle_cow_spec s roots r cr2 err :
  vm_ok s roots → r ∈ roots → is_user cr2 →
  (has (pte s r cr2) VMM_P = true → mapped_frame s roots (Z.land (pte s r cr2) VMM_PHYS_MASK)) →
  let e := pte s r cr2 in
  let old := Z.land e VMM_PHYS_MASK in
  let '(ok, s') := handle_cow s r cr2 err in
  let wanted := has err PF_PRESENT && has err PF_WRITE && has e VMM_P && has e VMM_COW in
  fault_frame roots s s' ok r cr2 ∧
  if ok then
    let e' := pte s' r cr2 in
    let new := Z.land e' VMM_PHYS_MASK in
    wanted = true ∧ cow_resolved e e' ∧ fa_refcount (fa s') new = 1 ∧
    (∀ i, 0 ≤ i < PAGE_SIZE → vmem s' (p2v s' new + i) = vmem s (p2v s old + i)) ∧
    ((new = old ∧ fa s' = fa s) ∨
     (fa_free (fa s) new ∧ fa_refcount (fa s') old = fa_refcount (fa s) old - 1))
  else s' = s ∧ (wanted = true → ∀ u, ¬ fa_free (fa s) u).
Proof. apply handle_cow_lemma. Qed.

(** ** Stack growth *)

Lemma grow_stack_lemma s roots r cr2 err :
  vm_ok s roots → r ∈ roots → HIGHER_HALF ≤ r →
  let '(ok, s') := grow_user_stack s r cr2 err in
  fault_frame roots s s' ok r cr2 ∧
  (ok = true →
     has err PF_PRESENT = false ∧ USER_STACK_LOW ≤ cr2 < USER_STACK_TOP ∧
     ∃ phys, fa_free (fa s) phys ∧ pte s' r cr2 = Z.lor phys (Z.lor STACK_FLAGS VMM_P) ∧
       fa_refcount (fa s') phys = 1 ∧ ∀ i, 0 ≤ i < PAGE_SIZE → vmem s' (p2v s' phys + i) = 0).
Proof.
  intros Hok Hr Hhi. unfold grow_user_stack.
  assert (Hsame : fault_frame roots s s false r cr2) by by apply fault_frame_grows, grows_refl.
  destruct (has err PF_PRESENT); [by split|].
  destruct (Z.leb_spec USER_STACK_TOP cr2); [by split|]. destruct (Z.ltb_spec cr2 USER_STACK_LOW); [by split|].
  destruct (fa_alloc_spec (fa s) (ok_fa _ _ Hok)) as
    [[E Hno]|(pt & f' & E & Hf & Hok' & Hh & Hfree & Hrefs)]; rewrite E.
  { cbn. unfold with_fa. destruct s. by split. }
  destruct (free_frame_virt s pt (ok_fa _ _ Hok) Hf) as (Ep & P1 & P2 & P3 & Pm & Hpt).
  destruct (Z.eqb_spec pt 0) as [->|Hnz]; [lia|].
  assert (Hpa : page_aligned pt) by (rewrite <- Pm; apply land_mask_aligned).
  assert (Hp2v : p2v (with_fa s f') pt = p2v s pt) by (unfold p2v; cbn [with_fa fa]; by rewrite Hh).
  rewrite Hp2v. destruct (fresh_page s roots pt f' (filled (vmem s) (p2v s pt) 0 PAGE_SIZE) Hok Hf Hok' Hh Hfree Hrefs)
    as (G & Hnew & Htbl).
  { apply filled_bytes; [apply Hok|lia]. }
  { intros b Hb. unfold filled. destruct (Z.leb_spec (p2v s pt) b), (Z.ltb_spec b (p2v s pt + PAGE_SIZE)); simpl; (lia || done). }
  change (zero_page (with_fa s f') (p2v s pt)) with (mkVm (filled (vmem s) (p2v s pt) 0 PAGE_SIZE) f' (kernel_pml4_virt s)).
  set (s1 := mkVm _ _ _) in *. assert (Hnf1 : ¬ fa_free (fa s1) pt) by (cbn [fa s1]; rewrite Hfree; tauto).
  assert (Hrc1 : fa_refcount (fa s1) pt = 1) by (cbn [fa s1]; rewrite Hrefs by (done || lia); by rewrite Z.eqb_refl).
  assert (Hu : is_user cr2) by (apply user_addr; unfold USER_STACK_LOW in *; change USER_STACK_TOP with 140733193388032 in *;
    change USER_STACK_MAX with 8388608 in *; lia).
  assert (Hup : is_user (page_of cr2)) by (apply (is_user_path 3 cr2); [apply path_eq_sym, path_eq_page_of; lia|done]).
  assert (Hpt3 : tbl s1 r 3 (page_of cr2) = tbl s1 r 3 cr2) by (apply tbl_path_eq, path_eq_page_of; lia).
  pose proof (map_page_spec s1 roots r (page_of cr2) pt STACK_FLAGS (gr_ok _ _ _ G) Hr Hup Hhi ltac:(lia)
                ltac:(split; [done|reflexivity])) as M. cbv zeta in M.
  destruct (vmm_map_page s1 r (page_of cr2) pt STACK_FLAGS) as [[] s2].
  - destruct M as (s3 & t & G3 & Ht & -> & Hx). rewrite Pm in *. set (x := Z.lor _ _) in *.
    pose proof (path_eq_page_of 4 cr2 ltac:(lia)) as Hpe. pose proof (Hpe 3%nat ltac:(lia)) as Ei. cbn [idx] in Ei.
    rewrite Ei. assert (Ht' : tbl s3 r 3 cr2 = Some t).
    { rewrite <- (tbl_path_eq s3 r 3 (page_of cr2) cr2); [done|]. apply path_eq_page_of. lia. }
    split; [apply fault_frame_leaf; [eapply grows_trans; [exact Hok|exact G|apply G3]|done..]|]. intros _.
    split; [done|]. split; [lia|]. exists pt. split; [done|]. split_and!.
    + apply (leaf_pte_eq s3 roots); auto using path_eq_refl; apply G3.
    + cbn [wr_entry with_mem fa]. rewrite (gr_refs _ _ _ G3) by (done || lia). done.
    + intros i Hi. assert (Ep2 : p2v (wr_entry s3 t (PT_IDX cr2) x) pt = p2v s pt).
      { unfold p2v. cbn [wr_entry with_mem fa]. by rewrite (gr_hhdm _ _ _ G3), <- Hh. }
      rewrite Ep2. rewrite (leaf_data s3 roots r) by (done || exact (gr_ok _ _ _ G3) || exact (gr_page _ _ _ G3 _ Hnew)).
      rewrite (gr_data _ _ _ G3) by done. cbn [vmem s1]. unfold filled.
      destruct (Z.leb_spec (p2v s pt) (p2v s pt + i)), (Z.ltb_spec (p2v s pt + i) (p2v s pt + PAGE_SIZE)); simpl; (lia || done).
  - destruct M as [G2 _]. split; [|done]. pose proof (grows_trans _ _ _ _ Hok G G2) as G12.
    pose proof (gr_hhdm _ _ _ G12) as Hh2.
    destruct (fa_free_frame _ _ (ok_fa _ _ Hok) Hf) as (Hlo & _ & _ & _).
    destruct (fa_unref_spec (fa s2) pt (ok_fa _ _ (gr_ok _ _ _ G2)) Hpa Hlo) as (U1 & U2 & U3 & _).
    { rewrite (gr_refs _ _ _ G2) by (done || lia). lia. }
    constructor.
    + apply fa_swap; [apply G2|done|done|]. intros r1 d v t1 H1 Hd E1. rewrite U2, U3.
      intros [Hfr|[Ept _]]; [by apply (ok_tab _ _ (gr_ok _ _ _ G2) r1 d v t1)|].
      destruct (gr_page _ _ _ G2 _ Hnew) as (_ & _ & _ & Hnt). apply (Hnt r1 d v H1 Hd).
      rewrite E1. f_equal. lia.
    + intros r' w Hr' _. rewrite pte_fa by done. by apply (gr_pte _ _ _ G12).
    + apply (gr_data _ _ _ G12).
Qed.

(** An address whose entry is not copy-on-write. *)
Lemma handle_cow_none s roots r cr2 err :
  vm_ok s roots → r ∈ roots → has (pte s r cr2) VMM_COW = false → handle_cow s r cr2 err = (false, s).
Proof.
  intros Hok Hr Hc. unfold handle_cow. destruct (negb _ || negb _); [done|].
  pose proof (cow_lookup s roots r cr2 Hok Hr) as Hl. destruct (vmm_pte_lookup s r (page_of cr2)) as [a|]; [|done].
  destruct Hl as (t & _ & _ & ->). rewrite Hc. by rewrite orb_true_r.
Qed.

(** C29: every page fault is contained.  Whatever the address and error code, the
    handler keeps the page-table invariant, changes no entry but that of the
    faulting page of the current address space, and no byte of an existing data
    page.  It reports success only for a user-mode fault without a reserved-bit
    violation in a ring-3 process, and then either the page was copy-on-write
    and is now privately writable, or it lies in the 8 MiB stack window, was not
    present, and now maps a fresh zero-filled frame, writable and not
    executable.  A fault it does not resolve changes no entry at all. *)
Theorem page_fault_contained s roots cur cr2 err :
  vm_ok s roots →
  (∀ p, cur = Some p → fp_pml4_virt p ≠ 0 →
     fp_pml4_virt p ∈ roots ∧ HIGHER_HALF ≤ fp_pml4_virt p ∧
     (is_user cr2 ∨ has (pte s (fp_pml4_virt p) cr2) VMM_COW = false) ∧
     (has (pte s (fp_pml4_virt p) cr2) VMM_P = true →
        mapped_frame s roots (Z.land (pte s (fp_pml4_virt p) cr2) VMM_PHYS_MASK))) →
  let '(ok, s') := vmm_handle_page_fault s cur cr2 err in
  fault_frame roots s s' ok (default 0 (fp_pml4_virt <$> cur)) cr2 ∧
  (ok = true → ∃ p, cur = Some p ∧ fp_ring3 p = true ∧ has err PF_USER = true ∧ has err PF_RSVD = false ∧
     let r := fp_pml4_virt p in
     (has err PF_WRITE = true ∧ has (pte s r cr2) VMM_P = true ∧ has (pte s r cr2) VMM_COW = true ∧
        cow_resolved (pte s r cr2) (pte s' r cr2)) ∨
     (has err PF_PRESENT = false ∧ USER_STACK_LOW ≤ cr2 < USER_STACK_TOP ∧
        ∃ phys, fa_free (fa s) phys ∧ pte s' r cr2 = Z.lor phys (Z.lor STACK_FLAGS VMM_P) ∧
          ∀ i, 0 ≤ i < PAGE_SIZE → vmem s' (p2v s' phys + i) = 0)).
Proof.
  intros Hok Hcur. unfold vmm_handle_page_fault.
  assert (Hsame : ∀ r, fault_frame roots s s false r cr2) by (intros r; by apply fault_frame_grows, grows_refl).
  destruct (has err PF_USER); cbn [negb]; [|by split]. destruct cur as [p|]; [|by split]. cbn [fmap option_fmap option_map default].
  destruct (fp_ring3 p) eqn:Hr3; cbn [negb orb]; [|by split].
  destruct (Z.eqb_spec (fp_pml4_virt p) 0) as [|Hnz]; [by split|].
  destruct (has err PF_RSVD) eqn:Hrs; [by split|].
  destruct (Hcur p eq_refl Hnz) as (Hr & Hhi & Hu & Hmap).
  assert (C : let '(ok, s') := handle_cow s (fp_pml4_virt p) cr2 err in
    if ok then fault_frame roots s s' true (fp_pml4_virt p) cr2 ∧
      has err PF_PRESENT && has err PF_WRITE && has (pte s (fp_pml4_virt p) cr2) VMM_P &&
        has (pte s (fp_pml4_virt p) cr2) VMM_COW = true ∧
      cow_resolved (pte s (fp_pml4_virt p) cr2) (pte s' (fp_pml4_virt p) cr2)
    else s' = s).
  { destruct Hu as [Hu|Hc]; [|by rewrite (handle_cow_none s roots)].
    pose proof (handle_cow_lemma s roots (fp_pml4_virt p) cr2 err Hok Hr Hu Hmap) as C. cbv zeta in C.
    destruct (handle_cow s (fp_pml4_virt p) cr2 err) as [[] s1]; [|apply C].
    destruct C as (C1 & C2 & C3 & _). done. }
  destruct (handle_cow s (fp_pml4_virt p) cr2 err) as [[] s1].
  - destruct C as (C1 & C2 & C3). split; [done|]. intros _. exists p. split_and!; try done. left.
    apply andb_prop in C2 as [C2 ?]. apply andb_prop in C2 as [C2 ?]. apply andb_prop in C2 as [C2 ?]. done.
  - subst s1. pose proof (grow_stack_lemma s roots (fp_pml4_virt p) cr2 err Hok Hr Hhi) as Gs.
    destruct (grow_user_stack s (fp_pml4_virt p) cr2 err) as [[] s2]; destruct Gs as [G1 G2]; (split; [done|]).
    + intros _. exists p. split_and!; try done. right. destruct (G2 eq_refl) as (? & ? & phys & ? & ? & ? & ?).
      split_and!; try done; try lia. exists phys. done.
    + done.
Qed.
End proofs.

(** ** A page shared by two owners *)

Module FaultDemo.
Import VmmDemo.

(** The frame at [PAGE_PA], allocated and referenced twice, is mapped at
    [PAGE_VA] copy-on-write. *)
Definition shared_pmm : pmm := pmm_ref_frame (pmm_alloc_frame demo_pmm).2 PAGE_PA.
Definition COW_FLAGS : Z := Z.lor VMM_U VMM_COW.
Definition before : vm pmm := machine shared_pmm.
Definition shared : vm pmm := (vmm_map_page before root PAGE_VA PAGE_PA COW_FLAGS).2.

Lemma alloc_demo : (pmm_alloc_frame demo_pmm).1 = PAGE_PA.
Proof. vm_compute. reflexivity. Qed.
Lemma shared_refs : pmm_refcount shared_pmm PAGE_PA = 2.
Proof. vm_compute. reflexivity. Qed.
Lemma shared_hhdm : hhdm shared_pmm = HIGHER_HALF.
Proof. vm_compute. reflexivity. Qed.
Lemma shared_used : bit_get (bitmap shared_pmm) 257 = true.
Proof. vm_compute. reflexivity. Qed.
Lemma shared_maps : (vmm_map_page before root PAGE_VA PAGE_PA COW_FLAGS).1 = true.
Proof. vm_compute. reflexivity. Qed.
#[global] Strategy 100 [shared_pmm].

Lemma shared_pmm_ok : pmm_ok shared_pmm.
Proof.
  destruct demo_pmm_wf as [Hw Hr].
  assert (H : pmm_wf shared_pmm ∧ refcnt shared_pmm ≠ None).
  { destruct (pmm_do_wf demo_pmm OpAlloc I I (conj Hw Hr)) as [A B]. cbn [pmm_do] in A, B. unfold shared_pmm.
    split; [apply ref_frame_wf; [exact A|unfold PAGE_PA; lia]|by apply refcnt_ref_Some]. }
  destruct H as [H1 H2]. unfold pmm_ok. rewrite shared_hhdm. split; [exact H1|]. split; [exact H2|].
  unfold HIGHER_HALF, page_aligned, PAGE_SIZE. split; [lia|reflexivity].
Qed.

Lemma before_ok : vm_ok before [root].
Proof. apply machine_ok; [apply shared_pmm_ok|apply shared_hhdm]. Qed.

Lemma page_va_phys (f : pmm) : hhdm f = HIGHER_HALF → p2v (machine f) PAGE_PA = HIGHER_HALF + PAGE_PA.
Proof. intros H. unfold p2v. cbn [machine fa fa_hhdm pmm_frames]. rewrite H. reflexivity. Qed.

Lemma not_free_pa : ¬ pmm_free shared_pmm PAGE_PA.
Proof.
  intros [_ [_ Hb]]. change (PAGE_PA / PAGE_SIZE) with 257 in Hb. rewrite shared_used in Hb. discriminate.
Qed.

Lemma before_data : data_page before [root] (HIGHER_HALF + PAGE_PA).
Proof.
  unfold data_page. change (fa before) with shared_pmm. cbn [fa_hhdm pmm_frames fa_free pmm_frame_laws]. rewrite shared_hhdm.
  split; [unfold PAGE_PA; lia|]. split; [reflexivity|]. split.
  - replace (HIGHER_HALF + PAGE_PA - HIGHER_HALF) with PAGE_PA by lia. exact not_free_pa.
  - intros r d v ->%list_elem_of_singleton _ E. apply zero_tbl in E as [_ E]. discriminate E.
Qed.

Lemma pa_nonneg : 0 ≤ PAGE_PA.
Proof. unfold PAGE_PA. lia. Qed.
Lemma cow_flags_range : 0 ≤ COW_FLAGS < 2 ^ 64.
Proof. split; [done|reflexivity]. Qed.

(** The state in which the fault happens. *)
Lemma shared_ready :
  vm_ok shared [root] ∧ pte shared root PAGE_VA = Z.lor PAGE_PA (Z.lor COW_FLAGS VMM_P) ∧
  mapped_frame shared [root] PAGE_PA ∧ fa_hhdm (fa shared) = HIGHER_HALF.
Proof.
  pose proof (map_data_page before [root] root PAGE_VA PAGE_PA COW_FLAGS (HIGHER_HALF + PAGE_PA) before_ok root_in
                root_high page_user pa_nonneg cow_flags_range before_data) as Hd.
  pose proof (map_page_spec before [root] root PAGE_VA PAGE_PA COW_FLAGS before_ok root_in page_user root_high
                pa_nonneg cow_flags_range) as H. cbv zeta in H.
  unfold shared. pose proof shared_maps as Hs.
  destruct (vmm_map_page before root PAGE_VA PAGE_PA COW_FLAGS) as [ok s']. cbn [fst snd] in *. subst ok.
  destruct H as (s1 & t & G & Ht & -> & Hx). pose proof (gr_hhdm _ _ _ G) as Hh.
  change (fa_hhdm (fa before)) with (hhdm shared_pmm) in Hh. rewrite shared_hhdm in Hh.
  split; [by apply (leaf_ok s1 [root] root PAGE_VA); [apply G|apply root_in|..]|]. split.
  { rewrite (leaf_pte_eq s1 [root]); [reflexivity|apply G|apply root_in|done..]. }
  split; [|exact Hh]. split; [|split; [unfold PAGE_PA, LOW_FRAMES, PAGE_SIZE; lia|split]].
  - unfold p2v. cbn [wr_entry with_mem fa]. rewrite Hh. exact Hd.
  - cbn [wr_entry with_mem fa]. rewrite (gr_refs _ _ _ G); [|reflexivity|unfold PAGE_PA; lia|exact not_free_pa].
    change (0 < pmm_refcount shared_pmm PAGE_PA). rewrite shared_refs. lia.
  - intros Hf. apply not_free_pa. apply (gr_free _ _ _ G). exact Hf.
Qed.

Definition WRITE_FAULT : Z := Z.lor (Z.lor PF_PRESENT PF_WRITE) PF_USER.
Definition demo_proc : fault_proc := mkFaultProc true root.

Lemma shared_mapped :
  has (pte shared root PAGE_VA) VMM_P = true →
  mapped_frame shared [root] (Z.land (pte shared root PAGE_VA) VMM_PHYS_MASK).
Proof. intros _. destruct shared_ready as (_ & -> & H & _). exact H. Qed.

(** The write to the shared page: there is a free frame, so it is resolved. *)
Lemma cow_succeeds : (handle_cow shared root PAGE_VA WRITE_FAULT).1 = true.
Proof. vm_compute. reflexivity. Qed.

#[global] Strategy 100 [shared].

Lemma handle_cow_spec_witness :
  let '(ok, s') := handle_cow shared root PAGE_VA WRITE_FAULT in
  ok = true ∧ vm_ok s' [root] ∧ has (pte s' root PAGE_VA) VMM_RW = true ∧
  fa_refcount (fa s') (Z.land (pte s' root PAGE_VA) VMM_PHYS_MASK) = 1.
Proof.
  pose proof (handle_cow_spec shared [root] root PAGE_VA WRITE_FAULT (proj1 shared_ready) root_in page_user shared_mapped) as H.
  pose proof cow_succeeds as Hs. cbv zeta in H.
  destruct (handle_cow shared root PAGE_VA WRITE_FAULT) as [ok s']. cbn [fst] in Hs. subst ok.
  destruct H as (H1 & _ & H2 & H3 & _). split; [reflexivity|]. split; [apply H1|]. split; [apply H2|exact H3].
Defined.

Lemma page_fault_contained_witness :
  let '(ok, s') := vmm_handle_page_fault shared (Some demo_proc) PAGE_VA WRITE_FAULT in
  fault_frame [root] shared s' ok root PAGE_VA.
Proof.
  pose proof (page_fault_contained shared [root] (Some demo_proc) PAGE_VA WRITE_FAULT (proj1 shared_ready)) as H.
  destruct (vmm_handle_page_fault shared (Some demo_proc) PAGE_VA WRITE_FAULT) as [ok s'].
  apply H. intros p [= <-] _. split; [exact root_in|]. split; [exact root_high|].
  split; [left; exact page_user|exact shared_mapped].
Defined.
End FaultDemo.
