(* ===== verification/Futex.v ===== *)
(** * Futexes

    [kernel/ipc/futex.c]: the table of waiters, and waiting and waking through
    the scheduler's wait channels.  [sys_futex_impl] is split where the caller
    sleeps: [sys_futex] ends in the scheduler, and [futex_leave] is what the
    caller does when it runs again.  The lock makes each table access one step. *)

From S2P Require Import Prelude Mem Pmm Frames ProcTable Sched Vmm.

Definition FUTEX_MAX_WAITERS : Z := 256.
Definition FUTEX_WAIT : Z := 0.
Definition FUTEX_WAKE : Z := 1.

Record waiter := mkWaiter { w_proc : Z; w_uaddr : Z }.
#[export] Instance waiter_inhabited : Inhabited waiter := populate (mkWaiter NULLP 0).

Definition is_free (w : waiter) : bool := w_proc w =? NULLP.
Definition waits_at (uaddr : Z) (w : waiter) : bool := negb (w_proc w =? NULLP) && (w_uaddr w =? uaddr).
Definition freed (w : waiter) : waiter := mkWaiter NULLP (w_uaddr w).

(** The kernel address of the word; [None] is NULL. *)
Definition futex_resolve {F} `{FrameAlloc F} (v : vm F) (pml4_virt uaddr : Z) : option Z :=
  if pml4_virt =? 0 then None
  else if negb (Z.land uaddr 3 =? 0) then None
  else
    let pa := vmm_virt_to_phys v pml4_virt uaddr in
    if pa =? 0 then None else Some (p2v v pa).

(** The wake loop from slot [i] on; [n] slots are left. *)
Fixpoint futex_wake (n : nat) (i : Z) (t : list waiter) (s : sched) (c uaddr val woken : Z) : Z * list waiter * sched :=
  match n with
  | O => (woken, t, s)
  | S n =>
      if woken <? s32 val then
        if waits_at uaddr (t.[i])
        then futex_wake n (i + 1) (t.[i <- freed (t.[i])]) (sched_wake_chan s c uaddr) c uaddr val (woken + 1)
        else futex_wake n (i + 1) t s c uaddr val woken
      else (woken, t, s)
  end.

Inductive futex_out := FRet (code : Z) | FSleep (out : yield_out).

Definition sys_futex {F} `{FrameAlloc F} (t : list waiter) (s : sched) (v : vm F) (c uaddr op val timeout_ns rflags : Z) :
    futex_out * list waiter * sched :=
  let cur := current_proc (cpu s c) in
  if cur =? NULLP then (FRet (-1), t, s)
  else
    match futex_resolve v (pml4_virt (proc s cur)) uaddr with
    | None => (FRet (-1), t, s)
    | Some kaddr =>
        if op =? FUTEX_WAIT then
          if negb (load_le (vmem v) kaddr 4 =? val) then (FRet (-11), t, s)
          else
            match find_up (λ i, is_free (t.[i])) 0 (Z.to_nat FUTEX_MAX_WAITERS) with
            | None => (FRet (-12), t, s)
            | Some slot =>
                let t := t.[slot <- mkWaiter cur uaddr] in
                let timeout_ms := if timeout_ns =? 0 then 0 else timeout_ns / 1000000 in
                let '(out, s) := sched_block_on s c uaddr timeout_ms rflags in
                (FSleep out, t, s)
            end
        else if op =? FUTEX_WAKE then
          let '(woken, t, s) := futex_wake (Z.to_nat FUTEX_MAX_WAITERS) 0 t s c uaddr val 0 in
          (FRet woken, t, s)
        else (FRet (-38), t, s)
    end.

(** After waking: the caller's first entry is freed. *)
Definition futex_leave (t : list waiter) (cur : Z) : list waiter :=
  match find_up (λ i, w_proc (t.[i]) =? cur) 0 (Z.to_nat FUTEX_MAX_WAITERS) with
  | Some i => t.[i <- freed (t.[i])]
  | None => t
  end.

(** ** Waking *)

(** The entries the wake loop frees: those for the word, in slot order, at most
    [k] of them. *)
Definition frees (t : list waiter) (uaddr k i : Z) : bool :=
  waits_at uaddr (t.[i]) && (count_up (λ j, waits_at uaddr (t.[j])) 0 (Z.to_nat i) <? k).

Lemma wake_spec n i t s c uaddr val woken :
  0 ≤ i → i + Z.of_nat n = zlen t → 0 ≤ woken →
  let m := count_up (λ j, waits_at uaddr (t.[j])) i n in
  let w := Z.max woken (Z.min (s32 val) (woken + m)) in
  let '(woken', t', s') := futex_wake n i t s c uaddr val woken in
  woken' = w ∧ s' = Nat.iter (Z.to_nat (w - woken)) (λ s, sched_wake_chan s c uaddr) s ∧ zlen t' = zlen t ∧
  ∀ j, 0 ≤ j < zlen t →
    t'.[j] = if (i <=? j) && waits_at uaddr (t.[j]) && (woken + count_up (λ j, waits_at uaddr (t.[j])) i (Z.to_nat (j - i)) <? w)
             then freed (t.[j]) else t.[j].
Proof.
  revert i t s woken. induction n as [|n IH]; intros i t s woken Hi Hn Hw m w.
  { assert (Ew : w = woken) by (unfold w, m; change (count_up _ i 0) with 0; lia). cbn [futex_wake]. rewrite Ew, Z.sub_diag.
    split_and!; [done|done|done|]. intros j Hj. by rewrite (proj2 (Z.leb_gt i j)) by lia. }
  assert (Em : m = (if waits_at uaddr (t.[i]) then 1 else 0) + count_up (λ j, waits_at uaddr (t.[j])) (i + 1) n) by (unfold m; apply count_up_S).
  pose proof (count_up_bounds (λ j, waits_at uaddr (t.[j])) (i + 1) n) as Hcb. cbn [futex_wake].
  destruct (Z.ltb_spec woken (s32 val)) as [Hlt|Hge].
  2:{ assert (Ew : w = woken) by (unfold w; lia). rewrite Ew, Z.sub_diag. split_and!; [done|done|done|]. intros j Hj.
      pose proof (count_up_bounds (λ j, waits_at uaddr (t.[j])) i (Z.to_nat (j - i))).
      by rewrite (proj2 (Z.ltb_ge _ woken)), andb_false_r by lia. }
  destruct (waits_at uaddr (t.[i])) eqn:Hi0.
  - specialize (IH (i + 1) (t.[i <- freed (t.[i])]) (sched_wake_chan s c uaddr) (woken + 1) ltac:(lia) ltac:(rewrite zlen_aset; lia) ltac:(lia)).
    assert (Hext : ∀ k n', i + 1 ≤ k → k + Z.of_nat n' ≤ zlen t →
      count_up (λ j, waits_at uaddr (t.[i <- freed (t.[i])].[j])) k n' = count_up (λ j, waits_at uaddr (t.[j])) k n').
    { intros k n' Hk Hkn. apply count_up_ext. intros j Hj. by rewrite aget_aset_ne by lia. }
    cbv zeta in IH. rewrite Hext in IH by lia. replace (Z.max (woken + 1) _) with w in IH by (unfold w; rewrite Em; lia).
    destruct (futex_wake n (i + 1) _ _ c uaddr val (woken + 1)) as [[woken' t'] s']. destruct IH as (-> & -> & Hl & Hj). rewrite zlen_aset in *.
    split_and!; [done| |done|].
    + replace (Z.to_nat (w - woken)) with (S (Z.to_nat (w - (woken + 1)))) by (unfold w; rewrite Em; lia). by rewrite Nat.iter_succ_r.
    + intros j Hjr. rewrite Hj by done. destruct (decide (j = i)) as [->|Hne].
      * rewrite aget_aset_eq by lia. rewrite (proj2 (Z.leb_gt (i + 1) i)) by lia. cbn [andb].
        rewrite Z.leb_refl, Hi0, Z.sub_diag. cbn [andb]. change (count_up _ i (Z.to_nat 0)) with 0. rewrite (proj2 (Z.ltb_lt _ w)) by (unfold w; rewrite Em; lia). done.
      * rewrite aget_aset_ne by lia. destruct (Z.leb_spec (i + 1) j), (Z.leb_spec i j); try lia; [|done]. cbn [andb].
        rewrite Hext by lia. replace (Z.to_nat (j - i)) with (S (Z.to_nat (j - (i + 1)))) by lia. rewrite count_up_S, Hi0.
        by rewrite Z.add_assoc.
  - specialize (IH (i + 1) t s woken ltac:(lia) ltac:(lia) Hw). cbv zeta in IH.
    replace (Z.max woken _) with w in IH by (unfold w; rewrite Em; lia).
    destruct (futex_wake n (i + 1) t s c uaddr val woken) as [[woken' t'] s']. destruct IH as (-> & -> & Hl & Hj).
    split_and!; [done..|]. intros j Hjr. rewrite Hj by done. destruct (decide (j = i)) as [->|Hne].
    + rewrite Hi0. by rewrite !andb_false_r.
    + destruct (Z.leb_spec (i + 1) j), (Z.leb_spec i j); try lia; [|done]. cbn [andb].
      replace (Z.to_nat (j - i)) with (S (Z.to_nat (j - (i + 1)))) by lia. by rewrite count_up_S, Hi0.
Qed.

Lemma woken_not_waiting ch x : waiting_on ch (woken_waiter x) = false.
Proof. done. Qed.

Lemma wakes_reach w0 w c ch k :
  booted w0 → rtc ostep w0 w → valid_cpu (w_sched w) c →
  let s' := Nat.iter k (λ s, sched_wake_chan s c ch) (w_sched w) in
  valid_cpu s' c ∧ rtc ostep w (mkWorld s' (w_pend w) (w_exits w) (w_fresh w)) ∧
  ((0 < k)%nat → ∀ p, valid_proc p → ¬ (p ∈ w_pend w) →
     proc s' p = if waiting_on ch (proc (w_sched w) p) then woken_waiter (proc (w_sched w) p) else proc (w_sched w) p).
Proof.
  intros Hb Hr Hc. induction k as [|k IH]; cbn [Nat.iter nat_rect].
  { split; [done|]. split; [by destruct w|lia]. }
  destruct IH as (Hc1 & Hr1 & Hp1). set (s1 := Nat.iter k _ _) in *. change (nat_rect _ _ _ k) with s1.
  assert (Hr2 : rtc ostep w (mkWorld (sched_wake_chan s1 c ch) (w_pend w) (w_exits w) (w_fresh w))).
  { eapply rtc_r; [exact Hr1|]. exists EvOther. split; [by apply StWakeChan|done]. }
  assert (Hc2 : valid_cpu (sched_wake_chan s1 c ch) c).
  { unfold valid_cpu in *. unfold sched_wake_chan. assert (Hz : zlen (cpus (walk_queues (wake_waiter ch) s1)) = zlen (cpus s1)).
    { destruct (reachable_inv w0 (mkWorld s1 (w_pend w) (w_exits w) (w_fresh w)) Hb) as [Q I]; [by etrans|].
      destruct (walk_map (waiting_on ch) woken_waiter ltac:(done) s1 Q (i_rep _ _ _ _ _ I)) as (_ & E & _). exact (f_equal zlen E). }
    destruct (any_queued _ _); [|by rewrite Hz]. unfold upd_cpu. cbn. by rewrite zlen_aset, Hz. }
  split; [done|]. split; [done|]. intros _ p Hp Hk.
  destruct (wake_chan_exact w0 (mkWorld s1 (w_pend w) (w_exits w) (w_fresh w)) c ch p Hb) as [E _]; [by etrans|done..|]. cbn [w_sched] in E. rewrite E.
  destruct k as [|k]; [done|]. rewrite Hp1 by (done || lia). destruct (waiting_on ch (proc (w_sched w) p)) eqn:Hw; [done|by rewrite Hw].
Qed.

(** Waking.  In a state reached by orderly steps, FUTEX_WAKE on a readable word frees the
    entries of the first [val] waiters of the word, in slot order, and returns
    their number; if there is one, every process asleep on the word becomes
    READY (all of them, not only [val]), and no other process changes. *)
Theorem futex_wake_spec {F} `{FrameAlloc F} w0 w t (v : vm F) c uaddr val timeout rflags kaddr :
  booted w0 → rtc ostep w0 w →
  let s := w_sched w in
  zlen t = FUTEX_MAX_WAITERS → valid_cpu s c → current_proc (cpu s c) ≠ NULLP →
  futex_resolve v (pml4_virt (proc s (current_proc (cpu s c)))) uaddr = Some kaddr →
  let n := Z.max 0 (Z.min (s32 val) (count_up (λ j, waits_at uaddr (t.[j])) 0 (Z.to_nat FUTEX_MAX_WAITERS))) in
  ∃ t' s', sys_futex t s v c uaddr FUTEX_WAKE val timeout rflags = (FRet n, t', s') ∧
    (∀ i, 0 ≤ i < FUTEX_MAX_WAITERS → t'.[i] = if frees t uaddr n i then freed (t.[i]) else t.[i]) ∧
    rtc ostep w (mkWorld s' (w_pend w) (w_exits w) (w_fresh w)) ∧
    (0 < n → ∀ p, valid_proc p → ¬ (p ∈ w_pend w) →
       proc s' p = if waiting_on uaddr (proc s p) then woken_waiter (proc s p) else proc s p).
Proof.
  intros Hb Hr s Hl Hc Hcur Hres n. unfold sys_futex. rewrite (proj2 (Z.eqb_neq _ _) Hcur), Hres. change (FUTEX_WAKE =? FUTEX_WAIT) with false.
  change (FUTEX_WAKE =? FUTEX_WAKE) with true. cbv iota.
  pose proof (wake_spec (Z.to_nat FUTEX_MAX_WAITERS) 0 t s c uaddr val 0 ltac:(lia) ltac:(by rewrite Hl) ltac:(lia)) as W. cbv zeta in W.
  destruct (futex_wake _ 0 t s c uaddr val 0) as [[woken t'] s']. rewrite Z.add_0_l in W. fold n in W. destruct W as (-> & -> & _ & Ht).
  rewrite Z.sub_0_r. destruct (wakes_reach w0 w c uaddr (Z.to_nat n) Hb Hr Hc) as (_ & R1 & R2). eexists _, _.
  split; [done|]. split; [|split; [exact R1|]].
  - intros i Hi. rewrite Ht by (rewrite Hl; done). unfold frees. rewrite (proj2 (Z.leb_le 0 i)), Z.sub_0_r, Z.add_0_l by lia. done.
  - intros Hn p Hp Hk. apply R2; [lia|done|done].
Qed.

(** ** The table is never full *)

(** The processes between entering and leaving a wait, and the table. *)
Inductive fstep : list waiter * list Z → list waiter * list Z → Prop :=
  | FEnter t W p u i : valid_proc p → ¬ (p ∈ W) → find_up (λ i, is_free (t.[i])) 0 (Z.to_nat FUTEX_MAX_WAITERS) = Some i →
      fstep (t, W) (t.[i <- mkWaiter p u], p :: W)
  | FWake t W s c u val : fstep (t, W) ((futex_wake (Z.to_nat FUTEX_MAX_WAITERS) 0 t s c u val 0).1.2, W)
  | FLeave t W1 p W2 : fstep (t, W1 ++ p :: W2) (futex_leave t p, W1 ++ W2).

Record finv (t : list waiter) (W : list Z) : Prop := {
  fi_len : zlen t = FUTEX_MAX_WAITERS;
  fi_nodup : NoDup W;
  fi_valid : Forall valid_proc W;
  fi_in : ∀ i, 0 ≤ i < FUTEX_MAX_WAITERS → is_free (t.[i]) = false → w_proc (t.[i]) ∈ W;
  fi_one : ∀ i j, 0 ≤ i < FUTEX_MAX_WAITERS → 0 ≤ j < FUTEX_MAX_WAITERS → is_free (t.[i]) = false →
    w_proc (t.[i]) = w_proc (t.[j]) → i = j;
}.

(** Freeing entries keeps the invariant. *)
Lemma finv_less t t' W :
  finv t W → zlen t' = zlen t →
  (∀ i, 0 ≤ i < FUTEX_MAX_WAITERS → t'.[i] = t.[i] ∨ t'.[i] = freed (t.[i])) → finv t' W.
Proof.
  intros [H1 H2 H3 H4 H5] Hl Ht. constructor; [by rewrite Hl|done|done| |].
  - intros i Hi Hf. destruct (Ht i Hi) as [E|E]; rewrite E in *; [by apply H4|done].
  - intros i j Hi Hj Hf E. destruct (Ht i Hi) as [Ei|Ei]; rewrite Ei in *; [|done].
    destruct (Ht j Hj) as [Ej|Ej]; rewrite Ej in *; [by apply H5|]. cbn in E. unfold is_free in Hf. rewrite E in Hf. done.
Qed.

Lemma fstep_inv x y : fstep x y → finv x.1 x.2 → finv y.1 y.2.
Proof.
  destruct 1 as [t W p u i Hp HnW Hfind|t W s c u val|t W1 p W2]; cbn [fst snd]; intros Hi; pose proof Hi as [H1 H2 H3 H4 H5].
  - apply find_up_Some in Hfind as (Hir & Hfree & _).
    assert (Hi0 : 0 ≤ i < FUTEX_MAX_WAITERS) by (unfold FUTEX_MAX_WAITERS in *; lia).
    assert (Hget : ∀ j, 0 ≤ j < FUTEX_MAX_WAITERS → t.[i <- mkWaiter p u].[j] = if i =? j then mkWaiter p u else t.[j])
      by (intros j Hj; apply aget_aset; lia).
    assert (Hpn : p ≠ NULLP) by (unfold valid_proc, NULLP in *; lia).
    constructor; [by rewrite zlen_aset|by constructor|by constructor| |].
    + intros j Hj. rewrite Hget by done. destruct (Z.eqb_spec i j); [intros _; cbn; left|]. intros Hf. right. by apply H4.
    + intros j k Hj Hk. rewrite !Hget by done. destruct (Z.eqb_spec i j) as [<-|], (Z.eqb_spec i k) as [<-|]; cbn [w_proc].
      * done.
      * intros _ E. exfalso. apply HnW. rewrite E. apply H4; [done|]. unfold is_free. rewrite <- E. by apply Z.eqb_neq.
      * intros Hf E. exfalso. apply HnW. rewrite <- E. by apply H4.
      * by apply H5.
  - pose proof (wake_spec (Z.to_nat FUTEX_MAX_WAITERS) 0 t s c u val 0 ltac:(lia) ltac:(by rewrite H1) ltac:(lia)) as W0. cbv zeta in W0.
    destruct (futex_wake _ 0 t s c u val 0) as [[woken t'] s']. destruct W0 as (_ & _ & Hl & Ht). cbn [fst snd].
    apply (finv_less t); [done|done|]. intros i Hi'. rewrite Ht by lia. case_if; auto.
  - assert (Hleave : finv (futex_leave t p) (W1 ++ p :: W2)).
    { unfold futex_leave. destruct (find_up _ _ _) as [i|] eqn:E; [|done]. apply find_up_Some in E as (Hir & _ & _).
      apply (finv_less t); [done|by rewrite zlen_aset|]. intros j Hj. rewrite aget_aset by (unfold FUTEX_MAX_WAITERS in *; lia).
      destruct (Z.eqb_spec i j) as [->|]; auto. }
    assert (Hgone : ∀ i, 0 ≤ i < FUTEX_MAX_WAITERS → is_free ((futex_leave t p).[i]) = false → w_proc ((futex_leave t p).[i]) ≠ p).
    { intros i Hi' Hf E. unfold futex_leave in *. destruct (find_up _ _ _) as [k|] eqn:Ef.
      - apply find_up_Some in Ef as (Hk & Hkp & _). apply Z.eqb_eq in Hkp. rewrite aget_aset in * by (unfold FUTEX_MAX_WAITERS in *; lia).
        destruct (Z.eqb_spec k i) as [->|Hne]; [done|]. apply Hne. symmetry. apply H5; [done|unfold FUTEX_MAX_WAITERS in *; lia|done|congruence].
      - pose proof (proj1 (find_up_None _ _ _) Ef i ltac:(unfold FUTEX_MAX_WAITERS in *; lia)) as Hn. cbv beta in Hn. apply Z.eqb_neq in Hn. done. }
    destruct Hleave as [G1 G2 G3 G4 G5]. constructor; [done| | | |done].
    + apply NoDup_app in G2 as (N1 & N2 & N3). apply NoDup_cons in N3 as [N3 N4]. apply NoDup_app. split_and!; [done| |done].
      intros x Hx Hx2. apply (N2 x Hx). by right.
    + apply Forall_app in G3 as [V1 V2]. apply Forall_cons in V2 as [_ V2]. by apply Forall_app.
    + intros i Hi' Hf. specialize (G4 i Hi' Hf). specialize (Hgone i Hi' Hf).
      apply elem_of_app in G4 as [?|[?|?]%elem_of_cons]; [apply elem_of_app; by left|done|apply elem_of_app; by right].
Qed.

Definition empty_table : list waiter := replicate (Z.to_nat FUTEX_MAX_WAITERS) (mkWaiter NULLP 0).

Lemma empty_inv : finv empty_table [].
Proof.
  assert (Hf : ∀ i, 0 ≤ i < FUTEX_MAX_WAITERS → is_free (empty_table.[i]) = true).
  { intros i Hi. unfold aget, empty_table. rewrite lookup_total_replicate_2; [done|unfold FUTEX_MAX_WAITERS in *; lia]. }
  constructor; [done|constructor|constructor| |]; intros i; [intros Hi|intros j Hi _]; rewrite Hf by done; done.
Qed.

(** A waiting place for every process that may ask for one. *)
Lemma free_slot t W p :
  finv t W → valid_proc p → ¬ (p ∈ W) → is_Some (find_up (λ i, is_free (t.[i])) 0 (Z.to_nat FUTEX_MAX_WAITERS)).
Proof.
  intros [H1 H2 H3 H4 H5] Hp HnW. destruct (find_up _ _ _) as [i|] eqn:E; [done|]. exfalso.
  pose proof (proj1 (find_up_None _ _ _) E) as Hall. cbv beta in Hall.
  assert (Hused : ∀ i, 0 ≤ i < FUTEX_MAX_WAITERS → is_free (t.[i]) = false) by (intros i Hi; apply Hall; unfold FUTEX_MAX_WAITERS in *; lia).
  assert (Hlen : length t = 256%nat) by (unfold zlen, FUTEX_MAX_WAITERS in H1; lia).
  assert (Hnd : NoDup (w_proc <$> t)).
  { apply NoDup_alt. intros i j x Hi Hj. apply list_lookup_fmap_Some in Hi as (a & -> & Ha), Hj as (b & Eb & Hb).
    pose proof (lookup_lt_Some _ _ _ Ha). pose proof (lookup_lt_Some _ _ _ Hb).
    apply Nat2Z.inj. apply H5; [unfold FUTEX_MAX_WAITERS; lia..|apply Hused; unfold FUTEX_MAX_WAITERS; lia|].
    unfold aget. rewrite !Nat2Z.id. by rewrite (list_lookup_total_correct _ _ _ Ha), (list_lookup_total_correct _ _ _ Hb). }
  assert (Hsub : (w_proc <$> t) ⊆+ W).
  { apply NoDup_submseteq; [done|]. intros x Hx. apply list_elem_of_fmap in Hx as (a & -> & Ha). apply list_elem_of_lookup in Ha as [i Ha].
    pose proof (lookup_lt_Some _ _ _ Ha). pose proof (H4 (Z.of_nat i) ltac:(unfold FUTEX_MAX_WAITERS; lia)) as Hin.
    unfold aget in Hin. rewrite Nat2Z.id, (list_lookup_total_correct _ _ _ Ha) in Hin. apply Hin.
    specialize (Hused (Z.of_nat i) ltac:(unfold FUTEX_MAX_WAITERS; lia)). unfold aget in Hused.
    by rewrite Nat2Z.id, (list_lookup_total_correct _ _ _ Ha) in Hused. }
  assert (Hsub2 : (p :: W) ⊆+ seqZ 0 256).
  { apply NoDup_submseteq; [by constructor|]. intros x Hx. apply elem_of_seqZ. rewrite Forall_forall in H3. unfold valid_proc, SCHED_MAX_PROCS in *.
    apply elem_of_cons in Hx as [->|Hx]; [lia|]. specialize (H3 x Hx). lia. }
  apply submseteq_length in Hsub, Hsub2. rewrite length_fmap in Hsub. rewrite length_seqZ in Hsub2. cbn in Hsub2. lia.
Qed.

(** The waiter table is large enough.  As long as every process that enters a
    wait leaves it (none is killed in between), a wait by a process that is not
    already waiting never fails for want of a table entry: with the word holding
    the expected value the caller goes to sleep, recorded in the table. *)
Theorem futex_wait_sleeps {F} `{FrameAlloc F} t W s (v : vm F) c uaddr val timeout rflags kaddr :
  rtc fstep (empty_table, []) (t, W) →
  let p := current_proc (cpu s c) in
  valid_proc p → ¬ (p ∈ W) → futex_resolve v (pml4_virt (proc s p)) uaddr = Some kaddr → load_le (vmem v) kaddr 4 = val →
  ∃ out t' s' i, sys_futex t s v c uaddr FUTEX_WAIT val timeout rflags = (FSleep out, t', s') ∧
    (out, s') = sched_block_on s c uaddr (if timeout =? 0 then 0 else timeout / 1000000) rflags ∧
    is_free (t.[i]) = true ∧ t' = t.[i <- mkWaiter p uaddr] ∧ fstep (t, W) (t', p :: W).
Proof.
  intros Hst p Hp HnW Hres Hval.
  assert (Hinv : finv t W).
  { assert (H0 : ∀ x y, rtc fstep x y → finv x.1 x.2 → finv y.1 y.2) by (intros x y; induction 1; eauto using fstep_inv).
    apply (H0 _ _ Hst). exact empty_inv. }
  destruct (free_slot t W p Hinv Hp HnW) as [i Hi]. unfold sys_futex. fold p.
  rewrite (proj2 (Z.eqb_neq p NULLP)) by (unfold valid_proc, NULLP in *; lia). rewrite Hres. change (FUTEX_WAIT =? FUTEX_WAIT) with true. cbv iota.
  rewrite Hval, Z.eqb_refl. cbn [negb]. rewrite Hi. destruct (sched_block_on s c uaddr _ rflags) as [out s'] eqn:E.
  exists out, (t.[i <- mkWaiter p uaddr]), s', i. split; [done|]. split; [done|].
  pose proof (find_up_Some _ _ _ _ Hi) as (_ & Hf & _). split; [done|]. split; [done|]. by apply FEnter.
Qed.

(** ** A waiter and a waker on two CPUs *)

Module FutexDemo.
Import Sched.Demo.

(** One page at the address [0x77000], whose words are 0: an address space with
    a 1 GiB page. *)
Definition WORD : Z := 0x77000.
Definition vm0 : vm pmm :=
  mkVm (λ a, if a =? 0x8000 then 0x01 else if a =? 0x8001 then 0x10 else if a =? 0x1000 then 0x81 else 0)
       (mkPmm [] 0 0 0 None 0) 0.
Lemma word_resolves : futex_resolve vm0 0x8000 WORD = Some WORD.
Proof. vm_compute. reflexivity. Qed.

Lemma run_proc : current_proc (cpu s_run 1) = 2 ∧ pml4_virt (proc s_run 2) = 0x8000 ∧ current_proc (cpu s_run 0) = 0.
Proof. split_and!; vm_compute; reflexivity. Qed.

Lemma futex_wait_sleeps_witness :
  ∃ out t' s', sys_futex empty_table s_run vm0 1 WORD FUTEX_WAIT 0 0 0x200 = (FSleep out, t', s').
Proof.
  destruct run_proc as (E1 & E2 & _).
  destruct (futex_wait_sleeps empty_table [] s_run vm0 1 WORD 0 0 0x200 WORD) as (out & t' & s' & i & H & _).
  - apply rtc_refl.
  - rewrite E1. unfold valid_proc, SCHED_MAX_PROCS. lia.
  - rewrite E1. apply not_elem_of_nil.
  - rewrite E1, E2. exact word_resolves.
  - reflexivity.
  - exists out, t', s'. exact H.
Defined.

Definition table1 : list waiter := empty_table.[0 <- mkWaiter 2 WORD].

Lemma futex_wake_spec_witness :
  ∃ t' s', sys_futex table1 s_run vm0 1 WORD FUTEX_WAKE 1 0 0x200 = (FRet 1, t', s').
Proof.
  destruct run_proc as (E1 & E2 & _).
  destruct (futex_wake_spec w_boot (mkWorld s_run [] [] []) table1 vm0 1 WORD 1 0 0x200 WORD boot_booted run_path) as (t' & s' & H & _).
  - reflexivity.
  - cbn [w_sched]. unfold valid_cpu. rewrite (proj2 s_run_cpus). lia.
  - cbn [w_sched]. rewrite E1. discriminate.
  - cbn [w_sched]. rewrite E1, E2. exact word_resolves.
  - exists t', s'. exact H.
Defined.

(** A wake-up can be lost.  A waiter on one CPU that has found the expected
    value and entered its name in the table, but is not asleep yet, is missed by
    a waker on another CPU: the waker takes the entry, finds nobody asleep and
    reports one process woken; the waiter then sleeps, and a further wake finds
    an empty table, so only the timeout ends the wait. *)
Theorem futex_lost_wakeup :
  let t := table1 in
  let '(woken, t1, s1) := futex_wake (Z.to_nat FUTEX_MAX_WAITERS) 0 t s_run 0 WORD 1 0 in
  let s2 := (sched_block_on s1 1 WORD 0 0x200).2 in
  let '(again, t3, s3) := futex_wake (Z.to_nat FUTEX_MAX_WAITERS) 0 t1 s2 0 WORD 1 0 in
  woken = 1 ∧ t1 = empty_table.[0 <- mkWaiter NULLP WORD] ∧ again = 0 ∧
  state (proc s3 2) = PROC_BLOCKED ∧ wait_chan (proc s3 2) = WORD ∧ 0 < sleep_until (proc s3 2).
Proof. vm_compute. split_and!; reflexivity. Qed.
End FutexDemo.
