(* ===== verification/VmmWalk.v ===== *)
(** * Walking whole address spaces

    The page numbers that order the nested loops of [vmm_destroy_user] and
    [vmm_clone_user], how often a frame is mapped, and unlinking a page table.
    A page number is the concatenation of the four table indices; its prefixes
    number the tables of each depth. *)

From S2P Require Import Prelude Mem CString Block Pmm Frames Vmm VmmProofs VmmSpec.

(** ** Page numbers *)

(** [prefix d v]: the number of the depth-[d] item (table or, at depth 4, page)
    that holds [v]. *)
Fixpoint prefix (d : nat) (v : Z) : Z :=
  match d with O => 0 | S d => prefix d v * 512 + idx d v end.

(** The address of the page number [m]. *)
Definition pva (m : Z) : Z := m * PAGE_SIZE.
(** The address of the first page of the depth-[d] item number [c]. *)
Definition item (d : nat) (c : Z) : Z := pva (c * 512 ^ (4 - Z.of_nat d)).
(** Page numbers of the user half. *)
Definition USER_PAGES : Z := 256 * 512 ^ 3.

Lemma prefix_S d v : prefix (S d) v = prefix d v * 512 + idx d v.
Proof. done. Qed.

Lemma prefix_nonneg d v : 0 ≤ prefix d v.
Proof. induction d as [|d IH]; [done|]. rewrite prefix_S. pose proof (idx_range d v). lia. Qed.

Lemma prefix_path d v w : path_eq d v w ↔ prefix d v = prefix d w.
Proof.
  induction d as [|d IH]; [split; [done|intros _ k Hk; lia]|]. rewrite !prefix_S.
  pose proof (idx_range d v). pose proof (idx_range d w). split.
  - intros Hp. rewrite (proj1 IH) by (by eapply path_eq_le; [|exact Hp]; lia). by rewrite (Hp d) by lia.
  - intros E. apply path_eq_S; [apply IH; lia|lia].
Qed.

Lemma idx_div d v : (d ≤ 3)%nat → idx d v = v / (PAGE_SIZE * 512 ^ (3 - Z.of_nat d)) mod 512.
Proof.
  intros Hd. assert (E : ∀ n, 0 ≤ n → Z.land (Z.shiftr v n) 511 = v / 2 ^ n mod 512).
  { intros n Hn. change 511 with (Z.ones 9). rewrite Z.land_ones, Z.shiftr_div_pow2 by lia. done. }
  destruct d as [|[|[|[|]]]]; [..|lia]; cbn [idx]; unfold PML4_IDX, PDPT_IDX, PD_IDX, PT_IDX;
    rewrite E by lia; reflexivity.
Qed.

(** The prefixes of a 48-bit address. *)
Lemma prefix_pva d m :
  (d ≤ 4)%nat → 0 ≤ m < 512 ^ 4 → prefix d (pva m) = m / 512 ^ (4 - Z.of_nat d).
Proof.
  intros Hd Hm.
  destruct d as [|[|[|[|[|]]]]]; [..|lia]; rewrite ?prefix_S, ?(idx_div 0), ?(idx_div 1), ?(idx_div 2), ?(idx_div 3) by lia;
    unfold pva, PAGE_SIZE; cbn; zlia.
Qed.

Lemma prefix_item d c d' :
  (d ≤ 4)%nat → (d' ≤ d)%nat → 0 ≤ c < 512 ^ Z.of_nat d →
  prefix d' (item d c) = c / 512 ^ (Z.of_nat d - Z.of_nat d').
Proof.
  intros Hd Hd' Hc. unfold item.
  assert (H4 : 512 ^ 4 = 512 ^ Z.of_nat d * 512 ^ (4 - Z.of_nat d)) by (rewrite <- Z.pow_add_r by lia; f_equal; lia).
  assert (0 < 512 ^ (4 - Z.of_nat d)) by (apply Z.pow_pos_nonneg; lia).
  rewrite prefix_pva by (lia || nia).
  replace (4 - Z.of_nat d') with ((4 - Z.of_nat d) + (Z.of_nat d - Z.of_nat d')) by lia.
  rewrite Z.pow_add_r by lia. assert (0 < 512 ^ (Z.of_nat d - Z.of_nat d')) by (apply Z.pow_pos_nonneg; lia).
  rewrite <- Z.div_div by lia. by rewrite Z.div_mul by lia.
Qed.

Lemma prefix_div d v : prefix d v = prefix (S d) v / 512.
Proof. rewrite prefix_S. pose proof (idx_range d v). zlia. Qed.

Lemma idx_mod d v : idx d v = prefix (S d) v mod 512.
Proof. rewrite prefix_S. pose proof (idx_range d v). zlia. Qed.

Lemma user_prefix d v : is_user v ↔ prefix (S d) v < 256 * 512 ^ Z.of_nat d.
Proof.
  induction d as [|d IH].
  - cbn. unfold is_user, KERNEL_PML4_START. lia.
  - rewrite IH, (prefix_div (S d)). rewrite Nat2Z.inj_succ, Z.pow_succ_r by lia.
    split; intros H; zlia.
Qed.

(** ** Sums of mappings *)

Section maps.
Context {F : Type} `{FA : FrameAlloc F} `{FL : !FrameAllocLaws F}.
Implicit Types s : vm F.

(** The page number [m] of the space [r] is mapped to the frame [u]. *)
Definition maps_page s (r u m : Z) : bool :=
  has (pte s r (pva m)) VMM_P && (Z.land (pte s r (pva m)) VMM_PHYS_MASK =? u).
(** How many of the first [n] pages of [r] are; sealed, as it ranges over 2^35
    pages in the statements. *)
Definition maps_def s (r n u : Z) : Z := count_up (maps_page s r u) 0 (Z.to_nat n).
Definition maps_aux : seal maps_def.
Proof. by eexists. Qed.
Definition maps : vm F → Z → Z → Z → Z := maps_aux.(unseal).
Lemma maps_eq : maps = maps_def.
Proof. apply maps_aux.(seal_eq). Qed.

Lemma maps_0 s r u : maps s r 0 u = 0.
Proof. by rewrite maps_eq. Qed.

Lemma maps_step s r n u : 0 ≤ n → maps s r (n + 1) u = maps s r n u + if maps_page s r u n then 1 else 0.
Proof.
  intros Hn. rewrite maps_eq; unfold maps_def. rewrite Z2Nat.inj_add by lia. change (Z.to_nat 1) with 1%nat.
  rewrite Nat.add_1_r, count_up_snoc. by rewrite Z.add_0_l, Z2Nat.id by lia.
Qed.

Lemma maps_skip s r n n' u :
  0 ≤ n ≤ n' → (∀ m, n ≤ m < n' → maps_page s r u m = false) → maps s r n' u = maps s r n u.
Proof.
  intros Hn H. replace n' with (n + Z.of_nat (Z.to_nat (n' - n))) in * by lia.
  induction (Z.to_nat (n' - n)) as [|k IH]; [f_equal; lia|].
  rewrite Nat2Z.inj_succ, <- Z.add_1_r, Z.add_assoc, maps_step by lia.
  rewrite IH, H by (lia || (intros; apply H; lia)). lia.
Qed.

Lemma maps_bounds s r n n' u : n ≤ n' → 0 ≤ maps s r n u ≤ maps s r n' u.
Proof.
  intros Hn. rewrite maps_eq. split; [apply count_up_bounds|]. unfold maps_def.
  replace (Z.to_nat n') with (Z.to_nat n + (Z.to_nat n' - Z.to_nat n))%nat by lia.
  induction (Z.to_nat n' - Z.to_nat n)%nat as [|k IH]; [by rewrite Nat.add_0_r|].
  rewrite Nat.add_succ_r, count_up_snoc. destruct (maps_page _ _ _ _); lia.
Qed.

Lemma maps_eq_pages s s' r r' n u :
  (∀ m, 0 ≤ m < n → maps_page s' r' u m = maps_page s r u m) → maps s' r' n u = maps s r n u.
Proof. intros H. rewrite maps_eq. apply count_up_ext. intros m Hm. apply H. lia. Qed.

Lemma maps_ext s s' r n u :
  (∀ m, 0 ≤ m < n → pte s' r (pva m) = pte s r (pva m)) → maps s' r n u = maps s r n u.
Proof.
  intros H. apply maps_eq_pages. intros m Hm. unfold maps_page. by rewrite H.
Qed.

(** Changing the entry of one page. *)
Lemma maps_upd s s' r n k u :
  0 ≤ k < n → (∀ m, 0 ≤ m < n → m ≠ k → pte s' r (pva m) = pte s r (pva m)) →
  maps s' r n u = maps s r n u + (if maps_page s' r u k then 1 else 0) - (if maps_page s r u k then 1 else 0).
Proof.
  intros Hk H. rewrite maps_eq. apply count_up_upd; [lia|]. intros m Hm Hne. unfold maps_page. by rewrite H by lia.
Qed.

(** At most one page: at most one mapping. *)
Lemma maps_one s r n k u :
  (∀ m, 0 ≤ m < n → m ≠ k → has (pte s r (pva m)) VMM_P = false) → 0 ≤ maps s r n u ≤ 1.
Proof.
  intros H. rewrite maps_eq. split; [apply count_up_bounds|]. unfold maps_def. destruct (decide (0 ≤ k < n)) as [Hk|Hn].
  - rewrite (count_up_upd (λ _, false) _ _ _ k); [|lia|].
    + rewrite count_up_false by done. destruct (maps_page s r u k); lia.
    + intros i Hi Hne. unfold maps_page. by rewrite H by lia.
  - rewrite count_up_false; [lia|]. intros i Hi. unfold maps_page. rewrite H; [done|lia|lia].
Qed.

(** A mapped page counts. *)
Lemma maps_mapped s r n m :
  0 ≤ m < n → has (pte s r (pva m)) VMM_P = true → 0 < maps s r n (Z.land (pte s r (pva m)) VMM_PHYS_MASK).
Proof.
  intros Hm Hp. rewrite maps_eq. apply (count_up_pos _ _ _ m); [lia|]. unfold maps_page. by rewrite Hp, Z.eqb_refl.
Qed.

(** A frame that is counted is mapped somewhere. *)
Lemma maps_some s r n u :
  0 < maps s r n u → ∃ m, 0 ≤ m < n ∧ maps_page s r u m = true.
Proof.
  intros H. destruct (find_up (maps_page s r u) 0 (Z.to_nat n)) as [m|] eqn:E.
  - apply find_up_Some in E as (? & ? & _). exists m. split; [lia|done].
  - pose proof (proj1 (find_up_None _ _ _) E) as Hn. rewrite maps_eq in H; unfold maps_def in H.
    rewrite count_up_false in H; [lia|]. intros i Hi. apply Hn. lia.
Qed.

(** The leaf entry of an address is that of its page number. *)
Lemma pte_pva s r w : pte s r w = pte s r (pva (prefix 4 w)).
Proof.
  apply pte_path, prefix_path. rewrite (prefix_pva 4); [by rewrite Z.div_1_r|lia|].
  split; [apply prefix_nonneg|]. rewrite !prefix_S. cbn [prefix].
  pose proof (idx_range 0 w). pose proof (idx_range 1 w). pose proof (idx_range 2 w). pose proof (idx_range 3 w). lia.
Qed.

(** *** Unlinking a table *)

Section unlink.
Context (s : vm F) (roots : list Z) (r v t : Z) (d0 : nat).
Hypothesis Hok : vm_ok s roots.
Hypothesis Hr : r ∈ roots.
Hypothesis Hu : is_user v.
Hypothesis Hd0 : (d0 < 3)%nat.
Hypothesis Ht : tbl s r d0 v = Some t.
#[local] Abbreviation s' := (wr_entry s t (idx d0 v) 0).

Lemma unlink_rd r1 d w t1 :
  r1 ∈ roots → (d ≤ 3)%nat → tbl s r1 d w = Some t1 →
  ¬ (r1 = r ∧ d = d0 ∧ path_eq (S d0) v w) → rd_entry s' t1 (idx d w) = rd_entry s t1 (idx d w).
Proof.
  intros H1 Hd E Hne. assert (page_aligned t) by (apply (tab_aligned s roots r d0 v); auto; lia).
  assert (page_aligned t1) by by apply (tab_aligned s roots r1 d w).
  apply rd_wr_ne; [done|done|apply idx_range|apply idx_range|].
  destruct (decide (t = t1)) as [<-|]; [right|by left]. intros Hi. apply Hne.
  destruct (ok_inj _ _ Hok r r1 d0 d v w t Hr H1 ltac:(lia) Hd Hu Ht E) as (<- & <- & Hp). eauto with xos.
Qed.

Lemma unlink_tbl_ne r1 w d :
  r1 ∈ roots → (d ≤ 3)%nat → ¬ (r1 = r ∧ path_eq (S d0) v w) ∨ (d ≤ d0)%nat → tbl s' r1 d w = tbl s r1 d w.
Proof.
  intros H1 Hd Hor. apply (tbl_same s s' r1 w d); [done| |done].
  intros d1 t1 Hd1 E. apply (unlink_rd r1 d1 w t1); [done|lia|done|]. intros (? & ? & ?).
  destruct Hor; [tauto|lia].
Qed.

Lemma unlink_tbl_gone w d : (d0 < d)%nat → path_eq (S d0) v w → tbl s' r d w = None.
Proof.
  intros Hd Hp. induction d as [|d IH]; [lia|]. cbn [tbl]. destruct (decide (d = d0)) as [->|].
  - rewrite unlink_tbl_ne by (done || lia || auto).
    rewrite <- (tbl_path_eq s r d0 v w) by (eapply path_eq_le; [|done]; lia). rewrite Ht.
    unfold follow. rewrite <- (Hp d0) by lia. by rewrite rd_wr_eq by lia.
  - by rewrite IH by lia.
Qed.

Lemma unlink_tbl_inv r1 d w t1 :
  r1 ∈ roots → (d ≤ 3)%nat → tbl s' r1 d w = Some t1 →
  tbl s r1 d w = Some t1 ∧ ¬ (r1 = r ∧ path_eq (S d0) v w ∧ (d0 < d)%nat).
Proof.
  intros H1 Hd E. destruct (decide (r1 = r ∧ path_eq (S d0) v w)) as [[-> Hp]|Hn].
  - destruct (decide (d ≤ d0)%nat).
    + rewrite <- (unlink_tbl_ne r w d) by auto. split; [done|]. intros (_ & _ & ?). lia.
    + rewrite unlink_tbl_gone in E by (done || lia). done.
  - rewrite <- (unlink_tbl_ne r1 w d) by auto. split; [done|]. tauto.
Qed.

Lemma unlink_ok : vm_ok s' roots.
Proof.
  constructor.
  - apply Hok.
  - apply st64_bytes, Hok.
  - intros r1 d w t1 H1 Hd E. destruct (unlink_tbl_inv _ _ _ _ H1 Hd E) as [E' _].
    apply (ok_tab _ _ Hok _ _ _ _ H1 Hd E').
  - intros r1 r2 d d' v1 w t1 H1 H2 Hd Hd' Hu1 E1 E2.
    destruct (unlink_tbl_inv _ _ _ _ H1 Hd E1) as [O1 _], (unlink_tbl_inv _ _ _ _ H2 Hd' E2) as [O2 _].
    by eapply (ok_inj _ _ Hok).
  - intros r1 d w t1 H1 Hd Hu1 E. assert (Hd3 : (d ≤ 3)%nat) by lia.
    destruct (unlink_tbl_inv _ _ _ _ H1 Hd3 E) as [O1 _].
    destruct (decide (r1 = r ∧ d = d0 ∧ path_eq (S d0) v w)) as [(-> & -> & P)|Hn].
    + rewrite <- (P d0) by lia. assert (t1 = t) as ->.
      { rewrite <- (tbl_path_eq s r d0 v w) in O1 by (eapply path_eq_le; [|done]; lia). congruence. }
      by rewrite rd_wr_eq by lia.
    + rewrite (unlink_rd r1 d w t1) by (done || lia). by eapply (ok_small _ _ Hok).
Qed.

Lemma unlink_pte_ne r1 w : r1 ∈ roots → ¬ (r1 = r ∧ path_eq (S d0) v w) → pte s' r1 w = pte s r1 w.
Proof.
  intros H1 Hn. unfold pte. rewrite unlink_tbl_ne by auto. destruct (tbl s r1 3 w) as [t1|] eqn:E; [|done].
  apply (unlink_rd r1 3 w t1); [done|lia|done|]. intros (? & ? & ?). lia.
Qed.

Lemma unlink_pte_gone w : path_eq (S d0) v w → pte s' r w = 0.
Proof. intros Hp. unfold pte. by rewrite unlink_tbl_gone by (done || lia). Qed.

(** Only a page-table page is written. *)
Lemma unlink_data p i : data_page s roots p → 0 ≤ i < PAGE_SIZE → vmem s' (p + i) = vmem s (p + i).
Proof.
  intros (_ & Hpal & _ & Hnt) Hi. pose proof (idx_range d0 v) as Hi3.
  pose proof (tab_aligned _ _ _ _ _ _ Hok Hr (ltac:(lia) : (d0 ≤ 3)%nat) Ht) as Htal.
  assert (p ≠ t) by (intros ->; apply (Hnt r d0 v); [done|lia|done]).
  apply st64_outside. unfold page_aligned, PAGE_SIZE in *. zlia.
Qed.
End unlink.
End maps.

Lemma user_pages_prefix w : is_user w ↔ prefix 4 w < USER_PAGES.
Proof. exact (user_prefix 3 w). Qed.

Lemma user_pages_val : USER_PAGES = 34359738368.
Proof. done. Qed.

Lemma pva_prefix m : 0 ≤ m < 512 ^ 4 → prefix 4 (pva m) = m.
Proof. intros Hm. by rewrite (prefix_pva 4), Z.div_1_r by (done || lia). Qed.

Lemma pva_user m : 0 ≤ m < USER_PAGES → is_user (pva m) ∧ prefix 4 (pva m) = m.
Proof.
  intros Hm. assert (E : prefix 4 (pva m) = m) by (apply pva_prefix; rewrite user_pages_val in *; lia).
  split; [|done]. apply user_pages_prefix. rewrite E. lia.
Qed.

#[global] Opaque USER_PAGES prefix.
