(* ===== verification/VmmDestroy.v ===== *)
(** * Tearing an address space down

    [vmm_destroy_user] of [kernel/memory/vmm.c] gives back every reference of the
    user half: one reference per mapped page, and the page tables themselves. *)

From S2P Require Import Prelude Mem CString Block Pmm Frames Vmm VmmProofs VmmSpec Fault VmmWalk.

Section owned.
Context {F : Type} `{FA : FrameAlloc F} `{FL : !FrameAllocLaws F}.
Implicit Types s : vm F.

(** The frame of a leaf entry. *)
Definition frame_of s (r w : Z) : Z := Z.land (pte s r w) VMM_PHYS_MASK.

(** What the user half of [r] owns: every page maps a data frame and holds a
    reference to it, and the page tables have one reference each. *)
Record user_owned s (roots : list Z) (r : Z) : Prop := {
  uo_frame : ∀ w, is_user w → has (pte s r w) VMM_P = true →
    data_page s roots (p2v s (frame_of s r w)) ∧ LOW_FRAMES * PAGE_SIZE ≤ frame_of s r w;
  uo_refs : ∀ u, 0 < maps s r USER_PAGES u → maps s r USER_PAGES u ≤ fa_refcount (fa s) u;
  uo_table : ∀ d w t, (1 ≤ d ≤ 3)%nat → is_user w → tbl s r d w = Some t →
    LOW_FRAMES * PAGE_SIZE ≤ t - fa_hhdm (fa s) ∧ fa_refcount (fa s) (t - fa_hhdm (fa s)) = 1;
}.

(** [u] is a page table of the user half of [r] at depth [d]. *)
Definition table_frame s (r u : Z) (d : nat) (w : Z) : Prop :=
  (1 ≤ d ≤ 3)%nat ∧ is_user w ∧ tbl s r d w = Some (u + fa_hhdm (fa s)).

(** A data page in the direct map. *)
Lemma data_p2v s roots t :
  fa_ok (fa s) → 0 ≤ t < 2 ^ 52 → data_page s roots (p2v s t) → p2v s t = t + fa_hhdm (fa s).
Proof.
  intros Hok Ht (Hlo & _). destruct (fa_hhdm_range _ Hok) as [Hh _]. unfold p2v, u64 in *. zlia.
Qed.

Lemma pte_range s r w : mem_bytes (vmem s) → 0 ≤ pte s r w < 2 ^ 64.
Proof. intros Hm. unfold pte. destruct (tbl s r 3 w); [by apply ld64_range|lia]. Qed.

Lemma frame_of_range s r w : mem_bytes (vmem s) → 0 ≤ frame_of s r w < 2 ^ 52 ∧ page_aligned (frame_of s r w).
Proof.
  intros Hm. split; [|apply land_mask_aligned]. by apply land_mask_range, pte_range.
Qed.
End owned.

Section destroy.
Context {F : Type} `{FA : FrameAlloc F} `{FL : !FrameAllocLaws F}.
Implicit Types s : vm F.
Context (s0 : vm F) (roots : list Z) (r : Z).
Hypothesis Hok0 : vm_ok s0 roots.
Hypothesis Hr : r ∈ roots.
Hypothesis Hown : user_owned s0 roots r.
#[local] Abbreviation h0 := (fa_hhdm (fa s0)).

(** The state when, for each depth [d], the first [cs d] items of that depth
    have been taken down: the tables and memory ... *)
Record dtab (cs : nat → Z) s : Prop := {
  di_ok : vm_ok s roots;
  di_hhdm : fa_hhdm (fa s) = h0;
  di_kpml4 : kernel_pml4_virt s = kernel_pml4_virt s0;
  di_other : ∀ r' d w, r' ∈ roots → (d ≤ 3)%nat → r' ≠ r ∨ ¬ is_user w → tbl s r' d w = tbl s0 r' d w;
  di_other_pte : ∀ r' w, r' ∈ roots → r' ≠ r ∨ ¬ is_user w → pte s r' w = pte s0 r' w;
  di_tbl : ∀ d w, (1 ≤ d ≤ 3)%nat → is_user w →
    tbl s r d w = if prefix d w <? cs d then None else tbl s0 r d w;
  di_pte : ∀ w, is_user w →
    if prefix 4 w <? cs 4%nat then has (pte s r w) VMM_P = false else pte s r w = pte s0 r w;
  di_data : ∀ p i, data_page s0 roots p → 0 ≤ i < PAGE_SIZE → vmem s (p + i) = vmem s0 (p + i);
}.

(** ... and the frames. *)
Record dfrm (cs : nat → Z) (f : F) : Prop := {
  di_refs : ∀ u, page_aligned u → 0 ≤ u → (∀ d w, ¬ table_frame s0 r u d w) →
    fa_refcount f u = fa_refcount (fa s0) u - maps s0 r (cs 4%nat) u;
  di_trefs : ∀ u d w, table_frame s0 r u d w → fa_refcount f u = if prefix d w <? cs d then 0 else 1;
  di_free : ∀ u, fa_free f u ↔
    fa_free (fa s0) u ∨
    (0 < maps s0 r (cs 4%nat) u ∧ fa_refcount (fa s0) u = maps s0 r (cs 4%nat) u) ∨
    ∃ d w, table_frame s0 r u d w ∧ prefix d w < cs d;
}.

Record dinv (cs : nat → Z) s : Prop := { di_tab :> dtab cs s; di_frm :> dfrm cs (fa s) }.

Lemma dinv_ext cs cs' s : (∀ d, (1 ≤ d ≤ 4)%nat → cs d = cs' d) → dinv cs s → dinv cs' s.
Proof.
  intros E [[D1 D2 D3 D4 D5 D6 D7 D8] [D9 D10 D11]]. rewrite (E 4%nat) in * by lia.
  split; constructor; [exact D1|exact D2|exact D3|exact D4|exact D5| |exact D7|exact D8|exact D9| |].
  - intros d w Hd Hw. rewrite <- E by lia. by apply D6.
  - intros u d w Hu. rewrite <- E by (destruct Hu; lia). by apply D10.
  - intros u. rewrite D11. do 2 f_equiv. split; intros (d & w & Ht & Hp); exists d, w;
      (split; [done|]); destruct Ht as [? _]; [rewrite <- E|rewrite E]; (done || lia).
Qed.

(** Tables are only removed. *)
Lemma di_sub cs s r' d w t :
  dinv cs s → r' ∈ roots → (d ≤ 3)%nat → tbl s r' d w = Some t → tbl s0 r' d w = Some t.
Proof.
  intros D Hr' Hd E. destruct (decide (r' = r ∧ is_user w)) as [[-> Hu]|Hn].
  - destruct d as [|d]; [done|]. rewrite (di_tbl _ _ D) in E by (done || lia).
    by destruct (_ <? _).
  - rewrite (di_other _ _ D) in E; [done..|]. destruct (decide (r' = r)); [right|by left]. tauto.
Qed.

Lemma di_data_page cs s p :
  dinv cs s → data_page s0 roots p → ¬ fa_free (fa s) (p - h0) → data_page s roots p.
Proof.
  intros D (H1 & H2 & H3 & H4) Hf. unfold data_page. rewrite (di_hhdm _ _ D). split_and!; [done..|].
  intros r' d w Hr' Hd E. apply (H4 r' d w Hr' Hd). by apply (di_sub cs s).
Qed.

(** Moving past items that do not exist. *)
Lemma dinv_skip cs cs' s :
  dinv cs s → (∀ d, (1 ≤ d ≤ 4)%nat → cs d ≤ cs' d) →
  (∀ d w, (1 ≤ d ≤ 3)%nat → is_user w → cs d ≤ prefix d w < cs' d → tbl s0 r d w = None) →
  (∀ w, is_user w → cs 4%nat ≤ prefix 4 w < cs' 4%nat → has (pte s0 r w) VMM_P = false) →
  cs' 4%nat ≤ USER_PAGES → 0 ≤ cs 4%nat → dinv cs' s.
Proof.
  intros D Hle Htb Hpt Hmax H0.
  assert (Hmp : ∀ u, maps s0 r (cs' 4%nat) u = maps s0 r (cs 4%nat) u).
  { intros u. apply maps_skip; [specialize (Hle 4%nat); lia|]. intros m Hm. unfold maps_page.
    assert (E : prefix 4 (pva m) = m).
    { rewrite (prefix_pva 4) by (rewrite user_pages_val in Hmax; lia). by rewrite Z.div_1_r. }
    by rewrite Hpt by (rewrite ?user_pages_prefix, E; lia). }
  destruct D as [[D1 D2 D3 D4 D5 D6 D7 D8] [D9 D10 D11]].
  split; constructor; [exact D1|exact D2|exact D3|exact D4|exact D5| | |exact D8| | |].
  - intros d w Hd Hw. rewrite D6 by done. specialize (Hle d).
    destruct (Z.ltb_spec (prefix d w) (cs d)), (Z.ltb_spec (prefix d w) (cs' d)); [done|lia| |done]. by apply Htb.
  - intros w Hw. specialize (D7 w Hw). specialize (Hle 4%nat).
    destruct (Z.ltb_spec (prefix 4 w) (cs 4%nat)), (Z.ltb_spec (prefix 4 w) (cs' 4%nat)); [done|lia| |done].
    rewrite D7. by apply Hpt.
  - intros u. rewrite Hmp. apply D9.
  - intros u d w Htf. rewrite (D10 u d w Htf). destruct Htf as (Hd & Hw & Et). specialize (Hle d).
    destruct (Z.ltb_spec (prefix d w) (cs d)), (Z.ltb_spec (prefix d w) (cs' d)); [done|lia| |done].
    rewrite Htb in Et by done. done.
  - intros u. rewrite Hmp, D11. do 2 f_equiv. split; intros (d & w & H1 & H2); exists d, w; (split; [done|]);
      destruct H1 as (Hd & Hw & Et); specialize (Hle d); [lia|].
    destruct (Z.ltb_spec (prefix d w) (cs d)); [done|]. rewrite Htb in Et by (done || lia). done.
Qed.

(** *** One page *)

Lemma page_frame cs s w :
  dinv cs s → is_user w → cs 4%nat = prefix 4 w → has (pte s0 r w) VMM_P = true →
  let u := frame_of s0 r w in
  page_aligned u ∧ LOW_FRAMES * PAGE_SIZE ≤ u ∧ (∀ r' d w', r' ∈ roots → (d ≤ 3)%nat → tbl s0 r' d w' ≠ Some (u + h0)) ∧
  0 < fa_refcount (fa s) u ∧ ¬ fa_free (fa s0) u ∧
  ∀ u', maps s0 r (cs 4%nat + 1) u' = maps s0 r (cs 4%nat) u' + if u' =? u then 1 else 0.
Proof.
  intros D Hu E4 HP u. destruct (uo_frame _ _ _ Hown w Hu HP) as [Hd Hlo]. fold u in Hd, Hlo.
  destruct (frame_of_range s0 r w (ok_bytes _ _ Hok0)) as [Hrg Hal]. fold u in Hrg, Hal.
  rewrite (data_p2v s0 roots u (ok_fa _ _ Hok0) Hrg Hd) in Hd. destruct Hd as (_ & _ & Hnf & Hnt).
  replace (u + h0 - h0) with u in Hnf by lia.
  assert (Hst : ∀ u', maps s0 r (cs 4%nat + 1) u' = maps s0 r (cs 4%nat) u' + if u' =? u then 1 else 0).
  { intros u'. pose proof (prefix_nonneg 4 w). rewrite maps_step by lia. f_equal. unfold maps_page.
    rewrite E4, <- pte_pva, HP. cbn [andb]. fold (frame_of s0 r w). fold u. by rewrite Z.eqb_sym. }
  split_and!; [done|done|done| |done|done].
  rewrite (di_refs _ _ D); [|done|lia|intros d w' (? & _ & E'); exact (Hnt r d w' Hr ltac:(lia) E')]. apply user_pages_prefix in Hu.
  pose proof (maps_bounds s0 r (cs 4%nat + 1) USER_PAGES u ltac:(lia)) as Hb. rewrite Hst, Z.eqb_refl in Hb.
  pose proof (maps_bounds s0 r (cs 4%nat) (cs 4%nat) u ltac:(lia)).
  pose proof (uo_refs _ _ _ Hown u ltac:(lia)). lia.
Qed.

(** Only the position of the leaf loop moves. *)
Definition bump (cs : nat → Z) (d : nat) : nat → Z := λ e, if (e =? d)%nat then cs e + 1 else cs e.

(** What dropping the reference to frame [u] leaves of the tables: anything
    that does not use [u] as a table. *)
Lemma swap_unref s1 s u :
  vm_ok s1 roots → fa s1 = fa s → page_aligned u → LOW_FRAMES * PAGE_SIZE ≤ u → 0 < fa_refcount (fa s) u →
  (∀ r' d w, r' ∈ roots → (d ≤ 3)%nat → tbl s1 r' d w ≠ Some (u + fa_hhdm (fa s))) →
  vm_ok (with_fa s1 (fa_unref (fa s) u)) roots ∧ fa_hhdm (fa_unref (fa s) u) = fa_hhdm (fa s1) ∧
  (∀ r' d w, tbl (with_fa s1 (fa_unref (fa s) u)) r' d w = tbl s1 r' d w) ∧
  (∀ r' w, pte (with_fa s1 (fa_unref (fa s) u)) r' w = pte s1 r' w).
Proof.
  intros Hok Ef Hal Hlo Hrc Hnt.
  destruct (fa_unref_spec (fa s) u) as (U1 & U2 & U3 & _); [rewrite <- Ef; apply Hok|done..|].
  assert (Hh : fa_hhdm (fa_unref (fa s) u) = fa_hhdm (fa s1)) by (by rewrite Ef).
  split; [|split; [done|split; intros; [by apply tbl_fa|by apply pte_fa]]].
  apply fa_swap; [done|done|done|]. intros r' d w t Hr' Hd Et. rewrite U2, U3.
  intros [Hf|[E _]].
  - apply (ok_tab _ _ Hok r' d w t Hr' Hd Et). by rewrite Ef.
  - apply (Hnt r' d w Hr' Hd). rewrite <- E. by replace (t - fa_hhdm (fa s) + fa_hhdm (fa s)) with t by lia.
Qed.

(** Only the page table [t] is written. *)
Lemma entry_data cs s d w t p i :
  dinv cs s → (d ≤ 3)%nat → tbl s r d w = Some t → data_page s0 roots p → 0 ≤ i < PAGE_SIZE →
  vmem (wr_entry s t (idx d w) 0) (p + i) = vmem s0 (p + i).
Proof.
  intros D Hd Ht Hp Hi. rewrite <- (di_data _ _ D p i Hp Hi). destruct Hp as (_ & Hpal & _ & Hnp).
  pose proof (idx_range d w). pose proof (tab_aligned _ _ _ _ _ _ (di_ok _ _ D) Hr Hd Ht) as Htal.
  assert (p ≠ t) by (intros ->; apply (Hnp r d w Hr Hd); by apply (di_sub cs s)).
  apply st64_outside. unfold page_aligned, PAGE_SIZE in *. zlia.
Qed.

(** The frame of a table. *)
Lemma table_frame_aligned u d w : table_frame s0 r u d w → page_aligned u ∧ LOW_FRAMES * PAGE_SIZE ≤ u.
Proof.
  intros (Hd & Hw & Et). pose proof (tab_aligned _ _ _ _ _ _ Hok0 Hr (ltac:(lia) : (d ≤ 3)%nat) Et) as Hta.
  destruct (fa_hhdm_range _ (ok_fa _ _ Hok0)) as [_ Hha]. destruct (uo_table _ _ _ Hown d w _ ltac:(lia) Hw Et) as [Hlo _].
  unfold page_aligned, PAGE_SIZE, LOW_FRAMES in *. split; zlia.
Qed.

Lemma page_frames cs s w :
  dinv cs s → is_user w → cs 4%nat = prefix 4 w → has (pte s0 r w) VMM_P = true →
  dfrm (bump cs 4) (fa_unref (fa s) (frame_of s0 r w)).
Proof.
  intros D Hu E4 HP. destruct (page_frame cs s w D Hu E4 HP) as (Hal & Hlo & Hnt & Hrc & Hnf & Hst).
  set (u := frame_of s0 r w) in *.
  assert (Hlo0 : 0 ≤ u) by (unfold LOW_FRAMES, PAGE_SIZE in Hlo; lia).
  destruct (fa_unref_spec (fa s) u (ok_fa _ _ (di_ok _ _ D)) Hal Hlo Hrc) as (U1 & U2 & U3 & U4).
  assert (Hno : ∀ d w', ¬ table_frame s0 r u d w') by (intros d w' (? & _ & E'); exact (Hnt r d w' Hr ltac:(lia) E')).
  pose proof (di_refs _ _ D u Hal Hlo0 Hno) as Hrc'. unfold bump. constructor; cbn [Nat.eqb].
  - intros u' Ha Hu' Hnt'. rewrite U4, Hst by done.
    pose proof (di_refs _ _ D u' Ha Hu' Hnt'). destruct (Z.eqb_spec u' u) as [->|]; lia.
  - intros u' d w' Htf. destruct (table_frame_aligned _ _ _ Htf) as [Ha' Hlo'].
    destruct (Nat.eqb_spec d 4); [destruct Htf; lia|]. rewrite <- (di_trefs _ _ D u' d w' Htf).
    rewrite U4; [|done|unfold PAGE_SIZE, LOW_FRAMES in *; lia].
    destruct (Z.eqb_spec u' u) as [->|]; [|done]. by destruct (Hno d w').
  - intros u'. rewrite U3, (di_free _ _ D), Hrc', !Hst.
    assert (Htf : (∃ d w', table_frame s0 r u' d w' ∧ prefix d w' < (if (d =? 4)%nat then cs d + 1 else cs d)) ↔
                  ∃ d w', table_frame s0 r u' d w' ∧ prefix d w' < cs d).
    { split; intros (d & w' & H1 & H2); exists d, w'; (split; [done|]); destruct H1 as [? _];
        destruct (Nat.eqb_spec d 4); lia. }
    rewrite Htf. pose proof (maps_bounds s0 r (cs 4%nat) (cs 4%nat) u' ltac:(lia)).
    destruct (Z.eqb_spec u' u) as [->|Hne].
    + split.
      * intros [[?|[[? ?]|?]]|[_ ?]]; [by left|lia|by right; right|right; left; lia].
      * intros [?|[[? ?]|?]]; [by left; left|right; lia|by left; right; right].
    + rewrite Z.add_0_r. split; [intros [?|[? _]]; done|by left].
Qed.

Lemma page_tables cs s w pt :
  dinv cs s → is_user w → cs 4%nat = prefix 4 w → tbl s r 3 w = Some pt → has (pte s0 r w) VMM_P = true →
  dtab (bump cs 4) (with_fa (wr_entry s pt (PT_IDX w) 0) (fa_unref (fa s) (frame_of s0 r w))).
Proof.
  intros D Hu E4 Ht HP. pose proof (di_ok _ _ D) as Hok.
  destruct (page_frame cs s w D Hu E4 HP) as (Hal & Hlo & Hnt & Hrc & _). set (u := frame_of s0 r w) in *.
  set (s1 := wr_entry s pt (PT_IDX w) 0).
  assert (Htb : ∀ r' d w', r' ∈ roots → (d ≤ 3)%nat → tbl s1 r' d w' = tbl s r' d w')
    by (intros; by apply (leaf_tbl s roots r w)).
  destruct (swap_unref s1 s u) as (S1 & S2 & S3 & S4); [by apply (leaf_ok s roots r w)|done|done|done|done| |].
  { intros r' d w' Hr' Hd. rewrite Htb by done. intros Et. apply (Hnt r' d w' Hr' Hd).
    rewrite (di_hhdm _ _ D) in Et. by apply (di_sub cs s). }
  unfold bump. constructor; [done| |apply (di_kpml4 _ _ D)|..]; cbn [with_fa fa].
  - rewrite S2. apply (di_hhdm _ _ D).
  - intros r' d w' Hr' Hd Hor. rewrite S3, Htb by done. by apply (di_other _ _ D).
  - intros r' w' Hr' Hor. rewrite S4. unfold s1. rewrite (leaf_pte_ne s roots r w); [|done..|].
    + by apply (di_other_pte _ _ D).
    + intros [-> Hp]. destruct Hor as [|Hor]; [done|]. by apply Hor, (is_user_path 3 w).
  - intros d w' Hd Hw'. rewrite S3, Htb by (done || lia). rewrite (di_tbl _ _ D) by done.
    by destruct (Nat.eqb_spec d 4); [lia|].
  - intros w' Hw'. rewrite S4. cbn [Nat.eqb]. pose proof (di_pte _ _ D w' Hw') as Hp'.
    destruct (decide (path_eq 4 w w')) as [Hp|Hn]; unfold s1.
    + rewrite (leaf_pte_eq s roots r w) by done. apply prefix_path in Hp.
      destruct (Z.ltb_spec (prefix 4 w') (cs 4%nat + 1)); [done|lia].
    + rewrite (leaf_pte_ne s roots r w) by (done || tauto). rewrite prefix_path in Hn.
      destruct (Z.ltb_spec (prefix 4 w') (cs 4%nat)), (Z.ltb_spec (prefix 4 w') (cs 4%nat + 1)); (done || lia).
  - intros p i Hp Hi. by apply (entry_data cs s 3 w).
Qed.

Lemma destroy_pte_spec cs s w pt :
  dinv cs s → is_user w → cs 4%nat = prefix 4 w → tbl s r 3 w = Some pt →
  dinv (bump cs 4) (destroy_pte pt (PT_IDX w) s).
Proof.
  intros D Hu E4 Ht. pose proof (di_pte _ _ D w Hu) as Hpte. rewrite E4, Z.ltb_irrefl in Hpte.
  assert (He : rd_entry s pt (PT_IDX w) = pte s0 r w) by (rewrite <- Hpte; unfold pte; by rewrite Ht).
  unfold destroy_pte. rewrite He. destruct (has (pte s0 r w) VMM_P) eqn:HP.
  - split; [exact (page_tables cs s w pt D Hu E4 Ht HP)|exact (page_frames cs s w D Hu E4 HP)].
  - apply (dinv_skip cs); [done|..].
    + intros d _. unfold bump. destruct (d =? 4)%nat; lia.
    + intros d w' Hd _. unfold bump. destruct (Nat.eqb_spec d 4); lia.
    + unfold bump. cbn [Nat.eqb]. intros w' _ Hw'. rewrite (pte_path s0 r w' w); [done|]. apply prefix_path. lia.
    + unfold bump. cbn [Nat.eqb]. apply user_pages_prefix in Hu. lia.
    + rewrite E4. apply prefix_nonneg.
Qed.

(** *** One table *)

(** A table whose items are all gone is unlinked and freed. *)
Section table.
Context (cs : nat → Z) (s : vm F) (d : nat) (w t ct : Z).
Hypothesis D : dinv cs s.
Hypothesis Hd : (d < 3)%nat.
Hypothesis Hu : is_user w.
Hypothesis Ec : cs (S d) = prefix (S d) w.
Hypothesis Hbelow : ∀ e w', (S d < e ≤ 4)%nat → path_eq (S d) w w' → prefix e w' < cs e.
Hypothesis Ht : tbl s r d w = Some t.
Hypothesis Hct : tbl s r (S d) w = Some ct.
#[local] Abbreviation u := (ct - h0).

Lemma tb_frame : table_frame s0 r u (S d) w.
Proof.
  split; [lia|]. split; [done|]. replace (u + h0) with ct by lia. apply (di_sub cs s); (done || lia).
Qed.

(** No other table has that frame. *)
Lemma tb_unique u' d' w' : table_frame s0 r u' d' w' → u' = u ↔ d' = S d ∧ path_eq (S d) w w'.
Proof.
  intros (Hd' & Hw' & Et'). pose proof tb_frame as (_ & _ & Et). split.
  - intros ->. destruct (ok_inj _ _ Hok0 r r (S d) d' w w' (u + h0)) as (_ & <- & ?); [done|done|lia|lia|done..].
  - intros [-> Hp]. rewrite (tbl_path_eq s0 r (S d) w w' Hp) in Et. rewrite Et in Et'. injection Et'. lia.
Qed.

Lemma tb_refs : fa_refcount (fa s) u = 1.
Proof. rewrite (di_trefs _ _ D u (S d) w tb_frame), Ec. by rewrite Z.ltb_irrefl. Qed.

Lemma table_frames : dfrm (bump cs (S d)) (fa_unref (fa s) u).
Proof.
  destruct (table_frame_aligned _ _ _ tb_frame) as [Hal Hlo]. pose proof tb_refs as Hrc.
  destruct (fa_unref_spec (fa s) u (ok_fa _ _ (di_ok _ _ D)) Hal Hlo ltac:(lia)) as (U1 & U2 & U3 & U4).
  unfold bump. constructor; destruct (Nat.eqb_spec 4 (S d)); try lia.
  - intros u' Ha Hu' Hnt'. rewrite U4 by done.
    destruct (Z.eqb_spec u' u) as [->|]; [by destruct (Hnt' (S d) w tb_frame)|]. by apply (di_refs _ _ D).
  - intros u' d' w' Htf'. destruct (table_frame_aligned _ _ _ Htf') as [Ha' Hlo']. pose proof (tb_unique _ _ _ Htf') as Huq.
    rewrite U4; [|done|unfold PAGE_SIZE, LOW_FRAMES in *; lia]. destruct (Z.eqb_spec u' u) as [Eu|Hne].
    + apply Huq in Eu as [-> Hp]. apply prefix_path in Hp. rewrite Hrc, Nat.eqb_refl.
      destruct (Z.ltb_spec (prefix (S d) w') (cs (S d) + 1)); lia.
    + rewrite (di_trefs _ _ D u' d' w' Htf'). destruct (Nat.eqb_spec d' (S d)) as [->|]; [|done].
      assert (prefix (S d) w ≠ prefix (S d) w') by (rewrite <- prefix_path; intros Hp; by apply Hne, Huq).
      destruct (Z.ltb_spec (prefix (S d) w') (cs (S d))), (Z.ltb_spec (prefix (S d) w') (cs (S d) + 1)); (done || lia).
  - intros u'. rewrite U3, (di_free _ _ D). split.
    + intros [[?|[?|(e & w' & H1 & H2)]]|[-> _]]; [by left|by right; left|right; right..].
      * exists e, w'. split; [done|]. destruct (e =? S d)%nat; lia.
      * exists (S d), w. split; [apply tb_frame|]. rewrite Nat.eqb_refl. lia.
    + intros [?|[?|(e & w' & H1 & H2)]]; [by left; left|by left; right; left|].
      destruct (Nat.eqb_spec e (S d)) as [->|]; [|left; right; right; by exists e, w'].
      destruct (decide (prefix (S d) w' < cs (S d))); [left; right; right; by exists (S d), w'|]. right.
      split; [|done]. apply (tb_unique _ _ _ H1). split; [done|]. apply prefix_path. lia.
Qed.

Lemma table_tables : dtab (bump cs (S d)) (with_fa (wr_entry s t (idx d w) 0) (fa_unref (fa s) u)).
Proof.
  destruct (table_frame_aligned _ _ _ tb_frame) as [Hal Hlo]. pose proof tb_refs as Hrc. pose proof (di_ok _ _ D) as Hok.
  set (s1 := wr_entry s t (idx d w) 0).
  destruct (swap_unref s1 s u) as (S1 & S2 & S3 & S4); [by apply (unlink_ok s roots r w t d)|done|done|done|lia| |].
  { intros r' d' w' Hr' Hd' Et. rewrite (di_hhdm _ _ D) in Et. replace (u + h0) with ct in Et by lia.
    destruct (unlink_tbl_inv s roots r w t d Hok Hr Hu Hd Ht _ _ _ _ Hr' Hd' Et) as [Es Hn]. apply Hn.
    destruct (ok_inj _ _ Hok r r' (S d) d' w w' ct) as (<- & <- & ?); [done|done|lia|done..|]. split_and!; [done|done|lia]. }
  assert (Hpe : ∀ r' w', r' ≠ r ∨ ¬ is_user w' → ¬ (r' = r ∧ path_eq (S d) w w')).
  { intros r' w' Hor [-> Hp]. destruct Hor as [|Hor]; [done|]. by apply Hor, (is_user_path d w). }
  unfold bump. constructor; [done| |apply (di_kpml4 _ _ D)|..]; cbn [with_fa fa].
  - rewrite S2. apply (di_hhdm _ _ D).
  - intros r' d' w' Hr' Hd' Hor. rewrite S3. unfold s1. rewrite (unlink_tbl_ne s roots r w t d); [|done..|by left; apply Hpe].
    by apply (di_other _ _ D).
  - intros r' w' Hr' Hor. rewrite S4. unfold s1. rewrite (unlink_pte_ne s roots r w t d); [|done..|by apply Hpe].
    by apply (di_other_pte _ _ D).
  - intros e w' He Hw'. rewrite S3. unfold s1. destruct (decide (path_eq (S d) w w' ∧ (d < e)%nat)) as [[Hp Hde]|Hn].
    + rewrite (unlink_tbl_gone s roots r w t d) by done. destruct (Nat.eqb_spec e (S d)) as [->|].
      * apply prefix_path in Hp. destruct (Z.ltb_spec (prefix (S d) w') (cs (S d) + 1)); [done|lia].
      * specialize (Hbelow e w' ltac:(lia) Hp). destruct (Z.ltb_spec (prefix e w') (cs e)); [done|lia].
    + rewrite (unlink_tbl_ne s roots r w t d); [|done..|lia|].
      2:{ destruct (decide (d < e)%nat); [left|right; lia]. tauto. }
      rewrite (di_tbl _ _ D) by done. destruct (Nat.eqb_spec e (S d)) as [->|]; [|done].
      assert (prefix (S d) w ≠ prefix (S d) w') by (rewrite <- prefix_path; intros ?; apply Hn; split; [done|lia]).
      destruct (Z.ltb_spec (prefix (S d) w') (cs (S d))), (Z.ltb_spec (prefix (S d) w') (cs (S d) + 1)); (done || lia).
  - intros w' Hw'. rewrite S4. destruct (Nat.eqb_spec 4 (S d)); [lia|]. unfold s1.
    destruct (decide (path_eq (S d) w w')) as [Hp|Hn].
    + rewrite (unlink_pte_gone s roots r w t d) by done.
      specialize (Hbelow 4%nat w' ltac:(lia) Hp). by destruct (Z.ltb_spec (prefix 4 w') (cs 4%nat)); [|lia].
    + rewrite (unlink_pte_ne s roots r w t d) by (done || tauto). by apply (di_pte _ _ D).
  - intros p i Hp Hi. apply (entry_data cs s d w); [done|lia|done..].
Qed.

Lemma destroy_table_spec : dinv (bump cs (S d)) (wr_entry (with_fa s (fa_unref (fa s) u)) t (idx d w) 0).
Proof. split; [exact table_tables|exact table_frames]. Qed.
End table.

(** *** The loops

    [pos d p i]: the loop over the items of depth [d] below the item number [p]
    of depth [d - 1] is at index [i]. *)
Definition pos (d : nat) (p i : Z) : nat → Z := λ e,
  if (e <? d)%nat then p / 512 ^ (Z.of_nat d - 1 - Z.of_nat e)
  else (p * 512 + i) * 512 ^ (Z.of_nat e - Z.of_nat d).

Lemma pos_own d p i : pos d p i d = p * 512 + i.
Proof. unfold pos. rewrite Nat.ltb_irrefl, Z.sub_diag. lia. Qed.

Lemma pos_above d p i : (1 ≤ d)%nat → pos d p i (d - 1) = p.
Proof.
  intros Hd. unfold pos. destruct (Nat.ltb_spec (d - 1) d); [|lia].
  replace (_ - _ - _) with 0 by lia. apply Z.div_1_r.
Qed.

Lemma pow512_pos n : 0 ≤ n → 0 < 512 ^ n.
Proof. intros. by apply Z.pow_pos_nonneg. Qed.

(** Entering the loop below an item changes no position. *)
Lemma pos_enter d p i e : 0 ≤ i < 512 → pos d p i e = pos (S d) (p * 512 + i) 0 e.
Proof.
  intros Hi. unfold pos. destruct (Nat.ltb_spec e d), (Nat.ltb_spec e (S d)); [|lia| |].
  - replace (Z.of_nat (S d) - 1 - Z.of_nat e) with (1 + (Z.of_nat d - 1 - Z.of_nat e)) by lia.
    pose proof (pow512_pos (Z.of_nat d - 1 - Z.of_nat e) ltac:(lia)).
    rewrite Z.pow_add_r, <- Z.div_div by lia. f_equal. zlia.
  - assert (e = d) as -> by lia. replace (Z.of_nat d - Z.of_nat d) with 0 by lia.
    replace (Z.of_nat (S d) - 1 - Z.of_nat d) with 0 by lia. rewrite Z.div_1_r. lia.
  - replace (Z.of_nat e - Z.of_nat d) with (1 + (Z.of_nat e - Z.of_nat (S d))) by lia.
    rewrite Z.pow_add_r by lia. lia.
Qed.

(** Leaving it and unlinking the item moves on by one. *)
Lemma pos_leave d p i e :
  0 ≤ i < 512 → bump (pos (S d) (p * 512 + i) 512) d e = pos d p (i + 1) e.
Proof.
  intros Hi. unfold bump. destruct (Nat.eqb_spec e d) as [->|Hne].
  - replace d with (S d - 1)%nat at 2 by lia. rewrite pos_above, pos_own by lia. lia.
  - unfold pos. destruct (Nat.ltb_spec e d), (Nat.ltb_spec e (S d)); [|lia|lia|].
    + replace (Z.of_nat (S d) - 1 - Z.of_nat e) with (1 + (Z.of_nat d - 1 - Z.of_nat e)) by lia.
      pose proof (pow512_pos (Z.of_nat d - 1 - Z.of_nat e) ltac:(lia)).
      rewrite Z.pow_add_r, <- Z.div_div by lia. f_equal. zlia.
    + replace (Z.of_nat e - Z.of_nat d) with (1 + (Z.of_nat e - Z.of_nat (S d))) by lia.
      rewrite Z.pow_add_r by lia. lia.
Qed.

Lemma pos_le d p i i' e : i ≤ i' → pos d p i e ≤ pos d p i' e.
Proof.
  intros Hi. unfold pos. destruct (Nat.ltb_spec e d); [lia|].
  pose proof (pow512_pos (Z.of_nat e - Z.of_nat d) ltac:(lia)). nia.
Qed.

(** The prefix of an address below an item is below the end of the item. *)
Lemma prefix_below d e w : (d ≤ e)%nat →
  prefix d w * 512 ^ (Z.of_nat e - Z.of_nat d) ≤ prefix e w < (prefix d w + 1) * 512 ^ (Z.of_nat e - Z.of_nat d).
Proof.
  intros Hde. induction e as [|e IH].
  { replace d with 0%nat by lia. rewrite Z.sub_diag. lia. }
  destruct (decide (d = S e)) as [->|]; [rewrite Z.sub_diag; lia|].
  rewrite prefix_S. pose proof (idx_range e w).
  replace (Z.of_nat (S e) - Z.of_nat d) with (1 + (Z.of_nat e - Z.of_nat d)) by lia.
  rewrite Z.pow_add_r by lia. specialize (IH ltac:(lia)). lia.
Qed.

(** Items below a loop position belong to the item it stands on. *)
Lemma pos_range d p i e w :
  (1 ≤ d ≤ e)%nat → pos d p i e ≤ prefix e w < pos d p (i + 1) e ↔ prefix d w = p * 512 + i.
Proof.
  intros Hd. unfold pos. destruct (Nat.ltb_spec e d); [lia|]. pose proof (prefix_below d e w ltac:(lia)).
  pose proof (pow512_pos (Z.of_nat e - Z.of_nat d) ltac:(lia)).
  split; [nia|intros E; rewrite E in *; nia].
Qed.

(** An address below the item number [c] of depth [S d] of the user half. *)
Definition at_item (d : nat) (c w : Z) : Prop := is_user w ∧ prefix (S d) w = c.

Lemma item_at d c : (d ≤ 3)%nat → 0 ≤ c < 256 * 512 ^ Z.of_nat d → at_item d c (item (S d) c).
Proof.
  intros Hd Hc. assert (E : prefix (S d) (item (S d) c) = c).
  { rewrite (prefix_item (S d) c (S d)); [by rewrite Z.sub_diag, Z.div_1_r|lia|lia|].
    rewrite Nat2Z.inj_succ, Z.pow_succ_r by lia. lia. }
  split; [|done]. apply (user_prefix d). rewrite E. lia.
Qed.

Lemma at_item_idx d p i w : 0 ≤ i < 512 → at_item d (p * 512 + i) w → prefix d w = p ∧ idx d w = i.
Proof. intros Hi [_ E]. rewrite prefix_div, idx_mod, E. zlia. Qed.

(** A missing item is skipped, with everything below it. *)
Lemma skip_item d p i s w :
  (d < 3)%nat → 0 ≤ i < 512 → 0 ≤ p → at_item d (p * 512 + i) w → tbl s0 r (S d) w = None →
  dinv (pos (S d) p i) s → dinv (pos (S d) p (i + 1)) s.
Proof.
  intros Hd Hi Hp [Hu Ew] Hno D.
  assert (Hnone : ∀ e w', (S d ≤ e)%nat → prefix (S d) w' = p * 512 + i → tbl s0 r e w' = None).
  { intros e w' He Ep. induction e as [|e IH]; [lia|]. destruct (decide (e = d)) as [->|].
    - rewrite <- Hno. symmetry. apply tbl_path_eq, prefix_path. by rewrite Ep.
    - cbn [tbl]. by rewrite IH by lia. }
  pose proof (pow512_pos (Z.of_nat 4 - Z.of_nat (S d)) ltac:(lia)).
  apply (dinv_skip (pos (S d) p i)); [done|..].
  - intros e _. apply pos_le. lia.
  - intros e w' He Hw' Hrg. destruct (decide (S d ≤ e)%nat);
      [apply Hnone; [done|by apply (pos_range (S d) p i e w'); [lia|]]|].
    exfalso. unfold pos in Hrg. destruct (Nat.ltb_spec e (S d)); lia.
  - intros w' Hw' Hrg. unfold pte. rewrite Hnone; [done|lia|]. by apply (pos_range (S d) p i 4 w'); [lia|].
  - unfold pos. destruct (Nat.ltb_spec 4 (S d)); [lia|]. apply (user_prefix d) in Hu. rewrite Ew in Hu.
    assert (E3 : USER_PAGES = 256 * 512 ^ Z.of_nat d * 512 ^ (Z.of_nat 4 - Z.of_nat (S d))).
    { rewrite user_pages_val. destruct d as [|[|[|]]]; [reflexivity..|lia]. }
    rewrite E3. apply Z.mul_le_mono_nonneg_r; lia.
  - unfold pos. destruct (Nat.ltb_spec 4 (S d)); [lia|]. nia.
Qed.

(** One turn of a loop over a table of depth [d < 3]. *)
Lemma destroy_item_spec d p i s t w (child : Z → Z → vm F → vm F) :
  (d < 3)%nat → 0 ≤ i < 512 → 0 ≤ p → at_item d (p * 512 + i) w →
  (∀ ct s, tbl s r (S d) w = Some ct → dinv (pos (S (S d)) (p * 512 + i) 0) s →
     dinv (pos (S (S d)) (p * 512 + i) 512) (iter_up (child ct) 0 512 s)) →
  tbl s0 r d w = Some t → dinv (pos (S d) p i) s →
  dinv (pos (S d) p (i + 1))
    (let e := rd_entry s t i in
     if negb (has e VMM_P) then s
     else
       let s := iter_up (child (entry_table s e)) 0 512 s in
       wr_entry (free_table s (Z.land e VMM_PHYS_MASK)) t i 0).
Proof.
  intros Hd Hi Hp Hw Hchild Ht0 D. pose proof (di_ok _ _ D) as Hok. destruct (at_item_idx d p i w Hi Hw) as [Epf Ei].
  assert (Hkeep : ∀ s i', dinv (pos (S d) p i') s → tbl s r d w = Some t).
  { intros s' i' D'. destruct d as [|d]; [done|]. rewrite (di_tbl _ _ D'), Epf by (apply Hw || lia).
    replace (S d) with (S (S d) - 1)%nat at 1 by lia. rewrite pos_above by lia. by rewrite Z.ltb_irrefl. }
  assert (Hnow : ∀ s', dinv (pos (S d) p i) s' → tbl s' r (S d) w = tbl s0 r (S d) w).
  { intros s' D'. rewrite (di_tbl _ _ D') by (apply Hw || lia). rewrite pos_own, (proj2 Hw). by rewrite Z.ltb_irrefl. }
  pose proof (Hkeep s i D) as Ht. cbv zeta. destruct (has (rd_entry s t i) VMM_P) eqn:HP; cbn [negb].
  - assert (Hct : tbl s r (S d) w = Some (entry_table s (rd_entry s t i))).
    { cbn [tbl]. rewrite Ht. unfold follow. rewrite Ei, HP. cbn [negb orb]. destruct d as [|d]; [done|].
      pose proof (ok_small _ _ Hok r (S d) w t Hr ltac:(lia) (proj1 Hw) Ht) as Hs. rewrite Ei in Hs. by rewrite Hs. }
    set (ct := entry_table s (rd_entry s t i)) in *.
    assert (D1 : dinv (pos (S (S d)) (p * 512 + i) 0) s) by (eapply dinv_ext; [|exact D]; intros; by apply pos_enter).
    pose proof (Hchild ct s Hct D1) as D2. set (s2 := iter_up (child ct) 0 512 s) in *.
    assert (Ect : Z.land (rd_entry s t i) VMM_PHYS_MASK = ct - h0).
    { destruct (ok_tab _ _ Hok r (S d) w ct Hr ltac:(lia) Hct) as (Hlo & _).
      assert (Hrg : 0 ≤ Z.land (rd_entry s t i) VMM_PHYS_MASK < 2 ^ 52).
      { apply land_mask_range. apply ld64_range, Hok. }
      destruct (fa_hhdm_range _ (ok_fa _ _ Hok)) as [Hh _]. rewrite <- (di_hhdm _ _ D).
      unfold ct, entry_table, p2v, u64 in *. zlia. }
    rewrite Ect. unfold free_table. eapply (dinv_ext (bump (pos (S (S d)) (p * 512 + i) 512) (S d)));
      [intros; by apply pos_leave|].
    assert (Habove : ∀ e, (e ≤ S d)%nat → pos (S (S d)) (p * 512 + i) 512 e = pos (S d) p i e).
    { intros e He. rewrite (pos_enter (S d) p i) by done. unfold pos. by destruct (Nat.ltb_spec e (S (S d))); [|lia]. }
    assert (Hi' : wr_entry (with_fa s2 (fa_unref (fa s2) (ct - h0))) t i 0 =
                  wr_entry (with_fa s2 (fa_unref (fa s2) (ct - h0))) t (idx d w) 0) by (by rewrite Ei).
    rewrite Hi'. apply (destroy_table_spec _ s2 d w t ct); [done|done|apply Hw|..].
    + rewrite Habove, pos_own by lia. symmetry. apply Hw.
    + intros e w' He Hpe. apply prefix_path in Hpe. rewrite (proj2 Hw) in Hpe.
      pose proof (prefix_below (S d) e w' ltac:(lia)) as Hb. rewrite <- Hpe in Hb.
      unfold pos. destruct (Nat.ltb_spec e (S (S d))); [lia|].
      replace (Z.of_nat e - Z.of_nat (S d)) with (1 + (Z.of_nat e - Z.of_nat (S (S d)))) in Hb by lia.
      rewrite Z.pow_add_r in Hb by lia. lia.
    + destruct d as [|d]; [done|]. rewrite (di_tbl _ _ D2) by (apply Hw || lia). rewrite Habove by lia.
      by rewrite <- (di_tbl _ _ D) by (apply Hw || lia).
    + rewrite (di_tbl _ _ D2) by (apply Hw || lia). rewrite Habove by lia.
      by rewrite <- (di_tbl _ _ D) by (apply Hw || lia).
  - apply (skip_item d p i s w); [done|done|done|done| |done].
    rewrite <- (Hnow s D). cbn [tbl]. rewrite Ht. unfold follow. by rewrite Ei, HP.
Qed.

(** The loop over the table of an item clears everything below it. *)
Definition clears (d : nat) (child : Z → Z → vm F → vm F) : Prop := ∀ c w ct s,
  at_item d c w → 0 ≤ c → tbl s r (S d) w = Some ct → dinv (pos (S (S d)) c 0) s →
  dinv (pos (S (S d)) c 512) (iter_up (child ct) 0 512 s).

Lemma user_child d p i : (d ≤ 3)%nat → 0 ≤ i < 512 → 0 ≤ p → p < 256 * 512 ^ Z.of_nat d →
  0 ≤ p * 512 + i < 256 * 512 ^ Z.of_nat (S d).
Proof. intros. rewrite Nat2Z.inj_succ, Z.pow_succ_r by lia. lia. Qed.

Lemma clear_pt : clears 2 destroy_pte.
Proof.
  intros c w pt s [Hu Ec] Hc Ht D.
  assert (Ht0 : tbl s0 r 3 w = Some pt) by exact (di_sub _ s r 3 w pt D Hr (le_n 3) Ht).
  apply (iter_up_ind (λ i s, dinv (pos 4 c i) s) (destroy_pte pt) 0 512 s D). intros i s' Hi D'.
  assert (Hcu : 0 ≤ c * 512 + i < 256 * 512 ^ Z.of_nat 3).
  { apply (user_child 2); [lia|lia|done|]. rewrite <- Ec. by apply (user_prefix 2). }
  pose proof (item_at 3 (c * 512 + i) (le_n 3) Hcu) as Hw. set (w' := item 4 (c * 512 + i)) in *.
  destruct (at_item_idx 3 c i w' ltac:(lia) Hw) as [Ep Ei].
  apply (dinv_ext (bump (pos 4 c i) 4)).
  - intros e He. unfold bump, pos. destruct (Nat.eqb_spec e 4) as [->|]; [cbn; lia|].
    by destruct (Nat.ltb_spec e 4); [|lia].
  - rewrite <- Ei at 2. apply (destroy_pte_spec (pos 4 c i)); [done|apply Hw|rewrite pos_own; symmetry; apply Hw|].
    rewrite (di_tbl _ _ D') by (apply Hw || lia). rewrite Ep. change 3%nat with (4 - 1)%nat at 1.
    rewrite pos_above, Z.ltb_irrefl by lia. rewrite <- Ht0. apply tbl_path_eq, prefix_path. by rewrite Ep.
Qed.

Lemma clear_loop d p n wp t s (child body : Z → Z → vm F → vm F) :
  (d < 3)%nat → clears d child →
  (∀ t i s, body t i s =
     let e := rd_entry s t i in
     if negb (has e VMM_P) then s
     else let s := iter_up (child (entry_table s e)) 0 512 s in
          wr_entry (free_table s (Z.land e VMM_PHYS_MASK)) t i 0) →
  0 ≤ p → prefix d wp = p → is_user wp → Z.of_nat n ≤ 512 → p * 512 + Z.of_nat n ≤ 256 * 512 ^ Z.of_nat d →
  tbl s0 r d wp = Some t → dinv (pos (S d) p 0) s →
  dinv (pos (S d) p (Z.of_nat n)) (iter_up (body t) 0 n s).
Proof.
  intros Hd Hc Hb Hp Ep Hwp Hn Hmax Ht D.
  apply (iter_up_ind (λ i s, dinv (pos (S d) p i) s) (body t) 0 n s D). intros i s' Hi D'. rewrite Hb.
  pose proof (item_at d (p * 512 + i) ltac:(lia) ltac:(lia)) as Hw.
  destruct (at_item_idx d p i _ ltac:(lia) Hw) as [Ep' _].
  apply (destroy_item_spec d p i s' t (item (S d) (p * 512 + i))); [done|lia|done|done| | |done].
  - intros ct s1 Hct. apply (Hc _ (item (S d) (p * 512 + i))); [done|lia|done].
  - rewrite <- Ht. apply tbl_path_eq, prefix_path. by rewrite Ep'.
Qed.

(** The loops of the three upper levels, from the inside out. *)
Lemma clears_up d child body :
  (S d < 3)%nat → clears (S d) child →
  (∀ t i s, body t i s =
     let e := rd_entry s t i in
     if negb (has e VMM_P) then s
     else let s := iter_up (child (entry_table s e)) 0 512 s in
          wr_entry (free_table s (Z.land e VMM_PHYS_MASK)) t i 0) →
  clears d body.
Proof.
  intros Hd Hc Hb c w ct s [Hu Ec] H0 Ht D.
  apply (clear_loop (S d) c 512 w ct s child body); [done|done|done|done|done|done|lia| | |done].
  - apply (user_prefix d) in Hu. rewrite Ec in Hu. rewrite (Nat2Z.inj_succ d), Z.pow_succ_r by lia. lia.
  - exact (di_sub _ s r (S d) w ct D Hr ltac:(lia) Ht).
Qed.

Lemma dinv_init : dinv (pos 1 0 0) s0.
Proof.
  assert (Hz : ∀ d, (1 ≤ d)%nat → pos 1 0 0 d = 0).
  { intros d Hd. unfold pos. destruct (Nat.ltb_spec d 1); [lia|]. lia. }
  assert (Hm : ∀ u, maps s0 r (pos 1 0 0 4) u = 0) by (intros u; rewrite Hz by lia; apply maps_0).
  assert (Hlt : ∀ d w, (1 ≤ d)%nat → (prefix d w <? pos 1 0 0 d) = false).
  { intros d w Hd. rewrite Hz by done. pose proof (prefix_nonneg d w). apply Z.ltb_ge. lia. }
  split; constructor; [done|done|done|done|done| | |done| | |].
  - intros d w Hd _. by rewrite Hlt by lia.
  - intros w _. by rewrite Hlt by lia.
  - intros u _ _ _. rewrite Hm. lia.
  - intros u d w (Hd & Hw & Et). rewrite Hlt by lia.
    destruct (uo_table _ _ _ Hown d w _ ltac:(lia) Hw Et) as [_ Hrc].
    by replace (u + h0 - h0) with u in Hrc by lia.
  - intros u. rewrite Hm. split; [by left|]. intros [?|[[? _]|(d & w & Ht & Hp)]]; [done|lia|].
    destruct Ht as [? _]. rewrite Hz in Hp by lia. pose proof (prefix_nonneg d w). lia.
Qed.

Lemma destroy_dinv : dinv (pos 1 0 256) (vmm_destroy_user s0 r).
Proof.
  assert (C0 : clears 0 destroy_pdpte).
  { apply (clears_up 0 destroy_pde); [lia|apply (clears_up 1 destroy_pte); [lia|apply clear_pt|done]|done]. }
  assert (E : 256 = Z.of_nat (Z.to_nat KERNEL_PML4_START)) by reflexivity.
  unfold vmm_destroy_user. rewrite E at 1. revert E. generalize (Z.to_nat KERNEL_PML4_START). intros n E.
  apply (clear_loop 0 0 n 0 r s0 destroy_pdpte destroy_pml4e);
    [lia|exact C0|reflexivity|lia|reflexivity|reflexivity|lia|cbn; lia|reflexivity|exact dinv_init].
Qed.
End destroy.

Section spec.
Context {F : Type} `{FA : FrameAlloc F} `{FL : !FrameAllocLaws F}.
Implicit Types s : vm F.

(** The result of [vmm_destroy_user], for its callers. *)
Record destroyed (roots : list Z) (r : Z) s s' : Prop := {
  ds_ok : vm_ok s' roots;
  ds_hhdm : fa_hhdm (fa s') = fa_hhdm (fa s);
  ds_kpml4 : kernel_pml4_virt s' = kernel_pml4_virt s;
  ds_empty : ∀ d w, (1 ≤ d ≤ 3)%nat → is_user w → tbl s' r d w = None;
  ds_other : ∀ r' d w, r' ∈ roots → (d ≤ 3)%nat → r' ≠ r ∨ ¬ is_user w → tbl s' r' d w = tbl s r' d w;
  ds_pte : ∀ r' w, r' ∈ roots → r' ≠ r ∨ ¬ is_user w → pte s' r' w = pte s r' w;
  ds_data : ∀ p i, data_page s roots p → 0 ≤ i < PAGE_SIZE → vmem s' (p + i) = vmem s (p + i);
  ds_refs : ∀ u, page_aligned u → 0 ≤ u → (∀ d w, ¬ table_frame s r u d w) →
    fa_refcount (fa s') u = fa_refcount (fa s) u - maps s r USER_PAGES u;
  ds_free : ∀ u, fa_free (fa s') u ↔
    fa_free (fa s) u ∨
    (0 < maps s r USER_PAGES u ∧ fa_refcount (fa s) u = maps s r USER_PAGES u) ∨
    ∃ d w, table_frame s r u d w;
}.

Lemma destroy_lemma s roots r :
  vm_ok s roots → r ∈ roots → user_owned s roots r → destroyed roots r s (vmm_destroy_user s r).
Proof.
  intros Hok Hr Hown. pose proof (destroy_dinv s roots r Hok Hr Hown) as D.
  assert (E4 : pos 1 0 256 4 = USER_PAGES) by (by rewrite user_pages_val).
  assert (Hall : ∀ d w, (1 ≤ d ≤ 4)%nat → is_user w → prefix d w < pos 1 0 256 d).
  { intros d w Hd Hw. destruct d as [|d]; [lia|]. apply (user_prefix d) in Hw. unfold pos.
    destruct (Nat.ltb_spec (S d) 1); [lia|]. replace (Z.of_nat (S d) - Z.of_nat 1) with (Z.of_nat d) by lia. lia. }
  constructor; [exact (di_ok _ _ _ _ _ D)|exact (di_hhdm _ _ _ _ _ D)|exact (di_kpml4 _ _ _ _ _ D)| |
    exact (di_other _ _ _ _ _ D)|exact (di_other_pte _ _ _ _ _ D)|exact (di_data _ _ _ _ _ D)| |].
  - intros d w Hd Hw. rewrite (di_tbl _ _ _ _ _ D) by done. specialize (Hall d w ltac:(lia) Hw).
    by destruct (Z.ltb_spec (prefix d w) (pos 1 0 256 d)); [|lia].
  - intros u Ha Hu Hn. rewrite (di_refs _ _ _ _ D) by done. by rewrite E4.
  - intros u. rewrite (di_free _ _ _ _ D), E4. do 2 f_equiv. split; [by intros (d & w & ? & _); exists d, w|].
    intros (d & w & Ht). exists d, w. split; [done|]. destruct Ht as (? & ? & _). apply Hall; [lia|done].
Qed.

(** C18: tearing an address space down releases exactly what it owns.  When the
    pages of the user half of [r] hold a reference each and its tables one each,
    [vmm_destroy_user] leaves no user mapping and no user table in [r], and
    changes no table, entry or translation of any other address space, nor a
    byte of a data page.  Every frame loses as many references as the space had
    pages mapping it; a frame becomes free if and only if those were all its
    references or it was one of the page tables, so nothing leaks and no frame
    another space still refers to is freed. *)
Theorem vmm_destroy_user_spec s roots r :
  vm_ok s roots → r ∈ roots → user_owned s roots r →
  let s' := vmm_destroy_user s r in
  vm_ok s' roots ∧
  (∀ w, is_user w → pte s' r w = 0 ∧ vmm_virt_to_phys s' r w = 0) ∧
  (∀ r' w, r' ∈ roots → r' ≠ r ∨ ¬ is_user w →
     pte s' r' w = pte s r' w ∧ (is_user w → vmm_virt_to_phys s' r' w = vmm_virt_to_phys s r' w)) ∧
  (∀ p i, data_page s roots p → 0 ≤ i < PAGE_SIZE → vmem s' (p + i) = vmem s (p + i)) ∧
  (∀ u, page_aligned u → 0 ≤ u → (∀ d w, ¬ table_frame s r u d w) →
     fa_refcount (fa s') u = fa_refcount (fa s) u - maps s r USER_PAGES u) ∧
  (∀ u, fa_free (fa s') u ↔
     fa_free (fa s) u ∨
     (0 < maps s r USER_PAGES u ∧ fa_refcount (fa s) u = maps s r USER_PAGES u) ∨
     ∃ d w, table_frame s r u d w).
Proof.
  intros Hok Hr Hown. cbv zeta. pose proof (destroy_lemma s roots r Hok Hr Hown) as D. revert D.
  generalize (vmm_destroy_user s r). intros s' D.
  assert (Hn : ∀ w, is_user w → tbl s' r 3 w = None) by (intros; apply (ds_empty _ _ _ _ D); [lia|done]).
  split; [exact (ds_ok _ _ _ _ D)|]. split; [|split; [|split; [exact (ds_data _ _ _ _ D)|
    split; [exact (ds_refs _ _ _ _ D)|exact (ds_free _ _ _ _ D)]]]].
  - intros w Hw. rewrite (virt_to_phys_user s' roots r w (ds_ok _ _ _ _ D) Hr Hw). unfold pte. by rewrite Hn.
  - intros r' w Hr' Hor. pose proof (ds_pte _ _ _ _ D r' w Hr' Hor) as E. split; [done|]. intros Hw.
    rewrite (virt_to_phys_user s' roots r' w (ds_ok _ _ _ _ D) Hr' Hw), (virt_to_phys_user s roots r' w Hok Hr' Hw).
    unfold pte in E. rewrite (ds_other _ _ _ _ D r' 3 w) in * by (done || lia). destruct (tbl s r' 3 w); [by rewrite E|done].
Qed.

(** *** Owning what one maps *)

(** An empty user half owns nothing. *)
Lemma owned_empty s roots r :
  (∀ d w, (1 ≤ d ≤ 3)%nat → is_user w → tbl s r d w = None) → user_owned s roots r.
Proof.
  intros Hn. assert (Hp : ∀ w, is_user w → pte s r w = 0) by (intros w Hw; unfold pte; by rewrite Hn by (done || lia)).
  constructor.
  - intros w Hw. by rewrite Hp.
  - intros u Hu. exfalso. apply maps_some in Hu as (m & Hm & Hu). unfold maps_page in Hu. by rewrite Hp in Hu by by apply pva_user.
  - intros d w t Hd Hw. by rewrite Hn by (done || lia).
Qed.

(** Mapping an absent page to a frame with a reference to spare. *)
Lemma owned_map s roots r v paddr flags s' :
  vm_ok s roots → r ∈ roots → HIGHER_HALF ≤ r → is_user v →
  page_aligned paddr → LOW_FRAMES * PAGE_SIZE ≤ paddr < 2 ^ 52 →
  0 ≤ flags < 2 ^ 64 → Z.land flags VMM_PHYS_MASK = 0 →
  has (pte s r v) VMM_P = false → data_page s roots (p2v s paddr) →
  maps s r USER_PAGES paddr < fa_refcount (fa s) paddr →
  user_owned s roots r → vmm_map_page s r v paddr flags = (true, s') → user_owned s' roots r.
Proof.
  intros Hok Hr Hhi Hu Hal Hpa Hfl Hfm HP Hdat Hrc [O1 O2 O3] E.
  pose proof (map_data_page s roots r v paddr flags) as Hmd.
  pose proof (map_page_spec s roots r v paddr flags Hok Hr Hu Hhi ltac:(unfold LOW_FRAMES, PAGE_SIZE in *; lia) Hfl) as M.
  cbv zeta in M. rewrite E in M, Hmd. cbn [snd] in Hmd. clear E. destruct M as (s1 & t & G & Ht & -> & Hx).
  specialize (λ p, Hmd p Hok Hr Hhi Hu ltac:(unfold LOW_FRAMES, PAGE_SIZE in *; lia) Hfl).
  set (x := Z.lor _ _) in *. set (s' := wr_entry _ _ _ _) in *. pose proof (gr_ok _ _ _ G) as Hok1.
  assert (Ex : Z.land x VMM_PHYS_MASK = paddr).
  { unfold x. rewrite land_mask_lor.
    - rewrite <- Z.land_assoc, Z.land_diag. apply land_mask_frame; [done|unfold LOW_FRAMES, PAGE_SIZE in *; lia].
    - rewrite Z.land_lor_distr_l, Hfm. reflexivity. }
  assert (HxP : has x VMM_P = true) by (unfold x; flag_bits; by rewrite !orb_true_r).
  assert (Hh : fa_hhdm (fa s') = fa_hhdm (fa s)) by apply (gr_hhdm _ _ _ G).
  assert (Hp2v : ∀ q, p2v s' q = p2v s q) by (intros q; unfold p2v; by rewrite Hh).
  assert (Hpte : ∀ w, pte s' r w = if decide (path_eq 4 v w) then x else pte s r w).
  { intros w. destruct (decide (path_eq 4 v w)); [by exact (leaf_pte_eq s1 roots r v t x Hok1 Hr Hu Ht Hx w p)|].
    unfold s'. rewrite (leaf_pte_ne s1 roots r v t x Hok1 Hr Hu Ht Hx r w Hr) by tauto. by apply (gr_pte _ _ _ G). }
  assert (Hfr : ∀ w, is_user w → has (pte s' r w) VMM_P = true →
     data_page s roots (p2v s (frame_of s' r w)) ∧ LOW_FRAMES * PAGE_SIZE ≤ frame_of s' r w).
  { intros w Hw. unfold frame_of. rewrite Hpte. destruct (decide (path_eq 4 v w)); [|by apply O1].
    rewrite Ex. intros _. split; [done|apply Hpa]. }
  constructor.
  - intros w Hw Hp. destruct (Hfr w Hw Hp) as [Hd Hlo]. rewrite Hp2v. split; [by apply Hmd|done].
  - intros u Hmu. apply maps_some in Hmu as Hm. destruct Hm as (m & Hm & Hmp).
    unfold maps_page in Hmp. apply andb_true_iff in Hmp as [Hmp Hmu']. apply Z.eqb_eq in Hmu'.
    destruct (pva_user m Hm) as [Hum _]. destruct (Hfr _ Hum Hmp) as [Hd Hlo]. unfold frame_of in Hd, Hlo.
    rewrite Hmu' in Hd, Hlo.
    assert (Hu52 : 0 ≤ u < 2 ^ 52).
    { rewrite <- Hmu'. apply (frame_of_range s' r (pva m)). apply st64_bytes, Hok1. }
    assert (Hua : page_aligned u) by (rewrite <- Hmu'; apply land_mask_aligned).
    rewrite (data_p2v s roots u (ok_fa _ _ Hok) Hu52 Hd) in Hd. destruct Hd as (_ & _ & Hnf & _).
    replace (u + fa_hhdm (fa s) - fa_hhdm (fa s)) with u in Hnf by lia.
    change (fa s') with (fa s1). rewrite (gr_refs _ _ _ G u Hua (proj1 Hu52) Hnf).
    rewrite (maps_upd s s' r USER_PAGES (prefix 4 v)) in *.
    2,4: split; [apply prefix_nonneg|by apply user_pages_prefix].
    2,3: intros m' Hm' Hne; rewrite Hpte; destruct (decide (path_eq 4 v (pva m'))) as [Hp|]; [|done];
         apply prefix_path in Hp; destruct (pva_user m' Hm') as [_ E']; congruence.
    unfold maps_page in *. rewrite <- !pte_pva in *. rewrite HP in *. rewrite Hpte in *.
    destruct (decide (path_eq 4 v v)) as [_|[]]; [|apply path_eq_refl]. rewrite HxP, Ex in *. cbn [andb] in *.
    destruct (Z.eqb_spec paddr u) as [->|]; [lia|]. specialize (O2 u). lia.
  - intros d w t' Hd Hw Et. change (fa s') with (fa s1) in *. rewrite (gr_hhdm _ _ _ G).
    unfold s' in Et. rewrite (leaf_tbl s1 roots r v) in Et by (done || lia).
    destruct (gr_new _ _ _ G r d w t' Hr ltac:(lia) Et) as [Eo|[Hf Hrc1]].
    + destruct (O3 d w t' Hd Hw Eo) as [Hlo Hr1]. split; [done|].
      destruct (ok_tab _ _ Hok r d w t' Hr ltac:(lia) Eo) as (? & _ & Hta & Hnf).
      destruct (fa_hhdm_range _ (ok_fa _ _ Hok)) as [_ Hha].
      rewrite (gr_refs _ _ _ G); [done|unfold page_aligned, PAGE_SIZE in *; zlia|lia|done].
    + split; [|done]. by destruct (fa_free_frame _ _ (ok_fa _ _ Hok) Hf).
Qed.
End spec.

(** ** Destroying the space of a shared page *)

Module DestroyDemo.
Import VmmDemo FaultDemo.

Lemma before_empty d w : (1 ≤ d ≤ 3)%nat → is_user w → tbl before root d w = None.
Proof.
  intros Hd _. destruct (tbl before root d w) as [t|] eqn:E; [|done]. apply zero_tbl in E as [-> _]. lia.
Qed.

Lemma before_absent w : is_user w → pte before root w = 0.
Proof. intros Hw. unfold pte. by rewrite before_empty by (done || lia). Qed.

Lemma before_maps u : maps before root USER_PAGES u = 0.
Proof.
  pose proof (maps_bounds before root USER_PAGES USER_PAGES u ltac:(lia)) as Hb.
  destruct (decide (0 < maps before root USER_PAGES u)) as [Hm|]; [|lia].
  apply maps_some in Hm as (m & Hm & E). unfold maps_page in E.
  by rewrite before_absent in E by by apply pva_user.
Qed.

Lemma shared_eq : vmm_map_page before root PAGE_VA PAGE_PA COW_FLAGS = (true, shared).
Proof. rewrite <- shared_maps. apply surjective_pairing. Qed.

Lemma page_pa_low : LOW_FRAMES * PAGE_SIZE ≤ PAGE_PA < 2 ^ 52.
Proof. done. Qed.

Lemma absent_page : has (pte before root PAGE_VA) VMM_P = false.
Proof. rewrite before_absent; [done|exact page_user]. Qed.

Lemma spare_reference : maps before root USER_PAGES PAGE_PA < fa_refcount (fa before) PAGE_PA.
Proof. rewrite before_maps. change (fa_refcount (fa before) PAGE_PA) with (pmm_refcount shared_pmm PAGE_PA). by rewrite shared_refs. Qed.

Lemma before_page : data_page before [root] (p2v before PAGE_PA).
Proof. unfold before. rewrite page_va_phys by exact shared_hhdm. exact before_data. Qed.

Lemma shared_owned : user_owned shared [root] root.
Proof.
  eapply (owned_map before [root] root PAGE_VA PAGE_PA COW_FLAGS).
  - exact before_ok.
  - exact root_in.
  - exact root_high.
  - exact page_user.
  - reflexivity.
  - exact page_pa_low.
  - exact cow_flags_range.
  - reflexivity.
  - exact absent_page.
  - exact before_page.
  - exact spare_reference.
  - apply owned_empty. exact before_empty.
  - exact shared_eq.
Qed.

Lemma vmm_destroy_user_spec_witness :
  vm_ok (vmm_destroy_user shared root) [root] ∧ pte (vmm_destroy_user shared root) root PAGE_VA = 0.
Proof.
  destruct (vmm_destroy_user_spec shared [root] root (proj1 shared_ready) root_in shared_owned) as (H1 & H2 & _).
  split; [exact H1|]. exact (proj1 (H2 PAGE_VA page_user)).
Defined.
End DestroyDemo.
