(* ===== verification/VmmClone.v ===== *)
(** * Cloning an address space copy-on-write

    [vmm_clone_user] of [kernel/memory/vmm.c], the memory half of [fork]: the
    copy maps the same frames, private writable pages become copy-on-write on
    both sides, and every frame gains one reference per page. *)

From S2P Require Import Prelude Mem CString Block Pmm Frames Vmm VmmProofs VmmSpec Fault VmmWalk VmmDestroy.

(** ** The address the loops compute *)

(** The address built from the indices of [w] is the first of its page. *)
Lemma loop_vaddr w :
  Z.lor (Z.lor (Z.lor (Z.shiftl (PML4_IDX w) 39) (Z.shiftl (PDPT_IDX w) 30)) (Z.shiftl (PD_IDX w) 21))
    (Z.shiftl (PT_IDX w) 12) = pva (prefix 4 w).
Proof.
  pose proof (idx_range 0 w) as H0. pose proof (idx_range 1 w) as H1. pose proof (idx_range 2 w) as H2.
  pose proof (idx_range 3 w) as H3. rewrite !prefix_S. change (prefix 0 w) with 0. cbn [idx] in *.
  generalize dependent (PML4_IDX w). generalize dependent (PDPT_IDX w). generalize dependent (PD_IDX w).
  generalize dependent (PT_IDX w). intros l Hl k Hk j Hj i Hi.
  change 39 with (9 + 30). rewrite <- Z.shiftl_shiftl by lia. rewrite <- Z.shiftl_lor, (lor_low i j 9) by lia.
  change 30 with (9 + 21). rewrite <- Z.shiftl_shiftl by lia. rewrite <- Z.shiftl_lor, (lor_low (i * 2 ^ 9 + j) k 9) by lia.
  change 21 with (9 + 12). rewrite <- Z.shiftl_shiftl by lia. rewrite <- Z.shiftl_lor, (lor_low ((i * 2 ^ 9 + j) * 2 ^ 9 + k) l 9) by lia.
  rewrite Z.shiftl_mul_pow2 by lia. unfold pva, PAGE_SIZE. lia.
Qed.

(** ** The two entries a shared page gets *)

Definition src_entry (e : Z) : Z :=
  if has e VMM_P && (clone_flags e).2 then Z.lor (Z.land e (Z.lnot VMM_RW)) VMM_COW else e.
Definition dst_entry (e : Z) : Z :=
  if has e VMM_P then Z.lor (Z.land (Z.land e VMM_PHYS_MASK) VMM_PHYS_MASK) (Z.lor (clone_flags e).1 VMM_P) else 0.

(** Sharing a page whose entry was [e]: the source keeps [e1], the copy has
    [e2].  A private writable page is read-only and copy-on-write on both sides;
    any other page keeps its permissions on both sides. *)
Record shares (e e1 e2 : Z) : Prop := {
  sh_frame1 : Z.land e1 VMM_PHYS_MASK = Z.land e VMM_PHYS_MASK;
  sh_frame2 : Z.land e2 VMM_PHYS_MASK = Z.land e VMM_PHYS_MASK;
  sh_present : has e1 VMM_P = true ∧ has e2 VMM_P = true;
  sh_user : has e1 VMM_U = has e VMM_U ∧ has e2 VMM_U = has e VMM_U;
  sh_nx : has e1 VMM_NX = has e VMM_NX ∧ has e2 VMM_NX = has e VMM_NX;
  sh_perm :
    if has e VMM_RW && negb (has e VMM_SHARED)
    then has e1 VMM_RW = false ∧ has e1 VMM_COW = true ∧ has e2 VMM_RW = false ∧ has e2 VMM_COW = true
    else e1 = e ∧ has e2 VMM_RW = has e VMM_RW ∧ has e2 VMM_COW = has e VMM_COW;
}.

Lemma has_U e : has e VMM_U = Z.testbit e 2.
Proof. exact (has_testbit e 2 ltac:(lia)). Qed.
Lemma has_NX e : has e VMM_NX = Z.testbit e 63.
Proof. exact (has_testbit e 63 ltac:(lia)). Qed.

Lemma clone_flags_range e : 0 ≤ e < 2 ^ 64 → 0 ≤ (clone_flags e).1 < 2 ^ 64 ∧ Z.land (clone_flags e).1 VMM_PHYS_MASK = 0.
Proof.
  intros He. assert (H1 : 0 ≤ Z.land e CLONE_FLAGS < 2 ^ 64) by (apply land_range; lia).
  assert (H2 : Z.land (Z.land e CLONE_FLAGS) VMM_PHYS_MASK = 0) by (rewrite <- Z.land_assoc; apply Z.land_0_r).
  unfold clone_flags. case_if; cbn [fst]; [|done]. split.
  - apply lor_range; [lia| |split; [done|reflexivity]]. apply land_range; lia.
  - rewrite land_mask_lor by reflexivity. rewrite <- Z.land_assoc, (Z.land_comm (Z.lnot _)), Z.land_assoc, H2. done.
Qed.

Lemma shared_cond e :
  (clone_flags e).2 = has e VMM_RW && negb (has e VMM_SHARED) ∧
  (clone_flags e).1 = if has e VMM_RW && negb (has e VMM_SHARED)
    then Z.lor (Z.land (Z.land e CLONE_FLAGS) (Z.lnot VMM_RW)) VMM_COW else Z.land e CLONE_FLAGS.
Proof.
  assert (E1 : has (Z.land e CLONE_FLAGS) VMM_SHARED = has e VMM_SHARED).
  { rewrite !has_SHARED, Z.land_spec. change (Z.testbit CLONE_FLAGS 10) with true. apply andb_true_r. }
  assert (E2 : has (Z.land e CLONE_FLAGS) VMM_RW = has e VMM_RW).
  { rewrite !has_RW, Z.land_spec. change (Z.testbit CLONE_FLAGS 1) with true. apply andb_true_r. }
  unfold clone_flags. rewrite E1, E2. by destruct (has e VMM_SHARED), (has e VMM_RW).
Qed.

Lemma land_mask_land e m :
  Z.land (Z.land e m) VMM_PHYS_MASK = Z.land (Z.land e VMM_PHYS_MASK) m.
Proof. by rewrite <- !Z.land_assoc, (Z.land_comm m). Qed.

Lemma land_mask_lnot e : Z.land (Z.land e (Z.lnot VMM_RW)) VMM_PHYS_MASK = Z.land e VMM_PHYS_MASK.
Proof. rewrite <- Z.land_assoc. f_equal. Qed.

Lemma mask_bit e n : 0 ≤ n → n < 12 ∨ 52 ≤ n → Z.testbit (Z.land e VMM_PHYS_MASK) n = false.
Proof.
  intros Hn Ho. rewrite Z.land_spec, mask_testbit by done.
  destruct (Z.leb_spec 12 n), (Z.ltb_spec n 52); simpl; (by rewrite ?andb_false_r || lia).
Qed.

Lemma src_entry_range e : 0 ≤ e < 2 ^ 64 → 0 ≤ src_entry e < 2 ^ 64.
Proof.
  intros He. unfold src_entry. case_if; [|done]. apply lor_range; [lia| |split; [done|reflexivity]].
  apply land_range; lia.
Qed.

Lemma entries_share e : 0 ≤ e < 2 ^ 64 → has e VMM_P = true → shares e (src_entry e) (dst_entry e).
Proof.
  intros He HP. destruct (shared_cond e) as [E2 E1]. destruct (clone_flags_range e He) as [_ Hm].
  assert (Hm' : Z.land (Z.lor (clone_flags e).1 VMM_P) VMM_PHYS_MASK = 0) by (rewrite Z.land_lor_distr_l, Hm; done).
  unfold src_entry, dst_entry. rewrite HP, E2. cbn [andb].
  assert (Hb : ∀ n, 0 ≤ n → n < 12 ∨ 52 ≤ n →
     Z.testbit (Z.lor (Z.land (Z.land e VMM_PHYS_MASK) VMM_PHYS_MASK) (Z.lor (clone_flags e).1 VMM_P)) n =
     Z.testbit (clone_flags e).1 n || Z.testbit VMM_P n).
  { intros n Hn Ho. rewrite !Z.lor_spec, mask_bit by done. done. }
  constructor; rewrite ?has_U, ?has_NX, ?has_RW, ?has_COW, ?has_P, ?Hb by lia.
  - case_if; [|done]. rewrite land_mask_lor by reflexivity. apply land_mask_lnot.
  - rewrite land_mask_lor by done. by rewrite <- !Z.land_assoc, !Z.land_diag.
  - rewrite has_P in HP. split; [|by rewrite orb_true_r]. case_if; [|done]. by rewrite Z.lor_spec, Z.land_spec, HP.
  - rewrite E1. split; case_if; rewrite ?Z.lor_spec, ?Z.land_spec; cbn;
      rewrite ?andb_true_r, ?orb_false_r; done.
  - rewrite E1. split; case_if; rewrite ?Z.lor_spec, ?Z.land_spec; cbn;
      rewrite ?andb_true_r, ?orb_false_r; done.
  - rewrite <- has_RW. destruct (has e VMM_RW && negb (has e VMM_SHARED)).
    + rewrite E1. split_and!; rewrite ?Z.lor_spec, ?Z.land_spec; cbn; rewrite ?andb_false_r, ?orb_true_r; done.
    + rewrite E1. split; [done|]. split; rewrite ?Z.lor_spec, ?Z.land_spec, ?has_RW; cbn;
        rewrite ?andb_true_r, ?orb_false_r; done.
Qed.

(** ** The loop invariant *)

Section clone.
Context {F : Type} `{FA : FrameAlloc F} `{FL : !FrameAllocLaws F}.
Implicit Types s : vm F.

(** What the source space must offer: its pages map referenced data frames, and
    no reference count overflows. *)
Record cloneable s (roots : list Z) (r : Z) : Prop := {
  cl_frame : ∀ w, is_user w → has (pte s r w) VMM_P = true →
    data_page s roots (p2v s (frame_of s r w)) ∧ LOW_FRAMES * PAGE_SIZE ≤ frame_of s r w ∧
    0 < fa_refcount (fa s) (frame_of s r w);
  cl_sat : ∀ u, 0 < maps s r USER_PAGES u → fa_refcount (fa s) u + maps s r USER_PAGES u ≤ REF_MAX;
}.

Context (s0 : vm F) (roots : list Z) (r dst : Z).
#[local] Abbreviation all := (dst :: roots).
#[local] Abbreviation h0 := (fa_hhdm (fa s0)).
Hypothesis Hok0 : vm_ok s0 all.
Hypothesis Hr : r ∈ roots.
Hypothesis Hdst : dst ∉ roots.
Hypothesis Hhi : HIGHER_HALF ≤ dst.
Hypothesis Hempty : ∀ d w, (1 ≤ d ≤ 3)%nat → is_user w → tbl s0 dst d w = None.
Hypothesis Hcl : cloneable s0 all r.

(** The source entries of the first [a] pages are rewritten, the first [b] pages
    are mapped in the copy, and the first [c] pages have their reference. *)
Record cinv (a b c : Z) s : Prop := {
  ci_ok : vm_ok s all;
  ci_hhdm : fa_hhdm (fa s) = h0;
  ci_kpml4 : kernel_pml4_virt s = kernel_pml4_virt s0;
  ci_tbl : ∀ r' d w, r' ∈ roots → (d ≤ 3)%nat → tbl s r' d w = tbl s0 r' d w;
  ci_other : ∀ r' w, r' ∈ roots → r' ≠ r ∨ ¬ is_user w → pte s r' w = pte s0 r' w;
  ci_kern : ∀ w, ¬ is_user w → pte s dst w = pte s0 dst w;
  ci_src : ∀ w, is_user w → pte s r w = if prefix 4 w <? a then src_entry (pte s0 r w) else pte s0 r w;
  ci_dst : ∀ w, is_user w → pte s dst w = if prefix 4 w <? b then dst_entry (pte s0 r w) else 0;
  ci_new : ∀ d w t, (1 ≤ d ≤ 3)%nat → is_user w → tbl s dst d w = Some t →
    fa_free (fa s0) (t - h0) ∧ fa_refcount (fa s) (t - h0) = 1;
  ci_free : ∀ u, fa_free (fa s) u → fa_free (fa s0) u;
  ci_alloc : ∀ u, fa_free (fa s0) u → fa_free (fa s) u ∨ ∃ d w, table_frame s dst u d w;
  ci_refs : ∀ u, page_aligned u → 0 ≤ u → ¬ fa_free (fa s0) u →
    fa_refcount (fa s) u = fa_refcount (fa s0) u + maps s0 r c u;
  ci_page : ∀ p, data_page s0 all p → data_page s all p;
  ci_data : ∀ p i, data_page s0 all p → 0 ≤ i < PAGE_SIZE → vmem s (p + i) = vmem s0 (p + i);
}.

Lemma r_all : r ∈ all.
Proof. set_solver. Qed.
Lemma dst_all : dst ∈ all.
Proof. set_solver. Qed.
Lemma r_dst : r ≠ dst.
Proof. intros ->. done. Qed.

(** The frame of a present page of the source. *)
Lemma src_frame w :
  is_user w → has (pte s0 r w) VMM_P = true →
  let u := frame_of s0 r w in
  page_aligned u ∧ LOW_FRAMES * PAGE_SIZE ≤ u < 2 ^ 52 ∧ 0 ≤ u ∧ data_page s0 all (u + h0) ∧
  ¬ fa_free (fa s0) u ∧ 0 < fa_refcount (fa s0) u.
Proof.
  intros Hu HP u. destruct (cl_frame _ _ _ Hcl w Hu HP) as (Hd & Hlo & Hrc). fold u in Hd, Hlo, Hrc.
  destruct (frame_of_range s0 r w (ok_bytes _ _ Hok0)) as [Hrg Hal]. fold u in Hrg, Hal.
  rewrite (data_p2v s0 all u (ok_fa _ _ Hok0) Hrg Hd) in Hd.
  split_and!; [done|done|lia|lia|done| |done]. destruct Hd as (_ & _ & Hnf & _).
  by replace (u + h0 - h0) with u in Hnf by lia.
Qed.

(** Growing the tables of the copy. *)
Lemma cinv_grow a b c s s' : cinv a b c s → linked all dst s s' → cinv a b c s'.
Proof.
  intros C L. pose proof (gr_hhdm _ _ _ L) as Hh. pose proof (ci_hhdm _ _ _ _ C) as Hh0.
  assert (Hin : ∀ r', r' ∈ roots → r' ∈ all ∧ r' ≠ dst) by (intros r' ?; split; [set_solver|intros ->; done]).
  constructor.
  - apply L.
  - by rewrite Hh.
  - rewrite (gr_kpml4 _ _ _ L). apply C.
  - intros r' d w Hr' Hd. destruct (Hin r' Hr') as [? ?]. rewrite (li_other _ _ _ _ L) by done. by apply (ci_tbl _ _ _ _ C).
  - intros r' w Hr' Hor. destruct (Hin r' Hr') as [? ?]. rewrite (gr_pte _ _ _ L) by done. by apply (ci_other _ _ _ _ C).
  - intros w Hw. rewrite (gr_pte _ _ _ L) by apply dst_all. by apply (ci_kern _ _ _ _ C).
  - intros w Hw. rewrite (gr_pte _ _ _ L) by apply r_all. by apply (ci_src _ _ _ _ C).
  - intros w Hw. rewrite (gr_pte _ _ _ L) by apply dst_all. by apply (ci_dst _ _ _ _ C).
  - intros d w t Hd Hw Et. destruct (gr_new _ _ _ L dst d w t dst_all ltac:(lia) Et) as [Eo|[Hf Hrc]].
    + destruct (ci_new _ _ _ _ C d w t Hd Hw Eo) as [Hf Hrc]. split; [done|].
      destruct (ok_tab _ _ (ci_ok _ _ _ _ C) dst d w t dst_all ltac:(lia) Eo) as (_ & _ & _ & Hnf).
      destruct (fa_free_frame _ _ (ok_fa _ _ Hok0) Hf) as (? & _ & ? & _). rewrite Hh0 in Hnf.
      rewrite (gr_refs _ _ _ L); [done|done|unfold LOW_FRAMES, PAGE_SIZE in *; lia|done].
    + rewrite Hh0 in Hf, Hrc. split; [by apply (ci_free _ _ _ _ C)|done].
  - intros u Hu. by apply (ci_free _ _ _ _ C), (gr_free _ _ _ L).
  - intros u Hu. unfold table_frame. rewrite Hh. destruct (ci_alloc _ _ _ _ C u Hu) as [Hf|(d & w & Hd & Hw & Et)].
    + destruct (li_alloc _ _ _ _ L u Hf) as [|(d & w & ? & ? & ?)]; [by left|right]. by exists d, w.
    + right. exists d, w. split; [done|]. split; [done|]. apply (gr_tbl _ _ _ L); [apply dst_all|lia|done].
  - intros u Ha Hu Hnf. rewrite (gr_refs _ _ _ L); [by apply (ci_refs _ _ _ _ C)|done|done|].
    intros Hf. by apply Hnf, (ci_free _ _ _ _ C).
  - intros p Hp. by apply (gr_page _ _ _ L), (ci_page _ _ _ _ C).
  - intros p i Hp Hi. rewrite (gr_data _ _ _ L); [by apply (ci_data _ _ _ _ C)| |done]. by apply (ci_page _ _ _ _ C).
Qed.

(** Writing the entry of the next page, in the source or in the copy. *)
Lemma cinv_leaf a b c a' b' s q w t x :
  cinv a b c s → is_user w → tbl s q 3 w = Some t → 0 ≤ x < 2 ^ 64 →
  (q = r ∧ a = prefix 4 w ∧ a' = a + 1 ∧ b' = b ∧ x = src_entry (pte s0 r w)) ∨
  (q = dst ∧ b = prefix 4 w ∧ b' = b + 1 ∧ a' = a ∧ x = dst_entry (pte s0 r w)) →
  cinv a' b' c (wr_entry s t (PT_IDX w) x).
Proof.
  intros C Hu Ht Hx Hq. pose proof (ci_ok _ _ _ _ C) as Hok.
  assert (Hqa : q ∈ all) by (destruct Hq as [[-> _]|[-> _]]; [apply r_all|apply dst_all]).
  assert (Hne : ∀ r' w', r' ∈ all → ¬ (r' = q ∧ path_eq 4 w w') → pte (wr_entry s t (PT_IDX w) x) r' w' = pte s r' w')
    by (intros; by apply (leaf_pte_ne s all q w)).
  assert (Heq : ∀ w', path_eq 4 w w' → pte (wr_entry s t (PT_IDX w) x) q w' = x)
    by (intros; by apply (leaf_pte_eq s all q w)).
  assert (Htb : ∀ r' d w', r' ∈ all → (d ≤ 3)%nat → tbl (wr_entry s t (PT_IDX w) x) r' d w' = tbl s r' d w')
    by (intros; by apply (leaf_tbl s all q w)).
  assert (Hok' : vm_ok (wr_entry s t (PT_IDX w) x) all) by (by apply (leaf_ok s all q w)).
  assert (Hdat : ∀ p i, data_page s all p → 0 ≤ i < PAGE_SIZE → vmem (wr_entry s t (PT_IDX w) x) (p + i) = vmem s (p + i))
    by (intros; by apply (leaf_data s all q)).
  set (s' := wr_entry s t (PT_IDX w) x) in *.
  assert (Hin : ∀ r', r' ∈ roots → r' ∈ all) by set_solver.
  assert (Hku : ∀ w', path_eq 4 w w' → is_user w') by (intros w' Hp; by apply (is_user_path 3 w)).
  pose proof r_all as Hra. pose proof dst_all as Hda. pose proof r_dst as Hrd.
  constructor; [done|apply (ci_hhdm _ _ _ _ C)|apply (ci_kpml4 _ _ _ _ C)| | | | | | |apply (ci_free _ _ _ _ C)| |
    apply (ci_refs _ _ _ _ C)| |].
  - intros r' d w' Hr' Hd. rewrite Htb by auto. by apply (ci_tbl _ _ _ _ C).
  - intros r' w' Hr' Hor. rewrite Hne; [by apply (ci_other _ _ _ _ C)|by apply Hin|].
    intros [-> Hp]. destruct Hq as [[-> _]|[-> _]]; [|done]. destruct Hor as [|Hor]; [done|]. by apply Hor, Hku.
  - intros w' Hw'. rewrite Hne; [by apply (ci_kern _ _ _ _ C)|done|]. intros [_ Hp]. by apply Hw', Hku.
  - intros w' Hw'. pose proof (ci_src _ _ _ _ C w' Hw') as E. destruct Hq as [(-> & Ea & -> & -> & ->)|(-> & Eb & -> & -> & ->)].
    + destruct (decide (path_eq 4 w w')) as [Hp|Hn].
      * rewrite Heq by done. rewrite (pte_path s0 r w w' Hp). apply prefix_path in Hp.
        by destruct (Z.ltb_spec (prefix 4 w') (a + 1)); [|lia].
      * rewrite Hne by (done || tauto). rewrite prefix_path in Hn.
        destruct (Z.ltb_spec (prefix 4 w') a), (Z.ltb_spec (prefix 4 w') (a + 1)); (done || lia).
    + rewrite Hne; [done|done|]. intros [? _]. done.
  - intros w' Hw'. pose proof (ci_dst _ _ _ _ C w' Hw') as E. destruct Hq as [(-> & Ea & -> & -> & ->)|(-> & Eb & -> & -> & ->)].
    + rewrite Hne; [done|done|]. intros [? _]. by apply Hrd.
    + destruct (decide (path_eq 4 w w')) as [Hp|Hn].
      * rewrite Heq by done. rewrite (pte_path s0 r w w' Hp). apply prefix_path in Hp.
        by destruct (Z.ltb_spec (prefix 4 w') (b + 1)); [|lia].
      * rewrite Hne by (done || tauto). rewrite prefix_path in Hn.
        destruct (Z.ltb_spec (prefix 4 w') b), (Z.ltb_spec (prefix 4 w') (b + 1)); (done || lia).
  - intros d w' t' Hd Hw'. rewrite Htb by (done || lia). by apply (ci_new _ _ _ _ C).
  - intros u Hfu. destruct (ci_alloc _ _ _ _ C u Hfu) as [|(d & w' & Hd & Hw' & Et)]; [by left|right].
    exists d, w'. split; [done|]. split; [done|]. by rewrite Htb by (done || lia).
  - intros p Hp. destruct (ci_page _ _ _ _ C p Hp) as (P1 & P2 & P3 & P4). split_and!; [done..|].
    intros r' d w' Hr' Hd. rewrite Htb by done. by apply P4.
  - intros p i Hp Hi. rewrite Hdat; [by apply (ci_data _ _ _ _ C)| |done]. by apply (ci_page _ _ _ _ C).
Qed.

(** Taking the reference of the next page. *)
Lemma cinv_ref a b c s w :
  cinv a b c s → is_user w → c = prefix 4 w → has (pte s0 r w) VMM_P = true →
  cinv a b (c + 1) (with_fa s (fa_ref (fa s) (frame_of s0 r w))).
Proof.
  intros C Hu Ec HP. destruct (src_frame w Hu HP) as (Hal & Hlo & H0 & _ & Hnf & Hrc). set (u := frame_of s0 r w) in *.
  pose proof (ci_ok _ _ _ _ C) as Hok. pose proof (prefix_nonneg 4 w) as Hn0. apply user_pages_prefix in Hu.
  assert (Hst : ∀ u', maps s0 r (c + 1) u' = maps s0 r c u' + if u' =? u then 1 else 0).
  { intros u'. rewrite maps_step by lia. f_equal. unfold maps_page. rewrite Ec, <- pte_pva, HP. cbn [andb].
    fold (frame_of s0 r w). fold u. by rewrite Z.eqb_sym. }
  assert (Hb : 0 < fa_refcount (fa s) u < REF_MAX).
  { rewrite (ci_refs _ _ _ _ C) by done. pose proof (maps_bounds s0 r (c + 1) USER_PAGES u ltac:(lia)) as Hb.
    rewrite Hst, Z.eqb_refl in Hb. pose proof (maps_bounds s0 r c c u ltac:(lia)).
    pose proof (cl_sat _ _ _ Hcl u ltac:(lia)). lia. }
  destruct (fa_ref_spec (fa s) u (ok_fa _ _ Hok) Hal (proj1 Hlo) Hb) as (R1 & R2 & R3 & R4).
  assert (Htb : ∀ r' d w', tbl (with_fa s (fa_ref (fa s) u)) r' d w' = tbl s r' d w') by (intros; by apply tbl_fa).
  assert (Hpt : ∀ r' w', pte (with_fa s (fa_ref (fa s) u)) r' w' = pte s r' w') by (intros; by apply pte_fa).
  destruct C as [C1 C2 C3 C4 C5 C6 C7 C8 C9 C10 C11 C12 C13 C14].
  constructor; cbn [with_fa fa vmem kernel_pml4_virt]; repeat setoid_rewrite Htb; repeat setoid_rewrite Hpt;
    [|by rewrite R2|exact C3|exact C4|exact C5|exact C6|exact C7|exact C8|..|exact C14].
  - apply fa_swap; [done|done|done|]. intros r' d w' t Hr' Hd Et. rewrite R2, R3. by apply (ok_tab _ _ C1 r' d w' t).
  - intros d w' t Hd Hw' Et. destruct (C9 d w' t Hd Hw' Et) as [Hf Hone]. split; [done|].
    destruct (fa_free_frame _ _ (ok_fa _ _ Hok0) Hf) as (? & _ & ? & _).
    rewrite R4; [|done|unfold LOW_FRAMES, PAGE_SIZE in *; lia].
    destruct (Z.eqb_spec (t - h0) u) as [E|]; [|done]. by rewrite E in Hf.
  - intros u'. rewrite R3. apply C10.
  - intros u' Hf. unfold table_frame. cbn [with_fa fa]. rewrite R2, R3. setoid_rewrite Htb. by apply C11.
  - intros u' Ha Hu' Hn. rewrite R4, Hst by done. specialize (C12 u' Ha Hu' Hn).
    destruct (Z.eqb_spec u' u) as [->|]; lia.
  - intros p Hp. destruct (C13 p Hp) as (P1 & P2 & P3 & P4). unfold data_page. cbn [with_fa fa]. rewrite R2, R3.
    split_and!; [done..|]. intros r' d w'. rewrite Htb. apply P4.
Qed.

(** Skipping pages that are not mapped. *)
Lemma cinv_skip n n' s :
  cinv n n n s → 0 ≤ n ≤ n' → n' ≤ USER_PAGES →
  (∀ w, is_user w → n ≤ prefix 4 w < n' → has (pte s0 r w) VMM_P = false) → cinv n' n' n' s.
Proof.
  intros [C1 C2 C3 C4 C5 C6 C7 C8 C9 C10 C11 C12 C13 C14] Hn Hmax Hno.
  assert (Hmp : ∀ u, maps s0 r n' u = maps s0 r n u).
  { intros u. apply maps_skip; [lia|]. intros m Hm. unfold maps_page. destruct (pva_user m ltac:(lia)) as [? E].
    by rewrite Hno by (done || lia). }
  constructor; [exact C1|exact C2|exact C3|exact C4|exact C5|exact C6| | |exact C9|exact C10|exact C11| |exact C13|exact C14].
  - intros w Hw. rewrite C7 by done. destruct (Z.ltb_spec (prefix 4 w) n), (Z.ltb_spec (prefix 4 w) n'); [done|lia| |done].
    unfold src_entry. by rewrite Hno by (done || lia).
  - intros w Hw. rewrite C8 by done. destruct (Z.ltb_spec (prefix 4 w) n), (Z.ltb_spec (prefix 4 w) n'); [done|lia| |done].
    unfold dst_entry. by rewrite Hno by (done || lia).
  - intros u. rewrite Hmp. apply C12.
Qed.

(** ** The loops *)

(** A turn that ran out of frames: the copy has been destroyed again. *)
Definition failed (dst_phys : Z) s' : Prop :=
  ∃ m s1, 0 ≤ m < USER_PAGES ∧ cinv (m + 1) m m s1 ∧ (∀ u, ¬ fa_free (fa s1) u) ∧
    s' = (let s := vmm_destroy_user s1 dst in with_fa s (fa_unref (fa s) dst_phys)).

Lemma src_pte_range w : 0 ≤ pte s0 r w < 2 ^ 64.
Proof. apply pte_range, Hok0. Qed.

(** The source entry becomes copy-on-write when the page is private. *)
Lemma clone_protect n s w t :
  cinv n n n s → is_user w → n = prefix 4 w → tbl s r 3 w = Some t → has (pte s0 r w) VMM_P = true →
  cinv (n + 1) n n
    (if (clone_flags (pte s0 r w)).2
     then wr_entry s t (PT_IDX w) (Z.lor (Z.land (rd_entry s t (PT_IDX w)) (Z.lnot VMM_RW)) VMM_COW) else s).
Proof.
  intros C Hu En Ht HP. pose proof (ci_src _ _ _ _ C w Hu) as Es. rewrite En, Z.ltb_irrefl in Es.
  assert (Ee : rd_entry s t (PT_IDX w) = pte s0 r w) by (rewrite <- Es; unfold pte; by rewrite Ht).
  assert (Hx : (if (clone_flags (pte s0 r w)).2 then Z.lor (Z.land (pte s0 r w) (Z.lnot VMM_RW)) VMM_COW else pte s0 r w)
               = src_entry (pte s0 r w)) by (unfold src_entry; by rewrite HP).
  rewrite Ee. destruct (clone_flags (pte s0 r w)).2.
  - eapply (cinv_leaf n n n); [exact C|exact Hu|exact Ht| |].
    + rewrite Hx. apply src_entry_range, src_pte_range.
    + left. by rewrite Hx.
  - destruct C as [C1 C2 C3 C4 C5 C6 C7 C8 C9 C10 C11 C12 C13 C14]. constructor; try assumption.
    intros w' Hw'. rewrite C7 by done.
    destruct (Z.ltb_spec (prefix 4 w') n), (Z.ltb_spec (prefix 4 w') (n + 1)); [done|lia| |done].
    rewrite (pte_path s0 r w' w); [done|]. apply prefix_path. lia.
Qed.

Lemma clone_pte_spec dst_phys n s w t :
  cinv n n n s → is_user w → n = prefix 4 w → tbl s r 3 w = Some t →
  let '(ok, s') := clone_pte dst_phys dst (PML4_IDX w) (PDPT_IDX w) (PD_IDX w) t (PT_IDX w) s in
  if ok : bool then cinv (n + 1) (n + 1) (n + 1) s' else failed dst_phys s'.
Proof.
  intros C Hu En Ht. pose proof (ci_src _ _ _ _ C w Hu) as Es. rewrite En, Z.ltb_irrefl in Es.
  assert (Ee : rd_entry s t (PT_IDX w) = pte s0 r w) by (rewrite <- Es; unfold pte; by rewrite Ht).
  pose proof (prefix_nonneg 4 w) as Hn0. pose proof (proj1 (user_pages_prefix w) Hu) as Hmax.
  unfold clone_pte. rewrite loop_vaddr, Ee. destruct (has (pte s0 r w) VMM_P) eqn:HP; cbn [negb].
  2:{ apply (cinv_skip n (n + 1)); [done|lia|lia|]. intros w' _ Hw'. rewrite (pte_path s0 r w' w); [done|].
      apply prefix_path. lia. }
  pose proof (clone_protect n s w t C Hu En Ht HP) as C1. rewrite Ee in C1.
  destruct (clone_flags_range (pte s0 r w) (src_pte_range w)) as [Hfl Hfm].
  assert (Hde : dst_entry (pte s0 r w) =
    Z.lor (Z.land (Z.land (pte s0 r w) VMM_PHYS_MASK) VMM_PHYS_MASK) (Z.lor (clone_flags (pte s0 r w)).1 VMM_P))
    by (unfold dst_entry; by rewrite HP).
  destruct (clone_flags (pte s0 r w)) as [flags cow]. cbn [fst snd] in *.
  set (s1 := if cow then _ else s) in *.
  destruct (pva_user (prefix 4 w)) as [Hup Epv]; [lia|]. destruct (src_frame w Hu HP) as (_ & _ & H0 & _).
  pose proof (map_page_spec s1 all dst (pva (prefix 4 w)) (frame_of s0 r w) flags (ci_ok _ _ _ _ C1) dst_all Hup Hhi H0 Hfl) as M.
  cbv zeta in M. unfold frame_of in M. destruct (vmm_map_page s1 dst _ _ flags) as [[] s2].
  - destruct M as (s3 & t' & L & Ht' & -> & Hx).
    pose proof (cinv_grow _ _ _ _ _ C1 L) as C2. eapply cinv_ref; [|exact Hu|done|done].
    eapply (cinv_leaf _ n _ _ _ _ _ (pva (prefix 4 w))); [exact C2|exact Hup|exact Ht'|exact Hx|].
    right. rewrite Epv, <- pte_pva. split_and!; [done|done|lia|lia|by rewrite Hde].
  - destruct M as [L Hno]. exists n, s2. split; [lia|]. split; [by eapply cinv_grow|done].
Qed.

Context (dst_phys : Z).

(** All of the first [n] pages are done, or the clone has failed. *)
Definition upto (n : Z) (res : bool * vm F) : Prop :=
  if res.1 then cinv n n n res.2 else failed dst_phys res.2.

(** Pages before the item number [c] of depth [S d]. *)
Definition start (d : nat) (c : Z) : Z := c * 512 ^ (3 - Z.of_nat d).

(** The loop over the table of an item copies everything below it; [w] is an
    address below the item, which gives the outer loop indices. *)
Definition copies (d : nat) (child : Z → Z → Z → vm F → bool * vm F) : Prop := ∀ c w ct s,
  at_item d c w → 0 ≤ c → tbl s0 r (S d) w = Some ct → cinv (start d c) (start d c) (start d c) s →
  upto (start d (c + 1)) (for_ok (child w ct) 0 512 s).

Lemma upto_loop (f : Z → vm F → bool * vm F) (pos : Z → Z) n s :
  cinv (pos 0) (pos 0) (pos 0) s →
  (∀ i s, 0 ≤ i < Z.of_nat n → cinv (pos i) (pos i) (pos i) s → upto (pos (i + 1)) (f i s)) →
  upto (pos (Z.of_nat n)) (for_ok f 0 n s).
Proof.
  intros H0 Hs. unfold upto in *.
  pose proof (for_ok_ind (λ i s, cinv (pos i) (pos i) (pos i) s) (failed dst_phys) f 0 n s H0) as H.
  rewrite Z.add_0_l in H. destruct (for_ok f 0 n s) as [ok s']. apply H.
  intros i s1 Hi Hc. specialize (Hs i s1 Hi Hc). by destruct (f i s1).
Qed.

Lemma copy_pt : copies 2 (λ w, clone_pte dst_phys dst (PML4_IDX w) (PDPT_IDX w) (PD_IDX w)).
Proof.
  intros c w pt s [Hu Ec] Hc Ht C. cbn beta.
  assert (E0 : ∀ i, start 2 c + i = c * 512 + i) by (intros i; unfold start; cbn; lia).
  replace (start 2 (c + 1)) with (start 2 c + Z.of_nat 512) by (unfold start; cbn; lia).
  apply (upto_loop _ (λ i, start 2 c + i)); [by rewrite Z.add_0_r|]. intros i s1 Hi C1.
  assert (Hcu : 0 ≤ c * 512 + i < 256 * 512 ^ Z.of_nat 3).
  { apply (user_child 2); [lia|lia|done|]. rewrite <- Ec. by apply (user_prefix 2). }
  pose proof (item_at 3 (c * 512 + i) (le_n 3) Hcu) as Hw. set (w' := item 4 (c * 512 + i)) in *.
  destruct (at_item_idx 3 c i w' ltac:(lia) Hw) as [Ep Ei]. cbn [idx] in Ei.
  assert (Hpe : path_eq 3 w w') by (apply prefix_path; by rewrite Ep).
  pose proof (Hpe 0%nat ltac:(lia)) as I0. pose proof (Hpe 1%nat ltac:(lia)) as I1. pose proof (Hpe 2%nat ltac:(lia)) as I2.
  cbn [idx] in I0, I1, I2. rewrite I0, I1, I2. rewrite <- Ei at 2. rewrite Z.add_assoc.
  pose proof (clone_pte_spec dst_phys (start 2 c + i) s1 w' pt C1 (proj1 Hw)) as H. unfold upto.
  destruct (clone_pte _ _ _ _ _ _ _ _) as [ok s2]. apply H; [rewrite E0; symmetry; apply Hw|].
  rewrite (ci_tbl _ _ _ _ C1) by (done || lia). by rewrite <- (tbl_path_eq s0 r 3 w w' Hpe).
Qed.

(** One turn of a loop over a table of depth [d < 3]. *)
Lemma copy_item d c w t i s (child : Z → Z → Z → vm F → bool * vm F) :
  (d < 3)%nat → at_item d c w → 0 ≤ c → idx d w = i → copies d child → tbl s0 r d w = Some t →
  cinv (start d c) (start d c) (start d c) s →
  upto (start d (c + 1))
    (let e := rd_entry s t i in
     if negb (has e VMM_P) then (true, s) else for_ok (child w (entry_table s e)) 0 512 s).
Proof.
  intros Hd [Hu Ec] Hc Ei Hch Ht0 C. pose proof (ci_ok _ _ _ _ C) as Hok. cbv zeta.
  assert (Ht : tbl s r d w = Some t) by (rewrite (ci_tbl _ _ _ _ C) by (done || lia); done).
  pose proof (pow512_pos (3 - Z.of_nat d) ltac:(lia)) as Hp.
  destruct (has (rd_entry s t i) VMM_P) eqn:HP; cbn [negb].
  - apply Hch; [done|done| |done]. rewrite <- (ci_tbl _ _ _ _ C) by (done || lia).
    cbn [tbl]. rewrite Ht. unfold follow. rewrite Ei, HP. cbn [negb orb]. destruct d as [|d]; [done|].
    pose proof (ok_small _ _ Hok r (S d) w t r_all ltac:(lia) Hu Ht) as Hs. rewrite Ei in Hs. by rewrite Hs.
  - assert (Hno : tbl s0 r (S d) w = None).
    { rewrite <- (ci_tbl _ _ _ _ C) by (done || lia). cbn [tbl]. rewrite Ht. unfold follow. by rewrite Ei, HP. }
    apply (cinv_skip (start d c)); [done|unfold start; nia|..].
    + unfold start. apply (user_prefix d) in Hu. rewrite Ec in Hu.
      assert (E3 : USER_PAGES = 256 * 512 ^ Z.of_nat d * 512 ^ (3 - Z.of_nat d)).
      { rewrite user_pages_val. destruct d as [|[|[|]]]; [reflexivity..|lia]. }
      rewrite E3. apply Z.mul_le_mono_nonneg_r; lia.
    + intros w' Hw' Hrg. pose proof (prefix_below (S d) 4 w' ltac:(lia)) as Hb.
      replace (Z.of_nat 4 - Z.of_nat (S d)) with (3 - Z.of_nat d) in Hb by lia.
      assert (Ep : prefix (S d) w' = c) by (unfold start in Hrg; nia).
      assert (Hn : ∀ e, (S d ≤ e)%nat → tbl s0 r e w' = None).
      { intros e He. induction e as [|e IH]; [lia|]. destruct (decide (e = d)) as [->|].
        - rewrite <- Hno. symmetry. apply tbl_path_eq, prefix_path. by rewrite Ep.
        - cbn [tbl]. by rewrite IH by lia. }
      unfold pte. by rewrite Hn by lia.
Qed.

Lemma start_S d c : (d < 3)%nat → start d c = start (S d) (c * 512).
Proof.
  intros Hd. unfold start. replace (3 - Z.of_nat d) with (1 + (3 - Z.of_nat (S d))) by lia.
  rewrite Z.pow_add_r by lia. lia.
Qed.

Lemma copy_loop d p n wp t s (child body : Z → Z → Z → vm F → bool * vm F) :
  (d < 3)%nat → copies d child →
  (∀ w w' t i s, path_eq d w w' → idx d w' = i → body w t i s =
     let e := rd_entry s t i in
     if negb (has e VMM_P) then (true, s) else for_ok (child w' (entry_table s e)) 0 512 s) →
  0 ≤ p → prefix d wp = p → Z.of_nat n ≤ 512 → p * 512 + Z.of_nat n ≤ 256 * 512 ^ Z.of_nat d →
  tbl s0 r d wp = Some t → cinv (start d (p * 512)) (start d (p * 512)) (start d (p * 512)) s →
  upto (start d (p * 512 + Z.of_nat n)) (for_ok (body wp t) 0 n s).
Proof.
  intros Hd Hc Hb Hp Ep Hn Hmax Ht C.
  apply (upto_loop _ (λ i, start d (p * 512 + i))); [by rewrite Z.add_0_r|]. intros i s1 Hi C1.
  pose proof (item_at d (p * 512 + i) ltac:(lia) ltac:(lia)) as Hw. set (w := item (S d) (p * 512 + i)) in *.
  destruct (at_item_idx d p i w ltac:(lia) Hw) as [Epw Ei].
  assert (Hpe : path_eq d wp w) by (apply prefix_path; by rewrite Epw).
  rewrite (Hb wp w t i s1 Hpe Ei), Z.add_assoc.
  apply (copy_item d (p * 512 + i) w t i s1 child); [done|done|lia|done|done| |done].
  by rewrite <- (tbl_path_eq s0 r d wp w Hpe).
Qed.

Lemma copies_up d child body :
  (S d < 3)%nat → copies (S d) child →
  (∀ w w' t i s, path_eq (S d) w w' → idx (S d) w' = i → body w t i s =
     let e := rd_entry s t i in
     if negb (has e VMM_P) then (true, s) else for_ok (child w' (entry_table s e)) 0 512 s) →
  copies d body.
Proof.
  intros Hd Hc Hb c w ct s [Hu Ec] H0 Ht C. rewrite start_S in C by lia.
  pose proof (copy_loop (S d) c 512 w ct s child body Hd Hc Hb H0 Ec ltac:(lia)) as H.
  rewrite start_S by lia. replace ((c + 1) * 512) with (c * 512 + Z.of_nat 512) by lia. apply H; [|done|done].
  apply (user_prefix d) in Hu. rewrite Ec in Hu. rewrite (Nat2Z.inj_succ d), Z.pow_succ_r by lia. lia.
Qed.

Lemma clone_loops :
  cinv 0 0 0 s0 → upto USER_PAGES (for_ok (clone_pml4e dst_phys dst r) 0 (Z.to_nat KERNEL_PML4_START) s0).
Proof.
  intros C0. assert (C2 : copies 1 (λ w, clone_pde dst_phys dst (PML4_IDX w) (PDPT_IDX w))).
  { eapply copies_up; [lia|apply copy_pt|]. intros w w' t i s Hp Ei. cbn beta.
    pose proof (Hp 0%nat ltac:(lia)) as I0. pose proof (Hp 1%nat ltac:(lia)) as I1. cbn [idx] in *. by rewrite I0, I1, Ei. }
  assert (C1 : copies 0 (λ w, clone_pdpte dst_phys dst (PML4_IDX w))).
  { eapply copies_up; [lia|exact C2|]. intros w w' t i s Hp Ei. cbn beta.
    pose proof (Hp 0%nat ltac:(lia)) as I0. cbn [idx] in *. by rewrite I0, Ei. }
  assert (E : Z.of_nat (Z.to_nat KERNEL_PML4_START) = 256) by reflexivity. revert E.
  generalize (Z.to_nat KERNEL_PML4_START). intros n E.
  pose proof (copy_loop 0 0 n 0 r s0 _ (λ _, clone_pml4e dst_phys dst) ltac:(lia) C1) as H.
  rewrite E in H. replace USER_PAGES with (start 0 (0 * 512 + 256)) by (by rewrite user_pages_val).
  apply H; [|lia|reflexivity|lia|cbn; lia|reflexivity|exact C0].
  intros w w' t i s _ Ei. cbn [idx] in Ei. by rewrite Ei.
Qed.

Lemma cinv_init : cinv 0 0 0 s0.
Proof.
  assert (Hlt : ∀ w, (prefix 4 w <? 0) = false) by (intros w; apply Z.ltb_ge, prefix_nonneg).
  constructor; try done; try (by left).
  - intros w _. by rewrite Hlt.
  - intros w Hw. rewrite Hlt. unfold pte. by rewrite Hempty by (done || lia).
  - intros d w t Hd Hw. by rewrite Hempty by (done || lia).
  - intros u _ _ _. rewrite maps_0. lia.
Qed.

(** *** The copy owns its pages and tables *)

Lemma dst_maps a n s u : cinv a n n s → 0 ≤ n ≤ USER_PAGES → maps s dst USER_PAGES u = maps s0 r n u.
Proof.
  intros C Hn. assert (Hpg : ∀ m, 0 ≤ m < USER_PAGES → maps_page s dst u m = (m <? n) && maps_page s0 r u m).
  { intros m Hm. destruct (pva_user m Hm) as [Hu E]. unfold maps_page. rewrite (ci_dst _ _ _ _ C) by done. rewrite E.
    destruct (Z.ltb_spec m n); [|done]. destruct (has (pte s0 r (pva m)) VMM_P) eqn:HP.
    - destruct (entries_share _ (src_pte_range (pva m)) HP) as [_ Hf [_ Hp] _ _ _]. by rewrite Hf, Hp.
    - unfold dst_entry. by rewrite HP. }
  rewrite (maps_skip s dst n USER_PAGES u) by (lia || (intros m Hm; rewrite Hpg by lia; by destruct (Z.ltb_spec m n); [lia|])).
  apply maps_eq_pages. intros m Hm. rewrite Hpg by lia. by destruct (Z.ltb_spec m n); [|lia].
Qed.

Lemma cinv_owned a n s : cinv a n n s → 0 ≤ n ≤ USER_PAGES → user_owned s all dst.
Proof.
  intros C Hn. constructor.
  - intros w Hu. unfold frame_of. rewrite (ci_dst _ _ _ _ C) by done. case_if; [|done].
    destruct (has (pte s0 r w) VMM_P) eqn:HP; [|unfold dst_entry; by rewrite HP].
    destruct (entries_share _ (src_pte_range w) HP) as [_ Hf _ _ _ _]. rewrite Hf. intros _.
    destruct (src_frame w Hu HP) as (_ & Hlo & _ & Hd & _). fold (frame_of s0 r w). split; [|apply Hlo].
    assert (E : p2v s (frame_of s0 r w) = frame_of s0 r w + h0).
    { unfold p2v. rewrite (ci_hhdm _ _ _ _ C). destruct (cl_frame _ _ _ Hcl w Hu HP) as (Hd' & _).
      apply (data_p2v s0 all (frame_of s0 r w)); [apply Hok0|apply frame_of_range, Hok0|done]. }
    rewrite E. by apply (ci_page _ _ _ _ C).
  - intros u. rewrite (dst_maps a n s u C Hn). intros Hm. apply maps_some in Hm as (m & Hm & Hmp).
    unfold maps_page in Hmp. apply andb_true_iff in Hmp as [HP Eu]. apply Z.eqb_eq in Eu.
    destruct (pva_user m ltac:(lia)) as [Hu _]. destruct (src_frame (pva m) Hu HP) as (Hal & _ & H0 & _ & Hnf & Hrc).
    unfold frame_of in *. rewrite Eu in *. rewrite (ci_refs _ _ _ _ C) by done. lia.
  - intros d w t Hd Hw Et. rewrite (ci_hhdm _ _ _ _ C). destruct (ci_new _ _ _ _ C d w t Hd Hw Et) as [Hf Hone].
    split; [|done]. by destruct (fa_free_frame _ _ (ok_fa _ _ Hok0) Hf).
Qed.
End clone.

Section spec.
Context {F : Type} `{FA : FrameAlloc F} `{FL : !FrameAllocLaws F}.
Implicit Types s : vm F.

(** A successful clone of [r] into the new space at [phys]. *)
Record cloned (roots : list Z) (k r phys : Z) s s' : Prop := {
  cd_fresh : fa_free (fa s) phys;
  cd_one : fa_refcount (fa s') phys = 1;
  cd_virt : p2v s' phys = phys + fa_hhdm (fa s);
  cd_hhdm : fa_hhdm (fa s') = fa_hhdm (fa s);
  cd_notin : ¬ (p2v s' phys ∈ roots);
  cd_ok : vm_ok s' (p2v s' phys :: roots);
  cd_page : ∀ w, is_user w → has (pte s r w) VMM_P = true → shares (pte s r w) (pte s' r w) (pte s' (p2v s' phys) w);
  cd_absent : ∀ w, is_user w → has (pte s r w) VMM_P = false → pte s' r w = pte s r w ∧ pte s' (p2v s' phys) w = 0;
  cd_kern : ∀ w, ¬ is_user w → pte s' (p2v s' phys) w = pte s k w;
  cd_other : ∀ r' w, r' ∈ roots → r' ≠ r ∨ ¬ is_user w → pte s' r' w = pte s r' w;
  cd_refs : ∀ u, page_aligned u → 0 ≤ u → ¬ fa_free (fa s) u →
    fa_refcount (fa s') u = fa_refcount (fa s) u + maps s r USER_PAGES u;
  cd_data : ∀ p i, data_page s roots p → 0 ≤ i < PAGE_SIZE → vmem s' (p + i) = vmem s (p + i);
  cd_datap : ∀ p, data_page s roots p → data_page s' (p2v s' phys :: roots) p;
  cd_tbl : ∀ r' d w, r' ∈ roots → (d ≤ 3)%nat → tbl s' r' d w = tbl s r' d w;
  cd_owned : user_owned s' (p2v s' phys :: roots) (p2v s' phys);
}.

(** What the callers do with a space they give up. *)
Definition discard_space s (pml4 phys : Z) : vm F :=
  let s := vmm_destroy_user s pml4 in with_fa s (fa_unref (fa s) phys).

(** A clone that ran out of frames, or that was given up. *)
Record unclonable (roots : list Z) (r : Z) s s' : Prop := {
  uc_ok : vm_ok s' roots;
  uc_free : ∀ u, fa_free (fa s') u ↔ fa_free (fa s) u;
  uc_refs : ∀ u, page_aligned u → 0 ≤ u → ¬ fa_free (fa s) u → fa_refcount (fa s') u = fa_refcount (fa s) u;
  uc_src : ∀ w, is_user w → pte s' r w = pte s r w ∨ pte s' r w = src_entry (pte s r w);
  uc_other : ∀ r' w, r' ∈ roots → r' ≠ r ∨ ¬ is_user w → pte s' r' w = pte s r' w;
  uc_data : ∀ p i, data_page s roots p → 0 ≤ i < PAGE_SIZE → vmem s' (p + i) = vmem s (p + i);
}.

Lemma vm_ok_tail s n roots : vm_ok s (n :: roots) → vm_ok s roots.
Proof.
  intros [O1 O2 O3 O4 O5]. constructor; [done|done|..].
  - intros r d v t Hr. apply O3. set_solver.
  - intros r r' d d' v w t Hr Hr'. apply O4; set_solver.
  - intros r d v t Hr. apply O5. set_solver.
Qed.

(** The state after the new PML4 is made is fit for the loops. *)
Lemma created_cloneable roots k phys s s' r :
  vm_ok s roots → r ∈ roots → created roots k phys s s' → cloneable s roots r →
  cloneable s' (p2v s' phys :: roots) r ∧ ∀ n u, maps s' r n u = maps s r n u.
Proof.
  intros Hok Hr C [L1 L2].
  assert (Hmp : ∀ n u, maps s' r n u = maps s r n u) by (intros; apply maps_ext; intros; by apply (cr_pte _ _ _ _ _ C)).
  assert (Hfr : ∀ w, is_user w → has (pte s' r w) VMM_P = true →
     frame_of s' r w = frame_of s r w ∧ p2v s' (frame_of s r w) = p2v s (frame_of s r w) ∧
     data_page s roots (p2v s (frame_of s r w)) ∧ LOW_FRAMES * PAGE_SIZE ≤ frame_of s r w ∧
     fa_refcount (fa s') (frame_of s r w) = fa_refcount (fa s) (frame_of s r w) ∧
     0 < fa_refcount (fa s) (frame_of s r w)).
  { intros w Hu HP. assert (Ef : frame_of s' r w = frame_of s r w) by (unfold frame_of; by rewrite (cr_pte _ _ _ _ _ C)).
    rewrite (cr_pte _ _ _ _ _ C) in HP by done. destruct (L1 w Hu HP) as (Hd & Hlo & Hrc).
    destruct (frame_of_range s r w (ok_bytes _ _ Hok)) as [Hrg Hal].
    split_and!; [done|unfold p2v; by rewrite (cr_hhdm _ _ _ _ _ C)|done|done| |done].
    apply (cr_refs _ _ _ _ _ C); [done|lia|]. rewrite (data_p2v s roots _ (ok_fa _ _ Hok) Hrg Hd) in Hd.
    destruct Hd as (_ & _ & Hnf & _). by replace (frame_of s r w + fa_hhdm (fa s) - fa_hhdm (fa s)) with (frame_of s r w) in Hnf by lia. }
  split; [|done]. constructor.
  - intros w Hu HP. destruct (Hfr w Hu HP) as (E1 & E2 & Hd & Hlo & E3 & Hrc). rewrite E1, E2, E3.
    split_and!; [by apply (cr_page _ _ _ _ _ C)|done|done].
  - intros u. rewrite Hmp. intros Hm. pose proof Hm as (m & Hm' & Hmp')%maps_some. unfold maps_page in Hmp'.
    apply andb_true_iff in Hmp' as [HP Eu]. apply Z.eqb_eq in Eu. destruct (pva_user m Hm') as [Hu _].
    rewrite <- (cr_pte _ _ _ _ _ C) in HP by done. destruct (Hfr _ Hu HP) as (_ & _ & _ & _ & E3 & _).
    unfold frame_of in E3. rewrite Eu in E3. rewrite E3. by apply L2.
Qed.

(** A frame the source maps. *)
Lemma mapped_refs s0 roots r dst n u :
  vm_ok s0 (dst :: roots) → cloneable s0 (dst :: roots) r → n ≤ USER_PAGES → 0 < maps s0 r n u →
  page_aligned u ∧ 0 ≤ u ∧ ¬ fa_free (fa s0) u ∧ 0 < fa_refcount (fa s0) u.
Proof.
  intros Hok Hcl Hn (m & Hm & Hmp)%maps_some. unfold maps_page in Hmp.
  apply andb_true_iff in Hmp as [HP Eu]. apply Z.eqb_eq in Eu. destruct (pva_user m ltac:(lia)) as [Hu _].
  destruct (src_frame s0 roots r dst Hok Hcl (pva m) Hu HP) as (? & _ & ? & _ & ? & ?). unfold frame_of in *. by rewrite Eu in *.
Qed.

(** The frame of the new PML4, which no page maps. *)
Lemma frame_facts s s0 roots k r phys :
  vm_ok s roots → created roots k phys s s0 → cloneable s0 (p2v s0 phys :: roots) r →
  page_aligned phys ∧ LOW_FRAMES * PAGE_SIZE ≤ phys ∧ maps s0 r USER_PAGES phys = 0.
Proof.
  intros Hok Hc Hcl. destruct (fa_free_frame _ _ (ok_fa _ _ Hok) (cr_fresh _ _ _ _ _ Hc)) as (? & _ & ? & _).
  split_and!; [done|done|]. pose proof (maps_bounds s0 r USER_PAGES USER_PAGES phys ltac:(lia)).
  enough (¬ 0 < maps s0 r USER_PAGES phys) by lia. intros (m & Hm & Hmp')%maps_some. unfold maps_page in Hmp'.
  apply andb_true_iff in Hmp' as [HP Eu]. apply Z.eqb_eq in Eu. destruct (pva_user m Hm) as [Hu _].
  destruct (cl_frame _ _ _ Hcl _ Hu HP) as ((_ & _ & _ & Hnt) & _). unfold frame_of in Hnt. rewrite Eu in Hnt.
  apply (Hnt (p2v s0 phys) 0%nat 0); [set_solver|lia|done].
Qed.

Section finish.
Context (s s0 : vm F) (roots : list Z) (k r phys : Z).
Hypothesis Hok : vm_ok s roots.
Hypothesis Hr : r ∈ roots.
Hypothesis Hc : created roots k phys s s0.
Hypothesis Hcl : cloneable s roots r.
#[local] Abbreviation dst := (p2v s0 phys).
#[local] Abbreviation ci := (cinv s0 roots r dst).

Lemma finish_ok s' : ci USER_PAGES USER_PAGES USER_PAGES s' → cloned roots k r phys s s'.
Proof.
  intros C. destruct (created_cloneable roots k phys s s0 r Hok Hr Hc Hcl) as [Hcl0 Hmp].
  assert (Hd : dst ∉ roots) by apply Hc.
  assert (Ev : p2v s' phys = dst) by (unfold p2v; by rewrite (ci_hhdm _ _ _ _ _ _ _ _ C)).
  assert (Hpg : ∀ w, is_user w → pte s' r w = src_entry (pte s r w) ∧ pte s' dst w = dst_entry (pte s r w)).
  { intros w Hu. rewrite (ci_src _ _ _ _ _ _ _ _ C), (ci_dst _ _ _ _ _ _ _ _ C) by done. rewrite (cr_pte _ _ _ _ _ Hc) by done.
    apply user_pages_prefix in Hu. by destruct (Z.ltb_spec (prefix 4 w) USER_PAGES); [|lia]. }
  assert (Hfresh : ∀ u, ¬ fa_free (fa s) u → ¬ fa_free (fa s0) u) by (intros u; rewrite (cr_free _ _ _ _ _ Hc); tauto).
  constructor; rewrite ?Ev.
  - apply Hc.
  - destruct (frame_facts s s0 roots k r phys Hok Hc Hcl0) as (Hal & Hlo & Hz).
    rewrite (ci_refs _ _ _ _ _ _ _ _ C); [|done|unfold LOW_FRAMES, PAGE_SIZE in *; lia|rewrite (cr_free _ _ _ _ _ Hc); tauto].
    rewrite (cr_one _ _ _ _ _ Hc), Hz. done.
  - apply (cr_virt _ _ _ _ _ Hc).
  - rewrite (ci_hhdm _ _ _ _ _ _ _ _ C). apply Hc.
  - done.
  - apply C.
  - intros w Hu HP. destruct (Hpg w Hu) as [-> ->]. apply entries_share; [|done]. apply pte_range, Hok.
  - intros w Hu HP. destruct (Hpg w Hu) as [-> ->]. unfold src_entry, dst_entry. by rewrite HP.
  - intros w Hw. rewrite (ci_kern _ _ _ _ _ _ _ _ C) by done. by apply (cr_kern _ _ _ _ _ Hc).
  - intros r' w Hr' Hor. rewrite (ci_other _ _ _ _ _ _ _ _ C) by done. by apply (cr_pte _ _ _ _ _ Hc).
  - intros u Ha Hu Hn. rewrite (ci_refs _ _ _ _ _ _ _ _ C) by auto. rewrite (cr_refs _ _ _ _ _ Hc), Hmp by done. done.
  - intros p i Hp Hi. rewrite (ci_data _ _ _ _ _ _ _ _ C); [by apply (cr_data _ _ _ _ _ Hc)| |done]. by apply (cr_page _ _ _ _ _ Hc).
  - intros p Hp. by apply (ci_page _ _ _ _ _ _ _ _ C), (cr_page _ _ _ _ _ Hc).
  - intros r' d w Hr' Hd'. rewrite (ci_tbl _ _ _ _ _ _ _ _ C) by done. by apply (cr_tbl _ _ _ _ _ Hc).
  - eapply (cinv_owned s0 roots r dst); [apply Hc|done|exact C|rewrite user_pages_val; lia].
Qed.

(** Undoing a partial or complete clone gives back exactly what it took. *)
Lemma undo_clone a m s1 s' :
  0 ≤ m ≤ USER_PAGES → ci a m m s1 →
  s' = (let s := vmm_destroy_user s1 dst in with_fa s (fa_unref (fa s) phys)) → unclonable roots r s s'.
Proof.
  intros Hm C E. destruct (created_cloneable roots k phys s s0 r Hok Hr Hc Hcl) as [Hcl0 Hmp].
  assert (Hd : dst ∉ roots) by apply Hc. assert (Hra : ∀ r', r' ∈ roots → r' ∈ dst :: roots) by (intros r' Hr'; by apply list_elem_of_further).
  assert (Hne : ∀ r', r' ∈ roots → r' ≠ dst) by (intros r' ? ->; done).
  pose proof (ci_ok _ _ _ _ _ _ _ _ C) as Hok1. pose proof (ci_hhdm _ _ _ _ _ _ _ _ C) as Hh1.
  assert (Hown : user_owned s1 (dst :: roots) dst) by (eapply (cinv_owned s0 roots r dst); [apply Hc|done|exact C|lia]).
  pose proof (destroy_lemma s1 (dst :: roots) dst Hok1 (list_elem_of_here _ _) Hown) as D. cbv zeta in E.
  revert D E. generalize (vmm_destroy_user s1 dst). intros s2 D E.
  destruct (frame_facts s s0 roots k r phys Hok Hc Hcl0) as (Hal & Hlo & Hphys).
  assert (Hmd : ∀ u, maps s1 dst USER_PAGES u = maps s0 r m u).
  { intros u. eapply (dst_maps s0 roots r dst); [apply Hc|exact C|lia]. }
  assert (Htf : ∀ u d w, table_frame s1 dst u d w → fa_free (fa s0) u).
  { intros u d w (Hd' & Hw & Et). destruct (ci_new _ _ _ _ _ _ _ _ C d w _ Hd' Hw Et) as [Hf _].
    rewrite Hh1 in Hf. by replace (u + fa_hhdm (fa s0) - fa_hhdm (fa s0)) with u in Hf by lia. }
  assert (Hrefs : ∀ u, page_aligned u → 0 ≤ u → ¬ fa_free (fa s0) u → fa_refcount (fa s2) u = fa_refcount (fa s0) u).
  { intros u Ha Hu Hn. rewrite (ds_refs _ _ _ _ D u Ha Hu) by (intros d w Ht; exact (Hn (Htf u d w Ht))).
    rewrite (ci_refs _ _ _ _ _ _ _ _ C u Ha Hu Hn), Hmd. lia. }
  assert (Hrp : fa_refcount (fa s2) phys = 1).
  { rewrite Hrefs; [apply Hc|done|unfold LOW_FRAMES, PAGE_SIZE in *; lia|rewrite (cr_free _ _ _ _ _ Hc); tauto]. }
  assert (Hfree : ∀ u, fa_free (fa s2) u ↔ fa_free (fa s0) u).
  { intros u. rewrite (ds_free _ _ _ _ D). split.
    - intros [Hf|[[Hp Er]|(d & w & Ht)]]; [by apply (ci_free _ _ _ _ _ _ _ _ C)| |by apply (Htf u d w)].
      exfalso. rewrite Hmd in Hp, Er. destruct (mapped_refs s0 roots r dst m u) as (? & ? & ? & ?); [apply Hc|done|lia|done|].
      rewrite (ci_refs _ _ _ _ _ _ _ _ C) in Er by done. lia.
    - intros Hf. destruct (ci_alloc _ _ _ _ _ _ _ _ C u Hf) as [|(d & w & ?)]; [by left|right; right; by exists d, w]. }
  destruct (swap_unref roots s2 s2 phys) as (S1 & S2 & S3 & S4); [by eapply vm_ok_tail; apply D|done|done|done|lia| |].
  { intros r' d w Hr' Hd' Et. rewrite (ds_hhdm _ _ _ _ D), Hh1, (cr_hhdm _ _ _ _ _ Hc), <- (cr_virt _ _ _ _ _ Hc) in Et.
    destruct (ok_inj _ _ (ds_ok _ _ _ _ D) dst r' 0 d 0 w dst) as (E1 & _); [apply list_elem_of_here|by apply Hra|lia|done|done|done|done|].
    by apply (Hne r'). }
  subst s'. destruct (fa_unref_spec (fa s2) phys (ok_fa _ _ (ds_ok _ _ _ _ D)) Hal Hlo ltac:(lia)) as (_ & _ & U3 & U4).
  constructor; [done|..]; cbn [with_fa fa vmem].
  - intros u. rewrite U3, Hfree, (cr_free _ _ _ _ _ Hc). split; [intros [[? _]|[-> _]]; [done|apply Hc]|].
    intros Hf. destruct (decide (u = phys)) as [->|]; [by right|by left].
  - intros u Ha Hu Hn. assert (u ≠ phys) by (intros ->; apply Hn, Hc). rewrite U4 by done.
    destruct (Z.eqb_spec u phys); [done|]. rewrite Hrefs by (done || (rewrite (cr_free _ _ _ _ _ Hc); tauto)).
    by apply (cr_refs _ _ _ _ _ Hc).
  - intros w Hu. rewrite S4, (ds_pte _ _ _ _ D) by auto. rewrite (ci_src _ _ _ _ _ _ _ _ C) by done.
    rewrite (cr_pte _ _ _ _ _ Hc) by done. case_if; auto.
  - intros r' w Hr' Hor. rewrite S4, (ds_pte _ _ _ _ D) by auto. rewrite (ci_other _ _ _ _ _ _ _ _ C) by done.
    by apply (cr_pte _ _ _ _ _ Hc).
  - intros p i Hp Hi. pose proof (cr_page _ _ _ _ _ Hc p Hp) as Hp0.
    rewrite (ds_data _ _ _ _ D); [|by apply (ci_page _ _ _ _ _ _ _ _ C)|done].
    rewrite (ci_data _ _ _ _ _ _ _ _ C) by done. by apply (cr_data _ _ _ _ _ Hc).
Qed.

Lemma finish_fail s' : failed s0 roots r dst phys s' → unclonable roots r s s'.
Proof. intros (m & s1 & Hm & C & _ & E). by apply (undo_clone (m + 1) m s1); [lia| |]. Qed.

(** A clone that is discard_space. *)
Lemma finish_undo s' :
  ci USER_PAGES USER_PAGES USER_PAGES s' → unclonable roots r s (discard_space s' (p2v s' phys) phys).
Proof.
  intros C. assert (Ev : p2v s' phys = dst) by (unfold p2v; by rewrite (ci_hhdm _ _ _ _ _ _ _ _ C)).
  rewrite Ev. apply (undo_clone USER_PAGES USER_PAGES s'); [rewrite user_pages_val; lia|done|done].
Qed.
End finish.

Lemma clone_lemma' cr3 s roots r :
  vm_ok s roots → r ∈ roots → (vmm_kernel_pml4 cr3 s).1 ∈ roots → cloneable s roots r →
  let '(phys, s') := vmm_clone_user cr3 s r in
  (phys ≠ 0 ∧ cloned roots (vmm_kernel_pml4 cr3 s).1 r phys s s' ∧
     unclonable roots r s (discard_space s' (p2v s' phys) phys)) ∨
  (phys = 0 ∧ unclonable roots r s s').
Proof.
  intros Hok Hr Hk Hcl. pose proof (create_space cr3 s roots Hok Hk) as Hc. unfold vmm_clone_user.
  destruct (vmm_create_pml4 cr3 s) as [phys s0]. destruct Hc as [(-> & Em & Ef & Hno)|Hc].
  - right. cbn. split; [done|]. assert (Et : ∀ r' d w, tbl s0 r' d w = tbl s r' d w).
    { intros r' d w. apply (tbl_same s s0 r' w d); [by rewrite Ef| |done]. intros d1 t _ _. unfold rd_entry. by rewrite Em. }
    assert (Ep : ∀ r' w, pte s0 r' w = pte s r' w).
    { intros r' w. unfold pte. rewrite Et. destruct (tbl s r' 3 w); [|done]. unfold rd_entry. by rewrite Em. }
    constructor; rewrite ?Em, ?Ef; [|done|done|by left|done|done].
    constructor; [rewrite Ef; apply Hok|rewrite Em; apply Hok|..]; unfold table_page; rewrite ?Ef; repeat setoid_rewrite Et;
      [apply Hok|apply Hok|]. unfold rd_entry. rewrite Em. apply Hok.
  - destruct (fa_free_frame _ _ (ok_fa _ _ Hok) (cr_fresh _ _ _ _ _ Hc)) as (Hlo & _).
    assert (Hnz : phys ≠ 0) by (intros ->; unfold LOW_FRAMES, PAGE_SIZE in *; lia).
    destruct (Z.eqb_spec phys 0); [done|]. destruct (created_cloneable roots _ phys s s0 r Hok Hr Hc Hcl) as [Hcl0 _].
    assert (Hhi : HIGHER_HALF ≤ p2v s0 phys).
    { rewrite (cr_virt _ _ _ _ _ Hc). destruct (fa_hhdm_range _ (ok_fa _ _ Hok)) as [Hh _].
      unfold HIGHER_HALF, LOW_FRAMES, PAGE_SIZE in *. lia. }
    pose proof (clone_loops s0 roots r (p2v s0 phys) (cr_ok _ _ _ _ _ Hc) Hr (cr_notin _ _ _ _ _ Hc) Hhi
                  (cr_empty _ _ _ _ _ Hc) Hcl0 phys (cinv_init s0 roots r (p2v s0 phys) (cr_ok _ _ _ _ _ Hc) (cr_empty _ _ _ _ _ Hc))) as H.
    unfold upto in H. destruct (for_ok _ _ _ _) as [[] s'].
    + left. split; [done|]. split; [by eapply finish_ok|by eapply finish_undo].
    + right. split; [done|]. by eapply finish_fail.
Qed.

Lemma clone_lemma cr3 s roots r :
  vm_ok s roots → r ∈ roots → (vmm_kernel_pml4 cr3 s).1 ∈ roots → cloneable s roots r →
  let '(phys, s') := vmm_clone_user cr3 s r in
  (phys ≠ 0 ∧ cloned roots (vmm_kernel_pml4 cr3 s).1 r phys s s') ∨ (phys = 0 ∧ unclonable roots r s s').
Proof.
  intros Hok Hr Hk Hcl. pose proof (clone_lemma' cr3 s roots r Hok Hr Hk Hcl) as H. revert H.
  generalize (vmm_clone_user cr3 s r). intros [phys s'] [(? & ? & _)|?]; [by left|by right].
Qed.

(** C8: copy-on-write clone.  Cloning the user half of [r] either runs out of
    frames or returns a fresh PML4 whose space is a copy-on-write copy.  On
    success every present page maps the same frame on both sides: a private
    writable page has lost its write permission and become copy-on-write in both
    spaces, and any other page keeps its entry and permissions; absent pages are
    absent in the copy; the kernel half is the kernel's; no other space and no
    data byte changes; every frame gains exactly one reference per page that
    maps it; and the copy owns what it maps.  On failure everything is undone:
    the same frames are free, every reference count is as before, and the only
    trace is that some private pages of the source are copy-on-write. *)
Theorem vmm_clone_user_spec cr3 s roots r :
  vm_ok s roots → r ∈ roots → (vmm_kernel_pml4 cr3 s).1 ∈ roots → cloneable s roots r →
  let '(phys, s') := vmm_clone_user cr3 s r in
  (phys ≠ 0 ∧ cloned roots (vmm_kernel_pml4 cr3 s).1 r phys s s') ∨ (phys = 0 ∧ unclonable roots r s s').
Proof. apply clone_lemma. Qed.

(** The frame of a page of the source, after the clone. *)
Lemma cloned_frame roots k r phys s s' w :
  vm_ok s roots → r ∈ roots → cloneable s roots r → cloned roots k r phys s s' →
  is_user w → has (pte s r w) VMM_P = true →
  let u := frame_of s r w in
  p2v s' u = p2v s u ∧ mapped_frame s' (p2v s' phys :: roots) u ∧ 2 ≤ fa_refcount (fa s') u ∧ data_page s roots (p2v s u).
Proof.
  intros Hok Hr [L1 L2] C Hu HP u. destruct (L1 w Hu HP) as (Hd & Hlo & Hrc). fold u in Hd, Hlo, Hrc.
  destruct (frame_of_range s r w (ok_bytes _ _ Hok)) as [Hrg Hal]. fold u in Hrg, Hal.
  assert (Ep : p2v s' u = p2v s u) by (unfold p2v; by rewrite (cd_hhdm _ _ _ _ _ _ C)).
  pose proof (data_p2v s roots u (ok_fa _ _ Hok) Hrg Hd) as Ev.
  assert (Hnf : ¬ fa_free (fa s) u).
  { destruct Hd as (_ & _ & Hnf & _). rewrite Ev in Hnf. by replace (u + fa_hhdm (fa s) - fa_hhdm (fa s)) with u in Hnf by lia. }
  assert (H2 : 2 ≤ fa_refcount (fa s') u).
  { rewrite (cd_refs _ _ _ _ _ _ C) by (done || lia). pose proof (proj1 (user_pages_prefix w) Hu). pose proof (prefix_nonneg 4 w).
    pose proof (maps_mapped s r USER_PAGES (prefix 4 w) ltac:(lia)) as Hm. rewrite <- pte_pva in Hm.
    specialize (Hm HP). fold (frame_of s r w) in Hm. fold u in Hm. lia. }
  split_and!; [done| |done|done]. pose proof (cd_datap _ _ _ _ _ _ C _ Hd) as Hd'. rewrite <- Ep in Hd'.
  split_and!; [done|done|lia|]. destruct Hd' as (_ & _ & Hn & _). rewrite Ep, Ev, (cd_hhdm _ _ _ _ _ _ C) in Hn.
  by replace (u + fa_hhdm (fa s) - fa_hhdm (fa s)) with u in Hn by lia.
Qed.

(** C7: after a fork a write is private.  When the copy (or, symmetrically, the
    source) takes the write fault on a page that was private and writable before
    the clone, the handler gives it a fresh frame of its own, writable, with the
    bytes the page had; the other side still maps the old frame, read-only, and
    the old frame's bytes are unchanged. *)
Theorem fork_write_splits cr3 s roots r w err phys s1 side ok s2 :
  vm_ok s roots → r ∈ roots → (vmm_kernel_pml4 cr3 s).1 ∈ roots → cloneable s roots r →
  vmm_clone_user cr3 s r = (phys, s1) → phys ≠ 0 →
  is_user w → has (pte s r w) VMM_P = true → has (pte s r w) VMM_RW = true → has (pte s r w) VMM_SHARED = false →
  side = r ∨ side = p2v s1 phys → handle_cow s1 side w err = (ok, s2) → ok = true →
  let other := if side =? r then p2v s1 phys else r in
  let old := frame_of s r w in let new := frame_of s2 side w in
  frame_of s2 other w = old ∧ new ≠ old ∧
  has (pte s2 side w) VMM_RW = true ∧ has (pte s2 side w) VMM_COW = false ∧ fa_refcount (fa s2) new = 1 ∧
  has (pte s2 other w) VMM_RW = false ∧
  (∀ i, 0 ≤ i < PAGE_SIZE → vmem s2 (p2v s2 new + i) = vmem s (p2v s old + i)) ∧
  (∀ i, 0 ≤ i < PAGE_SIZE → vmem s2 (p2v s old + i) = vmem s (p2v s old + i)).
Proof.
  intros Hok Hr Hk Hcl Ec Hnz Hu HP HRW HSH Hside Eh ->. cbv zeta.
  pose proof (clone_lemma cr3 s roots r Hok Hr Hk Hcl) as H. rewrite Ec in H. destruct H as [[_ C]|[? _]]; [|done].
  set (dst := p2v s1 phys) in *. set (all := dst :: roots) in *. set (old := frame_of s r w) in *.
  destruct (cloned_frame roots _ r phys s s1 w Hok Hr Hcl C Hu HP) as (Ep & Hmf & H2 & Hd). fold old dst all in Ep, Hmf, H2, Hd.
  destruct (cd_page _ _ _ _ _ _ C w Hu HP) as [F1 F2 [P1 P2] _ _ Hperm]. rewrite HRW, HSH in Hperm. cbn [andb negb] in Hperm.
  destruct Hperm as (W1 & C1 & W2 & C2). fold dst in F2, P2, W2, C2.
  set (other := if side =? r then dst else r).
  assert (Hrd : r ≠ dst) by (intros E; apply (cd_notin _ _ _ _ _ _ C); fold dst; by rewrite <- E).
  assert (Hsides : side ∈ all ∧ other ∈ all ∧ other ≠ side ∧
            (∀ q, q = side ∨ q = other → Z.land (pte s1 q w) VMM_PHYS_MASK = old ∧ has (pte s1 q w) VMM_RW = false)).
  { assert (r ∈ all) by (by apply list_elem_of_further). assert (dst ∈ all) by apply list_elem_of_here.
    unfold other. destruct Hside as [->| ->]; [rewrite Z.eqb_refl|rewrite (proj2 (Z.eqb_neq dst r)) by done];
      split_and!; try done; intros q [->| ->]; split; done. }
  destruct Hsides as (Hs & Ho & Hne & Hq). destruct (Hq side (or_introl eq_refl)) as [Es _].
  destruct (Hq other (or_intror eq_refl)) as [Eo Wo].
  pose proof (handle_cow_lemma s1 all side w err (cd_ok _ _ _ _ _ _ C) Hs Hu) as M. cbv zeta in M. rewrite Eh, Es in M.
  destruct (M (λ _, Hmf)) as (FF & _ & (R1 & R2 & _) & Hone & Hcopy & Hor).
  assert (Eoth : pte s2 other w = pte s1 other w) by (apply (ff_pte _ _ _ _ _ _ FF); [done|right; left; done]).
  assert (Hnew : frame_of s2 side w ≠ old).
  { unfold frame_of. intros E. destruct Hor as [[_ Ef]|[Hf _]].
    - rewrite Ef, E in Hone. lia.
    - rewrite E in Hf. by destruct Hmf as (_ & _ & _ & Hn). }
  unfold frame_of at 1. rewrite Eoth, Eo. split_and!; [done|done|done|done|done|done| |].
  - intros i Hi. unfold frame_of. rewrite Hcopy by done. rewrite Ep. by apply (cd_data _ _ _ _ _ _ C).
  - intros i Hi. rewrite (ff_data _ _ _ _ _ _ FF); [by apply (cd_data _ _ _ _ _ _ C)| |done]. by apply (cd_datap _ _ _ _ _ _ C).
Qed.

(** A space that owns its pages can be cloned. *)
Lemma owned_cloneable s roots r :
  vm_ok s roots → user_owned s roots r →
  (∀ u, 0 < maps s r USER_PAGES u → fa_refcount (fa s) u + maps s r USER_PAGES u ≤ REF_MAX) → cloneable s roots r.
Proof.
  intros Hok [O1 O2 O3] Hsat. constructor; [|done]. intros w Hu HP. destruct (O1 w Hu HP) as [Hd Hlo]. split_and!; [done|done|].
  pose proof (proj1 (user_pages_prefix w) Hu). pose proof (prefix_nonneg 4 w).
  pose proof (maps_mapped s r USER_PAGES (prefix 4 w) ltac:(lia)) as Hm. rewrite <- pte_pva in Hm. specialize (Hm HP).
  specialize (O2 _ Hm). unfold frame_of. lia.
Qed.
End spec.

(** ** Forking a process with one page *)

Module CloneDemo.
Import VmmDemo FaultDemo DestroyDemo.

Definition RW_FLAGS : Z := Z.lor VMM_U VMM_RW.
Definition writable : vm pmm := (vmm_map_page before root PAGE_VA PAGE_PA RW_FLAGS).2.

Lemma rw_maps : (vmm_map_page before root PAGE_VA PAGE_PA RW_FLAGS).1 = true.
Proof. vm_compute. reflexivity. Qed.
Lemma writable_eq : vmm_map_page before root PAGE_VA PAGE_PA RW_FLAGS = (true, writable).
Proof. rewrite <- rw_maps. apply surjective_pairing. Qed.
Lemma rw_range : 0 ≤ RW_FLAGS < 2 ^ 64.
Proof. split; [done|reflexivity]. Qed.
#[global] Strategy 100 [writable].

Lemma writable_owned : user_owned writable [root] root.
Proof.
  exact (owned_map before [root] root PAGE_VA PAGE_PA RW_FLAGS writable before_ok root_in root_high page_user eq_refl
           page_pa_low rw_range eq_refl absent_page before_page spare_reference (owned_empty before [root] root before_empty)
           writable_eq).
Qed.

Definition RW_ENTRY : Z := Z.lor PAGE_PA (Z.lor RW_FLAGS VMM_P).

Lemma writable_ready :
  vm_ok writable [root] ∧ (∀ w, is_user w → pte writable root w = if decide (path_eq 4 PAGE_VA w) then RW_ENTRY else 0) ∧
  pmm_refcount (fa writable) PAGE_PA = 2 ∧ kernel_pml4_virt writable = 0 ∧ hhdm (fa writable) = HIGHER_HALF.
Proof.
  pose proof (map_page_spec before [root] root PAGE_VA PAGE_PA RW_FLAGS before_ok root_in page_user root_high
                pa_nonneg rw_range) as H. cbv zeta in H. rewrite writable_eq in H.
  destruct H as (s1 & t & G & Ht & E & Hx). rewrite E. pose proof (gr_ok _ _ _ G) as Hok1.
  split; [exact (leaf_ok s1 [root] root PAGE_VA t _ Hok1 root_in page_user Ht)|]. split; [|split; [|split]].
  - intros w Hu. destruct (decide (path_eq 4 PAGE_VA w)) as [Hp|Hn].
    + rewrite (leaf_pte_eq s1 [root] root PAGE_VA t _ Hok1 root_in page_user Ht Hx w Hp). reflexivity.
    + rewrite (leaf_pte_ne s1 [root] root PAGE_VA t _ Hok1 root_in page_user Ht Hx root w root_in) by tauto.
      rewrite (gr_pte _ _ _ G root w root_in). exact (before_absent w Hu).
  - change (fa_refcount (fa s1) PAGE_PA = 2). rewrite (gr_refs _ _ _ G PAGE_PA eq_refl pa_nonneg not_free_pa). exact shared_refs.
  - exact (gr_kpml4 _ _ _ G).
  - change (fa_hhdm (fa s1) = HIGHER_HALF). rewrite (gr_hhdm _ _ _ G). exact shared_hhdm.
Qed.

Lemma writable_sat u :
  0 < maps writable root USER_PAGES u → fa_refcount (fa writable) u + maps writable root USER_PAGES u ≤ REF_MAX.
Proof.
  destruct writable_ready as (_ & Hp & Hrc & _). intros Hm.
  assert (H1 : maps writable root USER_PAGES u ≤ 1).
  { eapply (maps_one writable root USER_PAGES (prefix 4 PAGE_VA) u). intros m Hm' Hne. destruct (pva_user m Hm') as [Hu E].
    rewrite Hp by exact Hu. destruct (decide (path_eq 4 PAGE_VA (pva m))) as [Hpe|]; [|reflexivity].
    apply prefix_path in Hpe. congruence. }
  apply maps_some in Hm as (m & Hm & E). unfold maps_page in E. destruct (pva_user m Hm) as [Hu _]. rewrite Hp in E by exact Hu.
  destruct (decide (path_eq 4 PAGE_VA (pva m))); [|discriminate E]. apply andb_true_iff in E as [_ E]. apply Z.eqb_eq in E.
  change (Z.land RW_ENTRY VMM_PHYS_MASK) with PAGE_PA in E. subst u.
  change (fa_refcount (fa writable) PAGE_PA) with (pmm_refcount (fa writable) PAGE_PA). rewrite Hrc. unfold REF_MAX. lia.
Qed.

Lemma writable_cloneable : cloneable writable [root] root.
Proof. exact (owned_cloneable writable [root] root (proj1 writable_ready) writable_owned writable_sat). Qed.

Lemma writable_kernel : (vmm_kernel_pml4 4096 writable).1 ∈ [root].
Proof.
  destruct writable_ready as (_ & _ & _ & Ek & Eh).
  assert (E : (vmm_kernel_pml4 4096 writable).1 = root).
  { unfold vmm_kernel_pml4. rewrite Ek, Z.eqb_refl. cbn [fst]. unfold p2v.
    change (fa_hhdm (fa writable)) with (hhdm (fa writable)). rewrite Eh. reflexivity. }
  rewrite E. exact root_in.
Qed.

Lemma vmm_clone_user_spec_witness :
  let '(phys, s') := vmm_clone_user 4096 writable root in
  (phys ≠ 0 ∧ shares (pte writable root PAGE_VA) (pte s' root PAGE_VA) (pte s' (p2v s' phys) PAGE_VA)) ∨
  (phys = 0 ∧ vm_ok s' [root]).
Proof.
  pose proof (vmm_clone_user_spec 4096 writable [root] root (proj1 writable_ready) root_in writable_kernel writable_cloneable) as H.
  destruct (vmm_clone_user 4096 writable root) as [phys s']. destruct H as [[Hn C]|[Hz C]].
  - left. split; [exact Hn|]. apply (cd_page _ _ _ _ _ _ C); [exact page_user|].
    destruct writable_ready as (_ & -> & _); [|exact page_user].
    destruct (decide (path_eq 4 PAGE_VA PAGE_VA)) as [|[]]; [reflexivity|apply path_eq_refl].
  - right. split; [exact Hz|apply C].
Defined.

Definition fork_phys : Z := (vmm_clone_user 4096 writable root).1.
Definition forked : vm pmm := (vmm_clone_user 4096 writable root).2.
Definition split : vm pmm := (handle_cow forked root PAGE_VA WRITE_FAULT).2.

Lemma forks : negb (fork_phys =? 0) = true.
Proof. vm_compute. reflexivity. Qed.
Lemma splits : (handle_cow forked root PAGE_VA WRITE_FAULT).1 = true.
Proof. vm_compute. reflexivity. Qed.
#[global] Strategy 100 [fork_phys forked split].

Lemma fork_phys_nz : fork_phys ≠ 0.
Proof. intros E. pose proof forks as H. rewrite E in H. discriminate H. Qed.

Lemma writable_entry : pte writable root PAGE_VA = RW_ENTRY.
Proof.
  destruct writable_ready as (_ & H & _). rewrite (H PAGE_VA page_user).
  destruct (decide (path_eq 4 PAGE_VA PAGE_VA)) as [|[]]; [reflexivity|apply path_eq_refl].
Qed.

Lemma fork_write_splits_witness :
  frame_of split root PAGE_VA ≠ frame_of writable root PAGE_VA ∧ has (pte split root PAGE_VA) VMM_RW = true.
Proof.
  destruct (fork_write_splits 4096 writable [root] root PAGE_VA WRITE_FAULT fork_phys forked root true split
              (proj1 writable_ready) root_in writable_kernel writable_cloneable (surjective_pairing _) fork_phys_nz
              page_user) as (_ & H1 & H2 & _).
  - rewrite writable_entry. reflexivity.
  - rewrite writable_entry. reflexivity.
  - rewrite writable_entry. reflexivity.
  - left. reflexivity.
  - rewrite <- splits. exact (surjective_pairing _).
  - reflexivity.
  - split; [exact H1|exact H2].
Defined.
End CloneDemo.
