(* ===== verification/SysMem.v ===== *)
(** * Memory system calls

    [sys_mem_alloc_impl], [sys_mem_map], [sys_mem_share_impl],
    [sys_mem_free_impl] and [sys_brk_impl] of [kernel/arch/x86_64/syscall.c] and
    [sys_mmap_impl], [sys_munmap_impl] and [sys_mprotect_impl] of
    [kernel/bsd/syscalls.c], on the page tables of [Vmm.v] and any frame allocator
    of [Frames.v].  [cur] is the calling process, [target] what [proc_by_pid] finds; the log messages of
    the error paths are left out. *)

From S2P Require Import Prelude Mem CString Block Pmm Frames Vmm VmmProofs VmmSpec Fault VmmWalk VmmDestroy.

(** [(uint64_t)-1] *)
Definition SYS_ERR : Z := 18446744073709551615.

Record mproc := mkMproc { mp_pid : Z; mp_ring3 : bool; mp_pml4_virt : Z }.
(** [!p || !p->pml4_virt] *)
Definition space_of (p : option mproc) : option Z :=
  match p with Some p => if mp_pml4_virt p =? 0 then None else Some (mp_pml4_virt p) | None => None end.

Definition user_flags (flags : Z) : Z :=
  Z.lor (Z.lor (Z.land flags (Z.lor (Z.lor VMM_RW VMM_WT) VMM_CD)) VMM_U) VMM_P.

Definition USER_HEAP_BASE : Z := 2199023255552.     (* 0x0000020000000000 *)
Definition USER_HEAP_MAX : Z := 3298534883328.      (* 0x0000030000000000 *)
Definition page_up (a : Z) : Z := Z.land (u64 (a + PAGE_SIZE - 1)) (Z.lnot (PAGE_SIZE - 1)).

Definition proc_brk_reset (b : list Z) (pid : Z) : list Z := if pid <? 32 then b.[pid <- 0] else b.

Section sysmem.
Context {F : Type} `{FA : FrameAlloc F}.
Implicit Types s : vm F.

Definition sys_mem_map s (cur : option mproc) (vaddr paddr flags : Z) : Z * vm F :=
  if HIGHER_HALF <=? vaddr then (SYS_ERR, s)
  else
    match space_of cur with
    | None => (SYS_ERR, s)
    | Some pml4 =>
        match vmm_map_page s pml4 vaddr paddr (user_flags flags) with
        | (false, s) => (SYS_ERR, s)
        | (true, s) => (0, s)
        end
    end.

Definition sys_mem_alloc s (cur : option mproc) (vaddr flags : Z) : Z * vm F :=
  if HIGHER_HALF <=? vaddr then (SYS_ERR, s)
  else
    let '(frame, f) := fa_alloc (fa s) in
    let s := with_fa s f in
    if frame =? 0 then (SYS_ERR, s)
    else
      match space_of cur with
      | None => (SYS_ERR, with_fa s (fa_unref (fa s) frame))
      | Some pml4 =>
          match vmm_map_page s pml4 vaddr frame (user_flags flags) with
          | (false, s) => (SYS_ERR, with_fa s (fa_unref (fa s) frame))
          | (true, s) => (0, s)
          end
      end.

Definition sys_mem_share s (cur target : option mproc) (vaddr target_vaddr flags : Z) : Z * vm F :=
  if negb (Z.land vaddr 0xFFF =? 0) then (SYS_ERR, s)
  else if negb (Z.land target_vaddr 0xFFF =? 0) then (SYS_ERR, s)
  else if HIGHER_HALF <=? target_vaddr then (SYS_ERR, s)
  else
    match space_of cur with
    | None => (SYS_ERR, s)
    | Some caller =>
        let paddr := vmm_virt_to_phys s caller vaddr in
        if paddr =? 0 then (SYS_ERR, s)
        else
          match space_of target with
          | None => (SYS_ERR, s)
          | Some tgt =>
              let s := with_fa s (fa_ref (fa s) paddr) in
              match vmm_map_page s tgt target_vaddr paddr (Z.lor (user_flags flags) VMM_SHARED) with
              | (false, s) => (SYS_ERR, with_fa s (fa_unref (fa s) paddr))
              | (true, s) =>
                  match vmm_pte_lookup s caller vaddr with
                  | Some a => (0, with_mem s (st64 (vmem s) a (Z.lor (ld64 (vmem s) a) VMM_SHARED)))
                  | None => (0, s)
                  end
              end
          end
    end.

Definition sys_mem_free s (cur : option mproc) (vaddr : Z) : Z * vm F :=
  match space_of cur with
  | None => (SYS_ERR, s)
  | Some pml4 =>
      let paddr := vmm_virt_to_phys s pml4 vaddr in
      if paddr =? 0 then (SYS_ERR, s)
      else
        let s := vmm_unmap_page s pml4 vaddr in
        (0, with_fa s (fa_unref (fa s) paddr))
  end.

(** One page of a growing heap; the result of [vmm_map_page] is ignored. *)
Definition brk_page (pml4 old_page : Z) (i : Z) s : bool * vm F :=
  let '(page, f) := fa_alloc (fa s) in
  let s := with_fa s f in
  if page =? 0 then (false, s)
  else (true, (vmm_map_page s pml4 (old_page + i * PAGE_SIZE) page (Z.lor VMM_U VMM_RW)).2).

Definition sys_brk (b : list Z) s (cur : option mproc) (addr : Z) : Z * list Z * vm F :=
  match cur with
  | None => (SYS_ERR, b, s)
  | Some p =>
      if negb (mp_ring3 p) then (SYS_ERR, b, s)
      else
        let i := u32 (mp_pid p) in
        if 32 <=? i then (SYS_ERR, b, s)
        else
          let b := if b.[i] =? 0 then b.[i <- USER_HEAP_BASE] else b in
          if addr =? 0 then (b.[i], b, s)
          else if (addr <? USER_HEAP_BASE) || (USER_HEAP_MAX <=? addr) then (SYS_ERR, b, s)
          else
            let old_brk := b.[i] in
            let old_page := page_up old_brk in
            let new_page := page_up addr in
            if old_page <? new_page then
              match for_ok (brk_page (mp_pml4_virt p) old_page) 0 (Z.to_nat ((new_page - old_page) / PAGE_SIZE)) s with
              | (false, s) => (old_brk, b, s)
              | (true, s) => (addr, b.[i <- addr], s)
              end
            else if new_page <? old_page then
              let s := iter_up (λ k s, vmm_unmap_page s (mp_pml4_virt p) (new_page + k * PAGE_SIZE)) 0
                         (Z.to_nat ((old_page - new_page) / PAGE_SIZE)) s in
              (addr, b.[i <- addr], s)
            else (addr, b.[i <- addr], s)
  end.

Definition mmap_flags (prot : Z) : Z :=
  let f := 0 in
  let f := if negb (Z.land prot 1 =? 0) then Z.lor f VMM_U else f in
  let f := if negb (Z.land prot 2 =? 0) then Z.lor f (Z.lor VMM_RW VMM_U) else f in
  if negb (Z.land prot 4 =? 0) then Z.lor f VMM_U else f.

Definition mmap_page (pml4 vaddr flags : Z) (i : Z) s : bool * vm F :=
  let '(phys, f) := fa_alloc (fa s) in
  let s := with_fa s f in
  if phys =? 0 then (false, s)
  else vmm_map_page s pml4 (u64 (vaddr + i * 0x1000)) phys (Z.lor flags VMM_P).

(** [anon_base] is the static variable the call allocates addresses from. *)
Definition sys_mmap (anon_base : Z) s (cur : option mproc) (addr length prot : Z) : Z * Z * vm F :=
  let flags := mmap_flags prot in
  let vaddr := if addr =? 0 then anon_base else addr in
  let anon_base := if addr =? 0 then u64 (anon_base + Z.land (u64 (length + 0xFFF)) (u64 (Z.lnot 0xFFF))) else anon_base in
  let npages := u64 (length + 0xFFF) / 0x1000 in
  match space_of cur with
  | None => (SYS_ERR, anon_base, s)
  | Some pml4 =>
      match for_ok (mmap_page pml4 vaddr flags) 0 (Z.to_nat npages) s with
      | (false, s) => (SYS_ERR, anon_base, s)
      | (true, s) => (vaddr, anon_base, s)
      end
  end.

(** [sys_munmap_impl], [sys_mprotect_impl]: nothing is done. *)
Definition sys_munmap s (addr length : Z) : Z * vm F := (0, s).
Definition sys_mprotect s (addr length prot : Z) : Z * vm F := (0, s).
End sysmem.

(** ** Frames and the spaces that map them *)

Section spaces.
Context {F : Type} `{FA : FrameAlloc F} `{FL : !FrameAllocLaws F}.
Implicit Types s : vm F.

(** How many user pages of all the spaces map the frame [u]. *)
Definition refs s (roots : list Z) (u : Z) : Z := foldr (λ r n, maps s r USER_PAGES u + n) 0 roots.

(** Every user page of every space maps a data frame; a frame has at least as
    many references as pages that map it, and a page table exactly one; an entry
    that is not present is 0. *)
Record spaces_ok s (roots : list Z) : Prop := {
  sp_vm : vm_ok s roots;
  sp_nodup : NoDup roots;
  sp_frame : ∀ r w, r ∈ roots → is_user w → has (pte s r w) VMM_P = true →
    data_page s roots (p2v s (frame_of s r w)) ∧ LOW_FRAMES * PAGE_SIZE ≤ frame_of s r w;
  sp_refs : ∀ u, 0 < refs s roots u → refs s roots u ≤ fa_refcount (fa s) u;
  sp_table : ∀ r d w t, r ∈ roots → (1 ≤ d ≤ 3)%nat → is_user w → tbl s r d w = Some t →
    LOW_FRAMES * PAGE_SIZE ≤ t - fa_hhdm (fa s) ∧ fa_refcount (fa s) (t - fa_hhdm (fa s)) = 1;
  sp_zero : ∀ r w, r ∈ roots → is_user w → has (pte s r w) VMM_P = true ∨ pte s r w = 0;
}.

Definition entry_maps (e u : Z) : bool := has e VMM_P && (Z.land e VMM_PHYS_MASK =? u).
Definition b2z (b : bool) : Z := if b then 1 else 0.

Lemma refs_cons s r roots u : refs s (r :: roots) u = maps s r USER_PAGES u + refs s roots u.
Proof. done. Qed.

Lemma refs_nonneg s roots u : 0 ≤ refs s roots u.
Proof.
  induction roots as [|r roots IH]; [done|]. rewrite refs_cons. pose proof (maps_bounds s r 0 USER_PAGES u ltac:(rewrite user_pages_val; lia)). lia.
Qed.

Lemma refs_ge s roots r u : r ∈ roots → maps s r USER_PAGES u ≤ refs s roots u.
Proof.
  induction roots as [|r' roots IH]; intros Hr; [by apply not_elem_of_nil in Hr|]. rewrite ?refs_cons.
  pose proof (refs_nonneg s roots u). pose proof (maps_bounds s r' 0 USER_PAGES u ltac:(rewrite user_pages_val; lia)).
  apply elem_of_cons in Hr as [->|Hr]; [lia|]. specialize (IH Hr). lia.
Qed.

Lemma refs_pos s roots u : 0 < refs s roots u → ∃ r, r ∈ roots ∧ 0 < maps s r USER_PAGES u.
Proof.
  induction roots as [|r roots IH]; [done|]. rewrite refs_cons. intros H. destruct (decide (0 < maps s r USER_PAGES u)) as [Hm|Hm].
  - exists r. split; [apply elem_of_cons; by left|done].
  - destruct IH as (r' & Hr' & Hm'); [lia|]. exists r'. split; [apply elem_of_cons; by right|done].
Qed.

Lemma refs_ext s s' roots u :
  (∀ r w, r ∈ roots → is_user w → pte s' r w = pte s r w) → refs s' roots u = refs s roots u.
Proof.
  intros H. induction roots as [|r roots IH]; [done|]. rewrite !refs_cons, IH.
  - f_equal. apply maps_ext. intros m Hm. apply H; [apply elem_of_cons; by left|by apply pva_user].
  - intros r' w Hr'. apply H. apply elem_of_cons. by right.
Qed.

Lemma refs_change s s' roots r u δ :
  NoDup roots → r ∈ roots →
  (∀ r', r' ∈ roots → r' ≠ r → maps s' r' USER_PAGES u = maps s r' USER_PAGES u) →
  maps s' r USER_PAGES u = maps s r USER_PAGES u + δ → refs s' roots u = refs s roots u + δ.
Proof.
  induction 1 as [|r0 roots Hn Hnd IH]; intros Hr Ho Hm; [by apply not_elem_of_nil in Hr|]. rewrite ?refs_cons.
  destruct (decide (r0 = r)) as [->|Hne].
  - assert (E : refs s' roots u = refs s roots u).
    { clear -Ho Hn. assert (Ho' : ∀ r', r' ∈ roots → maps s' r' USER_PAGES u = maps s r' USER_PAGES u).
      { intros r' Hr'. apply Ho; [apply elem_of_cons; by right|]. by intros ->. }
      clear Ho Hn. induction roots as [|r1 roots IH]; [done|]. rewrite !refs_cons, Ho' by (apply elem_of_cons; by left).
      rewrite IH; [done|]. intros r' Hr'. apply Ho'. apply elem_of_cons. by right. }
    lia.
  - apply elem_of_cons in Hr as [->|Hr]; [done|]. rewrite (Ho r0) by (done || (apply elem_of_cons; by left)).
    rewrite IH; [lia|done| |done]. intros r' Hr'. apply Ho. apply elem_of_cons. by right.
Qed.

(** A frame some user page maps. *)
Lemma refs_frame s roots u :
  spaces_ok s roots → 0 < refs s roots u →
  page_aligned u ∧ 0 ≤ u < 2 ^ 52 ∧ LOW_FRAMES * PAGE_SIZE ≤ u ∧ data_page s roots (p2v s u) ∧
  p2v s u = u + fa_hhdm (fa s) ∧ ¬ fa_free (fa s) u.
Proof.
  intros Hs Hu. apply refs_pos in Hu as (r & Hr & Hm). apply maps_some in Hm as (m & Hm & Hmp).
  unfold maps_page in Hmp. apply andb_true_iff in Hmp as [HP HE]. apply Z.eqb_eq in HE.
  destruct (pva_user m Hm) as [Hw _]. destruct (sp_frame _ _ Hs r (pva m) Hr Hw HP) as [Hd Hlo].
  unfold frame_of in *. rewrite HE in *.
  pose proof (frame_of_range s r (pva m) (ok_bytes _ _ (sp_vm _ _ Hs))) as [H52 Hal]. unfold frame_of in *. rewrite HE in *.
  pose proof (data_p2v s roots u (ok_fa _ _ (sp_vm _ _ Hs)) H52 Hd) as Ep. split_and!; try done; try lia.
  destruct Hd as (_ & _ & Hnf & _). rewrite Ep in Hnf. by replace (u + fa_hhdm (fa s) - fa_hhdm (fa s)) with u in Hnf by lia.
Qed.

(** Each space owns what it maps. *)
Lemma spaces_owned s roots r : spaces_ok s roots → r ∈ roots → user_owned s roots r.
Proof.
  intros Hs Hr. constructor.
  - intros w. by apply (sp_frame _ _ Hs).
  - intros u Hu. pose proof (refs_ge s roots r u Hr). etrans; [done|]. apply (sp_refs _ _ Hs). lia.
  - intros d w t. by apply (sp_table _ _ Hs).
Qed.

(** Adding page tables. *)
Lemma spaces_grows s s' roots : spaces_ok s roots → grows roots s s' → spaces_ok s' roots.
Proof.
  intros Hs G. assert (Hp2v : ∀ q, p2v s' q = p2v s q) by (intros q; unfold p2v; by rewrite (gr_hhdm _ _ _ G)).
  assert (Hrefs : ∀ u, refs s' roots u = refs s roots u) by (intros u; apply refs_ext; intros; by apply (gr_pte _ _ _ G)).
  constructor; [apply G|apply Hs| | | |intros r w Hr Hw; rewrite (gr_pte _ _ _ G) by done; by apply Hs].
  - intros r w Hr Hw. unfold frame_of. rewrite (gr_pte _ _ _ G) by done. intros HP. rewrite Hp2v.
    destruct (sp_frame _ _ Hs r w Hr Hw HP) as [Hd Hlo]. split; [by apply (gr_page _ _ _ G)|done].
  - intros u. rewrite Hrefs. intros Hu. destruct (refs_frame s roots u Hs Hu) as (Ha & H52 & _ & _ & _ & Hnf).
    rewrite (gr_refs _ _ _ G) by (done || lia). by apply (sp_refs _ _ Hs).
  - intros r d w t Hr Hd Hw Et. rewrite (gr_hhdm _ _ _ G).
    destruct (gr_new _ _ _ G r d w t Hr ltac:(lia) Et) as [Eo|[Hf Hrc]].
    + destruct (sp_table _ _ Hs r d w t Hr Hd Hw Eo) as [Hlo Hr1]. split; [done|].
      destruct (ok_tab _ _ (sp_vm _ _ Hs) r d w t Hr ltac:(lia) Eo) as (? & _ & Hta & Hnf).
      destruct (fa_hhdm_range _ (ok_fa _ _ (sp_vm _ _ Hs))) as [_ Hha].
      rewrite (gr_refs _ _ _ G); [done|unfold page_aligned, PAGE_SIZE in *; zlia|lia|done].
    + split; [|done]. by destruct (fa_free_frame _ _ (ok_fa _ _ (sp_vm _ _ Hs)) Hf).
Qed.

(** *** Changing one entry *)

Lemma refs_leaf s roots r v t x u :
  vm_ok s roots → NoDup roots → r ∈ roots → is_user v → tbl s r 3 v = Some t → 0 ≤ x < 2 ^ 64 →
  refs (wr_entry s t (PT_IDX v) x) roots u =
    refs s roots u + (b2z (entry_maps x u) - b2z (entry_maps (pte s r v) u)).
Proof.
  intros Hok Hnd Hr Hu Ht Hx. set (s' := wr_entry s t (PT_IDX v) x).
  assert (Hne : ∀ r' w, r' ∈ roots → ¬ (r' = r ∧ path_eq 4 v w) → pte s' r' w = pte s r' w)
    by (intros; by apply (leaf_pte_ne s roots r v t x Hok Hr Hu Ht Hx)).
  apply (refs_change s s' roots r); [done|done| |].
  - intros r' Hr' Hne'. apply maps_ext. intros m _. apply Hne; [done|]. tauto.
  - assert (Hk : 0 ≤ prefix 4 v < USER_PAGES) by (split; [apply prefix_nonneg|by apply user_pages_prefix]).
    rewrite (maps_upd s s' r USER_PAGES (prefix 4 v) u Hk).
    + unfold maps_page. rewrite <- !pte_pva. unfold s' at 1 2. rewrite (leaf_pte_eq s roots r v t x Hok Hr Hu Ht Hx v (path_eq_refl _ _)).
      unfold entry_maps, b2z. lia.
    + intros m Hm Hmk. apply Hne; [done|]. intros [_ Hp]. apply prefix_path in Hp. destruct (pva_user m Hm) as [_ E]. congruence.
Qed.

Lemma leaf_page s roots r v t x p :
  vm_ok s roots → r ∈ roots → is_user v → tbl s r 3 v = Some t → 0 ≤ x < 2 ^ 64 →
  data_page s roots p → data_page (wr_entry s t (PT_IDX v) x) roots p.
Proof.
  intros Hok Hr Hu Ht Hx (H1 & H2 & H3 & H4). split_and!; [done..|]. intros r' d w Hr' Hd.
  rewrite (leaf_tbl s roots r v t x Hok Hr Hu Ht) by done. by apply H4.
Qed.

Lemma spaces_leaf s roots r v t x :
  spaces_ok s roots → r ∈ roots → is_user v → tbl s r 3 v = Some t → 0 ≤ x < 2 ^ 64 →
  has x VMM_P = true ∨ x = 0 →
  (has x VMM_P = true →
     let u := Z.land x VMM_PHYS_MASK in
     data_page s roots (p2v s u) ∧ LOW_FRAMES * PAGE_SIZE ≤ u ∧
     refs s roots u - b2z (entry_maps (pte s r v) u) < fa_refcount (fa s) u) →
  spaces_ok (wr_entry s t (PT_IDX v) x) roots.
Proof.
  intros Hs Hr Hu Ht Hx Hx0 Hxu. pose proof (sp_vm _ _ Hs) as Hok. set (s' := wr_entry s t (PT_IDX v) x).
  constructor.
  - by apply (leaf_ok s roots r v t x Hok Hr Hu Ht).
  - apply Hs.
  - intros r' w Hr' Hw. change (p2v s' (frame_of s' r' w)) with (p2v s (frame_of s' r' w)). unfold frame_of.
    destruct (decide (r' = r ∧ path_eq 4 v w)) as [[-> Hp]|Hn].
    + unfold s'. rewrite (leaf_pte_eq s roots r v t x Hok Hr Hu Ht Hx w Hp). intros HP.
      destruct (Hxu HP) as (Hd & Hlo & _). split; [by apply (leaf_page s roots r)|done].
    + unfold s'. rewrite (leaf_pte_ne s roots r v t x Hok Hr Hu Ht Hx r' w Hr' Hn). intros HP.
      destruct (sp_frame _ _ Hs r' w Hr' Hw HP) as [Hd Hlo]. split; [by apply (leaf_page s roots r)|done].
  - intros u. change (fa s') with (fa s). unfold s'. rewrite (refs_leaf s roots r v t x u Hok (sp_nodup _ _ Hs) Hr Hu Ht Hx).
    unfold entry_maps at 1 3. destruct (has x VMM_P) eqn:HP; cbn [andb].
    + destruct (Z.eqb_spec (Z.land x VMM_PHYS_MASK) u) as [<-|Hne].
      * destruct (Hxu eq_refl) as (_ & _ & Hlt). unfold b2z at 1 3. lia.
      * change (b2z false) with 0. pose proof (sp_refs _ _ Hs u). destruct (entry_maps (pte s r v) u); unfold b2z; lia.
    + change (b2z false) with 0. pose proof (sp_refs _ _ Hs u). destruct (entry_maps (pte s r v) u); unfold b2z; lia.
  - intros r' d w t' Hr' Hd Hw. unfold s'. rewrite (leaf_tbl s roots r v t x Hok Hr Hu Ht) by (done || lia). by apply (sp_table _ _ Hs).
  - intros r' w Hr' Hw. destruct (decide (r' = r ∧ path_eq 4 v w)) as [[-> Hp]|Hn]; unfold s'.
    + by rewrite (leaf_pte_eq s roots r v t x Hok Hr Hu Ht Hx w Hp).
    + rewrite (leaf_pte_ne s roots r v t x Hok Hr Hu Ht Hx r' w Hr' Hn). by apply Hs.
Qed.

(** *** Changing reference counts *)

(** A page of a space counts as a reference to its frame. *)
Lemma refs_mapped s roots r w :
  r ∈ roots → is_user w → has (pte s r w) VMM_P = true → 0 < refs s roots (frame_of s r w).
Proof.
  intros Hr Hw HP. pose proof (refs_ge s roots r (frame_of s r w) Hr).
  assert (Hm : 0 ≤ prefix 4 w < USER_PAGES) by (split; [apply prefix_nonneg|by apply user_pages_prefix]).
  pose proof (maps_mapped s r USER_PAGES (prefix 4 w) Hm) as H1. rewrite <- pte_pva in H1. specialize (H1 HP). unfold frame_of in *. lia.
Qed.

Lemma spaces_fa s (f : F) roots u0 :
  spaces_ok s roots → fa_ok f → fa_hhdm f = fa_hhdm (fa s) →
  page_aligned u0 → 0 ≤ u0 → data_page s roots (u0 + fa_hhdm (fa s)) →
  (∀ u, fa_free f u → fa_free (fa s) u ∨ u = u0 ∧ refs s roots u0 = 0) →
  (∀ u, page_aligned u → 0 ≤ u → u ≠ u0 → fa_refcount f u = fa_refcount (fa s) u) →
  (0 < refs s roots u0 → refs s roots u0 ≤ fa_refcount f u0) →
  spaces_ok (with_fa s f) roots.
Proof.
  intros Hs Hf Hh Hua Hu0 Hdat Hfree Hcnt Hu. pose proof (sp_vm _ _ Hs) as Hok.
  assert (Htab : ∀ r d w t, r ∈ roots → (d ≤ 3)%nat → tbl s r d w = Some t →
    t - fa_hhdm (fa s) ≠ u0 ∧ page_aligned (t - fa_hhdm (fa s)) ∧ 0 ≤ t - fa_hhdm (fa s) ∧ ¬ fa_free (fa s) (t - fa_hhdm (fa s))).
  { intros r d w t Hr Hd E. destruct (ok_tab _ _ Hok r d w t Hr Hd E) as (H1 & _ & Ha & Hn).
    destruct (fa_hhdm_range _ (ok_fa _ _ Hok)) as [_ Hha]. split_and!; [|unfold page_aligned, PAGE_SIZE in *; zlia|lia|done].
    intros <-. destruct Hdat as (_ & _ & _ & Hnt). apply (Hnt r d w Hr Hd). rewrite E. f_equal. lia. }
  assert (Hrefs : ∀ u, refs (with_fa s f) roots u = refs s roots u) by (intros u; apply refs_ext; intros; by apply pte_fa).
  constructor.
  - apply fa_swap; [done..|]. intros r d w t Hr Hd E. rewrite Hh. destruct (Htab r d w t Hr Hd E) as (H1 & _ & _ & H4).
    intros Hfr. destruct (Hfree _ Hfr) as [?|[? _]]; done.
  - apply Hs.
  - intros r w Hr Hw. unfold frame_of. rewrite pte_fa by done. intros HP. pose proof (refs_mapped s roots r w Hr Hw HP) as Hpos.
    destruct (sp_frame _ _ Hs r w Hr Hw HP) as [(D1 & D2 & D3 & D4) Hlo]. split; [|done].
    assert (Ep : p2v (with_fa s f) (Z.land (pte s r w) VMM_PHYS_MASK) = p2v s (frame_of s r w)) by (unfold p2v; cbn [with_fa fa]; by rewrite Hh).
    rewrite Ep. split_and!; cbn [with_fa fa]; rewrite ?Hh; [done|done| |].
    + intros Hfr. destruct (Hfree _ Hfr) as [?|[E0 ?]]; [done|].
      destruct (refs_frame s roots _ Hs Hpos) as (_ & _ & _ & _ & Ep2 & _). rewrite Ep2 in E0.
      replace (frame_of s r w) with u0 in Hpos by lia. lia.
    + intros r' d v Hr' Hd. rewrite tbl_fa by done. by apply D4.
  - intros u. rewrite Hrefs. cbn [with_fa fa]. intros Hpos. destruct (decide (u = u0)) as [->|Hne]; [by apply Hu|].
    destruct (refs_frame s roots u Hs Hpos) as (Ha & H52 & _). rewrite Hcnt by (done || lia). by apply (sp_refs _ _ Hs).
  - intros r d w t Hr Hd Hw. rewrite tbl_fa by done. intros E. cbn [with_fa fa]. rewrite Hh.
    destruct (Htab r d w t Hr ltac:(lia) E) as (H1 & H2 & H3 & _). rewrite Hcnt by done. by apply (sp_table _ _ Hs r d w t).
  - intros r w Hr Hw. rewrite pte_fa by done. by apply Hs.
Qed.

Lemma spaces_ref s roots u0 :
  spaces_ok s roots → page_aligned u0 → LOW_FRAMES * PAGE_SIZE ≤ u0 → 0 < fa_refcount (fa s) u0 < REF_MAX →
  data_page s roots (u0 + fa_hhdm (fa s)) → spaces_ok (with_fa s (fa_ref (fa s) u0)) roots.
Proof.
  intros Hs Ha Hlo Hrc Hd. destruct (fa_ref_spec (fa s) u0 (ok_fa _ _ (sp_vm _ _ Hs)) Ha Hlo Hrc) as (H1 & H2 & H3 & H4).
  assert (0 ≤ u0) by (unfold LOW_FRAMES, PAGE_SIZE in *; lia).
  apply (spaces_fa s _ roots u0); try done.
  - intros u Hu. left. by apply H3.
  - intros u Hua Hu0 Hne. rewrite H4 by done. by destruct (Z.eqb_spec u u0).
  - intros Hp. rewrite H4 by done. rewrite Z.eqb_refl. pose proof (sp_refs _ _ Hs u0 Hp). lia.
Qed.

Lemma spaces_unref s roots u0 :
  spaces_ok s roots → page_aligned u0 → LOW_FRAMES * PAGE_SIZE ≤ u0 → refs s roots u0 < fa_refcount (fa s) u0 →
  data_page s roots (u0 + fa_hhdm (fa s)) → spaces_ok (with_fa s (fa_unref (fa s) u0)) roots.
Proof.
  intros Hs Ha Hlo Hrc Hd. pose proof (refs_nonneg s roots u0) as Hn.
  destruct (fa_unref_spec (fa s) u0 (ok_fa _ _ (sp_vm _ _ Hs)) Ha Hlo ltac:(lia)) as (H1 & H2 & H3 & H4).
  assert (0 ≤ u0) by (unfold LOW_FRAMES, PAGE_SIZE in *; lia).
  apply (spaces_fa s _ roots u0); try done.
  - intros u Hu. apply H3 in Hu as [?|[-> ?]]; [by left|right]. split; [done|lia].
  - intros u Hua Hu0 Hne. rewrite H4 by done. by destruct (Z.eqb_spec u u0).
  - intros Hp. rewrite H4 by done. rewrite Z.eqb_refl. lia.
Qed.

(** *** Mapping a page *)

(** What a mapping call leaves alone, whether it succeeds or not. *)
Record map_effect s s' (roots : list Z) (r v : Z) (ok : bool) : Prop := {
  me_spaces : spaces_ok s' roots;
  me_hhdm : fa_hhdm (fa s') = fa_hhdm (fa s);
  me_pte : ∀ r' w, r' ∈ roots → ok = false ∨ r' ≠ r ∨ ¬ path_eq 4 v w → pte s' r' w = pte s r' w;
  me_page : ∀ p, data_page s roots p → data_page s' roots p;
  me_data : ∀ p i, data_page s roots p → 0 ≤ i < PAGE_SIZE → vmem s' (p + i) = vmem s (p + i);
  me_count : ∀ u, page_aligned u → 0 ≤ u → ¬ fa_free (fa s) u → fa_refcount (fa s') u = fa_refcount (fa s) u;
}.

Lemma spaces_map s roots r v paddr flags :
  spaces_ok s roots → r ∈ roots → HIGHER_HALF ≤ r → is_user v →
  page_aligned paddr → LOW_FRAMES * PAGE_SIZE ≤ paddr < 2 ^ 52 →
  0 ≤ flags < 2 ^ 64 → Z.land flags VMM_PHYS_MASK = 0 →
  data_page s roots (p2v s paddr) → refs s roots paddr < fa_refcount (fa s) paddr → ¬ fa_free (fa s) paddr →
  let '(ok, s') := vmm_map_page s r v paddr flags in
  map_effect s s' roots r v ok ∧
  (∀ u, refs s' roots u = refs s roots u + if ok then b2z (paddr =? u) - b2z (entry_maps (pte s r v) u) else 0) ∧
  (if ok then ∀ w, path_eq 4 v w → pte s' r w = Z.lor paddr (Z.lor flags VMM_P) else ∀ u, ¬ fa_free (fa s') u).
Proof.
  intros Hs Hr Hhi Hu Hal Hpa Hfl Hfm Hdat Hrc Hnf. pose proof (sp_vm _ _ Hs) as Hok.
  assert (Hpa0 : 0 ≤ paddr < 2 ^ 52) by (unfold LOW_FRAMES, PAGE_SIZE in *; lia).
  pose proof (map_page_spec s roots r v paddr flags Hok Hr Hu Hhi ltac:(lia) Hfl) as M. cbv zeta in M.
  destruct (vmm_map_page s r v paddr flags) as [[] s'].
  2:{ destruct M as [L Hno]. pose proof (li_grows _ _ _ _ L) as G. split_and!; [|intros u|done].
      - constructor; [by apply (spaces_grows s)|apply G|intros; by apply (gr_pte _ _ _ G)|apply G|apply G|apply G].
      - rewrite Z.add_0_r. apply refs_ext. intros. by apply (gr_pte _ _ _ G). }
  destruct M as (s1 & t & L & Ht & -> & Hx). pose proof (li_grows _ _ _ _ L) as G. pose proof (spaces_grows s s1 roots Hs G) as Hs1.
  rewrite (land_mask_frame paddr) in * by done. set (x := Z.lor _ _) in *. pose proof (gr_ok _ _ _ G) as Hok1.
  assert (Ex : Z.land x VMM_PHYS_MASK = paddr).
  { unfold x. rewrite land_mask_lor; [by apply land_mask_frame|]. rewrite Z.land_lor_distr_l, Hfm. reflexivity. }
  assert (HxP : has x VMM_P = true) by (unfold x; flag_bits; by rewrite !orb_true_r).
  assert (Hp2v : ∀ q, p2v s1 q = p2v s q) by (intros q; unfold p2v; by rewrite (gr_hhdm _ _ _ G)).
  assert (Hrefs1 : ∀ u, refs s1 roots u = refs s roots u) by (intros u; apply refs_ext; intros; by apply (gr_pte _ _ _ G)).
  assert (Hcnt1 : fa_refcount (fa s1) paddr = fa_refcount (fa s) paddr) by (apply (gr_refs _ _ _ G); [done|lia|done]).
  split_and!.
  - constructor.
    + apply (spaces_leaf s1 roots r); [done..|by left|]. intros _. cbv zeta. rewrite Ex, Hp2v, Hrefs1, Hcnt1.
      split_and!; [by apply (gr_page _ _ _ G)|lia|]. destruct (entry_maps _ _); unfold b2z; lia.
    + apply (gr_hhdm _ _ _ G).
    + intros r' w Hr' [?|Hne]; [done|]. rewrite (leaf_pte_ne s1 roots r v t x Hok1 Hr Hu Ht Hx r' w Hr') by tauto. by apply (gr_pte _ _ _ G).
    + intros p Hp. apply (leaf_page s1 roots r); [done..|]. by apply (gr_page _ _ _ G).
    + intros p i Hp Hi. rewrite (leaf_data s1 roots r) by (done || by apply (gr_page _ _ _ G)). by apply (gr_data _ _ _ G).
    + apply (gr_refs _ _ _ G).
  - intros u. rewrite (refs_leaf s1 roots r v t x u Hok1 (sp_nodup _ _ Hs) Hr Hu Ht Hx), Hrefs1, (gr_pte _ _ _ G) by done.
    unfold entry_maps at 1. by rewrite HxP, Ex.
  - intros w Hw. by apply (leaf_pte_eq s1 roots r v t x Hok1 Hr Hu Ht Hx).
Qed.
End spaces.

(** ** The calls *)

Lemma user_flags_ok flags :
  0 ≤ flags → 0 ≤ user_flags flags < 2 ^ 64 ∧ Z.land (user_flags flags) VMM_PHYS_MASK = 0 ∧
  Z.lor (user_flags flags) VMM_P = user_flags flags ∧ has (user_flags flags) VMM_U = true.
Proof.
  intros Hf. assert (Hm : Z.land flags (Z.lor (Z.lor VMM_RW VMM_WT) VMM_CD) = Z.land (flags mod 32) 26).
  { change (Z.lor (Z.lor VMM_RW VMM_WT) VMM_CD) with (Z.land (Z.ones 5) 26). rewrite Z.land_assoc, Z.land_ones by lia. done. }
  unfold user_flags. rewrite Hm. pose proof (Z.mod_pos_bound flags 32 ltac:(lia)) as Hb.
  assert (H : forallb (λ n, let k := Z.land (Z.of_nat n) 26 in let f := Z.lor (Z.lor k VMM_U) VMM_P in
    (0 <=? f) && (f <? 2 ^ 64) && (Z.land f VMM_PHYS_MASK =? 0) && (Z.lor f VMM_P =? f) && has f VMM_U) (seq 0 32) = true)
    by (vm_compute; reflexivity).
  rewrite forallb_forall in H. specialize (H (Z.to_nat (flags mod 32)) ltac:(apply in_seq; lia)).
  rewrite Z2Nat.id in H by lia. cbv zeta in H. bools. done.
Qed.

Section calls.
Context {F : Type} `{FA : FrameAlloc F} `{FL : !FrameAllocLaws F}.
Implicit Types s : vm F.

Lemma map_effect_grows s s1 s2 roots r v ok :
  grows roots s s1 → map_effect s1 s2 roots r v ok → map_effect s s2 roots r v ok.
Proof.
  intros G M. constructor.
  - apply M.
  - by rewrite (me_hhdm _ _ _ _ _ _ M), (gr_hhdm _ _ _ G).
  - intros r' w Hr' Hne. rewrite (me_pte _ _ _ _ _ _ M) by done. by apply (gr_pte _ _ _ G).
  - intros p Hp. by apply (me_page _ _ _ _ _ _ M), (gr_page _ _ _ G).
  - intros p i Hp Hi. rewrite (me_data _ _ _ _ _ _ M) by (done || by apply (gr_page _ _ _ G)). by apply (gr_data _ _ _ G).
  - intros u Ha Hu Hn. rewrite (me_count _ _ _ _ _ _ M); [by apply (gr_refs _ _ _ G)|done|done|]. intros Hf. by apply Hn, (gr_free _ _ _ G).
Qed.

(** Giving a fresh frame back. *)
Lemma map_effect_undo s s2 roots r v t :
  fa_ok (fa s) → map_effect s s2 roots r v false → fa_free (fa s) t → refs s2 roots t = 0 → fa_refcount (fa s2) t = 1 →
  data_page s2 roots (t + fa_hhdm (fa s2)) → map_effect s (with_fa s2 (fa_unref (fa s2) t)) roots r v false.
Proof.
  intros Hf0 M Hf Hrefs Hrc Hd. pose proof (me_spaces _ _ _ _ _ _ M) as Hs2.
  destruct (fa_free_frame _ _ Hf0 Hf) as (Hlo & _ & Ha & _).
  destruct (fa_unref_spec (fa s2) t (ok_fa _ _ (sp_vm _ _ Hs2)) Ha Hlo ltac:(lia)) as (H1 & H2 & H3 & H4).
  constructor.
  - apply spaces_unref; [done..|lia|done].
  - cbn [with_fa fa]. by rewrite H2, (me_hhdm _ _ _ _ _ _ M).
  - intros r' w Hr' Hne. rewrite pte_fa by done. by apply (me_pte _ _ _ _ _ _ M).
  - intros p Hp. destruct (me_page _ _ _ _ _ _ M p Hp) as (D1 & D2 & D3 & D4). split_and!; cbn [with_fa fa]; rewrite ?H2; [done|done| |].
    + rewrite H3. intros [?|[E _]]; [done|]. destruct Hp as (_ & _ & Hn & _). apply Hn.
      rewrite <- (me_hhdm _ _ _ _ _ _ M), E. done.
    + intros r' d w Hr' Hdd. rewrite tbl_fa by done. by apply D4.
  - apply M.
  - intros u Hua Hu Hn. cbn [with_fa fa]. rewrite H4 by done. destruct (Z.eqb_spec u t) as [->|]; [done|]. by apply (me_count _ _ _ _ _ _ M).
Qed.

(** A fresh frame, before it is mapped anywhere. *)
Lemma spaces_alloc s roots :
  spaces_ok s roots →
  (fa_alloc (fa s) = (0, fa s) ∧ ∀ u, ¬ fa_free (fa s) u) ∨
  ∃ t f, fa_alloc (fa s) = (t, f) ∧ t ≠ 0 ∧ fa_free (fa s) t ∧ LOW_FRAMES * PAGE_SIZE ≤ t < 2 ^ 52 ∧ page_aligned t ∧
    grows roots s (with_fa s f) ∧ spaces_ok (with_fa s f) roots ∧ data_page (with_fa s f) roots (p2v (with_fa s f) t) ∧
    p2v (with_fa s f) t = t + fa_hhdm (fa s) ∧ ¬ fa_free f t ∧
    refs (with_fa s f) roots t = 0 ∧ fa_refcount f t = 1.
Proof.
  intros Hs. pose proof (sp_vm _ _ Hs) as Hok.
  destruct (fa_alloc_spec (fa s) (ok_fa _ _ Hok)) as [?|(t & f & E & Hf & Hfok & Hh & Hfr & Hrc)]; [by left|right].
  exists t, f. destruct (fa_free_frame _ _ (ok_fa _ _ Hok) Hf) as (Hlo & Hhi & Ha & _).
  assert (Ht0 : 0 ≤ t) by (unfold LOW_FRAMES, PAGE_SIZE in *; lia).
  destruct (fresh_page s roots t f (vmem s) Hok Hf Hfok Hh Hfr Hrc (ok_bytes _ _ Hok) ltac:(done)) as (G & Hd & _).
  change (mkVm (vmem s) f (kernel_pml4_virt s)) with (with_fa s f) in *.
  assert (Ep : p2v (with_fa s f) t = p2v s t) by (unfold p2v; cbn [with_fa fa]; by rewrite Hh).
  destruct (free_frame_virt s t (ok_fa _ _ Hok) Hf) as (Epv & _).
  assert (Hlo' : LOW_FRAMES * PAGE_SIZE ≤ t < 2 ^ 52) by (unfold LOW_FRAMES, PAGE_SIZE in *; lia).
  assert (Ht1 : t ≠ 0) by (unfold LOW_FRAMES, PAGE_SIZE in *; lia).
  pose proof (spaces_grows s _ roots Hs G) as Hs1. rewrite <- Ep in Hd, Epv.
  refine (conj E (conj Ht1 (conj Hf (conj Hlo' (conj Ha (conj G (conj Hs1 (conj Hd (conj Epv _))))))))). split_and!.
  - rewrite Hfr. tauto.
  - pose proof (refs_nonneg (with_fa s f) roots t). destruct (decide (0 < refs (with_fa s f) roots t)) as [Hp|]; [|lia].
    rewrite (refs_ext s) in Hp by (intros; by apply pte_fa). by destruct (refs_frame s roots t Hs Hp) as (_ & _ & _ & _ & _ & Hn).
  - rewrite Hrc by done. by rewrite Z.eqb_refl.
Qed.

Lemma mem_alloc_lemma s roots cur r v flags :
  spaces_ok s roots → space_of cur = Some r → r ∈ roots → HIGHER_HALF ≤ r → 0 ≤ v < 2 ^ 47 → 0 ≤ flags →
  let '(ret, s') := sys_mem_alloc s cur v flags in
  map_effect s s' roots r v (ret =? 0) ∧
  (ret = SYS_ERR ∨
   ret = 0 ∧ ∃ t, fa_free (fa s) t ∧ fa_refcount (fa s') t = 1 ∧ refs s' roots t = 1 ∧
     ∀ w, path_eq 4 v w → pte s' r w = Z.lor t (user_flags flags)).
Proof.
  intros Hs Hcur Hr Hhi Hv Hfl. unfold sys_mem_alloc. rewrite (proj2 (Z.leb_gt _ _)) by (unfold HIGHER_HALF; lia).
  destruct (user_flags_ok flags Hfl) as (F1 & F2 & F3 & _).
  destruct (spaces_alloc s roots Hs) as [[E Hno]|(t & f & E & Ht0 & Hf & Hlo & Ha & G & Hs1 & Hd & Ep & Hnf & Hrefs & Hrc)]; rewrite E.
  { cbn [Z.eqb]. split; [|by left]. change (SYS_ERR =? 0) with false.
    replace (with_fa s (fa s)) with s by (by destruct s). by constructor. }
  rewrite (proj2 (Z.eqb_neq t 0) Ht0), Hcur.
  pose proof (spaces_map (with_fa s f) roots r v t (user_flags flags) Hs1 Hr Hhi (user_addr v Hv) Ha Hlo F1 F2 Hd
    ltac:(cbn [with_fa fa]; lia) Hnf) as M.
  destruct (vmm_map_page (with_fa s f) r v t (user_flags flags)) as [[] s']; destruct M as (M & Hr' & Hres).
  - split; [by apply (map_effect_grows s (with_fa s f))|]. right. split; [done|]. exists t. split_and!; [done| | |].
    + rewrite (me_count _ _ _ _ _ _ M) by (done || (unfold LOW_FRAMES, PAGE_SIZE in *; lia)). done.
    + rewrite Hr', Hrefs, Z.eqb_refl. unfold entry_maps. destruct (has (pte (with_fa s f) r v) VMM_P) eqn:HP; [|done].
      destruct (Z.eqb_spec (Z.land (pte (with_fa s f) r v) VMM_PHYS_MASK) t) as [E2|]; [|done]. exfalso.
      pose proof (refs_mapped (with_fa s f) roots r v Hr (user_addr v Hv) HP) as Hp. unfold frame_of in Hp. rewrite E2 in Hp. lia.
    + intros w Hw. by rewrite Hres, F3.
  - split; [|by left]. change (SYS_ERR =? 0) with false.
    assert (M2 : map_effect s s' roots r v false) by (by apply (map_effect_grows s (with_fa s f))).
    apply map_effect_undo; [apply (sp_vm _ _ Hs)|done|done| | |].
    + rewrite Hr'. lia.
    + rewrite (me_count _ _ _ _ _ _ M) by (done || (unfold LOW_FRAMES, PAGE_SIZE in *; lia)). done.
    + rewrite (me_hhdm _ _ _ _ _ _ M2). rewrite <- Ep. by apply (me_page _ _ _ _ _ _ M).
Qed.

Lemma aligned_guard v : page_aligned v → (Z.land v 0xFFF =? 0) = true.
Proof. intros Ha. change 0xFFF with 4095. rewrite land_4095. by apply Z.eqb_eq. Qed.

(** The physical address of an aligned user page: that of its frame, or 0. *)
Lemma aligned_phys s roots r v :
  spaces_ok s roots → r ∈ roots → is_user v → page_aligned v →
  vmm_virt_to_phys s r v = frame_of s r v ∧
  if has (pte s r v) VMM_P then frame_of s r v ≠ 0 ∧ ∃ t, tbl s r 3 v = Some t else pte s r v = 0 ∧ frame_of s r v = 0.
Proof.
  intros Hs Hr Hu Ha. pose proof (sp_vm _ _ Hs) as Hok. destruct (sp_zero _ _ Hs r v Hr Hu) as [HP|H0].
  - rewrite HP. rewrite (present_translates s roots) by done. unfold translated, frame_of. rewrite Ha, Z.add_0_r. split; [done|].
    destruct (sp_frame _ _ Hs r v Hr Hu HP) as [_ Hlo]. unfold frame_of in Hlo. split; [unfold LOW_FRAMES, PAGE_SIZE in *; lia|].
    unfold pte in HP. destruct (tbl s r 3 v) as [t|]; [by exists t|done].
  - assert (E : frame_of s r v = 0) by (unfold frame_of; by rewrite H0). rewrite E.
    assert (HP : has (pte s r v) VMM_P = false) by (by rewrite H0). rewrite HP. split; [|done].
    rewrite (virt_to_phys_user s roots) by done. unfold pte in H0. destruct (tbl s r 3 v); [|done].
    rewrite H0, land_4095. change (v mod 4096) with (v mod PAGE_SIZE). by rewrite Ha.
Qed.

(** The physical address of any address of a mapped user page. *)
Lemma mapped_phys s roots r v :
  spaces_ok s roots → r ∈ roots → is_user v → has (pte s r v) VMM_P = true →
  vmm_virt_to_phys s r v = frame_of s r v + v mod PAGE_SIZE ∧ LOW_FRAMES * PAGE_SIZE ≤ frame_of s r v ∧ ∃ t, tbl s r 3 v = Some t.
Proof.
  intros Hs Hr Hu HP. pose proof (sp_vm _ _ Hs) as Hok. rewrite (present_translates s roots) by done. split; [done|].
  split; [by apply (sp_frame _ _ Hs)|]. unfold pte in HP. destruct (tbl s r 3 v) as [t|]; [by exists t|done].
Qed.

(** [sys_mem_free] translates: the page is mapped, or the translation is 0. *)
Definition translates s (r v : Z) : Prop :=
  has (pte s r v) VMM_P = true ∨ page_aligned v ∨ tbl s r 3 v = None.

Lemma mem_free_lemma s roots cur r v :
  spaces_ok s roots → space_of cur = Some r → r ∈ roots → 0 ≤ v < 2 ^ 47 → translates s r v →
  let '(ret, s') := sys_mem_free s cur v in
  let u := frame_of s r v in
  spaces_ok s' roots ∧
  (∀ r' w, r' ∈ roots → r' ≠ r ∨ ¬ path_eq 4 v w → pte s' r' w = pte s r' w) ∧
  (∀ p i, data_page s roots p → 0 ≤ i < PAGE_SIZE → vmem s' (p + i) = vmem s (p + i)) ∧
  if has (pte s r v) VMM_P then
    ret = 0 ∧ (∀ w, path_eq 4 v w → pte s' r w = 0) ∧
    (∀ u', page_aligned u' → 0 ≤ u' → fa_refcount (fa s') u' = fa_refcount (fa s) u' - b2z (u' =? u)) ∧
    (∀ u', fa_free (fa s') u' ↔ fa_free (fa s) u' ∨ (u' = u ∧ fa_refcount (fa s) u = 1))
  else ret = SYS_ERR ∧ s' = s.
Proof.
  intros Hs Hcur Hr Hv Htr. pose proof (user_addr v Hv) as Hu. pose proof (sp_vm _ _ Hs) as Hok. unfold sys_mem_free. rewrite Hcur.
  destruct (has (pte s r v) VMM_P) eqn:HP.
  2:{ assert (E : vmm_virt_to_phys s r v = 0); [|by rewrite E].
      destruct Htr as [?|[Ha|Hn]]; [congruence| |by rewrite (virt_to_phys_user s roots), Hn by done].
      destruct (aligned_phys s roots r v Hs Hr Hu Ha) as [-> Hcase]. rewrite HP in Hcase. apply Hcase. }
  destruct (mapped_phys s roots r v Hs Hr Hu HP) as (Ev & Hlow & t & Ht).
  pose proof (Z.mod_pos_bound v PAGE_SIZE ltac:(unfold PAGE_SIZE; lia)) as Hoff.
  rewrite Ev, (proj2 (Z.eqb_neq _ 0)) by (unfold LOW_FRAMES, PAGE_SIZE in *; lia).
  rewrite (unmap_tbl s roots) by done. rewrite Ht. cbv zeta.
  rewrite fa_unref_page; [|by destruct (refs_frame s roots _ Hs (refs_mapped s roots r v Hr Hu HP)) as (? & _)|done].
  set (s1 := wr_entry s t (PT_IDX v) 0). cbv zeta.
  assert (Hs1 : spaces_ok s1 roots) by (apply (spaces_leaf s roots r); [done..|lia|by right|done]).
  pose proof (refs_mapped s roots r v Hr Hu HP) as Hpos. set (u := frame_of s r v) in *.
  destruct (refs_frame s roots u Hs Hpos) as (Hua & Hu52 & Hlo & Hd & Ep & _). pose proof (sp_refs _ _ Hs u Hpos) as Hle.
  assert (Hrefs : refs s1 roots u = refs s roots u - 1).
  { unfold s1. rewrite (refs_leaf s roots r v t 0 u Hok (sp_nodup _ _ Hs) Hr Hu Ht ltac:(lia)). unfold entry_maps.
    rewrite HP. fold (frame_of s r v). fold u. rewrite Z.eqb_refl. change (has 0 VMM_P) with false. cbn [andb b2z]. lia. }
  assert (Hd1 : data_page s1 roots (u + fa_hhdm (fa s1))).
  { change (fa s1) with (fa s). rewrite <- Ep. by apply (leaf_page s roots r); [..|lia|]. }
  pose proof (spaces_unref s1 roots u Hs1 Hua Hlo ltac:(change (fa s1) with (fa s); lia) Hd1) as Hs2.
  destruct (fa_unref_spec (fa s) u (ok_fa _ _ Hok) Hua Hlo ltac:(lia)) as (_ & H2 & H3 & H4). change (fa s1) with (fa s) in *.
  split; [exact Hs2|]. split; [|split; [|split; [done|split; [|split]]]].
  - intros r' w Hr' Hn. rewrite pte_fa by done. unfold s1. apply (leaf_pte_ne s roots r v t 0 Hok Hr Hu Ht ltac:(lia)); [done|]. tauto.
  - intros p i Hp Hi. by apply (leaf_data s roots r).
  - intros w Hw. rewrite pte_fa by done. by apply (leaf_pte_eq s roots r v t 0 Hok Hr Hu Ht ltac:(lia)).
  - intros u' Ha' Hu'. cbn [with_fa fa]. rewrite H4 by done. destruct (Z.eqb_spec u' u) as [->|]; unfold b2z; lia.
  - exact H3.
Qed.

(** What a successful share leaves: one more reference to the frame, which both
    pages now map, tagged so that fork does not copy it. *)
Record shared_page s s' (roots : list Z) (r v r' tv : Z) : Prop := {
  sh_src : frame_of s' r v = frame_of s r v ∧ has (pte s' r v) VMM_P = true ∧ has (pte s' r v) VMM_SHARED = true;
  sh_dst : ∀ w, path_eq 4 tv w →
    frame_of s' r' w = frame_of s r v ∧ has (pte s' r' w) VMM_P = true ∧ has (pte s' r' w) VMM_SHARED = true;
  sh_count : fa_refcount (fa s') (frame_of s r v) = fa_refcount (fa s) (frame_of s r v) + 1;
  sh_other : ∀ r1 w, r1 ∈ roots → ¬ (r1 = r' ∧ path_eq 4 tv w) → ¬ (r1 = r ∧ path_eq 4 v w) → pte s' r1 w = pte s r1 w;
}.

(** An entry with the shared tag added. *)
Lemma tag_entry e :
  0 ≤ e < 2 ^ 64 → let y := Z.lor e VMM_SHARED in
  0 ≤ y < 2 ^ 64 ∧ has y VMM_P = has e VMM_P ∧ has y VMM_SHARED = true ∧ Z.land y VMM_PHYS_MASK = Z.land e VMM_PHYS_MASK.
Proof.
  intros He. cbv zeta. split_and!.
  1,2: apply (lor_range _ _ 64 ltac:(lia)); [done|split; [done|reflexivity]].
  - flag_bits. by rewrite orb_false_r.
  - flag_bits. by rewrite orb_true_r.
  - by apply land_mask_lor.
Qed.

(** The entry a share installs. *)
Lemma share_entry u flags :
  page_aligned u → 0 ≤ u < 2 ^ 52 → 0 ≤ flags →
  let f := Z.lor (user_flags flags) VMM_SHARED in
  0 ≤ f < 2 ^ 64 ∧ Z.land f VMM_PHYS_MASK = 0 ∧
  Z.land (Z.lor u (Z.lor f VMM_P)) VMM_PHYS_MASK = u ∧ has (Z.lor u (Z.lor f VMM_P)) VMM_P = true ∧
  has (Z.lor u (Z.lor f VMM_P)) VMM_SHARED = true.
Proof.
  intros Ha Hu Hf. cbv zeta. destruct (user_flags_ok flags Hf) as (F1 & F2 & _).
  assert (Hm : Z.land (Z.lor (user_flags flags) VMM_SHARED) VMM_PHYS_MASK = 0) by (by rewrite Z.land_lor_distr_l, F2).
  split; [apply (lor_range _ _ 64 ltac:(lia)); [done|split; [done|reflexivity]]|]. split; [done|]. split_and!.
  - rewrite land_mask_lor; [by apply land_mask_frame|]. by rewrite Z.land_lor_distr_l, Hm.
  - flag_bits. by rewrite !orb_true_r.
  - flag_bits. by rewrite orb_true_r, orb_true_l, orb_true_r.
Qed.

Lemma mem_share_lemma s roots cur target r r' v tv flags :
  spaces_ok s roots → space_of cur = Some r → space_of target = Some r' → r ∈ roots → r' ∈ roots → HIGHER_HALF ≤ r' →
  0 ≤ v < 2 ^ 47 → 0 ≤ tv < 2 ^ 47 → page_aligned v → page_aligned tv → 0 ≤ flags →
  (has (pte s r v) VMM_P = true → fa_refcount (fa s) (frame_of s r v) < REF_MAX) →
  let '(ret, s') := sys_mem_share s cur target v tv flags in
  spaces_ok s' roots ∧
  (∀ p i, data_page s roots p → 0 ≤ i < PAGE_SIZE → vmem s' (p + i) = vmem s (p + i)) ∧
  if has (pte s r v) VMM_P then
    (ret = 0 ∧ shared_page s s' roots r v r' tv) ∨
    (ret = SYS_ERR ∧ (∀ r1 w, r1 ∈ roots → pte s' r1 w = pte s r1 w) ∧
     fa_refcount (fa s') (frame_of s r v) = fa_refcount (fa s) (frame_of s r v))
  else ret = SYS_ERR ∧ s' = s.
Proof.
  intros Hs Hcur Htgt Hr Hr' Hhi Hv Htv Ha Hta Hfl Hmax. pose proof (user_addr v Hv) as Hu. pose proof (user_addr tv Htv) as Htu.
  unfold sys_mem_share. rewrite !aligned_guard by done. cbn [negb]. rewrite (proj2 (Z.leb_gt _ _)) by (unfold HIGHER_HALF; lia).
  rewrite Hcur, Htgt. destruct (aligned_phys s roots r v Hs Hr Hu Ha) as [-> Hcase].
  destruct (has (pte s r v) VMM_P) eqn:HP. 2:{ destruct Hcase as [_ ->]. done. }
  destruct Hcase as [Hne _]. rewrite (proj2 (Z.eqb_neq _ 0) Hne).
  pose proof (refs_mapped s roots r v Hr Hu HP) as Hpos. remember (frame_of s r v) as u eqn:Eu.
  destruct (refs_frame s roots u Hs Hpos) as (Hua & Hu52 & Hlo & Hd & Ep & Hnf). pose proof (sp_refs _ _ Hs u Hpos) as Hle.
  specialize (Hmax eq_refl).
  destruct (fa_ref_spec (fa s) u (ok_fa _ _ (sp_vm _ _ Hs)) Hua Hlo ltac:(lia)) as (R1 & R2 & R3 & R4).
  pose proof (spaces_ref s roots u Hs Hua Hlo ltac:(lia) ltac:(by rewrite <- Ep)) as Hs1.
  set (s1 := with_fa s (fa_ref (fa s) u)) in *. destruct (share_entry u flags Hua Hu52 Hfl) as (F1 & F2 & F3 & F4 & F5).
  assert (Hpte1 : ∀ r1 w, pte s1 r1 w = pte s r1 w) by (intros; by apply pte_fa).
  assert (Hrefs1 : refs s1 roots u = refs s roots u) by (apply refs_ext; intros; apply Hpte1).
  assert (Hcnt1 : fa_refcount (fa s1) u = fa_refcount (fa s) u + 1) by (cbn [s1 with_fa fa]; rewrite R4 by (done || lia); by rewrite Z.eqb_refl).
  assert (Hpg : ∀ p, data_page s roots p → data_page s1 roots p).
  { intros p (D1 & D2 & D3 & D4). unfold data_page. change (fa s1) with (fa_ref (fa s) u). rewrite R2, R3.
    split_and!; try done. intros r1 d w H1 Hdd. unfold s1. rewrite tbl_fa by done. by apply D4. }
  assert (Hp2v : p2v s1 u = p2v s u) by (unfold p2v; cbn [s1 with_fa fa]; by rewrite R2).
  pose proof (spaces_map s1 roots r' tv u _ Hs1 Hr' Hhi Htu Hua ltac:(lia) F1 F2 ltac:(rewrite Hp2v; by apply Hpg) ltac:(lia)
    ltac:(cbn [s1 with_fa fa]; by rewrite R3)) as M.
  destruct (vmm_map_page s1 r' tv u _) as [[] s2]; destruct M as (M & Hrefs2 & Hres).
  2:{ (* the reference is given back *)
    assert (Hcnt2 : fa_refcount (fa s2) u = fa_refcount (fa s) u + 1).
    { rewrite (me_count _ _ _ _ _ _ M); [done|done|lia|cbn [s1 with_fa fa]; by rewrite R3]. }
    destruct (fa_unref_spec (fa s2) u (ok_fa _ _ (sp_vm _ _ (me_spaces _ _ _ _ _ _ M))) Hua Hlo ltac:(lia)) as (_ & U2 & _ & U4).
    split; [|split; [|right; split; [done|split]]].
    - apply spaces_unref; [apply M|done|done|rewrite Hrefs2; lia|].
      rewrite (me_hhdm _ _ _ _ _ _ M). cbn [s1 with_fa fa]. rewrite R2, <- Ep. by apply (me_page _ _ _ _ _ _ M), Hpg.
    - intros p i Hp Hi. cbn [with_fa vmem]. rewrite (me_data _ _ _ _ _ _ M) by (done || by apply Hpg). done.
    - intros r1 w H1. rewrite pte_fa, (me_pte _ _ _ _ _ _ M), Hpte1 by tauto. done.
    - cbn [with_fa fa]. rewrite U4 by (done || lia). rewrite Z.eqb_refl. lia. }
  pose proof (me_spaces _ _ _ _ _ _ M) as Hs2. pose proof (sp_vm _ _ Hs2) as Hok2.
  assert (Hsrc : has (pte s2 r v) VMM_P = true ∧ frame_of s2 r v = u).
  { unfold frame_of. destruct (decide (r = r' ∧ path_eq 4 tv v)) as [[-> Hp]|Hn]; [by rewrite Hres|].
    apply not_and_l in Hn. rewrite (me_pte _ _ _ _ _ _ M), Hpte1 by tauto. done. }
  destruct Hsrc as [HP2 Hf2]. rewrite (pte_lookup_tbl s2 roots) by done.
  assert (Htb : ∃ t, tbl s2 r 3 v = Some t ∧ rd_entry s2 t (PT_IDX v) = pte s2 r v).
  { unfold pte in HP2 |- *. destruct (tbl s2 r 3 v) as [t|]; [by exists t|done]. }
  destruct Htb as (t & Ht & Hrd). rewrite Ht. cbn [fmap option_fmap option_map].
  change (ld64 (vmem s2) (t + 8 * PT_IDX v)) with (rd_entry s2 t (PT_IDX v)). rewrite Hrd.
  destruct (tag_entry (pte s2 r v) (pte_range s2 r v (ok_bytes _ _ Hok2))) as (Y1 & Y2 & Y3 & Y4). set (y := Z.lor (pte s2 r v) VMM_SHARED) in *.
  change (with_mem s2 (st64 (vmem s2) (t + 8 * PT_IDX v) y)) with (wr_entry s2 t (PT_IDX v) y).
  assert (Hpos2 : 0 < refs s2 roots u) by (rewrite <- Hf2; by apply refs_mapped). unfold frame_of in Hf2.
  destruct (refs_frame s2 roots u Hs2 Hpos2) as (_ & _ & _ & Hd2 & _). pose proof (sp_refs _ _ Hs2 u Hpos2) as Hle2.
  split; [|split; [|left; split; [done|]]].
  - apply (spaces_leaf s2 roots r); [done..|left; by rewrite Y2|]. intros _. cbv zeta. rewrite Y4, Hf2. split; [done|]. split; [done|].
    unfold entry_maps. rewrite HP2, Hf2, Z.eqb_refl. unfold b2z. cbn [andb]. lia.
  - intros p i Hp Hi. rewrite (leaf_data s2 roots r) by (done || by apply (me_page _ _ _ _ _ _ M), Hpg).
    rewrite (me_data _ _ _ _ _ _ M) by (done || by apply Hpg). done.
  - pose proof (leaf_pte_eq s2 roots r v t y Hok2 Hr Hu Ht Y1) as Lq. pose proof (leaf_pte_ne s2 roots r v t y Hok2 Hr Hu Ht Y1) as Ln.
    constructor; unfold frame_of in *.
    + rewrite Lq by apply path_eq_refl. by rewrite Y4, Hf2, Y2.
    + intros w Hw. destruct (decide (r' = r ∧ path_eq 4 v w)) as [[-> Hp]|Hn]; [rewrite Lq by done; by rewrite Y4, Hf2, Y2|].
      rewrite Ln by done. rewrite Hres by done. rewrite <- Eu. done.
    + rewrite <- Eu. cbn [wr_entry with_mem fa]. rewrite (me_count _ _ _ _ _ _ M); [done|done|lia|cbn [s1 with_fa fa]; by rewrite R3].
    + intros r1 w H1 Hn1 Hn2. rewrite Ln by done. apply not_and_l in Hn1. rewrite (me_pte _ _ _ _ _ _ M), Hpte1 by tauto. done.
Qed.
End calls.

(** ** The program break *)

Lemma page_up_spec a : 0 ≤ a < 2 ^ 63 → page_up a = (a + PAGE_SIZE - 1) / PAGE_SIZE * PAGE_SIZE.
Proof.
  intros Ha. unfold page_up. rewrite u64_small by (unfold PAGE_SIZE; lia). change (Z.lnot (PAGE_SIZE - 1)) with (Z.lnot (Z.ones 12)).
  change (Z.land ?x (Z.lnot ?y)) with (Z.land x (Z.lnot y)). rewrite <- Z.ldiff_land, Z.ldiff_ones_r, Z.shiftr_div_pow2, Z.shiftl_mul_pow2 by lia.
  done.
Qed.

Definition brk_ok (b : list Z) : Prop := zlen b = 32 ∧ ∀ i, 0 ≤ i < 32 → b.[i] = 0 ∨ USER_HEAP_BASE ≤ b.[i] < USER_HEAP_MAX.

Lemma brk_ok_set b i a : brk_ok b → 0 ≤ i < 32 → USER_HEAP_BASE ≤ a < USER_HEAP_MAX → brk_ok (b.[i <- a]).
Proof.
  intros [Hl Hb] Hi Ha. split; [by rewrite zlen_aset|]. intros j Hj. rewrite aget_aset by lia.
  destruct (Z.eqb_spec i j); [by right|by apply Hb].
Qed.

Section brk.
Context {F : Type} `{FA : FrameAlloc F} `{FL : !FrameAllocLaws F}.
Implicit Types s : vm F.

(** A fresh frame mapped at a user page, or not: nothing but the entry of the
    page may change, and a frame that could not be mapped is leaked. *)
Lemma fresh_map_ok s roots r va flags :
  spaces_ok s roots → r ∈ roots → HIGHER_HALF ≤ r → 0 ≤ va < 2 ^ 47 → 0 ≤ flags < 2 ^ 64 → Z.land flags VMM_PHYS_MASK = 0 →
  let '(t, f) := fa_alloc (fa s) in
  if t =? 0 then with_fa s f = s
  else map_effect s (vmm_map_page (with_fa s f) r va t flags).2 roots r va (vmm_map_page (with_fa s f) r va t flags).1.
Proof.
  intros Hs Hr Hhi Hv Hf1 Hf2.
  destruct (spaces_alloc s roots Hs) as [[E Hno]|(t & f & E & Ht0 & Hf & Hlo & Ha & G & Hs1 & Hd & Ep & Hnf & Hrefs & Hrc)]; rewrite E.
  { cbn [Z.eqb]. by destruct s. }
  rewrite (proj2 (Z.eqb_neq t 0) Ht0).
  pose proof (spaces_map (with_fa s f) roots r va t flags Hs1 Hr Hhi (user_addr _ Hv) Ha Hlo Hf1 Hf2 Hd
    ltac:(cbn [with_fa fa]; lia) Hnf) as M.
  destruct (vmm_map_page (with_fa s f) r _ t _) as [ok s']. destruct M as (M & _). cbn [fst snd]. by apply (map_effect_grows s (with_fa s f)).
Qed.

Definition untouched (roots : list Z) (r va : Z) s s' : Prop :=
  ∀ r' w, r' ∈ roots → r' ≠ r ∨ ¬ path_eq 4 va w → pte s' r' w = pte s r' w.

(** One page of a growing heap. *)
Lemma brk_page_ok s roots r base i :
  spaces_ok s roots → r ∈ roots → HIGHER_HALF ≤ r → 0 ≤ base + i * PAGE_SIZE < 2 ^ 47 →
  let '(_, s') := brk_page r base i s in spaces_ok s' roots ∧ untouched roots r (base + i * PAGE_SIZE) s s'.
Proof.
  intros Hs Hr Hhi Hv. unfold brk_page.
  pose proof (fresh_map_ok s roots r (base + i * PAGE_SIZE) (Z.lor VMM_U VMM_RW) Hs Hr Hhi Hv ltac:(split; [done|reflexivity]) eq_refl) as M.
  destruct (fa_alloc (fa s)) as [t f]. destruct (t =? 0); [by rewrite M|]. split; [apply M|].
  intros r' w Hr' Hn. apply (me_pte _ _ _ _ _ _ M); [done|tauto].
Qed.

Lemma mmap_flags_ok prot : 0 ≤ Z.lor (mmap_flags prot) VMM_P < 2 ^ 64 ∧ Z.land (Z.lor (mmap_flags prot) VMM_P) VMM_PHYS_MASK = 0.
Proof. unfold mmap_flags. repeat case_if; vm_compute; done. Qed.

(** One page of an anonymous mapping. *)
Lemma mmap_page_ok s roots r vaddr prot i :
  spaces_ok s roots → r ∈ roots → HIGHER_HALF ≤ r → 0 ≤ vaddr + i * PAGE_SIZE < 2 ^ 47 →
  let '(_, s') := mmap_page r vaddr (mmap_flags prot) i s in spaces_ok s' roots ∧ untouched roots r (vaddr + i * PAGE_SIZE) s s'.
Proof.
  intros Hs Hr Hhi Hv. unfold mmap_page. change 0x1000 with PAGE_SIZE. rewrite u64_small by lia.
  destruct (mmap_flags_ok prot) as [F1 F2].
  pose proof (fresh_map_ok s roots r (vaddr + i * PAGE_SIZE) _ Hs Hr Hhi Hv F1 F2) as M.
  destruct (fa_alloc (fa s)) as [t f]. destruct (t =? 0); [by rewrite M|].
  destruct (vmm_map_page _ _ _ _ _) as [ok s']. cbn [fst snd] in M. split; [apply M|].
  intros r' w Hr' Hn. apply (me_pte _ _ _ _ _ _ M); [done|tauto].
Qed.

Lemma sys_mmap_lemma anon s roots p addr length prot :
  spaces_ok s roots → mp_pml4_virt p ∈ roots → HIGHER_HALF ≤ mp_pml4_virt p → 0 ≤ length < 2 ^ 47 →
  0 ≤ (if addr =? 0 then anon else addr) ∧ (if addr =? 0 then anon else addr) + length + PAGE_SIZE ≤ 2 ^ 47 →
  spaces_ok (sys_mmap anon s (Some p) addr length prot).2 roots.
Proof.
  intros Hs Hr Hhi Hlen Hva. unfold sys_mmap. cbn [space_of].
  destruct (Z.eqb_spec (mp_pml4_virt p) 0) as [E|_]; [rewrite E in Hhi; unfold HIGHER_HALF in Hhi; lia|].
  set (va := if addr =? 0 then anon else addr) in *. set (n := Z.to_nat _).
  assert (Hn : Z.of_nat n * PAGE_SIZE < length + PAGE_SIZE) by (unfold n, PAGE_SIZE; rewrite u64_small by lia; zlia).
  pose proof (for_ok_ind (λ _ s', spaces_ok s' roots) (λ s', spaces_ok s' roots) (mmap_page (mp_pml4_virt p) va (mmap_flags prot)) 0 n s Hs) as Hloop.
  destruct (for_ok _ 0 n s) as [[] s']; apply Hloop; intros i s1 Hi Hs1;
    pose proof (mmap_page_ok s1 roots (mp_pml4_virt p) va prot i Hs1 Hr Hhi ltac:(unfold PAGE_SIZE in *; lia)) as Hp;
    destruct (mmap_page _ _ _ i s1) as [[] s2]; apply Hp.
Qed.

Lemma unmap_ok s roots r v :
  spaces_ok s roots → r ∈ roots → is_user v →
  spaces_ok (vmm_unmap_page s r v) roots ∧ untouched roots r v s (vmm_unmap_page s r v).
Proof.
  intros Hs Hr Hu. rewrite (unmap_tbl s roots) by (done || apply Hs). destruct (tbl s r 3 v) as [t|] eqn:Ht; [|done]. split.
  - apply (spaces_leaf s roots r); [done..|lia|by right|done].
  - intros r' w Hr' Hn. apply (leaf_pte_ne s roots r v t 0 (sp_vm _ _ Hs) Hr Hu Ht ltac:(lia)); [done|]. tauto.
Qed.

(** A page of another space, or below the heap. *)
Definition outside_heap (r r' w : Z) : Prop := r' ≠ r ∨ prefix 4 w < USER_HEAP_BASE / PAGE_SIZE.

Lemma heap_path va w : USER_HEAP_BASE ≤ va < 2 ^ 47 → page_aligned va → prefix 4 w < USER_HEAP_BASE / PAGE_SIZE → ¬ path_eq 4 va w.
Proof.
  intros Hva Ha Hw Hp. apply prefix_path in Hp.
  assert (E : prefix 4 va = va / PAGE_SIZE).
  { replace va with (pva (va / PAGE_SIZE)) at 1 by (unfold pva, page_aligned, PAGE_SIZE in *; zlia).
    apply pva_prefix. change (512 ^ 4) with 68719476736. clear -Hva. unfold USER_HEAP_BASE, PAGE_SIZE in *. change (2 ^ 47) with 140737488355328 in Hva. zlia. }
  rewrite E in Hp. rewrite <- Hp in Hw. unfold USER_HEAP_BASE, PAGE_SIZE in *. zlia.
Qed.

Lemma sys_brk_lemma b s roots p addr :
  spaces_ok s roots → brk_ok b → mp_pml4_virt p ∈ roots → HIGHER_HALF ≤ mp_pml4_virt p → 0 ≤ mp_pid p → 0 ≤ addr < 2 ^ 64 →
  let '(ret, b', s') := sys_brk b s (Some p) addr in
  spaces_ok s' roots ∧ brk_ok b' ∧
  (∀ r' w, r' ∈ roots → outside_heap (mp_pml4_virt p) r' w → pte s' r' w = pte s r' w).
Proof.
  intros Hs Hb Hr Hhi Hpid Haddr. unfold sys_brk. destruct (mp_ring3 p); cbn [negb]; [|done].
  set (i := u32 (mp_pid p)). destruct (Z.leb_spec 32 i) as [|Hi]; [done|].
  assert (Hi0 : 0 ≤ i < 32) by (split; [unfold i; zlia|done]).
  assert (Hb1 : brk_ok (if b.[i] =? 0 then b.[i <- USER_HEAP_BASE] else b) ∧
    USER_HEAP_BASE ≤ (if b.[i] =? 0 then b.[i <- USER_HEAP_BASE] else b).[i] < USER_HEAP_MAX).
  { destruct Hb as [Hl Hb]. destruct (Z.eqb_spec (b.[i]) 0) as [Ez|Ez].
    - split; [by apply brk_ok_set|]. rewrite aget_aset_eq by lia. done.
    - split; [done|]. destruct (Hb i Hi0); [done|lia]. }
  set (b1 := if b.[i] =? 0 then _ else _) in *. clearbody b1. destruct Hb1 as [Hb1 Hold].
  destruct (addr =? 0); [done|]. destruct (Z.ltb_spec addr USER_HEAP_BASE); [done|]. destruct (Z.leb_spec USER_HEAP_MAX addr); [done|]. cbn [orb].
  assert (Hpo : page_up (b1.[i]) mod PAGE_SIZE = 0 ∧ USER_HEAP_BASE ≤ page_up (b1.[i]) ≤ USER_HEAP_MAX ∧
    page_up addr mod PAGE_SIZE = 0 ∧ USER_HEAP_BASE ≤ page_up addr ≤ USER_HEAP_MAX).
  { unfold USER_HEAP_BASE, USER_HEAP_MAX, PAGE_SIZE in *. rewrite !page_up_spec by lia. unfold PAGE_SIZE. zlia. }
  set (old_page := page_up (b1.[i])) in *. set (new_page := page_up addr) in *. destruct Hpo as (A1 & A2 & A3 & A4).
  assert (Hb2 : brk_ok (b1.[i <- addr])) by (by apply brk_ok_set).
  destruct (Z.ltb_spec old_page new_page) as [Hg|Hg].
  - set (n := Z.to_nat ((new_page - old_page) / PAGE_SIZE)).
    pose proof (for_ok_ind (λ _ s', spaces_ok s' roots ∧ ∀ r' w, r' ∈ roots → outside_heap (mp_pml4_virt p) r' w → pte s' r' w = pte s r' w)
      (λ s', spaces_ok s' roots ∧ ∀ r' w, r' ∈ roots → outside_heap (mp_pml4_virt p) r' w → pte s' r' w = pte s r' w)
      (brk_page (mp_pml4_virt p) old_page) 0 n s (conj Hs (λ _ _ _ _, eq_refl))) as Hloop.
    destruct (for_ok _ 0 n s) as [ok s'].
    destruct ok; (destruct Hloop as [H1 H2]; [|by split_and!]);
      intros k s1 Hk [Hs1 Hp1];
      (assert (Hva : USER_HEAP_BASE ≤ old_page + k * PAGE_SIZE < 2 ^ 47 ∧ page_aligned (old_page + k * PAGE_SIZE))
        by (unfold n, page_aligned, USER_HEAP_BASE, USER_HEAP_MAX, PAGE_SIZE in *; zlia));
      destruct Hva as [Hva Hal];
      pose proof (brk_page_ok s1 roots (mp_pml4_virt p) old_page k Hs1 Hr Hhi ltac:(unfold USER_HEAP_BASE in *; lia)) as Hstep;
      destruct (brk_page _ _ k s1) as [ok2 s2]; destruct Hstep as [Hs2 Hp2];
      (assert (Hfin : spaces_ok s2 roots ∧ ∀ r' w, r' ∈ roots → outside_heap (mp_pml4_virt p) r' w → pte s2 r' w = pte s r' w)
        by (split; [done|]; intros r' w Hr' Ho; rewrite Hp2; [by apply Hp1|done|destruct Ho; [by left|right; by apply heap_path]]));
      by destruct ok2.
  - destruct (Z.ltb_spec new_page old_page) as [Hsh|Hsh]; [|done].
    set (n := Z.to_nat ((old_page - new_page) / PAGE_SIZE)).
    pose proof (iter_up_ind (λ _ s', spaces_ok s' roots ∧ ∀ r' w, r' ∈ roots → outside_heap (mp_pml4_virt p) r' w → pte s' r' w = pte s r' w)
      (λ k s, vmm_unmap_page s (mp_pml4_virt p) (new_page + k * PAGE_SIZE)) 0 n s (conj Hs (λ _ _ _ _, eq_refl))) as Hloop.
    destruct Hloop as [H1 H2]; [|by split_and!]. intros k s1 Hk [Hs1 Hp1].
    assert (Hva : USER_HEAP_BASE ≤ new_page + k * PAGE_SIZE < 2 ^ 47 ∧ page_aligned (new_page + k * PAGE_SIZE))
      by (unfold n, page_aligned, USER_HEAP_BASE, USER_HEAP_MAX, PAGE_SIZE in *; zlia).
    destruct Hva as [Hva Hal].
    destruct (unmap_ok s1 roots (mp_pml4_virt p) (new_page + k * PAGE_SIZE) Hs1 Hr ltac:(apply user_addr; unfold USER_HEAP_BASE in *; lia)) as [Hs2 Hp2].
    split; [done|]. intros r' w Hr' Ho. rewrite Hp2; [by apply Hp1|done|]. destruct Ho; [by left|right; by apply heap_path].
Qed.
End brk.

(** ** Theorems *)

Section theorems.
Context {F : Type} `{FA : FrameAlloc F} `{FL : !FrameAllocLaws F}.
Implicit Types s : vm F.

(** A process with one of the address spaces. *)
Definition proc_in (roots : list Z) (p : mproc) : Prop :=
  mp_pml4_virt p ∈ roots ∧ HIGHER_HALF ≤ mp_pml4_virt p ∧ 0 ≤ mp_pid p.

Lemma space_of_in roots p : proc_in roots p → space_of (Some p) = Some (mp_pml4_virt p).
Proof. intros (_ & Hhi & _). cbn. by destruct (Z.eqb_spec (mp_pml4_virt p) 0) as [E|]; [rewrite E in Hhi; unfold HIGHER_HALF in Hhi; lia|]. Qed.

Inductive mcall :=
  | CMap (p : mproc) (vaddr paddr flags : Z)
  | CAlloc (p : mproc) (vaddr flags : Z)
  | CFree (p : mproc) (vaddr : Z)
  | CShare (p : mproc) (q : option mproc) (vaddr target_vaddr flags : Z)
  | CBrk (p : mproc) (addr : Z)
  | CMmap (p : mproc) (addr length prot : Z)
  | CMunmap (addr length : Z)
  | CMprotect (addr length prot : Z).

(** The static variables of the calls. *)
Record mglobals := mkGlobals { g_proc_brk : list Z; anon_base : Z }.

Definition do_call (c : mcall) (bs : mglobals * vm F) : mglobals * vm F :=
  let '(b, s) := bs in
  match c with
  | CMap p v pa fl => (b, (sys_mem_map s (Some p) v pa fl).2)
  | CAlloc p v fl => (b, (sys_mem_alloc s (Some p) v fl).2)
  | CFree p v => (b, (sys_mem_free s (Some p) v).2)
  | CShare p q v tv fl => (b, (sys_mem_share s (Some p) q v tv fl).2)
  | CBrk p addr => let '(_, l, s) := sys_brk (g_proc_brk b) s (Some p) addr in (mkGlobals l (anon_base b), s)
  | CMmap p addr len prot => let '(_, a, s) := sys_mmap (anon_base b) s (Some p) addr len prot in (mkGlobals (g_proc_brk b) a, s)
  | CMunmap addr len => (b, (sys_munmap s addr len).2)
  | CMprotect addr len prot => (b, (sys_mprotect s addr len prot).2)
  end.

Definition page_addr (v : Z) : Prop := 0 ≤ v < 2 ^ 47 ∧ page_aligned v.

(** An address the processor accepts: of the user half, or of the kernel half,
    which the calls refuse. *)
Definition canonical (v : Z) : Prop := 0 ≤ v < 2 ^ 47 ∨ HIGHER_HALF ≤ v.

(** A frame of which the caller of [sys_mem_map] holds a reference that no page
    uses yet. *)
Definition spare_frame s (roots : list Z) (paddr : Z) : Prop :=
  page_aligned paddr ∧ LOW_FRAMES * PAGE_SIZE ≤ paddr < 2 ^ 52 ∧ data_page s roots (p2v s paddr) ∧
  refs s roots paddr < fa_refcount (fa s) paddr ∧ ¬ fa_free (fa s) paddr.

(** What a considerate caller does and the calls do not check:
    - the addresses are canonical ([mem_map_reaches_kernel] is a call that is not),
      and what is freed, shared or mapped anonymously is below 2^47;
    - a physical address is mapped only with a reference to spare;
    - a page is shared only while its 8-bit reference count is not saturated;
    - an address freed belongs to a mapped page, or is page-aligned, or has no page
      table ([mem_free_unmapped] is a call that breaks this).
    The process exists; the arguments are unsigned. *)
Definition call_ok (roots : list Z) (c : mcall) (b : mglobals) s : Prop :=
  match c with
  | CMap p v pa fl => proc_in roots p ∧ canonical v ∧ 0 ≤ fl ∧ (v < 2 ^ 47 → spare_frame s roots pa)
  | CAlloc p v fl => proc_in roots p ∧ canonical v ∧ 0 ≤ fl
  | CFree p v => proc_in roots p ∧ 0 ≤ v < 2 ^ 47 ∧ translates s (mp_pml4_virt p) v
  | CShare p q v tv fl =>
      proc_in roots p ∧ (∀ q', q = Some q' → proc_in roots q') ∧ 0 ≤ v < 2 ^ 47 ∧ canonical tv ∧ 0 ≤ fl ∧
      (has (pte s (mp_pml4_virt p) v) VMM_P = true → fa_refcount (fa s) (frame_of s (mp_pml4_virt p) v) < REF_MAX)
  | CBrk p addr => proc_in roots p ∧ 0 ≤ addr < 2 ^ 64
  | CMmap p addr len prot =>
      let va := if addr =? 0 then anon_base b else addr in
      proc_in roots p ∧ 0 ≤ len < 2 ^ 47 ∧ 0 ≤ va ∧ va + len + PAGE_SIZE ≤ 2 ^ 47
  | CMunmap _ _ | CMprotect _ _ _ => True
  end.

Inductive mem_steps (roots : list Z) : mglobals * vm F → mglobals * vm F → Prop :=
  | ms_refl bs : mem_steps roots bs bs
  | ms_step bs bs' c : mem_steps roots bs bs' → call_ok roots c bs'.1 bs'.2 → mem_steps roots bs (do_call c bs').

Lemma mem_map_preserves roots p v pa fl b s :
  spaces_ok s roots → call_ok roots (CMap p v pa fl) b s → spaces_ok (sys_mem_map s (Some p) v pa fl).2 roots.
Proof.
  intros Hs (Hp & Hv & Hfl & Hpa). pose proof Hp as (Hin & Hhi & _). unfold sys_mem_map. case_if; [done|]. bools.
  rewrite (space_of_in _ _ Hp). destruct Hv as [Hv|]; [|lia]. destruct (Hpa ltac:(lia)) as (P1 & P2 & P3 & P4 & P5).
  destruct (user_flags_ok fl Hfl) as (F1 & F2 & _).
  pose proof (spaces_map s roots _ v pa _ Hs Hin Hhi (user_addr v Hv) P1 P2 F1 F2 P3 P4 P5) as M.
  destruct (vmm_map_page s _ v pa _) as [[] s']; apply M.
Qed.

Lemma mem_alloc_preserves roots p v fl b s :
  spaces_ok s roots → call_ok roots (CAlloc p v fl) b s → spaces_ok (sys_mem_alloc s (Some p) v fl).2 roots.
Proof.
  intros Hs (Hp & Hv & Hfl). pose proof Hp as (Hin & Hhi & _).
  destruct Hv as [Hv|Hv]; [|unfold sys_mem_alloc; by rewrite (proj2 (Z.leb_le _ _) Hv)].
  pose proof (mem_alloc_lemma s roots (Some p) _ v fl Hs (space_of_in _ _ Hp) Hin Hhi Hv Hfl) as H.
  destruct (sys_mem_alloc s (Some p) v fl). apply H.
Qed.

Lemma guard_aligned v : (Z.land v 0xFFF =? 0) = true → page_aligned v.
Proof. intros H. apply Z.eqb_eq in H. change 0xFFF with 4095 in H. rewrite land_4095 in H. done. Qed.

Lemma mem_share_preserves roots p q v tv fl b s :
  spaces_ok s roots → call_ok roots (CShare p q v tv fl) b s → spaces_ok (sys_mem_share s (Some p) q v tv fl).2 roots.
Proof.
  intros Hs (Hp & Hq & Hv & Htv & Hfl & Hmax). pose proof Hp as (Hin & Hhi & _).
  destruct (Z.land v 0xFFF =? 0) eqn:E1; [|unfold sys_mem_share; by rewrite E1].
  destruct (Z.land tv 0xFFF =? 0) eqn:E2; [|unfold sys_mem_share; by rewrite E1, E2].
  destruct Htv as [Htv|Htv]; [|unfold sys_mem_share; by rewrite E1, E2, (proj2 (Z.leb_le _ _) Htv)].
  destruct q as [q|].
  - specialize (Hq q eq_refl). pose proof Hq as (Hin' & Hhi' & _).
    pose proof (mem_share_lemma s roots (Some p) (Some q) _ _ v tv fl Hs (space_of_in _ _ Hp) (space_of_in _ _ Hq) Hin Hin' Hhi' Hv Htv
      (guard_aligned v E1) (guard_aligned tv E2) Hfl Hmax) as H.
    destruct (sys_mem_share s (Some p) (Some q) v tv fl). apply H.
  - unfold sys_mem_share. rewrite E1, E2, (space_of_in _ _ Hp). cbn [negb]. case_if; [done|]. by case_if.
Qed.

Lemma call_preserves roots c b s :
  spaces_ok s roots → brk_ok (g_proc_brk b) → call_ok roots c b s →
  brk_ok (g_proc_brk (do_call c (b, s)).1) ∧ spaces_ok (do_call c (b, s)).2 roots.
Proof.
  intros Hs Hb Hc.
  destruct c as [p v pa fl|p v fl|p v|p q v tv fl|p addr|p addr len prot|addr len|addr len prot]; cbn [do_call fst snd] in *.
  - split; [done|by eapply mem_map_preserves].
  - split; [done|by eapply mem_alloc_preserves].
  - destruct Hc as (Hp & Hv & Ha). split; [done|]. pose proof Hp as (Hin & Hhi & _).
    pose proof (mem_free_lemma s roots (Some p) _ v Hs (space_of_in _ _ Hp) Hin Hv Ha) as H.
    destruct (sys_mem_free s (Some p) v). apply H.
  - split; [done|by eapply mem_share_preserves].
  - destruct Hc as ((Hin & Hhi & Hpid) & Ha). pose proof (sys_brk_lemma (g_proc_brk b) s roots p addr Hs Hb Hin Hhi Hpid Ha) as H.
    destruct (sys_brk (g_proc_brk b) s (Some p) addr) as [[ret b'] s']. cbn. split; apply H.
  - destruct Hc as ((Hin & Hhi & _) & Hlen & Hva). pose proof (sys_mmap_lemma (anon_base b) s roots p addr len prot Hs Hin Hhi Hlen Hva) as H.
    destruct (sys_mmap (anon_base b) s (Some p) addr len prot) as [[ret a] s']. cbn. split; [done|apply H].
  - done.
  - done.
Qed.

Lemma steps_preserve roots bs bs' :
  mem_steps roots bs bs' → brk_ok (g_proc_brk bs.1) → spaces_ok bs.2 roots → brk_ok (g_proc_brk bs'.1) ∧ spaces_ok bs'.2 roots.
Proof.
  induction 1 as [bs|bs [b1 s1] c _ IH Hc]; intros Hb Hs; [done|]. destruct (IH Hb Hs) as [Hb1 Hs1]. by apply call_preserves.
Qed.

(** C23: the memory calls keep the frames of the processes apart from the free
    pool.  Over any sequence of [sys_mem_map], [sys_mem_alloc], [sys_mem_free],
    [sys_mem_share], [sys_brk], [sys_mmap], [sys_munmap] and [sys_mprotect] by the
    processes of a consistent machine in which each call meets [call_ok] (canonical
    addresses; frees, shares and anonymous mappings below 2^47; physical addresses
    mapped only with a reference to spare; no share of a page with a saturated
    count; no free of an unaligned address in an unmapped page), the page tables
    stay consistent, each frame keeps at least as many references as pages of all
    the processes map it (so no call of one process frees a frame another still
    maps), no mapped frame is in the free pool, and each space owns what destroying
    it gives back; the recorded breaks stay in the heap range.  The calls check
    none of these conditions themselves. *)
Theorem mem_calls_safe roots b s b' s' :
  spaces_ok s roots → brk_ok (g_proc_brk b) → mem_steps roots (b, s) (b', s') →
  brk_ok (g_proc_brk b') ∧ vm_ok s' roots ∧
  ∀ r w, r ∈ roots → is_user w → has (pte s' r w) VMM_P = true →
    user_owned s' roots r ∧ ¬ fa_free (fa s') (frame_of s' r w) ∧
    0 < refs s' roots (frame_of s' r w) ≤ fa_refcount (fa s') (frame_of s' r w).
Proof.
  intros Hs Hb Hst. assert (Hinv : brk_ok (g_proc_brk b') ∧ spaces_ok s' roots).
  { by apply (steps_preserve roots (b, s) (b', s')). }
  destruct Hinv as [Hb' Hs']. split; [done|]. split; [apply Hs'|]. intros r w Hr Hw HP.
  pose proof (refs_mapped s' roots r w Hr Hw HP) as Hpos. split; [by apply spaces_owned|]. split.
  - by destruct (refs_frame s' roots _ Hs' Hpos) as (_ & _ & _ & _ & _ & Hn).
  - split; [done|]. by apply (sp_refs _ _ Hs').
Qed.


(** Sharing a page.  Sharing a mapped page of one process with another either
    runs out of memory, leaving every entry and the page's reference count as
    they were, or succeeds: then both pages map the same frame, present and
    tagged as shared, the frame has one more reference and no other entry
    changes.  A page that is not mapped is refused. *)
Theorem mem_share_spec roots p q v tv flags s :
  spaces_ok s roots → proc_in roots p → proc_in roots q → page_addr v → page_addr tv → 0 ≤ flags →
  fa_refcount (fa s) (frame_of s (mp_pml4_virt p) v) < REF_MAX →
  let '(ret, s') := sys_mem_share s (Some p) (Some q) v tv flags in
  let r := mp_pml4_virt p in
  if has (pte s r v) VMM_P then
    (ret = 0 ∧ shared_page s s' roots r v (mp_pml4_virt q) tv) ∨
    (ret = SYS_ERR ∧ (∀ r1 w, r1 ∈ roots → pte s' r1 w = pte s r1 w) ∧
     fa_refcount (fa s') (frame_of s r v) = fa_refcount (fa s) (frame_of s r v))
  else ret = SYS_ERR ∧ s' = s.
Proof.
  intros Hs Hp Hq [Hv Ha] [Htv Hta] Hfl Hmax. pose proof Hp as (Hin & _). pose proof Hq as (Hin' & Hhi' & _).
  pose proof (mem_share_lemma s roots (Some p) (Some q) _ _ v tv flags Hs (space_of_in _ _ Hp) (space_of_in _ _ Hq) Hin Hin' Hhi' Hv Htv Ha Hta Hfl (λ _, Hmax)) as H.
  destruct (sys_mem_share s (Some p) (Some q) v tv flags). apply H.
Qed.

(** Changing the program break stays in the heap.  Whatever break a process
    asks for, no entry of another process and no entry of its own below the heap
    changes, frames keep their references, and the recorded breaks stay within
    the heap. *)
Theorem brk_confined roots b p addr s :
  spaces_ok s roots → brk_ok b → proc_in roots p → 0 ≤ addr < 2 ^ 64 →
  let '(ret, b', s') := sys_brk b s (Some p) addr in
  spaces_ok s' roots ∧ brk_ok b' ∧
  (∀ r' w, r' ∈ roots → outside_heap (mp_pml4_virt p) r' w → pte s' r' w = pte s r' w).
Proof. intros Hs Hb (Hin & Hhi & Hpid) Ha. by apply sys_brk_lemma. Qed.

(** *** Where the calls are too permissive *)

(** [sys_mem_map] and [sys_mem_alloc] check only that the address is below
    the kernel half, and the page tables ignore its upper 16 bits: an address in
    the second 2^47 bytes is accepted and maps the kernel page it aliases, which
    the calls refuse under its own address. *)
Theorem mem_map_reaches_kernel p paddr flags v s :
  2 ^ 47 ≤ v < 2 ^ 48 → mp_pml4_virt p ≠ 0 →
  let k := v + (2 ^ 64 - 2 ^ 48) in
  HIGHER_HALF ≤ k ∧ sys_mem_map s (Some p) k paddr flags = (SYS_ERR, s) ∧
  sys_mem_map s (Some p) v paddr flags =
    (let '(ok, s') := vmm_map_page s (mp_pml4_virt p) k paddr (user_flags flags) in (if ok then 0 else SYS_ERR, s')).
Proof.
  intros Hv Hp k. assert (Hk : HIGHER_HALF ≤ k) by (unfold k, HIGHER_HALF in *; lia). split; [done|].
  assert (Hidx : ∀ n, 0 ≤ n ≤ 39 → Z.land (Z.shiftr k n) 511 = Z.land (Z.shiftr v n) 511).
  { intros n Hn. change 511 with (Z.ones 9). rewrite !Z.land_ones, !Z.shiftr_div_pow2 by lia. unfold k.
    replace (2 ^ 64 - 2 ^ 48) with (2 ^ (48 - n) * (2 ^ 16 - 1) * 2 ^ n)
      by (rewrite <- Z.mul_assoc, (Z.mul_comm (2 ^ 16 - 1)), Z.mul_assoc, <- Z.pow_add_r by lia; replace (48 - n + n) with 48 by lia; reflexivity).
    rewrite Z.div_add by (apply Z.pow_nonzero; lia).
    replace (2 ^ (48 - n) * (2 ^ 16 - 1)) with (2 ^ (48 - n - 9) * (2 ^ 16 - 1) * 2 ^ 9)
      by (rewrite <- Z.mul_assoc, (Z.mul_comm (2 ^ 16 - 1)), Z.mul_assoc, <- Z.pow_add_r by lia; f_equal; f_equal; lia).
    by rewrite Z_mod_plus_full. }
  assert (Hmap : vmm_map_page s (mp_pml4_virt p) k paddr (user_flags flags) = vmm_map_page s (mp_pml4_virt p) v paddr (user_flags flags)).
  { unfold vmm_map_page, PML4_IDX, PDPT_IDX, PD_IDX, PT_IDX. by rewrite !Hidx by lia. }
  unfold sys_mem_map. cbn [space_of]. rewrite (proj2 (Z.eqb_neq _ 0) Hp), (proj2 (Z.leb_le _ _) Hk). split; [done|].
  rewrite (proj2 (Z.leb_gt HIGHER_HALF v)) by (unfold HIGHER_HALF; lia). rewrite Hmap. by destruct (vmm_map_page _ _ v _ _) as [[] ?].
Qed.

(** Freeing an unmapped page at an address that is not page-aligned succeeds
    and drops a reference of the physical page 0: the translation of an absent
    page whose page table exists is the offset of the address. *)
Theorem mem_free_unmapped roots p v t s :
  spaces_ok s roots → proc_in roots p → 0 ≤ v < 2 ^ 47 →
  tbl s (mp_pml4_virt p) 3 v = Some t → pte s (mp_pml4_virt p) v = 0 → v mod PAGE_SIZE ≠ 0 →
  sys_mem_free s (Some p) v = (0, with_fa (wr_entry s t (PT_IDX v) 0) (fa_unref (fa s) (v mod PAGE_SIZE))).
Proof.
  intros Hs Hp Hv Ht H0 Hoff. pose proof Hp as (Hin & _). pose proof (user_addr v Hv) as Hu. pose proof (sp_vm _ _ Hs) as Hok.
  unfold sys_mem_free. rewrite (space_of_in _ _ Hp). rewrite (virt_to_phys_user s roots) by done. unfold pte in H0. rewrite Ht in *.
  rewrite H0, land_4095, Z.land_0_l, Z.add_0_l. change (v mod 4096) with (v mod PAGE_SIZE).
  rewrite u64_small by (pose proof (Z.mod_pos_bound v PAGE_SIZE ltac:(unfold PAGE_SIZE; lia)); unfold PAGE_SIZE in *; lia).
  rewrite (proj2 (Z.eqb_neq _ 0) Hoff). by rewrite (unmap_tbl s roots), Ht by done.
Qed.
End theorems.

(** ** A process of the small machine *)

Module SysMemDemo.
Import VmmDemo.

Definition proc1 : mproc := mkMproc 1 true root.
Definition breaks : list Z := replicate 32 0.
Definition globals : mglobals := mkGlobals breaks 0x600000000000.

Lemma demo_tbl d w : (1 ≤ d ≤ 3)%nat → tbl demo root d w = None.
Proof. intros Hd. destruct (tbl demo root d w) as [t|] eqn:E; [|done]. apply zero_tbl in E as [-> _]. lia. Qed.
Lemma demo_pte w : pte demo root w = 0.
Proof. unfold pte. by rewrite demo_tbl by lia. Qed.

Lemma demo_spaces : spaces_ok demo [root].
Proof.
  constructor.
  - exact demo_ok.
  - apply NoDup_singleton.
  - intros r w ->%list_elem_of_singleton _. by rewrite demo_pte.
  - intros u Hu. apply refs_pos in Hu as (r & ->%list_elem_of_singleton & Hm). apply maps_some in Hm as (m & _ & Hm).
    unfold maps_page in Hm. by rewrite demo_pte in Hm.
  - intros r d w t ->%list_elem_of_singleton Hd _. by rewrite demo_tbl.
  - intros r w ->%list_elem_of_singleton _. right. apply demo_pte.
Qed.

Lemma proc1_in : proc_in [root] proc1.
Proof. split; [exact root_in|]. split; [exact root_high|done]. Qed.
Lemma breaks_ok : brk_ok breaks.
Proof. split; [done|]. intros i Hi. left. unfold aget, breaks. rewrite lookup_total_replicate_2 by lia. done. Qed.
Lemma page_va_addr : page_addr PAGE_VA.
Proof. split; [unfold PAGE_VA; lia|reflexivity]. Qed.

Lemma mem_calls_safe_witness :
  brk_ok (g_proc_brk (do_call (CMmap proc1 0 8192 3) (do_call (CBrk proc1 (USER_HEAP_BASE + 5000))
    (do_call (CAlloc proc1 PAGE_VA VMM_RW) (globals, demo)))).1).
Proof.
  destruct (do_call (CMmap proc1 0 8192 3) _) as [b' s'] eqn:E.
  refine (proj1 (mem_calls_safe [root] globals demo b' s' demo_spaces breaks_ok _)). rewrite <- E.
  apply ms_step; [apply ms_step; [apply ms_step; [apply ms_refl|]|]|].
  - split; [exact proc1_in|]. split; [left; unfold PAGE_VA; lia|done].
  - split; [exact proc1_in|]. unfold USER_HEAP_BASE. lia.
  - split; [exact proc1_in|]. cbn [Z.eqb].
    assert (Ea : anon_base (do_call (CBrk proc1 (USER_HEAP_BASE + 5000)) (do_call (CAlloc proc1 PAGE_VA VMM_RW) (globals, demo))).1 = 0x600000000000).
    { cbn [do_call]. generalize (sys_mem_alloc demo (Some proc1) PAGE_VA VMM_RW).2. intros s1.
      destruct (sys_brk (g_proc_brk globals) s1 (Some proc1) (USER_HEAP_BASE + 5000)) as [[x1 x2] x3]. reflexivity. }
    rewrite Ea. unfold PAGE_SIZE. lia.
Defined.

Lemma alloc_succeeds : (sys_mem_alloc demo (Some proc1) PAGE_VA VMM_RW).1 = 0.
Proof. vm_compute. reflexivity. Qed.
Definition alloced : vm pmm := (sys_mem_alloc demo (Some proc1) PAGE_VA VMM_RW).2.
Lemma alloced_eq : sys_mem_alloc demo (Some proc1) PAGE_VA VMM_RW = (0, alloced).
Proof. rewrite <- alloc_succeeds. apply surjective_pairing. Qed.
#[global] Strategy 100 [alloced].


(** What the allocation leaves. *)
Lemma alloced_facts :
  spaces_ok alloced [root] ∧ has (pte alloced root PAGE_VA) VMM_P = true ∧
  fa_refcount (fa alloced) (frame_of alloced root PAGE_VA) = 1 ∧
  (∀ w, ¬ path_eq 4 PAGE_VA w → pte alloced root w = 0).
Proof.
  pose proof (mem_alloc_lemma demo [root] (Some proc1) root PAGE_VA VMM_RW demo_spaces eq_refl root_in root_high
    (proj1 page_va_addr) ltac:(done)) as M.
  rewrite alloced_eq in M. change (0 =? 0) with true in M. destruct M as [M [H|(_ & t & Hf & Hrc & _ & Hpte)]]; [discriminate|].
  destruct (fa_free_frame _ _ (ok_fa _ _ demo_ok) Hf) as (Hlo & Hhi & Hta & _).
  assert (Hfr : frame_of alloced root PAGE_VA = t).
  { unfold frame_of. rewrite Hpte by apply path_eq_refl. rewrite land_mask_lor by reflexivity.
    apply land_mask_frame; [done|unfold LOW_FRAMES, PAGE_SIZE in *; lia]. }
  split; [apply M|]. split.
  - rewrite Hpte by apply path_eq_refl. flag_bits. by rewrite orb_true_r.
  - split; [by rewrite Hfr|]. intros w Hw. rewrite (me_pte _ _ _ _ _ _ M root w root_in) by tauto. apply demo_pte.
Qed.

(** The process shares the page with itself, one page up. *)
Lemma mem_share_spec_witness :
  let '(ret, s') := sys_mem_share alloced (Some proc1) (Some proc1) PAGE_VA (PAGE_VA + PAGE_SIZE) VMM_RW in
  (ret = 0 ∧ shared_page alloced s' [root] root PAGE_VA root (PAGE_VA + PAGE_SIZE)) ∨ ret = SYS_ERR.
Proof.
  destruct alloced_facts as (Hs & HP & Hrc & _).
  assert (Htv : page_addr (PAGE_VA + PAGE_SIZE)) by (split; [unfold PAGE_VA, PAGE_SIZE; lia|reflexivity]).
  assert (Hm : fa_refcount (fa alloced) (frame_of alloced (mp_pml4_virt proc1) PAGE_VA) < REF_MAX) by (cbn [mp_pml4_virt proc1]; rewrite Hrc; reflexivity).
  pose proof (mem_share_spec [root] proc1 proc1 PAGE_VA (PAGE_VA + PAGE_SIZE) VMM_RW alloced Hs proc1_in proc1_in page_va_addr Htv ltac:(done) Hm) as H.
  destruct (sys_mem_share alloced (Some proc1) (Some proc1) PAGE_VA (PAGE_VA + PAGE_SIZE) VMM_RW) as [ret s'].
  cbn [mp_pml4_virt proc1] in H. rewrite HP in H. destruct H as [H|(H & _)]; [left; exact H|right; exact H].
Defined.

Lemma brk_confined_witness :
  let '(ret, b', s') := sys_brk breaks demo (Some proc1) (USER_HEAP_BASE + 5000) in spaces_ok s' [root] ∧ brk_ok b'.
Proof.
  pose proof (brk_confined [root] breaks proc1 (USER_HEAP_BASE + 5000) demo demo_spaces breaks_ok proc1_in ltac:(unfold USER_HEAP_BASE; lia)) as H.
  destruct (sys_brk breaks demo (Some proc1) (USER_HEAP_BASE + 5000)) as [[ret b'] s']. destruct H as (H1 & H2 & _). split; [exact H1|exact H2].
Defined.

Lemma mem_map_reaches_kernel_witness :
  sys_mem_map demo (Some proc1) HIGHER_HALF 0xB8000 VMM_RW = (SYS_ERR, demo) ∧
  sys_mem_map demo (Some proc1) (2 ^ 47) 0xB8000 VMM_RW =
    (let '(ok, s') := vmm_map_page demo root HIGHER_HALF 0xB8000 (user_flags VMM_RW) in (if ok then 0 else SYS_ERR, s')).
Proof.
  destruct (mem_map_reaches_kernel proc1 0xB8000 VMM_RW (2 ^ 47) demo ltac:(lia) ltac:(discriminate)) as (_ & H1 & H2).
  split; [exact H1|exact H2].
Defined.

Lemma mem_free_unmapped_witness :
  ∃ t, sys_mem_free alloced (Some proc1) (PAGE_VA + PAGE_SIZE + 5) =
    (0, with_fa (wr_entry alloced t (PT_IDX (PAGE_VA + PAGE_SIZE + 5)) 0) (fa_unref (fa alloced) 5)).
Proof.
  destruct alloced_facts as (Hs & HP & _ & Hzero).
  assert (Ht : ∃ t, tbl alloced root 3 PAGE_VA = Some t).
  { unfold pte in HP. destruct (tbl alloced root 3 PAGE_VA) as [t|]; [exists t; reflexivity|discriminate]. }
  destruct Ht as [t Ht]. exists t. refine (mem_free_unmapped [root] proc1 (PAGE_VA + PAGE_SIZE + 5) t alloced Hs proc1_in _ _ _ _).
  - unfold PAGE_VA, PAGE_SIZE. lia.
  - rewrite <- Ht. symmetry. apply tbl_path_eq. intros [|[|[|k]]] Hk; [reflexivity..|lia].
  - apply Hzero. intros Hp. specialize (Hp 3%nat ltac:(lia)). discriminate Hp.
  - discriminate.
Defined.
End SysMemDemo.
