(* ===== verification/Elf.v ===== *)
(** * The ELF loader

    [kernel/elf/elf.c].  The file image is a byte memory [img] of its own with
    [len] bytes; what lies outside is whatever the kernel has there.  The page
    loop of a segment takes a bound on its number of turns ([None] when it is not
    enough), because the source's loop does not end when the segment reaches the
    top of the address space. *)

From S2P Require Import Prelude Mem CString Block Pmm Frames Vmm VmmProofs VmmSpec.

Definition ELFMAG : list Z := [127; 69; 76; 70].
Definition ELFCLASS64 : Z := 2.
Definition ELFDATA2LSB : Z := 1.
Definition EV_CURRENT : Z := 1.
Definition ET_EXEC : Z := 2.
Definition EM_X86_64 : Z := 62.
Definition PT_LOAD : Z := 1.
Definition PF_X : Z := 1.
Definition PF_W : Z := 2.
Definition PF_R : Z := 4.

(** [elf64_ehdr_t], the fields the loader reads; 64 bytes in the file. *)
Record elf64_ehdr_t := mkEhdr {
  e_ident : Z → Z; e_type : Z; e_machine : Z; e_entry : Z; e_phoff : Z; e_phentsize : Z; e_phnum : Z }.
Definition EHDR_SIZE : Z := 64.

Definition read_ehdr (img : mem) : elf64_ehdr_t :=
  mkEhdr img (load_le img 16 2) (load_le img 18 2) (load_le img 24 8) (load_le img 32 8)
    (load_le img 54 2) (load_le img 56 2).

(** [elf64_phdr_t]; 56 bytes in the file. *)
Record elf64_phdr_t := mkPhdr {
  p_type : Z; p_flags : Z; p_offset : Z; p_vaddr : Z; p_filesz : Z; p_memsz : Z }.
Definition PHDR_SIZE : Z := 56.

Definition read_phdr (img : mem) (a : Z) : elf64_phdr_t :=
  mkPhdr (load_le img a 4) (load_le img (a + 4) 4) (load_le img (a + 8) 8) (load_le img (a + 16) 8)
    (load_le img (a + 32) 8) (load_le img (a + 40) 8).

(** [elf_validate]: the header when the file is acceptable. *)
Definition elf_validate (img : mem) (len : Z) : option elf64_ehdr_t :=
  if len <? EHDR_SIZE then None
  else
    let h := read_ehdr img in
    if negb (e_ident h 0 =? 127) || negb (e_ident h 1 =? 69) || negb (e_ident h 2 =? 76)
       || negb (e_ident h 3 =? 70) then None
    else if negb (e_ident h 4 =? ELFCLASS64) then None
    else if negb (e_ident h 5 =? ELFDATA2LSB) then None
    else if negb (e_ident h 6 =? EV_CURRENT) then None
    else if negb (e_type h =? ET_EXEC) then None
    else if negb (e_machine h =? EM_X86_64) then None
    else if e_phentsize h <? PHDR_SIZE then None
    else if len <? u64 (e_phoff h + e_phnum h * e_phentsize h) then None
    else Some h.

(** Page flags of a segment; [VMM_X] is 0. *)
Definition seg_flags (pflags : Z) : Z :=
  let flags := 0 in
  let flags := if has pflags PF_R then Z.lor flags VMM_U else flags in
  let flags := if has pflags PF_W then Z.lor flags (Z.lor VMM_U VMM_RW) else flags in
  if has pflags PF_X then Z.lor flags VMM_U else flags.

Section elf.
Context {F : Type} `{FA : FrameAlloc F}.
Implicit Types s : vm F.

(** One turn of the page loop: a zeroed frame, the part of the file that falls
    into it, and the mapping, whose result the source ignores. *)
Definition load_page (img : mem) (pml4 : Z) (ph : elf64_phdr_t) (va : Z) s : bool * vm F :=
  let '(page, f) := fa_alloc (fa s) in
  let s := with_fa s f in
  if page =? 0 then (false, s)
  else
    let vpage := p2v s page in
    let s := zero_page s vpage in
    let src_off := u64 (p_offset ph + (va - p_vaddr ph)) in
    let seg_file_end := u64 (p_offset ph + p_filesz ph) in
    let s :=
      if src_off <? seg_file_end then
        let to_copy := if seg_file_end <? u64 (src_off + 4096)
                       then u64 (seg_file_end - src_off) else 4096 in
        with_mem s (blit (vmem s) vpage img src_off to_copy)
      else s in
    (true, (vmm_map_page s pml4 va page (seg_flags (p_flags ph))).2).

Fixpoint load_pages (fuel : nat) (img : mem) (pml4 : Z) (ph : elf64_phdr_t) (va : Z) s : option (bool * vm F) :=
  match fuel with
  | O => None
  | S fuel =>
      if va <? u64 (p_vaddr ph + p_memsz ph) then
        match load_page img pml4 ph va s with
        | (false, s) => Some (false, s)
        | (true, s) => load_pages fuel img pml4 ph (u64 (va + 4096)) s
        end
      else Some (true, s)
  end.

(** [va = vaddr & ~0xFFF] *)
Definition first_page (v : Z) : Z := Z.land v (2 ^ 64 - 2 ^ 12).

Definition load_segment (fuel : nat) (img : mem) (len pml4 : Z) (ph : elf64_phdr_t) s : option (bool * vm F) :=
  if negb (p_type ph =? PT_LOAD) then Some (true, s)
  else if len <? u64 (p_offset ph + p_filesz ph) then Some (false, s)
  else load_pages fuel img pml4 ph (first_page (p_vaddr ph)) s.

(** The program-header loop from header [i]. *)
Fixpoint load_phdrs (fuel : nat) (img : mem) (len pml4 : Z) (h : elf64_ehdr_t) (n : nat) (i : Z) s :
    option (bool * vm F) :=
  match n with
  | O => Some (true, s)
  | S n =>
      match load_segment fuel img len pml4 (read_phdr img (u64 (e_phoff h + i * e_phentsize h))) s with
      | Some (true, s) => load_phdrs fuel img len pml4 h n (i + 1) s
      | r => r
      end
  end.

(** [elf_load]: success, the entry point it stored, and the machine. *)
Definition elf_load (fuel : nat) (img : mem) (len pml4 : Z) s : option (bool * Z * vm F) :=
  match elf_validate img len with
  | None => Some (false, 0, s)
  | Some h =>
      (λ '(ok, s), (ok, e_entry h, s)) <$> load_phdrs fuel img len pml4 h (Z.to_nat (e_phnum h)) 0 s
  end.
End elf.
