(* ===== verification/ElfSpec.v ===== *)
(** * What the ELF loader does

    Which program headers an accepted file can make the loader read, and that a
    well-formed executable is loaded exactly: every byte of every segment is
    found at its address, file bytes first and zeros after, and nothing else of
    the machine changes. *)

From S2P Require Import Prelude Mem CString Block Pmm Frames Vmm VmmProofs VmmSpec Elf.

(** ** Bounds *)

Lemma validate_inv img len h :
  elf_validate img len = Some h →
  h = read_ehdr img ∧ EHDR_SIZE ≤ len ∧ PHDR_SIZE ≤ e_phentsize h ∧
  u64 (e_phoff h + e_phnum h * e_phentsize h) ≤ len.
Proof.
  unfold elf_validate. destruct (Z.ltb_spec len EHDR_SIZE) as [|Hlen]; [done|].
  repeat (case_if; [done|]). intros [= <-]. bools. split_and!; [done|lia|lia|lia].
Qed.

(** C31: which program headers the loader reads.  Of a file accepted by
    [elf_validate] every program header lies wholly inside the file exactly when
    the table's end does not wrap around 2^64: the check of [elf_validate] is
    sound for such tables, and only for them. *)
Theorem elf_headers_in_bounds img len h :
  mem_bytes img → elf_validate img len = Some h → len ≤ 2 ^ 63 → 0 < e_phnum h →
  (∀ i, 0 ≤ i < e_phnum h → e_phoff h + i * e_phentsize h + PHDR_SIZE ≤ len) ↔
  e_phoff h + e_phnum h * e_phentsize h < 2 ^ 64.
Proof.
  intros Hb Hv Hlen Hn. destruct (validate_inv img len h Hv) as (-> & H1 & H2 & H3).
  pose proof (load_le_range img 32 8 Hb) as R1. pose proof (load_le_range img 54 2 Hb) as R2.
  cbn [read_ehdr e_phoff e_phentsize e_phnum] in *. set (o := load_le img 32 8) in *.
  set (sz := load_le img 54 2) in *. set (n := load_le img 56 2) in *.
  change (256 ^ Z.of_nat 8) with 18446744073709551616 in R1. change (256 ^ Z.of_nat 2) with 65536 in R2.
  unfold PHDR_SIZE in *. split.
  - intros H. specialize (H (n - 1) ltac:(lia)). nia.
  - intros H i Hi. rewrite u64_small in H3 by nia. nia.
Qed.

(** ** Loading *)

Section load.
Context {F : Type} `{FA : FrameAlloc F} `{FL : !FrameAllocLaws F}.
Implicit Types s : vm F.

(** The allocator can serve [n] requests in a row. *)
Fixpoint can_alloc (n : nat) (f : F) : Prop :=
  match n with O => True | S n => (fa_alloc f).1 ≠ 0 ∧ can_alloc n (fa_alloc f).2 end.

Lemma can_alloc_S n f : can_alloc (S n) f → can_alloc n f.
Proof. revert f. induction n as [|n IH]; intros f; [done|]. intros [H1 H2]. split; [done|]. by apply IH. Qed.

Lemma can_alloc_le n m f : (m ≤ n)%nat → can_alloc n f → can_alloc m f.
Proof. induction 1 as [|n Hle IH]; [done|]. intros H. by apply IH, can_alloc_S. Qed.

Lemma next_table_alloc s t i n :
  can_alloc (S n) (fa s) →
  (next_table s t i).1 ≠ None ∧ can_alloc n (fa (next_table s t i).2).
Proof.
  intros [H1 H2]. unfold next_table. destruct (has _ VMM_P); cbn [negb].
  - split; [done|]. by apply can_alloc_S.
  - destruct (fa_alloc (fa s)) as [pt f]. cbn [fst snd] in *. destruct (Z.eqb_spec pt 0); [done|]. done.
Qed.

Lemma map_page_alloc s r v p fl n :
  HIGHER_HALF ≤ r → can_alloc (3 + n) (fa s) →
  (vmm_map_page s r v p fl).1 = true ∧ can_alloc n (fa (vmm_map_page s r v p fl).2).
Proof.
  intros Hr Hc. unfold vmm_map_page. destruct (Z.ltb_spec r HIGHER_HALF); [lia|].
  destruct (next_table_alloc s r (PML4_IDX v) (2 + n) Hc) as [N1 C1].
  destruct (next_table s r (PML4_IDX v)) as [[t1|] s1]; [|done]. cbn [fst snd] in *.
  destruct (next_table_alloc s1 t1 (PDPT_IDX v) (1 + n) C1) as [N2 C2].
  destruct (next_table s1 t1 (PDPT_IDX v)) as [[t2|] s2]; [|done]. cbn [fst snd] in *.
  destruct (next_table_alloc s2 t2 (PD_IDX v) n C2) as [N3 C3].
  by destruct (next_table s2 t2 (PD_IDX v)) as [[t3|] s3].
Qed.

(** The machine changes only in the pages of [dom] of address space [r]. *)
Record extends (roots : list Z) (r : Z) (dom : Z → Prop) s s' : Prop := {
  ex_ok : vm_ok s' roots;
  ex_hhdm : fa_hhdm (fa s') = fa_hhdm (fa s);
  ex_pte : ∀ r' w, r' ∈ roots → r' ≠ r ∨ ¬ dom w → pte s' r' w = pte s r' w;
  ex_page : ∀ p, data_page s roots p → data_page s' roots p;
  ex_data : ∀ p i, data_page s roots p → 0 ≤ i < PAGE_SIZE → vmem s' (p + i) = vmem s (p + i);
}.

Lemma extends_trans roots r (d1 d2 d : Z → Prop) s1 s2 s3 :
  extends roots r d1 s1 s2 → extends roots r d2 s2 s3 → (∀ w, d1 w ∨ d2 w → d w) → extends roots r d s1 s3.
Proof.
  intros E1 E2 Hd. constructor.
  - apply E2.
  - by rewrite (ex_hhdm _ _ _ _ _ E2), (ex_hhdm _ _ _ _ _ E1).
  - intros r' w Hr Hw. rewrite (ex_pte _ _ _ _ _ E2), (ex_pte _ _ _ _ _ E1); naive_solver.
  - intros p Hp. by apply (ex_page _ _ _ _ _ E2), (ex_page _ _ _ _ _ E1).
  - intros p i Hp Hi. rewrite (ex_data _ _ _ _ _ E2); [by apply (ex_data _ _ _ _ _ E1)| |done].
    by apply (ex_page _ _ _ _ _ E1).
Qed.

Lemma extends_refl roots r d s : vm_ok s roots → extends roots r d s s.
Proof. intros Hok. by constructor. Qed.

(** Page [va] of [r] is backed by the frame [t], which holds [content]. *)
Definition holds_frame s (roots : list Z) (r va flags t : Z) (content : Z → Z) : Prop :=
  page_aligned t ∧ 0 < t < 2 ^ 33 ∧ pte s r va = Z.lor t (Z.lor flags VMM_P) ∧
  data_page s roots (p2v s t) ∧ ∀ i, 0 ≤ i < PAGE_SIZE → vmem s (p2v s t + i) = content i.

Definition holds_page s (roots : list Z) (r va flags : Z) (content : Z → Z) : Prop :=
  ∃ t, holds_frame s roots r va flags t content.

Lemma holds_frame_extends s s' roots r d va flags t content :
  extends roots r d s s' → r ∈ roots → ¬ d va → holds_frame s roots r va flags t content →
  holds_frame s' roots r va flags t content.
Proof.
  intros E Hr Hd (Ha & Ht & Hp & Hdat & Hc).
  assert (Ep : p2v s' t = p2v s t) by (unfold p2v; by rewrite (ex_hhdm _ _ _ _ _ E)). unfold holds_frame. rewrite Ep.
  split; [done|]. split; [done|]. split_and!.
  - rewrite (ex_pte _ _ _ _ _ E) by auto. done.
  - by apply (ex_page _ _ _ _ _ E).
  - intros i Hi. rewrite (ex_data _ _ _ _ _ E) by done. by apply Hc.
Qed.

Lemma holds_page_extends s s' roots r d va flags content :
  extends roots r d s s' → r ∈ roots → ¬ d va → holds_page s roots r va flags content →
  holds_page s' roots r va flags content.
Proof. intros E Hr Hd (t & Ht). exists t. by eapply holds_frame_extends. Qed.

(** A fresh frame, filled and mapped. *)
Lemma map_fresh s roots r va pt (f' : F) (m : mem) flags n :
  vm_ok s roots → r ∈ roots → HIGHER_HALF ≤ r → is_user va → fa_alloc (fa s) = (pt, f') → pt ≠ 0 →
  can_alloc (3 + n) f' → mem_bytes m → (∀ a, a < p2v s pt ∨ p2v s pt + PAGE_SIZE ≤ a → m a = vmem s a) →
  0 ≤ flags < 2 ^ 64 →
  let s2 := (vmm_map_page (mkVm m f' (kernel_pml4_virt s)) r va pt flags).2 in
  can_alloc n (fa s2) ∧ fa_free (fa s) pt ∧ extends roots r (λ w, path_eq 4 va w) s s2 ∧
  ∀ w, path_eq 4 va w → holds_frame s2 roots r w flags pt (λ i, m (p2v s pt + i)).
Proof.
  intros Hok Hr Hhi Hu E Hnz Hc Hm Hout Hfl. cbv zeta.
  destruct (fa_alloc_spec (fa s) (ok_fa _ _ Hok)) as [[E' _]|(pt' & f & E' & Hf & Hok' & Hh & Hfree & Hrefs)];
    rewrite E in E'; [congruence|]. injection E' as <- <-.
  destruct (free_frame_virt s pt (ok_fa _ _ Hok) Hf) as (Ep & P1 & P2 & P3 & Pm & Hpt).
  destruct (fresh_page s roots pt f' m Hok Hf Hok' Hh Hfree Hrefs Hm Hout) as (G & Hnew & _).
  set (s1 := mkVm m f' (kernel_pml4_virt s)) in *.
  destruct (map_page_alloc s1 r va pt flags n Hhi Hc) as [M1 M2].
  pose proof (map_page_spec s1 roots r va pt flags (gr_ok _ _ _ G) Hr Hu Hhi ltac:(lia) Hfl) as M. cbv zeta in M.
  pose proof (map_data_page s1 roots r va pt flags) as Hdp.
  destruct (vmm_map_page s1 r va pt flags) as [ok s2]. cbn [fst snd] in *. subst ok. split; [done|]. split; [done|].
  assert (Hdat : ∀ p, data_page s1 roots p → data_page s2 roots p)
    by (intros p Hp; apply (Hdp p (gr_ok _ _ _ G) Hr Hhi Hu); [lia|done|done]).
  destruct M as (s3 & t & G3 & Ht & -> & Hx). rewrite Pm in *. set (x := Z.lor _ _) in *.
  assert (Hbytes : ∀ p i, data_page s1 roots p → 0 ≤ i < PAGE_SIZE →
            vmem (wr_entry s3 t (PT_IDX va) x) (p + i) = vmem s1 (p + i)).
  { intros p i Hp Hi. rewrite (leaf_data s3 roots r); [by apply (gr_data _ _ _ G3)|apply G3|done|done| |done].
    by apply (gr_page _ _ _ G3). }
  assert (Hhh : fa_hhdm (fa (wr_entry s3 t (PT_IDX va) x)) = fa_hhdm (fa s)).
  { cbn [wr_entry with_mem fa]. rewrite (gr_hhdm _ _ _ G3). apply (gr_hhdm _ _ _ G). }
  split.
  - constructor; [|done|..].
    + apply (leaf_ok s3 roots r va); auto. apply G3.
    + intros r' w Hr' Hne. rewrite (leaf_pte_ne s3 roots r va) by first [exact (gr_ok _ _ _ G3)|done|naive_solver].
      rewrite (gr_pte _ _ _ G3) by done. by apply (gr_pte _ _ _ G).
    + intros p Hp. by apply Hdat, (gr_page _ _ _ G).
    + intros p i Hp Hi. rewrite Hbytes by (done || by apply (gr_page _ _ _ G)). by apply (gr_data _ _ _ G).
  - intros w Hw. unfold holds_frame.
    assert (Ep2 : p2v (wr_entry s3 t (PT_IDX va) x) pt = p2v s pt) by (unfold p2v; by rewrite Hhh). rewrite Ep2.
    assert (page_aligned pt) by (rewrite <- Pm; apply land_mask_aligned).
    split; [done|]. split; [lia|]. split_and!; [|by apply Hdat|].
    + apply (leaf_pte_eq s3 roots); auto. apply G3.
    + intros i Hi. by rewrite Hbytes.
Qed.

Lemma holds_page_ext s roots r va flags c c' :
  (∀ i, 0 ≤ i < PAGE_SIZE → c i = c' i) → holds_page s roots r va flags c → holds_page s roots r va flags c'.
Proof.
  intros H (t & Ha & Ht & Hp & Hd & Hc). exists t. split; [done|]. split; [done|]. split_and!; [done|done|].
  intros i Hi. by rewrite <- H, Hc.
Qed.

(** *** One segment *)

(** A loadable segment inside the file and the user half; the file offset of a
    segment that does not start on a page boundary reaches back to one. *)
Definition good_seg (len : Z) (ph : elf64_phdr_t) : Prop :=
  0 ≤ p_filesz ph ∧ p_offset ph + p_filesz ph ≤ len ∧ p_vaddr ph mod 4096 ≤ p_offset ph ∧
  0 ≤ p_vaddr ph ∧ 0 ≤ p_memsz ph ∧ p_vaddr ph + p_memsz ph ≤ 2 ^ 47.

(** The byte the segment puts at address [a]. *)
Definition seg_byte (img : mem) (ph : elf64_phdr_t) (a : Z) : Z :=
  if a - p_vaddr ph <? p_filesz ph then img (p_offset ph + (a - p_vaddr ph)) else 0.

Definition seg_start (ph : elf64_phdr_t) : Z := p_vaddr ph / 4096 * 4096.
Definition seg_end (ph : elf64_phdr_t) : Z := p_vaddr ph + p_memsz ph.

Lemma seg_flags_range fl : 0 ≤ seg_flags fl < 2 ^ 64.
Proof. unfold seg_flags. repeat case_if; split; done. Qed.

Section segment.
Context (img : mem) (len : Z) (roots : list Z) (r : Z) (ph : elf64_phdr_t).
Hypothesis Himg : mem_bytes img.
Hypothesis Hlen : len ≤ 2 ^ 62.
Hypothesis Hr : r ∈ roots.
Hypothesis Hhi : HIGHER_HALF ≤ r.
Hypothesis Hseg : good_seg len ph.
#[local] Abbreviation flags := (seg_flags (p_flags ph)).

Lemma load_page_spec s va n :
  vm_ok s roots → va mod 4096 = 0 → seg_start ph ≤ va < 2 ^ 47 → can_alloc (4 + n) (fa s) →
  let '(ok, s') := load_page img r ph va s in
  ok = true ∧ can_alloc n (fa s') ∧ extends roots r (λ w, path_eq 4 va w) s s' ∧
  ∀ w, path_eq 4 va w → holds_page s' roots r w flags (λ i, seg_byte img ph (va + i)).
Proof.
  intros Hok Hal Hva [Hc0 Hc]. destruct Hseg as (S1 & S2 & S3 & S4 & S5 & S6). unfold load_page, seg_start in *.
  destruct (fa_alloc (fa s)) as [pt f'] eqn:E. cbn [fst snd] in Hc0, Hc.
  destruct (Z.eqb_spec pt 0) as [|Hnz]; [done|]. split; [done|].
  destruct (fa_alloc_spec (fa s) (ok_fa _ _ Hok)) as [[E' _]|(pt' & f & E' & Hf & Hok' & Hh & _)];
    rewrite E in E'; [congruence|]. injection E' as <- <-.
  destruct (free_frame_virt s pt (ok_fa _ _ Hok) Hf) as (Ep & _).
  assert (Hp2v : p2v (with_fa s f') pt = p2v s pt) by (unfold p2v; cbn [with_fa fa]; by rewrite Hh).
  rewrite Hp2v. set (src := u64 (p_offset ph + (va - p_vaddr ph))). set (fin := u64 (p_offset ph + p_filesz ph)).
  assert (Esrc : src = p_offset ph + (va - p_vaddr ph)) by (apply u64_small; zlia).
  assert (Efin : fin = p_offset ph + p_filesz ph) by (apply u64_small; zlia).
  set (cnt := if fin <? u64 (src + 4096) then u64 (fin - src) else 4096).
  assert (Ecnt : src < fin → cnt = Z.min 4096 (fin - src)).
  { intros Hlt. unfold cnt. rewrite (u64_small (src + 4096)), (u64_small (fin - src)) by zlia.
    destruct (Z.ltb_spec fin (src + 4096)); lia. }
  set (m := if src <? fin then blit (filled (vmem s) (p2v s pt) 0 PAGE_SIZE) (p2v s pt) img src cnt
            else filled (vmem s) (p2v s pt) 0 PAGE_SIZE).
  assert (Es : (if src <? fin
                then with_mem (zero_page (with_fa s f') (p2v s pt))
                       (blit (vmem (zero_page (with_fa s f') (p2v s pt))) (p2v s pt) img src cnt)
                else zero_page (with_fa s f') (p2v s pt)) = mkVm m f' (kernel_pml4_virt s)).
  { unfold m. by destruct (src <? fin). }
  rewrite Es.
  destruct (map_fresh s roots r va pt f' m flags n Hok Hr Hhi) as (C1 & _ & C2 & C3);
    [apply user_addr; zlia|done|done|done|..].
  - unfold m. case_if; [|by apply filled_bytes; [apply Hok|lia]].
    intros a. unfold blit. case_if; [apply Himg|]. apply filled_bytes; [apply Hok|lia].
  - assert (Hfill : ∀ a, a < p2v s pt ∨ p2v s pt + PAGE_SIZE ≤ a →
              filled (vmem s) (p2v s pt) 0 PAGE_SIZE a = vmem s a).
    { intros a Ha. unfold filled. destruct (Z.leb_spec (p2v s pt) a), (Z.ltb_spec a (p2v s pt + PAGE_SIZE));
        simpl; (lia || done). }
    intros a Ha. unfold m. destruct (Z.ltb_spec src fin) as [Hlt|]; [|by apply Hfill].
    rewrite blit_out by (rewrite Ecnt by done; unfold PAGE_SIZE in *; lia). by apply Hfill.
  - apply seg_flags_range.
  - split; [done|]. split; [done|]. intros w Hw. eapply holds_page_ext; [|exists pt; by apply C3].
    intros i Hi. unfold m, seg_byte. unfold PAGE_SIZE in Hi.
    assert (Hz : filled (vmem s) (p2v s pt) 0 PAGE_SIZE (p2v s pt + i) = 0).
    { unfold filled, PAGE_SIZE. destruct (Z.leb_spec (p2v s pt) (p2v s pt + i)),
        (Z.ltb_spec (p2v s pt + i) (p2v s pt + 4096)); simpl; (lia || done). }
    destruct (Z.ltb_spec src fin) as [Hlt|Hge], (Z.ltb_spec (va + i - p_vaddr ph) (p_filesz ph)) as [Hin|Hout]; try lia.
    + rewrite blit_in by (rewrite Ecnt by done; lia). f_equal. lia.
    + rewrite blit_out by (rewrite Ecnt by done; lia). done.
Qed.

(** The pages [lo .. lo + 4096 n) of an address space. *)
Definition page_range (lo : Z) (n : nat) (w : Z) : Prop :=
  ∃ k, 0 ≤ k < Z.of_nat n ∧ path_eq 4 (lo + k * 4096) w.

Lemma page_range_disjoint lo n va :
  0 ≤ lo → lo + Z.of_nat n * 4096 ≤ 2 ^ 48 → 0 ≤ va < 2 ^ 48 → lo mod 4096 = 0 →
  va < lo ∨ lo + Z.of_nat n * 4096 ≤ va → ¬ page_range lo n va.
Proof.
  intros H0 H1 H2 H3 H4 (k & Hk & Hp). rewrite same_page_path in Hp by lia. unfold PAGE_SIZE in Hp. zlia.
Qed.

Lemma load_pages_spec n fuel m va s :
  vm_ok s roots → va mod 4096 = 0 → seg_start ph ≤ va → va + Z.of_nat n * 4096 ≤ 2 ^ 47 →
  seg_end ph ≤ va + Z.of_nat n * 4096 → ((0 < n)%nat → va + Z.of_nat n * 4096 < seg_end ph + 4096) →
  (n < fuel)%nat → can_alloc (4 * n + m) (fa s) →
  ∃ s', load_pages fuel img r ph va s = Some (true, s') ∧ can_alloc m (fa s') ∧
    extends roots r (page_range va n) s s' ∧
    ∀ k w, 0 ≤ k < Z.of_nat n → path_eq 4 (va + k * 4096) w →
      holds_page s' roots r w flags (λ i, seg_byte img ph (va + k * 4096 + i)).
Proof.
  revert fuel va s. induction n as [|n IH]; intros fuel va s Hok Hal Hlo Htop Hend Hlast Hfuel Hc;
    (destruct fuel as [|fuel]; [lia|]); cbn [load_pages].
  - destruct Hseg as (S1 & S2 & S3 & S4 & S5 & S6). unfold seg_end in *. rewrite (u64_small (p_vaddr ph + p_memsz ph)) by lia.
    destruct (Z.ltb_spec va (p_vaddr ph + p_memsz ph)); [lia|]. exists s. split_and!; [done|done|by apply extends_refl|]. lia.
  - destruct Hseg as (S1 & S2 & S3 & S4 & S5 & S6). unfold seg_end, seg_start in *.
    rewrite (u64_small (p_vaddr ph + p_memsz ph)) by lia. specialize (Hlast ltac:(lia)).
    destruct (Z.ltb_spec va (p_vaddr ph + p_memsz ph)); [|lia].
    pose proof (load_page_spec s va (4 * n + m) Hok Hal ltac:(unfold seg_start; lia)) as L.
    destruct (load_page img r ph va s) as [ok s1].
    destruct L as (-> & C1 & X1 & H1); [by replace (4 + (4 * n + m))%nat with (4 * S n + m)%nat by lia|].
    rewrite (u64_small (va + 4096)) by zlia.
    destruct (IH fuel (va + 4096) s1) as (s' & L' & C2 & X2 & H2);
      [apply X1|zlia|lia|lia|lia|lia|lia|done|].
    exists s'. split; [done|]. split; [done|]. split.
    + eapply extends_trans; [done|done|]. intros w [Hw|(k & Hk & Hw)].
      * exists 0. split; [lia|]. by rewrite Z.add_0_r.
      * exists (k + 1). split; [lia|]. by replace (va + (k + 1) * 4096) with (va + 4096 + k * 4096) by lia.
    + intros k w Hk Hw. destruct (decide (k = 0)) as [->|].
      * rewrite Z.add_0_r in *. eapply holds_page_extends; [done|done| |by apply H1].
        intros (k' & Hk' & Hp). assert (Hp2 : path_eq 4 (va + 4096 + k' * 4096) va) by eauto with xos.
        rewrite same_page_path in Hp2 by zlia. unfold PAGE_SIZE in Hp2. zlia.
      * replace (va + k * 4096) with (va + 4096 + (k - 1) * 4096) in * by lia. apply H2; [lia|done].
Qed.
End segment.

(** *** The whole file *)

Definition seg_pages (ph : elf64_phdr_t) : nat := Z.to_nat ((seg_end ph - seg_start ph + 4095) / 4096).
Definition seg_dom (ph : elf64_phdr_t) : Z → Prop := page_range (seg_start ph) (seg_pages ph).
Definition phdr_at (img : mem) (h : elf64_ehdr_t) (i : Z) : elf64_phdr_t :=
  read_phdr img (u64 (e_phoff h + i * e_phentsize h)).
Definition loadable (ph : elf64_phdr_t) : bool := p_type ph =? PT_LOAD.

(** The pages the headers [i .. i + n) need. *)
Fixpoint pages_needed (img : mem) (h : elf64_ehdr_t) (n : nat) (i : Z) : nat :=
  match n with
  | O => 0
  | S n => ((if loadable (phdr_at img h i) then seg_pages (phdr_at img h i) else 0) + pages_needed img h n (i + 1))%nat
  end.

(** Page [a] of segment [ph] is in place. *)
Definition seg_loaded s (roots : list Z) (r : Z) (img : mem) (ph : elf64_phdr_t) : Prop :=
  ∀ k w, 0 ≤ k < Z.of_nat (seg_pages ph) → path_eq 4 (seg_start ph + k * 4096) w →
    holds_page s roots r w (seg_flags (p_flags ph)) (λ i, seg_byte img ph (seg_start ph + k * 4096 + i)).

Definition seg_disjoint (a b : elf64_phdr_t) : Prop :=
  seg_start a + Z.of_nat (seg_pages a) * 4096 ≤ seg_start b ∨ seg_start b + Z.of_nat (seg_pages b) * 4096 ≤ seg_start a.

Lemma seg_extent len ph :
  good_seg len ph →
  0 ≤ seg_start ph ∧ seg_start ph mod 4096 = 0 ∧ seg_start ph ≤ p_vaddr ph < seg_start ph + 4096 ∧
  seg_end ph ≤ seg_start ph + Z.of_nat (seg_pages ph) * 4096 ≤ 2 ^ 47 ∧
  ((0 < seg_pages ph)%nat → seg_start ph + Z.of_nat (seg_pages ph) * 4096 < seg_end ph + 4096).
Proof.
  intros (S1 & S2 & S3 & S4 & S5 & S6). unfold seg_pages, seg_end, seg_start. change (2 ^ 47) with 140737488355328 in *.
  assert (0 ≤ (p_vaddr ph + p_memsz ph - p_vaddr ph / 4096 * 4096 + 4095) / 4096) by zlia.
  rewrite Z2Nat.id by done. split_and!; zlia.
Qed.

Section file.
Context (img : mem) (len : Z) (roots : list Z) (r : Z) (h : elf64_ehdr_t).
Hypothesis Himg : mem_bytes img.
Hypothesis Hlen : len ≤ 2 ^ 62.
Hypothesis Hr : r ∈ roots.
Hypothesis Hhi : HIGHER_HALF ≤ r.

Lemma load_segment_spec ph s fuel m :
  vm_ok s roots → p_type ph = PT_LOAD → good_seg len ph → (seg_pages ph < fuel)%nat →
  can_alloc (4 * seg_pages ph + m) (fa s) →
  ∃ s', load_segment fuel img len r ph s = Some (true, s') ∧ can_alloc m (fa s') ∧
    extends roots r (seg_dom ph) s s' ∧ seg_loaded s' roots r img ph.
Proof.
  intros Hok Ht Hg Hf Hc. destruct (seg_extent len ph Hg) as (X1 & X2 & X3 & X4 & X5).
  pose proof Hg as (S1 & S2 & S3 & S4 & S5 & S6). unfold load_segment. rewrite Ht, Z.eqb_refl. cbn [negb].
  rewrite u64_small by zlia. destruct (Z.ltb_spec len (p_offset ph + p_filesz ph)); [lia|].
  unfold first_page. rewrite land_align by lia. change (2 ^ 12) with 4096. fold (seg_start ph).
  apply (load_pages_spec img len roots r ph Himg Hlen Hr Hhi Hg (seg_pages ph)); first [done|lia].
Qed.

Lemma load_phdrs_spec n i s fuel m :
  vm_ok s roots →
  (∀ j, i ≤ j < i + Z.of_nat n → loadable (phdr_at img h j) = true → good_seg len (phdr_at img h j)) →
  (∀ j k, i ≤ j < i + Z.of_nat n → j < k < i + Z.of_nat n → loadable (phdr_at img h j) = true →
     loadable (phdr_at img h k) = true → seg_disjoint (phdr_at img h j) (phdr_at img h k)) →
  (pages_needed img h n i < fuel)%nat → can_alloc (4 * pages_needed img h n i + m) (fa s) →
  ∃ s', load_phdrs fuel img len r h n i s = Some (true, s') ∧ can_alloc m (fa s') ∧
    extends roots r (λ w, ∃ j, i ≤ j < i + Z.of_nat n ∧ loadable (phdr_at img h j) = true ∧ seg_dom (phdr_at img h j) w) s s' ∧
    ∀ j, i ≤ j < i + Z.of_nat n → loadable (phdr_at img h j) = true → seg_loaded s' roots r img (phdr_at img h j).
Proof.
  revert i s. induction n as [|n IH]; intros i s Hok Hg Hd Hf Hc; cbn [load_phdrs].
  { exists s. split_and!; [done|done|by apply extends_refl|]. lia. }
  cbn [pages_needed] in Hf, Hc. fold (phdr_at img h i). destruct (loadable (phdr_at img h i)) eqn:El.
  - destruct (load_segment_spec (phdr_at img h i) s fuel (4 * pages_needed img h n (i + 1) + m)) as (s1 & E1 & C1 & X1 & L1);
      [done|by apply Z.eqb_eq|apply Hg; [lia|done]|lia| |].
    { by replace (4 * seg_pages (phdr_at img h i) + (4 * pages_needed img h n (i + 1) + m))%nat
        with (4 * (seg_pages (phdr_at img h i) + pages_needed img h n (i + 1)) + m)%nat by lia. }
    rewrite E1. destruct (IH (i + 1) s1) as (s' & E2 & C2 & X2 & L2); [apply X1| | |lia|done|].
    { intros j Hj. apply Hg. lia. }
    { intros j k Hj Hk. apply Hd; lia. }
    exists s'. split; [done|]. split; [done|]. split.
    + eapply extends_trans; [done|done|]. intros w [Hw|(j & Hj & Hl & Hw)]; [exists i|exists j]; (split; [lia|done]).
    + intros j Hj Hl. destruct (decide (j = i)) as [->|]; [|apply L2; [lia|done]].
      intros k w Hk Hw. eapply holds_page_extends; [done|done| |by apply (L1 k w)].
      intros (j & Hj' & Hl' & k' & Hk' & Hw').
      destruct (seg_extent len (phdr_at img h i)) as (A1 & A2 & A3 & A4 & _); [apply Hg; [lia|done]|].
      destruct (seg_extent len (phdr_at img h j)) as (B1 & B2 & B3 & B4 & _); [apply Hg; [lia|done]|].
      assert (Hp : path_eq 4 (seg_start (phdr_at img h i) + k * 4096) (seg_start (phdr_at img h j) + k' * 4096))
        by eauto with xos.
      rewrite same_page_path in Hp by lia. unfold PAGE_SIZE in Hp.
      destruct (Hd i j ltac:(lia) ltac:(lia) Hl Hl') as [Hdj|Hdj]; zlia.
  - unfold load_segment. unfold loadable in El. rewrite El. cbn [negb].
    destruct (IH (i + 1) s) as (s' & E2 & C2 & X2 & L2); [done| | |lia|done|].
    { intros j Hj. apply Hg. lia. }
    { intros j k Hj Hk. apply Hd; lia. }
    exists s'. split; [done|]. split; [done|]. split.
    + eapply extends_trans; [by apply (extends_refl roots r (λ _, False))|done|].
      intros w [[]|(j & Hj & Hl & Hw)]. exists j. split; [lia|done].
    + intros j Hj Hl. destruct (decide (j = i)) as [->|]; [unfold loadable in Hl; congruence|]. apply L2; [lia|done].
Qed.
End file.

(** The byte a program reads at address [v]. *)
Definition user_byte s (r v : Z) : Z := vmem s (p2v s (vmm_virt_to_phys s r v)).

(** Reading through a present page. *)
Lemma frame_byte s roots r a flags t content :
  vm_ok s roots → r ∈ roots → is_user a → Z.land (Z.lor flags VMM_P) VMM_PHYS_MASK = 0 →
  holds_frame s roots r a flags t content → user_byte s r a = content (a mod PAGE_SIZE).
Proof.
  intros Hok Hr Hu Hfl (Ht & Htr & Hpte & Hdat & Hbytes).
  assert (HP : has (pte s r a) VMM_P = true).
  { rewrite Hpte. flag_bits. change (Z.testbit VMM_P 0) with true. by rewrite !orb_true_r. }
  assert (Hmask : Z.land (pte s r a) VMM_PHYS_MASK = t).
  { rewrite Hpte, land_mask_lor by done. apply land_mask_frame; [done|lia]. }
  unfold user_byte. rewrite (present_translates s roots) by done.
  unfold translated. rewrite Hmask. pose proof (Z.mod_pos_bound a PAGE_SIZE ltac:(unfold PAGE_SIZE; lia)) as Hm.
  destruct (fa_hhdm_range _ (ok_fa _ _ Hok)) as [Hh Hha].
  assert (Ep : p2v s (t + a mod PAGE_SIZE) = p2v s t + a mod PAGE_SIZE).
  { unfold page_aligned, PAGE_SIZE in *. unfold p2v. rewrite !u64_small; [lia| |]; zlia. }
  by rewrite Ep, Hbytes.
Qed.

Lemma loaded_byte s roots r img len ph a :
  vm_ok s roots → r ∈ roots → good_seg len ph → seg_loaded s roots r img ph →
  seg_start ph ≤ a < seg_end ph →
  user_byte s r a = seg_byte img ph a ∧ has (pte s r a) VMM_RW = has (p_flags ph) PF_W.
Proof.
  intros Hok Hr Hg Hl Ha. destruct (seg_extent len ph Hg) as (X1 & X2 & X3 & X4 & X5).
  set (k := (a - seg_start ph) / 4096).
  assert (Hpa : path_eq 4 (seg_start ph + k * 4096) a).
  { apply same_page_path; [subst k; zlia|lia|]. unfold PAGE_SIZE. subst k. zlia. }
  destruct (Hl k a ltac:(subst k; zlia) Hpa) as (t & Hf). split.
  - rewrite (frame_byte s roots r a (seg_flags (p_flags ph)) t (λ i, seg_byte img ph (seg_start ph + k * 4096 + i)));
      [|done|done|apply user_addr; lia|unfold seg_flags; repeat case_if; reflexivity|done].
    f_equal. unfold PAGE_SIZE. subst k. zlia.
  - destruct Hf as (Ht & _ & -> & _). unfold seg_flags. unfold page_aligned, PAGE_SIZE in Ht. change 4096 with (2 ^ 12) in Ht.
    assert (Htb : Z.testbit t 1 = false) by (rewrite <- (Z.mod_pow2_bits_low t 12 1) by lia; by rewrite Ht).
    rewrite has_RW, Z.lor_spec, Htb. cbn [orb].
    destruct (has (p_flags ph) PF_R), (has (p_flags ph) PF_W), (has (p_flags ph) PF_X); reflexivity.
Qed.

Lemma elf_load_lemma img len roots r h s fuel m :
  mem_bytes img → len ≤ 2 ^ 62 → elf_validate img len = Some h →
  vm_ok s roots → r ∈ roots → HIGHER_HALF ≤ r →
  (∀ i, 0 ≤ i < e_phnum h → loadable (phdr_at img h i) = true → good_seg len (phdr_at img h i)) →
  (∀ i j, 0 ≤ i < j → j < e_phnum h → loadable (phdr_at img h i) = true → loadable (phdr_at img h j) = true →
     seg_disjoint (phdr_at img h i) (phdr_at img h j)) →
  (pages_needed img h (Z.to_nat (e_phnum h)) 0 < fuel)%nat →
  can_alloc (4 * pages_needed img h (Z.to_nat (e_phnum h)) 0 + m) (fa s) →
  ∃ s', elf_load fuel img len r s = Some (true, e_entry h, s') ∧ can_alloc m (fa s') ∧
    (∀ i, 0 ≤ i < e_phnum h → loadable (phdr_at img h i) = true → seg_loaded s' roots r img (phdr_at img h i)) ∧
    extends roots r (λ w, ∃ i, 0 ≤ i < e_phnum h ∧ loadable (phdr_at img h i) = true ∧ seg_dom (phdr_at img h i) w) s s'.
Proof.
  intros Himg Hlen Hv Hok Hr Hhi Hg Hd Hf Hc.
  assert (Hn : 0 ≤ e_phnum h).
  { destruct (validate_inv img len h Hv) as (-> & _). cbn [read_ehdr e_phnum].
    by apply (load_le_range img 56 2). }
  destruct (load_phdrs_spec img len roots r h Himg Hlen Hr Hhi (Z.to_nat (e_phnum h)) 0 s fuel m)
    as (s' & E & C & X & L); rewrite ?Z2Nat.id, ?Z.add_0_l in * by done; [done|done| |done|done|].
  { intros j k Hj Hk. apply Hd; lia. }
  exists s'. unfold elf_load. rewrite Hv, E. done.
Qed.

(** C27: a well-formed executable is loaded exactly.  For a file accepted by
    [elf_validate] whose header table does not wrap, whose loadable segments lie
    in the file and in the user half and do not share pages, and with four free
    frames per page, [elf_load] returns true with the entry point of the header;
    every byte of every segment is found at its address, the file's bytes up to
    [filesz] and zero up to [memsz]; a page is writable exactly when the segment
    is; and no other page of any address space and no existing data page
    changes. *)
Theorem elf_load_spec img len roots r h s fuel :
  mem_bytes img → len ≤ 2 ^ 62 → elf_validate img len = Some h →
  vm_ok s roots → r ∈ roots → HIGHER_HALF ≤ r →
  (∀ i, 0 ≤ i < e_phnum h → loadable (phdr_at img h i) = true → good_seg len (phdr_at img h i)) →
  (∀ i j, 0 ≤ i < j → j < e_phnum h → loadable (phdr_at img h i) = true → loadable (phdr_at img h j) = true →
     seg_disjoint (phdr_at img h i) (phdr_at img h j)) →
  (pages_needed img h (Z.to_nat (e_phnum h)) 0 < fuel)%nat →
  can_alloc (4 * pages_needed img h (Z.to_nat (e_phnum h)) 0) (fa s) →
  ∃ s', elf_load fuel img len r s = Some (true, e_entry h, s') ∧
    (∀ i a, 0 ≤ i < e_phnum h → loadable (phdr_at img h i) = true →
       seg_start (phdr_at img h i) ≤ a < seg_end (phdr_at img h i) →
       user_byte s' r a = seg_byte img (phdr_at img h i) a ∧
       has (pte s' r a) VMM_RW = has (p_flags (phdr_at img h i)) PF_W) ∧
    extends roots r (λ w, ∃ i, 0 ≤ i < e_phnum h ∧ loadable (phdr_at img h i) = true ∧ seg_dom (phdr_at img h i) w) s s'.
Proof.
  intros Himg Hlen Hv Hok Hr Hhi Hg Hd Hf Hc.
  destruct (elf_load_lemma img len roots r h s fuel 0) as (s' & E & _ & L & X); try done; [by rewrite Nat.add_0_r|].
  exists s'. split; [done|]. split; [|done].
  intros i a Hi Hl Ha. apply (loaded_byte s' roots r img len); [apply X|done|by apply Hg|by apply L|done].
Qed.
End load.

(** ** A small executable: one segment of 128 file bytes and 5000 bytes of memory *)

Module ElfDemo.
Import VmmDemo.

Fixpoint le_bytes (n : nat) (v : Z) : list Z :=
  match n with O => [] | S n => v mod 256 :: le_bytes n (v / 256) end.

(** The headers of a file with one program header at [phoff]. *)
Definition file_bytes (phoff : Z) : list Z :=
  [127; 69; 76; 70; 2; 1; 1; 0; 0; 0; 0; 0; 0; 0; 0; 0] ++ le_bytes 2 2 ++ le_bytes 2 62 ++ le_bytes 4 1
  ++ le_bytes 8 4194432 ++ le_bytes 8 phoff ++ le_bytes 8 0 ++ le_bytes 4 0 ++ le_bytes 2 64 ++ le_bytes 2 56
  ++ le_bytes 2 1 ++ le_bytes 2 0 ++ le_bytes 2 0 ++ le_bytes 2 0
  ++ le_bytes 4 1 ++ le_bytes 4 6 ++ le_bytes 8 0 ++ le_bytes 8 4194304 ++ le_bytes 8 0 ++ le_bytes 8 128
  ++ le_bytes 8 5000 ++ le_bytes 8 4096 ++ le_bytes 8 0.
Definition image (phoff : Z) : mem := λ a, if (0 <=? a) && (a <? 128) then (file_bytes phoff).[a] else 0.

(** A table at the very top of the address space passes the check, and its
    header is read 56 bytes before the file. *)
Lemma elf_wrap_accepted :
  (∃ h, elf_validate (image (2 ^ 64 - 56)) 128 = Some h ∧ e_phnum h = 1 ∧ e_phoff h = 2 ^ 64 - 56).
Proof. eexists. vm_compute. done. Qed.

Definition good : mem := image 64.
Lemma good_bytes : mem_bytes good.
Proof.
  intros a. unfold good, image. destruct (Z.leb_spec 0 a), (Z.ltb_spec a 128); cbn [andb]; try lia.
  apply (aget_Forall (λ b, 0 ≤ b < 256)); [|change (zlen (file_bytes 64)) with 128; lia].
  repeat constructor; intros; discriminate.
Qed.

Definition hdr : elf64_ehdr_t := read_ehdr good.
Lemma good_valid : elf_validate good 128 = Some hdr.
Proof. reflexivity. Qed.

Lemma elf_headers_in_bounds_witness :
  (∀ i, 0 ≤ i < 1 → e_phoff hdr + i * e_phentsize hdr + PHDR_SIZE ≤ 128) ↔ e_phoff hdr + 1 * e_phentsize hdr < 2 ^ 64.
Proof. exact (elf_headers_in_bounds good 128 hdr good_bytes good_valid ltac:(lia) eq_refl). Defined.

Lemma one_header i : 0 ≤ i < e_phnum hdr → i = 0.
Proof. change (e_phnum hdr) with 1. lia. Qed.

Lemma good_segment : good_seg 128 (phdr_at good hdr 0).
Proof. vm_compute. split_and!; intros; discriminate. Qed.

Lemma first_header : 0 ≤ 0 < e_phnum hdr.
Proof. change (e_phnum hdr) with 1. lia. Qed.

Lemma in_seg x : 0 ≤ x < 5000 → seg_start (phdr_at good hdr 0) ≤ 4194304 + x < seg_end (phdr_at good hdr 0).
Proof.
  change (seg_start (phdr_at good hdr 0)) with 4194304. change (seg_end (phdr_at good hdr 0)) with (4194304 + 5000). lia.
Qed.

Lemma demo_frames : can_alloc 8 (fa demo).
Proof. vm_compute. split_and!; try exact I; intros; discriminate. Qed.

Lemma elf_load_spec_witness :
  ∃ s', elf_load 3 good 128 root demo = Some (true, 4194432, s') ∧
    user_byte s' root 4194305 = 69 ∧ user_byte s' root (4194304 + 4999) = 0.
Proof.
  destruct (elf_load_spec good 128 [root] root hdr demo 3 good_bytes ltac:(lia) good_valid demo_ok root_in root_high)
    as (s' & H1 & H2 & _).
  - intros i Hi _. rewrite (one_header i Hi). exact good_segment.
  - intros i j Hij Hj. change (e_phnum hdr) with 1 in Hj. lia.
  - change (pages_needed good hdr (Z.to_nat (e_phnum hdr)) 0) with 2%nat. lia.
  - change (pages_needed good hdr (Z.to_nat (e_phnum hdr)) 0) with 2%nat. exact demo_frames.
  - exists s'. split; [exact H1|]. split.
    + destruct (H2 0 4194305 first_header eq_refl (in_seg 1 ltac:(lia))) as [H _]. rewrite H. reflexivity.
    + destruct (H2 0 (4194304 + 4999) first_header eq_refl (in_seg 4999 ltac:(lia))) as [H _]. rewrite H. reflexivity.
Defined.
End ElfDemo.
