(* ===== verification/ExecStack.v ===== *)
(** * The initial user stack of a new program

    The argument block [proc_exec] ([kernel/proc/proc.c]) builds on the new
    program's stack before it runs: the strings at the top, then the pointer
    block of the System V ABI.  The new page tables are not active, so every
    write goes page by page through the direct map ([USTACK_WRITE]). *)

From S2P Require Import Prelude Mem CString Block Pmm Frames Vmm VmmProofs VmmSpec Fault Elf ElfSpec.

Definition USER_STACK_SIZE : Z := 64 * 1024.
Definition MAX_ARGC : Z := 64.

Section exec_stack.
Context {F : Type} `{FA : FrameAlloc F}.
Implicit Types s : vm F.

(** [USTACK_WRITE]: every turn writes at least one of the [n] bytes, so [n]
    turns are enough. *)
Fixpoint ustack_copy (fuel : nat) s (pml4 va : Z) (src : Z → Z) (n : Z) : vm F :=
  match fuel with
  | O => s
  | S fuel =>
      if 0 <? n then
        let pa := vmm_virt_to_phys s pml4 va in
        if pa =? 0 then s
        else
          let chunk := PAGE_SIZE - Z.land va (PAGE_SIZE - 1) in
          let chunk := if n <? chunk then n else chunk in
          let s := with_mem s (blit (vmem s) (p2v s pa) src 0 chunk) in
          ustack_copy fuel s pml4 (u64 (va + chunk)) (λ i, src (i + chunk)) (n - chunk)
      else s
  end.
Definition ustack_write s (pml4 va : Z) (src : Z → Z) (n : Z) : vm F := ustack_copy (Z.to_nat n) s pml4 va src n.

(** A C string in the kernel: its bytes and the NUL. *)
Definition cstr (l : list Z) : Z → Z := λ i, (l ++ [0]).[i].
(** A 64-bit value in memory. *)
Definition word_bytes (v : Z) : Z → Z := λ i, (v / 256 ^ i) mod 256.

(** The strings, last argument first; the addresses end up in [argv] order. *)
Fixpoint push_strings s (pml4 : Z) (rargv : list (list Z)) (sp : Z) (addrs : list Z) : vm F * Z * list Z :=
  match rargv with
  | [] => (s, sp, addrs)
  | l :: rargv =>
      let slen := zlen l + 1 in
      let sp := u64 (sp - slen) in
      push_strings (ustack_write s pml4 sp (cstr l) slen) pml4 rargv sp (sp :: addrs)
  end.

(** [sp -= 8; USTACK_WRITE(0, &v, 8)] *)
Definition push_word (pml4 v : Z) (st : vm F * Z) : vm F * Z :=
  let sp := u64 (st.2 - 8) in (ustack_write st.1 pml4 sp (word_bytes v) 8, sp).

(** [sp &= ~0xF], and the padding that makes the final stack pointer aligned. *)
Definition align_block (sp argc : Z) : Z :=
  let sp := Z.land sp (2 ^ 64 - 2 ^ 4) in
  let ptr_bytes := 40 + argc * 8 in
  if negb (Z.land (u64 (sp - ptr_bytes)) 15 =? 0) then u64 (sp - 8) else sp.

Definition exec_stack s (pml4 : Z) (argv : list (list Z)) : vm F * Z :=
  let argv := take (Z.to_nat MAX_ARGC) argv in
  let argc := zlen argv in
  let '(s, sp, addrs) := push_strings s pml4 (rev argv) USER_STACK_TOP [] in
  let sp := align_block sp argc in
  let sp := u64 (sp - 16) in
  let s := ustack_write s pml4 sp (λ _, 0) 16 in
  let st := push_word pml4 0 (s, sp) in
  let st := push_word pml4 0 st in
  let st := foldr (push_word pml4) st addrs in
  push_word pml4 argc st.

(** The arguments: [path] alone when none are given. *)
Definition exec_argv (path : list Z) (argv : option (list (list Z))) : list (list Z) :=
  match argv with Some (a :: l) => a :: l | _ => [path] end.
End exec_stack.

(** ** A mapped region of user memory *)

Section region.
Context {F : Type} `{FA : FrameAlloc F} `{FL : !FrameAllocLaws F}.
Implicit Types s : vm F.
Context (roots : list Z) (r lo hi : Z) (fr : Z → Z).

(** The pages of [lo .. hi) of [r] map the distinct frames [fr]. *)
Record region s : Prop := {
  rg_ok : vm_ok s roots;
  rg_root : r ∈ roots;
  rg_bounds : 0 ≤ lo ≤ hi ∧ hi ≤ 2 ^ 47 ∧ lo mod 4096 = 0 ∧ hi mod 4096 = 0;
  rg_page : ∀ p, lo ≤ p * 4096 < hi →
    has (pte s r (p * 4096)) VMM_P = true ∧ Z.land (pte s r (p * 4096)) VMM_PHYS_MASK = fr p ∧
    0 < fr p < 2 ^ 33 ∧ page_aligned (fr p) ∧ data_page s roots (p2v s (fr p));
  rg_inj : ∀ p q, lo ≤ p * 4096 < hi → lo ≤ q * 4096 < hi → fr p = fr q → p = q;
}.

Lemma region_p2v s p off :
  region s → lo ≤ p * 4096 < hi → 0 ≤ off < 4096 → p2v s (fr p + off) = fr p + fa_hhdm (fa s) + off.
Proof.
  intros Hg Hp Ho. destruct (rg_page _ Hg p Hp) as (_ & _ & Hf & Hal & _).
  destruct (fa_hhdm_range _ (ok_fa _ _ (rg_ok _ Hg))) as [Hh _].
  unfold page_aligned, PAGE_SIZE in *. unfold p2v. rewrite u64_small; [lia|]. zlia.
Qed.

Lemma region_translate s a :
  region s → lo ≤ a < hi →
  lo ≤ a / 4096 * 4096 < hi ∧ vmm_virt_to_phys s r a = fr (a / 4096) + a mod 4096 ∧ vmm_virt_to_phys s r a ≠ 0 ∧
  user_byte s r a = vmem s (fr (a / 4096) + fa_hhdm (fa s) + a mod 4096).
Proof.
  intros Hg Ha. destruct (rg_bounds _ Hg) as (B1 & B2 & B3 & B4).
  assert (Hp : lo ≤ a / 4096 * 4096 < hi) by zlia. destruct (rg_page _ Hg _ Hp) as (HP & HM & Hf & _ & _).
  assert (Epte : pte s r a = pte s r (a / 4096 * 4096)).
  { apply pte_path, same_page_path; [lia|zlia|]. unfold PAGE_SIZE. zlia. }
  assert (Et : vmm_virt_to_phys s r a = fr (a / 4096) + a mod 4096).
  { rewrite (present_translates s roots); [|apply Hg|apply Hg|apply user_addr; lia|by rewrite Epte].
    unfold translated. by rewrite Epte, HM. }
  split; [done|]. split; [done|]. split; [zlia|].
  unfold user_byte. rewrite Et, region_p2v by (done || zlia). done.
Qed.

(** What writes to the region keep: every page-table entry, the allocator, and
    every data page but the frames of the region. *)
Record kept s s' : Prop := {
  kp_pte : ∀ r' w, r' ∈ roots → pte s' r' w = pte s r' w;
  kp_fa : fa s' = fa s;
  kp_page : ∀ p, data_page s roots p → data_page s' roots p;
  kp_data : ∀ p i, data_page s roots p → (∀ q, lo ≤ q * 4096 < hi → p ≠ p2v s (fr q)) → 0 ≤ i < PAGE_SIZE →
    vmem s' (p + i) = vmem s (p + i);
}.

Lemma kept_refl s : kept s s.
Proof. by constructor. Qed.

Lemma kept_trans s1 s2 s3 : kept s1 s2 → kept s2 s3 → kept s1 s3.
Proof.
  intros K1 K2. constructor.
  - intros r' w Hr. by rewrite (kp_pte _ _ K2), (kp_pte _ _ K1).
  - by rewrite (kp_fa _ _ K2), (kp_fa _ _ K1).
  - intros p Hp. by apply (kp_page _ _ K2), (kp_page _ _ K1).
  - intros p i Hp Hq Hi. rewrite (kp_data _ _ K2); [by apply (kp_data _ _ K1)|by apply (kp_page _ _ K1)| |done].
    intros q Hr. unfold p2v. rewrite (kp_fa _ _ K1). by apply Hq.
Qed.

(** Writing inside one page. *)
Lemma region_blit s va n src :
  region s → lo ≤ va → va + n ≤ hi → 0 < n → va mod 4096 + n ≤ 4096 → (∀ i, 0 ≤ i < n → 0 ≤ src i < 256) →
  let s' := with_mem s (blit (vmem s) (p2v s (vmm_virt_to_phys s r va)) src 0 n) in
  region s' ∧ kept s s' ∧
  ∀ a, lo ≤ a < hi → user_byte s' r a = if (va <=? a) && (a <? va + n) then src (a - va) else user_byte s r a.
Proof.
  intros Hg H1 H2 H3 H4 Hsrc s'. destruct (region_translate s va Hg) as (Hp & Et & _ & _); [lia|].
  destruct (rg_page _ Hg _ Hp) as (_ & _ & Hf & Hal & Hdat).
  assert (Ep : p2v s (vmm_virt_to_phys s r va) = fr (va / 4096) + fa_hhdm (fa s) + va mod 4096).
  { rewrite Et. apply region_p2v; [done|done|zlia]. }
  assert (Ep0 : p2v s (fr (va / 4096)) = fr (va / 4096) + fa_hhdm (fa s)).
  { rewrite <- (Z.add_0_r (fr (va / 4096))) at 1. rewrite region_p2v by (done || lia). lia. }
  destruct (data_write s roots (p2v s (fr (va / 4096))) (blit (vmem s) (p2v s (vmm_virt_to_phys s r va)) src 0 n))
    as (D1 & D2 & D3 & D4); [apply Hg|done| | |].
  { intros b. unfold blit. case_if; [|apply Hg]. bools. apply Hsrc. lia. }
  { intros b Hb. apply blit_out. rewrite Ep, Ep0 in *. unfold PAGE_SIZE in *. zlia. }
  fold s' in D1, D2, D3, D4.
  assert (Hg' : region s').
  { constructor; [done|apply Hg|apply Hg| |apply Hg]. intros p Hpp. rewrite D3 by apply Hg.
    destruct (rg_page _ Hg p Hpp) as (A1 & A2 & A3 & A4 & A5).
    exact (conj A1 (conj A2 (conj A3 (conj A4 (D4 _ A5))))). }
  split; [done|]. split.
  { constructor; [done|done|done|]. intros p i (_ & Hpa & _) Hq Hi. specialize (Hq _ Hp). rewrite Ep0 in Hq.
    cbn [s' with_mem vmem]. rewrite Ep. apply blit_out. destruct (fa_hhdm_range _ (ok_fa _ _ (rg_ok _ Hg))) as [_ Hha].
    unfold page_aligned, PAGE_SIZE in *. zlia. }
  intros a Ha. destruct (region_translate s' a Hg' Ha) as (Hpa & _ & _ & ->). destruct (region_translate s a Hg Ha) as (_ & _ & _ & ->).
  cbn [s' with_mem vmem fa]. rewrite Ep. set (ha := fa_hhdm (fa s)).
  destruct (Z.leb_spec va a), (Z.ltb_spec a (va + n)); cbn [andb].
  - assert (E : a / 4096 = va / 4096) by zlia. rewrite E, blit_in by zlia. f_equal. zlia.
  - destruct (decide (a / 4096 = va / 4096)) as [E|E].
    + rewrite E. apply blit_out. zlia.
    + assert (fr (a / 4096) ≠ fr (va / 4096)) by (intros Ef; by apply E, (rg_inj _ Hg)).
      destruct (rg_page _ Hg _ Hpa) as (_ & _ & _ & Hal2 & _). apply blit_out. unfold page_aligned, PAGE_SIZE in *. zlia.
  - destruct (decide (a / 4096 = va / 4096)) as [E|E].
    + rewrite E. apply blit_out. zlia.
    + assert (fr (a / 4096) ≠ fr (va / 4096)) by (intros Ef; by apply E, (rg_inj _ Hg)).
      destruct (rg_page _ Hg _ Hpa) as (_ & _ & _ & Hal2 & _). apply blit_out. unfold page_aligned, PAGE_SIZE in *. zlia.
  - lia.
Qed.

(** What a write to the region does. *)
Definition wrote s s' (va n : Z) (src : Z → Z) : Prop :=
  region s' ∧ kept s s' ∧
  ∀ a, lo ≤ a < hi → user_byte s' r a = if (va <=? a) && (a <? va + n) then src (a - va) else user_byte s r a.

Lemma ustack_copy_spec fuel s va src n :
  region s → lo ≤ va → va + n ≤ hi → 0 ≤ n ≤ Z.of_nat fuel → (∀ i, 0 ≤ i < n → 0 ≤ src i < 256) →
  wrote s (ustack_copy fuel s r va src n) va n src.
Proof.
  revert s va src n. induction fuel as [|fuel IH]; intros s va src n Hg H1 H2 H3 Hsrc.
  { cbn [ustack_copy]. split_and!; [done|apply kept_refl|]. intros a Ha.
    destruct (Z.leb_spec va a), (Z.ltb_spec a (va + n)); simpl; (lia || done). }
  cbn [ustack_copy]. destruct (Z.ltb_spec 0 n).
  2:{ split_and!; [done|apply kept_refl|]. intros a Ha. destruct (Z.leb_spec va a), (Z.ltb_spec a (va + n)); simpl; (lia || done). }
  destruct (region_translate s va Hg) as (Hp & Et & Hnz & _); [lia|].
  destruct (Z.eqb_spec (vmm_virt_to_phys s r va) 0); [done|].
  change (PAGE_SIZE - 1) with 4095. rewrite land_4095.
  set (chunk := if n <? PAGE_SIZE - va mod 4096 then n else PAGE_SIZE - va mod 4096).
  assert (Hc : 0 < chunk ≤ n ∧ va mod 4096 + chunk ≤ 4096).
  { unfold chunk, PAGE_SIZE. destruct (Z.ltb_spec n (4096 - va mod 4096)); zlia. }
  destruct (region_blit s va chunk src) as (G & P & B); [done|lia|lia|lia|lia|intros; apply Hsrc; lia|].
  set (s1 := with_mem s _) in *. destruct (rg_bounds _ Hg) as (Hlo & Hhi & _). rewrite (u64_small (va + chunk)) by lia.
  destruct (IH s1 (va + chunk) (λ i, src (i + chunk)) (n - chunk)) as (G' & P' & B');
    [done|lia|lia|lia|intros; apply Hsrc; lia|].
  split; [done|]. split; [by eapply kept_trans|].
  intros a Ha. rewrite B' by done. rewrite B by done.
  destruct (Z.leb_spec (va + chunk) a), (Z.ltb_spec a (va + chunk + (n - chunk))), (Z.leb_spec va a),
    (Z.ltb_spec a (va + chunk)), (Z.ltb_spec a (va + n)); simpl; try lia; try done. f_equal. lia.
Qed.

Lemma ustack_write_spec s va src n :
  region s → lo ≤ va → va + n ≤ hi → 0 ≤ n → (∀ i, 0 ≤ i < n → 0 ≤ src i < 256) →
  wrote s (ustack_write s r va src n) va n src.
Proof. intros. apply ustack_copy_spec; [done..|lia|done]. Qed.

(** *** The pushes *)

Definition bytes_ok (l : list Z) : Prop := Forall (λ b, 0 ≤ b < 256) l.
Definition str_size (l : list Z) : Z := zlen l + 1.
Fixpoint strs_size (ls : list (list Z)) : Z := match ls with [] => 0 | l :: ls => str_size l + strs_size ls end.

Lemma strs_size_nonneg ls : 0 ≤ strs_size ls.
Proof. induction ls as [|l ls IH]; simpl; [lia|]. unfold str_size. pose proof (zlen_nonneg l). lia. Qed.

Lemma cstr_byte l i : bytes_ok l → 0 ≤ i < str_size l → 0 ≤ cstr l i < 256.
Proof.
  intros Hl Hi. unfold cstr. apply (aget_Forall (λ b, 0 ≤ b < 256)).
  - apply Forall_app. split; [done|]. constructor; [lia|constructor].
  - unfold zlen, str_size in *. rewrite length_app. simpl. unfold zlen in Hi. lia.
Qed.

Lemma word_byte v i : 0 ≤ word_bytes v i < 256.
Proof. apply Z.mod_pos_bound. lia. Qed.

(** The string [l] with its NUL lies at [a]. *)
Definition str_at s (a : Z) (l : list Z) : Prop := ∀ j, 0 ≤ j < str_size l → user_byte s r (a + j) = cstr l j.
Definition user_u64 s (a : Z) : Z := load_le (user_byte s r) a 8.

(** The states of the pushes: [sp] has moved down to [sp'], and nothing at or
    above [sp] has changed. *)
Definition pushed s s' (sp : Z) : Prop :=
  region s' ∧ kept s s' ∧
  ∀ a, sp ≤ a < hi → user_byte s' r a = user_byte s r a.

Lemma pushed_refl s sp : region s → pushed s s sp.
Proof. split; [done|]. split; [apply kept_refl|done]. Qed.

Lemma pushed_trans s1 s2 s3 sp sp' : pushed s1 s2 sp → pushed s2 s3 sp' → sp' ≤ sp → pushed s1 s3 sp.
Proof.
  intros (G1 & P1 & B1) (G2 & P2 & B2) Hle. split; [done|]. split; [by eapply kept_trans|].
  intros a Ha. rewrite B2, B1 by lia. done.
Qed.

(** A write of [n] bytes just below [sp]. *)
Lemma push_below s sp n src :
  region s → lo ≤ sp - n → sp ≤ hi → 0 ≤ n → (∀ i, 0 ≤ i < n → 0 ≤ src i < 256) →
  let s' := ustack_write s r (sp - n) src n in
  pushed s s' sp ∧ ∀ i, 0 ≤ i < n → user_byte s' r (sp - n + i) = src i.
Proof.
  intros Hg H1 H2 H3 Hs s'. destruct (ustack_write_spec s (sp - n) src n) as (G & P & B);
    [done|lia|lia|lia|done|]. fold s' in G, P, B. split.
  - split; [done|]. split; [done|]. intros a Ha. rewrite B by lia.
    destruct (Z.leb_spec (sp - n) a), (Z.ltb_spec a (sp - n + n)); simpl; (lia || done).
  - intros i Hi. rewrite B by lia. destruct (Z.leb_spec (sp - n) (sp - n + i)), (Z.ltb_spec (sp - n + i) (sp - n + n));
      simpl; try lia. f_equal. lia.
Qed.

Lemma load_le_word u a v n :
  (∀ i, 0 ≤ i < Z.of_nat n → u (a + i) = word_bytes v i) → load_le u a n = v mod 256 ^ Z.of_nat n.
Proof.
  intros H. transitivity (load_le (store_le (λ _, 0) a n v) a n); [|apply load_store_eq].
  apply load_le_ext. intros i Hi. rewrite H by done. rewrite store_le_spec. unfold word_bytes.
  destruct (Z.leb_spec a (a + i)), (Z.ltb_spec (a + i) (a + Z.of_nat n)); simpl; try lia.
  by replace (a + i - a) with i by lia.
Qed.

Lemma push_word_spec s sp v :
  region s → lo ≤ sp - 8 → sp ≤ hi → 0 ≤ v < 2 ^ 64 →
  let st := push_word r v (s, sp) in
  st.2 = sp - 8 ∧ pushed s st.1 sp ∧ user_u64 st.1 (sp - 8) = v.
Proof.
  intros Hg H1 H2 Hv st. destruct (rg_bounds _ Hg) as (B1 & B2 & _).
  assert (E : u64 (sp - 8) = sp - 8) by (apply u64_small; lia).
  unfold st, push_word. cbn [fst snd]. rewrite E. split; [done|].
  destruct (push_below s sp 8 (word_bytes v)) as [P W]; [done|lia|lia|lia|intros; apply word_byte|].
  split; [done|]. unfold user_u64. rewrite (load_le_word _ _ v 8) by (intros i Hi; by apply W).
  by apply Z.mod_small.
Qed.

Lemma user_u64_pushed s s' sp a : pushed s s' sp → sp ≤ a → a + 8 ≤ hi → user_u64 s' a = user_u64 s a.
Proof. intros (_ & _ & B) H1 H2. apply load_le_ext. change (Z.of_nat 8) with 8. intros i Hi. apply B. lia. Qed.

Lemma str_at_pushed s s' sp a l : pushed s s' sp → sp ≤ a → a + str_size l ≤ hi → str_at s a l → str_at s' a l.
Proof. intros (_ & _ & B) H1 H2 Hs j Hj. rewrite B by lia. by apply Hs. Qed.

(** The words of [ws] just below [sp], the first lowest. *)
Lemma push_words_spec ws s sp :
  region s → lo ≤ sp - 8 * zlen ws → sp ≤ hi → Forall (λ v, 0 ≤ v < 2 ^ 64) ws →
  let st := foldr (push_word r) (s, sp) ws in
  st.2 = sp - 8 * zlen ws ∧ pushed s st.1 sp ∧
  ∀ i v, ws !! i = Some v → user_u64 st.1 (sp - 8 * zlen ws + 8 * Z.of_nat i) = v.
Proof.
  intros Hg H1 H2 Hw. induction ws as [|v ws IH]; cbn [foldr].
  { unfold zlen. simpl. split; [lia|]. split; [by apply pushed_refl|done]. }
  apply Forall_cons in Hw as [Hv Hw].
  assert (El : zlen (v :: ws) = zlen ws + 1) by (unfold zlen; simpl length; lia). rewrite El in *.
  pose proof (zlen_nonneg ws). destruct IH as (E & P & W); [lia|done|].
  destruct (foldr (push_word r) (s, sp) ws) as [s1 sp1]. cbn [fst snd] in *. subst sp1. pose proof P as (G1 & _).
  destruct (push_word_spec s1 (sp - 8 * zlen ws) v) as (E2 & P2 & W2); [done|lia|lia|done|].
  destruct (push_word r v (s1, sp - 8 * zlen ws)) as [s2 sp2]. cbn [fst snd] in *.
  split; [lia|]. split.
  { eapply pushed_trans; [done|done|lia]. }
  intros [|i] x Hx; simpl in Hx.
  - injection Hx as <-. replace (sp - 8 * (zlen ws + 1) + 8 * Z.of_nat 0) with (sp - 8 * zlen ws - 8) by lia. done.
  - replace (sp - 8 * (zlen ws + 1) + 8 * Z.of_nat (S i)) with (sp - 8 * zlen ws + 8 * Z.of_nat i) by lia.
    pose proof (lookup_lt_Some _ _ _ Hx) as Hlt. rewrite (user_u64_pushed s1 s2 (sp - 8 * zlen ws)) by (done || unfold zlen in *; lia).
    by apply W.
Qed.

Lemma push_strings_spec rargv s sp addrs :
  region s → lo ≤ sp - strs_size rargv → sp ≤ hi → Forall bytes_ok rargv →
  let '(s', sp', addrs') := push_strings s r rargv sp addrs in
  sp' = sp - strs_size rargv ∧ pushed s s' sp ∧
  ∃ new, addrs' = new ++ addrs ∧
    Forall2 (λ a l, sp' ≤ a ∧ a + str_size l ≤ sp ∧ str_at s' a l) new (rev rargv).
Proof.
  revert s sp addrs. induction rargv as [|l rargv IH]; intros s sp addrs Hg H1 H2 Hb; cbn [push_strings].
  { simpl. split; [lia|]. split; [by apply pushed_refl|]. exists []. split; [done|constructor]. }
  apply Forall_cons in Hb as [Hl Hb]. cbn [strs_size] in H1. pose proof (strs_size_nonneg rargv) as Hn.
  assert (Hsl : 0 < str_size l) by (unfold str_size; pose proof (zlen_nonneg l); lia).
  destruct (rg_bounds _ Hg) as (B1 & B2 & _).
  fold (str_size l). assert (E : u64 (sp - str_size l) = sp - str_size l) by (apply u64_small; lia). rewrite E.
  destruct (push_below s sp (str_size l) (cstr l)) as [P W]; [done|lia|lia|lia|intros; by apply cstr_byte|].
  set (s1 := ustack_write s r (sp - str_size l) (cstr l) (str_size l)) in *. pose proof P as (G1 & _).
  specialize (IH s1 (sp - str_size l) ((sp - str_size l) :: addrs) G1 ltac:(lia) ltac:(lia) Hb).
  destruct (push_strings s1 r rargv (sp - str_size l) ((sp - str_size l) :: addrs)) as [[s' sp'] addrs'].
  destruct IH as (E' & P' & new & En & Hf). cbn [strs_size]. split; [lia|]. split; [eapply pushed_trans; [done|done|lia]|].
  exists (new ++ [sp - str_size l]). split; [by rewrite En, <- app_assoc|]. cbn [rev]. apply Forall2_app.
  - eapply Forall2_impl; [done|]. intros a x (? & ? & ?). split_and!; [lia|lia|done].
  - constructor; [|constructor]. split; [lia|]. split; [lia|]. eapply str_at_pushed; [done|lia|lia|exact W].
Qed.
End region.

(** ** The layout *)

Lemma strs_size_app a b : strs_size (a ++ b) = strs_size a + strs_size b.
Proof. induction a as [|x a IH]; simpl; [done|]. lia. Qed.
Lemma strs_size_rev a : strs_size (rev a) = strs_size a.
Proof. induction a as [|x a IH]; simpl; [done|]. rewrite strs_size_app. simpl. lia. Qed.

Lemma align_block_spec sp argc :
  0 ≤ argc → 23 + 40 + argc * 8 ≤ sp < 2 ^ 62 →
  sp - 23 ≤ align_block sp argc ≤ sp ∧ (align_block sp argc - (40 + argc * 8)) mod 16 = 0.
Proof.
  intros Ha Hsp. unfold align_block. rewrite land_align by lia. change (2 ^ 4) with 16.
  change 15 with (Z.ones 4). rewrite Z.land_ones by lia. change (2 ^ 4) with 16.
  rewrite (u64_small (sp / 16 * 16 - (40 + argc * 8))), (u64_small (sp / 16 * 16 - 8)) by zlia.
  destruct (Z.eqb_spec ((sp / 16 * 16 - (40 + argc * 8)) mod 16) 0); cbn [negb]; zlia.
Qed.

Section layout.
Context {F : Type} `{FA : FrameAlloc F} `{FL : !FrameAllocLaws F}.
Implicit Types s : vm F.

Definition STACK_BASE : Z := USER_STACK_TOP - USER_STACK_SIZE.
#[local] Abbreviation stack_region := (λ roots r, region roots r STACK_BASE USER_STACK_TOP).

(** When the 64 KiB stack of the new address space is mapped to distinct frames
    and the arguments fit, the stack pointer is 16-byte aligned and the memory
    from it up is the argument block of the System V ABI; no page-table entry, no
    frame reference and no other data page changes. *)
Lemma exec_stack_lemma s roots r fr argv :
  stack_region roots r fr s → Forall bytes_ok argv →
  let args := take (Z.to_nat MAX_ARGC) argv in
  let argc := zlen args in
  strs_size args + 8 * argc + 63 ≤ USER_STACK_SIZE →
  let '(s', rsp) := exec_stack s r argv in
  STACK_BASE ≤ rsp < USER_STACK_TOP ∧ rsp mod 16 = 0 ∧
  user_u64 r s' rsp = argc ∧
  (∀ i l, args !! i = Some l → str_at r s' (user_u64 r s' (rsp + 8 + 8 * Z.of_nat i)) l) ∧
  user_u64 r s' (rsp + 8 + 8 * argc) = 0 ∧ user_u64 r s' (rsp + 16 + 8 * argc) = 0 ∧
  user_u64 r s' (rsp + 24 + 8 * argc) = 0 ∧ user_u64 r s' (rsp + 32 + 8 * argc) = 0 ∧
  kept roots STACK_BASE USER_STACK_TOP fr s s' ∧ vm_ok s' roots.
Proof.
  intros Hg Hb args argc Hfit. unfold exec_stack. fold args. fold argc.
  assert (Hargs : Forall bytes_ok args) by by apply Forall_take.
  assert (Hargc : 0 ≤ argc) by apply zlen_nonneg. pose proof (strs_size_nonneg args) as Hn.
  unfold STACK_BASE, USER_STACK_SIZE in *. change USER_STACK_TOP with 140733193388032 in *.
  set (HI := 140733193388032) in *. set (LO := HI - 64 * 1024) in *.
  pose proof (push_strings_spec roots r LO HI fr (rev args) s HI [] Hg) as PS.
  rewrite strs_size_rev in PS. specialize (PS ltac:(lia) ltac:(lia) ltac:(by apply Forall_rev)).
  destruct (push_strings s r (rev args) HI []) as [[s1 sp1] addrs].
  destruct PS as (E1 & P1 & new & -> & Hf). rewrite app_nil_r in *. rewrite rev_involutive in Hf.
  pose proof P1 as (G1 & _).
  destruct (align_block_spec sp1 argc) as [A1 A2]; [done|lia|]. set (b := align_block sp1 argc) in *.
  rewrite (u64_small (b - 16)) by lia.
  destruct (push_below roots r LO HI fr s1 b 16 (λ _, 0)) as [P2 W2]; [done|lia|lia|lia|intros; lia|].
  set (s2 := ustack_write s1 r (b - 16) (λ _, 0) 16) in *. pose proof P2 as (G2 & _).
  destruct (push_word_spec roots r LO HI fr s2 (b - 16) 0) as (E3 & P3 & W3); [done|lia|lia|lia|].
  destruct (push_word r 0 (s2, b - 16)) as [s3 sp3]. cbn [fst snd] in *. subst sp3. pose proof P3 as (G3 & _).
  destruct (push_word_spec roots r LO HI fr s3 (b - 16 - 8) 0) as (E4 & P4 & W4); [done|lia|lia|lia|].
  destruct (push_word r 0 (s3, b - 16 - 8)) as [s4 sp4]. cbn [fst snd] in *. subst sp4. pose proof P4 as (G4 & _).
  assert (Hlen : zlen new = argc) by (unfold argc, zlen; by rewrite (Forall2_length _ _ _ Hf)).
  destruct (push_words_spec roots r LO HI fr new s4 (b - 16 - 8 - 8)) as (E5 & P5 & W5); [done|lia|lia| |].
  { eapply Forall2_Forall_l; [done|]. apply Forall_forall. intros l _ a (? & ? & ?).
    assert (0 < str_size l) by (unfold str_size; pose proof (zlen_nonneg l); lia). lia. }
  rewrite Hlen in *. destruct (foldr (push_word r) (s4, b - 16 - 8 - 8) new) as [s5 sp5]. cbn [fst snd] in *. subst sp5.
  pose proof P5 as (G5 & _).
  destruct (push_word_spec roots r LO HI fr s5 (b - 16 - 8 - 8 - 8 * argc) argc) as (E6 & P6 & W6); [done|lia|lia|lia|].
  destruct (push_word r argc (s5, b - 16 - 8 - 8 - 8 * argc)) as [s6 sp6]. cbn [fst snd] in *. subst sp6.
  set (rsp := b - 16 - 8 - 8 - 8 * argc - 8) in *.
  (* What later pushes keep. *)
  assert (P56 : pushed roots r LO HI fr s4 s6 (b - 16 - 8 - 8)) by (eapply pushed_trans; [done|done|lia]).
  assert (P46 : pushed roots r LO HI fr s3 s6 (b - 16 - 8)) by (eapply pushed_trans; [done|done|lia]).
  assert (P36 : pushed roots r LO HI fr s2 s6 (b - 16)) by (eapply pushed_trans; [done|done|lia]).
  assert (P26 : pushed roots r LO HI fr s1 s6 b) by (eapply pushed_trans; [done|done|lia]).
  assert (P16 : pushed roots r LO HI fr s s6 HI) by (eapply pushed_trans; [done|done|lia]).
  assert (Haux : ∀ k, 0 ≤ k ≤ 8 → user_u64 r s6 (b - 16 + k) = 0).
  { intros k Hk. rewrite (user_u64_pushed roots r LO HI fr s2 s6 (b - 16)) by (done || lia).
    unfold user_u64. rewrite (load_le_ext (λ _, 0)); [reflexivity|]. change (Z.of_nat 8) with 8. intros i Hi.
    rewrite <- Z.add_assoc. apply W2. lia. }
  split; [lia|]. split; [unfold rsp; rewrite <- A2; f_equal; lia|]. split; [exact W6|]. split_and!.
  - intros i l Hi. destruct (Forall2_lookup_r _ _ _ _ _ Hf Hi) as (a & Ha & Hlo & Hhi & Hs).
    assert (Ea : user_u64 r s6 (rsp + 8 + 8 * Z.of_nat i) = a).
    { pose proof (lookup_lt_Some _ _ _ Ha) as Hlt. unfold zlen in Hlen.
      replace (rsp + 8 + 8 * Z.of_nat i) with (b - 16 - 8 - 8 - 8 * argc + 8 * Z.of_nat i) by (unfold rsp; lia).
      rewrite (user_u64_pushed roots r LO HI fr s5 s6 (b - 16 - 8 - 8 - 8 * argc)) by (done || lia). by apply W5. }
    rewrite Ea. apply (str_at_pushed roots r LO HI fr s1 s6 b); [done|lia|lia|done].
  - replace (rsp + 8 + 8 * argc) with (b - 16 - 8 - 8) by (unfold rsp; lia).
    rewrite (user_u64_pushed roots r LO HI fr s4 s6 (b - 16 - 8 - 8)) by (done || lia). exact W4.
  - replace (rsp + 16 + 8 * argc) with (b - 16 - 8) by (unfold rsp; lia).
    rewrite (user_u64_pushed roots r LO HI fr s3 s6 (b - 16 - 8)) by (done || lia). exact W3.
  - replace (rsp + 24 + 8 * argc) with (b - 16 + 0) by (unfold rsp; lia). apply Haux. lia.
  - replace (rsp + 32 + 8 * argc) with (b - 16 + 8) by (unfold rsp; lia). apply Haux. lia.
  - apply P16.
  - destruct P16 as (G6 & _). apply G6.
Qed.
End layout.
