(* ===== verification/Exec.v ===== *)
(** * Building the image of a new program

    The part of [proc_exec] ([kernel/proc/proc.c]) that makes a new address
    space: page tables, ELF segments, the 64 KiB user stack, the signal
    trampoline of [kernel/proc/signal.c] and the argument block.  Reading the
    file, naming the process and the switch to the new tables are outside. *)

From S2P Require Import Prelude Mem CString Block Pmm Frames Vmm VmmProofs VmmSpec Fault VmmWalk VmmDestroy VmmClone Elf ElfSpec ExecStack.

Definition USER_SIGRETURN_PAGE : Z := 140737219919872.   (* 0x00007FFFF0000000 *)
Definition SYS_SIGRETURN : Z := 95.

(** [mov eax, SYS_SIGRETURN; syscall; ud2] *)
Definition tramp_code : list Z :=
  [184; u8 SYS_SIGRETURN; u8 (Z.shiftr SYS_SIGRETURN 8); u8 (Z.shiftr SYS_SIGRETURN 16);
   u8 (Z.shiftr SYS_SIGRETURN 24); 15; 5; 15; 11].
(** The page: the code, then NOPs. *)
Definition tramp_byte (i : Z) : Z := if i <? 9 then tramp_code.[i] else 144.

Section exec.
Context {F : Type} `{FA : FrameAlloc F}.
Implicit Types s : vm F.

Definition proc_map_sigreturn_trampoline s (pml4 : Z) : vm F :=
  let '(page, f) := fa_alloc (fa s) in
  let s := with_fa s f in
  if page =? 0 then s
  else
    let p := p2v s page in
    let s := with_mem s (filled (vmem s) p 144 4096) in
    let s := with_mem s (blit (vmem s) p (λ i, tramp_code.[i]) 0 9) in
    (vmm_map_page s pml4 USER_SIGRETURN_PAGE page (Z.lor VMM_U VMM_RW)).2.

(** One page of the user stack; the result of the mapping is ignored. *)
Definition stack_page (pml4 k : Z) s : bool * vm F :=
  let va := STACK_BASE + k * PAGE_SIZE in
  let '(page, f) := fa_alloc (fa s) in
  let s := with_fa s f in
  if page =? 0 then (false, s) else (true, (vmm_map_page s pml4 va page (Z.lor VMM_U VMM_RW)).2).
Definition STACK_PAGES : nat := Z.to_nat (USER_STACK_SIZE / PAGE_SIZE).
Definition alloc_user_stack s (pml4 : Z) : bool * vm F := for_ok (stack_page pml4) 0 STACK_PAGES s.

(** The new space: its PML4, entry point and stack pointer; [None] inside is the
    error return. *)
Definition exec_image (fuel : nat) (cr3 : Z) (img : mem) (len : Z) (argv : list (list Z)) s :
    option (option (Z * Z * Z) * vm F) :=
  let '(phys, s) := vmm_create_pml4 cr3 s in
  if phys =? 0 then Some (None, s)
  else
    let pml4 := p2v s phys in
    match elf_load fuel img len pml4 s with
    | None => None
    | Some (false, _, s) => Some (None, discard_space s pml4 phys)
    | Some (true, entry, s) =>
        match alloc_user_stack s pml4 with
        | (false, s) => Some (None, discard_space s pml4 phys)
        | (true, s) =>
            let s := proc_map_sigreturn_trampoline s pml4 in
            let '(s, rsp) := exec_stack s pml4 argv in
            Some (Some (phys, entry, rsp), s)
        end
    end.
End exec.

(** ** The stack pages *)

Section stack.
Context {F : Type} `{FA : FrameAlloc F} `{FL : !FrameAllocLaws F}.
Implicit Types s : vm F.
Context (roots : list Z) (r : Z).
Hypothesis Hr : r ∈ roots.
Hypothesis Hhi : HIGHER_HALF ≤ r.

Definition UFLAGS : Z := Z.lor VMM_U VMM_RW.

(** A mapped page extends the region by one. *)
Lemma region_grow s s2 lo hi fr pt c :
  region roots r lo hi fr s → hi + 4096 ≤ 2 ^ 47 → fa_free (fa s) pt →
  extends roots r (λ w, path_eq 4 hi w) s s2 → holds_frame s2 roots r hi UFLAGS pt c →
  region roots r lo (hi + 4096) (λ p, if p =? hi / 4096 then pt else fr p) s2.
Proof.
  intros Hg Htop Hfree E (Ha & Ht & Hp & Hd & _). destruct (rg_bounds _ _ _ _ _ _ Hg) as (B1 & B2 & B3 & B4).
  assert (Hold : ∀ p, lo ≤ p * 4096 < hi → fr p ≠ pt).
  { intros p Hpr <-. destruct (rg_page _ _ _ _ _ _ Hg p Hpr) as (_ & _ & _ & _ & _ & _ & Hn & _).
    destruct (free_frame_virt s (fr p) (ok_fa _ _ (rg_ok _ _ _ _ _ _ Hg)) Hfree) as (Ep & _). apply Hn. rewrite Ep.
    by replace (fr p + fa_hhdm (fa s) - fa_hhdm (fa s)) with (fr p) by lia. }
  constructor; [apply E|done|split; [lia|]; split; [lia|split; [done|zlia]]|..].
  - intros p Hpr. destruct (Z.eqb_spec p (hi / 4096)) as [->|Hne].
    + replace (hi / 4096 * 4096) with hi by zlia. rewrite Hp. split; [|split; [|done]].
      * unfold UFLAGS. flag_bits. change (Z.testbit VMM_P 0) with true. by rewrite !orb_true_r.
      * rewrite land_mask_lor by reflexivity. apply land_mask_frame; [done|lia].
    + assert (Hpr' : lo ≤ p * 4096 < hi) by zlia.
      destruct (rg_page _ _ _ _ _ _ Hg p Hpr') as (P1 & P2 & P3 & P4 & P5).
      assert (Epte : pte s2 r (p * 4096) = pte s r (p * 4096)).
      { apply (ex_pte _ _ _ _ _ E); [done|]. right. intros Hpe. rewrite same_page_path in Hpe by lia.
        unfold PAGE_SIZE in Hpe. zlia. }
      rewrite Epte. unfold p2v in *. rewrite (ex_hhdm _ _ _ _ _ E).
      exact (conj P1 (conj P2 (conj P3 (conj P4 (ex_page _ _ _ _ _ E _ P5))))).
  - intros p q Hpr Hqr. destruct (Z.eqb_spec p (hi / 4096)), (Z.eqb_spec q (hi / 4096)); intros Ef; try congruence.
    + exfalso. apply (Hold q); [zlia|done].
    + exfalso. apply (Hold p); [zlia|done].
    + apply (rg_inj _ _ _ _ _ _ Hg); [zlia|zlia|done].
Qed.

(** Frames that back no page that existed before. *)
Definition fresh_frames s s' (lo hi : Z) (fr : Z → Z) : Prop :=
  ∀ p q, data_page s roots p → lo ≤ q * 4096 < hi → p ≠ p2v s' (fr q).

Lemma alloc_stack_loop n k fr s s0 m :
  (k + n = STACK_PAGES)%nat →
  extends roots r (page_range STACK_BASE k) s0 s →
  region roots r STACK_BASE (STACK_BASE + Z.of_nat k * 4096) fr s →
  fresh_frames s0 s STACK_BASE (STACK_BASE + Z.of_nat k * 4096) fr →
  can_alloc (4 * n + m) (fa s) →
  ∃ fr' s', for_ok (stack_page r) (Z.of_nat k) n s = (true, s') ∧ can_alloc m (fa s') ∧
    extends roots r (page_range STACK_BASE STACK_PAGES) s0 s' ∧
    region roots r STACK_BASE USER_STACK_TOP fr' s' ∧ fresh_frames s0 s' STACK_BASE USER_STACK_TOP fr'.
Proof.
  revert k fr s. induction n as [|n IH]; intros k fr s Hk E Hg Hfr Hc.
  { assert (k = STACK_PAGES) as -> by lia. exists fr, s. done. }
  change (for_ok (stack_page r) (Z.of_nat k) (S n) s) with
    (let '(ok, s') := stack_page r (Z.of_nat k) s in if ok then for_ok (stack_page r) (Z.of_nat k + 1) n s' else (false, s')).
  unfold stack_page. destruct Hc as [Hc0 Hc]. destruct (fa_alloc (fa s)) as [pt f'] eqn:Ea. cbn [fst snd] in Hc0, Hc.
  destruct (Z.eqb_spec pt 0) as [|Hnz]; [done|]. pose proof (rg_ok _ _ _ _ _ _ Hg) as Hok.
  assert (Hkn : (k < 16)%nat) by (unfold STACK_PAGES, USER_STACK_SIZE, PAGE_SIZE in Hk; change (Z.to_nat (64 * 1024 / 4096)) with 16%nat in Hk; lia).
  assert (Hb : STACK_BASE = 140733193322496) by reflexivity.
  change PAGE_SIZE with 4096. set (va := STACK_BASE + Z.of_nat k * 4096) in *.
  destruct (map_fresh s roots r va pt f' (vmem s) UFLAGS (4 * n + m) Hok Hr Hhi) as (C1 & C2 & C3 & C4);
    [apply user_addr; lia|done|done|replace (3 + (4 * n + m))%nat with (n + (n + (n + (n + 0))) + m + 3)%nat by lia|apply Hok|done|split; [done|reflexivity]|].
  { by replace (n + (n + (n + (n + 0))) + m + 3)%nat with (n + S (n + S (n + S (n + 0))) + m)%nat by lia. }
  change (with_fa s f') with (mkVm (vmem s) f' (kernel_pml4_virt s)). fold UFLAGS.
  set (s2 := (vmm_map_page (mkVm (vmem s) f' (kernel_pml4_virt s)) r va pt UFLAGS).2) in *.
  pose proof (region_grow s s2 STACK_BASE va fr pt _ Hg ltac:(lia) C2 C3 (C4 va (path_eq_refl 4 va))) as Hg2.
  replace (Z.of_nat k + 1) with (Z.of_nat (S k)) by lia.
  apply (IH (S k) (λ p, if p =? va / 4096 then pt else fr p)); [lia| | | |done].
  - eapply extends_trans; [done|done|]. intros w [(j & Hj & Hw)|Hw]; [exists j; split; [lia|done]|].
    exists (Z.of_nat k). split; [lia|done].
  - by replace (STACK_BASE + Z.of_nat (S k) * 4096) with (va + 4096) by (subst va; lia).
  - intros p q Hp Hq. assert (Eh : ∀ t, p2v s2 t = p2v s t) by (intros t; unfold p2v; by rewrite (ex_hhdm _ _ _ _ _ C3)).
    rewrite Eh. destruct (Z.eqb_spec q (va / 4096)); [|apply Hfr; [done|zlia]].
    intros ->. destruct (ex_page _ _ _ _ _ E _ Hp) as (_ & _ & Hn & _). apply Hn.
    destruct (free_frame_virt s pt (ok_fa _ _ Hok) C2) as (Ep & _). rewrite Ep.
    by replace (pt + fa_hhdm (fa s) - fa_hhdm (fa s)) with pt by lia.
Qed.

Lemma alloc_stack_spec s m :
  vm_ok s roots → can_alloc (64 + m) (fa s) →
  ∃ fr s', alloc_user_stack s r = (true, s') ∧ can_alloc m (fa s') ∧
    extends roots r (page_range STACK_BASE STACK_PAGES) s s' ∧
    region roots r STACK_BASE USER_STACK_TOP fr s' ∧ fresh_frames s s' STACK_BASE USER_STACK_TOP fr.
Proof.
  intros Hok Hc. apply (alloc_stack_loop STACK_PAGES 0 (λ _, 0) s s m); [done|by apply extends_refl| |..].
  - change (STACK_BASE + Z.of_nat 0 * 4096) with STACK_BASE.
    constructor; [done|done| |intros p Hp; lia|intros p q Hp; lia]. split; [split; [done|lia]|]. split; [done|split; reflexivity].
  - intros p q _ Hq. change (STACK_BASE + Z.of_nat 0 * 4096) with STACK_BASE in Hq. lia.
  - done.
Qed.

(** The trampoline page. *)
Lemma trampoline_spec s m :
  vm_ok s roots → can_alloc (4 + m) (fa s) →
  let s' := proc_map_sigreturn_trampoline s r in
  can_alloc m (fa s') ∧ extends roots r (λ w, path_eq 4 USER_SIGRETURN_PAGE w) s s' ∧
  ∃ t, fa_free (fa s) t ∧ ∀ w, path_eq 4 USER_SIGRETURN_PAGE w → holds_frame s' roots r w UFLAGS t tramp_byte.
Proof.
  intros Hok [Hc0 Hc]. unfold proc_map_sigreturn_trampoline. destruct (fa_alloc (fa s)) as [pt f'] eqn:Ea.
  cbn [fst snd] in Hc0, Hc. destruct (Z.eqb_spec pt 0) as [|Hnz]; [done|].
  destruct (fa_alloc_spec (fa s) (ok_fa _ _ Hok)) as [[E' _]|(pt' & f & E' & Hf & Hok' & Hh & _)];
    rewrite Ea in E'; [congruence|]. injection E' as <- <-.
  assert (Hp2v : p2v (with_fa s f') pt = p2v s pt) by (unfold p2v; cbn [with_fa fa]; by rewrite Hh). rewrite Hp2v.
  set (m0 := blit (filled (vmem s) (p2v s pt) 144 4096) (p2v s pt) (λ i, tramp_code.[i]) 0 9).
  change (with_mem (with_mem (with_fa s f') (filled (vmem (with_fa s f')) (p2v s pt) 144 4096))
            (blit (vmem (with_mem (with_fa s f') (filled (vmem (with_fa s f')) (p2v s pt) 144 4096))) (p2v s pt) (λ i, tramp_code.[i]) 0 9))
    with (mkVm m0 f' (kernel_pml4_virt s)).
  assert (Hcode : Forall (λ b, 0 ≤ b < 256) tramp_code) by (repeat constructor; intros; discriminate).
  destruct (map_fresh s roots r USER_SIGRETURN_PAGE pt f' m0 UFLAGS m Hok Hr Hhi) as (C1 & C2 & C3 & C4);
    [reflexivity|done|done|done|..].
  - intros a. unfold m0, blit. case_if.
    + apply (aget_Forall (λ b, 0 ≤ b < 256)); [done|]. bools. change (zlen tramp_code) with 9. lia.
    + apply filled_bytes; [apply Hok|lia].
  - intros a Ha. unfold PAGE_SIZE in Ha. unfold m0. rewrite blit_out by lia. unfold filled.
    destruct (Z.leb_spec (p2v s pt) a), (Z.ltb_spec a (p2v s pt + 4096)); simpl; (lia || done).
  - split; [done|reflexivity].
  - split; [done|]. split; [done|]. exists pt. split; [done|]. intros w Hw.
    destruct (C4 w Hw) as (H1 & H2 & H3 & H4 & H5). split; [done|]. split; [done|]. split; [done|]. split; [done|].
    intros i Hi. rewrite H5 by done. unfold m0, tramp_byte, PAGE_SIZE in *. destruct (Z.ltb_spec i 9).
    + rewrite blit_in by lia. f_equal. lia.
    + rewrite blit_out by lia. unfold filled.
      destruct (Z.leb_spec (p2v s pt) (p2v s pt + i)), (Z.ltb_spec (p2v s pt + i) (p2v s pt + 4096)); simpl; (lia || done).
Qed.
End stack.

(** ** The whole image *)

Section image.
Context {F : Type} `{FA : FrameAlloc F} `{FL : !FrameAllocLaws F}.
Implicit Types s : vm F.

Lemma holds_frame_kept s s' roots r lo hi fr w flags t c :
  kept roots lo hi fr s s' → r ∈ roots → (∀ q, lo ≤ q * 4096 < hi → p2v s t ≠ p2v s (fr q)) →
  holds_frame s roots r w flags t c → holds_frame s' roots r w flags t c.
Proof.
  intros K Hr Hne (H1 & H2 & H3 & H4 & H5). unfold holds_frame. unfold p2v in *. rewrite (kp_fa _ _ _ _ _ _ K).
  split; [done|]. split; [done|]. split; [by rewrite (kp_pte _ _ _ _ _ _ K)|].
  split; [by apply (kp_page _ _ _ _ _ _ K)|]. intros i Hi. rewrite (kp_data _ _ _ _ _ _ K) by done. by apply H5.
Qed.

Lemma create_alloc cr3 s n :
  can_alloc (S n) (fa s) → (vmm_create_pml4 cr3 s).1 ≠ 0 ∧ can_alloc n (fa (vmm_create_pml4 cr3 s).2).
Proof.
  intros [H1 H2]. unfold vmm_create_pml4. pose proof (kernel_pml4_same cr3 s) as Hs.
  destruct (vmm_kernel_pml4 cr3 s) as [k s1]. destruct Hs as [_ Ef]. rewrite Ef.
  destruct (fa_alloc (fa s)) as [pt f]. cbn [fst snd] in *. destruct (Z.eqb_spec pt 0); [done|]. split; [done|]. cbn [snd].
  assert (Hi : ∀ lo m a, fa (iter_up (λ i s, wr_entry s (p2v (with_fa s1 f) pt) i (rd_entry s k i)) lo m a) = fa a).
  { intros lo m. revert lo. induction m as [|m IH]; intros lo a; [done|]. rewrite iter_up_S. by rewrite IH. }
  by rewrite Hi.
Qed.

(** The frames a program needs: its PML4, its segments, its stack and the
    trampoline, with the tables they may require. *)
Definition frames_needed (img : mem) (h : elf64_ehdr_t) : nat :=
  (1 + (4 * pages_needed img h (Z.to_nat (e_phnum h)) 0 + (64 + 4)))%nat.

(** C26: [proc_exec] builds exactly the image the file and the arguments
    describe.  For a well-formed executable below the stack, arguments that fit
    and enough free frames, the new address space has every byte of every
    segment at its address, the System V argument block at a 16-byte aligned
    stack pointer and the signal trampoline at its fixed address; the entry
    point is that of the file; every other address space and every existing data
    page is untouched, and the page-table invariant holds of all spaces. *)
Theorem exec_image_spec fuel cr3 img len h argv s roots :
  vm_ok s roots → (vmm_kernel_pml4 cr3 s).1 ∈ roots →
  mem_bytes img → len ≤ 2 ^ 62 → elf_validate img len = Some h →
  (∀ i, 0 ≤ i < e_phnum h → loadable (phdr_at img h i) = true →
     good_seg len (phdr_at img h i) ∧
     seg_start (phdr_at img h i) + Z.of_nat (seg_pages (phdr_at img h i)) * 4096 ≤ STACK_BASE) →
  (∀ i j, 0 ≤ i < j → j < e_phnum h → loadable (phdr_at img h i) = true → loadable (phdr_at img h j) = true →
     seg_disjoint (phdr_at img h i) (phdr_at img h j)) →
  (pages_needed img h (Z.to_nat (e_phnum h)) 0 < fuel)%nat → can_alloc (frames_needed img h) (fa s) →
  Forall bytes_ok argv →
  let args := take (Z.to_nat MAX_ARGC) argv in
  let argc := zlen args in
  strs_size args + 8 * argc + 63 ≤ USER_STACK_SIZE →
  ∃ phys rsp s', exec_image fuel cr3 img len argv s = Some (Some (phys, e_entry h, rsp), s') ∧
    let r := p2v s' phys in
    vm_ok s' (r :: roots) ∧
    (∀ i a, 0 ≤ i < e_phnum h → loadable (phdr_at img h i) = true →
       seg_start (phdr_at img h i) ≤ a < seg_end (phdr_at img h i) →
       user_byte s' r a = seg_byte img (phdr_at img h i) a) ∧
    rsp mod 16 = 0 ∧ user_u64 r s' rsp = argc ∧
    (∀ i l, args !! i = Some l → str_at r s' (user_u64 r s' (rsp + 8 + 8 * Z.of_nat i)) l) ∧
    user_u64 r s' (rsp + 8 + 8 * argc) = 0 ∧ user_u64 r s' (rsp + 16 + 8 * argc) = 0 ∧
    user_u64 r s' (rsp + 24 + 8 * argc) = 0 ∧ user_u64 r s' (rsp + 32 + 8 * argc) = 0 ∧
    (∀ i, 0 ≤ i < PAGE_SIZE → user_byte s' r (USER_SIGRETURN_PAGE + i) = tramp_byte i) ∧
    (∀ r' w, r' ∈ roots → pte s' r' w = pte s r' w) ∧
    (∀ p i, data_page s roots p → 0 ≤ i < PAGE_SIZE → vmem s' (p + i) = vmem s (p + i)).
Proof.
  intros Hok Hk Himg Hlen Hv Hseg Hdisj Hfuel Hfr Hb args argc Hfit.
  (* the new tables *)
  destruct (create_alloc cr3 s _ Hfr) as [A1 A2]. pose proof (create_pml4_lemma cr3 s roots Hok Hk) as C. cbv zeta in C.
  unfold exec_image. destruct (vmm_create_pml4 cr3 s) as [phys s1]. cbn [fst snd] in A1, A2.
  destruct (Z.eqb_spec phys 0) as [|Hnz]; [done|].
  destruct C as [(C0 & _)|(C1 & C2 & C3 & C4 & C5 & C6 & C7 & C8 & C9 & C10)]; [done|].
  set (r := p2v s1 phys) in *. assert (Hr : r ∈ r :: roots) by by left.
  destruct (fa_hhdm_range _ (ok_fa _ _ C4)) as [Hh _].
  assert (Hhi : HIGHER_HALF ≤ r).
  { destruct (ok_tab _ _ C4 r 0 0 r Hr ltac:(lia) eq_refl) as (Hx & _). unfold HIGHER_HALF. lia. }
  assert (Hnr : ∀ r', r' ∈ roots → r' ≠ r) by (intros r' Hr' ->; done).
  (* the segments *)
  destruct (elf_load_lemma img len (r :: roots) r h s1 fuel (64 + 4)) as (s2 & E2 & A3 & L2 & X2); try done.
  { intros i Hi Hl. by apply Hseg. }
  rewrite E2.
  (* the stack *)
  destruct (alloc_stack_spec (r :: roots) r Hr Hhi s2 4 (ex_ok _ _ _ _ _ X2) A3) as (fr & s3 & E3 & A4 & X3 & G3 & F3).
  rewrite E3.
  (* the trampoline *)
  destruct (trampoline_spec (r :: roots) r Hr Hhi s3 0 (ex_ok _ _ _ _ _ X3)) as (_ & X4 & tt & Hft & T4); [by rewrite Nat.add_0_r|].
  set (s4 := proc_map_sigreturn_trampoline s3 r) in *.
  assert (Hp2v4 : ∀ t, p2v s4 t = p2v s3 t) by (intros t; unfold p2v; by rewrite (ex_hhdm _ _ _ _ _ X4)).
  assert (Hp2v3 : ∀ t, p2v s3 t = p2v s2 t) by (intros t; unfold p2v; by rewrite (ex_hhdm _ _ _ _ _ X3)).
  assert (HB : STACK_BASE = 140733193322496) by reflexivity. assert (HT : USER_STACK_TOP = 140733193388032) by reflexivity.
  assert (Htramp : ∀ w, STACK_BASE ≤ w < USER_STACK_TOP → ¬ path_eq 4 USER_SIGRETURN_PAGE w).
  { intros w Hw Hp. rewrite same_page_path in Hp by (unfold USER_SIGRETURN_PAGE; lia).
    unfold PAGE_SIZE, USER_SIGRETURN_PAGE in Hp. zlia. }
  assert (G4 : region (r :: roots) r STACK_BASE USER_STACK_TOP fr s4).
  { constructor; [apply X4|done|apply G3| |apply G3]. intros p Hp.
    destruct (rg_page _ _ _ _ _ _ G3 p Hp) as (P1 & P2 & P3 & P4 & P5). rewrite Hp2v4.
    rewrite (ex_pte _ _ _ _ _ X4) by (done || right; apply Htramp; lia).
    exact (conj P1 (conj P2 (conj P3 (conj P4 (ex_page _ _ _ _ _ X4 _ P5))))). }
  (* the arguments *)
  pose proof (exec_stack_lemma s4 (r :: roots) r fr argv G4 Hb) as S5. cbv zeta in S5. fold args argc in S5.
  specialize (S5 Hfit). destruct (exec_stack s4 r argv) as [s5 rsp].
  destruct S5 as (S1 & S2 & S3 & S4 & S6 & S7 & S8 & S9 & K5 & Hok5).
  exists phys, rsp, s5. split; [done|]. cbv zeta.
  assert (Er : p2v s5 phys = r).
  { unfold r, p2v. by rewrite (kp_fa _ _ _ _ _ _ K5), (ex_hhdm _ _ _ _ _ X4), (ex_hhdm _ _ _ _ _ X3), (ex_hhdm _ _ _ _ _ X2). }
  rewrite Er.
  split; [done|]. split.
  { intros i a Hi Hl Ha. destruct (Hseg i Hi Hl) as [Hg Hbelow].
    assert (Hload5 : seg_loaded s5 (r :: roots) r img (phdr_at img h i)).
    { intros k w Hkk Hw. destruct (L2 i Hi Hl k w Hkk Hw) as (t & Ht). exists t.
      destruct (seg_extent len (phdr_at img h i) Hg) as (Y1 & Y2 & Y3 & Y4 & _).
      assert (Hns : ¬ page_range STACK_BASE STACK_PAGES w).
      { intros (j & Hj & Hw'). assert (Hp : path_eq 4 (seg_start (phdr_at img h i) + k * 4096) (STACK_BASE + j * 4096)) by eauto with xos.
        change (Z.of_nat STACK_PAGES) with 16 in Hj. rewrite same_page_path in Hp by lia. unfold PAGE_SIZE in Hp. zlia. }
      assert (Hnt : ¬ path_eq 4 USER_SIGRETURN_PAGE w).
      { intros Hw'. assert (Hp : path_eq 4 (seg_start (phdr_at img h i) + k * 4096) USER_SIGRETURN_PAGE) by eauto with xos.
        rewrite same_page_path in Hp by (unfold USER_SIGRETURN_PAGE; lia). unfold PAGE_SIZE, USER_SIGRETURN_PAGE in Hp. zlia. }
      pose proof Ht as (_ & _ & _ & Hdat & _).
      eapply holds_frame_kept; [exact K5|done| |eapply holds_frame_extends; [exact X4|done|done|]].
      - intros q Hq. rewrite !Hp2v4, Hp2v3. by apply F3.
      - eapply holds_frame_extends; [exact X3|done|done|done]. }
    by apply (loaded_byte s5 (r :: roots) r img len). }
  split; [done|]. split; [done|]. split; [done|]. split; [done|]. split; [done|]. split; [done|]. split; [done|].
  split.
  { intros i Hi. unfold PAGE_SIZE in Hi.
    assert (Hpe : path_eq 4 USER_SIGRETURN_PAGE (USER_SIGRETURN_PAGE + i)).
    { apply same_page_path; [unfold USER_SIGRETURN_PAGE; lia..|]. unfold PAGE_SIZE, USER_SIGRETURN_PAGE. zlia. }
    assert (Hf5 : holds_frame s5 (r :: roots) r (USER_SIGRETURN_PAGE + i) UFLAGS tt tramp_byte).
    { eapply holds_frame_kept; [exact K5|done| |by apply T4]. intros q Hq Heq. rewrite !Hp2v4 in Heq.
      destruct (rg_page _ _ _ _ _ _ G3 q Hq) as (_ & _ & _ & _ & _ & _ & Hn & _). apply Hn. rewrite <- Heq.
      destruct (free_frame_virt s3 tt (ok_fa _ _ (ex_ok _ _ _ _ _ X3)) Hft) as (Ept & _). rewrite Ept.
      by replace (tt + fa_hhdm (fa s3) - fa_hhdm (fa s3)) with tt by lia. }
    rewrite (frame_byte s5 (r :: roots) r _ UFLAGS tt tramp_byte);
      [|done|done|by apply user_addr; unfold USER_SIGRETURN_PAGE; lia|reflexivity|done].
    f_equal. unfold PAGE_SIZE, USER_SIGRETURN_PAGE. zlia. }
  split.
  - intros r' w Hr'. assert (Hin : r' ∈ r :: roots) by by right. pose proof (Hnr r' Hr').
    rewrite (kp_pte _ _ _ _ _ _ K5), (ex_pte _ _ _ _ _ X4), (ex_pte _ _ _ _ _ X3), (ex_pte _ _ _ _ _ X2) by auto.
    by apply C7.
  - intros p i Hp Hi. pose proof (C8 p Hp) as D1. pose proof (ex_page _ _ _ _ _ X2 _ D1) as D2.
    pose proof (ex_page _ _ _ _ _ X3 _ D2) as D3. pose proof (ex_page _ _ _ _ _ X4 _ D3) as D4.
    assert (Hq : ∀ q, STACK_BASE ≤ q * 4096 < USER_STACK_TOP → p ≠ p2v s4 (fr q)) by (intros q Hq; rewrite Hp2v4; by apply F3).
    rewrite (kp_data _ _ _ _ _ _ K5 p i D4 Hq Hi), (ex_data _ _ _ _ _ X4 p i D3 Hi), (ex_data _ _ _ _ _ X3 p i D2 Hi),
      (ex_data _ _ _ _ _ X2 p i D1 Hi). by apply C9.
Qed.
End image.

(** ** Running the small executable with two arguments *)

Module ExecDemo.
Import VmmDemo ElfDemo.

Definition demo_argv : list (list Z) := [[108; 115]; [45; 108]].      (* ls -l *)

Lemma kernel_root : (vmm_kernel_pml4 4096 demo).1 ∈ [root].
Proof.
  assert (E : (vmm_kernel_pml4 4096 demo).1 = root).
  { unfold vmm_kernel_pml4, demo, machine, p2v. cbn [kernel_pml4_virt fst fa fa_hhdm pmm_frames]. rewrite Z.eqb_refl.
    cbn [fst]. rewrite demo_hhdm. reflexivity. }
  rewrite E. exact root_in.
Qed.

Lemma enough_frames : can_alloc (frames_needed good hdr) (fa demo).
Proof. vm_compute. split_and!; try exact I; intros; discriminate. Qed.

Lemma below_stack :
  seg_start (phdr_at good hdr 0) + Z.of_nat (seg_pages (phdr_at good hdr 0)) * 4096 ≤ STACK_BASE.
Proof. vm_compute. intros; discriminate. Qed.

Lemma demo_argv_bytes : Forall bytes_ok demo_argv.
Proof. repeat constructor; intros; discriminate. Qed.

Lemma exec_image_spec_witness :
  ∃ phys rsp s', exec_image 3 4096 good 128 demo_argv demo = Some (Some (phys, 4194432, rsp), s') ∧
    rsp mod 16 = 0 ∧ user_u64 (p2v s' phys) s' rsp = 2.
Proof.
  destruct (exec_image_spec 3 4096 good 128 hdr demo_argv demo [root] demo_ok kernel_root good_bytes ltac:(lia) good_valid)
    as (phys & rsp & s' & H1 & _ & _ & H2 & H3 & _).
  - intros i Hi _. rewrite (one_header i Hi). split; [exact good_segment|exact below_stack].
  - intros i j Hij Hj. change (e_phnum hdr) with 1 in Hj. lia.
  - change (pages_needed good hdr (Z.to_nat (e_phnum hdr)) 0) with 2%nat. lia.
  - exact enough_frames.
  - exact demo_argv_bytes.
  - vm_compute. intros; discriminate.
  - exists phys, rsp, s'. split; [exact H1|]. split; [exact H2|exact H3].
Defined.
End ExecDemo.
