(* ===== verification/HeapOwn.v ===== *)
(** * The kernel heap as its clients see it

    [Heap.v] proves the allocator correct over its block layout.  Clients only
    know which blocks they hold: [holds h L] says that the heap is well formed
    and its live blocks are exactly [L], in any order. *)

From S2P Require Import Prelude Mem Heap.

(** A block: its address and its capacity. *)
Abbreviation block := (Z * Z)%type.

Definition holds (h : heap) (L : list block) : Prop :=
  ∃ bl, heap_wf h bl ∧ live (arena h) bl ≡ₚ L.

(** [x] is a byte of the block. *)
Definition in_block (b : block) (x : Z) : Prop := b.1 ≤ x < b.1 + b.2.

Definition apart (b b' : block) : Prop := b.1 + b.2 ≤ b'.1 ∨ b'.1 + b'.2 ≤ b.1.

(** The blocks of [L] but those in [W] keep their contents. *)
Definition unchanged (W L : list block) (h h' : heap) : Prop :=
  ∀ b, b ∈ L → b ∉ W → ∀ x, in_block b x → hmem h' x = hmem h x.

#[export] Instance unchanged_refl W L : Reflexive (unchanged W L).
Proof. intros h b _ _ x _. done. Qed.

Lemma unchanged_trans W W' L L' h1 h2 h3 :
  unchanged W L h1 h2 → unchanged W' L' h2 h3 → L ⊆ L' → W' ⊆ W → unchanged W L h1 h3.
Proof. intros K1 K2 HL HW b Hb Hn x Hx. rewrite (K2 b) by (set_solver || done). by apply (K1 b). Qed.

Lemma unchanged_more W W' L h h' : unchanged W L h h' → W ⊆ W' → unchanged W' L h h'.
Proof. intros K HW b Hb Hn. apply K; [done|set_solver]. Qed.

#[export] Instance holds_perm h : Proper ((≡ₚ) ==> iff) (holds h).
Proof. intros L L' E. unfold holds. by setoid_rewrite E. Qed.

Lemma holds_bytes h L : holds h L → mem_bytes (hmem h).
Proof. intros (bl & [Hl _] & _). apply Hl. Qed.

(** Held blocks lie in the address range and are aligned. *)
Lemma holds_range h L b :
  holds h L → b ∈ L → 0 < b.1 ∧ 0 < b.2 ∧ b.1 + b.2 < 2 ^ 64 ∧ b.1 mod 16 = 0.
Proof.
  intros (bl & Hwf & E) Hb. rewrite <- E in Hb. destruct b as [p c]. destruct Hwf as [Hl _]. cbn.
  pose proof (live_range _ _ _ _ (hl_sizes _ _ Hl) Hb). pose proof (hl_arena _ _ Hl). pose proof (hl_top _ _ Hl).
  pose proof (hl_span _ _ Hl). pose proof (live_aligned _ _ _ _ (hl_sizes _ _ Hl) (proj2 (hl_arena _ _ Hl)) Hb). lia.
Qed.

(** Different held blocks do not overlap. *)
Lemma holds_apart h L b b' : holds h L → b ∈ L → b' ∈ L → b ≠ b' → apart b b'.
Proof.
  intros (bl & [Hl _] & E) Hb Hb' Hne. rewrite <- E in Hb, Hb'. destruct b as [p c], b' as [q d].
  pose proof (hl_sizes _ _ Hl) as Hs. unfold apart. cbn. revert Hs Hb Hb' Hne. clear.
  generalize (arena h). induction bl as [|[sz f] bl IH]; intros a Hs Hb Hb' Hne; [by apply elem_of_nil in Hb|].
  apply Forall_cons in Hs as [Hsz Hs]. cbn [live] in Hb, Hb'. destruct f; [by apply (IH (a + sz))|].
  assert (Hin : ∀ x n, (x, n) ∈ live (a + sz) bl → a + sz ≤ x) by (intros x n H; apply live_range in H; [lia|done]).
  unfold HDR_SIZE in *. apply elem_of_cons in Hb as [Hb|Hb], Hb' as [Hb'|Hb'].
  - congruence.
  - injection Hb as -> ->. apply Hin in Hb'. lia.
  - injection Hb' as -> ->. apply Hin in Hb. lia.
  - by apply (IH (a + sz)).
Qed.

(** Allocation: the new block joins the others and is apart from them. *)
Lemma holds_kmalloc h L size :
  holds h L → 0 < size ≤ 2 ^ 64 - 32 →
  let '(p, h') := kmalloc h size in
  (p = 0 ∧ h' = h) ∨
  (0 < p ∧ ∃ cap, size ≤ cap ∧ ¬ ((p, cap) ∈ L) ∧ holds h' ((p, cap) :: L) ∧ unchanged [] L h h').
Proof.
  intros (bl & Hwf & E) Hs. pose proof (kmalloc_alloc h bl size Hwf Hs) as H. destruct (kmalloc h size) as [p h'].
  destruct H as [(-> & -> & _)|(Hp & bl' & l1 & l2 & cap & Hwf' & Ea & _ & E1 & E2 & Hc & _ & _ & _ & Hk)]; [by left|right].
  split; [done|]. exists cap. split_and!; [done| | |].
  - intros Hin. rewrite <- E in Hin. destruct (Hk _ _ Hin) as [? _]. lia.
  - exists bl'. split; [done|]. rewrite Ea, E2, <- E, E1. by rewrite Permutation_middle.
  - intros [q d] Hq _ x Hx. rewrite <- E in Hq. by apply (Hk q d).
Qed.

(** Release. *)
Lemma holds_kfree h L b : holds h (b :: L) → holds (kfree h b.1) L ∧ unchanged [b] (b :: L) h (kfree h b.1).
Proof.
  destruct b as [p c]. intros (bl & Hwf & E). assert (Hin : (p, c) ∈ live (arena h) bl) by (rewrite E; apply list_elem_of_here).
  destruct (kfree_live h bl p c Hwf Hin) as (bl' & l1 & l2 & Hwf' & Ea & E1 & E2 & Hk). cbn [fst].
  assert (EL : l1 ++ l2 ≡ₚ L).
  { rewrite E1 in E. apply (Permutation_cons_inv (a := (p, c))). by rewrite <- E, <- Permutation_middle. }
  split; [exists bl'; by rewrite Ea, E2, EL|]. intros [q d] Hq Hn x Hx. apply (Hk q d); [|done]. rewrite EL.
  apply elem_of_cons in Hq as [Hq|Hq]; [|done]. destruct Hn. rewrite Hq. apply list_elem_of_here.
Qed.

(** Writing inside a held block. *)
Lemma holds_write h L b m' :
  holds h L → b ∈ L → mem_bytes m' → (∀ x, ¬ in_block b x → m' x = hmem h x) →
  holds (set_hmem h m') L ∧ unchanged [b] L h (set_hmem h m').
Proof.
  intros Hh Hb Hm Hx. split.
  - destruct Hh as (bl & Hwf & E). exists bl. split; [|done]. destruct b as [p c].
    apply (client_write h bl p c m' Hwf); [by rewrite E|done|]. intros x Hxx. apply Hx. unfold in_block. cbn. lia.
  - intros b' Hb' Hn x Hin. cbn. apply Hx. intros Hin'. destruct (holds_apart h L b b' Hh Hb Hb') as [H|H];
      [intros ->; apply Hn, list_elem_of_here|unfold in_block in *; lia..].
Qed.
