(* ===== verification/Xstate.v ===== *)
(** * Extended CPU state

    The save areas of the x87, SSE and AVX registers
    ([kernel/arch/x86_64/cpu.c]): over-allocated on the kernel heap, aligned by
    hand to 64 bytes as [XSAVE] demands, with the address of the heap block
    stored just below the area. *)

From S2P Require Import Prelude Mem CString Block Heap HeapOwn.

(** What the hardware and the per-CPU data contribute: [g_cpu.xsave_size] and
    [g_cpu.xsave], the extended-state image of the live registers, the registers
    [syscall_entry] saved in [this_cpu()] ([rbx rbp r12 r13 r14]), the address of
    [ring3_trampoline] and CR3. *)
Record machine := mkMachine {
  xsave_size : Z;
  xsave : bool;
  live_fpu : mem;
  user_gprs : list Z;
  ring3_trampoline : Z;
  boot_cr3 : Z;
}.

(** ** Extended CPU state *)

Definition CPU_XSTATE_ALIGN : Z := 64.

Definition cpu_xstate_reset (mc : machine) (m : mem) (area : Z) : mem :=
  if area =? 0 then m
  else
    let m := filled m area 0 (xsave_size mc) in
    let m := store_le m (area + 24) 4 0x1F80 in
    if negb (xsave mc) then store_le m area 2 0x037F else m.

Definition cpu_xstate_alloc (mc : machine) (h : heap) : Z * heap :=
  let need := xsave_size mc + CPU_XSTATE_ALIGN + 8 in
  let '(raw, h) := kmalloc h need in
  if raw =? 0 then (0, h)
  else
    let m := filled (hmem h) raw 0 need in
    let base := u64 (raw + 8) in
    let aligned := Z.land (u64 (base + CPU_XSTATE_ALIGN - 1)) (u64 (Z.lnot (CPU_XSTATE_ALIGN - 1))) in
    let m := st64 m (aligned - 8) raw in
    (aligned, set_hmem h (cpu_xstate_reset mc m aligned)).

Definition cpu_xstate_copy (mc : machine) (m : mem) (dst src : Z) : mem :=
  if (dst =? 0) || (src =? 0) then m else blit m dst m src (xsave_size mc).

Definition cpu_xstate_free (h : heap) (area : Z) : heap :=
  if area =? 0 then h else kfree h (ld64 (hmem h) (area - 8)).

(** [XSAVE] (or its variants) stores the live registers and [XRSTOR] loads them. *)
Definition cpu_xstate_save (mc : machine) (m : mem) (area : Z) : mem :=
  if area =? 0 then m else blit m area (live_fpu mc) 0 (xsave_size mc).
Definition cpu_xstate_restore (mc : machine) (m : mem) (area : Z) : machine :=
  if area =? 0 then mc
  else mkMachine (xsave_size mc) (xsave mc) (blit (live_fpu mc) 0 m area (xsave_size mc)) (user_gprs mc)
                 (ring3_trampoline mc) (boot_cr3 mc).

(** ** The areas *)

(** The architecture's bounds on the size of the image. *)
Definition xsave_ok (mc : machine) : Prop := 512 ≤ xsave_size mc < 2 ^ 32.

(** The area [a] of the block [b]. *)
Definition area_in (mc : machine) (m : mem) (b : block) (a : Z) : Prop :=
  b.1 + 8 ≤ a ∧ a + xsave_size mc ≤ b.1 + b.2 ∧ a mod CPU_XSTATE_ALIGN = 0 ∧ ld64 m (a - 8) = b.1.

(** The image a new process starts from: all zero but the control words. *)
Definition init_byte (mc : machine) (i : Z) : Z :=
  if i =? 24 then 0x80 else if i =? 25 then 0x1F
  else if negb (xsave mc) && (i =? 0) then 0x7F else if negb (xsave mc) && (i =? 1) then 0x03 else 0.

Section areas.
Context (mc : machine).
Hypothesis Hx : xsave_ok mc.

Lemma reset_image m a i :
  a ≠ 0 → 0 ≤ i < xsave_size mc → cpu_xstate_reset mc m a (a + i) = init_byte mc i.
Proof.
  intros Ha Hi. unfold cpu_xstate_reset. destruct (Z.eqb_spec a 0); [done|]. destruct Hx.
  assert (H24 : store_le (filled m a 0 (xsave_size mc)) (a + 24) 4 0x1F80 (a + i)
            = if i =? 24 then 0x80 else if i =? 25 then 0x1F else 0).
  { rewrite store_le_spec. destruct (Z.leb_spec (a + 24) (a + i)), (Z.ltb_spec (a + i) (a + 24 + Z.of_nat 4)); cbn [andb].
    - assert (i = 24 ∨ i = 25 ∨ i = 26 ∨ i = 27) as [->|[->|[->| ->]]] by lia;
        match goal with |- context [a + ?k - _] => replace (a + k - (a + 24)) with (k - 24) by lia end; reflexivity.
    - unfold filled. destruct (Z.leb_spec a (a + i)), (Z.ltb_spec (a + i) (a + xsave_size mc)); try lia.
      destruct (Z.eqb_spec i 24), (Z.eqb_spec i 25); (done || lia).
    - unfold filled. destruct (Z.leb_spec a (a + i)), (Z.ltb_spec (a + i) (a + xsave_size mc)); try lia.
      destruct (Z.eqb_spec i 24), (Z.eqb_spec i 25); (done || lia).
    - lia. }
  unfold init_byte. destruct (xsave mc); cbn [negb andb]; [exact H24|]. rewrite store_le_spec, H24.
  destruct (Z.eqb_spec i 0) as [->|]; [rewrite Z.add_0_r, Z.leb_refl, (proj2 (Z.ltb_lt _ _)), Z.sub_diag by lia; done|].
  destruct (Z.eqb_spec i 1) as [->|].
  { rewrite (proj2 (Z.leb_le _ _)), (proj2 (Z.ltb_lt _ _)) by lia. by replace (a + 1 - a) with 1 by lia. }
  destruct (Z.ltb_spec (a + i) (a + Z.of_nat 2)); [lia|]. by rewrite andb_false_r.
Qed.

Lemma fill_bytes m d v n : mem_bytes m → 0 ≤ v < 256 → mem_bytes (filled m d v n).
Proof. intros Hm Hv x. unfold filled. by case_if. Qed.
Lemma filled_out m d v n x : x < d ∨ d + n ≤ x → filled m d v n x = m x.
Proof. intros H. unfold filled. destruct (Z.leb_spec d x), (Z.ltb_spec x (d + n)); (lia || done). Qed.
Lemma blit_bytes m d src s n : mem_bytes m → (∀ x, s ≤ x < s + n → 0 ≤ src x < 256) → mem_bytes (blit m d src s n).
Proof.
  intros Hm Hs x. unfold blit. destruct (Z.leb_spec d x), (Z.ltb_spec x (d + n)); cbn [andb]; try done. apply Hs. lia.
Qed.

(** Resetting an area writes nothing else. *)
Lemma reset_out m a x : x < a ∨ a + xsave_size mc ≤ x → cpu_xstate_reset mc m a x = m x.
Proof.
  intros Hout. unfold cpu_xstate_reset. destruct (a =? 0); [done|]. destruct Hx.
  destruct (xsave mc); cbn [negb]; rewrite ?store_le_outside by lia; by rewrite filled_out by lia.
Qed.
Lemma reset_bytes m a : mem_bytes m → mem_bytes (cpu_xstate_reset mc m a).
Proof.
  intros Hm. unfold cpu_xstate_reset. destruct (a =? 0); [done|].
  case_if; repeat apply store_le_bytes; apply fill_bytes; done || lia.
Qed.

(** Where the allocator puts the area. *)
Lemma aligned_area raw cap :
  0 < raw → raw + cap < 2 ^ 64 → xsave_size mc + 72 ≤ cap →
  let base := u64 (raw + 8) in
  let a := Z.land (u64 (base + CPU_XSTATE_ALIGN - 1)) (u64 (Z.lnot (CPU_XSTATE_ALIGN - 1))) in
  raw + 8 ≤ a ∧ a + xsave_size mc ≤ raw + cap ∧ a mod CPU_XSTATE_ALIGN = 0.
Proof.
  intros Hr Hc Hs base a. destruct Hx. unfold CPU_XSTATE_ALIGN in *. unfold base in *. subst a.
  rewrite (u64_small (raw + 8)), (u64_small (raw + 8 + 64 - 1)) by lia.
  change (u64 (Z.lnot (64 - 1))) with (2 ^ 64 - 2 ^ 6). rewrite land_align by lia. change (2 ^ 6) with 64. zlia.
Qed.

(** Allocation of an area. *)
Lemma xstate_alloc h L :
  holds h L →
  let '(a, h') := cpu_xstate_alloc mc h in
  (a = 0 ∧ h' = h) ∨
  (a ≠ 0 ∧ ∃ b, ¬ (b ∈ L) ∧ holds h' (b :: L) ∧ unchanged [] L h h' ∧ area_in mc (hmem h') b a ∧
     ∀ i, 0 ≤ i < xsave_size mc → hmem h' (a + i) = init_byte mc i).
Proof.
  intros Hh. unfold cpu_xstate_alloc. cbv zeta. destruct Hx. unfold CPU_XSTATE_ALIGN at 1.
  pose proof (holds_kmalloc h L (xsave_size mc + 64 + 8) Hh ltac:(lia)) as H1.
  destruct (kmalloc h (xsave_size mc + 64 + 8)) as [raw h1]. destruct H1 as [[-> ->]|(Hp & cap & Hcap & Hn & Hh1 & Hk)]; [by left|].
  destruct (Z.eqb_spec raw 0); [lia|]. right.
  destruct (holds_range _ _ (raw, cap) Hh1 (list_elem_of_here _ _)) as (_ & _ & Htop & _). cbn [fst snd] in Htop.
  pose proof (aligned_area raw cap Hp Htop ltac:(lia)) as Ha. cbv zeta in Ha. revert Ha.
  generalize (Z.land (u64 (u64 (raw + 8) + CPU_XSTATE_ALIGN - 1)) (u64 (Z.lnot (CPU_XSTATE_ALIGN - 1)))). intros a (Ha1 & Ha2 & Ha3).
  split; [lia|]. exists (raw, cap). unfold CPU_XSTATE_ALIGN.
  destruct (holds_write h1 _ (raw, cap)
              (cpu_xstate_reset mc (st64 (filled (hmem h1) raw 0 (xsave_size mc + 64 + 8)) (a - 8) raw) a)
              Hh1 (list_elem_of_here _ _)) as [Hh2 Hk2].
  { apply reset_bytes, st64_bytes, fill_bytes; [by eapply holds_bytes|lia]. }
  { intros x Hout. unfold in_block in Hout. cbn in Hout. rewrite reset_out by lia. rewrite st64_outside by lia.
    by rewrite filled_out by lia. }
  split_and!; [done|done| | |].
  - intros b Hb _ x Hin. rewrite (Hk2 b); [by apply (Hk b); [|apply not_elem_of_nil|]|by apply list_elem_of_further| |done].
    intros ->%list_elem_of_singleton. done.
  - unfold area_in. cbn [fst snd]. split_and!; [done|done|done|]. cbn [hmem set_hmem].
    rewrite (ld64_frame (st64 (filled (hmem h1) raw 0 (xsave_size mc + 64 + 8)) (a - 8) raw)).
    + apply ld64_st64_eq. lia.
    + intros i Hi. apply reset_out. lia.
  - intros i Hi. cbn [hmem set_hmem]. by apply reset_image; [lia|].
Qed.

(** Release of an area. *)
Lemma xstate_free h L b a :
  holds h (b :: L) → area_in mc (hmem h) b a →
  holds (cpu_xstate_free h a) L ∧ unchanged [b] (b :: L) h (cpu_xstate_free h a).
Proof.
  intros Hh (Ha & _ & _ & E). unfold cpu_xstate_free. destruct (holds_range _ _ b Hh (list_elem_of_here _ _)) as (? & _).
  destruct (Z.eqb_spec a 0); [lia|]. rewrite E. by apply holds_kfree.
Qed.

(** Writing inside an area. *)
Lemma area_write h L b a m' :
  holds h L → b ∈ L → area_in mc (hmem h) b a → mem_bytes m' →
  (∀ x, x < a ∨ a + xsave_size mc ≤ x → m' x = hmem h x) →
  holds (set_hmem h m') L ∧ unchanged [b] L h (set_hmem h m') ∧ area_in mc m' b a.
Proof.
  intros Hh Hb (A1 & A2 & A3 & A4) Hm Hout. destruct (holds_write h L b m' Hh Hb Hm) as [Hh' Hk].
  { intros x Hx'. apply Hout. unfold in_block in Hx'. lia. }
  split_and!; [done|done|]. split_and!; [done..|]. rewrite <- A4. apply ld64_frame. intros i Hi. apply Hout. lia.
Qed.
End areas.
