(* ===== verification/Proc.v ===== *)
(** * Making processes: spawn, fork, clone, exec's last step, waitpid

    [kernel/proc/proc.c], over the extended-state helpers of [Xstate.v].  The
    kernel state is the composition of the scheduler, the address spaces, the kernel heap (whose memory holds the
    kernel stacks and the extended-state areas) and the pipes.  [kprintf], TLB
    flushes and the interrupt flag are left out: [fork] and [clone] run with
    interrupts off on their CPU. *)

From S2P Require Import Prelude Mem CString Block Pmm Frames Heap Pipe ProcTable Signal Sched Vmm VmmProofs VmmSpec Fault VmmWalk VmmDestroy VmmClone Elf ElfSpec ExecStack Exec HeapOwn Xstate.

(** ** The kernel state *)

Record kern (F : Type) := mkKern { k_sched : sched; k_vm : vm F; k_heap : heap; k_pipes : pipes }.
Arguments mkKern {F}.
Arguments k_sched {F}.
Arguments k_vm {F}.
Arguments k_heap {F}.
Arguments k_pipes {F}.

(** Sets every field that [fork], [clone] and [spawn] write in the new slot. *)
Definition set_xstate (p : proc_t) (v : Z) : proc_t :=
  mkProc (pid p) (state p) (rsp p) (rip p) (pml4_phys p) (pml4_virt p) (kstack p)
         (sleep_until p) (ProcTable.next p) (ring3 p) (parent_pid p) (exit_code p) (reaped p)
         (fork_regs p) (fork_rflags p) (name p) (sig_blocked p) (sig_pending p)
         (sig_handler p) (sig_mask p) (sig_flags p) (saved_rflags p) (exiting p) (saved_ret p)
         (canary p) (no_preempt p) (switching p) v (wait_chan p) (priority p) (tgid p) (tid p)
         (pml4_refcount p) (clear_tid_addr p).
(** First entry to user mode: instruction and stack pointer, saved registers,
    and the return slot at the top of the kernel stack. *)
Definition set_entry (p : proc_t) (regs : list Z) (rflags ip sp ksp ret : Z) : proc_t :=
  mkProc (pid p) (state p) ksp ip (pml4_phys p) (pml4_virt p) (kstack p)
         sp (ProcTable.next p) (ring3 p) (parent_pid p) (exit_code p) (reaped p)
         regs rflags (name p) (sig_blocked p) (sig_pending p)
         (sig_handler p) (sig_mask p) (sig_flags p) (saved_rflags p) (exiting p) ret
         (canary p) (no_preempt p) (switching p) (xstate p) (wait_chan p) (priority p) (tgid p) (tid p)
         (pml4_refcount p) (clear_tid_addr p).
(** Ring 3, parentage, priority, name and signal dispositions from [from]. *)
Definition set_identity (p from : proc_t) (ppid : Z) (rpd : bool) (tg ti : Z) : proc_t :=
  mkProc (pid p) (state p) (rsp p) (rip p) (pml4_phys p) (pml4_virt p) (kstack p)
         (sleep_until p) (ProcTable.next p) true ppid (exit_code p) rpd
         (fork_regs p) (fork_rflags p) (name from) (sig_blocked from) 0
         (sig_handler from) (sig_mask from) (sig_flags from) (saved_rflags p) (exiting p) (saved_ret p)
         (canary p) (no_preempt p) (switching p) (xstate p) (wait_chan p) (priority from) tg ti
         (pml4_refcount p) (clear_tid_addr p).
Definition set_clear_tid (p : proc_t) (v : Z) : proc_t :=
  mkProc (pid p) (state p) (rsp p) (rip p) (pml4_phys p) (pml4_virt p) (kstack p)
         (sleep_until p) (ProcTable.next p) (ring3 p) (parent_pid p) (exit_code p) (reaped p)
         (fork_regs p) (fork_rflags p) (name p) (sig_blocked p) (sig_pending p)
         (sig_handler p) (sig_mask p) (sig_flags p) (saved_rflags p) (exiting p) (saved_ret p)
         (canary p) (no_preempt p) (switching p) (xstate p) (wait_chan p) (priority p) (tgid p) (tid p)
         (pml4_refcount p) v.
Definition set_ring3 (p : proc_t) (v : bool) : proc_t :=
  mkProc (pid p) (state p) (rsp p) (rip p) (pml4_phys p) (pml4_virt p) (kstack p)
         (sleep_until p) (ProcTable.next p) v (parent_pid p) (exit_code p) (reaped p)
         (fork_regs p) (fork_rflags p) (name p) (sig_blocked p) (sig_pending p)
         (sig_handler p) (sig_mask p) (sig_flags p) (saved_rflags p) (exiting p) (saved_ret p)
         (canary p) (no_preempt p) (switching p) (xstate p) (wait_chan p) (priority p) (tgid p) (tid p)
         (pml4_refcount p) (clear_tid_addr p).
Definition set_name (p : proc_t) (v : list Z) : proc_t :=
  mkProc (pid p) (state p) (rsp p) (rip p) (pml4_phys p) (pml4_virt p) (kstack p)
         (sleep_until p) (ProcTable.next p) (ring3 p) (parent_pid p) (exit_code p) (reaped p)
         (fork_regs p) (fork_rflags p) v (sig_blocked p) (sig_pending p)
         (sig_handler p) (sig_mask p) (sig_flags p) (saved_rflags p) (exiting p) (saved_ret p)
         (canary p) (no_preempt p) (switching p) (xstate p) (wait_chan p) (priority p) (tgid p) (tid p)
         (pml4_refcount p) (clear_tid_addr p).

(** What [syscall_entry] left at the top of the kernel stack: word [-i] below
    [kstack + SCHED_STACK_SIZE]. *)
Record user_frame := mkUserFrame {
  uf_rflags : Z; uf_rip : Z; uf_rsp : Z;
  uf_rdi : Z; uf_rsi : Z; uf_rdx : Z; uf_r10 : Z; uf_r8 : Z; uf_r9 : Z;
}.
Definition kstack_word (m : mem) (ks i : Z) : Z := ld64 m (u64 (ks + SCHED_STACK_SIZE - 8 * i)).
Definition read_frame (m : mem) (ks : Z) : user_frame :=
  mkUserFrame (kstack_word m ks 3) (kstack_word m ks 2) (kstack_word m ks 1)
              (kstack_word m ks 10) (kstack_word m ks 9) (kstack_word m ks 8) (kstack_word m ks 7)
              (kstack_word m ks 6) (kstack_word m ks 5).
(** [fork_rbx .. fork_r15], [fork_rdi .. fork_r10] in the order of the struct. *)
Definition saved_regs (mc : machine) (uf : user_frame) (r15 : Z) : list Z :=
  user_gprs mc ++ [r15; uf_rdi uf; uf_rsi uf; uf_rdx uf; uf_r8 uf; uf_r9 uf; uf_r10 uf].

Section proc.
Context {F : Type} `{FA : FrameAlloc F}.
Implicit Types k : kern F.

Definition with_sched k (s : sched) : kern F := mkKern s (k_vm k) (k_heap k) (k_pipes k).
Definition with_vm k (v : vm F) : kern F := mkKern (k_sched k) v (k_heap k) (k_pipes k).
Definition with_heap k (h : heap) : kern F := mkKern (k_sched k) (k_vm k) h (k_pipes k).
Definition with_pipes k (g : pipes) : kern F := mkKern (k_sched k) (k_vm k) (k_heap k) g.
Definition with_hmem k (m : mem) : kern F := with_heap k (set_hmem (k_heap k) m).
Definition upd_proc k (p : Z) (f : proc_t → proc_t) : kern F := with_sched k (upd (k_sched k) p f).

Definition proc_ensure_xstate (mc : machine) k (p : Z) : kern F :=
  if xstate (proc (k_sched k) p) =? 0 then
    let '(xs, h) := cpu_xstate_alloc mc (k_heap k) in
    with_heap (upd_proc k p (λ x, set_xstate x xs)) h
  else k.

(** [proc_create] with its effects on the heap: the canary at the bottom of the
    kernel stack, and the extended-state area of the slot. *)
Definition k_proc_create (mc : machine) k (entry phys virt ks : Z) : Z * kern F :=
  match proc_create (k_sched k) entry phys virt ks 0 with
  | (i, s) =>
      if i =? NULLP then (NULLP, k)
      else
        let k := with_sched k s in
        let k := if negb (ks =? 0) then with_hmem k (st64 (hmem (k_heap k)) ks STACK_CANARY) else k in
        let k := proc_ensure_xstate mc k i in
        let k := with_hmem k (cpu_xstate_reset mc (hmem (k_heap k)) (xstate (proc (k_sched k) i))) in
        (i, k)
  end.

(** The return address slot at the top of the kernel stack, where the first
    [context_switch] to the process finds [ring3_trampoline]. *)
Definition push_trampoline (mc : machine) k (ks : Z) : Z * kern F :=
  let ksp := u64 (ks + SCHED_STACK_SIZE - 8) in
  (ksp, with_hmem k (st64 (hmem (k_heap k)) ksp (ring3_trampoline mc))).

(** ** Spawning the first process

    [None] inside is the [NULL] return; the outer [None] is lack of fuel in the
    ELF loader.  No error exit releases what was allocated before it. *)
Definition proc_spawn_ring3 (fuel : nat) (mc : machine) k (img : mem) (len : Z) : option (option Z * kern F) :=
  match elf_validate img len with
  | None => Some (None, k)
  | Some _ =>
      let '(phys, v) := vmm_create_pml4 (boot_cr3 mc) (k_vm k) in
      let k := with_vm k v in
      if phys =? 0 then Some (None, k)
      else
        let virt := p2v v phys in
        match elf_load fuel img len virt v with
        | None => None
        | Some (false, _, v) => Some (None, with_vm k v)
        | Some (true, entry, v) =>
            match alloc_user_stack v virt with
            | (false, v) => Some (None, with_vm k v)
            | (true, v) =>
                let k := with_vm k (proc_map_sigreturn_trampoline v virt) in
                let user_rsp := USER_STACK_TOP - 16 in
                let '(ks, h) := kmalloc (k_heap k) SCHED_STACK_SIZE in
                let k := with_heap k h in
                if ks =? 0 then Some (None, k)
                else
                  let '(p, k) := k_proc_create mc k entry phys virt ks in
                  if p =? NULLP then Some (None, k)
                  else
                    let k := upd_proc k p (λ x, set_ring3 x true) in
                    let '(ksp, k) := push_trampoline mc k ks in
                    let k := upd_proc k p (λ x, set_entry x (fork_regs x) (fork_rflags x) (rip x) user_rsp ksp
                                                  (ring3_trampoline mc)) in
                    Some (Some p, k)
            end
        end
  end.

(** ** Fork *)

(** The memory of the child: address space and kernel stack. *)
Definition fork_space (mc : machine) k (parent : Z) : option (Z * Z * Z) * kern F :=
  let '(phys, v) := vmm_clone_user (boot_cr3 mc) (k_vm k) (pml4_virt (proc (k_sched k) parent)) in
  let k := with_vm k v in
  if phys =? 0 then (None, k)
  else
    let virt := p2v v phys in
    let '(ks, h) := kmalloc (k_heap k) SCHED_STACK_SIZE in
    let k := with_heap k h in
    if ks =? 0 then (None, with_vm k (discard_space (k_vm k) virt phys))
    else (Some (phys, virt, ks), k).

(** The saved user [r15], which [syscall_entry] pushed on the user stack. *)
Definition fork_r15 k (virt user_rsp : Z) : Z :=
  let pa := vmm_virt_to_phys (k_vm k) virt user_rsp in
  if pa =? 0 then 0 else ld64 (vmem (k_vm k)) (p2v (k_vm k) pa).

(** Everything from the identity of the child to its place in the ready queue. *)
Definition fork_child (mc : machine) k (parent child virt ks : Z) : kern F :=
  let p := proc (k_sched k) parent in
  let k := upd_proc k child (λ x, set_identity x p (pid p) false (tgid x) (tid x)) in
  let uf := read_frame (hmem (k_heap k)) (kstack p) in
  let r15 := fork_r15 k virt (uf_rsp uf) in
  let user_rsp := u64 (uf_rsp uf + 8) in
  let '(ksp, k) := push_trampoline mc k ks in
  let k := upd_proc k child (λ x, set_entry x (saved_regs mc uf r15) (Z.lor (uf_rflags uf) 0x200) (uf_rip uf)
                                    user_rsp ksp (ring3_trampoline mc)) in
  let k := proc_ensure_xstate mc k child in
  let k := with_hmem k (cpu_xstate_save mc (hmem (k_heap k)) (xstate p)) in
  let k := with_hmem k (cpu_xstate_copy mc (hmem (k_heap k)) (xstate (proc (k_sched k) child)) (xstate p)) in
  let k := with_pipes k (pipe_fork_inherit (k_pipes k) (u32 (pid p))) in
  with_sched k (proc_make_ready (k_sched k) child).

Definition proc_fork (mc : machine) k (c : Z) : Z * kern F :=
  let parent := proc_current (k_sched k) c in
  if (parent =? NULLP) || negb (ring3 (proc (k_sched k) parent)) then (0, k)
  else
    match fork_space mc k parent with
    | (None, k) => (0, k)
    | (Some (phys, virt, ks), k) =>
        let '(child, k) := k_proc_create mc k 0 phys virt ks in
        if child =? NULLP then
          let k := with_heap k (kfree (k_heap k) ks) in
          (0, with_vm k (discard_space (k_vm k) virt phys))
        else
          let k := fork_child mc k parent child virt ks in
          (pid (proc (k_sched k) child), k)
    end.

(** ** Clone *)

Definition CLONE_VM : Z := 0x00000100.
Definition CLONE_THREAD : Z := 0x00010000.
Definition CLONE_SETTLS : Z := 0x00080000.
Definition CLONE_PARENT_SETTID : Z := 0x00100000.
Definition CLONE_CHILD_CLEARTID : Z := 0x00200000.
Definition CLONE_CHILD_SETTID : Z := 0x01000000.

(** The address space: shared with the parent, or a copy-on-write clone. *)
Definition clone_space (mc : machine) k (parent flags : Z) : option (Z * Z) * kern F :=
  let p := proc (k_sched k) parent in
  if has flags CLONE_VM then
    (Some (pml4_phys p, pml4_virt p),
     upd_proc k parent (λ x, set_pml4_refcount x (s32 (pml4_refcount x + 1))))
  else
    let '(phys, v) := vmm_clone_user (boot_cr3 mc) (k_vm k) (pml4_virt p) in
    let k := with_vm k v in
    if phys =? 0 then (None, k) else (Some (phys, p2v v phys), k).

(** The error exits after the address space. *)
Definition clone_undo k (parent flags phys virt : Z) : kern F :=
  if has flags CLONE_VM
  then upd_proc k parent (λ x, set_pml4_refcount x (s32 (pml4_refcount x - 1)))
  else with_vm k (discard_space (k_vm k) virt phys).

(** The identity of the new thread or process. *)
Definition clone_identity (p : proc_t) (flags : Z) (x : proc_t) : proc_t :=
  if has flags CLONE_THREAD
  then set_identity x p (parent_pid p) true (tgid p) (pid x)
  else set_identity x p (pid p) false (pid x) (pid x).

(** A 64-bit store of the kernel to a user address of the current address space,
    byte by byte through present writable entries; [None] is a page fault, which
    the handler does not resolve for kernel-mode accesses. *)
Fixpoint user_store (n : nat) (s : vm F) (pml4 a v : Z) : option (vm F) :=
  match n with
  | O => Some s
  | S n =>
      let e := pte s pml4 a in
      if has e VMM_P && has e VMM_RW
      then user_store n (Vmm.with_mem s (st8 (vmem s) (p2v s (Z.land e VMM_PHYS_MASK + Z.land a 4095)) (v mod 256)))
                      pml4 (a + 1) (v / 256)
      else None
  end.

(** [ptid], [ctid] and the TLS pointer, which is ignored. *)
Definition clone_tids k (parent child flags ptid ctid virt : Z) : option (kern F) :=
  let t := tid (proc (k_sched k) child) in
  match (if has flags CLONE_PARENT_SETTID && negb (ptid =? 0)
         then user_store 8 (k_vm k) (pml4_virt (proc (k_sched k) parent)) ptid t else Some (k_vm k)) with
  | None => None
  | Some v =>
      let v :=
        if has flags CLONE_CHILD_SETTID && negb (ctid =? 0) then
          let pa := vmm_virt_to_phys v virt ctid in
          if negb (pa =? 0) then Vmm.with_mem v (st64 (vmem v) (p2v v pa) t) else v
        else v in
      let k := with_vm k v in
      Some (if has flags CLONE_CHILD_CLEARTID then upd_proc k child (λ x, set_clear_tid x ctid) else k)
  end.

Definition clone_child (mc : machine) k (parent child flags child_stack virt ks : Z) : kern F :=
  let p := proc (k_sched k) parent in
  let k := upd_proc k child (clone_identity p flags) in
  let uf := read_frame (hmem (k_heap k)) (kstack p) in
  let user_rsp := if negb (child_stack =? 0) then child_stack else uf_rsp uf in
  let '(ksp, k) := push_trampoline mc k ks in
  let k := upd_proc k child (λ x, set_entry x (saved_regs mc uf 0) (Z.lor (uf_rflags uf) 0x200) (uf_rip uf)
                                    user_rsp ksp (ring3_trampoline mc)) in
  let k := proc_ensure_xstate mc k child in
  let k := with_hmem k (cpu_xstate_save mc (hmem (k_heap k)) (xstate p)) in
  with_hmem k (cpu_xstate_copy mc (hmem (k_heap k)) (xstate (proc (k_sched k) child)) (xstate p)).

(** [None] is a kernel-mode page fault on [ptid]. *)
Definition proc_clone (mc : machine) k (c flags child_stack ptid ctid : Z) : option (Z * kern F) :=
  let parent := proc_current (k_sched k) c in
  if (parent =? NULLP) || negb (ring3 (proc (k_sched k) parent)) then Some (0, k)
  else
    match clone_space mc k parent flags with
    | (None, k) => Some (0, k)
    | (Some (phys, virt), k) =>
        let '(ks, h) := kmalloc (k_heap k) SCHED_STACK_SIZE in
        let k := with_heap k h in
        if ks =? 0 then Some (0, clone_undo k parent flags phys virt)
        else
          let '(child, k) := k_proc_create mc k 0 phys virt ks in
          if child =? NULLP then
            Some (0, clone_undo (with_heap k (kfree (k_heap k) ks)) parent flags phys virt)
          else
            let k := clone_child mc k parent child flags child_stack virt ks in
            match clone_tids k parent child flags ptid ctid virt with
            | None => None
            | Some k =>
                let p := proc (k_sched k) parent in
                let k := with_pipes k (pipe_fork_inherit (k_pipes k) (u32 (pid p))) in
                let k := with_sched k (proc_make_ready (k_sched k) child) in
                Some (tid (proc (k_sched k) child), k)
            end
    end.

(** ** Exec: naming the process and switching to the new image *)

(** [slash]: the part of the path after its last '/'. *)
Fixpoint basename_from (best rest : list Z) : list Z :=
  match rest with
  | [] => best
  | c :: rest => basename_from (if c =? 47 then rest else best) rest
  end.
Definition basename (comm : list Z) : list Z := basename_from comm comm.

(** [p->name] after the copy: up to 15 characters, the terminator, and what was
    there before beyond it. *)
Definition NAME_SIZE : Z := 16.
Definition comm_name (old comm : list Z) : list Z :=
  let nm := take (Z.to_nat (NAME_SIZE - 1)) (basename comm) in
  nm ++ [0] ++ drop (length nm + 1) old.

(** The C string in a buffer. *)
Fixpoint upto_nul (l : list Z) : list Z :=
  match l with [] => [] | c :: l => if c =? 0 then [] else c :: upto_nul l end.

Definition COMPOSER : list Z := [99; 111; 109; 112; 111; 115; 101; 114].
Definition TERMINAL : list Z := [116; 101; 114; 109; 105; 110; 97; 108].
Definition ZSH : list Z := [122; 115; 104].
Definition exec_priority (nm : list Z) : Z :=
  if bool_decide (upto_nul nm = COMPOSER) || bool_decide (upto_nul nm = TERMINAL) || bool_decide (upto_nul nm = ZSH)
  then PRIO_HIGH else PRIO_NORMAL.

Definition exec_name (s : sched) (p : Z) (comm : list Z) : sched :=
  let s := upd s p (λ x, set_name x (comm_name (name x) comm)) in
  proc_set_priority s p (exec_priority (name (proc s p))).

(** The last part of [proc_exec], up to [enter_userspace]: the new image becomes
    current, the old address space and the file buffer are released. *)
Definition exec_commit (mc : machine) k (c p new_phys new_virt entry user_rsp elf_buf : Z) :
    machine * kern F :=
  let old := proc (k_sched k) p in
  let k := upd_proc k p (λ x, set_sleep_until (set_pml4_virt (set_pml4_phys x new_phys) new_virt) user_rsp) in
  let k := with_vm k (discard_space (k_vm k) (pml4_virt old) (pml4_phys old)) in
  let k := with_heap k (kfree (k_heap k) elf_buf) in
  let '(ksp, k) := push_trampoline mc k (kstack old) in
  let k := upd_proc k p (λ x, set_entry x (fork_regs x) 0 entry user_rsp ksp (ring3_trampoline mc)) in
  let k := proc_ensure_xstate mc k p in
  let k := with_hmem k (cpu_xstate_reset mc (hmem (k_heap k)) (xstate (proc (k_sched k) p))) in
  (cpu_xstate_restore mc (hmem (k_heap k)) (xstate (proc (k_sched k) p)),
   with_sched k (upd_cpu (k_sched k) c (λ x, set_rsp0 x (u64 (kstack old + SCHED_STACK_SIZE))))).

(** ** The first entry to user mode *)

(** [enter_userspace_fork] restores the saved registers, [enter_userspace] does
    not. *)
Inductive user_entry :=
  | EnterFork (cr3 ip sp : Z) (regs : list Z) (rflags : Z)
  | Enter (cr3 ip sp : Z).

(** [ring3_trampoline] on CPU [c], which [context_switch] has just switched to
    the process. *)
Definition trampoline_run (mc : machine) k (c : Z) : user_entry * machine * kern F :=
  let x := proc (k_sched k) (proc_current (k_sched k) c) in
  let k := with_sched k (upd_cpu (k_sched k) c (λ y, set_rsp0 y (u64 (kstack x + SCHED_STACK_SIZE)))) in
  let mc := cpu_xstate_restore mc (hmem (k_heap k)) (xstate x) in
  (if negb (fork_rflags x =? 0)
   then EnterFork (pml4_phys x) (rip x) (sleep_until x) (fork_regs x) (fork_rflags x)
   else Enter (pml4_phys x) (rip x) (sleep_until x), mc, k).
End proc.

(** ** Waiting for children *)

Definition XOS_WNOHANG : Z := 1.
Definition XOS_ECHILD : Z := 10.

Definition wait_status_encode (exit_code : Z) : Z := s32 (Z.shiftl (Z.land exit_code 0xff) 8).

(** One turn of the loop: return with the value and the status stored through
    [status], or yield and look again. *)
Inductive wait_turn := WaitRet (ret : Z) (status : option Z) | WaitYield.

Definition is_zombie (x : proc_t) : bool := is_state (state x) PROC_DEAD && negb (reaped x).

Definition reap (s : sched) (c : Z) : wait_turn * sched :=
  (WaitRet (s32 (pid (proc s c))) (Some (wait_status_encode (exit_code (proc s c)))),
   upd s c (λ x, set_reaped x true)).

(** The scan for any child: [inl] the zombie found, [inr] whether a live child
    was seen. *)
Fixpoint scan_children (s : sched) (ppid : Z) (i : Z) (n : nat) (has_live : bool) : Z + bool :=
  match n with
  | O => inr has_live
  | S n =>
      let c := proc_by_pid s i in
      if (c =? NULLP) || negb (parent_pid (proc s c) =? ppid) then scan_children s ppid (i + 1) n has_live
      else if is_zombie (proc s c) then inl c
      else scan_children s ppid (i + 1) n (has_live || negb (is_state (state (proc s c)) PROC_DEAD))
  end.

Definition waitpid_turn (s : sched) (parent wpid options : Z) : wait_turn * sched :=
  let ppid := pid (proc s parent) in
  let idle := if negb (Z.land options XOS_WNOHANG =? 0) then WaitRet 0 None else WaitYield in
  if 0 <? wpid then
    let c := proc_by_pid s wpid in
    if (c =? NULLP) || negb (parent_pid (proc s c) =? ppid) then (WaitRet (- XOS_ECHILD) None, s)
    else if is_zombie (proc s c) then reap s c
    else (idle, s)
  else
    match scan_children s ppid 1 (Z.to_nat (SCHED_MAX_PROCS - 1)) false with
    | inl c => reap s c
    | inr false => (WaitRet (- XOS_ECHILD) None, s)
    | inr true => (idle, s)
    end.

(** The loop; [env i] is what the rest of the system does during the [i]-th
    [sched_yield].  [None] is lack of fuel. *)
Fixpoint waitpid_loop (fuel : nat) (env : nat → sched → sched) (i : nat) (s : sched) (parent wpid options : Z) :
    option (Z * option Z * sched) :=
  match fuel with
  | O => None
  | S fuel =>
      match waitpid_turn s parent wpid options with
      | (WaitRet ret st, s) => Some (ret, st, s)
      | (WaitYield, s) => waitpid_loop fuel env (S i) (env i s) parent wpid options
      end
  end.

Definition proc_waitpid (fuel : nat) (env : nat → sched → sched) (s : sched) (c wpid options : Z) :
    option (Z * option Z * sched) :=
  let parent := proc_current s c in
  if parent =? NULLP then Some (- XOS_ECHILD, None, s) else waitpid_loop fuel env 0 s parent wpid options.
