(* ===== verification/ProcSpec.v ===== *)
(** * What process creation and waiting promise *)

From S2P Require Import Prelude Mem CString Block Pmm Frames Heap Pipe ProcTable Signal Sched Vmm VmmProofs VmmSpec Fault VmmWalk VmmDestroy VmmClone Elf ElfSpec ExecStack Exec Proc.

(** ** Waiting *)

Lemma status_encode code : wait_status_encode code = 256 * (code mod 256).
Proof.
  unfold wait_status_encode. change 255 with (Z.ones 8). rewrite Z.land_ones, Z.shiftl_mul_pow2 by lia.
  pose proof (Z.mod_pos_bound code 256 ltac:(lia)). change (2 ^ 8) with 256. rewrite s32_small; lia.
Qed.

(** A slot that [proc_by_pid] can find. *)
Definition visible (x : proc_t) (g : Z) : Prop := tgid x = g ∧ (state x ≠ PROC_DEAD ∨ reaped x = false).

Lemma by_pid_visible s g c :
  proc_by_pid s g = c → c ≠ NULLP → 0 ≤ c < SCHED_MAX_PROCS ∧ visible (proc s c) g.
Proof.
  unfold proc_by_pid. destruct (find_up _ _ _) as [i|] eqn:E; cbn; [|by intros <-].
  intros <- _. apply find_up_Some in E as (Hi & Hb & _). split; [unfold SCHED_MAX_PROCS in *; lia|].
  apply andb_true_iff in Hb as [Hg Hs]. split; [by apply Z.eqb_eq|].
  apply orb_true_iff in Hs as [Hs|Hs]; apply negb_true_iff in Hs; [left|by right].
  unfold is_state in Hs. by apply bool_decide_eq_false in Hs.
Qed.

(** Where the scan ends. *)
Lemma scan_spec s ppid i n live0 :
  match scan_children s ppid i n live0 with
  | inl c => ∃ g, i ≤ g < i + Z.of_nat n ∧ proc_by_pid s g = c ∧ c ≠ NULLP ∧
                  parent_pid (proc s c) = ppid ∧ is_zombie (proc s c) = true
  | inr live =>
      (∀ g, i ≤ g < i + Z.of_nat n → proc_by_pid s g ≠ NULLP → parent_pid (proc s (proc_by_pid s g)) = ppid →
         is_zombie (proc s (proc_by_pid s g)) = false) ∧
      (live = true ↔ live0 = true ∨ ∃ g, i ≤ g < i + Z.of_nat n ∧ proc_by_pid s g ≠ NULLP ∧
         parent_pid (proc s (proc_by_pid s g)) = ppid)
  end.
Proof.
  revert i live0. induction n as [|n IH]; intros i live0; cbn [scan_children].
  { split; [lia|]. split; [by left|]. intros [?|(g & ? & _)]; [done|lia]. }
  set (c := proc_by_pid s i).
  destruct (decide (c ≠ NULLP ∧ parent_pid (proc s c) = ppid)) as [[Hc Hp]|Hn].
  - rewrite (proj2 (Z.eqb_neq c NULLP)), (proj2 (Z.eqb_eq (parent_pid (proc s c)) ppid)) by done. cbn [orb negb].
    destruct (is_zombie (proc s c)) eqn:Hz.
    { exists i. split_and!; [lia|lia|done..]. }
    assert (Hlive : negb (is_state (state (proc s c)) PROC_DEAD) = true).
    { destruct (by_pid_visible s i c eq_refl Hc) as [_ [_ Hv]]. unfold is_zombie in Hz.
      destruct (is_state (state (proc s c)) PROC_DEAD) eqn:Hs; [|done]. unfold is_state in Hs. apply bool_decide_eq_true in Hs.
      destruct Hv as [?|Hv]; [done|]. rewrite Hv in Hz. done. }
    rewrite Hlive, orb_true_r. specialize (IH (i + 1) true).
    destruct (scan_children s ppid (i + 1) n true) as [c'|live].
    + destruct IH as (g & ? & ?). exists g. split; [lia|done].
    + destruct IH as [I1 I2]. split.
      * intros g Hg Hg1 Hg2. destruct (decide (g = i)) as [->|]; [done|]. apply I1; [lia|done..].
      * split; [intros _|intros _; apply I2; by left]. right. exists i. split_and!; [lia|lia|done..].
  - assert (Hskip : (c =? NULLP) || negb (parent_pid (proc s c) =? ppid) = true).
    { destruct (Z.eqb_spec c NULLP); [done|]. destruct (Z.eqb_spec (parent_pid (proc s c)) ppid); [|done]. tauto. }
    rewrite Hskip. specialize (IH (i + 1) live0). destruct (scan_children s ppid (i + 1) n live0) as [c'|live].
    + destruct IH as (g & ? & ?). exists g. split; [lia|done].
    + destruct IH as [I1 I2]. split.
      * intros g Hg Hg1 Hg2. destruct (decide (g = i)) as [->|]; [by destruct Hn|]. apply I1; [lia|done..].
      * rewrite I2. f_equiv. split; intros (g & Hg & H1 & H2); exists g; (split; [|done]); [lia|].
        destruct (decide (g = i)) as [->|]; [by destruct Hn|lia].
Qed.

(** The children [waitpid(wpid)] looks at: the process [wpid], or any. *)
Definition candidate (s : sched) (parent wpid c : Z) : Prop :=
  ∃ g, (if 0 <? wpid then g = wpid else 1 ≤ g < SCHED_MAX_PROCS) ∧
    proc_by_pid s g = c ∧ c ≠ NULLP ∧ parent_pid (proc s c) = pid (proc s parent).

(** A zombie among them. *)
Definition waiting_zombie (s : sched) (parent wpid c : Z) : Prop :=
  candidate s parent wpid c ∧ is_zombie (proc s c) = true.

(** What one look of [waitpid] does: [r] is the outcome and the state after. *)
Definition waited (s : sched) (parent wpid options : Z) (r : wait_turn * sched) : Prop :=
  match r with
  | (WaitRet ret (Some st), s') =>
      ∃ c, waiting_zombie s parent wpid c ∧ ret = s32 (pid (proc s c)) ∧ st = 256 * (exit_code (proc s c) mod 256) ∧
        s' = upd s c (λ x, set_reaped x true) ∧ slot_free (proc s' c) = true
  | (WaitRet ret None, s') =>
      s' = s ∧ (∀ c, ¬ waiting_zombie s parent wpid c) ∧
      if ret =? 0 then Z.land options XOS_WNOHANG ≠ 0 ∧ ∃ c, candidate s parent wpid c
      else ret = - XOS_ECHILD ∧ ∀ c, ¬ candidate s parent wpid c
  | (WaitYield, s') =>
      s' = s ∧ (∀ c, ¬ waiting_zombie s parent wpid c) ∧ Z.land options XOS_WNOHANG = 0 ∧ ∃ c, candidate s parent wpid c
  end.

Section waited.
Context (s : sched) (parent wpid options : Z).
Hypothesis Hl : zlen (procs s) = SCHED_MAX_PROCS.

Lemma reap_waited c : waiting_zombie s parent wpid c → waited s parent wpid options (reap s c).
Proof.
  intros [Hc Hz]. cbn. exists c. split_and!; [done|done|apply status_encode|done|].
  destruct Hc as (g & _ & Hg & Hn & _). destruct (by_pid_visible s g c Hg Hn) as [Hr _].
  unfold proc, upd. cbn [procs with_procs]. rewrite aget_aset, Z.eqb_refl by lia.
  unfold slot_free. cbn. unfold is_zombie in Hz. apply andb_true_iff in Hz as [Hz _]. by rewrite Hz.
Qed.

Lemma idle_waited c :
  candidate s parent wpid c → (∀ c, ¬ waiting_zombie s parent wpid c) →
  waited s parent wpid options (if negb (Z.land options XOS_WNOHANG =? 0) then WaitRet 0 None else WaitYield, s).
Proof.
  intros Hc Hz. assert (∃ c, candidate s parent wpid c) by by exists c.
  destruct (Z.eqb_spec (Z.land options XOS_WNOHANG) 0); cbn; done.
Qed.

Lemma echild_waited :
  (∀ c, ¬ candidate s parent wpid c) → waited s parent wpid options (WaitRet (- XOS_ECHILD) None, s).
Proof. intros Hc. split; [done|]. split; [|done]. intros c [H _]. by apply Hc in H. Qed.

(** Waiting for one process. *)
Lemma turn_waited_one : 0 < wpid → waited s parent wpid options (waitpid_turn s parent wpid options).
Proof.
  intros Hw. unfold waitpid_turn. set (c := proc_by_pid s wpid).
  assert (Hcand : ∀ c', candidate s parent wpid c' ↔ c' = c ∧ c ≠ NULLP ∧ parent_pid (proc s c) = pid (proc s parent)).
  { intros c'. unfold candidate. destruct (Z.ltb_spec 0 wpid); [|lia]. split.
    - intros (g & -> & <- & ? & ?). done.
    - intros (-> & ? & ?). by exists wpid. }
  destruct (Z.ltb_spec 0 wpid); [|lia].
  destruct (Z.eqb_spec c NULLP) as [Hc|Hc]; [apply echild_waited; intros c' H'; by apply Hcand in H' as (_ & ? & _)|].
  destruct (Z.eqb_spec (parent_pid (proc s c)) (pid (proc s parent))) as [Hp|Hp]; cbn [orb negb];
    [|apply echild_waited; intros c' H'; by apply Hcand in H' as (_ & _ & ?)].
  assert (Hcc : candidate s parent wpid c) by by apply Hcand.
  destruct (is_zombie (proc s c)) eqn:Hz; [by apply reap_waited|]. apply (idle_waited c); [done|].
  intros c' [Hc' Hz']. apply Hcand in Hc' as [-> _]. congruence.
Qed.

(** Waiting for any child. *)
Lemma turn_waited_any : wpid ≤ 0 → waited s parent wpid options (waitpid_turn s parent wpid options).
Proof.
  intros Hw. unfold waitpid_turn. destruct (Z.ltb_spec 0 wpid) as [|_]; [lia|].
  pose proof (scan_spec s (pid (proc s parent)) 1 (Z.to_nat (SCHED_MAX_PROCS - 1)) false) as Hs.
  change (1 + Z.of_nat (Z.to_nat (SCHED_MAX_PROCS - 1))) with SCHED_MAX_PROCS in Hs.
  assert (Hcand : ∀ c, candidate s parent wpid c ↔ ∃ g, 1 ≤ g < SCHED_MAX_PROCS ∧ proc_by_pid s g = c ∧ c ≠ NULLP ∧
            parent_pid (proc s c) = pid (proc s parent)).
  { intros c. unfold candidate. destruct (Z.ltb_spec 0 wpid); [lia|done]. }
  destruct (scan_children _ _ _ _ _) as [c|[]].
  - destruct Hs as (g & Hg & Hc & Hn & Hp & Hz). apply reap_waited. split; [|done]. apply Hcand. by exists g.
  - destruct Hs as [Hz [Hlive _]]. destruct (Hlive eq_refl) as [?|(g & Hg & Hn & Hp)]; [done|].
    apply (idle_waited (proc_by_pid s g)); [apply Hcand; by exists g|].
    intros c [Hc Hzc]. apply Hcand in Hc as (g' & Hg' & <- & Hn' & Hp'). rewrite (Hz g') in Hzc by done. done.
  - destruct Hs as [_ [_ Hlive]]. apply echild_waited. intros c Hc. apply Hcand in Hc as (g & Hg & <- & Hn & Hp).
    assert (false = true) by (apply Hlive; right; by exists g). done.
Qed.

Lemma turn_waited : waited s parent wpid options (waitpid_turn s parent wpid options).
Proof. destruct (Z.lt_ge_cases 0 wpid); [by apply turn_waited_one|by apply turn_waited_any]. Qed.
End waited.

(** C34: one look of [waitpid].  If some child it looks at is a zombie, a zombie
    child is collected: its pid is returned, the status is the low byte of its
    exit code in the second byte (as the C library's macros expect), and the
    only change is that its slot becomes free for reuse.  Otherwise nothing
    changes: with no child at all the result is [-ECHILD], and with live
    children it is 0 under [WNOHANG] and another round otherwise. *)
Theorem waitpid_collects s parent wpid options :
  zlen (procs s) = SCHED_MAX_PROCS → waited s parent wpid options (waitpid_turn s parent wpid options).
Proof. apply turn_waited. Qed.

(** The state of the system at the [n]-th look. *)
Fixpoint looked (env : nat → sched → sched) (s : sched) (n : nat) : sched :=
  match n with O => s | S n => env n (looked env s n) end.

Lemma turn_yield_same s parent wpid options s' : waitpid_turn s parent wpid options = (WaitYield, s') → s' = s.
Proof. unfold waitpid_turn, reap. repeat case_match; intros ?; simplify_eq; done. Qed.

Lemma loop_returns env s parent wpid options m n i :
  (∀ j, (i ≤ j < i + m)%nat → (waitpid_turn (looked env s j) parent wpid options).1 = WaitYield) →
  (m < n)%nat → ∀ ret st s',
  waitpid_turn (looked env s (i + m)) parent wpid options = (WaitRet ret st, s') →
  waitpid_loop n env i (looked env s i) parent wpid options = Some (ret, st, s').
Proof.
  revert n i. induction m as [|m IH]; intros [|n] i Hy Hn ret st s' Hr; try lia; cbn [waitpid_loop].
  { rewrite Nat.add_0_r in Hr. by rewrite Hr. }
  specialize (Hy i ltac:(lia)) as Hyi. destruct (waitpid_turn (looked env s i) parent wpid options) as [o s1] eqn:E.
  cbn in Hyi. subst o. apply turn_yield_same in E as ->. apply (IH n (S i)); [intros j Hj; apply Hy; lia|lia|].
  by replace (S i + m)%nat with (i + S m)%nat by lia.
Qed.

(** The first index that passes a test. *)
Lemma least_true (f : nat → bool) n :
  f n = true → ∃ m, (m ≤ n)%nat ∧ f m = true ∧ ∀ j, (j < m)%nat → f j = false.
Proof.
  revert f. induction n as [|n IH]; intros f Hn; [by exists 0%nat; split_and!; [lia|done|lia]|].
  destruct (f 0%nat) eqn:E0; [exists 0%nat; split_and!; [lia|done|lia]|].
  destruct (IH (λ j, f (S j)) Hn) as (m & Hm & Hf & Hj). exists (S m). split_and!; [lia|done|].
  intros [|j] ?; [done|apply Hj; lia].
Qed.

(** A look that finds a zombie, or no child at all, is the last. *)
Definition settled (s : sched) (parent wpid : Z) : Prop :=
  (∃ c, waiting_zombie s parent wpid c) ∨ ∀ c, ¬ candidate s parent wpid c.

Definition turn_returns (s : sched) (parent wpid options : Z) : bool :=
  match (waitpid_turn s parent wpid options).1 with WaitRet _ _ => true | WaitYield => false end.

Lemma settled_returns s parent wpid options :
  zlen (procs s) = SCHED_MAX_PROCS → settled s parent wpid → turn_returns s parent wpid options = true.
Proof.
  intros Hl Hs. pose proof (turn_waited s parent wpid options Hl) as Hw. unfold turn_returns.
  destruct (waitpid_turn s parent wpid options) as [[ret st|] s']; [done|]. exfalso.
  destruct Hw as (_ & Hz & _ & c & Hc). destruct Hs as [[z Hs]|Hs]; [by apply Hz in Hs|by apply Hs in Hc].
Qed.

(** [waitpid] returns, and its answer is sound.  Whatever the rest of the
    system does while the parent yields, if at some look a child waited for is a
    zombie or there is none left, then for every larger fuel the loop returns; it
    returns the outcome of a single look, the first that does not yield, at or
    before that one. *)
Theorem waitpid_returns env s c wpid options n fuel :
  let parent := proc_current s c in
  parent ≠ NULLP → zlen (procs (looked env s n)) = SCHED_MAX_PROCS →
  settled (looked env s n) parent wpid → (n < fuel)%nat →
  ∃ m ret st s', (m ≤ n)%nat ∧
    (∀ j, (j < m)%nat → waitpid_turn (looked env s j) parent wpid options = (WaitYield, looked env s j)) ∧
    waitpid_turn (looked env s m) parent wpid options = (WaitRet ret st, s') ∧
    proc_waitpid fuel env s c wpid options = Some (ret, st, s').
Proof.
  intros parent Hp Hl Hs Hn.
  destruct (least_true (λ j, turn_returns (looked env s j) parent wpid options) n) as (m & Hm & Hr & Hy);
    [by apply settled_returns|].
  assert (Hy' : ∀ j, (j < m)%nat → waitpid_turn (looked env s j) parent wpid options = (WaitYield, looked env s j)).
  { intros j Hj. specialize (Hy j Hj). unfold turn_returns in Hy.
    destruct (waitpid_turn (looked env s j) parent wpid options) as [[|] s1] eqn:E; [done|].
    apply turn_yield_same in E. by subst. }
  unfold turn_returns in Hr. destruct (waitpid_turn (looked env s m) parent wpid options) as [[ret st|] s'] eqn:E; [|done].
  exists m, ret, st, s'. split_and!; [done|done|done|]. unfold proc_waitpid. fold parent.
  destruct (Z.eqb_spec parent NULLP); [done|].
  apply (loop_returns env s parent wpid options m fuel 0); [|lia|done]. intros j Hj. by rewrite Hy' by lia.
Qed.

(** A collected child is gone.  With no other visible process of the same
    process id, a second wait for it answers [-ECHILD] at once. *)
Theorem waitpid_once s parent wpid options ret st s' options' :
  zlen (procs s) = SCHED_MAX_PROCS → 0 < wpid →
  waitpid_turn s parent wpid options = (WaitRet ret (Some st), s') →
  (∀ i, 0 ≤ i < SCHED_MAX_PROCS → i ≠ proc_by_pid s wpid → tgid (proc s i) ≠ wpid) →
  waitpid_turn s' parent wpid options' = (WaitRet (- XOS_ECHILD) None, s').
Proof.
  intros Hl Hw Ht Hu. pose proof (turn_waited s parent wpid options Hl) as Hd. rewrite Ht in Hd.
  destruct Hd as (c & [(g & Hg & Hc & Hn & _) Hz] & _ & _ & -> & Hf). destruct (Z.ltb_spec 0 wpid); [|lia]. subst g.
  destruct (by_pid_visible s wpid c Hc Hn) as [Hr Hv].
  assert (Hnone : proc_by_pid (upd s c (λ x, set_reaped x true)) wpid = NULLP).
  { unfold proc_by_pid. destruct (find_up _ _ _) as [i|] eqn:E; [|done]. exfalso.
    apply find_up_Some in E as (Hi & Hb & _). apply andb_true_iff in Hb as [Hb1 Hb2]. unfold SCHED_MAX_PROCS in *.
    assert (Ei : i = c).
    { destruct (decide (i = c)) as [|Hne]; [done|]. exfalso. apply (Hu i); [lia|by rewrite Hc|].
      apply Z.eqb_eq in Hb1. unfold proc, upd in Hb1. cbn [procs with_procs] in Hb1. rewrite aget_aset in Hb1 by lia.
      destruct (Z.eqb_spec c i); [done|]. done. }
    subst i. apply slot_free_true in Hf as [Hf1 Hf2]. unfold is_state in Hb2. rewrite Hf1, Hf2 in Hb2. done. }
  unfold waitpid_turn. destruct (Z.ltb_spec 0 wpid); [|lia]. rewrite Hnone. done.
Qed.

(** ** A child that is killed while its parent waits *)
Module WaitDemo.

Definition born : sched :=
  let s := (proc_create Demo.s_run 0x400000 0x17000 0x18000 0x16000 0x14200).2 in
  proc_make_ready (upd s 3 (λ x, set_identity x (proc s 2) 2 false 3 3)) 3.
Definition env (_ : nat) (s : sched) : sched := (proc_kill s 0 3 0x200 true).2.
Strategy 100 [born].

Lemma by_pid : proc_by_pid born 3 = 3 ∧ proc_by_pid (looked env born 1) 3 = 3.
Proof. split; vm_compute; reflexivity. Qed.
Lemma parent_of : parent_pid (proc (looked env born 1) 3) = pid (proc (looked env born 1) 2).
Proof. vm_compute. reflexivity. Qed.
Lemma killed : is_zombie (proc (looked env born 1) 3) = true ∧ zlen (procs (looked env born 1)) = SCHED_MAX_PROCS.
Proof. split; vm_compute; reflexivity. Qed.

Lemma zombie : waiting_zombie (looked env born 1) 2 3 3.
Proof.
  split; [|exact (proj1 killed)]. exists 3. split; [reflexivity|].
  split; [exact (proj2 by_pid)|]. split; [discriminate|exact parent_of].
Qed.
End WaitDemo.

Lemma waitpid_collects_witness :
  waited (looked WaitDemo.env WaitDemo.born 1) 2 3 0 (waitpid_turn (looked WaitDemo.env WaitDemo.born 1) 2 3 0) ∧
  (waitpid_turn (looked WaitDemo.env WaitDemo.born 1) 2 3 0).1 = WaitRet 3 (Some 0).
Proof.
  split; [exact (waitpid_collects (looked WaitDemo.env WaitDemo.born 1) 2 3 0 (proj2 WaitDemo.killed))|].
  vm_compute. reflexivity.
Defined.

Lemma waitpid_returns_witness :
  ∃ ret st s', proc_waitpid 5 WaitDemo.env WaitDemo.born 1 3 0 = Some (ret, st, s').
Proof.
  assert (E : proc_current WaitDemo.born 1 = 2) by (vm_compute; reflexivity).
  destruct (waitpid_returns WaitDemo.env WaitDemo.born 1 3 0 1 5) as (m & ret & st & s' & _ & _ & _ & H).
  - rewrite E. discriminate.
  - exact (proj2 WaitDemo.killed).
  - left. exists 3. rewrite E. exact WaitDemo.zombie.
  - lia.
  - exists ret, st, s'. exact H.
Defined.
