(* ===== verification/ForkSpec.v ===== *)
(** * What [fork] makes

    The composition of address-space cloning, the kernel heap, the process table
    and the extended CPU state that [proc_fork] performs: on success the child
    resumes exactly where its parent made the system call. *)

From S2P Require Import Prelude Mem CString Block Pmm Frames Heap HeapOwn Xstate Pipe ProcTable Signal Sched Vmm VmmProofs VmmSpec VmmWalk VmmDestroy VmmClone Proc.

(** ** One slot of the table *)

Definition put (s : sched) (i : Z) (y : proc_t) : sched := upd s i (λ _, y).

Lemma proc_put s i y j : 0 ≤ i < zlen (procs s) → 0 ≤ j → proc (put s i y) j = if i =? j then y else proc s j.
Proof. apply proc_upd. Qed.
Lemma upd_put s i y f : 0 ≤ i < zlen (procs s) → upd (put s i y) i f = put s i (f y).
Proof.
  intros Hi. unfold upd at 1. rewrite proc_put, Z.eqb_refl by lia. unfold put, upd, with_procs. cbn. by rewrite aset_aset.
Qed.
Lemma put_self s i : 0 ≤ i < zlen (procs s) → put s i (proc s i) = s.
Proof. intros Hi. unfold put, upd, with_procs, proc. rewrite aset_id by done. by destruct s. Qed.
Lemma zlen_put s i y : zlen (procs (put s i y)) = zlen (procs s).
Proof. cbn. apply zlen_aset. Qed.

(** The slot [i] of the child of [p]; [x] is what the slot held before, [uf] the
    parent's system-call frame. *)
Definition child_image (mc : machine) (p x : proc_t) (i ks phys virt xs : Z) (uf : user_frame) (r15 : Z)
    (st : proc_state_t) (nxt : Z) : proc_t :=
  mkProc i st (u64 (ks + SCHED_STACK_SIZE - 8)) (uf_rip uf) phys virt ks (u64 (uf_rsp uf + 8)) nxt true (pid p) 0 false
         (saved_regs mc uf r15) (Z.lor (uf_rflags uf) 0x200) (name p) (sig_blocked p) 0 (sig_handler p) (sig_mask p)
         (sig_flags p) 0 0 (ring3_trampoline mc) PROC_CANARY 0 0 xs (wait_chan x) (priority p) i i 1 0.

Section fork.
Context {F : Type} `{FA : FrameAlloc F} `{FL : !FrameAllocLaws F}.
Context (mc : machine).
Hypothesis Hx : xsave_ok mc.
Hypothesis Hfpu : mem_bytes (live_fpu mc).
Implicit Types k : kern F.

(** A system-call frame on a kernel stack that is not written. *)
Lemma frame_kept W L h h' bk :
  holds h L → unchanged W L h h' → bk ∈ L → ¬ (bk ∈ W) → SCHED_STACK_SIZE ≤ bk.2 →
  read_frame (hmem h') bk.1 = read_frame (hmem h) bk.1.
Proof.
  intros Hh Hk B1 B2 B3. destruct (holds_range _ _ bk Hh B1) as (R1 & _ & R3 & _). unfold SCHED_STACK_SIZE in B3.
  assert (E : ∀ n, 1 ≤ n ≤ 10 → kstack_word (hmem h') bk.1 n = kstack_word (hmem h) bk.1 n).
  { intros n Hn. unfold kstack_word, SCHED_STACK_SIZE. rewrite u64_small by lia. apply ld64_frame.
    intros z Hz. apply (Hk bk B1 B2). unfold in_block. lia. }
  unfold read_frame. by rewrite !E by lia.
Qed.

(** ** Building the child

    [k0] is the state in which the child's kernel stack, the block [bks], has
    just been allocated; [L] are the blocks held then.  The slot [i] may still
    have the save area of an earlier process, in the block [b0].  Up to the end
    of [fork] only the blocks [W] are written. *)
Section build.
Context k0 (L : list block) (i : Z) (bks b0 : block) (W : list block).
Hypothesis Hi : 0 ≤ i < zlen (procs (k_sched k0)).
Hypothesis HbW : bks ∈ W ∧ b0 ∈ W.
Hypothesis Hbks : bks ∈ L.
Hypothesis Hb0 : xstate (proc (k_sched k0) i) ≠ 0 → b0 ≠ bks.

(** The slot holds [y], whose save area is in the block [b]. *)
Record mid (y : proc_t) (b : block) (Lc : list block) k : Prop := {
  md_sched : k_sched k = put (k_sched k0) i y;
  md_vm : k_vm k = k_vm k0;
  md_pipes : k_pipes k = k_pipes k0;
  md_hold : holds (k_heap k) Lc;
  md_sub : L ⊆ Lc;
  md_keep : unchanged W L (k_heap k0) (k_heap k);
  md_area : xstate y ≠ 0 → b ∈ Lc ∧ area_in mc (hmem (k_heap k)) b (xstate y);
  md_own : xstate y ≠ 0 → if xstate (proc (k_sched k0) i) =? 0 then ¬ (b ∈ L) else b = b0;
}.

Lemma md_apart y b Lc k : mid y b Lc k → xstate y ≠ 0 → b ≠ bks.
Proof.
  intros M Hy. pose proof (md_own _ _ _ _ M Hy) as Ho. destruct (Z.eqb_spec (xstate (proc (k_sched k0) i)) 0) as [|Hn].
  - intros ->. by apply Ho.
  - subst b. by apply Hb0.
Qed.

Lemma mid_upd y b Lc k f : mid y b Lc k → xstate (f y) = xstate y → mid (f y) b Lc (upd_proc k i f).
Proof.
  intros [M1 M2 M3 M4 M5 M6 M7 M8] Ef. constructor; cbn; try done; [|by rewrite Ef..].
  rewrite M1. by apply upd_put.
Qed.

(** A write to a block that is not the save area's. *)
Lemma mid_write y b Lc k c m' :
  mid y b Lc k → c ∈ Lc → c ∈ W → (xstate y ≠ 0 → c ≠ b) → mem_bytes m' →
  (∀ x, ¬ in_block c x → m' x = hmem (k_heap k) x) →
  mid y b Lc (with_hmem k m') ∧ unchanged [c] Lc (k_heap k) (set_hmem (k_heap k) m').
Proof.
  intros [M1 M2 M3 M4 M5 M6 M7 M8] Hc HcW Hcb Hm Hout.
  destruct (holds_write (k_heap k) Lc c m' M4 Hc Hm Hout) as [Hh Hk]. split; [|done].
  constructor; cbn [with_hmem with_heap k_sched k_vm k_pipes k_heap]; try done.
  - eapply unchanged_trans; [exact M6|exact Hk|done|]. intros z ->%list_elem_of_singleton. done.
  - intros Hy. destruct (M7 Hy) as [Hb (A1 & A2 & A3 & A4)]. split; [done|]. split_and!; [done..|].
    rewrite <- A4. destruct Hx. apply ld64_frame. intros z Hz. cbn. apply (Hk b Hb); [|unfold in_block; lia].
    intros ->%list_elem_of_singleton. by apply Hcb.
Qed.

(** A write to the save area. *)
Lemma mid_write_area y b Lc k m' :
  mid y b Lc k → b ∈ W ∨ ¬ (b ∈ L) → xstate y ≠ 0 → mem_bytes m' →
  (∀ x, x < xstate y ∨ xstate y + xsave_size mc ≤ x → m' x = hmem (k_heap k) x) →
  mid y b Lc (with_hmem k m') ∧ unchanged [b] Lc (k_heap k) (set_hmem (k_heap k) m').
Proof.
  intros [M1 M2 M3 M4 M5 M6 M7 M8] HbW' Hy Hm Hout. destruct (M7 Hy) as [Hb Ha].
  destruct (area_write mc (k_heap k) Lc b (xstate y) m' M4 Hb Ha Hm Hout) as (Hh & Hk & Ha'). split; [|done].
  constructor; cbn [with_hmem with_heap k_sched k_vm k_pipes k_heap]; try done.
  intros c Hc HcW x Hin. cbn. rewrite (Hk c); [by apply (M6 c)|by apply M5| |done].
  intros ->%list_elem_of_singleton. by destruct HbW'.
Qed.

Lemma own_writable y b Lc k : mid y b Lc k → xstate y ≠ 0 → b ∈ W ∨ ¬ (b ∈ L).
Proof.
  intros M Hy. pose proof (md_own _ _ _ _ M Hy) as Ho. destruct (xstate (proc (k_sched k0) i) =? 0); [by right|].
  subst b. left. apply HbW.
Qed.

(** [proc_ensure_xstate]: a slot without an area gets one if memory allows. *)
Lemma mid_ensure y b Lc k :
  mid y b Lc k → (xstate (proc (k_sched k0) i) ≠ 0 → xstate y ≠ 0) →
  ∃ xs b' Lc', mid (set_xstate y xs) b' Lc' (proc_ensure_xstate mc k i) ∧ Lc ⊆ Lc' ∧
    unchanged [] Lc (k_heap k) (k_heap (proc_ensure_xstate mc k i)) ∧
    (xstate y ≠ 0 → xs = xstate y).
Proof.
  intros M Hold. pose proof M as [M1 M2 M3 M4 M5 M6 M7 M8]. unfold proc_ensure_xstate.
  rewrite M1, proc_put, Z.eqb_refl by lia. destruct (Z.eqb_spec (xstate y) 0) as [Hz|Hz].
  2:{ exists (xstate y), b, Lc. split; [by replace (set_xstate y (xstate y)) with y by (by destruct y)|]. done. }
  pose proof (xstate_alloc mc Hx (k_heap k) Lc M4) as Ha. destruct (cpu_xstate_alloc mc (k_heap k)) as [xs h'].
  assert (Hs : k_sched (upd_proc k i (λ x, set_xstate x xs)) = put (k_sched k0) i (set_xstate y xs)).
  { cbn. rewrite M1. by apply upd_put. }
  destruct Ha as [[-> ->]|(Hnz & b' & Hn & Hh & Hk & Har & _)].
  - exists 0, b, Lc. split; [|split; [done|split; [done|tauto]]]. constructor; try done.
  - exists xs, b', (b' :: Lc). split; [|split; [by apply list_subseteq_cons|split; [done|tauto]]].
    constructor; cbn [with_heap k_heap k_vm k_pipes]; try done.
    + intros z Hz'. apply list_elem_of_further. by apply M5.
    + eapply (unchanged_trans _ []); [exact M6|exact Hk|done|]. apply list_subseteq_nil.
    + intros _. split; [apply list_elem_of_here|done].
    + intros _. destruct (Z.eqb_spec (xstate (proc (k_sched k0) i)) 0) as [|Hne]; [|by apply Hold in Hne].
      intros Hb'. by apply Hn, M5.
Qed.
(** Words of the child's kernel stack. *)
Definition stack_word k (off : Z) : Z := ld64 (hmem (k_heap k)) (bks.1 + off).

Lemma stack_word_kept C Lc k k' off :
  unchanged C Lc (k_heap k) (k_heap k') → bks ∈ Lc → bks ∉ C → 0 ≤ off → off + 8 ≤ bks.2 →
  stack_word k' off = stack_word k off.
Proof. intros Hk Hin Hn H0 H1. apply ld64_frame. intros z Hz. apply (Hk bks Hin Hn). unfold in_block. lia. Qed.

(** Storing such a word. *)
Lemma mid_stack y b Lc k a v :
  mid y b Lc k → bks.1 ≤ a → a + 8 ≤ bks.1 + bks.2 → 0 ≤ v < 2 ^ 64 →
  let k' := with_hmem k (st64 (hmem (k_heap k)) a v) in
  mid y b Lc k' ∧ stack_word k' (a - bks.1) = v ∧
  ∀ off, 0 ≤ off → bks.1 + off + 8 ≤ a ∨ a + 8 ≤ bks.1 + off → stack_word k' off = stack_word k off.
Proof.
  intros M Ha1 Ha2 Hv k'. split_and!.
  - apply mid_write with (c := bks); [done|by eapply md_sub|apply HbW| |by eapply st64_bytes, holds_bytes, md_hold|].
    + intros Hy E. by eapply md_apart.
    + intros x Hout. apply st64_outside. unfold in_block in Hout. lia.
  - unfold stack_word. replace (bks.1 + (a - bks.1)) with a by lia. by apply ld64_st64_eq.
  - intros off H0 Hor. by apply ld64_st64_ne; lia.
Qed.

(** [proc_create]: the slot is the first free one, its fields are fresh and the
    canary is in place. *)
Hypothesis Hstack : SCHED_STACK_SIZE ≤ bks.2.
Hypothesis Hkeep0 : xstate (proc (k_sched k0) i) ≠ 0 →
  b0 ∈ L ∧ area_in mc (hmem (k_heap k0)) b0 (xstate (proc (k_sched k0) i)).
Hypothesis Hheld : holds (k_heap k0) L.

Lemma mid_reset y b Lc k :
  mid y b Lc k →
  let k' := with_hmem k (cpu_xstate_reset mc (hmem (k_heap k)) (xstate y)) in
  mid y b Lc k' ∧ ∀ off, 0 ≤ off → off + 8 ≤ bks.2 → stack_word k' off = stack_word k off.
Proof.
  intros M k'. destruct (decide (xstate y = 0)) as [E|Hy].
  { subst k'. rewrite E. split; [|done]. destruct M as [M1 M2 M3 M4 M5 M6 M7 M8]. constructor; try done.
    cbn. by destruct (k_heap k). }
  destruct (mid_write_area y b Lc k (cpu_xstate_reset mc (hmem (k_heap k)) (xstate y)) M) as [M' Hk]; [by eapply own_writable|done| | |].
  { by eapply reset_bytes, holds_bytes, md_hold. }
  { intros x Hout. by apply reset_out. }
  split; [done|]. intros off H0 H1. apply (stack_word_kept [b] Lc k k' off Hk); [by eapply md_sub| |done|done].
  intros E%list_elem_of_singleton. by eapply md_apart.
Qed.

Lemma mid_create phys virt :
  proc_create (k_sched k0) 0 phys virt bks.1 0 = (i, put (k_sched k0) i (fresh_proc (proc (k_sched k0) i) i 0 phys virt bks.1 0)) →
  ∃ xs b Lc k', k_proc_create mc k0 0 phys virt bks.1 = (i, k') ∧
    mid (fresh_proc (proc (k_sched k0) i) i 0 phys virt bks.1 xs) b Lc k' ∧ stack_word k' 0 = STACK_CANARY ∧
    (xstate (proc (k_sched k0) i) ≠ 0 → xs = xstate (proc (k_sched k0) i)).
Proof.
  intros Hc. unfold k_proc_create. rewrite Hc. destruct (Z.eqb_spec i NULLP); [unfold NULLP in *; lia|].
  destruct (holds_range _ _ bks Hheld Hbks) as (Hp & _). destruct (Z.eqb_spec bks.1 0); [lia|]. cbn [negb].
  set (y0 := fresh_proc _ _ _ _ _ _ _). set (k1 := with_sched k0 _).
  assert (M1 : mid y0 b0 L k1).
  { constructor; try done.
    - intros Hy. replace (xstate y0) with (xstate (proc (k_sched k0) i)) in * by (unfold y0; cbn; by destruct (Z.eqb_spec (xstate (proc (k_sched k0) i)) 0)).
      by apply Hkeep0.
    - unfold y0. cbn. by destruct (Z.eqb_spec (xstate (proc (k_sched k0) i)) 0). }
  destruct (mid_stack y0 b0 L k1 bks.1 STACK_CANARY M1) as (M2 & Hw & _);
    [lia|unfold SCHED_STACK_SIZE in *; lia|unfold STACK_CANARY; lia|]. set (k2 := with_hmem k1 _) in *.
  rewrite Z.sub_diag in Hw.
  destruct (mid_ensure y0 b0 L k2 M2) as (xs & b & Lc & M3 & Hsub & Hk3 & Hxs).
  { intros Hn. unfold y0. cbn. by destruct (Z.eqb_spec (xstate (proc (k_sched k0) i)) 0). }
  set (k3 := proc_ensure_xstate mc k2 i) in *.
  pose proof (mid_reset _ _ _ _ M3) as [M4 Hw4]. cbn [set_xstate xstate] in M4, Hw4.
  assert (E3 : xstate (proc (k_sched k3) i) = xs).
  { rewrite (md_sched _ _ _ _ M3), proc_put, Z.eqb_refl by lia. done. }
  rewrite E3. assert (Exs : xstate (proc (k_sched k0) i) ≠ 0 → xs = xstate (proc (k_sched k0) i)).
  { intros Hn. rewrite Hxs; unfold y0; cbn; by destruct (Z.eqb_spec (xstate (proc (k_sched k0) i)) 0). }
  eexists xs, b, Lc, _. split; [done|]. split; [|split; [|done]].
  - replace (fresh_proc _ _ _ _ _ _ xs) with (set_xstate y0 xs); [done|]. unfold y0, fresh_proc, set_xstate. cbn.
    destruct (Z.eqb_spec (xstate (proc (k_sched k0) i)) 0) as [|Hn]; [done|]. by rewrite Exs.
  - unfold SCHED_STACK_SIZE in Hstack. rewrite Hw4 by lia. rewrite <- Hw. apply (stack_word_kept [] L k2 k3 0 Hk3 Hbks); [apply not_elem_of_nil|lia..].
Qed.
(** ** The child's slot *)

Context (parent : Z) (bk bp : block).
#[local] Abbreviation p := (proc (k_sched k0) parent).
Hypothesis Hparent : 0 ≤ parent < zlen (procs (k_sched k0)) ∧ parent ≠ i.
Hypothesis Hbk : bk ∈ L ∧ ¬ (bk ∈ W) ∧ bk.1 = kstack p ∧ SCHED_STACK_SIZE ≤ bk.2.
Hypothesis Hbp : xstate p ≠ 0 →
  bp ∈ L ∧ bp ∈ W ∧ bp ≠ bks ∧ (xstate (proc (k_sched k0) i) ≠ 0 → bp ≠ b0) ∧ area_in mc (hmem (k_heap k0)) bp (xstate p).
Hypothesis Htramp : 0 ≤ ring3_trampoline mc < 2 ^ 64.

Lemma mid_parent y b Lc k : mid y b Lc k → proc (k_sched k) parent = p.
Proof. intros M. rewrite (md_sched _ _ _ _ M), proc_put by lia. destruct (Z.eqb_spec i parent); [lia|done]. Qed.

(** The parent's system-call frame is where it was. *)
Lemma mid_frame y b Lc k : mid y b Lc k → read_frame (hmem (k_heap k)) (kstack p) = read_frame (hmem (k_heap k0)) (kstack p).
Proof.
  intros M. destruct Hbk as (B1 & B2 & B3 & B4). rewrite <- B3.
  by apply (frame_kept W L); [|apply (md_keep _ _ _ _ M)|..].
Qed.

(** Saving the live registers in the parent's area. *)
Lemma mid_save y b Lc k :
  mid y b Lc k →
  let k' := with_hmem k (cpu_xstate_save mc (hmem (k_heap k)) (xstate p)) in
  mid y b Lc k' ∧ (∀ off, 0 ≤ off → off + 8 ≤ bks.2 → stack_word k' off = stack_word k off) ∧
  (xstate p ≠ 0 → ∀ j, 0 ≤ j < xsave_size mc → hmem (k_heap k') (xstate p + j) = live_fpu mc j).
Proof.
  intros M k'. unfold cpu_xstate_save in k'. destruct (Z.eqb_spec (xstate p) 0) as [E|Hp].
  { subst k'. split; [|done]. destruct M as [M1 M2 M3 M4 M5 M6 M7 M8]. constructor; try done. cbn. by destruct (k_heap k). }
  destruct (Hbp Hp) as (P1 & P2 & P3 & P4 & (A1 & A2 & _)).
  destruct (mid_write y b Lc k bp (blit (hmem (k_heap k)) (xstate p) (live_fpu mc) 0 (xsave_size mc)) M) as [M' Hk].
  - by eapply md_sub.
  - done.
  - intros Hy ->. pose proof (md_own _ _ _ _ M Hy) as Ho. destruct (Z.eqb_spec (xstate (proc (k_sched k0) i)) 0) as [|Hn]; [done|].
    by apply P4.
  - apply blit_bytes; [by eapply holds_bytes, md_hold|]. intros x _. apply Hfpu.
  - intros x Hout. apply blit_out. unfold in_block in Hout. lia.
  - split_and!; [done| |].
    + intros off H0 H1. apply (stack_word_kept [bp] Lc k k' off Hk); [by eapply md_sub| |done|done].
      intros E%list_elem_of_singleton. done.
    + intros _ j Hj. cbn. rewrite blit_in by lia. f_equal. lia.
Qed.

(** Copying it to the child's. *)
Lemma mid_copy y b Lc k :
  mid y b Lc k →
  let k' := with_hmem k (cpu_xstate_copy mc (hmem (k_heap k)) (xstate y) (xstate p)) in
  mid y b Lc k' ∧ (∀ off, 0 ≤ off → off + 8 ≤ bks.2 → stack_word k' off = stack_word k off) ∧
  (xstate y ≠ 0 → xstate p ≠ 0 → ∀ j, 0 ≤ j < xsave_size mc →
     hmem (k_heap k') (xstate y + j) = hmem (k_heap k) (xstate p + j)).
Proof.
  intros M k'. unfold cpu_xstate_copy in k'. destruct (Z.eqb_spec (xstate y) 0) as [E|Hy]; cbn [orb] in k'.
  { subst k'. split; [|done]. destruct M as [M1 M2 M3 M4 M5 M6 M7 M8]. constructor; try done. cbn. by destruct (k_heap k). }
  destruct (Z.eqb_spec (xstate p) 0) as [E|Hp].
  { subst k'. split; [|done]. destruct M as [M1 M2 M3 M4 M5 M6 M7 M8]. constructor; try done. cbn. by destruct (k_heap k). }
  pose proof (holds_bytes _ _ (md_hold _ _ _ _ M)) as Hm.
  destruct (mid_write_area y b Lc k (blit (hmem (k_heap k)) (xstate y) (hmem (k_heap k)) (xstate p) (xsave_size mc)) M) as [M' Hk].
  - by eapply own_writable.
  - done.
  - apply blit_bytes; [done|]. intros x _. apply Hm.
  - intros x Hout. by apply blit_out.
  - split_and!; [done| |].
    + intros off H0 H1. apply (stack_word_kept [b] Lc k k' off Hk); [by eapply md_sub| |done|done].
      intros E%list_elem_of_singleton. by eapply md_apart.
    + intros _ _ j Hj. cbn. rewrite blit_in by lia. f_equal. lia.
Qed.

(** Everything [fork] does after [proc_create]. *)
Lemma fork_child_spec phys virt xs b Lc k :
  mid (fresh_proc (proc (k_sched k0) i) i 0 phys virt bks.1 xs) b Lc k → stack_word k 0 = STACK_CANARY →
  (xstate (proc (k_sched k0) i) ≠ 0 → xs ≠ 0) →
  let uf := read_frame (hmem (k_heap k0)) (kstack p) in
  let r15 := fork_r15 k0 virt (uf_rsp uf) in
  let k' := fork_child mc k parent i virt bks.1 in
  ∃ xs' Lc',
    k_sched k' = proc_make_ready (put (k_sched k0) i
      (child_image mc p (proc (k_sched k0) i) i bks.1 phys virt xs' uf r15 (state (proc (k_sched k0) i))
         (ProcTable.next (proc (k_sched k0) i)))) i ∧
    k_vm k' = k_vm k0 ∧ k_pipes k' = pipe_fork_inherit (k_pipes k0) (u32 (pid p)) ∧
    holds (k_heap k') Lc' ∧ L ⊆ Lc' ∧ unchanged W L (k_heap k0) (k_heap k') ∧
    stack_word k' 0 = STACK_CANARY ∧ stack_word k' (SCHED_STACK_SIZE - 8) = ring3_trampoline mc ∧
    (xs' ≠ 0 → xstate p ≠ 0 → ∀ j, 0 ≤ j < xsave_size mc → hmem (k_heap k') (xs' + j) = live_fpu mc j).
Proof.
  intros M Hcan Hxs uf r15 k'. set (y0 := fresh_proc _ _ _ _ _ _ _) in M. unfold k', fork_child.
  rewrite (mid_parent _ _ _ _ M). cbv zeta.
  apply (mid_upd _ _ _ _ (λ x, set_identity x p (pid p) false (tgid x) (tid x))) in M; [|done].
  set (k1 := upd_proc k i _) in *. rewrite (mid_frame _ _ _ _ M). fold uf.
  replace (fork_r15 k1 virt (uf_rsp uf)) with r15 by (unfold r15, fork_r15; by rewrite (md_vm _ _ _ _ M)).
  destruct (holds_range _ _ bks Hheld Hbks) as (Hp & _ & Htop & _). unfold push_trampoline. cbv zeta.
  assert (Eksp : u64 (bks.1 + SCHED_STACK_SIZE - 8) = bks.1 + SCHED_STACK_SIZE - 8).
  { apply u64_small. unfold SCHED_STACK_SIZE in *. lia. }
  destruct (mid_stack _ _ _ _ (u64 (bks.1 + SCHED_STACK_SIZE - 8)) (ring3_trampoline mc) M) as (M2 & Hw2 & Hk2);
    [rewrite Eksp; unfold SCHED_STACK_SIZE in *; lia..|done|].
  set (k2 := with_hmem k1 _) in *. rewrite Eksp in Hw2 at 1.
  replace (bks.1 + SCHED_STACK_SIZE - 8 - bks.1) with (SCHED_STACK_SIZE - 8) in Hw2 by lia.
  assert (Hc2 : stack_word k2 0 = STACK_CANARY) by (rewrite Hk2; [done|lia|rewrite Eksp; unfold SCHED_STACK_SIZE; lia]).
  apply (mid_upd _ _ _ _ (λ x, set_entry x (saved_regs mc uf r15) (Z.lor (uf_rflags uf) 512) (uf_rip uf) (u64 (uf_rsp uf + 8))
            (u64 (bks.1 + SCHED_STACK_SIZE - 8)) (ring3_trampoline mc))) in M2; [|done].
  set (k3 := upd_proc k2 i _) in *.
  destruct (mid_ensure _ _ _ _ M2) as (xs' & b' & Lc' & M4 & Hsub & Hu4 & _).
  { cbn. by destruct (Z.eqb_spec (xstate (proc (k_sched k0) i)) 0). }
  set (k4 := proc_ensure_xstate mc k3 i) in *. set (y4 := set_xstate _ xs') in M4.
  destruct (mid_save _ _ _ _ M4) as (M5 & Hw5 & Hf5). set (k5 := with_hmem k4 _) in *.
  destruct (mid_copy _ _ _ _ M5) as (M6 & Hw6 & Hf6). change (xstate y4) with xs' in M6, Hw6, Hf6.
  assert (E5 : xstate (proc (k_sched k5) i) = xs') by (rewrite (md_sched _ _ _ _ M5), proc_put, Z.eqb_refl by lia; done).
  rewrite E5. set (k6 := with_hmem k5 _) in *.
  assert (Hw : ∀ off, 0 ≤ off → off + 8 ≤ bks.2 → stack_word k6 off = stack_word k2 off).
  { intros off H0 H1. rewrite Hw6, Hw5 by done. apply (stack_word_kept [] _ k3 k4 off Hu4); [|apply not_elem_of_nil|done|done].
    by eapply md_sub. }
  exists xs', Lc'. cbn [k_sched k_vm k_pipes k_heap with_sched with_pipes]. split_and!.
  - rewrite (md_sched _ _ _ _ M6). done.
  - apply M6.
  - by rewrite (md_pipes _ _ _ _ M6).
  - apply M6.
  - apply M6.
  - apply M6.
  - rewrite <- Hc2. apply Hw; unfold SCHED_STACK_SIZE in *; lia.
  - rewrite <- Hw2. apply Hw; unfold SCHED_STACK_SIZE in *; lia.
  - intros H1 H2 j Hj. rewrite <- (Hf5 H2 j Hj). by apply Hf6.
Qed.
End build.

(** ** The whole call *)

(** What a process that calls [fork] brings: a valid scheduler, heap and address
    space; [bk] is the block of its kernel stack and [own i] that of the save
    area of slot [i]. *)
Record fork_pre (k : kern F) (parent : Z) (roots : list Z) (Q : Z → list Z) (L : list block) (own : Z → block)
    (bk : block) : Prop := {
  fp_rep : rep (k_sched k) Q;
  fp_free : ∀ i, valid_proc i → slot_free (proc (k_sched k) i) = true → ¬ ProcTable.linked Q i;
  fp_parent : valid_proc parent ∧ ring3 (proc (k_sched k) parent) = true ∧ slot_free (proc (k_sched k) parent) = false;
  fp_vm : vm_ok (k_vm k) roots;
  fp_root : pml4_virt (proc (k_sched k) parent) ∈ roots;
  fp_kern : (vmm_kernel_pml4 (boot_cr3 mc) (k_vm k)).1 ∈ roots;
  fp_clone : cloneable (k_vm k) roots (pml4_virt (proc (k_sched k) parent));
  fp_heap : holds (k_heap k) L;
  fp_stack : bk ∈ L ∧ bk.1 = kstack (proc (k_sched k) parent) ∧ SCHED_STACK_SIZE ≤ bk.2;
  fp_area : ∀ i, valid_proc i → xstate (proc (k_sched k) i) ≠ 0 →
    own i ∈ L ∧ area_in mc (hmem (k_heap k)) (own i) (xstate (proc (k_sched k) i));
  fp_own : ∀ i, own i ≠ bk;
  fp_apart : ∀ i j, valid_proc i → valid_proc j → xstate (proc (k_sched k) i) ≠ 0 → xstate (proc (k_sched k) j) ≠ 0 →
    own i = own j → i = j;
}.

(** The user stack holds [r15] where the system-call entry pushed it. *)
Definition stack_mapped (k : kern F) (parent : Z) : Prop :=
  let p := proc (k_sched k) parent in
  let sp := uf_rsp (read_frame (hmem (k_heap k)) (kstack p)) in
  is_user sp ∧ sp mod 8 = 0 ∧ has (pte (k_vm k) (pml4_virt p) sp) VMM_P = true.
Definition pushed_r15 (k : kern F) (parent : Z) : Z :=
  let p := proc (k_sched k) parent in
  ld64 (vmem (k_vm k)) (p2v (k_vm k) (vmm_virt_to_phys (k_vm k) (pml4_virt p)
                                        (uf_rsp (read_frame (hmem (k_heap k)) (kstack p))))).

(** [fork] succeeded: [child] runs a copy of [parent]. *)
Record forked (k : kern F) (parent : Z) (roots : list Z) (Q : Z → list Z) (L : list block) (own : Z → block)
    (child phys ks xs : Z) (k' : kern F) : Prop := {
  fd_slot : valid_proc child ∧ 0 < child ∧ slot_free (proc (k_sched k) child) = true;
  fd_child : proc (k_sched k') child =
    child_image mc (proc (k_sched k) parent) (proc (k_sched k) child) child ks phys (p2v (k_vm k') phys) xs
      (read_frame (hmem (k_heap k)) (kstack (proc (k_sched k) parent))) (pushed_r15 k parent) PROC_READY
      (ProcTable.next (proc (k_sched k') child));
  fd_others : ∀ j, valid_proc j → j ≠ child → set_next (proc (k_sched k') j) 0 = set_next (proc (k_sched k) j) 0;
  fd_cpus : cpus (k_sched k') = cpus (k_sched k);
  fd_ready : rep (k_sched k') (enqueued Q (queue_of (proc (k_sched k) parent)) child);
  fd_space : cloned roots (vmm_kernel_pml4 (boot_cr3 mc) (k_vm k)).1 (pml4_virt (proc (k_sched k) parent)) phys (k_vm k) (k_vm k');
  fd_heap : ∃ cap L', holds (k_heap k') L' ∧ (ks, cap) :: L ⊆ L' ∧ ¬ ((ks, cap) ∈ L) ∧ SCHED_STACK_SIZE ≤ cap;
  fd_blocks : unchanged [own child; own parent] L (k_heap k) (k_heap k');
  fd_stack : ld64 (hmem (k_heap k')) ks = STACK_CANARY ∧ kstack_word (hmem (k_heap k')) ks 1 = ring3_trampoline mc;
  fd_fpu : xs ≠ 0 → xstate (proc (k_sched k) parent) ≠ 0 →
    ∀ j, 0 ≤ j < xsave_size mc → hmem (k_heap k') (xs + j) = live_fpu mc j;
  fd_pipes : k_pipes k' = pipe_fork_inherit (k_pipes k) (u32 (pid (proc (k_sched k) parent)));
}.

(** [fork] failed: nothing is left of the attempt but copy-on-write marks. *)
Record fork_failed (k : kern F) (parent : Z) (roots : list Z) (L : list block) (k' : kern F) : Prop := {
  ff_sched : k_sched k' = k_sched k;
  ff_pipes : k_pipes k' = k_pipes k;
  ff_heap : holds (k_heap k') L;
  ff_blocks : unchanged [] L (k_heap k) (k_heap k');
  ff_space : unclonable roots (pml4_virt (proc (k_sched k) parent)) (k_vm k) (k_vm k');
}.

(** The child's copy of the user stack holds the parent's [r15]. *)
Lemma cloned_r15 (v v' : vm F) roots kp r phys sp :
  vm_ok v roots → r ∈ roots → cloneable v roots r → cloned roots kp r phys v v' →
  is_user sp → sp mod 8 = 0 → has (pte v r sp) VMM_P = true →
  vmm_virt_to_phys v' (p2v v' phys) sp ≠ 0 ∧
  ld64 (vmem v') (p2v v' (vmm_virt_to_phys v' (p2v v' phys) sp)) = ld64 (vmem v) (p2v v (vmm_virt_to_phys v r sp)).
Proof.
  intros Hok Hr Hcl C Hu H8 HP. pose proof (cd_page _ _ _ _ _ _ C sp Hu HP) as S.
  rewrite (present_translates v roots r sp Hok Hr Hu HP).
  rewrite (present_translates v' _ _ sp (cd_ok _ _ _ _ _ _ C) (list_elem_of_here _ _) Hu (proj2 (sh_present _ _ _ S))).
  unfold translated. rewrite (sh_frame2 _ _ _ S). destruct (cl_frame _ _ _ Hcl sp Hu HP) as (Hd & Hlo & _).
  destruct (frame_of_range v r sp (ok_bytes _ _ Hok)) as [Hrg Hal]. unfold frame_of in *.
  set (u := Z.land (pte v r sp) VMM_PHYS_MASK) in *.
  pose proof (data_p2v v roots u (ok_fa _ _ Hok) Hrg Hd) as Ev.
  assert (Hm : 0 ≤ sp mod PAGE_SIZE ∧ sp mod PAGE_SIZE + 8 ≤ PAGE_SIZE) by (unfold PAGE_SIZE; zlia).
  split; [unfold LOW_FRAMES, PAGE_SIZE in *; lia|].
  assert (Eo : ∀ w : vm F, fa_hhdm (fa w) = fa_hhdm (fa v) → p2v w (u + sp mod PAGE_SIZE) = p2v v u + sp mod PAGE_SIZE).
  { intros w Ew. destruct Hd as (_ & Hpa & _). rewrite Ev in Hpa |- *. unfold p2v in *. rewrite Ew.
    pose proof (u64_range (u + fa_hhdm (fa v))) as Hu64. rewrite Ev in Hu64. rewrite u64_small; [lia|].
    destruct (fa_hhdm_range _ (ok_fa _ _ Hok)) as [Hh _]. unfold page_aligned, PAGE_SIZE in *. revert Hpa Hu64 Hm Hh Hlo.
    generalize (sp mod 4096). intros z. clear. unfold LOW_FRAMES. intros. zlia. }
  rewrite (Eo v' (cd_hhdm _ _ _ _ _ _ C)), (Eo v eq_refl). apply ld64_frame. intros z Hz.
  replace z with (p2v v u + (z - p2v v u)) by lia. apply (cd_data _ _ _ _ _ _ C); [done|lia].
Qed.
#[local] Opaque discard_space vmm_clone_user.

(** The memory of the child. *)
Lemma fork_space_spec k parent roots Q L own bk :
  fork_pre k parent roots Q L own bk →
  match fork_space mc k parent with
  | (None, k') => fork_failed k parent roots L k'
  | (Some (phys, virt, ks), k') =>
      k_sched k' = k_sched k ∧ k_pipes k' = k_pipes k ∧ virt = p2v (k_vm k') phys ∧
      cloned roots (vmm_kernel_pml4 (boot_cr3 mc) (k_vm k)).1 (pml4_virt (proc (k_sched k) parent)) phys (k_vm k) (k_vm k') ∧
      unclonable roots (pml4_virt (proc (k_sched k) parent)) (k_vm k) (discard_space (k_vm k') virt phys) ∧
      ∃ cap, SCHED_STACK_SIZE ≤ cap ∧ ¬ ((ks, cap) ∈ L) ∧ holds (k_heap k') ((ks, cap) :: L) ∧ unchanged [] L (k_heap k) (k_heap k')
  end.
Proof.
  intros P. unfold fork_space. set (r := pml4_virt _).
  pose proof (clone_lemma' (boot_cr3 mc) (k_vm k) roots r (fp_vm _ _ _ _ _ _ _ P) (fp_root _ _ _ _ _ _ _ P)
                (fp_kern _ _ _ _ _ _ _ P) (fp_clone _ _ _ _ _ _ _ P)) as Hc. revert Hc.
  generalize (vmm_clone_user (boot_cr3 mc) (k_vm k) r). intros [phys v] [(Hnz & C & U)|[-> U]].
  2:{ cbn. constructor; try done. apply P. }
  destruct (Z.eqb_spec phys 0); [done|].
  pose proof (holds_kmalloc (k_heap k) L SCHED_STACK_SIZE (fp_heap _ _ _ _ _ _ _ P) ltac:(unfold SCHED_STACK_SIZE; lia)) as Hm.
  cbn [with_vm k_heap]. destruct (kmalloc (k_heap k) SCHED_STACK_SIZE) as [ks h'].
  destruct Hm as [[-> ->]|(Hks & cap & Hcap & Hn & Hh & Hk)].
  - constructor; [reflexivity|reflexivity|apply P|reflexivity|exact U].
  - destruct (Z.eqb_spec ks 0); [lia|]. split; [reflexivity|]. split; [reflexivity|]. split; [reflexivity|].
    split; [exact C|]. split; [exact U|]. by exists cap.
Qed.
Lemma create_cases s phys virt ks :
  zlen (procs s) = SCHED_MAX_PROCS →
  (proc_create s 0 phys virt ks 0).1 = NULLP ∨
  ∃ i, 1 ≤ i < SCHED_MAX_PROCS ∧ slot_free (proc s i) = true ∧
    proc_create s 0 phys virt ks 0 = (i, put s i (fresh_proc (proc s i) i 0 phys virt ks 0)).
Proof.
  intros Hl. unfold proc_create. destruct (find_up _ _ _) as [i|] eqn:E; [right|by left].
  apply find_up_Some in E as (Hi & Hf & _). exists i. unfold SCHED_MAX_PROCS in *. split; [lia|]. done.
Qed.

Lemma area_kept W' L h h' b a :
  unchanged W' L h h' → b ∈ L → b ∉ W' → area_in mc (hmem h) b a → area_in mc (hmem h') b a.
Proof.
  intros Hk Hb Hn (A1 & A2 & A3 & A4). split_and!; [done..|]. rewrite <- A4. destruct Hx. apply ld64_frame.
  intros z Hz. apply (Hk b Hb Hn). unfold in_block. lia.
Qed.

(** The ready child in the table. *)
Lemma made_ready s Q i y :
  rep s Q → valid_proc i → ¬ ProcTable.linked Q i → ProcTable.next y = ProcTable.next (proc s i) →
  let s' := proc_make_ready (put s i y) i in
  rep s' (enqueued Q (queue_of y) i) ∧
  proc s' i = set_next (set_state y PROC_READY) (ProcTable.next (proc s' i)) ∧
  (∀ j, valid_proc j → j ≠ i → set_next (proc s' j) 0 = set_next (proc s j) 0) ∧ cpus s' = cpus s.
Proof.
  intros Hr Hi Hn Hnx s'. unfold valid_proc in *. pose proof (r_len _ _ Hr) as Hl.
  unfold s', proc_make_ready. rewrite upd_put by lia. set (y' := set_state y PROC_READY).
  assert (Hp : proc (put s i y') i = y') by (rewrite proc_put, Z.eqb_refl by lia; done).
  assert (Hr1 : rep (put s i y') Q).
  { destruct Hr as [R1 R2 R3 R4 R5 R6]. constructor; try done; [by rewrite zlen_put|]. intros q Hq.
    eapply chain_ext; [|by apply R3]. intros z Hz. unfold nx. rewrite proc_put by (rewrite ?R1; try lia; by apply (R6 q)).
    destruct (Z.eqb_spec i z) as [->|]; [|done]. done. }
  destruct (ready_enqueue_rep _ Q i Hr1 ltac:(lia)) as [Hr2 Hs]; [intros q Hq Hin; destruct Hn; by exists q|].
  rewrite Hp in Hr2. split_and!.
  - done.
  - destruct Hs as (Hs & _). specialize (Hs i ltac:(lia)). rewrite Hp in Hs. revert Hs.
    generalize (proc (ready_enqueue (put s i y') i) i). clearbody y'. intros z Hs. destruct z, y'. unfold set_next in *. cbn in *. injection Hs. intros. subst. reflexivity.
  - intros j Hj Hne. destruct Hs as (Hs & _). rewrite Hs by lia. rewrite proc_put by lia. by destruct (Z.eqb_spec i j).
  - destruct Hs as (_ & -> & _). done.
Qed.
(** The second half of [fork]: the slot and its contents. *)
Lemma fork_build k parent roots Q L own bk phys virt ks cap k0 i :
  0 ≤ ring3_trampoline mc < 2 ^ 64 → fork_pre k parent roots Q L own bk → stack_mapped k parent →
  k_sched k0 = k_sched k → k_pipes k0 = k_pipes k → virt = p2v (k_vm k0) phys →
  cloned roots (vmm_kernel_pml4 (boot_cr3 mc) (k_vm k)).1 (pml4_virt (proc (k_sched k) parent)) phys (k_vm k) (k_vm k0) →
  SCHED_STACK_SIZE ≤ cap → ¬ ((ks, cap) ∈ L) → holds (k_heap k0) ((ks, cap) :: L) → unchanged [] L (k_heap k) (k_heap k0) →
  1 ≤ i < SCHED_MAX_PROCS → slot_free (proc (k_sched k) i) = true →
  proc_create (k_sched k0) 0 phys virt ks 0 = (i, put (k_sched k0) i (fresh_proc (proc (k_sched k0) i) i 0 phys virt ks 0)) →
  ∃ k1 xs, k_proc_create mc k0 0 phys virt ks = (i, k1) ∧
    forked k parent roots Q L own i phys ks xs (fork_child mc k1 parent i virt ks).
Proof.
  intros Ht P (Su & S8 & SP) Es Ep -> C Hcap Hn Hh Hk Hi Hf Hc.
  destruct (fp_parent _ _ _ _ _ _ _ P) as (Vp & _ & Hlive). destruct (fp_stack _ _ _ _ _ _ _ P) as (B1 & B2 & B3).
  pose proof (r_len _ _ (fp_rep _ _ _ _ _ _ _ P)) as Hl. unfold valid_proc in Vp.
  assert (Hpi : parent ≠ i) by (intros ->; congruence). assert (Vi : valid_proc i) by (unfold valid_proc; lia).
  assert (Hnk : ∀ b, b ∈ L → b ≠ (ks, cap)) by (intros b Hb ->; done).
  pose proof (fp_area _ _ _ _ _ _ _ P) as Har. pose proof (fp_apart _ _ _ _ _ _ _ P) as Hap. pose proof (fp_own _ _ _ _ _ _ _ P) as Hown.
  assert (Har0 : ∀ j, valid_proc j → xstate (proc (k_sched k0) j) ≠ 0 →
    own j ∈ (ks, cap) :: L ∧ own j ≠ (ks, cap) ∧ area_in mc (hmem (k_heap k0)) (own j) (xstate (proc (k_sched k0) j))).
  { rewrite Es. intros j Vj Hj. destruct (Har j Vj Hj) as (A1 & A3). split_and!; [by apply list_elem_of_further|by apply Hnk|].
    apply (area_kept [] L (k_heap k)); [done|done|apply not_elem_of_nil|done]. }
  set (W := [(ks, cap); own i; own parent]).
  assert (Hi0 : 0 ≤ i < zlen (procs (k_sched k0))) by (rewrite Es; lia).
  assert (HW : (ks, cap) ∈ W ∧ own i ∈ W) by (split; [apply list_elem_of_here|apply list_elem_of_further, list_elem_of_here]).
  assert (HWp : own parent ∈ W) by (do 2 apply list_elem_of_further; apply list_elem_of_here).
  assert (HWk : bk ∉ W).
  { unfold W. rewrite !elem_of_cons, elem_of_nil. intros [E|[E|[E|[]]]]; [by apply (Hnk bk)|by apply (Hown i)|by apply (Hown parent)]. }
  destruct (mid_create k0 ((ks, cap) :: L) i (ks, cap) (own i) W Hi0 HW (list_elem_of_here _ _) (λ H, proj1 (proj2 (Har0 i Vi H)))
              Hcap (λ H, conj (proj1 (Har0 i Vi H)) (proj2 (proj2 (Har0 i Vi H)))) Hh phys (p2v (k_vm k0) phys) Hc)
    as (xs0 & b & Lc & k1 & E1 & M & Hcan & Hxs0). cbn [fst] in E1.
  assert (Efr : read_frame (hmem (k_heap k0)) (kstack (proc (k_sched k0) parent)) =
                read_frame (hmem (k_heap k)) (kstack (proc (k_sched k) parent))).
  { rewrite Es, <- B2. apply (frame_kept [] L); [apply P|done|done|apply not_elem_of_nil|done]. }
  destruct (fork_child_spec k0 ((ks, cap) :: L) i (ks, cap) (own i) W Hi0 HW (list_elem_of_here _ _)
              (λ H, proj1 (proj2 (Har0 i Vi H))) Hcap Hh parent bk (own parent)) with (phys := phys) (virt := p2v (k_vm k0) phys)
              (xs := xs0) (b := b) (Lc := Lc) (k := k1) as (xs & Lf & F1 & F2 & F3 & F4 & F5 & F6 & F7 & F8 & F9).
  { rewrite Es. lia. }
  { rewrite Es. split_and!; [by apply list_elem_of_further|done|done|done]. }
  { intros Hp. destruct (Har0 parent Vp Hp) as (A1 & A2 & A3). split_and!; [done|done|done| |done].
    intros Hxi E. apply Hpi. rewrite Es in Hp, Hxi. by apply Hap. }
  { done. }
  { done. }
  { done. }
  { intros Hxi. by rewrite (Hxs0 Hxi). }
  cbn [fst] in *. set (k' := fork_child mc k1 parent i (p2v (k_vm k0) phys) ks) in *.
  rewrite Efr, Es in F1. rewrite Es in F3, F9.
  assert (E15 : fork_r15 k0 (p2v (k_vm k0) phys) (uf_rsp (read_frame (hmem (k_heap k)) (kstack (proc (k_sched k) parent)))) = pushed_r15 k parent).
  { destruct (cloned_r15 (k_vm k) (k_vm k0) roots _ _ phys _ (fp_vm _ _ _ _ _ _ _ P) (fp_root _ _ _ _ _ _ _ P)
                (fp_clone _ _ _ _ _ _ _ P) C Su S8 SP) as [Hnz E]. unfold fork_r15. destruct (Z.eqb_spec (vmm_virt_to_phys (k_vm k0) (p2v (k_vm k0) phys)
      (uf_rsp (read_frame (hmem (k_heap k)) (kstack (proc (k_sched k) parent))))) 0); [done|exact E]. }
  rewrite E15 in F1. exists k1, xs. split; [exact E1|]. fold k'.
  set (y := child_image _ _ _ _ _ _ _ _ _ _ _ _) in F1.
  destruct (made_ready (k_sched k) Q i y (fp_rep _ _ _ _ _ _ _ P) Vi (fp_free _ _ _ _ _ _ _ P i Vi Hf) eq_refl) as (R1 & R2 & R3 & R4).
  rewrite <- F1 in R1, R2, R3, R4. clearbody k'.
  destruct (holds_range _ _ (ks, cap) Hh (list_elem_of_here _ _)) as (Hp1 & _ & Hp3 & _). cbn [fst snd] in Hp1, Hp3.
  unfold SCHED_STACK_SIZE in Hcap. constructor; rewrite ?F2.
  - split_and!; [done|lia|done].
  - exact R2.
  - exact R3.
  - exact R4.
  - exact R1.
  - exact C.
  - exists cap, Lf. done.
  - intros b' Hb' Hn' x Hin. rewrite (F6 b'); [by apply (Hk b' Hb' (not_elem_of_nil _))|by apply list_elem_of_further| |done].
    unfold W. rewrite elem_of_cons. intros [->|?]; done.
  - unfold stack_word in F7, F8. cbn [fst] in F7, F8. rewrite Z.add_0_r in F7. split; [exact F7|]. rewrite <- F8.
    unfold kstack_word, SCHED_STACK_SIZE. rewrite u64_small by lia. f_equal. lia.
  - exact F9.
  - by rewrite <- Ep.
Qed.
Lemma fork_lemma k c roots Q L own bk :
  0 ≤ ring3_trampoline mc < 2 ^ 64 → fork_pre k (proc_current (k_sched k) c) roots Q L own bk →
  stack_mapped k (proc_current (k_sched k) c) →
  let parent := proc_current (k_sched k) c in
  let '(ret, k') := proc_fork mc k c in
  (ret = 0 ∧ fork_failed k parent roots L k') ∨
  (0 < ret ∧ ∃ phys ks xs, forked k parent roots Q L own ret phys ks xs k').
Proof.
  intros Ht P Hsp parent. unfold proc_fork. fold parent in P, Hsp |- *. destruct (fp_parent _ _ _ _ _ _ _ P) as (Vp & Hr & _).
  destruct (Z.eqb_spec parent NULLP) as [E|_]; [unfold valid_proc, NULLP in *; lia|]. rewrite Hr. cbn [orb negb].
  pose proof (fork_space_spec k parent roots Q L own bk P) as Hs. destruct (fork_space mc k parent) as [[[[phys virt] ks]|] k0]; [|by left].
  destruct Hs as (Es & Ep & Ev & C & U & cap & Hcap & Hn & Hh & Hk).
  pose proof (r_len _ _ (fp_rep _ _ _ _ _ _ _ P)) as Hl. rewrite <- Es in Hl.
  destruct (create_cases (k_sched k0) phys virt ks Hl) as [Hc|(i & Hi & Hf & Hc)].
  - unfold k_proc_create. destruct (proc_create (k_sched k0) 0 phys virt ks 0) as [i s]. cbn [fst] in Hc. subst i.
    rewrite Z.eqb_refl. cbn [fst snd]. left. split; [done|]. destruct (holds_kfree _ _ (ks, cap) Hh) as [Hh' Hk']. cbn [fst] in Hh', Hk'.
    constructor; cbn [with_vm with_heap k_sched k_pipes k_heap k_vm]; [exact Es|exact Ep|exact Hh'| |exact U].
    intros b Hb Hb' x Hx'. rewrite (Hk' b); [by apply (Hk b)|by apply list_elem_of_further| |done].
    intros ->%list_elem_of_singleton. done.
  - rewrite Es in Hf. destruct (fork_build k parent roots Q L own bk phys virt ks cap k0 i Ht P Hsp Es Ep Ev C Hcap Hn Hh Hk Hi Hf Hc)
      as (k1 & xs & -> & FD). destruct (Z.eqb_spec i NULLP); [unfold NULLP in *; lia|]. right.
    rewrite (fd_child _ _ _ _ _ _ _ _ _ _ _ FD) at 1. cbn [child_image pid]. split; [lia|].
    exists phys, ks, xs. rewrite (fd_child _ _ _ _ _ _ _ _ _ _ _ FD) at 1. exact FD.
Qed.

(** What the first dispatch of a process reads in its slot. *)
Definition entry_fields (x : proc_t) := (pml4_phys x, rip x, sleep_until x, fork_regs x, fork_rflags x, xstate x).

(** [k2] is a later state in which a CPU has switched to the process of slot [i]
    and neither its entry fields nor its save area were touched. *)
Definition dispatched (k' k2 : kern F) (c i : Z) : Prop :=
  proc_current (k_sched k2) c = i ∧
  entry_fields (proc (k_sched k2) i) = entry_fields (proc (k_sched k') i) ∧
  ∀ j, 0 ≤ j < xsave_size mc →
    hmem (k_heap k2) (xstate (proc (k_sched k') i) + j) = hmem (k_heap k') (xstate (proc (k_sched k') i) + j).

(** The entry of the child to user mode. *)
Lemma resume_lemma k parent roots Q L own child phys ks xs k' k2 mc' c :
  forked k parent roots Q L own child phys ks xs k' → dispatched k' k2 c child →
  xsave_size mc' = xsave_size mc → xs ≠ 0 → xstate (proc (k_sched k) parent) ≠ 0 →
  let uf := read_frame (hmem (k_heap k)) (kstack (proc (k_sched k) parent)) in
  let '(entry, mc'', _) := trampoline_run mc' k2 c in
  entry = EnterFork phys (uf_rip uf) (u64 (uf_rsp uf + 8)) (saved_regs mc uf (pushed_r15 k parent)) (Z.lor (uf_rflags uf) 0x200) ∧
  ∀ j, 0 ≤ j < xsave_size mc → live_fpu mc'' j = live_fpu mc j.
Proof.
  intros FD (Hc & Hef & Hmem) Hsz Hxs Hxp uf. unfold trampoline_run. rewrite Hc. cbn [k_heap with_sched].
  pose proof (fd_fpu _ _ _ _ _ _ _ _ _ _ _ FD) as Hfp.
  rewrite (fd_child _ _ _ _ _ _ _ _ _ _ _ FD) in Hef, Hmem. fold uf in Hef, Hmem. clear FD. clearbody uf. unfold entry_fields, child_image in Hef, Hmem.
  cbn [fork_rflags pml4_phys rip sleep_until fork_regs xstate] in Hef, Hmem. injection Hef as -> -> -> -> -> ->.
  destruct (Z.eqb_spec (Z.lor (uf_rflags uf) 512) 0) as [E|_].
  { apply Z.lor_eq_0_iff in E as [_ E]. discriminate E. }
  split; [reflexivity|]. intros j Hj. unfold cpu_xstate_restore. destruct (Z.eqb_spec xs 0); [done|]. cbn [live_fpu].
  rewrite blit_in by lia. rewrite Z.sub_0_r, Hmem by lia. by apply Hfp.
Qed.
End fork.

(** C10: [fork].  A ring-3 process with a well-formed machine around it either
    gets 0 and everything it took is given back (the process table, pipes, heap
    blocks and frames are as before, and its pages keep their contents), or the
    pid of a child in a slot that was free.  The child is ready in the queue of
    its parent's priority; its slot holds the identity, priority, name and
    signal dispositions of the parent with no signal pending, and the registers
    of the parent's system-call frame, [r15] included; its address space is a
    copy-on-write clone; its kernel stack is a new block with the canary at the
    bottom and the trampoline on top; its save area holds the live FPU
    registers; it inherits the parent's pipe ends.  No other slot and no other
    block of the kernel heap changes, except the parent's save area. *)
Theorem proc_fork_spec {F} `{FA : FrameAlloc F} `{FL : !FrameAllocLaws F} mc (k : kern F) c roots Q L own bk :
  xsave_ok mc → mem_bytes (live_fpu mc) → 0 ≤ ring3_trampoline mc < 2 ^ 64 →
  fork_pre mc k (proc_current (k_sched k) c) roots Q L own bk → stack_mapped k (proc_current (k_sched k) c) →
  let parent := proc_current (k_sched k) c in
  let '(ret, k') := proc_fork mc k c in
  (ret = 0 ∧ fork_failed k parent roots L k') ∨
  (0 < ret ∧ ∃ phys ks xs, forked mc k parent roots Q L own ret phys ks xs k').
Proof. intros Hx Hf. by apply fork_lemma. Qed.

(** C11: the child resumes where its parent called.  When the scheduler first
    gives a CPU to the child that [fork] made, it enters user mode in its own
    address space at the parent's return address, with the parent's stack
    pointer (past the slot the entry code pushed), flags and general registers,
    and with the FPU registers the parent had at the call. *)
Theorem fork_child_resumes {F} `{FA : FrameAlloc F} `{FL : !FrameAllocLaws F} mc (k : kern F) c roots Q L own bk ret k' k2 mc' c' :
  xsave_ok mc → mem_bytes (live_fpu mc) → 0 ≤ ring3_trampoline mc < 2 ^ 64 →
  let parent := proc_current (k_sched k) c in
  fork_pre mc k parent roots Q L own bk → stack_mapped k parent →
  proc_fork mc k c = (ret, k') → ret ≠ 0 → dispatched mc k' k2 c' ret → xsave_size mc' = xsave_size mc →
  xstate (proc (k_sched k') ret) ≠ 0 → xstate (proc (k_sched k) parent) ≠ 0 →
  let uf := read_frame (hmem (k_heap k)) (kstack (proc (k_sched k) parent)) in
  let '(entry, mc'', _) := trampoline_run mc' k2 c' in
  entry = EnterFork (pml4_phys (proc (k_sched k') ret)) (uf_rip uf) (u64 (uf_rsp uf + 8))
            (saved_regs mc uf (pushed_r15 k parent)) (Z.lor (uf_rflags uf) 0x200) ∧
  ∀ j, 0 ≤ j < xsave_size mc → live_fpu mc'' j = live_fpu mc j.
Proof.
  intros Hx Hf Ht parent P Hsp E Hr Hc Hsz Hxs Hxp.
  pose proof (fork_lemma mc Hx Hf k c roots Q L own bk Ht P Hsp) as H. cbv zeta in H. rewrite E in H.
  destruct H as [[? _]|(_ & phys & ks & xs & FD)]; [done|]. fold parent in FD.
  rewrite (fd_child _ _ _ _ _ _ _ _ _ _ _ _ FD) in Hxs |- *. cbn [child_image xstate pml4_phys] in Hxs |- *.
  exact (resume_lemma mc k parent roots Q L own ret phys ks xs k' k2 mc' c' FD Hc Hsz Hxs Hxp).
Qed.

(** ** A fork on a small machine

    The process in slot 2 has one writable page and a kernel stack with the
    frame of its system call; its save area is in the second heap block. *)
Module ForkDemo.
Import VmmDemo.

Definition mc : Xstate.machine := mkMachine 512 true (λ j, j mod 256) [1; 2; 3; 4; 5] 0x9000 4096.

Definition STACK : block := (4112, 65536).
Definition AREA : block := (69664, 1008).
Definition TOP : Z := 4112 + SCHED_STACK_SIZE.
Definition SP : Z := PAGE_VA + 16.
Definition mem0 : mem :=
  let m := st64 (st64 (st64 (st64 (λ _, 0) 4096 65552) 69648 1024) 70672 200000) 70680 0 in
  let m := st64 m 69688 69664 in
  st64 (st64 (st64 m (TOP - 8) SP) (TOP - 16) 0x400123) (TOP - 24) 0x246.
Definition heap0 : heap := mkHeap mem0 70672 4096 266576 66576.
Definition blocks0 : blocks := [(65552, false); (1024, false); (200000, true)].

Definition sched0 : sched :=
  let s := upd_cpu Demo.s_new 1 (λ x, set_current x 2) in
  let s := upd (upd s 0 (λ x, set_xstate x 0)) 1 (λ x, set_xstate x 0) in
  upd s 2 (λ x, set_xstate (set_state (set_ring3 (set_kstack (set_pml4_virt x root) 4112) true) PROC_RUNNING) 69696).
Definition k0 : kern pmm := mkKern sched0 CloneDemo.writable heap0 pipes_bss.
Definition own (i : Z) : block := if i =? 2 then AREA else (0, 0).
#[global] Strategy 100 [sched0 heap0 k0].

Lemma heap0_wf : heap_wf heap0 blocks0.
Proof.
  split; [|split; [by simpl|reflexivity]]. split; [|done..| | |].
  - by repeat apply st64_bytes.
  - by repeat constructor.
  - by vm_compute.
  - by vm_compute.
Qed.
Lemma heap0_holds : holds heap0 [STACK; AREA].
Proof. exists blocks0. split; [exact heap0_wf|]. vm_compute. reflexivity. Qed.


(** Facts about every slot, by evaluation. *)
Lemma all_slots (f : Z → bool) : forallb (λ i, f (Z.of_nat i)) (seq 0 256) = true → ∀ i, valid_proc i → f i = true.
Proof.
  intros H i Hi. rewrite forallb_forall in H. specialize (H (Z.to_nat i)). unfold valid_proc, SCHED_MAX_PROCS in Hi.
  rewrite Z2Nat.id in H by lia. apply H, in_seq. lia.
Qed.

Lemma only_area i : valid_proc i → xstate (proc sched0 i) ≠ 0 → i = 2.
Proof.
  intros Hi Hn. assert (H : (xstate (proc sched0 i) =? 0) || (i =? 2) = true).
  { apply (all_slots (λ i, (xstate (proc sched0 i) =? 0) || (i =? 2))); [vm_compute; reflexivity|exact Hi]. }
  apply orb_true_iff in H as [H|H]; apply Z.eqb_eq in H; [destruct (Hn H)|exact H].
Qed.

Lemma sched0_rep : rep sched0 (λ _, []).
Proof.
  split; [vm_compute; reflexivity|vm_compute; reflexivity|..].
  - intros q Hq. unfold SCHED_NPRIO in Hq. assert (q = 0 ∨ q = 1 ∨ q = 2) as [->|[->| ->]] by lia; vm_compute; reflexivity.
  - intros q _. constructor.
  - intros q r x _ _ H. by apply elem_of_nil in H.
  - intros q x _ H. by apply elem_of_nil in H.
Qed.

Lemma parent_slot : proc_current (k_sched k0) 1 = 2 ∧ pml4_virt (proc sched0 2) = root ∧ kstack (proc sched0 2) = 4112 ∧
  xstate (proc sched0 2) = 69696 ∧ ring3 (proc sched0 2) = true ∧ slot_free (proc sched0 2) = false.
Proof. vm_compute. split_and!; reflexivity. Qed.

Lemma fork_ready : fork_pre mc k0 2 [root] (λ _, []) [STACK; AREA] own STACK.
Proof.
  destruct parent_slot as (_ & Er & Ek & Ex & Eg & Ef).
  constructor; change (k_sched k0) with sched0; change (k_vm k0) with CloneDemo.writable; change (k_heap k0) with heap0.
  - exact sched0_rep.
  - intros i _ _ (q & _ & H). by apply elem_of_nil in H.
  - split; [unfold valid_proc, SCHED_MAX_PROCS; lia|]. split; [exact Eg|exact Ef].
  - exact (proj1 CloneDemo.writable_ready).
  - rewrite Er. exact root_in.
  - exact CloneDemo.writable_kernel.
  - rewrite Er. exact CloneDemo.writable_cloneable.
  - exact heap0_holds.
  - split; [apply list_elem_of_here|]. rewrite Ek. split; [reflexivity|vm_compute; discriminate].
  - intros i Hi Hn. pose proof (only_area i Hi Hn) as ->. rewrite Ex. split; [apply list_elem_of_further, list_elem_of_here|].
    vm_compute. split_and!; (discriminate || reflexivity).
  - intros i. unfold own. case_if; discriminate.
  - intros i j Hi Hj Hxi Hxj _. by rewrite (only_area i), (only_area j).
Qed.

Lemma fork_stack : stack_mapped k0 2.
Proof.
  destruct parent_slot as (_ & Er & Ek & _). unfold stack_mapped. change (k_sched k0) with sched0.
  change (k_heap k0) with heap0. change (k_vm k0) with CloneDemo.writable. rewrite Er, Ek.
  assert (E : uf_rsp (read_frame (hmem heap0) 4112) = SP) by (vm_compute; reflexivity). rewrite E.
  split; [vm_compute; split; discriminate|]. split; [reflexivity|].
  replace (pte CloneDemo.writable root SP) with (pte CloneDemo.writable root PAGE_VA); [rewrite CloneDemo.writable_entry; reflexivity|].
  apply pte_path. intros d Hd. assert (d = 0 ∨ d = 1 ∨ d = 2 ∨ d = 3)%nat as [->|[->|[->| ->]]] by lia; reflexivity.
Qed.

Lemma mc_ok : xsave_ok mc ∧ mem_bytes (live_fpu mc) ∧ 0 ≤ ring3_trampoline mc < 2 ^ 64.
Proof.
  split_and!; [split; [vm_compute; discriminate|reflexivity]|intros a; apply Z.mod_pos_bound; lia|discriminate|reflexivity].
Qed.

Definition ret : Z := (proc_fork mc k0 1).1.
Definition forked0 : kern pmm := (proc_fork mc k0 1).2.
Lemma fork_succeeds : ret = 3 ∧ xstate (proc (k_sched forked0) 3) ≠ 0.
Proof. split; vm_compute; [reflexivity|discriminate]. Qed.
Lemma fork_result : proc_fork mc k0 1 = (ret, forked0).
Proof. exact (surjective_pairing _). Qed.
#[global] Strategy 100 [ret forked0].

Lemma proc_fork_spec_witness :
  ∃ phys ks xs, forked mc k0 2 [root] (λ _, []) [STACK; AREA] own 3 phys ks xs forked0.
Proof.
  destruct mc_ok as (H1 & H2 & H3). pose proof (proc_fork_spec mc k0 1 [root] (λ _, []) [STACK; AREA] own STACK H1 H2 H3) as H.
  rewrite (proj1 parent_slot) in H. specialize (H fork_ready fork_stack). cbv zeta in H.
  rewrite fork_result in H. rewrite (proj1 fork_succeeds) in H.
  destruct H as [[H _]|[_ H]]; [discriminate H|exact H].
Defined.

(** The other CPU switches from its idle process to the child. *)
Definition k2 : kern pmm := with_sched forked0 (switch_to (k_sched forked0) 0 0 3 0x200 0x20000).
Lemma with_sched_heap (k : kern pmm) s : k_heap (with_sched k s) = k_heap k.
Proof. reflexivity. Qed.
Lemma k2_dispatched : dispatched mc forked0 k2 0 3.
Proof.
  split; [vm_compute; reflexivity|]. split; [vm_compute; reflexivity|]. unfold k2. rewrite with_sched_heap.
  generalize (hmem (k_heap forked0)) (xstate (proc (k_sched forked0) 3)). intros m a j Hj. reflexivity.
Qed.

Lemma fork_child_resumes_witness :
  let '(entry, mc'', _) := trampoline_run mc k2 0 in
  entry = EnterFork (pml4_phys (proc (k_sched forked0) 3)) 0x400123 (SP + 8) [1; 2; 3; 4; 5; 0; 0; 0; 0; 0; 0; 0] 0x246 ∧
  live_fpu mc'' 24 = 24.
Proof.
  destruct mc_ok as (H1 & H2 & H3).
  pose proof (fork_child_resumes mc k0 1 [root] (λ _, []) [STACK; AREA] own STACK 3 forked0 k2 mc 0 H1 H2 H3) as H.
  cbv zeta in H. rewrite (proj1 parent_slot) in H. specialize (H fork_ready fork_stack).
  assert (E : proc_fork mc k0 1 = (3, forked0)) by (rewrite <- (proj1 fork_succeeds); exact fork_result).
  assert (Ex : xstate (proc (k_sched k0) 2) ≠ 0) by (change (k_sched k0) with sched0; rewrite (proj1 (proj2 (proj2 (proj2 parent_slot)))); discriminate).
  specialize (H E ltac:(discriminate) k2_dispatched eq_refl (proj2 fork_succeeds) Ex).
  destruct (trampoline_run mc k2 0) as [[entry mc''] k3]. destruct H as [-> Hf]. split.
  - f_equal; vm_compute; reflexivity.
  - rewrite (Hf 24) by (split; [discriminate|reflexivity]). reflexivity.
Defined.

(** The address space of a thread.  [clone] with [CLONE_VM] counts the new
    reference in the parent's slot and starts the child's own count at 1, and
    [proc_exit] decrements the count of the exiting slot: when the thread exits,
    the address space its process is still running in is destroyed and its PML4
    is freed. *)
Theorem thread_exit_destroys_live_space :
  match proc_clone mc k0 1 (Z.lor CLONE_VM CLONE_THREAD) SP 0 0 with
  | Some (t, k') =>
      let '(eff, s') := proc_exit (k_sched k') 0 t true in
      t = 3 ∧ In (DestroyUser root) eff ∧ In (FreeFrame (pml4_phys (proc s' 2))) eff ∧
      cur s' 1 = 2 ∧ state (proc s' 2) = PROC_RUNNING ∧ pml4_virt (proc s' 2) = root ∧ pml4_refcount (proc s' 2) = 2
  | None => False
  end.
Proof. vm_compute. split_and!; auto. Qed.

(** Between [proc_create] and [proc_make_ready] the slot of a new thread is DEAD
    and marked reaped, which is what the next [proc_create] looks for. *)
Lemma thread_slot_is_free flags p x :
  has flags CLONE_THREAD = true → state x = PROC_DEAD → slot_free (clone_identity p flags x) = true.
Proof. intros Hf Hs. unfold clone_identity. rewrite Hf. apply slot_free_true. done. Qed.
End ForkDemo.
