(* ===== verification/Xfs.v ===== *)
(** * The X OS file system

    Models [kernel/fs/xfs.c]: block bitmap, inodes, path resolution, directories,
    file descriptors, reading, writing, truncating and unlinking, over any block
    device of [Block.v].

    A block buffer and an inode are byte memories; the fields of the on-disk
    structures are little-endian accesses at their offsets.  [junk] is what an
    uninitialised stack object holds: the source ignores the result of
    [block_read], so a failed read leaves it in the buffer.  A path is the list
    of its bytes; reading past its end gives the terminating 0.  Each operation
    runs under [xfs_lock]; [pid] is the caller's. *)

From S2P Require Import Prelude Mem CString Block.

Definition XFS_MAGIC : Z := 0x58465331.
Definition XFS_VERSION : Z := 1.
Definition XFS_BLOCK_SIZE : Z := 4096.
Definition XFS_NAME_MAX : Z := 64.
Definition XFS_MAX_FDS : Z := 32.
Definition XFS_O_WRONLY : Z := 1.
Definition XFS_O_RDWR : Z := 2.
Definition XFS_O_CREAT : Z := 4.

(** [xfs_dirent_t]: 76 bytes, 53 to a block; [xfs_inode_t]: 3676 bytes. *)
Definition DIRENT_SIZE : Z := 76.
Definition MAX_DENTS : Z := XFS_BLOCK_SIZE / DIRENT_SIZE.
Definition MAX_DIRECT : Z := 900.
Definition INODE_SIZE : Z := 3676.

Definition dent_name (sector : mem) (d : Z) : str := λ i, sector (d * DIRENT_SIZE + i).
Definition dent_inode (sector : mem) (d : Z) : Z := load_le sector (d * DIRENT_SIZE + 64) 4.

Definition i_size (i : mem) : Z := load_le i 64 4.
Definition i_flags (i : mem) : Z := load_le i 68 2.
Definition i_block_count (i : mem) : Z := load_le i 70 2.
Definition i_data_block (i : mem) (k : Z) : Z := load_le i (72 + 4 * k) 4.
Definition set_i_size (i : mem) (v : Z) : mem := store_le i 64 4 v.
Definition set_i_flags (i : mem) (v : Z) : mem := store_le i 68 2 v.
Definition set_i_block_count (i : mem) (v : Z) : mem := store_le i 70 2 v.
Definition set_i_data_block (i : mem) (k v : Z) : mem := store_le i (72 + 4 * k) 4 v.

(** The object of [n] zero bytes at the start of [m] ([memset]). *)
Definition zeroed (m : mem) (off n : Z) : mem := λ a, if (off <=? a) && (a <? off + n) then 0 else m a.

(** [strncpy(&m[off], name, n)]: the name, then zeros up to [n] bytes. *)
Definition strncpy_at (m : mem) (off : Z) (name : list Z) (n : Z) : mem :=
  λ a, if (off <=? a) && (a <? off + n) then name.[a - off] else m a.

(** [xfs_fd_entry_t] *)
Record xfs_fd := mkFd { fd_pid : Z; fd_inode : Z; fd_offset : Z; fd_flags : Z; fd_used : bool }.
Definition fd_zero : xfs_fd := mkFd 0 0 0 0 false.
#[export] Instance fd_inhabited : Inhabited xfs_fd := populate fd_zero.

Section xfs.
Context {D : Type} `{!BlockDev D}.
Variable junk : mem.

(** The runtime state of the mounted file system. *)
Record xfs := mkXfs {
  g_dev : D;
  g_total : Z;
  g_bitmap_blocks : Z;
  g_data_start : Z;
  g_root_block : Z;
  g_fds : list xfs_fd;
}.

Definition with_dev (s : xfs) (d : D) : xfs :=
  mkXfs d (g_total s) (g_bitmap_blocks s) (g_data_start s) (g_root_block s) (g_fds s).
Definition with_fds (s : xfs) (l : list xfs_fd) : xfs :=
  mkXfs (g_dev s) (g_total s) (g_bitmap_blocks s) (g_data_start s) (g_root_block s) l.

(** A buffer after [block_read(g_dev, b, 1, buf)]; [block_write(g_dev, b, 1, buf)]. *)
Definition rd (s : xfs) (b : Z) : mem := (block_read (g_dev s) b 1 junk).2.
Definition wr (s : xfs) (b : Z) (buf : mem) : xfs := with_dev s (block_write (g_dev s) b 1 buf).2.

(** ** Bitmap *)

Definition bitmap_set (s : xfs) (block : Z) (used : bool) : xfs :=
  let byte := block / 8 in
  let bit := block mod 8 in
  let buf := rd s (1 + byte / XFS_BLOCK_SIZE) in
  let i := byte mod XFS_BLOCK_SIZE in
  let v := if used then u8 (Z.lor (buf i) (Z.shiftl 1 bit)) else u8 (Z.land (buf i) (Z.lnot (Z.shiftl 1 bit))) in
  wr s (1 + byte / XFS_BLOCK_SIZE) (st8 buf i v).

Definition bitmap_get (s : xfs) (block : Z) : bool :=
  let byte := block / 8 in
  let bit := block mod 8 in
  let buf := rd s (1 + byte / XFS_BLOCK_SIZE) in
  Z.land (Z.shiftr (buf (byte mod XFS_BLOCK_SIZE)) bit) 1 =? 1.

Definition alloc_block (s : xfs) : Z * xfs :=
  match find_up (λ b, negb (bitmap_get s b)) (g_data_start s) (Z.to_nat (g_total s - g_data_start s)) with
  | Some b => (b, bitmap_set s b true)
  | None => (0, s)
  end.

Definition free_block (s : xfs) (block : Z) : xfs :=
  if g_total s <=? block then s else bitmap_set s block false.

(** ** Inodes *)

Definition read_inode (s : xfs) (block : Z) : mem := blit junk 0 (rd s block) 0 INODE_SIZE.
Definition write_inode (s : xfs) (block : Z) (inode : mem) : xfs :=
  wr s block (blit (rd s block) 0 inode 0 INODE_SIZE).

(** ** Path resolution *)

Definition SLASH : Z := 47.

(** Length of the component at [p]: up to a slash, the end, or 63 bytes. *)
Fixpoint comp_len (fuel : nat) (path : list Z) (p i : Z) : Z :=
  match fuel with
  | O => i
  | S fuel =>
      if negb (path.[p + i] =? 0) && negb (path.[p + i] =? SLASH) && (i <? XFS_NAME_MAX - 1)
      then comp_len fuel path p (i + 1) else i
  end.
(** [buf]: the component with its terminator. *)
Definition comp_name (path : list Z) (p i : Z) : str :=
  λ k, if k <? i then path.[p + k] else if k =? i then 0 else junk k.

Definition dent_matches (sector : mem) (name : str) (d : Z) : bool :=
  negb (dent_inode sector d =? 0) && (strcmp 65 (dent_name sector d) name =? 0).

(** The directory scan over data blocks [db ..]: the inode of the first entry
    with the name. *)
Fixpoint dir_lookup (n : nat) (s : xfs) (dir : mem) (name : str) (db : Z) : option Z :=
  match n with
  | O => None
  | S n =>
      let b := i_data_block dir db in
      if b =? 0 then dir_lookup n s dir name (db + 1)
      else
        match find_up (dent_matches (rd s b) name) 0 (Z.to_nat MAX_DENTS) with
        | Some d => Some (dent_inode (rd s b) d)
        | None => dir_lookup n s dir name (db + 1)
        end
  end.

Fixpoint resolve_loop (fuel : nat) (s : xfs) (path : list Z) (p : Z) (out : mem) : Z * mem :=
  match fuel with
  | O => (0, out)
  | S fuel =>
      let i := comp_len (Z.to_nat XFS_NAME_MAX) path p 0 in
      match dir_lookup (Z.to_nat (i_block_count out)) s out (comp_name path p i) 0 with
      | None => (0, out)
      | Some next_block =>
          let out := read_inode s next_block in
          let p := p + i in
          let p := if path.[p] =? SLASH then p + 1 else p in
          if path.[p] =? 0 then (next_block, out) else resolve_loop fuel s path p out
      end
  end.

(** [resolve_path]: the inode block (0: not found) and the [out] parameter. *)
Definition resolve_path (s : xfs) (path : list Z) : Z * mem :=
  if negb (path.[0] =? SLASH) then (0, junk)
  else
    let out := read_inode s (g_root_block s) in
    if Z.land (i_flags out) 1 =? 0 then (0, out)
    else if path.[1] =? 0 then (g_root_block s, out)
    else resolve_loop (length path) s path 1 out.

(** ** Format and mount *)

Definition xfs_format (dev : D) (fds : list xfs_fd) : xfs :=
  let total := block_count dev in
  let bb := (total + 8 * XFS_BLOCK_SIZE - 1) / (8 * XFS_BLOCK_SIZE) in
  let bb := if bb <? 1 then 1 else bb in
  let ds := 1 + bb in
  let s := mkXfs dev total bb ds ds fds in
  let zero := zeroed junk 0 XFS_BLOCK_SIZE in
  let s := iter_up (λ i s, wr s i zero) 1 (Z.to_nat (total - 1)) s in
  let sb := store_le zero 0 4 XFS_MAGIC in
  let sb := store_le sb 4 4 XFS_VERSION in
  let sb := store_le sb 8 8 total in
  let sb := store_le sb 16 8 (u64 (total - (ds + 2))) in
  let sb := store_le sb 24 8 ds in
  let sb := store_le sb 32 8 bb in
  let sb := store_le sb 40 8 ds in
  let s := wr s 0 sb in
  let s := iter_up (λ b s, bitmap_set s b true) 0 (Z.to_nat (ds + 2)) s in
  let root := strncpy_at zero 0 [SLASH] 2 in
  let root := set_i_data_block (set_i_block_count (set_i_flags root 1) 1) 0 (ds + 1) in
  wr s ds root.

Definition xfs_mount (dev : D) : option xfs :=
  let sb := (block_read dev 0 1 junk).2 in
  if negb (load_le sb 0 4 =? XFS_MAGIC) then None
  else Some (mkXfs dev (load_le sb 8 8) (load_le sb 32 8) (load_le sb 40 8) (load_le sb 24 8)
                   (replicate (Z.to_nat XFS_MAX_FDS) fd_zero)).

(** ** Creating *)

(** Index of the last slash of the path. *)
Definition last_slash (path : list Z) : Z :=
  iter_up (λ i best, if path.[i] =? SLASH then i else best) 0 (length path) 0.

(** The inode of the parent directory of a path: 0 if there is none. *)
Definition parent_of (s : xfs) (path : list Z) : Z :=
  let ls := last_slash path in
  if ls =? 0 then g_root_block s
  else
    let plen := if XFS_NAME_MAX <=? ls then XFS_NAME_MAX - 1 else ls in
    (resolve_path s (take (Z.to_nat plen) path)).1.

(** The new inode of a file or directory. *)
Definition new_inode (name : list Z) (flags data : Z) : mem :=
  let i := zeroed junk 0 INODE_SIZE in
  let i := strncpy_at i 0 name (XFS_NAME_MAX - 1) in
  set_i_data_block (set_i_block_count (set_i_flags i flags) 1) 0 data.

(** Entry [d] of a directory block, filled in. *)
Definition put_dirent (sector : mem) (d : Z) (name : list Z) (ino flags : Z) : mem :=
  let o := d * DIRENT_SIZE in
  let m := strncpy_at sector o name (XFS_NAME_MAX - 1) in
  store_le (store_le (store_le m (o + 64) 4 ino) (o + 68) 4 0) (o + 72) 2 flags.

(** Adds a dirent in the first free entry of the directory; [false] if full. *)
Fixpoint add_dirent (n : nat) (s : xfs) (dir : mem) (name : list Z) (ino flags db : Z) : bool * xfs :=
  match n with
  | O => (false, s)
  | S n =>
      let b := i_data_block dir db in
      let sector := rd s b in
      match find_up (λ d, dent_inode sector d =? 0) 0 (Z.to_nat MAX_DENTS) with
      | Some d => (true, wr s b (put_dirent sector d name ino flags))
      | None => add_dirent n s dir name ino flags (db + 1)
      end
  end.

(** The part [xfs_open] and [xfs_mkdir] share: allocate and write the inode of
    [path] and enter it in its parent; the new inode block, 0 on failure. *)
Definition create (s : xfs) (path : list Z) (flags : Z) : Z * xfs :=
  let parent := parent_of s path in
  if parent =? 0 then (0, s)
  else
    let name := drop (Z.to_nat (last_slash path + 1)) path in
    if name.[0] =? 0 then (0, s)
    else
      let '(new_ino, s1) := alloc_block s in
      if new_ino =? 0 then (0, s1)
      else
        let '(new_data, s2) := alloc_block s1 in
        if new_data =? 0 then (0, free_block s2 new_ino)
        else
          let s3 := write_inode s2 new_ino (new_inode name flags new_data) in
          let dir := read_inode s3 parent in
          let '(added, s4) := add_dirent (Z.to_nat (i_block_count dir)) s3 dir name new_ino flags 0 in
          if added then (new_ino, s4)
          else (0, free_block (free_block s4 new_data) new_ino).

(** ** Descriptors *)

Definition alloc_fd (s : xfs) (ino flags pid : Z) : Z * xfs :=
  match find_up (λ i, negb (fd_used (g_fds s).[i])) 0 (Z.to_nat XFS_MAX_FDS) with
  | Some i => (i, with_fds s ((g_fds s).[i <- mkFd (u32 pid) (u32 ino) 0 flags true]))
  | None => (-1, s)
  end.

Definition xfs_open (s : xfs) (path : list Z) (flags pid : Z) : Z * xfs :=
  if negb (path.[0] =? SLASH) then (-1, s)
  else
    let ino := (resolve_path s path).1 in
    if (ino =? 0) && negb (Z.land flags XFS_O_CREAT =? 0) then
      let '(ino, s) := create s path 0 in
      if ino =? 0 then (-1, s) else alloc_fd s ino flags pid
    else if ino =? 0 then (-1, s)
    else alloc_fd s ino flags pid.

Definition fd_ok (s : xfs) (fd pid : Z) : bool :=
  fd_used (g_fds s).[fd] && (fd_pid (g_fds s).[fd] =? pid).
Definition bad_fd (fd : Z) : bool := (fd <? 0) || (XFS_MAX_FDS <=? fd).

Definition set_offset (s : xfs) (fd off : Z) : xfs :=
  let f := (g_fds s).[fd] in
  with_fds s ((g_fds s).[fd <- mkFd (fd_pid f) (fd_inode f) off (fd_flags f) (fd_used f)]).

Definition xfs_close (s : xfs) (fd : Z) : xfs :=
  if bad_fd fd then s
  else if negb (fd_used (g_fds s).[fd]) then s
  else
    let f := (g_fds s).[fd] in
    with_fds s ((g_fds s).[fd <- mkFd (fd_pid f) (fd_inode f) (fd_offset f) (fd_flags f) false]).

(** ** Reading and writing

    Each turn of the loops moves at least one byte, so [count] turns suffice. *)
Fixpoint read_loop (fuel : nat) (s : xfs) (inode : mem) (off count done : Z) (buf : mem) : Z * mem :=
  match fuel with
  | O => (done, buf)
  | S fuel =>
      if negb (done <? count) then (done, buf)
      else
        let file_off := u32 (off + u32 done) in
        let block_idx := file_off / XFS_BLOCK_SIZE in
        let block_off := file_off mod XFS_BLOCK_SIZE in
        if i_block_count inode <=? block_idx then (done, buf)
        else
          let b := i_data_block inode block_idx in
          if b =? 0 then (done, buf)
          else
            let chunk := XFS_BLOCK_SIZE - block_off in
            let chunk := if count - done <? chunk then count - done else chunk in
            read_loop fuel s inode off count (done + chunk) (blit buf done (rd s b) block_off chunk)
  end.

(** Result, the caller's buffer, the state. *)
Definition xfs_read (s : xfs) (fd : Z) (buf : mem) (count pid : Z) : Z * mem * xfs :=
  if bad_fd fd then (-1, buf, s)
  else if negb (fd_ok s fd pid) then (-1, buf, s)
  else if count =? 0 then (0, buf, s)
  else
    let f := (g_fds s).[fd] in
    let inode := read_inode s (fd_inode f) in
    if i_size inode <=? fd_offset f then (0, buf, s)
    else
      let remain := i_size inode - fd_offset f in
      let count := if remain <? count then remain else count in
      let '(done, buf) := read_loop (Z.to_nat count) s inode (fd_offset f) count 0 buf in
      (s32 done, buf, set_offset s fd (u32 (fd_offset f + u32 done))).

Fixpoint write_loop (fuel : nat) (s : xfs) (inode : mem) (off count done : Z) (buf : mem) : Z * mem * xfs :=
  match fuel with
  | O => (done, inode, s)
  | S fuel =>
      if negb (done <? count) then (done, inode, s)
      else
        let file_off := u32 (off + u32 done) in
        let block_idx := file_off / XFS_BLOCK_SIZE in
        let block_off := file_off mod XFS_BLOCK_SIZE in
        let grown :=
          if i_block_count inode <=? block_idx then
            if MAX_DIRECT <=? i_block_count inode then None
            else
              let '(nb, s) := alloc_block s in
              if nb =? 0 then None
              else
                let inode := set_i_data_block inode (i_block_count inode) nb in
                Some (set_i_block_count inode (i_block_count inode + 1), s)
          else Some (inode, s) in
        match grown with
        | None => (done, inode, s)
        | Some (inode, s) =>
            let b := i_data_block inode block_idx in
            if b =? 0 then (done, inode, s)
            else
              let sector := if negb (block_off =? 0) || (count - done <? XFS_BLOCK_SIZE)
                            then rd s b else zeroed junk 0 XFS_BLOCK_SIZE in
              let chunk := XFS_BLOCK_SIZE - block_off in
              let chunk := if count - done <? chunk then count - done else chunk in
              let s := wr s b (blit sector block_off buf done chunk) in
              write_loop fuel s inode off count (done + chunk) buf
        end
  end.

Definition xfs_write (s : xfs) (fd : Z) (buf : mem) (count pid : Z) : Z * xfs :=
  if bad_fd fd then (-1, s)
  else if negb (fd_ok s fd pid) then (-1, s)
  else if count =? 0 then (0, s)
  else
    let f := (g_fds s).[fd] in
    if Z.land (fd_flags f) (Z.lor XFS_O_WRONLY XFS_O_RDWR) =? 0 then (-1, s)
    else
      let inode := read_inode s (fd_inode f) in
      let '(done, inode, s) := write_loop (Z.to_nat count) s inode (fd_offset f) count 0 buf in
      let new_size := u32 (fd_offset f + u32 done) in
      let inode := if i_size inode <? new_size then set_i_size inode new_size else inode in
      (s32 done, write_inode (set_offset s fd new_size) (fd_inode f) inode).

(** ** The other operations *)

Definition xfs_mkdir (s : xfs) (path : list Z) : Z * xfs :=
  if negb (path.[0] =? SLASH) then (-1, s)
  else if negb ((resolve_path s path).1 =? 0) then (-1, s)
  else let '(ino, s) := create s path 1 in (if ino =? 0 then -1 else 0, s).

(** The used entries of a directory block, as the bytes of each dirent. *)
Definition dirent_bytes (sector : mem) (d : Z) : mem := λ i, sector (d * DIRENT_SIZE + i).
Definition block_dirents (sector : mem) : list mem :=
  map (dirent_bytes sector)
      (filter (λ d, dent_inode sector d ≠ 0) (map Z.of_nat (seq 0 (Z.to_nat MAX_DENTS)))).
Fixpoint all_dirents (n : nat) (s : xfs) (dir : mem) (db : Z) : list mem :=
  match n with
  | O => []
  | S n =>
      let b := i_data_block dir db in
      (if b =? 0 then [] else block_dirents (rd s b)) ++ all_dirents n s dir (db + 1)
  end.

(** The entries stored, at most [max]; [inl r] is an error or empty result. *)
Definition xfs_readdir (s : xfs) (fd max pid : Z) : Z + list mem :=
  if bad_fd fd then inl (-1)
  else if negb (fd_ok s fd pid) then inl (-1)
  else if max <=? 0 then inl 0
  else
    let inode := read_inode s (fd_inode (g_fds s).[fd]) in
    if Z.land (i_flags inode) 1 =? 0 then inl (-1)
    else inr (take (Z.to_nat max) (all_dirents (Z.to_nat (i_block_count inode)) s inode 0)).

Definition SEEK_SET : Z := 0.
Definition SEEK_CUR : Z := 1.
Definition SEEK_END : Z := 2.

Definition xfs_lseek (s : xfs) (fd offset whence pid : Z) : Z * xfs :=
  if bad_fd fd then (-1, s)
  else if negb (fd_ok s fd pid) then (-1, s)
  else
    let f := (g_fds s).[fd] in
    let inode := read_inode s (fd_inode f) in
    let base := if whence =? SEEK_SET then Some offset
                else if whence =? SEEK_CUR then Some (s32 (s32 (fd_offset f) + offset))
                else if whence =? SEEK_END then Some (s32 (s32 (i_size inode) + offset)) else None in
    match base with
    | None => (-1, s)
    | Some new_off => if new_off <? 0 then (-1, s) else (new_off, set_offset s fd (u32 new_off))
    end.

(** The dirent [xfs_stat] and [xfs_fstat] fill in. *)
Definition stat_out (inode : mem) (ino : Z) : mem :=
  let o := zeroed junk 0 DIRENT_SIZE in
  let o := strncpy_at o 0 (map (λ i, inode (Z.of_nat i)) (seq 0 (Z.to_nat (strlen 64 inode)))) (XFS_NAME_MAX - 1) in
  store_le (store_le (store_le o 64 4 ino) 68 4 (i_size inode)) 72 2 (i_flags inode).

Definition xfs_stat (s : xfs) (path : list Z) : option mem :=
  let '(ino, inode) := resolve_path s path in
  if ino =? 0 then None else Some (stat_out inode ino).

Definition xfs_fstat (s : xfs) (fd pid : Z) : option mem :=
  if bad_fd fd then None
  else if negb (fd_ok s fd pid) then None
  else let f := (g_fds s).[fd] in Some (stat_out (read_inode s (fd_inode f)) (fd_inode f)).

(** Frees the data blocks [k .. k + n - 1] of an inode. *)
Definition free_data (n : nat) (s : xfs) (inode : mem) : xfs :=
  iter_up (λ i s, if i_data_block inode i =? 0 then s else free_block s (i_data_block inode i)) 0 n s.

(** Removes the first dirent of the directory that names inode [ino]. *)
Fixpoint remove_dirent (n : nat) (s : xfs) (dir : mem) (ino db : Z) : option xfs :=
  match n with
  | O => None
  | S n =>
      let b := i_data_block dir db in
      if b =? 0 then remove_dirent n s dir ino (db + 1)
      else
        let sector := rd s b in
        match find_up (λ d, dent_inode sector d =? u32 ino) 0 (Z.to_nat MAX_DENTS) with
        | Some d => Some (wr s b (zeroed sector (d * DIRENT_SIZE) DIRENT_SIZE))
        | None => remove_dirent n s dir ino (db + 1)
        end
  end.

Definition xfs_unlink (s : xfs) (path : list Z) : Z * xfs :=
  if negb (path.[0] =? SLASH) then (-1, s)
  else
    let '(ino, inode) := resolve_path s path in
    if ino =? 0 then (-1, s)
    else if negb (Z.land (i_flags inode) 1 =? 0) then (-1, s)
    else
      let parent := parent_of s path in
      if parent =? 0 then (-1, s)
      else
        let dir := read_inode s parent in
        match remove_dirent (Z.to_nat (i_block_count dir)) s dir ino 0 with
        | None => (-1, s)
        | Some s => (0, free_block (free_data (Z.to_nat (i_block_count inode)) s inode) ino)
        end.

(** The loops of [xfs_ftruncate]. *)
Definition shrink (s : xfs) (inode : mem) (needed : Z) : mem * xfs :=
  iter_up (λ i '(inode, s),
             if i_data_block inode i =? 0 then (inode, s)
             else (set_i_data_block inode i 0, free_block s (i_data_block inode i)))
          needed (Z.to_nat (i_block_count inode - needed)) (inode, s).
Fixpoint extend (fuel : nat) (s : xfs) (inode : mem) (needed i : Z) : mem * xfs :=
  match fuel with
  | O => (inode, s)
  | S fuel =>
      if negb ((i <? needed) && (i <? MAX_DIRECT)) then (inode, s)
      else
        let '(nb, s) := alloc_block s in
        if nb =? 0 then (inode, s)
        else
          let inode := set_i_data_block inode i nb in
          let s := wr s nb (zeroed junk 0 XFS_BLOCK_SIZE) in
          extend fuel s (set_i_block_count inode (i + 1)) needed (i + 1)
  end.

Definition xfs_ftruncate (s : xfs) (fd size pid : Z) : Z * xfs :=
  if bad_fd fd then (-1, s)
  else if negb (fd_ok s fd pid) then (-1, s)
  else if size <? 0 then (-1, s)
  else
    let f := (g_fds s).[fd] in
    let inode := read_inode s (fd_inode f) in
    let needed := u32 (u32 size + XFS_BLOCK_SIZE - 1) / XFS_BLOCK_SIZE in
    let '(inode, s) :=
      if u32 size <=? i_size inode then
        let '(inode, s) := shrink s inode needed in (set_i_block_count inode needed, s)
      else extend (Z.to_nat MAX_DIRECT) s inode needed (i_block_count inode) in
    (0, write_inode s (fd_inode f) (set_i_size inode (u32 size))).

Definition xfs_exists (s : xfs) (path : list Z) : Z :=
  if negb (path.[0] =? SLASH) then 0 else if (resolve_path s path).1 =? 0 then 0 else 1.
End xfs.
#[global] Arguments xfs D : clear implicits.
