(* ===== verification/XfsProofs.v ===== *)
(** * Correctness of the file system

    Over any block device that satisfies the laws of [Block.v]: the block
    allocator, reading and writing of files, and formatting. *)

From S2P Require Import Prelude Mem CString Block Xfs.

Section proofs.
Context {D : Type} `{!BlockDev D} `{!BlockDevLaws D}.
Variable junk : mem.
Implicit Types (s : xfs D) (i inode : mem).

Abbreviation rd := (rd junk).
Abbreviation bitmap_get := (bitmap_get junk).
Abbreviation bitmap_set := (bitmap_set junk).
Abbreviation alloc_block := (alloc_block junk).
Abbreviation read_inode := (read_inode junk).
Abbreviation write_inode := (write_inode junk).

(** Byte [a] of block [b] of the disk. *)
Definition data s (b a : Z) : Z := dev_data (g_dev s) b a.

(** The geometry: superblock, bitmap, data blocks; every block pointer fits in
    32 bits and has its bit in the bitmap. *)
Record fs_ok s : Prop := {
  ok_dev : dev_ok (g_dev s);
  ok_bb : 1 ≤ g_bitmap_blocks s;
  ok_start : g_data_start s = 1 + g_bitmap_blocks s;
  ok_total : g_data_start s < g_total s ≤ block_count (g_dev s);
  ok_bits : g_total s ≤ g_bitmap_blocks s * 8 * XFS_BLOCK_SIZE;
  ok_32 : g_total s < 2 ^ 32;
}.

(** Same file system, other disk contents. *)
Definition fs_same s s' : Prop :=
  g_total s' = g_total s ∧ g_bitmap_blocks s' = g_bitmap_blocks s ∧ g_data_start s' = g_data_start s ∧
  g_root_block s' = g_root_block s ∧ g_fds s' = g_fds s.
#[export] Instance fs_same_refl : Reflexive fs_same.
Proof. by intros s. Qed.
#[export] Instance fs_same_trans : Transitive fs_same.
Proof. intros s1 s2 s3 (?&?&?&?&?) (?&?&?&?&?). unfold fs_same. split_and!; congruence. Qed.

Lemma rd_data s b a : fs_ok s → 0 ≤ b < g_total s → 0 ≤ a < XFS_BLOCK_SIZE → rd s b a = data s b a.
Proof.
  intros F Hb Ha. destruct (ok_total _ F). apply (dev_read_data (g_dev s) b junk); [apply F|lia|done].
Qed.

Lemma wr_ok s b buf : fs_ok s → 0 ≤ b < g_total s →
  fs_ok (wr s b buf) ∧ fs_same s (wr s b buf) ∧
  ∀ x a, 0 ≤ x < g_total s → 0 ≤ a < XFS_BLOCK_SIZE →
    data (wr s b buf) x a = if x =? b then buf a else data s x a.
Proof.
  intros F Hb. pose proof F as [F1 F2 F3 F4 F5 F6].
  destruct (dev_write_data (g_dev s) b buf) as (_ & W1 & W2 & W3); [done|lia|]. split_and!; try done.
  - by split; cbn; rewrite ?W2.
  - intros x a Hx Ha. unfold data, wr. cbn. apply W3; [lia|done].
Qed.

(** ** Bitmap *)

(** The block and the byte of the bitmap that hold the bit of block [b]. *)
Definition bit_block (b : Z) : Z := 1 + b / 8 / XFS_BLOCK_SIZE.
Definition bit_byte (b : Z) : Z := (b / 8) mod XFS_BLOCK_SIZE.

Lemma bit_place s b : fs_ok s → 0 ≤ b < g_total s →
  0 < bit_block b < g_data_start s ∧ 0 ≤ bit_byte b < XFS_BLOCK_SIZE ∧ 0 ≤ b mod 8 < 8.
Proof.
  intros F Hb. destruct F. unfold bit_block, bit_byte, XFS_BLOCK_SIZE in *.
  pose proof (Z.mod_pos_bound (b / 8) 4096). pose proof (Z.mod_pos_bound b 8).
  rewrite Z.div_div by lia. assert (0 ≤ b / (8 * 4096) < g_bitmap_blocks s); [|lia].
  split; [apply Z.div_pos; lia|apply Z.div_lt_upper_bound; lia].
Qed.

Lemma bit_place_inj b c : 0 ≤ b → 0 ≤ c →
  bit_block b = bit_block c → bit_byte b = bit_byte c → b mod 8 = c mod 8 → b = c.
Proof.
  intros Hb Hc. unfold bit_block, bit_byte, XFS_BLOCK_SIZE. intros H1 H2 H3.
  pose proof (Z.div_mod b 8). pose proof (Z.div_mod c 8).
  pose proof (Z.div_mod (b / 8) 4096). pose proof (Z.div_mod (c / 8) 4096). lia.
Qed.

Lemma bitmap_get_bit s b : fs_ok s → 0 ≤ b < g_total s →
  bitmap_get s b = Z.testbit (data s (bit_block b) (bit_byte b)) (b mod 8).
Proof.
  intros F Hb. destruct (bit_place s b F Hb) as (H1 & H2 & H3). unfold Xfs.bitmap_get.
  fold (bit_block b) (bit_byte b). rewrite rd_data by (done || (destruct F; lia)).
  rewrite land_1_testbit by lia. by destruct (Z.testbit _ _).
Qed.

Lemma byte_set_bit v k j (u : bool) : 0 ≤ k < 8 → 0 ≤ j < 8 →
  Z.testbit (if u then u8 (Z.lor v (Z.shiftl 1 k)) else u8 (Z.land v (Z.lnot (Z.shiftl 1 k)))) j =
  if k =? j then u else Z.testbit v j.
Proof.
  intros Hk Hj. destruct u; rewrite u8_testbit by lia; destruct (Z.ltb_spec j 8); try lia; rewrite andb_true_r.
  - rewrite Z.lor_spec, testbit_shiftl_1 by lia. destruct (k =? j); [apply orb_true_r|apply orb_false_r].
  - rewrite Z.land_spec, Z.lnot_spec, testbit_shiftl_1 by lia. destruct (k =? j); [apply andb_false_r|apply andb_true_r].
Qed.

(** Setting a bit changes that bit of the bitmap and nothing else on the disk. *)
Lemma bitmap_set_ok s b u : fs_ok s → 0 ≤ b < g_total s →
  fs_ok (bitmap_set s b u) ∧ fs_same s (bitmap_set s b u) ∧
  (∀ x, 0 ≤ x < g_total s → bitmap_get (bitmap_set s b u) x = if b =? x then u else bitmap_get s x) ∧
  (∀ x a, 0 ≤ x < g_total s → x < 1 ∨ g_data_start s ≤ x → 0 ≤ a < XFS_BLOCK_SIZE →
     data (bitmap_set s b u) x a = data s x a).
Proof.
  intros F Hb. destruct (bit_place s b F Hb) as (H1 & H2 & H3). pose proof (ok_total _ F) as Ht.
  unfold Xfs.bitmap_set. fold (bit_block b) (bit_byte b). set (v := if u then _ else _).
  destruct (wr_ok s (bit_block b) (st8 (rd s (bit_block b)) (bit_byte b) v) F) as (F' & Hs & Hw); [lia|].
  set (s' := wr s _ _) in *. split_and!; [done|done| |].
  - intros x Hx. destruct (bit_place s x F Hx) as (G1 & G2 & G3).
    assert (Hx' : 0 ≤ x < g_total s') by (destruct Hs as (-> & _); done).
    rewrite bitmap_get_bit by done. rewrite Hw by lia.
    destruct (Z.eqb_spec (bit_block x) (bit_block b)) as [E1|N1].
    + unfold st8. destruct (Z.eqb_spec (bit_byte x) (bit_byte b)) as [E2|N2].
      * unfold v. rewrite byte_set_bit by done. rewrite rd_data by (done || lia).
        destruct (Z.eqb_spec (b mod 8) (x mod 8)) as [E3|N3].
        -- assert (x = b) as -> by (apply bit_place_inj; (done || lia)). by rewrite Z.eqb_refl.
        -- rewrite (proj2 (Z.eqb_neq b x)) by (intros ->; done). rewrite bitmap_get_bit, E1, E2 by done. done.
      * rewrite (proj2 (Z.eqb_neq b x)) by (intros ->; done). rewrite rd_data, bitmap_get_bit by (done || lia). by rewrite E1.
    + rewrite (proj2 (Z.eqb_neq b x)) by (intros ->; done). by rewrite bitmap_get_bit.
  - intros x a Hx Hout Ha. rewrite Hw by lia. by rewrite (proj2 (Z.eqb_neq x (bit_block b))) by lia.
Qed.

(** Block [b] is a data block. *)
Definition is_data s (b : Z) : Prop := g_data_start s ≤ b < g_total s.
Definition used s (b : Z) : Prop := bitmap_get s b = true.

Lemma wr_used s b buf x : fs_ok s → is_data s b → 0 ≤ x < g_total s → bitmap_get (wr s b buf) x = bitmap_get s x.
Proof.
  intros F Hb Hx. unfold is_data in Hb. assert (Hb0 : 0 ≤ b < g_total s) by (destruct F; lia).
  destruct (wr_ok s b buf F Hb0) as (F' & Hs & Hw). destruct (bit_place s x F Hx) as (G1 & G2 & G3).
  assert (Hx' : 0 ≤ x < g_total (wr s b buf)) by (destruct Hs as (-> & _); done).
  rewrite !bitmap_get_bit, Hw by (done || lia). by rewrite (proj2 (Z.eqb_neq (bit_block x) b)) by lia.
Qed.

Lemma alloc_block_cases s : fs_ok s →
  let '(b, s') := alloc_block s in
  (b = 0 ∧ s' = s ∧ ∀ x, is_data s x → used s x) ∨
  (is_data s b ∧ ¬ used s b ∧ (∀ x, g_data_start s ≤ x < b → used s x) ∧ fs_ok s' ∧ fs_same s s' ∧
   (∀ x, 0 ≤ x < g_total s → (used s' x ↔ used s x ∨ x = b)) ∧
   (∀ x a, is_data s x → 0 ≤ a < XFS_BLOCK_SIZE → data s' x a = data s x a)).
Proof.
  intros F. unfold Xfs.alloc_block. destruct (find_up _ _ _) as [b|] eqn:Hf.
  - right. apply find_up_Some in Hf as (Hr & Hb & Hlow). unfold is_data, used.
    assert (Hb0 : 0 ≤ b < g_total s) by (destruct F; lia).
    destruct (bitmap_set_ok s b true F Hb0) as (F' & Hs & Hg & Hd). apply negb_true_iff in Hb. split_and!; try done; try lia.
    + by rewrite Hb.
    + intros x Hx. specialize (Hlow x Hx). by apply negb_false_iff in Hlow.
    + intros x Hx. rewrite Hg by done. destruct (Z.eqb_spec b x) as [->|]; [|split; [auto|]]; [tauto|]. intros [?|?]; [done|lia].
    + intros x a Hx Ha. apply Hd; [destruct F; lia|lia|done].
  - left. rewrite find_up_None in Hf. split_and!; [done|done|]. intros x Hx. unfold is_data in Hx. unfold used.
    specialize (Hf x ltac:(lia)). by apply negb_false_iff in Hf.
Qed.

(** ** Files *)

(** A file: its inode block and data blocks are distinct allocated data blocks. *)
Record file_ok s (ino : Z) inode : Prop := {
  f_ino : is_data s ino ∧ used s ino;
  f_bc : 0 ≤ i_block_count inode ≤ MAX_DIRECT;
  f_blk : ∀ k, 0 ≤ k < i_block_count inode →
    is_data s (i_data_block inode k) ∧ used s (i_data_block inode k) ∧ i_data_block inode k ≠ ino;
  f_inj : ∀ j k, 0 ≤ j < i_block_count inode → 0 ≤ k < i_block_count inode →
    i_data_block inode j = i_data_block inode k → j = k;
}.

(** Byte [p] of the file. *)
Definition file_byte s inode (p : Z) : Z :=
  data s (i_data_block inode (p / XFS_BLOCK_SIZE)) (p mod XFS_BLOCK_SIZE).
(** Bytes the blocks of the file can hold. *)
Definition capacity inode : Z := i_block_count inode * XFS_BLOCK_SIZE.

(** The turn of a transfer loop: block, offset in the block, length. *)
Lemma turn_bounds off count dn bc :
  0 ≤ off → 0 ≤ dn < count → bc ≤ MAX_DIRECT → off + dn < bc * XFS_BLOCK_SIZE →
  let p := off + dn in
  let bi := p / XFS_BLOCK_SIZE in
  let bo := p mod XFS_BLOCK_SIZE in
  let ch := if count - dn <? XFS_BLOCK_SIZE - bo then count - dn else XFS_BLOCK_SIZE - bo in
  u32 (off + u32 dn) = p ∧ 0 ≤ bi < bc ∧ bi < MAX_DIRECT ∧ 0 ≤ bo < XFS_BLOCK_SIZE ∧ p = bi * XFS_BLOCK_SIZE + bo ∧
  0 < ch ∧ bo + ch ≤ XFS_BLOCK_SIZE ∧ dn + ch ≤ count.
Proof.
  intros H1 H2 H3 H4. cbv zeta. unfold MAX_DIRECT, XFS_BLOCK_SIZE in *.
  pose proof (Z.div_mod (off + dn) 4096 ltac:(lia)) as E. pose proof (Z.mod_pos_bound (off + dn) 4096 ltac:(lia)) as B.
  assert (0 ≤ (off + dn) / 4096 < bc) by (split; [apply Z.div_pos; lia|apply Z.div_lt_upper_bound; lia]).
  assert ((off + dn) / 4096 < 900) by (apply Z.div_lt_upper_bound; lia).
  rewrite (u32_small dn), (u32_small (off + dn)) by lia.
  destruct (Z.ltb_spec (count - dn) (4096 - (off + dn) mod 4096)); split_and!; lia.
Qed.

(** Position [q] lies in the same block as [p]. *)
Lemma same_block p q bi bo :
  p = bi * XFS_BLOCK_SIZE + bo → 0 ≤ bo < XFS_BLOCK_SIZE → p - bo ≤ q < p - bo + XFS_BLOCK_SIZE →
  q / XFS_BLOCK_SIZE = bi ∧ q mod XFS_BLOCK_SIZE = q - p + bo.
Proof.
  intros -> Hb Hq. unfold XFS_BLOCK_SIZE in *.
  assert (E : q = (q - bi * 4096) + bi * 4096) by lia. rewrite E at 1 2.
  rewrite Z.div_add, Z_mod_plus_full, Z.div_small, Z.mod_small by lia. lia.
Qed.

Lemma read_loop_spec s ino inode off count :
  fs_ok s → file_ok s ino inode → 0 ≤ off → off + count ≤ capacity inode →
  ∀ fuel dn buf, 0 ≤ dn ≤ count → (Z.to_nat (count - dn) ≤ fuel)%nat →
  let '(r, buf') := read_loop junk fuel s inode off count dn buf in
  r = count ∧ ∀ j, buf' j = if (dn <=? j) && (j <? count) then file_byte s inode (off + j) else buf j.
Proof.
  intros F Hf Ho Hc. pose proof (f_bc _ _ _ Hf) as Hbc. unfold capacity in Hc.
  induction fuel as [|fuel IH]; intros dn buf Hd Hfu; cbn [read_loop].
  { assert (dn = count) as -> by lia. split; [done|]. intros j.
    destruct (Z.leb_spec count j), (Z.ltb_spec j count); simpl; (lia || done). }
  destruct (Z.ltb_spec dn count) as [Hlt|Hge]; cbn [negb].
  2:{ assert (dn = count) as -> by lia. split; [done|]. intros j.
      destruct (Z.leb_spec count j), (Z.ltb_spec j count); simpl; (lia || done). }
  destruct (turn_bounds off count dn (i_block_count inode)) as (E & B1 & B2 & B3 & B4 & B5 & B6 & B7);
    [lia|lia|unfold MAX_DIRECT, XFS_BLOCK_SIZE in *; nia|lia|].
  rewrite E. set (bi := (off + dn) / XFS_BLOCK_SIZE) in *. set (bo := (off + dn) mod XFS_BLOCK_SIZE) in *.
  set (ch := if count - dn <? XFS_BLOCK_SIZE - bo then _ else _) in *.
  rewrite (proj2 (Z.leb_gt _ _)) by lia. destruct (f_blk _ _ _ Hf bi B1) as ([D1 D2] & _ & _).
  pose proof (ok_start _ F). pose proof (ok_bb _ F).
  rewrite (proj2 (Z.eqb_neq (i_data_block inode bi) 0)) by lia.
  specialize (IH (dn + ch) (blit buf dn (rd s (i_data_block inode bi)) bo ch) ltac:(lia) ltac:(lia)).
  destruct (read_loop junk fuel s inode off count (dn + ch) _) as [r buf']. destruct IH as [-> IH]. split; [done|].
  intros j. rewrite IH. destruct (Z.leb_spec (dn + ch) j), (Z.ltb_spec j count), (Z.leb_spec dn j); simpl; try lia; try done.
  - rewrite blit_out; [done|lia].
  - rewrite blit_in by lia. rewrite rd_data by (done || lia).
    destruct (same_block (off + dn) (off + j) bi bo) as [E1 E2]; [done|done|lia|].
    unfold file_byte. rewrite E1, E2. f_equal. lia.
  - rewrite blit_out; [done|lia].
Qed.

(** Reading the inode back. *)
Lemma load_blit dst src n a k :
  0 ≤ a → a + Z.of_nat k ≤ n → load_le (blit dst 0 src 0 n) a k = load_le src a k.
Proof. intros Ha Hk. apply load_le_ext. intros i Hi. rewrite blit_in by lia. f_equal. lia. Qed.

(** Two inodes with the same bytes. *)
Definition inode_eq (i j : mem) : Prop := ∀ a, 0 ≤ a < INODE_SIZE → i a = j a.

Lemma inode_eq_fields i j : inode_eq i j →
  i_size i = i_size j ∧ i_flags i = i_flags j ∧ i_block_count i = i_block_count j ∧
  ∀ k, 0 ≤ k < MAX_DIRECT → i_data_block i k = i_data_block j k.
Proof.
  intros H. unfold i_size, i_flags, i_block_count, i_data_block, INODE_SIZE, MAX_DIRECT in *.
  split_and!; try (apply load_le_ext; intros x Hx; apply H; unfold INODE_SIZE; lia).
  intros k Hk. apply load_le_ext. intros x Hx. apply H. unfold INODE_SIZE. lia.
Qed.

Lemma read_inode_bytes s b a : fs_ok s → 0 ≤ b < g_total s → 0 ≤ a < INODE_SIZE → read_inode s b a = data s b a.
Proof.
  intros F Hb Ha. unfold Xfs.read_inode. rewrite blit_in by lia. unfold INODE_SIZE in Ha.
  rewrite rd_data by (done || (unfold XFS_BLOCK_SIZE; lia)). f_equal. lia.
Qed.

Lemma write_read_inode s b inode :
  fs_ok s → 0 ≤ b < g_total s → inode_eq (read_inode (write_inode s b inode) b) inode.
Proof.
  intros F Hb a Ha. unfold Xfs.write_inode. destruct (wr_ok s b (blit (rd s b) 0 inode 0 INODE_SIZE) F Hb) as (F' & Hs & Hw).
  rewrite read_inode_bytes; [|done|destruct Hs as (-> & _); done|done].
  rewrite Hw by (unfold INODE_SIZE, XFS_BLOCK_SIZE in *; lia). rewrite Z.eqb_refl, blit_in by lia. f_equal. lia.
Qed.

(** ** Writing *)

(** What part of a write has done: the file has grown by allocated blocks, the
    bytes [dn .. dn') of the buffer are in place, everything else is as before. *)
Record wrote (off : Z) (buf : mem) s inode (dn : Z) s' inode' (dn' : Z) : Prop := {
  w_fs : fs_ok s';
  w_same : fs_same s s';
  w_dn : dn ≤ dn';
  w_cap : off + dn' ≤ capacity inode';
  w_bc : i_block_count inode ≤ i_block_count inode';
  w_db : ∀ k, 0 ≤ k < i_block_count inode → i_data_block inode' k = i_data_block inode k;
  w_fresh : ∀ k, i_block_count inode ≤ k < i_block_count inode' →
    is_data s (i_data_block inode' k) ∧ ¬ used s (i_data_block inode' k);
  w_meta : i_size inode' = i_size inode ∧ i_flags inode' = i_flags inode;
  w_new : ∀ p, 0 ≤ p < capacity inode' → dn ≤ p - off < dn' → file_byte s' inode' p = buf (p - off);
  w_old : ∀ p, 0 ≤ p < capacity inode → ¬ (dn ≤ p - off < dn') → file_byte s' inode' p = file_byte s inode p;
  w_used : ∀ x, is_data s x →
    (used s' x ↔ used s x ∨ ∃ k, i_block_count inode ≤ k < i_block_count inode' ∧ i_data_block inode' k = x);
  w_frame : ∀ x a, is_data s x → used s x → (∀ k, 0 ≤ k < i_block_count inode → i_data_block inode k ≠ x) →
    0 ≤ a < XFS_BLOCK_SIZE → data s' x a = data s x a;
}.

Lemma is_data_same s s' x : fs_same s s' → is_data s' x ↔ is_data s x.
Proof. intros (E1 & _ & E3 & _). unfold is_data. by rewrite E1, E3. Qed.

Lemma wrote_refl off buf s inode dn : fs_ok s → off + dn ≤ capacity inode → wrote off buf s inode dn s inode dn.
Proof.
  intros F Hc. split; try done; try lia.
  intros x Hx. split; [by left|]. intros [?|(k & ? & _)]; [done|lia].
Qed.

Lemma pos_block p n : 0 ≤ p < n * XFS_BLOCK_SIZE → 0 ≤ p / XFS_BLOCK_SIZE < n ∧ 0 ≤ p mod XFS_BLOCK_SIZE < XFS_BLOCK_SIZE.
Proof.
  unfold XFS_BLOCK_SIZE. intros Hp. split; [|by apply Z.mod_pos_bound].
  split; [apply Z.div_pos; lia|apply Z.div_lt_upper_bound; lia].
Qed.

Lemma wrote_trans off buf s1 i1 d1 s2 i2 d2 s3 i3 d3 :
  0 ≤ i_block_count i1 →
  wrote off buf s1 i1 d1 s2 i2 d2 → wrote off buf s2 i2 d2 s3 i3 d3 → wrote off buf s1 i1 d1 s3 i3 d3.
Proof.
  intros Hb1 [F1 S1 N1 C1 B1 D1 G1 M1 W1 O1 U1 R1] [F2 S2 N2 C2 B2 D2 G2 M2 W2 O2 U2 R2]. unfold capacity, XFS_BLOCK_SIZE in *.
  pose proof (λ x, is_data_same s1 s2 x S1) as Hds.
  split; unfold capacity, XFS_BLOCK_SIZE.
  - done.
  - by etransitivity.
  - lia.
  - lia.
  - lia.
  - intros k Hk. rewrite D2 by lia. auto.
  - intros k Hk. destruct (decide (k < i_block_count i2)).
    + rewrite D2 by lia. apply G1. lia.
    + destruct (G2 k) as [G3 G4]; [lia|]. apply Hds in G3. split; [done|]. intros Hu. apply G4, U1; auto.
  - destruct M1, M2. split; congruence.
  - intros p Hp Hd. destruct (decide (d2 ≤ p - off < d3)) as [|Hn]; [by apply W2|].
    rewrite O2 by lia. apply W1; lia.
  - intros p Hp Hn. rewrite O2 by lia. apply O1; lia.
  - intros x Hx. rewrite U2 by (by apply Hds). rewrite U1 by done. split.
    + intros [[?|(k & ? & E)]|(k & ? & E)]; [by left|right; exists k..].
      * rewrite D2 by lia. split; [lia|done].
      * split; [lia|done].
    + intros [?|(k & ? & E)]; [auto|]. destruct (decide (k < i_block_count i2)); [left; right|right]; exists k; (split; [lia|]).
      * by rewrite <- D2 by lia.
      * done.
  - intros x a Hx Hu Hk Ha. rewrite R2; [by apply R1|by apply Hds|apply U1; auto| |done].
    intros k Hk2. destruct (decide (k < i_block_count i1)); [rewrite D1 by lia; apply Hk; lia|].
    intros <-. destruct (G1 k) as [_ G3]; [lia|]. done.
Qed.

(** Fields of an inode after a store to another. *)
Lemma data_block_set i k v j : 0 ≤ k → 0 ≤ j →
  i_data_block (set_i_data_block i k v) j = if k =? j then v mod 2 ^ 32 else i_data_block i j.
Proof.
  intros Hk Hj. unfold i_data_block, set_i_data_block. destruct (Z.eqb_spec k j) as [->|].
  - apply (load_store_eq i (72 + 4 * j) 4).
  - apply load_store_ne. lia.
Qed.
Lemma data_block_other i k v : 0 ≤ k →
  i_size (set_i_data_block i k v) = i_size i ∧ i_flags (set_i_data_block i k v) = i_flags i ∧
  i_block_count (set_i_data_block i k v) = i_block_count i.
Proof.
  intros Hk. unfold i_size, i_flags, i_block_count, set_i_data_block. split_and!; apply load_store_ne; lia.
Qed.
Lemma block_count_set i v : 0 ≤ v < 2 ^ 16 →
  i_block_count (set_i_block_count i v) = v ∧ i_size (set_i_block_count i v) = i_size i ∧
  i_flags (set_i_block_count i v) = i_flags i ∧ ∀ k, 0 ≤ k → i_data_block (set_i_block_count i v) k = i_data_block i k.
Proof.
  intros Hv. unfold i_size, i_flags, i_block_count, i_data_block, set_i_block_count. split_and!.
  - rewrite (load_store_eq i 70 2). by apply Z.mod_small.
  - apply load_store_ne. lia.
  - apply load_store_ne. lia.
  - intros k Hk. apply load_store_ne. lia.
Qed.
Lemma size_set i v : 0 ≤ v < 2 ^ 32 →
  i_size (set_i_size i v) = v ∧ i_flags (set_i_size i v) = i_flags i ∧ i_block_count (set_i_size i v) = i_block_count i ∧
  ∀ k, 0 ≤ k → i_data_block (set_i_size i v) k = i_data_block i k.
Proof.
  intros Hv. unfold i_size, i_flags, i_block_count, i_data_block, set_i_size. split_and!.
  - rewrite (load_store_eq i 64 4). by apply Z.mod_small.
  - apply load_store_ne. lia.
  - apply load_store_ne. lia.
  - intros k Hk. apply load_store_ne. lia.
Qed.

(** Growing the file by one block. *)
Definition grown inode (nb : Z) : mem :=
  let i := set_i_data_block inode (i_block_count inode) nb in set_i_block_count i (i_block_count i + 1).

Lemma grow_spec off buf s ino inode dn nb s' :
  fs_ok s → file_ok s ino inode → i_block_count inode < MAX_DIRECT → off + dn ≤ capacity inode →
  alloc_block s = (nb, s') → nb ≠ 0 →
  file_ok s' ino (grown inode nb) ∧ i_block_count (grown inode nb) = i_block_count inode + 1 ∧
  wrote off buf s inode dn s' (grown inode nb) dn.
Proof.
  intros F Hf Hm Hc Ha Hnb. pose proof (alloc_block_cases s F) as H. rewrite Ha in H.
  destruct H as [[? _]|(Hd & Hu & _ & F' & Hs & Hus & Hda)]; [done|].
  pose proof (f_bc _ _ _ Hf) as Hbc. unfold MAX_DIRECT in *.
  assert (Hdata : ∀ x, is_data s x → 0 ≤ x < g_total s) by (intros x Hx; unfold is_data in Hx; destruct F; lia).
  set (i1 := set_i_data_block inode (i_block_count inode) nb).
  destruct (data_block_other inode (i_block_count inode) nb) as (E1 & E2 & E3); [lia|]. fold i1 in E1, E2, E3.
  destruct (block_count_set i1 (i_block_count i1 + 1)) as (G1 & G2 & G3 & G4); [lia|].
  assert (Hnb32 : nb mod 2 ^ 32 = nb) by (apply Z.mod_small; unfold is_data in Hd; destruct F; lia).
  assert (Edb : ∀ k, 0 ≤ k → i_data_block (grown inode nb) k = if i_block_count inode =? k then nb else i_data_block inode k).
  { intros k Hk. unfold grown. fold i1. rewrite G4 by done. unfold i1. rewrite data_block_set by lia. by rewrite Hnb32. }
  assert (Ebc : i_block_count (grown inode nb) = i_block_count inode + 1) by (unfold grown; fold i1; rewrite G1, E3; done).
  assert (Hold : ∀ k, 0 ≤ k < i_block_count inode → i_data_block (grown inode nb) k = i_data_block inode k).
  { intros k Hk. rewrite Edb by lia. by rewrite (proj2 (Z.eqb_neq _ _)) by lia. }
  assert (Hlast : i_data_block (grown inode nb) (i_block_count inode) = nb) by (rewrite Edb by lia; by rewrite Z.eqb_refl).
  assert (Hne : ∀ x, used s x → x ≠ nb) by (intros x Hx ->; done).
  assert (Hkeep : ∀ x, is_data s x → used s x → is_data s' x ∧ used s' x).
  { intros x Hx Hux. split; [by apply (is_data_same s s' x Hs)|]. apply Hus; auto. }
  split_and!; [|done|].
  - split.
    + apply Hkeep; apply Hf.
    + unfold MAX_DIRECT. lia.
    + intros k Hk. rewrite Ebc in Hk. destruct (decide (k = i_block_count inode)) as [->|].
      * rewrite Hlast. split_and!; [by apply (is_data_same s s' _ Hs)|apply Hus; auto|]. intros ->. apply Hu, Hf.
      * rewrite Hold by lia. destruct (f_blk _ _ _ Hf k) as (K1 & K2 & K3); [lia|]. destruct (Hkeep _ K1 K2). done.
    + intros j k Hj Hk. rewrite Ebc in Hj, Hk.
      destruct (decide (j = i_block_count inode)) as [->|], (decide (k = i_block_count inode)) as [->|]; try done;
        rewrite ?Hlast, ?Hold by lia; intros E.
      * destruct (f_blk _ _ _ Hf k) as (_ & K2 & _); [lia|]. by destruct (Hne _ K2).
      * destruct (f_blk _ _ _ Hf j) as (_ & K2 & _); [lia|]. by destruct (Hne _ K2).
      * by apply (f_inj _ _ _ Hf); [lia|lia|].
  - split; unfold capacity in *; rewrite ?Ebc; try done; try (unfold XFS_BLOCK_SIZE in *; lia).
    + intros k Hk. assert (k = i_block_count inode) as -> by lia. by rewrite Hlast.
    + intros p Hp _. destruct (pos_block p (i_block_count inode) Hp) as [P1 P2]. unfold file_byte. rewrite Hold by done.
      apply Hda; [|done]. by apply (f_blk _ _ _ Hf).
    + intros x Hx. rewrite Hus by auto. split; (intros [?| H]; [by left|right]).
      * subst x. exists (i_block_count inode). split; [lia|done].
      * destruct H as (k & Hk & <-). assert (k = i_block_count inode) as -> by lia. done.
    + intros x a Hx _ _ Hxa. by apply Hda.
Qed.

(** Writing one chunk into a block of the file. *)
Lemma put_spec off buf s ino inode dn bi bo ch sector :
  fs_ok s → file_ok s ino inode → 0 ≤ bi < i_block_count inode → 0 ≤ bo → 0 < ch → bo + ch ≤ XFS_BLOCK_SIZE →
  off + dn = bi * XFS_BLOCK_SIZE + bo →
  (∀ a, 0 ≤ a < XFS_BLOCK_SIZE → ¬ (bo ≤ a < bo + ch) → sector a = data s (i_data_block inode bi) a) →
  let s' := wr s (i_data_block inode bi) (blit sector bo buf dn ch) in
  file_ok s' ino inode ∧ wrote off buf s inode dn s' inode (dn + ch).
Proof.
  intros F Hf Hbi Hbo Hch Hbc E Hsec s'. destruct (f_blk _ _ _ Hf bi Hbi) as (B1 & B2 & B3).
  set (b := i_data_block inode bi) in *.
  assert (Hdata : ∀ x, is_data s x → 0 ≤ x < g_total s) by (intros x Hx; unfold is_data in Hx; destruct F; lia).
  destruct (wr_ok s b (blit sector bo buf dn ch) F (Hdata _ B1)) as (F' & Hs & Hw). fold s' in F', Hs, Hw.
  assert (Hu : ∀ x, is_data s x → used s' x ↔ used s x).
  { intros x Hx. unfold used, s'. rewrite wr_used by auto. done. }
  assert (Hkeep : ∀ x, is_data s x → used s x → is_data s' x ∧ used s' x).
  { intros x Hx Hux. split; [by apply (is_data_same s s' x Hs)|by apply Hu]. }
  assert (Hbyte : ∀ p, 0 ≤ p < capacity inode → file_byte s' inode p =
    if (dn <=? p - off) && (p - off <? dn + ch) then buf (p - off) else file_byte s inode p).
  { intros p Hp. destruct (pos_block p (i_block_count inode) Hp) as [P1 P2]. unfold file_byte.
    destruct (f_blk _ _ _ Hf _ P1) as (Q1 & _ & _). rewrite Hw by auto.
    pose proof (Z.div_mod p XFS_BLOCK_SIZE ltac:(done)) as Ep.
    destruct (Z.eqb_spec (i_data_block inode (p / XFS_BLOCK_SIZE)) b) as [Eb|Nb].
    - apply (f_inj _ _ _ Hf) in Eb; [|done|done]. rewrite Eb in Ep |- *.
      destruct (Z.leb_spec dn (p - off)), (Z.ltb_spec (p - off) (dn + ch)); simpl.
      + rewrite blit_in by lia. f_equal. lia.
      + rewrite blit_out by lia. apply Hsec; lia.
      + rewrite blit_out by lia. apply Hsec; lia.
      + rewrite blit_out by lia. apply Hsec; lia.
    - destruct (Z.leb_spec dn (p - off)), (Z.ltb_spec (p - off) (dn + ch)); simpl; try done. exfalso. apply Nb. unfold b. f_equal.
      destruct (same_block (off + dn) p bi bo) as [? _]; [done|lia|lia|done]. }
  split.
  - split.
    + apply Hkeep; apply Hf.
    + apply Hf.
    + intros k Hk. destruct (f_blk _ _ _ Hf k Hk) as (K1 & K2 & K3). destruct (Hkeep _ K1 K2). done.
    + apply Hf.
  - split; try done; try lia.
    + unfold capacity, XFS_BLOCK_SIZE in *. nia.
    + intros p Hp Hd. rewrite Hbyte by done. rewrite (proj2 (Z.leb_le _ _)), (proj2 (Z.ltb_lt _ _)) by lia. done.
    + intros p Hp Hd. rewrite Hbyte by done. destruct (Z.leb_spec dn (p - off)), (Z.ltb_spec (p - off) (dn + ch)); simpl; (lia || done).
    + intros x Hx. rewrite Hu by done. split; [by left|]. intros [?|(k & ? & _)]; [done|lia].
    + intros x a Hx _ Hk Ha. rewrite Hw by auto. rewrite (proj2 (Z.eqb_neq x b)); [done|]. intros ->. by apply (Hk bi).
Qed.

(** The whole loop: everything is written, or the disk is full, or the file has all
    the blocks an inode can name. *)
Lemma write_loop_spec off count buf ino :
  0 ≤ off → ∀ fuel s inode dn, fs_ok s → file_ok s ino inode → 0 ≤ dn ≤ count → off + dn ≤ capacity inode →
  (Z.to_nat (count - dn) ≤ fuel)%nat →
  let '(r, inode', s') := write_loop junk fuel s inode off count dn buf in
  r ≤ count ∧ file_ok s' ino inode' ∧ wrote off buf s inode dn s' inode' r ∧
  (r < count → (∀ x, is_data s' x → used s' x) ∨ off + r = MAX_DIRECT * XFS_BLOCK_SIZE).
Proof.
  intros Ho. induction fuel as [|fuel IH]; intros s inode dn F Hf Hd Hc Hfu; cbn [write_loop].
  { split_and!; [lia|done|by apply wrote_refl|lia]. }
  destruct (Z.ltb_spec dn count) as [Hlt|Hge]; cbn [negb].
  2:{ split_and!; [lia|done|by apply wrote_refl|lia]. }
  set (bi := u32 (off + u32 dn) / XFS_BLOCK_SIZE). set (bo := u32 (off + u32 dn) mod XFS_BLOCK_SIZE).
  set (ch := if count - dn <? XFS_BLOCK_SIZE - bo then count - dn else XFS_BLOCK_SIZE - bo).
  pose proof (f_bc _ _ _ Hf) as Hbc. unfold capacity in Hc.
  (* one chunk, in a file that has the block *)
  assert (Hput : ∀ s1 i1, file_ok s1 ino i1 → off + dn < capacity i1 → wrote off buf s inode dn s1 i1 dn →
    let b := i_data_block i1 bi in
    let sector := if negb (bo =? 0) || (count - dn <? XFS_BLOCK_SIZE) then rd s1 b else zeroed junk 0 XFS_BLOCK_SIZE in
    let '(r, inode', s') := if b =? 0 then (dn, i1, s1)
      else write_loop junk fuel (wr s1 b (blit sector bo buf dn ch)) i1 off count (dn + ch) buf in
    r ≤ count ∧ file_ok s' ino inode' ∧ wrote off buf s inode dn s' inode' r ∧ (r < count → (∀ x, is_data s' x → used s' x) ∨ off + r = MAX_DIRECT * XFS_BLOCK_SIZE)).
  { intros s1 i1 Hf1 Hc1 W1 b sector. pose proof (w_fs _ _ _ _ _ _ _ _ W1) as F1.
    destruct (turn_bounds off count dn (i_block_count i1)) as (E & B1 & B2 & B3 & B4 & B5 & B6 & B7); [lia|lia|apply (f_bc _ _ _ Hf1)|done|].
    assert (Ebi : (off + dn) / XFS_BLOCK_SIZE = bi) by (unfold bi; by rewrite E).
    assert (Ebo : (off + dn) mod XFS_BLOCK_SIZE = bo) by (unfold bo; by rewrite E).
    rewrite Ebi in B1, B2, B4; rewrite Ebo in B3, B4, B5, B6, B7. fold ch in B5, B6, B7.
    destruct (f_blk _ _ _ Hf1 bi B1) as (D1 & _ & _). fold b in D1.
    assert (Hb0 : 0 ≤ b < g_total s1 ∧ b ≠ 0) by (unfold is_data in D1; destruct F1; lia).
    rewrite (proj2 (Z.eqb_neq b 0)) by lia.
    destruct (put_spec off buf s1 ino i1 dn bi bo ch sector) as [Hf2 W2]; [done|done|done|lia|lia|lia|lia| |].
    { intros a Ha Hna. unfold sector. destruct (Z.eqb_spec bo 0) as [E0|], (Z.ltb_spec (count - dn) XFS_BLOCK_SIZE) as [|Hfull];
        cbn [negb orb]; try (rewrite rd_data by (done || lia); done).
      exfalso. apply Hna. unfold ch. rewrite E0 in *. rewrite (proj2 (Z.ltb_ge _ _)) by lia. lia. }
    fold b in Hf2, W2. set (s2 := wr s1 b _) in *.
    specialize (IH s2 i1 (dn + ch) (w_fs _ _ _ _ _ _ _ _ W2) Hf2 ltac:(lia) (w_cap _ _ _ _ _ _ _ _ W2) ltac:(lia)).
    destruct (write_loop junk fuel s2 i1 off count (dn + ch) buf) as [[r inode'] s']. destruct IH as (I1 & I2 & I3 & I4).
    split_and!; [done|done| |done]. eapply wrote_trans; [lia|exact W1|]. eapply wrote_trans; [apply Hf1|exact W2|exact I3]. }
  destruct (Z.leb_spec (i_block_count inode) bi) as [Hgrow|Hhave].
  - assert (Hp1 : off + dn = capacity inode).
    { assert (Hs : u32 (off + u32 dn) = off + dn).
      { unfold MAX_DIRECT, XFS_BLOCK_SIZE in *. rewrite (u32_small dn), (u32_small (off + dn)) by lia. done. }
      unfold bi in Hgrow. rewrite Hs in Hgrow. unfold capacity, MAX_DIRECT, XFS_BLOCK_SIZE in *.
      pose proof (Z.mul_div_le (off + dn) 4096 ltac:(lia)). lia. }
    destruct (Z.leb_spec MAX_DIRECT (i_block_count inode)) as [Hp2|Hp2].
    { split_and!; [lia|done|apply wrote_refl; [done|unfold capacity; lia]|]. intros _. right. unfold capacity in Hp1. by rewrite Hp1, (Z.le_antisymm _ _ (proj2 Hbc) Hp2). }
    pose proof (alloc_block_cases s F) as Hal. destruct (alloc_block s) as [nb s1] eqn:Ha.
    destruct (Z.eqb_spec nb 0) as [->|Hnb].
    + split_and!; [lia|done|apply wrote_refl; [done|unfold capacity; lia]|]. intros _. left.
      destruct Hal as [(_ & _ & Hfull)|(Hd0 & _)]; [done|]. unfold is_data in Hd0. destruct F. lia.
    + destruct (grow_spec off buf s ino inode dn nb s1) as (G1 & G2 & G3); [done|done|lia|unfold capacity; lia|done|done|].
      apply (Hput s1 (grown inode nb) G1); [|done]. unfold capacity. rewrite G2. unfold capacity, XFS_BLOCK_SIZE in *. lia.
  - apply (Hput s inode Hf); [|apply wrote_refl; [done|unfold capacity; lia]].
    assert (Hs : u32 (off + u32 dn) = off + dn).
    { unfold MAX_DIRECT, XFS_BLOCK_SIZE in *. rewrite (u32_small dn), (u32_small (off + dn)) by lia. done. }
    unfold bi in Hhave. rewrite Hs in Hhave. unfold capacity, XFS_BLOCK_SIZE in *.
    pose proof (Z.mod_pos_bound (off + dn) 4096 ltac:(lia)). pose proof (Z.div_mod (off + dn) 4096 ltac:(lia)). lia.
Qed.

(** Equal bytes, equal file. *)
Lemma file_eq s ino i j : inode_eq i j → file_ok s ino i →
  file_ok s ino j ∧ capacity j = capacity i ∧ ∀ p, 0 ≤ p < capacity i → file_byte s j p = file_byte s i p.
Proof.
  intros H [A1 A2 A3 A4]. destruct (inode_eq_fields i j H) as (_ & _ & E1 & E2). unfold capacity, MAX_DIRECT in *.
  split_and!; [|by rewrite E1|].
  - split; rewrite <- ?E1; try done.
    + intros k Hk. rewrite <- E2 by lia. auto.
    + intros a b Ha Hb. rewrite <- !E2 by lia. auto.
  - intros p Hp. destruct (pos_block p (i_block_count i) Hp) as [P1 _]. unfold file_byte. by rewrite E2 by lia.
Qed.

(** Storing the inode touches neither the file's data nor any other block. *)
Lemma write_inode_frame s ino inode v : fs_ok s → file_ok s ino inode →
  let s' := write_inode s ino v in
  fs_ok s' ∧ fs_same s s' ∧ file_ok s' ino inode ∧
  (∀ p, 0 ≤ p < capacity inode → file_byte s' inode p = file_byte s inode p) ∧
  (∀ x, is_data s x → used s' x ↔ used s x) ∧
  (∀ x a, is_data s x → x ≠ ino → 0 ≤ a < XFS_BLOCK_SIZE → data s' x a = data s x a).
Proof.
  intros F Hf s'. destruct (f_ino _ _ _ Hf) as [I1 I2].
  assert (Hdata : ∀ x, is_data s x → 0 ≤ x < g_total s) by (intros x Hx; unfold is_data in Hx; destruct F; lia).
  destruct (wr_ok s ino (blit (rd s ino) 0 v 0 INODE_SIZE) F (Hdata _ I1)) as (F' & Hs & Hw). fold (write_inode s ino v) in F', Hs, Hw.
  fold s' in F', Hs, Hw.
  assert (Hu : ∀ x, is_data s x → used s' x ↔ used s x).
  { intros x Hx. unfold used, s', Xfs.write_inode. rewrite wr_used by auto. done. }
  assert (Hd : ∀ x a, is_data s x → x ≠ ino → 0 ≤ a < XFS_BLOCK_SIZE → data s' x a = data s x a).
  { intros x a Hx Hne Ha. rewrite Hw by auto. by rewrite (proj2 (Z.eqb_neq x ino)). }
  split_and!; try done.
  - destruct Hf as [B1 B2 B3 B4]. split; try done.
    + split; [by apply (is_data_same s s' _ Hs)|by apply Hu].
    + intros k Hk. destruct (B3 k Hk) as (K1 & K2 & K3). split_and!; [by apply (is_data_same s s' _ Hs)|by apply Hu|done].
  - intros p Hp. destruct (pos_block p (i_block_count inode) Hp) as [P1 P2]. unfold file_byte.
    destruct (f_blk _ _ _ Hf _ P1) as (K1 & K2 & K3). by apply Hd.
Qed.

(** The descriptor of an open file. *)
Record open_file s (fd pid ino off : Z) : Prop := {
  o_fd : 0 ≤ fd < XFS_MAX_FDS;
  o_len : zlen (g_fds s) = XFS_MAX_FDS;
  o_ok : fd_ok s fd pid = true;
  o_ino : fd_inode (g_fds s).[fd] = ino;
  o_off : fd_offset (g_fds s).[fd] = off;
}.

Lemma open_fd s fd pid ino off : open_file s fd pid ino off → bad_fd fd = false.
Proof. intros [H _ _ _ _]. unfold bad_fd. rewrite orb_false_iff, Z.ltb_ge, Z.leb_gt. lia. Qed.

Lemma set_offset_open s fd pid ino off off' :
  open_file s fd pid ino off → open_file (set_offset s fd off') fd pid ino off'.
Proof.
  intros [H1 H2 H3 H4 H5]. unfold set_offset. split; cbn [g_fds with_fds]; rewrite ?zlen_aset, ?aget_aset_eq by lia; try done.
  unfold fd_ok in *. cbn [g_fds with_fds]. by rewrite aget_aset_eq by lia.
Qed.

Lemma open_same s s' fd pid ino off : g_fds s' = g_fds s → open_file s fd pid ino off → open_file s' fd pid ino off.
Proof. intros E [H1 H2 H3 H4 H5]. split; unfold fd_ok in *; by rewrite ?E. Qed.

Lemma xfs_read_lemma s fd buf count pid ino off :
  fs_ok s → open_file s fd pid ino off →
  let inode := read_inode s ino in
  file_ok s ino inode → i_size inode ≤ capacity inode → 0 ≤ off → 0 < count →
  let n := Z.max 0 (Z.min count (i_size inode - off)) in
  let '(r, buf', s') := xfs_read junk s fd buf count pid in
  r = n ∧ (∀ j, buf' j = if (0 <=? j) && (j <? n) then file_byte s inode (off + j) else buf j) ∧
  open_file s' fd pid ino (off + n) ∧ g_dev s' = g_dev s.
Proof.
  intros F O inode Hf Hsz Hoff Hcnt n. unfold xfs_read. rewrite (open_fd _ _ _ _ _ O). pose proof O as [O1 O2 O3 O4 O5].
  rewrite O3, O4, O5. cbn [negb]. rewrite (proj2 (Z.eqb_neq count 0)) by lia. fold inode.
  pose proof (f_bc _ _ _ Hf) as Hbc. unfold capacity, MAX_DIRECT, XFS_BLOCK_SIZE in *.
  destruct (Z.leb_spec (i_size inode) off) as [He|Hlt].
  - assert (E : n = 0) by (unfold n; lia). rewrite E. split_and!; [done| |by rewrite Z.add_0_r|done].
    intros j. destruct (Z.leb_spec 0 j), (Z.ltb_spec j 0); simpl; (lia || done).
  - assert (En : (if i_size inode - off <? count then i_size inode - off else count) = n).
    { unfold n. destruct (Z.ltb_spec (i_size inode - off) count); lia. }
    rewrite En. assert (Hn : 0 < n ∧ off + n ≤ i_size inode) by (unfold n; lia). clearbody n.
    pose proof (read_loop_spec s ino inode off n F Hf Hoff) as HR. unfold capacity, XFS_BLOCK_SIZE in HR.
    specialize (HR ltac:(lia) (Z.to_nat n) 0 buf ltac:(lia) ltac:(lia)).
    destruct (read_loop junk (Z.to_nat n) s inode off n 0 buf) as [r buf']. destruct HR as [-> HR].
    rewrite (u32_small n), (u32_small (off + n)), s32_small by lia.
    split_and!; [done|done|by eapply set_offset_open|done].
Qed.

(** Another block in use: neither the file's inode nor one of its data blocks. *)
Definition other s ino inode (x : Z) : Prop :=
  is_data s x ∧ used s x ∧ x ≠ ino ∧ ∀ k, 0 ≤ k < i_block_count inode → i_data_block inode k ≠ x.

Lemma xfs_write_lemma s fd buf count pid ino off :
  fs_ok s → open_file s fd pid ino off → Z.land (fd_flags (g_fds s).[fd]) 3 ≠ 0 →
  let inode := read_inode s ino in
  file_ok s ino inode → 0 ≤ i_size inode < 2 ^ 32 → 0 ≤ off ≤ capacity inode → 0 < count →
  let '(r, s') := xfs_write junk s fd buf count pid in
  let inode' := read_inode s' ino in
  0 ≤ r ≤ count ∧ (r < count → (∀ x, is_data s' x → used s' x) ∨ off + r = MAX_DIRECT * XFS_BLOCK_SIZE) ∧
  fs_ok s' ∧ file_ok s' ino inode' ∧ open_file s' fd pid ino (off + r) ∧
  i_size inode' = Z.max (i_size inode) (off + r) ∧ off + r ≤ capacity inode' ∧ capacity inode ≤ capacity inode' ∧
  (∀ p, off ≤ p < off + r → file_byte s' inode' p = buf (p - off)) ∧
  (∀ p, 0 ≤ p < capacity inode → ¬ (off ≤ p < off + r) → file_byte s' inode' p = file_byte s inode p) ∧
  (∀ x a, other s ino inode x → 0 ≤ a < XFS_BLOCK_SIZE → used s' x ∧ data s' x a = data s x a).
Proof.
  intros F O Hfl inode Hf Hsz Hoff Hcnt. unfold xfs_write. rewrite (open_fd _ _ _ _ _ O). pose proof O as [O1 O2 O3 O4 O5].
  rewrite O3, O4, O5. cbn [negb]. rewrite (proj2 (Z.eqb_neq count 0)) by lia. change (Z.lor XFS_O_WRONLY XFS_O_RDWR) with 3.
  rewrite (proj2 (Z.eqb_neq _ _) Hfl). fold inode.
  pose proof (write_loop_spec off count buf ino ltac:(lia) (Z.to_nat count) s inode 0 F Hf ltac:(lia)) as HW.
  specialize (HW ltac:(lia) ltac:(lia)). destruct (write_loop junk (Z.to_nat count) s inode off count 0 buf) as [[r i1] s1].
  destruct HW as (Hr & Hf1 & W & Hfull). destruct W as [F1 S1 N1 C1 B1 D1 G1 M1 W1 P1 U1 R1].
  pose proof (f_bc _ _ _ Hf1) as Hbc1.
  assert (Hlim : 0 ≤ r ∧ off + r < 2 ^ 31) by (unfold capacity, MAX_DIRECT, XFS_BLOCK_SIZE in *; lia).
  rewrite (u32_small r), (u32_small (off + r)), s32_small by lia.
  set (i2 := if i_size i1 <? off + r then set_i_size i1 (off + r) else i1).
  set (s2 := set_offset s1 fd (off + r)). set (s3 := write_inode s2 ino i2).
  assert (E2 : i_size i2 = Z.max (i_size inode) (off + r) ∧ i_block_count i2 = i_block_count i1 ∧
               ∀ k, 0 ≤ k → i_data_block i2 k = i_data_block i1 k).
  { destruct (size_set i1 (off + r)) as (Q1 & _ & Q3 & Q4); [lia|]. destruct M1 as [M1 _]. unfold i2.
    destruct (Z.ltb_spec (i_size i1) (off + r)); split_and!; try done; lia. }
  destruct E2 as (E2 & E3 & E4).
  assert (F2 : fs_ok s2) by (destruct F1; by split). assert (S2 : ∀ x, is_data s2 x ↔ is_data s1 x) by done.
  assert (Hf2 : file_ok s2 ino i2).
  { destruct Hf1 as [T1 T2 T3 T4]. split; rewrite ?E3; try done.
    - intros k Hk. rewrite E4 by lia. by apply T3.
    - intros j k Hj Hk. rewrite !E4 by lia. by apply T4. }
  destruct (write_inode_frame s2 ino i2 i2 F2 Hf2) as (F3 & S3 & Hf3 & Hb3 & Hu3 & Hd3). fold s3 in F3, S3, Hf3, Hb3, Hu3, Hd3.
  assert (Hino : 0 ≤ ino < g_total s2) by (destruct (f_ino _ _ _ Hf2) as [I1 _]; unfold is_data in I1; destruct F2; lia).
  assert (Heq : inode_eq i2 (read_inode s3 ino)) by (intros a Ha; symmetry; by apply write_read_inode).
  destruct (file_eq s3 ino i2 _ Heq Hf3) as (Hf4 & Hc4 & Hb4). destruct (inode_eq_fields _ _ Heq) as (Hz4 & _).
  assert (Hcap2 : capacity i2 = capacity i1) by (unfold capacity; by rewrite E3).
  assert (Hb12 : ∀ p, 0 ≤ p < capacity i1 → file_byte s2 i2 p = file_byte s1 i1 p).
  { intros p Hp. destruct (pos_block p (i_block_count i1) Hp) as [Q1 _]. unfold file_byte. rewrite E4 by lia. done. }
  assert (Hbyte : ∀ p, 0 ≤ p < capacity i1 → file_byte s3 (read_inode s3 ino) p = file_byte s1 i1 p).
  { intros p Hp. rewrite Hb4, Hb3 by (rewrite Hcap2; done). by apply Hb12. }
  pose proof (λ x, is_data_same s s1 x S1) as Hds1.
  split_and!; try done; try lia.
  - intros Hlt. destruct (Hfull Hlt) as [Hall|]; [left|by right]. intros x Hx. apply Hu3; [by apply (is_data_same s2 s3 x S3)|].
    apply Hall. by apply (is_data_same s2 s3 x S3).
  - eapply (open_same s2 s3); [by destruct S3 as (_ & _ & _ & _ & ->)|]. apply (set_offset_open s1 fd pid ino off).
    eapply open_same; [|exact O]. by destruct S1 as (_ & _ & _ & _ & ->).
  - unfold capacity in *. unfold XFS_BLOCK_SIZE in *. lia.
  - intros p Hp. rewrite Hbyte by lia. apply W1; lia.
  - intros p Hp Hn. rewrite Hbyte by (unfold capacity, XFS_BLOCK_SIZE in *; lia). apply P1; [done|lia].
  - intros x a (X1 & X2 & X3 & X4) Ha. split.
    + apply Hu3; [by apply S2, Hds1|]. apply (proj2 (U1 x X1)). by left.
    + rewrite Hd3; [|by apply S2, Hds1|done|done]. by apply R1.
Qed.
End proofs.
