(* ===== verification/XfsDir.v ===== *)
(** * Directories of the file system

    Formatting, mounting, and that a file created in the root directory is found
    again under its name. *)

From S2P Require Import Prelude Mem CString Block Xfs XfsProofs.

Lemma strcmp_from_ext fuel a a' b b' i :
  (∀ k, i ≤ k ≤ i + Z.of_nat fuel → a' k = a k ∧ b' k = b k) → strcmp_from fuel a' b' i = strcmp_from fuel a b i.
Proof.
  revert i. induction fuel as [|fuel IH]; intros i H; cbn [strcmp_from]; destruct (H i) as [E1 E2]; try lia; rewrite E1, E2.
  rewrite IH; [done|]. intros k Hk. apply H. lia.
Qed.

Lemma strcmp_from_same fuel a b n i :
  i ≤ n ≤ i + Z.of_nat fuel → (∀ k, i ≤ k ≤ n → a k = b k) → a n = 0 → strcmp_from fuel a b i = 0.
Proof.
  revert i. induction fuel as [|fuel IH]; intros i Hn H Ha; cbn [strcmp_from].
  - assert (n = i) as -> by lia. rewrite H by lia. lia.
  - rewrite (H i) by lia. destruct (negb (b i =? 0) && (b i =? b i)) eqn:E; [|lia].
    apply IH; [|intros; apply H; lia|done]. destruct (decide (n = i)) as [->|]; [|lia].
    rewrite <- H, Ha in E by lia. done.
Qed.

Section dir.
Context {D : Type} `{!BlockDev D} `{!BlockDevLaws D}.
Variable junk : mem.
Implicit Types (s : xfs D) (dir : mem).

Abbreviation rd := (rd junk).
Abbreviation read_inode := (read_inode junk).
Abbreviation dir_lookup := (dir_lookup junk).
Abbreviation add_dirent := (add_dirent junk).
Abbreviation file_ok := (file_ok junk).
Abbreviation used := (used junk).

(** ** Entries *)

Lemma dent_inode_ext m m' d :
  0 ≤ d < MAX_DENTS → (∀ a, 0 ≤ a < XFS_BLOCK_SIZE → m' a = m a) → dent_inode m' d = dent_inode m d.
Proof.
  intros Hd H. unfold MAX_DENTS, XFS_BLOCK_SIZE, DIRENT_SIZE in *. change (4096 / 76) with 53 in Hd.
  unfold dent_inode, DIRENT_SIZE. apply load_le_ext. intros i Hi. apply H. lia.
Qed.

Lemma dent_matches_ext m m' name d :
  0 ≤ d < MAX_DENTS → (∀ a, d * DIRENT_SIZE ≤ a < (d + 1) * DIRENT_SIZE → m' a = m a) →
  dent_matches m' name d = dent_matches m name d.
Proof.
  intros Hd H. unfold MAX_DENTS, XFS_BLOCK_SIZE, DIRENT_SIZE in *. change (4096 / 76) with 53 in Hd.
  unfold dent_matches, dent_inode, DIRENT_SIZE. rewrite (load_le_ext m m') by (intros i Hi; apply H; lia).
  f_equal. f_equal. unfold strcmp. apply strcmp_from_ext. intros k Hk. split; [|done]. unfold dent_name, DIRENT_SIZE. apply H. lia.
Qed.

Lemma lookup_ext n s s' dir dir' name db :
  (∀ k, db ≤ k < db + Z.of_nat n → i_data_block dir' k = i_data_block dir k) →
  (∀ k a, db ≤ k < db + Z.of_nat n → 0 ≤ a < XFS_BLOCK_SIZE → rd s' (i_data_block dir k) a = rd s (i_data_block dir k) a) →
  dir_lookup n s' dir' name db = dir_lookup n s dir name db.
Proof.
  revert db. induction n as [|n IH]; intros db H1 H2; cbn [Xfs.dir_lookup]; [done|].
  rewrite (H1 db) by lia. rewrite IH by (intros; (apply H1 || apply H2); (done || lia)).
  set (b := i_data_block dir db).
  assert (Hb : ∀ a, 0 ≤ a < XFS_BLOCK_SIZE → rd s' b a = rd s b a) by (intros; apply H2; (done || lia)).
  rewrite (find_up_ext (dent_matches (rd s' b) name) (dent_matches (rd s b) name)).
  - case_if; [done|]. destruct (find_up _ _ _) as [d|] eqn:Hf; [|done].
    apply find_up_Some in Hf as (Hd & _). f_equal. apply dent_inode_ext; [lia|done].
  - intros d Hd. apply dent_matches_ext; [lia|]. intros a Ha. apply Hb.
    unfold MAX_DENTS, XFS_BLOCK_SIZE, DIRENT_SIZE in *. change (4096 / 76) with 53 in Hd. lia.
Qed.

Lemma lookup_nonzero n s dir name db b : dir_lookup n s dir name db = Some b → b ≠ 0.
Proof.
  revert db. induction n as [|n IH]; intros db; cbn [Xfs.dir_lookup]; [done|]. case_if; [apply IH|].
  destruct (find_up _ _ _) eqn:Hf; [|apply IH]. apply find_up_Some in Hf as (_ & Hm & _).
  unfold dent_matches in Hm. apply andb_prop in Hm as [Hm%negb_true_iff%Z.eqb_neq _]. by intros [= <-].
Qed.

(** The entry written by [put_dirent], and the others. *)
Lemma put_dirent_entry m d name ino flags :
  0 ≤ d < MAX_DENTS → 0 ≤ ino < 2 ^ 32 →
  dent_inode (put_dirent m d name ino flags) d = ino ∧
  (∀ i, 0 ≤ i < 63 → dent_name (put_dirent m d name ino flags) d i = name.[i]) ∧
  (∀ a, a < d * DIRENT_SIZE ∨ (d + 1) * DIRENT_SIZE ≤ a → put_dirent m d name ino flags a = m a).
Proof.
  intros Hd Hi. unfold MAX_DENTS, XFS_BLOCK_SIZE, DIRENT_SIZE in *. change (4096 / 76) with 53 in Hd.
  unfold put_dirent, dent_inode, dent_name, DIRENT_SIZE, XFS_NAME_MAX. split_and!.
  - rewrite !load_store_ne by lia. rewrite (load_store_eq _ _ 4). by apply Z.mod_small.
  - intros i Hi0. rewrite !store_le_outside by lia. unfold strncpy_at.
    rewrite (proj2 (Z.leb_le _ _)), (proj2 (Z.ltb_lt _ _)) by lia. simpl. f_equal. lia.
  - intros a Ha. rewrite !store_le_outside by lia. unfold strncpy_at.
    destruct (Z.leb_spec (d * 76) a), (Z.ltb_spec a (d * 76 + (64 - 1))); simpl; (lia || done).
Qed.

(** A file name: no slash, no NUL, at most 62 bytes. *)
Definition good_name (name : list Z) : Prop :=
  0 < zlen name < 63 ∧ ∀ i, 0 ≤ i < zlen name → name.[i] ≠ 0 ∧ name.[i] ≠ SLASH.

Lemma name_end (name : list Z) i : zlen name ≤ i → name.[i] = 0.
Proof.
  intros H. unfold aget. rewrite list_lookup_total_alt, lookup_ge_None_2; [done|]. unfold zlen in H. lia.
Qed.
Lemma path_name (name : list Z) i : 0 ≤ i → (SLASH :: name).[1 + i] = name.[i].
Proof. intros Hi. unfold aget. replace (Z.to_nat (1 + i)) with (S (Z.to_nat i)) by lia. done. Qed.

Lemma comp_len_name name fuel i :
  good_name name → 0 ≤ i ≤ zlen name → zlen name - i < Z.of_nat fuel →
  comp_len fuel (SLASH :: name) 1 i = zlen name.
Proof.
  intros [[H1 H2] H3]. revert i. induction fuel as [|fuel IH]; intros i Hi Hf; [lia|]. cbn [comp_len].
  rewrite path_name by lia. destruct (decide (i = zlen name)) as [->|].
  - rewrite name_end by lia. done.
  - destruct (H3 i) as [N1 N2]; [lia|]. rewrite (proj2 (Z.eqb_neq _ _) N1), (proj2 (Z.eqb_neq _ _) N2).
    rewrite (proj2 (Z.ltb_lt i _)) by (unfold XFS_NAME_MAX; lia). cbn [negb andb]. apply IH; lia.
Qed.

(** The component [resolve_path] looks up in the root directory. *)
Definition comp (name : list Z) : str := comp_name junk (SLASH :: name) 1 (zlen name).

(** Resolving [/name] is one directory lookup. *)
Lemma resolve_root_name s name :
  good_name name →
  let dir := read_inode s (g_root_block s) in
  Z.land (i_flags dir) 1 ≠ 0 →
  resolve_path junk s (SLASH :: name) =
  match dir_lookup (Z.to_nat (i_block_count dir)) s dir (comp name) 0 with
  | None => (0, dir)
  | Some b => (b, read_inode s b)
  end.
Proof.
  intros Hn dir Hfl. pose proof Hn as [[H1 H2] H3]. unfold resolve_path. change ((SLASH :: name).[0]) with SLASH. rewrite Z.eqb_refl.
  cbn [negb]. fold dir. rewrite (proj2 (Z.eqb_neq _ _) Hfl). change ((SLASH :: name).[1]) with (name.[0]).
  destruct (H3 0) as [N1 _]; [lia|]. rewrite (proj2 (Z.eqb_neq _ _) N1). cbn [length resolve_loop].
  rewrite (comp_len_name name _ 0 Hn) by (unfold XFS_NAME_MAX; lia). fold (comp name).
  destruct (dir_lookup _ s dir (comp name) 0); [|done].
  rewrite (path_name name (zlen name)), (name_end name (zlen name)) by lia. change (0 =? SLASH) with false. cbv iota.
  by rewrite (path_name name (zlen name)), (name_end name (zlen name)) by lia.
Qed.

(** Adding an entry for a name the directory does not have makes it found. *)
Lemma add_dirent_found ino0 dir name ino flags s :
  fs_ok s → file_ok s ino0 dir → good_name name → 0 < ino < 2 ^ 32 →
  ∀ n db, 0 ≤ db → db + Z.of_nat n ≤ i_block_count dir → dir_lookup n s dir (comp name) db = None →
  let '(added, s') := add_dirent n s dir name ino flags db in
  if added then
    (∃ k buf, db ≤ k < db + Z.of_nat n ∧ s' = wr s (i_data_block dir k) buf) ∧
    dir_lookup n s' dir (comp name) db = Some ino
  else s' = s.
Proof.
  intros F Hf Hn Hino. pose proof Hn as [[N1 N2] N3].
  assert (Hdata : ∀ k, 0 ≤ k < i_block_count dir → 0 ≤ i_data_block dir k < g_total s ∧ i_data_block dir k ≠ 0).
  { intros k Hk. destruct (f_blk _ _ _ _ Hf k Hk) as (B & _). unfold is_data in B. destruct F. lia. }
  assert (Hrd : ∀ k buf j a, 0 ≤ k < i_block_count dir → 0 ≤ j < i_block_count dir → 0 ≤ a < XFS_BLOCK_SIZE →
    rd (wr s (i_data_block dir k) buf) (i_data_block dir j) a = if j =? k then buf a else rd s (i_data_block dir j) a).
  { intros k buf j a Hk Hj Ha. destruct (Hdata k Hk) as [K1 _], (Hdata j Hj) as [J1 _].
    destruct (wr_ok s (i_data_block dir k) buf F K1) as (F' & Hs & Hw).
    rewrite rd_data; [|done|destruct Hs as (-> & _); done|done]. rewrite Hw by done.
    destruct (Z.eqb_spec j k) as [->|Hjk]; [by rewrite Z.eqb_refl|].
    rewrite (proj2 (Z.eqb_neq (i_data_block dir j) _)); [by rewrite rd_data|].
    intros E. by apply (f_inj _ _ _ _ Hf) in E. }
  induction n as [|n IH]; intros db Hdb Hle Hlk; cbn [Xfs.add_dirent Xfs.dir_lookup] in *; [done|].
  assert (Hdb1 : 0 ≤ db < i_block_count dir) by lia. destruct (Hdata db Hdb1) as [B1 B2].
  rewrite (proj2 (Z.eqb_neq _ _) B2) in Hlk |- *. set (b := i_data_block dir db) in *.
  destruct (find_up (dent_matches (rd s b) (comp name)) 0 _) as [|] eqn:Hm; [done|]. rewrite find_up_None in Hm.
  assert (HMD : Z.of_nat (Z.to_nat MAX_DENTS) = MAX_DENTS) by done.
  destruct (find_up (λ d, dent_inode (rd s b) d =? 0) 0 _) as [d|] eqn:Hfree.
  - apply find_up_Some in Hfree as (Hd & _). rewrite HMD in Hd. set (buf := put_dirent (rd s b) d name ino flags).
    split; [exists db, buf; split; [lia|done]|].
    destruct (put_dirent_entry (rd s b) d name ino flags) as (P1 & P2 & P3); [lia|lia|]. fold buf in P1, P2, P3.
    assert (Hsec : ∀ a, 0 ≤ a < XFS_BLOCK_SIZE → rd (wr s b buf) b a = buf a).
    { intros a Ha. unfold b. rewrite Hrd by done. by rewrite Z.eqb_refl. }
    assert (Hblk : ∀ e a, 0 ≤ e < MAX_DENTS → e * DIRENT_SIZE ≤ a < (e + 1) * DIRENT_SIZE → 0 ≤ a < XFS_BLOCK_SIZE).
    { intros e a He Ha. unfold MAX_DENTS, XFS_BLOCK_SIZE, DIRENT_SIZE in *. change (4096 / 76) with 53 in He. lia. }
    assert (Hmatch : dent_matches (rd (wr s b buf) b) (comp name) d = true).
    { rewrite (dent_matches_ext buf); [|lia|intros a Ha; apply Hsec; by eapply (Hblk d); [lia|]].
      unfold dent_matches. rewrite P1, (proj2 (Z.eqb_neq ino 0)) by lia. apply Z.eqb_eq.
      unfold strcmp. apply (strcmp_from_same _ _ _ (zlen name)); [lia| |].
      - intros k Hk. rewrite P2 by lia. unfold comp, comp_name. destruct (Z.ltb_spec k (zlen name)).
        + by rewrite path_name by lia.
        + rewrite (proj2 (Z.eqb_eq k _)) by lia. by rewrite name_end by lia.
      - rewrite P2 by lia. by rewrite name_end by lia. }
    rewrite (find_up_first _ _ _ d); [|lia|done|].
    + rewrite (dent_inode_ext buf) by (lia || done). by rewrite P1.
    + intros e He. rewrite (dent_matches_ext (rd s b)); [apply Hm; lia|lia|].
      intros a Ha. rewrite Hsec by (eapply (Hblk e); [lia|done]). apply P3. unfold DIRENT_SIZE in *. lia.
  - specialize (IH (db + 1) ltac:(lia) ltac:(lia) Hlk).
    destruct (add_dirent n s dir name ino flags (db + 1)) as [added s']. destruct added; [|done].
    destruct IH as [(k & buf & Hk & ->) IH]. split; [exists k, buf; split; [lia|done]|].
    rewrite (proj2 (find_up_None _ _ _)); [done|]. intros e He. rewrite HMD in He.
    rewrite (dent_matches_ext (rd s b)); [apply Hm; lia|lia|]. intros a Ha. unfold b. rewrite Hrd; [|lia|lia|].
    + by rewrite (proj2 (Z.eqb_neq db k)) by lia.
    + unfold MAX_DENTS, XFS_BLOCK_SIZE, DIRENT_SIZE in *. change (4096 / 76) with 53 in He. lia.
Qed.

Lemma last_slash_root name : good_name name → last_slash (SLASH :: name) = 0.
Proof.
  intros [_ H]. unfold last_slash.
  apply (iter_up_ind (λ k best, best = 0)); [done|]. intros i best Hi ->.
  case_if; [|done]. apply Z.eqb_eq in Heqb. destruct (decide (i = 0)) as [->|]; [done|].
  replace i with (1 + (i - 1)) in Heqb by lia. rewrite path_name in Heqb by lia.
  destruct (decide (i - 1 < zlen name)).
  - destruct (H (i - 1)) as [_ N]; [lia|]. done.
  - rewrite name_end in Heqb by lia. done.
Qed.

(** Changing blocks other than those of a file leaves the file alone. *)
Lemma file_ok_frame s s' ino inode :
  fs_same s s' → (∀ x, is_data s x → used s x → used s' x) → file_ok s ino inode → file_ok s' ino inode.
Proof.
  intros Hs Hu [A1 A2 A3 A4]. pose proof (λ x, is_data_same s s' x Hs) as Hd. split; try done.
  - destruct A1. split; [by apply Hd|auto].
  - intros k Hk. destruct (A3 k Hk) as (K1 & K2 & K3). split_and!; [by apply Hd|auto|done].
Qed.

Lemma read_inode_frame s s' x :
  fs_ok s → fs_ok s' → g_total s' = g_total s → 0 ≤ x < g_total s →
  (∀ a, 0 ≤ a < XFS_BLOCK_SIZE → data s' x a = data s x a) → inode_eq (read_inode s x) (read_inode s' x).
Proof.
  intros F F' E Hx H a Ha. rewrite !read_inode_bytes by (done || lia). symmetry. apply H.
  unfold INODE_SIZE, XFS_BLOCK_SIZE in *. lia.
Qed.

Lemma new_inode_fields name flags nd :
  0 ≤ flags < 2 ^ 16 → 0 ≤ nd < 2 ^ 32 →
  let i := new_inode junk name flags nd in
  i_size i = 0 ∧ i_flags i = flags ∧ i_block_count i = 1 ∧ i_data_block i 0 = nd.
Proof.
  intros Hf Hn. unfold new_inode, i_size, i_flags, i_block_count, i_data_block, set_i_data_block, set_i_block_count, set_i_flags.
  split_and!.
  - rewrite !load_store_ne by lia. unfold load_le, strncpy_at, zeroed, XFS_NAME_MAX, INODE_SIZE. simpl. lia.
  - rewrite !load_store_ne by lia. rewrite (load_store_eq _ _ 2). by apply Z.mod_small.
  - rewrite load_store_ne by lia. by rewrite (load_store_eq _ _ 2).
  - rewrite (load_store_eq _ _ 4). by apply Z.mod_small.
Qed.

(** A directory without a free entry. *)
Definition dir_full s dir : Prop :=
  ∀ k d, 0 ≤ k < i_block_count dir → 0 ≤ d < MAX_DENTS → dent_inode (rd s (i_data_block dir k)) d ≠ 0.

Lemma add_dirent_fails s dir name ino flags n db :
  (add_dirent n s dir name ino flags db).1 = false →
  ∀ k d, db ≤ k < db + Z.of_nat n → 0 ≤ d < MAX_DENTS → dent_inode (rd s (i_data_block dir k)) d ≠ 0.
Proof.
  revert db. induction n as [|n IH]; intros db H k d Hk Hd; cbn [Xfs.add_dirent] in H; [lia|].
  destruct (find_up _ _ _) eqn:Hf; [done|]. rewrite find_up_None in Hf.
  destruct (decide (k = db)) as [->|]; [|by apply (IH (db + 1)); [|lia|]].
  specialize (Hf d). change (Z.of_nat (Z.to_nat MAX_DENTS)) with MAX_DENTS in Hf. apply Z.eqb_neq, Hf. lia.
Qed.

Lemma create_lemma s name flags :
  fs_ok s → good_name name → 0 ≤ flags < 2 ^ 16 →
  let root := g_root_block s in
  let dir := read_inode s root in
  file_ok s root dir → Z.land (i_flags dir) 1 ≠ 0 → (resolve_path junk s (SLASH :: name)).1 = 0 →
  let '(ino, s') := create junk s (SLASH :: name) flags in
  (ino = 0 ∧ ((∀ x y, is_data s x → is_data s y → ¬ used s x → ¬ used s y → x = y) ∨ dir_full s dir)) ∨
  (is_data s ino ∧ ¬ used s ino ∧ fs_ok s' ∧ g_fds s' = g_fds s ∧
   (resolve_path junk s' (SLASH :: name)).1 = ino ∧
   let inode := read_inode s' ino in
   file_ok s' ino inode ∧ i_size inode = 0 ∧ i_flags inode = flags ∧ i_block_count inode = 1 ∧
   ¬ used s (i_data_block inode 0)).
Proof.
  intros F Hn Hfl root dir Hf Hdirf Hno. unfold create, parent_of. rewrite last_slash_root by done. rewrite Z.eqb_refl.
  change (Z.to_nat (0 + 1)) with 1%nat. change (drop 1 (SLASH :: name)) with name. fold root.
  destruct (f_ino _ _ _ _ Hf) as [R1 R2].
  assert (Hdata : ∀ x, is_data s x → 0 < x < g_total s) by (intros x Hx; unfold is_data in Hx; destruct F; lia).
  pose proof (Hdata _ R1) as Hr0. rewrite (proj2 (Z.eqb_neq root 0)) by lia.
  destruct (proj2 Hn 0) as [N1 _]; [destruct Hn; lia|]. rewrite (proj2 (Z.eqb_neq _ _) N1).
  pose proof (alloc_block_cases junk s F) as H1. destruct (alloc_block junk s) as [ino s1].
  destruct H1 as [(-> & -> & Hall)|(I1 & I2 & _ & F1 & S1 & U1 & D1)].
  { rewrite Z.eqb_refl. left. split; [done|]. left. intros x y Hx _ Hux. destruct Hux. by apply Hall. }
  rewrite (proj2 (Z.eqb_neq ino 0)) by (specialize (Hdata _ I1); lia).
  assert (T1 : ∀ x, is_data s1 x ↔ is_data s x) by (intros; by apply is_data_same).
  pose proof (alloc_block_cases junk s1 F1) as H2. destruct (alloc_block junk s1) as [nd s2].
  destruct H2 as [(-> & -> & Hall)|(J1 & J2 & _ & F2 & S2 & U2 & D2)].
  { rewrite Z.eqb_refl. left. split; [done|]. left. intros x y Hx Hy Hux Huy.
    assert (Hx1 : used s1 x) by (by apply Hall, T1). assert (Hy1 : used s1 y) by (by apply Hall, T1).
    apply U1 in Hx1 as [?| ->]; [done| |specialize (Hdata _ Hx); lia]. apply U1 in Hy1 as [?| ->]; [done|done|specialize (Hdata _ Hy); lia]. }
  apply T1 in J1. pose proof (Hdata _ I1) as Hi0. pose proof (Hdata _ J1) as Hj0.
  rewrite (proj2 (Z.eqb_neq nd 0)) by lia.
  assert (E1 : g_total s1 = g_total s) by apply S1. assert (E2 : g_total s2 = g_total s) by (rewrite <- E1; apply S2).
  assert (Hu1i : used s1 ino) by (apply U1; [lia|by right]).
  assert (Hne : nd ≠ ino) by (intros ->; done).
  assert (Hnu : ¬ used s nd) by (intros Hu; apply J2, U1; [lia|by left]).
  set (v := new_inode junk name flags nd).
  destruct (wr_ok s2 ino (blit (rd s2 ino) 0 v 0 INODE_SIZE) F2) as (F3 & S3 & W3); [lia|].
  fold (write_inode junk s2 ino v) in F3, S3, W3. set (s3 := write_inode junk s2 ino v) in *.
  assert (S03 : fs_same s s3) by (etransitivity; [exact S1|]; etransitivity; [exact S2|exact S3]).
  assert (U3 : ∀ x, 0 ≤ x < g_total s → used s3 x ↔ used s x ∨ x = ino ∨ x = nd).
  { intros x Hx. unfold XfsProofs.used, s3, write_inode. rewrite wr_used; [|done|by apply (is_data_same s1 s2 _ S2), T1|lia].
    fold (used s2 x). rewrite U2, U1 by lia. tauto. }
  assert (D3 : ∀ x a, is_data s x → x ≠ ino → 0 ≤ a < XFS_BLOCK_SIZE → data s3 x a = data s x a).
  { intros x a Hx Hxi Ha. pose proof (Hdata _ Hx). rewrite W3 by lia. rewrite (proj2 (Z.eqb_neq x ino)) by done.
    rewrite D2 by (done || by apply T1). by apply D1. }
  assert (Er : root ≠ ino) by (intros E; rewrite E in R2; done).
  assert (Hdir3 : inode_eq dir (read_inode s3 root)).
  { apply read_inode_frame; [done|done|apply S03|lia|]. intros a Ha. by apply D3. }
  destruct (inode_eq_fields _ _ Hdir3) as (_ & Q2 & Q3 & Q4). set (dir3 := read_inode s3 root) in *.
  assert (Hf3 : file_ok s3 root dir3).
  { apply (file_eq junk s3 root dir dir3 Hdir3). eapply file_ok_frame; [exact S03| |exact Hf].
    intros x Hx Hux. apply U3; [specialize (Hdata _ Hx); lia|by left]. }
  rewrite resolve_root_name in Hno by done. fold root dir in Hno. pose proof (f_bc _ _ _ _ Hf) as Hbc. unfold MAX_DIRECT in Hbc.
  assert (Hlk : dir_lookup (Z.to_nat (i_block_count dir3)) s3 dir3 (comp name) 0 = None).
  { rewrite <- Q3. rewrite (lookup_ext _ s s3 dir dir3).
    - destruct (dir_lookup _ s dir (comp name) 0) as [b|] eqn:Hb; [|done]. exfalso. cbn [fst] in Hno. by apply (lookup_nonzero _ _ _ _ _ _ Hb).
    - intros k Hk. symmetry. apply Q4. unfold MAX_DIRECT. lia.
    - intros k a Hk Ha. destruct (f_blk _ _ _ _ Hf k) as (K1 & K2 & K3); [lia|]. pose proof (Hdata _ K1).
      rewrite !rd_data; [|done|lia|done|done|destruct S03 as (-> & _); lia|done]. apply D3; [done|intros E; by rewrite E in K2|done]. }
  assert (Hi32 : 0 < ino < 2 ^ 32) by (destruct F; lia).
  pose proof (add_dirent_found root dir3 name ino flags s3 F3 Hf3 Hn Hi32 (Z.to_nat (i_block_count dir3)) 0 ltac:(lia) ltac:(lia) Hlk) as HA.
  pose proof (add_dirent_fails s3 dir3 name ino flags (Z.to_nat (i_block_count dir3)) 0) as HX.
  destruct (add_dirent _ s3 dir3 name ino flags 0) as [added s4]. destruct added.
  2:{ left. split; [done|]. right. intros k d Hk Hd. specialize (HX eq_refl k d ltac:(lia) Hd).
      destruct (f_blk _ _ _ _ Hf k Hk) as (K1 & K2 & K3). pose proof (Hdata _ K1).
      rewrite <- (Q4 k) in HX by (unfold MAX_DIRECT; lia). intros E. apply HX. rewrite <- E. apply dent_inode_ext; [done|].
      intros a Ha. rewrite !rd_data; [|done|lia|done|done|destruct S03 as (-> & _); lia|done].
      apply D3; [done|intros E'; by rewrite E' in K2|done]. }
  right. destruct HA as [(k & buf & Hk & ->) HA]. assert (Hk3 : 0 ≤ k < i_block_count dir3) by lia.
  destruct (f_blk _ _ _ _ Hf3 k Hk3) as (K1 & K2 & K3). set (b := i_data_block dir3 k) in *.
  assert (Eb : b = i_data_block dir k) by (unfold b; symmetry; apply Q4; unfold MAX_DIRECT; lia).
  assert (Hbu : is_data s b ∧ used s b) by (rewrite Eb; destruct (f_blk _ _ _ _ Hf k) as (? & ? & _); [lia|done]).
  destruct Hbu as [Hbd Hbu]. assert (Hbi : b ≠ ino) by (intros E; by rewrite E in Hbu).
  destruct (wr_ok s3 b buf F3) as (F4 & S4 & W4); [specialize (Hdata _ Hbd); destruct S03 as (-> & _); lia|].
  set (s4 := wr s3 b buf) in *. assert (S04 : fs_same s s4) by (etransitivity; [exact S03|exact S4]).
  assert (Et3 : g_total s3 = g_total s) by apply S03. assert (Et4 : g_total s4 = g_total s) by apply S04.
  assert (U4 : ∀ x, 0 ≤ x < g_total s → used s4 x ↔ used s x ∨ x = ino ∨ x = nd).
  { intros x Hx. unfold XfsProofs.used, s4. rewrite wr_used by (done || lia). by apply U3. }
  assert (Hroot4 : inode_eq dir3 (read_inode s4 root)).
  { apply read_inode_frame; [done|done|lia|lia|]. intros a Ha. rewrite W4 by lia. by rewrite (proj2 (Z.eqb_neq root b)) by congruence. }
  destruct (inode_eq_fields _ _ Hroot4) as (_ & X2 & X3 & X4).
  assert (Hino4 : inode_eq v (read_inode s4 ino)).
  { intros a Ha. rewrite read_inode_bytes by (done || lia). unfold INODE_SIZE in Ha.
    rewrite W4, (proj2 (Z.eqb_neq ino b)), W3, Z.eqb_refl by (congruence || lia || (unfold XFS_BLOCK_SIZE; lia)).
    rewrite blit_in by (unfold INODE_SIZE; lia). f_equal. lia. }
  destruct (inode_eq_fields _ _ Hino4) as (Y1 & Y2 & Y3 & Y4).
  destruct (new_inode_fields name flags nd Hfl) as (V1 & V2 & V3 & V4); [destruct F; lia|]. fold v in V1, V2, V3, V4.
  specialize (Y4 0 ltac:(unfold MAX_DIRECT; lia)). rewrite V4 in Y4. rewrite V1 in Y1. rewrite V2 in Y2. rewrite V3 in Y3.
  assert (D4 : ∀ x, is_data s4 x ↔ is_data s x) by (intros; by apply is_data_same).
  split_and!; try done.
  - apply S04.
  - assert (Hroot : g_root_block s4 = root) by apply S04.
    rewrite resolve_root_name; [|done|rewrite Hroot, <- X2, <- Q2; done]. rewrite Hroot, <- X3.
    rewrite (lookup_ext _ s4 s4 dir3 (read_inode s4 root)); [by rewrite HA| |done].
    intros j Hj. symmetry. apply X4. unfold MAX_DIRECT. lia.
  - split; rewrite <- ?Y3.
    + split; [by apply D4|apply U4; [lia|auto]].
    + unfold MAX_DIRECT. lia.
    + intros j Hj. assert (j = 0) as -> by lia. rewrite <- Y4. split_and!; [by apply D4|apply U4; [lia|auto]|done].
    + intros j l Hj Hl _. lia.
  - by rewrite <- Y4.
Qed.

(** Path resolution does not look at the descriptors. *)
Lemma resolve_fds s l path : resolve_path junk (with_fds s l) path = resolve_path junk s path.
Proof.
  unfold resolve_path. change (read_inode (with_fds s l) (g_root_block (with_fds s l))) with (read_inode s (g_root_block s)).
  case_if; [done|]. case_if; [done|]. case_if; [done|].
  generalize (read_inode s (g_root_block s)) as out, 1 as p.
  induction (length path) as [|n IH]; intros out p; cbn [resolve_loop]; [done|].
  rewrite (lookup_ext _ s (with_fds s l) out out) by done. destruct (dir_lookup _ _ _ _ _) as [b|]; [|done].
  change (read_inode (with_fds s l) b) with (read_inode s b). destruct (path.[p + _] =? SLASH); case_if; try done; apply IH.
Qed.

(** ** Formatting *)

Lemma zeroed_in m off n a : off ≤ a < off + n → zeroed m off n a = 0.
Proof. intros H. unfold zeroed. by rewrite (proj2 (Z.leb_le off a)), (proj2 (Z.ltb_lt a _)) by lia. Qed.

(** Blocks [1 .. total - 1] cleared. *)
Lemma clear_blocks s :
  fs_ok s →
  let s' := iter_up (λ i s, wr s i (zeroed junk 0 XFS_BLOCK_SIZE)) 1 (Z.to_nat (g_total s - 1)) s in
  fs_ok s' ∧ fs_same s s' ∧ ∀ x a, 1 ≤ x < g_total s → 0 ≤ a < XFS_BLOCK_SIZE → data s' x a = 0.
Proof.
  intros F. assert (Ht : 1 ≤ g_total s) by (destruct F; lia).
  assert (H : (λ k s', fs_ok s' ∧ fs_same s s' ∧ ∀ x a, 1 ≤ x < k → 0 ≤ a < XFS_BLOCK_SIZE → data s' x a = 0)
    (1 + Z.of_nat (Z.to_nat (g_total s - 1)))
    (iter_up (λ i s, wr s i (zeroed junk 0 XFS_BLOCK_SIZE)) 1 (Z.to_nat (g_total s - 1)) s)).
  { apply iter_up_ind.
    - split_and!; [done|done|lia].
    - intros i s' Hi (F' & S' & H). assert (Et : g_total s' = g_total s) by apply S'.
      destruct (wr_ok s' i (zeroed junk 0 XFS_BLOCK_SIZE) F') as (F2 & S2 & W); [lia|].
      split_and!; [done|by etransitivity|]. intros x a Hx Ha. rewrite W by lia.
      destruct (Z.eqb_spec x i); [apply zeroed_in; lia|apply H; lia]. }
  replace (1 + Z.of_nat (Z.to_nat (g_total s - 1))) with (g_total s) in H by lia. exact H.
Qed.

(** The first [n] bits of an empty bitmap set. *)
Lemma mark_blocks s n :
  fs_ok s → 0 ≤ n ≤ g_total s → (∀ x, 0 ≤ x < g_total s → ¬ used s x) →
  let s' := iter_up (λ b s, bitmap_set junk s b true) 0 (Z.to_nat n) s in
  fs_ok s' ∧ fs_same s s' ∧ (∀ x, 0 ≤ x < g_total s → used s' x ↔ x < n) ∧
  ∀ x a, 0 ≤ x < g_total s → x < 1 ∨ g_data_start s ≤ x → 0 ≤ a < XFS_BLOCK_SIZE → data s' x a = data s x a.
Proof.
  intros F Hn Hempty.
  pose (P := λ k s', fs_ok s' ∧ fs_same s s' ∧ (∀ x, 0 ≤ x < g_total s → used s' x ↔ x < k) ∧
    ∀ x a, 0 ≤ x < g_total s → x < 1 ∨ g_data_start s ≤ x → 0 ≤ a < XFS_BLOCK_SIZE → data s' x a = data s x a).
  assert (H : P (0 + Z.of_nat (Z.to_nat n)) (iter_up (λ b s, bitmap_set junk s b true) 0 (Z.to_nat n) s)).
  { apply (iter_up_ind P).
    - split_and!; try done. intros x Hx. split; [intros Hu; by destruct (Hempty x Hx)|lia].
    - intros b s' Hb (F' & S' & U & Dt). assert (Et : g_total s' = g_total s) by apply S'.
      assert (Ed : g_data_start s' = g_data_start s) by apply S'.
      destruct (bitmap_set_ok junk s' b true F') as (F2 & S2 & U2 & D2); [lia|].
      split_and!; [done|by etransitivity| |].
      + intros x Hx. unfold XfsProofs.used. rewrite U2 by lia. destruct (Z.eqb_spec b x) as [->|]; [lia|].
        fold (used s' x). rewrite U by done. lia.
      + intros x a Hx Ho Ha. rewrite D2 by lia. by apply Dt. }
  replace (0 + Z.of_nat (Z.to_nat n)) with n in H by lia. exact H.
Qed.

(** The state [xfs_format] starts from. *)
Lemma format_geometry (dev : D) fds :
  dev_ok dev → 4 ≤ block_count dev < 2 ^ 32 →
  let total := block_count dev in
  let bb := (total + 8 * XFS_BLOCK_SIZE - 1) / (8 * XFS_BLOCK_SIZE) in
  let bb := if bb <? 1 then 1 else bb in
  1 ≤ bb < 2 ^ 32 ∧ 3 + bb ≤ total ∧ fs_ok (mkXfs dev total bb (1 + bb) (1 + bb) fds).
Proof.
  intros Hd Ht. cbv zeta. unfold XFS_BLOCK_SIZE. set (total := block_count dev) in *.
  set (q := (total + 8 * 4096 - 1) / (8 * 4096)).
  assert (Hq : total ≤ q * 32768 < total + 32768 ∧ 1 ≤ q).
  { unfold q. change (8 * 4096) with 32768. pose proof (Z.div_mod (total + 32768 - 1) 32768 ltac:(lia)).
    pose proof (Z.mod_pos_bound (total + 32768 - 1) 32768 ltac:(lia)). lia. }
  clearbody q. destruct (Z.ltb_spec q 1); [lia|]. split_and!; try lia.
  split; cbn; unfold XFS_BLOCK_SIZE; try done; fold total; lia.
Qed.

Lemma load_rd s b n a : fs_ok s → 0 ≤ b < g_total s → 0 ≤ a → a + Z.of_nat n ≤ XFS_BLOCK_SIZE →
  load_le (rd s b) a n = load_le (data s b) a n.
Proof. intros F Hb Ha Hn. apply load_le_ext. intros i Hi. apply rd_data; (done || lia). Qed.

Lemma format_lemma (dev : D) fds :
  dev_ok dev → 4 ≤ block_count dev < 2 ^ 32 →
  ∃ m, m = with_fds (xfs_format junk dev fds) (replicate (Z.to_nat XFS_MAX_FDS) fd_zero) ∧
    xfs_mount junk (g_dev (xfs_format junk dev fds)) = Some m ∧ fs_ok m ∧
    g_total m = block_count dev ∧ zlen (g_fds m) = XFS_MAX_FDS ∧
    (∀ x, 0 ≤ x < g_total m → used m x ↔ x < g_data_start m + 2) ∧
    let root := read_inode m (g_root_block m) in
    file_ok m (g_root_block m) root ∧ i_flags root = 1 ∧ i_block_count root = 1 ∧
    ∀ d, 0 ≤ d < MAX_DENTS → dent_inode (rd m (i_data_block root 0)) d = 0.
Proof.
  intros Hd Ht. unfold xfs_format. destruct (format_geometry dev fds Hd Ht) as (Hbb & Hfit & F0). cbv zeta in Hbb, Hfit, F0 |- *.
  set (total := block_count dev) in *. set (bb := if _ <? 1 then _ else _) in *. clearbody bb.
  set (s0 := mkXfs dev total bb (1 + bb) (1 + bb) fds) in *.
  destruct (clear_blocks s0 F0) as (F1 & S1 & Z1). change (g_total s0) with total in Z1. change (g_total s0 - 1) with (total - 1) in F1, S1, Z1.
  set (s1 := iter_up _ 1 _ s0) in *. assert (Et1 : g_total s1 = total) by apply S1.
  set (zero := zeroed junk 0 XFS_BLOCK_SIZE).
  set (sb := store_le _ 40 8 (1 + bb)).
  destruct (wr_ok s1 0 sb F1) as (F2 & S2 & W2); [lia|]. set (s2 := wr s1 0 sb) in *.
  assert (Et2 : g_total s2 = total) by (rewrite <- Et1; apply S2).
  assert (Ed2 : g_data_start s2 = 1 + bb) by (destruct S1 as (_ & _ & E & _), S2 as (_ & _ & E' & _); rewrite E', E; done).
  assert (Hempty : ∀ x, 0 ≤ x < g_total s2 → ¬ used s2 x).
  { intros x Hx Hu. unfold XfsProofs.used in Hu. rewrite bitmap_get_bit in Hu by done.
    destruct (bit_place s2 x F2 Hx) as (B1 & B2 & _). rewrite W2 in Hu by lia.
    rewrite (proj2 (Z.eqb_neq _ 0)) in Hu by lia. rewrite Z1 in Hu by lia. by rewrite Z.bits_0 in Hu. }
  destruct (mark_blocks s2 (1 + bb + 2) F2 ltac:(lia) Hempty) as (F3 & S3 & U3 & D3). set (s3 := iter_up _ 0 _ s2) in *.
  assert (Et3 : g_total s3 = total) by (rewrite <- Et2; apply S3). rewrite Et2 in U3, D3. rewrite Ed2 in D3.
  set (root := set_i_data_block _ 0 (1 + bb + 1)).
  destruct (wr_ok s3 (1 + bb) root F3) as (F4 & S4 & W4); [lia|]. set (s4 := wr s3 (1 + bb) root) in *. rewrite Et3 in W4.
  assert (S04 : fs_same s0 s4) by (etransitivity; [exact S1|]; etransitivity; [exact S2|]; etransitivity; [exact S3|exact S4]).
  assert (Hsb : ∀ a n, 0 ≤ a → a + Z.of_nat n ≤ XFS_BLOCK_SIZE → load_le (block_read (g_dev s4) 0 1 junk).2 a n = load_le sb a n).
  { intros a n Ha Hn. fold (rd s4 0). rewrite load_rd; [|done|destruct F4; lia|done|done]. apply load_le_ext. intros i Hi.
    rewrite W4 by lia. rewrite (proj2 (Z.eqb_neq 0 (1 + bb))) by lia. rewrite D3 by lia. by rewrite W2 by lia. }
  assert (Hgeo : load_le sb 0 4 = XFS_MAGIC ∧ load_le sb 8 8 = total ∧ load_le sb 24 8 = 1 + bb ∧ load_le sb 32 8 = bb ∧ load_le sb 40 8 = 1 + bb).
  { unfold sb. split_and!; repeat (rewrite load_store_ne by lia); rewrite load_store_eq; apply Z.mod_small; unfold XFS_MAGIC; simpl Z.of_nat; lia. }
  destruct Hgeo as (G1 & G2 & G3 & G4 & G5).
  set (m := mkXfs (g_dev s4) total bb (1 + bb) (1 + bb) (replicate (Z.to_nat XFS_MAX_FDS) fd_zero)).
  assert (Fm : fs_ok m) by (destruct F4, S04 as (T1 & T2 & T3 & _); split; cbn in *; rewrite ?T1, ?T2, ?T3 in *; done).
  exists m. split; [destruct S04 as (T1 & T2 & T3 & T4 & _); unfold with_fds; by rewrite T1, T2, T3, T4|]. split.
  { unfold xfs_mount. rewrite !Hsb by (unfold XFS_BLOCK_SIZE; lia). by rewrite G1, G2, G3, G4, G5. }
  assert (Um : ∀ x, 0 ≤ x < total → used m x ↔ x < 1 + bb + 2).
  { intros x Hx. rewrite <- (U3 x Hx). unfold XfsProofs.used. change (Xfs.bitmap_get junk m x) with (Xfs.bitmap_get junk s4 x).
    unfold s4. rewrite wr_used; [done|done|unfold is_data; destruct S3 as (_ & _ & -> & _); lia|lia]. }
  assert (Hroot : inode_eq root (read_inode m (1 + bb))).
  { intros a Ha. rewrite read_inode_bytes by (done || (cbn; lia)). change (data m (1 + bb) a) with (data s4 (1 + bb) a).
    rewrite W4 by (unfold INODE_SIZE, XFS_BLOCK_SIZE in *; lia). by rewrite Z.eqb_refl. }
  destruct (inode_eq_fields _ _ Hroot) as (_ & Y2 & Y3 & Y4). specialize (Y4 0 ltac:(unfold MAX_DIRECT; lia)).
  assert (R2 : i_flags root = 1) by (unfold root, i_flags, set_i_data_block, set_i_block_count, set_i_flags; rewrite !load_store_ne by lia; by rewrite (load_store_eq _ 68 2)).
  assert (R3 : i_block_count root = 1) by (unfold root, i_block_count, set_i_data_block, set_i_block_count; rewrite load_store_ne by lia; by rewrite (load_store_eq _ 70 2)).
  assert (R4 : i_data_block root 0 = 1 + bb + 1) by (unfold root, i_data_block, set_i_data_block; rewrite (load_store_eq _ (72 + 4 * 0) 4); apply Z.mod_small; lia).
  rewrite R2 in Y2. rewrite R3 in Y3. rewrite R4 in Y4. split_and!; try done; cbn [g_root_block m].
  - split; rewrite <- ?Y3; cbn [g_root_block m].
    + split; [unfold is_data; cbn; lia|apply Um; lia].
    + unfold MAX_DIRECT. lia.
    + intros k Hk. assert (k = 0) as -> by lia. rewrite <- Y4. split_and!; [unfold is_data; cbn; lia|apply Um; lia|lia].
    + intros j k Hj Hk _. lia.
  - intros d Hd0. rewrite <- Y4. unfold dent_inode. unfold MAX_DENTS, DIRENT_SIZE, XFS_BLOCK_SIZE in *. change (4096 / 76) with 53 in Hd0.
    rewrite load_rd; [|done|cbn; lia|lia|unfold XFS_BLOCK_SIZE; lia].
    rewrite (load_le_ext (λ _, 0)); [done|]. intros i Hi. change (data m) with (data s4). rewrite W4 by (unfold XFS_BLOCK_SIZE; lia).
    rewrite (proj2 (Z.eqb_neq _ (1 + bb))) by lia. rewrite D3 by (unfold XFS_BLOCK_SIZE; lia). rewrite W2 by (unfold XFS_BLOCK_SIZE; lia).
    rewrite (proj2 (Z.eqb_neq _ 0)) by lia. apply Z1; unfold XFS_BLOCK_SIZE; lia.
Qed.
End dir.
