(* ===== verification/XfsSpec.v ===== *)
(** * What the file system promises

    The theorems about [kernel/fs/xfs.c], over any block device that satisfies
    the laws of [Block.v], and their instances on the RAM disk. *)

From S2P Require Import Prelude Mem CString Block Xfs XfsProofs XfsDir.

Section spec.
Context {D : Type} `{!BlockDev D} `{!BlockDevLaws D}.
Variable junk : mem.
Implicit Types (s : xfs D).

(** C19: [xfs_write] on an open file of a consistent file system, at an offset
    inside the blocks the file has or just after them (a write after a seek further
    out is [write_past_hole] below): it writes all [count] bytes, or stops because
    no data block is free, or because the file has reached the 900 blocks an inode
    can name; the file system stays consistent, the written range of the file holds
    the buffer's bytes, every other byte of the file and every block of any other
    file is unchanged, and size and offset follow. *)
Theorem xfs_write_spec s fd buf count pid ino off :
  fs_ok s → open_file s fd pid ino off → Z.land (fd_flags (g_fds s).[fd]) 3 ≠ 0 →
  let inode := read_inode junk s ino in
  file_ok junk s ino inode → 0 ≤ i_size inode < 2 ^ 32 → 0 ≤ off ≤ capacity inode → 0 < count →
  let '(r, s') := xfs_write junk s fd buf count pid in
  let inode' := read_inode junk s' ino in
  0 ≤ r ≤ count ∧ (r < count → (∀ x, is_data s' x → used junk s' x) ∨ off + r = MAX_DIRECT * XFS_BLOCK_SIZE) ∧
  fs_ok s' ∧ file_ok junk s' ino inode' ∧ open_file s' fd pid ino (off + r) ∧
  i_size inode' = Z.max (i_size inode) (off + r) ∧ off + r ≤ capacity inode' ∧ capacity inode ≤ capacity inode' ∧
  (∀ p, off ≤ p < off + r → file_byte s' inode' p = buf (p - off)) ∧
  (∀ p, 0 ≤ p < capacity inode → ¬ (off ≤ p < off + r) → file_byte s' inode' p = file_byte s inode p) ∧
  (∀ x a, other junk s ino inode x → 0 ≤ a < XFS_BLOCK_SIZE → used junk s' x ∧ data s' x a = data s x a).
Proof. apply xfs_write_lemma. Qed.

(** C20: What was written is read back: after a write, seeking back to where it
    started and reading that many bytes returns exactly the bytes written. *)
Theorem xfs_write_read_roundtrip s fd buf buf0 count pid ino off :
  fs_ok s → open_file s fd pid ino off → Z.land (fd_flags (g_fds s).[fd]) 3 ≠ 0 →
  let inode := read_inode junk s ino in
  file_ok junk s ino inode → 0 ≤ i_size inode ≤ capacity inode → 0 ≤ off ≤ capacity inode → 0 < count →
  off + count ≤ MAX_DIRECT * XFS_BLOCK_SIZE →
  let '(r, s1) := xfs_write junk s fd buf count pid in
  let '(p, s2) := xfs_lseek junk s1 fd off SEEK_SET pid in
  let '(r2, buf2, s3) := xfs_read junk s2 fd buf0 r pid in
  p = off ∧ r2 = r ∧ ∀ j, buf2 j = if (0 <=? j) && (j <? r) then buf j else buf0 j.
Proof.
  intros F O Hfl inode Hf Hsz Hoff Hcnt Hmax. pose proof (f_bc _ _ _ _ Hf) as Hbc.
  assert (Hcap : capacity inode ≤ MAX_DIRECT * XFS_BLOCK_SIZE) by (unfold capacity, MAX_DIRECT, XFS_BLOCK_SIZE in *; lia).
  assert (Hsz2 : 0 ≤ i_size inode < 2 ^ 32) by (change (MAX_DIRECT * XFS_BLOCK_SIZE) with 3686400 in Hcap; lia).
  assert (Hlim : off + count < 2 ^ 31) by (change (MAX_DIRECT * XFS_BLOCK_SIZE) with 3686400 in Hmax; lia).
  pose proof (xfs_write_lemma junk s fd buf count pid ino off F O Hfl Hf Hsz2 Hoff Hcnt) as W.
  destruct (xfs_write junk s fd buf count pid) as [r s1].
  destruct W as (W1 & _ & W3 & W4 & W5 & W6 & W7 & W8 & W9 & _). fold inode in W6, W8.
  pose proof W5 as [O1 O2 O3 O4 O5]. unfold xfs_lseek. rewrite (open_fd _ _ _ _ _ W5), O3. cbn [negb].
  change (SEEK_SET =? SEEK_SET) with true. cbv iota. rewrite (proj2 (Z.ltb_ge off 0)), (u32_small off) by lia.
  set (s2 := set_offset s1 fd off).
  assert (F2 : fs_ok s2) by (destruct W3; by split).
  assert (O2' : open_file s2 fd pid ino off) by (by eapply set_offset_open).
  destruct (decide (r = 0)) as [->|Hr].
  { unfold xfs_read. rewrite (open_fd _ _ _ _ _ O2'), (o_ok _ _ _ _ _ O2'). cbn [negb]. split_and!; [done|done|].
    intros j. destruct (Z.leb_spec 0 j), (Z.ltb_spec j 0); simpl; (lia || done). }
  pose proof (xfs_read_lemma junk s2 fd buf0 r pid ino off F2 O2') as R.
  change (read_inode junk s2 ino) with (read_inode junk s1 ino) in R. cbv zeta in R.
  specialize (R ltac:(by destruct W4; split) ltac:(lia) ltac:(lia) ltac:(lia)). rewrite W6 in R.
  replace (Z.max 0 (Z.min r (Z.max (i_size inode) (off + r) - off))) with r in R by lia.
  destruct (xfs_read junk s2 fd buf0 r pid) as [[r2 buf2] s3]. destruct R as (-> & R & _). split_and!; [done|done|].
  intros j. rewrite R. destruct (Z.leb_spec 0 j), (Z.ltb_spec j r); simpl; try done.
  change (file_byte s2 (read_inode junk s1 ino) (off + j)) with (file_byte s1 (read_inode junk s1 ino) (off + j)).
  rewrite W9 by lia. f_equal. lia.
Qed.

(** C21: Opening a missing file [/name] with [XFS_O_CREAT] (in a root directory
    that is consistent) either fails, only when there are not two free blocks,
    no free directory entry or no free descriptor, or returns a descriptor, at
    offset 0, of a new empty file that path resolution then finds by its name. *)
Theorem xfs_open_creates s name flags pid :
  fs_ok s → good_name name → zlen (g_fds s) = XFS_MAX_FDS → 0 ≤ pid < 2 ^ 32 →
  let root := g_root_block s in
  let dir := read_inode junk s root in
  file_ok junk s root dir → Z.land (i_flags dir) 1 ≠ 0 →
  (resolve_path junk s (SLASH :: name)).1 = 0 → Z.land flags XFS_O_CREAT ≠ 0 →
  let '(fd, s') := xfs_open junk s (SLASH :: name) flags pid in
  (fd = -1 ∧ ((∀ x y, is_data s x → is_data s y → ¬ used junk s x → ¬ used junk s y → x = y) ∨ dir_full junk s dir ∨
              ∀ i, 0 ≤ i < XFS_MAX_FDS → fd_used (g_fds s).[i] = true)) ∨
  ∃ ino, open_file s' fd pid ino 0 ∧ fd_flags (g_fds s').[fd] = flags ∧ fs_ok s' ∧
    is_data s ino ∧ ¬ used junk s ino ∧ (resolve_path junk s' (SLASH :: name)).1 = ino ∧
    file_ok junk s' ino (read_inode junk s' ino) ∧ i_size (read_inode junk s' ino) = 0.
Proof.
  intros F Hn Hfds Hpid root dir Hf Hdir Hno Hfl. unfold xfs_open.
  change ((SLASH :: name).[0]) with SLASH. rewrite Z.eqb_refl. cbn [negb]. rewrite Hno, Z.eqb_refl, (proj2 (Z.eqb_neq _ _) Hfl). cbn [andb negb].
  pose proof (create_lemma junk s name 0 F Hn ltac:(lia) Hf Hdir Hno) as HC.
  destruct (create junk s (SLASH :: name) 0) as [ino s1].
  destruct HC as [[-> HC]|(C1 & C2 & C3 & C4 & C5 & C6 & C7 & _)].
  { rewrite Z.eqb_refl. left. split; [done|]. destruct HC; auto. }
  assert (Hino : 0 < ino < 2 ^ 32) by (unfold is_data in C1; destruct F; lia).
  rewrite (proj2 (Z.eqb_neq ino 0)) by lia. unfold alloc_fd. rewrite C4.
  destruct (find_up _ _ _) as [i|] eqn:Hfd.
  - right. apply find_up_Some in Hfd as (Hi & _). change (Z.of_nat (Z.to_nat XFS_MAX_FDS)) with XFS_MAX_FDS in Hi.
    exists ino. split_and!; try done.
    + split; cbn [g_fds with_fds]; rewrite ?zlen_aset, ?aget_aset_eq by lia; cbn; try (done || lia).
      * unfold fd_ok. cbn [g_fds with_fds]. rewrite aget_aset_eq by lia. cbn. rewrite u32_small by lia. apply Z.eqb_refl.
      * apply u32_small. lia.
    + cbn [g_fds with_fds]. by rewrite aget_aset_eq by lia.
    + destruct C3. by split.
    + by rewrite resolve_fds.
    + destruct C6. by split.
  - left. split; [done|]. right. right. intros i Hi. rewrite find_up_None in Hfd.
    specialize (Hfd i). change (Z.of_nat (Z.to_nat XFS_MAX_FDS)) with XFS_MAX_FDS in Hfd. apply negb_false_iff, Hfd. lia.
Qed.

(** Formatting a device and mounting it gives a consistent file system: the
    superblock round-trips, exactly the superblock, the bitmap, the root inode
    and its data block are in use, and the root is an empty directory. *)
Theorem xfs_format_mount (dev : D) fds :
  dev_ok dev → 4 ≤ block_count dev < 2 ^ 32 →
  ∃ m, xfs_mount junk (g_dev (xfs_format junk dev fds)) = Some m ∧ fs_ok m ∧
    g_total m = block_count dev ∧ zlen (g_fds m) = XFS_MAX_FDS ∧
    (∀ x, 0 ≤ x < g_total m → used junk m x ↔ x < g_data_start m + 2) ∧
    let root := read_inode junk m (g_root_block m) in
    file_ok junk m (g_root_block m) root ∧ i_flags root = 1 ∧ i_block_count root = 1 ∧
    ∀ d, 0 ≤ d < MAX_DENTS → dent_inode (rd junk m (i_data_block root 0)) d = 0.
Proof. intros Hd Ht. destruct (format_lemma junk dev fds Hd Ht) as (m & _ & H). by exists m. Qed.
End spec.

(** ** On the RAM disk

    A disk of 16 blocks, formatted and mounted; a file created, written, deleted. *)
Module XfsDemo.
Definition junk : mem := λ _, 0xAA.
Definition disk : ramdisk := mkRamdisk 16 0x1000 (λ _, 0).
Definition fds : list xfs_fd := replicate (Z.to_nat XFS_MAX_FDS) fd_zero.
Definition formatted : xfs ramdisk := xfs_format junk disk [].
Definition mounted : xfs ramdisk := mkXfs (g_dev formatted) 16 1 2 2 fds.
(** "a" *)
Definition name : list Z := [97].
Definition opened : xfs ramdisk := (xfs_open junk mounted (SLASH :: name) (XFS_O_CREAT + XFS_O_RDWR) 7).2.
Strategy 100 [formatted mounted opened].

(** A one-block file is consistent if its two blocks are distinct data blocks in use. *)
Lemma one_block_file (s : xfs ramdisk) ino (i : mem) b :
  i_block_count i = 1 → i_data_block i 0 = b → is_data s ino → used junk s ino → is_data s b → used junk s b → b ≠ ino →
  file_ok junk s ino i.
Proof.
  intros H1 H2 A B C E N. split; rewrite ?H1; [done|unfold MAX_DIRECT; lia| |].
  - intros k Hk. assert (k = 0) as -> by lia. by rewrite H2.
  - intros j k Hj Hk _. lia.
Qed.

Lemma small_fs (s : xfs ramdisk) :
  rd_count (g_dev s) = 16 → g_total s = 16 → g_bitmap_blocks s = 1 → g_data_start s = 2 → fs_ok s.
Proof. intros H1 H2 H3 H4. split; cbn; rewrite ?H1, ?H2, ?H3, ?H4; unfold XFS_BLOCK_SIZE; lia. Qed.
Lemma small_data (s : xfs ramdisk) x : g_total s = 16 → g_data_start s = 2 → 2 ≤ x < 16 → is_data s x.
Proof. intros H1 H2 Hx. unfold is_data. rewrite H1, H2. lia. Qed.

Lemma mounted_ok : fs_ok mounted.
Proof. apply small_fs; vm_compute; reflexivity. Qed.
Lemma mounted_root : file_ok junk mounted 2 (read_inode junk mounted 2).
Proof.
  apply (one_block_file _ _ _ 3); [vm_compute; reflexivity|vm_compute; reflexivity| |vm_compute; reflexivity| |vm_compute; reflexivity|lia];
    apply small_data; (reflexivity || lia).
Qed.
Lemma opened_ok : fs_ok opened.
Proof. apply small_fs; vm_compute; reflexivity. Qed.
Lemma opened_fd : open_file opened 0 7 4 0.
Proof. split; [unfold XFS_MAX_FDS; lia|..]; vm_compute; reflexivity. Qed.
Lemma opened_file : file_ok junk opened 4 (read_inode junk opened 4).
Proof.
  assert (H1 : g_total opened = 16) by (vm_compute; reflexivity). assert (H2 : g_data_start opened = 2) by (vm_compute; reflexivity).
  apply (one_block_file _ _ _ 5); [vm_compute; reflexivity|vm_compute; reflexivity| |vm_compute; reflexivity| |vm_compute; reflexivity|lia];
    (apply small_data; [exact H1|exact H2|lia]).
Qed.
Lemma opened_fields : i_size (read_inode junk opened 4) = 0 ∧ capacity (read_inode junk opened 4) = 4096 ∧
  Z.land (fd_flags (g_fds opened).[0]) 3 = 2.
Proof. split_and!; vm_compute; reflexivity. Qed.
End XfsDemo.

Lemma xfs_format_mount_witness :
  ∃ m, xfs_mount XfsDemo.junk (g_dev (xfs_format XfsDemo.junk XfsDemo.disk [])) = Some m ∧ fs_ok m ∧ g_total m = 16.
Proof.
  assert (H1 : dev_ok XfsDemo.disk) by (cbn; lia). assert (H2 : 4 ≤ block_count XfsDemo.disk < 2 ^ 32) by (cbn; lia).
  destruct (xfs_format_mount XfsDemo.junk XfsDemo.disk [] H1 H2) as (m & A & B & C & _). exists m. split_and!; assumption.
Defined.

Lemma xfs_open_creates_witness :
  ∃ ino, open_file (xfs_open XfsDemo.junk XfsDemo.mounted (SLASH :: XfsDemo.name) 6 7).2 0 7 ino 0 ∧
    (resolve_path XfsDemo.junk (xfs_open XfsDemo.junk XfsDemo.mounted (SLASH :: XfsDemo.name) 6 7).2 (SLASH :: XfsDemo.name)).1 = ino.
Proof.
  assert (Hn : good_name XfsDemo.name).
  { split; [vm_compute; split; reflexivity|]. intros i Hi. change (zlen XfsDemo.name) with 1 in Hi.
    assert (i = 0) as -> by lia. split; vm_compute; congruence. }
  assert (H1 : zlen (g_fds XfsDemo.mounted) = XFS_MAX_FDS) by (vm_compute; reflexivity).
  assert (H2 : 0 ≤ 7 < 2 ^ 32) by lia.
  assert (H3 : Z.land (i_flags (read_inode XfsDemo.junk XfsDemo.mounted 2)) 1 ≠ 0) by (vm_compute; congruence).
  assert (H4 : (resolve_path XfsDemo.junk XfsDemo.mounted (SLASH :: XfsDemo.name)).1 = 0) by (vm_compute; reflexivity).
  assert (H5 : Z.land 6 XFS_O_CREAT ≠ 0) by (vm_compute; congruence).
  assert (H6 : (xfs_open XfsDemo.junk XfsDemo.mounted (SLASH :: XfsDemo.name) 6 7).1 = 0) by (vm_compute; reflexivity).
  pose proof (xfs_open_creates XfsDemo.junk XfsDemo.mounted XfsDemo.name 6 7 XfsDemo.mounted_ok Hn H1 H2
    XfsDemo.mounted_root H3 H4 H5) as H.
  destruct (xfs_open XfsDemo.junk XfsDemo.mounted (SLASH :: XfsDemo.name) 6 7) as [fd s']. cbn [fst snd] in *.
  destruct H as [[E _]|(ino & A & _ & _ & _ & _ & B & _)]; [rewrite H6 in E; lia|]. rewrite H6 in A. exists ino. split; assumption.
Defined.

Lemma xfs_write_spec_witness :
  let '(r, s') := xfs_write XfsDemo.junk XfsDemo.opened 0 (λ i, (i + 1) mod 256) 5000 7 in
  r = 5000 ∧ fs_ok s' ∧ file_byte s' (read_inode XfsDemo.junk s' 4) 4999 = 136.
Proof.
  destruct XfsDemo.opened_fields as (E1 & E2 & E3).
  assert (H3 : Z.land (fd_flags (g_fds XfsDemo.opened).[0]) 3 ≠ 0) by (rewrite E3; lia).
  assert (H4 : 0 ≤ i_size (read_inode XfsDemo.junk XfsDemo.opened 4) < 2 ^ 32) by (rewrite E1; lia).
  assert (H5 : 0 ≤ 0 ≤ capacity (read_inode XfsDemo.junk XfsDemo.opened 4)) by (rewrite E2; lia).
  assert (H7 : (xfs_write XfsDemo.junk XfsDemo.opened 0 (λ i, (i + 1) mod 256) 5000 7).1 = 5000) by (vm_compute; reflexivity).
  pose proof (xfs_write_spec XfsDemo.junk XfsDemo.opened 0 (λ i, (i + 1) mod 256) 5000 7 4 0 XfsDemo.opened_ok XfsDemo.opened_fd H3
    XfsDemo.opened_file H4 H5 ltac:(lia)) as H.
  destruct (xfs_write XfsDemo.junk XfsDemo.opened 0 (λ i, (i + 1) mod 256) 5000 7) as [r s']. cbn [fst] in H7. rewrite H7 in H.
  destruct H as (_ & _ & F & _ & _ & _ & _ & _ & W & _). split_and!; [exact H7|exact F|].
  rewrite (W 4999) by lia. reflexivity.
Defined.

Lemma xfs_write_read_roundtrip_witness :
  let '(r, s1) := xfs_write XfsDemo.junk XfsDemo.opened 0 (λ i, (i + 1) mod 256) 5000 7 in
  let '(p, s2) := xfs_lseek XfsDemo.junk s1 0 0 SEEK_SET 7 in
  let '(r2, buf2, s3) := xfs_read XfsDemo.junk s2 0 (λ _, 0) r 7 in
  p = 0 ∧ r2 = r ∧ ∀ j, buf2 j = if (0 <=? j) && (j <? r) then (j + 1) mod 256 else 0.
Proof.
  destruct XfsDemo.opened_fields as (E1 & E2 & E3).
  assert (H3 : Z.land (fd_flags (g_fds XfsDemo.opened).[0]) 3 ≠ 0) by (rewrite E3; lia).
  assert (H4 : 0 ≤ i_size (read_inode XfsDemo.junk XfsDemo.opened 4) ≤ capacity (read_inode XfsDemo.junk XfsDemo.opened 4)) by (rewrite E1, E2; lia).
  assert (H5 : 0 ≤ 0 ≤ capacity (read_inode XfsDemo.junk XfsDemo.opened 4)) by (rewrite E2; lia).
  assert (H6 : 0 + 5000 ≤ MAX_DIRECT * XFS_BLOCK_SIZE) by (unfold MAX_DIRECT, XFS_BLOCK_SIZE; lia).
  exact (xfs_write_read_roundtrip XfsDemo.junk XfsDemo.opened 0 (λ i, (i + 1) mod 256) (λ _, 0) 5000 7 4 0 XfsDemo.opened_ok XfsDemo.opened_fd H3
    XfsDemo.opened_file H4 H5 ltac:(lia) H6).
Defined.

(** [xfs_mkdir] does not clear the data block of the new directory: when the
    block held the data of a deleted file, the new directory lists 53 entries
    made of that data. *)
Theorem mkdir_lists_deleted_data :
  let '(_, s1) := xfs_write XfsDemo.junk XfsDemo.opened 0 (λ _, 1) 4096 7 in
  let '(r2, s2) := xfs_unlink XfsDemo.junk s1 (SLASH :: XfsDemo.name) in
  let '(r3, s3) := xfs_mkdir XfsDemo.junk s2 [SLASH; 100] in
  let '(fd, s4) := xfs_open XfsDemo.junk s3 [SLASH; 100] 0 7 in
  r2 = 0 ∧ r3 = 0 ∧ match xfs_readdir XfsDemo.junk s4 fd 100 7 with inl _ => False | inr l => length l = 53%nat end.
Proof. vm_compute. split_and!; reflexivity. Qed.

(** Writing after seeking past the next block: no byte is written, but the size
    grows to the offset and the file gains a block that is not the one at the
    offset. *)
Theorem write_past_hole :
  let '(p, s1) := xfs_lseek XfsDemo.junk XfsDemo.opened 0 12288 SEEK_SET 7 in
  let '(r, s2) := xfs_write XfsDemo.junk s1 0 (λ _, 1) 10 7 in
  let inode := read_inode XfsDemo.junk s2 4 in
  p = 12288 ∧ r = 0 ∧ i_size inode = 12288 ∧ i_block_count inode = 2.
Proof. vm_compute. split_and!; reflexivity. Qed.
