(* ===== verification/Path.v ===== *)
(** * Absolute paths

    [path_abs] of [kernel/arch/x86_64/syscall.c], which every path-taking system
    call applies to its argument: joining with the current directory, removal of
    empty, [.] and [..] components.  A C string is the list of its bytes before
    the terminator. *)

From S2P Require Import Prelude Mem CString Block Xfs.

Definition XOS_PATH_MAX : Z := 256.
Definition DOT : Z := 46.
Abbreviation name := (list Z).

(** The bytes of the component at [p], at most [n], and what follows. *)
Fixpoint comp_scan (n : nat) (p : list Z) : name * list Z :=
  match n, p with
  | S n, c :: p' => if c =? SLASH then ([], p) else let '(comp, rest) := comp_scan n p' in (c :: comp, rest)
  | _, _ => ([], p)
  end.
Definition skip_slash (p : list Z) : list Z :=
  match p with c :: p' => if c =? SLASH then p' else p | [] => [] end.

(** The component loop; [comps] are the components kept so far. *)
Fixpoint path_comps (fuel : nat) (p : list Z) (comps : list name) : option (list name) :=
  match fuel, p with
  | _, [] => Some comps
  | O, _ => None
  | S fuel, _ =>
      let '(comp, p) := comp_scan (Z.to_nat (XFS_NAME_MAX - 1)) p in
      let p := skip_slash p in
      if bool_decide (comp = []) || bool_decide (comp = [DOT]) then path_comps fuel p comps
      else if bool_decide (comp = [DOT; DOT]) then path_comps fuel p (removelast comps)
      else if 32 <=? zlen comps then None
      else path_comps fuel p (comps ++ [comp])
  end.

(** The output loop; [out] holds what is written so far. *)
Fixpoint path_emit (comps : list name) (out : list Z) (outsz : Z) : option (list Z) :=
  match comps with
  | [] => Some out
  | c :: comps =>
      if outsz <? zlen out + 1 + zlen c + 1 then None else path_emit comps (out ++ SLASH :: c) outsz
  end.

Definition is_abs (inp : list Z) : bool := inp.[0] =? SLASH.

(** The text of [joined], or failure when it does not fit. *)
Definition joined (cwd inp : list Z) : option (list Z) :=
  if is_abs inp then if XOS_PATH_MAX <=? zlen inp then None else Some inp
  else
    let cl := zlen cwd in
    if XOS_PATH_MAX <? cl + 1 + zlen inp + 1 then None
    else if (cl =? 0) || negb (cwd.[cl - 1] =? SLASH) then Some (cwd ++ SLASH :: inp) else Some (cwd ++ inp).

Definition path_abs (cwd inp : list Z) (outsz : Z) : option (list Z) :=
  if bool_decide (inp = []) || (outsz <? 2) then None
  else
    match joined cwd inp with
    | None => None
    | Some j =>
        let p := skip_slash j in
        match path_comps (length p) p [] with
        | None => None
        | Some [] => Some [SLASH]
        | Some comps => path_emit comps [] outsz
        end
    end.

(** ** What a path means *)

(** The components between slashes. *)
Fixpoint split_slash (p : list Z) : list name :=
  match p with
  | [] => [[]]
  | c :: p => if c =? SLASH then [] :: split_slash p
              else match split_slash p with s :: r => (c :: s) :: r | [] => [[c]] end
  end.

(** One step down a path: a name descends, [..] ascends (the root is its own
    parent), an empty component and [.] stay. *)
Definition walk (cs : list name) (c : name) : list name :=
  if bool_decide (c = []) || bool_decide (c = [DOT]) then cs
  else if bool_decide (c = [DOT; DOT]) then removelast cs
  else cs ++ [c].
Definition resolve (base : list name) (p : list Z) : list name := foldl walk base (split_slash p).

(** The walk never gets deeper than 32 components. *)
Fixpoint shallow (cs : list name) (steps : list name) : bool :=
  match steps with
  | [] => true
  | c :: steps => (zlen (walk cs c) <=? 32) && shallow (walk cs c) steps
  end.

Definition render (cs : list name) : list Z :=
  match cs with [] => [SLASH] | _ => concat ((λ c, SLASH :: c) <$> cs) end.

Definition plain_name (c : name) : Prop :=
  c ≠ [] ∧ c ≠ [DOT] ∧ c ≠ [DOT; DOT] ∧ ¬ (SLASH ∈ c) ∧ zlen c < XFS_NAME_MAX.
Definition canonical (cs : list name) : Prop := Forall plain_name cs ∧ zlen cs ≤ 32.

(** ** Splitting *)

Lemma split_cons p : ∃ s r, split_slash p = s :: r.
Proof.
  destruct p as [|c p]; cbn; [by eexists _, _|]. case_if; [by eexists _, _|]. destruct (split_slash p); by eexists _, _.
Qed.

Lemma split_app a b : split_slash (a ++ SLASH :: b) = split_slash a ++ split_slash b.
Proof.
  induction a as [|c a IH]; cbn [app split_slash]; [done|]. case_if; rewrite IH; [done|].
  destruct (split_cons a) as (s & r & ->). done.
Qed.

Lemma split_name c : ¬ (SLASH ∈ c) → split_slash c = [c].
Proof.
  induction c as [|x c IH]; intros Hn; cbn [split_slash]; [done|]. apply not_elem_of_cons in Hn as [Hx Hn].
  destruct (Z.eqb_spec x SLASH); [congruence|]. by rewrite IH.
Qed.

(** The scan stops at the first slash when the component is short enough. *)
Lemma comp_scan_split n p s r :
  split_slash p = s :: r → (length s ≤ n)%nat →
  ∃ rest, comp_scan n p = (s, rest) ∧ p = s ++ rest ∧
    ((rest = [] ∧ r = []) ∨ ∃ p', rest = SLASH :: p' ∧ r = split_slash p').
Proof.
  revert n s r. induction p as [|c p IH]; intros n s r; cbn [split_slash].
  { intros [= <- <-] _. exists []. destruct n; auto. }
  destruct (Z.eqb_spec c SLASH) as [->|Hc].
  { intros [= <- <-] _. exists (SLASH :: p). split_and!; [by destruct n|done|by right; exists p]. }
  destruct (split_cons p) as (s' & r' & E). rewrite E. intros [= <- <-] Hn. cbn in Hn. destruct n as [|n]; [lia|].
  destruct (IH n s' r' E ltac:(lia)) as (rest & Es & Ep & Hr). exists rest. cbn [comp_scan].
  rewrite (proj2 (Z.eqb_neq c SLASH) Hc), Es. split_and!; [done|by rewrite Ep at 1|done].
Qed.

(** Each turn of the loop consumes a byte. *)
Lemma scan_shorter n p : p ≠ [] → (0 < n)%nat → (length (skip_slash (comp_scan n p).2) < length p)%nat.
Proof.
  intros Hp Hn. destruct p as [|c p]; [done|]. destruct n as [|n]; [lia|]. clear Hp Hn. cbn [comp_scan].
  destruct (Z.eqb_spec c SLASH) as [->|]; [cbn; lia|].
  assert (H : ∀ n p, (length (skip_slash (comp_scan n p).2) ≤ length p)%nat).
  { assert (Hs : ∀ q, (length (skip_slash q) ≤ length q)%nat) by (intros [|x q]; cbn; [lia|case_if; cbn; lia]).
    intros k. induction k as [|k IH]; intros [|x q]; cbn [comp_scan]; try apply Hs. case_if; [apply Hs|].
    specialize (IH q). destruct (comp_scan k q) as [s rest]. cbn in *. lia. }
  specialize (H n p). destruct (comp_scan n p) as [s rest]. cbn in *. lia.
Qed.

Lemma comp_scan_plain n p : let '(s, rest) := comp_scan n p in p = s ++ rest ∧ ¬ (SLASH ∈ s) ∧ (length s ≤ n)%nat.
Proof.
  revert p. induction n as [|n IH]; intros [|c p]; cbn [comp_scan];
    [split_and!; [done|apply not_elem_of_nil|cbn; lia]..|].
  destruct (Z.eqb_spec c SLASH) as [->|Hc]; [split_and!; [done|apply not_elem_of_nil|cbn; lia]|].
  specialize (IH p). destruct (comp_scan n p) as [s rest]. destruct IH as (-> & Hs & Hn).
  split_and!; [done|by rewrite not_elem_of_cons|cbn; lia].
Qed.

(** ** The component loop *)

Lemma walk_removelast (cs : list name) : zlen (removelast cs) ≤ zlen cs.
Proof. unfold zlen. rewrite removelast_firstn_len, length_firstn. lia. Qed.

(** One turn is one step of the walk, refused when it gets too deep. *)
Lemma path_comps_turn fuel p cs :
  p ≠ [] → zlen cs ≤ 32 →
  path_comps (S fuel) p cs =
    (let '(c, rest) := comp_scan 63 p in
     if zlen (walk cs c) <=? 32 then path_comps fuel (skip_slash rest) (walk cs c) else None).
Proof.
  intros Hp Hcs. destruct p as [|x p]; [done|]. cbn [path_comps]. change (Z.to_nat (XFS_NAME_MAX - 1)) with 63%nat.
  destruct (comp_scan 63 (x :: p)) as [c rest]. unfold walk. destruct (_ || _).
  { by rewrite (proj2 (Z.leb_le _ _) Hcs). }
  case_if. { pose proof (walk_removelast cs). by rewrite (proj2 (Z.leb_le (zlen (removelast cs)) 32)) by lia. }
  unfold zlen in *. rewrite length_app. cbn [length].
  destruct (Z.leb_spec 32 (Z.of_nat (length cs))), (Z.leb_spec (Z.of_nat (length cs + 1)) 32); (done || lia).
Qed.

Lemma path_comps_spec fuel p cs :
  (length p ≤ fuel)%nat → Forall (λ s, zlen s < XFS_NAME_MAX) (split_slash p) → zlen cs ≤ 32 →
  path_comps fuel p cs = if shallow cs (split_slash p) then Some (resolve cs p) else None.
Proof.
  revert p cs. induction fuel as [|fuel IH]; intros p cs Hf Hs Hcs; destruct (decide (p = [])) as [->|Hp];
    try (cbn; by rewrite (proj2 (Z.leb_le _ _) Hcs)).
  { destruct p; [done|cbn in Hf; lia]. }
  rewrite path_comps_turn by done. pose proof (scan_shorter 63 p Hp ltac:(lia)) as Hlt.
  destruct (split_cons p) as (s & r & E). unfold resolve. rewrite E in *. apply Forall_cons in Hs as [Hs Hr].
  destruct (comp_scan_split 63 p s r E ltac:(unfold zlen, XFS_NAME_MAX in Hs; lia)) as (rest & Es & Ep & Hrest).
  rewrite Es in *. cbn [snd shallow foldl] in *. destruct (Z.leb_spec (zlen (walk cs s)) 32) as [Hw|Hw]; cbn [andb]; [|done].
  destruct Hrest as [[-> ->]|(p' & -> & ->)]; [by destruct fuel|].
  cbn [skip_slash] in *. rewrite Z.eqb_refl in *. by apply IH; [lia|..].
Qed.

Lemma removelast_Forall {A} (P : A → Prop) (l : list A) : Forall P l → Forall P (removelast l).
Proof. intros H. rewrite removelast_firstn_len. by apply Forall_take. Qed.

(** Whatever the path, what the loop keeps are plain names. *)
Lemma path_comps_canonical fuel p cs cs' :
  path_comps fuel p cs = Some cs' → canonical cs → canonical cs'.
Proof.
  revert p cs. induction fuel as [|fuel IH]; intros p cs Hr Hc; destruct (decide (p = [])) as [->|Hp];
    try (cbn in Hr; congruence).
  { destruct p; [done|cbn in Hr; congruence]. }
  pose proof Hc as [Hp0 Hc0]. rewrite path_comps_turn in Hr by done.
  pose proof (comp_scan_plain 63 p) as Hscan. destruct (comp_scan 63 p) as [c rest]. destruct Hscan as (_ & Hns & Hl).
  destruct (Z.leb_spec (zlen (walk cs c)) 32) as [Hw|Hw]; [|done]. apply (IH _ _ Hr). split; [|done].
  unfold walk. case_if; [done|]. case_if; [by apply removelast_Forall|]. apply Forall_app. split; [done|].
  apply Forall_singleton. bools. repeat match goal with H : bool_decide _ = false |- _ => apply bool_decide_eq_false in H end.
  split_and!; [done..|]. unfold zlen, XFS_NAME_MAX. lia.
Qed.

(** ** Canonical paths *)

Lemma walk_plain b cs : Forall plain_name cs → foldl walk b cs = b ++ cs.
Proof.
  revert b. induction cs as [|c cs IH]; intros b Hc; cbn [foldl]; [by rewrite app_nil_r|].
  apply Forall_cons in Hc as [(H1 & H2 & H3 & _) Hc]. rewrite IH by done. unfold walk.
  rewrite !bool_decide_eq_false_2 by done. cbn [orb]. by rewrite <- app_assoc.
Qed.

Lemma shallow_plain b cs : Forall plain_name cs → zlen (b ++ cs) ≤ 32 → shallow b cs = true.
Proof.
  revert b. induction cs as [|c cs IH]; intros b Hc Hl; cbn [shallow]; [done|]. apply Forall_cons in Hc as [H0 Hc].
  assert (E : walk b c = b ++ [c]) by (apply (walk_plain b [c]); by apply Forall_singleton). rewrite E, IH.
  - rewrite andb_true_r. apply Z.leb_le. unfold zlen in *. rewrite length_app in *. cbn in *. lia.
  - done.
  - by rewrite <- app_assoc.
Qed.

Lemma shallow_app b s1 s2 : shallow b (s1 ++ s2) = shallow b s1 && shallow (foldl walk b s1) s2.
Proof. revert b. induction s1 as [|c s1 IH]; intros b; cbn; [done|]. by rewrite IH, andb_assoc. Qed.

Lemma render_cons c cs : render (c :: cs) = SLASH :: c ++ (match cs with [] => [] | _ => render cs end).
Proof. unfold render. cbn. by destruct cs. Qed.

Lemma split_render c cs : Forall plain_name (c :: cs) → split_slash (skip_slash (render (c :: cs))) = c :: cs.
Proof.
  revert c. induction cs as [|c' cs IH]; intros c Hc; rewrite render_cons; cbn [skip_slash]; rewrite Z.eqb_refl;
    apply Forall_cons in Hc as [(_ & _ & _ & Hc & _) Hcs].
  { rewrite app_nil_r. by apply split_name. }
  specialize (IH c' Hcs). rewrite render_cons in *. cbn [skip_slash] in IH. rewrite Z.eqb_refl in IH.
  by rewrite split_app, IH, split_name.
Qed.

Lemma path_emit_spec cs out outsz :
  cs ≠ [] → path_emit cs out outsz = if zlen (out ++ render cs) <? outsz then Some (out ++ render cs) else None.
Proof.
  intros Hne. revert out. induction cs as [|c cs IH]; intros out; [done|]. cbn [path_emit]. rewrite render_cons.
  assert (Hz : ∀ a b : list Z, zlen (a ++ b) = zlen a + zlen b) by (intros; unfold zlen; rewrite length_app; lia).
  assert (Hc : ∀ (x : Z) l, zlen (x :: l) = 1 + zlen l) by (intros; unfold zlen; cbn [length]; lia).
  destruct cs as [|c' cs].
  - cbn [path_emit]. rewrite app_nil_r, Hz, Hc.
    destruct (Z.ltb_spec outsz (zlen out + 1 + zlen c + 1)), (Z.ltb_spec (zlen out + (1 + zlen c)) outsz); (done || lia).
  - rewrite (IH ltac:(done)), <- app_assoc. cbn [app]. rewrite Hz, Hc, Hz. pose proof (zlen_nonneg (render (c' :: cs))).
    destruct (Z.ltb_spec outsz (zlen out + 1 + zlen c + 1)); [|done].
    destruct (Z.ltb_spec (zlen out + (1 + (zlen c + zlen (render (c' :: cs))))) outsz); (done || lia).
Qed.

(** A path below the root does not end in a slash. *)
Lemma render_last cs : cs ≠ [] → Forall plain_name cs →
  zlen (render cs) ≠ 0 ∧ (render cs).[zlen (render cs) - 1] ≠ SLASH.
Proof.
  intros Hne Hc. destruct cs as [|c0 cs0 _] using rev_ind; [done|]. apply Forall_app in Hc as [_ Hc].
  apply Forall_singleton in Hc as (H1 & _ & _ & H2 & _). destruct c0 as [|x c _] using rev_ind; [done|].
  assert (E : ∃ l, render (cs0 ++ [c ++ [x]]) = l ++ [x]).
  { unfold render. destruct (cs0 ++ [c ++ [x]]) eqn:E; [by destruct cs0|]. rewrite <- E, fmap_app, concat_app. cbn.
    rewrite app_nil_r. eexists (concat _ ++ SLASH :: c). by rewrite <- app_assoc. }
  destruct E as [l ->]. unfold zlen, aget. rewrite length_app. cbn [length]. split; [lia|].
  rewrite lookup_total_app_r by lia. replace (Z.to_nat _ - length l)%nat with 0%nat by lia. cbn. intros ->. apply H2.
  apply elem_of_app. right. by apply list_elem_of_singleton.
Qed.

(** The joined path splits into the directory's components and the argument's. *)
Lemma joined_split cs inp j :
  canonical cs → inp ≠ [] → joined (render cs) inp = Some j →
  let base := if is_abs inp then [] else cs in
  shallow [] (split_slash (skip_slash j)) = shallow base (split_slash inp) ∧
  resolve [] (skip_slash j) = resolve base inp ∧
  (Forall (λ s, zlen s < XFS_NAME_MAX) (split_slash inp) → Forall (λ s, zlen s < XFS_NAME_MAX) (split_slash (skip_slash j))).
Proof.
  intros [Hc Hl] Hne. unfold joined. destruct (is_abs inp) eqn:Ha.
  - case_if; [done|]. intros [= <-]. destruct inp as [|x inp]; [done|]. unfold is_abs in Ha. apply Z.eqb_eq in Ha. change ((x :: inp).[0]) with x in Ha. subst x.
    unfold resolve. cbn [skip_slash split_slash]. rewrite Z.eqb_refl. cbn. split_and!; [done|done|]. by intros [_ H]%Forall_cons.
  - case_if; [done|]. intros Hj.
    assert (E : split_slash (skip_slash j) = cs ++ split_slash inp).
    { destruct cs as [|c cs].
      { cbn in Hj. injection Hj as <-. done. }
      destruct (render_last (c :: cs) ltac:(done) Hc) as [H1 H2].
      rewrite (proj2 (Z.eqb_neq _ _) H1), (proj2 (Z.eqb_neq _ _) H2) in Hj. cbn in Hj. injection Hj as <-.
      pose proof (split_render c cs Hc) as Hs. unfold skip_slash in *. cbn in *. by rewrite split_app, Hs. }
    unfold resolve. rewrite E, shallow_app, foldl_app, walk_plain, shallow_plain by done. split_and!; [done|done|].
    intros Hi. apply Forall_app. split; [|done]. eapply Forall_impl; [exact Hc|]. intros s (_ & _ & _ & _ & Hs). done.
Qed.

(** C39: [path_abs] computes the meaning of a path.  From a canonical current
    directory, and for an argument whose components fit a directory entry, it
    yields the text of the place reached by walking the argument's components
    from the root (absolute) or from the current directory (relative), with
    [..] going up; it fails exactly when the joined text exceeds its buffer, the
    walk gets deeper than 32, or the result does not fit the caller's buffer. *)
Theorem path_abs_spec cs inp outsz :
  canonical cs → inp ≠ [] → 2 ≤ outsz → Forall (λ s, zlen s < XFS_NAME_MAX) (split_slash inp) →
  path_abs (render cs) inp outsz =
    (let base := if is_abs inp then [] else cs in
     let out := render (resolve base inp) in
     if bool_decide (is_Some (joined (render cs) inp)) && shallow base (split_slash inp) && (zlen out <? outsz)
     then Some out else None).
Proof.
  intros Hc Hne Ho Hs. cbv zeta. unfold path_abs. rewrite bool_decide_eq_false_2 by done.
  rewrite (proj2 (Z.ltb_ge outsz 2) Ho). cbn [orb].
  destruct (joined (render cs) inp) as [j|] eqn:Hj; [|done]. rewrite bool_decide_eq_true_2 by done. cbn [andb].
  destruct (joined_split cs inp j Hc Hne Hj) as (E1 & E2 & E3).
  rewrite path_comps_spec, E1, E2 by (first [done|by apply E3]). destruct (shallow (if is_abs inp then [] else cs) _); cbn [andb]; [|done].
  destruct (resolve (if is_abs inp then [] else cs) inp) as [|c r]; [change (zlen (render [])) with 1; by rewrite (proj2 (Z.ltb_lt 1 outsz)) by lia|].
  by rewrite path_emit_spec.
Qed.

Lemma path_abs_spec_witness :
  path_abs [47; 98; 105; 110] [46; 46; 47; 97; 47; 47; 46; 47; 99] 256 = Some [47; 97; 47; 99].
Proof.
  change [47; 98; 105; 110] with (render [[98; 105; 110]]).
  rewrite path_abs_spec; [reflexivity|..]; [|done|lia|vm_compute; repeat constructor].
  split; [|vm_compute; congruence]. apply Forall_singleton. split_and!; try done. apply (bool_decide_unpack _). reflexivity.
Defined.

(** Every successful result is the text of a canonical list of names. *)
Lemma path_abs_result cwd inp outsz out :
  path_abs cwd inp outsz = Some out → ∃ cs, canonical cs ∧ out = render cs ∧ zlen out < outsz.
Proof.
  unfold path_abs. case_if; [done|]. bools. destruct (joined cwd inp) as [j|]; [|done].
  destruct (path_comps _ _ []) as [cs|] eqn:Hp; [|done]. apply path_comps_canonical in Hp; [|by split; [|vm_compute; congruence]].
  intros Hr. exists cs. split; [done|]. destruct cs as [|c cs]; [injection Hr as <-; split; [done|change (zlen [SLASH]) with 1; lia]|].
  rewrite path_emit_spec in Hr by done. cbn [app] in Hr. destruct (Z.ltb_spec (zlen (render (c :: cs))) outsz); [|done].
  injection Hr as <-. done.
Qed.

Lemma resolve_render cs : canonical cs → resolve [] (render cs) = cs ∧ shallow [] (split_slash (render cs)) = true ∧ is_abs (render cs) = true.
Proof.
  intros [Hc Hl]. destruct cs as [|c cs]; [done|]. pose proof (split_render c cs Hc) as Hs. rewrite render_cons in *.
  unfold resolve. cbn [skip_slash split_slash] in *. rewrite Z.eqb_refl in *. rewrite Hs.
  change (foldl walk [] ([] :: c :: cs)) with (foldl walk [] (c :: cs)).
  change (shallow [] ([] :: c :: cs)) with (shallow [] (c :: cs)).
  by rewrite walk_plain, shallow_plain.
Qed.

(** Results are canonical.  Whatever the argument and the current directory,
    a path [path_abs] accepts is absolute, free of empty, [.] and [..] components
    and within the limits, and applying [path_abs] to it again, from any
    directory, gives it back. *)
Theorem path_abs_idempotent cwd cwd' inp out :
  path_abs cwd inp XOS_PATH_MAX = Some out →
  (∃ cs, canonical cs ∧ out = render cs) ∧ path_abs cwd' out XOS_PATH_MAX = Some out.
Proof.
  intros (cs & Hc & -> & Hl)%path_abs_result. split; [by exists cs|].
  destruct (resolve_render cs Hc) as (E1 & E2 & E3).
  assert (Hd : path_abs cwd' (render cs) XOS_PATH_MAX = path_abs (render []) (render cs) XOS_PATH_MAX)
    by (unfold path_abs, joined; by rewrite E3).
  assert (Hj : joined (render []) (render cs) = Some (render cs)).
  { unfold joined. by rewrite E3, (proj2 (Z.leb_gt _ _) Hl). }
  destruct (joined_split [] (render cs) (render cs) ltac:(by split; [|vm_compute; congruence])) as (_ & _ & E4); [by destruct cs|done|].
  rewrite Hd. unfold path_abs. rewrite Hj, bool_decide_eq_false_2 by (by destruct cs). cbn [orb].
  change (XOS_PATH_MAX <? 2) with false. cbv iota.
  destruct cs as [|c cs]; [done|]. destruct Hc as [Hc Hn]. pose proof (split_render c cs Hc) as Hs.
  rewrite path_comps_spec.
  - unfold resolve. rewrite Hs, walk_plain, shallow_plain by done. cbn [app]. rewrite path_emit_spec by done. cbn [app].
    by rewrite (proj2 (Z.ltb_lt _ _) Hl).
  - done.
  - rewrite Hs. eapply Forall_impl; [exact Hc|]. by intros s (_ & _ & _ & _ & H).
  - vm_compute. congruence.
Qed.

Lemma path_abs_idempotent_witness : path_abs [47] [47; 97; 47; 98] XOS_PATH_MAX = Some [47; 97; 47; 98].
Proof. apply (path_abs_idempotent [47; 97] [47] [46; 47; 98] [47; 97; 47; 98]). reflexivity. Defined.

(** A component longer than a directory entry's name is not refused: it is
    cut after 63 bytes and its rest becomes the name of a child. *)
Theorem long_component_split cwd n :
  63 < n < 127 →
  path_abs cwd (SLASH :: replicate (Z.to_nat n) 97) XOS_PATH_MAX =
    Some (SLASH :: replicate 63 97 ++ SLASH :: replicate (Z.to_nat (n - 63)) 97).
Proof.
  intros Hn. unfold path_abs, joined. change (is_abs (SLASH :: _)) with true.
  assert (H : forallb (λ k, bool_decide ((λ n, path_abs [47] (SLASH :: replicate n 97) XOS_PATH_MAX) (k + 64)%nat =
    Some (SLASH :: replicate 63 97 ++ SLASH :: replicate (k + 1) 97))) (seq 0 63) = true) by (vm_compute; reflexivity).
  rewrite forallb_forall in H. specialize (H (Z.to_nat (n - 64)) ltac:(apply in_seq; lia)). apply bool_decide_eq_true in H. cbv beta in H.
  replace (Z.to_nat (n - 64) + 64)%nat with (Z.to_nat n) in H by lia. replace (Z.to_nat (n - 64) + 1)%nat with (Z.to_nat (n - 63)) in H by lia.
  exact H.
Qed.

Lemma long_component_split_witness :
  path_abs [47] (47 :: replicate 64 97) XOS_PATH_MAX = Some (47 :: replicate 63 97 ++ [47; 97]).
Proof. apply (long_component_split [47] 64). lia. Defined.
