(* ===== verification/Sysfs.v ===== *)
(** * The system file system

    [kernel/fs/sysfs.c]: the running system as files under [/sys].  Opening a
    file renders it into the descriptor's buffer, reads return that snapshot,
    writes change the scheduler, the pointer or the log.  The generators read the
    state of the other components, gathered in [sysenv]; a C string is the list
    of its bytes before the terminator. *)

From Stdlib Require Import Ascii String.
From S2P Require Import Prelude Mem CString Pmm Heap Klog Input ProcTable Signal Sched Fault Proc Xfs.

#[local] Open Scope Z_scope.
#[local] Open Scope list_scope.
#[local] Abbreviation length := List.length.

Definition SYSFS_FD_BASE : Z := 512.
Definition SYSFS_MAX_FDS : Z := 32.
Definition SYSFS_BUF_MAX : Z := 4096.
Definition SYSFS_PATH_MAX : Z := 128.
Definition LF : Z := 10.
Definition TAB : Z := 9.

(** ** Text building *)

Record sbuf_t := mkSbuf { sb_buf : list Z; sb_cap : Z; sb_len : Z }.

Definition sb_putc (s : sbuf_t) (c : Z) : sbuf_t :=
  if sb_len s + 1 <? sb_cap s then mkSbuf ((sb_buf s).[sb_len s <- c]) (sb_cap s) (sb_len s + 1) else s.

(** [None] is [NULL]. *)
Definition sb_puts (s : sbuf_t) (str : option (list Z)) : sbuf_t := foldl sb_putc s (default NULL_TEXT str).
Definition sb_text (s : sbuf_t) (t : list Z) : sbuf_t := sb_puts s (Some t).
Definition sb_lit (s : sbuf_t) (t : string) : sbuf_t := sb_text s (bytes_of t).

(** The loop that fills [tmp], least significant digit first; 24 digits are
    enough in base ten, 20 in base sixteen. *)
Fixpoint sb_digits (fuel : nat) (v base : Z) : list Z :=
  match fuel with
  | O => []
  | S fuel => if v =? 0 then [] else (if v mod base <? 10 then 48 + v mod base else 87 + v mod base) :: sb_digits fuel (v / base) base
  end.
Definition sb_tmp (v base : Z) : list Z := if v =? 0 then [48] else sb_digits (if base =? 10 then 24 else 20) v base.

Definition sb_putu (s : sbuf_t) (v : Z) : sbuf_t := foldl sb_putc s (reverse (sb_tmp v 10)).
Definition sb_puti (s : sbuf_t) (v : Z) : sbuf_t :=
  if v <? 0 then sb_putu (sb_putc s 45) (u64 (s64 (- v))) else sb_putu s (u64 v).
Definition sb_puthex (s : sbuf_t) (v : Z) : sbuf_t := foldl sb_putc (sb_lit s "0x") (reverse (sb_tmp v 16)).

Definition sb_kv_u (s : sbuf_t) (k : string) (v : Z) : sbuf_t :=
  sb_putc (sb_putu (sb_lit (sb_lit s k) ": ") v) LF.
Definition sb_kv_s (s : sbuf_t) (k : string) (v : list Z) : sbuf_t :=
  sb_putc (sb_text (sb_lit (sb_lit s k) ": ") v) LF.
Definition sb_kv_hex (s : sbuf_t) (k : string) (v : Z) : sbuf_t :=
  sb_putc (sb_puthex (sb_lit (sb_lit s k) ": ") v) LF.

(** ** Paths *)

Fixpoint str_eq (a b : list Z) : bool :=
  match a, b with
  | [], [] => true
  | x :: a, y :: b => (x =? y) && str_eq a b
  | _, _ => false
  end.

(** What follows the prefix, if it matches. *)
Fixpoint path_after (path pfx : list Z) : option (list Z) :=
  match pfx with
  | [] => Some path
  | y :: pfx => match path with x :: path => if x =? y then path_after path pfx else None | [] => None end
  end.

Definition MINUS1 : Z := 18446744073709551615.
Fixpoint parse_loop (s : list Z) (v : Z) (any : bool) : Z * list Z :=
  match s with
  | c :: s' => if (48 <=? c) && (c <=? 57) then parse_loop s' (u64 (u64 (v * 10) + (c - 48))) true
               else (if any then v else MINUS1, s)
  | [] => (if any then v else MINUS1, [])
  end.
(** The value, [(uint64_t)-1] when there is no digit, and the rest. *)
Definition parse_u64 (s : list Z) : Z * list Z := parse_loop s 0 false.

(** The last component: [nm] after the loop over the slashes. *)
Fixpoint last_comp (nm p : list Z) : list Z :=
  match p with [] => nm | c :: p => last_comp (if c =? 47 then p else nm) p end.

(** ** The state read and written *)

Record cpu_info := mkCpuInfo {
  ci_vendor : list Z; ci_brand : list Z; ci_family : Z; ci_model : Z; ci_stepping : Z; ci_xcr0 : Z;
  ci_nx : bool; ci_smep : bool; ci_smap : bool; ci_umip : bool; ci_pge : bool; ci_pcid : bool;
  ci_xsave : bool; ci_avx : bool; ci_avx2 : bool; ci_avx512f : bool; ci_x2apic : bool; ci_rdtscp : bool;
  ci_pdpe1gb : bool; ci_aes : bool; ci_rdrand : bool; ci_hypervisor : bool;
}.
Record gpu_fb_info_t := mkFbInfo {
  gi_width : Z; gi_height : Z; gi_stride : Z; gi_virgl : Z; gi_backing_phys : Z; gi_backing_size : Z;
}.

(** [se_cpu] is the CPU that executes the call; [se_gpu] is what
    [virtio_gpu_get_fb_info] returns. *)
Record sysenv := mkEnv {
  se_cpu : Z;
  se_sched : sched;
  se_input : input;
  se_console : console;
  se_pmm : pmm;
  se_heap : heap;
  se_bootargs : list Z;
  se_cpuinfo : cpu_info;
  se_tsc_hz : Z;
  se_smp : bool;
  se_gpu : option gpu_fb_info_t;
}.
Definition with_sched (e : sysenv) (s : sched) : sysenv :=
  mkEnv (se_cpu e) s (se_input e) (se_console e) (se_pmm e) (se_heap e) (se_bootargs e) (se_cpuinfo e) (se_tsc_hz e) (se_smp e) (se_gpu e).
Definition with_input (e : sysenv) (i : input) : sysenv :=
  mkEnv (se_cpu e) (se_sched e) i (se_console e) (se_pmm e) (se_heap e) (se_bootargs e) (se_cpuinfo e) (se_tsc_hz e) (se_smp e) (se_gpu e).
Definition with_console (e : sysenv) (k : console) : sysenv :=
  mkEnv (se_cpu e) (se_sched e) (se_input e) k (se_pmm e) (se_heap e) (se_bootargs e) (se_cpuinfo e) (se_tsc_hz e) (se_smp e) (se_gpu e).

(** ** Generators *)

Definition state_name (st : proc_state_t) : list Z :=
  bytes_of match st with PROC_DEAD => "dead" | PROC_READY => "ready" | PROC_RUNNING => "running" | PROC_BLOCKED => "blocked" end.

Definition prio_name (p : Z) : list Z :=
  bytes_of (if p =? PRIO_HIGH then "high" else if p =? PRIO_NORMAL then "normal" else if p =? PRIO_LOW then "low" else "?").

(** [p->name[0] ? p->name : "(kernel)"] *)
Definition shown_name (p : proc_t) : list Z :=
  if (name p).[0] =? 0 then bytes_of "(kernel)" else upto_nul (name p).
Definition ring_of (p : proc_t) : Z := if ring3 p then 3 else 0.

Definition gen_kernel (e : sysenv) (s : sbuf_t) : sbuf_t :=
  let hz := timer_ticks_hz (se_sched e) in
  let ticks := ticks (se_sched e) in
  let s := sb_kv_s s "name" (bytes_of "X OS") in
  let s := sb_kv_s s "arch" (bytes_of "x86_64") in
  let s := sb_kv_u s "ticks" ticks in
  let s := sb_kv_u s "tick_hz" hz in
  let s := sb_kv_u s "uptime_ms" (if hz =? 0 then 0 else u64 (ticks * 1000) / hz) in
  let s := sb_kv_u s "uptime_s" (if hz =? 0 then 0 else ticks / hz) in
  let s := sb_kv_s s "boot_args" (se_bootargs e) in
  let s := sb_kv_u s "cpus" (zlen (cpus (se_sched e))) in
  sb_kv_u s "smp" (if se_smp e then 1 else 0).

Definition sb_flag (b : bool) (k : string) (s : sbuf_t) : sbuf_t := if b then sb_lit s k else s.

Definition gen_cpu (e : sysenv) (s : sbuf_t) : sbuf_t :=
  let g := se_cpuinfo e in
  let s := sb_kv_s s "vendor" (ci_vendor g) in
  let s := sb_kv_s s "brand" (if bool_decide (ci_brand g = []) then bytes_of "unknown" else ci_brand g) in
  let s := sb_kv_u s "family" (ci_family g) in
  let s := sb_kv_u s "model" (ci_model g) in
  let s := sb_kv_u s "stepping" (ci_stepping g) in
  let s := sb_kv_u s "count" (zlen (cpus (se_sched e))) in
  let s := sb_kv_u s "tsc_hz" (se_tsc_hz e) in
  let s := sb_kv_hex s "xcr0" (ci_xcr0 g) in
  let s := sb_lit s "features:" in
  let s := sb_flag (ci_nx g) " nx" s in
  let s := sb_flag (ci_smep g) " smep" s in
  let s := sb_flag (ci_smap g) " smap" s in
  let s := sb_flag (ci_umip g) " umip" s in
  let s := sb_flag (ci_pge g) " pge" s in
  let s := sb_flag (ci_pcid g) " pcid" s in
  let s := sb_flag (ci_xsave g) " xsave" s in
  let s := sb_flag (ci_avx g) " avx" s in
  let s := sb_flag (ci_avx2 g) " avx2" s in
  let s := sb_flag (ci_avx512f g) " avx512f" s in
  let s := sb_flag (ci_x2apic g) " x2apic" s in
  let s := sb_flag (ci_rdtscp g) " rdtscp" s in
  let s := sb_flag (ci_pdpe1gb g) " 1gb-pages" s in
  let s := sb_flag (ci_aes g) " aes" s in
  let s := sb_flag (ci_rdrand g) " rdrand" s in
  let s := sb_flag (ci_hypervisor g) " hypervisor" s in
  sb_putc s LF.

Definition gen_mem (e : sysenv) (s : sbuf_t) : sbuf_t :=
  let total := pmm_total_bytes (se_pmm e) in
  let used := pmm_used_bytes (se_pmm e) in
  let free := if used <? total then total - used else 0 in
  let s := sb_kv_u s "phys_total" total in
  let s := sb_kv_u s "phys_used" used in
  let s := sb_kv_u s "phys_free" free in
  let s := sb_kv_u s "phys_total_mb" (Z.shiftr total 20) in
  let s := sb_kv_u s "phys_free_mb" (Z.shiftr free 20) in
  let s := sb_kv_u s "heap_size" (heap_size (se_heap e)) in
  let s := sb_kv_u s "heap_used" (heap_used (se_heap e)) in
  sb_kv_u s "page_size" PAGE_SIZE.

Definition gen_input (e : sysenv) (s : sbuf_t) : sbuf_t :=
  let s := sb_putc (sb_puti (sb_lit s "mouse_x: ") (input_mouse_x (se_input e))) LF in
  sb_putc (sb_puti (sb_lit s "mouse_y: ") (input_mouse_y (se_input e))) LF.

Definition gen_display (e : sysenv) (s : sbuf_t) : sbuf_t :=
  match se_gpu e with
  | None => sb_putc (sb_lit s "present: 0") LF
  | Some info =>
      let s := sb_kv_s s "driver" (bytes_of "virtio-gpu") in
      let s := sb_kv_u s "present" 1 in
      let s := sb_kv_u s "width" (gi_width info) in
      let s := sb_kv_u s "height" (gi_height info) in
      let s := sb_kv_u s "stride" (gi_stride info) in
      let s := sb_kv_u s "virgl" (gi_virgl info) in
      let s := sb_kv_hex s "fb_phys" (gi_backing_phys info) in
      sb_kv_u s "fb_bytes" (gi_backing_size info)
  end.

Definition gen_proc_one (p : proc_t) (s : sbuf_t) : sbuf_t :=
  let s := sb_kv_u s "pid" (pid p) in
  let s := sb_kv_s s "name" (shown_name p) in
  let s := sb_kv_s s "state" (state_name (state p)) in
  let s := sb_kv_s s "prio" (prio_name (priority p)) in
  let s := sb_kv_u s "ppid" (parent_pid p) in
  let s := sb_kv_u s "tgid" (tgid p) in
  let s := sb_kv_u s "ring" (ring_of p) in
  let s := sb_kv_u s "no_preempt" (no_preempt p) in
  let s := sb_kv_u s "sleep_until" (sleep_until p) in
  let s := sb_kv_hex s "pml4" (pml4_phys p) in
  sb_kv_hex s "rip" (rip p).

(** The slots both listings skip: free ones and the idle tasks. *)
Definition hidden (p : proc_t) : bool := is_state (state p) PROC_DEAD && reaped p || (pid p =? 0).

Definition proc_row (p : proc_t) (s : sbuf_t) : sbuf_t :=
  let s := sb_putc (sb_putu s (pid p)) TAB in
  let s := sb_putc (sb_putu s (parent_pid p)) TAB in
  let s := sb_putc (sb_text s (state_name (state p))) TAB in
  let s := sb_putc (sb_text s (prio_name (priority p))) TAB in
  let s := sb_putc (sb_putu s (ring_of p)) TAB in
  sb_putc (sb_text s (shown_name p)) LF.

Definition table_title : list Z :=
  bytes_of "PID" ++ TAB :: bytes_of "PPID" ++ TAB :: bytes_of "STATE" ++ TAB :: bytes_of "PRIO" ++ TAB :: bytes_of "RING"
  ++ TAB :: bytes_of "NAME" ++ [LF].

Definition gen_proc_table (e : sysenv) (s : sbuf_t) : sbuf_t :=
  iter_up (λ i s, let p := proc (se_sched e) (sched_proc_slot i) in if hidden p then s else proc_row p s)
          0 (Z.to_nat SCHED_MAX_PROCS) (sb_text s table_title).

(** The log replaces what the buffer holds. *)
Definition gen_log (e : sysenv) (s : sbuf_t) : sbuf_t :=
  let out := msgbuf_copy (msgs (se_console e)) (sb_cap s - 1) in
  let n := zlen out in
  mkSbuf ((out ++ drop (length out) (sb_buf s)).[n <- 0]) (sb_cap s) n.

(** ** Directories and files *)

Definition dir_root : list (list Z) := bytes_of <$> ["kernel"; "cpu"; "mem"; "proc"; "input"; "display"]%string.
Definition dir_kernel : list (list Z) := bytes_of <$> ["info"; "uptime"; "log"]%string.
Definition dir_cpu : list (list Z) := bytes_of <$> ["info"]%string.
Definition dir_mem : list (list Z) := bytes_of <$> ["info"]%string.
Definition dir_input : list (list Z) := bytes_of <$> ["mouse"]%string.
Definition dir_display : list (list Z) := bytes_of <$> ["info"]%string.
Definition dir_procent : list (list Z) := bytes_of <$> ["status"; "name"; "state"; "prio"; "kill"]%string.

Definition path_is (path : list Z) (lit : string) : bool := str_eq path (bytes_of lit).
Definition after_proc (path : list Z) : option (list Z) :=
  match path_after path (bytes_of "/sys/proc/") with Some (c :: r) => Some (c :: r) | _ => None end.

(** [dir_for]; no caller uses [pid_out]. *)
Definition dir_for (e : sysenv) (path : list Z) : option (list (list Z)) :=
  if path_is path "/sys" || path_is path "/sys/" then Some dir_root
  else if path_is path "/sys/kernel" then Some dir_kernel
  else if path_is path "/sys/cpu" then Some dir_cpu
  else if path_is path "/sys/mem" then Some dir_mem
  else if path_is path "/sys/input" then Some dir_input
  else if path_is path "/sys/display" then Some dir_display
  else if path_is path "/sys/proc" then Some dir_root
  else
    match after_proc path with
    | Some rest =>
        let '(pid, end_) := parse_u64 rest in
        if negb (pid =? MINUS1) && bool_decide (end_ = []) && negb (proc_by_pid (se_sched e) pid =? NULLP)
        then Some dir_procent else None
    | None => None
    end.

(** A file below [/sys/proc/<pid>/]. *)
Definition render_leaf (p : proc_t) (leaf : list Z) (s : sbuf_t) : option sbuf_t :=
  if path_is leaf "status" then Some (gen_proc_one p s)
  else if path_is leaf "name" then Some (sb_putc (sb_text s (shown_name p)) LF)
  else if path_is leaf "state" then Some (sb_putc (sb_text s (state_name (state p))) LF)
  else if path_is leaf "prio" then Some (sb_putc (sb_text s (prio_name (priority p))) LF)
  else if path_is leaf "kill" then Some (sb_putc (sb_lit s "0") LF)
  else None.

(** [None] when the path names no regular file. *)
Definition render_file (e : sysenv) (path : list Z) (s : sbuf_t) : option sbuf_t :=
  if path_is path "/sys/kernel/info" then Some (gen_kernel e s)
  else if path_is path "/sys/kernel/log" then Some (gen_log e s)
  else if path_is path "/sys/cpu/info" then Some (gen_cpu e s)
  else if path_is path "/sys/mem/info" then Some (gen_mem e s)
  else if path_is path "/sys/input/mouse" then Some (gen_input e s)
  else if path_is path "/sys/display/info" then Some (gen_display e s)
  else if path_is path "/sys/kernel/uptime" then
    let hz := timer_ticks_hz (se_sched e) in
    Some (sb_putc (sb_putu s (if hz =? 0 then 0 else ticks (se_sched e) / hz)) LF)
  else if path_is path "/sys/proc/self" then
    let p := proc_current (se_sched e) (se_cpu e) in
    Some (sb_putc (if p =? NULLP then s else sb_putu s (pid (proc (se_sched e) p))) LF)
  else
    match after_proc path with
    | Some rest =>
        let '(pid, end_) := parse_u64 rest in
        if pid =? MINUS1 then None
        else
          match end_ with
          | c :: leaf =>
              if negb (c =? 47) then None
              else
                let p := proc_by_pid (se_sched e) pid in
                if p =? NULLP then None else render_leaf (proc (se_sched e) p) leaf s
          | [] => None
          end
    | None => if path_is path "/sys/proc" then Some (gen_proc_table e s) else None
    end.

(** ** Writes *)

Definition blank (c : Z) : bool := (c =? 10) || (c =? 13) || (c =? 32).
Fixpoint trim_to (n : nat) (s : list Z) : list Z :=
  match n with
  | O => []
  | S k => if blank (s.[Z.of_nat k]) then trim_to k s else take n s
  end.
Definition trim (s : list Z) : list Z := trim_to (length s) s.

Fixpoint skip_blanks (s : list Z) : list Z :=
  match s with c :: s' => if (c =? 32) || (c =? 9) then skip_blanks s' else s | [] => [] end.

(** The priority a value names; [None] is rejected. *)
Definition parse_prio (val : list Z) : option Z :=
  if path_is val "high" then Some PRIO_HIGH
  else if path_is val "normal" then Some PRIO_NORMAL
  else if path_is val "low" then Some PRIO_LOW
  else let n := (parse_u64 val).1 in if PRIO_LOW <? n then None else Some (u8 n).

(** [None] is the result [-1]; otherwise what [proc_exit] asks of other
    components on a kill, and the new state.  [rflags] and [mapped] are those of
    [proc_kill]. *)
Definition apply_write (e : sysenv) (rflags : Z) (mapped : bool) (path val : list Z) : option (list effect * sysenv) :=
  if path_is path "/sys/kernel/log" then Some ([], with_console e (put_bytes (se_console e) (val ++ [LF])))
  else if path_is path "/sys/input/mouse" then
    let '(x, end_) := parse_u64 val in
    if x =? MINUS1 then None
    else
      let y := (parse_u64 (skip_blanks end_)).1 in
      if y =? MINUS1 then None else Some ([], with_input e (input_warp_mouse (se_input e) (s32 x) (s32 y)))
  else
    match after_proc path with
    | Some rest =>
        let '(pid, end_) := parse_u64 rest in
        match end_ with
        | c :: leaf =>
            if (pid =? MINUS1) || negb (c =? 47) then None
            else
              let p := proc_by_pid (se_sched e) pid in
              if p =? NULLP then None
              else if path_is leaf "kill" then
                let '(eff, _, s) := proc_kill (se_sched e) (se_cpu e) pid rflags mapped in Some (eff, with_sched e s)
              else if path_is leaf "prio" then
                prio ← parse_prio val; Some ([], with_sched e (proc_set_priority (se_sched e) p prio))
              else None
        | [] => None
        end
    | None => None
    end.

(** ** Descriptors *)

Record sysfs_fd_t := mkSfd {
  sf_used : bool; sf_is_dir : bool; sf_pid : Z; sf_offset : Z; sf_len : Z; sf_path : list Z; sf_data : list Z;
}.
#[export] Instance sysfs_fd_inhabited : Inhabited sysfs_fd_t := populate (mkSfd false false 0 0 0 [] []).
Abbreviation table := (list sysfs_fd_t).

Definition set_used (f : sysfs_fd_t) (b : bool) : sysfs_fd_t :=
  mkSfd b (sf_is_dir f) (sf_pid f) (sf_offset f) (sf_len f) (sf_path f) (sf_data f).
Definition set_off (f : sysfs_fd_t) (v : Z) : sysfs_fd_t :=
  mkSfd (sf_used f) (sf_is_dir f) (sf_pid f) v (sf_len f) (sf_path f) (sf_data f).
Definition set_text (f : sysfs_fd_t) (l : Z) (d : list Z) : sysfs_fd_t :=
  mkSfd (sf_used f) (sf_is_dir f) (sf_pid f) (sf_offset f) l (sf_path f) d.

Definition sysfs_owns (path : list Z) : bool :=
  match path with
  | 47 :: 115 :: 121 :: 115 :: r => match r with [] => true | c :: _ => c =? 47 end
  | _ => false
  end.
Definition sysfs_owns_fd (fd : Z) : bool := (SYSFS_FD_BASE <=? fd) && (fd <? SYSFS_FD_BASE + SYSFS_MAX_FDS).

(** The locked part of [sysfs_open]: the first free slot is claimed.  The path
    is cut to the 127 bytes of the field. *)
Definition open_claim (t : table) (path : list Z) (is_dir : bool) (pid : Z) : option (Z * table) :=
  match find_up (λ i, negb (sf_used (t.[i]))) 0 (Z.to_nat SYSFS_MAX_FDS) with
  | None => None
  | Some slot =>
      let f := mkSfd true is_dir (u32 pid) 0 0 (take (Z.to_nat (SYSFS_PATH_MAX - 1)) path) (sf_data (t.[slot])) in
      Some (slot, t.[slot <- f])
  end.

(** The text of a directory. *)
Definition dir_text (e : sysenv) (path : list Z) (dir : list (list Z)) (s : sbuf_t) : sbuf_t :=
  if path_is path "/sys/proc" then gen_proc_table e s
  else foldl (λ s n, sb_putc (sb_text s n) LF) s dir.

Definition render_node (e : sysenv) (path : list Z) (dir : option (list (list Z))) (s : sbuf_t) : option sbuf_t :=
  match dir with Some d => Some (dir_text e path d s) | None => render_file e path s end.

(** The rest of it, outside the lock. *)
Definition open_fill (e : sysenv) (t : table) (slot : Z) (path : list Z) (dir : option (list (list Z))) : Z * table :=
  let f := t.[slot] in
  match render_node e path dir (mkSbuf (sf_data f) SYSFS_BUF_MAX 0) with
  | None => (-1, t.[slot <- set_used f false])
  | Some s =>
      let z := if sb_len s <? SYSFS_BUF_MAX then sb_len s else SYSFS_BUF_MAX - 1 in
      (SYSFS_FD_BASE + slot, t.[slot <- set_text f (sb_len s) ((sb_buf s).[z <- 0])])
  end.

Definition caller_pid (e : sysenv) : Z := pid (proc (se_sched e) (proc_current (se_sched e) (se_cpu e))).

Definition sysfs_open (e : sysenv) (t : table) (path : list Z) : Z * table :=
  if negb (sysfs_owns path) then (-1, t)
  else
    let dir := dir_for e path in
    match open_claim t path (bool_decide (is_Some dir)) (caller_pid e) with
    | None => (-1, t)
    | Some (slot, t) => open_fill e t slot path dir
    end.

Definition sysfs_close (t : table) (fd : Z) : table :=
  if negb (sysfs_owns_fd fd) then t
  else t.[fd - SYSFS_FD_BASE <- set_used (t.[fd - SYSFS_FD_BASE]) false].

(** The result, the bytes copied to [buf], and the table. *)
Definition sysfs_read (t : table) (fd buf count : Z) : Z * list Z * table :=
  if negb (sysfs_owns_fd fd) || (buf =? 0) then (-1, [], t)
  else
    let f := t.[fd - SYSFS_FD_BASE] in
    if negb (sf_used f) then (-1, [], t)
    else
      let remain := if sf_offset f <? sf_len f then sf_len f - sf_offset f else 0 in
      let count := if remain <? count then remain else count in
      (s32 count, take (Z.to_nat count) (drop (Z.to_nat (sf_offset f)) (sf_data f)),
       t.[fd - SYSFS_FD_BASE <- set_off f (u32 (sf_offset f + u32 count))]).

(** [val] holds at most 255 bytes of the caller's buffer. *)
Definition sysfs_write (e : sysenv) (m : mem) (rflags : Z) (mapped : bool) (t : table) (fd buf count : Z) :
    Z * list effect * sysenv :=
  if negb (sysfs_owns_fd fd) || (buf =? 0) then (-1, [], e)
  else
    let n := if count <? 255 then count else 255 in
    let f := t.[fd - SYSFS_FD_BASE] in
    if negb (sf_used f) || sf_is_dir f then (-1, [], e)
    else
      match apply_write e rflags mapped (sf_path f) (trim (cstring (Z.to_nat n) m buf)) with
      | None => (-1, [], e)
      | Some (eff, e) => (s32 count, eff, e)
      end.

Definition sysfs_lseek (t : table) (fd offset whence : Z) : Z * table :=
  if negb (sysfs_owns_fd fd) then (-1, t)
  else
    let f := t.[fd - SYSFS_FD_BASE] in
    if negb (sf_used f) then (-1, t)
    else
      let base := if whence =? 1 then s32 (sf_offset f) else if whence =? 2 then s32 (sf_len f) else 0 in
      let no := s32 (base + offset) in
      if no <? 0 then (-1, t) else (no, t.[fd - SYSFS_FD_BASE <- set_off f (u32 no)]).

Record dirent := mkDirent { de_name : list Z; de_inode_block : Z; de_size : Z; de_flags : Z }.
Definition XFS_DENT_FILE : Z := 0.
Definition XFS_DENT_DIR : Z := 1.
Definition fill_dirent (name : list Z) (dir : bool) (size : Z) : dirent :=
  mkDirent (take (Z.to_nat (XFS_NAME_MAX - 1)) name) 0xFFFFFFFF size (if dir then XFS_DENT_DIR else XFS_DENT_FILE).

(** [None] is the result [-1]. *)
Definition sysfs_readdir (e : sysenv) (t : table) (fd entries max_entries : Z) : option (list dirent) :=
  if negb (sysfs_owns_fd fd) || (entries =? 0) || (max_entries <=? 0) then None
  else
    let f := t.[fd - SYSFS_FD_BASE] in
    if negb (sf_used f) || negb (sf_is_dir f) then None
    else
      let path := sf_path f in
      if path_is path "/sys/proc" then
        Some (iter_up (λ i out,
                let p := proc (se_sched e) (sched_proc_slot i) in
                if negb (zlen out <? max_entries) || hidden p then out
                else out ++ [fill_dirent (reverse (sb_tmp (pid p) 10)) true 0]) 0 (Z.to_nat SCHED_MAX_PROCS) [])
      else
        match dir_for e path with
        | None => None
        | Some dir => Some (take (Z.to_nat max_entries) ((λ n, fill_dirent n (path_is path "/sys") 0) <$> dir))
        end.

Definition or_sys (nm : list Z) : list Z := if bool_decide (nm = []) then bytes_of "sys" else nm.

Definition sysfs_stat (e : sysenv) (t : table) (path : list Z) (out : Z) : option dirent * table :=
  if negb (sysfs_owns path) || (out =? 0) then (None, t)
  else if bool_decide (is_Some (dir_for e path)) then
    (Some (fill_dirent (or_sys (last_comp path path)) true 0), t)
  else
    let '(fd, t) := sysfs_open e t path in
    if fd <? 0 then (None, t)
    else
      let len := sf_len (t.[fd - SYSFS_FD_BASE]) in
      (Some (fill_dirent (last_comp path path) false len), sysfs_close t fd).

Definition sysfs_fstat (t : table) (fd out : Z) : option dirent :=
  if negb (sysfs_owns_fd fd) || (out =? 0) then None
  else
    let f := t.[fd - SYSFS_FD_BASE] in
    if negb (sf_used f) then None
    else Some (fill_dirent (or_sys (last_comp (sf_path f) (sf_path f))) (sf_is_dir f) (sf_len f)).

(** ** The writer

    [wrote s0 s t]: [s] is [s0] with the text [t] appended, as far as it fits. *)
Record sb_ok (s : sbuf_t) : Prop := {
  sbo_buf : zlen (sb_buf s) = sb_cap s;
  sbo_len : 0 ≤ sb_len s < sb_cap s;
}.
Definition sb_out (s : sbuf_t) : list Z := take (Z.to_nat (sb_len s)) (sb_buf s).
Definition wrote (s0 s : sbuf_t) (t : list Z) : Prop :=
  sb_ok s ∧ sb_cap s = sb_cap s0 ∧ sb_out s = take (Z.to_nat (sb_cap s0 - 1)) (sb_out s0 ++ t).

Lemma sb_out_len s : sb_ok s → zlen (sb_out s) = sb_len s.
Proof. intros [H1 H2]. unfold zlen, sb_out in *. rewrite length_take. lia. Qed.

Lemma wrote_nil s : sb_ok s → wrote s s [].
Proof.
  intros Hs. split_and!; [done|done|]. rewrite app_nil_r, take_ge; [done|].
  pose proof (sb_out_len s Hs) as Hl. destruct Hs as [_ Hs]. unfold zlen in Hl. lia.
Qed.

Lemma wrote_c s0 s t c : wrote s0 s t → wrote s0 (sb_putc s c) (t ++ [c]).
Proof.
  intros (Hok & Hc & Ho). pose proof (sb_out_len s Hok) as Hl. destruct Hok as [Hb Hn]. unfold sb_putc.
  unfold wrote. rewrite app_assoc. destruct (Z.ltb_spec (sb_len s + 1) (sb_cap s)) as [Hlt|Hge].
  - assert (Hsh : zlen (sb_out s0 ++ t) = sb_len s).
    { rewrite Ho in Hl. unfold zlen in *. rewrite length_take in Hl. lia. }
    rewrite take_ge in Ho by (unfold zlen in Hsh; lia). split_and!; [|done|].
    + split; cbn; [by rewrite zlen_aset|lia].
    + unfold sb_out at 1. cbn [sb_len sb_buf]. unfold aset. replace (Z.to_nat (sb_len s + 1)) with (S (Z.to_nat (sb_len s))) by lia.
      rewrite (take_S_r _ _ c) by (apply list_lookup_insert_eq; unfold zlen in Hb; lia).
      rewrite take_insert_ge by lia. fold (sb_out s). rewrite Ho. rewrite take_ge; [done|].
      rewrite length_app. unfold zlen in Hsh. cbn. lia.
  - split_and!; [done|done|]. rewrite Ho in Hl |- *. symmetry. apply take_app_le.
    unfold zlen in Hl. rewrite length_take in Hl. lia.
Qed.

Lemma wrote_foldl s0 s t x : wrote s0 s t → wrote s0 (foldl sb_putc s x) (t ++ x).
Proof.
  revert s t. induction x as [|c x IH]; intros s t H; [by rewrite app_nil_r|].
  cbn. replace (t ++ c :: x) with ((t ++ [c]) ++ x) by (by rewrite <- app_assoc). by apply IH, wrote_c.
Qed.
Lemma wrote_text s0 s t x : wrote s0 s t → wrote s0 (sb_text s x) (t ++ x).
Proof. apply wrote_foldl. Qed.
Lemma wrote_lit s0 s t x : wrote s0 s t → wrote s0 (sb_lit s x) (t ++ bytes_of x).
Proof. apply wrote_foldl. Qed.
Lemma wrote_u s0 s t v : wrote s0 s t → wrote s0 (sb_putu s v) (t ++ reverse (sb_tmp v 10)).
Proof. apply wrote_foldl. Qed.

(** Two buffers of capacity [c] with the same text: what a generator writes does
    not depend on what the buffer held before. *)
Record same (c : Z) (a b : sbuf_t) : Prop := {
  sm_a : sb_ok a; sm_b : sb_ok b; sm_ca : sb_cap a = c; sm_cb : sb_cap b = c; sm_out : sb_out a = sb_out b;
}.

Section same.
Context (c : Z).

Lemma same_fold a b x : same c a b → same c (foldl sb_putc a x) (foldl sb_putc b x).
Proof.
  intros [Ha Hb Ca Cb Ho].
  destruct (wrote_foldl a a [] x (wrote_nil a Ha)) as (Ha' & Ca' & Oa).
  destruct (wrote_foldl b b [] x (wrote_nil b Hb)) as (Hb' & Cb' & Ob).
  split; [done|done|congruence|congruence|]. by rewrite Oa, Ob, Ho, Ca, Cb.
Qed.
Lemma same_c a b x : same c a b → same c (sb_putc a x) (sb_putc b x).
Proof. exact (same_fold a b [x]). Qed.
Lemma same_text a b x : same c a b → same c (sb_text a x) (sb_text b x).
Proof. apply same_fold. Qed.
Lemma same_lit a b x : same c a b → same c (sb_lit a x) (sb_lit b x).
Proof. apply same_fold. Qed.
Lemma same_u a b v : same c a b → same c (sb_putu a v) (sb_putu b v).
Proof. apply same_fold. Qed.
Lemma same_hex a b v : same c a b → same c (sb_puthex a v) (sb_puthex b v).
Proof. intros H. by apply same_fold, same_lit. Qed.
Lemma same_i a b v : same c a b → same c (sb_puti a v) (sb_puti b v).
Proof. intros H. unfold sb_puti. case_if; [by apply same_u, same_c|by apply same_u]. Qed.
Lemma same_kv_u a b k v : same c a b → same c (sb_kv_u a k v) (sb_kv_u b k v).
Proof. intros H. by apply same_c, same_u, same_lit, same_lit. Qed.
Lemma same_kv_s a b k v : same c a b → same c (sb_kv_s a k v) (sb_kv_s b k v).
Proof. intros H. by apply same_c, same_text, same_lit, same_lit. Qed.
Lemma same_kv_hex a b k v : same c a b → same c (sb_kv_hex a k v) (sb_kv_hex b k v).
Proof. intros H. by apply same_c, same_hex, same_lit, same_lit. Qed.
Lemma same_flag a b f k : same c a b → same c (sb_flag f k a) (sb_flag f k b).
Proof. intros H. destruct f; [by apply same_lit|done]. Qed.
End same.

Create HintDb sbuf.
#[export] Hint Resolve same_c same_text same_lit same_u same_hex same_i same_kv_u same_kv_s same_kv_hex same_flag : sbuf.
Ltac writes := cbv zeta; auto 100 with sbuf.

Section generators.
Context (c : Z) (e : sysenv).
Hypothesis Hlog : msgbuf_ok (msgs (se_console e)).

Lemma same_proc_table a b : same c a b → same c (gen_proc_table e a) (gen_proc_table e b).
Proof.
  intros H. unfold gen_proc_table. assert (H1 : same c (sb_text a table_title) (sb_text b table_title)) by writes.
  revert H1. generalize (sb_text a table_title) (sb_text b table_title). generalize 0 at 1 2.
  induction (Z.to_nat SCHED_MAX_PROCS) as [|n IH]; intros i a1 b1 H1; [done|]. rewrite !iter_up_S.
  apply IH. cbv zeta. case_if; [done|]. unfold proc_row. writes.
Qed.

Lemma gen_log_out s : sb_ok s →
  sb_ok (gen_log e s) ∧ sb_out (gen_log e s) = take (Z.to_nat (sb_cap s - 1)) (mb_contents (msgs (se_console e))).
Proof.
  intros [Hb Hn]. unfold gen_log. rewrite (copy_contents _ _ Hlog) by lia.
  set (out := take _ _). assert (Hl : zlen out ≤ sb_cap s - 1) by (unfold out, zlen; rewrite length_take; lia).
  pose proof (zlen_nonneg out). split; [split; cbn; [|lia]|].
  - rewrite zlen_aset. unfold zlen in *. rewrite length_app, length_drop. lia.
  - unfold sb_out, aset. cbn [sb_len sb_buf]. rewrite take_insert_ge by lia. rewrite take_app_le by (unfold zlen; lia).
    by rewrite take_ge by (unfold zlen; lia).
Qed.

Lemma same_log a b : same c a b → same c (gen_log e a) (gen_log e b).
Proof.
  intros [Ha Hb Ca Cb _]. destruct (gen_log_out a Ha) as [? Oa], (gen_log_out b Hb) as [? Ob]. by split; [..|rewrite Oa, Ob, Ca, Cb].
Qed.

Lemma same_leaf p leaf a b : same c a b → option_Forall2 (same c) (render_leaf p leaf a) (render_leaf p leaf b).
Proof. intros H. unfold render_leaf, gen_proc_one. repeat (case_if; [constructor; writes|]). constructor. Qed.

Lemma same_file path a b : same c a b → option_Forall2 (same c) (render_file e path a) (render_file e path b).
Proof.
  intros H. unfold render_file, gen_kernel, gen_cpu, gen_mem, gen_input, gen_display.
  case_if; [constructor; writes|]. case_if; [constructor; by apply same_log|].
  do 3 (case_if; [constructor; writes|]). case_if; [constructor; destruct (se_gpu e); writes|].
  case_if; [constructor; writes|].
  case_if; [constructor; destruct (proc_current _ _ =? NULLP); writes|].
  destruct (after_proc path) as [rest|]; [|case_if; constructor; by apply same_proc_table].
  destruct (parse_u64 rest) as [v end_]. case_if; [constructor|]. destruct end_ as [|x leaf]; [constructor|].
  case_if; [constructor|]. cbv zeta. case_if; [constructor|]. by apply same_leaf.
Qed.

Lemma same_dir path d a b : same c a b → same c (dir_text e path d a) (dir_text e path d b).
Proof.
  intros H. unfold dir_text. case_if; [by apply same_proc_table|].
  revert a b H. induction d as [|n d IH]; intros a b H; [done|]. cbn. apply IH. writes.
Qed.

Lemma same_render_node path dir a b : same c a b → option_Forall2 (same c) (render_node e path dir a) (render_node e path dir b).
Proof. intros H. destruct dir; [constructor; by apply same_dir|by apply same_file]. Qed.
End generators.

(** ** The descriptor table *)

Record sfd_ok (f : sysfs_fd_t) : Prop := {
  fo_data : zlen (sf_data f) = SYSFS_BUF_MAX;
  fo_len : 0 ≤ sf_len f < SYSFS_BUF_MAX;
  fo_off : 0 ≤ sf_offset f < 2 ^ 32;
  fo_path : zlen (sf_path f) < SYSFS_PATH_MAX;
}.
Record table_ok (t : table) : Prop := { to_len : zlen t = SYSFS_MAX_FDS; to_fds : Forall sfd_ok t }.
Definition bss_table : table := replicate 32 (mkSfd false false 0 0 0 [] (replicate 4096 0)).

(** The text a file or directory has in state [e]. *)
Definition snapshot (e : sysenv) (path : list Z) : option (list Z) :=
  sb_out <$> render_node e path (dir_for e path) (mkSbuf (replicate 4096 0) SYSFS_BUF_MAX 0).

Lemma bss_table_ok : table_ok bss_table.
Proof. split; [done|]. apply Forall_replicate. split; done. Qed.

Lemma owns_fd fd : sysfs_owns_fd fd = true ↔ 0 ≤ fd - SYSFS_FD_BASE < SYSFS_MAX_FDS.
Proof. unfold sysfs_owns_fd, SYSFS_FD_BASE, SYSFS_MAX_FDS. rewrite andb_true_iff, Z.leb_le, Z.ltb_lt. lia. Qed.

Ltac own := bools; match goal with H : sysfs_owns_fd _ = true |- _ => apply owns_fd in H end.

Lemma slot_ok t i : table_ok t → 0 ≤ i < SYSFS_MAX_FDS → sfd_ok (t.[i]).
Proof. intros [Hl Hf] Hi. apply aget_Forall; [done|by rewrite Hl]. Qed.

Lemma table_set t i f : table_ok t → sfd_ok f → table_ok (t.[i <- f]).
Proof. intros [Hl Hf] H. split; [by rewrite zlen_aset|by apply aset_Forall]. Qed.

Lemma claim_inv t path d p slot t' :
  open_claim t path d p = Some (slot, t') →
  0 ≤ slot < SYSFS_MAX_FDS ∧ sf_used (t.[slot]) = false ∧
  t' = t.[slot <- mkSfd true d (u32 p) 0 0 (take (Z.to_nat (SYSFS_PATH_MAX - 1)) path) (sf_data (t.[slot]))].
Proof.
  unfold open_claim. destruct (find_up _ _ _) as [i|] eqn:Hf; [|done]. apply find_up_Some in Hf as (Hi & Hu & _).
  intros [= <- <-]. apply negb_true_iff in Hu. unfold SYSFS_MAX_FDS in *. split_and!; [lia|lia|done|done].
Qed.

Lemma claim_ok t path d p slot t' : table_ok t → open_claim t path d p = Some (slot, t') → table_ok t'.
Proof.
  intros Ht Hc. destruct (claim_inv _ _ _ _ _ _ Hc) as (Hs & _ & ->). apply table_set; [done|].
  split; cbn; [by apply (slot_ok t slot Ht Hs)|done|done|]. unfold zlen, SYSFS_PATH_MAX. rewrite length_take. lia.
Qed.

Lemma fresh_ok f : sfd_ok f → sb_ok (mkSbuf (sf_data f) SYSFS_BUF_MAX 0).
Proof. intros H. split; [by apply H|done]. Qed.

(** Filling a slot leaves the text of the path in its buffer. *)
Lemma fill_spec e t slot path dir :
  msgbuf_ok (msgs (se_console e)) → table_ok t → 0 ≤ slot < SYSFS_MAX_FDS →
  match sb_out <$> render_node e path dir (mkSbuf (replicate 4096 0) SYSFS_BUF_MAX 0) with
  | None => open_fill e t slot path dir = (-1, t.[slot <- set_used (t.[slot]) false])
  | Some txt => ∃ d, open_fill e t slot path dir = (SYSFS_FD_BASE + slot, t.[slot <- set_text (t.[slot]) (zlen txt) d]) ∧
      zlen d = SYSFS_BUF_MAX ∧ zlen txt < SYSFS_BUF_MAX ∧ take (length txt) d = txt
  end.
Proof.
  intros Hm Ht Hs. pose proof (slot_ok t slot Ht Hs) as Hf. unfold open_fill. cbv zeta.
  assert (Hsame : same SYSFS_BUF_MAX (mkSbuf (sf_data (t.[slot])) SYSFS_BUF_MAX 0) (mkSbuf (replicate 4096 0) SYSFS_BUF_MAX 0))
    by (split; [by apply fresh_ok|by split|done|done|done]).
  pose proof (same_render_node SYSFS_BUF_MAX e Hm path dir _ _ Hsame) as HR. revert HR. generalize (render_node e path dir).
  intros R HR. destruct HR as [a b [Ha Hb Ca Cb Ho]|]; cbn [fmap option_fmap option_map]; [|done].
  pose proof (sb_out_len a Ha) as Hl. destruct Ha as [Ha1 Ha2]. rewrite Ca in Ha1, Ha2.
  rewrite (proj2 (Z.ltb_lt (sb_len a) SYSFS_BUF_MAX)) by lia. exists ((sb_buf a).[sb_len a <- 0]).
  rewrite <- Ho. split; [by rewrite Hl|]. split; [by rewrite zlen_aset|]. split; [lia|]. unfold aset.
  assert (Hn : length (sb_out a) = Z.to_nat (sb_len a)) by (unfold zlen in Hl; lia).
  by rewrite Hn, take_insert_ge by lia.
Qed.

Lemma fill_ok e t slot path dir :
  msgbuf_ok (msgs (se_console e)) → table_ok t → 0 ≤ slot < SYSFS_MAX_FDS → table_ok (open_fill e t slot path dir).2.
Proof.
  intros Hm Ht Hs. pose proof (fill_spec e t slot path dir Hm Ht Hs) as H. destruct (slot_ok t slot Ht Hs) as [F1 F2 F3 F4].
  destruct (sb_out <$> _) as [txt|]; [destruct H as (d & -> & Hd & Hl & _)|rewrite H]; (apply table_set; [done|]).
  - pose proof (zlen_nonneg txt). split; cbn; [done|lia|done|done].
  - by split.
Qed.

Lemma close_ok t fd : table_ok t → table_ok (sysfs_close t fd).
Proof.
  intros Ht. unfold sysfs_close. case_if; [done|]. own. destruct (slot_ok t (fd - SYSFS_FD_BASE) Ht ltac:(done)). apply table_set; [done|].
  by split.
Qed.

Lemma read_ok t fd buf n : table_ok t → table_ok (sysfs_read t fd buf n).2.
Proof.
  intros Ht. unfold sysfs_read. case_if; [done|]. cbv zeta. case_if; [done|]. cbn [snd]. bools.
  destruct (slot_ok t (fd - SYSFS_FD_BASE) Ht) as [F1 F2 F3 F4]; [by apply owns_fd|]. apply table_set; [done|].
  split; cbn; [done|done|apply u32_range|done].
Qed.

Lemma seek_ok t fd off wh : table_ok t → table_ok (sysfs_lseek t fd off wh).2.
Proof.
  intros Ht. unfold sysfs_lseek. case_if; [done|]. cbv zeta. case_if; [done|]. case_if; [done|]. cbn [snd]. bools.
  destruct (slot_ok t (fd - SYSFS_FD_BASE) Ht) as [F1 F2 F3 F4]; [by apply owns_fd|]. apply table_set; [done|].
  split; cbn; [done|done|apply u32_range|done].
Qed.

(** ** Histories

    The table is changed by these steps, of any process on any CPU: the two
    halves of an open, closes, reads and seeks.  Writes leave it alone. *)
Inductive fop :=
  | FClaim (path : list Z) (is_dir : bool) (pid : Z)
  | FFill (e : sysenv) (slot : Z) (path : list Z) (dir : option (list (list Z)))
  | FClose (fd : Z)
  | FRead (fd buf count : Z)
  | FSeek (fd offset whence : Z).

Definition fstep (t : table) (o : fop) : table :=
  match o with
  | FClaim path d p => match open_claim t path d p with Some (_, t) => t | None => t end
  | FFill e slot path dir => (open_fill e t slot path dir).2
  | FClose fd => sysfs_close t fd
  | FRead fd buf n => (sysfs_read t fd buf n).2
  | FSeek fd off wh => (sysfs_lseek t fd off wh).2
  end.

Definition fop_ok (o : fop) : Prop :=
  match o with
  | FFill e slot _ _ => msgbuf_ok (msgs (se_console e)) ∧ 0 ≤ slot < SYSFS_MAX_FDS
  | _ => True
  end.

(** Whose steps leave descriptor [fd] to its reader. *)
Definition leaves (fd : Z) (o : fop) : Prop :=
  match o with
  | FClaim _ _ _ => True
  | FFill _ slot _ _ => SYSFS_FD_BASE + slot ≠ fd
  | FClose fd' | FSeek fd' _ _ => fd' ≠ fd
  | FRead fd' buf n => fd' = fd → buf ≠ 0 ∧ 0 ≤ n
  end.

Definition is_read (fd : Z) (o : fop) : option Z := match o with FRead fd' _ n => if fd' =? fd then Some n else None | _ => None end.

(** The bytes the reads of [fd] deliver, and how many were asked for. *)
Fixpoint delivered (fd : Z) (t : table) (ops : list fop) : list Z :=
  match ops with
  | [] => []
  | o :: ops => match o with FRead fd' buf n => if fd' =? fd then (sysfs_read t fd' buf n).1.2 else [] | _ => [] end
                ++ delivered fd (fstep t o) ops
  end.
Fixpoint asked (fd : Z) (ops : list fop) : Z :=
  match ops with [] => 0 | o :: ops => default 0 (is_read fd o) + asked fd ops end.

Lemma fstep_ok t o : table_ok t → fop_ok o → table_ok (fstep t o).
Proof.
  intros Ht Ho. destruct o; cbn [fstep].
  - destruct (open_claim t path is_dir pid) as [[? ?]|] eqn:Hc; [by eapply claim_ok|done].
  - destruct Ho. by apply fill_ok.
  - by apply close_ok.
  - by apply read_ok.
  - by apply seek_ok.
Qed.

(** A step that leaves [fd] alone and is not one of its reads keeps the slot. *)
Lemma fstep_other fd t o :
  table_ok t → fop_ok o → sysfs_owns_fd fd = true → sf_used (t.[fd - SYSFS_FD_BASE]) = true → leaves fd o → is_read fd o = None →
  (fstep t o).[fd - SYSFS_FD_BASE] = t.[fd - SYSFS_FD_BASE].
Proof.
  intros Ht Ho Hfd Hu Hl Hr. apply owns_fd in Hfd. destruct o; cbn [fstep leaves is_read fop_ok] in *.
  - destruct (open_claim t path is_dir pid) as [[slot t']|] eqn:Hc; [|done].
    destruct (claim_inv _ _ _ _ _ _ Hc) as (Hs & Hn & ->). apply aget_aset_ne; [lia|lia|]. intros ->. congruence.
  - destruct Ho as [Hm Hs]. pose proof (fill_spec e t slot path dir Hm Ht Hs) as H.
    destruct (sb_out <$> _) as [txt|]; [destruct H as (d & -> & _)|rewrite H]; apply aget_aset_ne; lia.
  - unfold sysfs_close. case_if; [done|]. own. apply aget_aset_ne; lia.
  - destruct (Z.eqb_spec fd0 fd); [done|]. unfold sysfs_read. case_if; [done|]. cbv zeta. case_if; [done|]. cbn [snd]. own.
    apply aget_aset_ne; lia.
  - unfold sysfs_lseek. case_if; [done|]. cbv zeta. case_if; [done|]. case_if; [done|]. cbn [snd]. own.
    apply aget_aset_ne; lia.
Qed.

(** Descriptor [fd] holds the text [txt] and stands at [off]. *)
Record holds (fd : Z) (t : table) (txt : list Z) (off : Z) : Prop := {
  ho_used : sf_used (t.[fd - SYSFS_FD_BASE]) = true;
  ho_len : sf_len (t.[fd - SYSFS_FD_BASE]) = zlen txt;
  ho_data : take (length txt) (sf_data (t.[fd - SYSFS_FD_BASE])) = txt;
  ho_off : sf_offset (t.[fd - SYSFS_FD_BASE]) = off;
  ho_range : 0 ≤ off ≤ zlen txt;
}.

Lemma holds_read fd t txt off buf n :
  table_ok t → sysfs_owns_fd fd = true → holds fd t txt off → buf ≠ 0 → 0 ≤ n →
  let k := Z.min n (zlen txt - off) in
  (sysfs_read t fd buf n).1 = (k, take (Z.to_nat n) (drop (Z.to_nat off) txt)) ∧ holds fd (sysfs_read t fd buf n).2 txt (off + k).
Proof.
  intros Ht Hfd [Hu Hl Hd Ho Hr] Hb Hn k. pose proof (proj1 (owns_fd fd) Hfd) as Hi.
  destruct (slot_ok t _ Ht Hi) as [F1 F2 _ _]. destruct Ht as [Hlen _].
  unfold sysfs_read. rewrite Hfd, (proj2 (Z.eqb_neq buf 0) Hb). cbn [negb orb]. cbv zeta. rewrite Hu. cbn [negb].
  rewrite Ho, Hl in *.
  assert (Ek : (let remain := if off <? zlen txt then zlen txt - off else 0 in if remain <? n then remain else n) = k).
  { unfold k. cbv zeta. destruct (Z.ltb_spec off (zlen txt)); case_if; bools; lia. }
  cbv zeta in Ek. rewrite Ek. unfold SYSFS_BUF_MAX in *. rewrite s32_small by lia. cbn [fst snd]. split.
  - f_equal. assert (Ht' : drop (Z.to_nat off) txt = take (length txt - Z.to_nat off) (drop (Z.to_nat off) (sf_data (t.[fd - SYSFS_FD_BASE]))))
      by (by rewrite <- skipn_firstn_comm, Hd).
    rewrite Ht', take_take. f_equal. unfold k, zlen. lia.
  - split; rewrite ?aget_aset_eq by (rewrite Hlen; lia); cbn; try done; [|lia]. rewrite (u32_small k) by lia. apply u32_small. lia.
Qed.

Lemma delivered_holds fd ops t txt off :
  table_ok t → sysfs_owns_fd fd = true → holds fd t txt off → Forall fop_ok ops → Forall (leaves fd) ops →
  delivered fd t ops = take (Z.to_nat (asked fd ops)) (drop (Z.to_nat off) txt).
Proof.
  revert t off. induction ops as [|o ops IH]; intros t off Ht Hfd Hh Hok Hlv; [done|].
  apply Forall_cons in Hok as [Ho Hok], Hlv as [Hl Hlv]. cbn [delivered asked].
  pose proof (fstep_ok t o Ht Ho) as Ht'.
  assert (Hasked : 0 ≤ asked fd ops).
  { clear -Hlv. induction Hlv as [|o ops Hl _ IH]; [done|]. cbn [asked]. destruct o as [| | |fd' buf n|]; cbn in *; try lia.
    destruct (Z.eqb_spec fd' fd); cbn; [destruct (Hl ltac:(done))|]; lia. }
  destruct (is_read fd o) as [n|] eqn:Er.
  - destruct o as [| | |fd' buf n'|]; try done. cbn [is_read leaves fstep] in *. destruct (Z.eqb_spec fd' fd) as [->|]; [|done].
    injection Er as ->. destruct (Hl eq_refl) as [Hb Hn].
    destruct (holds_read fd t txt off buf n Ht Hfd Hh Hb Hn) as [Hr Hh']. rewrite Hr. cbn [snd].
    rewrite (IH _ _ Ht' Hfd Hh' Hok Hlv). destruct Hh as [_ _ _ _ Hr0].
    unfold zlen in *. change (default 0 (Some n)) with n. rewrite (Z2Nat.inj_add n) by lia. destruct (Z.le_gt_cases n (Z.of_nat (length txt) - off)).
    + rewrite Z.min_l by lia. rewrite Z2Nat.inj_add by lia. by rewrite <- drop_drop, take_take_drop.
    + rewrite Z.min_r by lia. rewrite (drop_ge _ (Z.to_nat (off + _))) by lia. rewrite take_nil, app_nil_r.
      rewrite !take_ge by (rewrite length_drop; lia). done.
  - assert (Hsame : (fstep t o).[fd - SYSFS_FD_BASE] = t.[fd - SYSFS_FD_BASE]) by (apply fstep_other; by try apply Hh).
    cbn [default]. rewrite Z.add_0_l. rewrite <- (IH (fstep t o) off Ht' Hfd); [|destruct Hh; split; by rewrite ?Hsame|done|done].
    destruct o as [| | |fd' buf n'|]; try done. cbn [is_read] in Er. by destruct (fd' =? fd).
Qed.

(** What an open leaves behind. *)
Lemma open_spec e t path fd t' :
  table_ok t → msgbuf_ok (msgs (se_console e)) → sysfs_open e t path = (fd, t') → 0 ≤ fd →
  ∃ txt, snapshot e path = Some txt ∧ table_ok t' ∧ sysfs_owns_fd fd = true ∧ holds fd t' txt 0 ∧ zlen txt < SYSFS_BUF_MAX.
Proof.
  intros Ht Hm Ho Hfd. unfold sysfs_open in Ho. destruct (negb (sysfs_owns path)); [injection Ho; lia|]. cbv zeta in Ho.
  unfold snapshot. destruct (open_claim t path _ _) as [[slot t1]|] eqn:Hc; [|injection Ho; lia].
  pose proof (claim_ok _ _ _ _ _ _ Ht Hc) as Ht1. destruct (claim_inv _ _ _ _ _ _ Hc) as (Hs & _ & E1).
  pose proof (fill_spec e t1 slot path (dir_for e path) Hm Ht1 Hs) as Hf.
  pose proof (fill_ok e t1 slot path (dir_for e path) Hm Ht1 Hs) as Hok. rewrite Ho in Hok.
  destruct (sb_out <$> _) as [txt|]; [|rewrite Hf in Ho; injection Ho; lia].
  destruct Hf as (d & Hd & Hd1 & Hd2 & Hd3). rewrite Hd in Ho. injection Ho as <- <-.
  assert (Hw : sysfs_owns_fd (SYSFS_FD_BASE + slot) = true) by (apply owns_fd; lia).
  exists txt. split_and!; try done. destruct Ht1 as [Hl1 _]. pose proof (zlen_nonneg txt).
  split; replace (SYSFS_FD_BASE + slot - SYSFS_FD_BASE) with slot by lia; rewrite ?aget_aset_eq by (rewrite Hl1; done); cbn; try done.
  all: rewrite E1; by rewrite aget_aset_eq by (rewrite <- (to_len _ Ht) in Hs; done).
Qed.

(** Snapshot reads.  Whatever other processes do to the descriptor table and
    however the system changes after a file of /sys was opened, the bytes that the
    reads of the descriptor deliver, in whatever portions, are the text the file
    had when it was opened, in order and without loss, as far as was asked for. *)
Theorem sysfs_reads_snapshot e t path fd t' ops :
  table_ok t → msgbuf_ok (msgs (se_console e)) →
  sysfs_open e t path = (fd, t') → 0 ≤ fd → Forall fop_ok ops → Forall (leaves fd) ops →
  ∃ txt, snapshot e path = Some txt ∧ zlen txt < SYSFS_BUF_MAX ∧ delivered fd t' ops = take (Z.to_nat (asked fd ops)) txt.
Proof.
  intros Ht Hm Ho Hfd Hops Hlv. destruct (open_spec e t path fd t' Ht Hm Ho Hfd) as (txt & Hs & Ht' & Hw & Hh & Hl).
  exists txt. split_and!; [done|done|]. by rewrite (delivered_holds fd ops t' txt 0).
Qed.
