(* ===== verification/SysfsSpec.v ===== *)
(** * What writing to /sys does

    Writes to [kernel/fs/sysfs.c] files composed with the scheduler, the pointer
    and the log: a kill is a sequence of scheduler steps, no write breaks an
    invariant, priorities written are read back, listed processes can be opened. *)

From stdpp Require Import gmap.
From Stdlib Require Import Ascii String.
From S2P Require Import Prelude Mem CString Pmm Heap Klog Input ProcTable Signal Sched Fault Proc Xfs Sysfs.

#[local] Open Scope Z_scope.
#[local] Open Scope list_scope.
#[local] Abbreviation length := List.length.

(** ** The log line

    What [apply_write] does to the console is [kprintf] of its format, a string
    and a newline. *)
Lemma kprintf_line m k fuel fmt v val :
  bytes_at m fmt [37; 115; 10; 0] → v ≠ 0 → bytes_at m v (val ++ [0]) → Forall (λ c, c ≠ 0) val → (length val + 5 ≤ fuel)%nat →
  kvprintf fuel m k fmt [v] = Some (put_bytes k (val ++ [LF])).
Proof.
  intros Hf Hv Hm Hnz Hfuel. assert (Ht : terminated (S (length val)) m v).
  { exists (length val). split; [lia|]. apply Hm. by rewrite lookup_app_r, Nat.sub_diag by lia. }
  pose proof (kvprintf_lemma (S (length val)) m [Conv [] [] 0 115 v; Lit 10] fuel k fmt []) as H.
  cbn [app format_args fmap list_fmap concat piece_args takes_arg orb Z.eqb Pos.eqb] in H.
  etransitivity; [apply H; [repeat constructor; done|done|cbn; lia]|]. f_equal.
  change (put_bytes k ((if v =? 0 then NULL_TEXT else cstring (S (length val)) m v) ++ [LF]) = put_bytes k (val ++ [LF])).
  rewrite (proj2 (Z.eqb_neq v 0) Hv).
  assert (Hc : cstring (S (length val)) m v = val); [|by rewrite Hc].
  clear -Hm Hnz. revert v Hm. induction val as [|c val IH]; intros v Hm.
  - apply bytes_at_cons in Hm as [E _]. cbn. by rewrite E.
  - apply bytes_at_cons in Hm as [E Hm]. apply Forall_cons in Hnz as [Hc Hnz].
    change ((if m v =? 0 then [] else m v :: cstring (S (length val)) m (v + 1)) = c :: val).
    rewrite E, (proj2 (Z.eqb_neq c 0) Hc). by rewrite IH.
Qed.

(** ** Killing, as steps of the scheduler *)

(** [p] is dead and CPU [c] is not switching. *)
Record zombie (s : sched) (c p : Z) : Prop := {
  zo_procs : zlen (procs s) = SCHED_MAX_PROCS;
  zo_dead : state (proc s p) = PROC_DEAD;
  zo_active : active s c;
}.

Lemma zombie_upd s c p i f :
  zombie s c p → valid_proc p → valid_proc i → (i = p → state (f (proc s p)) = PROC_DEAD) → zombie (upd s i f) c p.
Proof.
  intros [Hl Hd Ha] Hp Hi Hf. unfold valid_proc in *. split; [unfold upd, with_procs; cbn; by rewrite zlen_aset| |done].
  rewrite proc_upd by (rewrite ?Hl; lia). destruct (Z.eqb_spec i p) as [->|]; [by apply Hf|done].
Qed.

Lemma zombie_wake K F s Q c p ch : sinv K F none s Q → valid_proc p → zombie s c p → zombie (sched_wake_chan s c ch) c p.
Proof.
  intros I Hp Hz. unfold sched_wake_chan. cbv zeta.
  assert (Hw : zombie (walk_queues (wake_waiter ch) s) c p).
  { refine (proj2 (walk_queues_inv (λ s, sinv K F none s Q ∧ zombie s c p) _ Q _ _ s (conj I Hz))); [by intros ? [[] _]|].
    intros x s' Hl [I' Hz']. split; [by apply wake_waiter_inv|]. unfold wake_waiter, waiting_on. case_if; [|done]. bools.
    apply zombie_upd; [done|done|by eapply linked_valid; [apply I'|]|]. intros ->. apply is_state_true in H.
    rewrite (zo_dead _ _ _ Hz') in H. done. }
  case_if; [|done]. destruct Hw as [W1 W2 [W3 W4]]. split; [done|done|]. split; [by apply valid_upd_cpu|].
  rewrite cpu_upd; [|done|apply W3]. by rewrite Z.eqb_refl.
Qed.

Lemma zombie_signal s c p pid_ sig : zombie s c p → valid_proc p → zombie (proc_send_signal (λ s _, s) s pid_ sig).2 c p.
Proof.
  intros Hz Hp. unfold proc_send_signal. case_if; [done|]. pose proof (proc_by_pid_spec s pid_) as Hq.
  set (q := proc_by_pid s pid_) in *. destruct Hq as [->|(Hq & _ & _)]; [done|].
  repeat (case_if; [done|]). case_if; [case_if; done|]. case_if; [done|]. apply zombie_upd; [done|done|done|].
  intros ->. apply Hz.
Qed.

Lemma zombie_release K F s Q c p mapped :
  sinv K F none s Q → valid_proc p → zombie s c p → zombie (proc_exit_release s c p mapped).2 c p.
Proof.
  intros I Hp Hz. unfold proc_exit_release. cbv zeta.
  destruct (if _ && _ && mapped then _ else _) as [e1 s1] eqn:E1.
  assert (Hz1 : zombie s1 c p) by (destruct (_ && _ && mapped); injection E1 as <- <-; [by eapply zombie_wake|done]).
  set (s2 := if negb (parent_pid (proc s p) =? 0) then _ else s1).
  assert (Hz2 : zombie s2 c p) by (unfold s2; case_if; [by apply zombie_signal|done]). clearbody s2.
  destruct (if negb (pml4_virt (proc s2 p) =? 0) then _ else _) as [e2 s3] eqn:E2.
  assert (Hz3 : zombie s3 c p).
  { destruct (negb (pml4_virt (proc s2 p) =? 0)); injection E2 as <- <-; [|done]. apply zombie_upd; [done..|]. intros _. apply Hz2. }
  destruct (if _ && negb (p =? proc_current s3 c) then _ else _) as [e3 s4] eqn:E3. cbn [snd].
  destruct (_ && negb (p =? proc_current s3 c)); injection E3 as <- <-; [|done]. apply zombie_upd; [done..|]. intros _. apply Hz3.
Qed.

(** A whole [proc_exit] is a sequence of scheduler steps, once its first critical
    section is one. *)
Lemma exit_steps s P P' E F c p mapped :
  winv (mkWorld s P E F) → active s c → valid_proc p →
  (∀ ok s', proc_exit_claim s p = (ok, s') → sstep (mkWorld s P E F) EvOther (mkWorld s' P' (if ok then p :: E else E) F)) →
  rtc ostep (mkWorld s P E F) (mkWorld (proc_exit s c p mapped).2 P' E F) ∧ active (proc_exit s c p mapped).2 c.
Proof.
  intros Hw Ha Hp Hcl. unfold proc_exit. rewrite (proj2 (Z.eqb_neq p NULLP)) by (unfold valid_proc, NULLP in *; lia).
  destruct (proc_exit_claim s p) as [ok s1] eqn:E1. pose proof (other_step _ _ (Hcl ok s1 eq_refl)) as Hst1.
  pose proof (ostep_inv _ _ Hst1 Hw) as Hw1. unfold proc_exit_claim in E1.
  destruct (negb (exiting (proc s p) =? 0)); injection E1 as <- <-; [by split; [apply rtc_once|]|].
  cbn [negb] in *. set (s1 := upd s p _) in *. pose proof Hw1 as (_ & _ & Q1 & I1). cbn [w_sched w_pend w_fresh] in I1.
  assert (Hz1 : zombie s1 c p).
  { destruct Hw as (_ & _ & Q & I). pose proof (r_len _ _ (i_rep _ _ _ _ _ I)) as Hl. cbn in Hl. split; [unfold s1, upd; cbn; by rewrite zlen_aset| |done].
    unfold s1. rewrite proc_upd by (unfold valid_proc in *; lia). by rewrite Z.eqb_refl. }
  pose proof (zombie_release _ _ s1 Q1 c p mapped I1 Hp Hz1) as Hz2.
  pose proof (other_step _ _ (StExitRelease s1 P' (p :: E) F c p mapped (proj1 (zo_active _ _ _ Hz1)) ltac:(left))) as Hst2.
  destruct (proc_exit_release s1 c p mapped) as [eff s2]. cbn [snd] in *.
  pose proof (other_step _ _ (StExitUnlink s2 P' [] p E F)) as Hst3.
  pose proof (ostep_inv _ _ Hst2 Hw1) as (_ & _ & Q2 & I2).
  split; [by eapply rtc_l; [eassumption|]; eapply rtc_l; [eassumption|]; apply rtc_once|].
  destruct (exit_unlink_inv _ _ s2 Q2 p I2 Hp (zo_dead _ _ _ Hz2)) as (_ & _ & Ec & _). destruct (zo_active _ _ _ Hz2).
  unfold active, valid_cpu, cpu in *. by rewrite Ec.
Qed.

Lemma exit_self_steps s P E F c mapped :
  winv (mkWorld s P E F) → active s c → pid (proc s (cur s c)) ≠ 0 →
  rtc ostep (mkWorld s P E F) (mkWorld (proc_exit s c (cur s c) mapped).2 P E F) ∧ active (proc_exit s c (cur s c) mapped).2 c.
Proof.
  intros Hw Ha Hpid. apply exit_steps; [done|done| |by intros; apply StExitSelf; [apply Ha|..]].
  destruct Hw as (_ & _ & Q & I). apply (i_cur _ _ _ _ _ I c (proj1 Ha)).
Qed.

Lemma yield_steps s P E F c rf mapped :
  winv (mkWorld s P E F) → active s c →
  rtc ostep (mkWorld s P E F) (mkWorld (sched_yield s c rf mapped).2 P E F).
Proof.
  intros Hw Ha. unfold sched_yield. cbv zeta. fold (cur s c). destruct (negb _ && _ && negb _) eqn:H.
  - bools. destruct (exit_self_steps s P E F c mapped) as (Hr & Ha'); [done..|].
    destruct (proc_exit s c (cur s c) mapped) as [eff s1]. cbn [snd] in *.
    destruct (sched_yield_locked s1 c rf) as [out s2] eqn:Ey. eapply rtc_r; [exact Hr|].
    pose proof (other_step _ _ (StYield s1 P E F c rf Ha')) as Hst. by rewrite Ey in Hst.
  - pose proof (other_step _ _ (StYield s P E F c rf Ha)) as Hst. destruct (sched_yield_locked s c rf) as [out s2]. by apply rtc_once.
Qed.

(** A whole [proc_kill] is a sequence of scheduler steps. *)
Lemma kill_steps s P E F c pid_ rf mapped :
  winv (mkWorld s P E F) → active s c →
  rtc ostep (mkWorld s P E F) (mkWorld (proc_kill s c pid_ rf mapped).2 P E F).
Proof.
  intros Hw Ha. unfold proc_kill. cbv zeta. destruct (proc_kill_find_spec s pid_) as [->|[Hp Hpid]]; [done|].
  set (p := proc_kill_find s pid_) in *. clearbody p. rewrite (proj2 (Z.eqb_neq p NULLP)) by (unfold valid_proc, NULLP in *; lia).
  destruct (proc_kill_locked s c p) as [out s1] eqn:Ek.
  pose proof (other_step _ _ (StKill s P E F c p out s1 (proj1 Ha) Hp Hpid Ek)) as Hst. pose proof (ostep_inv _ _ Hst Hw) as Hw1.
  destruct Hw as (_ & _ & Q & I). pose proof (kill_inv _ _ s Q c p I (proj1 Ha) Hp Hpid) as Hk. rewrite Ek in Hk. destruct Hk as (Q1 & Ec & Hk).
  assert (Ha1 : active s1 c) by (unfold active, valid_cpu, cpu in *; by rewrite Ec).
  destruct out as [|p'|p']; cbn [snd].
  - by apply rtc_once.
  - destruct Hk as [-> _]. destruct (exit_steps s1 (p :: P) P E F c p mapped Hw1 Ha1 Hp) as (Hr & _); [by intros; apply (StExitKilled s1 [] p P)|].
    destruct (proc_exit s1 c p mapped) as [eff s2]. by eapply rtc_l.
  - destruct Hk as (-> & -> & -> & _). destruct (exit_self_steps s P E F c mapped Hw1 Ha1 Hpid) as (Hr1 & Ha2).
    destruct (proc_exit s c (cur s c) mapped) as [eff s2]. cbn [snd] in *.
    assert (Hw2 : winv (mkWorld s2 P E F)) by (exact (rtc_invariant ostep winv _ _ (λ w w' Hw Hs, ostep_inv w w' Hs Hw) Hr1 Hw1)).
    pose proof (yield_steps s2 P E F c rf mapped Hw2 Ha2) as Hr2.
    destruct (sched_yield s2 c rf mapped) as [[eff' out] s3]. cbn [snd] in *. by etransitivity.
Qed.

(** ** Writes are safe *)

Lemma put_bytes_ok k s : msgbuf_ok (msgs k) → msgbuf_ok (msgs (put_bytes k s)).
Proof.
  unfold put_bytes. revert k. induction s as [|c s IH]; intros k Hk; [done|]. cbn [foldl]. apply IH. by apply putc_step.
Qed.

Lemma parse_prio_range val k : parse_prio val = Some k → 0 ≤ k ≤ PRIO_LOW.
Proof.
  unfold parse_prio. do 3 (case_if; [by intros [= <-]|]). cbv zeta. case_if; [done|]. intros [= <-]. bools.
  pose proof (u8_range (parse_u64 val).1). unfold PRIO_LOW in *. split; [lia|].
  destruct (Z.le_gt_cases 0 (parse_u64 val).1); [rewrite u8_small; lia|].
  exfalso. revert H0. unfold parse_u64. assert (G : ∀ s v any, 0 ≤ v → 0 ≤ (parse_loop s v any).1); [|specialize (G val 0 false); lia].
  induction s as [|c s IH]; intros v any Hv; cbn [parse_loop]; [by destruct any|]. case_if; [|by destruct any]. apply IH, u64_range.
Qed.

Lemma apply_write_safe e rf mapped path val P E F eff e' :
  winv (mkWorld (se_sched e) P E F) → active (se_sched e) (se_cpu e) → pointer_ok (se_input e) → msgbuf_ok (msgs (se_console e)) →
  apply_write e rf mapped path val = Some (eff, e') →
  rtc ostep (mkWorld (se_sched e) P E F) (mkWorld (se_sched e') P E F) ∧ pointer_ok (se_input e') ∧ msgbuf_ok (msgs (se_console e')).
Proof.
  intros Hw Ha Hp Hm. assert (H0 : rtc ostep (mkWorld (se_sched e) P E F) (mkWorld (se_sched e) P E F)) by done.
  unfold apply_write. case_if; [intros [= <- <-]; split_and!; [done|done|by apply put_bytes_ok]|].
  case_if.
  { destruct (parse_u64 val) as [x end_]. case_if; [done|]. cbv zeta. case_if; [done|]. intros [= <- <-]. split_and!; [done| |done].
    by apply (mouse_stays_on_screen (mkMouse 0 [] 3) (se_input e) []). }
  destruct (after_proc path) as [rest|]; [|done]. destruct (parse_u64 rest) as [v end_]. destruct end_ as [|c leaf]; [done|].
  case_if; [done|]. cbv zeta. case_if; [done|]. case_if.
  { pose proof (kill_steps _ P E F _ v rf mapped Hw Ha) as Hk. destruct (proc_kill _ _ v rf mapped) as [[eff0 out] s]. intros [= <- <-]. done. }
  case_if; [|done]. destruct (parse_prio val) as [k|] eqn:Ek; [|done]. intros [= <- <-]. split_and!; [|done|done].
  apply rtc_once, other_step, StPriority; [|by eapply parse_prio_range].
  destruct (proc_by_pid_spec (se_sched e) v) as [?|[? _]]; [by left|by right].
Qed.

(** C36: Writes to /sys are safe.  Whatever bytes a process writes to whatever
    descriptor, the call either is rejected and changes nothing, or accepts all
    the bytes and the scheduler makes only steps of its own transition system (so
    every invariant of the scheduler survives, a kill included), the pointer stays
    on the screen and the message buffer well formed. *)
Theorem sysfs_write_safe e m rf mapped t fd buf count P E F :
  winv (mkWorld (se_sched e) P E F) → active (se_sched e) (se_cpu e) → pointer_ok (se_input e) → msgbuf_ok (msgs (se_console e)) →
  0 ≤ count < 2 ^ 31 →
  let '(r, eff, e') := sysfs_write e m rf mapped t fd buf count in
  rtc ostep (mkWorld (se_sched e) P E F) (mkWorld (se_sched e') P E F) ∧
  pointer_ok (se_input e') ∧ msgbuf_ok (msgs (se_console e')) ∧ (r = count ∨ r = -1 ∧ eff = [] ∧ e' = e).
Proof.
  intros Hw Ha Hp Hm Hc. assert (H0 : rtc ostep (mkWorld (se_sched e) P E F) (mkWorld (se_sched e) P E F)) by done.
  unfold sysfs_write. case_if; [split_and!; auto|]. cbv zeta. case_if; [split_and!; auto|].
  destruct (apply_write _ _ _ _ _) as [[eff e']|] eqn:Ea; [|split_and!; auto].
  destruct (apply_write_safe _ _ _ _ _ P E F _ _ Hw Ha Hp Hm Ea) as (? & ? & ?). split_and!; [done|done|done|].
  left. apply s32_small. lia.
Qed.

(** ** Numbers in paths *)

Definition dec (v : Z) : list Z := reverse (sb_tmp v 10).

Lemma parse_digits fuel v rest :
  0 < v < 10 ^ Z.of_nat fuel → v < 2 ^ 64 →
  parse_loop (reverse (sb_digits fuel v 10) ++ rest) 0 false = parse_loop rest v true.
Proof.
  revert v rest. induction fuel as [|fuel IH]; intros v rest Hv H64; [cbn in Hv; lia|]. cbn [sb_digits].
  rewrite Nat2Z.inj_succ, Z.pow_succ_r in Hv by lia. pose proof (Z.mod_pos_bound v 10 ltac:(lia)). pose proof (Z.div_mod v 10 ltac:(lia)).
  rewrite (proj2 (Z.eqb_neq v 0)), (proj2 (Z.ltb_lt (v mod 10) 10)) by lia. rewrite reverse_cons, <- app_assoc. cbn [app].
  assert (Hd : ∀ acc any, acc = v / 10 → parse_loop ((48 + v mod 10) :: rest) acc any = parse_loop rest v true).
  { intros acc any ->. cbn [parse_loop]. rewrite (proj2 (Z.leb_le 48 _)), (proj2 (Z.leb_le (48 + v mod 10) 57)) by lia. cbn [andb].
    f_equal. rewrite (u64_small (v / 10 * 10)) by lia. rewrite u64_small; lia. }
  destruct (decide (v / 10 = 0)) as [E|E].
  - rewrite E. replace (sb_digits fuel 0 10) with (@nil Z) by (by destruct fuel). cbn [reverse rev_append app]. by apply Hd.
  - rewrite IH; [by apply Hd| |lia]. split; [lia|]. apply Z.div_lt_upper_bound; lia.
Qed.

Definition ends_number (rest : list Z) : Prop := match rest with [] => True | c :: _ => ¬ (48 ≤ c ≤ 57) end.

(** A printed number is read back. *)
Lemma parse_dec v rest : 0 ≤ v < 2 ^ 64 → ends_number rest → parse_u64 (dec v ++ rest) = (v, rest).
Proof.
  intros Hv Hr. assert (Hend : parse_loop rest v true = (v, rest)).
  { destruct rest as [|c rest]; [done|]. cbn in *. case_if; [|done]. bools. lia. }
  unfold parse_u64, dec, sb_tmp. destruct (Z.eqb_spec v 0) as [->|]; [exact Hend|].
  rewrite parse_digits; [done| |lia]. split; [lia|]. eapply Z.lt_trans; [apply Hv|reflexivity].
Qed.

Lemma digits_Forall fuel v : 0 ≤ v → Forall (λ c, 48 ≤ c ≤ 57) (sb_digits fuel v 10).
Proof.
  revert v. induction fuel as [|fuel IH]; intros v Hv; cbn [sb_digits]; [done|]. case_if; [done|].
  pose proof (Z.mod_pos_bound v 10 ltac:(lia)). rewrite (proj2 (Z.ltb_lt (v mod 10) 10)) by lia. constructor; [lia|]. apply IH, Z.div_pos; lia.
Qed.

Lemma dec_head v : 0 ≤ v → ∃ c r, dec v = c :: r ∧ 48 ≤ c ≤ 57.
Proof.
  intros Hv. assert (H : Forall (λ c, 48 ≤ c ≤ 57) (dec v)).
  { apply Forall_reverse. unfold sb_tmp. case_if; [by repeat constructor|]. by apply digits_Forall. }
  destruct (dec v) as [|c r] eqn:E; [|apply Forall_cons in H as [? _]; by exists c, r].
  unfold dec, sb_tmp in E. destruct (Z.eqb_spec v 0); [done|]. apply (f_equal length) in E. rewrite length_reverse in E.
  cbn [Z.eqb Pos.eqb sb_digits] in E. by rewrite (proj2 (Z.eqb_neq v 0)) in E.
Qed.

Lemma dec_length v : (length (dec v) ≤ 24)%nat.
Proof.
  unfold dec, sb_tmp. rewrite length_reverse. case_if; [cbn; lia|]. cbn [Z.eqb Pos.eqb].
  generalize 24%nat. intros n. revert v Heqb. induction n as [|n IH]; intros v _; [done|]. cbn [sb_digits]. case_if; [cbn; lia|].
  cbn [length]. apply le_n_S. destruct (Z.eqb_spec (v / 10) 0) as [E|E]; [rewrite E; destruct n; cbn; lia|]. by apply IH, Z.eqb_neq.
Qed.

Definition proc_path (v : Z) (rest : list Z) : list Z := bytes_of "/sys/proc/" ++ dec v ++ rest.

(** How [sysfs] reads the path of a process. *)
Lemma proc_path_after v rest : 0 ≤ v → after_proc (proc_path v rest) = Some (dec v ++ rest).
Proof. intros Hv. unfold proc_path. destruct (dec_head v Hv) as (c & r & -> & _). done. Qed.

Lemma proc_path_not v rest lit : 0 ≤ v →
  lit ∈ ["/sys"; "/sys/"; "/sys/kernel"; "/sys/cpu"; "/sys/mem"; "/sys/input"; "/sys/display"; "/sys/proc"; "/sys/kernel/info";
         "/sys/kernel/log"; "/sys/cpu/info"; "/sys/mem/info"; "/sys/input/mouse"; "/sys/display/info"; "/sys/kernel/uptime"; "/sys/proc/self"]%string →
  path_is (proc_path v rest) lit = false.
Proof.
  intros Hv Hin. unfold path_is, proc_path. destruct (dec_head v Hv) as (c & r & -> & Hc).
  repeat (apply elem_of_cons in Hin as [->|Hin]; [try reflexivity|]); [|by apply elem_of_nil in Hin].
  change (bytes_of "/sys/proc/") with [47; 115; 121; 115; 47; 112; 114; 111; 99; 47].
  change (bytes_of "/sys/proc/self") with [47; 115; 121; 115; 47; 112; 114; 111; 99; 47; 115; 101; 108; 102].
  cbn [app str_eq Z.eqb Pos.eqb andb]. by rewrite (proj2 (Z.eqb_neq c 115)) by lia.
Qed.

Lemma dir_for_proc e v rest : 0 ≤ v < MINUS1 → ends_number rest →
  dir_for e (proc_path v rest) =
    if bool_decide (rest = []) && negb (proc_by_pid (se_sched e) v =? NULLP) then Some dir_procent else None.
Proof.
  intros Hv Hr. unfold MINUS1 in Hv. unfold dir_for. rewrite !proc_path_not by (lia || set_solver). cbn [orb].
  rewrite proc_path_after, parse_dec by (done || lia). rewrite (proj2 (Z.eqb_neq v MINUS1)) by (unfold MINUS1; lia). done.
Qed.

(** ** Priorities written and read back *)

(** [proc_set_priority] changes the priority of [p], and queue links. *)
Lemma set_priority_view {A} (f : proc_t → A) K F s Q p k i :
  sinv K F none s Q → valid_proc p → 0 ≤ k < SCHED_NPRIO → valid_proc i → (∀ x v, f (set_next x v) = f x) →
  f (proc (proc_set_priority s p k) i) = f (if p =? i then set_priority (proc s p) k else proc s i).
Proof.
  intros I Hp Hk Hi Hf. unfold proc_set_priority.
  rewrite (proj2 (Z.eqb_neq p NULLP)), (proj2 (Z.leb_gt SCHED_NPRIO k)) by (unfold valid_proc, NULLP in *; lia). cbn [orb]. cbv zeta.
  pose proof (i_rep _ _ _ _ _ I) as Hr. set (g := λ x, set_priority x k).
  assert (Hupd : ∀ s1, same_but_next s s1 → zlen (procs s1) = SCHED_MAX_PROCS →
    f (proc (upd s1 p g) i) = f (if p =? i then set_priority (proc s p) k else proc s i)).
  { intros s1 Hs1 Hl. unfold valid_proc in *. rewrite proc_upd by (rewrite ?Hl; lia). destruct (Z.eqb_spec p i) as [->|].
    - apply (same_field (λ x, f (set_priority x k)) s s1 i Hs1); [lia|]. intros x v. apply (Hf (set_priority x k)).
    - apply (same_field f s s1 i Hs1); [lia|done]. }
  assert (Henq : ∀ s1 Q1, rep s1 Q1 → same_but_next s s1 → (∀ r, 0 ≤ r < SCHED_NPRIO → p ∈ Q1 r → r = queue_of (g (proc s1 p))) →
    f (proc (ready_enqueue (upd s1 p g) p) i) = f (if p =? i then set_priority (proc s p) k else proc s i)).
  { intros s1 Q1 Hr1 Hs1 Hq. assert (E : proc (upd s1 p g) p = g (proc s1 p)) by (by eapply proc_upd_eq).
    destruct (ready_enqueue_rep (upd s1 p g) Q1 p) as [_ Hs2]; [by apply rep_upd|done|by rewrite E|].
    rewrite (same_field f _ _ i Hs2); [|unfold valid_proc in Hi; lia|done]. apply Hupd; [done|apply (r_len _ _ Hr1)]. }
  destruct (is_state (state (proc s p)) PROC_READY || is_state (state (proc s p)) PROC_BLOCKED) eqn:E1; cbn [andb].
  - destruct (ready_dequeue_rep s Q p Hr) as [Hr1 Hs1].
    assert (Hd : state (proc s p) ≠ PROC_DEAD) by (intros Hd; rewrite Hd in E1; done).
    case_if; bools.
    + apply (Henq _ _ Hr1 Hs1). intros r Hr0 Hin. exfalso. assert (Hl : linked (without Q p) p) by (by exists r).
      apply without_linked in Hl. tauto.
    + apply (Henq s Q Hr); [done|]. intros r Hr0 Hin. rewrite (i_prio _ _ _ _ _ I p r Hr0 Hin Hd).
      unfold queue_of, g. cbn [priority set_priority]. by rewrite <- Heqb.
  - by apply Hupd; [|apply Hr].
Qed.

Lemma set_priority_by_pid K F s Q p k v :
  sinv K F none s Q → valid_proc p → 0 ≤ k < SCHED_NPRIO → proc_by_pid (proc_set_priority s p k) v = proc_by_pid s v.
Proof.
  intros I Hp Hk. unfold proc_by_pid. f_equal. apply find_up_ext. intros i Hi.
  assert (Hv : valid_proc i) by (unfold valid_proc, SCHED_MAX_PROCS in *; lia).
  rewrite (set_priority_view tgid K F s Q p k i), (set_priority_view state K F s Q p k i), (set_priority_view reaped K F s Q p k i) by done.
  by destruct (Z.eqb_spec p i) as [->|].
Qed.

Lemma open_entry e t path fd t' :
  table_ok t → msgbuf_ok (msgs (se_console e)) → sysfs_open e t path = (fd, t') → 0 ≤ fd →
  let f := t'.[fd - SYSFS_FD_BASE] in
  sf_path f = take (Z.to_nat (SYSFS_PATH_MAX - 1)) path ∧ sf_is_dir f = bool_decide (is_Some (dir_for e path)).
Proof.
  intros Ht Hm Ho Hfd. unfold sysfs_open in Ho. destruct (negb (sysfs_owns path)); [injection Ho; lia|]. cbv zeta in Ho.
  destruct (open_claim t path _ _) as [[slot t1]|] eqn:Hc; [|injection Ho; lia].
  pose proof (claim_ok _ _ _ _ _ _ Ht Hc) as Ht1. destruct (claim_inv _ _ _ _ _ _ Hc) as (Hs & _ & E1).
  pose proof (fill_spec e t1 slot path (dir_for e path) Hm Ht1 Hs) as Hf.
  destruct (sb_out <$> _) as [txt|]; [|rewrite Hf in Ho; injection Ho; lia].
  destruct Hf as (d & Hd & _). rewrite Hd in Ho. injection Ho as <- <-. cbv zeta.
  replace (SYSFS_FD_BASE + slot - SYSFS_FD_BASE) with slot by lia. rewrite aget_aset_eq by (by rewrite (to_len _ Ht1)). cbn.
  by rewrite E1, aget_aset_eq by (by rewrite (to_len _ Ht)).
Qed.

Lemma cstring_bytes m a l : bytes_at m a l → Forall (λ c, c ≠ 0) l → cstring (length l) m a = l.
Proof.
  revert a. induction l as [|c l IH]; intros a Hb Hn; [done|]. apply Forall_cons in Hn as [Hc Hn].
  apply bytes_at_cons in Hb as [E Hb]. cbn. rewrite E, (proj2 (Z.eqb_neq c 0) Hc). by rewrite IH.
Qed.

Definition prio_text (k : Z) : list Z := prio_name k ++ [LF].
Lemma prio_cases k : 0 ≤ k < SCHED_NPRIO → k = 0 ∨ k = 1 ∨ k = 2.
Proof. unfold SCHED_NPRIO. lia. Qed.
Lemma prio_text_val k : 0 ≤ k < SCHED_NPRIO →
  Forall (λ c, c ≠ 0) (prio_text k) ∧ parse_prio (trim (prio_text k)) = Some k ∧ 0 < zlen (prio_text k) < 255.
Proof. intros [->|[->| ->]]%prio_cases; (split; [apply (bool_decide_unpack _); by vm_compute|by vm_compute]). Qed.

Lemma ends_prio : ends_number (bytes_of "/prio").
Proof. change (¬ (48 ≤ 47 ≤ 57)). lia. Qed.

Lemma render_prio e v p s : 0 ≤ v < MINUS1 → proc_by_pid (se_sched e) v = p → p ≠ NULLP →
  render_file e (proc_path v (bytes_of "/prio")) s = Some (sb_putc (sb_text s (prio_name (priority (proc (se_sched e) p)))) LF).
Proof.
  intros Hv Hp Hn. unfold MINUS1 in Hv. unfold render_file. rewrite !proc_path_not by (lia || set_solver).
  rewrite proc_path_after, parse_dec by (lia || apply ends_prio). rewrite (proj2 (Z.eqb_neq v MINUS1)) by (unfold MINUS1; lia).
  change (bytes_of "/prio") with (47 :: bytes_of "prio"). cbn [negb Z.eqb Pos.eqb]. cbv zeta. rewrite Hp, (proj2 (Z.eqb_neq p NULLP) Hn). done.
Qed.

(** Tuning a priority through /sys.  Writing a priority name and a newline to
    a descriptor that was opened on /sys/proc/<pid>/prio at any earlier time sets
    the priority of that process, and whoever opens the file afterwards reads the
    same line. *)
Theorem sysfs_prio_roundtrip e0 e m t0 t fd buf v k rf mapped P E F :
  winv (mkWorld (se_sched e) P E F) → table_ok t0 → msgbuf_ok (msgs (se_console e0)) →
  0 ≤ v < MINUS1 → proc_by_pid (se_sched e) v ≠ NULLP → 0 ≤ k < SCHED_NPRIO →
  sysfs_open e0 t0 (proc_path v (bytes_of "/prio")) = (fd, t) → 0 ≤ fd →
  buf ≠ 0 → bytes_at m buf (prio_text k) →
  let s' := proc_set_priority (se_sched e) (proc_by_pid (se_sched e) v) k in
  sysfs_write e m rf mapped t fd buf (zlen (prio_text k)) = (zlen (prio_text k), [], with_sched e s') ∧
  priority (proc s' (proc_by_pid s' v)) = k ∧
  snapshot (with_sched e s') (proc_path v (bytes_of "/prio")) = Some (prio_text k).
Proof.
  intros (_ & _ & Q & I) Ht Hm Hv Hp Hk Ho Hfd Hb Hmem s'. cbn [w_sched w_pend w_fresh] in I.
  destruct (prio_text_val k Hk) as (Hnz & Hpr & Hlen). assert (Hpath : (length (proc_path v (bytes_of "/prio")) < 127)%nat).
  { unfold proc_path. rewrite !length_app. pose proof (dec_length v). cbn. lia. }
  destruct (open_entry e0 t0 _ fd t Ht Hm Ho Hfd) as [Ep Ed]. rewrite take_ge in Ep by (unfold SYSFS_PATH_MAX; lia).
  rewrite dir_for_proc in Ed by (done || apply ends_prio). cbn [bool_decide] in Ed.
  destruct (open_spec e0 t0 _ fd t Ht Hm Ho Hfd) as (txt & _ & _ & Hw & Hh & _).
  set (p := proc_by_pid (se_sched e) v) in *. assert (Hvp : valid_proc p) by (destruct (proc_by_pid_spec (se_sched e) v) as [?|[? _]]; done).
  assert (Hby : proc_by_pid s' v = p) by (exact (set_priority_by_pid _ _ (se_sched e) Q p k v I Hvp Hk)).
  assert (Hpri : priority (proc s' p) = k).
  { etransitivity; [exact (set_priority_view priority _ _ (se_sched e) Q p k p I Hvp Hk Hvp (λ _ _, eq_refl))|]. by rewrite Z.eqb_refl. }
  assert (Es : s' = proc_set_priority (se_sched e) p k) by done. clearbody s'.
  split; [|split; [by rewrite Hby|]].
  - unfold sysfs_write. rewrite Hw, (proj2 (Z.eqb_neq buf 0) Hb). cbn [negb orb]. cbv zeta. rewrite (ho_used _ _ _ _ Hh), Ed, Ep. cbn [negb orb].
    rewrite (proj2 (Z.ltb_lt _ 255)) by lia. replace (Z.to_nat (zlen (prio_text k))) with (length (prio_text k)) by (unfold zlen; lia).
    rewrite (cstring_bytes m buf _ Hmem Hnz). unfold apply_write. rewrite !proc_path_not by (lia || set_solver).
    rewrite proc_path_after, parse_dec by (apply ends_prio || (unfold MINUS1 in *; lia)).
    change (bytes_of "/prio") with (47 :: bytes_of "prio"). cbv beta iota. rewrite (proj2 (Z.eqb_neq v MINUS1)) by lia. cbn [orb negb Z.eqb Pos.eqb].
    cbv zeta. fold p. rewrite (proj2 (Z.eqb_neq p NULLP) Hp). change (path_is (bytes_of "prio") "kill") with false.
    change (path_is (bytes_of "prio") "prio") with true. cbv iota. rewrite Hpr. cbn [mbind option_bind]. rewrite s32_small by lia. by rewrite Es.
  - unfold snapshot. rewrite dir_for_proc by (done || apply ends_prio). cbn [bool_decide]. change (bool_decide (bytes_of "/prio" = [])) with false. cbn [andb render_node].
    rewrite (render_prio _ v p) by done. cbn [fmap option_fmap option_map se_sched with_sched]. rewrite Hpri. f_equal.
    destruct (prio_cases k Hk) as [->|[->| ->]]; by vm_compute.
Qed.

(** ** Listing processes *)

(** Every name [sysfs_readdir] lists under /sys/proc is the number of a live
    process, and the directory of that name can be opened when the process is the
    leader of its thread group. *)
Lemma readdir_lists_live e t fd entries max l d :
  (∀ i, valid_proc i → 0 ≤ pid (proc (se_sched e) i) < MINUS1) →
  sf_path (t.[fd - SYSFS_FD_BASE]) = bytes_of "/sys/proc" → sysfs_readdir e t fd entries max = Some l → d ∈ l →
  ∃ i, valid_proc i ∧ hidden (proc (se_sched e) i) = false ∧ de_name d = dec (pid (proc (se_sched e) i)) ∧
    (tgid (proc (se_sched e) i) = pid (proc (se_sched e) i) → dir_for e (proc_path (pid (proc (se_sched e) i)) []) = Some dir_procent).
Proof.
  intros Hpid Hpath. unfold sysfs_readdir. case_if; [done|]. cbv zeta. case_if; [done|]. rewrite Hpath.
  change (path_is (bytes_of "/sys/proc") "/sys/proc") with true. cbv iota. intros [= <-]. revert d.
  apply (iter_up_ind (λ _ out, ∀ d, d ∈ out → _)); [by intros d Hd%elem_of_nil|]. intros i out Hi IH d.
  assert (Hv : valid_proc i) by (unfold valid_proc, SCHED_MAX_PROCS in *; lia). cbv zeta.
  assert (Es : sched_proc_slot i = i).
  { unfold sched_proc_slot. rewrite (proj2 (Z.ltb_ge i 0)), (proj2 (Z.leb_gt SCHED_MAX_PROCS i)) by (apply Hv || unfold valid_proc in Hv; lia). done. }
  rewrite Es. case_if; [apply IH|]. bools. intros [Hd|Hd]%elem_of_app; [by apply IH|]. apply list_elem_of_singleton in Hd as ->.
  exists i. split; [done|]. split; [done|]. split.
  { cbn [de_name fill_dirent]. apply take_ge. pose proof (dec_length (pid (proc (se_sched e) i))) as Hl. unfold dec, XFS_NAME_MAX in *. lia. }
  intros Ht. rewrite dir_for_proc by (done || by apply Hpid). cbn [andb bool_decide].
  assert (Hn : proc_by_pid (se_sched e) (pid (proc (se_sched e) i)) ≠ NULLP).
  { unfold proc_by_pid. destruct (find_up _ _ _) as [j|] eqn:Hf; cbn; [apply find_up_Some in Hf as (? & _); unfold NULLP; lia|].
    exfalso. rewrite find_up_None in Hf. specialize (Hf i Hi). cbn beta in Hf. rewrite Ht, Z.eqb_refl in Hf. cbn [andb] in Hf.
    unfold hidden in H0. apply orb_false_iff in H0 as [H0 _]. rewrite <- negb_andb, H0 in Hf. done. }
  rewrite (proj2 (Z.eqb_neq _ _) Hn). done.
Qed.

(** ** A running system *)

Module SysfsDemo.

Definition cpu0 : cpu_info :=
  mkCpuInfo (bytes_of "GenuineIntel") [] 6 158 10 7 true true false false true false true true true false false true true true true true.
Definition env0 : sysenv :=
  mkEnv 1 Demo.s_run (input_init bss_input 1280 800)
        (mkConsole [] (msgbuf_init (mkMsgbuf (replicate (Z.to_nat MSGBUF_SIZE) 0) 0 0 false)))
        (mkPmm [] 1024 100 0 None 0) (mkHeap (λ _, 0) 0 0 65536 128) (bytes_of "-v") cpu0 2400000000 true None.
Definition prio_path : list Z := proc_path 2 (bytes_of "/prio").
Definition text_mem (l : list Z) : mem := λ a, l.[a - 100].

Lemma env0_winv : winv (mkWorld (se_sched env0) [] [] []).
Proof. exact (reachable_winv _ _ Demo.boot_booted Demo.run_path). Qed.
Lemma env0_active : active (se_sched env0) (se_cpu env0).
Proof. split; [unfold valid_cpu; cbn [se_sched env0 se_cpu]; rewrite (proj2 Demo.s_run_cpus); lia|by vm_compute]. Qed.
Lemma env0_pointer : pointer_ok (se_input env0).
Proof. constructor; vm_compute; split; congruence. Qed.
Lemma env0_log : msgbuf_ok (msgs (se_console env0)).
Proof. exact bss_ok. Qed.

(** Opening the priority file; the table afterwards stays symbolic. *)
Lemma open_prio : (sysfs_open env0 bss_table prio_path).1 = 512.
Proof. by vm_compute. Qed.
Lemma open_prio_eq : sysfs_open env0 bss_table prio_path = (512, (sysfs_open env0 bss_table prio_path).2).
Proof. rewrite <- open_prio. apply surjective_pairing. Qed.
Definition t_prio : table := (sysfs_open env0 bss_table prio_path).2.
End SysfsDemo.

Import SysfsDemo.

Lemma sysfs_reads_snapshot_witness :
  delivered 512 t_prio [FRead 512 4096 3; FClaim (bytes_of "/sys/mem/info") false 7; FFill env0 1 (bytes_of "/sys/mem/info") None;
                        FRead 512 4096 2; FRead 513 4096 10; FClose 513; FRead 512 4096 100] = bytes_of "normal" ++ [LF].
Proof.
  destruct (sysfs_reads_snapshot env0 bss_table prio_path 512 t_prio
    [FRead 512 4096 3; FClaim (bytes_of "/sys/mem/info") false 7; FFill env0 1 (bytes_of "/sys/mem/info") None;
     FRead 512 4096 2; FRead 513 4096 10; FClose 513; FRead 512 4096 100]) as (txt & Hs & _ & ->).
  - exact bss_table_ok.
  - exact env0_log.
  - exact open_prio_eq.
  - lia.
  - repeat constructor; apply env0_log.
  - repeat constructor; cbn; unfold SYSFS_FD_BASE; lia.
  - vm_compute in Hs. injection Hs as <-. by vm_compute.
Defined.

Lemma sysfs_write_safe_witness :
  let '(r, eff, e') := sysfs_write env0 (text_mem (prio_text 2)) 0x200 true t_prio 512 100 4 in
  pointer_ok (se_input e') ∧ (r = 4 ∨ r = -1 ∧ eff = [] ∧ e' = env0).
Proof.
  pose proof (sysfs_write_safe env0 (text_mem (prio_text 2)) 0x200 true t_prio 512 100 4 [] [] []
    env0_winv env0_active env0_pointer env0_log ltac:(lia)) as H.
  destruct (sysfs_write _ _ _ _ _ _ _ _) as [[r eff] e']. by destruct H as (_ & ? & _ & ?).
Defined.

Lemma sysfs_prio_roundtrip_witness :
  snapshot (with_sched env0 (proc_set_priority Demo.s_run (proc_by_pid Demo.s_run 2) 2)) prio_path = Some (bytes_of "low" ++ [LF]).
Proof.
  refine (proj2 (proj2 (sysfs_prio_roundtrip env0 env0 (text_mem (prio_text 2)) bss_table t_prio 512 100 2 2 0x200 true [] [] []
    env0_winv bss_table_ok env0_log _ _ _ open_prio_eq _ _ _))).
  - unfold MINUS1. lia.
  - by vm_compute.
  - unfold SCHED_NPRIO. lia.
  - lia.
  - lia.
  - intros i x Hi. unfold text_mem, aget. apply list_lookup_total_correct. rewrite <- Hi. f_equal. lia.
Defined.

(** A thread (of the group of process 2) is listed under its own number, but its
    directory is not found: [sysfs_readdir] prints [pid], [proc_by_pid] searches
    [tgid]. *)
Definition thread_sched : sched :=
  let p := proc Demo.s_run 2 in
  upd Demo.s_run 3 (λ x, set_state (set_identity (fresh_proc x 3 0 0 0 0 0) p (parent_pid p) true (tgid p) 3) PROC_READY).
Theorem thread_listed_not_found :
  let e := with_sched env0 thread_sched in
  let '(fd, t) := sysfs_open e bss_table (bytes_of "/sys/proc") in
  de_name <$> default [] (sysfs_readdir e t fd 4096 16) = [bytes_of "2"; bytes_of "3"] ∧
  (sysfs_open e bss_table (bytes_of "/sys/proc/2")).1 = 512 ∧ (sysfs_open e bss_table (bytes_of "/sys/proc/3")).1 = -1.
Proof. by vm_compute. Qed.
