(* ===== verification/SysFile.v ===== *)
(** * The file system calls

    The file calls of [kernel/arch/x86_64/syscall.c]: they make paths absolute
    against the current directory and route each call to the on-disk file system,
    the pipes or /sys, by path or by the range of the descriptor.  A pointer
    argument to a string is the string, [None] for [NULL]. *)

From S2P Require Import Prelude Mem CString Block Pipe ProcTable Sched Xfs XfsSpec Path Klog Sysfs SysfsSpec.

#[local] Abbreviation length := List.length.

Definition ERR : Z := 18446744073709551615.   (* (uint64_t)-1 *)

(** Bytes of user memory as a list, a buffer as the file system sees it, and
    storing into user memory. *)
Definition user_bytes (m : mem) (a n : Z) : list Z := (λ i, m (a + i)) <$> seqZ 0 n.
Definition view (m : mem) (a : Z) : mem := λ i, m (a + i).
Definition unview (m : mem) (a n : Z) (b : mem) : mem := λ x, if (a <=? x) && (x <? a + n) then b (x - a) else m x.
Definition put_list (m : mem) (a : Z) (l : list Z) : mem := unview m a (zlen l) (λ i, l.[i]).

Section files.
Context {D : Type} `{!BlockDev D} (junk : mem).

(** [f_env] is the rest of the system as /sys sees it; [f_cwd] is [g_cwd]. *)
Record files := mkFiles {
  f_cwd : list Z;
  f_xfs : xfs D;
  f_pipes : pipes;
  f_sysfs : list sysfs_fd_t;
  f_env : sysenv;
}.
Definition with_cwd (f : files) (c : list Z) : files := mkFiles c (f_xfs f) (f_pipes f) (f_sysfs f) (f_env f).
Definition with_xfs (f : files) (x : xfs D) : files := mkFiles (f_cwd f) x (f_pipes f) (f_sysfs f) (f_env f).
Definition with_pipes (f : files) (g : pipes) : files := mkFiles (f_cwd f) (f_xfs f) g (f_sysfs f) (f_env f).
Definition with_sysfs (f : files) (t : list sysfs_fd_t) : files := mkFiles (f_cwd f) (f_xfs f) (f_pipes f) t (f_env f).
Definition with_env (f : files) (e : sysenv) : files := mkFiles (f_cwd f) (f_xfs f) (f_pipes f) (f_sysfs f) e.
Definition f_pid (f : files) : Z := caller_pid (f_env f).

(** The path argument made absolute. *)
Definition abs_of (f : files) (path : option (list Z)) : option (list Z) := p ← path; path_abs (f_cwd f) p XOS_PATH_MAX.

Definition sys_open (f : files) (path : option (list Z)) (flags : Z) : Z * files :=
  match abs_of f path with
  | None => (ERR, f)
  | Some abs =>
      if sysfs_owns abs then let '(r, t) := sysfs_open (f_env f) (f_sysfs f) abs in (u64 r, with_sysfs f t)
      else let '(r, x) := xfs_open junk (f_xfs f) abs (u32 flags) (f_pid f) in (u64 r, with_xfs f x)
  end.

(** A pipe call may still be waiting after [fuel] turns: no result. *)
Definition sys_read (fuel : nat) (yield : pipes → pipes) (f : files) (m : mem) (fd buf count : Z) : option Z * mem * files :=
  if buf =? 0 then (Some ERR, m, f)
  else if sysfs_owns_fd (s32 fd) then
    let '(r, l, t) := sysfs_read (f_sysfs f) (s32 fd) buf count in (Some (u64 r), put_list m buf l, with_sysfs f t)
  else if 64 <=? fd then
    match pipe_read fuel yield (f_pipes f) (s32 fd) true count with
    | (Some (r, l), g) => (Some (u64 r), put_list m buf l, with_pipes f g)
    | (None, g) => (None, m, with_pipes f g)
    end
  else
    let '(r, b, x) := xfs_read junk (f_xfs f) (s32 fd) (view m buf) count (f_pid f) in
    (Some (u64 r), unview m buf count b, with_xfs f x).

Definition sys_write (fuel : nat) (yield : pipes → pipes) (rflags : Z) (mapped : bool) (f : files) (m : mem) (fd buf count : Z) :
    option Z * list effect * files :=
  if buf =? 0 then (Some ERR, [], f)
  else if sysfs_owns_fd (s32 fd) then
    let '(r, eff, e) := sysfs_write (f_env f) m rflags mapped (f_sysfs f) (s32 fd) buf count in (Some (u64 r), eff, with_env f e)
  else if 64 <=? fd then
    let '(r, g) := pipe_write fuel yield (f_pipes f) (s32 fd) true (user_bytes m buf count) in (u64 <$> r, [], with_pipes f g)
  else
    let '(r, x) := xfs_write junk (f_xfs f) (s32 fd) (view m buf) count (f_pid f) in (Some (u64 r), [], with_xfs f x).

Definition sys_close (f : files) (fd : Z) : Z * files :=
  if sysfs_owns_fd (s32 fd) then (0, with_sysfs f (sysfs_close (f_sysfs f) (s32 fd)))
  else if 64 <=? fd then (0, with_pipes f (pipe_close (f_pipes f) (s32 fd)))
  else (0, with_xfs f (xfs_close (f_xfs f) (s32 fd))).

Definition sys_mkdir (f : files) (path : option (list Z)) : Z * files :=
  match abs_of f path with
  | None => (ERR, f)
  | Some abs => let '(r, x) := xfs_mkdir junk (f_xfs f) abs in (u64 r, with_xfs f x)
  end.

Definition sys_unlink (f : files) (path : option (list Z)) : Z * files :=
  match abs_of f path with
  | None => (ERR, f)
  | Some abs => let '(r, x) := xfs_unlink junk (f_xfs f) abs in (u64 r, with_xfs f x)
  end.

(** The bytes of an [xfs_dirent_t] that [fill_dirent] wrote. *)
Definition dirent_mem (d : dirent) : mem :=
  let o := strncpy_at (zeroed junk 0 DIRENT_SIZE) 0 (de_name d) (XFS_NAME_MAX - 1) in
  store_le (store_le (store_le o 64 4 (de_inode_block d)) 68 4 (de_size d)) 72 2 (de_flags d).

(** Entries stored one after the other. *)
Definition put_dirents (m : mem) (a : Z) (l : list mem) : mem :=
  (foldl (λ p b, (unview p.1 p.2 DIRENT_SIZE b, p.2 + DIRENT_SIZE)) (m, a) l).1.

Definition sys_readdir (f : files) (m : mem) (fd entries max : Z) : Z * mem :=
  if entries =? 0 then (ERR, m)
  else if sysfs_owns_fd (s32 fd) then
    match sysfs_readdir (f_env f) (f_sysfs f) (s32 fd) entries (s32 max) with
    | None => (ERR, m)
    | Some l => (zlen l, put_dirents m entries (dirent_mem <$> l))
    end
  else
    match xfs_readdir junk (f_xfs f) (s32 fd) (s32 max) (f_pid f) with
    | inl r => (u64 r, m)
    | inr l => (zlen l, put_dirents m entries l)
    end.

Definition sys_lseek (f : files) (fd offset whence : Z) : Z * files :=
  if sysfs_owns_fd (s32 fd) then
    let '(r, t) := sysfs_lseek (f_sysfs f) (s32 fd) (s32 offset) (s32 whence) in (u64 r, with_sysfs f t)
  else let '(r, x) := xfs_lseek junk (f_xfs f) (s32 fd) (s32 offset) (s32 whence) (f_pid f) in (u64 r, with_xfs f x).

(** What a stat call stores. *)
Definition put_stat (m : mem) (statbuf : Z) (o : option mem) : Z * mem :=
  match o with None => (ERR, m) | Some b => (0, unview m statbuf DIRENT_SIZE b) end.

Definition sys_stat (f : files) (m : mem) (path : option (list Z)) (statbuf : Z) : Z * mem * files :=
  if statbuf =? 0 then (ERR, m, f)
  else
    match abs_of f path with
    | None => (ERR, m, f)
    | Some abs =>
        if sysfs_owns abs then
          let '(o, t) := sysfs_stat (f_env f) (f_sysfs f) abs statbuf in
          (put_stat m statbuf (dirent_mem <$> o), with_sysfs f t)
        else (put_stat m statbuf (xfs_stat junk (f_xfs f) abs), f)
    end.

Definition sys_fstat (f : files) (m : mem) (fd statbuf : Z) : Z * mem :=
  if statbuf =? 0 then (ERR, m)
  else if sysfs_owns_fd (s32 fd) then put_stat m statbuf (dirent_mem <$> sysfs_fstat (f_sysfs f) (s32 fd) statbuf)
  else put_stat m statbuf (xfs_fstat junk (f_xfs f) (s32 fd) (f_pid f)).

Definition sys_pipe (f : files) (m : mem) (upipefd : Z) : Z * mem * files :=
  if upipefd =? 0 then (ERR, m, f)
  else
    match pipe_create (f_pipes f) (f_pid f) true with
    | (_, Some (rfd, wfd), g) => (0, store_le (store_le m upipefd 4 rfd) (upipefd + 4) 4 wfd, with_pipes f g)
    | (_, None, g) => (ERR, m, with_pipes f g)
    end.

(** Descriptors are not per process; a duplicate is the descriptor itself. *)
Definition sys_dup (oldfd : Z) : Z := if XFS_MAX_FDS <=? oldfd then ERR else oldfd.
Definition sys_dup2 (oldfd newfd : Z) : Z := newfd.

Definition sys_getcwd (f : files) (m : mem) (buf size : Z) : Z * mem :=
  if (buf =? 0) || (size =? 0) then (ERR, m)
  else
    let len := zlen (f_cwd f) in
    if size <? len + 1 then (ERR, m) else (0, put_list m buf (f_cwd f ++ [0])).

Definition st_flags (st : mem) : Z := load_le st 72 2.

Definition sys_chdir (f : files) (path : option (list Z)) : Z * files :=
  match abs_of f path with
  | None => (ERR, f)
  | Some abs =>
      match xfs_stat junk (f_xfs f) abs with
      | None => (ERR, f)
      | Some st =>
          if Z.land (st_flags st) 1 =? 0 then (ERR, f)
          else if XOS_PATH_MAX <=? zlen abs then (ERR, f)
          else (0, with_cwd f abs)
      end
  end.

(** ** Routing *)

Inductive owner := OXfs | OPipe | OSysfs.
Definition owner_of (fd : Z) : owner :=
  if sysfs_owns_fd (s32 fd) then OSysfs else if 64 <=? fd then OPipe else OXfs.

(** The calls that take a descriptor, and the state they leave. *)
Inductive fd_call := CRead (fd buf count : Z) | CWrite (fd buf count : Z) | CClose (fd : Z) | CSeek (fd offset whence : Z).
Definition call_fd (c : fd_call) : Z := match c with CRead fd _ _ | CWrite fd _ _ | CClose fd | CSeek fd _ _ => fd end.
Definition do_call (fuel : nat) (yield : pipes → pipes) (rflags : Z) (mapped : bool) (f : files) (m : mem) (c : fd_call) : files :=
  match c with
  | CRead fd buf n => (sys_read fuel yield f m fd buf n).2
  | CWrite fd buf n => (sys_write fuel yield rflags mapped f m fd buf n).2
  | CClose fd => (sys_close f fd).2
  | CSeek fd off wh => (sys_lseek f fd off wh).2
  end.

(** Only what belongs to the owner of a descriptor may change. *)
Record only (o : owner) (f f' : files) : Prop := {
  on_cwd : f_cwd f' = f_cwd f;
  on_xfs : o ≠ OXfs → f_xfs f' = f_xfs f;
  on_pipe : o ≠ OPipe → f_pipes f' = f_pipes f;
  on_sysfs : o ≠ OSysfs → f_sysfs f' = f_sysfs f ∧ f_env f' = f_env f;
}.

Lemma xfs_open_range x path flags p : (xfs_open junk x path flags p).1 = -1 ∨ 0 ≤ (xfs_open junk x path flags p).1 < XFS_MAX_FDS.
Proof.
  assert (Ha : ∀ y ino, (alloc_fd y ino flags p).1 = -1 ∨ 0 ≤ (alloc_fd (D := D) y ino flags p).1 < XFS_MAX_FDS).
  { intros y ino. unfold alloc_fd. destruct (find_up _ _ _) eqn:Hf; [right|by left]. apply find_up_Some in Hf as (Hi & _). cbn. unfold XFS_MAX_FDS in *. lia. }
  unfold xfs_open. case_if; [by left|]. cbv zeta. case_if; [|case_if; [by left|apply Ha]].
  destruct (create junk x path 0) as [ino y]. case_if; [by left|apply Ha].
Qed.

Lemma sysfs_open_range e t path : (sysfs_open e t path).1 = -1 ∨ 0 ≤ (sysfs_open e t path).1 - SYSFS_FD_BASE < SYSFS_MAX_FDS.
Proof.
  unfold sysfs_open. case_if; [by left|]. cbv zeta. destruct (open_claim t path _ _) as [[slot t1]|] eqn:Hc; [|by left].
  destruct (claim_inv _ _ _ _ _ _ Hc) as (Hs & _). unfold open_fill. cbv zeta. destruct (render_node _ _ _ _); cbn [fst]; [right; lia|by left].
Qed.

Lemma pipe_create_range g p r rfd wfd g' : pipe_create g p true = (r, Some (rfd, wfd), g') → 64 ≤ rfd < 96 ∧ wfd = rfd + 1 ∧ wfd < 96.
Proof.
  unfold pipe_create, pipe_alloc. cbn [negb]. destruct (find_up _ _ _) as [i|] eqn:Hf; [|done]. apply find_up_Some in Hf as (Hi & _).
  unfold PIPE_MAX, PIPE_FD_BASE in *. destruct (Z.ltb_spec i 0); [done|]. intros [= <- <- <- <-]. lia.
Qed.

Lemma owner_small fd : 0 ≤ fd < 64 → owner_of fd = OXfs.
Proof.
  intros H. unfold owner_of. rewrite s32_small by lia. destruct (sysfs_owns_fd fd) eqn:E; [apply owns_fd in E; unfold SYSFS_FD_BASE in E; lia|].
  by rewrite (proj2 (Z.leb_gt 64 fd)) by lia.
Qed.
Lemma owner_pipe fd : 64 ≤ fd < 96 → owner_of fd = OPipe.
Proof.
  intros H. unfold owner_of. rewrite s32_small by lia. destruct (sysfs_owns_fd fd) eqn:E; [apply owns_fd in E; unfold SYSFS_FD_BASE in E; lia|].
  by rewrite (proj2 (Z.leb_le 64 fd)) by lia.
Qed.
Lemma owner_sysfs fd : 0 ≤ fd - SYSFS_FD_BASE < SYSFS_MAX_FDS → owner_of fd = OSysfs.
Proof.
  intros H. unfold owner_of. assert (s32 fd = fd) as -> by (apply s32_small; unfold SYSFS_FD_BASE, SYSFS_MAX_FDS in H; lia).
  by rewrite (proj2 (owns_fd fd) H).
Qed.

Lemma call_only fuel yield rflags mapped f m c : 0 ≤ call_fd c < 2 ^ 31 → only (owner_of (call_fd c)) f (do_call fuel yield rflags mapped f m c).
Proof.
  intros Hfd. destruct c as [fd buf n|fd buf n|fd|fd off wh]; cbn [call_fd do_call] in *; unfold owner_of.
  - unfold sys_read. destruct (buf =? 0); [by split|]. destruct (sysfs_owns_fd (s32 fd)); [destruct (sysfs_read _ _ _ _) as [[r l] t]; by split|].
    destruct (64 <=? fd); [destruct (pipe_read _ _ _ _ _ _) as [[[r l]|] g]; by split|]. destruct (xfs_read _ _ _ _ _ _) as [[r b] x]. by split.
  - unfold sys_write. destruct (buf =? 0); [by split|]. destruct (sysfs_owns_fd (s32 fd)); [destruct (sysfs_write _ _ _ _ _ _ _ _) as [[r eff] e]; by split|].
    destruct (64 <=? fd); [destruct (pipe_write _ _ _ _ _ _) as [r g]; by split|]. destruct (xfs_write _ _ _ _ _ _) as [r x]. by split.
  - unfold sys_close. destruct (sysfs_owns_fd (s32 fd)); [by split|]. destruct (64 <=? fd); by split.
  - unfold sys_lseek. destruct (sysfs_owns_fd (s32 fd)); [destruct (sysfs_lseek _ _ _ _) as [r t]; by split|].
    destruct (Z.leb_spec 64 fd); [|destruct (xfs_lseek _ _ _ _ _ _) as [r x]; by split]. rewrite s32_small by lia. unfold xfs_lseek, bad_fd.
    rewrite (proj2 (Z.leb_le XFS_MAX_FDS fd)) by (unfold XFS_MAX_FDS; lia). rewrite orb_true_r. by split.
Qed.

(** C35: Descriptors are routed to their owner.  A descriptor returned by [open]
    lies in the range of the file system that opened the path, one returned by
    [pipe] in the range of the pipes, and the ranges are disjoint: every later
    read, write, close or seek on it changes state of that owner only, never of
    the other two, nor the current directory. *)
Theorem fd_routing f path flags m upipefd :
  (let '(r, f') := sys_open f path flags in
   r = ERR ∨ ∃ abs, abs_of f path = Some abs ∧ 0 ≤ r < 2 ^ 31 ∧ owner_of r = (if sysfs_owns abs then OSysfs else OXfs) ∧ only (owner_of r) f f') ∧
  (let '(r, m', f') := sys_pipe f m upipefd in
   r = ERR ∨ ∃ rfd wfd, m' = store_le (store_le m upipefd 4 rfd) (upipefd + 4) 4 wfd ∧ 0 ≤ rfd < wfd ∧ wfd < 2 ^ 31 ∧
     owner_of rfd = OPipe ∧ owner_of wfd = OPipe ∧ only OPipe f f') ∧
  (∀ fuel yield rflags mapped c, 0 ≤ call_fd c < 2 ^ 31 → only (owner_of (call_fd c)) f (do_call fuel yield rflags mapped f m c)).
Proof.
  split; [|split; [|intros; by apply call_only]].
  - unfold sys_open. destruct (abs_of f path) as [abs|]; [|by left]. destruct (sysfs_owns abs) eqn:Ho.
    + pose proof (sysfs_open_range (f_env f) (f_sysfs f) abs) as Hr. destruct (sysfs_open _ _ _) as [r t]. cbn [fst] in Hr.
      destruct Hr as [->|Hr]; [by left|]. right. exists abs. unfold SYSFS_FD_BASE, SYSFS_MAX_FDS in Hr. rewrite u64_small by lia.
      rewrite Ho, owner_sysfs by (unfold SYSFS_FD_BASE, SYSFS_MAX_FDS; lia). split_and!; [done|lia|lia|done|by split].
    + pose proof (xfs_open_range (f_xfs f) abs (u32 flags) (f_pid f)) as Hr. destruct (xfs_open _ _ _ _ _) as [r x]. cbn [fst] in Hr.
      destruct Hr as [->|Hr]; [by left|]. right. exists abs. unfold XFS_MAX_FDS in Hr. rewrite u64_small, owner_small by lia. rewrite Ho.
      split_and!; [done|lia|lia|done|by split].
  - unfold sys_pipe. case_if; [by left|]. destruct (pipe_create (f_pipes f) (f_pid f) true) as [[r [[rfd wfd]|]] g] eqn:Hp; [|by left].
    destruct (pipe_create_range _ _ _ _ _ _ Hp) as (H1 & H2 & H3). right. exists rfd, wfd. rewrite !owner_pipe by lia.
    split_and!; [done|lia|lia|lia|done|done|by split].
Qed.

(** ** The current directory *)

Definition cwd_ok (f : files) : Prop := ∃ cs, canonical cs ∧ f_cwd f = render cs ∧ zlen (f_cwd f) < XOS_PATH_MAX.

Lemma put_list_read m a l i : 0 ≤ i < zlen l → put_list m a l (a + i) = l.[i].
Proof.
  intros Hi. unfold put_list, unview. rewrite (proj2 (Z.leb_le a (a + i))), (proj2 (Z.ltb_lt (a + i) (a + zlen l))) by lia. cbn [andb].
  f_equal. lia.
Qed.

Lemma user_bytes_put m a l1 l2 : user_bytes (put_list m a (l1 ++ l2)) a (zlen l1) = l1.
Proof.
  unfold user_bytes. apply aget_ext; [unfold zlen; rewrite length_fmap, length_seqZ; lia|].
  intros i Hi. assert (Hl : zlen ((λ j, put_list m a (l1 ++ l2) (a + j)) <$> seqZ 0 (zlen l1)) = zlen l1) by (unfold zlen; rewrite length_fmap, length_seqZ; lia).
  rewrite Hl in Hi. unfold aget at 1. erewrite list_lookup_total_correct; [|apply list_lookup_fmap_Some; eexists; split; [|apply lookup_seqZ; split; [reflexivity|lia]]; reflexivity].
  rewrite Z.add_0_l, Z2Nat.id by lia. rewrite put_list_read by (unfold zlen in *; rewrite length_app; lia).
  unfold aget. by rewrite lookup_total_app_l by (unfold zlen in Hi; lia).
Qed.

(** From a directory other than the root, a relative name means the directory's
    name, a slash and the name. *)
Lemma relative_abs cs q cwd :
  canonical cs → cs ≠ [] → q ≠ [] → is_abs q = false →
  path_abs (render cs) q XOS_PATH_MAX = path_abs cwd (render cs ++ SLASH :: q) XOS_PATH_MAX.
Proof.
  intros Hc Hne Hq Ha. assert (Hj : joined (render cs) q = joined cwd (render cs ++ SLASH :: q)).
  { destruct (resolve_render cs Hc) as (_ & _ & Habs). unfold joined. rewrite Ha.
    assert (is_abs (render cs ++ SLASH :: q) = true) as ->.
    { unfold is_abs in *. destruct cs as [|c cs]; [done|]. rewrite render_cons in *. done. }
    pose proof (render_last cs Hne (proj1 Hc)) as Hl. pose proof (zlen_nonneg q).
    assert (E : zlen (render cs ++ SLASH :: q) = zlen (render cs) + 1 + zlen q) by (unfold zlen; rewrite length_app; cbn [List.length]; lia).
    rewrite E. destruct (Z.ltb_spec XOS_PATH_MAX (zlen (render cs) + 1 + zlen q + 1)), (Z.leb_spec XOS_PATH_MAX (zlen (render cs) + 1 + zlen q)); try lia; [done|].
    rewrite (proj2 (Z.eqb_neq _ _) (proj2 Hl)). cbn [negb]. by rewrite orb_true_r. }
  unfold path_abs. rewrite Hj. rewrite !bool_decide_eq_false_2; [done| |done]. by destruct (render cs).
Qed.

(** Changing directory.  A [chdir] that succeeds makes the absolute form of
    its argument, an existing directory, the current directory, which [getcwd]
    returns when the caller's buffer holds it; changing to that path again
    changes nothing, and from then on a relative name opens what the directory's
    full name, a slash and the name opened before.  A [chdir] that fails changes
    nothing, and the current directory stays canonical in both cases. *)
Theorem chdir_spec f d :
  cwd_ok f →
  let '(r, f') := sys_chdir f (Some d) in
  cwd_ok f' ∧ (r ≠ 0 → f' = f) ∧
  (r = 0 → ∃ abs st, path_abs (f_cwd f) d XOS_PATH_MAX = Some abs ∧ f' = with_cwd f abs ∧
     xfs_stat junk (f_xfs f) abs = Some st ∧ Z.land (st_flags st) 1 ≠ 0 ∧ sys_chdir f' (Some abs) = (0, f') ∧
     (∀ m buf size, buf ≠ 0 → 0 ≤ size →
        let '(r, m') := sys_getcwd f' m buf size in
        r = (if zlen abs <? size then 0 else ERR) ∧ (r = 0 → user_bytes m' buf (zlen abs) = abs ∧ m' (buf + zlen abs) = 0)) ∧
     (abs ≠ [SLASH] → ∀ q flags, q ≠ [] → is_abs q = false →
        sys_open f' (Some q) flags = let '(r, g) := sys_open f (Some (abs ++ SLASH :: q)) flags in (r, with_cwd g abs))).
Proof.
  intros Hok. unfold sys_chdir at 1. cbn [abs_of mbind option_bind].
  destruct (path_abs (f_cwd f) d XOS_PATH_MAX) as [abs|] eqn:Ha; [|by split_and!].
  destruct (xfs_stat junk (f_xfs f) abs) as [st|] eqn:Hst; [|by split_and!].
  destruct (Z.eqb_spec (Z.land (st_flags st) 1) 0) as [|Hdir]; [by split_and!|].
  destruct (path_abs_result _ _ _ _ Ha) as (cs & Hcs & Ecs & Hl). rewrite (proj2 (Z.leb_gt _ _) Hl).
  split; [by exists cs|]. split; [done|]. intros _. exists abs, st. do 4 (split; [done|]). split; [|split].
  - unfold sys_chdir. cbn [abs_of mbind option_bind f_cwd with_cwd]. rewrite (proj2 (path_abs_idempotent _ abs _ _ Ha)). cbn [f_xfs with_cwd].
    by rewrite Hst, (proj2 (Z.eqb_neq _ _) Hdir), (proj2 (Z.leb_gt _ _) Hl).
  - intros m buf size Hb Hs. unfold sys_getcwd. rewrite (proj2 (Z.eqb_neq buf 0) Hb). cbn [orb f_cwd with_cwd]. pose proof (zlen_nonneg abs).
    destruct (Z.eqb_spec size 0) as [->|]; [by rewrite (proj2 (Z.ltb_ge (zlen abs) 0)) by lia|]. cbv zeta.
    destruct (Z.ltb_spec size (zlen abs + 1)); [by rewrite (proj2 (Z.ltb_ge (zlen abs) size)) by lia|].
    rewrite (proj2 (Z.ltb_lt (zlen abs) size)) by lia. split; [done|]. intros _. split; [apply user_bytes_put|].
    rewrite put_list_read by (unfold zlen; rewrite length_app; cbn [List.length]; lia).
    unfold aget, zlen. by rewrite Nat2Z.id, lookup_total_app_r, Nat.sub_diag by lia.
  - intros Hne q flags Hq Hqa. unfold sys_open, abs_of. cbn [mbind option_bind f_cwd with_cwd]. rewrite Ecs in Hne |- *.
    rewrite (relative_abs cs q (f_cwd f) Hcs) by (done || by intros ->).
    destruct (path_abs (f_cwd f) (render cs ++ SLASH :: q) XOS_PATH_MAX) as [a|]; [|done]. cbn [f_env f_sysfs f_xfs with_cwd]. unfold f_pid. cbn [f_env with_cwd].
    case_if; [by destruct (sysfs_open _ _ _)|by destruct (xfs_open _ _ _ _ _)].
Qed.
End files.

(** ** A directory entered *)

Module FileDemo.
Definition files0 : files := mkFiles [SLASH] XfsDemo.mounted [] bss_table SysfsDemo.env0.
Definition BIN : list Z := [98; 105; 110].
(** After [mkdir("bin")]. *)
Definition files1 : files := (sys_mkdir XfsDemo.junk files0 (Some BIN)).2.
Lemma files1_cwd : f_cwd files1 = [SLASH].
Proof. unfold files1, sys_mkdir. cbn [abs_of mbind option_bind]. destruct (path_abs _ _ _); [|done]. by destruct (xfs_mkdir _ _ _). Qed.
Lemma files1_ok : cwd_ok files1.
Proof. exists []. rewrite files1_cwd. split; [by split; [|vm_compute; congruence]|]. by split. Qed.
Lemma enter_bin : (sys_chdir XfsDemo.junk files1 (Some BIN)).1 = 0.
Proof. vm_compute. reflexivity. Qed.
End FileDemo.

Lemma chdir_spec_witness : f_cwd (sys_chdir XfsDemo.junk FileDemo.files1 (Some FileDemo.BIN)).2 = SLASH :: FileDemo.BIN.
Proof.
  pose proof (chdir_spec XfsDemo.junk FileDemo.files1 FileDemo.BIN FileDemo.files1_ok) as H. pose proof FileDemo.enter_bin as E.
  destruct (sys_chdir XfsDemo.junk FileDemo.files1 (Some FileDemo.BIN)) as [r f']. cbn [fst snd] in *.
  destruct H as (_ & _ & H). destruct (H E) as (abs & st & Ha & -> & _). cbn [f_cwd with_cwd]. rewrite FileDemo.files1_cwd in Ha.
  vm_compute in Ha. injection Ha as <-. reflexivity.
Defined.

(** /sys can be opened but not entered: [chdir] asks the on-disk file system
    only. *)
Theorem sys_not_enterable :
  (sys_open XfsDemo.junk FileDemo.files0 (Some [47; 115; 121; 115]) 0).1 = 512 ∧
  (sys_chdir XfsDemo.junk FileDemo.files0 (Some [47; 115; 121; 115])).1 = ERR.
Proof. vm_compute. done. Qed.
