(* ===== verification/SysSignal.v ===== *)
(** * The signal system calls

    [sys_sigaction_impl], [sys_sigprocmask_impl], [sys_kill_impl] and
    [sys_sigsuspend_impl] of [kernel/bsd/syscalls.c], over the signals of
    [Signal.v].  Log lines are left out; [proc_kill] and the rest of the system
    while a process waits are arguments. *)

From S2P Require Import Prelude Mem CString ProcTable Signal.

Definition ERR64 : Z := 18446744073709551615.     (* (uint64_t)-1 *)
Definition ESRCH64 : Z := 18446744073709551613.   (* (uint64_t)-3 *)
Definition EINTR64 : Z := 18446744073709551612.   (* (uint64_t)-4 *)

(** [struct xos_sigaction]: byte offsets. *)
Definition SA_HANDLER : Z := 0.
Definition SA_MASK : Z := 8.
Definition SA_FLAGS : Z := 16.
Definition XOS_SIG_BLOCK : Z := 1.
Definition XOS_SIG_UNBLOCK : Z := 2.
Definition XOS_SIG_SETMASK : Z := 0.

(** The three stores into the entry of a signal. *)
Definition set_action (x : proc_t) (sig h mk fl : Z) : proc_t :=
  mkProc (pid x) (state x) (rsp x) (rip x) (pml4_phys x) (pml4_virt x) (kstack x) (sleep_until x)
         (next x) (ring3 x) (parent_pid x) (exit_code x) (reaped x) (fork_regs x) (fork_rflags x) (name x)
         (sig_blocked x) (sig_pending x) ((sig_handler x).[sig <- h]) ((sig_mask x).[sig <- mk])
         ((sig_flags x).[sig <- fl]) (saved_rflags x) (exiting x) (saved_ret x) (canary x) (no_preempt x)
         (switching x) (xstate x) (wait_chan x) (priority x) (tgid x) (tid x) (pml4_refcount x) (clear_tid_addr x).

Definition sys_sigaction (s : sched) (c : Z) (m : mem) (signum act oldact : Z) : Z * sched * mem :=
  let p := proc_current s c in
  if p =? NULLP then (ERR64, s, m)
  else if (signum =? 0) || (XOS_NSIG <=? signum) then (ERR64, s, m)
  else if (signum =? 9) || (signum =? 17) then (ERR64, s, m)
  else
    let m :=
      if oldact =? 0 then m
      else
        let x := proc s p in
        store_le (st64 (st64 m (oldact + SA_HANDLER) ((sig_handler x).[signum])) (oldact + SA_MASK) ((sig_mask x).[signum]))
                 (oldact + SA_FLAGS) 4 (u32 ((sig_flags x).[signum])) in
    let s :=
      if act =? 0 then s
      else upd s p (λ x, set_action x signum (ld64 m (act + SA_HANDLER)) (ld64 m (act + SA_MASK)) (s32 (load_le m (act + SA_FLAGS) 4))) in
    (0, s, m).

Definition sys_sigprocmask (s : sched) (c : Z) (m : mem) (how set oldset : Z) : Z * sched * mem :=
  let p := proc_current s c in
  if p =? NULLP then (ERR64, s, m)
  else
    let m := if oldset =? 0 then m else st64 m oldset (sig_blocked (proc s p)) in
    if set =? 0 then (0, s, m)
    else
      let v := ld64 m set in
      let how := s32 how in
      if how =? XOS_SIG_BLOCK then (0, upd s p (λ x, set_sig_blocked x (Z.lor (sig_blocked x) v)), m)
      else if how =? XOS_SIG_UNBLOCK then (0, upd s p (λ x, set_sig_blocked x (Z.land (sig_blocked x) (u64 (Z.lnot v)))), m)
      else if how =? XOS_SIG_SETMASK then (0, upd s p (λ x, set_sig_blocked x v), m)
      else (ERR64, s, m).

Definition sys_kill (kill : sched → Z → sched) (s : sched) (pid sig : Z) : Z * sched :=
  let pid := if s64 pid <? 0 then u64 (- s64 pid) else pid in
  if proc_by_pid s pid =? NULLP then (ESRCH64, s)
  else if s32 sig =? 0 then (0, s)
  else let '(ret, s) := proc_send_signal kill s pid (s32 sig) in (if ret <? 0 then ERR64 else 0, s).

(** Some signal is pending and not blocked. *)
Definition has_deliverable (x : proc_t) : bool := negb (Z.land (sig_pending x) (u64 (Z.lnot (sig_blocked x))) =? 0).

(** The loop; [yield] is what the rest of the system does in [sched_yield],
    [None] a call still waiting after [fuel] turns. *)
Fixpoint suspend_loop (fuel : nat) (yield : sched → sched) (s : sched) (p : Z) : option Z * sched :=
  match fuel with
  | O => (None, s)
  | S fuel => if has_deliverable (proc s p) then (Some EINTR64, s) else suspend_loop fuel yield (yield s) p
  end.

Definition sys_sigsuspend (fuel : nat) (yield : sched → sched) (s : sched) (c : Z) (m : mem) (maskptr : Z) : option Z * sched :=
  let p := proc_current s c in
  if p =? NULLP then (Some ERR64, s)
  else
    let s := if maskptr =? 0 then s else upd s p (λ x, set_sig_blocked x (ld64 m maskptr)) in
    if has_deliverable (proc s p) then (Some EINTR64, s) else suspend_loop fuel yield s p.

(** ** Actions *)

Lemma by_pid_upd s p f t :
  0 ≤ p < zlen (procs s) → (∀ x, tgid (f x) = tgid x ∧ state (f x) = state x ∧ reaped (f x) = reaped x) →
  proc_by_pid (upd s p f) t = proc_by_pid s t.
Proof.
  intros Hp Hf. unfold proc_by_pid. f_equal. apply find_up_ext. intros i Hi. rewrite proc_upd by lia.
  destruct (Z.eqb_spec p i) as [->|]; [|done]. by destruct (Hf (proc s i)) as (-> & -> & ->).
Qed.

(** After posting [sig] nothing below it is deliverable that was not before. *)
Lemma pick_posted x sig :
  1 ≤ sig < XOS_NSIG → Z.testbit (sig_blocked x) sig = false → (∀ j, j < sig → ¬ deliverable x j) →
  pick_signal (set_sig_pending x (Z.lor (sig_pending x) (XOS_SIGBIT sig))) = sig.
Proof.
  intros Hs Hb Hlow. set (y := set_sig_pending x _). unfold XOS_NSIG in Hs.
  assert (Hbit : ∀ j, 0 ≤ j → Z.testbit (sig_pending y) j = Z.testbit (sig_pending x) j || (sig =? j)).
  { intros j Hj. unfold y. cbn [sig_pending set_sig_pending]. by rewrite Z.lor_spec, sigbit_testbit by lia. }
  assert (Hd : deliverable y sig) by (split; [unfold XOS_NSIG; lia|]; split; [rewrite Hbit, Z.eqb_refl by lia; apply orb_true_r|done]).
  destruct (Z.le_gt_cases 0 (pick_signal y)) as [Hp|Hp]; [|by destruct (pick_signal_none y Hp sig)].
  destruct (pick_signal_some y _ eq_refl Hp) as [(H1 & H2 & H3) Hmin]. specialize (Hmin sig Hd).
  destruct (Z.eq_dec (pick_signal y) sig); [done|]. exfalso. apply (Hlow (pick_signal y)); [lia|]. split; [done|]. split; [|done].
  rewrite Hbit in H2 by lia. apply orb_true_iff in H2 as [|H2%Z.eqb_eq]; [done|lia].
Qed.

Lemma sigaction_installs s c m sig act :
  proc_current s c ≠ NULLP → 1 ≤ sig < XOS_NSIG → sig ≠ XOS_SIGKILL → sig ≠ XOS_SIGSTOP → act ≠ 0 →
  sys_sigaction s c m sig act 0 =
    (0, upd s (proc_current s c) (λ x, set_action x sig (ld64 m (act + SA_HANDLER)) (ld64 m (act + SA_MASK)) (s32 (load_le m (act + SA_FLAGS) 4))), m).
Proof.
  intros Hp Hs H9 H17 Hact. unfold sys_sigaction. rewrite (proj2 (Z.eqb_neq _ NULLP) Hp).
  rewrite (proj2 (Z.eqb_neq sig 0)), (proj2 (Z.leb_gt XOS_NSIG sig)) by lia. cbn [orb].
  by rewrite (proj2 (Z.eqb_neq sig 9)), (proj2 (Z.eqb_neq sig 17)), (proj2 (Z.eqb_neq act 0)) by done.
Qed.

(** A caught signal sent to a live process is posted. *)
Lemma kill_posts kill s t p sig :
  0 ≤ t < 2 ^ 63 → proc_by_pid s t = p → p ≠ NULLP → state (proc s p) ≠ PROC_DEAD → 1 ≤ sig < XOS_NSIG →
  sig_uncatchable sig = false → (sig_handler (proc s p)).[sig] ≠ XOS_SIG_DFL → (sig_handler (proc s p)).[sig] ≠ XOS_SIG_IGN →
  sys_kill kill s t sig = (0, post_signal s p sig).
Proof.
  intros Ht Hb Hp Hst Hs Hc H0 H1. unfold XOS_NSIG in Hs. unfold sys_kill. rewrite s64_small by lia. rewrite (proj2 (Z.ltb_ge t 0)) by lia.
  rewrite Hb, (proj2 (Z.eqb_neq p NULLP) Hp), s32_small, (proj2 (Z.eqb_neq sig 0)) by lia. unfold proc_send_signal.
  rewrite (proj2 (Z.leb_gt sig 0)), (proj2 (Z.leb_gt XOS_NSIG sig)) by (unfold XOS_NSIG; lia). cbn [orb]. rewrite Hb, (proj2 (Z.eqb_neq p NULLP) Hp).
  assert (is_state (state (proc s p)) PROC_DEAD = false) as -> by (by apply bool_decide_eq_false_2). cbn [orb].
  unfold sig_uncatchable in Hc. apply orb_false_iff in Hc as [Hc1 Hc2]. rewrite Hc1.
  rewrite (proj2 (Z.eqb_neq _ XOS_SIG_IGN) H1), (proj2 (Z.eqb_neq _ XOS_SIG_DFL) H0). cbn [orb andb]. unfold sig_uncatchable. by rewrite Hc1, Hc2.
Qed.

(** A picked signal with a handler is delivered. *)
Lemma picked_delivers s c m fr ret sig :
  let p := proc_current s c in
  p ≠ NULLP → ring3 (proc s p) = true → state (proc s p) ≠ PROC_DEAD → pick_signal (proc s p) = sig → 1 ≤ sig →
  (sig_handler (proc s p)).[sig] ≠ XOS_SIG_DFL → (sig_handler (proc s p)).[sig] ≠ XOS_SIG_IGN →
  0x1000 ≤ f_user_rsp fr < 0xffff800000000000 →
  ∃ s3 m3 f3, signal_on_syscall_return s c m fr ret = Some (ret, sig, s3, m3, f3) ∧ f_user_rsp f3 < f_user_rsp fr.
Proof.
  intros p Hp Hr Hst Hpick Hs H0 H1 Hrsp. unfold signal_on_syscall_return. fold p. rewrite (proj2 (Z.eqb_neq p NULLP) Hp), Hr.
  assert (is_state (state (proc s p)) PROC_DEAD = false) as -> by (by apply bool_decide_eq_false_2). cbn [orb negb]. cbv zeta. rewrite Hpick.
  rewrite (proj2 (Z.ltb_ge sig 0)) by lia. rewrite (proj2 (Z.eqb_neq _ XOS_SIG_IGN) H1), (proj2 (Z.eqb_neq _ XOS_SIG_DFL) H0). cbn [orb].
  rewrite (proj2 (Z.leb_gt _ (f_user_rsp fr))), (proj2 (Z.ltb_ge (f_user_rsp fr) _)) by lia. cbn [orb].
  assert (Hsf : Z.land (u64 (f_user_rsp fr - SF_SIZE)) (u64 (Z.lnot 15)) < f_user_rsp fr).
  { unfold SF_SIZE. rewrite u64_small by lia. change (u64 (Z.lnot 15)) with (2 ^ 64 - 2 ^ 4). rewrite land_align by lia. zlia. }
  rewrite (proj2 (Z.leb_gt _ _) Hsf). eexists _, _, _. split; [reflexivity|exact Hsf].
Qed.

(** An installed handler is the one that runs.  When a process installs a
    handler for a signal that may be caught and sends itself the signal, with the
    signal not blocked and no lower-numbered one waiting, both calls succeed and
    the second one returns into the handler, below the interrupted stack and with
    the signal and the action's mask blocked. *)
Theorem sigaction_delivers kill s c m sig act fr :
  let p := proc_current s c in
  let x := proc s p in
  0 ≤ p < zlen (procs s) → ring3 x = true → state x ≠ PROC_DEAD → proc_by_pid s (tgid x) = p → 0 ≤ tgid x < 2 ^ 63 →
  1 ≤ sig < XOS_NSIG → sig ≠ XOS_SIGKILL → sig ≠ XOS_SIGSTOP → zlen (sig_handler x) = XOS_NSIG → zlen (sig_mask x) = XOS_NSIG → act ≠ 0 →
  let h := ld64 m (act + SA_HANDLER) in
  h ≠ XOS_SIG_DFL → h ≠ XOS_SIG_IGN → Z.testbit (sig_blocked x) sig = false → (∀ j, j < sig → ¬ deliverable x j) →
  0x1000 ≤ f_user_rsp fr < 0xffff800000000000 →
  ∃ s1 s2 s3 m3 f3,
    sys_sigaction s c m sig act 0 = (0, s1, m) ∧ sys_kill kill s1 (tgid x) sig = (0, s2) ∧
    signal_on_syscall_return s2 c m fr 0 = Some (0, sig, s3, m3, f3) ∧
    f_rip f3 = h ∧ f_user_rsp f3 < f_user_rsp fr ∧
    (∀ n, 0 ≤ n < 64 → Z.testbit (sig_blocked (proc s3 p)) n =
       Z.testbit (sig_blocked x) n || Z.testbit (ld64 m (act + SA_MASK)) n || (sig =? n)).
Proof.
  intros p x Hp Hr3 Hst Hby Htg Hs H9 H17 Hlen Hlenm Hact h Hh0 Hh1 Hnb Hlow Hrsp.
  assert (Hpn : p ≠ NULLP) by (unfold NULLP; lia).
  pose proof (sigaction_installs s c m sig act Hpn Hs H9 H17 Hact) as Hact1. fold p h in Hact1.
  set (f1 := λ y, set_action y sig h (ld64 m (act + SA_MASK)) (s32 (load_le m (act + SA_FLAGS) 4))) in *. set (s1 := upd s p f1) in *.
  assert (E1 : proc s1 p = f1 x) by (unfold s1; rewrite proc_upd, Z.eqb_refl by lia; done).
  assert (Hl1 : zlen (procs s1) = zlen (procs s)) by (unfold s1, upd; cbn; apply zlen_aset).
  assert (Hb1 : proc_by_pid s1 (tgid x) = p) by (unfold s1; rewrite by_pid_upd by done; exact Hby).
  assert (Hh : (sig_handler (f1 x)).[sig] = h) by (unfold f1; cbn; apply aget_aset_eq; lia).
  assert (Hmk : (sig_mask (f1 x)).[sig] = ld64 m (act + SA_MASK)) by (unfold f1; cbn; apply aget_aset_eq; lia).
  assert (Hkill : sys_kill kill s1 (tgid x) sig = (0, post_signal s1 p sig)).
  { apply kill_posts; rewrite ?E1, ?Hh; try done. unfold sig_uncatchable. by rewrite (proj2 (Z.eqb_neq sig _) H9), (proj2 (Z.eqb_neq sig _) H17). }
  set (s2 := post_signal s1 p sig) in *.
  assert (E2 : proc s2 p = set_sig_pending (f1 x) (Z.lor (sig_pending x) (XOS_SIGBIT sig))).
  { unfold s2, post_signal. rewrite proc_upd, Z.eqb_refl, E1 by lia. done. }
  assert (Hl2 : zlen (procs s2) = zlen (procs s)) by (unfold s2, post_signal, upd; cbn; by rewrite zlen_aset).
  assert (Hpick : pick_signal (proc s2 p) = sig) by (rewrite E2; by apply (pick_posted (f1 x))).
  destruct (picked_delivers s2 c m fr 0 sig) as (s3 & m3 & f3 & Hret & Hlt); try done; change (proc_current s2 c) with p; rewrite ?E2; try done; [lia|by cbn [sig_handler set_sig_pending]; rewrite Hh..|].
  exists s1, s2, s3, m3, f3. destruct (signal_delivery _ _ _ _ _ _ _ _ _ _ Hret) as (_ & Hd & _); [change (proc_current s2 c) with p; lia|].
  destruct (Hd ltac:(lia)) as (_ & _ & Hrip & _ & Hblk). change (proc_current s2 c) with p in *. rewrite E2 in Hrip, Hblk.
  cbn [sig_handler sig_mask sig_blocked set_sig_pending] in Hrip, Hblk. rewrite Hh in Hrip. rewrite Hmk in Hblk. split_and!; try done.
Qed.

(** The action installed is the one reported later. *)
Lemma sigaction_reported s c m m' sig act old :
  proc_current s c ≠ NULLP → 0 ≤ proc_current s c < zlen (procs s) → 1 ≤ sig < XOS_NSIG → sig ≠ XOS_SIGKILL → sig ≠ XOS_SIGSTOP →
  zlen (sig_handler (proc s (proc_current s c))) = XOS_NSIG → zlen (sig_mask (proc s (proc_current s c))) = XOS_NSIG →
  zlen (sig_flags (proc s (proc_current s c))) = XOS_NSIG → mem_bytes m → act ≠ 0 → old ≠ 0 →
  let '(_, s1, _) := sys_sigaction s c m sig act 0 in
  let '(r, s2, m2) := sys_sigaction s1 c m' sig 0 old in
  r = 0 ∧ s2 = s1 ∧ ld64 m2 (old + SA_HANDLER) = ld64 m (act + SA_HANDLER) ∧ ld64 m2 (old + SA_MASK) = ld64 m (act + SA_MASK) ∧
  load_le m2 (old + SA_FLAGS) 4 = load_le m (act + SA_FLAGS) 4.
Proof.
  intros Hpn Hp Hs H9 H17 L1 L2 L3 Hm Hact Hold. rewrite sigaction_installs by done.
  set (p := proc_current s c) in *. set (f := λ y, set_action y sig _ _ _). unfold sys_sigaction.
  change (proc_current (upd s p f) c) with p. rewrite (proj2 (Z.eqb_neq _ NULLP) Hpn).
  rewrite (proj2 (Z.eqb_neq sig 0)), (proj2 (Z.leb_gt XOS_NSIG sig)) by lia. cbn [orb].
  rewrite (proj2 (Z.eqb_neq sig 9)), (proj2 (Z.eqb_neq sig 17)), (proj2 (Z.eqb_neq old 0)) by done. cbn [orb Z.eqb]. cbv zeta.
  rewrite proc_upd, Z.eqb_refl by lia. unfold f. cbn [sig_handler sig_mask sig_flags set_action]. rewrite !aget_aset_eq by lia.
  pose proof (load_le_range m (act + SA_HANDLER) 8 Hm). pose proof (load_le_range m (act + SA_MASK) 8 Hm). pose proof (load_le_range m (act + SA_FLAGS) 4 Hm) as H4.
  split; [done|]. split; [done|]. unfold SA_HANDLER, SA_MASK, SA_FLAGS, ld64, st64 in *. split; [|split].
  - rewrite !load_store_ne, load_store_eq by lia. by rewrite Z.mod_small.
  - rewrite load_store_ne, load_store_eq by lia. by rewrite Z.mod_small.
  - rewrite load_store_eq. change (256 ^ Z.of_nat 4) with 4294967296 in *. set (v := load_le m (act + 16) 4) in *. unfold s32, u32.
    case_if; bools; zlia.
Qed.

(** Blocking a set and restoring the saved mask gives the old mask back. *)
Lemma sigprocmask_restores s c m set saved :
  let p := proc_current s c in
  0 ≤ p < zlen (procs s) → 0 ≤ sig_blocked (proc s p) < 2 ^ 64 → set ≠ 0 → saved ≠ 0 →
  let '(r1, s1, m1) := sys_sigprocmask s c m XOS_SIG_BLOCK set saved in
  let '(r2, s2, _) := sys_sigprocmask s1 c m1 XOS_SIG_SETMASK saved 0 in
  r1 = 0 ∧ r2 = 0 ∧ sig_blocked (proc s1 p) = Z.lor (sig_blocked (proc s p)) (ld64 m1 set) ∧ sig_blocked (proc s2 p) = sig_blocked (proc s p).
Proof.
  intros p Hp Hb Hset Hsv. unfold sys_sigprocmask at 1. fold p. rewrite (proj2 (Z.eqb_neq p NULLP)) by (unfold NULLP; lia).
  rewrite (proj2 (Z.eqb_neq set 0) Hset), (proj2 (Z.eqb_neq saved 0) Hsv). cbv zeta. change (s32 XOS_SIG_BLOCK =? XOS_SIG_BLOCK) with true. cbv iota.
  set (m1 := st64 m saved _). set (s1 := upd s p _). unfold sys_sigprocmask. change (proc_current s1 c) with p.
  rewrite (proj2 (Z.eqb_neq p NULLP)), (proj2 (Z.eqb_neq saved 0) Hsv) by (unfold NULLP; lia). cbv zeta.
  change (s32 XOS_SIG_SETMASK =? XOS_SIG_BLOCK) with false. change (s32 XOS_SIG_SETMASK =? XOS_SIG_UNBLOCK) with false.
  change (s32 XOS_SIG_SETMASK =? XOS_SIG_SETMASK) with true. cbn [Z.eqb]. cbv iota.
  assert (Hl : zlen (procs s1) = zlen (procs s)) by (unfold s1, upd; cbn; apply zlen_aset).
  split; [done|]. split; [done|]. split; [unfold s1; by rewrite proc_upd, Z.eqb_refl by lia|].
  rewrite proc_upd, Z.eqb_refl by lia. cbn [sig_blocked set_sig_blocked]. unfold m1. by rewrite ld64_st64_eq.
Qed.

(** A suspended process returns as soon as the rest of the system has made a
    signal deliverable, and it returns with the temporary mask still installed. *)
Lemma sigsuspend_returns k fuel yield s c m maskptr :
  let p := proc_current s c in
  p ≠ NULLP → let s0 := if maskptr =? 0 then s else upd s p (λ x, set_sig_blocked x (ld64 m maskptr)) in
  has_deliverable (proc (Nat.iter k yield s0) p) = true → (∀ i, (i < k)%nat → has_deliverable (proc (Nat.iter i yield s0) p) = false) →
  (k < fuel)%nat → sys_sigsuspend fuel yield s c m maskptr = (Some EINTR64, Nat.iter k yield s0).
Proof.
  intros p Hp s0 Hd Hnot Hf. unfold sys_sigsuspend. fold p. rewrite (proj2 (Z.eqb_neq p NULLP) Hp). cbv zeta. fold s0.
  assert (Hloop : suspend_loop fuel yield s0 p = (Some EINTR64, Nat.iter k yield s0)).
  { clearbody s0. revert fuel s0 Hd Hnot Hf. induction k as [|k IH]; intros [|fuel] s0 Hd Hnot Hf; try lia; cbn [suspend_loop].
    - cbn in Hd. by rewrite Hd.
    - rewrite (Hnot 0%nat ltac:(lia) : has_deliverable (proc s0 p) = false). rewrite Nat.iter_succ_r in Hd |- *. apply IH; [done| |lia].
      intros i Hi. rewrite <- Nat.iter_succ_r. apply Hnot. lia. }
  destruct (has_deliverable (proc s0 p)) eqn:E; [|done]. destruct k as [|k]; [done|]. specialize (Hnot 0%nat ltac:(lia)). cbn in Hnot. congruence.
Qed.

(** ** An example: SIGUSR1 (30) for the process in slot 1 *)

Definition demo_act_mem : mem := st64 (λ _, 0) 0x5000 0x400100.
Definition demo_quiet : sched := upd demo_sig_sched 1 (λ x, set_sig_pending x 0).
Lemma demo_quiet_proc : proc demo_quiet 1 = set_sig_pending demo_sig_proc 0.
Proof. reflexivity. Qed.
Lemma sigaction_delivers_witness :
  ∃ s1 s2 s3 m3 f3, sys_sigaction demo_quiet 0 demo_act_mem 30 0x5000 0 = (0, s1, demo_act_mem) ∧
    sys_kill (λ s _, s) s1 1 30 = (0, s2) ∧ signal_on_syscall_return s2 0 demo_act_mem demo_frame 0 = Some (0, 30, s3, m3, f3) ∧
    f_rip f3 = 0x400100.
Proof.
  destruct (sigaction_delivers (λ s _, s) demo_quiet 0 demo_act_mem 30 0x5000 demo_frame) as (s1 & s2 & s3 & m3 & f3 & H1 & H2 & H3 & H4 & _);
    change (proc_current demo_quiet 0) with 1; rewrite ?demo_quiet_proc.
  - vm_compute. split; congruence.
  - reflexivity.
  - done.
  - vm_compute. reflexivity.
  - cbn. lia.
  - unfold XOS_NSIG. lia.
  - done.
  - done.
  - vm_compute. reflexivity.
  - vm_compute. reflexivity.
  - lia.
  - vm_compute. congruence.
  - vm_compute. congruence.
  - vm_compute. reflexivity.
  - intros j _ (_ & H & _). cbn [sig_pending set_sig_pending] in H. by rewrite Z.bits_0 in H.
  - cbn. lia.
  - exists s1, s2, s3, m3, f3. split; [exact H1|split; [exact H2|split; [exact H3|]]]. rewrite H4. vm_compute. reflexivity.
Defined.
