(* ===== verification/Poll.v ===== *)
(** * Bounded polling

    The loops with which the drivers wait for a device: at most a fixed number of
    turns, ended by the first result.  The bounds are millions, so the number of
    turns is binary; [spin_spec] relates it to the unary loop. *)

From S2P Require Import Prelude.

(** [for (spins = 0; spins < n; spins++) body]: stops at the first result. *)
Fixpoint spin {S R} (n : positive) (body : S → S + R) (s : S) : S + R :=
  match n with
  | xH => body s
  | xO n => match spin n body s with inl s => spin n body s | inr r => inr r end
  | xI n => match body s with
            | inl s => match spin n body s with inl s => spin n body s | inr r => inr r end
            | inr r => inr r
            end
  end.

Fixpoint spin_nat {S R} (n : nat) (body : S → S + R) (s : S) : S + R :=
  match n with O => inl s | S n => match body s with inl s => spin_nat n body s | inr r => inr r end end.

Lemma spin_nat_add {S R} (body : S → S + R) n k s :
  spin_nat (n + k) body s = match spin_nat n body s with inl s => spin_nat k body s | inr r => inr r end.
Proof. revert s. induction n as [|n IH]; intros s; [done|]. cbn. by destruct (body s). Qed.

Lemma spin_spec {S R} (body : S → S + R) n s : spin n body s = spin_nat (Pos.to_nat n) body s.
Proof.
  revert s. induction n as [n IH|n IH|]; intros s; cbn [spin].
  - replace (Pos.to_nat n~1) with (1 + (Pos.to_nat n + Pos.to_nat n))%nat by lia. rewrite spin_nat_add. cbn [spin_nat].
    destruct (body s) as [s1|]; [|done]. rewrite spin_nat_add, IH. by destruct (spin_nat _ body s1).
  - replace (Pos.to_nat n~0) with (Pos.to_nat n + Pos.to_nat n)%nat by lia. rewrite spin_nat_add, IH. by destruct (spin_nat _ body s).
  - change (Pos.to_nat 1) with 1%nat. cbn. by destruct (body s).
Qed.
