(* ===== verification/Nvme.v ===== *)
(** * The NVMe driver

    [kernel/hal/block/nvme.c]: submission and completion rings, command
    identifiers, polling, and the block reads and writes built on them.  The
    controller is hardware: a class gives its visible state and one moment of its
    activity, with the behaviour the NVMe specification documents as laws.  The
    driver's poll loop and the controller take turns; [io_lock] makes each I/O
    submission one step. *)

From S2P Require Import Prelude Poll Mem CString Block Pmm Frames.

(** ** Commands and completions *)

Record nvme_cmd_t := mkCmd {
  c_dw0 : Z; c_nsid : Z; c_prp1 : Z; c_prp2 : Z;
  c_cdw10 : Z; c_cdw11 : Z; c_cdw12 : Z;
}.
Definition cmd_zero : nvme_cmd_t := mkCmd 0 0 0 0 0 0 0.
#[export] Instance cmd_inhabited : Inhabited nvme_cmd_t := populate cmd_zero.

Record nvme_cqe_t := mkCqe { q_dw0 : Z; q_cid : Z; q_phase_status : Z }.
#[export] Instance cqe_inhabited : Inhabited nvme_cqe_t := populate (mkCqe 0 0 0).

Definition ADMIN_CREATE_IO_CQ : Z := 0x05.
Definition ADMIN_CREATE_IO_SQ : Z := 0x01.
Definition ADMIN_IDENTIFY : Z := 0x06.
Definition IO_OPCODE_WRITE : Z := 0x01.
Definition IO_OPCODE_READ : Z := 0x02.

(** What the driver and the controller share: the rings of one queue pair, its
    doorbells, and physical memory. *)
Record dma := mkDma { d_sq : list nvme_cmd_t; d_cq : list nvme_cqe_t; d_sqdb : Z; d_cqdb : Z; d_ram : mem }.
Definition with_ram (d : dma) (m : mem) : dma := mkDma (d_sq d) (d_cq d) (d_sqdb d) (d_cqdb d) m.

(** The driver's side of a queue pair. *)
Record nvme_queue := mkQueue { sq_size : Z; sq_tail : Z; cq_size : Z; cq_head : Z; cq_phase : Z }.

(** [nvme_ctrl_t], as far as I/O needs it. *)
Record nvme_ctrl_t := mkCtrl { io : nvme_queue; n_nsid : Z; ns_size : Z; lba_shift : Z; next_cid : Z }.
Definition with_io (n : nvme_ctrl_t) (q : nvme_queue) : nvme_ctrl_t := mkCtrl q (n_nsid n) (ns_size n) (lba_shift n) (next_cid n).
Definition with_cid (n : nvme_ctrl_t) (v : Z) : nvme_ctrl_t := mkCtrl (io n) (n_nsid n) (ns_size n) (lba_shift n) v.

Definition alloc_cid (n : nvme_ctrl_t) : Z * nvme_ctrl_t :=
  let cid := next_cid n in
  let nxt := Z.land (cid + 1) 0xFFFF in
  (cid, with_cid n (if nxt =? 0 then 1 else nxt)).

(** ** Polling *)

Definition ADMIN_SPINS : positive := 10000000.
Definition IO_SPINS : positive := 100000000.

(** The store of the command and the doorbell. *)
Definition ring_submit (q : nvme_queue) (d : dma) (cmd : nvme_cmd_t) : nvme_queue * dma :=
  let tail := (sq_tail q + 1) mod sq_size q in
  (mkQueue (sq_size q) tail (cq_size q) (cq_head q) (cq_phase q),
   mkDma ((d_sq d).[sq_tail q <- cmd]) (d_cq d) tail (d_cqdb d) (d_ram d)).

(** Consuming the completion at the head. *)
Definition ring_advance (q : nvme_queue) (d : dma) : nvme_queue * dma :=
  let head := (cq_head q + 1) mod cq_size q in
  (mkQueue (sq_size q) (sq_tail q) (cq_size q) head (if head =? 0 then Z.lxor (cq_phase q) 1 else cq_phase q),
   mkDma (d_sq d) (d_cq d) (d_sqdb d) head (d_ram d)).

Definition my_cid (cmd : nvme_cmd_t) : Z := Z.land (Z.shiftr (c_dw0 cmd) 16) 0xFFFF.

(** The acceptance tests of [submit_admin] and [submit_io]. *)
Definition admin_accepts (q : nvme_queue) (cmd : nvme_cmd_t) (e : nvme_cqe_t) : bool :=
  (q_cid e =? my_cid cmd) && (Z.land (q_phase_status e) 1 =? cq_phase q).
Definition io_accepts (q : nvme_queue) (cmd : nvme_cmd_t) (e : nvme_cqe_t) : bool :=
  let phase := Z.land (q_phase_status e) 1 in
  (q_cid e =? my_cid cmd) && ((phase =? cq_phase q) || (phase =? Z.lxor (cq_phase q) 1)).
Definition cqe_status (e : nvme_cqe_t) : Z := Z.land (Z.shiftr (q_phase_status e) 1) 0x7FFF.

(** ** The controller *)

(** [c_step] is what the controller does while the driver executes one turn of
    its loop. *)
Class Controller (C : Type) := { c_step : C → dma → C * dma }.

Section driver.
Context {C : Type} `{!Controller C}.

(** One turn of a poll loop: [pause], then a look at the head of the ring. *)
Definition poll_turn (accepts : nvme_cqe_t → bool) (q : nvme_queue) (s : C * dma) : C * dma + C * dma * nvme_cqe_t :=
  let '(c, d) := c_step s.1 s.2 in
  let e := (d_cq d).[cq_head q] in
  if accepts e then inr (c, d, e) else inl (c, d).

(** [submit_admin] and [submit_io] differ in the test and the number of turns:
    the result, [*result], and the state. *)
Definition submit (spins : positive) (accepts : nvme_queue → nvme_cmd_t → nvme_cqe_t → bool)
    (q : nvme_queue) (c : C) (d : dma) (cmd : nvme_cmd_t) : bool * option Z * nvme_queue * C * dma :=
  let '(q, d) := ring_submit q d cmd in
  match spin spins (poll_turn (accepts q cmd) q) (c, d) with
  | inl (c, d) => (false, None, q, c, d)
  | inr (c, d, e) =>
      let '(q, d) := ring_advance q d in
      if negb (cqe_status e =? 0) then (false, None, q, c, d) else (true, Some (q_dw0 e), q, c, d)
  end.
Definition submit_admin := submit ADMIN_SPINS admin_accepts.
Definition submit_io := submit IO_SPINS io_accepts.

(** ** I/O commands *)

Definition io_cmd (opcode cid nsid prp1 lba count : Z) : nvme_cmd_t :=
  mkCmd (Z.lor opcode (u32 (Z.shiftl cid 16))) nsid prp1 0 (u32 lba) (u32 (Z.shiftr lba 32)) (u32 (count - 1)).

Definition io_transfer (opcode : Z) (n : nvme_ctrl_t) (c : C) (d : dma) (lba count buf_phys : Z) : bool * nvme_ctrl_t * C * dma :=
  let '(cid, n) := alloc_cid n in
  let '(ok, _, q, c, d) := submit_io (io n) c d (io_cmd opcode cid (n_nsid n) buf_phys lba count) in
  (ok, with_io n q, c, d).
Definition io_read := io_transfer IO_OPCODE_READ.
Definition io_write := io_transfer IO_OPCODE_WRITE.

(** ** Blocks

    Each block goes through a frame of its own. *)
Context {F : Type} `{!FrameAlloc F}.

Record nvme := mkNvme { nv_ctrl : nvme_ctrl_t; nv_dev : C; nv_dma : dma; nv_frames : F }.

Definition block_lba (n : nvme_ctrl_t) (b : Z) : Z := u64 (Z.shiftl b (12 - lba_shift n)).
Definition block_sectors (n : nvme_ctrl_t) : Z := Z.shiftl 1 (12 - lba_shift n).

Definition read_one (s : nvme) (b : Z) (buf : mem) (i : Z) : bool * mem * nvme :=
  let '(bounce, fr) := fa_alloc (nv_frames s) in
  if bounce =? 0 then (false, buf, mkNvme (nv_ctrl s) (nv_dev s) (nv_dma s) fr)
  else
    let '(ok, n, c, d) := io_read (nv_ctrl s) (nv_dev s) (nv_dma s) (block_lba (nv_ctrl s) b) (block_sectors (nv_ctrl s)) bounce in
    let buf := if ok then blit buf (i * PAGE_SIZE) (d_ram d) bounce PAGE_SIZE else buf in
    (ok, buf, mkNvme n c d (fa_unref fr bounce)).

Definition write_one (s : nvme) (b : Z) (buf : mem) (i : Z) : bool * nvme :=
  let '(bounce, fr) := fa_alloc (nv_frames s) in
  if bounce =? 0 then (false, mkNvme (nv_ctrl s) (nv_dev s) (nv_dma s) fr)
  else
    let d := with_ram (nv_dma s) (blit (d_ram (nv_dma s)) bounce buf (i * PAGE_SIZE) PAGE_SIZE) in
    let '(ok, n, c, d) := io_write (nv_ctrl s) (nv_dev s) d (block_lba (nv_ctrl s) b) (block_sectors (nv_ctrl s)) bounce in
    (ok, mkNvme n c d (fa_unref fr bounce)).

Fixpoint nvme_read_loop (k : nat) (s : nvme) (lba : Z) (buf : mem) (i : Z) : bool * mem * nvme :=
  match k with
  | O => (true, buf, s)
  | S k =>
      match read_one s (u64 (lba + i)) buf i with
      | (true, buf, s) => nvme_read_loop k s lba buf (i + 1)
      | (false, buf, s) => (false, buf, s)
      end
  end.
Definition nvme_read_block (s : nvme) (lba count : Z) (buf : mem) : bool * mem * nvme := nvme_read_loop (Z.to_nat count) s lba buf 0.

Fixpoint nvme_write_loop (k : nat) (s : nvme) (lba : Z) (buf : mem) (i : Z) : bool * nvme :=
  match k with
  | O => (true, s)
  | S k =>
      match write_one s (u64 (lba + i)) buf i with
      | (true, s) => nvme_write_loop k s lba buf (i + 1)
      | (false, s) => (false, s)
      end
  end.
Definition nvme_write_block (s : nvme) (lba count : Z) (buf : mem) : bool * nvme := nvme_write_loop (Z.to_nat count) s lba buf 0.

Definition nvme_block_count (n : nvme_ctrl_t) : Z := Z.shiftr (ns_size n) (12 - lba_shift n).

(** ** Attaching

    The admin queue has rings of its own and shares the identifiers. *)
Definition admin_submit (op nsid prp1 cdw10 cdw11 : Z) (aq : nvme_queue) (n : nvme_ctrl_t) (c : C) (d : dma) : bool * nvme_queue * nvme_ctrl_t * C * dma :=
  let '(cid, n) := alloc_cid n in
  let '(ok, _, aq, c, d) := submit_admin aq c d (mkCmd (Z.lor op (u32 (Z.shiftl cid 16))) nsid prp1 0 cdw10 cdw11 0) in
  (ok, aq, n, c, d).

Definition admin_identify (nsid cns buf : Z) (aq : nvme_queue) (n : nvme_ctrl_t) (c : C) (d : dma) :=
  admin_submit ADMIN_IDENTIFY nsid buf cns 0 aq n c (with_ram d (memset (d_ram d) buf 0 PAGE_SIZE)).
Definition admin_set_features_queues := admin_submit 0x09 0 0 0x07 0.
Definition admin_create_io_cq (io_cq_phys : Z) (aq : nvme_queue) (n : nvme_ctrl_t) :=
  admin_submit ADMIN_CREATE_IO_CQ 0 io_cq_phys (Z.lor (Z.shiftl (cq_size (io n) - 1) 16) 1) 1 aq n.
Definition admin_create_io_sq (io_sq_phys : Z) (aq : nvme_queue) (n : nvme_ctrl_t) :=
  admin_submit ADMIN_CREATE_IO_SQ 0 io_sq_phys (Z.lor (Z.shiftl (sq_size (io n) - 1) 16) 1) (Z.lor (Z.shiftl 1 16) 1) aq n.

Definition CNS_NAMESPACE : Z := 0.
Definition CNS_CONTROLLER : Z := 1.

(** The size of the namespace and of its sectors, from the identify page. *)
Definition ns_geometry (m : mem) (buf : Z) : Z * Z :=
  let flbas := m (buf + 0x84) in
  let lbaf := load_le m (buf + 0x130 + Z.land flbas 0xF * 4) 4 in
  let lbads := Z.land (Z.shiftr lbaf 8) 0xFF in
  (ld64 m buf, if negb (lbads =? 0) then lbads + 9 else 9).

(** [nvme_probe] once the controller is enabled, MSI-X set-up aside; [None] is each
    of its [return NULL]. *)
Definition nvme_attach (sq_phys cq_phys buf : Z) (aq : nvme_queue) (n : nvme_ctrl_t) (c : C) (d : dma) : option (nvme_queue * nvme_ctrl_t * C * dma) :=
  let '(ok, aq, n, c, d) := admin_identify 0 CNS_CONTROLLER buf aq n c d in
  if negb ok then None else
  let '(ok, aq, n, c, d) := admin_set_features_queues aq n c d in
  if negb ok then None else
  let '(ok, aq, n, c, d) := admin_create_io_cq cq_phys aq n c d in
  if negb ok then None else
  let '(ok, aq, n, c, d) := admin_create_io_sq sq_phys aq n c d in
  if negb ok then None else
  let '(ok, aq, n, c, d) := admin_identify 1 CNS_NAMESPACE buf aq n c d in
  if negb ok then None else
  let '(size, shift) := ns_geometry (d_ram d) buf in
  if size =? 0 then None else Some (aq, mkCtrl (io n) 1 size shift (next_cid n), c, d).
End driver.
