(* ===== verification/NvmeSpec.v ===== *)
(** * The NVMe driver against its controller

    The documented behaviour of an NVMe controller as a class of laws, the
    invariant that ties the driver's rings to the controller's, and the refinement
    of the driver's block operations to an array of bytes. *)

From S2P Require Import Prelude Poll Mem CString Block Pmm Frames Vmm VmmSpec Nvme.

(** ** What the controller promises *)

(** The queue positions, the namespace and its bytes, as the controller has
    them. *)
Record ctl_view := mkView {
  v_sqsize : Z; v_sqh : Z; v_cqsize : Z; v_cqt : Z; v_phase : Z;
  v_nsid : Z; v_shift : Z; v_sectors : Z; v_byte : mem;
}.

(** A read or write of at most one page, named by PRP1: the namespace and memory
    afterwards. *)
Definition exec_cmd (v : ctl_view) (ram : mem) (cmd : nvme_cmd_t) : option (mem * mem) :=
  let op := Z.land (c_dw0 cmd) 0xFF in
  let lba := c_cdw10 cmd + c_cdw11 cmd * 2 ^ 32 in
  let n := Z.land (c_cdw12 cmd) 0xFFFF + 1 in
  let bytes := n * 2 ^ v_shift v in
  if (c_nsid cmd =? v_nsid v) && (lba + n <=? v_sectors v) && (bytes <=? 4096) && (c_prp1 cmd mod 4096 =? 0) then
    if op =? 2 then Some (v_byte v, blit ram (c_prp1 cmd) (v_byte v) (lba * 2 ^ v_shift v) bytes)
    else if op =? 1 then Some (blit (v_byte v) (lba * 2 ^ v_shift v) ram (c_prp1 cmd) bytes, ram)
    else None
  else None.

Definition next_slot (i size : Z) : Z := (i + 1) mod size.
Definition completed (v : ctl_view) (bytes : mem) : ctl_view :=
  let t := next_slot (v_cqt v) (v_cqsize v) in
  mkView (v_sqsize v) (next_slot (v_sqh v) (v_sqsize v)) (v_cqsize v) t
         (if t =? 0 then 1 - v_phase v else v_phase v) (v_nsid v) (v_shift v) (v_sectors v) bytes.

(** A controller with an empty submission queue does nothing; with a valid
    command at its head it works on it for a while and then executes it and posts
    one completion, which carries the command's identifier, the current phase and
    status zero.  [c_work] bounds the time it still takes, in turns of the
    driver's loop: the poll budget of the driver is not exceeded. *)
Class ControllerLaws (C : Type) `{!Controller C} := {
  c_view : C → ctl_view;
  c_work : C → Z;
  c_work_range c : 0 ≤ c_work c < Zpos IO_SPINS;
  c_idle c d : v_sqh (c_view c) = d_sqdb d → c_step c d = (c, d);
  c_busy c d bytes ram :
    let v := c_view c in
    let cmd := (d_sq d).[v_sqh v] in
    v_sqh v ≠ d_sqdb d → exec_cmd v (d_ram d) cmd = Some (bytes, ram) →
    let '(c', d') := c_step c d in
    (c_view c' = v ∧ c_work c' < c_work c ∧ d' = d) ∨
    (c_view c' = completed v bytes ∧
     ∃ dw0, d' = mkDma (d_sq d) ((d_cq d).[v_cqt v <- mkCqe dw0 (my_cid cmd) (v_phase v)]) (d_sqdb d) (d_cqdb d) ram);
}.

Section spec.
Context {C : Type} `{!Controller C} `{!ControllerLaws C} {F : Type} `{!FrameAlloc F} `{!FrameAllocLaws F}.

(** ** Identifiers *)

(** The identifier given out [k] commands before [c]. *)
Definition cid_back (c k : Z) : Z := (c - 1 - k) mod 65535 + 1.

Lemma alloc_cid_next n : 1 ≤ next_cid n ≤ 65535 → alloc_cid n = (next_cid n, with_cid n (cid_back (next_cid n) (-1))).
Proof.
  intros H. unfold alloc_cid. f_equal. f_equal. change 0xFFFF with (Z.ones 16). rewrite Z.land_ones by lia.
  change (2 ^ 16) with 65536. unfold cid_back. destruct (Z.eq_dec (next_cid n) 65535) as [->|]; [done|].
  rewrite !Z.mod_small by lia. destruct (Z.eqb_spec (next_cid n + 1) 0); lia.
Qed.

(** The completions in the ring are those of the last commands, in order, or
    zero. *)
Definition ring_cids (d : dma) (head size next : Z) : Prop :=
  ∀ i, 0 ≤ i < size → q_cid (d_cq d).[i] = 0 ∨ q_cid (d_cq d).[i] = cid_back next ((head - i - 1) mod size + 1).

Lemma ring_cids_stale d head size next :
  ring_cids d head size next → 0 ≤ head < size → size < 65535 → 1 ≤ next ≤ 65535 → q_cid (d_cq d).[head] ≠ next.
Proof.
  intros Hr Hh Hs Hn. destruct (Hr head Hh) as [->| ->]; [lia|]. unfold cid_back.
  assert ((head - head - 1) mod size + 1 = size) as ->.
  { replace (head - head - 1) with (-1) by lia. rewrite <- (Z.mod_unique (-1) size (-1) (size - 1)); lia. }
  destruct (Z.le_gt_cases size (next - 1)); [rewrite Z.mod_small; lia|].
  rewrite <- (Z.mod_unique (next - 1 - size) 65535 (-1) (next - 1 - size + 65535)); lia.
Qed.

Lemma ring_cids_push d head size next e ram sqdb cqdb sq :
  ring_cids d head size next → zlen (d_cq d) = size → 0 ≤ head < size → 1 ≤ next ≤ 65535 → q_cid e = next →
  ring_cids (mkDma sq ((d_cq d).[head <- e]) sqdb cqdb ram) (next_slot head size) size (cid_back next (-1)).
Proof.
  intros Hr Hl Hh Hn He i Hi. cbn [d_cq]. unfold next_slot. rewrite aget_aset by lia.
  assert (Hb : ∀ k, cid_back (cid_back next (-1)) (k + 1) = cid_back next k).
  { intros k. unfold cid_back. f_equal. replace ((next - 1 - -1) mod 65535 + 1 - 1 - (k + 1)) with ((next - 1 - -1) mod 65535 - (k + 1)) by lia.
    rewrite Zminus_mod_idemp_l. f_equal. lia. }
  assert (Hm : ((head + 1) mod size - i - 1) mod size = (head - i) mod size).
  { replace ((head + 1) mod size - i - 1) with ((head + 1) mod size - (i + 1)) by lia. rewrite Zminus_mod_idemp_l. f_equal. lia. }
  rewrite Hm. destruct (Z.eqb_spec head i) as [->|Hne].
  - right. rewrite He, Z.sub_diag, Z.mod_0_l by lia. rewrite Hb. unfold cid_back. rewrite Z.mod_small by lia. lia.
  - destruct (Hr i Hi) as [->| ->]; [by left|]. right. rewrite <- Hb. f_equal.
    destruct (Z.le_gt_cases i head); [rewrite !Z.mod_small; lia|].
    rewrite <- (Z.mod_unique (head - i - 1) size (-1) (head - i - 1 + size)), <- (Z.mod_unique (head - i) size (-1) (head - i + size)); lia.
Qed.

(** ** One command *)

(** The driver's queue pair and the controller's are in step, and idle. *)
Record in_step (n : nvme_ctrl_t) (c : C) (d : dma) : Prop := {
  is_sq : 2 ≤ sq_size (io n) ∧ v_sqsize (c_view c) = sq_size (io n) ∧ zlen (d_sq d) = sq_size (io n);
  is_tail : 0 ≤ sq_tail (io n) < sq_size (io n) ∧ v_sqh (c_view c) = sq_tail (io n) ∧ d_sqdb d = sq_tail (io n);
  is_cq : 1 ≤ cq_size (io n) < 65535 ∧ v_cqsize (c_view c) = cq_size (io n) ∧ zlen (d_cq d) = cq_size (io n);
  is_head : 0 ≤ cq_head (io n) < cq_size (io n) ∧ v_cqt (c_view c) = cq_head (io n);
  is_phase : (cq_phase (io n) = 0 ∨ cq_phase (io n) = 1) ∧ (v_phase (c_view c) = 0 ∨ v_phase (c_view c) = 1);
  is_cid : 1 ≤ next_cid n ≤ 65535;
  is_cids : ring_cids d (cq_head (io n)) (cq_size (io n)) (next_cid n);
}.

Lemma cid_back_range c k : 1 ≤ cid_back c k ≤ 65535.
Proof. unfold cid_back. pose proof (Z.mod_pos_bound (c - 1 - k) 65535 ltac:(lia)). lia. Qed.

Lemma slot_range i size : 0 < size → 0 ≤ next_slot i size < size.
Proof. intros H. apply Z.mod_pos_bound. lia. Qed.

(** Polling ends with the completion of the one command in the queue. *)
Lemma poll_completes accepts (q : nvme_queue) k c d bytes ram :
  let v := c_view c in
  let cmd := (d_sq d).[v_sqh v] in
  v_sqh v ≠ d_sqdb d → exec_cmd v (d_ram d) cmd = Some (bytes, ram) → v_cqt v = cq_head q → 0 ≤ cq_head q < zlen (d_cq d) →
  accepts ((d_cq d).[cq_head q]) = false → (∀ dw0, accepts (mkCqe dw0 (my_cid cmd) (v_phase v)) = true) → c_work c < Z.of_nat k →
  ∃ c' dw0, c_view c' = completed v bytes ∧
    spin_nat k (poll_turn accepts q) (c, d) =
      inr (c', mkDma (d_sq d) ((d_cq d).[cq_head q <- mkCqe dw0 (my_cid cmd) (v_phase v)]) (d_sqdb d) (d_cqdb d) ram,
           mkCqe dw0 (my_cid cmd) (v_phase v)).
Proof.
  revert c. induction k as [|k IH]; intros c v cmd Hb He Ht Hh Hst Hacc Hk; [pose proof (c_work_range c); lia|].
  cbn [spin_nat]. pose proof (c_busy c d bytes ram Hb He) as Hs. unfold poll_turn at 1. cbn [fst snd]. fold v cmd in Hs.
  destruct (c_step c d) as [c' d']. destruct Hs as [(Hv & Hw & ->)|(Hv & dw0 & ->)].
  - rewrite Hst. specialize (IH c'). cbv zeta in IH. rewrite Hv in IH. apply IH; try done. lia.
  - cbn [d_cq]. rewrite Ht, aget_aset_eq by done. rewrite Hacc. exists c', dw0. done.
Qed.

Lemma io_accepts_phase q cmd dw0 ph : (cq_phase q = 0 ∨ cq_phase q = 1) → (ph = 0 ∨ ph = 1) → io_accepts q cmd (mkCqe dw0 (my_cid cmd) ph) = true.
Proof. intros H1 H2. unfold io_accepts. cbn [q_cid q_phase_status]. rewrite Z.eqb_refl. by destruct H1 as [->| ->], H2 as [->| ->]. Qed.

(** A valid command is executed exactly once: the namespace and memory change as
    the command says, and both sides are in step again. *)
Lemma submit_io_ok n c d cmd bytes ram :
  in_step n c d → my_cid cmd = next_cid n → exec_cmd (c_view c) (d_ram d) cmd = Some (bytes, ram) →
  ∃ r q c' d', submit_io (io n) c d cmd = (true, r, q, c', d') ∧ c_view c' = completed (c_view c) bytes ∧ d_ram d' = ram ∧
    in_step (with_cid (with_io n q) (cid_back (next_cid n) (-1))) c' d'.
Proof.
  intros [(A1 & A2 & A3) (B1 & B2 & B3) (D1 & D2 & D3) (E1 & E2) (G1 & G2) H1 H2] Hcid He. unfold submit_io, submit, ring_submit.
  set (tail := (sq_tail (io n) + 1) mod sq_size (io n)).
  set (q1 := mkQueue _ tail _ _ _). set (d1 := mkDma _ _ tail _ _).
  assert (Htail : tail ≠ sq_tail (io n)).
  { unfold tail. destruct (Z.eq_dec (sq_tail (io n) + 1) (sq_size (io n))) as [E|]; [rewrite E, Z_mod_same_full; lia|rewrite Z.mod_small; lia]. }
  rewrite spin_spec. assert (Hcmd : (d_sq d1).[v_sqh (c_view c)] = cmd) by (rewrite B2; apply aget_aset_eq; lia).
  pose proof (poll_completes (io_accepts q1 cmd) q1 (Pos.to_nat IO_SPINS) c d1 bytes ram) as Hp. cbv zeta in Hp. rewrite Hcmd in Hp.
  destruct Hp as (c' & dw0 & Hv & ->).
  - cbn [d_sqdb d1]. lia.
  - done.
  - done.
  - cbn [cq_head q1 d_cq d1]. lia.
  - unfold io_accepts. cbn [d_cq d1 cq_head q1]. rewrite Hcid, (proj2 (Z.eqb_neq _ _)); [done|].
    eapply ring_cids_stale; [exact H2|done|lia|done].
  - intros dw0. by apply io_accepts_phase.
  - pose proof (c_work_range c). lia.
  - unfold ring_advance. cbn [cqe_status q_phase_status]. assert (Hs : cqe_status (mkCqe dw0 (my_cid cmd) (v_phase (c_view c))) = 0)
      by (unfold cqe_status; cbn; by destruct G2 as [->| ->]). rewrite Hs. cbn [negb Z.eqb].
    eexists _, _, c', _. split; [reflexivity|]. split; [done|]. split; [done|].
    set (head := (cq_head q1 + 1) mod cq_size q1).
    assert (Hhead : head = next_slot (cq_head (io n)) (cq_size (io n))) by done.
    split; cbn [io with_cid with_io sq_size sq_tail cq_size cq_head cq_phase next_cid d_sq d_cq d_sqdb d_cqdb q1 d1]; rewrite ?Hv; cbn [completed v_sqsize v_sqh v_cqsize v_cqt v_phase].
    + rewrite zlen_aset. done.
    + rewrite A2, B2. split; [apply Z.mod_pos_bound; lia|done].
    + rewrite zlen_aset. done.
    + rewrite D2, E2. split; [rewrite Hhead; apply slot_range; lia|done].
    + split; [destruct (head =? 0); [destruct G1 as [->| ->]; [by right|by left]|done]|].
      destruct (next_slot (v_cqt (c_view c)) (v_cqsize (c_view c)) =? 0); [destruct G2 as [->| ->]; [by right|by left]|done].
    + apply cid_back_range.
    + rewrite Hhead. by apply (ring_cids_push d1).
Qed.

(** ** The commands of a block *)

Lemma io_cmd_dw0 op cid : 0 ≤ op < 256 → 1 ≤ cid ≤ 65535 →
  Z.land (Z.lor op (u32 (Z.shiftl cid 16))) 0xFF = op ∧ Z.land (Z.shiftr (Z.lor op (u32 (Z.shiftl cid 16))) 16) 0xFFFF = cid.
Proof.
  intros Ho Hc. rewrite Z.shiftl_mul_pow2, u32_small by lia. change 0xFF with (Z.ones 8). change 0xFFFF with (Z.ones 16).
  assert (E : Z.lor op (cid * 2 ^ 16) = op + cid * 2 ^ 16).
  { rewrite <- Z.lxor_lor, <- Z.add_nocarry_lxor; try done; rewrite <- Z.shiftl_mul_pow2 by lia; apply Z.bits_inj'; intros k Hk;
      rewrite Z.land_spec, Z.shiftl_spec, Z.bits_0 by lia;
      (destruct (Z.le_gt_cases 8 k);
       [rewrite <- (Z.mod_small op (2 ^ 8)), Z.mod_pow2_bits_high by lia; done
       |rewrite (Z.testbit_neg_r cid) by lia; apply andb_false_r]). }
  rewrite E, Z.shiftr_div_pow2, !Z.land_ones by lia. zlia.
Qed.

(** The driver's geometry is the controller's, and a bounce frame can be had.  The
    geometry is what [nvme_attach] reads from the identify page: that of a namespace
    with 512-byte sectors ([attach_geometry]), and wrong for one with larger sectors
    ([sector_size_ignored]). *)
Record nvme_inv (s : nvme (C := C) (F := F)) : Prop := {
  ni_step : in_step (nv_ctrl s) (nv_dev s) (nv_dma s);
  ni_nsid : n_nsid (nv_ctrl s) = v_nsid (c_view (nv_dev s));
  ni_shift : lba_shift (nv_ctrl s) = v_shift (c_view (nv_dev s)) ∧ 9 ≤ lba_shift (nv_ctrl s) ≤ 12;
  ni_size : ns_size (nv_ctrl s) = v_sectors (c_view (nv_dev s)) ∧ 0 ≤ ns_size (nv_ctrl s) < 2 ^ 64;
  ni_frames : fa_ok (nv_frames s) ∧ ∃ t, fa_free (nv_frames s) t;
}.

Definition disk (s : nvme (C := C) (F := F)) : mem := v_byte (c_view (nv_dev s)).

(** The geometry of a block: where it is on the namespace. *)
Lemma block_geometry n b : 9 ≤ lba_shift n ≤ 12 → 0 ≤ ns_size n < 2 ^ 64 → 0 ≤ b < nvme_block_count n →
  block_lba n b * 2 ^ lba_shift n = b * 4096 ∧ block_sectors n * 2 ^ lba_shift n = 4096 ∧
  0 ≤ block_lba n b < 2 ^ 64 ∧ block_lba n b + block_sectors n ≤ ns_size n ∧ 1 ≤ block_sectors n ≤ 8.
Proof.
  intros Hs Hn. unfold nvme_block_count, block_lba, block_sectors. rewrite Z.shiftr_div_pow2, !Z.shiftl_mul_pow2 by lia. intros Hb.
  assert (Hc : lba_shift n = 9 ∨ lba_shift n = 10 ∨ lba_shift n = 11 ∨ lba_shift n = 12) by lia.
  destruct Hc as [E|[E|[E|E]]]; rewrite E in *; rewrite ?u64_small by zlia; zlia.
Qed.

Lemma exec_block v ram op cid n b t :
  n_nsid n = v_nsid v → lba_shift n = v_shift v → 9 ≤ lba_shift n ≤ 12 → ns_size n = v_sectors v → 0 ≤ ns_size n < 2 ^ 64 →
  0 ≤ b < nvme_block_count n → t mod 4096 = 0 → op = 1 ∨ op = 2 → 1 ≤ cid ≤ 65535 →
  exec_cmd v ram (io_cmd op cid (n_nsid n) t (block_lba n b) (block_sectors n)) =
  Some (if op =? 2 then (v_byte v, blit ram t (v_byte v) (b * 4096) 4096) else (blit (v_byte v) (b * 4096) ram t 4096, ram)).
Proof.
  intros Hi Hs Hr Hn Hnr Hb Ht Ho Hc. destruct (block_geometry n b Hr Hnr Hb) as (G1 & G2 & G3 & G4 & G5).
  destruct (io_cmd_dw0 op cid ltac:(lia) Hc) as [E1 _].
  unfold exec_cmd, io_cmd. cbn [c_dw0 c_nsid c_prp1 c_cdw10 c_cdw11 c_cdw12]. rewrite E1.
  assert (L : u32 (block_lba n b) + u32 (Z.shiftr (block_lba n b) 32) * 2 ^ 32 = block_lba n b).
  { rewrite Z.shiftr_div_pow2 by lia. unfold u32. zlia. }
  assert (N : Z.land (u32 (block_sectors n - 1)) 0xFFFF + 1 = block_sectors n).
  { change 0xFFFF with (Z.ones 16). rewrite u32_small, Z.land_ones, Z.mod_small by lia. lia. }
  rewrite L, N, <- Hs, <- Hn, <- Hi, G1, G2, Z.eqb_refl, (proj2 (Z.leb_le _ _) G4), Ht. cbn [andb Z.leb Z.eqb].
  by destruct Ho as [->| ->].
Qed.

(** One transfer: what the controller's namespace and memory hold afterwards. *)
Lemma io_transfer_ok (s : nvme (C := C) (F := F)) op ram b t bytes ram' fr :
  nvme_inv s → (op = 1 ∨ op = 2) → 0 ≤ b < nvme_block_count (nv_ctrl s) → t mod 4096 = 0 →
  (bytes, ram') = (if op =? 2 then (disk s, blit ram t (disk s) (b * 4096) 4096) else (blit (disk s) (b * 4096) ram t 4096, ram)) →
  fa_ok fr → (∃ u, fa_free fr u) →
  ∃ n c d, io_transfer op (nv_ctrl s) (nv_dev s) (with_ram (nv_dma s) ram) (block_lba (nv_ctrl s) b) (block_sectors (nv_ctrl s)) t = (true, n, c, d) ∧
    let s' := mkNvme n c d fr in
    nvme_inv s' ∧ nvme_block_count n = nvme_block_count (nv_ctrl s) ∧ disk s' = bytes ∧ d_ram d = ram'.
Proof.
  intros [Hst Hid [Hsh Hshr] [Hsz Hszr] Hfr] Ho Hb Ht Hres Hok Hfree.
  assert (Hst' : in_step (nv_ctrl s) (nv_dev s) (with_ram (nv_dma s) ram)) by (destruct Hst; by split).
  pose proof (is_cid _ _ _ Hst) as Hcid. unfold io_transfer. rewrite (alloc_cid_next _ Hcid). cbn [io with_cid n_nsid].
  set (cmd := io_cmd _ _ _ _ _ _).
  assert (He : exec_cmd (c_view (nv_dev s)) ram cmd = Some (bytes, ram')).
  { rewrite Hres. by apply exec_block. }
  destruct (submit_io_ok _ _ (with_ram (nv_dma s) ram) cmd bytes ram' Hst') as (r & q & c' & d' & -> & Hv & Hram & Hin).
  { exact (proj2 (io_cmd_dw0 op _ ltac:(lia) Hcid)). }
  { exact He. }
  eexists _, c', d'. split; [reflexivity|]. cbv zeta. split; [|split; [done|split; [unfold disk; cbn [nv_dev]; by rewrite Hv|done]]].
  split; cbn [nv_ctrl nv_dev nv_dma nv_frames]; rewrite ?Hv; done.
Qed.

(** The pool of frames is the same after a frame was taken and given back. *)
Definition same_pool (f f' : F) : Prop := ∀ u, fa_free f' u ↔ fa_free f u.

Lemma bounce_frame f : fa_ok f → (∃ t, fa_free f t) →
  ∃ t f', fa_alloc f = (t, f') ∧ t ≠ 0 ∧ t mod 4096 = 0 ∧ fa_free f t ∧ fa_ok (fa_unref f' t) ∧ same_pool f (fa_unref f' t).
Proof.
  intros Hok [u Hu]. destruct (fa_alloc_spec f Hok) as [[_ Hn]|(t & f' & E & Ht & Hok' & _ & Hfr & Hrc)]; [by destruct (Hn u)|].
  exists t, f'. destruct (fa_free_frame f t Hok Ht) as (Hlo & _ & Hal & _). unfold LOW_FRAMES, PAGE_SIZE in Hlo.
  assert (H1 : fa_refcount f' t = 1) by (rewrite Hrc, Z.eqb_refl by (done || lia); done).
  destruct (fa_unref_spec f' t Hok' Hal Hlo ltac:(lia)) as (Hok2 & _ & Hfr2 & _).
  split_and!; [done|lia|done|done|done|]. intros v. rewrite Hfr2, Hfr. split; [intros [[? _]|[-> _]]; done|].
  intros Hv. destruct (Z.eq_dec v t) as [->|]; [right; done|left; done].
Qed.

(** Memory is unchanged except in free frames. *)
Definition ram_kept (f : F) (m m' : mem) : Prop := ∀ a, (∀ t, fa_free f t → a < t ∨ t + 4096 ≤ a) → m' a = m a.

Definition block_step (s s' : nvme (C := C) (F := F)) : Prop :=
  nvme_inv s' ∧ nvme_block_count (nv_ctrl s') = nvme_block_count (nv_ctrl s) ∧
  same_pool (nv_frames s) (nv_frames s') ∧ ram_kept (nv_frames s) (d_ram (nv_dma s)) (d_ram (nv_dma s')).

Lemma read_one_ok s b buf i : nvme_inv s → 0 ≤ b < nvme_block_count (nv_ctrl s) →
  ∃ m s', read_one s b buf i = (true, blit buf (i * 4096) m 0 4096, s') ∧ (∀ a, 0 ≤ a < 4096 → m a = disk s (b * 4096 + a)) ∧
    block_step s s' ∧ disk s' = disk s.
Proof.
  intros Hi Hb. destruct (ni_frames s Hi) as [Hok Hex]. destruct (bounce_frame _ Hok Hex) as (t & f' & E & Ht0 & Hal & Hft & Hok' & Hsp).
  unfold read_one. rewrite E, (proj2 (Z.eqb_neq _ _) Ht0). unfold io_read.
  destruct (io_transfer_ok s IO_OPCODE_READ (d_ram (nv_dma s)) b t _ _ (fa_unref f' t) Hi (or_intror eq_refl) Hb Hal eq_refl Hok')
    as (n & c & d & Et & Hi' & Hc & Hd & Hr).
  { destruct Hex as [u Hu]. exists u. by apply Hsp. }
  replace (with_ram (nv_dma s) (d_ram (nv_dma s))) with (nv_dma s) in Et by (by destruct (nv_dma s)). rewrite Et.
  exists (λ a, d_ram d (t + a)), (mkNvme n c d (fa_unref f' t)). split; [reflexivity|]. split; [|split; [split_and!; try done|done]].
  - intros a Ha. rewrite Hr, blit_in by lia. f_equal. lia.
  - intros a Ha. cbn [nv_dma]. rewrite Hr, blit_out; [done|]. by apply Ha.
Qed.

Lemma write_one_ok s b buf i : nvme_inv s → 0 ≤ b < nvme_block_count (nv_ctrl s) →
  ∃ m s', write_one s b buf i = (true, s') ∧ (∀ a, 0 ≤ a < 4096 → m a = buf (i * 4096 + a)) ∧
    block_step s s' ∧ disk s' = blit (disk s) (b * 4096) m 0 4096.
Proof.
  intros Hi Hb. destruct (ni_frames s Hi) as [Hok Hex]. destruct (bounce_frame _ Hok Hex) as (t & f' & E & Ht0 & Hal & Hft & Hok' & Hsp).
  unfold write_one. rewrite E, (proj2 (Z.eqb_neq _ _) Ht0). unfold io_write. set (ram := blit _ t _ _ _).
  destruct (io_transfer_ok s IO_OPCODE_WRITE ram b t _ _ (fa_unref f' t) Hi (or_introl eq_refl) Hb Hal eq_refl Hok')
    as (n & c & d & Et & Hi' & Hc & Hd & Hr).
  { destruct Hex as [u Hu]. exists u. by apply Hsp. }
  rewrite Et. exists (λ a, ram (t + a)), (mkNvme n c d (fa_unref f' t)). split; [reflexivity|].
  split; [|split; [split_and!; try done|exact Hd]].
  - intros a Ha. unfold ram, PAGE_SIZE. rewrite blit_in by lia. f_equal. lia.
  - intros a Ha. cbn [nv_dma]. rewrite Hr. unfold ram, PAGE_SIZE. rewrite blit_out; [done|]. by apply Ha.
Qed.

(** ** Runs of blocks *)

Lemma block_step_refl s : nvme_inv s → block_step s s.
Proof. by intros H. Qed.

Lemma block_step_trans s1 s2 s3 : block_step s1 s2 → block_step s2 s3 → block_step s1 s3.
Proof.
  intros (_ & C1 & P1 & R1) (I & C2 & P2 & R2). split; [done|]. split; [congruence|]. split.
  - intros u. rewrite (P2 u). apply P1.
  - intros a Ha. rewrite R2, R1; [done|done|]. intros t Ht. apply Ha. by apply P1.
Qed.

Lemma block_count_range s : nvme_inv s → 0 ≤ nvme_block_count (nv_ctrl s) < 2 ^ 64.
Proof.
  intros Hi. destruct (ni_size s Hi) as [_ Hn], (ni_shift s Hi) as [_ Hs]. unfold nvme_block_count. rewrite Z.shiftr_div_pow2 by lia.
  pose proof (Z.pow_pos_nonneg 2 (12 - lba_shift (nv_ctrl s)) ltac:(lia) ltac:(lia)).
  split; [apply Z.div_pos; lia|]. apply (Z.le_lt_trans _ (ns_size (nv_ctrl s))); [|lia]. apply Z.div_le_upper_bound; nia.
Qed.

Lemma nvme_read_loop_ok k s lba buf i :
  nvme_inv s → 0 ≤ lba → 0 ≤ i → lba + i + Z.of_nat k ≤ nvme_block_count (nv_ctrl s) →
  ∃ buf' s', nvme_read_loop k s lba buf i = (true, buf', s') ∧
    (∀ a, buf' a = if (i * 4096 <=? a) && (a <? (i + Z.of_nat k) * 4096) then disk s (lba * 4096 + a) else buf a) ∧
    block_step s s' ∧ disk s' = disk s.
Proof.
  revert s buf i. induction k as [|k IH]; intros s buf i Hs Hl Hi Hk; cbn [nvme_read_loop].
  { exists buf, s. split; [done|]. split; [|split; [by apply block_step_refl|done]]. intros a. case_if; [bools; lia|done]. }
  pose proof (block_count_range s Hs). rewrite u64_small by lia.
  destruct (read_one_ok s (lba + i) buf i Hs ltac:(lia)) as (m & s1 & -> & Hm & Hstep & Hd).
  destruct (IH s1 (blit buf (i * 4096) m 0 4096) (i + 1)) as (buf' & s' & -> & Hb & Hstep' & Hd'); [apply Hstep|lia|lia|rewrite (proj1 (proj2 Hstep)); lia|].
  exists buf', s'. split; [done|]. split; [|split; [by eapply block_step_trans|congruence]]. intros a. rewrite Hb, Hd.
  destruct (Z.leb_spec ((i + 1) * 4096) a), (Z.ltb_spec a ((i + 1 + Z.of_nat k) * 4096)), (Z.leb_spec (i * 4096) a), (Z.ltb_spec a ((i + Z.of_nat (S k)) * 4096));
    cbn [andb]; try lia; try done; try (rewrite blit_out by lia; done).
  rewrite blit_in, Hm by lia. f_equal. lia.
Qed.

Lemma nvme_write_loop_ok k s lba buf i :
  nvme_inv s → 0 ≤ lba → 0 ≤ i → lba + i + Z.of_nat k ≤ nvme_block_count (nv_ctrl s) →
  ∃ s', nvme_write_loop k s lba buf i = (true, s') ∧ block_step s s' ∧
    ∀ a, disk s' a = if ((lba + i) * 4096 <=? a) && (a <? (lba + i + Z.of_nat k) * 4096) then buf (a - lba * 4096) else disk s a.
Proof.
  revert s i. induction k as [|k IH]; intros s i Hs Hl Hi Hk; cbn [nvme_write_loop].
  { exists s. split; [done|]. split; [by apply block_step_refl|]. intros a. case_if; [bools; lia|done]. }
  pose proof (block_count_range s Hs). rewrite u64_small by lia.
  destruct (write_one_ok s (lba + i) buf i Hs ltac:(lia)) as (m & s1 & -> & Hm & Hstep & Hd).
  destruct (IH s1 (i + 1)) as (s' & -> & Hstep' & Hd'); [apply Hstep|lia|lia|rewrite (proj1 (proj2 Hstep)); lia|].
  exists s'. split; [done|]. split; [by eapply block_step_trans|]. intros a. rewrite Hd', Hd.
  destruct (Z.leb_spec ((lba + (i + 1)) * 4096) a), (Z.ltb_spec a ((lba + (i + 1) + Z.of_nat k) * 4096)), (Z.leb_spec ((lba + i) * 4096) a), (Z.ltb_spec a ((lba + i + Z.of_nat (S k)) * 4096));
    cbn [andb]; try lia; try done; try (rewrite blit_out by lia; done).
  rewrite blit_in, Hm by lia. f_equal. lia.
Qed.

(** ** The driver as a disk *)

(** A history of transfers, and what the caller sees of each: the result, and for
    a read the bytes. *)
Inductive blk_op := BRead (lba count : Z) (buf : mem) | BWrite (lba count : Z) (buf : mem).
Definition buf_bytes (buf : mem) (n : Z) : list Z := map buf (seqZ 0 n).
Definition op_within (limit : Z) (o : blk_op) : Prop :=
  match o with BRead lba count _ | BWrite lba count _ => 0 ≤ lba ∧ 0 ≤ count ∧ lba + count ≤ limit end.

Definition nvme_op (o : blk_op) (s : nvme (C := C) (F := F)) : bool * list Z * nvme (C := C) (F := F) :=
  match o with
  | BRead lba count buf => let '(ok, buf, s) := nvme_read_block s lba count buf in (ok, buf_bytes buf (count * 4096), s)
  | BWrite lba count buf => let '(ok, s) := nvme_write_block s lba count buf in (ok, [], s)
  end.
Definition ramdisk_op (o : blk_op) (r : ramdisk) : bool * list Z * ramdisk :=
  match o with
  | BRead lba count buf => let '(ok, buf) := ramdisk_read r lba count buf in (ok, buf_bytes buf (count * 4096), r)
  | BWrite lba count buf => let '(ok, r) := ramdisk_write r lba count buf in (ok, [], r)
  end.

Fixpoint run_ops {S} (op : blk_op → S → bool * list Z * S) (os : list blk_op) (s : S) : list (bool * list Z) * S :=
  match os with
  | [] => ([], s)
  | o :: os => let '(r, s) := op o s in let '(rs, s) := run_ops op os s in (r :: rs, s)
  end.

Definition disk_sim (s : nvme (C := C) (F := F)) (r : ramdisk) : Prop :=
  rd_count r = nvme_block_count (nv_ctrl s) ∧ ∀ a, 0 ≤ a < rd_count r * 4096 → rd_mem r (rd_base r + a) = disk s a.

Lemma nvme_op_sim o s r : nvme_inv s → disk_sim s r → op_within (rd_count r) o →
  (nvme_op o s).1 = (ramdisk_op o r).1 ∧ disk_sim (nvme_op o s).2 (ramdisk_op o r).2 ∧ block_step s (nvme_op o s).2 ∧
  rd_count (ramdisk_op o r).2 = rd_count r.
Proof.
  intros Hi [Hc Hd] Ho. pose proof (block_count_range s Hi). destruct o as [lba count buf|lba count buf]; destruct Ho as (H1 & H2 & H3).
  - unfold nvme_op, nvme_read_block, ramdisk_op, ramdisk_read.
    destruct (nvme_read_loop_ok (Z.to_nat count) s lba buf 0 Hi ltac:(lia) ltac:(lia) ltac:(lia)) as (buf' & s' & -> & Hb & Hstep & Hd').
    rewrite u64_small, (proj2 (Z.ltb_ge _ _)) by lia. cbn [fst snd].
    split; [|split; [split; [rewrite (proj1 (proj2 Hstep)); exact Hc|by rewrite Hd']|split; [exact Hstep|done]]].
    f_equal. apply map_ext_in. intros a Ha%list_elem_of_In. apply elem_of_seqZ in Ha. rewrite Hb. unfold BLOCK_SIZE. rewrite blit_in by lia.
    rewrite (proj2 (Z.leb_le _ _)), (proj2 (Z.ltb_lt _ _)) by lia. cbn [andb]. rewrite <- Hd by lia. f_equal. lia.
  - unfold nvme_op, nvme_write_block, ramdisk_op, ramdisk_write.
    destruct (nvme_write_loop_ok (Z.to_nat count) s lba buf 0 Hi ltac:(lia) ltac:(lia) ltac:(lia)) as (s' & -> & Hstep & Hd').
    rewrite u64_small, (proj2 (Z.ltb_ge _ _)) by lia. cbn [fst snd rd_count rd_mem rd_base].
    split; [done|]. split; [split; [rewrite (proj1 (proj2 Hstep)); exact Hc|]|split; [exact Hstep|done]].
    intros a Ha. rewrite Hd'. unfold BLOCK_SIZE. cbn [rd_count rd_mem rd_base] in *.
    destruct (Z.leb_spec ((lba + 0) * 4096) a), (Z.ltb_spec a ((lba + 0 + Z.of_nat (Z.to_nat count)) * 4096)); cbn [andb];
      [rewrite blit_in by lia; f_equal; lia|rewrite blit_out by lia; by apply Hd..].
Qed.

(** C24: against a controller that follows its specification, with the driver's idea
    of the namespace's size and sectors being right ([nvme_inv]), every history of
    block transfers inside the device, of any length, succeeds and shows the
    caller exactly what a RAM disk with the same contents would show: results and
    bytes read agree, and so do the contents afterwards.  The command
    identifiers keep a completion left over in the ring from being taken for a new
    one however often the rings and the identifiers wrap around, and the phase bit
    is not needed.  The bounce frames are given back, and memory outside free
    frames is untouched. *)
Theorem nvme_refines_ramdisk os s r :
  nvme_inv s → disk_sim s r → Forall (op_within (rd_count r)) os →
  (run_ops nvme_op os s).1 = (run_ops ramdisk_op os r).1 ∧ disk_sim (run_ops nvme_op os s).2 (run_ops ramdisk_op os r).2 ∧
  block_step s (run_ops nvme_op os s).2.
Proof.
  revert s r. induction os as [|o os IH]; intros s r Hi Hsim Hos; [split; [done|]; split; [done|by apply block_step_refl]|].
  apply Forall_cons in Hos as [Ho Hos]. destruct (nvme_op_sim o s r Hi Hsim Ho) as (E1 & E2 & E3 & E4). cbn [run_ops].
  destruct (nvme_op o s) as [x s1], (ramdisk_op o r) as [y r1]. cbn [fst snd] in *. rewrite <- E4 in Hos.
  destruct (IH s1 r1 (proj1 E3) E2 Hos) as (F1 & F2 & F3).
  destruct (run_ops nvme_op os s1) as [xs s2], (run_ops ramdisk_op os r1) as [ys r2]. cbn [fst snd] in *.
  split; [congruence|]. split; [done|by eapply block_step_trans].
Qed.

(** ** Attaching *)

Lemma admin_submit_ctrl op nsid prp1 x y aq n c d : (admin_submit op nsid prp1 x y aq n c d).1.1.2 = (alloc_cid n).2.
Proof. unfold admin_submit. destruct (alloc_cid n). by destruct (submit_admin _ _ _ _) as [[[[? ?] ?] ?] ?]. Qed.

#[local] Opaque admin_submit memset.
(** An attached controller: the five admin commands took five identifiers, the
    I/O rings are as they were, and the namespace is not empty. *)
Lemma nvme_attach_ready sq cq buf aq n c d aq' n' c' d' :
  nvme_attach sq cq buf aq n c d = Some (aq', n', c', d') → next_cid n = 1 →
  io n' = io n ∧ n_nsid n' = 1 ∧ next_cid n' = 6 ∧ ns_size n' ≠ 0 ∧ (ns_size n', lba_shift n') = ns_geometry (d_ram d') buf ∧ 9 ≤ lba_shift n'.
Proof.
  intros E Hc. unfold nvme_attach, admin_identify, admin_set_features_queues, admin_create_io_cq, admin_create_io_sq in E.
  repeat match type of E with
  | context [admin_submit ?a ?b ?c ?d ?e ?f ?g ?h ?i] =>
      pose proof (admin_submit_ctrl a b c d e f g h i); destruct (admin_submit a b c d e f g h i) as [[[[[] ?] ?] ?] ?]; cbn [negb] in E; [|done]
  end.
  cbn [fst snd] in *. subst. destruct (ns_geometry _ buf) as [size shift] eqn:G. destruct (Z.eqb_spec size 0); [done|]. simplify_eq/=.
  unfold alloc_cid. rewrite Hc, G. cbn. split_and!; try done. unfold ns_geometry in G. injection G as _ <-. case_if; [|lia].
  match goal with |- 9 ≤ ?x + 9 => assert (0 ≤ x); [|lia] end. apply Z.land_nonneg. right. lia.
Qed.

(** After attaching a namespace 1 of 512-byte sectors, whose identify page gives its
    size and has zeros where the driver looks for the format, the driver's geometry
    is the controller's. *)
Lemma attach_geometry sq cq buf aq n c d aq' n' c' d' :
  nvme_attach sq cq buf aq n c d = Some (aq', n', c', d') → next_cid n = 1 →
  let v := c_view c' in
  v_nsid v = 1 → v_shift v = 9 → ld64 (d_ram d') buf = v_sectors v →
  d_ram d' (buf + 0x84) = 0 → load_le (d_ram d') (buf + 0x130) 4 = 0 →
  n_nsid n' = v_nsid v ∧ lba_shift n' = v_shift v ∧ ns_size n' = v_sectors v.
Proof.
  intros E Hc v H1 H2 H3 H4 H5. destruct (nvme_attach_ready _ _ _ _ _ _ _ _ _ _ _ E Hc) as (_ & -> & _ & _ & G & _).
  unfold ns_geometry in G. rewrite H4 in G. change (Z.land 0 0xF * 4) with 0 in G. rewrite Z.add_0_r, H5 in G. injection G as -> ->. by rewrite H1, H2.
Qed.

(** A completion of another command at the head of the ring stops the queue: the
    driver only ever advances past the command it waits for.  This is the state
    a poll that timed out leaves behind when its completion arrives late. *)
Lemma foreign_completion_wedges q c d cmd :
  0 ≤ cq_head q → q_cid (d_cq d).[cq_head q] ≠ my_cid cmd →
  (∀ c d, (d_cq (c_step c d).2).[cq_head q] = (d_cq d).[cq_head q]) →
  ∃ q' c' d', submit_io q c d cmd = (false, None, q', c', d') ∧ cq_head q' = cq_head q ∧ (d_cq d').[cq_head q] = (d_cq d).[cq_head q].
Proof.
  intros Hh Hne Hk. unfold submit_io, submit, ring_submit. set (q1 := mkQueue _ _ _ _ _). set (d1 := mkDma _ _ _ _ _).
  assert (H : ∀ n s, (d_cq s.2).[cq_head q] = (d_cq d).[cq_head q] →
    ∃ s', spin_nat n (poll_turn (io_accepts q1 cmd) q1) s = inl s' ∧ (d_cq s'.2).[cq_head q] = (d_cq d).[cq_head q]).
  { induction n as [|n IH]; intros s Hs; [by exists s|]. cbn [spin_nat]. unfold poll_turn at 1. specialize (Hk s.1 s.2).
    destruct (c_step s.1 s.2) as [c2 d2]. cbn [snd cq_head q1] in *. unfold io_accepts at 1. rewrite Hk, Hs, (proj2 (Z.eqb_neq _ _) Hne). cbn [andb].
    apply IH. cbn [snd]. congruence. }
  destruct (H (Pos.to_nat IO_SPINS) (c, d1) eq_refl) as ([c' d'] & E & E'). rewrite spin_spec, E. by exists q1, c', d'.
Qed.
End spec.

(** ** A controller that completes each command at once *)

Module NvmeDemo.
Definition model_step (v : ctl_view) (d : dma) : ctl_view * dma :=
  if v_sqh v =? d_sqdb d then (v, d)
  else
    let cmd := (d_sq d).[v_sqh v] in
    let '(ps, bytes, ram) :=
      match exec_cmd v (d_ram d) cmd with Some (b, r) => (v_phase v, b, r) | None => (v_phase v + 2, v_byte v, d_ram d) end in
    (completed v bytes, mkDma (d_sq d) ((d_cq d).[v_cqt v <- mkCqe 0 (my_cid cmd) ps]) (d_sqdb d) (d_cqdb d) ram).
#[global] Instance model_controller : Controller ctl_view := {| c_step := model_step |}.

#[global] Instance model_laws : ControllerLaws ctl_view.
Proof.
  refine {| c_view := λ v, v; c_work := λ _, 0 |}.
  - intros _. split; [lia|reflexivity].
  - intros v d H. unfold c_step, model_controller, model_step. by rewrite (proj2 (Z.eqb_eq _ _) H).
  - intros v d bytes ram v' cmd Hb He. unfold c_step, model_controller, model_step. subst v' cmd. cbv beta in *.
    rewrite (proj2 (Z.eqb_neq _ _) Hb), He. right. split; [done|]. by exists 0.
Defined.

(** The rings as [nvme_probe] leaves them, with a namespace of 64 sectors of 512
    bytes. *)
Definition demo_view : ctl_view := mkView 64 0 64 0 1 1 9 64 (λ a, a mod 251).
Definition demo_ctrl : nvme_ctrl_t := mkCtrl (mkQueue 64 0 64 0 0) 1 64 9 6.
Definition demo_dma : dma := mkDma (replicate 64 cmd_zero) (replicate 64 (mkCqe 0 0 0)) 0 0 (λ _, 0).
Definition demo_nvme : nvme (C := ctl_view) (F := pmm) := mkNvme demo_ctrl demo_view demo_dma demo_pmm.
Definition demo_ramdisk : ramdisk := mkRamdisk 8 0 (λ a, a mod 251).

Lemma demo_in_step : in_step demo_ctrl demo_view demo_dma.
Proof.
  split; [cbn; split_and!; (lia || reflexivity)..|cbn; auto|cbn; lia|]. intros i Hi. left. cbn [d_cq demo_dma].
  assert (H : ∀ n, q_cid (replicate n (mkCqe 0 0 0)).[i] = 0); [|apply H].
  intros n. unfold aget, lookup_total, list_lookup_total. clear. generalize (Z.to_nat i) as k. induction n as [|n IH]; intros [|k]; cbn; auto.
Qed.

Lemma demo_inv : nvme_inv demo_nvme.
Proof.
  split; [exact demo_in_step|done|split; [done|cbn; lia]|split; [done|cbn; lia]|].
  split; [exact VmmDemo.demo_pmm_ok|]. exists (257 * 4096). split; [done|exact demo_free].
Qed.
End NvmeDemo.

(** The identify page of a namespace with 4096-byte sectors: size, FLBAS at byte
    26, and LBADS = 12 in bits 16-23 of the LBA format at byte 128.  The driver
    looks elsewhere and takes the sectors for 512 bytes. *)
Lemma sector_size_ignored :
  let m := store_le (store_le (λ _, 0) 0 8 1024) 128 4 (12 * 2 ^ 16) in
  Z.land (Z.shiftr (load_le m (128 + m 26 * 4) 4) 16) 0xFF = 12 ∧ ns_geometry m 0 = (1024, 9).
Proof. vm_compute. done. Qed.

(** Witness of [nvme_refines_ramdisk]: one block written, then two read. *)
Lemma nvme_refines_ramdisk_witness :
  let os := [BWrite 3 1 (λ a, a mod 7); BRead 2 2 (λ _, 0)] in
  (run_ops nvme_op os NvmeDemo.demo_nvme).1 = (run_ops ramdisk_op os NvmeDemo.demo_ramdisk).1.
Proof.
  intros os. apply (nvme_refines_ramdisk os NvmeDemo.demo_nvme NvmeDemo.demo_ramdisk).
  - exact NvmeDemo.demo_inv.
  - split; [reflexivity|done].
  - repeat constructor; cbn; lia.
Defined.
