(* ===== verification/Virtio.v ===== *)
(** * Virtio queues and the drivers on them

    [kernel/hal/virtio/virtio_pci.c]: split virtqueues; [kernel/hal/net/virtio_net.c]:
    packets; [kernel/hal/gpu/virtio_gpu.c]: commands and responses, and the clipping
    of screen updates.  The device is given by a class: one moment of its activity.
    The drivers hold kernel pointers into the direct map, which begins at [hhdm];
    descriptors carry physical addresses, and memory is indexed by them. *)

From S2P Require Import Prelude Poll Mem CString Block.

(** Bytes of memory as lists. *)
Definition get_bytes (m : mem) (a n : Z) : list Z := (λ i, m (a + i)) <$> seqZ 0 n.
Definition put_bytes (m : mem) (a : Z) (l : list Z) : mem := λ x, if (a <=? x) && (x <? a + zlen l) then l.[x - a] else m x.

(** ** Virtqueues *)

Record vring_desc := mkDesc { vd_addr : Z; vd_len : Z; vd_flags : Z; vd_next : Z }.
#[export] Instance vring_desc_inhabited : Inhabited vring_desc := populate (mkDesc 0 0 0 0).

Definition VRING_DESC_F_NEXT : Z := 1.
Definition VRING_DESC_F_WRITE : Z := 2.

(** What driver and device share: descriptor table, available ring, used ring (of
    head and length), and memory. *)
Record vring := mkVring {
  r_desc : list vring_desc; avail_idx : Z; avail_ring : list Z;
  used_idx : Z; used_ring : list (Z * Z); v_ram : mem;
}.
Definition with_mem (r : vring) (m : mem) : vring := mkVring (r_desc r) (avail_idx r) (avail_ring r) (used_idx r) (used_ring r) m.

(** The driver's own part of [virtqueue_t]. *)
Record virtqueue := mkVq { vq_size : Z; free_head : Z; last_used : Z }.

(** [virt_to_phys] of [pmm.c]; the direct map begins at [hhdm]. *)
Definition virt_to_phys (hhdm virt : Z) : Z := u64 (virt - hhdm).

(** A buffer handed over: pointer, length, flags. *)
Definition vbuf : Type := Z * Z * Z.

(** The loop of [virtqueue_add_buf]. *)
Fixpoint fill_chain (hhdm : Z) (bufs : list vbuf) (head : Z) (desc : list vring_desc) : Z * list vring_desc :=
  match bufs with
  | [] => (head, desc)
  | (buf, len, flags) :: rest =>
      let addr := virt_to_phys hhdm buf in
      let d := if negb (bool_decide (rest = [])) then mkDesc addr len (Z.lor flags VRING_DESC_F_NEXT) (u16 (head + 1))
               else mkDesc addr len flags 0 in
      fill_chain hhdm rest (u16 (head + 1)) (desc.[head <- d])
  end.

Definition virtqueue_add_buf (hhdm : Z) (q : virtqueue) (r : vring) (bufs : list vbuf) : option (Z * virtqueue * vring) :=
  if vq_size q <? free_head q + zlen bufs then None
  else
    let head := free_head q in
    let '(fh, desc) := fill_chain hhdm bufs head (r_desc r) in
    Some (head, mkVq (vq_size q) fh (last_used q),
          mkVring desc (u16 (avail_idx r + 1)) ((avail_ring r).[avail_idx r mod vq_size q <- head]) (used_idx r) (used_ring r) (v_ram r)).

Definition virtqueue_get_used (q : virtqueue) (r : vring) : option (Z * Z * virtqueue) :=
  if last_used q =? used_idx r then None
  else
    let '(id, len) := (used_ring r).[last_used q mod vq_size q] in
    Some (u16 id, len, mkVq (vq_size q) 0 (u16 (last_used q + 1))).

(** The layout [virtio_pci_setup_queue] gives a queue of [n] entries at [phys]:
    addresses of the available and the used ring, and pages to allocate. *)
Definition queue_layout (phys n : Z) : Z * Z * Z :=
  let desc_sz := 16 * n in
  let avail_sz := 2 * (3 + n) in
  let used_sz := 2 * 3 + 8 * n in
  (phys + desc_sz, phys + desc_sz + avail_sz, Z.land (desc_sz + avail_sz + used_sz + 4096 - 1) (u64 (Z.lnot 4095)) / 4096).

(** The queue the device offers has [n] entries, [pmm_alloc_contig] returned [phys];
    the rings are cleared. *)
Definition virtio_pci_setup_queue (n phys : Z) (m : mem) : option (virtqueue * vring) :=
  if (n =? 0) || (phys =? 0) then None
  else Some (mkVq n 0 0, mkVring (replicate (Z.to_nat n) (mkDesc 0 0 0 0)) 0 (replicate (Z.to_nat n) 0) 0 (replicate (Z.to_nat n) (0, 0)) m).

(** ** The device *)

Class VirtioDevice (V : Type) := { v_step : V → vring → V * vring }.

Section drivers.
Context {V : Type} `{!VirtioDevice V} (hhdm : Z).
#[local] Abbreviation phys := (virt_to_phys hhdm).

(** A notification wakes the device. *)
Definition virtio_pci_notify_queue (v : V) (r : vring) : V * vring := v_step v r.

Definition wait_queue_turn (q : virtqueue) (s : V * vring) : V * vring + V * vring :=
  if negb (last_used q =? used_idx s.2) then inr s else inl (v_step s.1 s.2).
Definition virtio_pci_wait_for_queue (max_iters : positive) (q : virtqueue) (v : V) (r : vring) : bool * V * vring :=
  match spin (Pos.succ max_iters) (wait_queue_turn q) (v, r) with
  | inr (v, r) => (true, v, r)
  | inl (v, r) => (false, v, r)
  end.

(** ** Packets *)

Definition VIRTIO_NET_HDR_SIZE : Z := 12.
Definition VIRTIO_NET_MTU : Z := 1514.
Definition VIRTIO_NET_BUF_SIZE : Z := VIRTIO_NET_HDR_SIZE + VIRTIO_NET_MTU.
Definition NET_TX_WAIT : positive := 5000000.

(** The transmit side: queue, shared part, the address of [g_tx_buf], and
    [g_net_ready]. *)
Record net_tx := mkTx { tx_q : virtqueue; tx_dev : V; tx_ring : vring; g_tx_buf : Z; tx_ready : bool }.
Definition with_tx (t : net_tx) (q : virtqueue) (v : V) (r : vring) : net_tx := mkTx q v r (g_tx_buf t) (tx_ready t).

(** [data] is the packet as the caller holds it, [len] bytes. *)
Definition virtio_net_send (t : net_tx) (data : mem) (len : Z) : Z * net_tx :=
  if negb (tx_ready t) || (g_tx_buf t =? 0) then (-1, t)
  else
    let len := if VIRTIO_NET_MTU <? len then VIRTIO_NET_MTU else len in
    let m := put_bytes (v_ram (tx_ring t)) (phys (g_tx_buf t)) (replicate (Z.to_nat VIRTIO_NET_HDR_SIZE) 0) in
    let m := blit m (phys (g_tx_buf t) + VIRTIO_NET_HDR_SIZE) data 0 len in
    let r := with_mem (tx_ring t) m in
    match virtqueue_add_buf hhdm (tx_q t) r [(g_tx_buf t, VIRTIO_NET_HDR_SIZE + len, 0)] with
    | None => (-1, with_tx t (tx_q t) (tx_dev t) r)
    | Some (_, q, r) =>
        let '(v, r) := virtio_pci_notify_queue (tx_dev t) r in
        match virtio_pci_wait_for_queue NET_TX_WAIT q v r with
        | (false, v, r) => (-1, with_tx t q v r)
        | (true, v, r) =>
            let q := match virtqueue_get_used q r with Some (_, _, q) => q | None => q end in
            (len, with_tx t q v r)
        end
    end.

(** The receive side: the buffers ([0] is none), the descriptor each was last
    submitted with, and [g_net_ready].  [kmalloc] gives the address of a new buffer, [0] on failure. *)
Record net_rx := mkRx { rx_q : virtqueue; rx_ring : vring; g_rx_bufs : list Z; g_rx_desc_idx : list Z; rx_ready : bool }.
Definition RX_BUF_COUNT : Z := 16.

Definition rx_submit (kmalloc : Z → Z) (x : net_rx) (slot : Z) : bool * net_rx :=
  let b := (g_rx_bufs x).[slot] in
  let nb := if b =? 0 then kmalloc slot else b in
  if nb =? 0 then (false, x)
  else
    let r := if b =? 0 then with_mem (rx_ring x) (put_bytes (v_ram (rx_ring x)) (phys nb) (replicate (Z.to_nat VIRTIO_NET_BUF_SIZE) 0)) else rx_ring x in
    let bufs := (g_rx_bufs x).[slot <- nb] in
    match virtqueue_add_buf hhdm (rx_q x) r [(nb, VIRTIO_NET_BUF_SIZE, VRING_DESC_F_WRITE)] with
    | None => (false, mkRx (rx_q x) r bufs (g_rx_desc_idx x) (rx_ready x))
    | Some (desc_idx, q, r) => (true, mkRx q r bufs ((g_rx_desc_idx x).[slot <- desc_idx]) (rx_ready x))
    end.

(** The result and the bytes stored at the caller's buffer. *)
Definition virtio_net_recv (kmalloc : Z → Z) (x : net_rx) (maxlen : Z) : Z * list Z * net_rx :=
  if negb (rx_ready x) then (-1, [], x) else
  match virtqueue_get_used (rx_q x) (rx_ring x) with
  | None => (-1, [], x)
  | Some (used_desc, used_len, q) =>
      let x := mkRx q (rx_ring x) (g_rx_bufs x) (g_rx_desc_idx x) true in
      match find_up (λ i, (g_rx_desc_idx x).[i] =? used_desc) 0 (Z.to_nat RX_BUF_COUNT) with
      | None => (-1, [], x)
      | Some slot =>
          let b := (g_rx_bufs x).[slot] in
          if b =? 0 then (-1, [], x)
          else
            let pkt_len := s32 (s32 used_len - VIRTIO_NET_HDR_SIZE) in
            let pkt_len := if pkt_len <? 0 then 0 else pkt_len in
            let pkt_len := if maxlen <? pkt_len then maxlen else pkt_len in
            let bytes := get_bytes (v_ram (rx_ring x)) (phys b + VIRTIO_NET_HDR_SIZE) pkt_len in
            let m := put_bytes (v_ram (rx_ring x)) (phys b) (replicate (Z.to_nat VIRTIO_NET_BUF_SIZE) 0) in
            let '(_, x) := rx_submit kmalloc (mkRx (rx_q x) (with_mem (rx_ring x) m) (g_rx_bufs x) (g_rx_desc_idx x) true) slot in
            (pkt_len, bytes, x)
      end
  end.

(** ** The display *)

Fixpoint le (n : nat) (v : Z) : list Z := match n with O => [] | S n => v mod 256 :: le n (v / 256) end.

Definition GPU_WAIT : positive := 10000000.
Definition RESP_BUF_SIZE : Z := 64.
Definition GPU_RES_DIMS_MAX : Z := 64.
Definition VIRTIO_GPU_CMD_RESOURCE_FLUSH : Z := 0x0104.
Definition VIRTIO_GPU_CMD_TRANSFER_TO_HOST_2D : Z := 0x0105.

(** The control queue and the screen; [g_resource_id] is the scan-out resource. *)
Record gpu := mkGpu {
  g_ctrlq : virtqueue; g_vdev : V; g_ring : vring; g_initialized : bool;
  g_resource_id : Z; g_fb_width : Z; g_fb_height : Z; g_fb_stride : Z;
}.
Definition with_queue (g : gpu) (q : virtqueue) (v : V) (r : vring) : gpu :=
  mkGpu q v r (g_initialized g) (g_resource_id g) (g_fb_width g) (g_fb_height g) (g_fb_stride g).

(** The command is at [cmd_buf], the response buffer at [resp_buf];
    the result, the bytes copied to the caller ([None]: none), and the state. *)
Definition gpu_send_recv (g : gpu) (cmd_buf : Z) (cmd : list Z) (resp_buf resp_len : Z) : bool * option (list Z) * gpu :=
  let m := put_bytes (put_bytes (v_ram (g_ring g)) (phys cmd_buf) cmd) (phys resp_buf) (replicate (Z.to_nat RESP_BUF_SIZE) 0) in
  let r := with_mem (g_ring g) m in
  match virtqueue_add_buf hhdm (g_ctrlq g) r [(cmd_buf, zlen cmd, 0); (resp_buf, RESP_BUF_SIZE, VRING_DESC_F_WRITE)] with
  | None => (false, None, with_queue g (g_ctrlq g) (g_vdev g) r)
  | Some (_, q, r) =>
      let '(v, r) := virtio_pci_notify_queue (g_vdev g) r in
      match virtio_pci_wait_for_queue GPU_WAIT q v r with
      | (false, v, r) => (false, None, with_queue g q v r)
      | (true, v, r) =>
          match virtqueue_get_used q r with
          | None => (false, None, with_queue g q v r)
          | Some (_, _, q) =>
              let copy_len := if resp_len <? RESP_BUF_SIZE then resp_len else RESP_BUF_SIZE in
              let resp := get_bytes (v_ram r) (phys resp_buf) copy_len in
              (Z.land (resp.[0] + resp.[1] * 256 + resp.[2] * 2 ^ 16 + resp.[3] * 2 ^ 24) 0xFF00 =? 0x1100, Some resp, with_queue g q v r)
          end
      end
  end.

(** [struct virtio_gpu_ctrl_hdr] with its type, [struct virtio_gpu_rect], and the
    two commands of an update. *)
Definition ctrl_hdr (type : Z) : list Z := le 4 type ++ le 4 0 ++ le 8 0 ++ le 4 0 ++ le 4 0.
Definition gpu_rect (x y w h : Z) : list Z := le 4 x ++ le 4 y ++ le 4 w ++ le 4 h.
Definition transfer_to_host_2d (x y w h offset res : Z) : list Z :=
  ctrl_hdr VIRTIO_GPU_CMD_TRANSFER_TO_HOST_2D ++ gpu_rect x y w h ++ le 8 offset ++ le 4 res ++ le 4 0.
Definition resource_flush (x y w h res : Z) : list Z :=
  ctrl_hdr VIRTIO_GPU_CMD_RESOURCE_FLUSH ++ gpu_rect x y w h ++ le 4 res ++ le 4 0.

(** The clipping of [virtio_gpu_flush]. *)
Definition clip (pos len limit : Z) : Z := if limit <? u32 (pos + len) then u32 (limit - pos) else len.

Definition virtio_gpu_flush (g : gpu) (cmd_buf resp_buf x y w h : Z) : bool * gpu :=
  if negb (g_initialized g) then (false, g)
  else
    let w := clip x w (g_fb_width g) in
    let h := clip y h (g_fb_height g) in
    if (w =? 0) || (h =? 0) then (true, g)
    else
      let offset := u64 (y * g_fb_stride g + x * 4) in
      let '(ok, _, g) := gpu_send_recv g cmd_buf (transfer_to_host_2d x y w h offset (g_resource_id g)) resp_buf 24 in
      if negb ok then (false, g)
      else
        let '(ok, _, g) := gpu_send_recv g cmd_buf (resource_flush x y w h (g_resource_id g)) resp_buf 24 in
        (ok, g).
End drivers.

(** ** Resource dimensions *)

Record res_dim := mkDim { rd_id : Z; rd_width : Z; rd_height : Z }.

Definition res_slot (l : list res_dim) (id : Z) : option nat := fst <$> list_find (λ d, rd_id d = id) l.

Definition gpu_track_res_dims (l : list res_dim) (id width height : Z) : list res_dim :=
  match res_slot l id with
  | Some i => <[i := mkDim id width height]> l
  | None => if zlen l <? GPU_RES_DIMS_MAX then l ++ [mkDim id width height] else l
  end.
Definition virtio_gpu_res_dims (l : list res_dim) (id : Z) : option (Z * Z) :=
  match res_slot l id with
  | Some i => (λ d, (rd_width d, rd_height d)) <$> l !! i
  | None => None
  end.
