(* ===== verification/VirtioSpec.v ===== *)
(** * Virtio drivers against their devices

    The documented behaviour of a virtio device as a class of laws; one request at
    a time reaches the device whole, and its answer reaches the driver.  From this:
    packets are transmitted in order, each once, and a screen update sends the two
    commands for the clipped rectangle.  The receive path, which keeps sixteen
    buffers in flight over a queue that recycles all descriptors at once, is shown
    to lose packets. *)

From S2P Require Import Prelude Poll Mem CString Block Virtio.

(** ** What the device promises *)

(** Following a chain of descriptors. *)
Fixpoint chain (fuel : nat) (desc : list vring_desc) (i : Z) : list vring_desc :=
  match fuel with
  | O => []
  | S f => let d := desc.[i] in d :: (if Z.land (vd_flags d) 1 =? 1 then chain f desc (vd_next d) else [])
  end.
Definition writable (d : vring_desc) : bool := Z.land (vd_flags d) 2 =? 2.

(** The bytes of the readable descriptors of a chain. *)
Definition request (m : mem) (ds : list vring_desc) : list Z :=
  concat (map (λ d, if writable d then [] else get_bytes m (vd_addr d) (vd_len d)) ds).

(** An answer is spread over the writable descriptors. *)
Fixpoint scatter (m : mem) (ds : list vring_desc) (ans : list Z) : mem :=
  match ds with
  | [] => m
  | d :: ds =>
      if writable d then scatter (put_bytes m (vd_addr d) (take (Z.to_nat (vd_len d)) ans)) ds (drop (Z.to_nat (vd_len d)) ans)
      else scatter m ds ans
  end.

(** The queue's size, the device's place in the available ring, and the requests
    it has served, oldest first. *)
Record dev_view := mkDevView { dv_size : Z; dv_avail : Z; dv_served : list (list Z) }.

(** A device with nothing new in the available ring does nothing; otherwise it
    works for a while and then serves the next chain: it reads the request, stores
    its answer and posts the chain's head in the used ring.  [vd_work] bounds the
    moments it takes; it is within the driver's patience. *)
Class VirtioLaws (V : Type) `{!VirtioDevice V} := {
  vd_view : V → dev_view;
  vd_work : V → Z;
  vd_answer : list (list Z) → list Z → list Z;
  vd_work_range v : 0 ≤ vd_work v < Zpos NET_TX_WAIT;
  vd_busy v r :
    let w := vd_view v in
    let head := (avail_ring r).[dv_avail w mod dv_size w] in
    let ds := chain (Z.to_nat (dv_size w)) (r_desc r) head in
    let req := request (v_ram r) ds in
    dv_avail w ≠ avail_idx r →
    let '(v', r') := v_step v r in
    (vd_view v' = w ∧ vd_work v' < vd_work v ∧ r' = r) ∨
    (vd_view v' = mkDevView (dv_size w) (u16 (dv_avail w + 1)) (dv_served w ++ [req]) ∧
     r' = mkVring (r_desc r) (avail_idx r) (avail_ring r) (u16 (used_idx r + 1))
            ((used_ring r).[used_idx r mod dv_size w <- (head, zlen (vd_answer (dv_served w) req))])
            (scatter (v_ram r) ds (vd_answer (dv_served w) req)));
}.

Section spec.
Context {V : Type} `{!VirtioDevice V} `{!VirtioLaws V} (hhdm : Z).
#[local] Abbreviation phys := (virt_to_phys hhdm).

(** ** Chains *)

(** The descriptors [virtqueue_add_buf] makes for a list of buffers. *)
Definition plain (b : vbuf) : Prop := b.2 = 0 ∨ b.2 = VRING_DESC_F_WRITE.
Fixpoint chain_of (bufs : list vbuf) (i : Z) : list vring_desc :=
  match bufs with
  | [] => []
  | [(a, l, f)] => [mkDesc (phys a) l f 0]
  | (a, l, f) :: rest => mkDesc (phys a) l (Z.lor f VRING_DESC_F_NEXT) (u16 (i + 1)) :: chain_of rest (i + 1)
  end.

Lemma fill_chain_spec bufs i desc : 0 ≤ i → i + zlen bufs ≤ zlen desc → zlen desc < 2 ^ 16 →
  (fill_chain hhdm bufs i desc).1 = i + zlen bufs ∧ zlen (fill_chain hhdm bufs i desc).2 = zlen desc ∧
  ∀ j, 0 ≤ j < i → (fill_chain hhdm bufs i desc).2.[j] = desc.[j].
Proof.
  revert i desc. induction bufs as [|[[a l] f] bufs IH]; intros i desc Hi Hl Hn; cbn [fill_chain].
  { split_and!; [|done|done]. cbn. unfold zlen. cbn. lia. }
  rewrite zlen_cons in *. pose proof (zlen_nonneg bufs). rewrite !(u16_small (i + 1)) by lia.
  edestruct (IH (i + 1)) as (H1 & H2 & H3); cycle 3.
  { rewrite H1, H2, zlen_aset. split_and!; [lia|done|]. intros j Hj. rewrite H3, aget_aset_ne by lia. done. }
  - lia.
  - rewrite zlen_aset. lia.
  - rewrite zlen_aset. lia.
Qed.

Lemma chain_fill bufs i desc fuel : bufs ≠ [] → Forall plain bufs → 0 ≤ i → i + zlen bufs ≤ zlen desc → zlen desc < 2 ^ 16 →
  (length bufs ≤ fuel)%nat → chain fuel (fill_chain hhdm bufs i desc).2 i = chain_of bufs i.
Proof.
  revert i desc fuel. induction bufs as [|[[a l] f] bufs IH]; intros i desc fuel Hne Hp Hi Hl Hn Hf; [done|].
  rewrite zlen_cons in Hl. pose proof (zlen_nonneg bufs). apply Forall_cons in Hp as [Hp Hps]. unfold plain in Hp. cbn [snd] in Hp. destruct fuel as [|fuel]; [cbn in Hf; lia|].
  cbn [fill_chain chain]. rewrite !(u16_small (i + 1)) by lia.
  edestruct (fill_chain_spec bufs (i + 1)) as (_ & _ & H3); cycle 3.
  - rewrite H3, aget_aset_eq by lia. destruct bufs as [|b bufs].
    + cbn. by destruct Hp as [->| ->].
    + rewrite bool_decide_eq_false_2 by done. cbn [negb vd_flags vd_next]. rewrite IH; [|done|done|lia|rewrite zlen_aset; lia|rewrite zlen_aset; lia|cbn in *; lia].
      cbn [chain_of]. rewrite (u16_small (i + 1)) by lia. by destruct Hp as [->| ->].
  - lia.
  - rewrite zlen_aset. lia.
  - rewrite zlen_aset. lia.
Qed.

(** ** One request *)

(** Queue and device are in step, with nothing in flight. *)
Record vq_idle (q : virtqueue) (r : vring) (v : V) : Prop := {
  vi_size : ∃ k, 0 ≤ k ≤ 15 ∧ vq_size q = 2 ^ k;
  vi_len : zlen (r_desc r) = vq_size q ∧ zlen (avail_ring r) = vq_size q ∧ zlen (used_ring r) = vq_size q;
  vi_free : free_head q = 0;
  vi_used : last_used q = used_idx r ∧ 0 ≤ used_idx r < 2 ^ 16;
  vi_avail : dv_avail (vd_view v) = avail_idx r ∧ 0 ≤ avail_idx r < 2 ^ 16;
  vi_dsize : dv_size (vd_view v) = vq_size q;
}.

Lemma next_idx i : 0 ≤ i < 2 ^ 16 → i ≠ u16 (i + 1) ∧ 0 ≤ u16 (i + 1) < 2 ^ 16.
Proof. unfold u16. zlia. Qed.

(** Waiting ends with the request served and its answer in memory. *)
Lemma wait_serves (q : virtqueue) v r k :
  let w := vd_view v in
  let head := (avail_ring r).[dv_avail w mod dv_size w] in
  let ds := chain (Z.to_nat (dv_size w)) (r_desc r) head in
  let req := request (v_ram r) ds in
  let ans := vd_answer (dv_served w) req in
  dv_avail w ≠ avail_idx r → last_used q = used_idx r → 0 ≤ used_idx r < 2 ^ 16 → vd_work v < Z.of_nat k →
  ∃ v', spin_nat (S k) (wait_queue_turn q) (v, r) =
      inr (v', mkVring (r_desc r) (avail_idx r) (avail_ring r) (u16 (used_idx r + 1)) ((used_ring r).[used_idx r mod dv_size w <- (head, zlen ans)])
                 (scatter (v_ram r) ds ans)) ∧
    vd_view v' = mkDevView (dv_size w) (u16 (dv_avail w + 1)) (dv_served w ++ [req]).
Proof.
  revert v. induction k as [|k IH]; intros v w head ds req ans Ha Hu Hr Hk; [pose proof (vd_work_range v); lia|].
  cbn [spin_nat]. unfold wait_queue_turn at 1. cbn [fst snd]. rewrite Hu, Z.eqb_refl. cbn [negb].
  pose proof (vd_busy v r Ha) as Hs. destruct (v_step v r) as [v1 r1]. destruct Hs as [(Hv & Hw & ->)|(Hv & ->)].
  - specialize (IH v1). cbv zeta in IH. rewrite Hv in IH. apply IH; try done. fold w. lia.
  - exists v1. split; [|exact Hv]. cbn [spin_nat]. unfold wait_queue_turn at 1. cbn [fst snd used_idx].
    rewrite Hu, (proj2 (Z.eqb_neq _ _) (proj1 (next_idx _ Hr))). done.
Qed.

(** Notify, then wait: the device may already answer at the notification. *)
Lemma notify_wait_serves max (q : virtqueue) v r :
  (NET_TX_WAIT ≤ max)%positive →
  let w := vd_view v in
  let head := (avail_ring r).[dv_avail w mod dv_size w] in
  let ds := chain (Z.to_nat (dv_size w)) (r_desc r) head in
  let req := request (v_ram r) ds in
  let ans := vd_answer (dv_served w) req in
  dv_avail w ≠ avail_idx r → last_used q = used_idx r → 0 ≤ used_idx r < 2 ^ 16 →
  ∃ v', (let '(v, r) := virtio_pci_notify_queue v r in virtio_pci_wait_for_queue max q v r) =
      (true, v', mkVring (r_desc r) (avail_idx r) (avail_ring r) (u16 (used_idx r + 1)) ((used_ring r).[used_idx r mod dv_size w <- (head, zlen ans)])
                 (scatter (v_ram r) ds ans)) ∧
    vd_view v' = mkDevView (dv_size w) (u16 (dv_avail w + 1)) (dv_served w ++ [req]).
Proof.
  intros Hm w head ds req ans Ha Hu Hr. unfold virtio_pci_notify_queue. pose proof (vd_busy v r Ha) as Hs.
  destruct (v_step v r) as [v1 r1]. unfold virtio_pci_wait_for_queue. rewrite spin_spec.
  destruct Hs as [(Hv & Hw & ->)|(Hv & ->)].
  - pose proof (vd_work_range v). replace (Pos.to_nat (Pos.succ max)) with (S (Pos.to_nat max)) by lia.
    pose proof (wait_serves q v1 r (Pos.to_nat max)) as Hs. cbv zeta in Hs. rewrite Hv in Hs.
    destruct Hs as (v' & E & E'); [done|done|done|lia|]. rewrite E. by exists v'.
  - exists v1. split; [|exact Hv]. replace (Pos.to_nat (Pos.succ max)) with (S (Pos.to_nat max)) by lia. cbn [spin_nat].
    unfold wait_queue_turn at 1. cbn [fst snd used_idx]. rewrite Hu, (proj2 (Z.eqb_neq _ _) (proj1 (next_idx _ Hr))). done.
Qed.

(** A request goes to the device once and whole, and the queue is idle again. *)
Lemma transact_ok max q r v bufs :
  (NET_TX_WAIT ≤ max)%positive → vq_idle q r v → bufs ≠ [] → Forall plain bufs → zlen bufs ≤ vq_size q →
  let req := request (v_ram r) (chain_of bufs 0) in
  let ans := vd_answer (dv_served (vd_view v)) req in
  ∃ q1 r1 va ra v' r' q', virtqueue_add_buf hhdm q r bufs = Some (0, q1, r1) ∧ virtio_pci_notify_queue v r1 = (va, ra) ∧
    virtio_pci_wait_for_queue max q1 va ra = (true, v', r') ∧ virtqueue_get_used q1 r' = Some (0, zlen ans, q') ∧
    vq_idle q' r' v' ∧ vq_size q' = vq_size q ∧ v_ram r' = scatter (v_ram r) (chain_of bufs 0) ans ∧ dv_served (vd_view v') = dv_served (vd_view v) ++ [req].
Proof.
  intros Hm [(k & Hk & Hsz) (L1 & L2 & L3) Hf (U1 & U2) (A1 & A2) Hd] Hne Hp Hl req ans.
  assert (Hpos : 0 < vq_size q < 2 ^ 16).
  { rewrite Hsz. split; [lia|]. apply (Z.le_lt_trans _ (2 ^ 15)); [apply Z.pow_le_mono_r; lia|done]. }
  pose proof (zlen_nonneg bufs). destruct (fill_chain_spec bufs 0 (r_desc r)) as (F1 & F2 & _); [lia|lia|lia|].
  assert (Hch : chain (Z.to_nat (vq_size q)) (fill_chain hhdm bufs 0 (r_desc r)).2 0 = chain_of bufs 0).
  { apply chain_fill; [done|done|lia|lia|lia|]. unfold zlen in Hl. lia. }
  unfold virtqueue_add_buf. rewrite Hf, (proj2 (Z.ltb_ge _ _)) by lia.
  destruct (fill_chain hhdm bufs 0 (r_desc r)) as [fh desc] eqn:Efill. cbn [fst snd] in *.
  set (q1 := mkVq _ _ _). set (r1 := mkVring _ _ _ _ _ _).
  pose proof (Z.mod_pos_bound (avail_idx r) (vq_size q) ltac:(lia)). pose proof (Z.mod_pos_bound (used_idx r) (vq_size q) ltac:(lia)).
  assert (Hhead : (avail_ring r1).[dv_avail (vd_view v) mod dv_size (vd_view v)] = 0).
  { rewrite A1, Hd. cbn [r1 avail_ring]. apply aget_aset_eq. lia. }
  pose proof (notify_wait_serves max q1 v r1 Hm) as Hw. cbv zeta in Hw. rewrite Hhead in Hw. rewrite Hd in Hw. cbn [r_desc avail_idx avail_ring used_idx used_ring v_ram r1] in Hw.
  rewrite Hch in Hw. fold req ans in Hw. destruct Hw as (v' & E & Hv); [rewrite A1; apply next_idx; lia|done|done|].
  destruct (virtio_pci_notify_queue v r1) as [va ra] eqn:En.
  eexists q1, r1, va, ra, v', _, _. split; [reflexivity|]. split; [exact En|]. split; [exact E|].
  split.
  { unfold virtqueue_get_used. cbn [used_idx used_ring last_used q1 vq_size]. rewrite U1, (proj2 (Z.eqb_neq _ _) (proj1 (next_idx _ U2))).
    rewrite aget_aset_eq by lia. reflexivity. }
  split; [|split; [reflexivity|split; [reflexivity|by rewrite Hv]]].
  split; cbn [vq_size free_head last_used q1 r_desc avail_ring used_ring avail_idx used_idx]; rewrite ?Hv; cbn [dv_avail dv_size].
  - by exists k.
  - rewrite !zlen_aset. lia.
  - done.
  - split; [done|apply next_idx; lia].
  - rewrite A1. split; [done|apply next_idx; lia].
  - done.
Qed.

(** ** Packets out *)

(** The frame of a packet: an empty header, and at most an MTU of data. *)
Definition packet (data : mem) (len : Z) : list Z :=
  replicate (Z.to_nat VIRTIO_NET_HDR_SIZE) 0 ++ get_bytes data 0 (Z.min len VIRTIO_NET_MTU).

Definition tx_idle (t : net_tx (V := V)) : Prop := vq_idle (tx_q t) (tx_ring t) (tx_dev t) ∧ tx_ready t = true ∧ g_tx_buf t ≠ 0.
Definition transmitted (t : net_tx (V := V)) : list (list Z) := dv_served (vd_view (tx_dev t)).

Lemma zlen_get m a n : 0 ≤ n → zlen (get_bytes m a n) = n.
Proof. intros H. unfold get_bytes. rewrite zlen_fmap. unfold zlen. rewrite length_seqZ. lia. Qed.

Lemma aget_get m a n i : 0 ≤ i < n → (get_bytes m a n).[i] = m (a + i).
Proof.
  intros H. unfold get_bytes. rewrite aget_fmap by (unfold zlen; rewrite length_seqZ; lia).
  f_equal. unfold aget. rewrite list_lookup_total_alt, lookup_seqZ_lt by lia. cbn. lia.
Qed.

(** A header of zeros in front of bytes. *)
Lemma get_bytes_headed m a h n data :
  0 ≤ h → 0 ≤ n → (∀ i, 0 ≤ i < h → m (a + i) = 0) → (∀ i, 0 ≤ i < n → m (a + h + i) = data i) →
  get_bytes m a (h + n) = replicate (Z.to_nat h) 0 ++ get_bytes data 0 n.
Proof.
  intros Hh Hn H0 Hd. assert (Hz : zlen (replicate (Z.to_nat h) 0 ++ get_bytes data 0 n) = h + n).
  { unfold zlen. rewrite length_app, length_replicate. pose proof (zlen_get data 0 n Hn). unfold zlen in *. lia. }
  apply aget_ext; rewrite zlen_get by lia; [done|]. intros i Hi. rewrite aget_get by lia. unfold aget at 1.
  destruct (Z.lt_ge_cases i h).
  - rewrite lookup_total_app_l by (rewrite length_replicate; lia). rewrite H0 by lia. symmetry. apply lookup_total_replicate_2. lia.
  - rewrite lookup_total_app_r by (rewrite length_replicate; lia). rewrite length_replicate.
    replace (Z.to_nat i - Z.to_nat h)%nat with (Z.to_nat (i - h)) by lia. fold ((get_bytes data 0 n).[i - h]).
    rewrite aget_get by lia. rewrite <- Hd by lia. f_equal. lia.
Qed.

Lemma send_ok t data len : tx_idle t → 0 ≤ len →
  ∃ t', virtio_net_send hhdm t data len = (Z.min len VIRTIO_NET_MTU, t') ∧ tx_idle t' ∧ transmitted t' = transmitted t ++ [packet data len].
Proof.
  intros (Hi & Hrd & Hbuf) Hl. unfold virtio_net_send. rewrite Hrd, (proj2 (Z.eqb_neq _ _) Hbuf). cbn [negb orb].
  replace (if VIRTIO_NET_MTU <? len then VIRTIO_NET_MTU else len) with (Z.min len VIRTIO_NET_MTU) by (destruct (Z.ltb_spec VIRTIO_NET_MTU len); lia).
  set (n := Z.min len VIRTIO_NET_MTU). set (m := blit _ _ _ _ n). set (r := with_mem _ m).
  assert (Hn : 0 ≤ n) by (unfold n, VIRTIO_NET_MTU; lia).
  destruct (transact_ok NET_TX_WAIT (tx_q t) r (tx_dev t) [(g_tx_buf t, VIRTIO_NET_HDR_SIZE + n, 0)])
    as (q1 & r1 & va & ra & v' & r' & q' & -> & -> & -> & -> & Hidle & _ & _ & Hs).
  - lia.
  - destruct Hi; by split.
  - done.
  - repeat constructor.
  - destruct (vi_size _ _ _ Hi) as (k & Hk & ->). change (zlen _) with 1. pose proof (Z.pow_pos_nonneg 2 k). lia.
  - eexists. split; [reflexivity|]. split; [split; [exact Hidle|done]|]. unfold transmitted. cbn [tx_dev with_tx]. rewrite Hs. f_equal. f_equal.
    unfold request. cbn [chain_of map writable vd_flags vd_addr vd_len Z.land Z.eqb concat app]. rewrite app_nil_r. change (v_ram r) with m.
    apply get_bytes_headed; [done|done| |].
    + intros i Hi'. unfold m. rewrite blit_out by lia. unfold put_bytes. rewrite zlen_replicate by done.
      rewrite (proj2 (Z.leb_le _ _)), (proj2 (Z.ltb_lt _ _)) by lia. cbn [andb]. apply aget_replicate. lia.
    + intros i Hi'. unfold m. rewrite blit_in by lia. f_equal. lia.
Qed.

(** C37: with a device that follows its specification, [virtio_net_send] puts
    every packet of a history of sends on the wire exactly once and in order,
    behind an empty header and cut to the MTU, reports the number of bytes sent,
    and leaves the queue idle; ring positions may wrap around any number of times
    and the packets be as many as one likes. *)
Theorem virtio_net_send_transmits (pkts : list (mem * Z)) t :
  tx_idle t → Forall (λ p, 0 ≤ p.2) pkts →
  let run := foldl (λ '(rs, t) p, let '(r, t) := virtio_net_send hhdm t p.1 p.2 in (rs ++ [r], t)) ([], t) pkts in
  run.1 = map (λ p, Z.min p.2 VIRTIO_NET_MTU) pkts ∧ tx_idle run.2 ∧
  transmitted run.2 = transmitted t ++ map (λ p, packet p.1 p.2) pkts.
Proof.
  intros Hi Hp. cbv zeta. assert (H : ∀ rs t, tx_idle t →
    let run := foldl (λ '(rs, t) p, let '(r, t) := virtio_net_send hhdm t p.1 p.2 in (rs ++ [r], t)) (rs, t) pkts in
    run.1 = rs ++ map (λ p, Z.min p.2 VIRTIO_NET_MTU) pkts ∧ tx_idle run.2 ∧ transmitted run.2 = transmitted t ++ map (λ p, packet p.1 p.2) pkts);
    [|apply (H [] t Hi)].
  clear t Hi. induction pkts as [|[data len] pkts IH]; intros rs t Hi; cbn [foldl map].
  { by rewrite !app_nil_r. }
  apply Forall_cons in Hp as [Hl Hp]. cbn [fst snd] in *. destruct (send_ok t data len Hi Hl) as (t' & -> & Hi' & Ht).
  destruct (IH Hp (rs ++ [Z.min len VIRTIO_NET_MTU]) t' Hi') as (H1 & H2 & H3). rewrite H1, H3, Ht, <- !app_assoc. done.
Qed.

(** ** Commands to the display *)

Definition gpu_idle (g : gpu (V := V)) : Prop := vq_idle (g_ctrlq g) (g_ring g) (g_vdev g) ∧ 2 ≤ vq_size (g_ctrlq g).
Definition gpu_served (g : gpu (V := V)) : list (list Z) := dv_served (vd_view (g_vdev g)).
Definition apart (a n b k : Z) : Prop := a + n ≤ b ∨ b + k ≤ a.

(** A successful response: its type is 0x11xx. *)
Definition byte_at (ans : list Z) (i : Z) : Z := if i <? zlen ans then ans.[i] else 0.
Definition ans_type (ans : list Z) : Z := byte_at ans 0 + byte_at ans 1 * 256 + byte_at ans 2 * 2 ^ 16 + byte_at ans 3 * 2 ^ 24.
Definition answers_ok (ans : list Z) : bool := Z.land (ans_type ans) 0xFF00 =? 0x1100.

Lemma put_bytes_out m a l x : x < a ∨ a + zlen l ≤ x → put_bytes m a l x = m x.
Proof. intros H. unfold put_bytes. destruct (Z.leb_spec a x), (Z.ltb_spec x (a + zlen l)); cbn [andb]; (lia || done). Qed.
Lemma put_bytes_in m a l i : 0 ≤ i < zlen l → put_bytes m a l (a + i) = l.[i].
Proof. intros H. unfold put_bytes. rewrite (proj2 (Z.leb_le _ _)), (proj2 (Z.ltb_lt _ _)) by lia. cbn [andb]. f_equal. lia. Qed.

Lemma gpu_send_recv_ok g cmd_buf cmd resp_buf resp_len :
  gpu_idle g → apart (phys cmd_buf) (zlen cmd) (phys resp_buf) RESP_BUF_SIZE → 4 ≤ resp_len →
  let ans := vd_answer (gpu_served g) cmd in
  ∃ resp g', gpu_send_recv hhdm g cmd_buf cmd resp_buf resp_len = (answers_ok ans, Some resp, g') ∧
    zlen resp = Z.min resp_len RESP_BUF_SIZE ∧ (∀ i, 0 ≤ i < Z.min resp_len RESP_BUF_SIZE → resp.[i] = byte_at ans i) ∧
    (∃ q v r, g' = with_queue g q v r) ∧ gpu_idle g' ∧ gpu_served g' = gpu_served g ++ [cmd].
Proof.
  intros [Hi Hsz] Hap Hrl ans. unfold gpu_send_recv. set (m := put_bytes _ (phys resp_buf) _). set (r := with_mem _ m).
  set (bufs := [(cmd_buf, zlen cmd, 0); (resp_buf, RESP_BUF_SIZE, VRING_DESC_F_WRITE)]).
  assert (Hreq : request m (chain_of bufs 0) = cmd).
  { unfold request, bufs. change (concat _) with (get_bytes m (phys cmd_buf) (zlen cmd) ++ []). rewrite app_nil_r.
    pose proof (zlen_nonneg cmd). apply aget_ext; rewrite zlen_get by done; [done|]. intros i Hi'. rewrite aget_get by done.
    unfold m. rewrite put_bytes_out by (rewrite zlen_replicate by done; unfold apart in Hap; lia). by apply put_bytes_in. }
  destruct (transact_ok GPU_WAIT (g_ctrlq g) r (g_vdev g) bufs) as (q1 & r1 & va & ra & v' & r' & q' & E1 & E2 & E3 & E4 & Hidle & Hsize & Hram & Hs).
  { done. } { destruct Hi; by split. } { done. } { constructor; [by left|]. constructor; [by right|constructor]. } { exact Hsz. }
  change (v_ram r) with m in *. rewrite Hreq in *. fold (gpu_served g) in *. fold ans in Hram, E4.
  unfold m in r. fold m in r. rewrite E1, E2, E3, E4.
  set (n := if resp_len <? RESP_BUF_SIZE then resp_len else RESP_BUF_SIZE). assert (Hn : n = Z.min resp_len RESP_BUF_SIZE) by (unfold n; destruct (Z.ltb_spec resp_len RESP_BUF_SIZE); lia).
  assert (Hb : ∀ i, 0 ≤ i < n → (get_bytes (v_ram r') (phys resp_buf) n).[i] = byte_at ans i).
  { intros i Hi'. rewrite aget_get by done. rewrite Hram. unfold bufs. change (scatter m _ ans) with (put_bytes m (phys resp_buf) (take (Z.to_nat RESP_BUF_SIZE) ans)).
    assert (Hlt : zlen (take (Z.to_nat RESP_BUF_SIZE) ans) = Z.min RESP_BUF_SIZE (zlen ans)) by (unfold zlen, RESP_BUF_SIZE; rewrite length_take; lia).
    unfold byte_at. destruct (Z.ltb_spec i (zlen ans)).
    - rewrite put_bytes_in by lia. unfold aget. rewrite lookup_total_take, decide_True by (unfold RESP_BUF_SIZE in *; lia). done.
    - rewrite put_bytes_out by lia. unfold m. rewrite put_bytes_in by (rewrite zlen_replicate by done; lia). apply aget_replicate. lia. }
  assert (4 ≤ n) by (unfold RESP_BUF_SIZE in *; lia). exists (get_bytes (v_ram r') (phys resp_buf) n), (with_queue g q' v' r').
  rewrite !Hb by lia. split; [reflexivity|]. rewrite zlen_get by lia. rewrite <- Hn. split_and!; [done|exact Hb|by exists q', v', r'|split; [exact Hidle|cbn; lia]|exact Hs].
Qed.

(** A screen update whose corner lies on the screen sends, to a display that
    accepts its commands, the transfer and the flush of exactly the requested
    rectangle cut to the screen, with the offset of its corner in the frame
    buffer, in this order and nothing else; and nothing at all when the cut
    rectangle is empty. *)
Theorem virtio_gpu_flush_spec g cmd_buf resp_buf x y w h :
  gpu_idle g → g_initialized g = true → (∀ log req, answers_ok (vd_answer log req) = true) → apart (phys cmd_buf) 56 (phys resp_buf) RESP_BUF_SIZE →
  0 ≤ x ≤ g_fb_width g → 0 ≤ y ≤ g_fb_height g → 0 ≤ w → 0 ≤ h → x + w < 2 ^ 32 → y + h < 2 ^ 32 →
  g_fb_width g < 2 ^ 32 → g_fb_height g < 2 ^ 32 → 0 ≤ g_fb_stride g < 2 ^ 31 →
  let w' := Z.min w (g_fb_width g - x) in
  let h' := Z.min h (g_fb_height g - y) in
  ∃ g', virtio_gpu_flush hhdm g cmd_buf resp_buf x y w h = (true, g') ∧ gpu_idle g' ∧
    gpu_served g' = gpu_served g ++
      if (w' =? 0) || (h' =? 0) then []
      else [transfer_to_host_2d x y w' h' (y * g_fb_stride g + x * 4) (g_resource_id g); resource_flush x y w' h' (g_resource_id g)].
Proof.
  intros Hi Hin Hok Hap Hx Hy Hw Hh Hxw Hyh Hfw Hfh Hst w' h'. unfold virtio_gpu_flush. rewrite Hin. cbn [negb].
  assert (Hc : ∀ pos len lim, 0 ≤ pos ≤ lim → 0 ≤ len → pos + len < 2 ^ 32 → lim < 2 ^ 32 → clip pos len lim = Z.min len (lim - pos)).
  { intros pos len lim H1 H2 H3 H4. unfold clip. rewrite (u32_small (pos + len)), (u32_small (lim - pos)) by lia. destruct (Z.ltb_spec lim (pos + len)); lia. }
  rewrite !Hc by lia. fold w' h'. destruct ((w' =? 0) || (h' =? 0)) eqn:E0; [exists g; by rewrite app_nil_r|].
  rewrite u64_small by nia. set (c1 := transfer_to_host_2d _ _ _ _ _ _). set (c2 := resource_flush _ _ _ _ _).
  destruct (gpu_send_recv_ok g cmd_buf c1 resp_buf 24 Hi) as (resp1 & g1 & E1 & _ & _ & (q & v & r & Eg) & Hi1 & Hs1); [exact Hap|lia|].
  rewrite E1, Hok. cbn [negb]. replace (g_resource_id g1) with (g_resource_id g) by (by rewrite Eg). fold c2.
  destruct (gpu_send_recv_ok g1 cmd_buf c2 resp_buf 24 Hi1) as (resp2 & g2 & E2 & _ & _ & _ & Hi2 & Hs2); [destruct Hap; [left|right]; change (zlen c2) with 48; lia|lia|].
  rewrite E2, Hok. exists g2. split; [done|]. split; [done|]. by rewrite Hs2, Hs1, <- app_assoc.
Qed.
End spec.

(** ** Layout *)

(** The three parts of a queue follow one another inside the pages allocated. *)
Lemma queue_layout_fits phys n : 0 ≤ phys → 0 < n ≤ 32768 →
  let '(avail, used, pages) := queue_layout phys n in
  phys + 16 * n ≤ avail ∧ avail + 2 * (3 + n) ≤ used ∧ used + 6 + 8 * n ≤ phys + pages * 4096.
Proof.
  intros Hp Hn. unfold queue_layout. change (u64 (Z.lnot 4095)) with (Z.shiftl (Z.ones 52) 12).
  set (t := 16 * n + 2 * (3 + n) + (2 * 3 + 8 * n) + 4096 - 1).
  assert (E : Z.land t (Z.shiftl (Z.ones 52) 12) = t / 4096 * 4096).
  { change 4096 with (2 ^ 12). rewrite <- (Z.shiftl_mul_pow2 (t / 2 ^ 12) 12), <- (Z.shiftr_div_pow2 t 12) by lia. apply Z.bits_inj'. intros k Hk.
    rewrite Z.land_spec, !Z.shiftl_spec by lia. destruct (Z.lt_ge_cases k 12).
    { rewrite (Z.testbit_neg_r (Z.ones 52)), (Z.testbit_neg_r (Z.shiftr t 12)) by lia. apply andb_false_r. }
    rewrite Z.shiftr_spec, Z.sub_add by lia. destruct (Z.lt_ge_cases k 64); [rewrite Z.ones_spec_low by lia; apply andb_true_r|].
    rewrite Z.ones_spec_high by lia. rewrite andb_false_r. symmetry. apply Z.bits_above_log2; [lia|]. apply (Z.lt_le_trans _ 64); [|lia].
    apply Z.log2_lt_pow2; lia. }
  rewrite E, Z.div_mul by lia. unfold t. zlia.
Qed.

(** The used ring of an even number of entries is not aligned to its 32-bit
    fields. *)
Lemma used_ring_unaligned phys n : phys mod 4096 = 0 → n mod 2 = 0 → (queue_layout phys n).1.2 mod 4 = 2.
Proof. intros Hp Hn. unfold queue_layout. cbn [fst snd]. zlia. Qed.

(** ** Resource dimensions *)

Lemma res_slot_Some l id i : res_slot l id = Some i → ∃ d, l !! i = Some d ∧ rd_id d = id.
Proof.
  unfold res_slot. intros H. apply fmap_Some in H as ([j d] & Hf & ->). apply list_find_Some in Hf as (H1 & H2 & _). by exists d.
Qed.

Lemma res_dims_app_ne l d id : rd_id d ≠ id → virtio_gpu_res_dims (l ++ [d]) id = virtio_gpu_res_dims l id.
Proof.
  intros H. unfold virtio_gpu_res_dims, res_slot. destruct (list_find (λ d, rd_id d = id) l) as [[i e]|] eqn:E.
  - rewrite (list_find_app_l _ l _ i e E). cbn. apply list_find_Some in E as (E & _ & _). rewrite lookup_app_l; [done|by eapply lookup_lt_Some].
  - rewrite list_find_app_r by done. cbn. by rewrite decide_False.
Qed.

Lemma res_slot_cons d l id : res_slot (d :: l) id = if decide (rd_id d = id) then Some O else S <$> res_slot l id.
Proof. unfold res_slot. cbn. destruct (decide _); [done|]. by destruct (list_find _ l) as [[]|]. Qed.

Lemma res_slot_insert_ne l i x y id : l !! i = Some y → rd_id y ≠ id → rd_id x ≠ id → res_slot (<[i := x]> l) id = res_slot l id.
Proof.
  revert i. induction l as [|d l IH]; intros i Hi Hy Hx; [done|]. destruct i as [|i].
  - injection Hi as ->. change (<[O := x]> (y :: l)) with (x :: l). rewrite !res_slot_cons, !decide_False by done. done.
  - change (<[S i := x]> (d :: l)) with (d :: <[i := x]> l). by rewrite !res_slot_cons, IH.
Qed.

(** Tracking one resource does not change another's dimensions. *)
Lemma track_res_dims_other l id id' w h : id ≠ id' → virtio_gpu_res_dims (gpu_track_res_dims l id w h) id' = virtio_gpu_res_dims l id'.
Proof.
  intros Hne. unfold gpu_track_res_dims. destruct (res_slot l id) as [i|] eqn:E.
  - destruct (res_slot_Some _ _ _ E) as (y & Hy & <-). unfold virtio_gpu_res_dims. rewrite (res_slot_insert_ne l i _ y) by done.
    destruct (res_slot l id') as [j|] eqn:E'; [|done]. destruct (res_slot_Some _ _ _ E') as (z & Hz & Hz').
    rewrite list_lookup_insert_ne; [done|]. intros ->. congruence.
  - destruct (_ <? _); [|done]. by apply res_dims_app_ne.
Qed.

(** A tracked resource is found with its dimensions, unless the table of 64 is
    full of others. *)
Lemma track_res_dims_found l id w h :
  zlen l < GPU_RES_DIMS_MAX ∨ is_Some (res_slot l id) → virtio_gpu_res_dims (gpu_track_res_dims l id w h) id = Some (w, h).
Proof.
  intros H. unfold gpu_track_res_dims, virtio_gpu_res_dims. destruct (res_slot l id) as [i|] eqn:E.
  - unfold res_slot in *. apply fmap_Some in E as ([j d] & Hf & ->). apply list_find_Some in Hf as (H1 & H2 & H3). cbn [fst].
    assert (Hj : (j < length l)%nat) by (by eapply lookup_lt_Some).
    assert (Hf : list_find (λ d, rd_id d = id) (<[j := mkDim id w h]> l) = Some (j, mkDim id w h)).
    { apply list_find_Some. split; [by apply list_lookup_insert_eq|]. split; [done|]. intros k d' Hk Hlt. rewrite list_lookup_insert_ne in Hk by lia. by eapply H3. }
    rewrite Hf. cbn. by rewrite list_lookup_insert_eq.
  - destruct H as [H|[? H]]; [|done]. rewrite (proj2 (Z.ltb_lt _ _) H). unfold res_slot in *. apply fmap_None in E.
    rewrite list_find_app_r by done. cbn. rewrite decide_True by done. cbn. rewrite list_lookup_middle by lia. done.
Qed.

(** ** A device that serves at once *)

Module VirtioDemo.
(** It answers every request with the 24 bytes of a successful response. *)
Definition demo_answer : list Z := [0; 17] ++ replicate 22 0.
Definition demo_step (w : dev_view) (r : vring) : dev_view * vring :=
  if dv_avail w =? avail_idx r then (w, r)
  else
    let head := (avail_ring r).[dv_avail w mod dv_size w] in
    let ds := chain (Z.to_nat (dv_size w)) (r_desc r) head in
    (mkDevView (dv_size w) (u16 (dv_avail w + 1)) (dv_served w ++ [request (v_ram r) ds]),
     mkVring (r_desc r) (avail_idx r) (avail_ring r) (u16 (used_idx r + 1))
       ((used_ring r).[used_idx r mod dv_size w <- (head, zlen demo_answer)]) (scatter (v_ram r) ds demo_answer)).
#[global] Instance demo_device : VirtioDevice dev_view := {| v_step := demo_step |}.

#[global] Instance demo_laws : VirtioLaws dev_view.
Proof.
  refine {| vd_view := λ w, w; vd_work := λ _, 0; vd_answer := λ _ _, demo_answer |}.
  - intros _. split; [lia|reflexivity].
  - intros w r w' head ds req Ha. subst w' head ds req. cbv beta in *. unfold v_step, demo_device, demo_step.
    rewrite (proj2 (Z.eqb_neq _ _) Ha). by right.
Defined.

Definition demo_view : dev_view := mkDevView 4 65535 [].
Definition demo_vring : vring := mkVring (replicate 4 (mkDesc 0 0 0 0)) 65535 [0; 0; 0; 0] 65535 (replicate 4 (0, 0)) (λ _, 0).

(** Ring positions about to wrap around. *)
Lemma demo_idle : vq_idle (mkVq 4 0 65535) demo_vring demo_view.
Proof. split; [exists 2; split; [lia|reflexivity]|split; [done|split; done]|done|cbn; lia|cbn; lia|done]. Qed.

(** The direct map. *)
Definition HHDM : Z := 0xFFFF800000000000.
Definition demo_tx : net_tx := mkTx (mkVq 4 0 65535) demo_view demo_vring (HHDM + 4096) true.
Definition demo_gpu : gpu := mkGpu (mkVq 4 0 65535) demo_view demo_vring true 1 1024 768 4096.
End VirtioDemo.

(** Witness of [virtio_net_send_transmits]: a short and an oversized packet. *)
Lemma virtio_net_send_transmits_witness :
  (foldl (λ '(rs, t) p, let '(r, t) := virtio_net_send VirtioDemo.HHDM t p.1 p.2 in (rs ++ [r], t)) ([], VirtioDemo.demo_tx)
     [(λ a, a mod 7, 60); (λ a, a mod 5, 9000)]).1 = [60; 1514].
Proof.
  refine (proj1 (virtio_net_send_transmits VirtioDemo.HHDM [(λ a, a mod 7, 60); (λ a, a mod 5, 9000)] VirtioDemo.demo_tx _ _)).
  - split; [exact VirtioDemo.demo_idle|done].
  - repeat constructor; cbn; lia.
Defined.

(** Witness of [virtio_gpu_flush_spec]: a rectangle that reaches over the right
    edge. *)
Lemma virtio_gpu_flush_spec_witness :
  ∃ g', virtio_gpu_flush VirtioDemo.HHDM VirtioDemo.demo_gpu (VirtioDemo.HHDM + 4096) (VirtioDemo.HHDM + 8192) 1000 10 100 20 = (true, g') ∧ gpu_idle g' ∧
    gpu_served g' = [transfer_to_host_2d 1000 10 24 20 (10 * 4096 + 1000 * 4) 1; resource_flush 1000 10 24 20 1].
Proof.
  destruct (virtio_gpu_flush_spec VirtioDemo.HHDM VirtioDemo.demo_gpu (VirtioDemo.HHDM + 4096) (VirtioDemo.HHDM + 8192) 1000 10 100 20) as (g' & H1 & H2 & H3); try (cbn; lia); try done.
  - split; [exact VirtioDemo.demo_idle|cbn; lia].
  - left. vm_compute. congruence.
  - exists g'. split; [exact H1|]. split; [exact H2|]. rewrite H3. reflexivity.
Defined.

(** ** Packets in *)

Module RxDemo.
(** The buffers [kmalloc] gives out, and the queue after [virtio_net_init]. *)
Definition rx_alloc (slot : Z) : Z := VirtioDemo.HHDM + 8192 * (slot + 1).
Definition init : net_rx :=
  match virtio_pci_setup_queue 256 4096 (λ _, 0) with
  | Some (q, r) => iter_up (λ i x, (rx_submit VirtioDemo.HHDM rx_alloc x i).2) 0 16 (mkRx q r (replicate 16 0) (replicate 16 0) true)
  | None => mkRx (mkVq 0 0 0) (mkVring [] 0 [] 0 [] (λ _, 0)) [] [] false
  end.

(** A packet arrives: the device takes the next buffer offered, the [k]-th, fills
    it with a header and the packet, and reports it used. *)
Definition arrive (k : Z) (pkt : list Z) (x : net_rx) : net_rx :=
  let r := rx_ring x in
  let head := (avail_ring r).[k mod 256] in
  let ds := chain 256 (r_desc r) head in
  mkRx (rx_q x)
    (mkVring (r_desc r) (avail_idx r) (avail_ring r) (u16 (used_idx r + 1)) ((used_ring r).[used_idx r mod 256 <- (head, 12 + zlen pkt)])
       (scatter (v_ram r) ds (replicate 12 0 ++ pkt)))
    (g_rx_bufs x) (g_rx_desc_idx x) (rx_ready x).

(** [n] packets, each received as soon as it arrives: what [virtio_net_recv] gives
    its caller. *)
Fixpoint receive (n : nat) (k : Z) (x : net_rx) : list (Z * list Z) :=
  match n with
  | O => []
  | S n => let '(len, bytes, x) := virtio_net_recv VirtioDemo.HHDM rx_alloc (arrive k [k + 1; k + 2] x) 1514 in (len, bytes) :: receive n (k + 1) x
  end.
End RxDemo.

(** Every used buffer resets [free_head], so each buffer is offered again as
    descriptor 0 while others are in flight: sixteen packets arrive, and the
    seventeenth is written to one buffer and read from another. *)
Lemma seventeenth_packet_lost :
  RxDemo.receive 17 0 RxDemo.init = map (λ k, (2, [k + 1; k + 2])) (seqZ 0 16) ++ [(2, [0; 0])].
Proof. vm_compute. reflexivity. Qed.
