(* ===== verification/Pci.v ===== *)
(** * PCI configuration space and MSI-X

    [kernel/hal/pci/pci.c]: configuration addresses, the search for a device by
    class, base address registers; [kernel/hal/pci/msix.c]: the capability list, the
    vector table of a device and the kernel's table of handlers.  Configuration
    space is hardware: a class gives reads and writes by the address put on port
    0xCF8. *)

From S2P Require Import Prelude.

Class ConfigSpace (H : Type) := {
  cfg_read : H → Z → Z;
  cfg_write : H → Z → Z → H;
}.

(** ** Addresses *)

Definition pci_addr (bus dev func offset : Z) : Z :=
  Z.lor (Z.lor (Z.lor (Z.lor 0x80000000 (Z.shiftl bus 16)) (Z.shiftl dev 11)) (Z.shiftl func 8)) (Z.land offset 0xFC).

Definition PCI_COMMAND : Z := 0x04.
Definition PCI_BAR0 : Z := 0x10.
Definition PCI_CMD_BUS_MASTER : Z := Z.shiftl 1 2.
Definition PCI_CMD_MEM_SPACE : Z := Z.shiftl 1 1.
Definition PCI_BAR_IO : Z := 0x01.
Definition PCI_BAR_64BIT : Z := 0x04.
Definition PCI_CAPABILITY_LIST : Z := 0x34.
Definition PCI_CAP_MSIX : Z := 0x11.
Definition MSIX_VECTOR_BASE : Z := 0x40.
Definition MSIX_MAX_VECTORS : Z := 32.
Definition MSIX_ENABLE : Z := Z.shiftl 1 31.
Definition MSIX_FUNC_MASK : Z := Z.shiftl 1 30.
Definition MSIX_TBL_SIZE_MASK : Z := 0x7FF.
Definition MSI_ADDR_BASE : Z := 0xFEE00000.

Record pci_dev_t := mkPci {
  p_bus : Z; p_dev : Z; p_func : Z; p_vendor : Z; p_device : Z; p_class : Z; p_subclass : Z;
  p_bar : list Z; p_bar_valid : list bool;
}.

(** [for (i = lo; i < lo + n; i++)] that returns the first result. *)
Fixpoint first_some {A} (f : Z → option A) (lo : Z) (n : nat) : option A :=
  match n with
  | O => None
  | S n => match f lo with Some x => Some x | None => first_some f (lo + 1) n end
  end.

Section pci.
Context {H : Type} `{!ConfigSpace H}.

Definition pci_read (h : H) (bus dev func offset : Z) : Z := cfg_read h (pci_addr bus dev func offset).
Definition pci_write (h : H) (bus dev func offset val : Z) : H := cfg_write h (pci_addr bus dev func offset) val.

Definition pci_read_bar (h : H) (bus dev func bar_idx : Z) : Z :=
  let offset := u8 (PCI_BAR0 + bar_idx * 4) in
  let bar_lo := pci_read h bus dev func offset in
  if bar_lo =? 0 then 0
  else if negb (Z.land bar_lo PCI_BAR_IO =? 0) then Z.land bar_lo 0xFFFFFFFC
  else if negb (Z.land bar_lo PCI_BAR_64BIT =? 0) then
    let bar_hi := pci_read h bus dev func (u8 (offset + 4)) in
    Z.lor (Z.shiftl bar_hi 32) (Z.land bar_lo 0xFFFFFFF0)
  else Z.land bar_lo 0xFFFFFFF0.

(** The device record of a function whose header word is [hdr]. *)
Definition found (h : H) (bus dev func hdr cls sub : Z) : pci_dev_t :=
  let bars := map (pci_read_bar h bus dev func) (seqZ 0 6) in
  mkPci bus dev func (Z.land hdr 0xFFFF) (Z.land (Z.shiftr hdr 16) 0xFFFF) cls sub bars (map (λ b, negb (b =? 0)) bars).

(** The class test both loops of [pci_scan] make. *)
Definition scan_func (h : H) (class_id subclass_id bus dev func : Z) : option pci_dev_t :=
  let hdr := pci_read h bus dev func 0 in
  if Z.land hdr 0xFFFF =? 0xFFFF then None
  else
    let class_reg := pci_read h bus dev func 8 in
    let cls := Z.land (Z.shiftr class_reg 24) 0xFF in
    let sub := Z.land (Z.shiftr class_reg 16) 0xFF in
    if (cls =? class_id) && (sub =? subclass_id) then Some (found h bus dev func hdr cls sub) else None.

Definition hdr_type (h : H) (bus dev : Z) : Z := Z.land (Z.shiftr (pci_read h bus dev 0 14) 16) 0x7F.

Definition scan_dev (h : H) (class_id subclass_id bus dev : Z) : option pci_dev_t :=
  if Z.land (pci_read h bus dev 0 0) 0xFFFF =? 0xFFFF then None
  else
    match scan_func h class_id subclass_id bus dev 0 with
    | Some d => Some d
    | None =>
        if negb (Z.land (hdr_type h bus dev) 0x80 =? 0) then first_some (scan_func h class_id subclass_id bus dev) 1 7
        else None
    end.

Definition pci_scan (h : H) (class_id subclass_id : Z) : option pci_dev_t :=
  first_some (λ bus, first_some (scan_dev h class_id subclass_id bus) 0 32) 0 256.

Definition pci_enable_bus_master (h : H) (d : pci_dev_t) : H :=
  let cmd := pci_read h (p_bus d) (p_dev d) (p_func d) PCI_COMMAND in
  pci_write h (p_bus d) (p_dev d) (p_func d) PCI_COMMAND (Z.lor cmd (Z.lor PCI_CMD_BUS_MASTER PCI_CMD_MEM_SPACE)).

(** ** MSI-X *)

Record msix_table_entry_t := mkEntry { msg_addr_lo : Z; msg_addr_hi : Z; msg_data : Z; vector_ctrl : Z }.
#[export] Instance msix_entry_inhabited : Inhabited msix_table_entry_t := populate (mkEntry 0 0 0 0).

(** [table] is the physical address of the vector table; [0] when it is not
    mapped. *)
Record msix_cap_t := mkMsix {
  present : bool; cap_offset : Z; table_bar : Z; table_offset : Z; pba_bar : Z; pba_offset : Z; table_size : Z; table : Z;
}.

Definition msix_decode (h : H) (d : pci_dev_t) (cap_ptr cap_hdr : Z) : msix_cap_t :=
  let rd := pci_read h (p_bus d) (p_dev d) (p_func d) in
  let msg_ctrl := Z.land (Z.shiftr cap_hdr 16) 0xFFFF in
  let tbl_info := rd (u8 (cap_ptr + 4)) in
  let pba_info := rd (u8 (cap_ptr + 8)) in
  let tb := Z.land tbl_info 0x07 in
  let off := Z.land tbl_info 0xFFFFFFF8 in
  mkMsix true cap_ptr tb off (Z.land pba_info 0x07) (Z.land pba_info 0xFFFFFFF8) (Z.land msg_ctrl MSIX_TBL_SIZE_MASK + 1)
    (if (tb <? 6) && default false (p_bar_valid d !! Z.to_nat tb) then u64 (default 0 (p_bar d !! Z.to_nat tb) + off) else 0).

(** The walk over the capability list; [inl] when the fuel runs out. *)
Fixpoint msix_walk (fuel : nat) (h : H) (d : pci_dev_t) (cap_ptr : Z) : unit + option msix_cap_t :=
  if negb (negb (cap_ptr =? 0) && (cap_ptr <? 0xFF)) then inr None
  else
    match fuel with
    | O => inl tt
    | S fuel =>
        let cap_hdr := pci_read h (p_bus d) (p_dev d) (p_func d) cap_ptr in
        if Z.land cap_hdr 0xFF =? PCI_CAP_MSIX then inr (Some (msix_decode h d cap_ptr cap_hdr))
        else msix_walk fuel h d (Z.land (Z.shiftr cap_hdr 8) 0xFF)
    end.
Definition msix_parse (fuel : nat) (h : H) (d : pci_dev_t) : unit + option msix_cap_t :=
  msix_walk fuel h d (u8 (pci_read h (p_bus d) (p_dev d) (p_func d) PCI_CAPABILITY_LIST)).

(** Setting and clearing the mask bit of one entry. *)
Definition mask (e : msix_table_entry_t) : msix_table_entry_t := mkEntry (msg_addr_lo e) (msg_addr_hi e) (msg_data e) (Z.lor (vector_ctrl e) 1).
Definition unmask (e : msix_table_entry_t) : msix_table_entry_t := mkEntry (msg_addr_lo e) (msg_addr_hi e) (msg_data e) (Z.land (vector_ctrl e) 0xFFFFFFFE).

(** The device's table is [tab]. *)
Definition msix_enable (h : H) (d : pci_dev_t) (cap : msix_cap_t) (tab : list msix_table_entry_t) : H * list msix_table_entry_t :=
  if negb (present cap) then (h, tab) else
  let rd h off := pci_read h (p_bus d) (p_dev d) (p_func d) off in
  let wr h off v := pci_write h (p_bus d) (p_dev d) (p_func d) off v in
  let cap_hdr := rd h (cap_offset cap) in
  let msg_ctrl := Z.lor (Z.land (Z.shiftr cap_hdr 16) 0xFFFF) (Z.lor MSIX_ENABLE MSIX_FUNC_MASK) in
  let h := wr h (cap_offset cap) (Z.lor (Z.land cap_hdr 0xFFFF) (u32 (Z.shiftl msg_ctrl 16))) in
  let tab := if negb (table cap =? 0) then iter_up (λ i tab, tab.[i <- mask tab.[i]]) 0 (Z.to_nat (table_size cap)) tab else tab in
  let h := wr h PCI_COMMAND (Z.lor (rd h PCI_COMMAND) (Z.shiftl 1 10)) in
  let msg_ctrl := Z.land msg_ctrl (u32 (Z.lnot MSIX_FUNC_MASK)) in
  (wr h (cap_offset cap) (Z.lor (Z.land cap_hdr 0xFFFF) (u32 (Z.shiftl msg_ctrl 16))), tab).
End pci.

Definition msix_program_entry (cap : msix_cap_t) (tab : list msix_table_entry_t) (entry_idx vector cpu : Z) : list msix_table_entry_t :=
  if (table cap =? 0) || (table_size cap <=? entry_idx) then tab
  else
    let tab := tab.[entry_idx <- mask tab.[entry_idx]] in
    let e := tab.[entry_idx] in
    let tab := tab.[entry_idx <- mkEntry (Z.lor MSI_ADDR_BASE (Z.shiftl cpu 12)) 0 vector (vector_ctrl e)] in
    tab.[entry_idx <- unmask tab.[entry_idx]].
Definition msix_mask_entry (cap : msix_cap_t) (tab : list msix_table_entry_t) (i : Z) : list msix_table_entry_t :=
  if negb (table cap =? 0) && (i <? table_size cap) then tab.[i <- mask tab.[i]] else tab.
Definition msix_unmask_entry (cap : msix_cap_t) (tab : list msix_table_entry_t) (i : Z) : list msix_table_entry_t :=
  if negb (table cap =? 0) && (i <? table_size cap) then tab.[i <- unmask tab.[i]] else tab.

(** The kernel's handlers: a handler is its address and its context. *)
Record msix_state := mkMsixState { msix_handlers : list (option (Z * Z)); msix_next_vector : Z }.

Definition msix_alloc_vector (s : msix_state) (handler ctx : Z) : Z * msix_state :=
  if MSIX_MAX_VECTORS <=? msix_next_vector s then (0, s)
  else
    let idx := msix_next_vector s in
    (u8 (MSIX_VECTOR_BASE + idx), mkMsixState ((msix_handlers s).[idx <- Some (handler, ctx)]) (idx + 1)).

(** The handler [msi_dispatch_asm] calls. *)
Definition msi_dispatch_asm (s : msix_state) (vector : Z) : option (Z * Z) :=
  let idx := vector - MSIX_VECTOR_BASE in
  if (idx <? 0) || (MSIX_MAX_VECTORS <=? idx) then None else (msix_handlers s).[idx].
