(* ===== verification/PciSpec.v ===== *)
(** * What the PCI and MSI-X code does

    Configuration addresses name registers uniquely; the scan finds the first
    function 0 of the requested class; the capability walk ends on a list without
    cycles; vectors reach their handlers; and [msix_enable] leaves
    MSI-X as it was and turns the INTx line off. *)

From S2P Require Import Prelude Pci.

(** ** Addresses *)

Lemma pci_addr_sum bus dev func off : 0 ≤ bus < 256 → 0 ≤ dev < 32 → 0 ≤ func < 8 → 0 ≤ off < 256 →
  pci_addr bus dev func off = 2 ^ 31 + bus * 2 ^ 16 + dev * 2 ^ 11 + func * 2 ^ 8 + off / 4 * 4.
Proof.
  intros Hb Hd Hf Ho. unfold pci_addr. rewrite !Z.shiftl_mul_pow2 by lia. change 0x80000000 with (2 ^ 31).
  assert (E : Z.land off 0xFC = off / 4 * 4).
  { assert (H : Forall (λ o, Z.land o 0xFC = o / 4 * 4) (seqZ 0 256)) by (apply (bool_decide_unpack _); vm_compute; done).
    rewrite Forall_forall in H. apply H. apply elem_of_seqZ. lia. }
  rewrite E, (lor_fields (2 ^ 31) _ 24), (lor_fields _ (dev * 2 ^ 11) 16), (lor_fields _ (func * 2 ^ 8) 11), (lor_fields _ _ 8); zlia.
Qed.

(** The address put on the configuration port determines bus, device,
    function and register: reads and writes of different registers never meet. *)
Theorem pci_addr_injective bus dev func off bus' dev' func' off' :
  0 ≤ bus < 256 → 0 ≤ dev < 32 → 0 ≤ func < 8 → 0 ≤ off < 256 → 0 ≤ bus' < 256 → 0 ≤ dev' < 32 → 0 ≤ func' < 8 → 0 ≤ off' < 256 →
  pci_addr bus dev func off = pci_addr bus' dev' func' off' ↔ bus = bus' ∧ dev = dev' ∧ func = func' ∧ off / 4 = off' / 4.
Proof. intros. rewrite !pci_addr_sum by done. split; [zlia|]. intros (-> & -> & -> & ->). done. Qed.

(** ** The scan *)

Lemma first_some_Some {A} (f : Z → option A) lo n x : first_some f lo n = Some x →
  ∃ i, lo ≤ i < lo + Z.of_nat n ∧ f i = Some x ∧ ∀ j, lo ≤ j < i → f j = None.
Proof.
  revert lo. induction n as [|n IH]; intros lo E; [done|]. cbn [first_some] in E. destruct (f lo) as [y|] eqn:Ef.
  - injection E as ->. exists lo. split_and!; [lia|lia|done|lia].
  - destruct (IH _ E) as (i & Hi & Hf & Hj). exists i. split_and!; [lia|lia|done|]. intros j Hj'. destruct (Z.eq_dec j lo) as [->|]; [done|apply Hj; lia].
Qed.
Lemma first_some_None {A} (f : Z → option A) lo n : first_some f lo n = None → ∀ j, lo ≤ j < lo + Z.of_nat n → f j = None.
Proof.
  revert lo. induction n as [|n IH]; intros lo E j Hj; [lia|]. cbn [first_some] in E. destruct (f lo) as [y|] eqn:Ef; [done|].
  destruct (Z.eq_dec j lo) as [->|]; [done|]. apply (IH _ E). lia.
Qed.

(** The kinds of bit a configuration register has: read-only, read-write, and
    cleared by writing 1. *)
Inductive bit_kind := RO | RW | W1C.

Definition bit_after (k : bit_kind) (old new : bool) : bool :=
  match k with RO => old | RW => new | W1C => old && negb new end.

(** Configuration registers hold 32 bits, each of a fixed kind; a write changes
    the bits of its own register by their kinds, and no other register. *)
Class ConfigLaws (H : Type) `{!ConfigSpace H} := {
  cfg_kind : H → Z → Z → bit_kind;
  cfg_range (h : H) a : 0 ≤ cfg_read h a < 2 ^ 32;
  cfg_kind_write (h : H) a v b i : cfg_kind (cfg_write h a v) b i = cfg_kind h b i;
  cfg_write_bit (h : H) a v i : 0 ≤ v < 2 ^ 32 → 0 ≤ i < 32 →
    Z.testbit (cfg_read (cfg_write h a v) a) i = bit_after (cfg_kind h a i) (Z.testbit (cfg_read h a) i) (Z.testbit v i);
  cfg_write_other (h : H) a v b : b ≠ a → cfg_read (cfg_write h a v) b = cfg_read h b;
}.

Lemma bits_32_eq a b : 0 ≤ a < 2 ^ 32 → 0 ≤ b < 2 ^ 32 → (∀ i, 0 ≤ i < 32 → Z.testbit a i = Z.testbit b i) → a = b.
Proof.
  intros Ha Hb Hi. apply Z.bits_inj'. intros i Hi0. destruct (Z.lt_ge_cases i 32); [by apply Hi|].
  by rewrite <- (Z.mod_small a (2 ^ 32) Ha), <- (Z.mod_small b (2 ^ 32) Hb), !Z.mod_pow2_bits_high by lia.
Qed.

(** Writing back what was read changes nothing where no bit is cleared by writing 1. *)
Lemma cfg_write_back {H} `{!ConfigSpace H, !ConfigLaws H} (h : H) a :
  (∀ i, 0 ≤ i < 32 → cfg_kind h a i ≠ W1C) → cfg_read (cfg_write h a (cfg_read h a)) a = cfg_read h a.
Proof.
  intros Hk. apply bits_32_eq; [apply cfg_range..|]. intros i Hi. rewrite cfg_write_bit by (apply cfg_range || done).
  specialize (Hk i Hi). by destruct (cfg_kind h a i).
Qed.

Section scan.
Context {H : Type} `{!ConfigSpace H}.

(** Masking the header type with 0x7F clears the bit tested next: function 0 is
    the only one looked at. *)
Lemma multifunction_never (h : H) bus dev : Z.land (hdr_type h bus dev) 0x80 = 0.
Proof. unfold hdr_type. rewrite <- Z.land_assoc. apply Z.land_0_r. Qed.

Lemma scan_dev_eq (h : H) cls sub bus dev : scan_dev h cls sub bus dev = scan_func h cls sub bus dev 0.
Proof.
  unfold scan_dev. rewrite multifunction_never. cbn [Z.eqb negb]. unfold scan_func. destruct (Z.land (pci_read h bus dev 0 0) 0xFFFF =? 0xFFFF); [done|].
  by destruct (_ && _).
Qed.

(** Function 0 of a device is present and of the wanted class. *)
Definition is_class (h : H) (cls sub bus dev : Z) : Prop :=
  Z.land (pci_read h bus dev 0 0) 0xFFFF ≠ 0xFFFF ∧
  Z.land (Z.shiftr (pci_read h bus dev 0 8) 24) 0xFF = cls ∧ Z.land (Z.shiftr (pci_read h bus dev 0 8) 16) 0xFF = sub.

Lemma scan_func_spec (h : H) cls sub bus dev :
  match scan_func h cls sub bus dev 0 with
  | Some d => is_class h cls sub bus dev ∧ d = found h bus dev 0 (pci_read h bus dev 0 0) cls sub
  | None => ¬ is_class h cls sub bus dev
  end.
Proof.
  unfold scan_func, is_class. destruct (Z.eqb_spec (Z.land (pci_read h bus dev 0 0) 0xFFFF) 0xFFFF); [tauto|].
  destruct (Z.eqb_spec (Z.land (Z.shiftr (pci_read h bus dev 0 8) 24) 0xFF) cls) as [E1|]; cbn [andb]; [|tauto].
  destruct (Z.eqb_spec (Z.land (Z.shiftr (pci_read h bus dev 0 8) 16) 0xFF) sub) as [E2|]; [|tauto]. by rewrite E1, E2.
Qed.

(** [pci_scan] returns function 0 of the first device, by bus and then by
    device number, whose class and subclass are the ones asked for, with its
    identification and decoded base addresses; and fails exactly when no bus has
    such a device.  Functions 1 to 7 are never found. *)
Theorem pci_scan_spec (h : H) cls sub :
  match pci_scan h cls sub with
  | Some d => ∃ bus dev, 0 ≤ bus < 256 ∧ 0 ≤ dev < 32 ∧ is_class h cls sub bus dev ∧
      d = found h bus dev 0 (pci_read h bus dev 0 0) cls sub ∧
      ∀ b e, 0 ≤ b < 256 → 0 ≤ e < 32 → b < bus ∨ (b = bus ∧ e < dev) → ¬ is_class h cls sub b e
  | None => ∀ bus dev, 0 ≤ bus < 256 → 0 ≤ dev < 32 → ¬ is_class h cls sub bus dev
  end.
Proof.
  assert (Hn : ∀ b e, scan_dev h cls sub b e = None → ¬ is_class h cls sub b e).
  { intros b e E. rewrite scan_dev_eq in E. pose proof (scan_func_spec h cls sub b e) as Hs. by rewrite E in Hs. }
  destruct (pci_scan h cls sub) as [d|] eqn:E.
  - apply first_some_Some in E as (bus & Hb & E & Hprev). pose proof E as E'. apply first_some_Some in E' as (dev & Hd & Ed & Hprev').
    rewrite scan_dev_eq in Ed. pose proof (scan_func_spec h cls sub bus dev) as Hs. rewrite Ed in Hs. destruct Hs as [Hs ->].
    exists bus, dev. split_and!; [lia|lia|lia|lia|exact Hs|done|]. intros b e Hb' He' [Hlt|[-> Hlt]]; apply Hn.
    + eapply first_some_None; [apply Hprev; lia|lia].
    + apply Hprev'. lia.
  - intros bus dev Hb Hd. apply Hn. eapply first_some_None; [apply (first_some_None _ _ _ E); lia|lia].
Qed.
End scan.

(** ** Capabilities *)

Section msix.
Context {H : Type} `{!ConfigSpace H}.

(** The capabilities from [p] on: a chain of pointers that ends. *)
Definition cap_hdr_at (h : H) (d : pci_dev_t) (p : Z) : Z := pci_read h (p_bus d) (p_dev d) (p_func d) p.
Definition cap_end (p : Z) : bool := negb (negb (p =? 0) && (p <? 0xFF)).
Inductive cap_list (h : H) (d : pci_dev_t) : Z → list Z → Prop :=
  | cap_nil p : cap_end p = true → cap_list h d p []
  | cap_cons p l : cap_end p = false → cap_list h d (Z.land (Z.shiftr (cap_hdr_at h d p) 8) 0xFF) l → cap_list h d p (p :: l).

Definition is_msix (h : H) (d : pci_dev_t) (p : Z) : bool := Z.land (cap_hdr_at h d p) 0xFF =? PCI_CAP_MSIX.

(** On a list that ends, the walk ends, with the first MSI-X capability. *)
Lemma msix_walk_spec h d p l fuel : cap_list h d p l → (length l ≤ fuel)%nat →
  msix_walk fuel h d p = inr ((λ p, msix_decode h d p (cap_hdr_at h d p)) <$> List.find (is_msix h d) l).
Proof.
  intros Hl. revert fuel. induction Hl as [p Hp|p l Hp Hl IH]; intros fuel Hf; unfold cap_end in Hp.
  { destruct fuel; cbn [msix_walk]; by rewrite Hp. }
  destruct fuel as [|fuel]; [cbn in Hf; lia|]. cbn [msix_walk List.find]. rewrite Hp. fold (cap_hdr_at h d p) (is_msix h d p).
  destruct (is_msix h d p); [done|]. apply IH. cbn in Hf. lia.
Qed.

(** On a capability that points to itself, and is not MSI-X, it never ends. *)
Lemma msix_walk_cycle h d p fuel :
  cap_end p = false → is_msix h d p = false → Z.land (Z.shiftr (cap_hdr_at h d p) 8) 0xFF = p → msix_walk fuel h d p = inl tt.
Proof.
  intros Hp Hm Hn. induction fuel as [|fuel IH]; cbn [msix_walk]; unfold cap_end in Hp; rewrite Hp; [done|].
  fold (cap_hdr_at h d p) (is_msix h d p). by rewrite Hm, Hn.
Qed.

(** ** Vectors of a device *)

(** A programmed entry delivers its vector to the CPU, unmasked, and no other
    entry changes. *)
Lemma msix_program_entry_spec cap tab i vector cpu :
  table cap ≠ 0 → zlen tab = table_size cap → 0 ≤ i < table_size cap →
  let tab' := msix_program_entry cap tab i vector cpu in
  msg_addr_lo tab'.[i] = Z.lor MSI_ADDR_BASE (Z.shiftl cpu 12) ∧ msg_addr_hi tab'.[i] = 0 ∧ msg_data tab'.[i] = vector ∧
  Z.testbit (vector_ctrl tab'.[i]) 0 = false ∧ ∀ j, 0 ≤ j → j ≠ i → tab'.[j] = tab.[j].
Proof.
  intros Ht Hl Hi. unfold msix_program_entry. rewrite (proj2 (Z.eqb_neq _ _) Ht), (proj2 (Z.leb_gt _ _)) by lia. cbn [orb].
  set (t1 := tab.[i <- mask tab.[i]]). set (t2 := t1.[i <- _]). cbv zeta.
  assert (L2 : 0 ≤ i < zlen t2) by (unfold t2, t1; rewrite !zlen_aset; lia).
  rewrite aget_aset_eq by done. unfold t2 at 1 2 3 4. rewrite aget_aset_eq by (unfold t1; rewrite zlen_aset; lia).
  cbn [unmask msg_addr_lo msg_addr_hi msg_data vector_ctrl]. split_and!; [done..| |].
  - rewrite Z.land_spec. apply andb_false_r.
  - intros j Hj Hne. unfold t2, t1. by rewrite !aget_aset_ne by lia.
Qed.

Lemma ctrl_word_unchanged cap_hdr x :
  0 ≤ cap_hdr < 2 ^ 32 → 0 ≤ x → x mod 2 ^ 16 = 0 →
  Z.lor (Z.land cap_hdr 0xFFFF) (u32 (Z.shiftl (Z.land (Z.shiftr cap_hdr 16) 0xFFFF + x) 16)) = cap_hdr.
Proof.
  intros Hc Hx Hm. change 0xFFFF with (Z.ones 16). rewrite !Z.land_ones, Z.shiftr_div_pow2, Z.shiftl_mul_pow2 by lia.
  assert (E : u32 ((cap_hdr / 2 ^ 16 mod 2 ^ 16 + x) * 2 ^ 16) = cap_hdr / 2 ^ 16 * 2 ^ 16) by (unfold u32; zlia).
  rewrite E, Z.lor_comm, (lor_fields _ _ 16); zlia.
Qed.

(** The two control words [msix_enable] writes. *)
Lemma msix_ctrl_words hdr : 0 ≤ hdr < 2 ^ 32 →
  let m := Z.lor (Z.land (Z.shiftr hdr 16) 0xFFFF) (Z.lor MSIX_ENABLE MSIX_FUNC_MASK) in
  Z.lor (Z.land hdr 0xFFFF) (u32 (Z.shiftl m 16)) = hdr ∧
  Z.lor (Z.land hdr 0xFFFF) (u32 (Z.shiftl (Z.land m (u32 (Z.lnot MSIX_FUNC_MASK))) 16)) = hdr.
Proof.
  intros Hh m. assert (Hy : 0 ≤ Z.land (Z.shiftr hdr 16) 0xFFFF < 2 ^ 16) by (change 0xFFFF with (Z.ones 16); rewrite Z.land_ones by lia; zlia).
  assert (Hor : ∀ k, k mod 2 ^ 16 = 0 → Z.lor (Z.land (Z.shiftr hdr 16) 0xFFFF) k = Z.land (Z.shiftr hdr 16) 0xFFFF + k).
  { intros k Hk. rewrite Z.lor_comm, (lor_fields k _ 16), Z.add_comm by (lia || done). done. }
  split.
  - unfold m. rewrite (Hor (Z.lor MSIX_ENABLE MSIX_FUNC_MASK)) by done. apply ctrl_word_unchanged; (lia || done).
  - unfold m. rewrite Z.land_lor_distr_l. rewrite <- Z.land_assoc. change (Z.land 0xFFFF (u32 (Z.lnot MSIX_FUNC_MASK))) with 0xFFFF.
    change (Z.land (Z.lor MSIX_ENABLE MSIX_FUNC_MASK) (u32 (Z.lnot MSIX_FUNC_MASK))) with (2 ^ 31).
    rewrite (Hor (2 ^ 31)) by done. apply ctrl_word_unchanged; (lia || done).
Qed.

Definition dev_ok (d : pci_dev_t) : Prop := 0 ≤ p_bus d < 256 ∧ 0 ≤ p_dev d < 32 ∧ 0 ≤ p_func d < 8.

(** How a function signals interrupts, by its MSI-X capability word and its
    command register: through MSI-X when that is enabled (bit 31) and not masked
    for the whole function (bit 30), by its INTx line when MSI-X is off and INTx is
    not disabled (command bit 10), and else not at all. *)
Inductive irq_mode := Intx | Msix | Silent.
Definition irq_mode_of (ctrl cmd : Z) : irq_mode :=
  if Z.testbit ctrl 31 then (if Z.testbit ctrl 30 then Silent else Msix)
  else if Z.testbit cmd 10 then Silent else Intx.

End msix.

(** ** Handlers *)

Definition msix_wf (s : msix_state) : Prop := zlen (msix_handlers s) = MSIX_MAX_VECTORS ∧ 0 ≤ msix_next_vector s ≤ MSIX_MAX_VECTORS.

(** A new vector reaches its handler, and the vectors given out before keep
    theirs. *)
Lemma msix_alloc_dispatch s handler ctx v s' :
  msix_wf s → msix_alloc_vector s handler ctx = (v, s') → v ≠ 0 →
  msix_wf s' ∧ v = MSIX_VECTOR_BASE + msix_next_vector s ∧ msi_dispatch_asm s' v = Some (handler, ctx) ∧
  ∀ w, w ≠ v → msi_dispatch_asm s' w = msi_dispatch_asm s w.
Proof.
  intros [Hl Hn] E Hv. unfold msix_alloc_vector in E. destruct (Z.leb_spec MSIX_MAX_VECTORS (msix_next_vector s)) as [|Hlt]; [by injection E as <- _|].
  unfold MSIX_MAX_VECTORS, MSIX_VECTOR_BASE in *. rewrite u8_small in E by lia. injection E as <- <-.
  split; [split; cbn; [rewrite zlen_aset; done|unfold MSIX_MAX_VECTORS; lia]|]. split; [done|]. unfold msi_dispatch_asm, MSIX_MAX_VECTORS, MSIX_VECTOR_BASE. cbn [msix_handlers].
  split.
  - rewrite Z.add_simpl_l, (proj2 (Z.ltb_ge _ _)), (proj2 (Z.leb_gt _ _)) by lia. cbn [orb]. apply aget_aset_eq. lia.
  - intros w Hw. destruct (Z.ltb_spec (w - 64) 0), (Z.leb_spec 32 (w - 64)); cbn [orb]; try done. apply aget_aset_ne; lia.
Qed.

(** The vector the network driver hands to its device is the index of the IDT
    vector, the table entry it programs is 0: they agree only for the first vector
    ever allocated, which the NVMe driver takes. *)
Lemma rx_vector_mismatch s h1 c1 h2 c2 v1 s1 v2 s2 :
  s = mkMsixState (replicate 32 None) 0 → msix_alloc_vector s h1 c1 = (v1, s1) → msix_alloc_vector s1 h2 c2 = (v2, s2) → v2 - 0x40 = 1.
Proof. intros -> [= <- <-] [= <- <-]. done. Qed.

(** ** A configuration space *)

Module PciDemo.
(** Which bits of a register can be written, and which are cleared by writing 1:
    the command register and the status register above it, the control word of an
    MSI-X capability at 0x40, and read-only registers otherwise. *)
Definition rw_mask (a : Z) : Z :=
  if a mod 256 =? 4 then 0x0000077F else if a mod 256 =? 0x40 then 0xC0000000 else 0.
Definition w1c_mask (a : Z) : Z := if a mod 256 =? 4 then 0xF9000000 else 0.
Definition demo_write (f : Z → Z) (a v b : Z) : Z :=
  if b =? a then
    Z.lor (Z.lor (Z.land (Z.land (f a) (Z.lnot (rw_mask a))) (Z.lnot (w1c_mask a))) (Z.land v (rw_mask a)))
          (Z.land (Z.land (Z.land (f a) (Z.lnot (rw_mask a))) (w1c_mask a)) (Z.lnot v))
  else f b.
#[global] Instance demo_config : ConfigSpace (Z → Z) := {| cfg_read := λ f a, u32 (f a); cfg_write := demo_write |}.
#[global] Instance demo_config_laws : ConfigLaws (Z → Z).
Proof.
  refine (Build_ConfigLaws _ _ (λ _ a i, if Z.testbit (rw_mask a) i then RW else if Z.testbit (w1c_mask a) i then W1C else RO) _ _ _ _).
  - intros h a. apply Z.mod_pos_bound. lia.
  - done.
  - intros h a v i Hv Hi. cbn [cfg_read cfg_write demo_config]. unfold u32. change 4294967296 with (2 ^ 32). rewrite !Z.mod_pow2_bits_low by lia. unfold demo_write. rewrite Z.eqb_refl.
    rewrite !Z.lor_spec, !Z.land_spec, !Z.lnot_spec by lia.
    by destruct (Z.testbit (rw_mask a) i), (Z.testbit (w1c_mask a) i), (Z.testbit (h a) i), (Z.testbit v i).
  - intros h a v b Hb. cbn [cfg_read cfg_write demo_config]. unfold demo_write. by rewrite (proj2 (Z.eqb_neq b a)).
Defined.

(** One device, 00:03.0, with an MSI-X capability at 0x40. *)
Definition demo_dev : pci_dev_t := mkPci 0 3 0 0x1AF4 0x1041 2 0 (replicate 6 0) (replicate 6 false).
Definition demo_space : Z → Z := λ a,
  if a =? pci_addr 0 3 0 0 then 0x10411AF4 else if a =? pci_addr 0 3 0 8 then 0x02000000
  else if a =? pci_addr 0 3 0 0x34 then 0x40 else if a =? pci_addr 0 3 0 0x40 then 0x00020011
  else if a =? pci_addr 0 3 0 PCI_COMMAND then 0x00100000 else 0xFFFFFFFF.
Lemma demo_found : (λ d, (p_bus d, p_dev d, p_vendor d)) <$> pci_scan demo_space 2 0 = Some (0, 3, 0x1AF4).
Proof. vm_compute. done. Qed.
End PciDemo.

(** Witness of [pci_addr_injective]. *)
Lemma pci_addr_injective_witness : pci_addr 1 3 0 4 = pci_addr 1 3 0 6 ↔ 1 = 1 ∧ 3 = 3 ∧ 0 = 0 ∧ 4 / 4 = 6 / 4.
Proof. apply (pci_addr_injective 1 3 0 4 1 3 0 6); lia. Defined.

