(* ===== verification/Platform.v ===== *)
(** * Interrupt tables, interrupt controllers and clocks

    [kernel/interrupts/idt.c] and [pic.c]: the gates of the interrupt descriptor
    table, the handlers of the sixteen legacy lines and their masks;
    [kernel/arch/x86_64/gdt.c]: the descriptor of the task state segment;
    [kernel/hal/apic/lapic.c]: inter-processor interrupts;
    [kernel/arch/x86_64/rtc.c]: wall-clock time; [kernel/hal/timers/timer.c]: the
    system time.  What the processor and the controllers read from these tables
    and registers is given by decoding functions. *)

From S2P Require Import Prelude Pci.

(** ** The interrupt descriptor table *)

Record idt_entry := mkGate { off_low : Z; selector : Z; ist : Z; type_attr : Z; off_mid : Z; off_high : Z }.
Definition gate_zero : idt_entry := mkGate 0 0 0 0 0 0.
#[export] Instance idt_entry_inhabited : Inhabited idt_entry := populate gate_zero.

Definition KCODE_SEL : Z := 0x08.
Definition IRQ_BASE : Z := 0x20.
Definition IPI_VECTOR_RESCHED : Z := 0xE0.
Definition IPI_VECTOR_TLB : Z := 0xE1.
Definition IPI_VECTOR_STOP : Z := 0xE2.
Definition IPI_VECTOR_CALL_FUNC : Z := 0xE3.
Definition LAPIC_TIMER_VECTOR : Z := 0xF0.
Definition LAPIC_SPURIOUS_VECTOR : Z := 0xFF.

Definition gate (handler attr : Z) : idt_entry :=
  mkGate (Z.land handler 0xFFFF) KCODE_SEL 0 attr (Z.land (Z.shiftr handler 16) 0xFFFF) (Z.land (Z.shiftr handler 32) 0xFFFFFFFF).
Definition set_gate (idt : list idt_entry) (n handler attr : Z) : list idt_entry := idt.[n <- gate handler attr].

(** The entry points: [exc_table], [irq_table], [msi_stub_table] and the five
    stubs. *)
Record entry_points := mkEntries {
  exc_table : Z → Z; irq_table : Z → Z; msi_stub_table : Z → Z;
  isr_resched : Z; isr_tlb : Z; isr_stop : Z; isr_call_func : Z; isr_timer : Z;
}.

Definition msix_idt_init (e : entry_points) (idt : list idt_entry) : list idt_entry :=
  iter_up (λ i idt, set_gate idt (MSIX_VECTOR_BASE + i) (msi_stub_table e i) 0x8E) 0 (Z.to_nat MSIX_MAX_VECTORS) idt.

Definition idt_init (e : entry_points) (idt : list idt_entry) : list idt_entry :=
  let idt := iter_up (λ i idt, set_gate idt (0 + i) (exc_table e i) 0x8E) 0 32 idt in
  let idt := iter_up (λ i idt, set_gate idt (IRQ_BASE + i) (irq_table e i) 0x8E) 0 16 idt in
  let idt := set_gate idt IPI_VECTOR_RESCHED (isr_resched e) 0x8E in
  let idt := set_gate idt IPI_VECTOR_TLB (isr_tlb e) 0x8E in
  let idt := set_gate idt IPI_VECTOR_STOP (isr_stop e) 0x8E in
  let idt := set_gate idt IPI_VECTOR_CALL_FUNC (isr_call_func e) 0x8E in
  let idt := set_gate idt LAPIC_TIMER_VECTOR (isr_timer e) 0x8E in
  msix_idt_init e idt.

(** ** Legacy interrupt lines *)

(** The masks of the two controllers and the handlers ([0] is none). *)
Record irqs := mkIrqs { pic1_mask : Z; pic2_mask : Z; irq_handlers : list Z }.

Definition pic_set_mask (s : irqs) (irq : Z) : irqs :=
  let bit := if irq <? 8 then irq else irq - 8 in
  if irq <? 8 then mkIrqs (Z.lor (pic1_mask s) (u8 (Z.shiftl 1 bit))) (pic2_mask s) (irq_handlers s)
  else mkIrqs (pic1_mask s) (Z.lor (pic2_mask s) (u8 (Z.shiftl 1 bit))) (irq_handlers s).

Definition pic_clear_mask (s : irqs) (irq : Z) : irqs :=
  let bit := if irq <? 8 then irq else irq - 8 in
  let s := if irq <? 8 then mkIrqs (Z.land (pic1_mask s) (u8 (Z.lnot (Z.shiftl 1 bit)))) (pic2_mask s) (irq_handlers s)
           else mkIrqs (pic1_mask s) (Z.land (pic2_mask s) (u8 (Z.lnot (Z.shiftl 1 bit)))) (irq_handlers s) in
  if 8 <=? irq then mkIrqs (Z.land (pic1_mask s) (u8 (Z.lnot (Z.shiftl 1 2)))) (pic2_mask s) (irq_handlers s) else s.

Definition irq_install (s : irqs) (irq fn : Z) : irqs :=
  if (irq <? 0) || (15 <? irq) then s
  else pic_clear_mask (mkIrqs (pic1_mask s) (pic2_mask s) ((irq_handlers s).[irq <- fn])) irq.
Definition irq_uninstall (s : irqs) (irq : Z) : irqs :=
  if (irq <? 0) || (15 <? irq) then s
  else let s := pic_set_mask s irq in mkIrqs (pic1_mask s) (pic2_mask s) ((irq_handlers s).[irq <- 0]).

(** The acknowledgements sent, in order, and then the handler called. *)
Inductive ack := LapicEoi | Pic2Eoi | Pic1Eoi.
Definition pic_eoi (irq : Z) : list ack := (if 8 <=? irq then [Pic2Eoi] else []) ++ [Pic1Eoi].
Definition irq_dispatch (g_lapic_mode : bool) (s : irqs) (irq : Z) : list ack * option Z :=
  (if g_lapic_mode then LapicEoi :: pic_eoi irq else pic_eoi irq,
   if (irq_handlers s).[irq] =? 0 then None else Some (irq_handlers s).[irq]).

(** ** The task state segment *)

Definition set_tss_desc (base limit : Z) : Z * Z :=
  let low :=
    Z.lor (Z.lor (Z.lor (Z.lor (Z.land limit 0xFFFF) (Z.shiftl (Z.land base 0xFFFFFF) 16)) (Z.shiftl 0x89 40))
                 (Z.shiftl (Z.land (Z.shiftr limit 16) 0xF) 48))
          (Z.shiftl (Z.land (Z.shiftr base 24) 0xFF) 56) in
  (low, Z.shiftr base 32).

(** ** Inter-processor interrupts *)

Definition LAPIC_ICR_LEVEL_ASSERT : Z := Z.shiftl 1 14.
Definition LAPIC_ICR_ALL_EXCL_SELF : Z := Z.shiftl 3 18.
Definition LAPIC_ICR_ALL_INCL_SELF : Z := Z.shiftl 2 18.

(** How the local APIC is reached: by MSRs, or by its registers if they are
    mapped. *)
Inductive apic_mode := X2apic | Xapic (mapped : bool).

(** The 64-bit interrupt command the local APIC receives, if any: one MSR in x2APIC
    mode, the high and then the low register otherwise. *)
Definition icr_of (hi lo : Z) : Z := hi * 2 ^ 32 + lo.
Definition send_icr (mode : apic_mode) (x2 hi lo : Z) : option Z :=
  match mode with X2apic => Some x2 | Xapic true => Some (icr_of hi lo) | Xapic false => None end.
Definition lapic_send_ipi (mode : apic_mode) (vector dest : Z) : option Z :=
  send_icr mode (Z.lor (Z.lor dest vector) LAPIC_ICR_LEVEL_ASSERT) (u32 (Z.shiftl dest 24)) (Z.lor vector LAPIC_ICR_LEVEL_ASSERT).
Definition lapic_send_ipi_all_others (mode : apic_mode) (vector : Z) : option Z :=
  let lo := Z.lor (Z.lor vector LAPIC_ICR_LEVEL_ASSERT) LAPIC_ICR_ALL_EXCL_SELF in send_icr mode lo 0 lo.
Definition lapic_send_ipi_all (mode : apic_mode) (vector : Z) : option Z :=
  let lo := Z.lor (Z.lor vector LAPIC_ICR_LEVEL_ASSERT) LAPIC_ICR_ALL_INCL_SELF in send_icr mode lo 0 lo.

(** ** Time of day *)

Definition bcd2bin (v : Z) : Z := u8 (Z.land v 0x0F + Z.shiftr v 4 * 10).

(** [rtc_read] on the registers read: seconds, minutes, hours, register B. *)
Definition rtc_read (sec min hour regB : Z) : Z * Z * Z :=
  let pm := (Z.land regB 0x02 =? 0) && negb (Z.land hour 0x80 =? 0) in
  let hour := Z.land hour 0x7F in
  let '(sec, min, hour) := if Z.land regB 0x04 =? 0 then (bcd2bin sec, bcd2bin min, bcd2bin hour) else (sec, min, hour) in
  (if pm && negb (hour =? 12) then u8 (hour + 12) else hour, min, sec).

(** ** System time *)

Definition PIT_FREQ : Z := 1193182.
Definition pit_divisor (hz : Z) : Z :=
  let hz := if hz =? 0 then 1000 else hz in
  let divisor := PIT_FREQ / hz in
  if 0xFFFF <? divisor then 0xFFFF else divisor.

(** The calibrated frequency and start of the time-stamp counter, and the global
    ticks. *)
Record clock := mkClock { g_tsc_freq_hz : Z; g_tsc_boot : Z; g_global_ticks : Z }.

Definition systime_ns (c : clock) (tsc : Z) : Z :=
  if g_tsc_freq_hz c =? 0 then u64 (g_global_ticks c * 1000000)
  else u64 (u64 (tsc - g_tsc_boot c) * 1000000000) / g_tsc_freq_hz c.
Definition systime_us (c : clock) (tsc : Z) : Z :=
  if g_tsc_freq_hz c =? 0 then u64 (g_global_ticks c * 1000)
  else u64 (u64 (tsc - g_tsc_boot c) * 1000000) / g_tsc_freq_hz c.
(** [tsc_calibrate]: the frequency from CPUID, in kHz, or from the counter's advance
    over 50 ticks of the 1000 Hz timer; [now] is the counter read last. *)
Definition tsc_calibrate (c : clock) (tsc_khz tsc_start tsc_end now : Z) : clock :=
  if 0 <? tsc_khz then mkClock (tsc_khz * 1000) now (g_global_ticks c)
  else mkClock (u64 (u64 (tsc_end - tsc_start) * 20)) now (g_global_ticks c).

(** ** Gates *)

(** What the processor jumps to. *)
Definition gate_addr (g : idt_entry) : Z := off_low g + off_mid g * 2 ^ 16 + off_high g * 2 ^ 32.

Lemma gate_addr_gate a attr : 0 ≤ a < 2 ^ 64 → gate_addr (gate a attr) = a.
Proof.
  intros H. unfold gate_addr, gate. cbn [off_low off_mid off_high]. change 0xFFFF with (Z.ones 16). change 0xFFFFFFFF with (Z.ones 32).
  rewrite !Z.land_ones, !Z.shiftr_div_pow2 by lia. zlia.
Qed.

Lemma set_gates (f : Z → Z) attr base k (idt : list idt_entry) : 0 ≤ base → base + Z.of_nat k ≤ zlen idt →
  let idt' := iter_up (λ i idt, set_gate idt (base + i) (f i) attr) 0 k idt in
  zlen idt' = zlen idt ∧ ∀ n, 0 ≤ n → idt'.[n] = if (base <=? n) && (n <? base + Z.of_nat k) then gate (f (n - base)) attr else idt.[n].
Proof.
  intros Hb Hk. cbv zeta.
  apply (iter_up_ind (λ i l, zlen l = zlen idt ∧ ∀ n, 0 ≤ n → l.[n] = if (base <=? n) && (n <? base + i) then gate (f (n - base)) attr else idt.[n])).
  { split; [done|]. intros n Hn. destruct (Z.leb_spec base n), (Z.ltb_spec n (base + 0)); cbn [andb]; (lia || done). }
  intros i l Hi [Hl Hs]. unfold set_gate. rewrite zlen_aset. split; [done|]. intros n Hn. rewrite aget_aset by lia.
  destruct (Z.eqb_spec (base + i) n) as [<-|].
  - rewrite (proj2 (Z.leb_le _ _)), (proj2 (Z.ltb_lt _ _)) by lia. cbn [andb]. do 2 f_equal. lia.
  - rewrite Hs by done. destruct (Z.leb_spec base n), (Z.ltb_spec n (base + i)), (Z.ltb_spec n (base + (i + 1))); cbn [andb]; (lia || done).
Qed.

(** The handler each vector is meant to have. *)
Definition routed (e : entry_points) (n : Z) : option Z :=
  if n <? 32 then Some (exc_table e n)
  else if n <? 48 then Some (irq_table e (n - 32))
  else if (64 <=? n) && (n <? 96) then Some (msi_stub_table e (n - 64))
  else if n =? 0xE0 then Some (isr_resched e)
  else if n =? 0xE1 then Some (isr_tlb e)
  else if n =? 0xE2 then Some (isr_stop e)
  else if n =? 0xE3 then Some (isr_call_func e)
  else if n =? 0xF0 then Some (isr_timer e)
  else None.

Lemma idt_init_gate e n : 0 ≤ n < 256 →
  (idt_init e (replicate 256 gate_zero)).[n] = match routed e n with Some a => gate a 0x8E | None => gate_zero end.
Proof.
  intros Hn. unfold idt_init, msix_idt_init. set (z := replicate 256 gate_zero). assert (Hz : zlen z = 256) by done.
  assert (Hzn : z.[n] = gate_zero) by (apply (aget_replicate 256); lia).
  destruct (set_gates (exc_table e) 0x8E 0 32 z) as [L1 S1]; [lia|rewrite Hz; lia|]. set (i1 := iter_up _ 0 32 z) in *.
  destruct (set_gates (irq_table e) 0x8E IRQ_BASE 16 i1) as [L2 S2]; [done|rewrite L1, Hz; done|]. set (i2 := iter_up _ 0 16 i1) in *.
  set (i3 := set_gate (set_gate (set_gate (set_gate (set_gate i2 _ _ _) _ _ _) _ _ _) _ _ _) _ _ _).
  assert (L3 : zlen i3 = 256) by (unfold i3, set_gate; rewrite !zlen_aset, L2, L1; done).
  destruct (set_gates (msi_stub_table e) 0x8E MSIX_VECTOR_BASE (Z.to_nat MSIX_MAX_VECTORS) i3) as [L4 S4]; [done|rewrite L3; done|].
  rewrite S4 by lia. unfold i3, set_gate. rewrite !aget_aset by (rewrite ?zlen_aset, ?L2, ?L1, ?Hz; (done || lia)). rewrite S2, S1, Hzn by lia.
  unfold routed, MSIX_VECTOR_BASE, IRQ_BASE, IPI_VECTOR_RESCHED, IPI_VECTOR_TLB, IPI_VECTOR_STOP, IPI_VECTOR_CALL_FUNC, LAPIC_TIMER_VECTOR.
  change (64 + Z.of_nat (Z.to_nat MSIX_MAX_VECTORS)) with 96. change (32 + Z.of_nat 16) with 48. change (0 + Z.of_nat 32) with 32.
  destruct (Z.leb_spec 64 n), (Z.ltb_spec n 96), (Z.ltb_spec n 32), (Z.ltb_spec n 48), (Z.leb_spec 32 n), (Z.leb_spec 0 n); try lia;
    rewrite ?(Z.eqb_sym _ n); cbn [andb];
    repeat match goal with |- context [n =? ?k] => destruct (Z.eqb_spec n k); try lia end; try done.
  by rewrite Z.sub_0_r.
Qed.

(** After [idt_init] every vector enters the code meant for it: exceptions,
    legacy lines, MSI vectors, the inter-processor interrupts and the local timer
    each have a present gate of the kernel's code segment whose address is their
    entry point, no assignment overwrites another, and every other vector stays
    absent. *)
Theorem idt_init_routes e n :
  0 ≤ n < 256 → (∀ a, routed e n = Some a → 0 ≤ a < 2 ^ 64) →
  let g := (idt_init e (replicate 256 gate_zero)).[n] in
  match routed e n with
  | Some a => gate_addr g = a ∧ selector g = KCODE_SEL ∧ type_attr g = 0x8E
  | None => g = gate_zero
  end.
Proof.
  intros Hn Ha g. unfold g. rewrite idt_init_gate by done. destruct (routed e n) as [a|] eqn:E; [|done].
  split; [by apply gate_addr_gate, Ha|done].
Qed.

(** The spurious vector programmed into the local APIC is one of the absent ones. *)
Lemma spurious_vector_absent e : (idt_init e (replicate 256 gate_zero)).[LAPIC_SPURIOUS_VECTOR] = gate_zero.
Proof. by rewrite idt_init_gate. Qed.

(** ** Lines *)

(** A line is open when its bit is clear and, on the second controller, the
    cascade line is open too. *)
Definition line_open (s : irqs) (irq : Z) : bool :=
  if irq <? 8 then negb (Z.testbit (pic1_mask s) irq) else negb (Z.testbit (pic2_mask s) (irq - 8)) && negb (Z.testbit (pic1_mask s) 2).

Definition irqs_ok (s : irqs) : Prop := 0 ≤ pic1_mask s < 256 ∧ 0 ≤ pic2_mask s < 256 ∧ zlen (irq_handlers s) = 16.

Lemma clear_bit m b k : 0 ≤ b < 8 → 0 ≤ k < 8 → Z.testbit (Z.land m (u8 (Z.lnot (Z.shiftl 1 b)))) k = Z.testbit m k && negb (b =? k).
Proof.
  intros Hb Hk. rewrite Z.land_spec. f_equal. unfold u8. change 256 with (2 ^ 8). rewrite Z.mod_pow2_bits_low by lia.
  rewrite Z.lnot_spec, Z.shiftl_1_l, Z.pow2_bits_eqb by lia. done.
Qed.
Lemma set_bit m b k : 0 ≤ b < 8 → 0 ≤ k < 8 → Z.testbit (Z.lor m (u8 (Z.shiftl 1 b))) k = Z.testbit m k || (b =? k).
Proof.
  intros Hb Hk. rewrite Z.lor_spec. f_equal. unfold u8. change 256 with (2 ^ 8). rewrite Z.mod_pow2_bits_low by lia.
  rewrite Z.shiftl_1_l, Z.pow2_bits_eqb by lia. done.
Qed.

(** Installing a handler opens its line, on the second controller with the
    cascade line, and closes none; an interrupt on the line is then acknowledged,
    before anything else, at every controller involved, and runs exactly that
    handler; the handlers of the other lines stay. *)
Theorem irq_install_delivers s irq fn lapic :
  irqs_ok s → 0 ≤ irq ≤ 15 → fn ≠ 0 →
  let s' := irq_install s irq fn in
  line_open s' irq = true ∧ (∀ j, 0 ≤ j ≤ 15 → line_open s j = true → line_open s' j = true) ∧
  irq_dispatch lapic s' irq = ((if lapic then [LapicEoi] else []) ++ (if 8 <=? irq then [Pic2Eoi] else []) ++ [Pic1Eoi], Some fn) ∧
  ∀ j, 0 ≤ j ≤ 15 → j ≠ irq → irq_dispatch lapic s' j = irq_dispatch lapic s j.
Proof.
  intros (H1 & H2 & Hl) Hi Hf s'. unfold s', irq_install. rewrite (proj2 (Z.ltb_ge irq 0)), (proj2 (Z.ltb_ge 15 irq)) by lia. cbn [orb].
  assert (Hh : irq_handlers (pic_clear_mask (mkIrqs (pic1_mask s) (pic2_mask s) ((irq_handlers s).[irq <- fn])) irq) = (irq_handlers s).[irq <- fn]).
  { unfold pic_clear_mask. by destruct (irq <? 8), (8 <=? irq). }
  unfold irq_dispatch. rewrite Hh, aget_aset_eq, (proj2 (Z.eqb_neq fn 0)) by (done || lia).
  split_and!.
  - unfold pic_clear_mask, line_open. destruct (Z.ltb_spec irq 8), (Z.leb_spec 8 irq); try lia; cbn [pic1_mask pic2_mask].
    + rewrite clear_bit, Z.eqb_refl by lia. cbn. by rewrite andb_false_r.
    + rewrite !clear_bit, !Z.eqb_refl by lia. cbn. by rewrite !andb_false_r.
  - intros j Hj. unfold pic_clear_mask, line_open. destruct (Z.ltb_spec irq 8), (Z.leb_spec 8 irq), (Z.ltb_spec j 8); try lia; cbn [pic1_mask pic2_mask];
      rewrite ?clear_bit by lia; repeat match goal with |- context [Z.testbit ?a ?b] => destruct (Z.testbit a b) end; cbn [negb andb]; try done;
      repeat match goal with |- context [?a =? ?b] => destruct (a =? b) end; done.
  - by destruct lapic.
  - intros j Hj Hne. by rewrite aget_aset_ne by lia.
Qed.

(** Uninstalling closes the line and leaves nothing to run. *)
Lemma irq_uninstall_closes s irq lapic : irqs_ok s → 0 ≤ irq ≤ 15 →
  line_open (irq_uninstall s irq) irq = false ∧ (irq_dispatch lapic (irq_uninstall s irq) irq).2 = None.
Proof.
  intros (H1 & H2 & Hl) Hi. unfold irq_uninstall. rewrite (proj2 (Z.ltb_ge irq 0)), (proj2 (Z.ltb_ge 15 irq)) by lia. cbn [orb].
  unfold irq_dispatch, pic_set_mask, line_open. destruct (Z.ltb_spec irq 8); cbn [pic1_mask pic2_mask irq_handlers snd];
    rewrite set_bit, Z.eqb_refl, orb_true_r, aget_aset_eq by lia; done.
Qed.

(** ** Descriptors *)

(** Base and limit as the processor reads them. *)
Definition desc_base (d : Z * Z) : Z :=
  d.1 / 2 ^ 16 mod 2 ^ 24 + d.1 / 2 ^ 56 mod 2 ^ 8 * 2 ^ 24 + d.2 mod 2 ^ 32 * 2 ^ 32.
Definition desc_limit (d : Z * Z) : Z := d.1 mod 2 ^ 16 + d.1 / 2 ^ 48 mod 2 ^ 4 * 2 ^ 16.

Lemma tss_desc_roundtrip base limit : 0 ≤ base < 2 ^ 64 → 0 ≤ limit < 2 ^ 20 →
  desc_base (set_tss_desc base limit) = base ∧ desc_limit (set_tss_desc base limit) = limit ∧ (set_tss_desc base limit).1 / 2 ^ 40 mod 2 ^ 8 = 0x89.
Proof.
  intros Hb Hl. unfold set_tss_desc. change 0xFFFFFF with (Z.ones 24). change 0xFFFF with (Z.ones 16). change 0xFF with (Z.ones 8). change 0xF with (Z.ones 4).
  rewrite !Z.land_ones, !Z.shiftr_div_pow2, !Z.shiftl_mul_pow2 by lia.
  rewrite (Z.lor_comm (limit mod 2 ^ 16)), (lor_fields _ (limit mod 2 ^ 16) 16) by zlia.
  rewrite (Z.lor_comm _ (0x89 * 2 ^ 40)), (lor_fields (0x89 * 2 ^ 40) _ 40) by zlia.
  rewrite (Z.lor_comm _ (limit / 2 ^ 16 mod 2 ^ 4 * 2 ^ 48)), (lor_fields (limit / 2 ^ 16 mod 2 ^ 4 * 2 ^ 48) _ 48) by zlia.
  rewrite (Z.lor_comm _ (base / 2 ^ 24 mod 2 ^ 8 * 2 ^ 56)), (lor_fields (base / 2 ^ 24 mod 2 ^ 8 * 2 ^ 56) _ 56) by zlia.
  unfold desc_base, desc_limit. cbn [fst snd]. zlia.
Qed.

(** ** Interrupt commands *)

(** What the local APIC takes from a command: the vector (bits 0-7), the delivery
    mode (8-10), and the destination: bits 56-63 in xAPIC mode, 32-63 in x2APIC
    mode. *)
Definition icr_vector (c : Z) : Z := c mod 2 ^ 8.
Definition icr_mode (c : Z) : Z := c / 2 ^ 8 mod 2 ^ 3.
Definition icr_dest (mode : apic_mode) (c : Z) : Z := match mode with X2apic => c / 2 ^ 32 | Xapic _ => c / 2 ^ 56 end.

Lemma xapic_ipi_sent vector dest : 0 ≤ vector < 256 → 0 ≤ dest < 256 →
  ∃ c, lapic_send_ipi (Xapic true) vector dest = Some c ∧ icr_vector c = vector ∧ icr_mode c = 0 ∧ icr_dest (Xapic true) c = dest.
Proof.
  intros Hv Hd. eexists. split; [reflexivity|]. unfold icr_of, LAPIC_ICR_LEVEL_ASSERT. rewrite Z.shiftl_mul_pow2, u32_small by lia.
  rewrite Z.lor_comm, (lor_fields (Z.shiftl 1 14) vector 8) by (done || lia). change (Z.shiftl 1 14) with (2 ^ 14).
  unfold icr_vector, icr_mode, icr_dest. zlia.
Qed.

(** In x2APIC mode the destination is merged into the low half: an interrupt for
    a processor other than 0 goes to processor 0, with a different vector. *)
Lemma x2apic_ipi_misdirected :
  ∃ c, lapic_send_ipi X2apic IPI_VECTOR_RESCHED 3 = Some c ∧ icr_dest X2apic c = 0 ∧ icr_vector c = 0xE3.
Proof. eexists. split; [reflexivity|]. vm_compute. done. Qed.

(** ** Time of day *)

Definition bcd (v : Z) : Z := v / 10 * 16 + v mod 10.
(** An hour on a 12-hour clock, with the afternoon flag. *)
Definition hour12 (h : Z) : Z := bcd (if h mod 12 =? 0 then 12 else h mod 12) + (if 12 <=? h then 0x80 else 0).

Lemma bcd2bin_bcd v : 0 ≤ v < 100 → bcd2bin (bcd v) = v.
Proof.
  intros H. assert (Hall : Forall (λ v, bcd2bin (bcd v) = v) (seqZ 0 100)) by (apply (bool_decide_unpack _); vm_compute; done).
  rewrite Forall_forall in Hall. apply Hall, elem_of_seqZ. lia.
Qed.

Lemma bcd_hour_masked h : 0 ≤ h < 24 → Z.land (bcd h) 0x7F = bcd h ∧ Z.land (bcd h) 0x80 = 0.
Proof.
  intros H. assert (Hall : Forall (λ h, Z.land (bcd h) 0x7F = bcd h ∧ Z.land (bcd h) 0x80 = 0) (seqZ 0 24)) by (apply (bool_decide_unpack _); vm_compute; done).
  rewrite Forall_forall in Hall. apply Hall, elem_of_seqZ. lia.
Qed.

(** A 24-hour BCD clock is read exactly. *)
Lemma rtc_read_24h h m s regB : 0 ≤ h < 24 → 0 ≤ m < 60 → 0 ≤ s < 60 → Z.land regB 0x02 ≠ 0 → Z.land regB 0x04 = 0 →
  rtc_read (bcd s) (bcd m) (bcd h) regB = (h, m, s).
Proof.
  intros Hh Hm Hs H2 H4. unfold rtc_read. rewrite (proj2 (Z.eqb_neq _ _) H2), H4. cbn [andb Z.eqb].
  destruct (bcd_hour_masked h Hh) as [-> _]. by rewrite !bcd2bin_bcd by lia.
Qed.

(** A 12-hour clock is read exactly too, except in the hour after midnight, which
    is reported as noon. *)
Lemma rtc_read_12h h : 0 ≤ h < 24 → rtc_read 0 0 (hour12 h) 0 = (if h =? 0 then 12 else h, 0, 0).
Proof.
  intros H. assert (Hall : Forall (λ h, rtc_read 0 0 (hour12 h) 0 = (if h =? 0 then 12 else h, 0, 0)) (seqZ 0 24)) by (apply (bool_decide_unpack _); vm_compute; done).
  rewrite Forall_forall in Hall. apply Hall, elem_of_seqZ. lia.
Qed.

(** ** System time *)

Lemma pit_divisor_range hz : 0 ≤ hz → 0 ≤ pit_divisor hz ≤ 0xFFFF.
Proof.
  intros H. unfold pit_divisor, PIT_FREQ. set (d := 1193182 / _). assert (0 ≤ d) by (unfold d; apply Z.div_pos; [lia|destruct (Z.eqb_spec hz 0); lia]).
  destruct (Z.ltb_spec 0xFFFF d); lia.
Qed.

(** The exact time since the counter was calibrated, in nanoseconds. *)
Definition elapsed_ns (c : clock) (tsc : Z) : Z := (tsc - g_tsc_boot c) * 1000000000 / g_tsc_freq_hz c.

(** [systime_ns] is exact while less than 2^64 / 10^9 cycles have passed since
    calibration; from then on the product wraps modulo 2^64: on a 3 GHz
    processor the clock is back at zero after 6.1 seconds. *)
Theorem systime_ns_wraps c tsc :
  0 < g_tsc_freq_hz c → 0 ≤ g_tsc_boot c ≤ tsc → tsc < 2 ^ 64 →
  systime_ns c tsc = (tsc - g_tsc_boot c) * 1000000000 mod 2 ^ 64 / g_tsc_freq_hz c ∧
  ((tsc - g_tsc_boot c) * 1000000000 < 2 ^ 64 → systime_ns c tsc = elapsed_ns c tsc) ∧
  (tsc - g_tsc_boot c = 18446744074 → g_tsc_freq_hz c = 3000000000 →
   systime_ns c tsc = 0 ∧ systime_ns c (tsc - 1) = 6148914691 ∧ elapsed_ns c tsc = 6148914691).
Proof.
  intros Hf Hb Ht. assert (E : ∀ t, g_tsc_boot c ≤ t < 2 ^ 64 → systime_ns c t = (t - g_tsc_boot c) * 1000000000 mod 2 ^ 64 / g_tsc_freq_hz c).
  { intros t H. unfold systime_ns. rewrite (proj2 (Z.eqb_neq _ 0)) by lia. rewrite (u64_small (t - _)) by lia. done. }
  rewrite E by lia. split; [done|]. split.
  - intros Hlt. unfold elapsed_ns. rewrite Z.mod_small by lia. done.
  - intros Hd H3. rewrite E by lia. unfold elapsed_ns. replace (tsc - 1 - g_tsc_boot c) with 18446744073 by lia. rewrite Hd, H3. by vm_compute.
Qed.

(** Calibration over exactly 50 ms finds the frequency, if it is a multiple of 20
    Hz, and starts the clock at zero. *)
Lemma tsc_calibrate_exact c start f : 0 ≤ start → 0 < f → start + f * 50 < 2 ^ 64 →
  let c' := tsc_calibrate c 0 start (start + f) (start + f) in g_tsc_freq_hz c' = f * 20 ∧ systime_ns c' (start + f) = 0.
Proof.
  intros Hs Hf Hr. unfold tsc_calibrate. cbn [Z.ltb Z.compare]. replace (start + f - start) with f by lia. rewrite (u64_small f), (u64_small (f * 20)) by lia.
  cbn [g_tsc_freq_hz]. split; [done|]. unfold systime_ns. cbn [g_tsc_freq_hz g_tsc_boot]. rewrite (proj2 (Z.eqb_neq _ 0)) by lia.
  rewrite Z.sub_diag. reflexivity.
Qed.

(** The fallback takes each global tick for a millisecond; the ticks of the other
    processors' timers are counted too, so that one second of a machine with five
    processors counts as two. *)
Lemma fallback_clock_fast c tsc : g_tsc_freq_hz c = 0 → g_global_ticks c = 1000 + 4 * 250 → systime_ns c tsc = 2 * 1000000000.
Proof. intros H0 Hg. unfold systime_ns. by rewrite H0, Hg. Qed.

(** ** Instances *)

(** Witness of [idt_init_routes]: the timer's vector. *)
Lemma idt_init_routes_witness :
  let e := mkEntries (λ i, 4096 + i) (λ i, 8192 + i) (λ i, 12288 + i) 1 2 3 4 0xFFFFFFFF80001234 in
  gate_addr (idt_init e (replicate 256 gate_zero)).[0xF0] = 0xFFFFFFFF80001234.
Proof.
  intros e. apply (idt_init_routes e 0xF0); [lia|]. intros a [= <-]. lia.
Defined.

(** Witness of [irq_install_delivers]: the mouse, line 12, from all lines masked. *)
Lemma irq_install_delivers_witness :
  let s := irq_install (mkIrqs 255 255 (replicate 16 0)) 12 4096 in
  line_open s 12 = true ∧ irq_dispatch false s 12 = ([Pic2Eoi; Pic1Eoi], Some 4096).
Proof.
  intros s. destruct (irq_install_delivers (mkIrqs 255 255 (replicate 16 0)) 12 4096 false) as (H1 & _ & H2 & _); [|lia|done|].
  - split; [cbn; lia|split; [cbn; lia|reflexivity]].
  - split; [exact H1|exact H2].
Defined.

(** Witness of [systime_ns_wraps]: six seconds at 3 GHz. *)
Lemma systime_ns_wraps_witness :
  let c := mkClock 3000000000 1000 0 in systime_ns c (1000 + 18446744074) = 0 ∧ elapsed_ns c (1000 + 18446744074) = 6148914691.
Proof.
  intros c. destruct (systime_ns_wraps c (1000 + 18446744074)) as (_ & _ & H); [done|cbn; lia|done|].
  destruct (H eq_refl eq_refl) as (H1 & _ & H3). split; [exact H1|exact H3].
Defined.
