(* ===== verification/Mkfs.v ===== *)
(** * The image builder

    [tools/xfs_mkfs.c], the host program that makes the disk image the kernel boots
    from: formatting, the core directories, and the files copied into it.  The tool
    repeats the on-disk structures, the bitmap, inode and path code of
    [kernel/fs/xfs.c]; those of its functions whose text is the kernel's are the
    definitions of [Xfs].  The image file is a block device. *)

From Stdlib Require Import Ascii String.
From S2P Require Import Prelude Mem CString Block Xfs.

Section mkfs.
Context {D : Type} `{!BlockDev D}.
Variable junk : mem.

(** The tool's globals: the geometry, as the kernel keeps it, and
    [g_next_free]. *)
Record mkfs := mkMkfs { mk : xfs D; g_next_free : Z }.

Definition mk_alloc_block (s : mkfs) : Z * mkfs :=
  match find_up (λ b, negb (bitmap_get junk (mk s) b)) (g_next_free s) (Z.to_nat (g_total (mk s) - g_next_free s)) with
  | Some b => (b, mkMkfs (bitmap_set junk (mk s) b true) (b + 1))
  | None => (0, s)
  end.
Definition with_mk (s : mkfs) (x : xfs D) : mkfs := mkMkfs x (g_next_free s).

(** ** Entering a name in a directory *)

(** The parent of a path: its inode block, 0 if there is none. *)
Definition mk_parent (s : mkfs) (path : list Z) : Z :=
  let ls := last_slash path in
  if ls =? 0 then g_root_block (mk s)
  else
    let plen := if 512 <=? ls then 511 else ls in
    (resolve_path junk (mk s) (take (Z.to_nat plen) path)).1.

(** The first free entry of the directory's blocks. *)
Fixpoint mk_add_dirent (n : nat) (s : xfs D) (dir : mem) (name : list Z) (ino flags db : Z) : bool * xfs D :=
  match n with
  | O => (false, s)
  | S n =>
      let b := i_data_block dir db in
      if b =? 0 then mk_add_dirent n s dir name ino flags (db + 1)
      else
        let sector := rd junk s b in
        match find_up (λ d, dent_inode sector d =? 0) 0 (Z.to_nat MAX_DENTS) with
        | Some d => (true, wr s b (put_dirent sector d name ino flags))
        | None => mk_add_dirent n s dir name ino flags (db + 1)
        end
  end.

(** The entry goes into a free one or into a new block of the directory. *)
Definition mk_enter (s : mkfs) (parent : Z) (name : list Z) (ino flags : Z) : bool * mkfs :=
  let dir := read_inode junk (mk s) parent in
  let '(added, x) := mk_add_dirent (Z.to_nat (i_block_count dir)) (mk s) dir name ino flags 0 in
  if added then (true, with_mk s x)
  else if 900 <=? i_block_count dir then (false, with_mk s x)
  else
    let '(nb, s) := mk_alloc_block (with_mk s x) in
    if nb =? 0 then (false, s)
    else
      let sector := put_dirent (zeroed junk 0 XFS_BLOCK_SIZE) 0 name ino flags in
      let x := wr (mk s) nb sector in
      let dir := set_i_data_block dir (i_block_count dir) nb in
      (true, with_mk s (write_inode junk x parent (set_i_block_count dir (i_block_count dir + 1)))).

(** The part [xfs_mkdir] and [xfs_write_file] share: the new inode block, 0 on
    failure. *)
Definition mk_create (s : mkfs) (path : list Z) (flags : Z) : Z * mkfs :=
  let parent := mk_parent s path in
  if parent =? 0 then (0, s)
  else
    let name := drop (Z.to_nat (last_slash path + 1)) path in
    if name.[0] =? 0 then (0, s)
    else
      let '(ino, s) := mk_alloc_block s in
      if ino =? 0 then (0, s)
      else
        let '(nd, s) := mk_alloc_block s in
        if nd =? 0 then (0, s)
        else
          let x := write_inode junk (mk s) ino (new_inode junk name flags nd) in
          let x := wr x nd (zeroed junk 0 XFS_BLOCK_SIZE) in
          let '(ok, s) := mk_enter (with_mk s x) parent name ino flags in
          (if ok then ino else 0, s).

Definition mk_mkdir (s : mkfs) (path : list Z) : Z * mkfs :=
  if negb ((resolve_path junk (mk s) path).1 =? 0) then (0, s)
  else let '(ino, s) := mk_create s path 1 in (if ino =? 0 then -1 else 0, s).

(** ** Files *)

(** [while (inode.block_count < blocks_needed)]: [false] when the disk is full. *)
Fixpoint mk_grow (n : nat) (s : mkfs) (inode : mem) (needed : Z) : bool * mem * mkfs :=
  if negb (i_block_count inode <? needed) then (true, inode, s)
  else
    match n with
    | O => (false, inode, s)
    | S n =>
        let '(nb, s) := mk_alloc_block s in
        if nb =? 0 then (false, inode, s)
        else
          let inode := set_i_data_block inode (i_block_count inode) nb in
          mk_grow n s (set_i_block_count inode (i_block_count inode + 1)) needed
    end.

(** The data, a block per turn. *)
Fixpoint mk_copy (n : nat) (x : xfs D) (inode : mem) (data : mem) (size done : Z) : xfs D :=
  match n with
  | O => x
  | S n =>
      if negb (done <? size) then x
      else
        let b := i_data_block inode (done / XFS_BLOCK_SIZE) in
        let off := done mod XFS_BLOCK_SIZE in
        let sector := if negb (off =? 0) || (size - done <? XFS_BLOCK_SIZE) then rd junk x b else zeroed junk 0 XFS_BLOCK_SIZE in
        let chunk := XFS_BLOCK_SIZE - off in
        let chunk := if size - done <? chunk then size - done else chunk in
        mk_copy n (wr x b (blit sector off data done chunk)) inode data size (done + chunk)
  end.

Definition mk_write_file (s : mkfs) (path : list Z) (data : mem) (size : Z) : Z * mkfs :=
  let '(ino, inode) := resolve_path junk (mk s) path in
  let '(ino, inode, s) :=
    if ino =? 0 then let '(ino, s) := mk_create s path 0 in (ino, read_inode junk (mk s) ino, s) else (ino, inode, s) in
  if ino =? 0 then (-1, s)
  else
    let needed := (size + XFS_BLOCK_SIZE - 1) / XFS_BLOCK_SIZE in
    let needed := if needed =? 0 then 1 else needed in
    if 900 <? needed then (-1, s)
    else
      match mk_grow 900 s inode needed with
      | (false, _, s) => (-1, s)
      | (true, inode, s) =>
          let x := mk_copy 900 (mk s) inode data size 0 in
          (0, with_mk s (write_inode junk x ino (set_i_size inode (u32 size))))
      end.

(** ** The image *)

Definition mk_format (img : D) (total : Z) : mkfs :=
  let bb := (total + 8 * XFS_BLOCK_SIZE - 1) / (8 * XFS_BLOCK_SIZE) in
  let bb := if bb <? 1 then 1 else bb in
  let ds := 1 + bb in
  let x := mkXfs img total bb ds ds [] in
  let zero := zeroed junk 0 XFS_BLOCK_SIZE in
  let x := iter_up (λ i x, wr x i zero) 0 (Z.to_nat total) x in
  let sb := store_le zero 0 4 XFS_MAGIC in
  let sb := store_le sb 4 4 XFS_VERSION in
  let sb := store_le sb 8 8 total in
  let sb := store_le sb 16 8 (u64 (total - (ds + 2))) in
  let sb := store_le sb 24 8 ds in
  let sb := store_le sb 32 8 bb in
  let sb := store_le sb 40 8 ds in
  let x := wr x 0 sb in
  let x := iter_up (λ b x, bitmap_set junk x b true) 0 (Z.to_nat (ds + 2)) x in
  let root := strncpy_at zero 0 [SLASH] 2 in
  let root := set_i_data_block (set_i_block_count (set_i_flags root 1) 1) 0 (ds + 1) in
  let x := wr x ds root in
  mkMkfs (wr x (ds + 1) zero) (ds + 2).

(** Paths as bytes. *)
Definition path_of (s : string) : list Z := map (λ c, Z.of_N (N_of_ascii c)) (list_ascii_of_string s).
Definition core_dirs : list (list Z) :=
  map path_of ["/bin"; "/sbin"; "/Applications"; "/Applications/Terminal.app"; "/Applications/Terminal.app/Contents";
               "/Applications/Terminal.app/Contents/Xos"]%string.
Definition create_core_dirs (s : mkfs) : mkfs := foldl (λ s p, (mk_mkdir s p).2) s core_dirs.

(** [main] for files given with their paths and contents, in the order of the
    arguments: empty files are skipped, a file that could not be copied is passed
    over; the number of blocks in use goes into the superblock. *)
Definition mk_image (img : D) (total : Z) (files : list (list Z * mem * Z)) : mkfs :=
  let s := create_core_dirs (mk_format img total) in
  let s := foldl (λ s '(path, data, size), if size <=? 0 then s else (mk_write_file s path data size).2) s files in
  let used := count_up (bitmap_get junk (mk s)) 0 (Z.to_nat total) in
  with_mk s (wr (mk s) 0 (store_le (rd junk (mk s) 0) 16 8 (u64 (total - used)))).
End mkfs.
Arguments mkfs D : clear implicits.
