(* ===== verification/MkfsSpec.v ===== *)
(** * Images the kernel can read

    The image builder's allocator, which never looks back, allocates what the
    kernel's would; a formatted image mounts; and a file copied into the image is
    found by the kernel under its name with the bytes of the original. *)

From Stdlib Require Import Ascii String.
From S2P Require Import Prelude Mem CString Block Xfs XfsProofs XfsDir Mkfs.

#[local] Open Scope Z_scope.

Section spec.
Context {D : Type} `{!BlockDev D} `{!BlockDevLaws D}.
Variable junk : mem.
Implicit Types (s : mkfs D) (x : xfs D) (dir inode : mem).

Abbreviation used := (used junk).
Abbreviation file_ok := (file_ok junk).

(** ** Allocation *)

(** Everything below [g_next_free] is in use. *)
Definition packed s : Prop :=
  g_data_start (mk s) ≤ g_next_free s ≤ g_total (mk s) ∧ ∀ b, g_data_start (mk s) ≤ b < g_next_free s → used (mk s) b.

Lemma find_up_skip p lo mid n : lo ≤ mid ≤ lo + Z.of_nat n → (∀ i, lo ≤ i < mid → p i = false) →
  find_up p lo n = find_up p mid (Z.to_nat (lo + Z.of_nat n - mid)).
Proof.
  intros Hm Hf. destruct (find_up p mid _) as [i|] eqn:E.
  - apply find_up_Some in E as (Hi & Hp & Hj). apply find_up_first; [lia|done|]. intros j Hj'. destruct (Z.lt_ge_cases j mid); [apply Hf; lia|apply Hj; lia].
  - apply find_up_None. intros i Hi. destruct (Z.lt_ge_cases i mid); [apply Hf; lia|]. apply (proj1 (find_up_None _ _ _) E). lia.
Qed.

(** The builder's allocator is the kernel's. *)
Lemma mk_alloc_eq s : fs_ok (mk s) → packed s →
  let '(b, s') := mk_alloc_block junk s in alloc_block junk (mk s) = (b, mk s') ∧ (b = 0 → s' = s) ∧ packed s'.
Proof.
  intros F [Hr Hu]. unfold mk_alloc_block, alloc_block. rewrite (find_up_skip _ (g_data_start (mk s)) (g_next_free s)).
  2:{ destruct F. lia. }
  2:{ intros i Hi. specialize (Hu i Hi). unfold XfsProofs.used in Hu. by rewrite Hu. }
  replace (g_data_start (mk s) + Z.of_nat (Z.to_nat (g_total (mk s) - g_data_start (mk s))) - g_next_free s) with (g_total (mk s) - g_next_free s) by (destruct F; lia).
  destruct (find_up _ _ _) as [b|] eqn:E; [|done]. apply find_up_Some in E as (Hb & Hp & Hj). cbn [mk g_next_free].
  assert (Hb0 : 0 ≤ b < g_total (mk s)) by (destruct F; lia). destruct (bitmap_set_ok junk (mk s) b true F Hb0) as (F' & Hs & Hg & _).
  destruct Hs as (E1 & _ & E3 & _). split; [done|]. split; [destruct F; lia|]. split; cbn [mk g_next_free]; rewrite ?E1, ?E3; [lia|].
  intros i Hi. unfold XfsProofs.used. rewrite Hg by (destruct F; lia). destruct (Z.eqb_spec b i); [done|].
  destruct (Z.lt_ge_cases i (g_next_free s)); [apply Hu; lia|]. specialize (Hj i ltac:(lia)). by apply negb_false_iff in Hj.
Qed.

(** A write outside the bitmap keeps it so. *)
Lemma packed_used s x' : packed s → fs_same (mk s) x' → (∀ b, is_data (mk s) b → used (mk s) b → used x' b) → packed (with_mk s x').
Proof.
  intros [H1 H2] Hs Hu. destruct Hs as (E1 & _ & E3 & _). split; cbn [mk g_next_free with_mk]; rewrite ?E1, ?E3; [done|].
  intros b Hb. apply Hu; [unfold is_data; lia|by apply H2].
Qed.

(** ** Growing and filling a file *)

Lemma mk_grow_spec ino data needed : 0 ≤ needed ≤ MAX_DIRECT → ∀ n s inode,
  fs_ok (mk s) → packed s → file_ok (mk s) ino inode → needed - i_block_count inode ≤ Z.of_nat n →
  let '(ok, inode', s') := mk_grow junk n s inode needed in
  packed s' ∧ file_ok (mk s') ino inode' ∧ wrote junk 0 data (mk s) inode 0 (mk s') inode' 0 ∧
  if ok then needed ≤ i_block_count inode' else ∀ b, is_data (mk s') b → used (mk s') b.
Proof.
  intros Hn. induction n as [|n IH]; intros s inode F Hp Hf Hfuel; cbn [mk_grow]; pose proof (f_bc _ _ _ _ Hf) as Hbc;
    (assert (Hrefl : wrote junk 0 data (mk s) inode 0 (mk s) inode 0) by (apply wrote_refl; [done|unfold capacity, XFS_BLOCK_SIZE; lia]));
    (destruct (Z.ltb_spec (i_block_count inode) needed); cbn [negb]; [|done]); [lia|].
  pose proof (mk_alloc_eq s F Hp) as Ha. destruct (mk_alloc_block junk s) as [nb s1]. destruct Ha as (Ha & H0 & Hp1).
  destruct (Z.eqb_spec nb 0) as [->|Hnb].
  { rewrite H0 in * by done. split_and!; try done. pose proof (alloc_block_cases junk (mk s) F) as Hc. rewrite Ha in Hc.
    destruct Hc as [(_ & _ & Hall)|(Hd & _)]; [done|]. unfold is_data in Hd. destruct F. lia. }
  destruct (grow_spec junk 0 data (mk s) ino inode 0 nb (mk s1)) as (G1 & G2 & G3); [done|done|lia|unfold capacity, XFS_BLOCK_SIZE; lia|done|done|].
  change (set_i_block_count _ _) with (grown inode nb). specialize (IH s1 (grown inode nb) (w_fs _ _ _ _ _ _ _ _ _ G3) Hp1 G1 ltac:(lia)).
  destruct (mk_grow junk n s1 (grown inode nb) needed) as [[ok inode'] s']. destruct IH as (I1 & I2 & I3 & I4). split_and!; [done|done| |done].
  eapply wrote_trans; [lia|exact G3|exact I3].
Qed.

Lemma mk_copy_spec ino inode data size : 0 ≤ size ≤ capacity inode → i_block_count inode ≤ MAX_DIRECT → ∀ n x dn,
  fs_ok x → file_ok x ino inode → 0 ≤ dn ≤ size → dn mod XFS_BLOCK_SIZE = 0 ∨ dn = size → size - dn ≤ Z.of_nat n * XFS_BLOCK_SIZE →
  let x' := mk_copy junk n x inode data size dn in
  file_ok x' ino inode ∧ wrote junk 0 data x inode dn x' inode size.
Proof.
  intros Hs Hbc. induction n as [|n IH]; intros x dn F Hf Hd Hm Hn; cbn [mk_copy].
  { assert (dn = size) as -> by (unfold XFS_BLOCK_SIZE in *; lia). split; [done|apply wrote_refl; [done|lia]]. }
  destruct (Z.ltb_spec dn size) as [Hlt|]; cbn [negb].
  2:{ assert (dn = size) as -> by lia. split; [done|apply wrote_refl; [done|lia]]. }
  destruct Hm as [Hm|]; [|lia]. unfold capacity in Hs.
  destruct (turn_bounds 0 size dn (i_block_count inode)) as (_ & B1 & B2 & B3 & B4 & B5 & B6 & B7); [lia|lia|unfold XFS_BLOCK_SIZE in *; lia|lia|].
  rewrite Z.add_0_l in *. set (bi := dn / XFS_BLOCK_SIZE) in *. rewrite Hm in *. set (ch := if size - dn <? XFS_BLOCK_SIZE - 0 then _ else _) in *.
  set (b := i_data_block inode bi). set (sector := if negb (0 =? 0) || _ then _ else _).
  destruct (f_blk _ _ _ _ Hf bi B1) as (D1 & _ & _). fold b in D1. assert (Hb0 : 0 ≤ b < g_total x) by (unfold is_data in D1; destruct F; lia).
  destruct (put_spec junk 0 data x ino inode dn bi 0 ch sector) as [Hf2 W2]; [done|done|done|lia|lia|lia|lia| |].
  { intros a Ha Hna. unfold sector. cbn [Z.eqb negb orb]. destruct (Z.ltb_spec (size - dn) XFS_BLOCK_SIZE); [by rewrite rd_data|].
    exfalso. apply Hna. unfold ch. rewrite (proj2 (Z.ltb_ge _ _)) by lia. lia. }
  fold b in Hf2, W2. set (x2 := wr x b _) in *. destruct (IH x2 (dn + ch) (w_fs _ _ _ _ _ _ _ _ _ W2) Hf2) as [I1 I2]; [lia| | |].
  - unfold ch. destruct (Z.ltb_spec (size - dn) (XFS_BLOCK_SIZE - 0)); [right; lia|left]. unfold XFS_BLOCK_SIZE in *. zlia.
  - unfold ch. destruct (Z.ltb_spec (size - dn) (XFS_BLOCK_SIZE - 0)); unfold XFS_BLOCK_SIZE in *; lia.
  - split; [done|]. eapply wrote_trans; [apply Hf|exact W2|exact I2].
Qed.

(** ** Creating a file in the root directory *)

Lemma mk_add_eq n x dir name ino flags db :
  (∀ k, db ≤ k < db + Z.of_nat n → i_data_block dir k ≠ 0) →
  mk_add_dirent junk n x dir name ino flags db = add_dirent junk n x dir name ino flags db.
Proof.
  revert db. induction n as [|n IH]; intros db H; cbn [mk_add_dirent add_dirent]; [done|].
  rewrite (proj2 (Z.eqb_neq _ 0)) by (apply H; lia). destruct (find_up _ _ _); [done|]. apply IH. intros k Hk. apply H. lia.
Qed.

(** The new file: its inode and data block were free, it is empty, and it is found
    under its name; the root directory does not share blocks with it. *)
Record new_file (x x' : xfs D) (name : list Z) (ino : Z) : Prop := {
  nf_fs : fs_ok x';
  nf_same : fs_same x x';
  nf_used : ∀ b, is_data x b → used x b → used x' b;
  nf_ino : is_data x ino ∧ ¬ used x ino;
  nf_file : file_ok x' ino (read_inode junk x' ino);
  nf_inode : i_size (read_inode junk x' ino) = 0 ∧ i_block_count (read_inode junk x' ino) = 1 ∧ ¬ used x (i_data_block (read_inode junk x' ino) 0);
  nf_root : inode_eq (read_inode junk x (g_root_block x)) (read_inode junk x' (g_root_block x));
  nf_found : (resolve_path junk x' (SLASH :: name)).1 = ino;
  nf_frame : let dir := read_inode junk x (g_root_block x) in
    ∀ b a, is_data x b → used x b → (∀ k, 0 ≤ k < i_block_count dir → i_data_block dir k ≠ b) → 0 ≤ a < XFS_BLOCK_SIZE → data x' b a = data x b a;
}.

(** Entering the inode [ino], stored with one data block [nd], both new, in a root
    directory with a free entry. *)
Lemma enter_lemma x x3 name ino nd :
  fs_ok x → good_name name →
  let root := g_root_block x in
  let dir := read_inode junk x root in
  file_ok x root dir → Z.land (i_flags dir) 1 ≠ 0 → (resolve_path junk x (SLASH :: name)).1 = 0 → ¬ dir_full junk x dir →
  is_data x ino → ¬ used x ino → is_data x nd → ¬ used x nd → nd ≠ ino → fs_ok x3 → fs_same x x3 →
  (∀ b, 0 ≤ b < g_total x → used x3 b ↔ used x b ∨ b = ino ∨ b = nd) →
  (∀ b a, is_data x b → b ≠ ino → b ≠ nd → 0 ≤ a < XFS_BLOCK_SIZE → data x3 b a = data x b a) →
  inode_eq (new_inode junk name 0 nd) (read_inode junk x3 ino) →
  let dir3 := read_inode junk x3 root in
  ∃ x4, mk_add_dirent junk (Z.to_nat (i_block_count dir3)) x3 dir3 name ino 0 0 = (true, x4) ∧ new_file x x4 name ino ∧
    ∀ b, 0 ≤ b < g_total x → used x3 b → used x4 b.
Proof.
  intros F Hn root dir Hf Hdirf Hno Hroom I1 I2 J1 J2 Hne F3 S03 U3 D3 Hv dir3.
  destruct (f_ino _ _ _ _ Hf) as [R1 R2].
  assert (Hdata : ∀ b, is_data x b → 0 < b < g_total x) by (intros b Hb; unfold is_data in Hb; destruct F; lia).
  pose proof (Hdata _ R1) as Hr0. pose proof (Hdata _ I1) as Hi0. pose proof (Hdata _ J1) as Hj0.
  assert (Hold : ∀ b a, is_data x b → used x b → 0 ≤ a < XFS_BLOCK_SIZE → data x3 b a = data x b a).
  { intros b a Hb Hu Ha. apply D3; [done|intros ->; done|intros ->; done|done]. }
  assert (Et3 : g_total x3 = g_total x) by apply S03.
  assert (Hdir3 : inode_eq dir dir3).
  { apply read_inode_frame; [done|done|done|lia|]. intros a Ha. by apply Hold. }
  destruct (inode_eq_fields _ _ Hdir3) as (_ & Q2 & Q3 & Q4).
  assert (Hf3 : file_ok x3 root dir3).
  { apply (file_eq junk x3 root dir dir3 Hdir3). eapply file_ok_frame; [exact S03| |exact Hf].
    intros b Hb Hub. apply U3; [specialize (Hdata _ Hb); lia|by left]. }
  pose proof (f_bc _ _ _ _ Hf) as Hbc. unfold MAX_DIRECT in Hbc.
  assert (Hrd3 : ∀ k a, 0 ≤ k < i_block_count dir → 0 ≤ a < XFS_BLOCK_SIZE → rd junk x3 (i_data_block dir k) a = rd junk x (i_data_block dir k) a).
  { intros k a Hk Ha. destruct (f_blk _ _ _ _ Hf k Hk) as (K1 & K2 & _). pose proof (Hdata _ K1). rewrite !rd_data by (done || lia). by apply Hold. }
  rewrite resolve_root_name in Hno by done. fold root dir in Hno.
  assert (Hlk : dir_lookup junk (Z.to_nat (i_block_count dir3)) x3 dir3 (comp junk name) 0 = None).
  { rewrite <- Q3. rewrite (lookup_ext junk _ x x3 dir dir3).
    - destruct (dir_lookup _ _ x dir _ 0) as [b|] eqn:Hb; [|done]. exfalso. cbn [fst] in Hno. by apply (lookup_nonzero _ _ _ _ _ _ _ Hb).
    - intros k Hk. symmetry. apply Q4. unfold MAX_DIRECT. lia.
    - intros k a Hk Ha. apply Hrd3; [lia|done]. }
  rewrite mk_add_eq.
  2:{ intros k Hk. destruct (f_blk _ _ _ _ Hf3 k) as (K1 & _); [lia|]. apply (is_data_same x x3 _ S03), Hdata in K1. lia. }
  pose proof (add_dirent_found junk root dir3 name ino 0 x3 F3 Hf3 Hn ltac:(destruct F; lia) (Z.to_nat (i_block_count dir3)) 0 ltac:(lia) ltac:(lia) Hlk) as HA.
  pose proof (add_dirent_fails junk x3 dir3 name ino 0 (Z.to_nat (i_block_count dir3)) 0) as HX.
  destruct (add_dirent _ _ x3 dir3 name ino 0 0) as [added x4]. destruct added.
  2:{ exfalso. apply Hroom. intros k d Hk Hd. specialize (HX eq_refl k d ltac:(lia) Hd). rewrite <- (Q4 k) in HX by (unfold MAX_DIRECT; lia).
      intros E. apply HX. rewrite <- E. apply dent_inode_ext; [done|]. intros a Ha. by apply Hrd3. }
  exists x4. split; [done|]. destruct HA as [(k & buf & Hk & ->) HA]. assert (Hk3 : 0 ≤ k < i_block_count dir3) by lia.
  set (b := i_data_block dir3 k) in *. assert (Eb : b = i_data_block dir k) by (unfold b; symmetry; apply Q4; unfold MAX_DIRECT; lia).
  destruct (f_blk _ _ _ _ Hf k) as (Hbd & Hbu & Hbr); [lia|]. rewrite <- Eb in Hbd, Hbu, Hbr. pose proof (Hdata _ Hbd) as Hb0.
  assert (Hbi : b ≠ ino) by (intros E; by rewrite E in Hbu).
  destruct (wr_ok x3 b buf F3) as (F4 & S4 & W4); [lia|]. set (x4 := wr x3 b buf) in *.
  assert (S04 : fs_same x x4) by (etransitivity; [exact S03|exact S4]). assert (Et4 : g_total x4 = g_total x) by apply S04.
  assert (U4 : ∀ c, 0 ≤ c < g_total x → used x4 c ↔ used x c ∨ c = ino ∨ c = nd).
  { intros c Hc. unfold XfsProofs.used, x4. rewrite wr_used; [by apply U3|done|by apply (is_data_same x x3 _ S03)|lia]. }
  assert (Hroot4 : inode_eq dir3 (read_inode junk x4 root)).
  { apply read_inode_frame; [done|done|lia|lia|]. intros a Ha. rewrite W4 by lia. by rewrite (proj2 (Z.eqb_neq root b)) by congruence. }
  destruct (inode_eq_fields _ _ Hroot4) as (_ & X2 & X3 & X4).
  assert (Hino4 : inode_eq (new_inode junk name 0 nd) (read_inode junk x4 ino)).
  { intros a Ha. rewrite (Hv a Ha). apply read_inode_frame; [done|done|lia|lia| |done]. intros a' Ha'. rewrite W4 by lia. by rewrite (proj2 (Z.eqb_neq ino b)) by congruence. }
  destruct (inode_eq_fields _ _ Hino4) as (Y1 & Y2 & Y3 & Y4).
  destruct (new_inode_fields junk name 0 nd) as (V1 & V2 & V3 & V4); [lia|destruct F; lia|].
  specialize (Y4 0 ltac:(unfold MAX_DIRECT; lia)). rewrite V4 in Y4. rewrite V1 in Y1. rewrite V3 in Y3.
  assert (D4 : ∀ c, is_data x4 c ↔ is_data x c) by (intros; by apply is_data_same).
  split; [split; try done|intros c Hc Huc; by apply U4, U3].
  - intros c Hc Huc. apply U4; [specialize (Hdata _ Hc); lia|by left].
  - split; rewrite <- ?Y3.
    + split; [by apply D4|apply U4; [lia|auto]].
    + unfold MAX_DIRECT. lia.
    + intros j Hj. assert (j = 0) as -> by lia. rewrite <- Y4. split_and!; [by apply D4|apply U4; [lia|auto]|done].
    + intros j l Hj Hl _. lia.
  - rewrite <- Y4. done.
  - intros a Ha. transitivity (dir3 a); [by apply Hdir3|by apply Hroot4].
  - assert (Hroot : g_root_block x4 = root) by apply S04.
    rewrite resolve_root_name; [|done|rewrite Hroot, <- X2, <- Q2; done]. rewrite Hroot, <- X3.
    rewrite (lookup_ext junk _ x4 x4 dir3 (read_inode junk x4 root)); [by rewrite HA| |done].
    intros j Hj. symmetry. apply X4. unfold MAX_DIRECT. lia.
  - intros dir' c a Hc Huc Hk' Ha. pose proof (Hdata _ Hc). rewrite W4 by lia. rewrite (proj2 (Z.eqb_neq c b)); [by apply Hold|].
    intros ->. apply (Hk' k); [unfold dir'; fold root dir; lia|done].
Qed.

(** Less than two blocks are free. *)
Definition nearly_full x : Prop := ∀ a b, is_data x a → is_data x b → ¬ used x a → ¬ used x b → a = b.

Lemma mk_create_lemma s name :
  fs_ok (mk s) → packed s → good_name name →
  let root := g_root_block (mk s) in
  let dir := read_inode junk (mk s) root in
  file_ok (mk s) root dir → Z.land (i_flags dir) 1 ≠ 0 → (resolve_path junk (mk s) (SLASH :: name)).1 = 0 → ¬ dir_full junk (mk s) dir →
  let '(ino, s') := mk_create junk s (SLASH :: name) 0 in
  (ino = 0 ∧ nearly_full (mk s)) ∨ (ino ≠ 0 ∧ packed s' ∧ new_file (mk s) (mk s') name ino).
Proof.
  intros F Hp Hn root dir Hf Hdirf Hno Hroom. unfold mk_create, mk_parent. rewrite last_slash_root by done. rewrite Z.eqb_refl.
  change (Z.to_nat (0 + 1)) with 1%nat. change (drop 1 (SLASH :: name)) with name. fold root.
  assert (Hdata : ∀ b, is_data (mk s) b → 0 < b < g_total (mk s)) by (intros b Hb; unfold is_data in Hb; destruct F; lia).
  destruct (f_ino _ _ _ _ Hf) as [R1 R2]. pose proof (Hdata _ R1) as Hr0. rewrite (proj2 (Z.eqb_neq root 0)) by lia.
  destruct (proj2 Hn 0) as [N1 _]; [destruct Hn; lia|]. rewrite (proj2 (Z.eqb_neq _ _) N1).
  pose proof (mk_alloc_eq s F Hp) as A1. pose proof (alloc_block_cases junk (mk s) F) as H1.
  destruct (mk_alloc_block junk s) as [ino s1]. destruct A1 as (A1 & _ & Hp1). rewrite A1 in H1.
  destruct H1 as [(-> & _ & Hall)|(I1 & I2 & _ & F1 & S1 & U1 & D1)].
  { rewrite Z.eqb_refl. left. split; [done|]. intros a b Ha _ Hua. destruct Hua. by apply Hall. }
  pose proof (Hdata _ I1) as Hi0. rewrite (proj2 (Z.eqb_neq ino 0)) by lia.
  assert (T1 : ∀ b, is_data (mk s1) b ↔ is_data (mk s) b) by (intros; by apply is_data_same).
  pose proof (mk_alloc_eq s1 F1 Hp1) as A2. pose proof (alloc_block_cases junk (mk s1) F1) as H2.
  destruct (mk_alloc_block junk s1) as [nd s2]. destruct A2 as (A2 & _ & Hp2). rewrite A2 in H2.
  destruct H2 as [(-> & _ & Hall)|(J1 & J2 & _ & F2 & S2 & U2 & D2)].
  { rewrite Z.eqb_refl. left. split; [done|]. intros a b Ha Hb Hua Hub.
    assert (Ha1 : used (mk s1) a) by (by apply Hall, T1). assert (Hb1 : used (mk s1) b) by (by apply Hall, T1).
    apply U1 in Ha1 as [?| ->]; [done| |specialize (Hdata _ Ha); lia]. apply U1 in Hb1 as [?| ->]; [done|done|specialize (Hdata _ Hb); lia]. }
  apply T1 in J1. pose proof (Hdata _ J1) as Hj0. rewrite (proj2 (Z.eqb_neq nd 0)) by lia.
  assert (E1 : g_total (mk s1) = g_total (mk s)) by apply S1. assert (E2 : g_total (mk s2) = g_total (mk s)) by (rewrite <- E1; apply S2).
  assert (Hne : nd ≠ ino) by (intros ->; apply J2, U1; [lia|by right]).
  assert (Hnu : ¬ used (mk s) nd) by (intros Hu; apply J2, U1; [lia|by left]).
  set (v := new_inode junk name 0 nd). set (zero := zeroed junk 0 XFS_BLOCK_SIZE).
  destruct (wr_ok (mk s2) ino (blit (rd junk (mk s2) ino) 0 v 0 INODE_SIZE) F2) as (F3 & S3 & W3); [lia|].
  fold (write_inode junk (mk s2) ino v) in F3, S3, W3. set (x3 := write_inode junk (mk s2) ino v) in *.
  assert (E3 : g_total x3 = g_total (mk s)) by (rewrite <- E2; apply S3).
  destruct (wr_ok x3 nd zero F3) as (F3' & S3' & W3'); [lia|]. set (x3' := wr x3 nd zero) in *.
  assert (S02 : fs_same (mk s) (mk s2)) by (etransitivity; [exact S1|exact S2]).
  assert (S23 : fs_same (mk s2) x3') by (etransitivity; [exact S3|exact S3']).
  assert (S03 : fs_same (mk s) x3') by (etransitivity; [exact S02|exact S23]).
  assert (U23 : ∀ b, 0 ≤ b < g_total (mk s) → used x3' b ↔ used (mk s2) b).
  { intros b Hb. unfold XfsProofs.used, x3', x3, write_inode.
    rewrite wr_used; [|exact F3|apply (is_data_same (mk s2) x3 _ S3), (is_data_same (mk s) (mk s2) _ S02); done|fold (write_inode junk (mk s2) ino v) x3; lia].
    rewrite wr_used; [done|done|by apply (is_data_same (mk s) (mk s2) _ S02)|lia]. }
  assert (U3 : ∀ b, 0 ≤ b < g_total (mk s) → used x3' b ↔ used (mk s) b ∨ b = ino ∨ b = nd).
  { intros b Hb. rewrite U23, U2, U1 by lia. tauto. }
  assert (D3 : ∀ b a, is_data (mk s) b → b ≠ ino → b ≠ nd → 0 ≤ a < XFS_BLOCK_SIZE → data x3' b a = data (mk s) b a).
  { intros b a Hb Hbi Hbn Ha. pose proof (Hdata _ Hb). rewrite W3', (proj2 (Z.eqb_neq b nd)), W3, (proj2 (Z.eqb_neq b ino)) by (done || lia).
    rewrite D2 by (done || by apply T1). by apply D1. }
  assert (Hv : inode_eq v (read_inode junk x3' ino)).
  { intros a Ha. rewrite read_inode_bytes by (done || (assert (g_total x3' = g_total (mk s)) by apply S03; lia)). unfold INODE_SIZE in Ha.
    rewrite W3', (proj2 (Z.eqb_neq ino nd)), W3, Z.eqb_refl by (congruence || lia || (unfold XFS_BLOCK_SIZE; lia)).
    rewrite blit_in by (unfold INODE_SIZE; lia). f_equal. lia. }
  destruct (enter_lemma (mk s) x3' name ino nd F Hn Hf Hdirf Hno Hroom I1 I2 J1 Hnu Hne F3' S03 U3 D3 Hv) as (x4 & Hadd & Hnew & Hmore).
  unfold mk_enter. cbn [mk with_mk]. fold root in Hadd. rewrite Hadd. right. split; [lia|]. split; [|done].
  change (with_mk (with_mk s2 x3') x4) with (with_mk s2 x4). apply packed_used; [done| |].
  - pose proof (nf_same _ _ _ _ Hnew) as Hs. destruct S02 as (?&?&?&?&?), Hs as (?&?&?&?&?). unfold fs_same. split_and!; congruence.
  - intros b Hb Hub. apply (is_data_same (mk s) (mk s2) _ S02) in Hb. pose proof (Hdata _ Hb).
    apply Hmore; [lia|]. apply U23; [lia|done].
Qed.

(** ** A file in the image *)

(** What the kernel finds under [/name]: a consistent file of [size] bytes. *)
Record stored x (name : list Z) (bytes : mem) (size : Z) : Prop := {
  st_fs : fs_ok x;
  st_file : let ino := (resolve_path junk x (SLASH :: name)).1 in
    0 < ino < 2 ^ 32 ∧ file_ok x ino (read_inode junk x ino) ∧ i_size (read_inode junk x ino) = size ∧
    size ≤ capacity (read_inode junk x ino) ∧ ∀ p, 0 ≤ p < size → file_byte x (read_inode junk x ino) p = bytes p;
}.

(** Looking [/name] up reads only the root directory. *)
Lemma resolve_frame x x' name :
  fs_ok x → fs_ok x' → fs_same x x' → good_name name →
  let dir := read_inode junk x (g_root_block x) in
  file_ok x (g_root_block x) dir → Z.land (i_flags dir) 1 ≠ 0 →
  (∀ b a, b = g_root_block x ∨ (∃ k, 0 ≤ k < i_block_count dir ∧ i_data_block dir k = b) → 0 ≤ a < XFS_BLOCK_SIZE → data x' b a = data x b a) →
  (resolve_path junk x' (SLASH :: name)).1 = (resolve_path junk x (SLASH :: name)).1.
Proof.
  intros F F' S Hn dir Hf Hfl Hd. assert (Hdata : ∀ b, is_data x b → 0 ≤ b < g_total x) by (intros b Hb; unfold is_data in Hb; destruct F; lia).
  assert (Et : g_total x' = g_total x) by apply S. assert (Er : g_root_block x' = g_root_block x) by apply S.
  destruct (f_ino _ _ _ _ Hf) as [R1 _]. pose proof (f_bc _ _ _ _ Hf) as Hbc.
  assert (Hdir : inode_eq dir (read_inode junk x' (g_root_block x'))).
  { rewrite Er. apply read_inode_frame; [done|done|done|by apply Hdata|]. intros a Ha. apply Hd; [by left|done]. }
  destruct (inode_eq_fields _ _ Hdir) as (_ & Q2 & Q3 & Q4).
  rewrite !resolve_root_name by (done || (rewrite <- ?Q2; done)). fold dir. rewrite <- Q3.
  rewrite (lookup_ext junk _ x x' dir (read_inode junk x' (g_root_block x'))).
  - by destruct (dir_lookup _ _ x dir _ 0).
  - intros k Hk. symmetry. apply Q4. lia.
  - intros k a Hk Ha. destruct (f_blk _ _ _ _ Hf k) as (K1 & _); [lia|]. rewrite !rd_data by (done || rewrite ?Et; auto).
    apply Hd; [|done]. right. exists k. split; [lia|done].
Qed.

(** The end of [xfs_write_file]: the inode with its final size. *)
Lemma finish_lemma x ino inode bytes size :
  fs_ok x → file_ok x ino inode → 0 ≤ size < 2 ^ 32 → size ≤ capacity inode → (∀ p, 0 ≤ p < size → file_byte x inode p = bytes p) →
  let x' := write_inode junk x ino (set_i_size inode size) in
  fs_ok x' ∧ fs_same x x' ∧ (∀ b, is_data x b → used x' b ↔ used x b) ∧
  (∀ b a, is_data x b → b ≠ ino → 0 ≤ a < XFS_BLOCK_SIZE → data x' b a = data x b a) ∧
  file_ok x' ino (read_inode junk x' ino) ∧ i_size (read_inode junk x' ino) = size ∧ size ≤ capacity (read_inode junk x' ino) ∧
  ∀ p, 0 ≤ p < size → file_byte x' (read_inode junk x' ino) p = bytes p.
Proof.
  intros F Hf Hs Hc Hb x'. destruct (size_set inode size Hs) as (Q1 & _ & Q3 & Q4). set (i2 := set_i_size inode size) in *.
  assert (Hf2 : file_ok x ino i2).
  { destruct Hf as [T1 T2 T3 T4]. split; rewrite ?Q3; try done.
    - intros k Hk. rewrite Q4 by lia. by apply T3.
    - intros j k Hj Hk. rewrite !Q4 by lia. by apply T4. }
  destruct (write_inode_frame junk x ino i2 i2 F Hf2) as (F3 & S3 & Hf3 & Hb3 & Hu3 & Hd3). fold x' in F3, S3, Hf3, Hb3, Hu3, Hd3.
  assert (Hino : 0 ≤ ino < g_total x) by (destruct (f_ino _ _ _ _ Hf2) as [I1 _]; unfold is_data in I1; destruct F; lia).
  assert (Heq : inode_eq i2 (read_inode junk x' ino)) by (intros a Ha; symmetry; by apply write_read_inode).
  destruct (file_eq junk x' ino i2 _ Heq Hf3) as (Hf4 & Hc4 & Hb4). destruct (inode_eq_fields _ _ Heq) as (Hz4 & _).
  assert (Hcap : capacity i2 = capacity inode) by (unfold capacity; by rewrite Q3).
  split_and!; try done; [congruence|lia|]. intros p Hp. rewrite Hb4, Hb3 by lia. rewrite <- Hb by done.
  assert (Hpc : 0 ≤ p < capacity inode) by lia. destruct (pos_block p (i_block_count inode) Hpc) as [P1 _].
  unfold file_byte. by rewrite Q4 by lia.
Qed.

(** The blocks of the root directory are none of a new file's. *)
Lemma root_apart x x' name ino : 
  let dir := read_inode junk x (g_root_block x) in
  fs_ok x → file_ok x (g_root_block x) dir → Z.land (i_flags dir) 1 ≠ 0 → new_file x x' name ino →
  let dir' := read_inode junk x' (g_root_block x') in
  file_ok x' (g_root_block x') dir' ∧ Z.land (i_flags dir') 1 ≠ 0 ∧
  ∀ b, b = g_root_block x' ∨ (∃ k, 0 ≤ k < i_block_count dir' ∧ i_data_block dir' k = b) → is_data x b ∧ used x b ∧ used x' b.
Proof.
  intros dir F Hf Hfl [F' S' U' I' _ _ Hr _ _]. assert (Er : g_root_block x' = g_root_block x) by apply S'. rewrite Er. fold dir in Hr.
  destruct (inode_eq_fields _ _ Hr) as (_ & Q2 & Q3 & Q4). pose proof (f_bc _ _ _ _ Hf) as Hbc.
  assert (Hf' : file_ok x' (g_root_block x) dir) by (by eapply file_ok_frame).
  split; [by apply (file_eq junk x' _ dir)|]. split; [by rewrite <- Q2|]. destruct (f_ino _ _ _ _ Hf) as [R1 R2].
  intros b [->|(k & Hk & <-)]; [auto|]. rewrite <- (Q4 k) by lia. destruct (f_blk _ _ _ _ Hf k) as (K1 & K2 & _); [lia|]. auto.
Qed.

Lemma mk_write_file_lemma s name bytes size :
  fs_ok (mk s) → packed s → good_name name →
  let root := g_root_block (mk s) in
  let dir := read_inode junk (mk s) root in
  file_ok (mk s) root dir → Z.land (i_flags dir) 1 ≠ 0 → (resolve_path junk (mk s) (SLASH :: name)).1 = 0 → ¬ dir_full junk (mk s) dir →
  0 < size ≤ MAX_DIRECT * XFS_BLOCK_SIZE →
  let '(r, s') := mk_write_file junk s (SLASH :: name) bytes size in
  (r = -1 ∧ (nearly_full (mk s) ∨ ∀ b, is_data (mk s') b → used (mk s') b)) ∨
  (r = 0 ∧ packed s' ∧ stored (mk s') name bytes size ∧
   ∀ b a, is_data (mk s) b → used (mk s) b → (∀ k, 0 ≤ k < i_block_count dir → i_data_block dir k ≠ b) → 0 ≤ a < XFS_BLOCK_SIZE →
     data (mk s') b a = data (mk s) b a).
Proof.
  intros F Hp Hn root dir Hf Hfl Hno Hroom Hs. unfold mk_write_file. destruct (resolve_path junk (mk s) (SLASH :: name)) as [ino0 inode0] eqn:E0.
  cbn [fst] in Hno. rewrite Hno, Z.eqb_refl. pose proof (mk_create_lemma s name F Hp Hn Hf Hfl) as HC. rewrite E0 in HC. specialize (HC Hno Hroom).
  destruct (mk_create junk s (SLASH :: name) 0) as [ino s1]. destruct HC as [[-> HC]|(Hino & Hp1 & Hnew)]; [rewrite Z.eqb_refl; by left; auto|].
  rewrite (proj2 (Z.eqb_neq _ _) Hino). unfold MAX_DIRECT in Hs.
  set (q := (size + XFS_BLOCK_SIZE - 1) / XFS_BLOCK_SIZE).
  assert (Hq : 1 ≤ q ≤ 900 ∧ size ≤ q * XFS_BLOCK_SIZE) by (unfold q, XFS_BLOCK_SIZE in *; zlia).
  rewrite (proj2 (Z.eqb_neq q 0)), (proj2 (Z.ltb_ge 900 q)) by lia.
  destruct (root_apart (mk s) (mk s1) name ino F Hf Hfl Hnew) as (Rf & Rfl & Rap). destruct Hnew as [F1 S1 U1 [I1 I2] Hf1 (N1 & N2 & N3) Hr1 Hfound Hframe].
  set (inode := read_inode junk (mk s1) ino) in *. assert (T1 : ∀ b, is_data (mk s1) b ↔ is_data (mk s) b) by (intros; by apply is_data_same).
  pose proof (mk_grow_spec ino bytes q ltac:(unfold MAX_DIRECT; lia) 900 s1 inode F1 Hp1 Hf1 ltac:(lia)) as HG.
  destruct (mk_grow junk 900 s1 inode q) as [[ok i2] s2]. destruct HG as (Hp2 & Hf2 & W2 & HG). destruct ok; [|left; auto].
  pose proof (f_bc _ _ _ _ Hf2) as Hbc2. unfold MAX_DIRECT in Hbc2.
  assert (Hcap : size ≤ capacity i2) by (unfold capacity, XFS_BLOCK_SIZE in *; nia).
  destruct (mk_copy_spec ino i2 bytes size ltac:(lia) ltac:(unfold MAX_DIRECT; lia) 900 (mk s2) 0 (w_fs _ _ _ _ _ _ _ _ _ W2) Hf2) as [Hf3 W3];
    [lia|by left|unfold XFS_BLOCK_SIZE in *; lia|].
  set (x3 := mk_copy junk 900 (mk s2) i2 bytes size 0) in *. pose proof (wrote_trans junk 0 bytes (mk s1) inode 0 (mk s2) i2 0 x3 i2 size ltac:(lia) W2 W3) as W.
  rewrite u32_small by (unfold XFS_BLOCK_SIZE in *; lia).
  destruct (finish_lemma x3 ino i2 bytes size (w_fs _ _ _ _ _ _ _ _ _ W3) Hf3) as (F4 & S4 & U4 & D4 & Hf4 & Z4 & C4 & B4);
    [unfold XFS_BLOCK_SIZE in *; lia|lia| |].
  { intros p Hp'. rewrite (w_new _ _ _ _ _ _ _ _ _ W3) by lia. f_equal. lia. }
  set (x4 := write_inode junk x3 ino (set_i_size i2 size)) in *.
  pose proof (w_same _ _ _ _ _ _ _ _ _ W) as S13. assert (T3 : ∀ b, is_data x3 b ↔ is_data (mk s1) b) by (intros; by apply is_data_same).
  assert (Hkeep : ∀ b a, is_data (mk s) b → used (mk s) b → 0 ≤ a < XFS_BLOCK_SIZE → data x4 b a = data (mk s1) b a).
  { intros b a Hb Hub Ha. rewrite D4 by (done || (by apply T3, T1) || (intros ->; done)). apply (w_frame _ _ _ _ _ _ _ _ _ W); [by apply T1|by apply U1| |done].
    intros k Hk. assert (k = 0) as -> by lia. intros E. by rewrite E in N3. }
  assert (Hfound4 : (resolve_path junk x4 (SLASH :: name)).1 = ino).
  { rewrite (resolve_frame (mk s1) x4 name); [done|done|done|by etransitivity|done|done|done|]. intros b a Hb Ha. destruct (Rap b Hb) as (X1 & X2 & _). by apply Hkeep. }
  right. split; [done|]. cbn [mk with_mk]. split; [|split].
  - apply packed_used; [done| |].
    + etransitivity; [apply (w_same _ _ _ _ _ _ _ _ _ W3)|done].
    + intros b Hb Hub. assert (Hb3 : is_data x3 b) by (by apply (is_data_same (mk s2) x3 _ (w_same _ _ _ _ _ _ _ _ _ W3))).
      apply U4; [done|]. apply (w_used _ _ _ _ _ _ _ _ _ W3); [done|by left].
  - split; [done|]. rewrite Hfound4. cbv zeta. split; [|done]. unfold is_data in I1. destruct F. lia.
  - intros b a Hb Hub Hk Ha. rewrite Hkeep by done. by apply Hframe.
Qed.

(** What the builder stored is what a process of the booted system reads. *)
Lemma stored_open_read x fds name bytes size flags pid buf count :
  stored x name bytes size → zlen fds = XFS_MAX_FDS → (∃ i, 0 ≤ i < XFS_MAX_FDS ∧ fd_used fds.[i] = false) →
  0 ≤ pid < 2 ^ 32 → 0 < count → 0 ≤ size →
  let '(fd, m) := xfs_open junk (with_fds x fds) (SLASH :: name) flags pid in
  let '(r, buf', _) := xfs_read junk m fd buf count pid in
  0 ≤ fd ∧ r = Z.min count size ∧ ∀ j, buf' j = if (0 <=? j) && (j <? r) then bytes j else buf j.
Proof.
  intros [F (Hino & Hf & Hz & Hcap & Hb)] Hl (i0 & Hi0 & Hu0) Hpid Hcnt Hsz. unfold xfs_open. change ((SLASH :: name).[0]) with SLASH. rewrite Z.eqb_refl. cbn [negb].
  rewrite resolve_fds. set (ino := (resolve_path junk x (SLASH :: name)).1) in *. rewrite (proj2 (Z.eqb_neq ino 0)) by lia. cbn [andb].
  unfold alloc_fd. cbn [g_fds with_fds]. destruct (find_up _ _ _) as [i|] eqn:Hfd.
  2:{ rewrite find_up_None in Hfd. specialize (Hfd i0 Hi0). cbv beta in Hfd. by rewrite Hu0 in Hfd. }
  apply find_up_Some in Hfd as (Hi & _). change (Z.of_nat (Z.to_nat XFS_MAX_FDS)) with XFS_MAX_FDS in Hi.
  set (m := with_fds (with_fds x fds) _). assert (O : open_file m i pid ino 0).
  { split; cbn [m g_fds with_fds]; rewrite ?zlen_aset, ?aget_aset_eq by lia; cbn; try (done || lia).
    - unfold fd_ok. cbn [m g_fds with_fds]. rewrite aget_aset_eq by lia. cbn. rewrite u32_small by lia. apply Z.eqb_refl.
    - apply u32_small. lia. }
  pose proof (xfs_read_lemma junk m i buf count pid ino 0 ltac:(destruct F; by split) O) as R.
  change (read_inode junk m ino) with (read_inode junk x ino) in R. cbv zeta in R.
  specialize (R ltac:(destruct Hf; by split) ltac:(lia) ltac:(lia) Hcnt). rewrite Hz in R.
  replace (Z.max 0 (Z.min count (size - 0))) with (Z.min count size) in R by lia.
  destruct (xfs_read junk m i buf count pid) as [[r buf'] m']. destruct R as (-> & R & _). split_and!; [lia|done|].
  intros j. rewrite R. destruct (Z.leb_spec 0 j), (Z.ltb_spec j (Z.min count size)); simpl; try done.
  change (file_byte m (read_inode junk x ino) j) with (file_byte x (read_inode junk x ino) j). apply Hb. lia.
Qed.

(** ** A fresh image *)

Lemma no_entry n x dir name db :
  (∀ k d, db ≤ k < db + Z.of_nat n → 0 ≤ d < MAX_DENTS → dent_inode (rd junk x (i_data_block dir k)) d = 0) →
  dir_lookup junk n x dir name db = None.
Proof.
  revert db. induction n as [|n IH]; intros db H; [done|]. cbn [dir_lookup].
  assert (IH' : dir_lookup junk n x dir name (db + 1) = None) by (apply IH; intros k d Hk Hd; apply H; lia).
  case_if; [done|]. rewrite (proj2 (find_up_None _ _ _)); [done|]. intros d Hd. change (Z.of_nat (Z.to_nat MAX_DENTS)) with MAX_DENTS in Hd.
  unfold dent_matches. by rewrite H by lia.
Qed.

(** The builder formats as the kernel does, clearing block 0 and the root's data
    block as well. *)
Lemma mk_format_eq (img : D) : dev_ok img → 4 ≤ block_count img →
  ∃ dev', dev_ok dev' ∧ block_count dev' = block_count img ∧
    let s := mk_format junk img (block_count img) in
    mk s = wr (xfs_format junk dev' []) (g_data_start (xfs_format junk dev' []) + 1) (zeroed junk 0 XFS_BLOCK_SIZE) ∧
    g_next_free s = g_data_start (xfs_format junk dev' []) + 2 ∧ g_root_block (mk s) = g_data_start (mk s).
Proof.
  intros Hd Ht. destruct (dev_write_data img 0 (zeroed junk 0 XFS_BLOCK_SIZE)) as (_ & W1 & W2 & _); [done|lia|].
  exists (block_write img 0 1 (zeroed junk 0 XFS_BLOCK_SIZE)).2. split; [done|]. split; [done|]. cbv zeta. unfold mk_format, xfs_format. rewrite W2.
  set (total := block_count img) in *. set (bb := if _ <? 1 then _ else _).
  replace (Z.to_nat total) with (S (Z.to_nat (total - 1))) by lia. rewrite iter_up_S.
  set (x0 := wr (mkXfs img total bb (1 + bb) (1 + bb) []) 0 _). change (mkXfs _ total bb (1 + bb) (1 + bb) []) with x0 at 2 3. change (0 + 1) with 1.
  set (x1 := iter_up _ 1 _ x0). set (x2 := wr x1 0 _). set (x3 := iter_up _ 0 _ x2). set (x4 := wr x3 (1 + bb) _).
  set (P := λ x : xfs D, g_data_start x = 1 + bb ∧ g_root_block x = 1 + bb).
  assert (E1 : P x1) by (by apply (iter_up_ind (λ _, P))). assert (E3 : P x3) by (by apply (iter_up_ind (λ _, P))). destruct E3 as [E3 E4].
  change (g_data_start x4) with (g_data_start x3). cbn [mk g_root_block g_data_start wr with_dev x4]. by rewrite E3, E4.
Qed.

(** A fresh image: the kernel mounts it with the builder's geometry, and its root
    directory is empty. *)
Lemma mk_format_lemma (img : D) : dev_ok img → 4 ≤ block_count img < 2 ^ 32 →
  let s := mk_format junk img (block_count img) in
  let dir := read_inode junk (mk s) (g_root_block (mk s)) in
  xfs_mount junk (g_dev (mk s)) = Some (with_fds (mk s) (replicate (Z.to_nat XFS_MAX_FDS) fd_zero)) ∧
  fs_ok (mk s) ∧ packed s ∧ file_ok (mk s) (g_root_block (mk s)) dir ∧ Z.land (i_flags dir) 1 ≠ 0 ∧ ¬ dir_full junk (mk s) dir ∧
  ∀ name, good_name name → (resolve_path junk (mk s) (SLASH :: name)).1 = 0.
Proof.
  intros Hd Ht s dir. destruct (mk_format_eq img Hd ltac:(lia)) as (dev' & Hd' & Hc & E1 & E2 & E3). fold s in E1, E2, E3. rewrite <- Hc in Ht.
  destruct (format_lemma junk dev' [] Hd' Ht) as (m & Em & Hm & Fm & Tm & _ & Um & Rf & Rfl & Rbc & Rd).
  set (f := xfs_format junk dev' []) in *. set (ds := g_data_start f) in *. set (zero := zeroed junk 0 XFS_BLOCK_SIZE) in *.
  assert (Ff : fs_ok f) by (rewrite Em in Fm; destruct Fm; by split). clearbody f.
  assert (Ef : g_root_block f = ds) by (rewrite E1 in E3; exact E3). rewrite Em in Rf, Rfl, Rbc, Um. cbn [with_fds g_total g_root_block g_data_start] in Rf, Rfl, Rbc, Um.
  set (root := read_inode junk _ (g_root_block f)) in Rf, Rfl, Rbc. change (read_inode junk _ (g_root_block f)) with (read_inode junk f (g_root_block f)) in root.
  assert (Rf' : file_ok f (g_root_block f) root) by (destruct Rf; by split). clear Rf Rd. rewrite Ef in *.
  destruct (f_blk _ _ _ _ Rf' 0) as (K1 & K2 & K3); [lia|]. unfold is_data in K1. fold ds in K1, Um.
  assert (Hb : i_data_block root 0 = ds + 1) by (apply Um in K2; [lia|destruct Ff; lia]). rewrite Hb in K1.
  assert (H0 : 0 < ds) by (unfold ds; destruct Ff; lia).
  destruct (wr_ok f (ds + 1) zero Ff) as (Fs & Ss & Ws); [lia|]. rewrite <- E1 in Fs, Ss, Ws.
  assert (Et : g_total (mk s) = g_total f) by apply Ss. assert (Er : g_root_block (mk s) = ds) by (rewrite <- Ef; apply Ss).
  assert (Us : ∀ b, 0 ≤ b < g_total f → used (mk s) b ↔ used f b).
  { intros b Hb'. unfold XfsProofs.used. rewrite E1, wr_used; [done|done|unfold is_data; lia|done]. }
  assert (Hroot : inode_eq root dir).
  { unfold root, dir. rewrite Er, Ef. apply read_inode_frame; [done|done|done|lia|]. intros a Ha. rewrite Ws by lia. by rewrite (proj2 (Z.eqb_neq ds (ds + 1))) by lia. }
  destruct (inode_eq_fields _ _ Hroot) as (_ & Q2 & Q3 & Q4). specialize (Q4 0 ltac:(unfold MAX_DIRECT; lia)). rewrite Rfl in Q2. rewrite Rbc in Q3. rewrite Hb in Q4.
  assert (Hz : ∀ k d, 0 ≤ k < i_block_count dir → 0 ≤ d < MAX_DENTS → dent_inode (rd junk (mk s) (i_data_block dir k)) d = 0).
  { intros k d Hk Hd0. assert (k = 0) as -> by lia. rewrite <- Q4. unfold dent_inode, MAX_DENTS, DIRENT_SIZE, XFS_BLOCK_SIZE in *. change (4096 / 76) with 53 in Hd0.
    rewrite (load_le_ext (λ _, 0)); [done|]. intros i Hi. rewrite rd_data by (done || lia || (unfold XFS_BLOCK_SIZE; lia)).
    rewrite Ws, Z.eqb_refl by (unfold XFS_BLOCK_SIZE; lia). apply zeroed_in. lia. }
  split_and!; try done.
  - rewrite Em in Hm. unfold xfs_mount in *.
    assert (Hsb : ∀ a n, 0 ≤ a → a + Z.of_nat n ≤ XFS_BLOCK_SIZE → load_le (block_read (g_dev (mk s)) 0 1 junk).2 a n = load_le (block_read (g_dev f) 0 1 junk).2 a n).
    { intros a n Ha Hn. fold (rd junk (mk s) 0) (rd junk f 0). rewrite !load_rd by (done || lia). apply load_le_ext. intros i Hi. rewrite Ws by lia.
      by rewrite (proj2 (Z.eqb_neq 0 (ds + 1))) by lia. }
    rewrite !Hsb by (unfold XFS_BLOCK_SIZE; lia). case_if; [done|]. destruct Ss as (S1 & S2 & S3 & S4 & _). unfold with_fds. rewrite S1, S2, S3, S4.
    revert Hm. set (sb := (block_read (g_dev f) 0 1 junk).2). generalize (load_le sb 8 8), (load_le sb 32 8), (load_le sb 40 8), (load_le sb 24 8).
    intros a b c d [= -> -> -> ->]. done.
  - split; [destruct Ss as (S1 & _ & S3 & _); rewrite S1, S3, E2; fold ds; lia|]. intros b Hb'. destruct Ss as (_ & _ & S3 & _). rewrite S3, E2 in Hb'. fold ds in Hb'.
    apply Us; [lia|]. apply Um; lia.
  - rewrite Er. apply (file_eq junk _ _ root); [done|]. apply (file_ok_frame junk f); [done| |done]. intros b Hb' Hu. apply Us; [unfold is_data in Hb'; lia|done].
  - by rewrite <- Q2.
  - intros Hf. apply (Hf 0 0); [lia|by vm_compute|]. apply Hz; [lia|by vm_compute].
  - intros name Hn. rewrite resolve_root_name; [|done|fold dir; by rewrite <- Q2]. fold dir. rewrite no_entry; [done|]. intros k d Hk Hd0. apply Hz; lia.
Qed.

(** C22: Copying a file of at most 900 blocks into an image under a new name in the
    root directory (a consistent directory with a free entry) fails only when the
    image is full; otherwise a process of the system booted from the image, with
    any descriptor table that has a free entry, opens [/name] and reads back
    exactly the bytes copied, up to the size of the file, and nothing else of its
    buffer changes.  The image can then take the next file. *)
Theorem mkfs_file_readable s name bytes size fds flags pid buf count :
  fs_ok (mk s) → packed s → good_name name →
  let root := g_root_block (mk s) in
  let dir := read_inode junk (mk s) root in
  file_ok (mk s) root dir → Z.land (i_flags dir) 1 ≠ 0 → (resolve_path junk (mk s) (SLASH :: name)).1 = 0 → ¬ dir_full junk (mk s) dir →
  0 < size ≤ MAX_DIRECT * XFS_BLOCK_SIZE →
  zlen fds = XFS_MAX_FDS → (∃ i, 0 ≤ i < XFS_MAX_FDS ∧ fd_used fds.[i] = false) → 0 ≤ pid < 2 ^ 32 → 0 < count →
  let '(r, s') := mk_write_file junk s (SLASH :: name) bytes size in
  (r = -1 ∧ (nearly_full (mk s) ∨ ∀ b, is_data (mk s') b → used (mk s') b)) ∨
  (r = 0 ∧ fs_ok (mk s') ∧ packed s' ∧
   let '(fd, m) := xfs_open junk (with_fds (mk s') fds) (SLASH :: name) flags pid in
   let '(n, buf', _) := xfs_read junk m fd buf count pid in
   0 ≤ fd ∧ n = Z.min count size ∧ ∀ j, buf' j = if (0 <=? j) && (j <? n) then bytes j else buf j).
Proof.
  intros F Hp Hn root dir Hf Hfl Hno Hroom Hs Hl Hfree Hpid Hcnt.
  pose proof (mk_write_file_lemma s name bytes size F Hp Hn Hf Hfl Hno Hroom Hs) as H. destruct (mk_write_file _ _ _ _ _) as [r s'].
  destruct H as [H|(-> & Hp' & Hst & _)]; [by left|]. right. split; [done|]. split; [apply Hst|]. split; [done|]. apply stored_open_read; (done || lia).
Qed.
End spec.

(** ** An image on the RAM disk *)

Module MkfsDemo.
Definition junk : mem := λ _, 0xAA.
Definition img : ramdisk := mkRamdisk 16 0 (λ _, 0x55).
Definition fresh : mkfs ramdisk := mk_format junk img 16.
Definition fds : list xfs_fd := replicate (Z.to_nat XFS_MAX_FDS) fd_zero.
Definition bytes : mem := λ a, a mod 251.
(** "sh" *)
Definition name : list Z := [115; 104].
Strategy 100 [fresh].

(** A process opens a file of the image and reads it. *)
Definition read_file (s : mkfs ramdisk) (path : list Z) (count : Z) : option (Z * mem) :=
  match xfs_mount junk (g_dev (mk s)) with
  | None => None
  | Some m =>
      let '(fd, m) := xfs_open junk m path 0 7 in
      let '(n, buf, _) := xfs_read junk m fd (λ _, 0) count 7 in
      if fd <? 0 then None else Some (n, buf)
  end.

(** The whole program: the core directories and a file in one of them, mounted and
    read by the kernel, each byte of it. *)
Lemma image_boots :
  let s := mk_image junk (mkRamdisk 40 0 (λ _, 0x55)) 40 [(path_of "/bin/sh"%string, bytes, 5000); (path_of "/x"%string, λ _, 7, 10)] in
  match read_file s (path_of "/bin/sh"%string) 6000 with
  | Some (n, buf) => n = 5000 ∧ forallb (λ i, buf i =? i mod 251) (seqZ 0 5000) = true ∧ buf 5000 = 0
  | None => False
  end ∧ match read_file s (path_of "/x"%string) 100 with Some (n, buf) => n = 10 ∧ buf 9 = 7 | None => False end.
Proof. vm_compute. repeat split. Qed.

(** A file that does not fit leaves its name behind: the copy fails after the
    directory entry was made. *)
Lemma copy_fails_leaves_entry :
  let '(r, s') := mk_write_file junk fresh (SLASH :: name) bytes (15 * 4096) in
  r = -1 ∧ (resolve_path junk (mk s') (SLASH :: name)).1 ≠ 0 ∧ i_size (read_inode junk (mk s') 4) = 0 ∧
  count_up (bitmap_get junk (mk s')) 0 16 = 16.
Proof. vm_compute. repeat split; congruence. Qed.

(** Copying a shorter file over an older one keeps the blocks of the older. *)
Lemma copy_over_keeps_blocks :
  let s1 := (mk_write_file junk fresh (SLASH :: name) bytes 9000).2 in
  let '(r, s2) := mk_write_file junk s1 (SLASH :: name) bytes 10 in
  r = 0 ∧ i_size (read_inode junk (mk s2) 4) = 10 ∧ i_block_count (read_inode junk (mk s2) 4) = 3.
Proof. vm_compute. repeat split. Qed.
End MkfsDemo.

Lemma mkfs_file_readable_witness :
  let '(r, s') := mk_write_file MkfsDemo.junk MkfsDemo.fresh (SLASH :: MkfsDemo.name) MkfsDemo.bytes 5000 in
  r = 0 ∧ let '(fd, m) := xfs_open MkfsDemo.junk (with_fds (mk s') MkfsDemo.fds) (SLASH :: MkfsDemo.name) 0 7 in
  let '(n, buf', _) := xfs_read MkfsDemo.junk m fd (λ _, 0) 6000 7 in
  n = 5000 ∧ ∀ j, buf' j = if (0 <=? j) && (j <? n) then j mod 251 else 0.
Proof.
  assert (H1 : dev_ok MkfsDemo.img) by (cbn; lia). assert (H2 : 4 ≤ block_count MkfsDemo.img < 2 ^ 32) by (cbn; lia).
  destruct (mk_format_lemma MkfsDemo.junk MkfsDemo.img H1 H2) as (_ & A1 & A2 & A3 & A4 & A5 & A6).
  assert (Hn : good_name MkfsDemo.name).
  { split; [vm_compute; split; reflexivity|]. intros i Hi. change (zlen MkfsDemo.name) with 2 in Hi.
    assert (i = 0 ∨ i = 1) as [-> | ->] by lia; split; vm_compute; congruence. }
  assert (H3 : 0 < 5000 ≤ MAX_DIRECT * XFS_BLOCK_SIZE) by (unfold MAX_DIRECT, XFS_BLOCK_SIZE; lia).
  assert (H4 : zlen MkfsDemo.fds = XFS_MAX_FDS) by (vm_compute; reflexivity).
  assert (H5 : ∃ i, 0 ≤ i < XFS_MAX_FDS ∧ fd_used MkfsDemo.fds.[i] = false) by (exists 0; vm_compute; repeat split; congruence).
  assert (H6 : (mk_write_file MkfsDemo.junk MkfsDemo.fresh (SLASH :: MkfsDemo.name) MkfsDemo.bytes 5000).1 = 0) by (vm_compute; reflexivity).
  pose proof (mkfs_file_readable MkfsDemo.junk MkfsDemo.fresh MkfsDemo.name MkfsDemo.bytes 5000 MkfsDemo.fds 0 7 (λ _, 0) 6000
    A1 A2 Hn A3 A4 (A6 _ Hn) A5 H3 H4 H5 ltac:(lia) ltac:(lia)) as H.
  destruct (mk_write_file _ _ _ _ _) as [r s']. cbn [fst] in H6. subst r. destruct H as [[E _]|(_ & _ & _ & H)]; [lia|]. split; [reflexivity|].
  destruct (xfs_open _ _ _ _ _) as [fd m]. destruct (xfs_read _ _ _ _ _ _) as [[n buf'] m']. destruct H as (_ & B & C). split; [exact B|exact C].
Defined.
