(* ===== verification/SysCall.v ===== *)
(** * The system-call table, messages and information calls

    [syscall_dispatch] and its table, and the calls of
    [kernel/arch/x86_64/syscall.c] that carry messages between user memory and
    ports or report on the system: ports, the name server, the log, [sysctl] and
    the process list.  User memory is the memory of the calling process. *)

From Stdlib Require Import Ascii String.
From stdpp Require Import gmap.
From S2P Require Import Prelude Mem CString Ring Ipc Klog ProcTable.

#[local] Open Scope Z_scope.

Definition FAILED : Z := 18446744073709551615.   (* (uint64_t)-1 *)

(** ** Dispatch *)

Module Dispatch.
(** The functions of the table. *)
Inductive handler :=
  | sys_exit_impl | sys_yield_impl | sys_port_create_impl | sys_port_send_impl | sys_port_recv_impl
  | sys_port_close_impl | sys_mem_alloc_impl | sys_mem_map | sys_proc_spawn | sys_proc_pid_impl | sys_nsleep
  | sys_debug_log | sys_get_ticks | sys_fb_info | sys_mouse_pos | sys_open_impl | sys_read_impl
  | sys_write_impl | sys_close_impl | sys_mkdir_impl | sys_readdir_impl | sys_input_poll_impl
  | sys_ns_register_impl | sys_ns_lookup_impl | sys_mem_share_impl | sys_proc_exists_impl | sys_mem_free_impl
  | sys_gpu_fb_info_impl | sys_gpu_flush_impl | sys_gpu_cursor_set_impl | sys_gpu_cursor_move_impl
  | sys_proc_kill_impl | sys_time_impl | sys_gpu_virgl_present_impl | sys_gpu_ctx_create_impl
  | sys_gpu_ctx_destroy_impl | sys_gpu_ctx_attach_impl | sys_gpu_res_create_2d_impl | sys_gpu_res_attach_impl
  | sys_gpu_res_unref_impl | sys_gpu_transfer_2d_impl | sys_gpu_submit_3d_impl | sys_gpu_set_scanout_impl
  | sys_gpu_flush_res_impl | sys_gpu_alloc_res_id_impl | sys_gpu_res_attach_virt_impl
  | sys_gpu_res_create_3d_impl | sys_gpu_transfer_3d_impl | sys_fork_impl | sys_exec_impl | sys_waitpid_impl
  | sys_getpid_impl | sys_getppid_impl | sys_pipe_impl | sys_dup_impl | sys_dup2_impl | sys_lseek_impl
  | sys_stat_impl | sys_fstat_impl | sys_unlink_impl | sys_getcwd_impl | sys_chdir_impl | sys_brk_impl
  | sys_socket_impl | sys_bind_impl | sys_listen_impl | sys_accept_impl | sys_connect_impl | sys_send_impl
  | sys_recv_impl | sys_sendto_impl | sys_recvfrom_impl | sys_shutdown_impl | sys_getsockname_impl
  | sys_getpeername_impl | sys_setsockopt_impl | sys_getsockopt_impl | sys_select_impl | sys_poll_impl
  | sys_mmap_impl | sys_munmap_impl | sys_mprotect_impl | sys_sigaction_impl | sys_sigprocmask_impl
  | sys_sigsuspend_impl | sys_kill_impl | sys_fcntl_impl | sys_ioctl_impl | sys_net_send_impl
  | sys_net_recv_impl | sys_proc_list_impl | sys_port_list_impl | sys_msgbuf_read_impl | sys_sysctl_impl
  | sys_sigreturn_impl | sys_no_preempt_impl | sys_systime_ns_impl | sys_clone_impl | sys_futex_impl_wrapper
  | sys_gettid_impl | sys_set_tid_address_impl.
#[export] Instance handler_eq_dec : EqDecision handler.
Proof. solve_decision. Defined.

(** The designated initialisers, in the order of the source. *)
Definition syscall_table : list (Z * handler) :=
  [(0, sys_exit_impl); (1, sys_yield_impl); (2, sys_port_create_impl); (3, sys_port_send_impl);
   (4, sys_port_recv_impl); (5, sys_port_close_impl); (6, sys_mem_alloc_impl); (7, sys_mem_map);
   (10, sys_proc_spawn); (11, sys_proc_pid_impl); (12, sys_nsleep); (13, sys_debug_log); (14, sys_get_ticks);
   (15, sys_fb_info); (17, sys_mouse_pos); (18, sys_open_impl); (19, sys_read_impl); (20, sys_write_impl);
   (21, sys_close_impl); (22, sys_mkdir_impl); (23, sys_readdir_impl); (24, sys_input_poll_impl);
   (25, sys_ns_register_impl); (26, sys_ns_lookup_impl); (27, sys_mem_share_impl); (28, sys_proc_exists_impl);
   (29, sys_mem_free_impl); (30, sys_gpu_fb_info_impl); (31, sys_gpu_flush_impl);
   (32, sys_gpu_cursor_set_impl); (33, sys_gpu_cursor_move_impl); (34, sys_proc_kill_impl);
   (35, sys_time_impl); (36, sys_gpu_virgl_present_impl); (37, sys_gpu_ctx_create_impl);
   (38, sys_gpu_ctx_destroy_impl); (39, sys_gpu_ctx_attach_impl); (40, sys_gpu_res_create_2d_impl);
   (41, sys_gpu_res_attach_impl); (42, sys_gpu_res_unref_impl); (43, sys_gpu_transfer_2d_impl);
   (44, sys_gpu_submit_3d_impl); (45, sys_gpu_set_scanout_impl); (46, sys_gpu_flush_res_impl);
   (47, sys_gpu_alloc_res_id_impl); (48, sys_gpu_res_attach_virt_impl); (49, sys_gpu_res_create_3d_impl);
   (64, sys_gpu_transfer_3d_impl); (50, sys_fork_impl); (51, sys_exec_impl); (52, sys_waitpid_impl);
   (53, sys_getpid_impl); (94, sys_getppid_impl); (54, sys_pipe_impl); (55, sys_dup_impl); (56, sys_dup2_impl);
   (57, sys_lseek_impl); (58, sys_stat_impl); (59, sys_fstat_impl); (60, sys_unlink_impl);
   (61, sys_getcwd_impl); (62, sys_chdir_impl); (63, sys_brk_impl); (65, sys_socket_impl); (66, sys_bind_impl);
   (67, sys_listen_impl); (68, sys_accept_impl); (69, sys_connect_impl); (70, sys_send_impl);
   (71, sys_recv_impl); (72, sys_sendto_impl); (73, sys_recvfrom_impl); (74, sys_shutdown_impl);
   (75, sys_getsockname_impl); (76, sys_getpeername_impl); (77, sys_setsockopt_impl);
   (78, sys_getsockopt_impl); (79, sys_select_impl); (80, sys_poll_impl); (81, sys_mmap_impl);
   (82, sys_munmap_impl); (83, sys_mprotect_impl); (84, sys_sigaction_impl); (85, sys_sigprocmask_impl);
   (96, sys_sigsuspend_impl); (86, sys_kill_impl); (87, sys_fcntl_impl); (88, sys_ioctl_impl);
   (89, sys_net_send_impl); (90, sys_net_recv_impl); (91, sys_proc_list_impl); (98, sys_port_list_impl);
   (92, sys_msgbuf_read_impl); (93, sys_sysctl_impl); (95, sys_sigreturn_impl); (97, sys_no_preempt_impl);
   (99, sys_systime_ns_impl); (100, sys_clone_impl); (101, sys_futex_impl_wrapper); (102, sys_gettid_impl);
   (103, sys_set_tid_address_impl)].

(** The array they make: a later initialiser of the same slot wins, and the
    largest index decides the length. *)
Definition NUM_SYSCALLS : Z := foldl (λ n '(i, _), Z.max n (i + 1)) 0 syscall_table.
Definition table_array : list (option handler) :=
  foldl (λ l '(i, h), l.[i <- Some h]) (replicate (Z.to_nat NUM_SYSCALLS) None) syscall_table.

(** [run h args] is the call of the function [h]. *)
Definition syscall_dispatch {S} (run : handler → list Z → S → Z * S) (num : Z) (args : list Z) (s : S) : Z * S :=
  if NUM_SYSCALLS <=? num then (FAILED, s)
  else match table_array.[num] with None => (FAILED, s) | Some h => run h args s end.

Ltac vm_decide := apply (bool_decide_unpack _); vm_compute; exact I.

(** Every number of the table reaches its own function with the arguments it was
    given; any other number fails and changes nothing. *)
Lemma dispatch_spec {S} (run : handler → list Z → S → Z * S) num args (s : S) :
  0 ≤ num →
  (∀ h, (num, h) ∈ syscall_table → syscall_dispatch run num args s = run h args s) ∧
  ((∀ h, (num, h) ∉ syscall_table) → syscall_dispatch run num args s = (FAILED, s)).
Proof.
  intros H0. assert (Hd : NoDup syscall_table.*1) by vm_decide. set (t := list_to_map syscall_table : gmap Z handler).
  assert (Hin : ∀ h, (num, h) ∈ syscall_table ↔ t !! num = Some h) by (intros h; by apply elem_of_list_to_map).
  assert (E : syscall_dispatch run num args s = match t !! num with Some h => run h args s | None => (FAILED, s) end).
  { unfold syscall_dispatch. destruct (Z.leb_spec NUM_SYSCALLS num) as [Hge|Hlt].
    - destruct (decide (is_Some (t !! num))) as [[h Et]| ->%eq_None_not_Some]; [|done]. exfalso. apply Hin in Et. change NUM_SYSCALLS with 104 in Hge.
      assert (Hb : Forall (λ x, x.1 < 104) syscall_table) by vm_decide. rewrite Forall_forall in Hb. specialize (Hb _ Et). cbn in Hb. lia.
    - change NUM_SYSCALLS with 104 in Hlt. assert (Ha : Forall (λ i, table_array.[i] = t !! i) (seqZ 0 104)) by vm_decide.
      rewrite Forall_forall in Ha. rewrite Ha; [by destruct (t !! num)|]. apply elem_of_seqZ. lia. }
  rewrite E. split; [intros h Hh; by apply Hin in Hh as ->|]. intros Hn. destruct (decide (is_Some (t !! num))) as [[h Et]| ->%eq_None_not_Some]; [|done]. exfalso. by apply (Hn h), Hin.
Qed.

(** No function is reached by two numbers. *)
Lemma handlers_distinct : NoDup syscall_table.*2 ∧ length syscall_table = 101%nat ∧ NUM_SYSCALLS = 104.
Proof. split; [vm_decide|done]. Qed.
End Dispatch.

(** ** Messages *)

Definition MSG_SIZE : Z := 312.

(** The message at an address: [ipc_msg_t] has no padding. *)
Definition decode_msg (m : mem) (a : Z) : ipc_msg_t :=
  mkMsg (ld64 m a) (ld64 m (a + 8)) ((λ i, ld64 m (a + 16 + 8 * i)) <$> seqZ 0 IPC_CAP_MAX_PER_MSG)
        (load_le m (a + 48) 4) (load_le m (a + 52) 4) ((λ i, m (a + 56 + i)) <$> seqZ 0 IPC_MSG_MAX_PAYLOAD).
Definition encode_msg (m : mem) (a : Z) (x : ipc_msg_t) : mem :=
  let m := st64 m a (msg_type x) in
  let m := st64 m (a + 8) (sender_pid x) in
  let m := iter_up (λ i m, st64 m (a + 16 + 8 * i) ((caps x).[i])) 0 (Z.to_nat IPC_CAP_MAX_PER_MSG) m in
  let m := store_le m (a + 48) 4 (cap_count x) in
  let m := store_le m (a + 52) 4 (payload_len x) in
  iter_up (λ i m, st8 m (a + 56 + i) ((payload x).[i])) 0 (Z.to_nat IPC_MSG_MAX_PAYLOAD) m.

(** ** Ports and names *)

(** [caller] is the process that makes the call, if any. *)
Definition sys_port_create (s : ipc) (caller : option Z) : Z * ipc := port_create s (default 0 caller).

Definition sys_port_send (s : ipc) (m : mem) (handle umsg : Z) : Z * ipc * option chan :=
  if (umsg =? 0) || (umsg <? 0x1000) then (0, s, None)
  else let '(ok, s, w) := port_send s handle (Some (decode_msg m umsg)) in (if ok then 1 else 0, s, w).

(** One turn of the loop in [port_recv]; [None]: the caller sleeps on the channel
    and tries again. *)
Definition sys_port_recv (s : ipc) (m : mem) (handle umsg block : Z) : option Z * mem * ipc :=
  if (umsg =? 0) || (umsg <? 0x1000) then (Some 0, m, s)
  else
    match port_recv_try s handle true (negb (block =? 0)) with
    | (RecvFail, s) => (Some 0, m, s)
    | (RecvOk x _, s) => (Some 1, encode_msg m umsg x, s)
    | (RecvSleep _, s) => (None, m, s)
    end.

Definition sys_port_close (s : ipc) (handle : Z) : Z * ipc * list chan := let '(s, w) := port_close s handle in (0, s, w).
Definition sys_ns_register (s : ipc) (id port : Z) : Z * ipc := (0, ns_register s (u32 id) port).
Definition sys_ns_lookup (s : ipc) (id : Z) : Z := ns_lookup s (u32 id).
Definition sys_port_list (s : ipc) (ubuf max : Z) : Z * list port_info_t :=
  if (ubuf =? 0) || (max =? 0) || (IPC_MAX_PORTS <? max) then (FAILED, [])
  else let l := ipc_port_list s true max in (zlen l, l).

(** *** A message is a copy of user memory *)

Lemma store_load m' b n m a x : mem_bytes m →
  store_le m' b n (load_le m a n) x = if (b <=? x) && (x <? b + Z.of_nat n) then m (a + (x - b)) else m' x.
Proof.
  intros Hm. rewrite store_le_spec. destruct (Z.leb_spec b x), (Z.ltb_spec x (b + Z.of_nat n)); cbn [andb]; try done. by apply load_le_byte; [|lia].
Qed.

Lemma aget_fmap_seqZ {A} `{!Inhabited A} (f : Z → A) n i : 0 ≤ i < n → (f <$> seqZ 0 n).[i] = f i.
Proof.
  intros Hi. rewrite aget_fmap by (unfold zlen; rewrite length_seqZ; lia). f_equal. unfold aget. apply list_lookup_total_correct, lookup_seqZ. lia.
Qed.

(** A loop that copies [w] bytes per turn copies them all. *)
Lemma copy_turns (f : Z → mem → mem) m a b w n m' x : 0 < w →
  (∀ i m1 y, 0 ≤ i < Z.of_nat n → f i m1 y = if (b + w * i <=? y) && (y <? b + w * i + w) then m (a + (y - b)) else m1 y) →
  iter_up f 0 n m' x = if (b <=? x) && (x <? b + w * Z.of_nat n) then m (a + (x - b)) else m' x.
Proof.
  intros Hw Hf. assert (H := iter_up_ind (λ i m1, ∀ x, m1 x = if (b <=? x) && (x <? b + w * i) then m (a + (x - b)) else m' x) f 0 n m').
  apply H.
  - intros y. rewrite Z.mul_0_r, Z.add_0_r. destruct (Z.leb_spec b y), (Z.ltb_spec y b); cbn [andb]; (done || lia).
  - intros i m1 Hi IH y. rewrite Hf, IH by lia. replace (w * (i + 1)) with (w * i + w) by lia. assert (0 ≤ w * i) by nia.
    destruct (Z.leb_spec b y), (Z.ltb_spec y (b + w * i)), (Z.ltb_spec y (b + (w * i + w))), (Z.leb_spec (b + w * i) y), (Z.ltb_spec y (b + w * i + w)); cbn [andb]; (done || lia).
Qed.

Lemma decode_encode m' b m a x : mem_bytes m →
  encode_msg m' b (decode_msg m a) x = if (b <=? x) && (x <? b + MSG_SIZE) then m (a + (x - b)) else m' x.
Proof.
  intros Hm. unfold encode_msg, decode_msg. cbn [msg_type sender_pid caps cap_count payload_len payload].
  rewrite (copy_turns _ m (a + 56) (b + 56) 1); [|lia|].
  2:{ intros i m1 y Hi. rewrite st8_spec. rewrite aget_fmap_seqZ by (unfold IPC_MSG_MAX_PAYLOAD in *; lia).
      replace (b + 56 + i) with (b + 56 + 1 * i) by lia. destruct ((b + 56 + 1 * i <=? y) && (y <? b + 56 + 1 * i + 1)) eqn:E; [|done]. bools. f_equal. lia. }
  rewrite !store_load by done. rewrite (copy_turns _ m (a + 16) (b + 16) 8); [|lia|].
  2:{ intros i m1 y Hi. unfold st64, ld64. rewrite aget_fmap_seqZ, store_load by (done || unfold IPC_CAP_MAX_PER_MSG in *; lia).
      change (Z.of_nat 8) with 8. destruct ((b + 16 + 8 * i <=? y) && (y <? b + 16 + 8 * i + 8)) eqn:E; [|done]. f_equal. lia. }
  unfold st64, ld64. rewrite !store_load by done. unfold MSG_SIZE, IPC_MSG_MAX_PAYLOAD, IPC_CAP_MAX_PER_MSG. cbn [Z.of_nat Z.to_nat Pos.to_nat].
  repeat match goal with |- context [if ?c && ?d then _ else _] => destruct (c && d) eqn:? end; try (f_equal; lia); bools; try lia.
  rewrite andb_false_iff, Z.leb_gt, Z.ltb_ge in *. lia.
Qed.

(** The message a receiver gets: the oldest one of the port, or the one just sent. *)
Lemma send_recv_port s h p x block :
  ipc_wf s → port_get s h = Some p → zlen (port_queue p) < IPC_PORT_DEPTH →
  ∃ s1 w w2 s2 p2, port_send s h (Some x) = (true, s1, w) ∧
    port_recv_try s1 h true block = (RecvOk (List.hd x (port_queue p)) w2, s2) ∧ ipc_wf s2 ∧
    port_get s2 h = Some p2 ∧ port_queue p2 = List.tl (port_queue p ++ [x]).
Proof.
  intros Hwf Hp Hroom. pose proof (ipc_wf_port _ _ _ Hwf Hp) as Hpw. pose proof Hpw as (Hl & Hh & Hc & Ht & Hr & Hs).
  destruct (port_get_Some _ _ _ Hp) as (Hh' & Hpp & Hu). unfold port_queue at 1 in Hroom. rewrite ring_contents_length in Hroom by lia.
  unfold port_send. rewrite Hp, (proj2 (Z.leb_gt _ _) Hroom). destruct (port_push_wf p x (tail p) (recv_waiters p) Hpw Hroom eq_refl Hr) as [Hw1 Hq1].
  set (p1 := mkPort _ _ _ _ _ _ _ _) in *. set (s1 := set_port s h p1). assert (Hwf1 : ipc_wf s1) by (apply set_port_wf; [done|lia|done]).
  assert (Hp1 : port_get s1 h = Some p1) by (apply port_get_used; [done|apply ports_set_port_eq; [done|lia]|done]).
  assert (Hcnt : 0 < count p1) by (cbn; rewrite u32_small by (ipc_consts; lia); lia).
  assert (Hu1 : used p1 = true) by done. fold s1. clearbody p1.
  destruct (port_pop_wf p1 Hw1 Hcnt) as [Hw2 Hq2]. do 2 eexists. unfold port_recv_try. rewrite Hp1, (proj2 (Z.ltb_lt _ _) Hcnt). cbn [negb].
  set (p2 := mkPort _ _ _ _ _ _ _ _) in *. do 2 eexists. exists p2. rewrite Hq1 in Hq2. split_and!; [done| | | |].
  - do 2 f_equal. destruct (port_queue p); cbn in *; by injection Hq2.
  - apply set_port_wf; [done|lia|done].
  - apply port_get_used; [done|apply ports_set_port_eq; [done|lia]|done].
  - by rewrite Hq2.
Qed.

(** C4: A message sent by one process from its memory and received by another:
    with room in the port both calls succeed, whatever the addresses (above the
    first page); the receiver's buffer gets the oldest message of the port, and
    when the port was empty exactly the 312 bytes the sender passed, sender pid and
    capabilities included, and no other byte of the receiver's memory changes.  The
    port keeps the other messages in order. *)
Theorem sys_port_roundtrip s h p ma a mb b block :
  ipc_wf s → port_get s h = Some p → zlen (port_queue p) < IPC_PORT_DEPTH → mem_bytes ma → 0x1000 ≤ a → 0x1000 ≤ b →
  ∃ s1 w mb' s2 p2,
    sys_port_send s ma h a = (1, s1, w) ∧ sys_port_recv s1 mb h b block = (Some 1, mb', s2) ∧
    mb' = encode_msg mb b (List.hd (decode_msg ma a) (port_queue p)) ∧
    (port_queue p = [] → ∀ x, mb' x = if (b <=? x) && (x <? b + MSG_SIZE) then ma (a + (x - b)) else mb x) ∧
    ipc_wf s2 ∧ port_get s2 h = Some p2 ∧ port_queue p2 = List.tl (port_queue p ++ [decode_msg ma a]).
Proof.
  intros Hwf Hp Hroom Hm Ha Hb. destruct (send_recv_port s h p (decode_msg ma a) (negb (block =? 0)) Hwf Hp Hroom) as (s1 & w & w2 & s2 & p2 & E1 & E2 & Hwf2 & Hp2 & Hq2).
  exists s1, w, (encode_msg mb b (List.hd (decode_msg ma a) (port_queue p))), s2, p2. unfold sys_port_send, sys_port_recv.
  rewrite (proj2 (Z.eqb_neq a 0)), (proj2 (Z.ltb_ge a _)), (proj2 (Z.eqb_neq b 0)), (proj2 (Z.ltb_ge b _)) by lia. cbn [orb]. rewrite E1, E2.
  split_and!; try done. intros Hq x. rewrite Hq. cbn [List.hd]. by apply decode_encode.
Qed.

(** Nothing compares the buffer with the user half of the address space: a process
    writes a message of its choice over kernel memory.  Nor is the sender's number
    checked: the receiver sees the one the sender wrote. *)
Definition demo_open : ipc := (sys_port_create (ipc_init ipc_bss) (Some 7)).2.
Definition demo_user : mem := λ a, if a =? 0x2000 + 8 then 1 else if a =? 0x2000 + 56 then 0xCC else 0.

Lemma recv_overwrites_kernel :
  let '(r, s1, _) := sys_port_send demo_open demo_user 1 0x2000 in
  let '(r2, m2, _) := sys_port_recv s1 (λ _, 0) 1 0xFFFFFFFF80000000 0 in
  r = 1 ∧ r2 = Some 1 ∧ m2 (0xFFFFFFFF80000000 + 56) = 0xCC ∧ sender_pid (decode_msg m2 0xFFFFFFFF80000000) = 1.
Proof. vm_compute. repeat split. Qed.

Lemma sys_port_roundtrip_witness :
  ∃ s1 w mb' s2, sys_port_send demo_open demo_user 1 0x2000 = (1, s1, w) ∧
    sys_port_recv s1 (λ _, 0x55) 1 0x3000 1 = (Some 1, mb', s2) ∧ mb' (0x3000 + 56) = 0xCC ∧ mb' (0x3000 + 312) = 0x55.
Proof.
  assert (H1 : ipc_wf demo_open).
  { pose proof (create_refines (ipc_init ipc_bss) 7) as H. change (ipc_init ipc_bss) with ipc_bss in H. specialize (H ipc_bss_wf).
    change demo_open with (impl_op ipc_bss (OpCreate 7)).2. destruct (impl_op _ _) as [r s1]. destruct (spec_op _ _). apply H. }
  assert (H2 : port_get demo_open 1 = Some ((ports demo_open).[1])) by (vm_compute; reflexivity).
  assert (H3 : port_queue ((ports demo_open).[1]) = []) by (vm_compute; reflexivity).
  assert (H4 : zlen (port_queue ((ports demo_open).[1])) < IPC_PORT_DEPTH) by (rewrite H3; vm_compute; reflexivity).
  assert (H5 : mem_bytes demo_user) by (intros x; unfold demo_user; destruct (x =? _); [lia|]; destruct (x =? _); lia).
  destruct (sys_port_roundtrip demo_open 1 _ demo_user 0x2000 (λ _, 0x55) 0x3000 1 H1 H2 H4 H5 ltac:(lia) ltac:(lia)) as (s1 & w & mb' & s2 & p2 & A & B & _ & C & _).
  exists s1, w, mb', s2. split; [exact A|]. split; [exact B|]. split; rewrite (C H3); reflexivity.
Defined.

(** ** The log and the system description *)

(** The bytes stored at [ubuf] and the result. *)
Definition sys_msgbuf_read (b : msgbuf) (ubuf size : Z) : Z * list Z :=
  if (ubuf =? 0) || (size =? 0) then (FAILED, [])
  else
    let size := if MSGBUF_SIZE <? size then MSGBUF_SIZE else size in
    let l := msgbuf_copy b size in (zlen l, l).

Definition sys_debug_log (m : mem) (k : console) (umsg len : Z) : Z * console :=
  if (umsg =? 0) || (len =? 0) || (4096 <? len) then (0, k)
  else let n := zlen (cstring (Z.to_nat len) m umsg) in (0, kwrite m k umsg n).

Definition text (s : string) : list Z := map (λ c, Z.of_N (N_of_ascii c)) (list_ascii_of_string s).
Definition sysctl_keys : list (list Z * list Z) :=
  map (λ '(k, v), (text k, text v))
    [("kern.ostype", "XOS"); ("kern.osrelease", "1.0.0"); ("kern.osversion", "XOS1"); ("kern.hostname", "x-os");
     ("kern.version", "X OS 1.0; microkernel + userspace"); ("hw.ncpu", "1"); ("hw.memsize", "536870912"); ("hw.machine", "x86_64")]%string.

(** [name] is the string at [uname]; the bytes stored at [uout] and the result. *)
Definition sys_sysctl (b : msgbuf) (uname : Z) (name : list Z) (uout out_len : Z) : Z * list Z :=
  if (uname =? 0) || (uout =? 0) || (out_len =? 0) then (FAILED, [])
  else if bool_decide (name = text "kern.msgbuf") then
    let l := msgbuf_copy b (out_len - 1) in (zlen l, l ++ [0])
  else
    match list_find (λ kv, name = kv.1) sysctl_keys with
    | None => (FAILED, [])
    | Some (_, (_, v)) =>
        let n := zlen v in
        let n := if out_len <? n + 1 then out_len - 1 else n in
        (n, take (Z.to_nat n) v ++ [0])
    end.

(** Whatever the name and the length, [sysctl] stores at most [out_len] bytes; when
    it succeeds these are a prefix of the value, the whole of it if it fits, and a
    terminator, and the result is the length of the string. *)
Lemma sysctl_bounded b uname name uout out_len :
  msgbuf_ok b → 0 ≤ out_len < 2 ^ 64 →
  let '(r, l) := sys_sysctl b uname name uout out_len in
  zlen l ≤ out_len ∧
  (r = FAILED ∧ l = [] ∨
   ∃ v pre, l = pre ++ [0] ∧ r = zlen pre ∧ pre = take (Z.to_nat (out_len - 1)) v ∧
     (v = mb_contents b ∧ name = text "kern.msgbuf" ∨ (name, v) ∈ sysctl_keys)).
Proof.
  intros Hb Hl. unfold sys_sysctl. destruct ((uname =? 0) || (uout =? 0) || (out_len =? 0)) eqn:E; [by split; [unfold zlen; cbn; lia|left]|]. bools.
  case_bool_decide as Hk.
  - rewrite copy_contents by (done || lia). split; [unfold zlen; rewrite length_app, length_take; cbn; lia|]. right.
    exists (mb_contents b), (take (Z.to_nat (out_len - 1)) (mb_contents b)). split_and!; [done|done|done|by left].
  - destruct (list_find _ _) as [[i [k v]]|] eqn:Ef; [|by split; [unfold zlen; cbn; lia|left]].
    apply list_find_Some in Ef as (Hi & Hn & _). cbn in Hn. subst k. pose proof (list_elem_of_lookup_2 _ _ _ Hi) as Hin.
    assert (Et : take (Z.to_nat (if out_len <? zlen v + 1 then out_len - 1 else zlen v)) v = take (Z.to_nat (out_len - 1)) v).
    { destruct (Z.ltb_spec out_len (zlen v + 1)); [done|]. unfold zlen in *. rewrite !take_ge by lia. done. }
    assert (Ez : (if out_len <? zlen v + 1 then out_len - 1 else zlen v) = zlen (take (Z.to_nat (out_len - 1)) v)).
    { unfold zlen. rewrite length_take. destruct (Z.ltb_spec out_len (Z.of_nat (length v) + 1)); lia. }
    rewrite Et, Ez. split; [unfold zlen; rewrite length_app, length_take; cbn; lia|]. right.
    exists v, (take (Z.to_nat (out_len - 1)) v). split_and!; [done|done|done|by right].
Qed.

(** A buffer as large as the message buffer gets the whole log. *)
Lemma msgbuf_read_all b size : msgbuf_ok b → MSGBUF_SIZE ≤ size → sys_msgbuf_read b 0x1000 size = (g_count b, mb_contents b).
Proof.
  intros Hb Hs. pose proof (mb_count _ Hb) as Hc. assert (0 < MSGBUF_SIZE) by done. unfold sys_msgbuf_read. rewrite (proj2 (Z.eqb_neq size 0)) by lia. cbn [Z.eqb orb].
  assert (E : (if MSGBUF_SIZE <? size then MSGBUF_SIZE else size) = MSGBUF_SIZE) by (destruct (Z.ltb_spec MSGBUF_SIZE size); lia). rewrite E.
  assert (Hl : zlen (mb_contents b) = g_count b) by (apply ring_contents_length; lia).
  rewrite copy_contents, take_ge by (done || (unfold zlen in Hl; lia)). by rewrite Hl.
Qed.

(** ** Processes *)

(** A row of the process list. *)
Record proc_info_t := mkInfo { inf_pid : Z; inf_ppid : Z; inf_state : proc_state_t; inf_name : list Z }.

(** The row of thread group [g], if it has one. *)
Definition info_of (s : sched) (g : Z) : option proc_info_t :=
  let p := proc_by_pid s g in
  if p =? NULLP then None
  else
    let x := proc s p in
    if is_state (state x) PROC_DEAD && reaped x then None
    else Some (mkInfo (pid x) (parent_pid x) (state x) (take 16 (name x))).

(** The loop, from [i] with [n] rows filled. *)
Fixpoint proc_list_from (k : nat) (s : sched) (i n max : Z) : list proc_info_t :=
  match k with
  | O => []
  | S k =>
      if n <? max then
        match info_of s i with
        | None => proc_list_from k s (i + 1) n max
        | Some row => row :: proc_list_from k s (i + 1) (n + 1) max
        end
      else []
  end.
Definition sys_proc_list (s : sched) (ubuf max : Z) : Z * list proc_info_t :=
  if (ubuf =? 0) || (max =? 0) || (SCHED_MAX_PROCS <? max) then (FAILED, [])
  else let l := proc_list_from (Z.to_nat (SCHED_MAX_PROCS - 1)) s 1 0 max in (zlen l, l).

Definition sys_proc_exists (s : sched) (pid : Z) : Z := if proc_by_pid s pid =? NULLP then 0 else 1.
Definition sys_getpid (s : sched) (c : Z) : Z := let p := proc_current s c in if p =? NULLP then 0 else tgid (proc s p).
Definition sys_getppid (s : sched) (c : Z) : Z := let p := proc_current s c in if p =? NULLP then 0 else parent_pid (proc s p).
Definition sys_gettid (s : sched) (c : Z) : Z := let p := proc_current s c in if p =? NULLP then 0 else tid (proc s p).

(** The loop is a scan of the thread groups cut off after [max] rows. *)
Lemma proc_list_eq s max k i n : n ≤ max →
  proc_list_from k s i n max = take (Z.to_nat (max - n)) (omap (info_of s) (seqZ i (Z.of_nat k))).
Proof.
  revert i n. induction k as [|k IH]; intros i n Hn; cbn [proc_list_from]; [change (seqZ i (Z.of_nat 0)) with (@nil Z); cbn [omap list_omap]; by rewrite take_nil|].
  rewrite seqZ_cons by lia. replace (Z.pred (Z.of_nat (S k))) with (Z.of_nat k) by lia. rewrite <- Z.add_1_r. cbn [omap list_omap].
  destruct (Z.ltb_spec n max) as [Hlt|Hge]; [|by replace (Z.to_nat (max - n)) with 0%nat by lia].
  destruct (info_of s i) as [row|]; rewrite IH by lia; [|done]. replace (Z.to_nat (max - n)) with (S (Z.to_nat (max - (n + 1)))) by lia. done.
Qed.

Lemma omap_short {A B} (f : A → option B) l : (length (omap f l) ≤ length l)%nat.
Proof. induction l as [|x l IH]; cbn [omap list_omap length]; [done|]. destruct (f x); cbn [length]; lia. Qed.

(** With room for the whole table the list has a row for exactly the thread groups
    1 to 255 that exist, in order. *)
Lemma proc_list_complete s ubuf g row :
  ubuf ≠ 0 → 1 ≤ g < SCHED_MAX_PROCS → info_of s g = Some row → row ∈ (sys_proc_list s ubuf SCHED_MAX_PROCS).2.
Proof.
  intros Hu Hg Hr. unfold sys_proc_list. rewrite (proj2 (Z.eqb_neq ubuf 0)) by done. 
  change (SCHED_MAX_PROCS <? SCHED_MAX_PROCS) with false. change (SCHED_MAX_PROCS =? 0) with false. cbn [orb snd].
  rewrite proc_list_eq by done. rewrite take_ge.
  - apply list_elem_of_omap. exists g. split; [|done]. apply elem_of_seqZ. unfold SCHED_MAX_PROCS in *. lia.
  - etransitivity; [apply omap_short|]. rewrite length_seqZ. unfold SCHED_MAX_PROCS. lia.
Qed.
